(* ===== verification/_CoqProject ===== *)
-Q . S2P
Prelude.v
Arithmetic.v
Vaddr.v
LinkedList.v
ListSort.v
Bitmap.v
Hash.v
Mem.v
Strings.v
Args.v
Qsort.v
Palloc.v
Pages.v
Malloc.v
Pagedir.v
AddressSpace.v
Block.v
Swap.v
Inode.v
Files.v
FileStore.v
Directory.v
FileSystem.v
Vm.v
VmInv.v
VmFault.v
VmEntries.v
Paging.v
Programs.v
Load.v
Sched.v
SchedInv.v
SchedSync.v
SchedStep.v
Printf.v
Console.v
Syscall.v
Ustar.v
