(* ===== verification/Prelude.v ===== *)
(** * Pintos (CSED312): a verification of the kernel

    Pintos is a small kernel for the IA-32.  This library models it in the logic of Rocq as executable
    functions, component by component, and proves what each component promises.

    ** How the program is built, and which file models what

    Paths are those of the repository, below src/.

    - Library code.  Arithmetic: lib/arithmetic.c (64-bit division).  Mem: bytes behind pointers.  Strings:
      lib/string.c.  Qsort: lib/stdlib.c and the parts of lib/ctype.h it uses.  Printf: the formatted output
      of lib/stdio.c, over any output function that keeps the promise [Sink].  Console: lib/kernel/console.c
      and lib/user/console.c, which are two of them.  Ustar: lib/ustar.c.  Vaddr: threads/vaddr.h,
      threads/pte.h, lib/round.h.  LinkedList, ListSort: lib/kernel/list.c, on a heap of cells.  Bitmap:
      lib/kernel/bitmap.c.  Hash: lib/kernel/hash.c.
    - Memory.  Palloc: threads/palloc.c, over the interface [BitArray] of Bitmap.  Malloc: threads/malloc.c.
      Pagedir: userprog/pagedir.c.  Both use only the interface [PageAlloc] of Pages, which Palloc
      implements.
    - Threads.  Sched: threads/thread.c, threads/synch.c, the sleep queue and tick handler of
      devices/timer.c and the interrupt level and timer path of threads/interrupt.c, as one machine whose
      steps are the operations of the current thread and the timer interrupt.  SchedInv, SchedSync and
      SchedStep: its invariant and its runs.
    - Storage.  Block: devices/block.c, devices/partition.c and the choice of devices in threads/init.c,
      over a driver that is a parameter ([RawDisk]); it implements [BlockDevice].  Inode, Files:
      filesys/inode.c, filesys/file.c, filesys/free-map.c over [BlockDevice].  Directory:
      filesys/directory.c and filesys/filesys.c.  FileSystem: the invariants of files and of the root
      directory together, for any sequence of calls.  Swap: vm/swap.c, over [BlockDevice]; it implements
      [SwapSpace].
    - Virtual memory.  AddressSpace and FileStore: what vm/ uses of page directories and the user pool
      ([AddressSpaces], implemented by Pagedir) and of open files ([FileStore], implemented by Files).
      Vm: vm/frame.c, vm/spt.c and the page fault path of userprog/exception.c as functions on one state.
      VmInv, VmFault, VmEntries: the invariant, eviction, page faults, segments and the end of a process.
      Paging: the main theorems, and a concrete kernel made of the implementations above.
    - Processes.  Args: argument_parse and argument_push of userprog/process.c.  Load: load,
      validate_segment and setup_stack of the same file, over Vm and the interfaces [Directories] and
      [Executables] of Programs.  Syscall: the handler and the calls on files of userprog/syscall.c,
      userprog/fd.c and process_cleanup, over FileSystem and Console.

    ** Conventions

    A C function that only computes is a Rocq function; one that changes state is a function in the monad
    [M] below, whose results are a value and a new state, or a [fault].  Integers are elements of [Z] with
    the wrap-around of their C type written out.  Null is 0 or [None].  A structure is a record, the memory
    a component owns a finite map from addresses.  Locks exclude other threads: in the sequential
    components a lock has no effect, except in Vm, where the assertions on who holds it are kept; what a
    lock does is the subject of Sched.

    A loop that is not structurally recursive takes fuel, and running out of it is the fault [FFuel].
    Where a theorem says that a call succeeds, it says that the fuel given by the definition is enough.
    The fuel is chosen from the state: the number of cells of the heap for a list (its nodes are distinct
    cells), the number of bytes of memory for a string (each round reads a new address), the number of
    sectors for a transfer, twice the number of frames and one step for the clock hand (one round clears the
    accessed bits, the next finds a victim).

    Whether malloc succeeds is an argument of the model: a list of answers in the state of the component
    that calls it.  What paging needs of its parts is counted by the interfaces: [as_room] (pages of the
    kernel pool for page directories and page tables), [st_room] (memory of the file system for transfers)
    and the free swap slots.  A theorem that lets an operation fail ties the failure to the one of these
    that is lacking in the state, so that with enough of each the operation succeeds.

    ** What the theorems show

    - Library: each routine computes what its specification function says, on every input its assertions
      admit, without a fault; lists, bitmaps and hash tables refine sequences, arrays of booleans and finite
      maps under any sequence of calls; sorting sorts, and bounded string functions stay in bounds.
    - Memory: allocators hand out memory nobody has, and get it back; a page directory maps exactly what has
      been installed in it, and destroying it frees exactly its pages.
    - Threads: the invariant of the machine holds in every reachable state, no assertion fails unless a
      caller breaks the contract of the call, locks exclude, sleepers and waiters are not forgotten.
    - Storage: a sector written is the only one that changes; reading and writing an inode is reading and
      writing an array of bytes, also through bounce buffers, and when memory runs out; the file system
      invariant holds under every call; create, open and remove do to the names and contents of files what
      they should; the swap area refines a map from slots to pages.
    - Virtual memory: under any sequence of accesses by any process, with eviction, swap, lazily loaded and
      file-backed pages and stack growth, a process reads what it last wrote, and with enough memory and
      swap all accesses are made ([Paging.paging_is_flat]); eviction ends, and keeps every page but what
      the file system does not write of a dirty page of a mapped file; a page fault brings the page in, or
      kills the process for an access it may not make or for want of memory; the end of a process gives back
      its frames and slots.
    - Output and archives: a formatted text is what its conversions say, whatever device takes it; an archive
      header that is made is parsed back, and one that is damaged is rejected.
    - Processes: a program that is loaded has the memory its headers describe, and one that is not leaves the
      other processes as they were; fetching a system call, and every call on files, keeps the files and
      descriptors of all processes sound, except for the arguments that [Syscall.prudent] excludes; what a
      process writes it reads back.

    ** Not modelled

    - Assembly and linker scripts (threads/loader.S, start.S, switch.S, intr-stubs.S, kernel.lds.S): not C;
      of switch.S the effect on the current thread is in Sched.
    - Device drivers (devices/ide.c, kbd.c, serial.c, vga.c, pit.c, rtc.c, speaker.c, shutdown.c, and the
      calibration and busy-wait delays of devices/timer.c): sequences of port accesses whose effect is that
      of the hardware.  The disk is a parameter with the documented behaviour of a disk.
    - userprog/gdt.c, userprog/tss.c and the tables of threads/interrupt.c: hardware descriptors.
    - The queue of keys (devices/intq.c, devices/input.c): system calls see the keys as a sequence.
    - process_execute, start_process and process_wait, and mappings (vm/mmap.c), with the system calls exec,
      wait, mmap and munmap: Syscall fetches their arguments and goes no further.  Of what they call, threads and semaphores are in
      Sched, loading is in Load, and the page tables of mapped files are in Vm.
    - The command line and boot sequence of threads/init.c, statistics and dumps that only print, lib/random.c,
      lib/debug.c, lib/kernel/debug.c, filesys/fsutil.c.
    - Programs that are not the kernel: lib/user but for its console, examples, tests, utils. *)

From stdpp Require Export prelude gmap list numbers sorting.
From Stdlib Require Export ZArith Lia.

#[global] Open Scope Z_scope.

(** ** Outcomes

    A kernel function either returns, or stops the machine.  The ways it can
    stop are kept apart: a failed [ASSERT], an explicit [PANIC] or
    [NOT_REACHED], a dereference of an address that holds no object, and a CPU
    exception raised by an instruction.  [FFuel] is the model's own: a loop that
    was given too little fuel; theorems that say a function returns rule it out. *)
Inductive fault :=
  | FAssert
  | FPanic
  | FMemory
  | FTrap
  | FFuel.

Inductive outcome (A : Type) :=
  | Ok (a : A)
  | Fail (f : fault).
Arguments Ok {_} _.
Arguments Fail {_} _.

#[export] Instance fault_eq_dec : EqDecision fault.
Proof. solve_decision. Defined.

#[export] Instance outcome_ret : MRet outcome := fun A a => Ok a.
#[export] Instance outcome_bind : MBind outcome := fun A B f m =>
  match m with Ok a => f a | Fail e => Fail e end.

(** ** State-and-fault monad

    [M S A] is a function that may update a state [S] and may fault. *)
Definition M (S A : Type) : Type := S -> outcome (A * S).

#[export] Instance M_ret {S} : MRet (M S) := fun A a s => Ok (a, s).
#[export] Instance M_bind {S} : MBind (M S) := fun A B f m s =>
  match m s with Ok (a, s') => f a s' | Fail e => Fail e end.

Definition fail {S A} (e : fault) : M S A := fun _ => Fail e.
Definition gets {S A} (f : S -> A) : M S A := fun s => Ok (f s, s).
Definition modify {S} (f : S -> S) : M S unit := fun s => Ok (tt, f s).

(** [ASSERT (c)] (lib/debug.h). *)
Definition ASSERT {S} (c : bool) : M S unit :=
  if c then mret tt else fail FAssert.

(** [ASSERT (c)] in a function whose state is passed explicitly. *)
Definition assert (c : bool) : outcome unit := if c then Ok tt else Fail FAssert.

Declare Scope kernel_scope.
Delimit Scope kernel_scope with kernel.
#[global] Open Scope kernel_scope.

Notation "'let*' x := m 'in' k" := (mbind (fun x => k) m)
  (at level 10, x binder, m at level 100, k at level 200,
   format "'let*'  x  :=  m  'in' '//' k") : kernel_scope.
Notation "'do*' m ; k" := (mbind (fun _ : unit => k) m)
  (at level 10, m at level 100, k at level 200,
   format "'do*'  m ; '//' k") : kernel_scope.

Lemma M_bind_Ok {S A B} (m : M S A) (k : A -> M S B) s a s' :
  m s = Ok (a, s') -> mbind k m s = k a s'.
Proof. intros E. unfold mbind, M_bind. by rewrite E. Qed.

Lemma M_bind_Fail {S A B} (m : M S A) (k : A -> M S B) s e : m s = Fail e -> mbind k m s = Fail e.
Proof. intros H. unfold mbind, M_bind. by rewrite H. Qed.
Lemma M_bind_modify {S A} (f : S -> S) (k : unit -> M S A) s : mbind k (modify f) s = k tt (f s).
Proof. done. Qed.

Lemma M_bind_assoc {S A B C} (p : M S A) (f : A -> M S B) (g : B -> M S C) s : mbind g (mbind f p) s = mbind (fun a => mbind g (f a)) p s.
Proof. unfold mbind, M_bind. by destruct (p s) as [[a s']|]. Qed.

Lemma M_bind_inv {S A B} (m : M S A) (k : A -> M S B) s r :
  mbind k m s = Ok r -> exists a s', m s = Ok (a, s') /\ k a s' = Ok r.
Proof.
  unfold mbind, M_bind. destruct (m s) as [[a s']|e] eqn:E; [|done]. eauto.
Qed.

Lemma outcome_bind_inv {A B} (m : outcome A) (k : A -> outcome B) r :
  mbind k m = Ok r -> exists a, m = Ok a /\ k a = Ok r.
Proof. destruct m; cbn; [eauto | done]. Qed.

(** ** Machine integers

    Unsigned integers are kept in [0 .. 2^w); signed ones in
    [-2^(w-1) .. 2^(w-1)).  The conversions write out the wrap-around. *)
Definition u8 (z : Z) : Z := z mod 2 ^ 8.
Definition u32 (z : Z) : Z := z mod 2 ^ 32.
Definition u64 (z : Z) : Z := z mod 2 ^ 64.
Definition s32 (z : Z) : Z := (z + 2 ^ 31) mod 2 ^ 32 - 2 ^ 31.
Definition s64 (z : Z) : Z := (z + 2 ^ 63) mod 2 ^ 64 - 2 ^ 63.

Definition is_u8 (z : Z) : Prop := 0 <= z < 2 ^ 8.
Definition is_u32 (z : Z) : Prop := 0 <= z < 2 ^ 32.
Definition is_u64 (z : Z) : Prop := 0 <= z < 2 ^ 64.
Definition is_s32 (z : Z) : Prop := - 2 ^ 31 <= z < 2 ^ 31.
Definition is_s64 (z : Z) : Prop := - 2 ^ 63 <= z < 2 ^ 63.

#[export] Instance is_u8_dec z : Decision (is_u8 z).
Proof. unfold is_u8. apply _. Defined.
#[export] Instance is_u32_dec z : Decision (is_u32 z).
Proof. unfold is_u32. apply _. Defined.
#[export] Instance is_u64_dec z : Decision (is_u64 z).
Proof. unfold is_u64. apply _. Defined.
#[export] Instance is_s32_dec z : Decision (is_s32 z).
Proof. unfold is_s32. apply _. Defined.
#[export] Instance is_s64_dec z : Decision (is_s64 z).
Proof. unfold is_s64. apply _. Defined.

Lemma u8_small z : is_u8 z -> u8 z = z.
Proof. unfold is_u8, u8. intros. by apply Z.mod_small. Qed.
Lemma u32_small z : is_u32 z -> u32 z = z.
Proof. unfold is_u32, u32. intros. by apply Z.mod_small. Qed.
Lemma u64_small z : is_u64 z -> u64 z = z.
Proof. unfold is_u64, u64. intros. by apply Z.mod_small. Qed.
Lemma s32_small z : is_s32 z -> s32 z = z.
Proof. unfold is_s32, s32. intros. rewrite Z.mod_small; lia. Qed.
Lemma s32_neg z : 2 ^ 31 <= z < 2 ^ 32 -> s32 z = z - 2 ^ 32.
Proof. unfold s32. intros. rewrite <- (Z.mod_unique (z + 2 ^ 31) (2 ^ 32) 1 (z - 2 ^ 31)); lia. Qed.
Lemma s64_small z : is_s64 z -> s64 z = z.
Proof. unfold is_s64, s64. intros. rewrite Z.mod_small; lia. Qed.

Lemma u8_range z : is_u8 (u8 z).
Proof. unfold is_u8, u8. apply Z.mod_pos_bound. lia. Qed.
Lemma u32_range z : is_u32 (u32 z).
Proof. unfold is_u32, u32. apply Z.mod_pos_bound. lia. Qed.
Lemma u64_range z : is_u64 (u64 z).
Proof. unfold is_u64, u64. apply Z.mod_pos_bound. lia. Qed.
Lemma s32_range z : is_s32 (s32 z).
Proof.
  unfold is_s32, s32. pose proof (Z.mod_pos_bound (z + 2 ^ 31) (2 ^ 32)). lia.
Qed.
Lemma s64_range z : is_s64 (s64 z).
Proof.
  unfold is_s64, s64. pose proof (Z.mod_pos_bound (z + 2 ^ 63) (2 ^ 64)). lia.
Qed.

(** [pow2_consts] replaces the powers of two of the integer types by their
    values, so that [lia] sees constants. *)
Ltac pow2_consts :=
  change (2 ^ 8) with 256 in *;
  change (2 ^ 18) with 262144 in *;
  change (2 ^ 20) with 1048576 in *;
  change (2 ^ 30) with 1073741824 in *;
  change (2 ^ 31) with 2147483648 in *;
  change (2 ^ 32) with 4294967296 in *;
  change (2 ^ 63) with 9223372036854775808 in *;
  change (2 ^ 64) with 18446744073709551616 in *.

Ltac int_unfold :=
  unfold is_u8, is_u32, is_u64, is_s32, is_s64, u8, u32, u64, s32, s64 in *;
  pow2_consts.

(** [solve_int] proves goals about the ranges of machine integers. *)
Ltac solve_int := int_unfold; lia.

(** An equation between closed terms, left to the kernel's conversion. *)
Ltac by_kernel := match goal with |- _ = ?x => exact_no_check (eq_refl x) end.

(** ** Answers of malloc *)

(** Where the next [k] allocations succeed, so do [n] of them after the first [m]. *)
Lemma replicate_prefix_drop (m n k : nat) (l : list bool) : (m + n <= k)%nat -> replicate k true `prefix_of` l -> replicate n true `prefix_of` drop m l.
Proof.
  intros H [r ->]. rewrite drop_app_le by (rewrite length_replicate; lia). rewrite drop_replicate. exists (replicate (k - m - n) true ++ r).
  rewrite app_assoc, <- replicate_add. do 2 f_equal. lia.
Qed.

(** ** Bit masks *)

Lemma land_low x k : 0 <= k -> Z.land x (2 ^ k - 1) = x mod 2 ^ k.
Proof. intros. by rewrite <- Z.land_ones, Z.ones_equiv, Z.sub_1_r by done. Qed.

(** Clearing the [k] low bits of a [w]-bit value rounds it down. *)
Lemma land_high x k w :
  0 <= k <= w -> 0 <= x < 2 ^ w ->
  Z.land x (2 ^ w - 2 ^ k) = x - x mod 2 ^ k.
Proof.
  intros Hk Hx.
  assert (E : 2 ^ w - 2 ^ k = Z.shiftl (Z.ones (w - k)) k).
  { rewrite Z.shiftl_mul_pow2, Z.ones_equiv by lia.
    rewrite <- Z.sub_1_r, Z.mul_sub_distr_r, <- Z.pow_add_r by lia.
    replace (w - k + k) with w by lia. lia. }
  rewrite E. clear E.
  assert (Hd : Z.land x (Z.shiftl (Z.ones (w - k)) k) = Z.ldiff x (Z.ones k)).
  { apply Z.bits_inj'. intros n Hn.
    rewrite Z.land_spec, Z.ldiff_spec, Z.shiftl_spec, !Z.testbit_ones by lia.
    destruct (Z.lt_ge_cases n w).
    - destruct (Z.leb_spec 0 (n - k)), (Z.leb_spec 0 n), (Z.ltb_spec (n - k) (w - k)),
        (Z.ltb_spec n k); try lia; by destruct (Z.testbit x n).
    - rewrite <- (Z.mod_small x (2 ^ w)), Z.mod_pow2_bits_high by lia. done. }
  rewrite Hd, Z.ldiff_ones_r, Z.shiftl_mul_pow2, Z.shiftr_div_pow2 by lia.
  assert (2 ^ k <> 0) by (apply Z.pow_nonzero; lia).
  pose proof (Z.div_mod x (2 ^ k)). lia.
Qed.

(** Setting flag bits in a value whose [k] low bits are clear is an addition. *)
Lemma lor_disjoint x y k :
  0 <= k -> x mod 2 ^ k = 0 -> 0 <= y < 2 ^ k -> Z.lor x y = x + y.
Proof.
  intros Hk Hx Hy.
  assert (H0 : Z.land x y = 0).
  { apply Z.bits_inj'. intros n Hn. rewrite Z.land_spec, Z.bits_0.
    destruct (Z.lt_ge_cases n k).
    - by rewrite <- (Z.mod_pow2_bits_low x k n), Hx, Z.bits_0 by lia.
    - rewrite <- (Z.mod_small y (2 ^ k)), Z.mod_pow2_bits_high by lia. apply andb_false_r. }
  rewrite <- Z.lxor_lor by done. symmetry. by apply Z.add_nocarry_lxor.
Qed.

(** A single-bit test [(x & (1 << i)) != 0]. *)
Lemma land_bit_testbit x i : 0 <= i -> negb (Z.land x (2 ^ i) =? 0) = Z.testbit x i.
Proof.
  intros Hi. destruct (Z.testbit x i) eqn:E.
  - apply negb_true_iff, Z.eqb_neq. intros H0.
    assert (Hb : Z.testbit (Z.land x (2 ^ i)) i = false) by (rewrite H0; apply Z.bits_0).
    rewrite Z.land_spec, E, Z.pow2_bits_true in Hb by lia. done.
  - apply negb_false_iff, Z.eqb_eq. apply Z.bits_inj'. intros n Hn.
    rewrite Z.land_spec, Z.bits_0. destruct (Z.eq_dec n i) as [->|]; [by rewrite E|].
    rewrite Z.pow2_bits_false by lia. apply andb_false_r.
Qed.

Create HintDb pintos discriminated.
#[export] Hint Resolve u8_range u32_range u64_range s32_range s64_range : pintos.
