(* ===== verification/Arithmetic.v ===== *)
(** * 64-bit division routines (src/lib/arithmetic.c)

    The x86 has no 64-by-64-bit division, so the kernel carries its own: a
    64-by-32 [divl] instruction and two algorithms on top of it.  The model keeps
    every intermediate value at its C width and makes the [#DE] trap of [divl]
    (division by zero, quotient wider than 32 bits) an outcome, so the theorems
    say both that the results are right and that no trap occurs. *)

From S2P Require Import Prelude.

Module Arithmetic.

(** The [divl] instruction on the 64-bit dividend [n1:n0]. *)
Definition divl (n d : Z) : outcome Z :=
  let n1 := u32 (Z.shiftr n 32) in
  let n0 := u32 n in
  let q := (n1 * 2 ^ 32 + n0) / d in
  if (d =? 0) || (2 ^ 32 <=? q) then Fail FTrap else Ok q.

Definition nlz (x : Z) : Z :=
  let n := 0 in
  let '(n, x) := if x <=? 0x0000FFFF then (n + 16, u32 (Z.shiftl x 16)) else (n, x) in
  let '(n, x) := if x <=? 0x00FFFFFF then (n + 8, u32 (Z.shiftl x 8)) else (n, x) in
  let '(n, x) := if x <=? 0x0FFFFFFF then (n + 4, u32 (Z.shiftl x 4)) else (n, x) in
  let '(n, x) := if x <=? 0x3FFFFFFF then (n + 2, u32 (Z.shiftl x 2)) else (n, x) in
  if x <=? 0x7FFFFFFF then n + 1 else n.

Definition udiv64 (n d : Z) : outcome Z :=
  if Z.shiftr d 32 =? 0 then
    let b := Z.shiftl 1 32 in
    let n1 := u32 (Z.shiftr n 32) in
    let n0 := u32 n in
    let d0 := u32 d in
    if d0 =? 0 then Fail FTrap   (* n1 % d0 and n1 / d0 are divisions too *)
    else
      let* q := divl (u64 (b * (n1 mod d0) + n0)) d0 in
      mret (u64 (q + u64 (b * (n1 / d0))))
  else if n <? d then mret 0
  else
    let d1 := u32 (Z.shiftr d 32) in
    let s := nlz d1 in
    let* q0 := divl (Z.shiftr n 1) (u32 (Z.shiftr (u64 (Z.shiftl d s)) 32)) in
    let q := Z.shiftr q0 (31 - s) in
    mret (if u64 (n - u64 (u64 (q - 1) * d)) <? d then u64 (q - 1) else q).

(** The return type of the C function is [uint32_t]: the 64-bit difference is
    truncated. *)
Definition umod64 (n d : Z) : outcome Z :=
  let* q := udiv64 n d in
  mret (u32 (u64 (n - u64 (d * q)))).

Definition sdiv64 (n d : Z) : outcome Z :=
  let n_abs := if 0 <=? n then u64 n else u64 (- u64 n) in
  let d_abs := if 0 <=? d then u64 d else u64 (- u64 d) in
  let* q_abs := udiv64 n_abs d_abs in
  mret (if eqb (n <? 0) (d <? 0) then s64 q_abs else s64 (- s64 q_abs)).

(** Like [umod64], the result is truncated, here to [int32_t]. *)
Definition smod64 (n d : Z) : outcome Z :=
  let* q := sdiv64 n d in
  mret (s32 (s64 (n - s64 (d * q)))).

Definition __divdi3 (n d : Z) : outcome Z := sdiv64 n d.
Definition __moddi3 (n d : Z) : outcome Z := smod64 n d.
Definition __udivdi3 (n d : Z) : outcome Z := udiv64 n d.
Definition __umoddi3 (n d : Z) : outcome Z := umod64 n d.

(** ** Lemmas *)

Lemma divl_ok n d :
  is_u64 n -> 0 < d -> n / d < 2 ^ 32 -> divl n d = Ok (n / d).
Proof.
  intros Hn Hd Hq. unfold divl.
  assert (En : u32 (Z.shiftr n 32) * 2 ^ 32 + u32 n = n).
  { rewrite Z.shiftr_div_pow2 by lia. int_unfold.
    rewrite (Z.mod_small (n / _)); [|split; [apply Z.div_pos|apply Z.div_lt_upper_bound]; lia].
    pose proof (Z.div_mod n 4294967296). lia. }
  rewrite En. rewrite (proj2 (Z.eqb_neq d 0)) by lia.
  by rewrite (proj2 (Z.leb_gt _ _) Hq).
Qed.

(** One halving step of [nlz]: the shifted value keeps the same bits and reaches
    the upper [k] bits of the word. *)
Lemma nlz_step x0 n x k c :
  0 <= n -> 0 < k <= 16 -> c = 2 ^ (32 - k) - 1 ->
  x0 * 2 ^ n = x -> 2 ^ (32 - 2 * k) <= x < 2 ^ 32 ->
  exists n' x',
    (if x <=? c then (n + k, u32 (Z.shiftl x k)) else (n, x)) = (n', x') /\
    n <= n' <= n + k /\ x0 * 2 ^ n' = x' /\ 2 ^ (32 - k) <= x' < 2 ^ 32.
Proof.
  intros Hn Hk -> <- Hx. destruct (Z.leb_spec (x0 * 2 ^ n) (2 ^ (32 - k) - 1)).
  - assert (E1 : 2 ^ 32 = 2 ^ (32 - k) * 2 ^ k) by (rewrite <- Z.pow_add_r by lia; f_equal; lia).
    assert (E2 : 2 ^ (32 - k) = 2 ^ (32 - 2 * k) * 2 ^ k)
      by (rewrite <- Z.pow_add_r by lia; f_equal; lia).
    assert (0 < 2 ^ k) by (apply Z.pow_pos_nonneg; lia).
    rewrite Z.shiftl_mul_pow2 by lia. rewrite u32_small by (unfold is_u32; nia).
    eexists _, _. split; [reflexivity|]. rewrite Z.pow_add_r by lia.
    split; [lia|]. split; [ring|]. nia.
  - eexists _, _. split; [reflexivity|]. lia.
Qed.

(** [nlz] counts the leading zeros of a nonzero 32-bit value: shifting by the
    count brings the top bit to position 31. *)
Lemma nlz_spec x :
  0 < x < 2 ^ 32 -> 0 <= nlz x <= 31 /\ 2 ^ 31 <= x * 2 ^ nlz x < 2 ^ 32.
Proof.
  intros Hx. unfold nlz.
  edestruct (nlz_step x 0 x 16) as (n1 & x1 & -> & Hn1 & E1 & Hx1); [lia..|].
  edestruct (nlz_step x n1 x1 8) as (n2 & x2 & -> & Hn2 & E2 & Hx2); [lia..|].
  edestruct (nlz_step x n2 x2 4) as (n3 & x3 & -> & Hn3 & E3 & Hx3); [lia..|].
  edestruct (nlz_step x n3 x3 2) as (n4 & x4 & -> & Hn4 & E4 & Hx4); [lia..|].
  destruct (Z.leb_spec x4 0x7FFFFFFF); [|lia].
  rewrite Z.pow_add_r, Z.mul_assoc, E4 by lia. lia.
Qed.

(** The estimate of the normalised division: with [v] the top 32 bits of [d]
    shifted left by [s], the truncated quotient is the real one or one more. *)
Lemma udiv64_estimate n d s v :
  0 <= s <= 31 -> d <= n < 2 ^ 64 -> 2 ^ 32 <= d ->
  v = d * 2 ^ s / 2 ^ 32 -> 2 ^ 31 <= v < 2 ^ 32 ->
  n / d <= n / 2 / v / 2 ^ (31 - s) <= n / d + 1.
Proof.
  intros Hs Hn Hd Ev Hv.
  assert (HP : 0 < 2 ^ s) by (apply Z.pow_pos_nonneg; lia).
  assert (HQ : 0 < 2 ^ (31 - s)) by (apply Z.pow_pos_nonneg; lia).
  assert (HPQ : 2 ^ s * 2 ^ (31 - s) = 2 ^ 31) by (rewrite <- Z.pow_add_r by lia; f_equal; lia).
  rewrite !Z.div_div by lia.
  set (P := 2 ^ s) in *. set (Q := 2 ^ (31 - s)) in *.
  set (D := 2 * v * Q).
  replace (2 * (v * Q)) with D by (unfold D; ring).
  assert (HD : D <= d /\ d - D <= 2 * Q - 1).
  { assert (v * 2 ^ 32 <= d * P < (v + 1) * 2 ^ 32).
    { subst v. pose proof (Z.div_mod (d * P) (2 ^ 32)).
      pose proof (Z.mod_pos_bound (d * P) (2 ^ 32)). lia. }
    assert (P * D = v * 2 ^ 32) by (unfold D; nia).
    assert (P * (2 * Q) = 2 ^ 32) by nia. unfold D in *. nia. }
  assert (HDpos : 0 < D) by (unfold D; nia).
  split.
  - apply Z.div_le_lower_bound; [lia|].
    pose proof (Z.mul_div_le n d). nia.
  - apply Z.lt_succ_r, Z.div_lt_upper_bound; [lia|].
    pose proof (Z.mul_succ_div_gt n d ltac:(lia)) as Hgt.
    assert (Hq : n / d + 1 <= 2 * P).
    { apply Z.le_succ_l, Z.div_lt_upper_bound; [lia|].
      assert (2 ^ 32 * Q <= D) by (unfold D; nia).
      assert (2 ^ 32 * Q * (2 * P) = 2 ^ 64) by lia. nia. }
    assert (Hsmall : (n / d + 1) * (2 * Q - 1) <= D).
    { assert (2 * P * (2 * Q - 1) <= 2 ^ 32 * Q).
      { destruct (Z.eq_dec Q 1); [|nia]. nia. }
      unfold D. nia. }
    unfold Z.succ in *. nia.
Qed.

(** The final correction picks the right one of the two candidates. *)
Lemma udiv64_fixup n d q :
  is_u64 n -> is_u64 d -> 2 ^ 32 <= d -> d <= n ->
  n / d <= q <= n / d + 1 ->
  (if u64 (n - u64 (u64 (q - 1) * d)) <? d then u64 (q - 1) else q) = n / d.
Proof.
  intros Hn Hd Hd32 Hge Hq.
  pose proof (Z.div_mod n d ltac:(lia)) as E. pose proof (Z.mod_pos_bound n d ltac:(lia)).
  assert (1 <= n / d) by (apply Z.div_le_lower_bound; lia).
  unfold is_u64 in *.
  rewrite (u64_small (q - 1)) by (unfold is_u64; nia).
  rewrite (u64_small ((q - 1) * d)) by (unfold is_u64; nia).
  rewrite u64_small by (unfold is_u64; nia).
  destruct (Z.ltb_spec (n - (q - 1) * d) d); nia.
Qed.

Lemma udiv64_large n d :
  is_u64 n -> is_u64 d -> 2 ^ 32 <= d -> d <= n ->
  (let d1 := u32 (d / 2 ^ 32) in
   let s := nlz d1 in
   let* q0 := divl (n / 2 ^ 1) (u32 (u64 (Z.shiftl d s) / 2 ^ 32)) in
   let q := Z.shiftr q0 (31 - s) in
   mret (if u64 (n - u64 (u64 (q - 1) * d)) <? d then u64 (q - 1) else q))
  = Ok (n / d).
Proof.
  intros Hn Hd Hd32 Hge. cbv zeta.
  assert (Hd1 : 0 < d / 2 ^ 32 < 2 ^ 32)
    by (split; [apply Z.div_str_pos|apply Z.div_lt_upper_bound]; solve_int).
  rewrite (u32_small (d / 2 ^ 32)) by solve_int.
  destruct (nlz_spec (d / 2 ^ 32) Hd1) as [Hs Hd1s].
  set (s := nlz (d / 2 ^ 32)) in *.
  assert (HP : 0 < 2 ^ s) by (apply Z.pow_pos_nonneg; lia).
  assert (Hds : d / 2 ^ 32 * 2 ^ 32 * 2 ^ s <= d * 2 ^ s < 2 ^ 64).
  { pose proof (Z.div_mod d (2 ^ 32) ltac:(lia)).
    pose proof (Z.mod_pos_bound d (2 ^ 32)).
    assert ((d / 2 ^ 32 + 1) * 2 ^ s <= 2 ^ 32).
    { assert (2 ^ 32 = 2 ^ (32 - s) * 2 ^ s)
        by (rewrite <- Z.pow_add_r by lia; f_equal; lia). nia. }
    nia. }
  rewrite Z.shiftl_mul_pow2 by lia. rewrite (u64_small (d * 2 ^ s)) by (unfold is_u64; nia).
  set (v := d * 2 ^ s / 2 ^ 32).
  assert (Hv : 2 ^ 31 <= v < 2 ^ 32)
    by (split; [apply Z.div_le_lower_bound|apply Z.div_lt_upper_bound]; nia).
  rewrite (u32_small v) by solve_int. change (2 ^ 1) with 2.
  assert (Hn2 : 0 <= n / 2 < 2 ^ 63)
    by (split; [apply Z.div_pos|apply Z.div_lt_upper_bound]; solve_int).
  rewrite divl_ok; [|solve_int..|apply Z.div_lt_upper_bound; nia].
  cbn [mbind outcome_bind]. rewrite Z.shiftr_div_pow2 by lia.
  destruct (udiv64_estimate n d s v) as [Hlo Hhi]; [unfold is_u64 in *; lia..|].
  set (q := n / 2 / v / 2 ^ (31 - s)) in *.
  unfold mret, outcome_ret. f_equal. apply udiv64_fixup; done.
Qed.

Lemma udiv64_ok n d :
  is_u64 n -> is_u64 d -> d <> 0 -> udiv64 n d = Ok (n / d).
Proof.
  intros Hn Hd Hd0. unfold udiv64. rewrite !Z.shiftr_div_pow2 by lia.
  destruct (Z.eqb_spec (d / 2 ^ 32) 0) as [Hsmall|Hbig].
  - apply Z.div_small_iff in Hsmall; [|lia].
    rewrite (u32_small d) by solve_int.
    rewrite (proj2 (Z.eqb_neq d 0)) by done.
    assert (Hn1 : 0 <= n / 2 ^ 32 < 2 ^ 32)
      by (split; [apply Z.div_pos|apply Z.div_lt_upper_bound]; solve_int).
    rewrite (u32_small (n / 2 ^ 32)) by solve_int.
    set (n1 := n / 2 ^ 32) in *. set (n0 := u32 n).
    assert (En : n = 2 ^ 32 * n1 + n0) by (apply Z.div_mod; lia).
    pose proof (u32_range n) as Hn0. fold n0 in Hn0. unfold is_u32 in Hn0.
    change (Z.shiftl 1 32) with (2 ^ 32).
    pose proof (Z.mod_pos_bound n1 d). pose proof (Z.div_mod n1 d Hd0) as E1.
    assert (Eq : (2 ^ 32 * (n1 mod d) + n0) / d = n / d - 2 ^ 32 * (n1 / d)).
    { rewrite En. replace (2 ^ 32 * n1 + n0) with
        (2 ^ 32 * (n1 mod d) + n0 + 2 ^ 32 * (n1 / d) * d) by nia.
      rewrite Z.div_add by done. lia. }
    assert (Hlt : (2 ^ 32 * (n1 mod d) + n0) / d < 2 ^ 32)
      by (apply Z.div_lt_upper_bound; nia).
    rewrite (u64_small (2 ^ 32 * (n1 mod d) + n0)) by (unfold is_u64; nia).
    rewrite divl_ok by (unfold is_u64; nia). cbn. f_equal. rewrite Eq.
    assert (0 <= n1 / d) by (apply Z.div_pos; lia).
    assert (0 <= (2 ^ 32 * (n1 mod d) + n0) / d) by (apply Z.div_pos; nia).
    assert (n / d <= n) by (apply Z.div_le_upper_bound; unfold is_u64 in *; nia).
    rewrite (u64_small (2 ^ 32 * (n1 / d))) by solve_int.
    rewrite u64_small; [lia|]. solve_int.
  - assert (Hd32 : 2 ^ 32 <= d).
    { destruct (Z.le_gt_cases (2 ^ 32) d); [done|].
      rewrite Z.div_small in Hbig; solve_int. }
    destruct (Z.ltb_spec n d) as [Hlt|Hge].
    { cbn. f_equal. symmetry. apply Z.div_small. solve_int. }
    apply udiv64_large; solve_int.
Qed.

(** ** Properties *)

(** C15: [udiv64] computes the unsigned 64-bit quotient for every nonzero divisor,
    and neither of its [divl] instructions traps; a zero divisor does trap. *)
Theorem udiv64_correct n d :
  is_u64 n -> is_u64 d -> udiv64 n d = if d =? 0 then Fail FTrap else Ok (n / d).
Proof.
  intros Hn Hd. destruct (Z.eqb_spec d 0) as [->|Hd0]; [reflexivity|by apply udiv64_ok].
Qed.

Lemma udiv64_correct_witness :
  udiv64 0xFFFFFFFFFFFFFFFF 0x100000001 = Ok 0xFFFFFFFF.
Proof. apply (udiv64_correct 0xFFFFFFFFFFFFFFFF 0x100000001); solve_int. Defined.

(** The absolute value that [sdiv64] forms with an unsigned negation. *)
Lemma abs64 n : is_s64 n -> (if 0 <=? n then u64 n else u64 (- u64 n)) = Z.abs n.
Proof.
  intros Hn. destruct (Z.leb_spec 0 n).
  - rewrite u64_small; solve_int.
  - int_unfold. rewrite <- (Z_mod_plus_full n 1), (Z.mod_small (n + _)) by lia.
    rewrite <- (Z_mod_plus_full _ 1), Z.mod_small; lia.
Qed.

Lemma s64_eqm z k : s64 (z + k * 2 ^ 64) = s64 z.
Proof.
  unfold s64. replace (z + k * 2 ^ 64 + 2 ^ 63) with (z + 2 ^ 63 + k * 2 ^ 64) by ring.
  by rewrite Z_mod_plus_full.
Qed.

Lemma s64_unfold z : exists k, s64 z = z + k * 2 ^ 64.
Proof.
  exists (- ((z + 2 ^ 63) / 2 ^ 64)). unfold s64.
  pose proof (Z.div_mod (z + 2 ^ 63) (2 ^ 64)). lia.
Qed.

Lemma s64_opp z : s64 (- s64 z) = s64 (- z).
Proof.
  destruct (s64_unfold z) as [k ->].
  replace (- (z + k * 2 ^ 64)) with (- z + - k * 2 ^ 64) by ring. apply s64_eqm.
Qed.

Lemma s64_sub_mul n d q : s64 (n - s64 (d * s64 q)) = s64 (n - d * q).
Proof.
  destruct (s64_unfold q) as [k ->].
  destruct (s64_unfold (d * (q + k * 2 ^ 64))) as [k' ->].
  replace (n - (d * (q + k * 2 ^ 64) + k' * 2 ^ 64))
    with (n - d * q + (- d * k - k') * 2 ^ 64) by ring. apply s64_eqm.
Qed.

Lemma sdiv64_quot n d :
  is_s64 n -> is_s64 d -> d <> 0 -> sdiv64 n d = Ok (s64 (Z.quot n d)).
Proof.
  intros Hn Hd Hd0. unfold sdiv64. rewrite !abs64 by done.
  rewrite udiv64_ok by solve_int. cbn [mbind outcome_bind mret outcome_ret].
  f_equal.
  assert (E : Z.quot n d = Z.sgn n * Z.sgn d * (Z.abs n / Z.abs d)).
  { rewrite Z.quot_div by done. ring. }
  destruct (Z.ltb_spec n 0), (Z.ltb_spec d 0); cbn [eqb]; rewrite ?s64_opp; f_equal; rewrite E;
    rewrite ?(Z.sgn_neg n), ?(Z.sgn_neg d), ?(Z.sgn_pos d) by lia; try lia;
    destruct (Z.eq_dec n 0) as [->|]; [done| |done|]; rewrite (Z.sgn_pos n) by lia; lia.
Qed.

Lemma quot_abs_bound n d :
  d <> 0 -> Z.abs (Z.quot n d) <= Z.abs n /\
            (2 <= Z.abs d -> 2 * Z.abs (Z.quot n d) <= Z.abs n).
Proof.
  intros Hd. rewrite <- Z.quot_abs by done.
  pose proof (Z.mul_quot_le (Z.abs n) (Z.abs d)).
  assert (0 <= Z.quot (Z.abs n) (Z.abs d)) by (apply Z.quot_pos; lia). split; nia.
Qed.

(** [__divdi3] computes the quotient truncated towards zero; the only input
    where the result is not the mathematical quotient is [INT64_MIN / -1], which
    wraps to [INT64_MIN]. *)
Theorem divdi3_correct n d :
  is_s64 n -> is_s64 d -> d <> 0 ->
  __divdi3 n d = Ok (if (n =? - 2 ^ 63) && (d =? -1) then - 2 ^ 63 else Z.quot n d).
Proof.
  intros Hn Hd Hd0. unfold __divdi3. rewrite sdiv64_quot by done. f_equal.
  destruct (Z.eqb_spec n (- 2 ^ 63)) as [En|], (Z.eqb_spec d (-1)) as [Ed|];
    cbn [andb]; [by rewrite En, Ed|..]; apply s64_small;
    destruct (quot_abs_bound n d Hd0) as [H1 H2]; unfold is_s64 in *; try lia.
  destruct (Z.eq_dec d 1) as [->|]; [rewrite Z.quot_1_r|specialize (H2 ltac:(lia))]; lia.
Qed.

Lemma umoddi3_ok n d : is_u64 n -> is_u64 d -> 0 < d -> __umoddi3 n d = Ok (u32 (n mod d)).
Proof.
  intros Hn Hd Hdp. unfold __umoddi3, umod64. rewrite udiv64_ok by (done || lia). cbn. do 2 f_equal.
  pose proof (Z.div_mod n d). pose proof (Z.mod_pos_bound n d Hdp).
  assert (0 <= n / d) by (apply Z.div_pos; unfold is_u64 in *; lia).
  unfold is_u64 in *. rewrite (u64_small (d * (n / d))) by (unfold is_u64; nia).
  rewrite u64_small by (unfold is_u64; nia). lia.
Qed.

(** the remainder routines return the remainder truncated to 32 bits, so they
    are exact whenever the remainder fits the 32-bit return type of [umod64] and
    [smod64] (in particular for every 32-bit divisor). *)
Theorem moddi3_correct n d :
  is_s64 n -> is_s64 d -> d <> 0 ->
  __moddi3 n d = Ok (s32 (Z.rem n d)) /\
  (is_s32 (Z.rem n d) -> __moddi3 n d = Ok (Z.rem n d)) /\
  (0 <= n -> 0 < d -> __umoddi3 n d = Ok (u32 (n mod d)) /\
                      (d <= 2 ^ 32 -> __umoddi3 n d = Ok (n mod d))).
Proof.
  intros Hn Hd Hd0.
  assert (E : __moddi3 n d = Ok (s32 (Z.rem n d))).
  { unfold __moddi3, smod64. rewrite sdiv64_quot by done. cbn. do 2 f_equal.
    rewrite s64_sub_mul. replace (n - d * Z.quot n d) with (Z.rem n d)
      by (pose proof (Z.quot_rem n d Hd0); lia).
    apply s64_small. pose proof (Z.rem_bound_abs n d Hd0). solve_int. }
  split; [done|]. split; [intros Hr; rewrite E; by rewrite s32_small|].
  intros Hn0 Hdp.
  assert (Eu := umoddi3_ok n d ltac:(solve_int) ltac:(solve_int) Hdp).
  split; [done|]. intros Hd32. rewrite Eu, u32_small; [done|].
  pose proof (Z.mod_pos_bound n d Hdp). solve_int.
Qed.

(** the truncation is observable: there are unsigned 64-bit operands for which
    [__umoddi3] returns a value that is not the remainder. *)
Theorem umoddi3_truncates :
  exists n d, is_u64 n /\ is_u64 d /\ d <> 0 /\ n mod d = 2 ^ 32 /\
              __umoddi3 n d = Ok 0.
Proof. exists (2 ^ 32), (2 ^ 33). repeat split; try done; vm_compute; done. Qed.

End Arithmetic.
