(* ===== verification/Vaddr.v ===== *)
(** * Virtual addresses and page-table entries

    src/threads/vaddr.h, src/threads/pte.h and the rounding macros of
    src/lib/round.h.  Addresses are 32-bit values in [Z]. *)

From S2P Require Import Prelude.

Module Vaddr.

(** ** lib/round.h *)
Definition ROUND_UP (x step : Z) : Z := (x + step - 1) / step * step.
Definition DIV_ROUND_UP (x step : Z) : Z := (x + step - 1) / step.

(** ** threads/vaddr.h *)
Definition BITMASK (shift cnt : Z) : Z := Z.shiftl (Z.shiftl 1 cnt - 1) shift.
Definition PGSHIFT : Z := 0.
Definition PGBITS : Z := 12.
Definition PGSIZE : Z := Z.shiftl 1 PGBITS.
Definition PGMASK : Z := BITMASK PGSHIFT PGBITS.
Definition PHYS_BASE : Z := 0xc0000000.

(** [~mask] on an unsigned 32-bit value. *)
Definition not32 (m : Z) : Z := 2 ^ 32 - 1 - m.

Definition pg_ofs (va : Z) : Z := Z.land va PGMASK.
Definition pg_no (va : Z) : Z := Z.shiftr va PGBITS.
Definition pg_round_up (va : Z) : Z := Z.land (u32 (va + PGSIZE - 1)) (not32 PGMASK).
Definition pg_round_down (va : Z) : Z := Z.land va (not32 PGMASK).
Definition is_user_vaddr (va : Z) : bool := va <? PHYS_BASE.
Definition is_kernel_vaddr (va : Z) : bool := PHYS_BASE <=? va.

Definition ptov (paddr : Z) : outcome Z :=
  if paddr <? PHYS_BASE then Ok (u32 (paddr + PHYS_BASE)) else Fail FAssert.
Definition vtop (va : Z) : outcome Z :=
  if is_kernel_vaddr va then Ok (u32 (va - PHYS_BASE)) else Fail FAssert.

(** ** threads/pte.h *)
Definition PTSHIFT : Z := PGBITS.
Definition PTBITS : Z := 10.
Definition PTMASK : Z := BITMASK PTSHIFT PTBITS.
Definition PDSHIFT : Z := PTSHIFT + PTBITS.

Definition pt_no (va : Z) : Z := Z.shiftr (Z.land va PTMASK) PTSHIFT.
Definition pd_no (va : Z) : Z := Z.shiftr va PDSHIFT.

Definition PTE_FLAGS : Z := 0x00000fff.
Definition PTE_ADDR : Z := 0xfffff000.
Definition PTE_P : Z := 0x1.
Definition PTE_W : Z := 0x2.
Definition PTE_U : Z := 0x4.
Definition PTE_A : Z := 0x20.
Definition PTE_D : Z := 0x40.

Definition pde_create (pt : Z) : outcome Z :=
  if pg_ofs pt =? 0 then
    let* p := vtop pt in
    mret (Z.lor (Z.lor (Z.lor p PTE_U) PTE_P) PTE_W)
  else Fail FAssert.

Definition pde_get_pt (pde : Z) : outcome Z :=
  if Z.land pde PTE_P =? 0 then Fail FAssert else ptov (Z.land pde PTE_ADDR).

Definition pte_create_kernel (page : Z) (writable : bool) : outcome Z :=
  if pg_ofs page =? 0 then
    let* p := vtop page in
    mret (Z.lor (Z.lor p PTE_P) (if writable then PTE_W else 0))
  else Fail FAssert.

Definition pte_create_user (page : Z) (writable : bool) : outcome Z :=
  let* pte := pte_create_kernel page writable in
  mret (Z.lor pte PTE_U).

Definition pte_get_page (pte : Z) : outcome Z := ptov (Z.land pte PTE_ADDR).

(** ** Lemmas: masks as arithmetic *)

Lemma pg_ofs_mod va : pg_ofs va = va mod 4096.
Proof. exact (land_low va 12 ltac:(lia)). Qed.

Lemma pg_no_div va : pg_no va = va / 4096.
Proof. unfold pg_no, PGBITS. by rewrite Z.shiftr_div_pow2 by lia. Qed.

Lemma pg_round_down_sub va : is_u32 va -> pg_round_down va = va - va mod 4096.
Proof. intros H. exact (land_high va 12 32 ltac:(lia) H). Qed.

Lemma pg_round_down_aligned va : is_u32 va -> pg_round_down va mod 4096 = 0.
Proof.
  intros H. rewrite pg_round_down_sub by done.
  rewrite Zminus_mod, Z.mod_mod, Z.sub_diag by lia. done.
Qed.

Lemma pg_round_down_id va : is_u32 va -> va mod 4096 = 0 -> pg_round_down va = va.
Proof. intros H E. rewrite pg_round_down_sub by done. lia. Qed.

Lemma pg_round_down_range va : is_u32 va -> is_u32 (pg_round_down va).
Proof.
  intros H. rewrite pg_round_down_sub by done. pose proof (Z.mod_pos_bound va 4096).
  pose proof (Z.mod_le va 4096). solve_int.
Qed.

(** Two addresses round down to the same page exactly when they have the same
    page number. *)
Lemma pg_round_down_eq va vb :
  is_u32 va -> is_u32 vb -> pg_round_down va = pg_round_down vb <-> pg_no va = pg_no vb.
Proof.
  intros Ha Hb. rewrite !pg_round_down_sub, !pg_no_div by done.
  pose proof (Z.div_mod va 4096). pose proof (Z.div_mod vb 4096). lia.
Qed.

Lemma pd_no_div va : pd_no va = va / 4194304.
Proof. unfold pd_no, PDSHIFT, PTSHIFT, PGBITS, PTBITS. by rewrite Z.shiftr_div_pow2 by lia. Qed.

Lemma pt_no_div va : pt_no va = va / 4096 mod 1024.
Proof.
  unfold pt_no, PTMASK, BITMASK, PTSHIFT, PGBITS, PTBITS.
  rewrite Z.shiftr_land. change (Z.shiftr (Z.shiftl (Z.shiftl 1 10 - 1) 12) 12) with (2 ^ 10 - 1).
  rewrite land_low, Z.shiftr_div_pow2 by lia. done.
Qed.

Lemma ptov_ok p : 0 <= p < 2 ^ 30 -> ptov p = Ok (p + PHYS_BASE).
Proof.
  intros H. unfold ptov, PHYS_BASE. rewrite (proj2 (Z.ltb_lt _ _)) by lia.
  f_equal. apply u32_small. solve_int.
Qed.

Lemma vtop_ok va : PHYS_BASE <= va < 2 ^ 32 -> vtop va = Ok (va - PHYS_BASE).
Proof.
  intros H. unfold vtop, is_kernel_vaddr. rewrite (proj2 (Z.leb_le _ _)) by lia.
  f_equal. apply u32_small. unfold PHYS_BASE in *. solve_int.
Qed.

(** A page address with flags: the flags are the low 12 bits. *)
Lemma land_pte_addr p fl :
  p mod 4096 = 0 -> 0 <= p -> 0 <= fl < 4096 -> p + fl < 2 ^ 32 ->
  Z.land (p + fl) PTE_ADDR = p.
Proof.
  intros Hp Hp0 Hf Hlt. change PTE_ADDR with (2 ^ 32 - 2 ^ 12).
  rewrite land_high by lia. change (2 ^ 12) with 4096.
  rewrite <- Zplus_mod_idemp_l, Hp, Z.mod_small; lia.
Qed.

Lemma testbit_pte_flag p fl i :
  p mod 4096 = 0 -> 0 <= fl < 4096 -> 0 <= i < 12 ->
  Z.testbit (p + fl) i = Z.testbit fl i.
Proof.
  intros Hp Hf Hi. rewrite <- (lor_disjoint p fl 12) by (done || lia).
  rewrite Z.lor_spec, <- (Z.mod_pow2_bits_low p 12 i) by lia.
  change (2 ^ 12) with 4096. by rewrite Hp, Z.bits_0.
Qed.

(** The flags [pte_create_user] installs. *)
Definition user_flags (writable : bool) : Z := PTE_P + PTE_U + (if writable then PTE_W else 0).

Lemma pte_create_user_ok kpage writable :
  PHYS_BASE <= kpage < 2 ^ 32 -> kpage mod 4096 = 0 ->
  pte_create_user kpage writable = Ok (kpage - PHYS_BASE + user_flags writable).
Proof.
  intros Hr Ha. unfold pte_create_user, pte_create_kernel.
  rewrite pg_ofs_mod, Ha, vtop_ok by done. cbn [Z.eqb mbind outcome_bind mret outcome_ret].
  f_equal. rewrite <- !Z.lor_assoc.
  rewrite (lor_disjoint _ _ 12); [destruct writable; done|lia| |by destruct writable].
  change (2 ^ 12) with 4096. rewrite Zminus_mod, Ha. done.
Qed.

(** ** Properties *)

(** a user page-table entry round-trips: the page it points to is the one it
    was created from, it is present, user-accessible, writable exactly as asked,
    and starts neither accessed nor dirty. *)
Theorem pte_roundtrip kpage writable :
  PHYS_BASE <= kpage < 2 ^ 32 -> pg_ofs kpage = 0 ->
  exists pte, pte_create_user kpage writable = Ok pte /\ is_u32 pte /\
    pte_get_page pte = Ok kpage /\
    negb (Z.land pte PTE_P =? 0) = true /\ negb (Z.land pte PTE_U =? 0) = true /\
    negb (Z.land pte PTE_W =? 0) = writable /\
    Z.land pte PTE_A = 0 /\ Z.land pte PTE_D = 0.
Proof.
  intros Hr Ha. rewrite pg_ofs_mod in Ha. eexists. split; [by apply pte_create_user_ok|].
  assert (Hp : (kpage - PHYS_BASE) mod 4096 = 0) by (rewrite Zminus_mod, Ha; done).
  assert (Hf : 0 <= user_flags writable < 4096) by (by destruct writable).
  assert (H30 : 0 <= kpage - PHYS_BASE < 2 ^ 30) by (unfold PHYS_BASE in *; lia).
  assert (Hk : forall i, 0 <= i < 12 ->
    negb (Z.land (kpage - PHYS_BASE + user_flags writable) (2 ^ i) =? 0)
      = Z.testbit (user_flags writable) i).
  { intros i Hi. rewrite land_bit_testbit by lia. by apply testbit_pte_flag. }
  assert (Hz : forall i, 0 <= i < 12 -> Z.testbit (user_flags writable) i = false ->
    Z.land (kpage - PHYS_BASE + user_flags writable) (2 ^ i) = 0).
  { intros i Hi E. specialize (Hk i Hi). rewrite E in Hk. by apply negb_false_iff, Z.eqb_eq in Hk. }
  split; [solve_int|]. split.
  { unfold pte_get_page. rewrite land_pte_addr by solve_int. rewrite ptov_ok by done. f_equal. lia. }
  change PTE_P with (2 ^ 0). change PTE_U with (2 ^ 2). change PTE_W with (2 ^ 1).
  change PTE_A with (2 ^ 5). change PTE_D with (2 ^ 6).
  rewrite !Hk by lia. rewrite !Hz by (lia || by destruct writable). by destruct writable.
Qed.

(** the two-level split of an address loses nothing: directory index, table
    index and page offset are in range and determine the address, and rounding
    down keeps the indices and clears the offset. *)
Theorem address_split va :
  is_u32 va ->
  va = pd_no va * 2 ^ 22 + pt_no va * 2 ^ 12 + pg_ofs va /\
  0 <= pd_no va < 1024 /\ 0 <= pt_no va < 1024 /\ 0 <= pg_ofs va < PGSIZE /\
  pd_no (pg_round_down va) = pd_no va /\ pt_no (pg_round_down va) = pt_no va /\
  pg_ofs (pg_round_down va) = 0 /\ pg_round_down va <= va < pg_round_down va + PGSIZE.
Proof.
  intros H. rewrite !pg_ofs_mod, pg_round_down_aligned by done.
  rewrite !pd_no_div, !pt_no_div, pg_round_down_sub by done.
  change (2 ^ 22) with 4194304. change (2 ^ 12) with 4096. change PGSIZE with 4096.
  int_unfold. repeat split; Z.div_mod_to_equations; lia.
Qed.

Lemma address_split_witness : pd_no (pg_round_down 0xbffffffc) = pd_no 0xbffffffc.
Proof. apply (address_split 0xbffffffc). solve_int. Defined.

End Vaddr.
