(* ===== verification/LinkedList.v ===== *)
(** * Doubly linked lists (src/lib/kernel/list.c), pointer level

    A [struct list] at address [l] holds two [struct list_elem]s, the head at [l]
    and the tail at [l + 8]; interior elements are embedded in other structures
    and are known by their address.  The model is the store of those cells.  Each
    C function is translated statement by statement, null and shape assertions
    included; [ring] is the representation invariant, and the lemmas at the end of
    the file show what each operation does to the abstract sequence. *)

From S2P Require Import Prelude.

Module LinkedList.

Record list_elem := LE { prev : Z; next : Z }.

Abbreviation heap := (gmap Z list_elem).
Definition NULL : Z := 0.

Definition head (l : Z) : Z := l.
Definition tail (l : Z) : Z := l + 8.

(** ** Loads and stores of the two link fields *)

Definition get_next (p : Z) : M heap Z := fun h =>
  match h !! p with Some e => Ok (next e, h) | None => Fail FMemory end.
Definition get_prev (p : Z) : M heap Z := fun h =>
  match h !! p with Some e => Ok (prev e, h) | None => Fail FMemory end.

Definition upd_next (p v : Z) (h : heap) : heap := alter (fun e => LE (prev e) v) p h.
Definition upd_prev (p v : Z) (h : heap) : heap := alter (fun e => LE v (next e)) p h.

Definition set_next (p v : Z) : M heap unit := fun h =>
  match h !! p with Some _ => Ok (tt, upd_next p v h) | None => Fail FMemory end.
Definition set_prev (p v : Z) : M heap unit := fun h =>
  match h !! p with Some _ => Ok (tt, upd_prev p v h) | None => Fail FMemory end.

(** ** list.c *)

Definition is_head (elem : Z) : M heap bool :=
  if elem =? NULL then mret false else
  let* p := get_prev elem in
  let* n := get_next elem in
  mret ((p =? NULL) && negb (n =? NULL)).

Definition is_interior (elem : Z) : M heap bool :=
  if elem =? NULL then mret false else
  let* p := get_prev elem in
  let* n := get_next elem in
  mret (negb (p =? NULL) && negb (n =? NULL)).

Definition is_tail (elem : Z) : M heap bool :=
  if elem =? NULL then mret false else
  let* p := get_prev elem in
  let* n := get_next elem in
  mret (negb (p =? NULL) && (n =? NULL)).

Definition list_init (list : Z) : M heap unit :=
  do* ASSERT (negb (list =? NULL));
  do* set_prev (head list) NULL;
  do* set_next (head list) (tail list);
  do* set_prev (tail list) (head list);
  set_next (tail list) NULL.

Definition list_begin (list : Z) : M heap Z :=
  do* ASSERT (negb (list =? NULL));
  get_next (head list).

Definition list_next (elem : Z) : M heap Z :=
  let* a := is_head elem in
  let* b := is_interior elem in
  do* ASSERT (a || b);
  get_next elem.

Definition list_end (list : Z) : M heap Z :=
  do* ASSERT (negb (list =? NULL));
  mret (tail list).

Definition list_rbegin (list : Z) : M heap Z :=
  do* ASSERT (negb (list =? NULL));
  get_prev (tail list).

Definition list_prev (elem : Z) : M heap Z :=
  let* a := is_interior elem in
  let* b := is_tail elem in
  do* ASSERT (a || b);
  get_prev elem.

Definition list_rend (list : Z) : M heap Z :=
  do* ASSERT (negb (list =? NULL));
  mret (head list).

Definition list_head (list : Z) : M heap Z :=
  do* ASSERT (negb (list =? NULL));
  mret (head list).

Definition list_tail (list : Z) : M heap Z :=
  do* ASSERT (negb (list =? NULL));
  mret (tail list).

Definition list_insert (before elem : Z) : M heap unit :=
  let* a := is_interior before in
  let* b := is_tail before in
  do* ASSERT (a || b);
  do* ASSERT (negb (elem =? NULL));
  let* p := get_prev before in
  do* set_prev elem p;
  do* set_next elem before;
  let* p' := get_prev before in
  do* set_next p' elem;
  set_prev before elem.

Definition list_splice (before first last : Z) : M heap unit :=
  let* a := is_interior before in
  let* b := is_tail before in
  do* ASSERT (a || b);
  if first =? last then mret tt else
  let* last := list_prev last in
  let* fi := is_interior first in
  do* ASSERT fi;
  let* li := is_interior last in
  do* ASSERT li;
  (* Cleanly remove FIRST...LAST from its current list. *)
  let* fp := get_prev first in
  let* ln := get_next last in
  do* set_next fp ln;
  let* ln := get_next last in
  let* fp := get_prev first in
  do* set_prev ln fp;
  (* Splice FIRST...LAST into new list. *)
  let* bp := get_prev before in
  do* set_prev first bp;
  do* set_next last before;
  let* bp := get_prev before in
  do* set_next bp first;
  set_prev before last.

Definition list_push_front (list elem : Z) : M heap unit :=
  let* b := list_begin list in
  list_insert b elem.

Definition list_push_back (list elem : Z) : M heap unit :=
  let* e := list_end list in
  list_insert e elem.

Definition list_remove (elem : Z) : M heap Z :=
  let* i := is_interior elem in
  do* ASSERT i;
  let* p := get_prev elem in
  let* n := get_next elem in
  do* set_next p n;
  let* n := get_next elem in
  let* p := get_prev elem in
  do* set_prev n p;
  get_next elem.

Definition list_empty (list : Z) : M heap bool :=
  let* b := list_begin list in
  let* e := list_end list in
  mret (b =? e).

Definition list_front (list : Z) : M heap Z :=
  let* e := list_empty list in
  do* ASSERT (negb e);
  get_next (head list).

Definition list_back (list : Z) : M heap Z :=
  let* e := list_empty list in
  do* ASSERT (negb e);
  get_prev (tail list).

Definition list_pop_front (list : Z) : M heap Z :=
  let* front := list_front list in
  let* _ := list_remove front in
  mret front.

Definition list_pop_back (list : Z) : M heap Z :=
  let* back := list_back list in
  let* _ := list_remove back in
  mret back.

(** ** Representation *)

Definition nextf (h : heap) (p : Z) : option Z := next <$> h !! p.
Definition prevf (h : heap) (p : Z) : option Z := prev <$> h !! p.

(** Consecutive nodes point to each other. *)
Definition link (h : heap) (p q : Z) : Prop := nextf h p = Some q /\ prevf h q = Some p.

Fixpoint seg (h : heap) (ns : list Z) : Prop :=
  match ns with
  | p :: ((q :: _) as t) => link h p q /\ seg h t
  | _ => True
  end.

(** The nodes of a whole list, from head to tail: linked both ways, null at both
    ends, pairwise distinct and non-null. *)
Record ring (h : heap) (l : Z) (xs : list Z) : Prop := {
  ring_seg : seg h (head l :: xs ++ [tail l]);
  ring_prev : prevf h (head l) = Some NULL;
  ring_next : nextf h (tail l) = Some NULL;
  ring_nodup : NoDup (head l :: xs ++ [tail l]);
  ring_null : NULL ∉ head l :: xs ++ [tail l]
}.

(** ** Field lemmas *)

Lemma nextf_upd_next p v h q :
  nextf (upd_next p v h) q = if decide (p = q) then (fun _ => v) <$> nextf h p else nextf h q.
Proof.
  unfold nextf, upd_next. rewrite lookup_alter. case_decide; subst; [|done].
  by destruct (h !! q).
Qed.
Lemma prevf_upd_next p v h q : prevf (upd_next p v h) q = prevf h q.
Proof.
  unfold prevf, upd_next. rewrite lookup_alter. case_decide; subst; [|done].
  by destruct (h !! q).
Qed.
Lemma prevf_upd_prev p v h q :
  prevf (upd_prev p v h) q = if decide (p = q) then (fun _ => v) <$> prevf h p else prevf h q.
Proof.
  unfold prevf, upd_prev. rewrite lookup_alter. case_decide; subst; [|done].
  by destruct (h !! q).
Qed.
Lemma nextf_upd_prev p v h q : nextf (upd_prev p v h) q = nextf h q.
Proof.
  unfold nextf, upd_prev. rewrite lookup_alter. case_decide; subst; [|done].
  by destruct (h !! q).
Qed.

Lemma nextf_upd_next_eq p v w h : nextf h p = Some w -> nextf (upd_next p v h) p = Some v.
Proof. intros E. rewrite nextf_upd_next, decide_True by done. by rewrite E. Qed.
Lemma prevf_upd_prev_eq p v w h : prevf h p = Some w -> prevf (upd_prev p v h) p = Some v.
Proof. intros E. rewrite prevf_upd_prev, decide_True by done. by rewrite E. Qed.
Lemma nextf_upd_next_ne p v h q : p <> q -> nextf (upd_next p v h) q = nextf h q.
Proof. intros. by rewrite nextf_upd_next, decide_False. Qed.
Lemma prevf_upd_prev_ne p v h q : p <> q -> prevf (upd_prev p v h) q = prevf h q.
Proof. intros. by rewrite prevf_upd_prev, decide_False. Qed.

(** A node that has one field has the other. *)
Lemma nextf_prevf h p v : nextf h p = Some v -> exists w, prevf h p = Some w.
Proof. unfold nextf, prevf. destruct (h !! p); [cbn; eauto|done]. Qed.
Lemma prevf_nextf h p v : prevf h p = Some v -> exists w, nextf h p = Some w.
Proof. unfold nextf, prevf. destruct (h !! p); [cbn; eauto|done]. Qed.

Lemma get_next_ok h p v : nextf h p = Some v -> get_next p h = Ok (v, h).
Proof. unfold nextf, get_next. destruct (h !! p); cbn; congruence. Qed.
Lemma get_prev_ok h p v : prevf h p = Some v -> get_prev p h = Ok (v, h).
Proof. unfold prevf, get_prev. destruct (h !! p); cbn; congruence. Qed.
Lemma set_next_ok h p v w : nextf h p = Some w -> set_next p v h = Ok (tt, upd_next p v h).
Proof. unfold nextf, set_next. by destruct (h !! p). Qed.
Lemma set_prev_ok h p v w : prevf h p = Some w -> set_prev p v h = Ok (tt, upd_prev p v h).
Proof. unfold prevf, set_prev. by destruct (h !! p). Qed.

Create Rewrite HintDb links.
#[export] Hint Rewrite prevf_upd_next nextf_upd_prev : links.
#[export] Hint Rewrite nextf_upd_next_ne prevf_upd_prev_ne using (congruence || lia) : links.

(** [link_field] proves that a field holds a value, looking through updates. *)
Ltac link_field :=
  autorewrite with links;
  first [ eassumption
        | eapply nextf_upd_next_eq; link_field
        | eapply prevf_upd_prev_eq; link_field ].

(** [step] runs the next memory access or assertion of a computation. *)
Ltac step :=
  first
  [ erewrite M_bind_Ok; [|solve [eapply get_next_ok; link_field]]
  | erewrite M_bind_Ok; [|solve [eapply get_prev_ok; link_field]]
  | erewrite M_bind_Ok; [|solve [eapply set_next_ok; link_field]]
  | erewrite M_bind_Ok; [|solve [eapply set_prev_ok; link_field]]
  | erewrite get_next_ok; [|solve [link_field]]
  | erewrite get_prev_ok; [|solve [link_field]]
  | erewrite set_next_ok; [|solve [link_field]]
  | erewrite set_prev_ok; [|solve [link_field]] ].
Ltac steps := repeat step.

Lemma eqb_null p : p <> NULL -> (p =? NULL) = false.
Proof. apply Z.eqb_neq. Qed.

(** The two shape assertions, decided by the fields. *)
Lemma is_interior_ok h e p n :
  e <> NULL -> prevf h e = Some p -> nextf h e = Some n ->
  is_interior e h = Ok (negb (p =? NULL) && negb (n =? NULL), h).
Proof. intros He Hp Hn. unfold is_interior. rewrite eqb_null by done. by steps. Qed.
Lemma is_head_ok h e p n :
  e <> NULL -> prevf h e = Some p -> nextf h e = Some n ->
  is_head e h = Ok ((p =? NULL) && negb (n =? NULL), h).
Proof. intros He Hp Hn. unfold is_head. rewrite eqb_null by done. by steps. Qed.
Lemma is_tail_ok h e p n :
  e <> NULL -> prevf h e = Some p -> nextf h e = Some n ->
  is_tail e h = Ok (negb (p =? NULL) && (n =? NULL), h).
Proof. intros He Hp Hn. unfold is_tail. rewrite eqb_null by done. by steps. Qed.

Lemma list_next_ok h e n :
  e <> NULL -> n <> NULL -> nextf h e = Some n -> list_next e h = Ok (n, h).
Proof.
  intros He Hn E. destruct (nextf_prevf _ _ _ E) as [p Ep]. unfold list_next.
  erewrite M_bind_Ok by (by eapply is_head_ok).
  erewrite M_bind_Ok by (by eapply is_interior_ok).
  rewrite (eqb_null n) by done. destruct (p =? NULL); cbn; by apply get_next_ok.
Qed.

Lemma list_prev_ok h e p :
  e <> NULL -> p <> NULL -> prevf h e = Some p -> list_prev e h = Ok (p, h).
Proof.
  intros He Hp E. destruct (prevf_nextf _ _ _ E) as [n En]. unfold list_prev.
  erewrite M_bind_Ok by (by eapply is_interior_ok).
  erewrite M_bind_Ok by (by eapply is_tail_ok).
  rewrite (eqb_null p) by done. destruct (n =? NULL); cbn; by apply get_prev_ok.
Qed.

(** ** Segments *)

Lemma seg_app h a x b : seg h (a ++ x :: b) <-> seg h (a ++ [x]) /\ seg h (x :: b).
Proof.
  induction a as [|p a IH]; [cbn; tauto|].
  destruct a as [|q a]; [cbn in *; tauto|].
  cbn [app seg] in *. rewrite IH. tauto.
Qed.

Lemma seg_cons2 h p q t : seg h (p :: q :: t) <-> link h p q /\ seg h (q :: t).
Proof. done. Qed.

(** A segment only depends on the [next] fields of all its nodes but the last, and
    on the [prev] fields of all but the first. *)
Lemma seg_frame h h' ns :
  (forall x, x ∈ removelast ns -> nextf h' x = nextf h x) ->
  (forall x, x ∈ tl ns -> prevf h' x = prevf h x) ->
  seg h ns -> seg h' ns.
Proof.
  induction ns as [|p [|q t] IH]; [done|done|].
  intros Hn Hp [[E1 E2] Ht]. split.
  - split; [rewrite Hn|rewrite Hp]; [done|cbn; set_solver|done|cbn; set_solver].
  - apply IH; [| |done]; intros x Hx.
    + apply Hn. change (removelast (p :: q :: t)) with (p :: removelast (q :: t)). set_solver.
    + apply Hp. cbn in *. set_solver.
Qed.

(** [frame S h h'] : only the cells of [S] may differ. *)
Definition frame (S : list Z) (h h' : heap) : Prop := forall x, x ∉ S -> h' !! x = h !! x.

Lemma frame_fields S h h' x :
  frame S h h' -> x ∉ S -> nextf h' x = nextf h x /\ prevf h' x = prevf h x.
Proof. intros F Hx. unfold nextf, prevf. by rewrite (F x Hx). Qed.

Lemma frame_refl S h : frame S h h.
Proof. done. Qed.
Lemma frame_trans S h1 h2 h3 : frame S h1 h2 -> frame S h2 h3 -> frame S h1 h3.
Proof. intros F1 F2 x Hx. rewrite F2, F1; done. Qed.
Lemma frame_weaken S S' h h' : S ⊆ S' -> frame S h h' -> frame S' h h'.
Proof. intros HS F x Hx. apply F. set_solver. Qed.
Lemma frame_upd_next S p v h : p ∈ S -> frame S h (upd_next p v h).
Proof. intros Hp x Hx. apply lookup_alter_ne. set_solver. Qed.
Lemma frame_upd_prev S p v h : p ∈ S -> frame S h (upd_prev p v h).
Proof. intros Hp x Hx. apply lookup_alter_ne. set_solver. Qed.

(** A list none of whose nodes changed is still the same list. *)
Lemma ring_frame S h h' l xs :
  ring h l xs -> frame S h h' -> (forall x, x ∈ S -> x ∉ head l :: xs ++ [tail l]) ->
  ring h' l xs.
Proof.
  intros [R1 R2 R3 R4 R5] F HS.
  assert (HF : forall x, x ∈ head l :: xs ++ [tail l] ->
    nextf h' x = nextf h x /\ prevf h' x = prevf h x).
  { intros x Hx. eapply frame_fields; [done|]. intros HS'. by eapply HS. }
  split; [|rewrite <- R2; apply HF; set_solver|rewrite <- R3; apply HF; set_solver|done|done].
  eapply seg_frame; [| |done]; intros x Hx; apply HF; [|by apply list_elem_of_further].
  clear -Hx. revert Hx. generalize (head l :: xs ++ [tail l]). intros ns.
  induction ns as [|a [|b t] IH]; [done|cbn; set_solver|].
  change (removelast (a :: b :: t)) with (a :: removelast (b :: t)). set_solver.
Qed.

Lemma snoc_view {A} (x : A) xs : exists ys y, x :: xs = ys ++ [y].
Proof. destruct (exists_last (l := x :: xs)) as (ys & y & E); [done|eauto]. Qed.

(** Two consecutive parts of a list meet in a link. *)
Lemma ring_split h l xs ys :
  ring h l (xs ++ ys) ->
  exists A p b C, head l :: xs = A ++ [p] /\ ys ++ [tail l] = b :: C /\
    b = hd (tail l) ys /\ head l :: (xs ++ ys) ++ [tail l] = A ++ p :: b :: C /\
    seg h (A ++ [p]) /\ link h p b /\ seg h (b :: C).
Proof.
  intros R. destruct (snoc_view (head l) xs) as (A & p & EA).
  assert (exists b C, ys ++ [tail l] = b :: C /\ b = hd (tail l) ys) as (b & C & EC & Eb)
    by (destruct ys; cbn; eauto).
  assert (EN : head l :: (xs ++ ys) ++ [tail l] = A ++ p :: b :: C).
  { rewrite <- app_assoc, EC. change (head l :: xs ++ b :: C) with ((head l :: xs) ++ b :: C).
    by rewrite EA, <- app_assoc. }
  pose proof (ring_seg _ _ _ R) as HS. rewrite EN in HS.
  apply seg_app in HS as [H1 H2]. apply seg_cons2 in H2 as [H2 H3].
  exists A, p, b, C. by split_and!.
Qed.

Lemma removelast_snoc {A} (xs : list A) x : removelast (xs ++ [x]) = xs.
Proof. by rewrite removelast_app, app_nil_r by done. Qed.

Lemma tl_in {A} (x : A) xs : x ∈ tl xs -> x ∈ xs.
Proof. destruct xs; [done|]. cbn. set_solver. Qed.

(** An address that is allocated and outside the list. *)
Record fresh (h : heap) (l : Z) (xs : list Z) (e : Z) : Prop := {
  fresh_alloc : is_Some (h !! e);
  fresh_null : e <> NULL;
  fresh_notin : e ∉ head l :: xs ++ [tail l]
}.

Lemma alloc_fields h e : is_Some (h !! e) -> exists p n, prevf h e = Some p /\ nextf h e = Some n.
Proof. intros [[p n] E]. unfold prevf, nextf. rewrite E. cbn. eauto. Qed.

(** The heap after [list_insert b e] when [p] precedes [b]. *)
Definition inserted (p b e : Z) (h : heap) : heap :=
  upd_prev b e (upd_next p e (upd_next e b (upd_prev e p h))).

Lemma list_insert_run h p b e :
  link h p b -> p <> NULL -> b <> NULL -> e <> NULL -> e <> b -> e <> p ->
  is_Some (h !! e) -> list_insert b e h = Ok (tt, inserted p b e h).
Proof.
  intros [E1 E2] Hp Hb He Heb Hep Ha.
  destruct (alloc_fields _ _ Ha) as (ep & en & E3 & E4).
  destruct (prevf_nextf _ _ _ E2) as [bn E5]. unfold list_insert.
  erewrite M_bind_Ok by (by eapply is_interior_ok).
  erewrite M_bind_Ok by (by eapply is_tail_ok).
  rewrite (eqb_null p), (eqb_null e) by done.
  destruct (bn =? NULL); cbn [negb andb orb ASSERT]; rewrite !(M_bind_Ok _ _ _ tt h) by done; by steps.
Qed.

(** The two ends of a cut segment keep their shape when only the cut link and
    foreign cells change. *)
Lemma seg_frame_l h h' A p :
  (forall x, x ∈ A -> nextf h' x = nextf h x) ->
  (forall x, x ∈ A ++ [p] -> prevf h' x = prevf h x) ->
  seg h (A ++ [p]) -> seg h' (A ++ [p]).
Proof.
  intros Hn Hp. apply seg_frame; intros x Hx.
  - apply Hn. by rewrite removelast_snoc in Hx.
  - apply Hp. by apply tl_in.
Qed.

Lemma removelast_in {A} (x : A) xs : x ∈ removelast xs -> x ∈ xs.
Proof.
  induction xs as [|a [|b t] IH]; [done|cbn; set_solver|].
  change (removelast (a :: b :: t)) with (a :: removelast (b :: t)). set_solver.
Qed.

Lemma seg_frame_r h h' b C :
  (forall x, x ∈ b :: C -> nextf h' x = nextf h x) ->
  (forall x, x ∈ C -> prevf h' x = prevf h x) ->
  seg h (b :: C) -> seg h' (b :: C).
Proof. intros Hn Hp. apply seg_frame; [|done]. intros x Hx. by apply Hn, removelast_in. Qed.

(** [off] proves that a field was not touched; [framed] that only listed cells
    were. *)
Ltac off :=
  repeat first [ progress autorewrite with links
               | rewrite nextf_upd_next_ne by set_solver
               | rewrite prevf_upd_prev_ne by set_solver ]; try done.
Ltac framed :=
  repeat first [ apply frame_refl
               | eapply frame_trans; [|apply frame_upd_prev; set_solver]
               | eapply frame_trans; [|apply frame_upd_next; set_solver] ].

Lemma ring_ends l xs ys A p b C :
  head l :: xs = A ++ [p] -> ys ++ [tail l] = b :: C ->
  NoDup (A ++ p :: b :: C) -> head l ∉ b :: C /\ tail l ∉ A ++ [p].
Proof.
  intros EA EC ND. assert (head l ∈ A ++ [p]) by (rewrite <- EA; set_solver).
  assert (tail l ∈ b :: C) by (rewrite <- EC; set_solver).
  replace (A ++ p :: b :: C) with ((A ++ [p]) ++ b :: C) in ND by (by rewrite <- app_assoc).
  apply NoDup_app in ND as (_ & ND & _). split; intros ?; eapply ND; done.
Qed.

Lemma list_insert_ring h l xs ys e :
  ring h l (xs ++ ys) -> fresh h l (xs ++ ys) e ->
  exists h', list_insert (hd (tail l) ys) e h = Ok (tt, h') /\
    ring h' l (xs ++ e :: ys) /\ frame (head l :: (xs ++ e :: ys) ++ [tail l]) h h'.
Proof.
  intros R [Fa Fn Fi].
  destruct (ring_split _ _ _ _ R) as (A & p & b & C & EA & EC & <- & EN & S1 & [L1 L2] & S3).
  destruct R as [_ R2 R3 R4 R5]. rewrite EN in R4, R5, Fi.
  destruct (ring_ends _ _ _ _ _ _ _ EA EC R4) as [Hh Ht].
  assert (EN' : head l :: (xs ++ e :: ys) ++ [tail l] = A ++ p :: e :: b :: C).
  { rewrite <- app_assoc. change (head l :: xs ++ (e :: ys) ++ [tail l])
      with ((head l :: xs) ++ e :: (ys ++ [tail l])). by rewrite EA, EC, <- app_assoc. }
  assert (Hh' : head l <> e) by (intros <-; rewrite <- EN in Fi; set_solver).
  assert (Ht' : tail l <> e) by (intros <-; rewrite <- EN in Fi; set_solver).
  destruct (alloc_fields _ _ Fa) as (ep & en & E3 & E4).
  rewrite NoDup_app, !NoDup_cons in R4.
  assert (p <> e) by set_solver. assert (b <> e) by set_solver.
  exists (inserted p b e h). split; [apply list_insert_run; done || set_solver|].
  rewrite EN'. unfold inserted. split; [|framed].
  split; rewrite ?EN'; [|off..|rewrite NoDup_app, !NoDup_cons; set_solver|set_solver].
  rewrite seg_app, !seg_cons2. split; [|split; [|split]].
  - eapply seg_frame_l; [| |done]; intros x Hx; off.
  - split; link_field.
  - split; link_field.
  - eapply seg_frame_r; [| |done]; intros x Hx; off.
Qed.

Lemma list_remove_run h p e b :
  link h p e -> link h e b -> p <> NULL -> e <> NULL -> b <> NULL -> p <> e -> b <> e ->
  list_remove e h = Ok (b, upd_prev b p (upd_next p b h)).
Proof.
  intros [E1 E2] [E3 E4] Hp He Hb Hpe Hbe. unfold list_remove.
  erewrite M_bind_Ok by (by eapply is_interior_ok).
  rewrite (eqb_null p), (eqb_null b) by done. cbn [negb andb ASSERT].
  rewrite (M_bind_Ok _ _ _ tt h) by done. by steps.
Qed.

Lemma list_remove_ring h l xs e ys :
  ring h l (xs ++ e :: ys) ->
  exists h', list_remove e h = Ok (hd (tail l) ys, h') /\ ring h' l (xs ++ ys) /\
    frame (head l :: (xs ++ ys) ++ [tail l]) h h'.
Proof.
  intros R. destruct (ring_split _ _ _ _ R) as (A & p & e' & C & EA & EC & -> & EN & S1 & L1 & S3).
  cbn [hd] in *. cbn [app] in EC. injection EC as EC.
  assert (exists b C', C = b :: C' /\ b = hd (tail l) ys) as (b & C' & -> & <-)
    by (destruct ys; simplify_eq/=; eauto).
  apply seg_cons2 in S3 as [L2 S3]. destruct R as [_ R2 R3 R4 R5]. rewrite EN in R4, R5.
  assert (EN' : head l :: (xs ++ ys) ++ [tail l] = A ++ p :: b :: C').
  { rewrite <- app_assoc, EC. change (head l :: xs ++ b :: C') with ((head l :: xs) ++ b :: C').
    by rewrite EA, <- app_assoc. }
  rewrite NoDup_app, !NoDup_cons in R4.
  assert (R4' : NoDup (A ++ p :: b :: C')) by (rewrite NoDup_app, !NoDup_cons; set_solver).
  destruct (ring_ends _ _ _ _ _ _ _ EA EC R4') as [Hh Ht].
  eexists. split; [apply (list_remove_run _ p); done || set_solver|].
  rewrite EN'. split; [|framed].
  split; rewrite ?EN'; [|off..|done|set_solver].
  rewrite seg_app, seg_cons2. destruct L1, L2. split; [|split].
  - eapply seg_frame_l; [| |done]; intros x Hx; off.
  - split; link_field.
  - eapply seg_frame_r; [| |done]; intros x Hx; off.
Qed.

Lemma seg_join h U u v V :
  seg h ((U ++ [u]) ++ v :: V) <-> seg h (U ++ [u]) /\ link h u v /\ seg h (v :: V).
Proof. rewrite <- app_assoc. cbn [app]. by rewrite seg_app, seg_cons2. Qed.

(** The heap after moving [f .. fl] (followed by [c]) in front of [b] (preceded by
    [p]), where [bl] is the node before [f]. *)
Definition spliced (p b bl f fl c : Z) (h : heap) : heap :=
  upd_prev b fl (upd_next p f (upd_next fl b (upd_prev f p (upd_prev c bl (upd_next bl c h))))).

Lemma list_splice_run h p b bl f fl c fn flp :
  link h p b -> link h bl f -> link h fl c ->
  nextf h f = Some fn -> prevf h fl = Some flp ->
  Forall (fun x => x <> NULL) [p; b; bl; f; fl; c; fn; flp] ->
  NoDup [b; f; c] -> NoDup [p; bl; fl] ->
  list_splice b f c h = Ok (tt, spliced p b bl f fl c h).
Proof.
  intros [E1 E2] [E3 E4] [E5 E6] E7 E8 HN Hd1 Hd2. rewrite !NoDup_cons in Hd1, Hd2.
  assert (b <> f /\ b <> c /\ f <> c /\ p <> bl /\ p <> fl /\ bl <> fl) by set_solver.
  rewrite !Forall_cons in HN. destruct_and!.
  destruct (prevf_nextf _ _ _ E2) as [bn E9]. unfold list_splice.
  erewrite M_bind_Ok by (eapply is_interior_ok; eauto).
  erewrite M_bind_Ok by (eapply is_tail_ok; eauto).
  rewrite (eqb_null p), (proj2 (Z.eqb_neq f c)) by done.
  rewrite (M_bind_Ok _ _ _ tt h) by (by destruct (bn =? NULL)).
  rewrite (M_bind_Ok _ _ _ fl h) by (by apply list_prev_ok).
  erewrite M_bind_Ok by (eapply (is_interior_ok h f); eauto).
  rewrite (eqb_null bl), (eqb_null fn) by done. cbn [negb andb ASSERT].
  rewrite (M_bind_Ok _ _ _ tt h) by done.
  erewrite M_bind_Ok by (eapply (is_interior_ok h fl); eauto).
  rewrite (eqb_null flp), (eqb_null c) by done. cbn [negb andb ASSERT].
  rewrite (M_bind_Ok _ _ _ tt h) by done. by steps.
Qed.

(** A segment cut at three places. *)
Lemma seg_cut3 h A p b B B0 bl f F F0 fl c C :
  b :: B = B0 ++ [bl] -> f :: F = F0 ++ [fl] ->
  seg h ((A ++ [p]) ++ (b :: B) ++ (f :: F) ++ c :: C) <->
  seg h (A ++ [p]) /\ link h p b /\ seg h (b :: B) /\ link h bl f /\ seg h (f :: F) /\
  link h fl c /\ seg h (c :: C).
Proof.
  intros EB EF. change ((b :: B) ++ (f :: F) ++ c :: C) with (b :: B ++ (f :: F) ++ c :: C).
  rewrite seg_join. change (b :: B ++ (f :: F) ++ c :: C) with ((b :: B) ++ (f :: F) ++ c :: C).
  rewrite EB. change ((f :: F) ++ c :: C) with (f :: F ++ c :: C). rewrite seg_join.
  change (f :: F ++ c :: C) with ((f :: F) ++ c :: C). rewrite EF, seg_join. tauto.
Qed.

(** Inside a segment that does not end the list every [next] is non-null, and
    inside one that does not start it every [prev] is. *)
Lemma seg_inner_next h f F F0 fl c :
  f :: F = F0 ++ [fl] -> seg h (f :: F) -> nextf h fl = Some c -> c <> NULL ->
  NULL ∉ f :: F -> exists n, nextf h f = Some n /\ n <> NULL.
Proof.
  intros EF S Ec Nc N. destruct F as [|f' F].
  - destruct F0 as [|? [|]]; simplify_eq/=. eauto.
  - destruct S as [[S _] _]. exists f'. split; [done|set_solver].
Qed.

Lemma seg_inner_prev h f F F0 fl q :
  f :: F = F0 ++ [fl] -> seg h (f :: F) -> prevf h f = Some q -> q <> NULL ->
  NULL ∉ f :: F -> exists n, prevf h fl = Some n /\ n <> NULL.
Proof.
  intros EF S Eq Nq N. rewrite EF in S, N.
  destruct F0 as [|f0 F0 _] using rev_ind; [simplify_eq/=; eauto|].
  rewrite <- app_assoc in S. apply seg_app in S as [_ [[_ S] _]].
  exists f0. split; [done|set_solver].
Qed.

Lemma seg_frame_both h h' f F F0 fl :
  f :: F = F0 ++ [fl] -> NoDup (f :: F) ->
  (forall x, x ∈ f :: F -> x <> fl -> nextf h' x = nextf h x) ->
  (forall x, x ∈ f :: F -> x <> f -> prevf h' x = prevf h x) ->
  seg h (f :: F) -> seg h' (f :: F).
Proof.
  intros EF ND Hn Hp. apply seg_frame; intros x Hx.
  - apply Hn; [by apply removelast_in|]. rewrite EF in *. rewrite removelast_snoc in Hx.
    apply NoDup_app in ND. set_solver.
  - apply Hp; [by apply tl_in|]. cbn in Hx. apply NoDup_cons in ND. set_solver.
Qed.

(** Membership in two parts of a duplicate-free list separates two nodes. *)
Definition apart (P Q : list Z) : Prop := forall x, x ∈ P -> x ∈ Q -> False.

Ltac ne :=
  first [ done | let E := fresh in intros E; subst;
    match goal with
    | D : apart ?P ?Q, H1 : ?y ∈ ?P, H2 : ?y ∈ ?Q |- _ => exact (D y H1 H2)
    | H1 : ?y ∈ ?P, H2 : ?y ∉ ?P |- _ => exact (H2 H1)
    end ].
Ltac off_ne :=
  repeat first [ rewrite prevf_upd_next | rewrite nextf_upd_prev
               | rewrite nextf_upd_next_ne by ne | rewrite prevf_upd_prev_ne by ne ]; try done.

Ltac fld :=
  repeat first [ rewrite prevf_upd_next | rewrite nextf_upd_prev
               | rewrite nextf_upd_next_ne by ne | rewrite prevf_upd_prev_ne by ne ];
  first [ eassumption | eapply nextf_upd_next_eq; fld | eapply prevf_upd_prev_eq; fld ].

Lemma cut3_apart (P Q R T : list Z) :
  NoDup (P ++ Q ++ R ++ T) ->
  apart P Q /\ apart P R /\ apart P T /\ apart Q R /\ apart Q T /\ apart R T /\
  NoDup P /\ NoDup Q /\ NoDup R /\ NoDup T.
Proof.
  rewrite !NoDup_app. intros (N1 & D1 & N2 & D2 & N3 & D3 & N4). unfold apart.
  split_and!; try done; intros x H1 H2;
    solve [ eapply D1; [eassumption|rewrite !elem_of_app; tauto]
          | eapply D2; [eassumption|rewrite !elem_of_app; tauto]
          | eapply D3; eassumption ].
Qed.

(** Moving a non-empty part [F] of a list in front of the non-empty part [B] that
    precedes it. *)
Lemma list_splice_ring h l X b B f F Y :
  ring h l (X ++ (b :: B) ++ (f :: F) ++ Y) ->
  exists h', list_splice b f (hd (tail l) Y) h = Ok (tt, h') /\
    ring h' l (X ++ (f :: F) ++ (b :: B) ++ Y) /\
    frame (head l :: (X ++ (f :: F) ++ (b :: B) ++ Y) ++ [tail l]) h h'.
Proof.
  intros [R1 R2 R3 R4 R5].
  destruct (snoc_view (head l) X) as (A & p & EA).
  destruct (snoc_view b B) as (B0 & bl & EB). destruct (snoc_view f F) as (F0 & fl & EF).
  assert (exists c C, Y ++ [tail l] = c :: C /\ c = hd (tail l) Y) as (c & C & EC & <-)
    by (destruct Y; cbn; eauto).
  assert (EN : forall G H, head l :: (X ++ G ++ H ++ Y) ++ [tail l] = (A ++ [p]) ++ G ++ H ++ c :: C).
  { intros G H. rewrite <- EA, <- EC, <- !app_assoc. done. }
  rewrite EN in R1, R4, R5.
  eapply seg_cut3 in R1 as (S1 & [L1 L1'] & S2 & [L2 L2'] & S3 & [L3 L3'] & S4); [|done..].
  assert (HB : bl ∈ b :: B) by (rewrite EB; set_solver).
  assert (HF : fl ∈ f :: F) by (rewrite EF; set_solver).
  assert (Hhd : head l ∈ A ++ [p]) by (rewrite <- EA; set_solver).
  assert (Htl : tail l ∈ c :: C) by (rewrite <- EC; set_solver).
  destruct (cut3_apart _ _ _ _ R4) as (D1 & D2 & D3 & D4 & D5 & D6 & N1 & N2 & N3 & N4).
  assert (Hp : p ∈ A ++ [p]) by (apply elem_of_app; right; by left).
  assert (Hb : b ∈ b :: B) by (by left). assert (Hf : f ∈ f :: F) by (by left).
  assert (Hc : c ∈ c :: C) by (by left).
  rewrite !not_elem_of_app in R5. destruct R5 as ((Z1 & Z2) & Z3 & Z4 & Z5).
  assert (NN : forall x, x ∈ A ++ [p] \/ x ∈ b :: B \/ x ∈ f :: F \/ x ∈ c :: C -> x <> NULL).
  { intros x Hx ->. rewrite elem_of_app in Hx. tauto. }
  edestruct (seg_inner_next h f F) as (fn & Efn & Nfn); [done|done|done|by apply NN; tauto|done|].
  edestruct (seg_inner_prev h f F) as (flp & Eflp & Nflp); [done|done|done|by apply NN; tauto|done|].
  exists (spliced p b bl f fl c h). rewrite !EN. unfold spliced. split; [|split].
  { apply (list_splice_run h p b bl f fl c fn flp); try done.
    - repeat constructor; try done; apply NN; tauto.
    - rewrite !NoDup_cons, !not_elem_of_cons. split_and!; try ne; by apply not_elem_of_nil || constructor.
    - rewrite !NoDup_cons, !not_elem_of_cons. split_and!; try ne; by apply not_elem_of_nil || constructor. }
  - split; rewrite ?EN; [|off_ne..| |].
    + apply (seg_cut3 _ A p f F F0 fl b B B0 bl c C EF EB). unfold link. split_and!.
      * eapply seg_frame_l; [| |done]; intros x Hx; [|off_ne].
        apply NoDup_app in N1 as (_ & N1 & _).
        assert (x ∈ A ++ [p]) by (rewrite elem_of_app; by left).
        assert (x <> p) by (intros ->; eapply N1; [done|by left]). off_ne.
      * fld.
      * fld.
      * eapply (seg_frame_both h); try done; intros x Hx ?; off_ne.
      * fld.
      * fld.
      * eapply (seg_frame_both h); try done; intros x Hx ?; off_ne.
      * fld.
      * fld.
      * apply NoDup_cons in N4 as [N4 _].
        eapply seg_frame_r; [| |done]; intros x Hx; [off_ne|].
        assert (x ∈ c :: C) by (by right). off_ne.
    + by rewrite (app_assoc (f :: F) (b :: B)), (Permutation_app_comm (f :: F) (b :: B)),
        <- (app_assoc (b :: B)).
    + rewrite !not_elem_of_app. tauto.
  - assert (HS : forall x, x ∈ A ++ [p] \/ x ∈ b :: B \/ x ∈ f :: F \/ x ∈ c :: C ->
      x ∈ (A ++ [p]) ++ (f :: F) ++ (b :: B) ++ c :: C).
    { intros x. rewrite !(elem_of_app (_ ++ _)), !(elem_of_app (_ :: _)). tauto. }
    repeat first [ apply frame_refl
                 | eapply frame_trans; [|apply frame_upd_prev, HS; tauto]
                 | eapply frame_trans; [|apply frame_upd_next, HS; tauto] ].
Qed.

(** ** Queries and the deque operations *)

Lemma ring_list_null h l xs : ring h l xs -> l <> NULL.
Proof. intros R ->. apply (ring_null _ _ _ R). by left. Qed.

Lemma ring_null_in h l xs x : ring h l xs -> x ∈ xs -> x <> NULL.
Proof. intros R Hx ->. apply (ring_null _ _ _ R). right. apply elem_of_app. by left. Qed.

Lemma ring_hd_null h l xs ys : ring h l (xs ++ ys) -> hd (tail l) ys <> NULL.
Proof.
  intros R E. apply (ring_null _ _ _ R). right. rewrite <- E.
  destruct ys; cbn; rewrite !elem_of_app; [right; by left|left; right; by left].
Qed.

(** The node that follows [x]. *)
Lemma ring_next_of h l xs x ys :
  ring h l (xs ++ x :: ys) -> nextf h x = Some (hd (tail l) ys).
Proof.
  intros R. pose proof (ring_seg _ _ _ R) as S.
  replace (head l :: (xs ++ x :: ys) ++ [tail l]) with ((head l :: xs) ++ x :: (ys ++ [tail l])) in S
    by (cbn; by rewrite <- app_assoc).
  apply seg_app in S as [_ S]. destruct ys; cbn in S; by destruct S as [[S _] _].
Qed.

(** The first node. *)
Lemma ring_first h l xs : ring h l xs -> nextf h (head l) = Some (hd (tail l) xs).
Proof. intros R. pose proof (ring_seg _ _ _ R) as S. destruct xs; cbn in S; by destruct S as [[S _] _]. Qed.

(** The node that precedes a position. *)
Lemma ring_prev_of h l xs ys :
  ring h l (xs ++ ys) -> prevf h (hd (tail l) ys) = Some (List.last xs (head l)).
Proof.
  intros R. destruct (ring_split _ _ _ _ R) as (A & p & b & C & EA & EC & <- & _ & _ & [_ L] & _).
  rewrite L. f_equal. assert (E : List.last (head l :: xs) (head l) = p) by (rewrite EA; apply last_last).
  rewrite <- E. destruct xs; done.
Qed.

Lemma list_begin_ok h l xs : ring h l xs -> list_begin l h = Ok (hd (tail l) xs, h).
Proof.
  intros R. unfold list_begin. rewrite eqb_null by (by eapply ring_list_null).
  cbn. apply get_next_ok. by apply ring_first.
Qed.

Lemma list_end_ok h l xs : ring h l xs -> list_end l h = Ok (tail l, h).
Proof. intros R. unfold list_end. by rewrite eqb_null by (by eapply ring_list_null). Qed.

Lemma hd_tail_eqb h l xs : ring h l xs -> (hd (tail l) xs =? tail l) = bool_decide (xs = []).
Proof.
  intros R. destruct xs as [|x xs]; [cbn; by rewrite Z.eqb_refl|].
  rewrite bool_decide_eq_false_2 by done. apply Z.eqb_neq. cbn. intros ->.
  pose proof (ring_nodup _ _ _ R) as N. cbn in N. rewrite !NoDup_cons in N.
  destruct N as (_ & N & _). apply N, elem_of_app. right. by left.
Qed.

Lemma list_empty_ok h l xs : ring h l xs -> list_empty l h = Ok (bool_decide (xs = []), h).
Proof.
  intros R. unfold list_empty. rewrite (M_bind_Ok _ _ _ _ _ (list_begin_ok _ _ _ R)).
  rewrite (M_bind_Ok _ _ _ _ _ (list_end_ok _ _ _ R)). by rewrite (hd_tail_eqb _ _ _ R).
Qed.

Lemma list_front_ok h l x xs : ring h l (x :: xs) -> list_front l h = Ok (x, h).
Proof.
  intros R. unfold list_front. rewrite (M_bind_Ok _ _ _ _ _ (list_empty_ok _ _ _ R)).
  rewrite bool_decide_eq_false_2 by done. cbn. by apply get_next_ok, (ring_first _ _ _ R).
Qed.

Lemma list_back_ok h l xs x : ring h l (xs ++ [x]) -> list_back l h = Ok (x, h).
Proof.
  intros R. unfold list_back. rewrite (M_bind_Ok _ _ _ _ _ (list_empty_ok _ _ _ R)).
  rewrite bool_decide_eq_false_2 by (by destruct xs). cbn. apply get_prev_ok.
  rewrite <- (app_nil_r (xs ++ [x])) in R. pose proof (ring_prev_of _ _ _ _ R) as E. cbn in E.
  by rewrite last_last in E.
Qed.

Lemma list_init_ring h l :
  is_Some (h !! head l) -> is_Some (h !! tail l) -> head l <> NULL -> tail l <> NULL ->
  exists h', list_init l h = Ok (tt, h') /\ ring h' l [] /\ frame [head l; tail l] h h'.
Proof.
  intros Hh Ht Nh Nt. destruct (alloc_fields _ _ Hh) as (hp & hn & E1 & E2).
  destruct (alloc_fields _ _ Ht) as (tp & tn & E3 & E4).
  assert (head l <> tail l) by (unfold head, tail; lia).
  unfold list_init. change (l =? NULL) with (head l =? NULL). rewrite eqb_null by done. cbn [negb ASSERT].
  rewrite (M_bind_Ok _ _ _ tt h) by done. eexists. split; [by steps|]. split; [|framed].
  split; cbn [app seg]; unfold link; [split_and!; try link_field; done|link_field..| |].
  - repeat constructor; set_solver.
  - set_solver.
Qed.

Lemma list_push_front_ring h l xs e :
  ring h l xs -> fresh h l xs e ->
  exists h', list_push_front l e h = Ok (tt, h') /\ ring h' l (e :: xs) /\
    frame (head l :: (e :: xs) ++ [tail l]) h h'.
Proof.
  intros R F. unfold list_push_front. rewrite (M_bind_Ok _ _ _ _ _ (list_begin_ok _ _ _ R)).
  by apply (list_insert_ring h l [] xs e).
Qed.

Lemma list_push_back_ring h l xs e :
  ring h l xs -> fresh h l xs e ->
  exists h', list_push_back l e h = Ok (tt, h') /\ ring h' l (xs ++ [e]) /\
    frame (head l :: (xs ++ [e]) ++ [tail l]) h h'.
Proof.
  intros R F. unfold list_push_back. rewrite (M_bind_Ok _ _ _ _ _ (list_end_ok _ _ _ R)).
  apply (list_insert_ring h l xs [] e); by rewrite app_nil_r.
Qed.

Lemma list_pop_front_ring h l x xs :
  ring h l (x :: xs) ->
  exists h', list_pop_front l h = Ok (x, h') /\ ring h' l xs /\
    frame (head l :: xs ++ [tail l]) h h'.
Proof.
  intros R. unfold list_pop_front. rewrite (M_bind_Ok _ _ _ _ _ (list_front_ok _ _ _ _ R)).
  destruct (list_remove_ring h l [] x xs R) as (h' & E & R' & F).
  exists h'. by rewrite (M_bind_Ok _ _ _ _ _ E).
Qed.

Lemma list_pop_back_ring h l xs x :
  ring h l (xs ++ [x]) ->
  exists h', list_pop_back l h = Ok (x, h') /\ ring h' l xs /\
    frame (head l :: xs ++ [tail l]) h h'.
Proof.
  intros R. unfold list_pop_back. rewrite (M_bind_Ok _ _ _ _ _ (list_back_ok _ _ _ _ R)).
  destruct (list_remove_ring h l xs x [] R) as (h' & E & R' & F). rewrite app_nil_r in R', F.
  exists h'. by rewrite (M_bind_Ok _ _ _ _ _ E).
Qed.

(** The store has room for every node of a list: the bound of all loops. *)
Lemma seg_alloc h ns x : seg h ns -> x ∈ tl ns -> is_Some (h !! x).
Proof.
  induction ns as [|p [|q t] IH]; [by intros _ ?%elem_of_nil|by intros _ ?%elem_of_nil|].
  intros [[_ S1] S2] [->|Hx]%elem_of_cons; [|by apply IH].
  unfold prevf in S1. destruct (h !! q); [done|by cbn in S1].
Qed.

Lemma ring_alloc h l xs x : ring h l xs -> x ∈ head l :: xs ++ [tail l] -> is_Some (h !! x).
Proof.
  intros [R1 R2 R3 R4 R5] [->|Hx]%elem_of_cons; [|by eapply seg_alloc].
  unfold prevf in R2. destruct (h !! head l); [done|by cbn in R2].
Qed.

Lemma ring_size h l xs : ring h l xs -> (length xs + 2 <= size h)%nat.
Proof.
  intros R. rewrite <- (size_dom (D := gset Z) h).
  transitivity (size (list_to_set (head l :: xs ++ [tail l]) : gset Z)).
  - rewrite size_list_to_set by apply (ring_nodup _ _ _ R). cbn. rewrite length_app. cbn. lia.
  - apply subseteq_size. intros x Hx%elem_of_list_to_set. apply elem_of_dom. by eapply ring_alloc.
Qed.

(** ** Refinement: any sequence of operations on a list of nodes *)

(** A client's calls on one list; positions are given by the node itself, as in C. *)
Inductive call :=
| PushFront (e : Z) | PushBack (e : Z) | PopFront | PopBack
| InsertBefore (at_ e : Z) | Remove (e : Z) | Front | Back.

Definition exec (l : Z) (c : call) : M heap Z :=
  match c with
  | PushFront e => do* list_push_front l e; mret e
  | PushBack e => do* list_push_back l e; mret e
  | PopFront => list_pop_front l
  | PopBack => list_pop_back l
  | InsertBefore b e => do* list_insert b e; mret e
  | Remove e => list_remove e
  | Front => list_front l
  | Back => list_back l
  end.

Fixpoint run (l : Z) (cs : list call) : M heap (list Z) :=
  match cs with
  | [] => mret []
  | c :: cs => let* r := exec l c in let* rs := run l cs in mret (r :: rs)
  end.

(** The part of [xs] before the first [e], and the part from it on. *)
Fixpoint cut_at (e : Z) (xs : list Z) : option (list Z * list Z) :=
  match xs with
  | [] => None
  | x :: t => if decide (x = e) then Some ([], t)
              else '(a, b) ← cut_at e t; Some (x :: a, b)
  end.

(** The same calls on a plain sequence; [None] where the C code has no contract: a
    node inserted twice, an empty list popped, a node that is not in the list. *)
Definition spec (l : Z) (c : call) (xs : list Z) : option (Z * list Z) :=
  match c with
  | PushFront e => guard (e ∉ xs);; Some (e, e :: xs)
  | PushBack e => guard (e ∉ xs);; Some (e, xs ++ [e])
  | PopFront => x ← hd_error xs; Some (x, tl xs)
  | PopBack => x ← last xs; Some (x, removelast xs)
  | InsertBefore b e => guard (e ∉ xs);; '(a, t) ← cut_at b xs; Some (e, a ++ e :: b :: t)
  | Remove e => '(a, t) ← cut_at e xs; Some (hd (l + 8) t, a ++ t)
  | Front => x ← hd_error xs; Some (x, xs)
  | Back => x ← last xs; Some (x, xs)
  end.

Fixpoint spec_run (l : Z) (cs : list call) (xs : list Z) : option (list Z * list Z) :=
  match cs with
  | [] => Some ([], xs)
  | c :: cs => '(r, xs1) ← spec l c xs; '(rs, ys) ← spec_run l cs xs1; Some (r :: rs, ys)
  end.

Definition call_node (c : call) : list Z :=
  match c with PushFront e | PushBack e | InsertBefore _ e => [e] | _ => [] end.

Lemma cut_at_eq e xs a b : cut_at e xs = Some (a, b) -> xs = a ++ e :: b.
Proof.
  revert a. induction xs as [|x t IH]; intros a H; [done|]. cbn in H.
  case_decide; [by simplify_eq|]. destruct (cut_at e t) as [[a' b']|]; [|done]. simplify_eq/=.
  by rewrite (IH a').
Qed.

Lemma last_removelast {A} (xs : list A) x : last xs = Some x -> xs = removelast xs ++ [x].
Proof.
  intros H. apply last_Some in H as [ys ->]. by rewrite removelast_snoc.
Qed.

(** One call follows its sequence-level counterpart. *)
Lemma exec_ring h l c xs r ys :
  ring h l xs -> spec l c xs = Some (r, ys) ->
  (forall e, e ∈ call_node c -> is_Some (h !! e) /\ e ∉ [NULL; head l; tail l]) ->
  exists h', exec l c h = Ok (r, h') /\ ring h' l ys /\ frame (head l :: ys ++ [tail l]) h h'.
Proof.
  intros R HS HC.
  assert (HF : forall e, e ∈ call_node c -> e ∉ xs -> fresh h l xs e).
  { intros e He Hx. destruct (HC e He) as [HA HN]. split; [done|set_solver|set_solver]. }
  destruct c; cbn [exec spec call_node] in *.
  - case_guard; simplify_eq/=. destruct (list_push_front_ring h l xs r R) as (h' & E & ? & ?); [set_solver|].
    exists h'. by rewrite (M_bind_Ok _ _ _ _ _ E).
  - case_guard; simplify_eq/=. destruct (list_push_back_ring h l xs r R) as (h' & E & ? & ?); [set_solver|].
    exists h'. by rewrite (M_bind_Ok _ _ _ _ _ E).
  - destruct xs as [|x xs]; simplify_eq/=. by apply list_pop_front_ring.
  - destruct (last xs) as [x|] eqn:EL; simplify_eq/=. apply last_removelast in EL.
    rewrite EL in R. by apply list_pop_back_ring.
  - case_guard; simplify_eq/=. destruct (cut_at at_ xs) as [[a t]|] eqn:EC; simplify_eq/=.
    apply cut_at_eq in EC as ->.
    destruct (list_insert_ring h l a (at_ :: t) r R) as (h' & E & ? & ?); [set_solver|].
    exists h'. cbn [hd] in E. by rewrite (M_bind_Ok _ _ _ _ _ E).
  - destruct (cut_at e xs) as [[a t]|] eqn:EC; simplify_eq/=. apply cut_at_eq in EC as ->.
    by apply list_remove_ring.
  - destruct xs as [|x xs]; simplify_eq/=. exists h. by rewrite (list_front_ok _ _ _ _ R).
  - destruct (last xs) as [x|] eqn:EL; simplify_eq/=. apply last_removelast in EL.
    exists h. rewrite EL in R. by rewrite (list_back_ok _ _ _ _ R), EL.
Qed.

(** C11: every sequence of pushes, pops, insertions and removals that makes sense on a plain
    sequence runs on the linked structure without a failed assertion or a bad memory access,
    returns the same results and ends in a well-formed list holding the same sequence. *)
Theorem list_calls_refine l cs : forall h xs rs ys,
  ring h l xs -> spec_run l cs xs = Some (rs, ys) ->
  (forall c e, c ∈ cs -> e ∈ call_node c -> is_Some (h !! e) /\ e ∉ [NULL; head l; tail l]) ->
  exists h', run l cs h = Ok (rs, h') /\ ring h' l ys.
Proof.
  induction cs as [|c cs IH]; intros h xs rs ys R HS HC; cbn [spec_run run] in *; [simplify_eq; eauto|].
  destruct (spec l c xs) as [[r xs1]|] eqn:ES; [|done]. cbn in HS.
  destruct (spec_run l cs xs1) as [[rs' ys']|] eqn:ER; [|done]. simplify_eq/=.
  destruct (exec_ring h l c xs r xs1 R ES) as (h1 & E1 & R1 & F1); [intros e He; apply (HC c); set_solver|].
  rewrite (M_bind_Ok _ _ _ _ _ E1).
  destruct (IH h1 xs1 rs' ys R1 ER) as (h' & E' & R').
  - intros d e Hd He. destruct (HC d e) as [HA HN]; [set_solver|done|]. split; [|done].
    destruct (decide (e ∈ head l :: xs1 ++ [tail l])); [by eapply ring_alloc|by rewrite F1].
  - exists h'. by rewrite (M_bind_Ok _ _ _ _ _ E').
Qed.

Definition demo_heap : heap :=
  list_to_map [(1000, LE NULL 1008); (1008, LE 1000 NULL); (16, LE 5 5); (32, LE 7 7); (48, LE 0 1)].
Definition demo_calls : list call :=
  [PushBack 16; PushFront 32; InsertBefore 16 48; Back; Remove 32; PushBack 32; PopFront; PopBack].

Lemma list_calls_refine_witness :
  exists h', run 1000 demo_calls demo_heap = Ok ([16; 32; 48; 16; 48; 32; 48; 32], h') /\ ring h' 1000 [16].
Proof.
  apply (list_calls_refine 1000 demo_calls demo_heap [] _ [16]).
  - split; [vm_compute; by repeat split|done|done|apply (bool_decide_unpack _); by vm_compute|
      apply (bool_decide_unpack _); by vm_compute].
  - reflexivity.
  - intros c e Hc He. assert (H : e ∈ [16; 32; 48]).
    { unfold demo_calls in Hc. repeat (apply elem_of_cons in Hc as [->|Hc]; [cbn in He; set_solver|]).
      by apply elem_of_nil in Hc. }
    repeat (apply elem_of_cons in H as [->|H]; [split; [by eexists|apply (bool_decide_unpack _); by vm_compute]|]).
    by apply elem_of_nil in H.
Defined.

End LinkedList.
