(* ===== verification/ListSort.v ===== *)
(** * List traversals and sorting (src/lib/kernel/list.c), pointer level

    The functions of list.c that loop: [list_size], [list_reverse], [is_sorted],
    [find_end_of_run], [inplace_merge], [list_sort], [list_insert_ordered],
    [list_unique], [list_max] and [list_min].  Every loop is run with the number of
    cells in the store as fuel: the nodes of a list are distinct cells, so no loop
    over a well-formed list needs more, and the theorems state that each function
    returns.  The pure functions below ([split_run], [merge], [pass], [passes], ...)
    are the abstract sequence level. *)

From S2P Require Import Prelude LinkedList.
Import LinkedList.

Module ListSort.

Definition with_fuel {A} (f : nat -> M heap A) : M heap A := fun h => f (S (size h)) h.

Fixpoint size_loop (fuel : nat) (list e cnt : Z) : M heap Z :=
  match fuel with
  | O => fail FFuel
  | S fuel =>
    let* en := list_end list in
    if e =? en then mret cnt else
    let* e' := list_next e in
    size_loop fuel list e' (u32 (cnt + 1))
  end.

Definition list_size (list : Z) : M heap Z :=
  let* e := list_begin list in
  with_fuel (fun n => size_loop n list e 0).

(** [swap (&e->prev, &e->next)]. *)
Definition swap_links (e : Z) : M heap unit :=
  let* t := get_prev e in
  let* n := get_next e in
  do* set_prev e n;
  set_next e t.

Fixpoint reverse_loop (fuel : nat) (list e : Z) : M heap unit :=
  match fuel with
  | O => fail FFuel
  | S fuel =>
    let* en := list_end list in
    if e =? en then mret tt else
    do* swap_links e;
    let* e' := get_prev e in
    reverse_loop fuel list e'
  end.

(** The two swaps after the loop of [list_reverse]: [head.next] with [tail.prev], then
    [head.next->prev] with [tail.prev->next]. *)
Definition reverse_ends (list : Z) : M heap unit :=
  let* t := get_next (head list) in
  let* u := get_prev (tail list) in
  do* set_next (head list) u;
  do* set_prev (tail list) t;
  let* first := get_next (head list) in
  let* last := get_prev (tail list) in
  let* t := get_prev first in
  let* u := get_next last in
  do* set_prev first u;
  set_next last t.

Definition list_reverse (list : Z) : M heap unit :=
  let* emp : bool := list_empty list in
  if emp then mret tt else
  let* e := list_begin list in
  do* with_fuel (fun n => reverse_loop n list e);
  reverse_ends list.

Section Less.
Variable less : Z -> Z -> bool.

Fixpoint is_sorted_loop (fuel : nat) (a b : Z) : M heap bool :=
  match fuel with
  | O => fail FFuel
  | S fuel =>
    let* a := list_next a in
    if a =? b then mret true else
    let* p := list_prev a in
    if less a p then mret false else is_sorted_loop fuel a b
  end.

Definition is_sorted (a b : Z) : M heap bool :=
  if a =? b then mret true else with_fuel (fun n => is_sorted_loop n a b).

Fixpoint run_loop (fuel : nat) (a b : Z) : M heap Z :=
  match fuel with
  | O => fail FFuel
  | S fuel =>
    let* a := list_next a in
    if a =? b then mret a else
    let* p := list_prev a in
    if less a p then mret a else run_loop fuel a b
  end.

Definition find_end_of_run (a b : Z) : M heap Z :=
  do* ASSERT (negb (a =? NULL));
  do* ASSERT (negb (b =? NULL));
  do* ASSERT (negb (a =? b));
  with_fuel (fun n => run_loop n a b).

Fixpoint merge_loop (fuel : nat) (a0 a1b0 b1 : Z) : M heap unit :=
  match fuel with
  | O => fail FFuel
  | S fuel =>
    if (a0 =? a1b0) || (a1b0 =? b1) then mret tt else
    if negb (less a1b0 a0) then
      let* a0 := list_next a0 in
      merge_loop fuel a0 a1b0 b1
    else
      let* a1b0 := list_next a1b0 in
      let* p := list_prev a1b0 in
      do* list_splice a0 p a1b0;
      merge_loop fuel a0 a1b0 b1
  end.

Definition inplace_merge (a0 a1b0 b1 : Z) : M heap unit :=
  do* ASSERT (negb (a0 =? NULL));
  do* ASSERT (negb (a1b0 =? NULL));
  do* ASSERT (negb (b1 =? NULL));
  let* s1 := is_sorted a0 a1b0 in
  do* ASSERT s1;
  let* s2 := is_sorted a1b0 b1 in
  do* ASSERT s2;
  with_fuel (fun n => merge_loop n a0 a1b0 b1).

(** One pass of the outer loop; returns [output_run_cnt]. *)
Fixpoint pass_loop (fuel : nat) (list a0 cnt : Z) : M heap Z :=
  match fuel with
  | O => fail FFuel
  | S fuel =>
    let* en := list_end list in
    if a0 =? en then mret cnt else
    let cnt := u32 (cnt + 1) in
    let* a1b0 := find_end_of_run a0 en in
    if a1b0 =? en then mret cnt else
    let* b1 := find_end_of_run a1b0 en in
    do* inplace_merge a0 a1b0 b1;
    pass_loop fuel list b1 cnt
  end.

Fixpoint sort_loop (fuel : nat) (list : Z) : M heap unit :=
  match fuel with
  | O => fail FFuel
  | S fuel =>
    let* a0 := list_begin list in
    let* cnt := with_fuel (fun n => pass_loop n list a0 0) in
    if 1 <? cnt then sort_loop fuel list else mret tt
  end.

Definition list_sort (list : Z) : M heap unit :=
  do* ASSERT (negb (list =? NULL));
  do* with_fuel (fun n => sort_loop n list);
  let* b := list_begin list in
  let* e := list_end list in
  let* s := is_sorted b e in
  ASSERT s.

Fixpoint insert_ordered_loop (fuel : nat) (list elem e : Z) : M heap Z :=
  match fuel with
  | O => fail FFuel
  | S fuel =>
    let* en := list_end list in
    if e =? en then mret e else
    if less elem e then mret e else
    let* e := list_next e in
    insert_ordered_loop fuel list elem e
  end.

Definition list_insert_ordered (list elem : Z) : M heap unit :=
  do* ASSERT (negb (list =? NULL));
  do* ASSERT (negb (elem =? NULL));
  let* e := list_begin list in
  let* e := with_fuel (fun n => insert_ordered_loop n list elem e) in
  list_insert e elem.

Fixpoint unique_loop (fuel : nat) (list duplicates elem : Z) : M heap unit :=
  match fuel with
  | O => fail FFuel
  | S fuel =>
    let* nx := list_next elem in
    let* en := list_end list in
    if nx =? en then mret tt else
    if negb (less elem nx) && negb (less nx elem) then
      let* _ := list_remove nx in
      do* (if duplicates =? NULL then mret tt else list_push_back duplicates nx);
      unique_loop fuel list duplicates elem
    else unique_loop fuel list duplicates nx
  end.

Definition list_unique (list duplicates : Z) : M heap unit :=
  do* ASSERT (negb (list =? NULL));
  let* emp : bool := list_empty list in
  if emp then mret tt else
  let* elem := list_begin list in
  with_fuel (fun n => unique_loop n list duplicates elem).

Fixpoint max_loop (fuel : nat) (list max e : Z) : M heap Z :=
  match fuel with
  | O => fail FFuel
  | S fuel =>
    let* en := list_end list in
    if e =? en then mret max else
    let max := if less max e then e else max in
    let* e := list_next e in
    max_loop fuel list max e
  end.

Definition list_max (list : Z) : M heap Z :=
  let* max := list_begin list in
  let* en := list_end list in
  if max =? en then mret max else
  let* e := list_next max in
  with_fuel (fun n => max_loop n list max e).

Fixpoint min_loop (fuel : nat) (list min e : Z) : M heap Z :=
  match fuel with
  | O => fail FFuel
  | S fuel =>
    let* en := list_end list in
    if e =? en then mret min else
    let min := if less e min then e else min in
    let* e := list_next e in
    min_loop fuel list min e
  end.

Definition list_min (list : Z) : M heap Z :=
  let* min := list_begin list in
  let* en := list_end list in
  if min =? en then mret min else
  let* e := list_next min in
  with_fuel (fun n => min_loop n list min e).

End Less.

(** A concrete list at address 100 with nodes 16, 32, ..: used by examples. *)
Definition store (l : Z) (xs : list Z) : heap :=
  let ns := head l :: xs ++ [tail l] in
  list_to_map (zip ns (zip_with LE (NULL :: ns) (tl ns ++ [NULL]))).

Fixpoint contents (fuel : nat) (h : heap) (e en : Z) : list Z :=
  match fuel with
  | O => []
  | S fuel => if e =? en then [] else
      e :: match nextf h e with Some n => contents fuel h n en | None => [] end
  end.
Definition to_list (l : Z) (h : heap) : list Z :=
  match nextf h (head l) with Some e => contents (S (size h)) h e (tail l) | None => [] end.

Definition mod10_less (a b : Z) : bool := a mod 10 <? b mod 10.

Example sort_ex :
  match list_sort mod10_less 1000 (store 1000 [13; 21; 35; 42; 11; 23; 39]) with
  | Ok (_, h) => to_list 1000 h
  | Fail _ => [] end = [21; 11; 42; 13; 23; 35; 39].
Proof. vm_compute. reflexivity. Qed.

Example reverse_ex :
  match list_reverse 1000 (store 1000 [13; 21; 35; 42; 11]) with
  | Ok (_, h) => to_list 1000 h
  | Fail _ => [] end = [11; 42; 35; 21; 13].
Proof. vm_compute. reflexivity. Qed.

(** ** Cursors: the node at the start of a suffix *)

Lemma cursor_next h l xs y ys :
  ring h l (xs ++ y :: ys) -> list_next y h = Ok (hd (tail l) ys, h).
Proof.
  intros R. apply list_next_ok.
  - eapply ring_null_in; [done|]. set_solver.
  - eapply (ring_hd_null h l (xs ++ [y])). by rewrite <- app_assoc.
  - by eapply ring_next_of.
Qed.

Lemma cursor_prev h l xs y ys :
  ring h l (xs ++ y :: ys) -> list_prev (hd (tail l) ys) h = Ok (y, h).
Proof.
  intros R. replace (xs ++ y :: ys) with ((xs ++ [y]) ++ ys) in R by (by rewrite <- app_assoc).
  apply list_prev_ok.
  - by eapply ring_hd_null.
  - eapply ring_null_in; [done|]. set_solver.
  - rewrite (ring_prev_of _ _ _ _ R). by rewrite last_last.
Qed.

(** Two cursors are equal exactly when nothing lies between them. *)
Lemma cursor_eqb h l xs ys zs :
  ring h l (xs ++ ys ++ zs) ->
  (hd (tail l) (ys ++ zs) =? hd (tail l) zs) = bool_decide (ys = []).
Proof.
  intros R. destruct ys as [|y ys]; [cbn [app]; by rewrite Z.eqb_refl|].
  rewrite bool_decide_eq_false_2 by done. apply Z.eqb_neq. cbn.
  pose proof (ring_nodup _ _ _ R) as N. cbn in N. rewrite !NoDup_cons, <- !app_assoc in N.
  destruct N as [_ N]. apply NoDup_app in N as (_ & _ & N). cbn in N.
  apply NoDup_cons in N as [N _]. intros ->. apply N.
  destruct zs; cbn; set_solver.
Qed.

Lemma cursor_end h l xs ys :
  ring h l (xs ++ ys) -> (hd (tail l) ys =? tail l) = bool_decide (ys = []).
Proof.
  intros R. rewrite <- (app_nil_r ys) in R. pose proof (cursor_eqb _ _ _ _ _ R) as E.
  by rewrite app_nil_r in E.
Qed.

(** Fuel: more than the length of the list. *)
Lemma with_fuel_eq {A} (f : nat -> M heap A) h : with_fuel f h = f (S (size h)) h.
Proof. done. Qed.

Lemma ring_assoc h l xs x ys : ring h l (xs ++ x :: ys) -> ring h l ((xs ++ [x]) ++ ys).
Proof. by rewrite <- app_assoc. Qed.

Lemma size_loop_ok h l ys : forall xs cnt fuel,
  ring h l (xs ++ ys) -> is_u32 cnt -> (length ys < fuel)%nat ->
  size_loop fuel l (hd (tail l) ys) cnt h = Ok (u32 (cnt + Z.of_nat (length ys)), h).
Proof.
  induction ys as [|y ys IH]; intros xs cnt [|fuel] R Hc Hf; cbn in Hf; try lia;
    cbn [size_loop]; rewrite (M_bind_Ok _ _ _ _ _ (list_end_ok _ _ _ R));
    rewrite (cursor_end _ _ _ _ R).
  - rewrite bool_decide_eq_true_2 by done. cbn [length Z.of_nat]. by rewrite Z.add_0_r, u32_small.
  - rewrite bool_decide_eq_false_2 by done. cbn [hd].
    rewrite (M_bind_Ok _ _ _ _ _ (cursor_next _ _ _ _ _ R)).
    rewrite (IH (xs ++ [y])); [|by apply ring_assoc|apply u32_range|lia].
    do 2 f_equal. unfold u32. rewrite Zplus_mod_idemp_l. f_equal. cbn [length]. lia.
Qed.

(** [list_size] counts the elements (modulo the width of [size_t]). *)
Lemma list_size_ok h l xs :
  ring h l xs -> list_size l h = Ok (u32 (Z.of_nat (length xs)), h).
Proof.
  intros R. unfold list_size. rewrite (M_bind_Ok _ _ _ _ _ (list_begin_ok _ _ _ R)).
  rewrite with_fuel_eq. pose proof (ring_size _ _ _ R).
  apply (size_loop_ok h l xs []); [done|solve_int|lia].
Qed.

(** ** The order *)

Class StrictWeakOrder (less : Z -> Z -> bool) : Prop := {
  swo_asym : forall x y, less x y = true -> less y x = false;
  swo_negtrans : forall x y z, less x y = false -> less y z = false -> less x z = false
}.

(** Stable sorting of a sequence by repeated merging of one element. *)
Fixpoint merge_seq (less : Z -> Z -> bool) (A : list Z) : list Z -> list Z :=
  fix go (B : list Z) : list Z :=
    match A, B with
    | [], _ => B
    | _, [] => A
    | a :: A', b :: B' => if less b a then b :: go B' else a :: merge_seq less A' B
    end.
Fixpoint sort_seq (less : Z -> Z -> bool) (xs : list Z) : list Z :=
  match xs with [] => [] | x :: t => merge_seq less [x] (sort_seq less t) end.

Section Sorting.
Context (less : Z -> Z -> bool) `{SWO : !StrictWeakOrder less}.

Definition le (a b : Z) : Prop := less b a = false.
Definition eqv (x y : Z) : bool := negb (less x y) && negb (less y x).

#[local] Instance le_trans : Transitive le.
Proof. intros a b c H1 H2. unfold le in *. by eapply swo_negtrans. Qed.

(** ** The abstract sequence level *)

Fixpoint split_run (a : Z) (l : list Z) : list Z * list Z :=
  match l with
  | [] => ([], [])
  | x :: l' => if less x a then ([], l) else let '(r, t) := split_run x l' in (x :: r, t)
  end.

Abbreviation merge := (merge_seq less).

Fixpoint pass (n : nat) (xs : list Z) : list Z * nat :=
  match n, xs with
  | O, _ => (xs, O)
  | S _, [] => ([], O)
  | S n, a :: l =>
    let '(r, t) := split_run a l in
    match t with
    | [] => (a :: l, 1%nat)
    | b :: t' =>
      let '(r2, t2) := split_run b t' in
      let '(zs, c) := pass n t2 in
      (merge (a :: r) (b :: r2) ++ zs, S c)
    end
  end.

Fixpoint runs_from (a : Z) (l : list Z) : nat :=
  match l with
  | [] => 1
  | x :: l' => if less x a then S (runs_from x l') else runs_from x l'
  end.
Definition runs (xs : list Z) : nat :=
  match xs with [] => 0 | a :: l => runs_from a l end.

Lemma split_run_app a l : fst (split_run a l) ++ snd (split_run a l) = l.
Proof.
  revert a. induction l as [|x l IH]; intros a; [done|]. cbn.
  destruct (less x a); [done|]. specialize (IH x). destruct (split_run x l); cbn in *. by rewrite IH.
Qed.

Lemma split_run_sorted a l : Sorted le (a :: fst (split_run a l)).
Proof.
  revert a. induction l as [|x l IH]; intros a; [cbn; repeat constructor|]. cbn.
  destruct (less x a) eqn:E; [repeat constructor|]. specialize (IH x).
  destruct (split_run x l); cbn in *. constructor; [done|by constructor].
Qed.

Lemma runs_split a l : runs (a :: l) = S (runs (snd (split_run a l))).
Proof.
  revert a. induction l as [|x l IH]; intros a; [done|]. cbn.
  destruct (less x a); [done|]. specialize (IH x). cbn in IH. rewrite IH.
  by destruct (split_run x l).
Qed.

Lemma runs_sorted xs : Sorted le xs -> (runs xs <= 1)%nat.
Proof.
  destruct xs as [|a l]; [cbn; lia|]. revert a. induction l as [|x l IH]; intros a H; [cbn; lia|].
  inversion H as [|? ? H1 H2]; subst. inversion H2 as [|? ? H3]; subst. cbn.
  rewrite H3. by apply IH.
Qed.

Lemma runs_from_pos a l : (1 <= runs_from a l)%nat.
Proof. revert a. induction l as [|x l IH]; intros a; cbn; [lia|]. destruct (less x a); [lia|apply IH]. Qed.

Lemma sorted_runs xs : (runs xs <= 1)%nat -> Sorted le xs.
Proof.
  destruct xs as [|a l]; [constructor|]. revert a. induction l as [|x l IH]; intros a H; [repeat constructor|].
  cbn in H. pose proof (runs_from_pos x l). destruct (less x a) eqn:E; [lia|].
  constructor; [by apply IH|by constructor].
Qed.

Lemma runs_length xs : (runs xs <= length xs)%nat.
Proof.
  destruct xs as [|a l]; [done|]. cbn. revert a.
  induction l as [|x l IH]; intros a; cbn; [lia|]. specialize (IH x). destruct (less x a); lia.
Qed.

Lemma runs_app xs ys : (runs (xs ++ ys) <= runs xs + runs ys)%nat.
Proof.
  destruct xs as [|a l]; [done|]. cbn. revert a. induction l as [|x l IH]; intros a; cbn.
  - destruct ys as [|y ys]; cbn; [lia|]. destruct (less y a); lia.
  - specialize (IH x). destruct (less x a); lia.
Qed.

Lemma merge_nil_r A : merge A [] = A.
Proof. by destruct A. Qed.
Lemma merge_cons a A b B :
  merge (a :: A) (b :: B) = if less b a then b :: merge (a :: A) B else a :: merge A (b :: B).
Proof. done. Qed.

Lemma merge_perm A B : merge A B ≡ₚ A ++ B.
Proof.
  revert B. induction A as [|a A IHA]; [by intros []|].
  induction B as [|b B IHB]; [by rewrite merge_nil_r, app_nil_r|].
  rewrite merge_cons. destruct (less b a).
  - rewrite IHB. apply Permutation_middle.
  - by rewrite IHA.
Qed.

Lemma merge_hd a A B : (exists b B', B = b :: B' /\ less b a = true /\ merge (a :: A) B = b :: merge (a :: A) B') \/
  merge (a :: A) B = a :: merge A B.
Proof.
  destruct B as [|b B]; [right; by rewrite !merge_nil_r|]. rewrite merge_cons.
  destruct (less b a) eqn:E; eauto 6.
Qed.

Lemma merge_sorted A B : Sorted le A -> Sorted le B -> Sorted le (merge A B).
Proof.
  revert B. induction A as [|a A IHA]; [by intros []|].
  induction B as [|b B IHB]; intros HA HB; [by rewrite merge_nil_r|].
  rewrite merge_cons. destruct (less b a) eqn:E.
  - inversion HB as [|? ? HB1 HB2]; subst. constructor; [by apply IHB|].
    destruct (merge_hd a A B) as [(c & B' & -> & Hc & ->)| ->]; constructor.
    + by inversion HB2.
    + unfold le. by apply swo_asym.
  - inversion HA as [|? ? HA1 HA2]; subst. constructor; [by apply IHA|].
    destruct A as [|a' A]; [by constructor|].
    destruct (merge_hd a' A (b :: B)) as [(c & B' & [= <- <-] & Hc & ->)| ->]; constructor; [done|].
    by inversion HA2.
Qed.

Lemma le_less b a a' : less b a = true -> le a a' -> less b a' = true.
Proof.
  unfold le. intros H1 H2. destruct (less b a') eqn:E; [done|].
  rewrite (swo_negtrans b a' a) in H1; done.
Qed.

Lemma lfilter_cons {A} (f : A -> bool) x l :
  List.filter f (x :: l) = if f x then x :: List.filter f l else List.filter f l.
Proof. done. Qed.

(** Elements equivalent to [x] keep their order. *)
Lemma merge_stable x A B :
  Sorted le A -> List.filter (eqv x) (merge A B) = List.filter (eqv x) A ++ List.filter (eqv x) B.
Proof.
  intros HA. apply Sorted_StronglySorted in HA; [|exact le_trans].
  revert B HA. induction A as [|a A IHA]; [by intros []|].
  induction B as [|b B IHB]; intros HA; [by rewrite merge_nil_r, app_nil_r|].
  inversion HA as [|? ? HA1 HA2]; subst.
  rewrite merge_cons. destruct (less b a) eqn:E.
  - rewrite !(lfilter_cons _ b), IHB by done. destruct (eqv x b) eqn:Eb; [|done].
    assert (HN : List.filter (eqv x) (a :: A) = []); [|by rewrite HN].
    assert (HF : Forall (fun c => eqv x c = false) (a :: A)).
    { assert (Hall : Forall (fun c => less b c = true) (a :: A)).
      { constructor; [done|]. eapply Forall_impl; [done|]. cbn. intros c Hc. by eapply le_less. }
      eapply Forall_impl; [done|]. cbn. intros c Hc. apply not_true_is_false. intros Ec.
      unfold eqv in *. apply andb_true_iff in Eb as [Eb1 Eb2], Ec as [Ec1 Ec2].
      rewrite negb_true_iff in *. by rewrite (swo_negtrans b x c) in Hc. }
    clear -HF. induction HF as [|c l Hc _ IH]; [done|]. cbn. by rewrite Hc.
  - rewrite !(lfilter_cons _ a), IHA by done. by destruct (eqv x a).
Qed.

(** What a pass achieves. *)
Record passed (xs ys : list Z) (c : nat) : Prop := {
  passed_perm : ys ≡ₚ xs;
  passed_runs : (runs ys <= c)%nat;
  passed_half : (2 * c <= runs xs + 1)%nat;
  passed_stable : forall x, List.filter (eqv x) ys = List.filter (eqv x) xs
}.

Lemma pass_passed n xs : (length xs < n)%nat -> passed xs (fst (pass n xs)) (snd (pass n xs)).
Proof.
  revert xs. induction n as [|n IH]; intros xs Hn; [lia|].
  destruct xs as [|a l]; [by split; cbn; try lia|]. cbn [pass].
  pose proof (split_run_app a l) as E1. pose proof (split_run_sorted a l) as S1.
  pose proof (runs_split a l) as R1. destruct (split_run a l) as [r t]. cbn [fst snd] in *.
  destruct t as [|b t'].
  - rewrite app_nil_r in E1. subst r. split; cbn [fst snd]; try done; [by apply runs_sorted|]. lia.
  - pose proof (split_run_app b t') as E2. pose proof (split_run_sorted b t') as S2.
    pose proof (runs_split b t') as R2. destruct (split_run b t') as [r2 t2]. cbn [fst snd] in *.
    destruct (IH t2) as [I1 I2 I3 I4].
    { subst. cbn in Hn. rewrite length_app in Hn. cbn in Hn. rewrite length_app in Hn. lia. }
    destruct (pass n t2) as [zs c]. cbn [fst snd] in *.
    split.
    + rewrite merge_perm, I1, <- E1, <- E2. cbn. by rewrite <- !app_assoc.
    + etransitivity; [apply runs_app|]. pose proof (runs_sorted _ (merge_sorted _ _ S1 S2)). lia.
    + lia.
    + intros x. rewrite List.filter_app, merge_stable, I4, <- E1, <- E2 by done.
      rewrite <- !List.filter_app. f_equal. cbn. by rewrite <- !app_assoc.
Qed.

(** ** The pointer level follows the sequence level *)

Lemma run_loop_ok h l ys : forall xs a zs fuel,
  ring h l (xs ++ a :: ys ++ zs) -> (length ys < fuel)%nat ->
  run_loop less fuel a (hd (tail l) zs) h = Ok (hd (tail l) (snd (split_run a ys) ++ zs), h).
Proof.
  induction ys as [|y ys IH]; intros xs a zs [|fuel] R Hf; cbn in Hf; try lia;
    cbn [run_loop]; rewrite (M_bind_Ok _ _ _ _ _ (cursor_next _ _ _ _ _ R)).
  - cbn [app]. by rewrite Z.eqb_refl.
  - pose proof (ring_assoc _ _ _ _ _ R) as R'.
    rewrite (cursor_eqb h l (xs ++ [a]) (y :: ys) zs), bool_decide_eq_false_2 by done.
    rewrite (M_bind_Ok _ _ _ _ _ (cursor_prev _ _ _ _ _ R)). cbn [app hd split_run].
    destruct (less y a); [done|]. rewrite (IH (xs ++ [a]) y zs fuel) by (done || lia).
    by destruct (split_run y ys).
Qed.

Lemma find_end_of_run_ok h l xs a ys zs :
  ring h l (xs ++ a :: ys ++ zs) ->
  find_end_of_run less a (hd (tail l) zs) h = Ok (hd (tail l) (snd (split_run a ys) ++ zs), h).
Proof.
  intros R. unfold find_end_of_run.
  assert (Ha : a <> NULL) by (eapply ring_null_in; [done|]; set_solver).
  assert (Hz : hd (tail l) zs <> NULL).
  { apply (ring_hd_null h l (xs ++ a :: ys)). by rewrite <- app_assoc. }
  rewrite !eqb_null by done.
  pose proof (cursor_eqb h l xs (a :: ys) zs R) as E. cbn [hd app] in E. rewrite E.
  rewrite bool_decide_eq_false_2 by done. cbn [negb ASSERT].
  rewrite !(M_bind_Ok _ _ _ tt h) by done. rewrite with_fuel_eq.
  pose proof (ring_size _ _ _ R) as Hs. rewrite length_app in Hs. cbn in Hs. rewrite length_app in Hs.
  eapply run_loop_ok; [done|]. lia.
Qed.

Lemma is_sorted_loop_ok h l ys : forall xs a zs fuel,
  ring h l (xs ++ a :: ys ++ zs) -> Sorted le (a :: ys) -> (length ys < fuel)%nat ->
  is_sorted_loop less fuel a (hd (tail l) zs) h = Ok (true, h).
Proof.
  induction ys as [|y ys IH]; intros xs a zs [|fuel] R HS Hf; cbn in Hf; try lia;
    cbn [is_sorted_loop]; rewrite (M_bind_Ok _ _ _ _ _ (cursor_next _ _ _ _ _ R)).
  - cbn [app]. by rewrite Z.eqb_refl.
  - pose proof (ring_assoc _ _ _ _ _ R) as R'.
    rewrite (cursor_eqb h l (xs ++ [a]) (y :: ys) zs), bool_decide_eq_false_2 by done.
    rewrite (M_bind_Ok _ _ _ _ _ (cursor_prev _ _ _ _ _ R)). cbn [app hd].
    inversion HS as [|? ? H1 H2]; subst. inversion H2 as [|? ? H3]; subst. rewrite H3.
    by apply (IH (xs ++ [a])); [..|lia].
Qed.

Lemma is_sorted_ok h l xs ys zs :
  ring h l (xs ++ ys ++ zs) -> Sorted le ys ->
  is_sorted less (hd (tail l) (ys ++ zs)) (hd (tail l) zs) h = Ok (true, h).
Proof.
  intros R HS. unfold is_sorted. rewrite (cursor_eqb _ _ _ _ _ R).
  destruct ys as [|a ys]; [by rewrite bool_decide_eq_true_2|].
  rewrite bool_decide_eq_false_2 by done. rewrite with_fuel_eq.
  pose proof (ring_size _ _ _ R) as Hs. rewrite length_app in Hs. cbn in Hs. rewrite length_app in Hs.
  cbn [app hd]. eapply is_sorted_loop_ok; [done..|lia].
Qed.

Abbreviation nodes l xs := (head l :: xs ++ [tail l]).

Lemma frame_perm l xs ys h h' : xs ≡ₚ ys -> frame (nodes l xs) h h' -> frame (nodes l ys) h h'.
Proof. intros E. apply frame_weaken. intros x. by rewrite E. Qed.

Lemma merge_loop_ok l Q A : forall B P h fuel,
  ring h l (P ++ A ++ B ++ Q) -> (length A + length B < fuel)%nat ->
  exists h', merge_loop less fuel (hd (tail l) (A ++ B ++ Q)) (hd (tail l) (B ++ Q)) (hd (tail l) Q) h
      = Ok (tt, h') /\
    ring h' l (P ++ merge A B ++ Q) /\ frame (nodes l (P ++ A ++ B ++ Q)) h h'.
Proof.
  induction A as [|a A IHA].
  { intros B P h [|fuel] R Hf; [lia|]. exists h. cbn [merge_loop app]. rewrite Z.eqb_refl. by destruct B. }
  induction B as [|b B IHB]; intros P h [|fuel] R Hf; try (cbn in Hf; lia); cbn [merge_loop].
  { exists h. cbn [app]. by rewrite Z.eqb_refl, orb_true_r, merge_nil_r. }
  rewrite (cursor_eqb h l P (a :: A) ((b :: B) ++ Q) R), bool_decide_eq_false_2 by done.
  rewrite (cursor_eqb h l (P ++ a :: A) (b :: B) Q), bool_decide_eq_false_2
    by (done || by rewrite <- app_assoc).
  rewrite merge_cons. cbn [orb app hd]. destruct (less b a) eqn:E; cbn [negb].
  - assert (R1 : ring h l ((P ++ a :: A) ++ b :: B ++ Q)) by (by rewrite <- app_assoc).
    rewrite (M_bind_Ok _ _ _ _ _ (cursor_next _ _ _ _ _ R1)).
    rewrite (M_bind_Ok _ _ _ _ _ (cursor_prev _ _ _ _ _ R1)).
    destruct (list_splice_ring h l P a A b [] (B ++ Q)) as (h1 & E1 & R2 & F1); [done|].
    rewrite (M_bind_Ok _ _ _ _ _ E1).
    destruct (IHB (P ++ [b]) h1 fuel) as (h' & E' & R' & F'); [by rewrite <- app_assoc|cbn in *; lia|].
    exists h'. split; [done|]. rewrite <- app_assoc in R'. split; [done|].
    eapply frame_trans; (eapply frame_perm; [|done]); cbn; rewrite <- ?app_assoc; cbn;
      exact (Permutation_app_head P (Permutation_middle (a :: A) (B ++ Q) b)).
  - rewrite (M_bind_Ok _ _ _ _ _ (cursor_next _ _ _ _ _ R)).
    destruct (IHA (b :: B) (P ++ [a]) h fuel) as (h' & E' & R' & F'); [by rewrite <- app_assoc|cbn in *; lia|].
    exists h'. rewrite <- (app_assoc P) in R', F'. done.
Qed.

Lemma inplace_merge_ok h l P A B Q :
  ring h l (P ++ A ++ B ++ Q) -> Sorted le A -> Sorted le B ->
  exists h', inplace_merge less (hd (tail l) (A ++ B ++ Q)) (hd (tail l) (B ++ Q)) (hd (tail l) Q) h
      = Ok (tt, h') /\
    ring h' l (P ++ merge A B ++ Q) /\ frame (nodes l (P ++ A ++ B ++ Q)) h h'.
Proof.
  intros R HA HB. unfold inplace_merge.
  pose proof (ring_hd_null _ _ _ _ R) as N1.
  assert (R1 : ring h l ((P ++ A) ++ B ++ Q)) by (by rewrite <- app_assoc).
  assert (R2 : ring h l (((P ++ A) ++ B) ++ Q)) by (by rewrite <- app_assoc).
  rewrite !eqb_null by (by eapply ring_hd_null). cbn [negb ASSERT].
  rewrite !(M_bind_Ok _ _ _ tt h) by done.
  rewrite (M_bind_Ok _ _ _ _ _ (is_sorted_ok _ _ _ _ _ R HA)), (M_bind_Ok _ _ _ tt h) by done.
  rewrite (M_bind_Ok _ _ _ _ _ (is_sorted_ok _ _ _ _ _ R1 HB)), (M_bind_Ok _ _ _ tt h) by done.
  rewrite with_fuel_eq. apply merge_loop_ok; [done|].
  pose proof (ring_size _ _ _ R) as Hs. rewrite !length_app in Hs. lia.
Qed.

Lemma pass_loop_ok l n : forall P xs h cnt fuel,
  ring h l (P ++ xs) -> (length xs < n)%nat -> (n <= fuel)%nat -> 0 <= cnt ->
  cnt + Z.of_nat (length xs) < 2 ^ 32 ->
  exists h', pass_loop less fuel l (hd (tail l) xs) cnt h = Ok (cnt + Z.of_nat (snd (pass n xs)), h') /\
    ring h' l (P ++ fst (pass n xs)) /\ frame (nodes l (P ++ xs)) h h'.
Proof.
  induction n as [|n IH]; intros P xs h cnt [|fuel] R Hn Hf Hc Hb; try lia.
  cbn [pass_loop]. rewrite (M_bind_Ok _ _ _ _ _ (list_end_ok _ _ _ R)), (cursor_end _ _ _ _ R).
  destruct xs as [|a t].
  { exists h. rewrite bool_decide_eq_true_2 by done. cbn. by rewrite Z.add_0_r. }
  rewrite bool_decide_eq_false_2 by done. cbn [hd pass]. rewrite (u32_small (cnt + 1)) by (cbn in Hb; solve_int).
  assert (R1 : ring h l (P ++ a :: t ++ [])) by (by rewrite app_nil_r).
  rewrite (M_bind_Ok _ _ _ _ _ (find_end_of_run_ok _ _ _ _ _ _ R1)), app_nil_r.
  pose proof (split_run_app a t) as E1. pose proof (split_run_sorted a t) as S1.
  destruct (split_run a t) as [r u]. cbn [fst snd] in *. subst t.
  assert (R2 : ring h l ((P ++ a :: r) ++ u)) by (by rewrite <- app_assoc).
  rewrite (cursor_end _ _ _ _ R2). destruct u as [|b t'].
  { exists h. rewrite bool_decide_eq_true_2 by done. cbn [fst snd]. by rewrite Z.add_1_r. }
  rewrite bool_decide_eq_false_2 by done. cbn [hd].
  assert (R3 : ring h l ((P ++ a :: r) ++ b :: t' ++ [])) by (by rewrite app_nil_r).
  rewrite (M_bind_Ok _ _ _ _ _ (find_end_of_run_ok _ _ _ _ _ _ R3)), app_nil_r.
  pose proof (split_run_app b t') as E2. pose proof (split_run_sorted b t') as S2.
  destruct (split_run b t') as [r2 u2]. cbn [fst snd] in *. subst t'.
  destruct (inplace_merge_ok h l P (a :: r) (b :: r2) u2) as (h1 & Em & Rm & Fm); [done..|].
  cbn [app hd] in Em. rewrite (M_bind_Ok _ _ _ _ _ Em).
  assert (Hl : (length (a :: r ++ b :: r2 ++ u2) = 2 + length r + length r2 + length u2)%nat)
    by (cbn; rewrite length_app; cbn; rewrite length_app; lia).
  destruct (IH (P ++ merge (a :: r) (b :: r2)) u2 h1 (cnt + 1) fuel) as (h' & E' & R' & F');
    [by rewrite <- app_assoc|lia..|].
  destruct (pass n u2) as [zs c]. cbn [fst snd] in *. exists h'. rewrite <- (app_assoc P) in R', F'.
  split; [rewrite E'; do 2 f_equal; lia|]. split; [done|]. eapply frame_trans; [done|].
  eapply frame_perm; [|done]. by rewrite merge_perm, <- app_assoc.
Qed.

(** [ys] is the stable sort of [xs]. *)
Record stable_sort (xs ys : list Z) : Prop := {
  sort_perm : ys ≡ₚ xs;
  sort_sorted : Sorted le ys;
  sort_stable : forall x, List.filter (eqv x) ys = List.filter (eqv x) xs
}.

Lemma eqv_refl x : eqv x x = true.
Proof. unfold eqv. destruct (less x x) eqn:E; [by rewrite (swo_asym _ _ E) in E|done]. Qed.

Lemma filter_eqv_in x l : x ∈ l <-> x ∈ List.filter (eqv x) l.
Proof.
  rewrite !list_elem_of_In, filter_In. split; [by split; [|apply eqv_refl]|tauto].
Qed.

Lemma sorted_head_le y l x : Sorted le (y :: l) -> x ∈ y :: l -> le y x.
Proof.
  intros HS [->|Hx]%elem_of_cons.
  - unfold le. destruct (less y y) eqn:E; [by rewrite (swo_asym _ _ E) in E|done].
  - apply Sorted_StronglySorted in HS; [|exact le_trans]. inversion HS as [|? ? _ HF]; subst.
    rewrite Forall_forall in HF. by apply HF.
Qed.

(** Sortedness and the order inside every class of equivalent elements determine a list. *)
Lemma sorted_unique ys : forall zs,
  Sorted le ys -> Sorted le zs -> (forall x, List.filter (eqv x) ys = List.filter (eqv x) zs) -> ys = zs.
Proof.
  induction ys as [|y ys IH]; intros [|z zs] HY HZ HF; [done|specialize (HF z)|specialize (HF y)|];
    try (cbn in HF; rewrite eqv_refl in HF; done).
  assert (Hz : z ∈ y :: ys) by (rewrite filter_eqv_in, HF, <- filter_eqv_in; left).
  assert (Hy : y ∈ z :: zs) by (rewrite filter_eqv_in, <- HF, <- filter_eqv_in; left).
  pose proof (sorted_head_le y ys z HY Hz) as L1. pose proof (sorted_head_le z zs y HZ Hy) as L2.
  assert (y = z) as ->.
  { specialize (HF y). rewrite !lfilter_cons, eqv_refl in HF. unfold eqv at 2 in HF.
    unfold le in L1, L2. rewrite L1, L2 in HF. cbn in HF. congruence. }
  f_equal. apply IH; [by inversion HY|by inversion HZ|]. intros x. specialize (HF x).
  rewrite !lfilter_cons in HF. destruct (eqv x z); congruence.
Qed.

Lemma sort_seq_stable xs : stable_sort xs (sort_seq less xs).
Proof.
  induction xs as [|x xs [P S F]]; [by split|]. cbn [sort_seq]. split.
  - rewrite merge_perm, P. done.
  - apply merge_sorted; [repeat constructor|done].
  - intros y. rewrite merge_stable, F by repeat constructor. by rewrite <- List.filter_app.
Qed.

Lemma stable_sort_eq xs ys : stable_sort xs ys -> ys = sort_seq less xs.
Proof.
  intros [P S F]. destruct (sort_seq_stable xs) as [P' S' F']. apply sorted_unique; [done|done|].
  intros x. by rewrite F, F'.
Qed.

Lemma sort_loop_ok l fuel : forall xs h,
  ring h l xs -> (runs xs <= fuel)%nat -> (1 <= fuel)%nat -> Z.of_nat (length xs) < 2 ^ 32 ->
  exists ys h', sort_loop less fuel l h = Ok (tt, h') /\ ring h' l ys /\ stable_sort xs ys /\
    frame (nodes l xs) h h'.
Proof.
  induction fuel as [|fuel IH]; intros xs h R Hr Hf Hl; [lia|]. cbn [sort_loop].
  rewrite (M_bind_Ok _ _ _ _ _ (list_begin_ok _ _ _ R)).
  pose proof (ring_size _ _ _ R) as Hs.
  destruct (pass_loop_ok l (S (size h)) [] xs h 0 (S (size h)) R) as (h1 & E1 & R1 & F1); [lia..|].
  destruct (pass_passed (S (size h)) xs) as [P1 P2 P3 P4]; [lia|].
  destruct (pass (S (size h)) xs) as [ys c]. cbn [fst snd app] in *.
  rewrite (M_bind_Ok (with_fuel _) _ h _ _ E1). destruct (1 <? 0 + Z.of_nat c) eqn:Ec.
  - apply Z.ltb_lt in Ec.
    destruct (IH ys h1) as (zs & h2 & E2 & R2 & [Q1 Q2 Q3] & F2); [done|lia|lia|by rewrite P1|].
    exists zs, h2. split; [done|]. split; [done|]. split.
    + split; [by rewrite Q1|done|]. intros x. by rewrite Q3, P4.
    + eapply frame_trans; [done|]. by eapply frame_perm.
  - apply Z.ltb_ge in Ec. exists ys, h1. split; [done|]. split; [done|]. split; [|done].
    split; [done| |done]. apply sorted_runs. lia.
Qed.

(** C16: [list_sort] terminates without tripping any of its assertions, on any list and any
    strict weak order, and leaves the list a stably sorted permutation of its old
    contents, having written no cell outside the list. *)
Theorem list_sort_correct h l xs :
  ring h l xs -> Z.of_nat (length xs) < 2 ^ 32 ->
  exists h', list_sort less l h = Ok (tt, h') /\ ring h' l (sort_seq less xs) /\
    stable_sort xs (sort_seq less xs) /\ frame (head l :: xs ++ [tail l]) h h'.
Proof.
  intros R Hl. unfold list_sort.
  assert (N : l <> NULL) by (intros ->; apply (ring_null _ _ _ R); set_solver).
  rewrite eqb_null, (M_bind_Ok _ _ _ tt h) by done.
  pose proof (ring_size _ _ _ R) as Hs. pose proof (runs_length xs).
  destruct (sort_loop_ok l (S (size h)) xs h) as (ys & h' & E & R' & S' & F); [done|lia..|].
  rewrite <- (stable_sort_eq _ _ S').
  exists h'. rewrite (M_bind_Ok (with_fuel _) _ h _ _ E).
  rewrite (M_bind_Ok _ _ _ _ _ (list_begin_ok _ _ _ R')), (M_bind_Ok _ _ _ _ _ (list_end_ok _ _ _ R')).
  rewrite <- (app_nil_r ys) in R' at 1.
  pose proof (is_sorted_ok h' l [] ys [] R' (sort_sorted _ _ S')) as Es. rewrite !app_nil_r in *.
  by rewrite (M_bind_Ok _ _ _ _ _ Es).
Qed.

(** ** Ordered insertion *)

(** The cursor found is where merging a one-element run would put the element. *)
Lemma insert_ordered_loop_ok h l e ys : forall xs fuel,
  ring h l (xs ++ ys) -> (length ys < fuel)%nat ->
  exists A B, ys = A ++ B /\ merge ys [e] = A ++ e :: B /\
    insert_ordered_loop less fuel l e (hd (tail l) ys) h = Ok (hd (tail l) B, h).
Proof.
  induction ys as [|y ys IH]; intros xs [|fuel] R Hf; cbn in Hf; try lia;
    cbn [insert_ordered_loop]; rewrite (M_bind_Ok _ _ _ _ _ (list_end_ok _ _ _ R)), (cursor_end _ _ _ _ R).
  - exists [], []. by rewrite bool_decide_eq_true_2.
  - rewrite bool_decide_eq_false_2, merge_cons, merge_nil_r by done. cbn [hd].
    destruct (less e y); [by exists [], (y :: ys)|].
    rewrite (M_bind_Ok _ _ _ _ _ (cursor_next _ _ _ _ _ R)).
    destruct (IH (xs ++ [y]) fuel) as (A & B & -> & -> & E); [by apply ring_assoc|lia|].
    exists (y :: A), B. by rewrite E.
Qed.

(** inserting into a sorted list keeps it sorted and puts the new element after all
    elements equivalent to it: the result is the stable sort of appending it. *)
Theorem list_insert_ordered_correct h l xs e :
  ring h l xs -> Sorted le xs -> fresh h l xs e ->
  exists ys h', list_insert_ordered less l e h = Ok (tt, h') /\ ring h' l ys /\
    stable_sort (xs ++ [e]) ys /\ frame (head l :: ys ++ [tail l]) h h'.
Proof.
  intros R HS Fr. unfold list_insert_ordered.
  assert (N : l <> NULL) by (intros ->; apply (ring_null _ _ _ R); set_solver).
  rewrite !eqb_null, !(M_bind_Ok _ _ _ tt h) by (done || apply Fr).
  rewrite (M_bind_Ok _ _ _ _ _ (list_begin_ok _ _ _ R)). pose proof (ring_size _ _ _ R) as Hs.
  destruct (insert_ordered_loop_ok h l e xs [] (S (size h)) R) as (A & B & EX & EM & E); [lia|].
  rewrite (M_bind_Ok (with_fuel _) _ h _ _ E).
  destruct (list_insert_ring h l A B e) as (h' & E' & R' & F'); [by rewrite <- EX..|].
  exists (A ++ e :: B), h'. split; [done|]. split; [done|]. split; [|done]. rewrite <- EM. split.
  - by rewrite merge_perm.
  - apply merge_sorted; [done|repeat constructor].
  - intros x. by rewrite merge_stable, List.filter_app.
Qed.

(** ** Duplicate removal *)

(** Kept and removed elements, after the element [a] was kept. *)
Fixpoint uniq (a : Z) (ys : list Z) : list Z * list Z :=
  match ys with
  | [] => ([], [])
  | y :: t => if eqv a y then let '(k, d) := uniq a t in (k, y :: d)
              else let '(k, d) := uniq y t in (y :: k, d)
  end.

Lemma uniq_perm a ys : fst (uniq a ys) ++ snd (uniq a ys) ≡ₚ ys.
Proof.
  revert a. induction ys as [|y t IH]; intros a; [done|]. cbn.
  destruct (eqv a y); [specialize (IH a)|specialize (IH y)]; destruct (uniq _ t) as [k d]; cbn in *.
  - by rewrite <- Permutation_middle, IH.
  - by rewrite IH.
Qed.

Lemma uniq_sorted a ys :
  Sorted le (a :: ys) -> StronglySorted (fun x y => less x y = true) (a :: fst (uniq a ys)).
Proof.
  intros HS. apply Sorted_StronglySorted.
  { intros x y z H1 H2. apply (le_less _ y); [done|]. by apply swo_asym. }
  revert a HS. induction ys as [|y t IH]; intros a HS; [repeat constructor|]. cbn.
  inversion HS as [|? ? H1 H2]; subst. inversion H2 as [|? ? H3]; subst. unfold le in H3.
  destruct (eqv a y) eqn:E.
  - specialize (IH a). destruct (uniq a t) as [k d]. cbn in *. apply IH.
    inversion H1 as [|? ? H4 H5]; subst. constructor; [done|].
    destruct t as [|z t]; constructor. inversion H5; subst. by eapply le_trans.
  - specialize (IH y H1). destruct (uniq y t) as [k d]. cbn in *. constructor; [done|].
    constructor. unfold eqv in E. rewrite H3, andb_true_r in E. by destruct (less a y).
Qed.

Lemma uniq_cover a ys x :
  x ∈ a :: ys -> exists y, y ∈ a :: fst (uniq a ys) /\ eqv y x = true.
Proof.
  revert a. induction ys as [|y t IH]; intros a Hx.
  - exists a. apply list_elem_of_singleton in Hx. subst. rewrite eqv_refl. set_solver.
  - cbn. destruct (eqv a y) eqn:E.
    + destruct (decide (x = y)) as [->|Hne]; [exists a; set_solver|].
      destruct (IH a) as (z & Hz & Ez); [set_solver|].
      destruct (uniq a t). exists z. cbn in *. set_solver.
    + destruct (decide (x = a)) as [->|Hne]; [exists a; rewrite eqv_refl; set_solver|].
      destruct (IH y) as (z & Hz & Ez); [set_solver|].
      destruct (uniq y t). exists z. cbn in *. set_solver.
Qed.

(** The list of removed elements, when the caller asks for it. *)
Definition dups (h : heap) (d l : Z) (xs ds : list Z) : Prop :=
  d = NULL \/ (ring h d ds /\ apart (nodes d ds) (nodes l xs)).

Lemma nodes_mid l P y Q x : x ∈ nodes l (P ++ y :: Q) <-> x = y \/ x ∈ nodes l (P ++ Q).
Proof. rewrite !elem_of_cons, !elem_of_app, elem_of_cons. tauto. Qed.

Lemma nodes_mid_fresh h l P y Q : ring h l (P ++ y :: Q) -> y ∉ nodes l (P ++ Q).
Proof.
  intros R. pose proof (ring_nodup _ _ _ R) as N.
  assert (E : nodes l (P ++ y :: Q) ≡ₚ y :: nodes l (P ++ Q))
    by (rewrite <- (Permutation_middle P Q y); apply perm_swap).
  rewrite E in N. by apply NoDup_cons in N as [N _].
Qed.

(** Moving a node just removed from one list to the back of another. *)
Lemma push_removed h h1 d l P Q y ds :
  ring h l (P ++ y :: Q) -> ring h1 l (P ++ Q) -> frame (nodes l (P ++ Q)) h h1 ->
  ring h d ds -> apart (nodes d ds) (nodes l (P ++ y :: Q)) ->
  exists h2, list_push_back d y h1 = Ok (tt, h2) /\ ring h2 l (P ++ Q) /\ ring h2 d (ds ++ [y]) /\
    apart (nodes d (ds ++ [y])) (nodes l (P ++ Q)).
Proof.
  intros R R1 F1 Rd Ad. pose proof (nodes_mid_fresh _ _ _ _ _ R) as Hy.
  assert (Rd1 : ring h1 d ds).
  { eapply ring_frame; [done|done|]. intros x Hx Hd. apply (Ad x Hd). apply nodes_mid. by right. }
  assert (A2 : apart (nodes d (ds ++ [y])) (nodes l (P ++ Q))).
  { intros x Hx Hl. apply nodes_mid in Hx as [->|Hx]; [done|]. rewrite app_nil_r in Hx.
    apply (Ad x Hx), nodes_mid. by right. }
  destruct (list_push_back_ring h1 d ds y) as (h2 & E2 & Rd2 & F2); [done|split|].
  - rewrite F1 by done. eapply ring_alloc; [exact R|]. apply nodes_mid. by left.
  - intros ->. apply (ring_null _ _ _ R), nodes_mid. by left.
  - intros Hd. apply (Ad y Hd), nodes_mid. by left.
  - exists h2. split_and!; [done| |done|done].
    eapply ring_frame; [exact R1|done|]. intros x Hx Hl. by apply (A2 x).
Qed.

Lemma unique_loop_ok l d ys : forall xs a ds h fuel,
  ring h l (xs ++ a :: ys) -> dups h d l (xs ++ a :: ys) ds -> (length ys < fuel)%nat ->
  exists h', unique_loop less fuel l d a h = Ok (tt, h') /\
    ring h' l (xs ++ a :: fst (uniq a ys)) /\
    dups h' d l (xs ++ a :: fst (uniq a ys)) (ds ++ snd (uniq a ys)).
Proof.
  induction ys as [|y ys IH]; intros xs a ds h [|fuel] R D Hf; cbn in Hf; try lia;
    cbn [unique_loop]; rewrite (M_bind_Ok _ _ _ _ _ (cursor_next _ _ _ _ _ R));
    rewrite (M_bind_Ok _ _ _ _ _ (list_end_ok _ _ _ R)), (cursor_end _ _ _ _ (ring_assoc _ _ _ _ _ R)).
  { exists h. rewrite bool_decide_eq_true_2, app_nil_r by done. done. }
  rewrite bool_decide_eq_false_2 by done. cbn [hd uniq].
  change (negb (less a y) && negb (less y a)) with (eqv a y). destruct (eqv a y).
  - pose proof (ring_assoc _ _ _ _ _ R) as R0.
    destruct (list_remove_ring h l (xs ++ [a]) y ys R0) as (h1 & E1 & R1 & F1).
    rewrite (M_bind_Ok _ _ _ _ _ E1). rewrite <- (app_assoc xs) in R1, F1. cbn [app] in R1, F1.
    assert (exists h2, (if d =? NULL then mret tt else list_push_back d y) h1 = Ok (tt, h2) /\
      ring h2 l (xs ++ a :: ys) /\ dups h2 d l (xs ++ a :: ys) (ds ++ [y])) as (h2 & E2 & R2 & D2).
    { destruct (decide (d = NULL)) as [->|Nd]; [exists h1; split_and!; [done|done|by left]|].
      rewrite eqb_null by done. destruct D as [?|[Rd Ad]]; [done|]. unfold dups.
      destruct (push_removed h h1 d l (xs ++ [a]) ys y ds) as (h2 & E2 & R2 & D2 & A2);
        rewrite <- ?(app_assoc xs) in *; eauto 8. }
    rewrite (M_bind_Ok _ _ _ _ _ E2).
    destruct (IH xs a (ds ++ [y]) h2 fuel) as (h' & E' & R' & D'); [done|done|lia|].
    destruct (uniq a ys) as [k e]. exists h'. cbn in *. by rewrite <- app_assoc in D'.
  - destruct (IH (xs ++ [a]) y ds h fuel) as (h' & E' & R' & D');
      [by apply ring_assoc|by rewrite <- app_assoc|lia|].
    destruct (uniq y ys) as [k e]. exists h'. cbn in *. by rewrite <- app_assoc in R', D'.
Qed.

(** on a sorted list, [list_unique] returns and leaves a strictly increasing list with a
    representative of every old element; the rest, in list order, is appended to the
    second list when one is given. *)
Theorem list_unique_correct h l d xs ds :
  ring h l xs -> dups h d l xs ds -> Sorted le xs ->
  exists ks es h', list_unique less l d h = Ok (tt, h') /\ ring h' l ks /\ dups h' d l ks (ds ++ es) /\
    ks ++ es ≡ₚ xs /\ StronglySorted (fun x y => less x y = true) ks /\
    (forall x, x ∈ xs -> exists y, y ∈ ks /\ eqv y x = true).
Proof.
  intros R D HS. unfold list_unique.
  assert (N : l <> NULL) by (intros ->; apply (ring_null _ _ _ R); set_solver).
  rewrite eqb_null, (M_bind_Ok _ _ _ tt h) by done.
  rewrite (M_bind_Ok _ _ _ _ _ (list_empty_ok _ _ _ R)). destruct xs as [|a ys].
  - exists [], [], h. rewrite bool_decide_eq_true_2, app_nil_r by done. split_and!; try done; [constructor|].
    by intros x ?%elem_of_nil.
  - rewrite bool_decide_eq_false_2 by done.
    rewrite (M_bind_Ok _ _ _ _ _ (list_begin_ok _ _ _ R)), with_fuel_eq. cbn [hd].
    pose proof (ring_size _ _ _ R) as Hs. cbn in Hs.
    destruct (unique_loop_ok l d ys [] a ds h (S (size h))) as (h' & E & R' & D'); [done|done|lia|].
    exists (a :: fst (uniq a ys)), (snd (uniq a ys)), h'. split_and!; [done..| | |].
    + by rewrite <- app_comm_cons, uniq_perm.
    + by apply uniq_sorted.
    + intros x. apply uniq_cover.
Qed.

(** ** Extrema *)

Definition pick (m : Z) (ys : list Z) : Z := fold_left (fun m e => if less m e then e else m) ys m.

(** [r] is an extremal element of [xs], the first one. *)
Definition first_max (xs : list Z) (r : Z) : Prop :=
  exists A B, xs = A ++ r :: B /\ Forall (fun a => less a r = true) A /\ Forall (fun b => less r b = false) B.

Lemma pick_cons m y t : pick m (y :: t) = if less m y then pick y t else pick m t.
Proof. unfold pick. cbn. by destruct (less m y). Qed.

Lemma pick_first_max ys m : first_max (m :: ys) (pick m ys).
Proof.
  revert m. induction ys as [|y t IH]; intros m; [by exists [], []|]. rewrite pick_cons.
  destruct (less m y) eqn:E.
  - destruct (IH y) as (A & B & E1 & HA & HB). exists (m :: A), B. split; [cbn; by rewrite <- E1|].
    split; [|done]. constructor; [|done]. destruct A as [|a A]; injection E1 as E0 E1; [by rewrite <- E0|]. subst a.
    apply Forall_cons in HA as [HA _]. apply (le_less _ y); [done|]. by apply swo_asym.
  - destruct (IH m) as (A & B & E1 & HA & HB).
    destruct A as [|a A]; injection E1 as E0 E1.
    + exists [], (y :: B). rewrite <- E0. split; [by rewrite E1|]. split; [done|]. constructor; [done|]. by rewrite E0.
    + subst a. exists (m :: y :: A), B. split; [cbn; by rewrite <- E1|]. split; [|done].
      apply Forall_cons in HA as [Hm HA]. constructor; [done|]. constructor; [|done].
      destruct (less y (pick m t)) eqn:E2; [done|]. by rewrite (swo_negtrans m y (pick m t)) in Hm.
Qed.

End Sorting.

Lemma max_loop_ok less h l ys : forall xs m fuel,
  ring h l (xs ++ ys) -> (length ys < fuel)%nat ->
  max_loop less fuel l m (hd (tail l) ys) h = Ok (pick less m ys, h).
Proof.
  induction ys as [|y ys IH]; intros xs m [|fuel] R Hf; cbn in Hf; try lia;
    cbn [max_loop]; rewrite (M_bind_Ok _ _ _ _ _ (list_end_ok _ _ _ R)), (cursor_end _ _ _ _ R).
  - by rewrite bool_decide_eq_true_2.
  - rewrite bool_decide_eq_false_2 by done. cbn [hd].
    rewrite (M_bind_Ok _ _ _ _ _ (cursor_next _ _ _ _ _ R)).
    rewrite (IH (xs ++ [y])); [done|by apply ring_assoc|lia].
Qed.

Lemma min_max_loop less fuel l m e h :
  min_loop less fuel l m e h = max_loop (fun a b => less b a) fuel l m e h.
Proof.
  revert m e h. induction fuel as [|fuel IH]; intros m e h; [done|]. cbn [min_loop max_loop].
  unfold mbind, M_bind. destruct (list_end l h) as [[en h1]|]; [|done].
  destruct (e =? en); [done|]. destruct (list_next e h1) as [[e' h2]|]; [|done]. apply IH.
Qed.

#[export] Instance flip_swo less `{!StrictWeakOrder less} : StrictWeakOrder (fun a b => less b a).
Proof.
  split; [intros a b H; by apply swo_asym|].
  intros a b c H1 H2. by apply (swo_negtrans c b a).
Qed.

(** [list_max] and [list_min] return the first largest, respectively the first
    smallest, element, and leave the list alone; of an empty list both return its tail. *)
Theorem list_max_min_correct less `{!StrictWeakOrder less} h l xs :
  ring h l xs ->
  exists mx mn, list_max less l h = Ok (mx, h) /\ list_min less l h = Ok (mn, h) /\
    if decide (xs = []) then mx = tail l /\ mn = tail l
    else first_max less xs mx /\ first_max (fun a b => less b a) xs mn.
Proof.
  intros R. unfold list_max, list_min. pose proof (ring_size _ _ _ R) as Hs.
  rewrite !(M_bind_Ok _ _ _ _ _ (list_begin_ok _ _ _ R)), !(M_bind_Ok _ _ _ _ _ (list_end_ok _ _ _ R)).
  rewrite (cursor_end h l [] xs R). destruct xs as [|a ys].
  - exists (tail l), (tail l). by rewrite bool_decide_eq_true_2.
  - rewrite bool_decide_eq_false_2 by done. cbn [hd].
    rewrite !(M_bind_Ok _ _ _ _ _ (cursor_next _ _ [] _ _ R)), !with_fuel_eq, min_max_loop. cbn in Hs.
    rewrite !(max_loop_ok _ h l ys [a]) by (done || lia).
    eexists _, _. rewrite decide_False by done. split_and!; [done..|by apply pick_first_max|].
    apply (pick_first_max (fun a b => less b a)).
Qed.

(** ** Reversal *)

(** The two links of every node of [xs] have been exchanged. *)
Record flipped (h0 h : heap) (xs : list Z) : Prop := {
  flip_frame : frame xs h0 h;
  flip_next : forall x, x ∈ xs -> nextf h x = prevf h0 x;
  flip_prev : forall x, x ∈ xs -> prevf h x = nextf h0 x
}.

Lemma flipped_step h0 h xs y p n :
  flipped h0 h xs -> y ∉ xs -> prevf h0 y = Some p -> nextf h0 y = Some n ->
  swap_links y h = Ok (tt, upd_next y p (upd_prev y n h)) /\
  flipped h0 (upd_next y p (upd_prev y n h)) (xs ++ [y]).
Proof.
  intros [F1 F2 F3] Hy Ep En. destruct (frame_fields _ _ _ y F1 Hy) as [Fn Fp].
  rewrite En in Fn. rewrite Ep in Fp. split; [unfold swap_links; by steps|]. split.
  - apply (frame_trans _ _ h); [eapply frame_weaken; [|done]; set_solver|]. framed.
  - intros x [Hx| ->%list_elem_of_singleton]%elem_of_app; [|rewrite Ep; link_field].
    assert (y <> x) by (by intros ->). autorewrite with links. by apply F2.
  - intros x [Hx| ->%list_elem_of_singleton]%elem_of_app; [|rewrite En; link_field].
    assert (y <> x) by (by intros ->). autorewrite with links. by apply F3.
Qed.

Lemma list_end_run l h : l <> NULL -> list_end l h = Ok (tail l, h).
Proof. intros N. unfold list_end. by rewrite eqb_null. Qed.

Lemma reverse_loop_ok h0 l ys : forall xs h fuel,
  ring h0 l (xs ++ ys) -> flipped h0 h xs -> (length ys < fuel)%nat ->
  exists h', reverse_loop fuel l (hd (tail l) ys) h = Ok (tt, h') /\ flipped h0 h' (xs ++ ys).
Proof.
  induction ys as [|y ys IH]; intros xs h [|fuel] R F Hf; cbn in Hf; try lia; cbn [reverse_loop];
    assert (N : l <> NULL) by (intros ->; apply (ring_null _ _ _ R); set_solver);
    rewrite (M_bind_Ok _ _ _ _ _ (list_end_run l h N)), (cursor_end _ _ _ _ R).
  - exists h. by rewrite bool_decide_eq_true_2, app_nil_r.
  - rewrite bool_decide_eq_false_2 by done. cbn [hd].
    assert (Hy : y ∉ xs) by (pose proof (nodes_mid_fresh _ _ _ _ _ R); set_solver).
    pose proof (ring_next_of _ _ _ _ _ R) as En. pose proof (ring_prev_of _ _ _ _ R) as Ep.
    cbn [hd] in Ep. destruct (flipped_step _ _ _ _ _ _ F Hy Ep En) as [E F'].
    rewrite (M_bind_Ok _ _ _ _ _ E). erewrite M_bind_Ok; [|apply get_prev_ok].
    + destruct (IH _ _ fuel (ring_assoc _ _ _ _ _ R) F') as (h' & E' & F2); [lia|].
      exists h'. by rewrite <- app_assoc in F2.
    + rewrite (flip_prev _ _ _ F'); [done|set_solver].
Qed.

Lemma seg_rev h h' xs :
  seg h xs -> (forall x y, link h x y -> x ∈ removelast xs -> y ∈ tl xs -> link h' y x) ->
  seg h' (rev xs).
Proof.
  induction xs as [|p [|q t] IH]; intros HS HL; [done..|]. destruct HS as [L1 HS].
  change (rev (p :: q :: t)) with ((rev t ++ [q]) ++ [p]). rewrite <- app_assoc.
  apply seg_app. split; [|split; [|done]].
  - apply IH; [done|]. intros x y Hl Hx Hy. apply HL; [done|..].
    + change (removelast (p :: q :: t)) with (p :: removelast (q :: t)). set_solver.
    + cbn in *. set_solver.
  - apply HL; [done| |cbn; set_solver].
    change (removelast (p :: q :: t)) with (p :: removelast (q :: t)). set_solver.
Qed.

(** The four updates that follow the loop, on a list whose first node is [a] and last
    node [z]. *)
Definition refit (l a z : Z) (h : heap) : heap :=
  upd_next a (tail l) (upd_prev z (head l) (upd_prev (tail l) a (upd_next (head l) z h))).

Lemma notin_ne {A} (x y : A) (xs : list A) : x ∉ xs -> y ∈ xs -> x <> y.
Proof. by intros Hx Hy ->. Qed.

(** What the loop leaves at both ends. *)
Record flipped_ends (h : heap) (l a z : Z) : Prop := {
  fe_distinct : head l <> tail l /\ head l <> a /\ tail l <> a /\ head l <> z /\ tail l <> z;
  fe_head : nextf h (head l) = Some a /\ prevf h (head l) = Some NULL;
  fe_tail : prevf h (tail l) = Some z /\ nextf h (tail l) = Some NULL;
  fe_first : nextf h a = Some (head l);
  fe_last : prevf h z = Some (tail l)
}.

Lemma ring_flipped_ends h0 h l a t B z :
  a :: t = B ++ [z] -> ring h0 l (a :: t) -> flipped h0 h (a :: t) -> flipped_ends h l a z.
Proof.
  intros E [R1 R2 R3 R4 R5] [F1 F2 F3]. set (xs := a :: t) in *.
  assert (Ha : a ∈ xs) by (unfold xs; set_solver). assert (Hz : z ∈ xs) by (rewrite E; set_solver).
  rewrite NoDup_cons, NoDup_app in R4. destruct R4 as (Nh & Nx & Nt & _).
  assert (Nh1 : head l ∉ xs) by set_solver. assert (Nt1 : tail l ∉ xs) by set_solver.
  destruct (frame_fields _ _ _ _ F1 Nh1) as [Hhn Hhp]. destruct (frame_fields _ _ _ _ F1 Nt1) as [Htn Htp].
  pose proof R1 as S. cbn in S. destruct S as [[La1 La2] _].
  rewrite E, <- app_assoc in R1. apply (seg_app _ (head l :: B)) in R1 as [_ [[Lz1 Lz2] _]].
  split; [split_and!; [unfold head, tail; lia|by eapply notin_ne..]| | | |].
  - by rewrite Hhn, Hhp.
  - by rewrite Htn, Htp.
  - by rewrite F2.
  - by rewrite F3.
Qed.

Lemma refit_run h l a z : flipped_ends h l a z -> reverse_ends l h = Ok (tt, refit l a z h).
Proof.
  intros [(N1 & N2 & N3 & N4 & N5) [E1 E2] [E3 E4] E5 E6]. unfold reverse_ends.
  destruct (nextf_prevf _ _ _ E5) as [pa E7]. destruct (prevf_nextf _ _ _ E6) as [nz E8]. by steps.
Qed.

Lemma refit_ring h0 h l a z B t :
  a :: t = B ++ [z] -> ring h0 l (a :: t) -> flipped h0 h (a :: t) ->
  ring (refit l a z h) l (rev (a :: t)).
Proof.
  intros E R F. destruct (ring_flipped_ends _ _ _ _ _ _ _ E R F)
    as [(N1 & N2 & N3 & N4 & N5) [E1 E2] [E3 E4] E5 E6].
  destruct R as [R1 R2 R3 R4 R5], F as [F1 F2 F3]. set (xs := a :: t) in *.
  assert (S : seg (refit l a z h) (rev xs)).
  { apply (seg_rev h0).
    - apply (seg_app h0 [head l]) in R1 as [_ R1]. fold ([a] ++ t) in R1.
      rewrite app_comm_cons in R1. fold xs in R1. rewrite E, <- app_assoc in R1.
      apply seg_app in R1 as [R1 _]. by rewrite <- E in R1.
    - intros x y [L1 L2] Hx Hy. rewrite NoDup_cons, NoDup_app in R4. destruct R4 as (Nh & Nx & Nt & _).
      assert (Hx' : x ∈ xs) by (by apply removelast_in). assert (Hy' : y ∈ xs) by (by apply tl_in).
      assert (y <> a) by (apply NoDup_cons in Nx; cbn in Hy; set_solver).
      assert (x <> z) by (rewrite E in Nx, Hx; rewrite removelast_snoc in Hx; rewrite NoDup_app in Nx; set_solver).
      assert (head l <> y) by set_solver. assert (tail l <> x) by set_solver.
      unfold refit, link. autorewrite with links. by rewrite F2, F3. }
  assert (P : rev xs ≡ₚ xs) by (symmetry; apply Permutation_rev).
  split; [|unfold refit; autorewrite with links; congruence..|by rewrite P|by rewrite P].
  change (rev xs) with (rev t ++ [a]). rewrite <- app_assoc, app_comm_cons. apply seg_app. split.
  - cbn [app]. change (rev t ++ [a]) with (rev xs). rewrite E, rev_app_distr in *. cbn in S |- *.
    split; [|done]. unfold refit. split; link_field.
  - split; [|done]. unfold refit. split; link_field.
Qed.

(** [list_reverse] returns and leaves the elements in reverse order, writing only the
    cells of the list. *)
Theorem list_reverse_correct h l xs :
  ring h l xs ->
  exists h', list_reverse l h = Ok (tt, h') /\ ring h' l (rev xs) /\
    frame (head l :: xs ++ [tail l]) h h'.
Proof.
  intros R. unfold list_reverse. rewrite (M_bind_Ok _ _ _ _ _ (list_empty_ok _ _ _ R)).
  destruct xs as [|a t]; [exists h; by rewrite bool_decide_eq_true_2|].
  rewrite bool_decide_eq_false_2 by done. rewrite (M_bind_Ok _ _ _ _ _ (list_begin_ok _ _ _ R)).
  pose proof (ring_size _ _ _ R) as Hs. destruct (snoc_view a t) as (B & z & E).
  destruct (reverse_loop_ok h l (a :: t) [] h (S (size h)) R) as (h1 & E1 & F);
    [by split; [|intros x ?%elem_of_nil..]|cbn in *; lia|].
  rewrite (M_bind_Ok (with_fuel _) _ h _ _ E1). cbn [app] in F.
  exists (refit l a z h1). split; [by eapply refit_run, ring_flipped_ends|].
  split; [by eapply refit_ring|].
  apply (frame_trans _ _ h1); [eapply frame_weaken; [|apply F]; set_solver|].
  assert (z ∈ a :: t) by (rewrite E; set_solver). unfold refit. framed.
Qed.

(** ** Concrete instances *)

#[export] Instance mod10_swo : StrictWeakOrder mod10_less.
Proof. split; unfold mod10_less; intros *; rewrite ?Z.ltb_lt, ?Z.ltb_ge; lia. Qed.

Ltac concrete_ring :=
  split; [vm_compute; by repeat split|done|done|apply (bool_decide_unpack _); by vm_compute|
    apply (bool_decide_unpack _); by vm_compute].

Lemma store_ring_ex : ring (store 1000 [13; 21; 35; 42; 11]) 1000 [13; 21; 35; 42; 11].
Proof. concrete_ring. Qed.

Lemma list_sort_correct_witness :
  exists h', list_sort mod10_less 1000 (store 1000 [13; 21; 35; 42; 11]) = Ok (tt, h') /\
    ring h' 1000 [21; 11; 42; 13; 35] /\ stable_sort mod10_less [13; 21; 35; 42; 11] [21; 11; 42; 13; 35] /\
    frame (1000 :: [13; 21; 35; 42; 11] ++ [1008]) (store 1000 [13; 21; 35; 42; 11]) h'.
Proof. apply (list_sort_correct mod10_less _ 1000 _ store_ring_ex). done. Defined.

Lemma list_unique_correct_witness :
  exists ks es h', list_unique mod10_less 1000 NULL (store 1000 [11; 41; 37]) = Ok (tt, h') /\
    ring h' 1000 ks /\ dups h' NULL 1000 ks ([] ++ es) /\ ks ++ es ≡ₚ [11; 41; 37] /\
    StronglySorted (fun x y => mod10_less x y = true) ks /\
    (forall x, x ∈ [11; 41; 37] -> exists y, y ∈ ks /\ eqv mod10_less y x = true).
Proof.
  apply (list_unique_correct mod10_less).
  - concrete_ring.
  - by left.
  - repeat constructor.
Defined.

Lemma list_max_min_correct_witness :
  exists mx mn, list_max mod10_less 1000 (store 1000 [13; 21; 35; 42; 11]) = Ok (mx, store 1000 [13; 21; 35; 42; 11]) /\
    list_min mod10_less 1000 (store 1000 [13; 21; 35; 42; 11]) = Ok (mn, store 1000 [13; 21; 35; 42; 11]) /\
    first_max mod10_less [13; 21; 35; 42; 11] mx /\ first_max (fun a b => mod10_less b a) [13; 21; 35; 42; 11] mn.
Proof. exact (list_max_min_correct mod10_less _ 1000 _ store_ring_ex). Defined.

Lemma list_reverse_correct_witness :
  exists h', list_reverse 1000 (store 1000 [13; 21; 35; 42; 11]) = Ok (tt, h') /\
    ring h' 1000 [11; 42; 35; 21; 13] /\
    frame (1000 :: [13; 21; 35; 42; 11] ++ [1008]) (store 1000 [13; 21; 35; 42; 11]) h'.
Proof. exact (list_reverse_correct _ 1000 _ store_ring_ex). Defined.

End ListSort.
