(* ===== verification/Bitmap.v ===== *)
(** * Bitmaps (src/lib/kernel/bitmap.c)

    A [struct bitmap] is its bit count and its array of 32-bit elements ([unsigned long]
    of the IA-32 kernel); an access outside the array is a memory fault.  Indices and
    counts are [size_t]: sums wrap at 32 bits, as the code's assertions see them.  The
    first half is the code; the second half shows that it implements an array of
    booleans ([bools]), and packages that as the interface [BitArray] that the
    page allocator, the swap table and the free map are verified against. *)

From S2P Require Import Prelude Vaddr.
Import Vaddr.

Module Bitmap.

Record bitmap := Bitmap { bit_cnt : Z; bits : list Z }.

Definition ELEM_BITS : Z := 32.
Definition BITMAP_ERROR : Z := 2 ^ 32 - 1.

Definition elem_idx (bit_idx : Z) : Z := bit_idx / ELEM_BITS.
Definition bit_mask (bit_idx : Z) : Z := Z.shiftl 1 (bit_idx mod ELEM_BITS).
Definition elem_cnt (bit_cnt : Z) : Z := u32 (bit_cnt + ELEM_BITS - 1) / ELEM_BITS.
Definition byte_cnt (bit_cnt : Z) : Z := u32 (4 * elem_cnt bit_cnt).
Definition last_mask (b : bitmap) : Z :=
  let last_bits := bit_cnt b mod ELEM_BITS in
  if negb (last_bits =? 0) then Z.shiftl 1 last_bits - 1 else 2 ^ 32 - 1.

(** [b->bits[idx]], read and written. *)
Definition get_elem (b : bitmap) (idx : Z) : outcome Z :=
  match bits b !! Z.to_nat idx with Some w => Ok w | None => Fail FMemory end.
Definition set_elem (b : bitmap) (idx w : Z) : outcome bitmap :=
  match bits b !! Z.to_nat idx with
  | Some _ => Ok (Bitmap (bit_cnt b) (<[Z.to_nat idx := w]> (bits b)))
  | None => Fail FMemory
  end.

Definition bitmap_size (b : bitmap) : Z := bit_cnt b.

(** The [orl], [andl] and [xorl] instructions on the element. *)
Definition bitmap_mark (b : bitmap) (bit_idx : Z) : outcome bitmap :=
  let idx := elem_idx bit_idx in
  let mask := bit_mask bit_idx in
  let* w := get_elem b idx in
  set_elem b idx (Z.lor w mask).

Definition bitmap_reset (b : bitmap) (bit_idx : Z) : outcome bitmap :=
  let idx := elem_idx bit_idx in
  let mask := bit_mask bit_idx in
  let* w := get_elem b idx in
  set_elem b idx (Z.land w (not32 mask)).

Definition bitmap_flip (b : bitmap) (bit_idx : Z) : outcome bitmap :=
  let idx := elem_idx bit_idx in
  let mask := bit_mask bit_idx in
  let* w := get_elem b idx in
  set_elem b idx (Z.lxor w mask).

Definition bitmap_set (b : bitmap) (idx : Z) (value : bool) : outcome bitmap :=
  do* assert (idx <? bit_cnt b);
  if value then bitmap_mark b idx else bitmap_reset b idx.

Definition bitmap_test (b : bitmap) (idx : Z) : outcome bool :=
  do* assert (idx <? bit_cnt b);
  let* w := get_elem b (elem_idx idx) in
  mret (negb (Z.land w (bit_mask idx) =? 0)).

(** The bodies of the [for (i = 0; i < cnt; i++)] loops; [n] is [cnt - i]. *)
Fixpoint set_loop (n : nat) (b : bitmap) (start i : Z) (value : bool) : outcome bitmap :=
  match n with
  | O => Ok b
  | S n =>
    let* b := bitmap_set b (u32 (start + i)) value in
    set_loop n b start (i + 1) value
  end.

Definition bitmap_set_multiple (b : bitmap) (start cnt : Z) (value : bool) : outcome bitmap :=
  do* assert (start <=? bit_cnt b);
  do* assert (u32 (start + cnt) <=? bit_cnt b);
  set_loop (Z.to_nat cnt) b start 0 value.

Definition bitmap_set_all (b : bitmap) (value : bool) : outcome bitmap :=
  bitmap_set_multiple b 0 (bitmap_size b) value.

Fixpoint count_loop (n : nat) (b : bitmap) (start i value_cnt : Z) (value : bool) : outcome Z :=
  match n with
  | O => Ok value_cnt
  | S n =>
    let* v := bitmap_test b (u32 (start + i)) in
    count_loop n b start (i + 1) (if Bool.eqb v value then u32 (value_cnt + 1) else value_cnt) value
  end.

Definition bitmap_count (b : bitmap) (start cnt : Z) (value : bool) : outcome Z :=
  do* assert (start <=? bit_cnt b);
  do* assert (u32 (start + cnt) <=? bit_cnt b);
  count_loop (Z.to_nat cnt) b start 0 0 value.

Fixpoint contains_loop (n : nat) (b : bitmap) (start i : Z) (value : bool) : outcome bool :=
  match n with
  | O => Ok false
  | S n =>
    let* v := bitmap_test b (u32 (start + i)) in
    if Bool.eqb v value then Ok true else contains_loop n b start (i + 1) value
  end.

Definition bitmap_contains (b : bitmap) (start cnt : Z) (value : bool) : outcome bool :=
  do* assert (start <=? bit_cnt b);
  do* assert (u32 (start + cnt) <=? bit_cnt b);
  contains_loop (Z.to_nat cnt) b start 0 value.

Definition bitmap_any (b : bitmap) (start cnt : Z) : outcome bool :=
  bitmap_contains b start cnt true.
Definition bitmap_none (b : bitmap) (start cnt : Z) : outcome bool :=
  let* c := bitmap_contains b start cnt true in mret (negb c).
Definition bitmap_all (b : bitmap) (start cnt : Z) : outcome bool :=
  let* c := bitmap_contains b start cnt false in mret (negb c).

(** [for (i = start; i <= last; i++)]; one unit of fuel per value of [i]. *)
Fixpoint scan_loop (fuel : nat) (b : bitmap) (i last cnt : Z) (value : bool) : outcome Z :=
  match fuel with
  | O => Fail FFuel
  | S fuel =>
    if i <=? last then
      let* c : bool := bitmap_contains b i cnt (negb value) in
      if c then scan_loop fuel b (u32 (i + 1)) last cnt value else Ok i
    else Ok BITMAP_ERROR
  end.

Definition bitmap_scan (b : bitmap) (start cnt : Z) (value : bool) : outcome Z :=
  do* assert (start <=? bit_cnt b);
  if cnt <=? bit_cnt b then
    let last := bit_cnt b - cnt in
    scan_loop (S (S (Z.to_nat last))) b start last cnt value
  else Ok BITMAP_ERROR.

Definition bitmap_scan_and_flip (b : bitmap) (start cnt : Z) (value : bool) : outcome (Z * bitmap) :=
  let* idx := bitmap_scan b start cnt value in
  if negb (idx =? BITMAP_ERROR) then
    let* b := bitmap_set_multiple b idx cnt (negb value) in
    mret (idx, b)
  else mret (idx, b).

(** Creation.  [header] tells whether the first [malloc] succeeded; [storage] is the
    block the second one returned, with its old contents, or none for a null pointer. *)
Definition bitmap_create (bit_cnt : Z) (header : bool) (storage : option (list Z)) : outcome (option bitmap) :=
  if header then
    match storage with
    | Some junk => let* b := bitmap_set_all (Bitmap bit_cnt junk) false in mret (Some b)
    | None =>
      if bit_cnt =? 0 then
        let* b := bitmap_set_all (Bitmap bit_cnt []) false in mret (Some b)
      else mret None
    end
  else mret None.

(** [sizeof (struct bitmap)] is two words. *)
Definition bitmap_buf_size (bit_cnt : Z) : Z := u32 (8 + byte_cnt bit_cnt).

(** [junk] is the memory behind the header in the caller's block. *)
Definition bitmap_create_in_buf (bit_cnt : Z) (junk : list Z) (block_size : Z) : outcome bitmap :=
  do* assert (bitmap_buf_size bit_cnt <=? block_size);
  bitmap_set_all (Bitmap bit_cnt junk) false.

(** File transfer.  [n] and [data] are what [file_read_at] returned: the number of bytes
    read and the array contents after the read. *)
Definition bitmap_file_size (b : bitmap) : Z := byte_cnt (bit_cnt b).

Definition bitmap_read (b : bitmap) (n : Z) (data : list Z) : outcome (bool * bitmap) :=
  if 0 <? bit_cnt b then
    let size := byte_cnt (bit_cnt b) in
    let success := n =? size in
    let b := Bitmap (bit_cnt b) data in
    let* w := get_elem b (elem_cnt (bit_cnt b) - 1) in
    let* b := set_elem b (elem_cnt (bit_cnt b) - 1) (Z.land w (last_mask b)) in
    mret (success, b)
  else mret (true, b).

(** The array passed to [file_write_at], and the test of its result [n]. *)
Definition bitmap_write (b : bitmap) (n : Z) : list Z * bool :=
  let size := byte_cnt (bit_cnt b) in (bits b, n =? size).

(** ** Abstraction to an array of booleans *)

Definition bit (b : bitmap) (i : Z) : bool :=
  match bits b !! Z.to_nat (i / ELEM_BITS) with Some w => Z.testbit w (i mod ELEM_BITS) | None => false end.

(** [bs] is the array [b] stands for. *)
Record repr (b : bitmap) (bs : list bool) : Prop := {
  repr_cnt : bit_cnt b = Z.of_nat (length bs);
  repr_small : bit_cnt b + 31 < 2 ^ 32;
  repr_elems : elem_cnt (bit_cnt b) <= Z.of_nat (length (bits b));
  repr_u32 : Forall is_u32 (bits b);
  repr_bit : forall i, 0 <= i < bit_cnt b -> bs !! Z.to_nat i = Some (bit b i)
}.

(** The array with [cnt] places from [start] on set to [v]. *)
Definition fill (start cnt : nat) (v : bool) (bs : list bool) : list bool :=
  take start bs ++ replicate cnt v ++ drop (start + cnt) bs.

(** The [cnt] places from [i] on exist and all hold [v]. *)
Definition group (bs : list bool) (i cnt : nat) (v : bool) : Prop :=
  (i + cnt <= length bs)%nat /\ forall k, (k < cnt)%nat -> bs !! (i + k)%nat = Some v.

(** [r] is the first place at or after [start] where such a group begins, or
    [BITMAP_ERROR] when there is none. *)
Definition first_group (bs : list bool) (start cnt : nat) (v : bool) (r : Z) : Prop :=
  (exists i, r = Z.of_nat i /\ r <> BITMAP_ERROR /\ (start <= i)%nat /\ group bs i cnt v /\
    forall j, (start <= j < i)%nat -> ~ group bs j cnt v) \/
  (r = BITMAP_ERROR /\ forall j, (start <= j)%nat -> ~ group bs j cnt v).

Definition slice (s n : nat) (bs : list bool) : list bool := take n (drop s bs).

Lemma elem_cnt_eq n : 0 <= n -> n + 31 < 2 ^ 32 -> elem_cnt n = (n + 31) / 32.
Proof. intros. unfold elem_cnt, ELEM_BITS. rewrite u32_small by solve_int. f_equal. lia. Qed.

Lemma repr_elem b bs i :
  repr b bs -> 0 <= i < bit_cnt b ->
  exists w, bits b !! Z.to_nat (i / ELEM_BITS) = Some w /\ is_u32 w.
Proof.
  intros [R1 R2 R3 R4 R5] Hi. rewrite elem_cnt_eq in R3 by lia.
  destruct (lookup_lt_is_Some_2 (bits b) (Z.to_nat (i / ELEM_BITS))) as [w Hw].
  { unfold ELEM_BITS. zify. pose proof (Z.div_le_mono i (bit_cnt b + 31 - 32) 32).
    assert ((bit_cnt b + 31 - 32) / 32 = (bit_cnt b + 31) / 32 - 1).
    { replace (bit_cnt b + 31 - 32) with (bit_cnt b + 31 + -1 * 32) by lia. rewrite Z.div_add; lia. }
    pose proof (Z.div_pos i 32). lia. }
  exists w. split; [done|]. by eapply Forall_lookup_1.
Qed.

(** Writing one element changes one place of the array, when it changes one bit. *)
Lemma repr_set_elem b bs i w w' v :
  repr b bs -> 0 <= i < bit_cnt b -> bits b !! Z.to_nat (i / ELEM_BITS) = Some w -> is_u32 w' ->
  (forall j, 0 <= j < 32 -> Z.testbit w' j = if decide (j = i mod ELEM_BITS) then v else Z.testbit w j) ->
  exists b', set_elem b (elem_idx i) w' = Ok b' /\ repr b' (<[Z.to_nat i := v]> bs).
Proof.
  intros [R1 R2 R3 R4 R5] Hi Hw Hw' HB. unfold set_elem, elem_idx. rewrite Hw. eexists. split; [done|].
  split; cbn [bit_cnt bits]; rewrite ?length_insert; [done|done|done|by apply Forall_insert|].
  intros k Hk. unfold bit. cbn [bits]. rewrite list_lookup_insert. case_decide as Ek.
  - assert (k = i) as -> by lia. rewrite list_lookup_insert_eq by (by eapply lookup_lt_Some).
    f_equal. rewrite HB by (apply Z.mod_pos_bound; done). by rewrite decide_True.
  - rewrite R5 by done. unfold bit. f_equal. rewrite list_lookup_insert. case_decide as Ed; [|done].
    destruct Ed as [Ed _]. rewrite <- Ed, Hw. unfold ELEM_BITS in *.
    rewrite HB by (apply Z.mod_pos_bound; done). rewrite decide_False; [done|]. intros Em.
    apply Ek. split; [|lia].
    assert (k / 32 = i / 32) by (pose proof (Z.div_pos k 32); pose proof (Z.div_pos i 32); lia).
    rewrite (Z.div_mod k 32), (Z.div_mod i 32) by lia. congruence.
Qed.

Lemma testbit_u32_high w j : is_u32 w -> 32 <= j -> Z.testbit w j = false.
Proof. intros Hw Hj. rewrite <- (u32_small w Hw). unfold u32. by apply Z.mod_pow2_bits_high. Qed.

Lemma u32_of_bits w : 0 <= w -> (forall j, 32 <= j -> Z.testbit w j = false) -> is_u32 w.
Proof.
  intros H0 HB. split; [done|]. destruct (Z.eq_dec w 0) as [->|]; [done|].
  apply Z.log2_lt_pow2; [lia|]. destruct (Z.lt_ge_cases (Z.log2 w) 32) as [|Hge]; [done|].
  specialize (HB _ Hge). rewrite Z.bit_log2 in HB by lia. done.
Qed.

Lemma bit_mask_pow i : bit_mask i = 2 ^ (i mod ELEM_BITS).
Proof. unfold bit_mask. rewrite Z.shiftl_1_l. done. Qed.

Lemma not32_testbit m j : is_u32 m -> 0 <= j < 32 -> Z.testbit (not32 m) j = negb (Z.testbit m j).
Proof.
  intros Hm Hj. unfold not32. replace (2 ^ 32 - 1 - m) with (Z.lnot m + 1 * 2 ^ 32) by (unfold Z.lnot; lia).
  rewrite <- (Z.mod_pow2_bits_low _ 32) by lia.
  rewrite Z.mod_add, Z.mod_pow2_bits_low by lia. apply Z.lnot_spec. lia.
Qed.

Lemma bitmap_set_ok b bs i v :
  repr b bs -> 0 <= i < bit_cnt b ->
  exists b', bitmap_set b i v = Ok b' /\ repr b' (<[Z.to_nat i := v]> bs).
Proof.
  intros R Hi. destruct (repr_elem _ _ _ R Hi) as (w & Hw & Uw).
  assert (Hm : 0 <= i mod ELEM_BITS < 32) by (apply Z.mod_pos_bound; done).
  unfold bitmap_set. rewrite (proj2 (Z.ltb_lt _ _)) by lia. cbn [assert mbind outcome_bind].
  assert (G : get_elem b (elem_idx i) = Ok w) by (unfold get_elem, elem_idx; by rewrite Hw).
  destruct v; unfold bitmap_mark, bitmap_reset; rewrite G, bit_mask_pow; cbn [mbind outcome_bind].
  - apply (repr_set_elem _ _ _ w); [done..| |].
    + apply u32_of_bits; [apply Z.lor_nonneg; split; [apply Uw|apply Z.pow_nonneg; lia]|].
      intros j Hj. rewrite Z.lor_spec, testbit_u32_high, Z.pow2_bits_false by (done || lia). done.
    + intros j Hj. rewrite Z.lor_spec, Z.pow2_bits_eqb by lia.
      case_decide as E; [rewrite E, Z.eqb_refl; apply orb_true_r|].
      rewrite (proj2 (Z.eqb_neq _ _)) by lia. apply orb_false_r.
  - assert (U : is_u32 (2 ^ (i mod ELEM_BITS))).
    { split; [apply Z.pow_nonneg; lia|]. apply Z.pow_lt_mono_r; lia. }
    apply (repr_set_elem _ _ _ w); [done..| |].
    + apply u32_of_bits; [apply Z.land_nonneg; left; apply Uw|].
      intros j Hj. by rewrite Z.land_spec, testbit_u32_high.
    + intros j Hj. rewrite Z.land_spec, not32_testbit, Z.pow2_bits_eqb by (done || lia).
      case_decide as E; [rewrite E, Z.eqb_refl; apply andb_false_r|].
      rewrite (proj2 (Z.eqb_neq _ _)) by lia. apply andb_true_r.
Qed.

Lemma bitmap_test_ok b bs i v :
  repr b bs -> bs !! i = Some v -> bitmap_test b (Z.of_nat i) = Ok v.
Proof.
  intros R Hv. pose proof (lookup_lt_Some _ _ _ Hv) as Hl. pose proof (repr_cnt _ _ R) as HC.
  assert (Hi : 0 <= Z.of_nat i < bit_cnt b) by lia.
  destruct (repr_elem _ _ _ R Hi) as (w & Hw & Uw).
  assert (Hm : 0 <= Z.of_nat i mod ELEM_BITS < 32) by (apply Z.mod_pos_bound; done).
  pose proof (repr_bit _ _ R _ Hi) as Hb. rewrite Nat2Z.id, Hv in Hb. injection Hb as ->.
  unfold bitmap_test. rewrite (proj2 (Z.ltb_lt _ _)) by lia. cbn [assert mbind outcome_bind].
  unfold get_elem, bit, elem_idx. rewrite Hw. cbn [mbind outcome_bind].
  by rewrite bit_mask_pow, land_bit_testbit by lia.
Qed.

(** *** Ranges *)

Lemma length_fill s n v bs : (s + n <= length bs)%nat -> length (fill s n v bs) = length bs.
Proof.
  intros. unfold fill. rewrite !length_app, length_take, length_replicate, length_drop. lia.
Qed.

Lemma lookup_fill s n v bs i :
  (s + n <= length bs)%nat ->
  fill s n v bs !! i = if decide (s <= i < s + n)%nat then Some v else bs !! i.
Proof.
  intros H. unfold fill. destruct (decide (i < s)%nat).
  - rewrite lookup_app_l, lookup_take_lt, decide_False by (rewrite ?length_take; lia). done.
  - rewrite lookup_app_r by (rewrite length_take; lia). rewrite length_take.
    replace (s `min` length bs)%nat with s by lia. destruct (decide (i - s < n)%nat).
    + rewrite lookup_app_l, lookup_replicate_2, decide_True by (rewrite ?length_replicate; lia). done.
    + rewrite lookup_app_r, lookup_drop, decide_False by (rewrite ?length_replicate; lia).
      rewrite length_replicate. f_equal. lia.
Qed.

Lemma fill_0 s v bs : fill s 0 v bs = bs.
Proof. unfold fill. cbn. by rewrite Nat.add_0_r, take_drop. Qed.

Lemma fill_S s n v bs :
  (s + S n <= length bs)%nat -> fill (S s) n v (<[s := v]> bs) = fill s (S n) v bs.
Proof.
  intros H. apply list_eq. intros i. rewrite !lookup_fill, list_lookup_insert by (rewrite ?length_insert; lia).
  repeat case_decide; try done; lia.
Qed.

Lemma set_loop_ok n v : forall b bs start i,
  repr b bs -> 0 <= start -> 0 <= i -> start + i + Z.of_nat n <= bit_cnt b ->
  exists b', set_loop n b start i v = Ok b' /\ repr b' (fill (Z.to_nat (start + i)) n v bs).
Proof.
  induction n as [|n IH]; intros b bs start i R Hs Hi Hl; cbn [set_loop].
  { exists b. by rewrite fill_0. }
  pose proof (repr_cnt _ _ R). pose proof (repr_small _ _ R).
  rewrite u32_small by solve_int.
  destruct (bitmap_set_ok b bs (start + i) v R) as (b1 & E1 & R1); [lia|]. rewrite E1. cbn [mbind outcome_bind].
  pose proof (repr_cnt _ _ R1) as C1. rewrite length_insert in C1.
  destruct (IH b1 _ start (i + 1) R1) as (b' & E' & R'); [lia..|].
  exists b'. split; [done|]. rewrite <- fill_S by lia.
  by replace (S (Z.to_nat (start + i))) with (Z.to_nat (start + (i + 1))) by lia.
Qed.

Lemma range_asserts (b : bitmap) start cnt {A} (k : outcome A) :
  0 <= start -> 0 <= cnt -> start + cnt <= bit_cnt b -> bit_cnt b + 31 < 2 ^ 32 ->
  (do* assert (start <=? bit_cnt b); do* assert (u32 (start + cnt) <=? bit_cnt b); k) = k.
Proof.
  intros. rewrite u32_small by solve_int. rewrite !(proj2 (Z.leb_le _ _)) by lia. done.
Qed.

Lemma bitmap_set_multiple_ok b bs start cnt v :
  repr b bs -> 0 <= start -> 0 <= cnt -> start + cnt <= bit_cnt b ->
  exists b', bitmap_set_multiple b start cnt v = Ok b' /\
    repr b' (fill (Z.to_nat start) (Z.to_nat cnt) v bs).
Proof.
  intros R Hs Hc Hl. pose proof (repr_small _ _ R). unfold bitmap_set_multiple.
  rewrite range_asserts by done.
  destruct (set_loop_ok (Z.to_nat cnt) v b bs start 0 R) as (b' & E & R'); [lia..|].
  rewrite Z.add_0_r in R'. eauto.
Qed.

Lemma slice_S s n bs x : bs !! s = Some x -> slice s (S n) bs = x :: slice (S s) n bs.
Proof. intros E. unfold slice. by rewrite (drop_S _ _ _ E). Qed.

(** One step of the reading loops: the bit tested is the next place of the slice. *)
Lemma test_step b bs start i n :
  repr b bs -> 0 <= start -> 0 <= i -> start + i + Z.of_nat (S n) <= bit_cnt b ->
  exists x, bitmap_test b (u32 (start + i)) = Ok x /\
    slice (Z.to_nat (start + i)) (S n) bs = x :: slice (Z.to_nat (start + (i + 1))) n bs.
Proof.
  intros R Hs Hi Hl. pose proof (repr_cnt _ _ R). pose proof (repr_small _ _ R).
  destruct (lookup_lt_is_Some_2 bs (Z.to_nat (start + i))) as [x Hx]; [lia|].
  exists x. rewrite u32_small by solve_int. split.
  - rewrite <- (Z2Nat.id (start + i)) by lia. by eapply bitmap_test_ok.
  - rewrite (slice_S _ _ _ _ Hx). do 2 f_equal. lia.
Qed.

Lemma contains_loop_ok n v : forall b bs start i,
  repr b bs -> 0 <= start -> 0 <= i -> start + i + Z.of_nat n <= bit_cnt b ->
  contains_loop n b start i v = Ok (bool_decide (v ∈ slice (Z.to_nat (start + i)) n bs)).
Proof.
  induction n as [|n IH]; intros b bs start i R Hs Hi Hl; cbn [contains_loop].
  { rewrite bool_decide_eq_false_2; [done|]. apply not_elem_of_nil. }
  destruct (test_step b bs start i n R) as (x & -> & ->); [done..|]. cbn [mbind outcome_bind].
  rewrite (IH b bs) by (done || lia). destruct (Bool.eqb x v) eqn:E.
  - apply eqb_prop in E as ->. rewrite bool_decide_eq_true_2; [done|set_solver].
  - f_equal. apply bool_decide_ext. rewrite elem_of_cons.
    apply eqb_false_iff in E. split; [by right|]. by intros [->|].
Qed.

Lemma bitmap_contains_ok b bs start cnt v :
  repr b bs -> 0 <= start -> 0 <= cnt -> start + cnt <= bit_cnt b ->
  bitmap_contains b start cnt v = Ok (bool_decide (v ∈ slice (Z.to_nat start) (Z.to_nat cnt) bs)).
Proof.
  intros R Hs Hc Hl. pose proof (repr_small _ _ R). unfold bitmap_contains.
  rewrite range_asserts, (contains_loop_ok _ _ b bs) by (done || lia). by rewrite Z.add_0_r.
Qed.

Lemma count_loop_ok n v : forall b bs start i c,
  repr b bs -> 0 <= start -> 0 <= i -> start + i + Z.of_nat n <= bit_cnt b ->
  0 <= c -> c + Z.of_nat n < 2 ^ 32 ->
  count_loop n b start i c v =
    Ok (c + Z.of_nat (length (filter (fun x => x = v) (slice (Z.to_nat (start + i)) n bs)))).
Proof.
  induction n as [|n IH]; intros b bs start i c R Hs Hi Hl Hc Hb; cbn [count_loop].
  { by rewrite Z.add_0_r. }
  destruct (test_step b bs start i n R) as (x & -> & ->); [done..|]. cbn [mbind outcome_bind].
  rewrite filter_cons. destruct (Bool.eqb x v) eqn:E.
  - apply eqb_prop in E as ->. rewrite decide_True, u32_small, (IH b bs) by (done || solve_int).
    cbn [length]. f_equal. lia.
  - apply eqb_false_iff in E. by rewrite decide_False, (IH b bs) by (done || lia).
Qed.

Lemma bitmap_count_ok b bs start cnt v :
  repr b bs -> 0 <= start -> 0 <= cnt -> start + cnt <= bit_cnt b ->
  bitmap_count b start cnt v =
    Ok (Z.of_nat (length (filter (fun x => x = v) (slice (Z.to_nat start) (Z.to_nat cnt) bs)))).
Proof.
  intros R Hs Hc Hl. pose proof (repr_small _ _ R). unfold bitmap_count.
  rewrite range_asserts, (count_loop_ok _ _ b bs) by (done || lia). by rewrite Z.add_0_r.
Qed.

(** *** Scanning *)

Lemma group_slice bs i n v :
  (i + n <= length bs)%nat -> (negb v ∉ slice i n bs <-> group bs i n v).
Proof.
  intros Hl. unfold slice, group. split.
  - intros HN. split; [done|]. intros k Hk.
    destruct (lookup_lt_is_Some_2 bs (i + k)) as [x Hx]; [lia|]. rewrite Hx. f_equal.
    destruct (decide (x = negb v)) as [->|]; [|by destruct x, v].
    destruct HN. apply list_elem_of_lookup. exists k. by rewrite lookup_take_lt, lookup_drop by done.
  - intros [_ HG] [k Hk]%list_elem_of_lookup. apply lookup_take_Some in Hk as [Hk Hn].
    rewrite lookup_drop, HG in Hk by done. by destruct v.
Qed.

Lemma scan_loop_ok fuel v : forall b bs i cnt,
  repr b bs -> 0 <= i -> 0 <= cnt <= bit_cnt b -> bit_cnt b - cnt - i + 1 < Z.of_nat fuel ->
  (0 < fuel)%nat ->
  exists r, scan_loop fuel b i (bit_cnt b - cnt) cnt v = Ok r /\
    first_group bs (Z.to_nat i) (Z.to_nat cnt) v r.
Proof.
  induction fuel as [|fuel IH]; intros b bs i cnt R Hi Hc Hf Hp; [lia|]. cbn [scan_loop].
  pose proof (repr_cnt _ _ R) as RC. pose proof (repr_small _ _ R) as RS.
  destruct (Z.leb_spec i (bit_cnt b - cnt)) as [Hle|Hgt].
  - rewrite (bitmap_contains_ok b bs) by (done || lia). cbn [mbind outcome_bind].
    pose proof (group_slice bs (Z.to_nat i) (Z.to_nat cnt) v) as HG. case_bool_decide as HE.
    + rewrite u32_small by solve_int. destruct (IH b bs (i + 1) cnt R) as (r & E & HR); [lia..|].
      exists r. split; [done|].
      assert (HS : forall j, (Z.to_nat i <= j)%nat -> j = Z.to_nat i \/ (Z.to_nat (i + 1) <= j)%nat) by lia.
      assert (HN : ~ group bs (Z.to_nat i) (Z.to_nat cnt) v) by (rewrite <- HG by lia; tauto).
      destruct HR as [(k & -> & Hne & Hk & Hg & Hm)|[-> Hm]]; [left|right].
      * exists k. split_and!; [done..|lia|done|]. intros j Hj. destruct (HS j ltac:(lia)) as [->|]; [done|]. apply Hm. lia.
      * split; [done|]. intros j Hj. destruct (HS j Hj) as [->|]; [done|by apply Hm].
    + exists i. split; [done|]. left. exists (Z.to_nat i). split_and!; [lia|unfold BITMAP_ERROR; solve_int|lia| |lia].
      apply HG; [lia|done].
  - exists BITMAP_ERROR. split; [done|]. right. split; [done|]. intros j Hj [Hl _]. lia.
Qed.

Lemma bitmap_scan_ok b bs start cnt v :
  repr b bs -> 0 <= start <= bit_cnt b -> 0 <= cnt ->
  exists r, bitmap_scan b start cnt v = Ok r /\ first_group bs (Z.to_nat start) (Z.to_nat cnt) v r.
Proof.
  intros R Hs Hc. unfold bitmap_scan. rewrite (proj2 (Z.leb_le start _)) by lia. cbn [assert mbind outcome_bind].
  pose proof (repr_cnt _ _ R). destruct (Z.leb_spec cnt (bit_cnt b)).
  - apply (scan_loop_ok _ v b bs start cnt R); lia.
  - exists BITMAP_ERROR. split; [done|]. right. split; [done|]. intros j Hj [Hl _]. lia.
Qed.

Lemma bitmap_scan_and_flip_ok b bs start cnt v :
  repr b bs -> 0 <= start <= bit_cnt b -> 0 <= cnt ->
  exists r b', bitmap_scan_and_flip b start cnt v = Ok (r, b') /\
    first_group bs (Z.to_nat start) (Z.to_nat cnt) v r /\
    repr b' (if decide (r = BITMAP_ERROR) then bs else fill (Z.to_nat r) (Z.to_nat cnt) (negb v) bs).
Proof.
  intros R Hs Hc. unfold bitmap_scan_and_flip.
  destruct (bitmap_scan_ok b bs start cnt v R Hs Hc) as (r & -> & HF). cbn [mbind outcome_bind].
  destruct (decide (r = BITMAP_ERROR)) as [->|Hne]; [by exists BITMAP_ERROR, b|].
  rewrite (proj2 (Z.eqb_neq _ _)) by done. cbn [negb].
  destruct HF as [(k & -> & _ & Hk & Hg & Hm)|[-> ?]]; [|done].
  pose proof (repr_cnt _ _ R). destruct Hg as [Hl Hg].
  destruct (bitmap_set_multiple_ok b bs (Z.of_nat k) cnt (negb v) R) as (b' & E & R'); [lia..|].
  exists (Z.of_nat k), b'. rewrite E, decide_False by done. split; [done|]. split; [|done].
  left. exists k. by split_and!.
Qed.

(** *** Creation and file transfer *)

(** Any block of words that is large enough stands for some array. *)
Lemma repr_any n data :
  0 <= n -> n + 31 < 2 ^ 32 -> elem_cnt n <= Z.of_nat (length data) -> Forall is_u32 data ->
  exists bs, repr (Bitmap n data) bs /\ length bs = Z.to_nat n.
Proof.
  intros Hn Hs Hl HF.
  exists ((fun i => bit (Bitmap n data) (Z.of_nat i)) <$> seq 0 (Z.to_nat n)).
  rewrite length_fmap, length_seq. split; [|done].
  split; cbn [bit_cnt bits]; [rewrite length_fmap, length_seq; lia|done..|].
  intros i Hi. rewrite list_lookup_fmap, lookup_seq_lt by lia. cbn. do 2 f_equal. lia.
Qed.

Lemma fill_all n v bs : length bs = n -> fill 0 n v bs = replicate n v.
Proof. intros <-. unfold fill. cbn. by rewrite drop_all, app_nil_r. Qed.

Lemma bitmap_set_all_ok b bs v :
  repr b bs -> exists b', bitmap_set_all b v = Ok b' /\ repr b' (replicate (length bs) v).
Proof.
  intros R. pose proof (repr_cnt _ _ R) as RC. unfold bitmap_set_all, bitmap_size.
  destruct (bitmap_set_multiple_ok b bs 0 (bit_cnt b) v R) as (b' & E & R'); [lia..|].
  exists b'. split; [done|]. rewrite fill_all in R'; [|lia]. by rewrite RC, Nat2Z.id in R'.
Qed.

Lemma bitmap_create_ok n junk :
  0 <= n -> n + 31 < 2 ^ 32 -> elem_cnt n <= Z.of_nat (length junk) -> Forall is_u32 junk ->
  exists b, bitmap_create n true (Some junk) = Ok (Some b) /\ repr b (replicate (Z.to_nat n) false).
Proof.
  intros Hn Hs Hl HF. destruct (repr_any n junk) as (js & RJ & LJ); [done..|].
  destruct (bitmap_set_all_ok _ js false RJ) as (b' & E & R'). exists b'. unfold bitmap_create. rewrite E. split; [done|]. by rewrite LJ in R'.
Qed.

Lemma elem_cnt_pos n : 0 < n -> n + 31 < 2 ^ 32 -> 0 < elem_cnt n.
Proof. intros. rewrite elem_cnt_eq by lia. apply Z.div_str_pos. lia. Qed.

(** Bits below the bit count survive the mask [bitmap_read] applies. *)
Lemma last_mask_bit b j :
  0 < bit_cnt b -> 0 <= j < 32 -> (bit_cnt b mod 32 = 0 \/ j < bit_cnt b mod 32) ->
  Z.testbit (last_mask b) j = true.
Proof.
  intros Hp Hj Hd. unfold last_mask, ELEM_BITS. destruct (Z.eqb_spec (bit_cnt b mod 32) 0) as [E|E]; cbn [negb].
  - change (2 ^ 32 - 1) with (Z.ones 32). rewrite Z.ones_spec_low by lia. done.
  - rewrite Z.shiftl_1_l. rewrite Z.sub_1_r, <- Z.ones_equiv, Z.ones_spec_low; [done|].
    pose proof (Z.mod_pos_bound (bit_cnt b) 32). lia.
Qed.

Lemma bitmap_read_ok b n data bs :
  repr (Bitmap (bit_cnt b) data) bs -> 0 < bit_cnt b ->
  exists b', bitmap_read b n data = Ok (n =? byte_cnt (bit_cnt b), b') /\ repr b' bs.
Proof.
  intros [R1 R2 R3 R4 R5] Hp. cbn [bit_cnt bits] in *. unfold bitmap_read.
  rewrite (proj2 (Z.ltb_lt _ _)) by done. cbn [bit_cnt].
  pose proof (elem_cnt_pos _ Hp R2) as Ep. set (e := elem_cnt (bit_cnt b)) in *.
  destruct (lookup_lt_is_Some_2 data (Z.to_nat (e - 1))) as [w Hw]; [lia|].
  assert (Uw : is_u32 w) by (by eapply Forall_lookup_1).
  unfold get_elem, set_elem. cbn [bits bit_cnt]. rewrite Hw. cbn [mbind outcome_bind]. eexists. split; [done|].
  split; cbn [bit_cnt bits]; rewrite ?length_insert; [done..| |].
  - apply Forall_insert; [done|]. apply u32_of_bits; [apply Z.land_nonneg; left; apply Uw|].
    intros j Hj. by rewrite Z.land_spec, testbit_u32_high.
  - intros i Hi. rewrite R5 by done. unfold bit. cbn [bits]. f_equal.
    rewrite list_lookup_insert. case_decide as Ed; [|done]. destruct Ed as [Ed _]. rewrite <- Ed, Hw.
    rewrite Z.land_spec, last_mask_bit, andb_true_r; unfold ELEM_BITS in *; cbn [bit_cnt]; [done|done| |].
    { apply Z.mod_pos_bound. lia. }
    unfold e in Ed. rewrite elem_cnt_eq in Ed by lia.
    pose proof (Z.div_pos i 32). pose proof (Z.div_str_pos (bit_cnt b + 31) 32).
    assert (Ei : i / 32 = (bit_cnt b + 31) / 32 - 1) by lia. clear Ed.
    pose proof (Z.div_mod i 32). pose proof (Z.div_mod (bit_cnt b) 32). pose proof (Z.div_mod (bit_cnt b + 31) 32).
    pose proof (Z.mod_pos_bound i 32). pose proof (Z.mod_pos_bound (bit_cnt b) 32).
    pose proof (Z.mod_pos_bound (bit_cnt b + 31) 32). lia.
Qed.

Lemma bitmap_flip_ok b bs i v :
  repr b bs -> bs !! i = Some v ->
  exists b', bitmap_flip b (Z.of_nat i) = Ok b' /\ repr b' (<[i := negb v]> bs).
Proof.
  intros R Hv. pose proof (lookup_lt_Some _ _ _ Hv) as Hl. pose proof (repr_cnt _ _ R) as HC.
  assert (Hi : 0 <= Z.of_nat i < bit_cnt b) by lia.
  destruct (repr_elem _ _ _ R Hi) as (w & Hw & Uw).
  assert (Hm : 0 <= Z.of_nat i mod ELEM_BITS < 32) by (apply Z.mod_pos_bound; done).
  pose proof (repr_bit _ _ R _ Hi) as Hb. rewrite Nat2Z.id, Hv in Hb. unfold bit in Hb. rewrite Hw in Hb.
  injection Hb as ->. unfold bitmap_flip, get_elem, elem_idx. rewrite Hw, bit_mask_pow. cbn [mbind outcome_bind].
  edestruct (repr_set_elem b bs (Z.of_nat i) w) as (b' & E & R'); [done..| | |by rewrite Nat2Z.id in R'; eauto].
  - apply u32_of_bits.
    + apply Z.lxor_nonneg. split; intros _; [apply Z.pow_nonneg; lia|apply Uw].
    + intros j Hj. by rewrite Z.lxor_spec, testbit_u32_high, Z.pow2_bits_false by (done || lia).
  - intros j Hj. rewrite Z.lxor_spec, Z.pow2_bits_eqb by lia.
    case_decide as E; [rewrite E, Z.eqb_refl; apply xorb_true_r|].
    rewrite (proj2 (Z.eqb_neq _ _)) by lia. apply xorb_false_r.
Qed.

(** ** The interface clients rely on *)

Class BitArray (B : Type) := {
  ba_repr : B -> list bool -> Prop;
  ba_size : B -> Z;
  ba_scan_and_flip : B -> Z -> Z -> bool -> outcome (Z * B);
  ba_set_multiple : B -> Z -> Z -> bool -> outcome B;
  ba_set : B -> Z -> bool -> outcome B;
  ba_all : B -> Z -> Z -> outcome bool;
  ba_size_ok b bs : ba_repr b bs -> ba_size b = Z.of_nat (length bs);
  ba_scan_and_flip_ok b bs start cnt v :
    ba_repr b bs -> 0 <= start <= Z.of_nat (length bs) -> 0 <= cnt ->
    exists r b', ba_scan_and_flip b start cnt v = Ok (r, b') /\
      first_group bs (Z.to_nat start) (Z.to_nat cnt) v r /\
      ba_repr b' (if decide (r = BITMAP_ERROR) then bs else fill (Z.to_nat r) (Z.to_nat cnt) (negb v) bs);
  ba_set_multiple_ok b bs start cnt v :
    ba_repr b bs -> 0 <= start -> 0 <= cnt -> start + cnt <= Z.of_nat (length bs) ->
    exists b', ba_set_multiple b start cnt v = Ok b' /\
      ba_repr b' (fill (Z.to_nat start) (Z.to_nat cnt) v bs);
  ba_set_ok b bs i v :
    ba_repr b bs -> 0 <= i < Z.of_nat (length bs) ->
    exists b', ba_set b i v = Ok b' /\ ba_repr b' (<[Z.to_nat i := v]> bs);
  ba_all_ok b bs start cnt :
    ba_repr b bs -> 0 <= start -> 0 <= cnt -> start + cnt <= Z.of_nat (length bs) ->
    ba_all b start cnt = Ok (bool_decide (false ∉ slice (Z.to_nat start) (Z.to_nat cnt) bs))
}.

#[export] Program Instance bitmap_BitArray : BitArray bitmap := {
  ba_repr := repr;
  ba_size := bitmap_size;
  ba_scan_and_flip := bitmap_scan_and_flip;
  ba_set_multiple := bitmap_set_multiple;
  ba_set := bitmap_set;
  ba_all := bitmap_all
}.
Next Obligation.
  intros b bs R. apply (repr_cnt _ _ R).
Qed.
Next Obligation.
  intros b bs start cnt v R Hs Hc. rewrite <- (repr_cnt _ _ R) in Hs. by apply bitmap_scan_and_flip_ok.
Qed.
Next Obligation.
  intros b bs start cnt v R Hs Hc Hl. rewrite <- (repr_cnt _ _ R) in Hl. by apply bitmap_set_multiple_ok.
Qed.
Next Obligation.
  intros b bs i v R Hi. rewrite <- (repr_cnt _ _ R) in Hi. by apply bitmap_set_ok.
Qed.
Next Obligation.
  intros b bs start cnt R Hs Hc Hl. rewrite <- (repr_cnt _ _ R) in Hl. unfold bitmap_all.
  rewrite (bitmap_contains_ok b bs) by done. cbn [mbind outcome_bind]. unfold mret, outcome_ret.
  by rewrite bool_decide_not.
Qed.

(** A bitmap stands for one array. *)
Lemma ba_inj {B} `{BA : BitArray B} (b : B) bs bs' : ba_repr b bs -> ba_repr b bs' -> bs = bs'.
Proof.
  intros R R'. assert (HL : length bs = length bs') by (pose proof (ba_size_ok _ _ R); pose proof (ba_size_ok _ _ R'); lia).
  apply list_eq. intros i. destruct (decide (i < length bs)%nat) as [Hi|Hi]; [|by rewrite !lookup_ge_None_2 by lia].
  destruct (lookup_lt_is_Some_2 bs i) as [x Hx]; [lia|]. destruct (lookup_lt_is_Some_2 bs' i) as [y Hy]; [lia|]. rewrite Hx, Hy. f_equal.
  pose proof (ba_all_ok b bs (Z.of_nat i) 1 R ltac:(lia) ltac:(lia) ltac:(lia)) as H. rewrite (ba_all_ok b bs' (Z.of_nat i) 1) in H by (done || lia).
  rewrite Nat2Z.id in H. change (Z.to_nat 1) with 1%nat in H. rewrite (slice_S i 0 bs x), (slice_S i 0 bs' y) in H by done. injection H as H.
  revert H. destruct x, y; try done; (rewrite bool_decide_eq_true_2; [|set_solver]); (rewrite bool_decide_eq_false_2; [done|set_solver]) ||
    ((rewrite bool_decide_eq_false_2; [|set_solver]); (rewrite bool_decide_eq_true_2; [done|set_solver])).
Qed.

(** Handing out a free group and taking it back restores the array. *)
Lemma fill_fill bs i cnt v : group bs i cnt (negb v) -> fill i cnt (negb v) (fill i cnt v bs) = bs.
Proof.
  intros [Hl Hg]. apply list_eq. intros j. rewrite !lookup_fill by (rewrite ?length_fill; lia).
  repeat case_decide; try done. replace j with (i + (j - i))%nat by lia. rewrite Hg by lia. done.
Qed.

(** ** Main theorems *)

(** C17: on a bitmap that stands for the array [bs], the single-bit and range operations
    return and do to the array what their names say, for every index and range inside it:
    set, flip, test, set_multiple, count, any, all and none.  Outside it, setting and testing a bit
    stop the kernel, and so do the range operations when the range ends behind the array and its end is
    a 32-bit number; [bitmap_flip] has no such check, and an end that wraps is not seen. *)
Theorem bitmap_ops_refine b bs :
  repr b bs ->
  (forall i x, bs !! i = Some x ->
    bitmap_test b (Z.of_nat i) = Ok x /\
    (forall v, exists b', bitmap_set b (Z.of_nat i) v = Ok b' /\ repr b' (<[i := v]> bs)) /\
    (exists b', bitmap_flip b (Z.of_nat i) = Ok b' /\ repr b' (<[i := negb x]> bs))) /\
  (forall s n, (s + n <= length bs)%nat ->
    (forall v, exists b', bitmap_set_multiple b (Z.of_nat s) (Z.of_nat n) v = Ok b' /\ repr b' (fill s n v bs)) /\
    (forall v, bitmap_count b (Z.of_nat s) (Z.of_nat n) v =
      Ok (Z.of_nat (length (filter (fun x => x = v) (slice s n bs))))) /\
    bitmap_any b (Z.of_nat s) (Z.of_nat n) = Ok (bool_decide (true ∈ slice s n bs)) /\
    bitmap_none b (Z.of_nat s) (Z.of_nat n) = Ok (bool_decide (true ∉ slice s n bs)) /\
    bitmap_all b (Z.of_nat s) (Z.of_nat n) = Ok (bool_decide (false ∉ slice s n bs))) /\
  (forall i, (length bs <= i)%nat ->
    bitmap_test b (Z.of_nat i) = Fail FAssert /\ forall v, bitmap_set b (Z.of_nat i) v = Fail FAssert) /\
  (forall s n, (length bs < s + n)%nat -> Z.of_nat s + Z.of_nat n < 2 ^ 32 ->
    (forall v, bitmap_set_multiple b (Z.of_nat s) (Z.of_nat n) v = Fail FAssert) /\
    (forall v, bitmap_count b (Z.of_nat s) (Z.of_nat n) v = Fail FAssert) /\
    bitmap_any b (Z.of_nat s) (Z.of_nat n) = Fail FAssert /\
    bitmap_none b (Z.of_nat s) (Z.of_nat n) = Fail FAssert /\
    bitmap_all b (Z.of_nat s) (Z.of_nat n) = Fail FAssert).
Proof.
  intros R. pose proof (repr_cnt _ _ R) as RC. split; [|split; [|split]].
  - intros i x Hx. pose proof (lookup_lt_Some _ _ _ Hx). split_and!.
    + by eapply bitmap_test_ok.
    + intros v. destruct (bitmap_set_ok b bs (Z.of_nat i) v R) as (b' & E & R'); [lia|].
      rewrite Nat2Z.id in R'. eauto.
    + by apply bitmap_flip_ok.
  - intros s n Hl. split_and!; unfold bitmap_any, bitmap_none, bitmap_all; intros;
      rewrite ?(bitmap_contains_ok b bs), ?(bitmap_count_ok b bs), ?Nat2Z.id by (done || lia); try done.
    + destruct (bitmap_set_multiple_ok b bs (Z.of_nat s) (Z.of_nat n) v R) as (b' & E & R'); [lia..|].
      rewrite !Nat2Z.id in R'. eauto.
    + cbn [mbind outcome_bind]. unfold mret, outcome_ret. by rewrite bool_decide_not.
    + cbn [mbind outcome_bind]. unfold mret, outcome_ret. by rewrite bool_decide_not.
  - intros i Hi. unfold bitmap_test, bitmap_set. rewrite (proj2 (Z.ltb_ge _ _)) by lia. done.
  - intros s n Hl Hw. unfold bitmap_any, bitmap_none, bitmap_all, bitmap_set_multiple, bitmap_count, bitmap_contains.
    rewrite u32_small, (proj2 (Z.leb_gt (_ + _) _)) by solve_int. destruct (_ <=? _); split_and!; done.
Qed.

(** [bitmap_scan_and_flip] returns the first place where [cnt] consecutive bits hold the
    value, and inverts exactly these; it reports [BITMAP_ERROR] and changes nothing exactly
    when there is no such place. *)
Theorem bitmap_scan_and_flip_correct b bs start cnt v :
  repr b bs -> 0 <= start <= bit_cnt b -> 0 <= cnt ->
  exists r b', bitmap_scan_and_flip b start cnt v = Ok (r, b') /\
    first_group bs (Z.to_nat start) (Z.to_nat cnt) v r /\
    repr b' (if decide (r = BITMAP_ERROR) then bs else fill (Z.to_nat r) (Z.to_nat cnt) (negb v) bs).
Proof. apply bitmap_scan_and_flip_ok. Qed.

(** a bitmap written to a file and read back stands for the same array; and creating a
    bitmap in fresh memory of any contents yields the all-false array. *)
Theorem bitmap_create_and_transfer b b0 bs junk :
  repr b bs -> 0 < bit_cnt b -> bit_cnt b0 = bit_cnt b ->
  elem_cnt (bit_cnt b) <= Z.of_nat (length junk) -> Forall is_u32 junk ->
  (exists b', bitmap_read b0 (bitmap_file_size b) (bitmap_write b (bitmap_file_size b)).1 = Ok (true, b') /\
    repr b' bs) /\
  (exists b', bitmap_create (bit_cnt b) true (Some junk) = Ok (Some b') /\
    repr b' (replicate (length bs) false)).
Proof.
  intros R Hp H0 Hl HF. split.
  - destruct (bitmap_read_ok b0 (bitmap_file_size b) (bits b) bs) as (b' & E & R');
      [rewrite H0; by destruct b|by rewrite H0|].
    exists b'. split; [|done]. cbn [bitmap_write fst]. rewrite E. unfold bitmap_file_size.
    by rewrite H0, Z.eqb_refl.
  - destruct (bitmap_create_ok (bit_cnt b) junk) as (b' & E & R'); [lia|apply (repr_small _ _ R)|done|done|].
    exists b'. split; [done|]. by rewrite (repr_cnt _ _ R), Nat2Z.id in R'.
Qed.

(** A request for zero bits is answered with [start], not with 0. *)
Lemma bitmap_scan_and_flip_zero b bs start v :
  repr b bs -> 0 <= start <= bit_cnt b -> bitmap_scan_and_flip b start 0 v = Ok (start, b).
Proof.
  intros R Hs. pose proof (repr_small _ _ R). unfold bitmap_scan_and_flip, bitmap_scan.
  rewrite (proj2 (Z.leb_le start _)), (proj2 (Z.leb_le 0 _)), Z.sub_0_r by lia.
  cbn [assert mbind outcome_bind scan_loop]. rewrite (proj2 (Z.leb_le start _)), (bitmap_contains_ok b bs start 0) by (done || lia). cbn [mbind outcome_bind].
  rewrite bool_decide_eq_false_2 by apply not_elem_of_nil. cbn [mbind outcome_bind].
  rewrite (proj2 (Z.eqb_neq _ _)) by (unfold BITMAP_ERROR; lia). cbn [negb].
  unfold bitmap_set_multiple. by rewrite (range_asserts b) by (done || lia).
Qed.

(** A bitmap of 40 bits in two words, with bits 0-2 and 35 set. *)
Definition demo_bitmap : bitmap := Bitmap 40 [7; 8].
Definition demo_bools : list bool :=
  [true; true; true] ++ replicate 32 false ++ [true] ++ replicate 4 false.

Lemma demo_repr : repr demo_bitmap demo_bools.
Proof.
  split; [done|done|done|by repeat constructor|]. cbn [bit_cnt demo_bitmap]. intros i Hi.
  assert (HA : forallb (fun k => bool_decide (demo_bools !! k = Some (bit demo_bitmap (Z.of_nat k)))) (seq 0 40) = true)
    by (vm_compute; reflexivity).
  rewrite forallb_forall in HA. specialize (HA (Z.to_nat i)). rewrite Z2Nat.id in HA by lia.
  eapply bool_decide_eq_true, HA, in_seq. lia.
Qed.

Lemma bitmap_ops_refine_witness :
  bitmap_test demo_bitmap 35 = Ok true /\ bitmap_count demo_bitmap 0 40 true = Ok 4 /\
  bitmap_set demo_bitmap 40 true = Fail FAssert /\ bitmap_count demo_bitmap 39 2 true = Fail FAssert.
Proof.
  destruct (bitmap_ops_refine demo_bitmap demo_bools demo_repr) as (H1 & H2 & H3 & H4). split_and!.
  - apply (H1 35%nat true eq_refl).
  - apply (H2 0%nat 40%nat). vm_compute. lia.
  - apply (H3 40%nat). vm_compute. lia.
  - apply (H4 39%nat 2%nat); [vm_compute; lia|done].
Defined.

End Bitmap.
