(* ===== verification/Hash.v ===== *)
(** * Hash tables (src/lib/kernel/hash.c)

    A [struct hash] is its two counters and its array of buckets.  A bucket is the
    sequence of element addresses its list holds: that the pointer operations behave
    like sequences is proved in LinkedList and ListSort.  The element's key, hash
    function and order are parameters of the table, as in the code ([hash], [less]).
    Whether [malloc] succeeds is an argument of the operations that call it.

    The table is shown to implement a finite map from keys to elements, whatever
    [malloc] answers and however often the buckets are reorganised. *)

From S2P Require Import Prelude.

Module Hash.

Record hash := Hash { elem_cnt : Z; bucket_cnt : Z; buckets : list (list Z) }.

(** ** Hash functions *)

Definition FNV_32_PRIME : Z := 16777619.
Definition FNV_32_BASIS : Z := 2166136261.

Definition hash_step (hash byte : Z) : Z := Z.lxor (u32 (hash * FNV_32_PRIME)) byte.

(** [hash_bytes (buf, size)], [buf] being the [size] bytes. *)
Definition hash_bytes (buf : list Z) : Z := fold_left hash_step buf FNV_32_BASIS.

(** [hash_string (s)]: up to the null byte; the string must be terminated. *)
Fixpoint hash_string_loop (s : list Z) (hash : Z) : outcome Z :=
  match s with
  | [] => Fail FMemory
  | c :: s => if c =? 0 then Ok hash else hash_string_loop s (hash_step hash c)
  end.
Definition hash_string (s : list Z) : outcome Z := hash_string_loop s FNV_32_BASIS.

(** The bytes of an [int] in memory order. *)
Definition int_bytes (i : Z) : list Z :=
  let w := u32 i in [w mod 256; w / 2 ^ 8 mod 256; w / 2 ^ 16 mod 256; w / 2 ^ 24 mod 256].
Definition hash_int (i : Z) : Z := hash_bytes (int_bytes i).

(** ** Bucket counts *)

Definition turn_off_least_1bit (x : Z) : Z := Z.land x (u32 (x - 1)).
Definition is_power_of_2 (x : Z) : bool := negb (x =? 0) && (turn_off_least_1bit x =? 0).

Definition BEST_ELEMS_PER_BUCKET : Z := 2.

(** [while (!is_power_of_2 (n)) n = turn_off_least_1bit (n)]: every round makes [n]
    smaller, so [n] rounds are enough. *)
Fixpoint power_loop (fuel : nat) (n : Z) : outcome Z :=
  match fuel with
  | O => Fail FFuel
  | S fuel => if is_power_of_2 n then Ok n else power_loop fuel (turn_off_least_1bit n)
  end.

Section Table.
Variable hash_func : Z -> Z.
Variable less : Z -> Z -> bool.

Definition find_bucket (h : hash) (e : Z) : nat :=
  Z.to_nat (Z.land (hash_func e) (u32 (bucket_cnt h - 1))).

Definition get_bucket (h : hash) (i : nat) : outcome (list Z) :=
  match buckets h !! i with Some b => Ok b | None => Fail FMemory end.

Fixpoint find_loop (b : list Z) (e : Z) : option Z :=
  match b with
  | [] => None
  | hi :: b => if negb (less hi e) && negb (less e hi) then Some hi else find_loop b e
  end.

Definition find_elem (h : hash) (i : nat) (e : Z) : outcome (option Z) :=
  let* b := get_bucket h i in mret (find_loop b e).

(** [list_push_front] on a bucket. *)
Definition push_bucket (bs : list (list Z)) (i : nat) (e : Z) : outcome (list (list Z)) :=
  match bs !! i with Some b => Ok (<[i := e :: b]> bs) | None => Fail FMemory end.

Definition insert_elem (h : hash) (i : nat) (e : Z) : outcome hash :=
  let* bs := push_bucket (buckets h) i e in
  mret (Hash (u32 (elem_cnt h + 1)) (bucket_cnt h) bs).

(** [list_remove] takes a node out of the one list it is in. *)
Definition remove_elem (h : hash) (e : Z) : outcome hash :=
  if decide (e ∈ concat (buckets h)) then
    Ok (Hash (u32 (elem_cnt h - 1)) (bucket_cnt h) (filter (fun x => x <> e) <$> buckets h))
  else Fail FMemory.

(** Moving the old buckets' elements, front to back, into the new table [h]. *)
Fixpoint move_bucket (h : hash) (es : list Z) : outcome hash :=
  match es with
  | [] => Ok h
  | e :: es =>
    let* bs := push_bucket (buckets h) (find_bucket h e) e in
    move_bucket (Hash (elem_cnt h) (bucket_cnt h) bs) es
  end.
Fixpoint move_buckets (h : hash) (old : list (list Z)) : outcome hash :=
  match old with
  | [] => Ok h
  | b :: old => let* h := move_bucket h b in move_buckets h old
  end.

Definition rehash (h : hash) (mem : bool) : outcome hash :=
  let new_bucket_cnt := elem_cnt h / BEST_ELEMS_PER_BUCKET in
  let new_bucket_cnt := if new_bucket_cnt <? 4 then 4 else new_bucket_cnt in
  let* new_bucket_cnt := power_loop (S (Z.to_nat new_bucket_cnt)) new_bucket_cnt in
  if new_bucket_cnt =? bucket_cnt h then mret h else
  if mem then
    move_buckets (Hash (elem_cnt h) new_bucket_cnt (replicate (Z.to_nat new_bucket_cnt) [])) (buckets h)
  else mret h.

(** [hash_clear]; with a destructor, also the elements it is called on, in order. *)
Fixpoint clear_loop (n : nat) (bs : list (list Z)) (destructor : bool) : outcome (list (list Z) * list Z) :=
  match n, bs with
  | O, _ => Ok (bs, [])
  | S n, b :: bs =>
    let* r := clear_loop n bs destructor in
    mret ([] :: r.1, if destructor then b ++ r.2 else r.2)
  | S _, [] => Fail FMemory
  end.
Definition hash_clear (h : hash) (destructor : bool) : outcome (hash * list Z) :=
  let* r := clear_loop (Z.to_nat (bucket_cnt h)) (buckets h) destructor in
  mret (Hash 0 (bucket_cnt h) r.1, r.2).

(** [storage] is the block [malloc] returned for four buckets, with its old contents. *)
Definition hash_init (storage : option (list (list Z))) : outcome (option hash) :=
  match storage with
  | Some junk => let* r := hash_clear (Hash 0 4 junk) false in mret (Some r.1)
  | None => mret None
  end.

Definition hash_destroy (h : hash) (destructor : bool) : outcome (list Z) :=
  if destructor then let* r := hash_clear h true in mret r.2 else mret [].

Definition hash_insert (h : hash) (new : Z) (mem : bool) : outcome (option Z * hash) :=
  let bucket := find_bucket h new in
  let* old := find_elem h bucket new in
  let* h := match old with None => insert_elem h bucket new | Some _ => mret h end in
  let* h := rehash h mem in
  mret (old, h).

Definition hash_replace (h : hash) (new : Z) (mem : bool) : outcome (option Z * hash) :=
  let bucket := find_bucket h new in
  let* old := find_elem h bucket new in
  let* h := match old with Some o => remove_elem h o | None => mret h end in
  let* h := insert_elem h bucket new in
  let* h := rehash h mem in
  mret (old, h).

Definition hash_find (h : hash) (e : Z) : outcome (option Z) := find_elem h (find_bucket h e) e.

Definition hash_delete (h : hash) (e : Z) (mem : bool) : outcome (option Z * hash) :=
  let* found := find_elem h (find_bucket h e) e in
  match found with
  | Some f =>
    let* h := remove_elem h f in
    let* h := rehash h mem in
    mret (found, h)
  | None => mret (found, h)
  end.

(** [hash_apply]: the elements [action] is called on, in order; the action may not
    change the table. *)
Fixpoint apply_loop (n : nat) (bs : list (list Z)) : outcome (list Z) :=
  match n, bs with
  | O, _ => Ok []
  | S n, b :: bs => let* r := apply_loop n bs in mret (b ++ r)
  | S _, [] => Fail FMemory
  end.
Definition hash_apply (h : hash) : outcome (list Z) :=
  apply_loop (Z.to_nat (bucket_cnt h)) (buckets h).

(** An iterator is a bucket number and a position in that bucket's list: 0 is the
    list's head, [k] its [k]-th element, one past the last element its end;
    [None] stands for the null pointer after the last bucket. *)
Record hash_iterator := Iter { it_bucket : nat; it_pos : option nat }.

Definition hash_first : hash_iterator := Iter 0 (Some 0%nat).

Fixpoint next_loop (fuel : nat) (h : hash) (i : nat) (pos : nat) : outcome hash_iterator :=
  match fuel with
  | O => Fail FFuel
  | S fuel =>
    let* b := get_bucket h i in
    if (pos =? S (length b))%nat then
      if bucket_cnt h <=? Z.of_nat (S i) then mret (Iter (S i) None)
      else next_loop fuel h (S i) 1
    else mret (Iter i (Some pos))
  end.

Definition hash_cur (h : hash) (i : hash_iterator) : option Z :=
  match it_pos i with
  | Some (S k) => b ← buckets h !! it_bucket i; b !! k
  | _ => None
  end.

(** [list_next] asserts that it is not applied to the end of a list (or to a null
    pointer). *)
Definition hash_next (h : hash) (i : hash_iterator) : outcome (option Z * hash_iterator) :=
  match it_pos i with
  | None => Fail FAssert
  | Some pos =>
    let* b := get_bucket h (it_bucket i) in
    do* assert (pos <=? length b)%nat;
    let* i := next_loop (S (length (buckets h))) h (it_bucket i) (S pos) in
    mret (hash_cur h i, i)
  end.

Definition hash_size (h : hash) : Z := elem_cnt h.
Definition hash_empty (h : hash) : bool := elem_cnt h =? 0.

End Table.

(** ** Powers of two *)

Lemma turn_off_pow k : 0 <= k < 32 -> turn_off_least_1bit (2 ^ k) = 0.
Proof.
  intros Hk. unfold turn_off_least_1bit.
  assert (0 < 2 ^ k) by (apply Z.pow_pos_nonneg; lia).
  assert (2 ^ k < 2 ^ 32) by (apply Z.pow_lt_mono_r; lia).
  rewrite u32_small, land_low by solve_int. apply Z_mod_same_full.
Qed.

(** When [n] is not a power of two, the step keeps its highest bit. *)
Lemma turn_off_keeps n k :
  0 <= k -> 2 ^ k < n < 2 ^ (k + 1) -> n < 2 ^ 32 -> 2 ^ k <= turn_off_least_1bit n < n.
Proof.
  intros Hk Hn Hs. unfold turn_off_least_1bit. assert (0 < 2 ^ k) by (apply Z.pow_pos_nonneg; lia).
  rewrite u32_small by solve_int.
  assert (HB : forall m, 2 ^ k <= m < 2 ^ (k + 1) -> Z.testbit m k = true).
  { intros m Hm. replace k with (Z.log2 m) by (apply Z.log2_unique; lia). apply Z.bit_log2. lia. }
  assert (T : Z.testbit (Z.land n (n - 1)) k = true) by (rewrite Z.land_spec, !HB by lia; done).
  assert (L : Z.land n (n - 1) <= n - 1).
  { rewrite Z.land_comm. apply Z.ldiff_le; [lia|]. apply Z.bits_inj'. intros i Hi.
    rewrite Z.ldiff_spec, Z.land_spec, Z.bits_0. by destruct (Z.testbit (n - 1) i), (Z.testbit n i). }
  assert (0 <= Z.land n (n - 1)) by (apply Z.land_nonneg; lia). split; [|lia].
  destruct (Z.lt_ge_cases (Z.land n (n - 1)) (2 ^ k)) as [Hlt|]; [|done].
  rewrite <- (Z.mod_small _ _ (conj H0 Hlt)), Z.mod_pow2_bits_high in T by lia. done.
Qed.

Lemma power_loop_ok fuel : forall n k,
  0 <= k < 32 -> 2 ^ k <= n < 2 ^ (k + 1) -> n < 2 ^ 32 -> n < Z.of_nat fuel ->
  power_loop fuel n = Ok (2 ^ k).
Proof.
  induction fuel as [|fuel IH]; intros n k Hk Hn Hs Hf; [assert (0 < 2 ^ k) by (apply Z.pow_pos_nonneg; lia); lia|].
  cbn [power_loop]. unfold is_power_of_2. assert (0 < 2 ^ k) by (apply Z.pow_pos_nonneg; lia).
  rewrite (proj2 (Z.eqb_neq n 0)) by lia. cbn [negb andb].
  destruct (Z.eq_dec n (2 ^ k)) as [->|Hne]; [by rewrite turn_off_pow by lia|].
  pose proof (turn_off_keeps n k). rewrite (proj2 (Z.eqb_neq _ 0)) by lia. apply IH; lia.
Qed.

(** ** Buckets as one collection *)

Section Spec.
Context (hash_func : Z -> Z) (less : Z -> Z -> bool) (key : Z -> Z).
Hypothesis key_equal : forall a b, negb (less a b) && negb (less b a) = bool_decide (key a = key b).
Hypothesis hash_key : forall a b, key a = key b -> hash_func a = hash_func b.

Definition elems (h : hash) : list Z := concat (buckets h).
Definition keyed (es : list Z) : gmap Z Z := list_to_map ((fun e => (key e, e)) <$> es).

(** The finite map a table stands for. *)
Definition to_map (h : hash) : gmap Z Z := keyed (elems h).

(** The buckets have the right number and hold their elements in the right place. *)
Record placed (h : hash) : Prop := {
  placed_pow : exists k, 2 <= k < 32 /\ bucket_cnt h = 2 ^ k;
  placed_len : Z.of_nat (length (buckets h)) = bucket_cnt h;
  placed_at : forall i b e, buckets h !! i = Some b -> e ∈ b -> find_bucket hash_func h e = i
}.

Record wf (h : hash) : Prop := {
  wf_placed : placed h;
  wf_cnt : elem_cnt h = Z.of_nat (length (elems h));
  wf_small : elem_cnt h < 2 ^ 32;
  wf_keys : NoDup (key <$> elems h)
}.

Lemma find_bucket_mod h k e :
  bucket_cnt h = 2 ^ k -> 2 <= k < 32 -> find_bucket hash_func h e = Z.to_nat (hash_func e mod 2 ^ k).
Proof.
  intros E Hk. unfold find_bucket. rewrite E.
  assert (0 < 2 ^ k) by (apply Z.pow_pos_nonneg; lia).
  assert (2 ^ k < 2 ^ 32) by (apply Z.pow_lt_mono_r; lia).
  by rewrite u32_small, land_low by solve_int.
Qed.

Lemma find_bucket_in h e : placed h -> exists b, buckets h !! find_bucket hash_func h e = Some b.
Proof.
  intros [(k & Hk & E) PL _]. apply lookup_lt_is_Some_2. rewrite (find_bucket_mod h k) by done.
  pose proof (Z.mod_pos_bound (hash_func e) (2 ^ k)). assert (0 < 2 ^ k) by (apply Z.pow_pos_nonneg; lia). lia.
Qed.

Lemma find_bucket_key h a b : key a = key b -> find_bucket hash_func h a = find_bucket hash_func h b.
Proof. intros E. unfold find_bucket. by rewrite (hash_key _ _ E). Qed.

Lemma concat_push (bs : list (list Z)) i b e :
  bs !! i = Some b -> concat (<[i := e :: b]> bs) ≡ₚ e :: concat bs.
Proof.
  intros E. rewrite insert_take_drop by (by eapply lookup_lt_Some).
  rewrite <- (take_drop_middle bs i b E) at 3. rewrite !concat_app. cbn.
  symmetry. apply Permutation_middle.
Qed.

Lemma elem_of_concat (bs : list (list Z)) e : e ∈ concat bs <-> exists i b, bs !! i = Some b /\ e ∈ b.
Proof.
  induction bs as [|b bs IH]; cbn.
  - split; [by intros ?%elem_of_nil|]. by intros (i & b & ? & _).
  - rewrite elem_of_app, IH. split.
    + intros [H|(i & c & H1 & H2)]; [by exists 0%nat, b|by exists (S i), c].
    + intros ([|i] & c & H1 & H2); [left; by simplify_eq/=|right; eauto].
Qed.

Lemma concat_filter (bs : list (list Z)) e :
  concat (filter (fun x => x <> e) <$> bs) = filter (fun x => x <> e) (concat bs).
Proof. induction bs as [|b bs IH]; [done|]. cbn. by rewrite filter_app, IH. Qed.

Lemma filter_out (l : list Z) e : NoDup l -> e ∈ l -> l ≡ₚ e :: filter (fun x => x <> e) l.
Proof.
  induction l as [|x l IH]; intros HN He; [by apply elem_of_nil in He|].
  apply NoDup_cons in HN as [Hx HN]. rewrite filter_cons. destruct (decide (x = e)) as [->|Hne].
  - rewrite decide_False by auto. f_equiv.
    assert (Hf : filter (fun x => x <> e) l = l); [|by rewrite Hf].
    clear IH HN He. induction l as [|y l IH]; [done|].
    rewrite filter_cons, decide_True by set_solver. f_equal. set_solver.
  - rewrite decide_True by done. rewrite perm_swap, <- IH; [done|done|set_solver].
Qed.

(** ** Keyed lists *)

Lemma keyed_lookup l k e : NoDup (key <$> l) -> keyed l !! k = Some e <-> e ∈ l /\ key e = k.
Proof.
  intros HN. unfold keyed. rewrite <- elem_of_list_to_map.
  - rewrite list_elem_of_fmap. split; [by intros (x & [= -> ->] & Hx)|]. intros [He <-]. eauto.
  - by rewrite <- list_fmap_compose.
Qed.

Lemma keyed_perm l l' : NoDup (key <$> l) -> l ≡ₚ l' -> keyed l = keyed l'.
Proof.
  intros HN HP. unfold keyed. apply list_to_map_proper; [by rewrite <- list_fmap_compose|]. by rewrite HP.
Qed.

Lemma keyed_cons e l : keyed (e :: l) = <[key e := e]> (keyed l).
Proof. done. Qed.

Lemma find_loop_keyed b e : find_loop less b e = keyed b !! key e.
Proof.
  induction b as [|x b IH]; [done|]. cbn [find_loop]. rewrite keyed_cons, key_equal, lookup_insert, IH.
  case_bool_decide; case_decide; done.
Qed.

Lemma NoDup_bucket h i b : wf h -> buckets h !! i = Some b -> NoDup (key <$> b).
Proof.
  intros W E. pose proof (wf_keys _ W) as N. unfold elems in N.
  rewrite <- (take_drop_middle _ _ _ E), concat_app, fmap_app in N. cbn in N. rewrite fmap_app in N.
  apply NoDup_app in N as (_ & _ & N). by apply NoDup_app in N as (N & _).
Qed.

Lemma find_elem_ok h e :
  wf h -> find_elem less h (find_bucket hash_func h e) e = Ok (to_map h !! key e).
Proof.
  intros W. destruct (find_bucket_in h e (wf_placed _ W)) as [b Eb]. unfold find_elem, get_bucket.
  rewrite Eb. cbn [mbind outcome_bind]. unfold mret, outcome_ret. f_equal. rewrite find_loop_keyed.
  apply option_eq. intros x. unfold to_map. pose proof (NoDup_bucket _ _ _ W Eb).
  rewrite !keyed_lookup by (done || apply W). split; intros [Hx Hk]; (split; [|done]).
  - apply elem_of_concat. eauto.
  - apply elem_of_concat in Hx as (i & c & Ec & Hx).
    pose proof (placed_at _ (wf_placed _ W) _ _ _ Ec Hx) as Ei.
    rewrite (find_bucket_key h x e Hk) in Ei. subst i. by simplify_eq.
Qed.

Lemma push_placed h e bs :
  placed h -> push_bucket (buckets h) (find_bucket hash_func h e) e = Ok bs ->
  forall c, placed (Hash c (bucket_cnt h) bs) /\ concat bs ≡ₚ e :: elems h.
Proof.
  intros P E c. unfold push_bucket in E. destruct (find_bucket_in h e P) as [b Eb]. rewrite Eb in E.
  injection E as <-. destruct P as [P1 P2 P3]. split; [|by apply concat_push].
  split; cbn [bucket_cnt buckets]; [done|by rewrite length_insert|].
  intros i d x Ed Hx. rewrite list_lookup_insert in Ed. unfold find_bucket in *. cbn [bucket_cnt].
  case_decide as Hd; [|by eapply P3]. destruct Hd as [<- _]. injection Ed as <-.
  apply elem_of_cons in Hx as [->|Hx]; [done|by eapply P3].
Qed.

Lemma push_bucket_total h e :
  placed h -> exists bs, push_bucket (buckets h) (find_bucket hash_func h e) e = Ok bs.
Proof. intros P. unfold push_bucket. destruct (find_bucket_in h e P) as [b ->]. eauto. Qed.

Lemma insert_elem_ok h e :
  wf h -> to_map h !! key e = None -> elem_cnt h + 1 < 2 ^ 32 ->
  exists h', insert_elem h (find_bucket hash_func h e) e = Ok h' /\ wf h' /\ elems h' ≡ₚ e :: elems h.
Proof.
  intros W HN HS. pose proof W as [WP WC WS WK]. destruct (push_bucket_total h e WP) as [bs E].
  unfold insert_elem. rewrite E. cbn [mbind outcome_bind].
  destruct (push_placed h e bs WP E (u32 (elem_cnt h + 1))) as [P' HP].
  eexists. split; [done|]. split; [|done].
  assert (0 <= elem_cnt h) by lia. rewrite u32_small in * by solve_int.
  split; cbn [elem_cnt]; [done| |done|].
  - unfold elems. cbn [buckets]. rewrite HP. cbn. fold (elems h). lia.
  - unfold elems. cbn [buckets]. rewrite HP. cbn. constructor; [|done].
    intros Hin. apply list_elem_of_fmap in Hin as (x & Ek & Hx).
    assert (HL : to_map h !! key e = Some x) by (by apply keyed_lookup).
    by rewrite HL in HN.
Qed.

Lemma remove_elem_ok h e :
  wf h -> e ∈ elems h ->
  exists h', remove_elem h e = Ok h' /\ wf h' /\ elems h ≡ₚ e :: elems h' /\ bucket_cnt h' = bucket_cnt h.
Proof.
  intros W He. destruct W as [WP WC WS WK]. unfold remove_elem. rewrite decide_True by done.
  assert (HP : elems h ≡ₚ e :: concat (filter (fun x => x <> e) <$> buckets h)).
  { rewrite concat_filter. apply filter_out; [|done]. by eapply NoDup_fmap_1. }
  eexists. split; [done|]. split; [|done]. assert (Hl := Permutation_length HP). cbn in Hl.
  assert (Hf : u32 (elem_cnt h - 1) = elem_cnt h - 1) by (apply u32_small; solve_int). rewrite Hf.
  split; cbn [elem_cnt]; [|unfold elems; cbn [buckets]; lia|lia|].
  - destruct WP as [P1 P2 P3]. split; cbn [bucket_cnt buckets]; [done|by rewrite length_fmap|].
    intros i d x Ed Hx. rewrite list_lookup_fmap in Ed. destruct (buckets h !! i) as [b|] eqn:Eb; [|done].
    injection Ed as <-. apply list_elem_of_filter in Hx as [_ Hx]. unfold find_bucket in *. cbn [bucket_cnt].
    by eapply P3.
  - unfold elems. cbn [buckets]. rewrite HP in WK. cbn in WK. by apply NoDup_cons in WK as [_ WK].
Qed.

(** ** Reorganisation *)

Lemma move_bucket_ok es : forall h,
  placed h -> exists h', move_bucket hash_func h es = Ok h' /\ placed h' /\ elem_cnt h' = elem_cnt h /\
    elems h' ≡ₚ es ++ elems h /\ bucket_cnt h' = bucket_cnt h.
Proof.
  induction es as [|e es IH]; intros h P; cbn [move_bucket]; [by exists h|].
  destruct (push_bucket_total h e P) as [bs E]. rewrite E. cbn [mbind outcome_bind].
  destruct (push_placed h e bs P E (elem_cnt h)) as [P1 HP].
  destruct (IH _ P1) as (h' & E' & P' & C' & HE & HB). exists h'. split; [done|]. split; [done|]. split; [done|].
  split; [|done]. rewrite HE. unfold elems at 1. cbn [buckets]. rewrite HP. cbn. symmetry. apply Permutation_middle.
Qed.

Lemma move_buckets_ok old : forall h,
  placed h -> exists h', move_buckets hash_func h old = Ok h' /\ placed h' /\ elem_cnt h' = elem_cnt h /\
    elems h' ≡ₚ concat old ++ elems h /\ bucket_cnt h' = bucket_cnt h.
Proof.
  induction old as [|b old IH]; intros h P; cbn [move_buckets]; [by exists h|].
  destruct (move_bucket_ok b h P) as (h1 & E1 & P1 & C1 & HE1 & HB1). rewrite E1. cbn [mbind outcome_bind].
  destruct (IH h1 P1) as (h' & E' & P' & C' & HE & HB). exists h'. split; [done|]. split; [done|].
  split; [by rewrite C'|]. split; [|by rewrite HB]. rewrite HE, HE1. cbn. rewrite <- app_assoc.
  rewrite !app_assoc. f_equiv. apply Permutation_app_comm.
Qed.

Lemma concat_replicate_nil n : concat (replicate n (@nil Z)) = [].
Proof. by induction n. Qed.

(** The number of buckets the table should have. *)
Definition ideal (n : Z) : Z := 2 ^ Z.log2 (Z.max 4 (n / 2)).

Lemma ideal_pow n : 0 <= n < 2 ^ 32 -> exists k, 2 <= k < 32 /\ ideal n = 2 ^ k.
Proof.
  intros Hn. exists (Z.log2 (Z.max 4 (n / 2))). split; [|done].
  assert (n / 2 < 2 ^ 31) by (apply Z.div_lt_upper_bound; lia). split.
  - change 2 with (Z.log2 4). apply Z.log2_le_mono. lia.
  - assert (Z.log2 (Z.max 4 (n / 2)) < 31); [|lia]. apply Z.log2_lt_pow2; lia.
Qed.

Lemma rehash_ok h mem :
  wf h -> exists h', rehash hash_func h mem = Ok h' /\ wf h' /\ elems h' ≡ₚ elems h /\
    (bucket_cnt h' = if mem then ideal (elem_cnt h) else bucket_cnt h).
Proof.
  intros [WP WC WS WK]. unfold rehash, BEST_ELEMS_PER_BUCKET.
  assert (Hn : 0 <= elem_cnt h < 2 ^ 32) by lia. assert (0 <= elem_cnt h / 2) by (apply Z.div_pos; lia).
  replace (if elem_cnt h / 2 <? 4 then 4 else elem_cnt h / 2) with (Z.max 4 (elem_cnt h / 2))
    by (destruct (Z.ltb_spec (elem_cnt h / 2) 4); lia).
  assert (HL : power_loop (S (Z.to_nat (Z.max 4 (elem_cnt h / 2)))) (Z.max 4 (elem_cnt h / 2)) = Ok (ideal (elem_cnt h))).
  { assert (elem_cnt h / 2 < 2 ^ 31) by (apply Z.div_lt_upper_bound; lia).
    pose proof (Z.log2_spec (Z.max 4 (elem_cnt h / 2)) ltac:(lia)).
    assert (Z.log2 (Z.max 4 (elem_cnt h / 2)) < 31) by (apply Z.log2_lt_pow2; lia).
    apply power_loop_ok; [split; [apply Z.log2_nonneg|lia]|by rewrite Z.add_1_r|lia|lia]. }
  rewrite HL. cbn [mbind outcome_bind]. destruct (Z.eqb_spec (ideal (elem_cnt h)) (bucket_cnt h)) as [Ei|Ei].
  { exists h. split; [done|]. split; [done|]. split; [done|]. by destruct mem. }
  destruct mem; [|by exists h]. destruct (ideal_pow _ Hn) as (k & Hk & Ek).
  destruct (move_buckets_ok (buckets h)
    (Hash (elem_cnt h) (ideal (elem_cnt h)) (replicate (Z.to_nat (ideal (elem_cnt h))) []))) as (h' & E & P & C & HE & HB).
  { split; cbn [bucket_cnt buckets]; [eauto| |].
    - rewrite length_replicate. assert (0 < 2 ^ k) by (apply Z.pow_pos_nonneg; lia). lia.
    - intros i b e [-> _]%lookup_replicate He. by apply elem_of_nil in He. }
  unfold elems at 2 in HE. cbn [buckets elem_cnt bucket_cnt] in *. rewrite concat_replicate_nil, app_nil_r in HE.
  exists h'. split; [done|]. split; [|done]. split; [done|rewrite C, WC; by rewrite HE|lia|].
  unfold elems at 1 in HE. unfold elems. by rewrite HE.
Qed.

Lemma to_map_cons h h' e : wf h' -> elems h' ≡ₚ e :: elems h -> to_map h' = <[key e := e]> (to_map h).
Proof. intros W HP. unfold to_map. rewrite <- keyed_cons. by apply keyed_perm; [apply W|]. Qed.

Lemma to_map_uncons h h' e :
  wf h -> elems h ≡ₚ e :: elems h' -> to_map h' = delete (key e) (to_map h).
Proof.
  intros W HP. rewrite (to_map_cons h' h e W HP), delete_insert_id; [done|].
  apply eq_None_not_Some. intros [x Hx]. pose proof (wf_keys _ W) as N. rewrite HP in N. cbn in N.
  apply NoDup_cons in N as [N1 N2]. apply keyed_lookup in Hx as [Hx Ek]; [|done].
  apply N1. rewrite <- Ek. by apply list_elem_of_fmap_2.
Qed.

Lemma to_map_perm h h' : wf h -> elems h' ≡ₚ elems h -> to_map h' = to_map h.
Proof. intros W HP. unfold to_map. symmetry. apply keyed_perm; [apply W|done]. Qed.

(** ** The operations on maps *)

Lemma hash_insert_ok h e mem :
  wf h -> elem_cnt h + 1 < 2 ^ 32 ->
  exists h', hash_insert hash_func less h e mem = Ok (to_map h !! key e, h') /\ wf h' /\
    to_map h' = match to_map h !! key e with None => <[key e := e]> (to_map h) | Some _ => to_map h end.
Proof.
  intros W HS. unfold hash_insert. rewrite find_elem_ok by done. cbn [mbind outcome_bind].
  destruct (to_map h !! key e) as [o|] eqn:El; unfold mret, outcome_ret; cbn [mbind outcome_bind].
  - destruct (rehash_ok h mem W) as (h' & E & W' & HP & _). exists h'. rewrite E. split; [done|].
    split; [done|]. by apply to_map_perm.
  - destruct (insert_elem_ok h e W El HS) as (h1 & E1 & W1 & HP1). rewrite E1. cbn [mbind outcome_bind].
    destruct (rehash_ok h1 mem W1) as (h' & E & W' & HP & _). exists h'. rewrite E. split; [done|].
    split; [done|]. rewrite (to_map_perm h1 h') by done. by apply to_map_cons.
Qed.

Lemma hash_delete_ok h e mem :
  wf h ->
  exists h', hash_delete hash_func less h e mem = Ok (to_map h !! key e, h') /\ wf h' /\
    to_map h' = delete (key e) (to_map h).
Proof.
  intros W. unfold hash_delete. rewrite find_elem_ok by done. cbn [mbind outcome_bind].
  destruct (to_map h !! key e) as [f|] eqn:El.
  - apply keyed_lookup in El as [Hf Ek]; [|apply W].
    destruct (remove_elem_ok h f W Hf) as (h1 & E1 & W1 & HP1 & _). rewrite E1. cbn [mbind outcome_bind].
    destruct (rehash_ok h1 mem W1) as (h' & E & W' & HP & _). exists h'. rewrite E. split; [done|].
    split; [done|]. rewrite (to_map_perm h1 h'), <- Ek by done. by apply to_map_uncons.
  - exists h. split; [done|]. split; [done|]. by rewrite delete_id.
Qed.

Lemma hash_replace_ok h e mem :
  wf h -> elem_cnt h + 1 < 2 ^ 32 ->
  exists h', hash_replace hash_func less h e mem = Ok (to_map h !! key e, h') /\ wf h' /\
    to_map h' = <[key e := e]> (to_map h).
Proof.
  intros W HS. unfold hash_replace. rewrite find_elem_ok by done. cbn [mbind outcome_bind].
  assert (H1 : exists h1, match to_map h !! key e with Some o => remove_elem h o | None => mret h end = Ok h1 /\
    wf h1 /\ to_map h1 = delete (key e) (to_map h) /\ elem_cnt h1 <= elem_cnt h /\ bucket_cnt h1 = bucket_cnt h).
  { destruct (to_map h !! key e) as [f|] eqn:El.
    - apply keyed_lookup in El as [Hf Ek]; [|apply W].
      destruct (remove_elem_ok h f W Hf) as (h1 & E1 & W1 & HP1 & HB). exists h1. split_and!; try done.
      + rewrite <- Ek. by apply to_map_uncons.
      + rewrite (wf_cnt _ W1), (wf_cnt _ W), HP1. cbn. lia.
    - exists h. by rewrite delete_id. }
  destruct H1 as (h1 & E1 & W1 & M1 & C1 & B1). rewrite E1. cbn [mbind outcome_bind].
  assert (Eb : find_bucket hash_func h e = find_bucket hash_func h1 e) by (unfold find_bucket; by rewrite B1).
  rewrite Eb. destruct (insert_elem_ok h1 e W1) as (h2 & E2 & W2 & HP2); [by rewrite M1, lookup_delete_eq|lia|].
  rewrite E2. cbn [mbind outcome_bind]. destruct (rehash_ok h2 mem W2) as (h' & E & W' & HP & _). exists h'.
  rewrite E. split; [done|]. split; [done|]. rewrite (to_map_perm h2 h'), (to_map_cons h1 h2 e) by done.
  by rewrite M1, insert_delete_eq.
Qed.

(** C12: a well-formed table implements a finite map: find, insert, replace and delete answer
    with the element stored under the key and update the map accordingly, keep the table
    well-formed, and never fault, whether or not memory for new buckets is available. *)
Theorem hash_ops_refine h e mem :
  wf h -> elem_cnt h + 1 < 2 ^ 32 ->
  hash_find hash_func less h e = Ok (to_map h !! key e) /\
  (exists h', hash_insert hash_func less h e mem = Ok (to_map h !! key e, h') /\ wf h' /\
    to_map h' = match to_map h !! key e with None => <[key e := e]> (to_map h) | Some _ => to_map h end) /\
  (exists h', hash_replace hash_func less h e mem = Ok (to_map h !! key e, h') /\ wf h' /\
    to_map h' = <[key e := e]> (to_map h)) /\
  (exists h', hash_delete hash_func less h e mem = Ok (to_map h !! key e, h') /\ wf h' /\
    to_map h' = delete (key e) (to_map h)).
Proof.
  intros W HS. split; [by apply find_elem_ok|].
  split; [by apply hash_insert_ok|]. split; [by apply hash_replace_ok|by apply hash_delete_ok].
Qed.

(** with memory available, reorganising leaves the power of two that fits the element
    count (at least four) as bucket count, and loses or duplicates no element. *)
Theorem rehash_correct h :
  wf h -> exists h', rehash hash_func h true = Ok h' /\ wf h' /\ elems h' ≡ₚ elems h /\
    4 <= bucket_cnt h' /\ (8 <= elem_cnt h -> 2 * bucket_cnt h' <= elem_cnt h < 4 * bucket_cnt h' + 2).
Proof.
  intros W. destruct (rehash_ok h true W) as (h' & E & W' & HP & HB). exists h'. split; [done|]. split; [done|].
  split; [done|]. cbn in HB. rewrite HB. unfold ideal.
  pose proof (Z.log2_spec (Z.max 4 (elem_cnt h / 2)) ltac:(lia)) as [L1 L2].
  rewrite Z.pow_succ_r in L2 by apply Z.log2_nonneg. split.
  - change 4 with (2 ^ Z.log2 4) at 1. apply Z.pow_le_mono_r; [lia|]. apply Z.log2_le_mono. lia.
  - intros H8. pose proof (Z.div_le_lower_bound (elem_cnt h) 2 4). pose proof (Z.div_mod (elem_cnt h) 2).
    pose proof (Z.mod_pos_bound (elem_cnt h) 2). lia.
Qed.

End Spec.

(** ** Traversals *)

(** The iteration idiom: [hash_first], then [hash_next] until it returns null. *)
Fixpoint drain (fuel : nat) (h : hash) (i : hash_iterator) : outcome (list Z) :=
  match fuel with
  | O => Fail FFuel
  | S fuel =>
    let* r := hash_next h i in
    match r.1 with
    | None => mret []
    | Some e => let* es := drain fuel h r.2 in mret (e :: es)
    end
  end.

(** What is still to come after position [pos] of bucket [i]. *)
Definition rest (h : hash) (i pos : nat) : list Z :=
  drop pos (default [] (buckets h !! i)) ++ concat (drop (S i) (buckets h)).

Lemma rest_at h i pos b : buckets h !! i = Some b -> rest h i pos = drop pos b ++ concat (drop (S i) (buckets h)).
Proof. intros E. unfold rest. by rewrite E. Qed.

Lemma next_loop_ok fuel h : forall i pos b,
  Z.of_nat (length (buckets h)) = bucket_cnt h -> buckets h !! i = Some b -> (pos <= length b)%nat ->
  (length (buckets h) - i < fuel)%nat ->
  exists it, next_loop fuel h i (S pos) = Ok it /\
    match rest h i pos with
    | [] => it_pos it = None
    | x :: t => exists q c, it_pos it = Some (S q) /\ buckets h !! it_bucket it = Some c /\ (S q <= length c)%nat /\
        hash_cur h it = Some x /\ rest h (it_bucket it) (S q) = t
    end.
Proof.
  induction fuel as [|fuel IH]; intros i pos b HL Hb Hp Hf; [lia|]. cbn [next_loop]. unfold get_bucket.
  rewrite (rest_at h i pos b Hb), Hb. cbn [mbind outcome_bind]. destruct (Nat.eqb_spec (S pos) (S (length b))) as [E|E].
  - rewrite (drop_ge b) by lia. cbn [app]. pose proof (lookup_lt_Some _ _ _ Hb).
    destruct (Z.leb_spec (bucket_cnt h) (Z.of_nat (S i))) as [Hc|Hc].
    + eexists. split; [done|]. by rewrite drop_ge by lia.
    + destruct (lookup_lt_is_Some_2 (buckets h) (S i)) as [c Hc']; [lia|].
      rewrite (drop_S _ _ _ Hc'). cbn [concat].
      destruct (IH (S i) 0%nat c HL Hc') as (it & E' & HR); [lia..|]. exists it. split; [done|].
      by rewrite (rest_at h (S i) 0 c Hc') in HR.
  - destruct (lookup_lt_is_Some_2 b pos) as [x Hx]; [lia|]. eexists. split; [done|].
    rewrite (drop_S _ _ _ Hx). cbn [app]. exists pos, b. cbn [it_pos it_bucket].
    split_and!; [done|done|lia| |]; [unfold hash_cur; cbn; by rewrite Hb|by apply rest_at].
Qed.

Lemma drain_ok fuel h : forall i pos b,
  Z.of_nat (length (buckets h)) = bucket_cnt h -> buckets h !! i = Some b -> (pos <= length b)%nat ->
  (length (rest h i pos) < fuel)%nat -> drain fuel h (Iter i (Some pos)) = Ok (rest h i pos).
Proof.
  induction fuel as [|fuel IH]; intros i pos b HL Hb Hp Hf; [lia|]. cbn [drain hash_next it_pos it_bucket].
  unfold hash_next. cbn [it_pos it_bucket]. unfold get_bucket. rewrite Hb. cbn [mbind outcome_bind].
  rewrite (proj2 (Nat.leb_le _ _)) by done. cbn [assert mbind outcome_bind].
  destruct (next_loop_ok (S (length (buckets h))) h i pos b HL Hb Hp) as (it & E & HR); [lia|].
  rewrite E. unfold mret, outcome_ret. cbn [mbind outcome_bind fst snd]. destruct (rest h i pos) as [|x t].
  - unfold hash_cur. by rewrite HR.
  - destruct HR as (q & c & E1 & E2 & E3 & E4 & E5). rewrite E4. destruct it as [j o]. cbn [it_pos it_bucket] in *. subst o.
    rewrite (IH j (S q) c) by (done || (rewrite E5; cbn in Hf; lia)). by rewrite E5.
Qed.

Lemma apply_loop_ok bs : apply_loop (length bs) bs = Ok (concat bs).
Proof. induction bs as [|b bs IH]; [done|]. cbn. by rewrite IH. Qed.

Lemma clear_loop_ok bs d : clear_loop (length bs) bs d = Ok (replicate (length bs) [], if d then concat bs else []).
Proof. induction bs as [|b bs IH]; [by destruct d|]. cbn. rewrite IH. by destruct d. Qed.

(** an iterator and [hash_apply] visit the elements of a table once each, in the same
    order; clearing hands the same elements to the destructor and leaves an empty
    well-formed table; so does initialising one in fresh memory. *)
Theorem hash_traversals hash_func key h junk :
  wf hash_func key h -> length junk = 4%nat ->
  drain (S (length (elems h))) h hash_first = Ok (elems h) /\
  hash_apply h = Ok (elems h) /\
  (exists h', hash_clear h true = Ok (h', elems h) /\ wf hash_func key h' /\ to_map key h' = ∅) /\
  (exists h', hash_init (Some junk) = Ok (Some h') /\ wf hash_func key h' /\ to_map key h' = ∅).
Proof.
  intros [[(k & Hk & E) PL PA] WC WS WK] HJ.
  assert (HN : Z.to_nat (bucket_cnt h) = length (buckets h)) by lia.
  assert (0 < 2 ^ k) by (apply Z.pow_pos_nonneg; lia).
  assert (HE : forall c, (exists j, 2 <= j < 32 /\ c = 2 ^ j) ->
    wf hash_func key (Hash 0 c (replicate (Z.to_nat c) [])) /\
    to_map key (Hash 0 c (replicate (Z.to_nat c) [])) = ∅).
  { intros c (j & Hj & ->). assert (0 < 2 ^ j) by (apply Z.pow_pos_nonneg; lia).
    unfold to_map. split; [|unfold elems; cbn; by rewrite concat_replicate_nil].
    split; cbn [elem_cnt]; [split; cbn [bucket_cnt buckets]; [eauto|rewrite length_replicate; lia|]| |done|];
      try (unfold elems; cbn; rewrite concat_replicate_nil; done || constructor).
    intros i b e [-> _]%lookup_replicate He. by apply elem_of_nil in He. }
  split; [|split; [|split]].
  - destruct (lookup_lt_is_Some_2 (buckets h) 0) as [b Hb]; [lia|].
    assert (HR : rest h 0 0 = elems h).
    { unfold rest, elems. rewrite Hb. destruct (buckets h); by simplify_eq/=. }
    unfold hash_first. rewrite (drain_ok _ h 0 0 b), HR by (done || lia || (rewrite HR; lia)). done.
  - unfold hash_apply. rewrite HN. apply apply_loop_ok.
  - unfold hash_clear. rewrite HN, clear_loop_ok. cbn [mbind outcome_bind fst snd]. eexists. split; [done|].
    rewrite <- HN. apply HE. eauto.
  - unfold hash_init, hash_clear. cbn [bucket_cnt buckets]. change (Z.to_nat 4) with 4%nat. rewrite <- HJ.
    rewrite clear_loop_ok. cbn [mbind outcome_bind fst snd]. eexists. split; [done|]. rewrite HJ. apply (HE 4).
    exists 2. lia.
Qed.

(** ** A table of elements keyed by their last two digits *)

Definition demo_key (e : Z) : Z := e mod 100.
Definition demo_hash (e : Z) : Z := hash_int (demo_key e).
Definition demo_less (a b : Z) : bool := demo_key a <? demo_key b.

Fixpoint insert_all (h : hash) (es : list Z) : outcome hash :=
  match es with
  | [] => Ok h
  | e :: es => let* r := hash_insert demo_hash demo_less h e true in insert_all r.2 es
  end.
Definition demo_table : outcome hash :=
  let* h := hash_init (Some [[]; [9]; []; []]) in
  insert_all (default (Hash 0 0 []) h) [101; 202; 303; 404; 505; 606; 707; 808; 909; 110; 111; 112; 113; 114; 115; 116].

(** Sixteen elements: the table has grown to eight buckets. *)
Example demo_table_grew : (let* h := demo_table in mret (bucket_cnt h)) = Ok 8.
Proof. vm_compute. reflexivity. Qed.

Lemma demo_key_equal a b : negb (demo_less a b) && negb (demo_less b a) = bool_decide (demo_key a = demo_key b).
Proof.
  unfold demo_less. destruct (Z.ltb_spec (demo_key a) (demo_key b)), (Z.ltb_spec (demo_key b) (demo_key a));
    cbn; symmetry; (apply bool_decide_eq_true_2 || apply bool_decide_eq_false_2); lia.
Qed.
Lemma demo_hash_key a b : demo_key a = demo_key b -> demo_hash a = demo_hash b.
Proof. unfold demo_hash. by intros ->. Qed.

Definition small_table : hash := Hash 3 4 [[303]; []; [101]; [202]].
Lemma small_table_wf : wf demo_hash demo_key small_table.
Proof.
  split; [split; [exists 2; done|done|]|done|done|apply (bool_decide_unpack _); by vm_compute].
  intros i b e Hi He. do 4 (destruct i as [|i]; [injection Hi as <-; repeat (apply elem_of_cons in He as [->|He];
    [vm_compute; reflexivity|]); by apply elem_of_nil in He|]). done.
Qed.

Lemma hash_ops_refine_witness :
  hash_find demo_hash demo_less small_table 2 = Ok (Some 202) /\
  (exists h', hash_insert demo_hash demo_less small_table 2 true = Ok (Some 202, h') /\ wf demo_hash demo_key h' /\
    to_map demo_key h' = to_map demo_key small_table) /\
  (exists h', hash_replace demo_hash demo_less small_table 2 true = Ok (Some 202, h') /\ wf demo_hash demo_key h' /\
    to_map demo_key h' = <[2 := 2]> (to_map demo_key small_table)) /\
  (exists h', hash_delete demo_hash demo_less small_table 2 true = Ok (Some 202, h') /\ wf demo_hash demo_key h' /\
    to_map demo_key h' = delete 2 (to_map demo_key small_table)).
Proof.
  exact (hash_ops_refine demo_hash demo_less demo_key demo_key_equal demo_hash_key small_table 2 true
    small_table_wf eq_refl).
Defined.

End Hash.
