(* ===== verification/Mem.v ===== *)
(** * Bytes in memory

    The memory a C function reads and writes through pointers, as a finite map from
    addresses to bytes; an access to an address it does not hold is a fault.  Pointers are
    integers, and an object never wraps around the end of the address space. *)

From S2P Require Import Prelude.

Module Mem.

Notation mem := (gmap Z Z).

Definition load (m : mem) (a : Z) : outcome Z := match m !! a with Some x => Ok x | None => Fail FMemory end.
Definition get_byte (a : Z) : M mem Z := fun m => match load m a with Ok x => Ok (x, m) | Fail e => Fail e end.
(** Storing to an [unsigned char] or a [char]. *)
Definition store (a v : Z) : M mem unit := fun m => match m !! a with Some _ => Ok (tt, <[a := u8 v]> m) | None => Fail FMemory end.
(** A function that only reads memory. *)
Definition reading {A} (f : mem -> outcome A) : M mem A := fun m => match f m with Ok x => Ok (x, m) | Fail e => Fail e end.

(** Enough fuel for any loop that reads a new address in every round. *)
Definition fuel (m : mem) : nat := S (size m).

(** [l] is in memory at [p]. *)
Definition bytes_at (m : mem) (p : Z) (l : list Z) : Prop := forall i x, l !! i = Some x -> m !! (p + Z.of_nat i) = Some x.

(** The null-terminated string [s] is in memory at [p]. *)
Definition is_char (c : Z) : Prop := 0 < c < 2 ^ 8.
Definition cstr (m : mem) (p : Z) (s : list Z) : Prop := bytes_at m p (s ++ [0]) /\ Forall is_char s.

(** Memory with [l] written at [p]. *)
Fixpoint put (p : Z) (l : list Z) (m : mem) : mem := match l with [] => m | x :: l => <[p := x]> (put (p + 1) l m) end.

Lemma lookup_put p l m a : put p l m !! a = if decide (p <= a < p + Z.of_nat (length l)) then l !! Z.to_nat (a - p) else m !! a.
Proof.
  revert p. induction l as [|x l IH]; intros p; cbn [put length]; [by rewrite decide_False by lia|].
  destruct (decide (p = a)) as [->|Hn].
  - rewrite lookup_insert_eq, decide_True by lia. by rewrite Z.sub_diag.
  - rewrite lookup_insert_ne, IH by done. destruct (decide (p + 1 <= a < p + 1 + _)).
    + rewrite decide_True by lia. by replace (Z.to_nat (a - p)) with (S (Z.to_nat (a - (p + 1)))) by lia.
    + by rewrite decide_False by lia.
Qed.

Lemma bytes_at_nil m p : bytes_at m p [].
Proof. intros i x H. by rewrite lookup_nil in H. Qed.

Lemma bytes_at_cons m p x l : bytes_at m p (x :: l) <-> m !! p = Some x /\ bytes_at m (p + 1) l.
Proof.
  split.
  - intros H. split; [specialize (H 0%nat x eq_refl); by rewrite Z.add_0_r in H|].
    intros i y Hi. specialize (H (S i) y Hi). by replace (p + 1 + Z.of_nat i) with (p + Z.of_nat (S i)) by lia.
  - intros [H0 H] [|i] y Hi; cbn in Hi; [injection Hi as <-; by rewrite Z.add_0_r|].
    replace (p + Z.of_nat (S i)) with (p + 1 + Z.of_nat i) by lia. by apply H.
Qed.

Lemma bytes_at_app m p l k : bytes_at m p (l ++ k) <-> bytes_at m p l /\ bytes_at m (p + Z.of_nat (length l)) k.
Proof.
  revert p. induction l as [|x l IH]; intros p; cbn [app length].
  - rewrite Z.add_0_r. split; [intros; split; [apply bytes_at_nil|done]|by intros []].
  - rewrite !bytes_at_cons, IH. replace (p + Z.of_nat (S (length l))) with (p + 1 + Z.of_nat (length l)) by lia. tauto.
Qed.

Lemma bytes_at_put m p l : bytes_at (put p l m) p l.
Proof.
  intros i x H. pose proof (lookup_lt_Some _ _ _ H). rewrite lookup_put, decide_True by lia.
  by replace (Z.to_nat (p + Z.of_nat i - p)) with i by lia.
Qed.

(** Only the bytes of the object matter. *)
Lemma bytes_at_ext m m' p l : (forall a, p <= a < p + Z.of_nat (length l) -> m' !! a = m !! a) -> bytes_at m p l -> bytes_at m' p l.
Proof. intros H HB i x Hi. pose proof (lookup_lt_Some _ _ _ Hi). rewrite H by lia. by apply HB. Qed.

Lemma bytes_at_size m p l : bytes_at m p l -> (length l <= size m)%nat.
Proof.
  intros H. assert (HS : list_to_set (seqZ p (Z.of_nat (length l))) ⊆ dom m).
  { intros a. rewrite elem_of_list_to_set, elem_of_seqZ, elem_of_dom. intros Ha.
    destruct (lookup_lt_is_Some_2 l (Z.to_nat (a - p))) as [x Hx]; [lia|].
    exists x. rewrite <- (H _ _ Hx). f_equal. lia. }
  apply subseteq_size in HS. rewrite size_list_to_set, length_seqZ, size_dom in HS by apply NoDup_seqZ. lia.
Qed.

Lemma cstr_size m p s : cstr m p s -> (length s < size m)%nat.
Proof. intros [H _]. apply bytes_at_size in H. rewrite length_app in H. cbn in H. lia. Qed.

Lemma cstr_cons m p c s : cstr m p (c :: s) <-> m !! p = Some c /\ is_char c /\ cstr m (p + 1) s.
Proof. unfold cstr. cbn [app]. rewrite bytes_at_cons, Forall_cons. tauto. Qed.

Lemma cstr_nil m p : cstr m p [] <-> m !! p = Some 0.
Proof. unfold cstr. cbn [app]. rewrite bytes_at_cons. split; [tauto|]. intros. split; [split; [done|apply bytes_at_nil]|done]. Qed.

Lemma cstr_drop m p s k : (k <= length s)%nat -> cstr m p s -> cstr m (p + Z.of_nat k) (drop k s).
Proof.
  revert p s. induction k as [|k IH]; intros p s Hk H; [by rewrite Z.add_0_r, drop_0|].
  destruct s as [|c s]; [cbn in Hk; lia|]. apply cstr_cons in H as (_ & _ & H). cbn [drop length] in *.
  replace (p + Z.of_nat (S k)) with (p + 1 + Z.of_nat k) by lia. apply IH; [lia|done].
Qed.

Lemma cstr_ext m m' p s : (forall a, p <= a <= p + Z.of_nat (length s) -> m' !! a = m !! a) -> cstr m p s -> cstr m' p s.
Proof. intros H [HB HF]. split; [|done]. eapply bytes_at_ext; [|done]. rewrite length_app. cbn. intros a Ha. apply H. lia. Qed.

Lemma load_at m a x : m !! a = Some x -> load m a = Ok x.
Proof. intros H. unfold load. by rewrite H. Qed.

Lemma store_at m a x v : m !! a = Some x -> store a v m = Ok (tt, <[a := u8 v]> m).
Proof. intros H. unfold store. by rewrite H. Qed.

(** ** 32-bit words, little-endian *)

Definition word_bytes (w : Z) : list Z := [u8 w; u8 (w / 2 ^ 8); u8 (w / 2 ^ 16); u8 (w / 2 ^ 24)].
Definition load32 (m : mem) (a : Z) : outcome Z :=
  let* b0 := load m a in let* b1 := load m (a + 1) in let* b2 := load m (a + 2) in let* b3 := load m (a + 3) in
  mret (b0 + 2 ^ 8 * b1 + 2 ^ 16 * b2 + 2 ^ 24 * b3).
Definition store32 (a w : Z) : M mem unit :=
  do* store a w; do* store (a + 1) (w / 2 ^ 8); do* store (a + 2) (w / 2 ^ 16); store (a + 3) (w / 2 ^ 24).

(** The array of words [ws] is in memory at [p]. *)
Definition words_at (m : mem) (p : Z) (ws : list Z) : Prop := bytes_at m p (ws ≫= word_bytes).

(** The bytes from [p] up to [p + n] may be accessed. *)
Definition mapped (m : mem) (p n : Z) : Prop := forall a, p <= a < p + n -> is_Some (m !! a).

Lemma insert_mapped (m : mem) b y a : is_Some (m !! a) -> is_Some (<[b := y]> m !! a).
Proof. intros H. rewrite lookup_insert_is_Some'. by right. Qed.

Lemma put_mapped p l m a : is_Some (m !! a) -> is_Some (put p l m !! a).
Proof. revert p. induction l as [|x l IH]; intros p H; [done|]. apply insert_mapped. by apply IH. Qed.

Lemma put_insert p l m b y : ~ (p <= b < p + Z.of_nat (length l)) -> put p l (<[b := y]> m) = <[b := y]> (put p l m).
Proof.
  intros H. apply map_eq. intros a. rewrite lookup_put, !lookup_insert, lookup_put.
  destruct (decide (p <= a < _)), (decide (b = a)); (done || lia).
Qed.

Lemma lookup_put_ne p l m a : ~ (p <= a < p + Z.of_nat (length l)) -> put p l m !! a = m !! a.
Proof. intros H. by rewrite lookup_put, decide_False. Qed.

Lemma length_words ws : length (ws ≫= word_bytes) = (4 * length ws)%nat.
Proof. induction ws as [|w ws IH]; [done|]. rewrite bind_cons, length_app, IH. cbn. lia. Qed.

Lemma words_at_cons m p w ws : words_at m p (w :: ws) <-> words_at m p [w] /\ words_at m (p + 4) ws.
Proof. exact (bytes_at_app m p (word_bytes w) (ws ≫= word_bytes)). Qed.

Lemma words_at_app m p ws vs : words_at m p (ws ++ vs) <-> words_at m p ws /\ words_at m (p + 4 * Z.of_nat (length ws)) vs.
Proof.
  unfold words_at. rewrite bind_app, bytes_at_app, length_words.
  by replace (Z.of_nat (4 * length ws)) with (4 * Z.of_nat (length ws)) by lia.
Qed.

Lemma words_at_ext m m' p ws : (forall a, p <= a < p + 4 * Z.of_nat (length ws) -> m' !! a = m !! a) -> words_at m p ws -> words_at m' p ws.
Proof. intros H. apply bytes_at_ext. rewrite length_words. intros a Ha. apply H. lia. Qed.

Lemma word_split w : is_u32 w -> u8 w + 2 ^ 8 * u8 (w / 2 ^ 8) + 2 ^ 16 * u8 (w / 2 ^ 16) + 2 ^ 24 * u8 (w / 2 ^ 24) = w.
Proof.
  intros H. unfold u8. assert (E1 : w / 2 ^ 16 = w / 2 ^ 8 / 2 ^ 8) by (rewrite Z.div_div by lia; done).
  assert (E2 : w / 2 ^ 24 = w / 2 ^ 8 / 2 ^ 8 / 2 ^ 8) by (rewrite !Z.div_div by lia; done). rewrite E1, E2.
  set (x := w / 2 ^ 8). set (y := x / 2 ^ 8). set (z := y / 2 ^ 8).
  assert (Hz : z mod 2 ^ 8 = z).
  { apply Z.mod_small. unfold z, y, x. rewrite !Z.div_div by lia. split; [apply Z.div_pos; solve_int|]. apply Z.div_lt_upper_bound; solve_int. }
  rewrite Hz. pose proof (Z.div_mod w (2 ^ 8) ltac:(lia)) as D1. pose proof (Z.div_mod x (2 ^ 8) ltac:(lia)) as D2.
  pose proof (Z.div_mod y (2 ^ 8) ltac:(lia)) as D3. fold x in D1. fold y in D2. fold z in D3. clearbody z. lia.
Qed.

Lemma load32_at m a w : is_u32 w -> words_at m a [w] -> load32 m a = Ok w.
Proof.
  intros Hw H. unfold words_at, word_bytes in H. cbn [mbind list_bind app] in H. repeat setoid_rewrite bytes_at_cons in H.
  destruct H as (H0 & H1 & H2 & H3 & _). unfold load32. rewrite (load_at _ _ _ H0). cbn [mbind outcome_bind].
  rewrite (load_at _ _ _ H1). cbn [mbind outcome_bind]. replace (a + 1 + 1) with (a + 2) in * by lia. rewrite (load_at _ _ _ H2). cbn [mbind outcome_bind].
  replace (a + 2 + 1) with (a + 3) in * by lia. rewrite (load_at _ _ _ H3). cbn [mbind outcome_bind mret outcome_ret]. by rewrite word_split.
Qed.

Lemma store32_at m a w : mapped m a 4 -> store32 a w m = Ok (tt, put a (word_bytes w) m).
Proof.
  intros HM. unfold store32, mbind, M_bind.
  destruct (HM a) as [x0 E0], (HM (a + 1)) as [x1 E1], (HM (a + 2)) as [x2 E2], (HM (a + 3)) as [x3 E3]; try lia.
  rewrite (store_at _ _ _ _ E0). rewrite (store_at _ _ x1) by (rewrite lookup_insert_ne by lia; done).
  rewrite (store_at _ _ x2) by (rewrite !lookup_insert_ne by lia; done). rewrite (store_at _ _ x3) by (rewrite !lookup_insert_ne by lia; done).
  f_equal. f_equal. unfold word_bytes. cbn [put]. replace (a + 1 + 1) with (a + 2) by lia. replace (a + 2 + 1) with (a + 3) by lia.
  rewrite (insert_insert_ne _ (a + 3)), (insert_insert_ne _ (a + 3)), (insert_insert_ne _ (a + 3)) by lia.
  rewrite (insert_insert_ne _ (a + 2)), (insert_insert_ne _ (a + 2)), (insert_insert_ne _ (a + 1)) by lia.
  done.
Qed.

Lemma words_at_put m a w : words_at (put a (word_bytes w) m) a [w].
Proof. exact (bytes_at_put m a (word_bytes w)). Qed.

End Mem.
