(* ===== verification/Strings.v ===== *)
(** * Strings and blocks of memory (src/lib/string.c)

    Every function of string.c over the byte memory of Mem, with its assertions.  A
    function that only reads is a function of the memory; a null pointer is address 0.
    Loops that stop at a null byte have as fuel the number of bytes in memory, which they
    cannot use up: each round reads a new address.  [strtok_r]'s [save_ptr] is the variable
    it points to: its old value is an argument, its new value part of the result. *)

From S2P Require Import Prelude Mem.
Import Mem.

Module Strings.

(** ** Copying *)

Fixpoint copy_up (n : nat) (dst src : Z) : M mem unit :=
  match n with
  | O => mret tt
  | S n => let* c := get_byte src in do* store dst c; copy_up n (dst + 1) (src + 1)
  end.

(** Copies the [n] bytes below the two pointers, from the last to the first. *)
Fixpoint copy_down (n : nat) (dst src : Z) : M mem unit :=
  match n with
  | O => mret tt
  | S n => let* c := get_byte (src - 1) in do* store (dst - 1) c; copy_down n (dst - 1) (src - 1)
  end.

Definition memcpy (dst_ src_ size : Z) : M mem Z :=
  do* ASSERT (negb (dst_ =? 0) || (size =? 0));
  do* ASSERT (negb (src_ =? 0) || (size =? 0));
  do* copy_up (Z.to_nat size) dst_ src_;
  mret dst_.

Definition memmove (dst_ src_ size : Z) : M mem Z :=
  do* ASSERT (negb (dst_ =? 0) || (size =? 0));
  do* ASSERT (negb (src_ =? 0) || (size =? 0));
  if dst_ <? src_ then
    do* copy_up (Z.to_nat size) dst_ src_;
    mret (dst_ + size)
  else
    do* copy_down (Z.to_nat size) (dst_ + size) (src_ + size);
    mret (dst_ + size - size).

Fixpoint memset_loop (n : nat) (dst value : Z) : M mem unit :=
  match n with O => mret tt | S n => do* store dst value; memset_loop n (dst + 1) value end.
Definition memset (dst_ value size : Z) : M mem Z :=
  do* ASSERT (negb (dst_ =? 0) || (size =? 0));
  do* memset_loop (Z.to_nat size) dst_ value;
  mret dst_.

(** ** Comparing *)

Section Reading.
Context (m : mem).

Fixpoint memcmp_loop (n : nat) (a b : Z) : outcome Z :=
  match n with
  | O => mret 0
  | S n =>
    let* x := load m a in let* y := load m b in
    if negb (x =? y) then mret (if y <? x then 1 else -1) else memcmp_loop n (a + 1) (b + 1)
  end.
Definition memcmp (a_ b_ size : Z) : outcome Z :=
  do* assert (negb (a_ =? 0) || (size =? 0));
  do* assert (negb (b_ =? 0) || (size =? 0));
  memcmp_loop (Z.to_nat size) a_ b_.

Fixpoint strcmp_loop (n : nat) (a b : Z) : outcome (Z * Z) :=
  match n with
  | O => Fail FFuel
  | S n =>
    let* x := load m a in
    if x =? 0 then mret (a, b) else
    let* y := load m b in
    if x =? y then strcmp_loop n (a + 1) (b + 1) else mret (a, b)
  end.
Definition strcmp (a_ b_ : Z) : outcome Z :=
  do* assert (negb (a_ =? 0));
  do* assert (negb (b_ =? 0));
  let* ab := strcmp_loop (fuel m) a_ b_ in
  let* x := load m ab.1 in let* y := load m ab.2 in
  mret (if x <? y then -1 else if y <? x then 1 else 0).

(** ** Searching *)

Fixpoint memchr_loop (n : nat) (block ch : Z) : outcome Z :=
  match n with
  | O => mret 0
  | S n => let* x := load m block in if x =? ch then mret block else memchr_loop n (block + 1) ch
  end.
Definition memchr (block_ ch_ size : Z) : outcome Z :=
  do* assert (negb (block_ =? 0) || (size =? 0));
  memchr_loop (Z.to_nat size) block_ (u8 ch_).

Fixpoint strchr_loop (n : nat) (string c : Z) : outcome Z :=
  match n with
  | O => Fail FFuel
  | S n =>
    let* x := load m string in
    if x =? c then mret string else if x =? 0 then mret 0 else strchr_loop n (string + 1) c
  end.
Definition strchr (string c_ : Z) : outcome Z :=
  do* assert (negb (string =? 0));
  strchr_loop (fuel m) string (u8 c_).

Fixpoint strcspn_loop (n : nat) (string stop length : Z) : outcome Z :=
  match n with
  | O => Fail FFuel
  | S n =>
    let* x := load m (string + length) in
    if x =? 0 then mret length else
    let* r := strchr stop x in
    if negb (r =? 0) then mret length else strcspn_loop n string stop (length + 1)
  end.
Definition strcspn (string stop : Z) : outcome Z := strcspn_loop (fuel m) string stop 0.

Fixpoint strspn_loop (n : nat) (string skip length : Z) : outcome Z :=
  match n with
  | O => Fail FFuel
  | S n =>
    let* x := load m (string + length) in
    if x =? 0 then mret length else
    let* r := strchr skip x in
    if r =? 0 then mret length else strspn_loop n string skip (length + 1)
  end.
Definition strspn (string skip : Z) : outcome Z := strspn_loop (fuel m) string skip 0.

Fixpoint strpbrk_loop (n : nat) (string stop : Z) : outcome Z :=
  match n with
  | O => Fail FFuel
  | S n =>
    let* x := load m string in
    if x =? 0 then mret 0 else
    let* r := strchr stop x in
    if negb (r =? 0) then mret string else strpbrk_loop n (string + 1) stop
  end.
Definition strpbrk (string stop : Z) : outcome Z := strpbrk_loop (fuel m) string stop.

Fixpoint strrchr_loop (n : nat) (string c p : Z) : outcome Z :=
  match n with
  | O => Fail FFuel
  | S n =>
    let* x := load m string in
    if x =? 0 then mret p else strrchr_loop n (string + 1) c (if x =? c then string else p)
  end.
Definition strrchr (string c_ : Z) : outcome Z := strrchr_loop (fuel m) string (u8 c_) 0.

Fixpoint strlen_loop (n : nat) (p : Z) : outcome Z :=
  match n with
  | O => Fail FFuel
  | S n => let* x := load m p in if x =? 0 then mret p else strlen_loop n (p + 1)
  end.
Definition strlen (string : Z) : outcome Z :=
  do* assert (negb (string =? 0));
  let* p := strlen_loop (fuel m) string in
  mret (p - string).

(** The byte is read before the length is compared. *)
Fixpoint strnlen_loop (n : nat) (string maxlen length : Z) : outcome Z :=
  match n with
  | O => Fail FFuel
  | S n =>
    let* x := load m (string + length) in
    if negb (x =? 0) && (length <? maxlen) then strnlen_loop n string maxlen (length + 1) else mret length
  end.
Definition strnlen (string maxlen : Z) : outcome Z := strnlen_loop (fuel m) string maxlen 0.

Fixpoint strstr_loop (n : nat) (haystack needle needle_len i : Z) : outcome Z :=
  match n with
  | O => mret 0
  | S n =>
    let* r := memcmp (haystack + i) needle needle_len in
    if r =? 0 then mret (haystack + i) else strstr_loop n haystack needle needle_len (i + 1)
  end.
Definition strstr (haystack needle : Z) : outcome Z :=
  let* haystack_len := strlen haystack in
  let* needle_len := strlen needle in
  if needle_len <=? haystack_len then strstr_loop (Z.to_nat (haystack_len - needle_len + 1)) haystack needle needle_len 0
  else mret 0.

(** The two loops of [strtok_r].  The first stops with [None] at the end of the string. *)
Fixpoint skip_delims (n : nat) (s delimiters : Z) : outcome (Z * bool) :=
  match n with
  | O => Fail FFuel
  | S n =>
    let* x := load m s in
    let* r := strchr delimiters x in
    if negb (r =? 0) then if x =? 0 then mret (s, true) else skip_delims n (s + 1) delimiters
    else mret (s, false)
  end.
Fixpoint skip_token (n : nat) (s delimiters : Z) : outcome Z :=
  match n with
  | O => Fail FFuel
  | S n =>
    let* x := load m s in
    let* r := strchr delimiters x in
    if r =? 0 then skip_token n (s + 1) delimiters else mret s
  end.

End Reading.

Definition strtok_r (s delimiters save_ptr : Z) : M mem (Z * Z) :=
  do* ASSERT (negb (delimiters =? 0));
  let s := if s =? 0 then save_ptr else s in
  do* ASSERT (negb (s =? 0));
  let* r : Z * bool := reading (fun m => skip_delims m (fuel m) s delimiters) in
  if r.2 then mret (0, r.1) else
  let token := r.1 in
  let* s := reading (fun m => skip_token m (fuel m) token delimiters) in
  let* x := get_byte s in
  if negb (x =? 0) then do* store s 0; mret (token, s + 1)
  else mret (token, s).

(** ** Bounded copies *)

Definition strlcpy (dst src size : Z) : M mem Z :=
  do* ASSERT (negb (dst =? 0));
  do* ASSERT (negb (src =? 0));
  let* src_len := reading (fun m => strlen m src) in
  do* (if 0 <? size then
         let dst_len := size - 1 in
         let dst_len := if src_len <? dst_len then src_len else dst_len in
         let* _ : Z := memcpy dst src dst_len in
         store (dst + dst_len) 0
       else mret tt);
  mret src_len.

Definition strlcat (dst src size : Z) : M mem Z :=
  do* ASSERT (negb (dst =? 0));
  do* ASSERT (negb (src =? 0));
  let* src_len := reading (fun m => strlen m src) in
  let* dst_len := reading (fun m => strlen m dst) in
  do* (if (0 <? size) && (dst_len <? size) then
         let copy_cnt := size - dst_len - 1 in
         let copy_cnt := if src_len <? copy_cnt then src_len else copy_cnt in
         let* _ : Z := memcpy (dst + dst_len) src copy_cnt in
         store (dst + dst_len + copy_cnt) 0
       else mret tt);
  mret (src_len + dst_len).

(** ** Lemmas: copying *)

Lemma mapped_mono m m' p n p' n' : (forall a, is_Some (m !! a) -> is_Some (m' !! a)) -> p <= p' -> p' + n' <= p + n -> mapped m p n -> mapped m' p' n'.
Proof. intros H H1 H2 HM a Ha. apply H, HM. lia. Qed.

Lemma put_snoc p l x m : put p (l ++ [x]) m = put p l (<[p + Z.of_nat (length l) := x]> m).
Proof.
  revert p. induction l as [|y l IH]; intros p; cbn [put app length]; [by rewrite Z.add_0_r|].
  rewrite IH. by replace (p + 1 + Z.of_nat (length l)) with (p + Z.of_nat (S (length l))) by lia.
Qed.

Lemma copy_up_ok l : forall m dst src, bytes_at m src l -> Forall is_u8 l -> mapped m dst (Z.of_nat (length l)) ->
  ~ (src < dst < src + Z.of_nat (length l)) -> copy_up (length l) dst src m = Ok (tt, put dst l m).
Proof.
  induction l as [|x l IH]; intros m dst src HB HF HM HO; [done|]. cbn [length] in *.
  apply bytes_at_cons in HB as [H0 HB]. apply Forall_cons in HF as [Hx HF].
  cbn [copy_up put]. unfold mbind, M_bind, get_byte. rewrite (load_at _ _ _ H0). destruct (HM dst) as [y Hy]; [lia|].
  rewrite (store_at _ _ _ _ Hy), u8_small by done. rewrite IH.
  - by rewrite put_insert by lia.
  - eapply bytes_at_ext; [|done]. intros a Ha. apply lookup_insert_ne. lia.
  - done.
  - apply (mapped_mono m _ dst (Z.of_nat (S (length l)))); [intros; by apply insert_mapped|lia|lia|done].
  - lia.
Qed.

Lemma copy_down_ok l : forall m dst src, bytes_at m src l -> Forall is_u8 l -> mapped m dst (Z.of_nat (length l)) ->
  ~ (dst < src < dst + Z.of_nat (length l)) ->
  copy_down (length l) (dst + Z.of_nat (length l)) (src + Z.of_nat (length l)) m = Ok (tt, put dst l m).
Proof.
  induction l as [|x l IH] using rev_ind; intros m dst src HB HF HM HO; [done|]. rewrite length_app in *. cbn [length] in *.
  rewrite Nat.add_1_r in *. apply bytes_at_app in HB as [HB H0]. apply bytes_at_cons in H0 as [H0 _]. apply Forall_app in HF as [HF Hx].
  apply Forall_cons in Hx as [Hx _]. cbn [copy_down]. unfold mbind, M_bind, get_byte.
  replace (src + Z.of_nat (S (length l)) - 1) with (src + Z.of_nat (length l)) by lia.
  replace (dst + Z.of_nat (S (length l)) - 1) with (dst + Z.of_nat (length l)) by lia.
  rewrite (load_at _ _ _ H0). destruct (HM (dst + Z.of_nat (length l))) as [y Hy]; [lia|].
  rewrite (store_at _ _ _ _ Hy), u8_small by done. rewrite IH; [by rewrite put_snoc| |done| |lia].
  - eapply bytes_at_ext; [|done]. intros a Ha. apply lookup_insert_ne. lia.
  - apply (mapped_mono m _ dst (Z.of_nat (S (length l)))); [intros; by apply insert_mapped|lia|lia|done].
Qed.

Lemma memcpy_ok m dst src l : 0 < dst -> 0 < src -> bytes_at m src l -> Forall is_u8 l -> mapped m dst (Z.of_nat (length l)) ->
  ~ (src < dst < src + Z.of_nat (length l)) -> memcpy dst src (Z.of_nat (length l)) m = Ok (dst, put dst l m).
Proof.
  intros Hd Hs HB HF HM HO. unfold memcpy, mbind, M_bind, mret, M_ret. rewrite (proj2 (Z.eqb_neq dst 0)), (proj2 (Z.eqb_neq src 0)) by lia. cbn [negb orb ASSERT].
  unfold mret, M_ret. by rewrite Nat2Z.id, copy_up_ok by done.
Qed.

(** memmove, for blocks that may overlap in any way: afterwards the destination holds
    the bytes the source held before and no other byte has changed.  The pointer returned
    is the destination when it is at or above the source; when the destination is below
    the source it is the end of the destination. *)
Theorem memmove_correct m dst src l : 0 < dst -> 0 < src -> bytes_at m src l -> Forall is_u8 l -> mapped m dst (Z.of_nat (length l)) ->
  exists m', memmove dst src (Z.of_nat (length l)) m = Ok (if dst <? src then dst + Z.of_nat (length l) else dst, m') /\
    bytes_at m' dst l /\ forall a, ~ (dst <= a < dst + Z.of_nat (length l)) -> m' !! a = m !! a.
Proof.
  intros Hd Hs HB HF HM. exists (put dst l m). split; [|split; [apply bytes_at_put|intros a Ha; by rewrite lookup_put, decide_False]].
  unfold memmove, mbind, M_bind, mret, M_ret. rewrite (proj2 (Z.eqb_neq dst 0)), (proj2 (Z.eqb_neq src 0)) by lia. cbn [negb orb ASSERT].
  unfold mret, M_ret. rewrite Nat2Z.id. destruct (Z.ltb_spec dst src).
  - by rewrite copy_up_ok by (done || lia).
  - rewrite copy_down_ok by (done || lia). by replace (dst + Z.of_nat (length l) - Z.of_nat (length l)) with dst by lia.
Qed.

(** ** Lemmas: reading strings *)

Lemma strlen_loop_ok m s : forall n p, cstr m p s -> (length s < n)%nat -> strlen_loop m n p = Ok (p + Z.of_nat (length s)).
Proof.
  induction s as [|c s IH]; intros [|n] p HC Hn; cbn [length] in *; try lia; cbn [strlen_loop].
  - apply cstr_nil in HC. rewrite (load_at _ _ _ HC). cbn. f_equal. lia.
  - apply cstr_cons in HC as (H0 & Hc & HC). rewrite (load_at _ _ _ H0). cbn [mbind outcome_bind].
    rewrite (proj2 (Z.eqb_neq c 0)) by (unfold is_char in Hc; lia). rewrite IH by (done || lia). f_equal. lia.
Qed.

Lemma strlen_ok m p s : p <> 0 -> cstr m p s -> strlen m p = Ok (Z.of_nat (length s)).
Proof.
  intros Hp HC. pose proof (cstr_size _ _ _ HC). unfold strlen. rewrite (proj2 (Z.eqb_neq p 0)) by done. cbn [negb assert mbind outcome_bind].
  rewrite (strlen_loop_ok _ s) by (done || unfold fuel; lia). cbn. f_equal. lia.
Qed.

(** The place of the first [c] in [l]. *)
Fixpoint index (c : Z) (l : list Z) : option nat :=
  match l with [] => None | x :: l => if x =? c then Some 0%nat else S <$> index c l end.

Lemma index_elem c l : is_Some (index c l) <-> c ∈ l.
Proof.
  induction l as [|x l IH]; cbn [index]; [split; [by intros []|by intros ?%elem_of_nil]|]. rewrite elem_of_cons.
  destruct (Z.eqb_spec x c) as [->|]; [split; [by left|by eexists]|]. rewrite fmap_is_Some, IH. split; [by right|]. by intros [->|].
Qed.

Lemma strchr_loop_ok m c s : forall n p, cstr m p s -> (length s < n)%nat ->
  strchr_loop m n p c = Ok (match index c (s ++ [0]) with Some i => p + Z.of_nat i | None => 0 end).
Proof.
  induction s as [|x s IH]; intros [|n] p HC Hn; cbn [length] in *; try lia; cbn [strchr_loop app index].
  - apply cstr_nil in HC. rewrite (load_at _ _ _ HC). cbn [mbind outcome_bind].
    destruct (Z.eqb_spec 0 c); cbn; [f_equal; lia|done].
  - apply cstr_cons in HC as (H0 & Hc & HC). rewrite (load_at _ _ _ H0). cbn [mbind outcome_bind]. destruct (Z.eqb_spec x c); [cbn; f_equal; lia|].
    rewrite (proj2 (Z.eqb_neq x 0)) by (unfold is_char in Hc; lia). rewrite IH by (done || lia).
    destruct (index c (s ++ [0])); cbn [fmap option_fmap option_map]; f_equal; lia.
Qed.

Lemma strchr_ok m p c s : p <> 0 -> cstr m p s ->
  strchr m p c = Ok (match index (u8 c) (s ++ [0]) with Some i => p + Z.of_nat i | None => 0 end).
Proof.
  intros Hp HC. pose proof (cstr_size _ _ _ HC). unfold strchr. rewrite (proj2 (Z.eqb_neq p 0)) by done.
  cbn [negb assert mbind outcome_bind]. apply strchr_loop_ok; [done|]. unfold fuel. lia.
Qed.

(** What the callers of [strchr] use: whether the character is there. *)
Definition among (d : list Z) (c : Z) : bool := bool_decide (c ∈ 0 :: d).

Lemma strchr_test m p c s : 0 < p -> cstr m p s -> is_u8 c -> exists r, strchr m p c = Ok r /\ (r =? 0) = negb (among s c).
Proof.
  intros Hp HC Hc. rewrite (strchr_ok _ _ _ s) by (done || lia). rewrite u8_small by done. eexists. split; [done|].
  assert (E : c ∈ 0 :: s <-> is_Some (index c (s ++ [0]))) by (rewrite index_elem, elem_of_app, elem_of_cons, list_elem_of_singleton; tauto).
  unfold among. destruct (index c (s ++ [0])) as [i|].
  - rewrite bool_decide_eq_true_2 by (apply E; by eexists). apply Z.eqb_neq. lia.
  - rewrite bool_decide_eq_false_2; [done|]. intros [? [=]]%E.
Qed.

(** The length of the longest prefix whose characters satisfy [f]. *)
Fixpoint run (f : Z -> bool) (l : list Z) : nat := match l with [] => 0%nat | c :: l => if f c then S (run f l) else 0%nat end.

Lemma run_le f l : (run f l <= length l)%nat.
Proof. induction l as [|c l IH]; cbn; [lia|]. destruct (f c); lia. Qed.

Lemma run_stop f l c : l !! run f l = Some c -> f c = false.
Proof. induction l as [|x l IH]; cbn; [done|]. destruct (f x) eqn:E; cbn; [done|]. by intros [= <-]. Qed.

Section Sets.
Context (m : mem) (dp : Z) (d : list Z) (Hdp : 0 < dp) (HD : cstr m dp d).

(** A character read from a string, and whether it is in the set. *)
Lemma cstr_test p c s : cstr m p (c :: s) -> exists r, load m p = Ok c /\ (c =? 0) = false /\ strchr m dp c = Ok r /\ (r =? 0) = negb (among d c) /\ cstr m (p + 1) s.
Proof.
  intros (H0 & Hc & HC)%cstr_cons. destruct (strchr_test m dp c d Hdp HD) as (r & E & T); [unfold is_char in Hc; solve_int|].
  exists r. split; [by apply load_at|]. split; [apply Z.eqb_neq; unfold is_char in Hc; lia|]. done.
Qed.

Lemma strcspn_ok s : forall n p k, cstr m (p + k) s -> (length s < n)%nat ->
  strcspn_loop m n p dp k = Ok (k + Z.of_nat (run (fun c => negb (among d c)) s)).
Proof.
  induction s as [|c s IH]; intros [|n] p k HC Hn; cbn [length] in *; try lia; cbn [strcspn_loop run].
  - apply cstr_nil in HC. rewrite (load_at _ _ _ HC). cbn. f_equal. lia.
  - destruct (cstr_test _ _ _ HC) as (r & -> & E0 & HR & HT & HC'). cbn [mbind outcome_bind]. rewrite E0, HR. cbn [mbind outcome_bind].
    rewrite HT. destruct (among d c); cbn [negb]; [cbn; f_equal; lia|]. rewrite IH by ((by rewrite Z.add_assoc) || lia). f_equal. lia.
Qed.

Lemma strspn_ok s : forall n p k, cstr m (p + k) s -> (length s < n)%nat ->
  strspn_loop m n p dp k = Ok (k + Z.of_nat (run (among d) s)).
Proof.
  induction s as [|c s IH]; intros [|n] p k HC Hn; cbn [length] in *; try lia; cbn [strspn_loop run].
  - apply cstr_nil in HC. rewrite (load_at _ _ _ HC). cbn. f_equal. lia.
  - destruct (cstr_test _ _ _ HC) as (r & -> & E0 & HR & HT & HC'). cbn [mbind outcome_bind]. rewrite E0, HR. cbn [mbind outcome_bind].
    rewrite HT. destruct (among d c); cbn [negb]; [|cbn; f_equal; lia]. rewrite IH by ((by rewrite Z.add_assoc) || lia). f_equal. lia.
Qed.

Lemma skip_delims_ok s : forall n p, cstr m p s -> (length s < n)%nat ->
  skip_delims m n p dp = Ok (p + Z.of_nat (run (among d) s), bool_decide (run (among d) s = length s)).
Proof.
  induction s as [|c s IH]; intros [|n] p HC Hn; cbn [length] in *; try lia; cbn [skip_delims run].
  - apply cstr_nil in HC. rewrite (load_at _ _ _ HC). cbn [mbind outcome_bind].
    destruct (strchr_test m dp 0 d Hdp HD) as (r & -> & HT); [done|]. cbn [mbind outcome_bind]. rewrite HT.
    unfold among. rewrite bool_decide_eq_true_2 by apply list_elem_of_here. cbn. by rewrite Z.add_0_r.
  - destruct (cstr_test _ _ _ HC) as (r & -> & E0 & HR & HT & HC'). cbn [mbind outcome_bind]. rewrite HR. cbn [mbind outcome_bind].
    rewrite HT. destruct (among d c); cbn [negb].
    + rewrite E0, IH by (done || lia). f_equal. f_equal; [lia|]. apply bool_decide_ext. lia.
    + cbn. by rewrite Z.add_0_r.
Qed.

Lemma skip_token_ok s : forall n p, cstr m p s -> (length s < n)%nat ->
  skip_token m n p dp = Ok (p + Z.of_nat (run (fun c => negb (among d c)) s)).
Proof.
  induction s as [|c s IH]; intros [|n] p HC Hn; cbn [length] in *; try lia; cbn [skip_token run].
  - apply cstr_nil in HC. rewrite (load_at _ _ _ HC). cbn [mbind outcome_bind].
    destruct (strchr_test m dp 0 d Hdp HD) as (r & -> & HT); [done|]. cbn [mbind outcome_bind]. rewrite HT.
    unfold among. rewrite bool_decide_eq_true_2 by apply list_elem_of_here. cbn. by rewrite Z.add_0_r.
  - destruct (cstr_test _ _ _ HC) as (r & -> & E0 & HR & HT & HC'). cbn [mbind outcome_bind]. rewrite HR. cbn [mbind outcome_bind].
    rewrite HT. destruct (among d c); cbn [negb]; [cbn; f_equal; lia|]. rewrite IH by (done || lia). f_equal. lia.
Qed.

End Sets.

(** ** Tokens *)

(** The maximal nonempty runs of characters of [s] that are not in [d]; [cur] is the one
    being read. *)
Fixpoint words_from (d cur s : list Z) : list (list Z) :=
  match s with
  | [] => if cur is [] then [] else [cur]
  | c :: s => if among d c then (if cur is [] then words_from d [] s else cur :: words_from d [] s)
              else words_from d (cur ++ [c]) s
  end.
Definition words (d s : list Z) : list (list Z) := words_from d [] s.

Lemma words_skip d s : words d s = words d (drop (run (among d) s) s).
Proof. unfold words. induction s as [|c s IH]; [done|]. cbn [run words_from]. destruct (among d c) eqn:E; [done|]. cbn. by rewrite E. Qed.

Lemma words_all d s : run (among d) s = length s -> words d s = [].
Proof. intros H. rewrite words_skip, drop_ge by lia. done. Qed.

Lemma words_take d s : forall cur, let j := run (fun c => negb (among d c)) s in cur ++ take j s <> [] ->
  words_from d cur s = (cur ++ take j s) :: words d (drop (S j) s).
Proof.
  induction s as [|c s IH]; intros cur j Hj; cbn [words_from].
  - subst j. cbn in *. rewrite app_nil_r in *. by destruct cur.
  - subst j. cbn [run] in *. destruct (among d c) eqn:E; cbn [negb take drop] in *.
    + rewrite app_nil_r, drop_0 in *. by destruct cur.
    + rewrite IH by (by destruct cur). by rewrite <- app_assoc.
Qed.

(** One token: what is skipped, the token, and what follows its delimiter. *)
Lemma words_step d s : let i := run (among d) s in let t := drop i s in let j := run (fun c => negb (among d c)) t in
  i <> length s -> (0 < j)%nat /\ words d s = take j t :: words d (drop (S j) t).
Proof.
  intros i t j Hi. pose proof (run_le (among d) s) as Hl. fold i in Hl.
  destruct (lookup_lt_is_Some_2 s i) as [c Hc]; [lia|]. pose proof (run_stop _ _ _ Hc) as Hf.
  assert (Ht : t = c :: drop (S i) s) by (by apply drop_S).
  assert (Hj : (0 < j)%nat) by (subst j; rewrite Ht; cbn; rewrite Hf; cbn; lia). split; [done|].
  rewrite words_skip. fold i t. unfold words. rewrite words_take; [done|]. fold t j. rewrite Ht. destruct j; [lia|]. done.
Qed.

Lemma cstr_take m p s j : (j <= length s)%nat -> Forall is_char s -> bytes_at m p (take j s) -> m !! (p + Z.of_nat j) = Some 0 -> cstr m p (take j s).
Proof.
  intros Hj HF HB H0. split; [|by apply Forall_take]. apply bytes_at_app. split; [done|].
  rewrite length_take, Nat.min_l by done. apply bytes_at_cons. split; [done|apply bytes_at_nil].
Qed.

(** One call of strtok_r, on the string it is given or, for a null pointer, on the
    rest it saved.  If the string holds no character outside the delimiters the answer is
    null and nothing is changed.  Otherwise the answer points to the first of the maximal
    runs of such characters, terminated in place, and what is saved is a string whose
    tokens are the remaining ones and which begins after that terminator (or is empty);
    only the byte after the token is written. *)
Lemma strtok_r_ok m s0 save p s dp d : (if s0 =? 0 then save else s0) = p -> 0 < p -> 0 < dp -> cstr m p s -> cstr m dp d ->
  exists tok save' m', strtok_r s0 dp save m = Ok ((tok, save'), m') /\ (forall a, is_Some (m !! a) -> is_Some (m' !! a)) /\
    match words d s with
    | [] => tok = 0 /\ m' = m
    | w :: ws => exists rest, p <= tok /\ tok + Z.of_nat (length w) <= p + Z.of_nat (length s) /\ cstr m' tok w /\ cstr m' save' rest /\ words d rest = ws /\
        save' + Z.of_nat (length rest) = p + Z.of_nat (length s) /\ (length rest < length s)%nat /\
        (tok + Z.of_nat (length w) < save' \/ rest = []) /\
        forall a, a <> tok + Z.of_nat (length w) \/ a < p \/ p + Z.of_nat (length s) <= a -> m' !! a = m !! a
    end.
Proof.
  intros Es Hp Hd HC HD. pose proof (cstr_size _ _ _ HC) as Hz. unfold strtok_r. rewrite Es.
  rewrite (proj2 (Z.eqb_neq dp 0)), (proj2 (Z.eqb_neq p 0)) by lia. cbn [negb ASSERT]. unfold mbind, M_bind, mret, M_ret, reading.
  rewrite (skip_delims_ok m dp d Hd HD s) by (done || unfold fuel; lia). cbn [fst snd].
  pose proof (run_le (among d) s) as Hl. set (i := run (among d) s) in *. destruct (bool_decide_reflect (i = length s)) as [Hi|Hi].
  { eexists _, _, m. split; [done|]. split; [done|]. by rewrite words_all. }
  destruct (words_step d s Hi) as [Hj ->]. fold i in Hj |- *. set (t := drop i s) in *.
  assert (Lt : length t = (length s - i)%nat) by apply length_drop.
  assert (HT : cstr m (p + Z.of_nat i) t) by (by apply cstr_drop).
  rewrite (skip_token_ok m dp d Hd HD t) by (done || unfold fuel; lia). unfold get_byte.
  pose proof (run_le (fun c => negb (among d c)) t) as Hjl. set (j := run _ t) in *. set (tok := p + Z.of_nat i) in *.
  assert (Lw : length (take j t) = j) by (rewrite length_take; lia).
  pose proof (cstr_drop _ _ _ _ Hjl HT) as HR. pose proof HT as [HB HF]. rewrite <- (take_drop j t), <- app_assoc in HB. apply bytes_at_app in HB as [HB _].
  destruct (drop j t) as [|c rest] eqn:Ed.
  - apply cstr_nil in HR. rewrite (load_at _ _ _ HR). cbn [Z.eqb negb]. assert (j = length t) by (apply (f_equal length) in Ed; rewrite length_drop in Ed; cbn in Ed; lia).
    eexists _, _, m. split; [done|]. split; [done|]. exists []. rewrite Lw. split; [lia|]. split; [lia|]. split; [by apply cstr_take|]. split; [by apply cstr_nil|].
    rewrite drop_ge by lia. cbn [length]. split; [done|]. split; [lia|]. split; [lia|]. split; [by right|done].
  - apply cstr_cons in HR as (HR0 & Hc & HR). rewrite (load_at _ _ _ HR0), (proj2 (Z.eqb_neq c 0)) by (unfold is_char in Hc; lia).
    cbn [negb]. rewrite (store_at _ _ _ _ HR0). eexists _, _, _. split; [done|]. split; [intros; by apply insert_mapped|]. exists rest. rewrite Lw.
    assert (Ln : length t = (j + S (length rest))%nat) by (apply (f_equal length) in Ed; rewrite length_drop in Ed; cbn in Ed; lia).
    assert (Ew : drop (S j) t = rest) by (rewrite <- Nat.add_1_r, <- drop_drop, Ed; done).
    split; [lia|]. split; [lia|]. split; [apply cstr_take; [done|done| |by rewrite lookup_insert_eq]|].
    { eapply bytes_at_ext; [|done]. rewrite Lw. intros a Ha. apply lookup_insert_ne. lia. }
    split; [eapply cstr_ext; [|done]; intros a Ha; apply lookup_insert_ne; lia|].
    rewrite Ew. split; [done|]. split; [lia|]. split; [lia|]. split; [left; lia|]. intros a Ha. apply lookup_insert_ne. lia.
Qed.

(** ** Comparisons and search *)

(** Lexicographic order of two sequences of bytes. *)
Fixpoint lex (l k : list Z) : Z :=
  match l, k with
  | [], [] => 0
  | [], _ :: _ => -1
  | _ :: _, [] => 1
  | x :: l, y :: k => if x =? y then lex l k else if y <? x then 1 else -1
  end.

Lemma lex_eq l k : lex l k = 0 <-> l = k.
Proof.
  revert k. induction l as [|x l IH]; intros [|y k]; cbn; try done. destruct (Z.eqb_spec x y) as [->|Hn].
  - rewrite IH. split; [by intros ->|by intros [= ->]].
  - destruct (y <? x); split; (done || congruence).
Qed.

Lemma memcmp_loop_ok m l : forall k a b, length k = length l -> bytes_at m a l -> bytes_at m b k -> memcmp_loop m (length l) a b = Ok (lex l k).
Proof.
  induction l as [|x l IH]; intros [|y k] a b HL HA HB; cbn in HL; try done. cbn [memcmp_loop length lex].
  apply bytes_at_cons in HA as [H1 HA]. apply bytes_at_cons in HB as [H2 HB].
  rewrite (load_at _ _ _ H1), (load_at _ _ _ H2). cbn [mbind outcome_bind]. destruct (Z.eqb_spec x y); cbn [negb]; [apply IH; [lia|done..]|done].
Qed.

Lemma strcmp_loop_ok m s : forall t n a b, cstr m a s -> cstr m b t -> (length s < n)%nat ->
  exists a' b' x y, strcmp_loop m n a b = Ok (a', b') /\ m !! a' = Some x /\ m !! b' = Some y /\
    (if x <? y then -1 else if y <? x then 1 else 0) = lex s t.
Proof.
  induction s as [|c s IH]; intros t [|n] a b HA HB Hn; cbn [length] in *; try lia; cbn [strcmp_loop].
  - apply cstr_nil in HA. rewrite (load_at _ _ _ HA). cbn [mbind outcome_bind Z.eqb]. destruct t as [|y t].
    + apply cstr_nil in HB. by exists a, b, 0, 0.
    + apply cstr_cons in HB as (H0 & Hy & _). exists a, b, 0, y. unfold is_char in Hy. by rewrite (proj2 (Z.ltb_lt 0 y)) by lia.
  - apply cstr_cons in HA as (H0 & Hc & HA). rewrite (load_at _ _ _ H0). cbn [mbind outcome_bind]. unfold is_char in Hc.
    rewrite (proj2 (Z.eqb_neq c 0)) by lia. destruct t as [|y t].
    + apply cstr_nil in HB. rewrite (load_at _ _ _ HB). cbn [mbind outcome_bind]. rewrite (proj2 (Z.eqb_neq c 0)) by lia.
      exists a, b, c, 0. rewrite (proj2 (Z.ltb_ge c 0)), (proj2 (Z.ltb_lt 0 c)) by lia. done.
    + apply cstr_cons in HB as (H1 & Hy & HB). rewrite (load_at _ _ _ H1). cbn [mbind outcome_bind lex].
      destruct (Z.eqb_spec c y) as [->|Hn']; [apply IH; [done|done|lia]|]. exists a, b, c, y. split; [done|]. split; [done|]. split; [done|].
      destruct (Z.ltb_spec c y), (Z.ltb_spec y c); (done || lia).
Qed.

Lemma strcmp_ok m a b s t : a <> 0 -> b <> 0 -> cstr m a s -> cstr m b t -> strcmp m a b = Ok (lex s t).
Proof.
  intros Ha Hb HA HB. pose proof (cstr_size _ _ _ HA). unfold strcmp. rewrite (proj2 (Z.eqb_neq a 0)), (proj2 (Z.eqb_neq b 0)) by done.
  cbn [negb assert mbind outcome_bind]. destruct (strcmp_loop_ok m s t (fuel m) a b HA HB) as (a' & b' & x & y & -> & E1 & E2 & <-); [unfold fuel; lia|].
  cbn [mbind outcome_bind fst snd]. rewrite (load_at _ _ _ E1), (load_at _ _ _ E2). done.
Qed.

Lemma strstr_loop_ok m h nd hay nee : 0 < h -> 0 < nd -> bytes_at m h hay -> bytes_at m nd nee -> forall n i,
  (i + n + length nee = S (length hay))%nat ->
  exists r, strstr_loop m n h nd (Z.of_nat (length nee)) (Z.of_nat i) = Ok r /\
    ((r = 0 /\ forall j, (i <= j < i + n)%nat -> take (length nee) (drop j hay) <> nee) \/
     exists j, r = h + Z.of_nat j /\ (i <= j < i + n)%nat /\ take (length nee) (drop j hay) = nee /\
       forall k, (i <= k < j)%nat -> take (length nee) (drop k hay) <> nee).
Proof.
  intros Hh Hnd HH HN. induction n as [|n IH]; intros i Hi; cbn [strstr_loop]; [exists 0; split; [done|left; split; [done|lia]]|].
  assert (HL : length (take (length nee) (drop i hay)) = length nee) by (rewrite length_take, length_drop; lia).
  assert (HB : bytes_at m (h + Z.of_nat i) (take (length nee) (drop i hay))).
  { rewrite <- (take_drop i hay) in HH. apply bytes_at_app in HH as [_ HH]. rewrite length_take, Nat.min_l in HH by lia.
    rewrite <- (take_drop (length nee) (drop i hay)) in HH. by apply bytes_at_app in HH as [HH _]. }
  unfold memcmp. rewrite (proj2 (Z.eqb_neq (h + _) 0)), (proj2 (Z.eqb_neq nd 0)) by lia. cbn [negb orb assert mbind outcome_bind].
  pose proof (memcmp_loop_ok m _ nee _ _ (eq_sym HL) HB HN) as HX. rewrite HL in HX. rewrite Nat2Z.id, HX. cbn [mbind outcome_bind].
  destruct (Z.eqb_spec (lex (take (length nee) (drop i hay)) nee) 0) as [E|E]; rewrite lex_eq in E.
  - eexists. split; [done|]. right. exists i. split; [done|]. split; [lia|]. split; [done|lia].
  - replace (Z.of_nat i + 1) with (Z.of_nat (S i)) by lia. destruct (IH (S i)) as (r & HR & H); [lia|]. exists r. split; [done|].
    assert (EXT : forall k, (i <= k)%nat -> k <> i -> (S i <= k)%nat) by lia. destruct H as [[-> H]|(j & -> & Hj & HE & H)].
    + left. split; [done|]. intros j Hj. destruct (decide (j = i)) as [->|]; [done|]. apply H. lia.
    + right. exists j. split; [done|]. split; [lia|]. split; [done|]. intros k Hk. destruct (decide (k = i)) as [->|]; [done|]. apply H. lia.
Qed.

(** strstr returns the first place at which the needle occurs in the haystack, and a
    null pointer exactly when it occurs nowhere. *)
Theorem strstr_correct m h nd hay nee : 0 < h -> 0 < nd -> cstr m h hay -> cstr m nd nee ->
  exists r, strstr m h nd = Ok r /\
    (r = 0 <-> ~ exists l k, hay = l ++ nee ++ k) /\
    (r <> 0 -> exists l k, hay = l ++ nee ++ k /\ r = h + Z.of_nat (length l) /\
      forall l' k', hay = l' ++ nee ++ k' -> (length l <= length l')%nat).
Proof.
  intros Hh Hnd HH HN. unfold strstr. rewrite (strlen_ok m h hay) by (done || lia). cbn [mbind outcome_bind]. rewrite (strlen_ok m nd nee) by (done || lia). cbn [mbind outcome_bind].
  assert (OCC : forall l k, hay = l ++ nee ++ k -> take (length nee) (drop (length l) hay) = nee) by (intros l k ->; by rewrite drop_app_length, take_app_length).
  assert (SPLIT : forall j, take (length nee) (drop j hay) = nee -> hay = take j hay ++ nee ++ drop (length nee) (drop j hay)).
  { intros j Hj. transitivity (take j hay ++ drop j hay); [by rewrite take_drop|]. f_equal.
    rewrite <- (take_drop (length nee) (drop j hay)) at 1. by rewrite Hj. }
  destruct (Z.leb_spec (Z.of_nat (length nee)) (Z.of_nat (length hay))) as [Hle|Hgt].
  2:{ exists 0. split; [done|]. split; [|done]. split; [|done]. intros _ (l & k & ->). rewrite !length_app in Hgt. lia. }
  destruct HH as [[HH _]%bytes_at_app _], HN as [[HN _]%bytes_at_app _].
  destruct (strstr_loop_ok m h nd hay nee Hh Hnd HH HN (Z.to_nat (Z.of_nat (length hay) - Z.of_nat (length nee) + 1)) 0) as (r & HR & H); [lia|].
  exists r. split; [exact HR|]. destruct H as [[-> H]|(j & -> & Hj & HE & H)].
  - split; [|done]. split; [|done]. intros _ (l & k & E). apply (H (length l)); [|by apply (OCC l k)].
    apply (f_equal length) in E. rewrite !length_app in E. lia.
  - assert (length (take j hay) = j) as Lj by (rewrite length_take; lia). split.
    + split; [lia|]. intros []. by exists (take j hay), (drop (length nee) (drop j hay)); apply SPLIT.
    + intros _. exists (take j hay), (drop (length nee) (drop j hay)). split; [by apply SPLIT|]. rewrite Lj. split; [done|].
      intros l' k' E. destruct (decide (j <= length l')%nat) as [|Hlt]; [done|]. exfalso. apply (H (length l')); [lia|]. by apply (OCC l' k').
Qed.

(** ** Bounded copies *)

Lemma cstr_bytes m p s j : cstr m p s -> (j <= length s)%nat -> bytes_at m p (take j s) /\ Forall is_u8 (take j s).
Proof.
  intros [HB HF] Hj. apply bytes_at_app in HB as [HB _]. rewrite <- (take_drop j s) in HB. apply bytes_at_app in HB as [HB _].
  split; [done|]. apply Forall_take. eapply Forall_impl; [done|]. unfold is_char. intros. solve_int.
Qed.

(** Copying [take j s] to [dst] and terminating it. *)
Lemma copy_terminate m dst src s j : 0 < dst -> 0 < src -> cstr m src s -> (j <= length s)%nat -> mapped m dst (Z.of_nat j + 1) ->
  (dst + Z.of_nat j < src \/ src + Z.of_nat (length s) < dst) ->
  exists m', (let* _ : Z := memcpy dst src (Z.of_nat j) in store (dst + Z.of_nat j) 0) m = Ok (tt, m') /\
    cstr m' dst (take j s) /\ (forall a, ~ (dst <= a <= dst + Z.of_nat j) -> m' !! a = m !! a) /\
    forall a, is_Some (m !! a) -> is_Some (m' !! a).
Proof.
  intros Hd Hs HC Hj HM HO. destruct (cstr_bytes m src s j HC Hj) as [HB HF].
  assert (L : length (take j s) = j) by (rewrite length_take; lia). unfold mbind, M_bind.
  pose proof (memcpy_ok m dst src (take j s) Hd Hs HB HF) as HX. rewrite L in HX.
  rewrite HX by (lia || (intros a Ha; apply HM; lia)).
  destruct (put_mapped dst (take j s) m (dst + Z.of_nat j)) as [y Hy]; [apply HM; lia|]. rewrite (store_at _ _ _ _ Hy).
  eexists. split; [done|]. split; [apply cstr_take; [done|apply HC| |by rewrite lookup_insert_eq]|split].
  - eapply bytes_at_ext; [|apply bytes_at_put]. rewrite L. intros a Ha. apply lookup_insert_ne. lia.
  - intros a Ha. rewrite lookup_insert_ne, lookup_put, L, decide_False by lia. done.
  - intros a Ha. apply insert_mapped. by apply put_mapped.
Qed.

Lemma strlcpy_ok m dst src s size : 0 < dst -> 0 < src -> 0 < size -> cstr m src s -> mapped m dst size ->
  (dst + size <= src \/ src + Z.of_nat (length s) < dst) ->
  exists m', strlcpy dst src size m = Ok (Z.of_nat (length s), m') /\ cstr m' dst (take (Z.to_nat (size - 1)) s) /\
    (forall a, ~ (dst <= a < dst + size) -> m' !! a = m !! a) /\ forall a, is_Some (m !! a) -> is_Some (m' !! a).
Proof.
  intros Hd Hs Hz HC HM HO. unfold strlcpy. rewrite (proj2 (Z.eqb_neq dst 0)), (proj2 (Z.eqb_neq src 0)) by lia. cbn [negb ASSERT].
  set (j := Nat.min (Z.to_nat (size - 1)) (length s)).
  assert (Ej : (if Z.of_nat (length s) <? size - 1 then Z.of_nat (length s) else size - 1) = Z.of_nat j) by (destruct (Z.ltb_spec (Z.of_nat (length s)) (size - 1)); lia).
  destruct (copy_terminate m dst src s j Hd Hs HC) as (m' & HR & HC' & HU & HI); [lia|intros a Ha; apply HM; lia|lia|].
  exists m'. unfold mbind, M_bind, reading, mret, M_ret in *. rewrite (strlen_ok _ _ s) by (done || lia).
  rewrite (proj2 (Z.ltb_lt 0 size)), Ej, HR by lia. split; [done|]. split; [|split; [intros a Ha; apply HU; lia|done]].
  replace (take (Z.to_nat (size - 1)) s) with (take j s); [done|]. unfold j. by rewrite <- take_take, (take_ge s (length s)) by lia.
Qed.

(** C24: strlcpy and strlcat with a buffer of [size] bytes, [size] positive: the buffer
    then holds the source, or the old string followed by the source, cut to [size - 1]
    characters and terminated; no byte outside the buffer is written; the answer is
    the length the result would have had without the limit.  When strlcat finds no
    terminator within the buffer's size it writes nothing, and so leaves the buffer without
    one, although its comment says that for a positive size a terminator is always written. *)
Theorem bounded_copies m dst src s t size : 0 < dst -> 0 < src -> 0 < size -> cstr m src s -> cstr m dst t -> mapped m dst size ->
  (dst + size <= src \/ src + Z.of_nat (length s) < dst) ->
  (exists m', strlcpy dst src size m = Ok (Z.of_nat (length s), m') /\ cstr m' dst (take (Z.to_nat (size - 1)) s) /\
    forall a, ~ (dst <= a < dst + size) -> m' !! a = m !! a) /\
  (exists m', strlcat dst src size m = Ok (Z.of_nat (length s + length t), m') /\
    (forall a, ~ (dst <= a < dst + size) -> m' !! a = m !! a) /\
    if Z.of_nat (length t) <? size then cstr m' dst (take (Z.to_nat (size - 1)) (t ++ s)) else m' = m).
Proof.
  intros Hd Hs Hz HC HT HM HO. split.
  { destruct (strlcpy_ok m dst src s size Hd Hs Hz HC HM HO) as (m' & H1 & H2 & H3 & _). by exists m'. }
  unfold strlcat. rewrite (proj2 (Z.eqb_neq dst 0)), (proj2 (Z.eqb_neq src 0)), (proj2 (Z.ltb_lt 0 size)) by lia. cbn [negb ASSERT andb].
  unfold mbind, M_bind, reading, mret, M_ret. rewrite (strlen_ok _ src s), (strlen_ok _ dst t) by (done || lia).
  replace (Z.of_nat (length s + length t)) with (Z.of_nat (length s) + Z.of_nat (length t)) by lia.
  destruct (Z.ltb_spec (Z.of_nat (length t)) size) as [Hlt|Hge]; [|by exists m].
  set (j := Nat.min (Z.to_nat (size - Z.of_nat (length t) - 1)) (length s)).
  assert (Ej : (if Z.of_nat (length s) <? size - Z.of_nat (length t) - 1 then Z.of_nat (length s) else size - Z.of_nat (length t) - 1) = Z.of_nat j)
    by (destruct (Z.ltb_spec (Z.of_nat (length s)) (size - Z.of_nat (length t) - 1)); lia).
  destruct (copy_terminate m (dst + Z.of_nat (length t)) src s j) as (m' & HR & HC' & HU & HI); [lia|lia|done|lia|intros a Ha; apply HM; lia|lia|].
  exists m'. unfold mbind, M_bind in HR. rewrite Ej, HR. split; [done|]. split; [intros a Ha; apply HU; lia|].
  replace (take (Z.to_nat (size - 1)) (t ++ s)) with (t ++ take j s).
  2:{ rewrite take_app, (take_ge t) by lia. f_equal. unfold j. rewrite <- take_take, (take_ge s (length s)) by lia. f_equal. lia. }
  destruct HC' as [HB HF]. split; [|apply Forall_app; split; [apply HT|done]]. rewrite <- app_assoc. apply bytes_at_app. split; [|done].
  destruct HT as [[HT _]%bytes_at_app _]. eapply bytes_at_ext; [|done]. intros a Ha. apply HU. lia.
Qed.

(** ** Examples *)

Lemma put_cstr m p s : Forall is_char s -> cstr (put p (s ++ [0]) m) p s.
Proof. intros H. split; [apply bytes_at_put|done]. Qed.

(** Two strings in one memory, apart from each other. *)
Lemma put_cstr_two m p q s t : Forall is_char s -> Forall is_char t -> p + Z.of_nat (length s) < q ->
  let m' := put p (s ++ [0]) (put q (t ++ [0]) m) in cstr m' p s /\ cstr m' q t.
Proof.
  intros Hs Ht Hpq. split; [by apply put_cstr|]. eapply cstr_ext; [|by apply put_cstr].
  intros a Ha. rewrite lookup_put, length_app, decide_False by (cbn; lia). done.
Qed.

(** "ababc" at 10 and "abc" at 40. *)
Definition demo_mem : mem := put 10 ([97; 98; 97; 98; 99] ++ [0]) (put 40 ([97; 98; 99] ++ [0]) (put 16 [7; 7] ∅)).

Lemma demo_strings : cstr demo_mem 10 [97; 98; 97; 98; 99] /\ cstr demo_mem 40 [97; 98; 99].
Proof. apply put_cstr_two; [by repeat constructor..|cbn; lia]. Qed.

Lemma bounded_copies_witness : exists m', strlcat 10 40 8 demo_mem = Ok (8, m') /\ cstr m' 10 [97; 98; 97; 98; 99; 97; 98].
Proof.
  destruct demo_strings as [H1 H2].
  destruct (bounded_copies demo_mem 10 40 [97; 98; 99] [97; 98; 97; 98; 99] 8) as [_ (m' & HR & _ & HC)]; [lia|lia|lia|done|done| |cbn; lia|by exists m'].
  intros a Ha. unfold demo_mem. destruct (decide (a < 16)).
  - rewrite lookup_put, decide_True by (cbn; lia). apply lookup_lt_is_Some_2. cbn. lia.
  - rewrite lookup_put, decide_False, lookup_put, decide_False, lookup_put, decide_True by (cbn; lia). apply lookup_lt_is_Some_2. cbn. lia.
Defined.

End Strings.
