(* ===== verification/Args.v ===== *)
(** * The arguments of a new process (argument_parse, argument_push in src/userprog/process.c)

    start_process splits the command line into an array of pointers and lays the arguments
    out on the user stack.  Both run over the byte memory of Mem and call the string
    functions of Strings.  [sep] is the address of the literal " "; the page that
    argument_push takes from palloc_get_page for its array of addresses is an argument. *)

From S2P Require Import Prelude Mem Strings.
Import Mem Strings.

Module Args.

Section Ops.
Context (sep : Z).

Fixpoint parse_loop (n : nat) (argv tok save_ptr argc : Z) : M mem Z :=
  match n with
  | O => fail FFuel
  | S n =>
    if negb (tok =? 0) then
      do* store32 (argv + 4 * argc) tok;
      let* r : Z * Z := strtok_r 0 sep save_ptr in
      parse_loop n argv r.1 r.2 (argc + 1)
    else
      do* store32 (argv + 4 * argc) 0;
      mret argc
  end.

Definition argument_parse (cmd_line argv : Z) : M mem Z :=
  if (cmd_line =? 0) || (argv =? 0) then mret 0 else
  let* r : Z * Z := strtok_r cmd_line sep 0 in
  let* n := gets fuel in
  parse_loop n argv r.1 r.2 0.

(** Step 1: the strings, from argument [n - 1] down to argument 0. *)
Fixpoint push_strings (n : nat) (sp argv argv_addresses : Z) : M mem Z :=
  match n with
  | O => mret sp
  | S i =>
    let* arg := reading (fun m => load32 m (argv + 4 * Z.of_nat i)) in
    let* len := reading (fun m => strlen m arg) in
    let str_len := len + 1 in
    let sp := sp - str_len in
    let* _ : Z := strlcpy sp arg str_len in
    do* store32 (argv_addresses + 4 * Z.of_nat i) sp;
    push_strings i sp argv argv_addresses
  end.

(** Step 2: down to a multiple of four, in at most three rounds. *)
Fixpoint word_align (n : nat) (sp : Z) : M mem Z :=
  match n with
  | O => fail FFuel
  | S n => if negb (sp mod 4 =? 0) then do* store (sp - 1) 0; word_align n (sp - 1) else mret sp
  end.

(** Step 3: the addresses, from entry [n - 1] down to entry 0. *)
Fixpoint push_addresses (n : nat) (sp argv_addresses : Z) : M mem Z :=
  match n with
  | O => mret sp
  | S i =>
    let* a := reading (fun m => load32 m (argv_addresses + 4 * Z.of_nat i)) in
    do* store32 (sp - 4) a;
    push_addresses i (sp - 4) argv_addresses
  end.

(** Returns the new value of [*esp]. *)
Definition argument_push (argv_addresses esp argc argv : Z) : M mem Z :=
  do* ASSERT (negb (argv_addresses =? 0));
  let* sp := push_strings (Z.to_nat argc) esp argv argv_addresses in
  let* sp := word_align 4 sp in
  do* store32 (argv_addresses + 4 * argc) 0;
  let* sp := push_addresses (S (Z.to_nat argc)) sp argv_addresses in
  let argv_actual_loc := sp in
  let sp := sp - 4 in
  do* store32 sp argv_actual_loc;
  let sp := sp - 4 in
  do* store32 sp argc;
  let sp := sp - 4 in
  do* store32 sp 0;
  mret sp.

(** The part of start_process that sets up the arguments. *)
Definition setup_args (file_name argv argv_addresses esp : Z) : M mem Z :=
  let* argc := argument_parse file_name argv in
  argument_push argv_addresses esp argc argv.

(** ** Splitting the command line *)

Definition space : list Z := [32].

(** Two areas of memory that do not overlap. *)
Definition apart (p n q k : Z) : Prop := p + n <= q \/ q + k <= p.

(** What [strtok_r] returned: a token and the rest of the line, which ends at [hi]. *)
Definition pending (m : mem) (lo hi tok save : Z) (ws : list (list Z)) : Prop :=
  match ws with
  | [] => tok = 0
  | w :: ws => exists rest, lo <= tok /\ lo <= save /\ tok + Z.of_nat (length w) <= hi /\ cstr m tok w /\ cstr m save rest /\
      words space rest = ws /\ save + Z.of_nat (length rest) = hi /\ (tok + Z.of_nat (length w) < save \/ rest = [])
  end.

Lemma strtok_pending m s0 save p s lo hi : 0 < sep -> (if s0 =? 0 then save else s0) = p -> 0 < lo -> lo <= p -> hi = p + Z.of_nat (length s) ->
  cstr m p s -> cstr m sep space ->
  exists tok save' m', strtok_r s0 sep save m = Ok ((tok, save'), m') /\ pending m' lo hi tok save' (words space s) /\
    (forall a, ~ (p <= a < hi /\ s <> []) -> m' !! a = m !! a) /\ (forall a, is_Some (m !! a) -> is_Some (m' !! a)) /\
    (words space s <> [] -> p <= save').
Proof.
  intros Hsep Es Hlo Hp -> HC HS. destruct (strtok_r_ok m s0 save p s sep space Es ltac:(lia) Hsep HC HS) as (tok & save' & m' & HT & HI & HX).
  exists tok, save', m'. split; [done|]. destruct (words space s) as [|w ws]; [by destruct HX as [-> ->]|].
  destruct HX as (rest & B1 & B2 & B3 & B4 & B5 & B6 & B7 & B8 & B9). assert (p <= save') by (destruct B8 as [| ->]; cbn [length] in *; lia).
  split; [exists rest; repeat (split; [done || lia|]); done|]. split; [|done]. intros a Ha. apply B9.
  destruct s; [cbn in B7; lia|]. destruct (decide (p <= a < p + Z.of_nat (length (z :: s)))); [|lia]. by destruct Ha.
Qed.

Lemma parse_loop_ok lo hi argv : 0 < sep -> 0 < lo -> forall n ws m tok save argc, pending m lo hi tok save ws -> cstr m sep space -> 0 <= argc ->
  (length ws < n)%nat -> mapped m (argv + 4 * argc) (4 * Z.of_nat (length ws) + 4) ->
  apart lo (hi - lo + 1) (argv + 4 * argc) (4 * Z.of_nat (length ws) + 4) -> apart lo (hi - lo + 1) sep 2 ->
  apart sep 2 (argv + 4 * argc) (4 * Z.of_nat (length ws) + 4) ->
  exists ps m', parse_loop n argv tok save argc m = Ok (argc + Z.of_nat (length ws), m') /\
    words_at m' (argv + 4 * argc) (ps ++ [0]) /\ Forall2 (cstr m') ps ws /\ Forall2 (fun p w => lo <= p /\ p + Z.of_nat (length w) <= hi) ps ws /\
    (forall a, ~ (save <= a < hi /\ ws <> []) -> ~ (argv + 4 * argc <= a < argv + 4 * argc + 4 * Z.of_nat (length ws) + 4) -> m' !! a = m !! a) /\
    forall a, is_Some (m !! a) -> is_Some (m' !! a).
Proof.
  intros Hsep Hlo0. induction n as [|n IH]; intros ws m tok save argc HP HS Ha Hn HM A1 A2 A3; [lia|]. cbn [parse_loop].
  unfold mbind, M_bind, mret, M_ret. destruct ws as [|w ws]; cbn [pending length] in *.
  { subst tok. cbn [Z.eqb negb]. rewrite store32_at by (intros a Haa; apply HM; lia). exists [], (put (argv + 4 * argc) (word_bytes 0) m).
    split; [f_equal; f_equal; lia|]. split; [apply words_at_put|]. split; [constructor|]. split; [constructor|].
    split; [intros a _ Haa; apply lookup_put_ne; cbn; lia|intros; by apply put_mapped]. }
  destruct HP as (rest & Hlo & Hsv & Htw & HW & HR & Hws & Hhi & Hord).
  rewrite (proj2 (Z.eqb_neq tok 0)) by lia. cbn [negb]. rewrite store32_at by (intros a Haa; apply HM; lia).
  set (m1 := put (argv + 4 * argc) (word_bytes tok) m). unfold apart in *.
  assert (K1 : forall a, a < argv + 4 * argc \/ argv + 4 * argc + 4 <= a -> m1 !! a = m !! a) by (intros a Haa; apply lookup_put_ne; cbn; lia).
  assert (W1 : cstr m1 tok w) by (eapply cstr_ext; [|exact HW]; intros a Haa; apply K1; lia).
  assert (R1 : cstr m1 save rest) by (eapply cstr_ext; [|exact HR]; intros a Haa; apply K1; lia).
  assert (S1 : cstr m1 sep space) by (eapply cstr_ext; [|exact HS]; cbn; intros a Haa; apply K1; lia).
  destruct (strtok_pending m1 0 save save rest lo hi Hsep eq_refl Hlo0 Hsv (eq_sym Hhi) R1 S1) as (tok2 & save2 & m2 & HT & HP2 & K2 & I2 & O2).
  rewrite Hws in HP2, O2. rewrite HT. cbn [fst snd].
  destruct (IH ws m2 tok2 save2 (argc + 1) HP2) as (ps & m3 & HR3 & HA3 & HF3 & HL3 & K3 & I3).
  { eapply cstr_ext; [|exact S1]. cbn. intros a Haa. apply K2. lia. }
  1-6: try lia. { intros a Haa. apply I2, put_mapped, HM. lia. }
  assert (K : forall a, (a < save \/ hi <= a) -> ~ (argv + 4 * (argc + 1) <= a < argv + 4 * (argc + 1) + 4 * Z.of_nat (length ws) + 4) -> m3 !! a = m1 !! a).
  { intros a H1 H2. rewrite K3, K2; [done|lia|intros [? Hne]; specialize (O2 Hne); lia|done]. }
  exists (tok :: ps), m3. split; [rewrite HR3; f_equal; f_equal; lia|]. split.
  { rewrite <- app_comm_cons, words_at_cons. replace (argv + 4 * argc + 4) with (argv + 4 * (argc + 1)) by lia. split; [|done].
    eapply words_at_ext; [|exact (words_at_put m (argv + 4 * argc) tok)]. cbn [length]. intros a Haa. apply K; lia. }
  split; [constructor; [|done]|].
  { destruct Hord as [Hord | ->].
    - eapply cstr_ext; [|exact W1]. intros a Haa. apply K; lia.
    - cbn in Hws. subst ws. cbn in *. eapply cstr_ext; [|exact W1]. intros a Haa. rewrite K3, K2; [done|by intros []|by intros []|lia]. }
  split; [constructor; [lia|done]|]. split; [|intros a Haa; by apply I3, I2, put_mapped].
  intros a H1 H2. assert (a < save \/ hi <= a). { destruct (decide (save <= a < hi)); [|lia]. by destruct H1. }
  rewrite K, K1; (done || lia).
Qed.

Lemma words_from_length d s : forall cur, (length (words_from d cur s) <= length s + (if cur is [] then 0 else 1))%nat.
Proof.
  induction s as [|c s IH]; intros cur; cbn [words_from length]; [destruct cur; cbn; lia|].
  destruct (among d c); [specialize (IH []); destruct cur; cbn [length] in *; lia|].
  specialize (IH (cur ++ [c])). destruct cur; cbn in *; lia.
Qed.

Lemma size_mono (m m' : mem) : (forall a, is_Some (m !! a) -> is_Some (m' !! a)) -> (size m <= size m')%nat.
Proof. intros H. rewrite <- !size_dom. apply subseteq_size. intros a. rewrite !elem_of_dom. apply H. Qed.

Lemma argument_parse_ok m p s argv : let n := Z.of_nat (length (words space s)) in
  0 < sep -> 0 < p -> 0 < argv -> cstr m p s -> cstr m sep space -> mapped m argv (4 * n + 4) ->
  apart p (Z.of_nat (length s) + 1) argv (4 * n + 4) -> apart p (Z.of_nat (length s) + 1) sep 2 -> apart sep 2 argv (4 * n + 4) ->
  exists ps m', argument_parse p argv m = Ok (n, m') /\ words_at m' argv (ps ++ [0]) /\ Forall2 (cstr m') ps (words space s) /\
    Forall2 (fun q w => p <= q /\ q + Z.of_nat (length w) <= p + Z.of_nat (length s)) ps (words space s) /\
    (forall a, ~ (p <= a < p + Z.of_nat (length s)) -> ~ (argv <= a < argv + 4 * n + 4) -> m' !! a = m !! a) /\
    forall a, is_Some (m !! a) -> is_Some (m' !! a).
Proof.
  intros n Hs Hp Ha HC HS HM A1 A2 A3. unfold argument_parse. rewrite (proj2 (Z.eqb_neq p 0)), (proj2 (Z.eqb_neq argv 0)) by lia.
  cbn [orb]. unfold mbind, M_bind, gets. unfold apart in A1, A2, A3.
  destruct (strtok_pending m p 0 p s p (p + Z.of_nat (length s)) Hs) as (tok & save & m1 & HT & HP & K1 & I1 & O1);
    [by rewrite (proj2 (Z.eqb_neq p 0)) by lia|done|lia|done|done|done|].
  rewrite HT. cbn [fst snd]. pose proof (cstr_size _ _ _ HC). pose proof (words_from_length space s []) as HL. fold (words space s) in HL. cbn in HL.
  pose proof (size_mono m m1 I1).
  destruct (parse_loop_ok p (p + Z.of_nat (length s)) argv Hs Hp (fuel m1) (words space s) m1 tok save 0 HP) as (ps & m2 & HR & HA & HF & HB & K2 & I2).
  { eapply cstr_ext; [|exact HS]. cbn. intros a Haa. apply K1. lia. }
  { lia. } { unfold fuel. lia. } { intros a Haa. apply I1, HM. lia. } 1-3: unfold apart; lia.
  rewrite Z.mul_0_r, Z.add_0_r in HA, K2. exists ps, m2. split; [by rewrite HR|]. do 3 (split; [done|]). split; [|intros; by apply I2, I1].
  intros a H1 H2. rewrite K2, K1; [done|lia| |lia]. intros [? Hne]. specialize (O1 Hne). lia.
Qed.

End Ops.

Lemma Forall2_both {A B} (R P Q : A -> B -> Prop) l k : (forall x y, R x y -> P x y -> Q x y) -> Forall2 R l k -> Forall2 P l k -> Forall2 Q l k.
Proof. intros H HR. induction HR; intros HP; [constructor|]. apply Forall2_cons in HP as []. constructor; auto. Qed.

(** ** Laying out the stack *)

Definition stack_len (ws : list (list Z)) : Z := foldr (fun w n => Z.of_nat (length w) + 1 + n) 0 ws.

Lemma stack_len_app ws vs : stack_len (ws ++ vs) = stack_len ws + stack_len vs.
Proof. unfold stack_len. induction ws as [|w ws IH]; cbn [app foldr]; [done|]. rewrite IH. lia. Qed.
Lemma stack_len_pos ws : 0 <= stack_len ws.
Proof. unfold stack_len. induction ws; cbn [foldr]; lia. Qed.

(** The memory outside the stack area and the array of addresses is kept. *)
Definition kept (m m' : mem) (sp0 sp page n : Z) : Prop :=
  (forall a, ~ (sp0 <= a < sp) -> ~ (page <= a < page + n) -> m' !! a = m !! a) /\ forall a, is_Some (m !! a) -> is_Some (m' !! a).

Lemma kept_trans m1 m2 m3 sp0 sp1 sp2 page n n' : sp0 <= sp1 <= sp2 -> n' <= n -> kept m1 m2 sp1 sp2 page n -> kept m2 m3 sp0 sp1 page n' -> kept m1 m3 sp0 sp2 page n.
Proof. intros H1 H2 [A1 A2] [B1 B2]. split; [|intros; by apply B2, A2]. intros a H3 H4. rewrite B1, A1; (done || lia). Qed.

Lemma push_strings_ok lo hi argv page ps : forall ws m sp, let sp0 := sp - stack_len ws in let n := 4 * Z.of_nat (length ps) in
  0 < lo -> hi < 2 ^ 32 -> 0 < sp0 -> sp <= 2 ^ 32 ->
  Forall2 (fun p w => lo <= p /\ p + Z.of_nat (length w) <= hi) ps ws -> Forall2 (cstr m) ps ws -> words_at m argv ps ->
  mapped m sp0 (stack_len ws) -> mapped m page n ->
  apart sp0 (stack_len ws) lo (hi - lo + 1) -> apart sp0 (stack_len ws) argv n -> apart sp0 (stack_len ws) page n ->
  apart page n lo (hi - lo + 1) -> apart page n argv n ->
  exists qs m', push_strings (length ps) sp argv page m = Ok (sp0, m') /\ words_at m' page qs /\ Forall2 (cstr m') qs ws /\
    length qs = length ps /\ Forall (fun q => sp0 <= q < sp) qs /\ Forall2 (fun q w => sp0 <= q /\ q + Z.of_nat (length w) < sp) qs ws /\ kept m m' sp0 sp page n.
Proof.
  induction ps as [|p ps IH] using rev_ind; intros ws m sp sp0 n Hlo Hhi Hs0 Hsp HB HC HA HM HP A1 A2 A3 A4 A5.
  { apply Forall2_nil_inv_l in HB. subst ws. exists [], m. subst sp0. cbn in *. rewrite Z.sub_0_r. split; [done|]. split; [apply bytes_at_nil|]. by repeat split. }
  apply Forall2_app_inv_l in HB as (ws1 & w1 & HB & HB1 & ->). apply Forall2_cons_inv_l in HB1 as (w & ? & [B1 B2] & HB1 & ->).
  apply Forall2_nil_inv_l in HB1. subst. apply Forall2_app_inv in HC as [HC HC1]; [|by apply (Forall2_length _ _ _ HB)].
  apply Forall2_cons in HC1 as [HC1 _]. apply words_at_app in HA as [HA HA1]. subst sp0 n.
  rewrite stack_len_app, length_app in *. change (stack_len [w]) with (Z.of_nat (length w) + 1 + 0) in *. cbn [length] in *. rewrite Nat.add_1_r in *. pose proof (stack_len_pos ws1).
  set (k := Z.of_nat (length w) + 1) in *. cbn [push_strings]. unfold mbind, M_bind, reading, mret, M_ret. unfold apart in *.
  rewrite (load32_at m (argv + 4 * Z.of_nat (length ps)) p) by (done || solve_int). rewrite (strlen_ok m p w) by (done || lia). fold k.
  destruct (strlcpy_ok m (sp - k) p w k) as (m1 & HR1 & HC2 & K1 & I1); [lia|lia|lia|done|intros a Ha; apply HM; lia|lia|].
  rewrite HR1. replace (take (Z.to_nat (k - 1)) w) with w in HC2 by (rewrite take_ge; [done|lia]).
  rewrite store32_at by (intros a Ha; apply I1, HP; lia). set (m2 := put _ _ m1).
  assert (K2 : kept m m2 (sp - k) sp (page + 4 * Z.of_nat (length ps)) 4).
  { split; [|intros a Ha; by apply put_mapped, I1]. intros a H1 H2. unfold m2. rewrite lookup_put_ne, K1; [done|lia|cbn; lia]. }
  destruct K2 as [K2 I2]. assert (STR : forall q v, lo <= q /\ q + Z.of_nat (length v) <= hi -> cstr m q v -> cstr m2 q v).
  { intros q v Hq. apply cstr_ext. intros a Ha. apply K2; lia. }
  destruct (IH ws1 m2 (sp - k)) as (qs & m3 & HR3 & HA3 & HC3 & HL3 & HB3 & HB4 & K3 & I3); unfold apart; try done; try lia.
  { by apply (Forall2_both _ _ _ _ _ STR). }
  { eapply words_at_ext; [|exact HA]. intros a Ha. apply K2; lia. }
  1-2: intros a Ha; apply I2; ((apply HM; lia) || (apply HP; lia)).
  exists (qs ++ [sp - k]), m3. replace (sp - (stack_len ws1 + (k + 0))) with (sp - k - stack_len ws1) by lia. split; [exact HR3|].
  assert (HW : words_at m3 (page + 4 * Z.of_nat (length ps)) [sp - k]).
  { eapply words_at_ext; [|exact (words_at_put m1 _ (sp - k))]. cbn [length]. intros a Ha. apply K3; lia. }
  split; [apply words_at_app; rewrite HL3; done|]. split; [|split; [rewrite length_app; cbn; lia|split; [|split]]].
  - apply Forall2_app; [done|]. constructor; [|constructor]. eapply cstr_ext; [|exact HC2]. intros a Ha. rewrite K3 by lia.
    unfold m2. apply lookup_put_ne. cbn. lia.
  - apply Forall_app. split; [|constructor; [lia|constructor]]. eapply Forall_impl; [exact HB3|]. cbn. lia.
  - apply Forall2_app; [|constructor; [lia|constructor]]. eapply Forall2_impl; [exact HB4|]. cbn. lia.
  - split; [|intros a Ha; by apply I3, I2]. intros a H1 H2. rewrite K3, K2; (done || lia).
Qed.


Lemma word_align_ok n : forall m sp, sp mod 4 < Z.of_nat n -> mapped m (sp - sp mod 4) (sp mod 4) ->
  exists m', word_align n sp m = Ok (sp - sp mod 4, m') /\ kept m m' (sp - sp mod 4) sp 0 0.
Proof.
  induction n as [|n IH]; intros m sp Hn HM; [pose proof (Z.mod_pos_bound sp 4); lia|]. cbn [word_align].
  destruct (Z.eqb_spec (sp mod 4) 0) as [E|E]; cbn [negb]; [exists m; rewrite E, Z.sub_0_r; by repeat split|].
  assert (E1 : (sp - 1) mod 4 = sp mod 4 - 1).
  { pose proof (Z.mod_pos_bound sp 4). symmetry. apply (Z.mod_unique _ _ (sp / 4)); [lia|]. pose proof (Z.div_mod sp 4). lia. }
  pose proof (Z.mod_pos_bound sp 4). unfold mbind, M_bind. destruct (HM (sp - 1)) as [x Hx]; [lia|]. rewrite (store_at _ _ _ _ Hx).
  assert (EQ : sp - 1 - (sp - 1) mod 4 = sp - sp mod 4) by lia.
  destruct (IH (<[sp - 1 := u8 0]> m) (sp - 1)) as (m' & HR & HK); [lia|intros a Ha; apply insert_mapped, HM; lia|].
  rewrite EQ in HR, HK. exists m'. split; [done|]. apply (kept_trans _ (<[sp - 1 := u8 0]> m) _ _ (sp - 1) _ _ _ 0); [lia|lia| |done].
  split; [intros a H1 _; apply lookup_insert_ne; lia|intros; by apply insert_mapped].
Qed.

Lemma push_addresses_ok page vs : forall m sp, let n := 4 * Z.of_nat (length vs) in words_at m page vs -> Forall is_u32 vs ->
  mapped m (sp - n) n -> apart (sp - n) n page n ->
  exists m', push_addresses (length vs) sp page m = Ok (sp - n, m') /\ words_at m' (sp - n) vs /\ kept m m' (sp - n) sp 0 0.
Proof.
  induction vs as [|v vs IH] using rev_ind; intros m sp n HW HU HM HA.
  { exists m. subst n. cbn. rewrite Z.sub_0_r. split; [done|]. split; [apply bytes_at_nil|]. by repeat split. }
  subst n. unfold apart in HA. rewrite length_app in *. cbn [length] in *. rewrite Nat.add_1_r in *. apply words_at_app in HW as [HW HV].
  apply Forall_app in HU as [HU HV']. apply Forall_cons in HV' as [Hv _].
  cbn [push_addresses]. unfold mbind, M_bind, reading. rewrite (load32_at m _ v) by done.
  rewrite store32_at by (intros a Ha; apply HM; lia). set (m1 := put (sp - 4) (word_bytes v) m).
  assert (K1 : kept m m1 (sp - 4) sp 0 0) by (split; [intros a H1 _; apply lookup_put_ne; cbn; lia|intros; by apply put_mapped]).
  destruct (IH m1 (sp - 4)) as (m2 & HR & HW2 & K2).
  { eapply words_at_ext; [|exact HW]. intros a Ha. apply K1; lia. } { done. } { intros a Ha. apply put_mapped, HM. lia. } { unfold apart. lia. }
  replace (sp - 4 * Z.of_nat (S (length vs))) with (sp - 4 - 4 * Z.of_nat (length vs)) by lia.
  exists m2. split; [done|]. split; [|by apply (kept_trans _ m1 _ _ (sp - 4) _ _ _ 0); [lia|lia| |]].
  apply words_at_app. split; [done|]. replace (sp - 4 - _ + _) with (sp - 4) by lia.
  eapply words_at_ext; [|exact (words_at_put m (sp - 4) v)]. cbn [length]. intros a Ha. apply K2; lia.
Qed.

(** The stack a process needs for its arguments, at most. *)
Definition stack_need (ws : list (list Z)) : Z := stack_len ws + 3 + 4 * (Z.of_nat (length ws) + 1) + 12.

(** The stack as the process finds it: a null return address, argc, argv, the array of
    pointers with its null entry, and above it, below [esp], the strings they point to. *)
Definition entry_stack (m : mem) (sp esp : Z) (ws : list (list Z)) : Prop :=
  sp mod 4 = 0 /\ load32 m sp = Ok 0 /\ load32 m (sp + 4) = Ok (Z.of_nat (length ws)) /\ load32 m (sp + 8) = Ok (sp + 12) /\
  exists qs, words_at m (sp + 12) (qs ++ [0]) /\
    Forall2 (fun q w => sp + 12 + 4 * (Z.of_nat (length ws) + 1) <= q /\ q + Z.of_nat (length w) < esp /\ cstr m q w) qs ws.

Lemma argument_push_ok lo hi argv page ps ws m esp : let n := 4 * Z.of_nat (length ws) + 4 in let base := esp - stack_need ws in
  0 < lo -> hi < 2 ^ 32 -> 0 < base -> esp <= 2 ^ 32 -> 0 < page ->
  Forall2 (fun p w => lo <= p /\ p + Z.of_nat (length w) <= hi) ps ws -> Forall2 (cstr m) ps ws -> words_at m argv ps ->
  mapped m base (stack_need ws) -> mapped m page n ->
  apart base (stack_need ws) lo (hi - lo + 1) -> apart base (stack_need ws) argv n -> apart base (stack_need ws) page n ->
  apart page n lo (hi - lo + 1) -> apart page n argv n ->
  exists sp m', argument_push page esp (Z.of_nat (length ws)) argv m = Ok (sp, m') /\ entry_stack m' sp esp ws /\ base <= sp <= esp /\
    kept m m' base esp page n.
Proof.
  intros n base Hlo Hhi Hb He Hpg HB HC HA HM HP A1 A2 A3 A4 A5. pose proof (stack_len_pos ws). pose proof (Forall2_length _ _ _ HB) as HL.
  subst n base. unfold stack_need, apart in *. unfold argument_push. rewrite (proj2 (Z.eqb_neq page 0)) by lia. cbn [negb ASSERT].
  unfold mbind, M_bind, mret, M_ret. rewrite Nat2Z.id, <- HL.
  destruct (push_strings_ok lo hi argv page ps ws m esp) as (qs & m1 & HR1 & HW1 & HC1 & HL1 & HQ1 & HQ2 & K1); unfold apart; try done; try lia.
  1-2: intros a Ha; ((apply HM; lia) || (apply HP; lia)).
  rewrite HR1. set (s1 := esp - stack_len ws) in *. pose proof (Z.mod_pos_bound s1 4).
  assert (I1 : forall a, is_Some (m !! a) -> is_Some (m1 !! a)) by apply K1.
  destruct (word_align_ok 4 m1 s1) as (m2 & HR2 & K2); [lia|intros a Ha; apply I1, HM; lia|]. rewrite HR2.
  set (s2 := s1 - s1 mod 4) in *. assert (D2 : s2 mod 4 = 0) by (unfold s2; rewrite Zminus_mod, Z.mod_mod, Z.sub_diag by lia; done).
  assert (I2 : forall a, is_Some (m !! a) -> is_Some (m2 !! a)) by (intros; by apply K2, I1).
  rewrite store32_at by (intros a Ha; apply I2, HP; lia). set (m3 := put _ _ m2).
  assert (K3 : forall a, ~ (page + 4 * Z.of_nat (length ps) <= a < page + 4 * Z.of_nat (length ps) + 4) -> m3 !! a = m2 !! a) by (intros; apply lookup_put_ne; cbn; lia).
  assert (W3 : words_at m3 page (qs ++ [0])).
  { apply words_at_app. rewrite HL1. split; [|apply words_at_put]. eapply words_at_ext; [|exact HW1].
    intros a Ha. rewrite K3 by lia. apply K2; lia. }
  assert (L4 : length (qs ++ [0]) = S (length ps)) by (rewrite length_app; cbn; lia). rewrite <- L4.
  destruct (push_addresses_ok page (qs ++ [0]) m3 s2 W3) as (m4 & HR4 & HW4 & K4).
  { apply Forall_app. split; [|by repeat constructor]. eapply Forall_impl; [exact HQ1|]. cbn. intros. solve_int. }
  { intros a Ha. apply put_mapped, I2, HM. lia. } { unfold apart. lia. }
  rewrite HR4. set (s4 := s2 - _) in *. rewrite L4 in *. assert (I4 : forall a, is_Some (m !! a) -> is_Some (m4 !! a)) by (intros; by apply K4, put_mapped, I2).
  rewrite store32_at by (intros a Ha; apply I4, HM; lia). set (m5 := put _ _ m4).
  rewrite store32_at by (intros a Ha; apply put_mapped, I4, HM; lia). set (m6 := put _ _ m5).
  rewrite store32_at by (intros a Ha; apply put_mapped, put_mapped, I4, HM; lia). set (m7 := put _ _ m6).
  assert (T7 : forall a, ~ (s4 - 12 <= a < s4) -> m7 !! a = m4 !! a) by (intros a Ha; unfold m7, m6, m5; rewrite !lookup_put_ne; [done|cbn; lia..]).
  eexists _, m7. split; [done|]. split; [|split; [lia|split]].
  - replace (s4 - 4 - 4 - 4) with (s4 - 12) by lia. split; [|split; [|split; [|split]]].
    + unfold s4. rewrite (Z.mul_comm 4). replace (s2 - _ - 12) with (s2 + (- Z.of_nat (S (length ps)) - 3) * 4) by lia. by rewrite Z.mod_add by lia.
    + apply load32_at; [done|]. replace (s4 - 12) with (s4 - 4 - 4 - 4) by lia. apply words_at_put.
    + rewrite <- HL. apply load32_at; [solve_int|]. replace (s4 - 12 + 4) with (s4 - 4 - 4) by lia.
      eapply words_at_ext; [|exact (words_at_put m5 _ _)]. cbn [length]. intros a Ha. unfold m7. apply lookup_put_ne. cbn. lia.
    + apply load32_at; [solve_int|]. replace (s4 - 12 + 8) with (s4 - 4) by lia. replace (s4 - 12 + 12) with s4 by lia.
      eapply words_at_ext; [|exact (words_at_put m4 _ _)]. cbn [length]. intros a Ha. unfold m7. rewrite lookup_put_ne by (cbn; lia).
      unfold m6. apply lookup_put_ne. cbn. lia.
    + exists qs. replace (s4 - 12 + 12) with s4 by lia. split; [eapply words_at_ext; [|exact HW4]; intros a Ha; apply T7; lia|].
      eapply Forall2_both; [|exact HQ2|exact HC1]. cbn. intros q w Hq Hs. split; [lia|]. split; [lia|]. revert Hs. apply cstr_ext. intros a Ha.
      rewrite T7 by lia. destruct K4 as [K4 _]. rewrite K4, K3 by lia. destruct K2 as [K2 _]. by rewrite K2 by lia.
  - intros a H1 H2. rewrite T7 by lia. destruct K4 as [K4 _]. rewrite K4, K3 by lia. destruct K2 as [K2 _]. rewrite K2 by lia. apply K1; lia.
  - intros a Ha. apply put_mapped, put_mapped, put_mapped. by apply I4.
Qed.

(** Where start_process's data lie: the separator, the command line, the two arrays and
    the part of the stack that is used do not overlap and are mapped. *)
Record layout (sep p argv page esp : Z) (s : list Z) (m : mem) : Prop := {
  l_n := 4 * Z.of_nat (length (words space s)) + 4;
  l_need := stack_need (words space s);
  l_sep : 0 < sep /\ cstr m sep space;
  l_line : 0 < p /\ p + Z.of_nat (length s) < 2 ^ 32 /\ cstr m p s;
  l_argv : 0 < argv /\ mapped m argv l_n;
  l_page : 0 < page /\ mapped m page l_n;
  l_stack : 0 < esp - l_need /\ esp <= 2 ^ 32 /\ mapped m (esp - l_need) l_need;
  l_apart : apart p (Z.of_nat (length s) + 1) argv l_n /\ apart p (Z.of_nat (length s) + 1) sep 2 /\ apart sep 2 argv l_n /\
    apart (esp - l_need) l_need p (Z.of_nat (length s) + 1) /\ apart (esp - l_need) l_need argv l_n /\
    apart (esp - l_need) l_need page l_n /\ apart page l_n p (Z.of_nat (length s) + 1) /\ apart page l_n argv l_n
}.

(** C25: The arguments of a new process.  For every command line and every layout in which
    there is room, argument_parse and argument_push terminate without a fault and leave a
    word-aligned stack pointer at which a null return address, the number of arguments
    and the address of the argument vector stand; the
    vector has one pointer per space-separated word of the command line, in order, ends
    with a null pointer, and each pointer refers to a null-terminated copy of its word
    that lies on the user stack, between the vector and the old stack pointer.
    Outside the stack area, the command line and the two arrays memory is unchanged. *)
Theorem setup_args_correct sep p argv page esp s m : layout sep p argv page esp s m ->
  exists sp m', setup_args sep p argv page esp m = Ok (sp, m') /\ entry_stack m' sp esp (words space s) /\
    esp - stack_need (words space s) <= sp <= esp /\
    forall a, ~ (esp - stack_need (words space s) <= a < esp) -> ~ (p <= a < p + Z.of_nat (length s)) ->
      ~ (argv <= a < argv + 4 * Z.of_nat (length (words space s)) + 4) -> ~ (page <= a < page + 4 * Z.of_nat (length (words space s)) + 4) ->
      m' !! a = m !! a.
Proof.
  intros [n need [S1 S2] (L1 & L2 & L3) [V1 V2] [G1 G2] (T1 & T2 & T3) (A1 & A2 & A3 & A4 & A5 & A6 & A7 & A8)]. subst n need.
  unfold apart in *. unfold setup_args, mbind, M_bind.
  destruct (argument_parse_ok sep m p s argv) as (ps & m1 & HR & HA & HC & HB & K1 & I1); unfold apart; try done. rewrite HR.
  apply words_at_app in HA as [HA _].
  destruct (argument_push_ok p (p + Z.of_nat (length s)) argv page ps (words space s) m1 esp) as (sp & m2 & HR2 & HE & HS & K2 & I2);
    unfold apart; try done; try lia; [by intros a Ha; apply I1, T3|by intros a Ha; apply I1, G2|].
  exists sp, m2. split; [done|]. split; [done|]. split; [done|]. intros a H1 H2 H3 H4. rewrite K2, K1 by lia. done.
Qed.

(** ** Example: "ls -l" *)

Definition demo_line : list Z := [108; 115; 32; 45; 108].
Definition demo_areas : mem := put 0x300 (replicate 16 0) (put 0x400 (replicate 16 0) (put 0xfc0 (replicate 64 0) ∅)).
Definition demo_mem : mem := put 0x100 (space ++ [0]) (put 0x200 (demo_line ++ [0]) demo_areas).

Lemma mapped_put m p l q n : p <= q -> q + n <= p + Z.of_nat (length l) -> mapped (put p l m) q n.
Proof. intros H1 H2 a Ha. rewrite lookup_put, decide_True by lia. apply lookup_lt_is_Some_2. lia. Qed.

Lemma mapped_keep m p l q n : mapped m q n -> mapped (put p l m) q n.
Proof. intros H a Ha. by apply put_mapped, H. Qed.

Lemma demo_layout : layout 0x100 0x200 0x300 0x400 0x1000 demo_line demo_mem.
Proof.
  assert (cstr demo_mem 0x100 space /\ cstr demo_mem 0x200 demo_line) as [HS HC].
  { apply put_cstr_two; [by repeat constructor..|cbn; lia]. }
  assert (HV : mapped demo_mem 0x300 16) by (do 2 apply mapped_keep; apply mapped_put; cbn; lia).
  assert (HG : mapped demo_mem 0x400 16) by (do 3 apply mapped_keep; apply mapped_put; cbn; lia).
  assert (HT : mapped demo_mem 0xfc0 64) by (do 4 apply mapped_keep; apply mapped_put; cbn; lia).
  generalize dependent demo_mem. intros m HC HS HV HG HT. unfold mapped in *.
  split; unfold apart; change (words space demo_line) with [[108; 115]; [45; 108]]; change (stack_need _) with 33; cbn [length demo_line];
    repeat (split; [done || lia|]); (done || lia || (intros a Ha; ((apply HV; lia) || (apply HG; lia) || (apply HT; lia)))).
Qed.

#[local] Opaque demo_mem.

Lemma setup_args_correct_witness :
  exists sp m', setup_args 0x100 0x200 0x300 0x400 0x1000 demo_mem = Ok (sp, m') /\ entry_stack m' sp 0x1000 [[108; 115]; [45; 108]].
Proof.
  destruct (setup_args_correct 0x100 0x200 0x300 0x400 0x1000 demo_line demo_mem demo_layout) as (sp & m' & HR & HE & _).
  exists sp, m'. exact (conj HR HE).
Defined.

End Args.
