(* ===== verification/Qsort.v ===== *)
(** * Sorting, searching and number parsing (src/lib/stdlib.c, src/lib/ctype.h)

    Heap sort and binary search over arrays of [size]-byte elements in the byte memory of
    Mem, and [atoi] over its strings.  The comparison function is an argument, as in C: it
    is given the addresses of two elements and the memory, and is never a null pointer.  [qsort] and [bsearch] are
    [sort] and [binary_search] called through [compare_thunk], which passes the two
    pointers on. *)

From S2P Require Import Prelude Mem Strings.
Import Mem Strings.

Module Qsort.

Section Ops.
Context (compare : Z -> Z -> mem -> outcome Z) (size : Z).

(** ** Heap sort *)

Fixpoint swap_loop (n : nat) (a b i : Z) : M mem unit :=
  match n with
  | O => mret tt
  | S n =>
    let* t := get_byte (a + i) in
    let* y := get_byte (b + i) in
    do* store (a + i) y;
    do* store (b + i) t;
    swap_loop n a b (i + 1)
  end.
Definition do_swap (array a_idx b_idx : Z) : M mem unit :=
  let a := array + u32 ((a_idx - 1) * size) in
  let b := array + u32 ((b_idx - 1) * size) in
  swap_loop (Z.to_nat size) a b 0.

Definition do_compare (array a_idx b_idx : Z) : M mem Z :=
  reading (compare (array + u32 ((a_idx - 1) * size)) (array + u32 ((b_idx - 1) * size))).

(** [cond && do_compare (array, a, b) > 0]. *)
Definition exceeds (cond : bool) (array a_idx b_idx : Z) : M mem bool :=
  if cond then let* c := do_compare array a_idx b_idx in mret (0 <? c) else mret false.

(** Every round goes down one level of the heap. *)
Fixpoint heapify_loop (n : nat) (array i cnt : Z) : M mem unit :=
  match n with
  | O => fail FFuel
  | S n =>
    let left := u32 (2 * i) in
    let right := u32 (2 * i + 1) in
    let max := i in
    let* c : bool := exceeds (left <=? cnt) array left max in
    let max := if c then left else max in
    let* c : bool := exceeds (right <=? cnt) array right max in
    let max := if c then right else max in
    if max =? i then mret tt else
    do* do_swap array i max;
    heapify_loop n array max cnt
  end.
Definition heapify (array i cnt : Z) : M mem unit := heapify_loop (S (Z.to_nat cnt)) array i cnt.

(** [for (i = n; i > 0; i--)] *)
Fixpoint build_loop (n : nat) (array cnt : Z) : M mem unit :=
  match n with
  | O => mret tt
  | S k => do* heapify array (Z.of_nat n) cnt; build_loop k array cnt
  end.
(** [for (i = n + 1; i > 1; i--)] *)
Fixpoint sort_loop (n : nat) (array : Z) : M mem unit :=
  match n with
  | O => mret tt
  | S k =>
    let i := Z.of_nat n + 1 in
    do* do_swap array 1 i;
    do* heapify array 1 (i - 1);
    sort_loop k array
  end.

Definition sort (array cnt : Z) : M mem unit :=
  do* ASSERT (negb (array =? 0) || (cnt =? 0));
  do* ASSERT (0 <? size);
  do* build_loop (Z.to_nat (cnt / 2)) array cnt;
  sort_loop (Z.to_nat (cnt - 1)) array.

(** ** Binary search *)

Fixpoint search_loop (n : nat) (key first last : Z) (m : mem) : outcome Z :=
  match n with
  | O => Fail FFuel
  | S n =>
    if first <? last then
      let range := (last - first) / size in
      let middle := first + range / 2 * size in
      let* cmp := compare key middle m in
      if cmp <? 0 then search_loop n key first middle m
      else if 0 <? cmp then search_loop n key (middle + size) last m
      else mret middle
    else mret 0
  end.
Definition binary_search (key array cnt : Z) (m : mem) : outcome Z :=
  search_loop (S (Z.to_nat cnt)) key array (array + u32 (size * cnt)) m.

End Ops.

(** The functions for a comparison without auxiliary data. *)
Definition compare_thunk (aux : Z -> Z -> mem -> outcome Z) (a b : Z) (m : mem) : outcome Z := aux a b m.
Definition qsort (compare : Z -> Z -> mem -> outcome Z) (size array cnt : Z) : M mem unit := sort (compare_thunk compare) size array cnt.
Definition bsearch (compare : Z -> Z -> mem -> outcome Z) (size key array cnt : Z) (m : mem) : outcome Z :=
  binary_search (compare_thunk compare) size key array cnt m.

(** ** Numbers *)

Definition isspace (c : Z) : bool := (c =? 32) || (c =? 12) || (c =? 10) || (c =? 13) || (c =? 9) || (c =? 11).
Definition isdigit (c : Z) : bool := (48 <=? c) && (c <=? 57).

Section Atoi.
Context (m : mem).

Fixpoint skip_space (n : nat) (s : Z) : outcome Z :=
  match n with O => Fail FFuel | S n => let* c := load m s in if isspace c then skip_space n (s + 1) else mret s end.

(** A byte of 128 and above is a negative [char]; neither reading is a digit. *)
Fixpoint parse_digits (n : nat) (s value : Z) : outcome Z :=
  match n with
  | O => Fail FFuel
  | S n => let* c := load m s in if isdigit c then parse_digits n (s + 1) (s32 (value * 10 - (c - 48))) else mret value
  end.

Definition atoi (s : Z) : outcome Z :=
  do* assert (negb (s =? 0));
  let* s := skip_space (fuel m) s in
  let* c := load m s in
  let negative := c =? 45 in
  let s := if (c =? 43) || (c =? 45) then s + 1 else s in
  let* value := parse_digits (fuel m) s 0 in
  mret (if negb negative then s32 (- value) else value).

End Atoi.

(** ** Arrays of elements *)

Section Proofs.
Context (compare : Z -> Z -> mem -> outcome Z) (size : Z) (cmp : list Z -> list Z -> Z).
Context (Hsize : 0 < size).

Definition element (e : list Z) : Prop := Z.of_nat (length e) = size /\ Forall is_u8 e.

(** The elements [es] are in memory at [p]. *)
Definition arr (m : mem) (p : Z) (es : list (list Z)) : Prop :=
  forall i e, es !! i = Some e -> bytes_at m (p + Z.of_nat i * size) e /\ element e.

Context (Hcompare : forall m a b x y, bytes_at m a x -> bytes_at m b y -> element x -> element y -> compare a b m = Ok (cmp x y)).
Context (Htrans : forall x y z, cmp x y <= 0 -> cmp y z <= 0 -> cmp x z <= 0) (Hsym : forall x y, 0 < cmp x y <-> cmp y x < 0).

Lemma cmp_refl x : cmp x x <= 0.
Proof. pose proof (Hsym x x). lia. Qed.

Lemma swap_loop_ok la : forall lb m a b i, length lb = length la -> bytes_at m (a + i) la -> bytes_at m (b + i) lb -> Forall is_u8 la -> Forall is_u8 lb ->
  (a + i + Z.of_nat (length la) <= b + i \/ b + i + Z.of_nat (length la) <= a + i) ->
  swap_loop (length la) a b i m = Ok (tt, put (a + i) lb (put (b + i) la m)).
Proof.
  induction la as [|x la IH]; intros [|y lb] m a b i HL HA HB FA FB HD; cbn [length] in *; try lia; [done|].
  apply bytes_at_cons in HA as [HA0 HA]. apply bytes_at_cons in HB as [HB0 HB]. apply Forall_cons in FA as [Hx FA]. apply Forall_cons in FB as [Hy FB].
  cbn [swap_loop]. unfold mbind, M_bind, get_byte. rewrite (load_at _ _ _ HA0), (load_at _ _ _ HB0), (store_at _ _ _ _ HA0).
  rewrite (store_at _ _ y) by (rewrite lookup_insert_ne by lia; done). rewrite !u8_small by done.
  rewrite <- Z.add_assoc in HA, HB. rewrite (IH lb); [|lia| | |done|done|lia].
  - cbn [put]. rewrite !Z.add_assoc. f_equal. f_equal. rewrite (put_insert (b + i + 1)), (put_insert (b + i + 1)) by lia.
    rewrite (put_insert (a + i + 1)), (put_insert (a + i + 1)) by lia. rewrite (put_insert (a + i + 1)) by lia. by rewrite insert_insert_ne by lia.
  - eapply bytes_at_ext; [|exact HA]. intros c Hc. rewrite !lookup_insert_ne by lia. done.
  - eapply bytes_at_ext; [|exact HB]. intros c Hc. rewrite !lookup_insert_ne by lia. done.
Qed.

(** The element with 1-based index [i]. *)
Definition el (es : list (list Z)) (i : Z) : list Z := default [] (es !! Z.to_nat (i - 1)).
Definition swapped (es : list (list Z)) (i j : Z) : list (list Z) := <[Z.to_nat (i - 1) := el es j]> (<[Z.to_nat (j - 1) := el es i]> es).

Section Array.
Context (p : Z) (n : Z) (Hp : 0 < p) (Hn : 0 <= n < 2 ^ 31) (Hbytes : n * size < 2 ^ 32).

(** The array has [n] elements; memory outside it is as in [m0]. *)
Definition state (m0 m : mem) (es : list (list Z)) : Prop :=
  arr m p es /\ Z.of_nat (length es) = n /\ forall a, ~ (p <= a < p + n * size) -> m !! a = m0 !! a.

Lemma rows a b : a <> b -> a * size + size <= b * size \/ b * size + size <= a * size.
Proof. clear -Hsize. intros H. destruct (Z.lt_trichotomy a b) as [H1|[H1|H1]]; [left|done|right]; nia. Qed.

Lemma el_lookup es i : Z.of_nat (length es) = n -> 1 <= i <= n -> es !! Z.to_nat (i - 1) = Some (el es i).
Proof. intros HL Hi. unfold el. destruct (lookup_lt_is_Some_2 es (Z.to_nat (i - 1))) as [e E]; [lia|]. by rewrite E. Qed.

Lemma address i : 1 <= i <= n -> u32 ((i - 1) * size) = (i - 1) * size /\ 0 <= (i - 1) * size /\ (i - 1) * size + size <= n * size.
Proof. intros Hi. split; [apply u32_small; unfold is_u32|]; nia. Qed.

Lemma state_elem m0 m es i : state m0 m es -> 1 <= i <= n -> bytes_at m (p + (i - 1) * size) (el es i) /\ element (el es i).
Proof.
  intros (HA & HL & _) Hi. pose proof (HA _ _ (el_lookup es i HL Hi)) as H. by replace (Z.of_nat (Z.to_nat (i - 1))) with (i - 1) in H by lia.
Qed.

Lemma do_compare_ok m0 m es i j : state m0 m es -> 1 <= i <= n -> 1 <= j <= n -> do_compare compare size p i j m = Ok (cmp (el es i) (el es j), m).
Proof.
  intros HS Hi Hj. destruct (state_elem _ _ _ _ HS Hi) as [HB1 HE1], (state_elem _ _ _ _ HS Hj) as [HB2 HE2].
  unfold do_compare, reading. destruct (address i Hi) as [-> _], (address j Hj) as [-> _]. by rewrite (Hcompare m _ _ _ _ HB1 HB2).
Qed.

Lemma el_swapped es i j k : Z.of_nat (length es) = n -> 1 <= i <= n -> 1 <= j <= n -> 1 <= k <= n ->
  el (swapped es i j) k = if decide (k = i) then el es j else if decide (k = j) then el es i else el es k.
Proof.
  intros HL Hi Hj Hk. unfold swapped. unfold el at 1. destruct (decide (k = i)) as [->|H1]; [by rewrite list_lookup_insert_eq by (rewrite length_insert; lia)|].
  rewrite list_lookup_insert_ne by lia. destruct (decide (k = j)) as [->|H2]; [by rewrite list_lookup_insert_eq by lia|].
  by rewrite list_lookup_insert_ne by lia.
Qed.

Lemma swapped_perm es i j : Z.of_nat (length es) = n -> 1 <= i <= n -> 1 <= j <= n -> swapped es i j ≡ₚ es.
Proof.
  intros HL Hi Hj. symmetry. apply Permutation_inj. unfold swapped. rewrite !length_insert. split; [done|].
  set (a := Z.to_nat (i - 1)). set (b := Z.to_nat (j - 1)).
  exists (fun k => if decide (k = a) then b else if decide (k = b) then a else k). split.
  - intros x y. repeat destruct (decide _); subst; (done || lia || congruence).
  - intros k. pose proof (el_lookup es i HL Hi) as Ei. pose proof (el_lookup es j HL Hj) as Ej. fold a in Ei. fold b in Ej.
    assert (La : (a < length es)%nat) by (unfold a; lia). assert (Lb : (b < length es)%nat) by (unfold b; lia).
    destruct (decide (k = a)) as [->|Hka].
    + destruct (decide (a = b)) as [Hab|Hab]; [rewrite <- Hab, list_lookup_insert_eq by (by rewrite length_insert); rewrite Hab; congruence|].
      rewrite list_lookup_insert_ne, list_lookup_insert_eq by done. done.
    + destruct (decide (k = b)) as [->|Hkb]; [rewrite list_lookup_insert_eq by (by rewrite length_insert); done|].
      by rewrite !list_lookup_insert_ne by done.
Qed.

Lemma do_swap_ok m0 m es i j : state m0 m es -> 1 <= i <= n -> 1 <= j <= n -> i <> j ->
  exists m', do_swap size p i j m = Ok (tt, m') /\ state m0 m' (swapped es i j).
Proof.
  intros HS Hi Hj Hij. destruct (state_elem _ _ _ _ HS Hi) as [HB1 [HL1 HU1]], (state_elem _ _ _ _ HS Hj) as [HB2 [HL2 HU2]]. pose proof HS as (HA & HL & HM).
  unfold do_swap. destruct (address i Hi) as (-> & I1 & I2), (address j Hj) as (-> & J1 & J2).
  replace (Z.to_nat size) with (length (el es i)) by lia.
  pose proof (rows (i - 1) (j - 1) ltac:(lia)) as SEP.
  rewrite (swap_loop_ok (el es i) (el es j)) by (rewrite ?Z.add_0_r; (done || lia)). rewrite !Z.add_0_r.
  eexists. split; [done|]. split; [|split].
  - intros k e Hk. assert (Hkn : (k < length es)%nat) by (apply lookup_lt_Some in Hk; unfold swapped in Hk; by rewrite !length_insert in Hk).
    pose proof (el_swapped es i j (Z.of_nat k + 1) HL Hi Hj ltac:(lia)) as HE. unfold el at 1 in HE.
    replace (Z.to_nat (Z.of_nat k + 1 - 1)) with k in HE by lia. rewrite Hk in HE. change (default [] (Some e)) with e in HE. subst e.
    destruct (decide (Z.of_nat k + 1 = i)) as [Eki|Nki].
    + replace (Z.of_nat k) with (i - 1) by lia. split; [apply bytes_at_put|done].
    + destruct (decide (Z.of_nat k + 1 = j)) as [Ekj|Nkj].
      * replace (Z.of_nat k) with (j - 1) by lia. split; [|done]. eapply bytes_at_ext; [|apply bytes_at_put].
        intros a Ha. apply lookup_put_ne. lia.
      * destruct (state_elem m0 m es (Z.of_nat k + 1) HS ltac:(lia)) as [HBk [HLk HUk]]. replace (Z.of_nat k + 1 - 1) with (Z.of_nat k) in HBk by lia.
        split; [|done]. eapply bytes_at_ext; [|exact HBk]. intros a Ha.
        pose proof (rows (i - 1) (Z.of_nat k) ltac:(lia)). pose proof (rows (j - 1) (Z.of_nat k) ltac:(lia)).
        rewrite !lookup_put_ne by lia. done.
  - unfold swapped. by rewrite !length_insert.
  - intros a Ha. rewrite !lookup_put_ne by lia. by apply HM.
Qed.

(** ** Heaps *)

Definition child (a j : Z) : Prop := j = 2 * a \/ j = 2 * a + 1.

(** Among the first [cnt] elements, those from [k] on are not below their children. *)
Definition heap (k cnt : Z) (es : list (list Z)) : Prop :=
  forall a j, 1 <= a -> k <= a -> child a j -> j <= cnt -> cmp (el es j) (el es a) <= 0.

(** The same but for element [i], which may be below its children, though its parent is not. *)
Definition heap_but (i k cnt : Z) (es : list (list Z)) : Prop :=
  (forall a j, 1 <= a -> k <= a -> a <> i -> child a j -> j <= cnt -> cmp (el es j) (el es a) <= 0) /\
  forall a c, 1 <= a -> k <= a -> child a i -> child i c -> c <= cnt -> cmp (el es c) (el es a) <= 0.

(** One step down: [i] and its larger child [c] change places. *)
Lemma heap_down es i k cnt c : Z.of_nat (length es) = n -> cnt <= n -> 1 <= i -> k <= i -> child i c -> c <= cnt -> heap_but i k cnt es ->
  cmp (el es i) (el es c) <= 0 -> (forall d, child i d -> d <= cnt -> cmp (el es d) (el es c) <= 0) -> heap_but c k cnt (swapped es i c).
Proof.
  intros HL Hcn Hi Hk Hc Hcc [H1 H2] Hle Hoth. unfold heap_but, child in *.
  assert (EL : forall x, 1 <= x <= n -> el (swapped es i c) x = if decide (x = i) then el es c else if decide (x = c) then el es i else el es x)
    by (intros; apply el_swapped; (done || lia)).
  split.
  - intros a j Ha Hka Hac Hj Hjc. rewrite !EL by lia. rewrite (decide_False (P := a = c)) by done. destruct (decide (a = i)) as [->|Hai].
    + rewrite decide_False by lia. destruct (decide (j = c)) as [->|]; [done|]. by apply Hoth.
    + destruct (decide (j = i)) as [->|Hji]; [by apply (H2 a c)|]. rewrite decide_False by lia. by apply H1.
  - intros a d Ha Hka Hca Hd Hdc. assert (a = i) as -> by lia. rewrite !EL by lia.
    rewrite (decide_False (P := d = i)), (decide_False (P := d = c)), decide_True by lia. apply H1; lia.
Qed.

Lemma exceeds_ok m0 m es cond i j : state m0 m es -> (cond = true -> 1 <= i <= n /\ 1 <= j <= n) ->
  exceeds compare size cond p i j m = Ok (cond && (0 <? cmp (el es i) (el es j)), m).
Proof.
  intros HS Hc. unfold exceeds. destruct cond; [|done]. destruct (Hc eq_refl). unfold mbind, M_bind. by rewrite (do_compare_ok m0 _ es).
Qed.

(** The index [heapify_loop] chooses is the largest among [i] and its children. *)
Lemma choose_max es i cnt c1 c2 max : 1 <= i <= cnt -> c1 = (2 * i <=? cnt) && (0 <? cmp (el es (2 * i)) (el es i)) ->
  c2 = (2 * i + 1 <=? cnt) && (0 <? cmp (el es (2 * i + 1)) (el es (if c1 then 2 * i else i))) -> max = (if c2 then 2 * i + 1 else if c1 then 2 * i else i) ->
  (max = i \/ (child i max /\ max <= cnt)) /\ cmp (el es i) (el es max) <= 0 /\ forall d, child i d -> d <= cnt -> cmp (el es d) (el es max) <= 0.
Proof.
  intros Hi E1 E2 ->. unfold child. pose proof (cmp_refl (el es i)) as R0. pose proof (cmp_refl (el es (2 * i))) as R1. pose proof (cmp_refl (el es (2 * i + 1))) as R2.
  pose proof (Hsym (el es (2 * i)) (el es i)) as S1. pose proof (Hsym (el es (2 * i + 1)) (el es (if c1 then 2 * i else i))) as S2.
  symmetry in E1, E2. destruct c1, c2; rewrite ?andb_true_iff, ?andb_false_iff, ?Z.leb_le, ?Z.leb_gt, ?Z.ltb_lt, ?Z.ltb_ge in E1, E2.
  - split; [lia|]. split; [apply (Htrans _ (el es (2 * i))); lia|]. intros d [-> | ->] Hd; lia.
  - split; [lia|]. split; [lia|]. intros d [-> | ->] Hd; lia.
  - split; [lia|]. split; [lia|]. intros d [-> | ->] Hd; [|lia]. apply (Htrans _ (el es i)); lia.
  - split; [lia|]. split; [lia|]. intros d [-> | ->] Hd; lia.
Qed.

Lemma heapify_ok m0 cnt k : 0 <= cnt <= n -> forall f m es i, state m0 m es -> 1 <= i <= n -> k <= i -> heap_but i k cnt es -> cnt < Z.of_nat f + i ->
  exists m' es', heapify_loop compare size (S f) p i cnt m = Ok (tt, m') /\ state m0 m' es' /\ es' ≡ₚ es /\ heap k cnt es' /\
    forall x, cnt < x <= n -> el es' x = el es x.
Proof.
  intros Hcnt. assert (DONE : forall f m es i, state m0 m es -> 1 <= i <= n -> cnt < 2 * i -> heap_but i k cnt es ->
    exists m' es', heapify_loop compare size (S f) p i cnt m = Ok (tt, m') /\ state m0 m' es' /\ es' ≡ₚ es /\ heap k cnt es' /\
    forall x, cnt < x <= n -> el es' x = el es x).
  { intros f m es i HS Hi Hc [H1 H2]. cbn [heapify_loop]. unfold mbind, M_bind.
    rewrite (u32_small (2 * i)), (u32_small (2 * i + 1)) by solve_int. rewrite (exceeds_ok m0 m es) by (done || rewrite Z.leb_le; lia).
    rewrite (proj2 (Z.leb_gt (2 * i) cnt)) by lia. cbn [andb]. rewrite (exceeds_ok m0 m es) by (done || rewrite Z.leb_le; lia).
    rewrite (proj2 (Z.leb_gt (2 * i + 1) cnt)) by lia. cbn [andb]. rewrite Z.eqb_refl. exists m, es. split; [done|]. split; [done|]. split; [done|].
    split; [|done]. intros a j Ha Hka Hj Hjc. apply H1; try done. intros ->. unfold child in Hj. lia. }
  induction f as [|f IH]; intros m es i HS Hi Hk HB Hf; [apply DONE; (done || lia)|].
  destruct (decide (cnt < 2 * i)) as [Hlt|Hge]; [exact (DONE (S f) m es i HS Hi Hlt HB)|]. pose proof HS as (_ & HL & _).
  remember (S f) as f1. cbn [heapify_loop]. unfold mbind, M_bind. rewrite (u32_small (2 * i)), (u32_small (2 * i + 1)) by solve_int.
  rewrite (exceeds_ok m0 m es) by (done || rewrite Z.leb_le; lia). set (c1 := (2 * i <=? cnt) && _).
  rewrite (exceeds_ok m0 m es) by (done || rewrite Z.leb_le; destruct c1; lia). set (c2 := (2 * i + 1 <=? cnt) && _). set (max := if c2 then _ else _).
  destruct (choose_max es i cnt c1 c2 max ltac:(lia) eq_refl eq_refl eq_refl) as (HM & HM1 & HM2).
  destruct (Z.eqb_spec max i) as [E|E].
  - exists m, es. split; [done|]. split; [done|]. split; [done|]. split; [|done]. rewrite E in HM2. intros a j Ha Hka Hj Hjc.
    destruct (decide (a = i)) as [->|Hai]; [by apply HM2|]. by apply (proj1 HB).
  - destruct HM as [|[HC HMc]]; [done|]. assert (1 <= max <= n) by (unfold child in HC; lia).
    destruct (do_swap_ok m0 m es i max HS Hi ltac:(done) ltac:(done)) as (m1 & HR1 & HS1). rewrite HR1. subst f1.
    destruct (IH m1 (swapped es i max) max HS1) as (m2 & es2 & HR2 & HS2 & HP2 & HH2 & HX2); [done|unfold child in HC; lia|apply heap_down; (done || lia)|unfold child in HC; lia|].
    exists m2, es2. split; [exact HR2|]. split; [done|]. split; [by rewrite HP2, swapped_perm|]. split; [done|].
    intros x Hx. rewrite HX2, el_swapped by (done || lia). rewrite !decide_False by (unfold child in HC; lia). done.
Qed.

Lemma heap_root es c x : heap 1 c es -> 1 <= x <= c -> cmp (el es x) (el es 1) <= 0.
Proof.
  intros H Hx. assert (Hx0 : 0 <= x) by lia. revert x Hx0 Hx.
  apply (Z_lt_induction (fun x => 1 <= x <= c -> cmp (el es x) (el es 1) <= 0)). intros x IH Hx.
  destruct (decide (x = 1)) as [->|]; [apply cmp_refl|]. pose proof (Z.div_mod x 2 ltac:(lia)). pose proof (Z.mod_pos_bound x 2 ltac:(lia)).
  apply (Htrans _ (el es (x / 2))); [apply H; unfold child; lia|apply IH; lia].
Qed.

(** Elements that may have been permuted below index [c] come from below [c]. *)
Lemma prefix_elem es es' c x : Z.of_nat (length es) = n -> Z.of_nat (length es') = n -> es' ≡ₚ es -> 0 <= c <= n ->
  (forall y, c < y <= n -> el es' y = el es y) -> 1 <= x <= c -> exists x', 1 <= x' <= c /\ el es' x = el es x'.
Proof.
  intros HL HL' HP Hc HX Hx. assert (HD : drop (Z.to_nat c) es' = drop (Z.to_nat c) es).
  { apply list_eq. intros i. rewrite !lookup_drop. destruct (decide (c + Z.of_nat i < n)) as [Hi|Hi].
    - pose proof (HX (c + Z.of_nat i + 1) ltac:(lia)) as HE. pose proof (el_lookup es (c + Z.of_nat i + 1) HL ltac:(lia)) as E1.
      pose proof (el_lookup es' (c + Z.of_nat i + 1) HL' ltac:(lia)) as E2. replace (Z.to_nat (c + Z.of_nat i + 1 - 1)) with (Z.to_nat c + i)%nat in * by lia. congruence.
    - rewrite !lookup_ge_None_2 by lia. done. }
  rewrite <- (take_drop (Z.to_nat c) es), <- (take_drop (Z.to_nat c) es'), HD in HP. apply Permutation_app_inv_r in HP.
  assert (HI : el es' x ∈ take (Z.to_nat c) es).
  { rewrite <- HP. apply list_elem_of_lookup. exists (Z.to_nat (x - 1)). rewrite lookup_take_lt by lia. by apply el_lookup; [|lia]. }
  apply list_elem_of_lookup in HI as [i Hi]. apply lookup_take_Some in Hi as [Hi Hic].
  exists (Z.of_nat i + 1). split; [lia|]. unfold el. replace (Z.to_nat (Z.of_nat i + 1 - 1)) with i by lia. by rewrite Hi.
Qed.

Lemma build_loop_ok m0 : forall k m es, state m0 m es -> Z.of_nat k <= n -> heap (Z.of_nat k + 1) n es ->
  exists m' es', build_loop compare size k p n m = Ok (tt, m') /\ state m0 m' es' /\ es' ≡ₚ es /\ heap 1 n es'.
Proof.
  induction k as [|k IH]; intros m es HS Hk HH; [by exists m, es|]. cbn [build_loop]. unfold mbind, M_bind, heapify.
  destruct (heapify_ok m0 n (Z.of_nat (S k)) ltac:(lia) (Z.to_nat n) m es (Z.of_nat (S k)) HS) as (m1 & es1 & HR & HS1 & HP & HH1 & _); [lia|lia| |lia|].
  { split; [intros; apply HH; (done || lia)|]. intros a c Ha Hka Hca. unfold child in Hca. lia. }
  rewrite HR. destruct (IH m1 es1 HS1) as (m2 & es2 & HR2 & HS2 & HP2 & HH2); [lia|by replace (Z.of_nat k + 1) with (Z.of_nat (S k)) by lia|].
  exists m2, es2. split; [done|]. split; [done|]. split; [by rewrite HP2|done].
Qed.

(** The elements above index [c] are in order and not below any other. *)
Definition sorted_from (c : Z) (es : list (list Z)) : Prop := forall x y, 1 <= x < y -> c < y <= n -> cmp (el es x) (el es y) <= 0.

Lemma sorted_step es es2 c : Z.of_nat (length es) = n -> Z.of_nat (length es2) = n -> 2 <= c <= n -> heap 1 c es -> sorted_from c es ->
  es2 ≡ₚ swapped es 1 c -> (forall x, c - 1 < x <= n -> el es2 x = el (swapped es 1 c) x) -> sorted_from (c - 1) es2.
Proof.
  intros HL HL2 Hc HH HT HP HX x y Hxy Hy.
  assert (EL : forall z, 1 <= z <= n -> el (swapped es 1 c) z = if decide (z = 1) then el es c else if decide (z = c) then el es 1 else el es z)
    by (intros; apply el_swapped; (done || lia)).
  assert (SRC : exists z, 1 <= z /\ z <= Z.max c x /\ el es2 x = el es z).
  { destruct (decide (x <= c - 1)) as [Hlt|Hge].
    - destruct (prefix_elem (swapped es 1 c) es2 (c - 1) x) as (z & Hz & E); try done; try lia; [unfold swapped; by rewrite !length_insert|].
      rewrite EL in E by lia. destruct (decide (z = 1)); [exists c|rewrite decide_False in E by lia; exists z]; (split; [lia|split; [lia|done]]).
    - rewrite HX, EL by lia. rewrite decide_False by lia. destruct (decide (x = c)); [exists 1|exists x]; (split; [lia|split; [lia|done]]). }
  destruct SRC as (z & Hz1 & Hz2 & ->). rewrite (HX y), EL by lia. rewrite decide_False by lia. destruct (decide (y = c)) as [->|Hyc].
  - apply (heap_root es c); [done|lia].
  - apply HT; lia.
Qed.

Lemma heap_sort_loop_ok m0 : forall k m es, state m0 m es -> Z.of_nat k + 1 <= n -> heap 1 (Z.of_nat k + 1) es -> sorted_from (Z.of_nat k + 1) es ->
  exists m' es', sort_loop compare size k p m = Ok (tt, m') /\ state m0 m' es' /\ es' ≡ₚ es /\ sorted_from 1 es'.
Proof.
  induction k as [|k IH]; intros m es HS Hk HH HT; [by exists m, es|]. cbn [sort_loop]. unfold mbind, M_bind, heapify.
  set (c := Z.of_nat (S k) + 1) in *. pose proof HS as (_ & HL & _).
  destruct (do_swap_ok m0 m es 1 c HS) as (m1 & HR1 & HS1); [lia|lia|lia|]. rewrite HR1. pose proof HS1 as (_ & HL1 & _).
  destruct (heapify_ok m0 (c - 1) 1 ltac:(lia) (Z.to_nat (c - 1)) m1 (swapped es 1 c) 1 HS1) as (m2 & es2 & HR2 & HS2 & HP2 & HH2 & HX2); [lia|lia| |lia|].
  { split; [|intros a d Ha _ Hca; unfold child in Hca; lia]. intros a j Ha _ Ha1 Hj Hjc. unfold child in Hj.
    rewrite !el_swapped by lia. rewrite !decide_False by lia. apply HH; unfold child; lia. }
  rewrite HR2. pose proof HS2 as (_ & HL2 & _). replace (Z.of_nat k + 1) with (c - 1) in IH by lia.
  destruct (IH m2 es2 HS2) as (m3 & es3 & HR3 & HS3 & HP3 & HT3); [lia|done|apply (sorted_step es); (done || lia)|].
  exists m3, es3. split; [done|]. split; [done|]. split; [|done]. by rewrite HP3, HP2, swapped_perm by lia.
Qed.

End Array.

Definition sorted (es : list (list Z)) : Prop := forall i j x y, (i < j)%nat -> es !! i = Some x -> es !! j = Some y -> cmp x y <= 0.

(** C26: sort, for every array and every strcmp-like comparison that looks only
    at the elements it is given: the call returns, the array then holds the same elements
    in ascending order, and memory outside the array is unchanged. *)
Theorem sort_correct p n m es : 0 < p -> 0 <= n < 2 ^ 31 -> n * size < 2 ^ 32 -> Z.of_nat (length es) = n -> arr m p es ->
  exists m' es', sort compare size p n m = Ok (tt, m') /\ arr m' p es' /\ es' ≡ₚ es /\ sorted es' /\
    forall a, ~ (p <= a < p + n * size) -> m' !! a = m !! a.
Proof.
  intros Hp Hn Hb HL HA. assert (HS : state p n m m es) by done. pose proof (Z.div_mod n 2 ltac:(lia)) as HD. pose proof (Z.mod_pos_bound n 2 ltac:(lia)).
  unfold sort, mbind, M_bind. rewrite (proj2 (Z.eqb_neq p 0)), (proj2 (Z.ltb_lt 0 size)) by lia. cbn [negb orb ASSERT]. unfold mret, M_ret.
  destruct (build_loop_ok p n Hn Hb m (Z.to_nat (n / 2)) m es HS) as (m1 & es1 & HR1 & HS1 & HP1 & HH1).
  { lia. } { intros a j Ha Hka Hj Hjc. unfold child in Hj. lia. }
  rewrite HR1. destruct (decide (n = 0)) as [Hz|Hz].
  { exists m1, es1. replace (Z.to_nat (n - 1)) with 0%nat by lia. destruct HS1 as (A1 & A2 & A3). split; [done|]. split; [done|]. split; [done|]. split; [|done].
    intros i j x y _ Hx. apply lookup_lt_Some in Hx. lia. }
  destruct (heap_sort_loop_ok p n Hn Hb m (Z.to_nat (n - 1)) m1 es1 HS1) as (m2 & es2 & HR2 & HS2 & HP2 & HT2).
  { lia. } { by replace (Z.of_nat (Z.to_nat (n - 1)) + 1) with n by lia. } { intros x y Hxy Hy. lia. }
  exists m2, es2. destruct HS2 as (A1 & A2 & A3). split; [done|]. split; [done|]. split; [by rewrite HP2|]. split; [|done].
  intros i j x y Hij Hx Hy. pose proof (lookup_lt_Some _ _ _ Hy). pose proof (HT2 (Z.of_nat i + 1) (Z.of_nat j + 1) ltac:(lia) ltac:(lia)) as HC. unfold el in HC.
  replace (Z.to_nat (Z.of_nat i + 1 - 1)) with i in HC by lia. replace (Z.to_nat (Z.of_nat j + 1 - 1)) with j in HC by lia. by rewrite Hx, Hy in HC.
Qed.

(** ** Binary search *)

Lemma below es i j x y k : sorted es -> (i <= j)%nat -> es !! i = Some x -> es !! j = Some y -> cmp k x < 0 -> cmp k y < 0.
Proof.
  intros HS Hij Hx Hy Hk. assert (cmp x y <= 0).
  { destruct (decide (i = j)) as [->|]; [rewrite Hx in Hy; injection Hy as ->; apply cmp_refl|]. apply (HS i j); (done || lia). }
  destruct (decide (cmp k y < 0)) as [|Hn]; [done|]. exfalso.
  assert (cmp y k <= 0) by (pose proof (Hsym y k); lia). pose proof (Htrans x y k). pose proof (Hsym x k). lia.
Qed.

Lemma above es i j x y k : sorted es -> (i <= j)%nat -> es !! i = Some x -> es !! j = Some y -> 0 < cmp k y -> 0 < cmp k x.
Proof.
  intros HS Hij Hx Hy Hk. assert (cmp x y <= 0).
  { destruct (decide (i = j)) as [->|]; [rewrite Hx in Hy; injection Hy as ->; apply cmp_refl|]. apply (HS i j); (done || lia). }
  destruct (decide (0 < cmp k x)) as [|Hn]; [done|]. exfalso. pose proof (Htrans k x y). lia.
Qed.

Lemma search_loop_ok m p es kp k : 0 < p -> arr m p es -> sorted es -> bytes_at m kp k -> element k -> forall f lo hi, (lo <= hi <= length es)%nat -> (hi - lo < f)%nat ->
  exists r, search_loop compare size f kp (p + Z.of_nat lo * size) (p + Z.of_nat hi * size) m = Ok r /\
    ((r = 0 /\ forall i e, (lo <= i < hi)%nat -> es !! i = Some e -> cmp k e <> 0) \/
     exists i e, es !! i = Some e /\ r = p + Z.of_nat i * size /\ cmp k e = 0).
Proof.
  intros Hp HA HS HK HE. induction f as [|f IH]; intros lo hi Hl Hf; [lia|]. cbn [search_loop].
  destruct (Z.ltb_spec (p + Z.of_nat lo * size) (p + Z.of_nat hi * size)) as [Hlt|Hge].
  2:{ exists 0. split; [done|]. left. split; [done|]. intros i e Hi. assert (Z.of_nat lo < Z.of_nat hi) by lia. nia. }
  assert (Hlh : (lo < hi)%nat) by nia.
  replace ((p + Z.of_nat hi * size - (p + Z.of_nat lo * size)) / size) with (Z.of_nat (hi - lo)).
  2:{ symmetry. replace (p + Z.of_nat hi * size - (p + Z.of_nat lo * size)) with (Z.of_nat (hi - lo) * size) by lia. apply Z.div_mul. lia. }
  set (mid := (lo + (hi - lo) / 2)%nat). assert (Hm : (lo <= mid < hi)%nat).
  { pose proof (Nat.div_lt (hi - lo) 2 ltac:(lia) ltac:(lia)). unfold mid. lia. }
  replace (p + Z.of_nat lo * size + Z.of_nat (hi - lo) / 2 * size) with (p + Z.of_nat mid * size).
  2:{ unfold mid. rewrite Nat2Z.inj_add, Nat2Z.inj_div. change (Z.of_nat 2) with 2. lia. }
  destruct (lookup_lt_is_Some_2 es mid) as [e He]; [lia|]. destruct (HA mid e He) as [HB HEl].
  rewrite (Hcompare m kp _ k e HK HB HE HEl). cbn [mbind outcome_bind]. destruct (Z.ltb_spec (cmp k e) 0) as [H1|H1]; [|destruct (Z.ltb_spec 0 (cmp k e)) as [H2|H2]].
  - destruct (IH lo mid) as (r & HR & HX); [lia|lia|]. exists r. split; [done|]. destruct HX as [[-> HX]|HX]; [left|by right].
    split; [done|]. intros i x Hi Hx. destruct (decide (i < mid)%nat); [apply (HX i); (done || lia)|].
    pose proof (below es mid i e x k HS ltac:(lia) He Hx H1). lia.
  - replace (p + Z.of_nat mid * size + size) with (p + Z.of_nat (S mid) * size) by lia.
    destruct (IH (S mid) hi) as (r & HR & HX); [lia|lia|]. exists r. split; [done|]. destruct HX as [[-> HX]|HX]; [left|by right].
    split; [done|]. intros i x Hi Hx. destruct (decide (mid < i)%nat); [apply (HX i); (done || lia)|].
    pose proof (above es i mid x e k HS ltac:(lia) Hx He H2). lia.
  - eexists. split; [done|]. right. exists mid, e. split; [done|]. split; [done|lia].
Qed.

(** binary_search on a sorted array always returns: a pointer to an
    element that compares equal to the key, or a null pointer, and then no element of the
    array compares equal to the key. *)
Theorem binary_search_correct p n m es kp k : 0 < p -> 0 <= n -> n * size < 2 ^ 32 -> Z.of_nat (length es) = n -> arr m p es -> sorted es ->
  bytes_at m kp k -> element k ->
  exists r, binary_search compare size kp p n m = Ok r /\
    ((r = 0 /\ forall e, e ∈ es -> cmp k e <> 0) \/ exists i e, es !! i = Some e /\ r = p + Z.of_nat i * size /\ cmp k e = 0).
Proof.
  intros Hp Hn Hb HL HA HS HK HE. unfold binary_search. rewrite u32_small by (unfold is_u32; nia).
  destruct (search_loop_ok m p es kp k Hp HA HS HK HE (S (Z.to_nat n)) 0 (length es)) as (r & HR & HX); [lia|lia|].
  exists r. replace (p + Z.of_nat 0 * size) with p in HR by lia. replace (size * n) with (Z.of_nat (length es) * size) by lia. split; [exact HR|].
  destruct HX as [[-> HX]|HX]; [left|by right]. split; [done|]. intros e [i Hi]%list_elem_of_lookup. apply (HX i); [|done]. apply lookup_lt_Some in Hi. lia.
Qed.

End Proofs.

(** ** Numbers *)

Definition digits_value (acc : Z) (ds : list Z) : Z := fold_left (fun v c => v * 10 + (c - 48)) ds acc.

Lemma isdigit_range c : isdigit c = true -> 48 <= c <= 57.
Proof. unfold isdigit. rewrite andb_true_iff, !Z.leb_le. lia. Qed.

Lemma digits_value_le ds : forall acc, 0 <= acc -> Forall (fun c => isdigit c = true) ds -> acc <= digits_value acc ds.
Proof.
  induction ds as [|c ds IH]; intros acc Ha HF; [done|]. apply Forall_cons in HF as [Hc HF]. apply isdigit_range in Hc.
  pose proof (IH (acc * 10 + (c - 48)) ltac:(lia) HF). unfold digits_value in *. cbn. lia.
Qed.

Lemma skip_space_ok m sp : forall f p l, cstr m p (sp ++ l) -> Forall (fun c => isspace c = true) sp -> (length sp < f)%nat ->
  (match l with [] => True | c :: _ => isspace c = false end) -> skip_space m f p = Ok (p + Z.of_nat (length sp)).
Proof.
  induction sp as [|c sp IH]; intros [|f] p l HC HF Hn HS; cbn [length app] in *; try lia; cbn [skip_space].
  - rewrite Z.add_0_r. destruct l as [|c l]; [apply cstr_nil in HC; by rewrite (load_at _ _ _ HC)|].
    apply cstr_cons in HC as (H0 & _). rewrite (load_at _ _ _ H0). cbn [mbind outcome_bind]. by rewrite HS.
  - apply cstr_cons in HC as (H0 & _ & HC). apply Forall_cons in HF as [Hc HF]. rewrite (load_at _ _ _ H0). cbn [mbind outcome_bind].
    rewrite Hc, (IH f (p + 1) l) by (done || lia). f_equal. lia.
Qed.

Lemma parse_digits_ok m ds : forall f p acc l, cstr m p (ds ++ l) -> Forall (fun c => isdigit c = true) ds -> (length ds < f)%nat ->
  (match l with [] => True | c :: _ => isdigit c = false end) -> 0 <= acc -> digits_value acc ds <= 2 ^ 31 ->
  parse_digits m f p (- acc) = Ok (- digits_value acc ds).
Proof.
  induction ds as [|c ds IH]; intros [|f] p acc l HC HF Hn HS Ha Hv; cbn [length app] in *; try lia; cbn [parse_digits].
  - destruct l as [|c l]; [apply cstr_nil in HC; by rewrite (load_at _ _ _ HC)|].
    apply cstr_cons in HC as (H0 & _). rewrite (load_at _ _ _ H0). cbn [mbind outcome_bind]. by rewrite HS.
  - apply cstr_cons in HC as (H0 & _ & HC). apply Forall_cons in HF as [Hc HF]. rewrite (load_at _ _ _ H0). cbn [mbind outcome_bind].
    rewrite Hc. apply isdigit_range in Hc. change (digits_value acc (c :: ds)) with (digits_value (acc * 10 + (c - 48)) ds) in *.
    pose proof (digits_value_le ds (acc * 10 + (c - 48)) ltac:(lia) HF). replace (- acc * 10 - (c - 48)) with (- (acc * 10 + (c - 48))) by lia.
    rewrite s32_small by solve_int. apply (IH f (p + 1) _ l); (done || lia).
Qed.

(** atoi on white space, an optional sign, at least one digit and anything that does
    not start with a digit returns the number written there, for every number an int can
    hold, the smallest one included. *)
Theorem atoi_correct m p sp sign ds l : p <> 0 -> cstr m p (sp ++ sign ++ ds ++ l) -> Forall (fun c => isspace c = true) sp ->
  sign = [] \/ sign = [43] \/ sign = [45] -> ds <> [] -> Forall (fun c => isdigit c = true) ds ->
  (match l with [] => True | c :: _ => isdigit c = false end) ->
  digits_value 0 ds < 2 ^ 31 \/ (sign = [45] /\ digits_value 0 ds = 2 ^ 31) ->
  atoi m p = Ok (if decide (sign = [45]) then - digits_value 0 ds else digits_value 0 ds).
Proof.
  intros Hp HC HS Hsg Hne HD HL HV. pose proof (cstr_size _ _ _ HC) as HZ. rewrite !length_app in HZ. pose proof (digits_value_le ds 0 ltac:(lia) HD) as H0.
  assert (HV' : digits_value 0 ds <= 2 ^ 31) by (destruct HV as [|[_ ->]]; lia).
  unfold atoi. rewrite (proj2 (Z.eqb_neq p 0)) by done. cbn [negb assert mbind outcome_bind].
  destruct ds as [|d ds]; [done|]. pose proof (Forall_inv HD) as Hd. apply isdigit_range in Hd.
  rewrite (skip_space_ok m sp _ p (sign ++ (d :: ds) ++ l)); [|done|done|unfold fuel; lia|].
  2:{ destruct Hsg as [-> | [-> | ->]]; [|done..]. cbn. unfold isspace. rewrite !(proj2 (Z.eqb_neq d _)) by lia. done. }
  cbn [mbind outcome_bind]. apply (cstr_drop _ _ _ (length sp)) in HC; [|rewrite length_app; lia]. rewrite drop_app_length in HC.
  set (q := p + Z.of_nat (length sp)) in *.
  assert (HQ : exists c, load m q = Ok c /\ (c =? 45) = bool_decide (sign = [45]) /\ cstr m (if (c =? 43) || (c =? 45) then q + 1 else q) ((d :: ds) ++ l)).
  { destruct Hsg as [-> | [-> | ->]]; cbn [app] in HC; pose proof HC as (E & _ & HC')%cstr_cons; (eexists; split; [by apply load_at|]); [|by split..].
    rewrite (proj2 (Z.eqb_neq d 45)), (proj2 (Z.eqb_neq d 43)) by lia. by split. }
  destruct HQ as (c & Ec & Es & HC'). rewrite Ec. cbn [mbind outcome_bind].
  pose proof (parse_digits_ok m (d :: ds) (fuel m) _ 0 l HC' HD ltac:(unfold fuel; lia) HL ltac:(lia) HV') as HX. change (- 0) with 0 in HX. rewrite HX, Es.
  cbn [mbind outcome_bind]. destruct (decide (sign = [45])) as [Hs|Hs].
  - by rewrite bool_decide_eq_true_2.
  - rewrite bool_decide_eq_false_2 by done. cbn [negb]. rewrite Z.opp_involutive, s32_small by (destruct HV as [|[? _]]; [solve_int|done]). done.
Qed.

(** ** Examples *)

(** Single bytes compared as numbers. *)
Definition byte_compare (a b : Z) (m : mem) : outcome Z := let* x := load m a in let* y := load m b in mret (x - y).
Definition byte_cmp (x y : list Z) : Z := match x, y with a :: _, b :: _ => a - b | [], [] => 0 | [], _ => -1 | _, [] => 1 end.
Definition demo_array : list (list Z) := [[7]; [3]; [9]; [3]; [1]].

Lemma byte_compare_ok m a b x y : bytes_at m a x -> bytes_at m b y -> element 1 x -> element 1 y -> byte_compare a b m = Ok (byte_cmp x y).
Proof.
  intros HA HB [LX _] [LY _]. destruct x as [|x [|]], y as [|y [|]]; cbn in LX, LY; try lia.
  apply bytes_at_cons in HA as [HA _]. apply bytes_at_cons in HB as [HB _]. unfold byte_compare. by rewrite (load_at _ _ _ HA), (load_at _ _ _ HB).
Qed.
Lemma byte_cmp_trans x y z : byte_cmp x y <= 0 -> byte_cmp y z <= 0 -> byte_cmp x z <= 0.
Proof. destruct x, y, z; cbn; lia. Qed.
Lemma byte_cmp_sym x y : 0 < byte_cmp x y <-> byte_cmp y x < 0.
Proof. destruct x, y; cbn; lia. Qed.

Lemma demo_arr p l : Forall is_u8 l -> arr 1 (put p l ∅) p ((fun c => [c]) <$> l).
Proof.
  intros HF i e He. apply list_lookup_fmap_Some in He as (c & -> & Hc). split; [|split; [done|constructor; [|constructor]]].
  - apply bytes_at_cons. split; [|apply bytes_at_nil]. rewrite Z.mul_1_r. by apply bytes_at_put.
  - by apply (Forall_lookup_1 _ _ _ _ HF Hc).
Qed.

Lemma sort_correct_witness : exists m' es', sort byte_compare 1 100 5 (put 100 [7; 3; 9; 3; 1] ∅) = Ok (tt, m') /\ arr 1 m' 100 es' /\
  es' ≡ₚ demo_array /\ sorted byte_cmp es'.
Proof.
  destruct (sort_correct byte_compare 1 byte_cmp ltac:(lia) byte_compare_ok byte_cmp_trans byte_cmp_sym 100 5 (put 100 [7; 3; 9; 3; 1] ∅) demo_array)
    as (m' & es' & H1 & H2 & H3 & H4 & _); [lia|lia|lia|done|apply (demo_arr 100 [7; 3; 9; 3; 1]); by repeat constructor|]. exists m', es'. auto.
Defined.

End Qsort.
