(* ===== verification/Palloc.v ===== *)
(** * Page allocator (src/threads/palloc.c)

    Two pools of pages, each a bitmap of used pages and a base address.  The bitmap is
    any implementation of [Bitmap.BitArray]; [init_pool] builds the one of bitmap.c.
    Memory contents are a function from addresses to bytes, so that [PAL_ZERO] and the
    debugging fill of freed pages are visible.  The pools' locks only exclude other
    threads and have no effect here. *)

From S2P Require Import Prelude Vaddr Bitmap.
Import Vaddr Bitmap.

Module Palloc.

Definition PAL_ASSERT : Z := 1.
Definition PAL_ZERO : Z := 2.
Definition PAL_USER : Z := 4.
Definition has (flags f : Z) : bool := negb (Z.land flags f =? 0).

Definition memory := Z -> Z.
(** [memset (p, v, n)] *)
Definition memset (p v n : Z) (m : memory) : memory :=
  fun a => if (p <=? a) && (a <? p + n) then v else m a.

Record pool (B : Type) := Pool { used_map : B; base : Z }.
Arguments Pool {_} _ _.
Arguments used_map {_} _.
Arguments base {_} _.

Record pstate (B : Type) := PState { kernel_pool : pool B; user_pool : pool B; mem : memory }.
Arguments PState {_} _ _ _.
Arguments kernel_pool {_} _.
Arguments user_pool {_} _.
Arguments mem {_} _.

Definition DIV_ROUND_UP32 (x step : Z) : Z := u32 (x + step - 1) / step.

(** [junk] is the old contents of the words after the bitmap header at [base]. *)
Definition init_pool (base page_cnt : Z) (junk : list Z) : outcome (pool bitmap) :=
  let bm_pages := DIV_ROUND_UP32 (bitmap_buf_size page_cnt) PGSIZE in
  if page_cnt <? bm_pages then Fail FPanic else
  let page_cnt := page_cnt - bm_pages in
  let* b := bitmap_create_in_buf page_cnt junk (bm_pages * PGSIZE) in
  mret (Pool b (u32 (base + bm_pages * PGSIZE))).

Definition palloc_init (init_ram_pages user_page_limit : Z) (junk1 junk2 : list Z) (m : memory) :
    outcome (pstate bitmap) :=
  let* free_start := ptov (1024 * 1024) in
  let* free_end := ptov (u32 (init_ram_pages * PGSIZE)) in
  let free_pages := u32 (free_end - free_start) / PGSIZE in
  let user_pages := free_pages / 2 in
  let user_pages := if user_page_limit <? user_pages then user_page_limit else user_pages in
  let kernel_pages := free_pages - user_pages in
  let* kp := init_pool free_start kernel_pages junk1 in
  let* up := init_pool (u32 (free_start + kernel_pages * PGSIZE)) user_pages junk2 in
  mret (PState kp up m).

Section Ops.
Context {B : Type} `{BA : BitArray B}.

Definition page_from_pool (p : pool B) (page : Z) : bool :=
  let page_no := pg_no page in
  let start_page := pg_no (base p) in
  let end_page := u32 (start_page + ba_size (used_map p)) in
  (start_page <=? page_no) && (page_no <? end_page).

Definition set_pool (user : bool) (p : pool B) (s : pstate B) : pstate B :=
  if user then PState (kernel_pool s) p (mem s) else PState p (user_pool s) (mem s).
Definition get_pool (user : bool) (s : pstate B) : pool B :=
  if user then user_pool s else kernel_pool s.
Definition set_mem (m : memory) (s : pstate B) : pstate B := PState (kernel_pool s) (user_pool s) m.

Definition palloc_get_multiple (s : pstate B) (flags page_cnt : Z) : outcome (Z * pstate B) :=
  let user := has flags PAL_USER in
  let p := get_pool user s in
  if page_cnt =? 0 then mret (0, s) else
  let* r := ba_scan_and_flip (used_map p) 0 page_cnt false in
  let page_idx := r.1 in
  let s := set_pool user (Pool r.2 (base p)) s in
  let pages := if negb (page_idx =? BITMAP_ERROR) then u32 (base p + PGSIZE * page_idx) else 0 in
  if negb (pages =? 0) then
    if has flags PAL_ZERO then mret (pages, set_mem (memset pages 0 (PGSIZE * page_cnt) (mem s)) s)
    else mret (pages, s)
  else if has flags PAL_ASSERT then Fail FPanic else mret (pages, s).

Definition palloc_get_page (s : pstate B) (flags : Z) : outcome (Z * pstate B) :=
  palloc_get_multiple s flags 1.

Definition palloc_free_multiple (s : pstate B) (pages page_cnt : Z) : outcome (pstate B) :=
  do* assert (pg_ofs pages =? 0);
  if (pages =? 0) || (page_cnt =? 0) then mret s else
  let* user :=
    if page_from_pool (kernel_pool s) pages then Ok false
    else if page_from_pool (user_pool s) pages then Ok true
    else Fail FPanic in
  let p := get_pool user s in
  let page_idx := pg_no pages - pg_no (base p) in
  let s := set_mem (memset pages 0xcc (PGSIZE * page_cnt) (mem s)) s in
  let* all := ba_all (used_map p) page_idx page_cnt in
  do* assert all;
  let* b := ba_set_multiple (used_map p) page_idx page_cnt false in
  mret (set_pool user (Pool b (base p)) s).

Definition palloc_free_page (s : pstate B) (page : Z) : outcome (pstate B) :=
  palloc_free_multiple s page 1.

(** ** Abstract state: which pages of a pool are in use *)

Record pool_repr (p : pool B) (bs : list bool) : Prop := {
  pr_map : ba_repr (used_map p) bs;
  pr_aligned : base p mod 4096 = 0;
  pr_low : PHYS_BASE < base p;
  pr_high : base p + 4096 * Z.of_nat (length bs) < 2 ^ 32
}.

(** Kernel and user pools, the kernel's pages all below the user's. *)
Record state_repr (s : pstate B) (ks us : list bool) : Prop := {
  sr_kernel : pool_repr (kernel_pool s) ks;
  sr_user : pool_repr (user_pool s) us;
  sr_apart : base (kernel_pool s) + 4096 * Z.of_nat (length ks) <= base (user_pool s)
}.

Definition pick_bits (user : bool) (ks us : list bool) : list bool := if user then us else ks.
Definition upd_bits (user : bool) (bs ks us : list bool) : list bool * list bool :=
  if user then (ks, bs) else (bs, us).

Lemma mem_set_pool user (p : pool B) m s : mem (set_pool user p (set_mem m s)) = m.
Proof. by destruct user. Qed.

Lemma memset_in p v n m a : p <= a < p + n -> memset p v n m a = v.
Proof. intros H. unfold memset. rewrite (proj2 (Z.leb_le p a)), (proj2 (Z.ltb_lt a (p + n))) by lia. done. Qed.
Lemma memset_out p v n m a : ~ (p <= a < p + n) -> memset p v n m a = m a.
Proof. intros H. unfold memset. destruct (Z.leb_spec p a), (Z.ltb_spec a (p + n)); try done; lia. Qed.

Lemma pool_repr_fill p bs b bs' :
  pool_repr p bs -> ba_repr b bs' -> length bs' = length bs -> pool_repr (Pool b (base p)) bs'.
Proof. intros [P1 P3 P4 P5] HB HL. split; cbn; rewrite ?HL; done. Qed.

Lemma state_repr_upd user s ks us b bs' m :
  state_repr s ks us -> ba_repr b bs' -> length bs' = length (pick_bits user ks us) ->
  state_repr (set_pool user (Pool b (base (get_pool user s))) (set_mem m s))
    (upd_bits user bs' ks us).1 (upd_bits user bs' ks us).2.
Proof.
  intros [S1 S2 S3] HB HL. destruct user; cbn in *; split; cbn; rewrite ?HL; try done; by eapply pool_repr_fill.
Qed.

Lemma get_pool_repr user s ks us :
  state_repr s ks us -> pool_repr (get_pool user s) (pick_bits user ks us).
Proof. intros [S1 S2 S3]. by destruct user. Qed.

(** What a call for [cnt] pages of one pool promises. *)
Definition get_spec (s : pstate B) (ks us : list bool) (flags cnt : Z) (r : outcome (Z * pstate B)) : Prop :=
  let user := has flags PAL_USER in
  let bs := pick_bits user ks us in
  (exists i s', r = Ok (base (get_pool user s) + 4096 * Z.of_nat i, s') /\
    group bs i (Z.to_nat cnt) false /\
    (forall j, (j < i)%nat -> ~ group bs j (Z.to_nat cnt) false) /\
    state_repr s' (upd_bits user (fill i (Z.to_nat cnt) true bs) ks us).1
                  (upd_bits user (fill i (Z.to_nat cnt) true bs) ks us).2 /\
    (forall a, base (get_pool user s) + 4096 * Z.of_nat i <= a < base (get_pool user s) + 4096 * (Z.of_nat i + cnt) ->
      has flags PAL_ZERO = true -> mem s' a = 0) /\
    (forall a, ~ (base (get_pool user s) + 4096 * Z.of_nat i <= a < base (get_pool user s) + 4096 * (Z.of_nat i + cnt)) ->
      mem s' a = mem s a)) \/
  ((forall i, ~ group bs i (Z.to_nat cnt) false) /\
    if has flags PAL_ASSERT then r = Fail FPanic
    else exists s', r = Ok (0, s') /\ state_repr s' ks us /\ mem s' = mem s).

Lemma palloc_get_ok s ks us flags cnt :
  state_repr s ks us -> 0 < cnt -> get_spec s ks us flags cnt (palloc_get_multiple s flags cnt).
Proof.
  intros R Hc. unfold palloc_get_multiple, get_spec. rewrite (proj2 (Z.eqb_neq cnt 0)) by lia.
  set (user := has flags PAL_USER). pose proof (get_pool_repr user _ _ _ R) as PR.
  set (p := get_pool user s) in *. set (bs := pick_bits user ks us) in *.
  destruct (ba_scan_and_flip_ok (used_map p) bs 0 cnt false (pr_map _ _ PR)) as (r & b' & -> & HF & HR); [lia..|].
  cbn [mbind outcome_bind fst snd]. destruct HF as [(i & -> & Hne & _ & Hg & Hm)|[-> Hn]].
  - left. rewrite decide_False in HR by done. rewrite (proj2 (Z.eqb_neq _ BITMAP_ERROR)) by done. cbn [negb].
    destruct PR as [P1 P3 P4 P5]. pose proof Hg as [Hl _]. change PGSIZE with 4096. change PHYS_BASE with 3221225472 in P4.
    rewrite u32_small by solve_int. rewrite (proj2 (Z.eqb_neq _ 0)) by lia. cbn [negb].
    exists i. rewrite Nat2Z.id in HR. assert (HL := length_fill i (Z.to_nat cnt) true bs Hl).
    destruct (has flags PAL_ZERO) eqn:EZ; eexists; (split; [done|]); (split; [done|]);
      (split; [intros j Hj; apply Hm; lia|]).
    + assert (E : set_mem (memset (base p + 4096 * Z.of_nat i) 0 (4096 * cnt) (mem (set_pool user (Pool b' (base p)) s)))
        (set_pool user (Pool b' (base p)) s) = set_pool user (Pool b' (base p))
        (set_mem (memset (base p + 4096 * Z.of_nat i) 0 (4096 * cnt) (mem s)) s)) by (by destruct user).
      rewrite E. split; [by apply state_repr_upd|]. split.
      * intros a Ha _. rewrite mem_set_pool. apply memset_in. lia.
      * intros a Ha. rewrite mem_set_pool. apply memset_out. lia.
    + split; [|split; [done|by destruct user]].
      assert (E : set_pool user (Pool b' (base p)) s = set_pool user (Pool b' (base p)) (set_mem (mem s) s)) by (by destruct user, s).
      rewrite E. by apply state_repr_upd.
  - right. rewrite decide_True in HR by done. rewrite Z.eqb_refl. cbn [negb]. rewrite Z.eqb_refl. cbn [negb].
    split; [intros i; apply Hn; lia|]. destruct (has flags PAL_ASSERT); [done|]. eexists. split; [done|].
    split; [|by destruct user].
    assert (E : set_pool user (Pool b' (base p)) s = set_pool user (Pool b' (base p)) (set_mem (mem s) s)) by (by destruct user, s).
    rewrite E. pose proof (state_repr_upd user s ks us b' bs (mem s) R HR eq_refl) as S'. unfold bs in S'.
    by destruct user.
Qed.

Lemma page_from_pool_ok p bs a :
  pool_repr p bs -> a mod 4096 = 0 -> 0 <= a < 2 ^ 32 ->
  page_from_pool p a = bool_decide (base p <= a < base p + 4096 * Z.of_nat (length bs)).
Proof.
  intros [P1 P3 P4 P5] Ha Hr. unfold page_from_pool. rewrite !pg_no_div, (ba_size_ok _ _ P1).
  change PHYS_BASE with 3221225472 in P4.
  assert (Eb : base p = 4096 * (base p / 4096)) by (apply Z_div_exact_full_2; lia).
  assert (Ea : a = 4096 * (a / 4096)) by (apply Z_div_exact_full_2; lia).
  set (q := base p / 4096) in *. set (t := a / 4096) in *. rewrite u32_small by solve_int.
  destruct (Z.leb_spec q t), (Z.ltb_spec t (q + Z.of_nat (length bs)));
    cbn; symmetry; (apply bool_decide_eq_true_2 || apply bool_decide_eq_false_2); lia.
Qed.

Lemma palloc_free_ok s ks us user i cnt :
  state_repr s ks us -> 0 < cnt -> (i + Z.to_nat cnt <= length (pick_bits user ks us))%nat ->
  let bs := pick_bits user ks us in
  let p := base (get_pool user s) + 4096 * Z.of_nat i in
  if bool_decide (false ∉ slice i (Z.to_nat cnt) bs) then
    exists s', palloc_free_multiple s p cnt = Ok s' /\
      state_repr s' (upd_bits user (fill i (Z.to_nat cnt) false bs) ks us).1
                    (upd_bits user (fill i (Z.to_nat cnt) false bs) ks us).2 /\
      mem s' = memset p 0xcc (4096 * cnt) (mem s)
  else palloc_free_multiple s p cnt = Fail FAssert.
Proof.
  intros R Hc Hl bs p. pose proof (get_pool_repr user _ _ _ R) as PR. fold bs in PR, Hl.
  pose proof PR as [P1 P3 P4 P5]. change PHYS_BASE with 3221225472 in P4.
  assert (Hp : p mod 4096 = 0).
  { unfold p. rewrite Z.add_mod, (Z.mul_comm 4096), Z_mod_mult, P3 by lia. done. }
  assert (Hr : 3221225472 < p < 2 ^ 32) by (unfold p; lia).
  unfold palloc_free_multiple. rewrite pg_ofs_mod, Hp. cbn [Z.eqb assert mbind outcome_bind].
  rewrite (proj2 (Z.eqb_neq p 0)), (proj2 (Z.eqb_neq cnt 0)) by lia. cbn [orb].
  assert (EU : (if page_from_pool (kernel_pool s) p then Ok false
    else if page_from_pool (user_pool s) p then Ok true else Fail FPanic) = Ok user).
  { destruct R as [S1 S2 S3]. rewrite (page_from_pool_ok _ ks), (page_from_pool_ok _ us) by (done || lia).
    destruct user; cbn in *; [rewrite bool_decide_eq_false_2, bool_decide_eq_true_2|rewrite bool_decide_eq_true_2];
      (done || lia). }
  rewrite EU. cbn [mbind outcome_bind].
  assert (EI : pg_no p - pg_no (base (get_pool user s)) = Z.of_nat i).
  { rewrite !pg_no_div. unfold p. rewrite (Z.mul_comm 4096), Z.div_add by lia. lia. }
  rewrite EI, (ba_all_ok _ bs) by (done || lia). rewrite Nat2Z.id. cbn [mbind outcome_bind].
  case_bool_decide as HG; [|done]. cbn [assert mbind outcome_bind].
  destruct (ba_set_multiple_ok _ bs (Z.of_nat i) cnt false P1) as (b' & -> & HB); [lia..|].
  cbn [mbind outcome_bind]. eexists. split; [done|]. rewrite Nat2Z.id in HB. split.
  - apply state_repr_upd; [done|done|]. by rewrite length_fill.
  - change PGSIZE with 4096. by destruct user.
Qed.

(** The pools stay where they are. *)
Definition same_bases (s s' : pstate B) : Prop :=
  base (kernel_pool s') = base (kernel_pool s) /\ base (user_pool s') = base (user_pool s).

Lemma set_pool_bases user b s m : same_bases s (set_pool user (Pool b (base (get_pool user s))) (set_mem m s)).
Proof. by destruct user. Qed.
Lemma set_pool_bases' user b s : same_bases s (set_pool user (Pool b (base (get_pool user s))) s).
Proof. by destruct user. Qed.

Lemma palloc_get_bases s flags cnt r s' : palloc_get_multiple s flags cnt = Ok (r, s') -> same_bases s s'.
Proof.
  unfold palloc_get_multiple. destruct (cnt =? 0); [by intros [= _ <-]|].
  intros ([i b] & _ & H)%outcome_bind_inv. cbn [fst snd] in H. revert H.
  repeat case_match; intros HX; try done; injection HX as _ <-; apply set_pool_bases'.
Qed.

Lemma palloc_free_bases s p cnt s' : palloc_free_multiple s p cnt = Ok s' -> same_bases s s'.
Proof.
  unfold palloc_free_multiple. intros ([] & _ & H)%outcome_bind_inv. revert H. destruct (_ || _); [by intros [= <-]|].
  intros (user & _ & H)%outcome_bind_inv. apply outcome_bind_inv in H as (a & _ & H).
  apply outcome_bind_inv in H as (u & _ & H). apply outcome_bind_inv in H as (b & _ & H).
  injection H as <-. apply set_pool_bases.
Qed.

(** C18: a request for [cnt] pages is answered with the address of the first run of free pages
    of the pool the flags select, which become used and, on request, zero; no other page's
    state or contents change.  Only when the pool has no such run does it return null
    without any effect, or panic under [PAL_ASSERT].  First means that no run of [cnt] free pages
    starts below the one returned. *)
Theorem palloc_get_multiple_correct s ks us flags cnt :
  state_repr s ks us -> 0 < cnt -> get_spec s ks us flags cnt (palloc_get_multiple s flags cnt).
Proof. apply palloc_get_ok. Qed.

(** A run of pages just obtained can be given back, once: the pool is as it was, and so is all other memory. *)
Lemma get_then_free s ks us flags cnt p s1 :
  state_repr s ks us -> 0 < cnt -> palloc_get_multiple s flags cnt = Ok (p, s1) -> p <> 0 ->
  exists s2, palloc_free_multiple s1 p cnt = Ok s2 /\ state_repr s2 ks us /\
    (forall a, ~ (p <= a < p + 4096 * cnt) -> mem s2 a = mem s a) /\ palloc_free_multiple s2 p cnt = Fail FAssert.
Proof.
  intros R Hc E Hp. set (user := has flags PAL_USER). set (bs := pick_bits user ks us).
  destruct (palloc_get_ok s ks us flags cnt R Hc) as [(i & s' & E1 & G & _ & R1 & _ & HM)|[_ H]].
  2:{ destruct (has flags PAL_ASSERT); [congruence|]. destruct H as (s' & E1 & _). congruence. }
  fold user in E1, G, R1, HM. fold bs in G, R1. rewrite E in E1. injection E1 as -> <-. set (p := base (get_pool user s) + 4096 * Z.of_nat i) in *.
  pose proof G as [Hl _]. set (bs1 := fill i (Z.to_nat cnt) true bs) in *. assert (L1 : length bs1 = length bs) by by apply length_fill.
  assert (HB : forall s', same_bases s s' -> base (get_pool user s') = base (get_pool user s)) by (intros s' [? ?]; by destruct user).
  pose proof (palloc_get_bases _ _ _ _ _ E) as B1.
  assert (EP : forall v, pick_bits user (upd_bits user v ks us).1 (upd_bits user v ks us).2 = v) by (by destruct user).
  assert (EU : forall v w, upd_bits user v (upd_bits user w ks us).1 (upd_bits user w ks us).2 = upd_bits user v ks us) by (by destruct user).
  pose proof (palloc_free_ok s1 _ _ user i cnt R1 Hc) as H. cbv zeta in H. rewrite EP, EU, L1, (HB s1 B1) in H. fold p in H. specialize (H Hl).
  rewrite bool_decide_eq_true_2 in H.
  2:{ apply (group_slice bs1 i (Z.to_nat cnt) true); [lia|]. split; [lia|]. intros k Hk. unfold bs1. rewrite lookup_fill by done. by rewrite decide_True by lia. }
  destruct H as (s2 & E2 & R2 & HM2). pose proof (fill_fill bs i (Z.to_nat cnt) true G : fill i _ false bs1 = bs) as FF. rewrite FF in R2.
  assert (R2' : state_repr s2 ks us) by (unfold bs in R2; by destruct user). exists s2. split; [done|]. split; [done|]. split.
  - intros a Ha. rewrite HM2, memset_out by done. apply HM. lia.
  - pose proof (palloc_free_ok s2 ks us user i cnt R2' Hc Hl) as H. cbv zeta in H. pose proof (palloc_free_bases _ _ _ _ E2) as [X1 X2]. destruct B1 as [Y1 Y2].
    rewrite (HB s2) in H by (split; congruence). fold bs p in H. rewrite bool_decide_eq_false_2 in H; [done|].
    rewrite (group_slice bs i (Z.to_nat cnt) true Hl). intros [_ G']. destruct G as [_ G]. specialize (G 0%nat ltac:(lia)). specialize (G' 0%nat ltac:(lia)). congruence.
Qed.

(** C19: freeing pages that are all in use makes exactly these free again and fills them with the
    debugging pattern; freeing any range of a pool that has a free page in it stops the kernel.  What a
    request for pages answered can be given back: both pools are then as before the request, all other
    memory is as it was, and giving the pages back a second time stops the kernel. *)
Theorem palloc_free_multiple_correct s ks us cnt :
  state_repr s ks us -> 0 < cnt ->
  (forall user i, (i + Z.to_nat cnt <= length (pick_bits user ks us))%nat ->
    let bs := pick_bits user ks us in
    let p := base (get_pool user s) + 4096 * Z.of_nat i in
    (group bs i (Z.to_nat cnt) true ->
      exists s', palloc_free_multiple s p cnt = Ok s' /\
        state_repr s' (upd_bits user (fill i (Z.to_nat cnt) false bs) ks us).1
                      (upd_bits user (fill i (Z.to_nat cnt) false bs) ks us).2 /\
        mem s' = memset p 0xcc (4096 * cnt) (mem s)) /\
    (~ group bs i (Z.to_nat cnt) true -> palloc_free_multiple s p cnt = Fail FAssert)) /\
  (forall flags p s1, palloc_get_multiple s flags cnt = Ok (p, s1) -> p <> 0 ->
    exists s2, palloc_free_multiple s1 p cnt = Ok s2 /\ state_repr s2 ks us /\
      (forall a, ~ (p <= a < p + 4096 * cnt) -> mem s2 a = mem s a) /\
      palloc_free_multiple s2 p cnt = Fail FAssert).
Proof.
  intros R Hc. split; [|intros flags p s1; by apply get_then_free]. intros user i Hl bs p.
  pose proof (palloc_free_ok s ks us user i cnt R Hc Hl) as H. cbn zeta in H. fold bs p in H.
  pose proof (group_slice bs i (Z.to_nat cnt) true Hl) as HG. cbn [negb] in HG. split; intros G.
  - rewrite bool_decide_eq_true_2 in H by (by apply HG). done.
  - rewrite bool_decide_eq_false_2 in H by (by rewrite HG). done.
Qed.

End Ops.

(** ** Initialisation *)

(** Pages the bitmap of a pool of [n] pages takes. *)
Definition bm_pages (n : Z) : Z := DIV_ROUND_UP32 (bitmap_buf_size n) PGSIZE.

Lemma buf_size_eq n : 0 <= n < 2 ^ 20 -> bitmap_buf_size n = 8 + 4 * ((n + 31) / 32).
Proof.
  intros Hn. unfold bitmap_buf_size, byte_cnt. rewrite elem_cnt_eq by lia.
  assert (0 <= (n + 31) / 32 <= n + 31) by (split; [apply Z.div_pos|apply Z.div_le_upper_bound]; lia).
  rewrite (u32_small (4 * _)), u32_small by solve_int. done.
Qed.

Lemma bm_pages_bounds n :
  1 <= n < 2 ^ 20 -> 1 <= bm_pages n <= n /\ 8 + 4 * ((n + 31) / 32) <= bm_pages n * 4096.
Proof.
  intros Hn. unfold bm_pages, DIV_ROUND_UP32. rewrite buf_size_eq by lia. change PGSIZE with 4096.
  assert (Hd : 0 <= (n + 31) / 32 <= n) by (split; [apply Z.div_pos|apply Z.div_le_upper_bound]; lia).
  rewrite u32_small by solve_int. set (d := (n + 31) / 32) in *.
  pose proof (Z.div_mod (8 + 4 * d + 4096 - 1) 4096 ltac:(lia)).
  pose proof (Z.mod_pos_bound (8 + 4 * d + 4096 - 1) 4096 ltac:(lia)). lia.
Qed.

Lemma init_pool_ok b k junk :
  b mod 4096 = 0 -> PHYS_BASE <= b -> 1 <= k -> b + 4096 * k < 2 ^ 32 ->
  (k + 31) / 32 <= Z.of_nat (length junk) -> Forall is_u32 junk ->
  exists p, init_pool b k junk = Ok p /\ base p = b + 4096 * bm_pages k /\
    pool_repr p (replicate (Z.to_nat (k - bm_pages k)) false).
Proof.
  intros Hb Hl Hk Hh HJ HF. change PHYS_BASE with 3221225472 in Hl.
  destruct (bm_pages_bounds k) as [[B1 B2] B3]; [lia|]. unfold init_pool. fold (bm_pages k).
  rewrite (proj2 (Z.ltb_ge _ _)) by lia. unfold bitmap_create_in_buf. rewrite buf_size_eq by lia.
  change PGSIZE with 4096. assert ((k - bm_pages k + 31) / 32 <= (k + 31) / 32) by (apply Z.div_le_mono; lia).
  rewrite (proj2 (Z.leb_le _ _)) by lia. cbn [assert mbind outcome_bind].
  destruct (repr_any (k - bm_pages k) junk) as (js & RJ & LJ); [lia|lia|rewrite elem_cnt_eq by lia; lia|done|].
  destruct (bitmap_set_all_ok _ js false RJ) as (bm & -> & R). cbn [mbind outcome_bind].
  rewrite u32_small by solve_int. eexists. split; [done|]. cbn [base]. split; [lia|]. rewrite LJ in R.
  split; cbn [used_map base]; rewrite ?length_replicate.
  - exact R.
  - by rewrite Z_mod_plus_full.
  - change PHYS_BASE with 3221225472. lia.
  - lia.
Qed.

(** for every RAM size of 1 MB plus at least two pages and less than 1 GB and every
    non-zero user page limit, initialisation succeeds and leaves two disjoint,
    page-aligned pools inside physical memory above 1 MB, all of whose pages are free. *)
Theorem palloc_init_correct ram limit junk1 junk2 m :
  258 <= ram < 2 ^ 18 -> 1 <= limit ->
  (ram + 31) / 32 <= Z.of_nat (length junk1) -> Forall is_u32 junk1 ->
  (ram + 31) / 32 <= Z.of_nat (length junk2) -> Forall is_u32 junk2 ->
  exists s nk nu, palloc_init ram limit junk1 junk2 m = Ok s /\
    state_repr s (replicate nk false) (replicate nu false) /\ mem s = m /\
    PHYS_BASE + 2 ^ 20 < base (kernel_pool s) /\
    base (user_pool s) + 4096 * Z.of_nat nu = PHYS_BASE + 4096 * ram.
Proof.
  intros Hr Hl J1 F1 J2 F2. unfold palloc_init.
  rewrite (ptov_ok (1024 * 1024)) by lia. cbn [mbind outcome_bind]. change PGSIZE with 4096.
  rewrite (u32_small (ram * 4096)), ptov_ok by solve_int. cbn [mbind outcome_bind]. change PHYS_BASE with 3221225472.
  set (fp := u32 (ram * 4096 + 3221225472 - (1024 * 1024 + 3221225472)) / 4096).
  assert (Ef : fp = ram - 256).
  { unfold fp. rewrite u32_small by solve_int. replace (ram * 4096 + 3221225472 - _) with ((ram - 256) * 4096) by lia.
    by rewrite Z.div_mul. }
  set (up := if limit <? fp / 2 then limit else fp / 2).
  assert (Hu : 1 <= up <= fp / 2).
  { unfold up. assert (1 <= fp / 2) by (apply Z.div_le_lower_bound; lia). destruct (Z.ltb_spec limit (fp / 2)); lia. }
  assert (fp / 2 <= fp - 1) by (apply Z.div_le_upper_bound; lia).
  assert (HM : forall n, n <= ram -> (n + 31) / 32 <= (ram + 31) / 32) by (intros; apply Z.div_le_mono; lia).
  destruct (init_pool_ok (1024 * 1024 + 3221225472) (fp - up) junk1) as (kp & -> & Bk & Rk);
    [done|done|lia|lia|specialize (HM (fp - up)); lia|done|]. cbn [mbind outcome_bind].
  rewrite u32_small by solve_int.
  destruct (init_pool_ok (1024 * 1024 + 3221225472 + (fp - up) * 4096) up junk2) as (upl & -> & Bu & Ru);
    [by rewrite Z_mod_plus_full|change PHYS_BASE with 3221225472; lia|lia|lia|specialize (HM up); lia|done|].
  cbn [mbind outcome_bind]. pose proof (bm_pages_bounds (fp - up) ltac:(lia)) as [? _].
  pose proof (bm_pages_bounds up ltac:(lia)) as [? _].
  eexists _, (Z.to_nat (fp - up - bm_pages (fp - up))), (Z.to_nat (up - bm_pages up)).
  split; [done|]. cbn [kernel_pool user_pool mem]. split; [|split; [done|lia]].
  split; cbn [kernel_pool user_pool]; [done|done|]. rewrite length_replicate, Bk, Bu. lia.
Qed.

(** ** Concrete state: eight kernel pages, three used, and four user pages *)

Definition demo_pstate : pstate bitmap :=
  PState (Pool (Bitmap 8 [11]) 0xc0101000) (Pool (Bitmap 4 [0]) 0xc0200000) (fun _ => 7).
Definition demo_kernel : list bool := [true; true; false; true; false; false; false; false].

Lemma small_repr n w bs :
  n = Z.of_nat (length bs) -> n <= 32 -> 0 < n -> is_u32 w ->
  forallb (fun i => bool_decide (bs !! i = Some (Z.testbit w (Z.of_nat i)))) (seq 0 (length bs)) = true ->
  repr (Bitmap n [w]) bs.
Proof.
  intros Hn Hs Hp Hw HB. split; cbn [bit_cnt bits]; [done|lia|rewrite elem_cnt_eq by lia; cbn|by apply Forall_singleton|].
  - pose proof (Z.div_lt_upper_bound (n + 31) 32 2). lia.
  - intros i Hi. rewrite forallb_forall in HB. specialize (HB (Z.to_nat i)). rewrite in_seq in HB.
    rewrite Z2Nat.id in HB by lia. unfold bit, ELEM_BITS. cbn [bits].
    rewrite (Z.div_small i 32), (Z.mod_small i 32) by lia. cbn. by apply (bool_decide_eq_true_1 _), HB; lia.
Qed.

Lemma demo_state_repr : state_repr demo_pstate demo_kernel (replicate 4 false).
Proof.
  split; [split..|]; try (vm_compute; done); cbn [ba_repr bitmap_BitArray];
    apply small_repr; by vm_compute.
Qed.

Lemma palloc_get_multiple_correct_witness :
  get_spec demo_pstate demo_kernel (replicate 4 false) PAL_ZERO 2 (palloc_get_multiple demo_pstate PAL_ZERO 2).
Proof. apply (palloc_get_multiple_correct demo_pstate); [apply demo_state_repr|done]. Defined.

Lemma palloc_free_multiple_correct_witness :
  palloc_free_multiple demo_pstate 0xc0102000 2 = Fail FAssert /\
  (exists s', palloc_free_multiple demo_pstate 0xc0101000 2 = Ok s' /\
    state_repr s' [false; false; false; true; false; false; false; false] (replicate 4 false)) /\
  exists s1 s2, palloc_get_multiple demo_pstate PAL_ZERO 2 = Ok (0xc0105000, s1) /\ palloc_free_multiple s1 0xc0105000 2 = Ok s2 /\
    state_repr s2 demo_kernel (replicate 4 false) /\ palloc_free_multiple s2 0xc0105000 2 = Fail FAssert.
Proof.
  pose proof (palloc_free_multiple_correct demo_pstate demo_kernel (replicate 4 false) 2 demo_state_repr eq_refl) as [H H3].
  destruct (H false 1%nat ltac:(vm_compute; lia)) as [_ H1]. destruct (H false 0%nat ltac:(vm_compute; lia)) as [H2 _].
  split; [|split].
  - apply H1. intros [_ HX]. specialize (HX 1%nat ltac:(lia)). done.
  - destruct H2 as (s' & E & R & _); [|by exists s']. split; [vm_compute; lia|]. intros [|[|k]] Hk; [done|done|]. vm_compute in Hk. lia.
  - eexists. destruct (H3 PAL_ZERO 0xc0105000 _ eq_refl ltac:(done)) as (s2 & E & R & _ & E'). exists s2. split; [reflexivity|]. done.
Defined.

End Palloc.
