(* ===== verification/Pages.v ===== *)
(** * What the page allocator promises to its clients

    Clients of src/threads/palloc.c (the block allocator, page directories, threads) only
    rely on this interface: which pages are in use, that a new run of pages is disjoint
    from them, and that giving back pages in use succeeds.  Palloc implements it. *)

From S2P Require Import Prelude Vaddr Bitmap Palloc.
Import Vaddr Bitmap Palloc.

Module Pages.

(** The addresses of [cnt] pages from [p] on. *)
Definition pages (p cnt : Z) : gset Z :=
  list_to_set ((fun i => p + 4096 * Z.of_nat i) <$> seq 0 (Z.to_nat cnt)).

Lemma elem_of_pages a p cnt : a ∈ pages p cnt <-> exists i, 0 <= i < cnt /\ a = p + 4096 * i.
Proof.
  unfold pages. rewrite elem_of_list_to_set, list_elem_of_fmap. split.
  - intros (n & -> & Hn%elem_of_seq). exists (Z.of_nat n). lia.
  - intros (i & Hi & ->). exists (Z.to_nat i). rewrite elem_of_seq. split; [f_equal; lia|lia].
Qed.

Lemma pages_one p : pages p 1 = {[ p ]}.
Proof. apply leibniz_equiv. intros a. rewrite elem_of_pages, elem_of_singleton. split; [intros (i & ? & ->); lia|]. intros ->. exists 0. lia. Qed.

Definition used_of (user : bool) (ks us : gset Z) : gset Z := if user then us else ks.

Class PageAlloc (P : Type) := {
  (** Pages [ks] of the kernel pool and [us] of the user pool are in use. *)
  pa_inv : P -> gset Z -> gset Z -> Prop;
  pa_get : P -> Z -> Z -> outcome (Z * P);
  pa_free : P -> Z -> Z -> outcome P;
  pa_range s ks us p : pa_inv s ks us -> p ∈ ks ∪ us -> p mod 4096 = 0 /\ PHYS_BASE < p /\ p + 4096 < 2 ^ 32;
  pa_apart s ks us : pa_inv s ks us -> ks ## us;
  pa_get_ok s ks us flags cnt : pa_inv s ks us -> 0 < cnt -> has flags PAL_ASSERT = false ->
    (exists s', pa_get s flags cnt = Ok (0, s') /\ pa_inv s' ks us) \/
    (exists p s', pa_get s flags cnt = Ok (p, s') /\ PHYS_BASE < p /\ p + 4096 * cnt < 2 ^ 32 /\
      pages p cnt ## ks ∪ us /\
      pa_inv s' (if has flags PAL_USER then ks else ks ∪ pages p cnt) (if has flags PAL_USER then us ∪ pages p cnt else us));
  pa_free_ok s ks us user p cnt : pa_inv s ks us -> 0 < cnt -> pages p cnt ⊆ used_of user ks us ->
    exists s', pa_free s p cnt = Ok s' /\
      pa_inv s' (if user then ks else ks ∖ pages p cnt) (if user then us ∖ pages p cnt else us);
  (** A state has one set of used pages in each pool. *)
  pa_inj s ks us ks' us' : pa_inv s ks us -> pa_inv s ks' us' -> ks = ks' /\ us = us';
  (** The end of the user pool and the number of pages of each pool, which stay; a request for one page
      of a pool fails only if all of its pages are in use. *)
  pa_top : P -> Z;
  pa_cap : P -> nat;
  pa_kcap : P -> nat;
  pa_top_ok s ks us p : pa_inv s ks us -> p ∈ us -> p + 4096 <= pa_top s;
  pa_cap_ok s ks us : pa_inv s ks us -> (size us <= pa_cap s)%nat;
  pa_full s ks us flags s' : pa_inv s ks us -> has flags PAL_ASSERT = false -> pa_get s flags 1 = Ok (0, s') ->
    if has flags PAL_USER then size us = pa_cap s else size ks = pa_kcap s;
  pa_get_same s ks us flags cnt r s' : pa_inv s ks us -> 0 < cnt -> has flags PAL_ASSERT = false -> pa_get s flags cnt = Ok (r, s') ->
    pa_top s' = pa_top s /\ pa_cap s' = pa_cap s /\ pa_kcap s' = pa_kcap s;
  pa_free_same s ks us user p cnt s' : pa_inv s ks us -> 0 < cnt -> pages p cnt ⊆ used_of user ks us -> pa_free s p cnt = Ok s' ->
    pa_top s' = pa_top s /\ pa_cap s' = pa_cap s /\ pa_kcap s' = pa_kcap s
}.

Lemma first_page p cnt : 0 < cnt -> p ∈ pages p cnt.
Proof. intros H. apply elem_of_pages. exists 0. lia. Qed.

(** ** The pools of palloc.c *)

Section Instance_.
Context {B : Type} `{BA : BitArray B}.

(** The addresses of the pages of a pool at [b] that are marked in [bs]. *)
Definition marked (b : Z) (bs : list bool) : gset Z :=
  list_to_set ((fun i => b + 4096 * Z.of_nat i) <$> filter (fun i => bs !! i = Some true) (seq 0 (length bs))).

Lemma elem_of_marked a b bs : a ∈ marked b bs <-> exists i, bs !! i = Some true /\ a = b + 4096 * Z.of_nat i.
Proof.
  unfold marked. rewrite elem_of_list_to_set, list_elem_of_fmap. split.
  - intros (i & -> & [Hi _]%list_elem_of_filter). by exists i.
  - intros (i & Hi & ->). exists i. split; [done|]. apply list_elem_of_filter. split; [done|].
    apply elem_of_seq. apply lookup_lt_Some in Hi. lia.
Qed.

Definition palloc_inv (s : pstate B) (ks us : gset Z) : Prop :=
  exists kb ub, state_repr s kb ub /\ ks = marked (base (kernel_pool s)) kb /\ us = marked (base (user_pool s)) ub.

Lemma marked_range p bs a : pool_repr p bs -> a ∈ marked (base p) bs ->
  a mod 4096 = 0 /\ base p <= a /\ a + 4096 <= base p + 4096 * Z.of_nat (length bs).
Proof.
  intros [P1 P2 P3 P4] (i & Hi & ->)%elem_of_marked. apply lookup_lt_Some in Hi.
  rewrite Z.add_mod, (Z.mul_comm 4096), Z_mod_mult, P2 by lia. split; [done|]. lia.
Qed.

Lemma marked_fill b bs i n v : (i + n <= length bs)%nat ->
  marked b (fill i n v bs) = if v : bool then marked b bs ∪ pages (b + 4096 * Z.of_nat i) (Z.of_nat n)
                             else marked b bs ∖ pages (b + 4096 * Z.of_nat i) (Z.of_nat n).
Proof.
  intros Hl. apply leibniz_equiv. intros a.
  assert (HP : a ∈ pages (b + 4096 * Z.of_nat i) (Z.of_nat n) <->
    exists j, (i <= j < i + n)%nat /\ a = b + 4096 * Z.of_nat j).
  { rewrite elem_of_pages. split; [intros (x & Hx & ->); exists (i + Z.to_nat x)%nat; lia|].
    intros (j & Hj & ->). exists (Z.of_nat (j - i)). lia. }
  destruct v; rewrite ?elem_of_union, ?elem_of_difference, !elem_of_marked, HP.
  - split.
    + intros (j & Hj & ->). rewrite lookup_fill in Hj by done. case_decide; [right|left]; eauto.
    + intros [(j & Hj & ->)|(j & Hj & ->)]; exists j; (split; [|done]); rewrite lookup_fill by done; case_decide; done.
  - split.
    + intros (j & Hj & ->). rewrite lookup_fill in Hj by done. case_decide as Hc; [done|]. split; [eauto|].
      intros (j' & Hj' & E). lia.
    + intros [(j & Hj & ->) Hn]. exists j. split; [|done]. rewrite lookup_fill by done. case_decide; [|done].
      destruct Hn. eauto.
Qed.

Lemma group_marked_disjoint b bs i n : group bs i n false -> pages (b + 4096 * Z.of_nat i) (Z.of_nat n) ## marked b bs.
Proof.
  intros [Hl Hg] a (x & Hx & ->)%elem_of_pages (j & Hj & E)%elem_of_marked.
  specialize (Hg (Z.to_nat x)). replace (i + Z.to_nat x)%nat with j in Hg by lia. rewrite Hg in Hj; [done|lia].
Qed.

Lemma palloc_range s ks us p : palloc_inv s ks us -> p ∈ ks ∪ us -> p mod 4096 = 0 /\ PHYS_BASE < p /\ p + 4096 < 2 ^ 32.
Proof.
  intros (kb & ub & [S1 S2 S3] & -> & ->) [H|H]%elem_of_union; [pose proof S1 as []|pose proof S2 as []];
    (eapply marked_range in H; [|done]); lia.
Qed.

Lemma palloc_apart s ks us : palloc_inv s ks us -> ks ## us.
Proof.
  intros (kb & ub & [S1 S2 S3] & -> & ->) a H1 H2. eapply marked_range in H1; [|done]. eapply marked_range in H2; [|done]. lia.
Qed.

(** The pages of a run inside one pool are not in the other. *)
Lemma run_other user s kb ub i n : state_repr s kb ub -> (i + n <= length (pick_bits user kb ub))%nat ->
  pages (base (get_pool user s) + 4096 * Z.of_nat i) (Z.of_nat n) ##
    marked (base (get_pool (negb user) s)) (pick_bits (negb user) kb ub).
Proof.
  intros [S1 S2 S3] Hl a (x & Hx & ->)%elem_of_pages H2.
  destruct user; cbn in *; (eapply marked_range in H2; [|done]); lia.
Qed.

Lemma palloc_get_pages s ks us flags cnt : palloc_inv s ks us -> 0 < cnt -> has flags PAL_ASSERT = false ->
  (exists s', palloc_get_multiple s flags cnt = Ok (0, s') /\ palloc_inv s' ks us) \/
  (exists p s', palloc_get_multiple s flags cnt = Ok (p, s') /\ PHYS_BASE < p /\ p + 4096 * cnt < 2 ^ 32 /\
    pages p cnt ## ks ∪ us /\
    palloc_inv s' (if has flags PAL_USER then ks else ks ∪ pages p cnt) (if has flags PAL_USER then us ∪ pages p cnt else us)).
Proof.
  intros (kb & ub & R & -> & ->) Hc HA. pose proof (palloc_get_ok s kb ub flags cnt R Hc) as [H|[_ H]].
  - destruct H as (i & s' & E & G & _ & R' & _). right. set (user := has flags PAL_USER) in *.
    pose proof G as [Hl _]. pose proof (get_pool_repr user _ _ _ R) as [P1 P2 P3 P4].
    pose proof (group_marked_disjoint (base (get_pool user s)) _ _ _ G) as D1. pose proof (run_other user s kb ub i _ R Hl) as D2.
    rewrite Z2Nat.id in D1, D2 by lia. eexists _, s'. split; [exact E|]. split; [lia|]. split; [lia|].
    apply palloc_get_bases in E as [BK BU]. split.
    + destruct user; cbn in D1, D2 |- *; set_solver.
    + exists (upd_bits user (fill i (Z.to_nat cnt) true (pick_bits user kb ub)) kb ub).1,
        (upd_bits user (fill i (Z.to_nat cnt) true (pick_bits user kb ub)) kb ub).2.
      split; [exact R'|]. rewrite BK, BU. destruct user; cbn [pick_bits upd_bits fst snd get_pool] in *; rewrite marked_fill, Z2Nat.id by (done || lia); done.
  - left. rewrite HA in H. destruct H as (s' & E & R' & _). exists s'. split; [done|].
    apply palloc_get_bases in E as [BK BU]. exists kb, ub. by rewrite BK, BU.
Qed.

Lemma pages_marked b bs p cnt : 0 < cnt -> pages p cnt ⊆ marked b bs ->
  exists i, p = b + 4096 * Z.of_nat i /\ group bs i (Z.to_nat cnt) true.
Proof.
  intros Hc HS. assert (H0 := HS p (first_page p cnt Hc)). apply elem_of_marked in H0 as (i & Hi & ->).
  exists i. split; [done|].
  assert (HG : forall k, (k < Z.to_nat cnt)%nat -> bs !! (i + k)%nat = Some true).
  { intros k Hk. assert (Hp : b + 4096 * Z.of_nat (i + k) ∈ pages (b + 4096 * Z.of_nat i) cnt).
    { apply elem_of_pages. exists (Z.of_nat k). lia. }
    apply HS, elem_of_marked in Hp as (j & Hj & E). by replace (i + k)%nat with j by lia. }
  split; [|done]. specialize (HG (Z.to_nat cnt - 1)%nat ltac:(lia)). apply lookup_lt_Some in HG. lia.
Qed.

Lemma palloc_free_pages s ks us user p cnt : palloc_inv s ks us -> 0 < cnt -> pages p cnt ⊆ used_of user ks us ->
  exists s', palloc_free_multiple s p cnt = Ok s' /\
    palloc_inv s' (if user then ks else ks ∖ pages p cnt) (if user then us ∖ pages p cnt else us).
Proof.
  intros (kb & ub & R & -> & ->) Hc HP.
  assert (HP' : pages p cnt ⊆ marked (base (get_pool user s)) (pick_bits user kb ub)) by (by destruct user).
  apply pages_marked in HP' as (i & -> & G); [|done]. pose proof G as [Hl _].
  pose proof (palloc_free_ok s kb ub user i cnt R Hc Hl) as H. cbv zeta in H.
  rewrite bool_decide_eq_true_2 in H by (by apply (group_slice _ i (Z.to_nat cnt) true)).
  destruct H as (s' & E & R' & _). exists s'. split; [exact E|]. apply palloc_free_bases in E as [BK BU].
  exists (upd_bits user (fill i (Z.to_nat cnt) false (pick_bits user kb ub)) kb ub).1,
    (upd_bits user (fill i (Z.to_nat cnt) false (pick_bits user kb ub)) kb ub).2.
  split; [exact R'|]. rewrite BK, BU. destruct user; cbn [pick_bits upd_bits fst snd get_pool] in *; rewrite marked_fill, Z2Nat.id by (done || lia); done.
Qed.

Definition user_end (s : pstate B) : Z := base (user_pool s) + 4096 * ba_size (used_map (user_pool s)).
Definition pool_cap (user : bool) (s : pstate B) : nat := Z.to_nat (ba_size (used_map (get_pool user s))).

Lemma pool_cap_eq user s kb ub : state_repr s kb ub -> pool_cap user s = length (pick_bits user kb ub).
Proof. intros R. destruct (get_pool_repr user _ _ _ R) as [M _ _ _]. unfold pool_cap. by rewrite (ba_size_ok _ _ M), Nat2Z.id. Qed.

Lemma user_end_same s s' kb ub kb' ub' : state_repr s kb ub -> state_repr s' kb' ub' -> length ub' = length ub -> length kb' = length kb -> same_bases s s' ->
  user_end s' = user_end s /\ pool_cap true s' = pool_cap true s /\ pool_cap false s' = pool_cap false s.
Proof.
  intros R R' L L' [_ E]. rewrite !(pool_cap_eq _ s kb ub), !(pool_cap_eq _ s' kb' ub') by done. destruct R as [_ [M _ _ _] _], R' as [_ [M' _ _ _] _].
  unfold user_end. by rewrite E, (ba_size_ok _ _ M), (ba_size_ok _ _ M'), L.
Qed.

Lemma palloc_inj s ks us ks' us' : palloc_inv s ks us -> palloc_inv s ks' us' -> ks = ks' /\ us = us'.
Proof.
  intros (kb & ub & [[M1 _ _ _] [M2 _ _ _] _] & -> & ->) (kb' & ub' & [[M1' _ _ _] [M2' _ _ _] _] & -> & ->).
  by rewrite (ba_inj _ _ _ M1 M1'), (ba_inj _ _ _ M2 M2').
Qed.

Lemma size_marked b bs : size (marked b bs) = length (filter (fun i => bs !! i = Some true) (seq 0 (length bs))).
Proof.
  unfold marked. rewrite size_list_to_set; [apply length_fmap|]. apply NoDup_fmap_2_strong.
  - intros i j _ _ H. lia.
  - apply NoDup_filter, NoDup_seq.
Qed.

Lemma palloc_cap s ks us : palloc_inv s ks us -> (size us <= pool_cap true s)%nat.
Proof.
  intros (kb & ub & R & _ & ->). rewrite (pool_cap_eq true _ _ _ R), size_marked. cbn [pick_bits].
  rewrite <- (length_seq (length ub) 0) at 2. apply length_filter.
Qed.

Lemma marked_full b bs : (forall i, ~ group bs i 1 false) -> size (marked b bs) = length bs.
Proof.
  intros H. rewrite size_marked.
  assert (F : forall l : list nat, (forall i, i ∈ l -> bs !! i = Some true) -> filter (fun i => bs !! i = Some true) l = l).
  { induction l as [|x l IH]; intros Hl; [done|]. rewrite filter_cons_True by (apply Hl; left). f_equal. apply IH. intros i Hi. apply Hl. by right. }
  rewrite F, length_seq; [done|]. intros i Hi%elem_of_seq. destruct (lookup_lt_is_Some_2 bs i) as [[] Hv]; [lia|done|].
  exfalso. apply (H i). split; [lia|]. intros k Hk. by replace (i + k)%nat with i by lia.
Qed.

Lemma palloc_full s ks us flags s' : palloc_inv s ks us -> has flags PAL_ASSERT = false -> palloc_get_multiple s flags 1 = Ok (0, s') ->
  if has flags PAL_USER then size us = pool_cap true s else size ks = pool_cap false s.
Proof.
  intros (kb & ub & R & -> & ->) HA E. destruct (palloc_get_ok s kb ub flags 1 R) as [(i & s1 & E1 & _)|[H _]]; [done| |].
  - exfalso. rewrite E in E1. destruct (get_pool_repr (has flags PAL_USER) _ _ _ R) as [_ _ L _]. unfold PHYS_BASE in L. injection E1 as E1 _. lia.
  - change (Z.to_nat 1) with 1%nat in H. destruct (has flags PAL_USER); rewrite (pool_cap_eq _ _ _ _ R); by apply marked_full.
Qed.

Lemma length_upd user i n v kb ub : (i + n <= length (pick_bits user kb ub))%nat ->
  length (upd_bits user (fill i n v (pick_bits user kb ub)) kb ub).2 = length ub /\ length (upd_bits user (fill i n v (pick_bits user kb ub)) kb ub).1 = length kb.
Proof. intros H. destruct user; split; done || by apply length_fill. Qed.

Lemma palloc_top s ks us p : palloc_inv s ks us -> p ∈ us -> p + 4096 <= user_end s.
Proof.
  intros (kb & ub & [_ S _] & _ & ->) H. pose proof S as [M _ _ _]. eapply marked_range in H; [|done]. unfold user_end. rewrite (ba_size_ok _ _ M). lia.
Qed.

Lemma palloc_get_same s ks us flags cnt r s' : palloc_inv s ks us -> 0 < cnt -> has flags PAL_ASSERT = false ->
  palloc_get_multiple s flags cnt = Ok (r, s') -> user_end s' = user_end s /\ pool_cap true s' = pool_cap true s /\ pool_cap false s' = pool_cap false s.
Proof.
  intros (kb & ub & R & _) Hc HA E. pose proof (palloc_get_bases _ _ _ _ _ E) as HB.
  destruct (palloc_get_ok s kb ub flags cnt R Hc) as [(i & s1 & E1 & [Hl _] & _ & R1 & _)|[_ H]]; rewrite E in *.
  - simplify_eq. eapply user_end_same; try done; by apply length_upd.
  - rewrite HA in H. destruct H as (s1 & E1 & R1 & _). simplify_eq. by eapply user_end_same.
Qed.

Lemma palloc_free_same s ks us user p cnt s' : palloc_inv s ks us -> 0 < cnt -> pages p cnt ⊆ used_of user ks us ->
  palloc_free_multiple s p cnt = Ok s' -> user_end s' = user_end s /\ pool_cap true s' = pool_cap true s /\ pool_cap false s' = pool_cap false s.
Proof.
  intros (kb & ub & R & -> & ->) Hc HP E. pose proof (palloc_free_bases _ _ _ _ E) as HB.
  assert (HP' : pages p cnt ⊆ marked (base (get_pool user s)) (pick_bits user kb ub)) by (by destruct user).
  apply pages_marked in HP' as (i & -> & G); [|done]. pose proof G as [Hl _].
  pose proof (palloc_free_ok s kb ub user i cnt R Hc Hl) as H. cbv zeta in H.
  rewrite bool_decide_eq_true_2 in H by (by apply (group_slice _ i (Z.to_nat cnt) true)).
  destruct H as (s1 & E1 & R1 & _). rewrite E in E1. simplify_eq. eapply user_end_same; try done; by apply length_upd.
Qed.

#[export] Instance palloc_PageAlloc : PageAlloc (pstate B) := {
  pa_inv := palloc_inv;
  pa_get := palloc_get_multiple;
  pa_free := palloc_free_multiple;
  pa_range := palloc_range;
  pa_apart := palloc_apart;
  pa_get_ok := palloc_get_pages;
  pa_free_ok := palloc_free_pages;
  pa_top := user_end;
  pa_inj := palloc_inj;
  pa_cap := pool_cap true;
  pa_kcap := pool_cap false;
  pa_top_ok := palloc_top;
  pa_cap_ok := palloc_cap;
  pa_full := palloc_full;
  pa_get_same := palloc_get_same;
  pa_free_same := palloc_free_same
}.

End Instance_.

End Pages.
