(* ===== verification/Malloc.v ===== *)
(** * The block allocator (src/threads/malloc.c)

    Requests up to 1 kB are served from arenas: pages cut into blocks of one size, whose
    free blocks are kept in the free list of the descriptor for that size.  Larger requests
    get pages of their own.  The state has the descriptors, the arena headers by page
    address, the bytes of the blocks, and the page allocator, of which only the promise in
    Pages is used.  Free lists are sequences of block addresses (LinkedList shows what that
    leaves out); each operation runs with its descriptor's lock held. *)

From S2P Require Import Prelude Vaddr Bitmap Palloc Pages.
Import Vaddr Bitmap Palloc Pages.

Module Malloc.

Record desc := Desc { block_sz : Z; blocks_per_arena : Z; free_list : list Z }.
Definition ARENA_MAGIC : Z := 0x9a548eed.
(** The owning descriptor by its index in [descs], [None] for a big block. *)
Record arena := Arena { magic : Z; owner : option nat; free_cnt : Z }.
Definition sizeof_arena : Z := 12.

Record mstate (P : Type) := MState {
  descs : list desc;
  arenas : gmap Z arena;
  bytes : Z -> Z;
  pst : P
}.
Arguments MState {_} _ _ _ _.
Arguments descs {_} _.
Arguments arenas {_} _.
Arguments bytes {_} _ _.
Arguments pst {_} _.

Section Ops.
Context {P : Type} `{PA : PageAlloc P}.
Implicit Types s : mstate P.

Definition set_descs (l : list desc) s : mstate P := MState l (arenas s) (bytes s) (pst s).
Definition set_arenas (m : gmap Z arena) s : mstate P := MState (descs s) m (bytes s) (pst s).
Definition set_bytes (f : Z -> Z) s : mstate P := MState (descs s) (arenas s) f (pst s).
Definition set_pst (p : P) s : mstate P := MState (descs s) (arenas s) (bytes s) p.

(** What [memset] and [memcpy] do to memory. *)
Definition fill_bytes (p v n : Z) (f : Z -> Z) : Z -> Z := fun a => if bool_decide (p <= a < p + n) then v else f a.
Definition copy_bytes (dst src n : Z) (f : Z -> Z) : Z -> Z := fun a => if bool_decide (dst <= a < dst + n) then f (src + (a - dst)) else f a.

Definition get_desc (d : nat) : M (mstate P) desc := fun s => match descs s !! d with Some x => Ok (x, s) | None => Fail FMemory end.
Definition get_arena (a : Z) : M (mstate P) arena := fun s => match arenas s !! a with Some r => Ok (r, s) | None => Fail FMemory end.
Definition set_free (d : nat) (l : list Z) : M (mstate P) unit :=
  let* x := get_desc d in modify (fun s => set_descs (<[d := Desc (block_sz x) (blocks_per_arena x) l]> (descs s)) s).
Definition set_count (a : Z) (n : Z) : M (mstate P) unit :=
  let* r := get_arena a in modify (fun s => set_arenas (<[a := Arena (magic r) (owner r) n]> (arenas s)) s).
Definition get_pages (flags cnt : Z) : M (mstate P) Z := fun s =>
  match pa_get (pst s) flags cnt with Ok (p, x) => Ok (p, set_pst x s) | Fail e => Fail e end.
(** Pages given back hold no arena any more. *)
Definition free_pages (a cnt : Z) : M (mstate P) unit := fun s =>
  match pa_free (pst s) a cnt with Ok x => Ok (tt, set_arenas (delete a (arenas s)) (set_pst x s)) | Fail e => Fail e end.

(** ** malloc_init *)

Fixpoint init_loop (n : nat) (block_size : Z) : M (mstate P) unit :=
  match n with
  | O => fail FFuel
  | S n =>
    if block_size <? PGSIZE / 2 then
      do* modify (fun s => set_descs (descs s ++ [Desc block_size ((PGSIZE - sizeof_arena) / block_size) []]) s);
      let* l := gets descs in
      do* ASSERT (Z.of_nat (length l) <=? 10);
      init_loop n (block_size * 2)
    else mret tt
  end.
Definition malloc_init : M (mstate P) unit := init_loop 11 16.

(** ** Arenas and blocks *)

Definition block_to_arena (b : Z) : M (mstate P) Z :=
  let a := pg_round_down b in
  do* ASSERT (negb (a =? 0));
  let* r := get_arena a in
  do* ASSERT (magic r =? ARENA_MAGIC);
  do* match owner r with
      | None => ASSERT (pg_ofs b =? sizeof_arena)
      | Some d => let* x := get_desc d in ASSERT (u32 (pg_ofs b - sizeof_arena) mod block_sz x =? 0)
      end;
  mret a.

Definition arena_to_block (a idx : Z) : M (mstate P) Z :=
  do* ASSERT (negb (a =? 0));
  let* r := get_arena a in
  do* ASSERT (magic r =? ARENA_MAGIC);
  match owner r with
  | None => fail FMemory
  | Some d =>
    let* x := get_desc d in
    do* ASSERT (idx <? blocks_per_arena x);
    mret (a + sizeof_arena + idx * block_sz x)
  end.

(** The loop that adds a new arena's blocks to the free list, and the one that removes them. *)
Fixpoint push_blocks (n : nat) (d : nat) (a i : Z) : M (mstate P) unit :=
  match n with
  | O => mret tt
  | S n =>
    let* b := arena_to_block a i in
    let* x := get_desc d in
    do* set_free d (free_list x ++ [b]);
    push_blocks n d a (i + 1)
  end.
Fixpoint remove_blocks (n : nat) (d : nat) (a i : Z) : M (mstate P) unit :=
  match n with
  | O => mret tt
  | S n =>
    let* b := arena_to_block a i in
    let* x := get_desc d in
    do* (if bool_decide (b ∈ free_list x) then set_free d (filter (fun c => c <> b) (free_list x)) else fail FMemory);
    remove_blocks n d a (i + 1)
  end.

(** ** malloc and free *)

Fixpoint find_desc (l : list desc) (d : nat) (size : Z) : option nat :=
  match l with
  | [] => None
  | x :: l => if size <=? block_sz x then Some d else find_desc l (S d) size
  end.

(** If the free list is empty, create a new arena; false if there is no page for it. *)
Definition refill (d : nat) : M (mstate P) bool :=
  let* x := get_desc d in
  match free_list x with
  | [] =>
    let* a := get_pages 0 1 in
    if a =? 0 then mret false else
    do* modify (fun s => set_arenas (<[a := Arena ARENA_MAGIC (Some d) (blocks_per_arena x)]> (arenas s)) s);
    do* push_blocks (Z.to_nat (blocks_per_arena x)) d a 0;
    mret true
  | _ => mret true
  end.

(** Get a block from the free list. *)
Definition take_block (d : nat) : M (mstate P) Z :=
  let* x := get_desc d in
  match free_list x with
  | [] => fail FAssert
  | b :: l =>
    do* set_free d l;
    let* a := block_to_arena b in
    let* r := get_arena a in
    do* set_count a (free_cnt r - 1);
    mret b
  end.

Definition malloc (size : Z) : M (mstate P) Z :=
  if size =? 0 then mret 0 else
  let* l := gets descs in
  match find_desc l 0 size with
  | None =>
    let page_cnt := u32 (u32 (size + sizeof_arena) + PGSIZE - 1) / PGSIZE in
    let* a := get_pages 0 page_cnt in
    if a =? 0 then mret 0 else
    do* modify (fun s => set_arenas (<[a := Arena ARENA_MAGIC None page_cnt]> (arenas s)) s);
    mret (a + sizeof_arena)
  | Some d =>
    let* ok := refill d in
    if negb ok then mret 0 else take_block d
  end.

Definition calloc (a b : Z) : M (mstate P) Z :=
  let size := u32 (a * b) in
  if (size <? a) || (size <? b) then mret 0 else
  let* p := malloc size in
  if negb (p =? 0) then do* modify (fun s => set_bytes (fill_bytes p 0 size (bytes s)) s); mret p else mret p.

Definition block_size (block : Z) : M (mstate P) Z :=
  let* a := block_to_arena block in
  let* r := get_arena a in
  match owner r with
  | Some d => let* x := get_desc d in mret (block_sz x)
  | None => mret (u32 (PGSIZE * free_cnt r - pg_ofs block))
  end.

(** A normal block goes to its free list, and its arena to the page allocator if that
    leaves it entirely unused. *)
Definition free_block (p a : Z) (d : nat) : M (mstate P) unit :=
  let* x := get_desc d in
  do* modify (fun s => set_bytes (fill_bytes p 0xcc (block_sz x) (bytes s)) s);
  do* set_free d (p :: free_list x);
  let* r := get_arena a in
  do* set_count a (free_cnt r + 1);
  if blocks_per_arena x <=? free_cnt r + 1 then
    do* ASSERT (free_cnt r + 1 =? blocks_per_arena x);
    do* remove_blocks (Z.to_nat (blocks_per_arena x)) d a 0;
    free_pages a 1
  else mret tt.

Definition free (p : Z) : M (mstate P) unit :=
  if p =? 0 then mret tt else
  let* a := block_to_arena p in
  let* r := get_arena a in
  match owner r with
  | Some d => free_block p a d
  | None => free_pages a (free_cnt r)
  end.

Definition realloc (old_block new_size : Z) : M (mstate P) Z :=
  if new_size =? 0 then do* free old_block; mret 0 else
  let* new_block := malloc new_size in
  if negb (old_block =? 0) && negb (new_block =? 0) then
    let* old_size := block_size old_block in
    let min_size := if new_size <? old_size then new_size else old_size in
    do* modify (fun s => set_bytes (copy_bytes new_block old_block min_size (bytes s)) s);
    do* free old_block;
    mret new_block
  else mret new_block.

(** ** Invariant *)

Definition blk (a bs i : Z) : Z := a + sizeof_arena + i * bs.
Definition arena_pages (r : arena) : Z := if owner r is Some _ then 1 else free_cnt r.

(** The number of blocks of [l] in the page at [a]. *)
Definition count (a : Z) (l : list Z) : Z := Z.of_nat (length (filter (fun b => pg_round_down b = a) l)).

Definition desc_ok (x : desc) : Prop := 16 <= block_sz x <= 1024 /\ blocks_per_arena x = (PGSIZE - sizeof_arena) / block_sz x.

(** [b] is a block of an arena of descriptor [d]. *)
Definition block_of s (d : nat) (x : desc) (b : Z) : Prop :=
  exists a r i, arenas s !! a = Some r /\ owner r = Some d /\ 0 <= i < blocks_per_arena x /\ b = blk a (block_sz x) i.

(** The allocator holds the pages [own] of the kernel pool; the pages [other] of that pool
    and [us] of the user pool belong to other parts of the kernel. *)
Record minv (other own us : gset Z) s : Prop := {
  m_pages : pa_inv (pst s) (other ∪ own) us;
  m_other : other ## own;
  m_own : forall q, q ∈ own <-> exists a r, arenas s !! a = Some r /\ q ∈ pages a (arena_pages r);
  m_apart : forall a r a' r', arenas s !! a = Some r -> arenas s !! a' = Some r' -> a <> a' -> pages a (arena_pages r) ## pages a' (arena_pages r');
  m_desc : forall d x, descs s !! d = Some x -> desc_ok x;
  m_arena : forall a r, arenas s !! a = Some r -> magic r = ARENA_MAGIC /\
    match owner r with
    | Some d => exists x, descs s !! d = Some x /\ free_cnt r = count a (free_list x)
    | None => 0 < free_cnt r
    end;
  m_free : forall d x, descs s !! d = Some x -> NoDup (free_list x) /\ forall b, b ∈ free_list x -> block_of s d x b
}.

(** The blocks handed out, with the number of bytes each holds. *)
Definition live s (p c : Z) : Prop :=
  (exists d x, descs s !! d = Some x /\ block_of s d x p /\ p ∉ free_list x /\ c = block_sz x) \/
  (exists a r, arenas s !! a = Some r /\ owner r = None /\ p = a + sizeof_arena /\ c = PGSIZE * free_cnt r - sizeof_arena).

(** ** Addresses *)

Lemma round_block a ofs : a mod 4096 = 0 -> 0 <= a -> 0 <= ofs < 4096 -> a + ofs < 2 ^ 32 -> pg_round_down (a + ofs) = a /\ pg_ofs (a + ofs) = ofs.
Proof.
  intros Ha H0 Ho Hu. assert (E : (a + ofs) mod 4096 = ofs).
  { symmetry. apply (Z.mod_unique _ _ (a / 4096)); [lia|]. pose proof (Z.div_mod a 4096). lia. }
  rewrite pg_ofs_mod, pg_round_down_sub by (unfold is_u32; lia). lia.
Qed.

Lemma desc_facts x : desc_ok x -> 3 <= blocks_per_arena x /\ blocks_per_arena x * block_sz x <= 4084.
Proof.
  intros [H1 ->]. change (PGSIZE - sizeof_arena) with 4084. split; [apply Z.div_le_lower_bound; lia|].
  pose proof (Z.mul_div_le 4084 (block_sz x)). lia.
Qed.

Lemma arena_addr other own us s a r : minv other own us s -> arenas s !! a = Some r -> a mod 4096 = 0 /\ PHYS_BASE < a /\ a + 4096 < 2 ^ 32 /\ a ∈ own.
Proof.
  intros I E. assert (HO : a ∈ own).
  { apply (m_own _ _ _ _ I). exists a, r. split; [done|]. apply first_page. destruct (m_arena _ _ _ _ I a r E) as [_ HA].
    unfold arena_pages. destruct (owner r); lia. }
  destruct (pa_range _ _ _ a (m_pages _ _ _ _ I)) as (R1 & R2 & R3); [by apply elem_of_union_l, elem_of_union_r|]. done.
Qed.

Lemma blk_addr a x i : a mod 4096 = 0 -> PHYS_BASE < a -> a + 4096 < 2 ^ 32 -> desc_ok x -> 0 <= i < blocks_per_arena x ->
  let b := blk a (block_sz x) i in
  pg_round_down b = a /\ pg_ofs b = sizeof_arena + i * block_sz x /\ 0 <= i * block_sz x /\ a + sizeof_arena <= b /\ b + block_sz x <= a + 4096 /\ PHYS_BASE < b.
Proof.
  intros A1 A2 A3 HD Hi b. destruct (desc_facts x HD) as [F1 F2]. destruct HD as [D1 _].
  assert (0 <= i * block_sz x /\ i * block_sz x + block_sz x <= 4084) as [B1 B2] by (split; nia).
  unfold b, blk, sizeof_arena in *. unfold PHYS_BASE in A2.
  destruct (round_block a (12 + i * block_sz x)) as [R1 R2]; [done|lia|lia|lia|]. rewrite <- Z.add_assoc, R1, R2. unfold PHYS_BASE. repeat split; (done || lia).
Qed.

Lemma block_addr other own us s d x b : minv other own us s -> descs s !! d = Some x -> block_of s d x b ->
  exists a r i, arenas s !! a = Some r /\ owner r = Some d /\ 0 <= i < blocks_per_arena x /\ b = blk a (block_sz x) i /\
    pg_round_down b = a /\ a + sizeof_arena <= b /\ b + block_sz x <= a + 4096 /\ PHYS_BASE < b.
Proof.
  intros I Ed (a & r & i & Ea & Eo & Hi & ->). exists a, r, i. destruct (arena_addr _ _ _ _ _ _ I Ea) as (A1 & A2 & A3 & _).
  destruct (blk_addr a x i A1 A2 A3 (m_desc _ _ _ _ I d x Ed) Hi) as (R1 & R2 & R3 & R4 & R5 & R6). done.
Qed.

(** The arena of a block, as [block_to_arena] finds it. *)
Lemma block_to_arena_at s a r d x i : arenas s !! a = Some r -> magic r = ARENA_MAGIC -> owner r = Some d -> descs s !! d = Some x ->
  a mod 4096 = 0 -> PHYS_BASE < a -> a + 4096 < 2 ^ 32 -> desc_ok x -> 0 <= i < blocks_per_arena x ->
  block_to_arena (blk a (block_sz x) i) s = Ok (a, s).
Proof.
  intros Ea Em Eo Ed A1 A2 A3 HD Hi. destruct (blk_addr a x i A1 A2 A3 HD Hi) as (R1 & R2 & R3 & R4 & R5 & R6). destruct HD as [D1 _].
  unfold block_to_arena. rewrite R1, (proj2 (Z.eqb_neq a 0)) by (unfold PHYS_BASE in A2; lia). cbn [negb ASSERT].
  unfold mbind, M_bind, mret, M_ret, get_arena. rewrite Ea, Em, Z.eqb_refl, Eo. cbn [ASSERT]. unfold mret, M_ret, get_desc. rewrite Ed, R2.
  replace (sizeof_arena + i * block_sz x - sizeof_arena) with (i * block_sz x) by lia.
  rewrite u32_small by (unfold blk, sizeof_arena, is_u32 in *; lia). rewrite Z_mod_mult. done.
Qed.

(** The arena of the start of a big block. *)
Lemma big_to_arena s a r : arenas s !! a = Some r -> magic r = ARENA_MAGIC -> owner r = None -> a mod 4096 = 0 -> PHYS_BASE < a -> a + 4096 < 2 ^ 32 ->
  block_to_arena (a + sizeof_arena) s = Ok (a, s).
Proof.
  intros Ea Em Eo A1 A2 A3. unfold PHYS_BASE in A2. destruct (round_block a sizeof_arena) as [R1 R2]; unfold sizeof_arena in *; [done|lia|lia|lia|].
  unfold block_to_arena. rewrite R1, R2, (proj2 (Z.eqb_neq a 0)) by lia. cbn [negb ASSERT].
  unfold mbind, M_bind, mret, M_ret, get_arena. rewrite Ea, Em, Z.eqb_refl, Eo. done.
Qed.

(** ** Blocks do not overlap *)

Lemma arena_apart other own us s a r a' r' : minv other own us s -> arenas s !! a = Some r -> arenas s !! a' = Some r' -> a <> a' ->
  a + 4096 * arena_pages r <= a' \/ a' + 4096 * arena_pages r' <= a.
Proof.
  intros I E E' Hn. pose proof (m_apart _ _ _ _ I a r a' r' E E' Hn) as HD.
  destruct (arena_addr _ _ _ _ _ _ I E) as (A1 & _), (arena_addr _ _ _ _ _ _ I E') as (A2 & _).
  pose proof (Z.div_mod a 4096 ltac:(lia)) as D1. pose proof (Z.div_mod a' 4096 ltac:(lia)) as D2. set (k := a / 4096) in *. set (k' := a' / 4096) in *.
  assert (HP : 0 < arena_pages r /\ 0 < arena_pages r').
  { destruct (m_arena _ _ _ _ I a r E) as [_ H1], (m_arena _ _ _ _ I a' r' E') as [_ H2]. unfold arena_pages. destruct (owner r), (owner r'); lia. }
  destruct (decide (k < k')).
  - left. destruct (decide (k' < k + arena_pages r)) as [Hc|]; [|lia]. exfalso. apply (HD a'); apply elem_of_pages; [exists (k' - k)|exists 0]; lia.
  - right. destruct (decide (k < k' + arena_pages r')) as [Hc|]; [|lia]. exfalso. apply (HD a); apply elem_of_pages; [exists 0|exists (k - k')]; lia.
Qed.

(** A live block lies in its arena, after the header. *)
Lemma live_span other own us s p c : minv other own us s -> live s p c ->
  exists a r, arenas s !! a = Some r /\ a + sizeof_arena <= p /\ p + c <= a + 4096 * arena_pages r /\ 0 < c /\ pg_round_down p = a /\
    match owner r with
    | None => p = a + sizeof_arena /\ c = PGSIZE * free_cnt r - sizeof_arena
    | Some d => exists x i, descs s !! d = Some x /\ 0 <= i < blocks_per_arena x /\ p = blk a (block_sz x) i /\ c = block_sz x /\ p ∉ free_list x
    end.
Proof.
  intros I [(d & x & Ed & HB & HF & ->)|(a & r & Ea & Eo & -> & ->)].
  - destruct (block_addr _ _ _ _ _ _ _ I Ed HB) as (a & r & i & Ea & Eo & Hi & Eb & R1 & B1 & B2 & B3). exists a, r.
    pose proof (m_desc _ _ _ _ I d x Ed) as [D1 _]. unfold arena_pages. rewrite Eo. do 4 (split; [done || lia|]). split; [done|]. by exists x, i.
  - destruct (m_arena _ _ _ _ I a r Ea) as [_ HA]. rewrite Eo in HA. exists a, r. unfold arena_pages, sizeof_arena. rewrite Eo. change PGSIZE with 4096.
    destruct (arena_addr _ _ _ _ _ _ I Ea) as (A1 & A2 & A3 & _). unfold PHYS_BASE in A2. destruct (round_block a 12) as [R1 _]; [done|lia|lia|lia|].
    repeat split; (done || lia).
Qed.

Lemma live_apart other own us s p c q c' : minv other own us s -> live s p c -> live s q c' -> p <> q -> p + c <= q \/ q + c' <= p.
Proof.
  intros I HP HQ Hn. destruct (live_span _ _ _ _ _ _ I HP) as (a & r & Ea & A1 & A2 & _ & _ & HA), (live_span _ _ _ _ _ _ I HQ) as (a' & r' & Ea' & B1 & B2 & _ & _ & HB).
  destruct (decide (a = a')) as [<-|Haa]; [|destruct (arena_apart _ _ _ _ _ _ _ _ I Ea Ea' Haa); unfold sizeof_arena in *; lia].
  rewrite Ea in Ea'. injection Ea' as <-. destruct (owner r) as [d|]; [|destruct HA as [-> _], HB as [-> _]; done].
  destruct HA as (x & i & Ed & Hi & -> & -> & _), HB as (x' & j & Ed' & Hj & -> & -> & _). rewrite Ed in Ed'. injection Ed' as <-.
  assert (i <> j) by (by intros ->). pose proof (m_desc _ _ _ _ I d x Ed) as [D1 _]. unfold blk. clear -D1 H. destruct (Z.lt_trichotomy i j) as [|[|]]; [left|done|right]; nia.
Qed.

(** ** Changing a free list *)

(** The same arenas, with the same owners. *)
Definition same_arenas s s' : Prop := forall a d, (exists r, arenas s !! a = Some r /\ owner r = Some d) <-> (exists r, arenas s' !! a = Some r /\ owner r = Some d).

Lemma block_of_same s s' d x x' b : same_arenas s s' -> block_sz x' = block_sz x -> blocks_per_arena x' = blocks_per_arena x -> block_of s d x b <-> block_of s' d x' b.
Proof.
  intros HS E1 E2. unfold block_of. rewrite E1, E2. split; intros (a & r & i & Ea & Eo & Hi & ->).
  - destruct (proj1 (HS a d) (ex_intro _ r (conj Ea Eo))) as (r' & Ea' & Eo'). by exists a, r', i.
  - destruct (proj2 (HS a d) (ex_intro _ r (conj Ea Eo))) as (r' & Ea' & Eo'). by exists a, r', i.
Qed.

(** [s] with free list [l] for descriptor [d], and [n] free blocks in arena [a]. *)
Definition relisted s (d : nat) (x : desc) (l : list Z) (a : Z) (r : arena) (n : Z) : mstate P :=
  MState (<[d := Desc (block_sz x) (blocks_per_arena x) l]> (descs s)) (<[a := Arena (magic r) (owner r) n]> (arenas s)) (bytes s) (pst s).

Lemma relisted_arenas s d x l a r n : arenas s !! a = Some r -> same_arenas s (relisted s d x l a r n).
Proof.
  intros Ea a' d'. unfold relisted. cbn. rewrite lookup_insert. destruct (decide (a = a')) as [<-|]; [|done].
  split; [intros (r' & E & O); rewrite Ea in E; injection E as <-; eauto|]. intros (r' & [= <-] & O). eauto.
Qed.

Lemma relisted_descs s d x l a r n d' : descs s !! d = Some x ->
  descs (relisted s d x l a r n) !! d' = if decide (d = d') then Some (Desc (block_sz x) (blocks_per_arena x) l) else descs s !! d'.
Proof.
  intros Ed. unfold relisted. cbn. destruct (decide (d = d')) as [<-|]; [|by apply list_lookup_insert_ne].
  apply list_lookup_insert_eq. by apply (lookup_lt_Some _ _ _ Ed).
Qed.

Lemma relist other own us s d x a r l n : minv other own us s -> descs s !! d = Some x -> arenas s !! a = Some r -> owner r = Some d ->
  NoDup l -> (forall b, b ∈ l -> block_of s d x b) -> n = count a l -> (forall a', a' <> a -> count a' l = count a' (free_list x)) ->
  minv other own us (relisted s d x l a r n).
Proof.
  intros I Ed Ea Eo HN HB Hc Hoth. pose proof (relisted_arenas s d x l a r n Ea) as HS. pose proof (relisted_descs s d x l a r n) as HD.
  set (s' := relisted _ _ _ _ _ _ _) in *.
  assert (HA : forall a' r', arenas s' !! a' = Some r' -> exists r0, arenas s !! a' = Some r0 /\ magic r' = magic r0 /\ owner r' = owner r0 /\ arena_pages r' = arena_pages r0 /\
    (a' <> a -> r' = r0) /\ (a' = a -> free_cnt r' = n)).
  { intros a' r'. unfold s', relisted. cbn. rewrite lookup_insert. destruct (decide (a = a')) as [<-|]; [|by intros; exists r'].
    intros [= <-]. exists r. unfold arena_pages. cbn. by rewrite Eo. }
  assert (HA' : forall a' r0, arenas s !! a' = Some r0 -> exists r', arenas s' !! a' = Some r' /\ arena_pages r' = arena_pages r0).
  { intros a' r0 E0. unfold s', relisted. cbn. rewrite lookup_insert. destruct (decide (a = a')) as [<-|]; [|by exists r0].
    eexists. split; [done|]. rewrite Ea in E0. injection E0 as <-. unfold arena_pages. cbn. by rewrite Eo. }
  split.
  - apply I.
  - apply I.
  - intros q. rewrite (m_own _ _ _ _ I). split; intros (a' & r' & E' & Hq).
    + destruct (HA' a' r' E') as (r2 & E2 & P2). exists a', r2. by rewrite P2.
    + destruct (HA a' r' E') as (r2 & E2 & _ & _ & P2 & _). exists a', r2. by rewrite <- P2.
  - intros a1 r1 a2 r2 E1 E2 Hn. destruct (HA a1 r1 E1) as (q1 & F1 & _ & _ & -> & _), (HA a2 r2 E2) as (q2 & F2 & _ & _ & -> & _).
    by apply (m_apart _ _ _ _ I a1 q1 a2 q2).
  - intros d' x'. rewrite HD by done. destruct (decide (d = d')); [intros [= <-]; exact (m_desc _ _ _ _ I d x Ed)|apply (m_desc _ _ _ _ I)].
  - intros a1 r1 E1. destruct (HA a1 r1 E1) as (q1 & F1 & -> & -> & _ & G1 & G2). destruct (m_arena _ _ _ _ I a1 q1 F1) as [M1 M2]. split; [done|].
    destruct (decide (a1 = a)) as [->|Hne].
    + rewrite Ea in F1. injection F1 as <-. rewrite Eo, G2 by done. eexists. rewrite HD, decide_True by done. done.
    + rewrite G1 by done. destruct (owner q1) as [d1|]; [|done]. destruct M2 as (x1 & Ed1 & Hc1). rewrite HD by done.
      destruct (decide (d = d1)) as [<-|]; [|by exists x1]. eexists. split; [done|]. cbn. rewrite Ed in Ed1. injection Ed1 as <-. by rewrite Hoth.
  - intros d1 x1. rewrite HD by done. destruct (decide (d = d1)) as [<-|Hne].
    + intros [= <-]. split; [done|]. cbn. intros b Hb. by apply (block_of_same s s' d x), HB.
    + intros Ed1. destruct (m_free _ _ _ _ I d1 x1 Ed1) as [N1 B1]. split; [done|]. intros b Hb. by apply (block_of_same s s' d1 x1 x1), B1.
Qed.

(** The live blocks that are not of descriptor [d]. *)
Definition rest s (d : nat) (p c : Z) : Prop :=
  (exists d' x, d' <> d /\ descs s !! d' = Some x /\ block_of s d' x p /\ p ∉ free_list x /\ c = block_sz x) \/
  (exists a r, arenas s !! a = Some r /\ owner r = None /\ p = a + sizeof_arena /\ c = PGSIZE * free_cnt r - sizeof_arena).

Lemma live_split s d x p c : descs s !! d = Some x -> live s p c <-> rest s d p c \/ (block_of s d x p /\ p ∉ free_list x /\ c = block_sz x).
Proof.
  intros Ed. unfold live, rest. split.
  - intros [(d' & x' & Ed' & H)|H]; [|by left; right]. destruct (decide (d' = d)) as [->|Hn].
    + right. rewrite Ed in Ed'. by injection Ed' as <-.
    + left. left. by exists d', x'.
  - intros [[(d' & x' & _ & H)|H]|H]; [left; by exists d', x'|by right|left; by exists d, x].
Qed.

Lemma relist_rest s d x l a r n p c : descs s !! d = Some x -> arenas s !! a = Some r -> owner r = Some d ->
  rest (relisted s d x l a r n) d p c <-> rest s d p c.
Proof.
  intros Ed Ea Eo. pose proof (relisted_arenas s d x l a r n Ea) as HS. unfold rest.
  assert (HB : forall d' x', block_of (relisted s d x l a r n) d' x' p <-> block_of s d' x' p) by (intros; symmetry; by apply block_of_same).
  split; (intros [(d' & x' & Hn & Ed' & H1 & H2)|(a' & r' & Ea' & Eo' & H)]; [left; exists d', x'|right; exists a', r']).
  - rewrite relisted_descs, decide_False in Ed' by done. rewrite HB in H1. done.
  - unfold relisted in Ea'. cbn in Ea'. rewrite lookup_insert in Ea'. destruct (decide (a = a')) as [<-|]; [|done].
    injection Ea' as <-. cbn in Eo'. congruence.
  - rewrite relisted_descs, decide_False, HB by done. done.
  - unfold relisted. cbn. rewrite lookup_insert. destruct (decide (a = a')) as [<-|]; [|done]. rewrite Ea in Ea'. injection Ea' as <-. congruence.
Qed.

Lemma relist_live s d x l a r n p c : descs s !! d = Some x -> arenas s !! a = Some r -> owner r = Some d ->
  live (relisted s d x l a r n) p c <-> rest s d p c \/ (block_of s d x p /\ p ∉ l /\ c = block_sz x).
Proof.
  intros Ed Ea Eo. rewrite (live_split _ d (Desc (block_sz x) (blocks_per_arena x) l)) by (rewrite relisted_descs, decide_True by done; done).
  rewrite relist_rest by done. cbn [free_list block_sz].
  pose proof (block_of_same s _ d x (Desc (block_sz x) (blocks_per_arena x) l) p (relisted_arenas s d x l a r n Ea) eq_refl eq_refl). tauto.
Qed.

Lemma count_cons a b l : count a (b :: l) = count a l + (if decide (pg_round_down b = a) then 1 else 0).
Proof. unfold count. rewrite filter_cons. destruct (decide _); cbn [length]; lia. Qed.

(** Taking a block from its free list. *)
Lemma blocks_pop_ok other own us s d x b l : minv other own us s -> descs s !! d = Some x -> free_list x = b :: l ->
  exists s', take_block d s = Ok (b, s') /\
    minv other own us s' /\ bytes s' = bytes s /\ ~ (exists c, live s b c) /\ PHYS_BASE < b /\
    forall p c, live s' p c <-> live s p c \/ (p = b /\ c = block_sz x).
Proof.
  intros I Ed Ef. destruct (m_free _ _ _ _ I d x Ed) as [HN HB]. rewrite Ef in HN, HB. apply NoDup_cons in HN as [Hb HN].
  assert (HBb : block_of s d x b) by (apply HB, list_elem_of_here).
  destruct (block_addr _ _ _ _ _ _ _ I Ed HBb) as (a & r & i & Ea & Eo & Hi & Eb & R1 & _ & _ & HP).
  destruct (m_arena _ _ _ _ I a r Ea) as [Em HA]. rewrite Eo in HA. destruct HA as (x' & Ed' & Hc). rewrite Ed in Ed'. injection Ed' as <-.
  rewrite Ef, count_cons, decide_True in Hc by done.
  assert (I' : minv other own us (relisted s d x l a r (free_cnt r - 1))).
  { apply relist; try done; [intros b' Hb'; by apply HB, list_elem_of_further|lia|]. intros a' Ha'. rewrite Ef, count_cons, decide_False by congruence. lia. }
  destruct (arena_addr _ _ _ _ _ _ I Ea) as (A1 & A2 & A3 & _).
  exists (relisted s d x l a r (free_cnt r - 1)). split; [|split; [done|split; [done|split; [|split; [done|]]]]].
  - unfold take_block. rewrite (M_bind_Ok (get_desc d) _ s x s) by (unfold get_desc; by rewrite Ed). rewrite Ef.
    assert (E1 : set_free d l s = Ok (tt, set_descs (<[d := Desc (block_sz x) (blocks_per_arena x) l]> (descs s)) s))
      by (unfold set_free, mbind, M_bind, get_desc, modify; by rewrite Ed).
    rewrite (M_bind_Ok _ _ _ _ _ E1). set (s1 := set_descs _ s).
    assert (E2 : block_to_arena b s1 = Ok (a, s1)).
    { rewrite Eb. apply (block_to_arena_at s1 a r d (Desc (block_sz x) (blocks_per_arena x) l)); try done.
      - apply list_lookup_insert_eq. by apply (lookup_lt_Some _ _ _ Ed).
      - apply (m_desc _ _ _ _ I d x Ed). }
    rewrite (M_bind_Ok _ _ _ _ _ E2). unfold set_count, mbind, M_bind, get_arena, modify. change (arenas s1) with (arenas s). rewrite Ea.
    change (arenas s1) with (arenas s). by rewrite Ea.
  - intros (c & Hl). destruct (live_span _ _ _ _ _ _ I Hl) as (a' & r' & Ea' & _ & _ & _ & R' & HX). rewrite R1 in R'. subst a'.
    rewrite Ea in Ea'. injection Ea' as <-. rewrite Eo in HX. destruct HX as (x' & j & Ed' & _ & _ & _ & Hnf). rewrite Ed in Ed'. injection Ed' as <-.
    rewrite Ef in Hnf. apply Hnf, list_elem_of_here.
  - intros p c. rewrite relist_live, (live_split s d x), Ef, not_elem_of_cons by done.
    split; [intros [H|(H1 & H2 & H3)]; [tauto|]; destruct (decide (p = b)); [subst; tauto|tauto]|]. intros [[H|(H1 & H2 & H3)]|[-> ->]]; tauto.
Qed.

(** ** New arenas *)

(** The blocks [i .. i + n) of an arena. *)
Fixpoint blocks (a bs i : Z) (n : nat) : list Z := match n with O => [] | S n => blk a bs i :: blocks a bs (i + 1) n end.

Lemma elem_of_blocks a bs b n : forall i, b ∈ blocks a bs i n <-> exists k, i <= k < i + Z.of_nat n /\ b = blk a bs k.
Proof.
  induction n as [|n IH]; intros i; cbn [blocks]; [split; [by intros ?%elem_of_nil|intros (k & Hk & _); lia]|].
  rewrite elem_of_cons, IH. split.
  - intros [->|(k & Hk & ->)]; [exists i|exists k]; (split; [lia|done]).
  - intros (k & Hk & ->). destruct (decide (k = i)) as [->|]; [by left|]. right. exists k. split; [lia|done].
Qed.

Lemma NoDup_blocks a bs n : 0 < bs -> forall i, NoDup (blocks a bs i n).
Proof.
  intros Hb. induction n as [|n IH]; intros i; cbn [blocks]; constructor; [|apply IH].
  rewrite elem_of_blocks. intros (k & Hk & E). unfold blk in E. nia.
Qed.

Lemma length_blocks a bs n : forall i, length (blocks a bs i n) = n.
Proof. induction n as [|n IH]; intros i; cbn; [done|]. by rewrite IH. Qed.

Lemma arena_to_block_at s a r d x i : arenas s !! a = Some r -> magic r = ARENA_MAGIC -> owner r = Some d -> descs s !! d = Some x -> a <> 0 -> i < blocks_per_arena x ->
  arena_to_block a i s = Ok (blk a (block_sz x) i, s).
Proof.
  intros Ea Em Eo Ed Ha Hi. unfold arena_to_block. rewrite (proj2 (Z.eqb_neq a 0)) by done. cbn [negb ASSERT].
  unfold mbind, M_bind, mret, M_ret, get_arena. rewrite Ea, Em, Z.eqb_refl, Eo. cbn [ASSERT]. unfold mret, M_ret, get_desc. rewrite Ed.
  by rewrite (proj2 (Z.ltb_lt i _)).
Qed.

Lemma push_blocks_ok d a r bs bpa : magic r = ARENA_MAGIC -> owner r = Some d -> a <> 0 -> forall n i l s, arenas s !! a = Some r -> descs s !! d = Some (Desc bs bpa l) ->
  i + Z.of_nat n = bpa -> push_blocks n d a i s = Ok (tt, set_descs (<[d := Desc bs bpa (l ++ blocks a bs i n)]> (descs s)) s).
Proof.
  intros Em Eo Ha. induction n as [|n IH]; intros i l s Ea Ed Hi; cbn [push_blocks blocks].
  { rewrite app_nil_r, list_insert_id by done. by destruct s. }
  pose proof (lookup_lt_Some _ _ _ Ed) as Hl.
  rewrite (M_bind_Ok _ _ _ _ _ (arena_to_block_at s a r d _ i Ea Em Eo Ed Ha ltac:(cbn; lia))). cbn [block_sz].
  unfold set_free, mbind, M_bind, get_desc, modify. rewrite Ed. cbn [free_list]. rewrite Ed. cbn [block_sz blocks_per_arena].
  rewrite (IH (i + 1) (l ++ [blk a bs i])); [|done|by apply list_lookup_insert_eq|lia]. cbn [descs set_descs]. by rewrite list_insert_insert_eq, <- app_assoc.
Qed.

(** The parts of the invariant about pages, after a new arena was added. *)
Lemma add_pages other own us s p r x ds : minv other own us s -> 0 < arena_pages r -> pa_inv x (other ∪ own ∪ pages p (arena_pages r)) us ->
  pages p (arena_pages r) ## other ∪ own ∪ us ->
  let s' := MState ds (<[p := r]> (arenas s)) (bytes s) x in
  arenas s !! p = None /\ pa_inv (pst s') (other ∪ (own ∪ pages p (arena_pages r))) us /\ other ## own ∪ pages p (arena_pages r) /\
  (forall q, q ∈ own ∪ pages p (arena_pages r) <-> exists a r, arenas s' !! a = Some r /\ q ∈ pages a (arena_pages r)) /\
  forall a1 r1 a2 r2, arenas s' !! a1 = Some r1 -> arenas s' !! a2 = Some r2 -> a1 <> a2 -> pages a1 (arena_pages r1) ## pages a2 (arena_pages r2).
Proof.
  intros I Hp HX HD s'. set (ps := pages p (arena_pages r)) in *.
  assert (HP : p ∈ ps) by (by apply first_page).
  assert (HN : forall q, q ∈ ps -> q ∉ own) by (intros q Hq Hq'; apply (HD q Hq); apply elem_of_union_l, elem_of_union_r; done).
  assert (HA : forall a r', arenas s !! a = Some r' -> pages a (arena_pages r') ## ps).
  { intros a r' Ea q Hq Hq'. apply (HN q Hq'), (m_own _ _ _ _ I). by exists a, r'. }
  assert (E0 : arenas s !! p = None).
  { destruct (arenas s !! p) as [r'|] eqn:E; [|done]. destruct (arena_addr _ _ _ _ _ _ I E) as (_ & _ & _ & Ho). by apply HN in HP. }
  split; [done|]. split; [by rewrite assoc_L by apply _|]. split.
  { intros q Hq [Ho|Ho]%elem_of_union; [by apply (m_other _ _ _ _ I q)|]. apply (HD q Ho). by apply elem_of_union_l, elem_of_union_l. }
  split.
  - intros q. rewrite elem_of_union, (m_own _ _ _ _ I). cbn. split.
    + intros [(a & r' & Ea & Hq)|Hq]; [exists a, r'; rewrite lookup_insert_ne by congruence; done|]. exists p, r. by rewrite lookup_insert_eq.
    + intros (a & r' & Ea & Hq). rewrite lookup_insert in Ea. destruct (decide (p = a)) as [<-|]; [injection Ea as <-; by right|left; by exists a, r'].
  - cbn. intros a1 r1 a2 r2 E1 E2 Hn. rewrite lookup_insert in E1, E2. destruct (decide (p = a1)) as [<-|], (decide (p = a2)) as [<-|]; try done.
    + injection E1 as <-. symmetry. by apply (HA a2 r2).
    + injection E2 as <-. by apply (HA a1 r1).
    + by apply (m_apart _ _ _ _ I a1 r1 a2 r2).
Qed.

Lemma block_of_grow s s' d x x' p r b : arenas s' = <[p := r]> (arenas s) -> arenas s !! p = None -> block_sz x' = block_sz x -> blocks_per_arena x' = blocks_per_arena x ->
  block_of s' d x' b <-> block_of s d x b \/ (owner r = Some d /\ exists i, 0 <= i < blocks_per_arena x /\ b = blk p (block_sz x) i).
Proof.
  intros EA E0 E1 E2. unfold block_of. rewrite EA, E1, E2. split.
  - intros (a & r' & i & Ea & Eo & Hi & ->). rewrite lookup_insert in Ea. destruct (decide (p = a)) as [<-|].
    + injection Ea as <-. right. split; [done|]. by exists i.
    + left. by exists a, r', i.
  - intros [(a & r' & i & Ea & Eo & Hi & ->)|(Eo & i & Hi & ->)]; [exists a, r', i; rewrite lookup_insert_ne by congruence; done|].
    exists p, r, i. by rewrite lookup_insert_eq.
Qed.

(** A big block. *)
Lemma big_ok other own us s p cnt x : minv other own us s -> 0 < cnt -> pa_inv x (other ∪ own ∪ pages p cnt) us -> pages p cnt ## other ∪ own ∪ us ->
  let s' := set_arenas (<[p := Arena ARENA_MAGIC None cnt]> (arenas s)) (set_pst x s) in
  minv other (own ∪ pages p cnt) us s' /\ ~ (exists c, live s (p + sizeof_arena) c) /\
  forall q c, live s' q c <-> live s q c \/ (q = p + sizeof_arena /\ c = PGSIZE * cnt - sizeof_arena).
Proof.
  intros I Hc HX HD s'. set (r := Arena ARENA_MAGIC None cnt).
  destruct (add_pages other own us s p r x (descs s) I Hc HX HD) as (E0 & A1 & A2 & A3 & A4).
  assert (HB : forall d y b, block_of s' d y b <-> block_of s d y b) by (intros; rewrite (block_of_grow s s' d y y p r) by done; split; [intros [|[? _]]; done|by left]).
  assert (I' : minv other (own ∪ pages p cnt) us s').
  { split; try done; [apply I| |].
    - intros a r' Ea. unfold s' in Ea. cbn in Ea. rewrite lookup_insert in Ea. destruct (decide (p = a)) as [<-|]; [by injection Ea as <-|]. apply (m_arena _ _ _ _ I a r' Ea).
    - intros d y Ed. destruct (m_free _ _ _ _ I d y Ed) as [N1 N2]. split; [done|]. intros b Hb. by apply HB, N2. }
  split; [done|]. split.
  - intros (c & Hl). destruct (live_span _ _ _ _ _ _ I Hl) as (a & r' & Ea & B1 & B2 & _ & R & _).
    destruct (arena_addr _ _ _ _ p r I') as (P1 & P2 & P3 & _); [apply lookup_insert_eq|]. unfold PHYS_BASE in P2.
    destruct (round_block p sizeof_arena) as [R' _]; unfold sizeof_arena in *; [done|lia|lia|lia|]. congruence.
  - intros q c. unfold live. split.
    + intros [(d & y & Ed & Hb & H)|(a & r' & Ea & H)]; [left; left; exists d, y; by rewrite HB in Hb|].
      unfold s' in Ea. cbn in Ea. rewrite lookup_insert in Ea. destruct (decide (p = a)) as [<-|]; [injection Ea as <-; cbn in H; tauto|].
      left. right. by exists a, r'.
    + intros [[(d & y & Ed & Hb & H)|(a & r' & Ea & H)]|[-> ->]]; [left; exists d, y; by rewrite HB|right; exists a, r'|right; exists p, r].
      * unfold s'. cbn. rewrite lookup_insert_ne by congruence. done.
      * unfold s'. cbn. by rewrite lookup_insert_eq.
Qed.

Lemma count_all a l : (forall b, b ∈ l -> pg_round_down b = a) -> count a l = Z.of_nat (length l).
Proof. induction l as [|b l IH]; intros H; [done|]. rewrite count_cons, decide_True by apply H, list_elem_of_here. rewrite IH by (intros; by apply H, list_elem_of_further). cbn [length]. lia. Qed.
Lemma count_none a l : (forall b, b ∈ l -> pg_round_down b <> a) -> count a l = 0.
Proof. induction l as [|b l IH]; intros H; [done|]. rewrite count_cons, decide_False by apply H, list_elem_of_here. rewrite IH by (intros; by apply H, list_elem_of_further). done. Qed.

(** A new arena for descriptor [d], whose free list was empty. *)
Definition refilled s (d : nat) (x : desc) (p : Z) (y : P) : mstate P :=
  MState (<[d := Desc (block_sz x) (blocks_per_arena x) (blocks p (block_sz x) 0 (Z.to_nat (blocks_per_arena x)))]> (descs s))
    (<[p := Arena ARENA_MAGIC (Some d) (blocks_per_arena x)]> (arenas s)) (bytes s) y.

Lemma refill_ok other own us s d x p y : minv other own us s -> descs s !! d = Some x -> free_list x = [] ->
  pa_inv y (other ∪ own ∪ pages p 1) us -> pages p 1 ## other ∪ own ∪ us ->
  minv other (own ∪ pages p 1) us (refilled s d x p y) /\ forall q c, live (refilled s d x p y) q c <-> live s q c.
Proof.
  intros I Ed Ef HX HD. set (r := Arena ARENA_MAGIC (Some d) (blocks_per_arena x)). pose proof (m_desc _ _ _ _ I d x Ed) as HDk.
  destruct (add_pages other own us s p r y (descs s) I ltac:(done) HX HD) as (E0 & A1 & A2 & A3 & A4). pose proof (desc_facts x HDk) as [F1 F2].
  destruct (pa_range _ _ _ p HX) as (R1 & R2 & R3); [apply elem_of_union_l, elem_of_union_r, first_page; lia|].
  set (bl := blocks p (block_sz x) 0 (Z.to_nat (blocks_per_arena x))). set (x' := Desc (block_sz x) (blocks_per_arena x) bl).
  assert (HB : forall b, b ∈ bl <-> exists i, 0 <= i < blocks_per_arena x /\ b = blk p (block_sz x) i).
  { intros b. unfold bl. rewrite elem_of_blocks. split; intros (i & Hi & ->); exists i; (split; [lia|done]). }
  assert (HPg : forall b, b ∈ bl -> pg_round_down b = p) by (intros b (i & Hi & ->)%HB; apply (blk_addr p x i R1 R2 R3 HDk Hi)).
  set (s' := refilled s d x p y). assert (DS : forall d', descs s' !! d' = if decide (d = d') then Some x' else descs s !! d').
  { intros d'. unfold s', refilled. cbn. destruct (decide (d = d')) as [<-|]; [|by apply list_lookup_insert_ne]. apply list_lookup_insert_eq. by apply (lookup_lt_Some _ _ _ Ed). }
  assert (BO : forall d' z b, block_of s' d' z b <-> block_of s d' z b \/ (d = d' /\ exists i, 0 <= i < blocks_per_arena z /\ b = blk p (block_sz z) i)).
  { intros d' z b. rewrite (block_of_grow s s' d' z z p r) by done. cbn. split; (intros [|[E H]]; [by left|right; split; [congruence|done]]). }
  split.
  - split; try done.
    + intros d' z. rewrite DS. destruct (decide (d = d')); [intros [= <-]; exact HDk|apply (m_desc _ _ _ _ I)].
    + intros a r' Ea. unfold s', refilled in Ea. cbn in Ea. rewrite lookup_insert in Ea. destruct (decide (p = a)) as [<-|Hne].
      * injection Ea as <-. split; [done|]. cbn. exists x'. rewrite DS, decide_True by done. split; [done|].
        cbn. rewrite (count_all p bl HPg). unfold bl. rewrite length_blocks. lia.
      * destruct (m_arena _ _ _ _ I a r' Ea) as [M1 M2]. split; [done|]. destruct (owner r') as [d'|]; [|done]. destruct M2 as (z & Ez & Hz). rewrite DS.
        destruct (decide (d = d')) as [<-|]; [|by exists z]. exists x'. split; [done|]. rewrite Ed in Ez. injection Ez as <-. rewrite Hz, Ef.
        symmetry. cbn. rewrite count_none; [done|]. intros b Hb. rewrite (HPg b Hb). done.
    + intros d' z. rewrite DS. destruct (decide (d = d')) as [<-|].
      * intros [= <-]. split; [apply NoDup_blocks; destruct HDk; lia|]. cbn. intros b (i & Hi & ->)%HB. apply BO. right. split; [done|]. by exists i.
      * intros Ez. destruct (m_free _ _ _ _ I d' z Ez) as [N1 N2]. split; [done|]. intros b Hb. apply BO. left. by apply N2.
  - intros q c. rewrite (live_split s' d x'), (live_split s d x) by (done || (rewrite DS, decide_True by done; done)).
    assert (HR : rest s' d q c <-> rest s d q c).
    { unfold rest. split; (intros [(d' & z & Hn & Ez & H1 & H2)|(a & r' & Ea & Eo & H)]; [left; exists d', z|right; exists a, r']).
      - rewrite DS, decide_False in Ez by done. apply BO in H1 as [H1|[? _]]; done.
      - unfold s', refilled in Ea. cbn in Ea. rewrite lookup_insert in Ea. destruct (decide (p = a)) as [<-|]; [|done]. injection Ea as <-. done.
      - rewrite DS, decide_False, BO by done. split; [done|]. split; [done|]. split; [by left|done].
      - unfold s', refilled. cbn. rewrite lookup_insert_ne by congruence. done. }
    rewrite HR, Ef, BO. unfold x'. cbn [free_list block_sz]. rewrite HB. split.
    + intros [H|([H1|(_ & H1)] & H2 & ->)]; [by left|right; split; [done|split; [apply not_elem_of_nil|done]]|done].
    + intros [H|(H1 & _ & ->)]; [by left|]. right. split; [by left|]. split; [|done]. intros (i & Hi & Eq).
      destruct (block_addr _ _ _ _ _ _ _ I Ed H1) as (a & r' & k & Ea & _ & _ & _ & Ra & _). subst q.
      destruct (blk_addr p x i R1 R2 R3 HDk Hi) as (Rp & _). rewrite Rp in Ra. congruence.
Qed.

Lemma find_desc_ok size l : forall d0,
  match find_desc l d0 size with
  | Some d => (d0 <= d)%nat /\ exists x, l !! (d - d0)%nat = Some x /\ size <= block_sz x
  | None => forall x, x ∈ l -> block_sz x < size
  end.
Proof.
  induction l as [|x l IH]; intros d0; cbn [find_desc]; [by intros x ?%elem_of_nil|].
  destruct (Z.leb_spec size (block_sz x)); [split; [lia|]; exists x; by rewrite Nat.sub_diag|].
  specialize (IH (S d0)). destruct (find_desc l (S d0) size) as [d|].
  - destruct IH as (Hd & y & Hy & Hs). split; [lia|]. exists y. by replace (d - d0)%nat with (S (d - S d0)) by lia.
  - intros y [->|Hy]%elem_of_cons; [done|by apply IH].
Qed.

(** What [malloc] promises: nothing has changed, or there is one more block. *)
Definition allocated (other own us : gset Z) s (size p : Z) s' : Prop :=
  exists own' c, minv other own' us s' /\ bytes s' = bytes s /\ size <= c /\ PHYS_BASE < p /\ ~ (exists c', live s p c') /\
    forall q c', live s' q c' <-> live s q c' \/ (q = p /\ c' = c).

Lemma refill_step other own us s d x : minv other own us s -> descs s !! d = Some x ->
  (exists s', refill d s = Ok (false, s') /\ minv other own us s' /\ bytes s' = bytes s /\ forall q c, live s' q c <-> live s q c) \/
  (exists own' s' x' b l, refill d s = Ok (true, s') /\ minv other own' us s' /\ bytes s' = bytes s /\ (forall q c, live s' q c <-> live s q c) /\
    descs s' !! d = Some x' /\ block_sz x' = block_sz x /\ free_list x' = b :: l).
Proof.
  intros I Ed. unfold refill. rewrite (M_bind_Ok (get_desc d) _ s x s) by (unfold get_desc; by rewrite Ed).
  destruct (free_list x) as [|b l] eqn:Ef; [|right; by exists own, s, x, b, l]. unfold mbind, M_bind, get_pages.
  destruct (pa_get_ok (pst s) (other ∪ own) us 0 1 (m_pages _ _ _ _ I)) as [(y & HG & HX)|(p & y & HG & P1 & P2 & HD & HX)]; [done..| |]; rewrite HG.
  { left. eexists. split; [done|]. split; [destruct I; by split|]. done. }
  right. change (has 0 PAL_USER) with false in HX. rewrite (proj2 (Z.eqb_neq p 0)) by (unfold PHYS_BASE in P1; lia).
  pose proof (desc_facts x (m_desc _ _ _ _ I d x Ed)) as [F1 _]. destruct (refill_ok other own us s d x p y I Ed Ef HX HD) as [I1 L1].
  unfold modify. cbn [arenas set_pst]. set (s1 := set_arenas _ _). set (r := Arena ARENA_MAGIC (Some d) (blocks_per_arena x)).
  rewrite (push_blocks_ok d p r (block_sz x) (blocks_per_arena x) eq_refl eq_refl ltac:(unfold PHYS_BASE in P1; lia) _ 0 [] s1);
    [|apply lookup_insert_eq|unfold s1; cbn; rewrite Ed; destruct x; cbn in *; by subst|lia].
  exists (own ∪ pages p 1), (refilled s d x p y), (Desc (block_sz x) (blocks_per_arena x) (blocks p (block_sz x) 0 (Z.to_nat (blocks_per_arena x)))).
  destruct (Z.to_nat (blocks_per_arena x)) as [|n] eqn:En; [lia|].
  exists (blk p (block_sz x) 0), (blocks p (block_sz x) (0 + 1) n). split; [unfold refilled; by rewrite En|]. split; [done|]. split; [done|]. split; [done|].
  split; [|done]. unfold refilled. cbn [descs]. rewrite En. apply list_lookup_insert_eq. by apply (lookup_lt_Some _ _ _ Ed).
Qed.

Lemma malloc_ok other own us s size : minv other own us s -> 0 < size -> size + 12 + 4095 < 2 ^ 32 ->
  (exists s', malloc size s = Ok (0, s') /\ minv other own us s' /\ bytes s' = bytes s /\ forall q c, live s' q c <-> live s q c) \/
  (exists p s', malloc size s = Ok (p, s') /\ allocated other own us s size p s').
Proof.
  intros I Hs Hu. unfold malloc. rewrite (proj2 (Z.eqb_neq size 0)) by lia. rewrite (M_bind_Ok (gets descs) _ s (descs s) s eq_refl).
  pose proof (find_desc_ok size (descs s) 0) as HF. destruct (find_desc (descs s) 0 size) as [d|].
  - destruct HF as (_ & x & Ed & Hx). rewrite Nat.sub_0_r in Ed.
    destruct (refill_step other own us s d x I Ed) as [(s' & HR & H)|(own' & s1 & x' & b & l & HR & I1 & B1 & L1 & Ed1 & Ebs & Ef1)]; rewrite (M_bind_Ok _ _ _ _ _ HR); cbn [negb].
    { left. by exists s'. }
    right. destruct (blocks_pop_ok other own' us s1 d x' b l I1 Ed1 Ef1) as (s2 & HT & I2 & B2 & N2 & P2 & L2). exists b, s2. split; [exact HT|].
    exists own', (block_sz x'). split; [done|]. split; [congruence|]. split; [lia|]. split; [done|]. split.
    + intros (c & Hc). apply N2. exists c. by apply L1.
    + intros q c. rewrite L2, L1. done.
  - unfold sizeof_arena, PGSIZE, PGBITS. change (Z.shiftl 1 12) with 4096. rewrite (u32_small (size + 12)) by solve_int. rewrite u32_small by solve_int.
    set (cnt := (size + 12 + 4096 - 1) / 4096). assert (Hc : 0 < cnt /\ size + 12 <= 4096 * cnt).
    { unfold cnt. pose proof (Z.div_mod (size + 12 + 4096 - 1) 4096 ltac:(lia)). pose proof (Z.mod_pos_bound (size + 12 + 4096 - 1) 4096 ltac:(lia)). lia. }
    unfold mbind, M_bind, get_pages.
    destruct (pa_get_ok (pst s) (other ∪ own) us 0 cnt (m_pages _ _ _ _ I)) as [(y & HG & HX)|(p & y & HG & P1 & P2 & HD & HX)]; [lia|done| |]; rewrite HG.
    { left. eexists. split; [done|]. split; [destruct I; by split|]. done. }
    right. change (has 0 PAL_USER) with false in HX. rewrite (proj2 (Z.eqb_neq p 0)) by (unfold PHYS_BASE in P1; lia).
    destruct (big_ok other own us s p cnt y I ltac:(lia) HX HD) as (I1 & N1 & L1). eexists _, _. split; [done|].
    exists (own ∪ pages p cnt), (4096 * cnt - 12). split; [exact I1|]. split; [done|]. split; [lia|]. split; [unfold PHYS_BASE in *; lia|]. split; [exact N1|exact L1].
Qed.

(** ** Giving an arena back *)

Lemma filter_ext_in {A} (Q R : A -> Prop) `{forall x, Decision (Q x), forall x, Decision (R x)} (l : list A) :
  (forall x, x ∈ l -> Q x <-> R x) -> filter Q l = filter R l.
Proof.
  induction l as [|x l IH]; intros E; [done|]. rewrite !filter_cons, IH by (intros; by apply E, list_elem_of_further).
  pose proof (E x (list_elem_of_here x l)). destruct (decide (Q x)), (decide (R x)); tauto.
Qed.

Definition purged (a : Z) (x : desc) : desc := Desc (block_sz x) (blocks_per_arena x) (filter (fun b => pg_round_down b <> a) (free_list x)).

Lemma purged_id a x : (forall b, b ∈ free_list x -> pg_round_down b <> a) -> purged a x = x.
Proof.
  intros H. destruct x as [bs bpa l]. unfold purged. cbn in *. f_equal. induction l as [|b l IH]; [done|].
  rewrite filter_cons_True by apply H, list_elem_of_here. f_equal. apply IH. intros; by apply H, list_elem_of_further.
Qed.

Lemma count_purged a a' l : a' <> a -> count a' (filter (fun b => pg_round_down b <> a) l) = count a' l.
Proof.
  intros Hn. induction l as [|b l IH]; [done|]. rewrite filter_cons. destruct (decide (pg_round_down b <> a)) as [H|H]; rewrite ?count_cons, IH; [done|].
  rewrite decide_False; [lia|]. intros E. apply H. congruence.
Qed.

(** The pages of arena [a] are given back and its blocks leave the free lists. *)
Lemma release other own us s a r y : minv other own us s -> arenas s !! a = Some r ->
  pa_inv y ((other ∪ own) ∖ pages a (arena_pages r)) us ->
  let s' := MState (purged a <$> descs s) (delete a (arenas s)) (bytes s) y in
  minv other (own ∖ pages a (arena_pages r)) us s' /\ forall q c, live s' q c <-> live s q c /\ pg_round_down q <> a.
Proof.
  intros I Ea HX s'. set (ps := pages a (arena_pages r)) in *.
  assert (HPS : forall q, q ∈ ps -> q ∈ own) by (intros q Hq; apply (m_own _ _ _ _ I); by exists a, r).
  assert (AR : forall a' r', arenas s' !! a' = Some r' <-> a' <> a /\ arenas s !! a' = Some r').
  { intros a' r'. unfold s'. cbn. rewrite lookup_delete_Some. split; intros [H1 H2]; (split; [congruence|done]). }
  assert (DS : forall d z, descs s' !! d = Some z <-> exists x, descs s !! d = Some x /\ z = purged a x).
  { intros d z. unfold s'. cbn. rewrite list_lookup_fmap_Some. split; intros (x & H1 & H2); exists x; done. }
  assert (BO : forall d x b, descs s !! d = Some x -> block_of s' d (purged a x) b <-> block_of s d x b /\ pg_round_down b <> a).
  { intros d x b Ed. unfold block_of. cbn. split.
    - intros (a' & r' & i & [Hn Ea']%AR & Eo & Hi & ->). split; [by exists a', r', i|].
      destruct (arena_addr _ _ _ _ _ _ I Ea') as (A1 & A2 & A3 & _). destruct (blk_addr a' x i A1 A2 A3 (m_desc _ _ _ _ I d x Ed) Hi) as (-> & _). done.
    - intros [(a' & r' & i & Ea' & Eo & Hi & ->) Hn]. exists a', r', i. split; [|done]. apply AR. split; [|done].
      destruct (arena_addr _ _ _ _ _ _ I Ea') as (A1 & A2 & A3 & _). by destruct (blk_addr a' x i A1 A2 A3 (m_desc _ _ _ _ I d x Ed) Hi) as (<- & _). }
  split.
  - split.
    + replace (other ∪ own ∖ ps) with ((other ∪ own) ∖ ps); [done|]. apply leibniz_equiv. intros q. rewrite elem_of_difference, !elem_of_union, elem_of_difference.
      split; [tauto|]. intros [Ho|]; [|tauto]. split; [by left|]. intros Hq. exact (m_other _ _ _ _ I q Ho (HPS q Hq)).
    + intros q Hq [Ho _]%elem_of_difference. exact (m_other _ _ _ _ I q Hq Ho).
    + intros q. rewrite elem_of_difference, (m_own _ _ _ _ I). split.
      * intros [(a' & r' & Ea' & Hq) Hn]. exists a', r'. split; [|done]. apply AR. split; [|done]. intros ->. rewrite Ea in Ea'. injection Ea' as <-. done.
      * intros (a' & r' & [Hn Ea']%AR & Hq). split; [by exists a', r'|]. intros Hq'. exact (m_apart _ _ _ _ I a' r' a r Ea' Ea Hn q Hq Hq').
    + intros a1 r1 a2 r2 [_ E1]%AR [_ E2]%AR. by apply (m_apart _ _ _ _ I).
    + intros d z (x & Ex & ->)%DS. apply (m_desc _ _ _ _ I d x Ex).
    + intros a' r' [Hn Ea']%AR. destruct (m_arena _ _ _ _ I a' r' Ea') as [M1 M2]. split; [done|]. destruct (owner r') as [d|]; [|done].
      destruct M2 as (x & Ex & Hc). exists (purged a x). split; [apply DS; by exists x|]. cbn. by rewrite count_purged.
    + intros d z (x & Ex & ->)%DS. destruct (m_free _ _ _ _ I d x Ex) as [N1 N2]. cbn. split; [by apply NoDup_filter|].
      intros b [Hp Hb]%list_elem_of_filter. apply BO; [done|]. split; [by apply N2|done].
  - intros q c. unfold live. split.
    + intros [(d & z & (x & Ex & ->)%DS & HB & HF & ->)|(a' & r' & [Hn Ea']%AR & H)].
      * apply BO in HB as [HB Hq]; [|done]. split; [|done]. left. exists d, x. split; [done|]. split; [done|]. split; [|done].
        intros Hin. apply HF. cbn. by apply list_elem_of_filter.
      * split; [right; by exists a', r'|]. destruct H as (_ & -> & _). destruct (arena_addr _ _ _ _ _ _ I Ea') as (A1 & A2 & A3 & _). unfold PHYS_BASE in A2.
        destruct (round_block a' sizeof_arena) as [-> _]; unfold sizeof_arena; (done || lia).
    + intros [[(d & x & Ex & HB & HF & ->)|(a' & r' & Ea' & Eo & -> & ->)] Hn].
      * left. exists d, (purged a x). split; [apply DS; by exists x|]. split; [by apply BO|]. split; [|done]. cbn. intros [_ Hin]%list_elem_of_filter. done.
      * right. exists a', r'. split; [|done]. apply AR. split; [|done]. intros ->. apply Hn.
        destruct (arena_addr _ _ _ _ _ _ I Ea') as (A1 & A2 & A3 & _). unfold PHYS_BASE in A2. destruct (round_block a sizeof_arena) as [-> _]; unfold sizeof_arena; (done || lia).
Qed.

Lemma remove_blocks_ok d a r bs bpa : magic r = ARENA_MAGIC -> owner r = Some d -> a <> 0 -> 0 < bs -> forall n i l s, arenas s !! a = Some r -> descs s !! d = Some (Desc bs bpa l) ->
  i + Z.of_nat n = bpa -> (forall b, b ∈ blocks a bs i n -> b ∈ l) ->
  remove_blocks n d a i s = Ok (tt, set_descs (<[d := Desc bs bpa (filter (fun b => b ∉ blocks a bs i n) l)]> (descs s)) s).
Proof.
  intros Em Eo Ha Hbs. induction n as [|n IH]; intros i l s Ea Ed Hi HB; cbn [remove_blocks].
  { rewrite (filter_ext_in _ (fun _ => True)) by (intros; split; [done|]; intros _; apply not_elem_of_nil).
    assert (filter (fun _ => True) l = l) as -> by (clear; induction l as [|b l IH]; [done|]; rewrite filter_cons_True by done; by rewrite IH).
    rewrite list_insert_id by done. by destruct s. }
  pose proof (lookup_lt_Some _ _ _ Ed) as Hl. pose proof (NoDup_blocks a bs (S n) Hbs i) as ND. cbn [blocks] in *. apply NoDup_cons in ND as [ND _].
  rewrite (M_bind_Ok _ _ _ _ _ (arena_to_block_at s a r d _ i Ea Em Eo Ed Ha ltac:(cbn; lia))). cbn [block_sz].
  unfold set_free, mbind, M_bind, get_desc, modify. rewrite Ed. cbn [free_list]. rewrite bool_decide_eq_true_2 by apply HB, list_elem_of_here.
  rewrite Ed. cbn [block_sz blocks_per_arena].
  rewrite (IH (i + 1) (filter (fun c => c <> blk a bs i) l)); [|done|by apply list_lookup_insert_eq|lia|].
  - cbn [descs set_descs]. rewrite list_insert_insert_eq, list_filter_filter.
    rewrite (filter_ext_in _ (fun b => b ∉ blk a bs i :: blocks a bs (i + 1) n)); [done|]. intros x _. rewrite not_elem_of_cons. tauto.
  - intros b Hb. apply list_elem_of_filter. split; [by intros ->|]. apply HB. by apply list_elem_of_further.
Qed.

(** An arena has no more free blocks than blocks; with that many, all of them are free. *)
Lemma count_bound other own us s d x a r : minv other own us s -> descs s !! d = Some x -> arenas s !! a = Some r -> owner r = Some d ->
  count a (free_list x) <= blocks_per_arena x /\
  (count a (free_list x) = blocks_per_arena x -> forall b, b ∈ blocks a (block_sz x) 0 (Z.to_nat (blocks_per_arena x)) -> b ∈ free_list x).
Proof.
  intros I Ed Ea Eo. destruct (m_free _ _ _ _ I d x Ed) as [HN HB]. pose proof (m_desc _ _ _ _ I d x Ed) as HD. pose proof (desc_facts x HD) as [F1 _].
  set (bl := blocks a (block_sz x) 0 (Z.to_nat (blocks_per_arena x))). set (F := filter (fun b => pg_round_down b = a) (free_list x)).
  assert (LB : length bl = Z.to_nat (blocks_per_arena x)) by apply length_blocks.
  assert (HS : F ⊆+ bl).
  { apply NoDup_submseteq; [by apply NoDup_filter|]. intros b [Hp Hb]%list_elem_of_filter.
    destruct (block_addr _ _ _ _ _ _ _ I Ed (HB b Hb)) as (a' & r' & i & Ea' & Eo' & Hi & -> & R & _).
    rewrite R in Hp. subst a'. apply elem_of_blocks. exists i. split; [lia|done]. }
  unfold count. fold F. pose proof (submseteq_length _ _ HS) as HL. split; [lia|]. intros Hc b Hb.
  assert (HP : F ≡ₚ bl) by (apply submseteq_length_Permutation; [done|lia]). rewrite <- HP in Hb. by apply list_elem_of_filter in Hb as [_ Hb].
Qed.

Lemma minv_bytes other own us s f : minv other own us s -> minv other own us (set_bytes f s).
Proof. intros []. by split. Qed.

(** Putting a block on its free list. *)
Lemma blocks_push_ok other own us s d x a r i : minv other own us s -> descs s !! d = Some x -> arenas s !! a = Some r -> owner r = Some d ->
  0 <= i < blocks_per_arena x -> let b := blk a (block_sz x) i in b ∉ free_list x ->
  minv other own us (relisted s d x (b :: free_list x) a r (free_cnt r + 1)) /\
  forall q c, live (relisted s d x (b :: free_list x) a r (free_cnt r + 1)) q c <-> live s q c /\ q <> b.
Proof.
  intros I Ed Ea Eo Hi b Hb. destruct (m_free _ _ _ _ I d x Ed) as [HN HB]. assert (HBb : block_of s d x b) by (by exists a, r, i).
  destruct (arena_addr _ _ _ _ _ _ I Ea) as (A1 & A2 & A3 & _). destruct (blk_addr a x i A1 A2 A3 (m_desc _ _ _ _ I d x Ed) Hi) as (R1 & _). fold b in R1. clearbody b.
  destruct (m_arena _ _ _ _ I a r Ea) as [_ HA]. rewrite Eo in HA. destruct HA as (x' & Ed' & Hc). rewrite Ed in Ed'. injection Ed' as <-. split.
  - apply relist; try done; [by constructor|intros b' [->|Hb']%elem_of_cons; [done|by apply HB]|rewrite count_cons, decide_True by done; lia|].
    intros a' Ha'. rewrite count_cons, decide_False by congruence. lia.
  - intros q c. rewrite relist_live, (live_split s d x), not_elem_of_cons by done. assert (HR : ~ rest s d b c).
    { intros HR. assert (Hl : live s b c) by (apply (live_split s d x); auto). destruct HR as [(d' & x' & Hn & Ed' & HB' & _)|(a' & r' & Ea' & Eo' & Eb & _)].
      - destruct (block_addr _ _ _ _ _ _ _ I Ed' HB') as (a' & r' & j & Ea' & Eo' & _ & _ & R' & _). rewrite R1 in R'. subst a'. congruence.
      - destruct (arena_addr _ _ _ _ _ _ I Ea') as (B1 & B2 & B3 & _). unfold PHYS_BASE in B2.
        destruct (round_block a' sizeof_arena) as [R' _]; unfold sizeof_arena in *; [done|lia|lia|lia|]. rewrite Eb in R1. assert (a' = a) by congruence. congruence. }
    destruct (decide (q = b)) as [->|]; tauto.
Qed.

(** Removing an arena's blocks one by one purges its page from the free lists. *)
Lemma purge_eq other own us s d x a r : minv other own us s -> descs s !! d = Some x -> arenas s !! a = Some r -> owner r = Some d ->
  <[d := Desc (block_sz x) (blocks_per_arena x) (filter (fun b => b ∉ blocks a (block_sz x) 0 (Z.to_nat (blocks_per_arena x))) (free_list x))]> (descs s) =
  purged a <$> descs s.
Proof.
  intros I Ed Ea Eo. destruct (arena_addr _ _ _ _ _ _ I Ea) as (A1 & A2 & A3 & _). apply list_eq. intros d'. rewrite list_lookup_fmap.
  assert (PAGE : forall d2 x2 b, descs s !! d2 = Some x2 -> b ∈ free_list x2 -> exists a2 r2 i, arenas s !! a2 = Some r2 /\ owner r2 = Some d2 /\ 0 <= i < blocks_per_arena x2 /\
    b = blk a2 (block_sz x2) i /\ pg_round_down b = a2).
  { intros d2 x2 b E2 Hb. destruct (block_addr _ _ _ _ _ _ _ I E2 (proj2 (m_free _ _ _ _ I d2 x2 E2) b Hb)) as (a2 & r2 & i & H1 & H2 & H3 & H4 & H5 & _). by exists a2, r2, i. }
  destruct (decide (d = d')) as [<-|Hn].
  - rewrite list_lookup_insert_eq, Ed by (by apply (lookup_lt_Some _ _ _ Ed)). cbn. unfold purged. do 2 f_equal. apply filter_ext_in. intros b Hb.
    destruct (PAGE d x b Ed Hb) as (a2 & r2 & i & Ea2 & Eo2 & Hi & -> & R). rewrite R, elem_of_blocks. split.
    + intros H ->. apply H. exists i. split; [lia|done].
    + intros H (k & Hk & Eb). apply H. rewrite <- R, Eb. apply (blk_addr a x k A1 A2 A3 (m_desc _ _ _ _ I d x Ed)). lia.
  - rewrite list_lookup_insert_ne by done. destruct (descs s !! d') as [x'|] eqn:E'; [|done]. cbn. rewrite purged_id; [done|].
    intros b Hb. destruct (PAGE d' x' b E' Hb) as (a2 & r2 & i & Ea2 & Eo2 & _ & _ & ->). congruence.
Qed.

(** What [free] promises. *)
Definition freed (other own us : gset Z) s (p c : Z) s' : Prop :=
  exists own', own' ⊆ own /\ minv other own' us s' /\ (forall q c', live s' q c' <-> live s q c' /\ q <> p) /\
    forall a, ~ (p <= a < p + c) -> bytes s' a = bytes s a.

Lemma free_pages_ok other own us s a r : minv other own us s -> arenas s !! a = Some r ->
  exists y, pa_free (pst s) a (arena_pages r) = Ok y /\ pa_inv y ((other ∪ own) ∖ pages a (arena_pages r)) us.
Proof.
  intros I Ea. destruct (m_arena _ _ _ _ I a r Ea) as [_ HA].
  apply (pa_free_ok (pst s) (other ∪ own) us false a (arena_pages r) (m_pages _ _ _ _ I)); [unfold arena_pages; destruct (owner r); lia|].
  intros q Hq. apply elem_of_union_r, (m_own _ _ _ _ I). by exists a, r.
Qed.

Lemma free_block_ok other own us s d x a r i : minv other own us s -> descs s !! d = Some x -> arenas s !! a = Some r -> owner r = Some d ->
  0 <= i < blocks_per_arena x -> let p := blk a (block_sz x) i in p ∉ free_list x ->
  exists s', free_block p a d s = Ok (tt, s') /\ freed other own us s p (block_sz x) s'.
Proof.
  intros I Ed Ea Eo Hi p Hnf. assert (HDk := m_desc _ _ _ _ I d x Ed). destruct (arena_addr _ _ _ _ _ _ I Ea) as (A1 & A2 & _).
  unfold free_block. rewrite (M_bind_Ok (get_desc d) _ s x s) by (unfold get_desc; by rewrite Ed).
  set (f := fill_bytes p 0xcc (block_sz x) (bytes s)). rewrite M_bind_modify. set (s0 := set_bytes f s).
  destruct (blocks_push_ok _ _ _ s0 d x a r i (minv_bytes _ _ _ _ f I) Ed Ea Eo Hi Hnf) as [I1 L1]. fold p in I1, L1.
  set (s1 := relisted s0 d x (p :: free_list x) a r (free_cnt r + 1)) in *. set (x1 := Desc (block_sz x) (blocks_per_arena x) (p :: free_list x)).
  set (r1 := Arena (magic r) (owner r) (free_cnt r + 1)). assert (Ed1 : descs s1 !! d = Some x1) by (apply list_lookup_insert_eq, (lookup_lt_Some _ _ _ Ed)).
  assert (Ea1 : arenas s1 !! a = Some r1) by apply lookup_insert_eq.
  set (s01 := set_descs (<[d := x1]> (descs s0)) s0).
  rewrite (M_bind_Ok (set_free d _) _ s0 tt s01) by (unfold set_free, mbind, M_bind, get_desc, modify; change (descs s0) with (descs s); by rewrite Ed).
  rewrite (M_bind_Ok (get_arena a) _ s01 r s01) by (unfold get_arena; change (arenas s01) with (arenas s); by rewrite Ea).
  rewrite (M_bind_Ok (set_count a _) _ s01 tt s1) by (unfold set_count, mbind, M_bind, get_arena, modify; change (arenas s01) with (arenas s); by rewrite Ea).
  destruct (m_arena _ _ _ _ I1 a r1 Ea1) as [Em1 HA1]. cbn [owner r1] in HA1. rewrite Eo in HA1. destruct HA1 as (x1' & Ed1' & Hc1). rewrite Ed1 in Ed1'. injection Ed1' as <-.
  destruct (count_bound _ _ _ _ _ _ _ _ I1 Ed1 Ea1 Eo) as [HB1 HB2]. cbn [free_cnt r1] in Hc1. cbn [blocks_per_arena x1 block_sz] in HB1, HB2.
  assert (KEEP : forall q, ~ (p <= q < p + block_sz x) -> f q = bytes s q) by (intros q Hq; unfold f, fill_bytes; by rewrite bool_decide_eq_false_2).
  destruct (Z.leb_spec (blocks_per_arena x) (free_cnt r + 1)) as [Hle|Hlt]; [|exists s1; split; [done|]; exists own; done].
  rewrite (M_bind_Ok (ASSERT _) _ s1 tt s1) by (rewrite (proj2 (Z.eqb_eq _ (blocks_per_arena x))) by lia; done).
  rewrite (M_bind_Ok _ _ _ _ _ (remove_blocks_ok d a r1 (block_sz x) (blocks_per_arena x) Em1 Eo ltac:(unfold PHYS_BASE in A2; lia) ltac:(destruct HDk; lia) (Z.to_nat (blocks_per_arena x)) 0
    (p :: free_list x) s1 Ea1 Ed1 ltac:(pose proof (desc_facts x HDk); lia) (HB2 ltac:(lia)))).
  pose proof (purge_eq _ _ _ s1 d x1 a r1 I1 Ed1 Ea1 Eo) as PE. cbn [block_sz blocks_per_arena free_list x1] in PE. rewrite PE.
  destruct (free_pages_ok _ _ _ _ _ _ I1 Ea1) as (y & HF & HY). destruct (release _ _ _ s1 a r1 y I1 Ea1 HY) as [I2 L2].
  assert (EP : arena_pages r1 = 1) by (unfold arena_pages; cbn; by rewrite Eo). rewrite EP in HF, I2.
  unfold free_pages. change (pst (set_descs _ s1)) with (pst s1). rewrite HF. eexists. split; [done|].
  exists (own ∖ pages a 1). split; [set_solver|]. split; [exact I2|]. split; [|exact KEEP].
  intros q c. rewrite (L2 q c), (L1 q c). split; [by intros [[H1 H2] _]|]. intros [H1 H2]. split; [done|]. intros Hq.
  destruct (live_span _ _ _ _ _ _ I1 (proj2 (L1 q c) (conj H1 H2))) as (a' & r' & Ea' & _ & _ & _ & R' & HX). rewrite Hq in R'. subst a'. rewrite Ea1 in Ea'. injection Ea' as <-.
  cbn [owner r1] in HX. rewrite Eo in HX. destruct HX as (x' & k & Ed' & Hk & Eq & _ & Hx). rewrite Ed1 in Ed'. injection Ed' as <-.
  apply Hx, (HB2 ltac:(lia)), elem_of_blocks. exists k. cbn in Hk, Eq. split; [lia|done].
Qed.

Lemma purge_big other own us s a r : minv other own us s -> arenas s !! a = Some r -> owner r = None -> purged a <$> descs s = descs s.
Proof.
  intros I Ea Eo. rewrite <- (list_fmap_id (descs s)) at 2. apply list_fmap_ext. intros d x Ed. apply purged_id. intros b Hb.
  destruct (block_addr _ _ _ _ _ _ _ I Ed (proj2 (m_free _ _ _ _ I d x Ed) b Hb)) as (a' & r' & i & Ea' & Eo' & _ & _ & -> & _). congruence.
Qed.

Lemma free_ok other own us s p c : minv other own us s -> live s p c -> exists s', free p s = Ok (tt, s') /\ freed other own us s p c s'.
Proof.
  intros I Hl. destruct (live_span _ _ _ _ _ _ I Hl) as (a & r & Ea & S1 & S2 & _ & R & HX). destruct (arena_addr _ _ _ _ _ _ I Ea) as (A1 & A2 & A3 & _).
  destruct (m_arena _ _ _ _ I a r Ea) as [Em _]. unfold free. rewrite (proj2 (Z.eqb_neq p 0)) by (unfold PHYS_BASE, sizeof_arena in *; lia).
  destruct (owner r) as [d|] eqn:Eo.
  - destruct HX as (x & i & Ed & Hi & -> & -> & Hnf).
    rewrite (M_bind_Ok _ _ _ _ _ (block_to_arena_at s a r d x i Ea Em Eo Ed A1 A2 A3 (m_desc _ _ _ _ I d x Ed) Hi)).
    rewrite (M_bind_Ok (get_arena a) _ s r s) by (unfold get_arena; by rewrite Ea). rewrite Eo. by apply (free_block_ok other own us s d x a r i).
  - destruct HX as [-> ->]. rewrite (M_bind_Ok _ _ _ _ _ (big_to_arena s a r Ea Em Eo A1 A2 A3)).
    rewrite (M_bind_Ok (get_arena a) _ s r s) by (unfold get_arena; by rewrite Ea). rewrite Eo.
    destruct (free_pages_ok _ _ _ _ _ _ I Ea) as (y & HF & HY). destruct (release _ _ _ s a r y I Ea HY) as [I2 L2]. rewrite (purge_big _ _ _ _ _ _ I Ea Eo) in I2, L2.
    assert (EP : arena_pages r = free_cnt r) by (unfold arena_pages; by rewrite Eo). rewrite EP in HF, I2. unfold free_pages. rewrite HF.
    eexists. split; [done|]. exists (own ∖ pages a (free_cnt r)). split; [set_solver|]. split; [exact I2|]. split; [|done].
    intros q c. rewrite (L2 q c). split; [intros [H1 H2]; split; [done|by intros ->]|]. intros [H1 H2]. split; [done|]. intros Hq.
    destruct (live_span _ _ _ _ _ _ I H1) as (a' & r' & Ea' & _ & _ & _ & R' & HX). rewrite Hq in R'. subst a'. rewrite Ea in Ea'. injection Ea' as <-.
    rewrite Eo in HX. by destruct HX as [-> _].
Qed.

Lemma block_size_ok other own us s p c : minv other own us s -> live s p c -> block_size p s = Ok (c, s).
Proof.
  intros I Hl. destruct (live_span _ _ _ _ _ _ I Hl) as (a & r & Ea & S1 & S2 & _ & R & HX). destruct (arena_addr _ _ _ _ _ _ I Ea) as (A1 & A2 & A3 & _).
  destruct (m_arena _ _ _ _ I a r Ea) as [Em HA]. unfold block_size. destruct (owner r) as [d|] eqn:Eo.
  - destruct HX as (x & i & Ed & Hi & -> & -> & _).
    rewrite (M_bind_Ok _ _ _ _ _ (block_to_arena_at s a r d x i Ea Em Eo Ed A1 A2 A3 (m_desc _ _ _ _ I d x Ed) Hi)).
    rewrite (M_bind_Ok (get_arena a) _ s r s) by (unfold get_arena; by rewrite Ea). rewrite Eo.
    by rewrite (M_bind_Ok (get_desc d) _ s x s) by (unfold get_desc; by rewrite Ed).
  - destruct HX as [-> ->]. rewrite (M_bind_Ok _ _ _ _ _ (big_to_arena s a r Ea Em Eo A1 A2 A3)).
    rewrite (M_bind_Ok (get_arena a) _ s r s) by (unfold get_arena; by rewrite Ea). rewrite Eo. unfold PHYS_BASE in A2.
    destruct (round_block a sizeof_arena) as [_ ->]; [done|lia|unfold sizeof_arena; lia|unfold sizeof_arena; lia|]. unfold mret, M_ret. do 2 f_equal. apply u32_small.
    destruct (pa_range _ _ _ (a + 4096 * (free_cnt r - 1)) (m_pages _ _ _ _ I)) as (_ & _ & R3).
    { apply elem_of_union_l, elem_of_union_r, (m_own _ _ _ _ I). exists a, r. split; [done|]. apply elem_of_pages. exists (free_cnt r - 1). unfold arena_pages. rewrite Eo. lia. }
    change PGSIZE with 4096. unfold sizeof_arena, is_u32. lia.
Qed.

(** C10: malloc, for every state the allocator can be in and every size up to the last page
    of the address space: it returns null and hands out nothing, or a block of at least
    the requested size that overlaps no block handed out before and not freed; these all
    keep their bytes and stay handed out, and the invariant of free lists, arenas and
    pages is kept. *)
Theorem malloc_correct other own us s size : minv other own us s -> 0 < size -> size + 12 + 4095 < 2 ^ 32 ->
  exists p own' s', malloc size s = Ok (p, s') /\ minv other own' us s' /\ bytes s' = bytes s /\
    ((p = 0 /\ own' = own /\ forall q c, live s' q c <-> live s q c) \/
     exists c, PHYS_BASE < p /\ size <= c /\ (forall q c', live s q c' -> p + c <= q \/ q + c' <= p) /\
       forall q c', live s' q c' <-> live s q c' \/ (q = p /\ c' = c)).
Proof.
  intros I Hs Hu. destruct (malloc_ok other own us s size I Hs Hu) as [(s' & HR & I' & HB & HL)|(p & s' & HR & own' & c & I' & HB & Hc & HP & HN & HL)].
  - exists 0, own, s'. repeat (split; [done|]). by left.
  - exists p, own', s'. repeat (split; [done|]). right. exists c. split; [done|]. split; [done|]. split; [|done].
    intros q c' Hq. apply (live_apart other own' us s'); [done|apply HL; by right|apply HL; by left|]. intros ->. apply HN. by exists c'.
Qed.

(** C27: free of a block that is handed out takes exactly that block back: it fails no
    assertion, all other blocks stay handed out and keep their bytes, and the pages the
    allocator holds can only become fewer.  free of a null pointer does nothing. *)
Theorem free_correct other own us s p c : minv other own us s -> live s p c ->
  free 0 s = Ok (tt, s) /\
  exists own' s', free p s = Ok (tt, s') /\ own' ⊆ own /\ minv other own' us s' /\
    (forall q c', live s' q c' <-> live s q c' /\ q <> p) /\
    forall q c' a, live s' q c' -> q <= a < q + c' -> bytes s' a = bytes s a.
Proof.
  intros I Hl. split; [done|]. destruct (free_ok other own us s p c I Hl) as (s' & HR & own' & HO & I' & HL & HB).
  exists own', s'. repeat (split; [done|]). intros q c' a Hq Ha. apply HB. apply HL in Hq as [Hq Hn].
  destruct (live_apart _ _ _ _ _ _ _ _ I Hl Hq ltac:(done)); lia.
Qed.

(** realloc of a block that is handed out, to a new size greater than zero: it returns
    null and the block stays as it was, or a new block of at least that size which begins
    with the old contents, as far as both reach, and the old block is freed; the bytes of
    all other blocks are kept. *)
Theorem realloc_correct other own us s p c size : minv other own us s -> live s p c -> 0 < size -> size + 12 + 4095 < 2 ^ 32 ->
  exists q own' s', realloc p size s = Ok (q, s') /\ minv other own' us s' /\
    ((q = 0 /\ bytes s' = bytes s /\ forall b k, live s' b k <-> live s b k) \/
     exists k, PHYS_BASE < q /\ size <= k /\ (forall b k', live s' b k' <-> (live s b k' /\ b <> p) \/ (b = q /\ k' = k)) /\
       (forall i, 0 <= i < size -> i < c -> bytes s' (q + i) = bytes s (p + i)) /\
       forall b k' a, live s b k' -> b <> p -> b <= a < b + k' -> bytes s' a = bytes s a).
Proof.
  intros I Hl Hs Hu. destruct (live_span _ _ _ _ _ _ I Hl) as (a & r & Ea & S1 & _ & Hc0 & _). destruct (arena_addr _ _ _ _ _ _ I Ea) as (_ & A2 & _).
  assert (Hp0 : p <> 0) by (unfold PHYS_BASE, sizeof_arena in *; lia). unfold realloc. rewrite (proj2 (Z.eqb_neq size 0)) by lia.
  destruct (malloc_ok other own us s size I Hs Hu) as [(s1 & HR & I1 & HB & HL)|(q & s1 & HR & own1 & k & I1 & HB & Hk & HP & HN & HL)]; rewrite (M_bind_Ok _ _ _ _ _ HR).
  { rewrite andb_false_r. exists 0, own, s1. repeat (split; [done|]). by left. }
  rewrite (proj2 (Z.eqb_neq p 0)), (proj2 (Z.eqb_neq q 0)) by (done || unfold PHYS_BASE in HP; lia). cbn [negb andb].
  assert (Hqp : q <> p) by (intros ->; apply HN; by exists c). assert (Hl1 : live s1 p c) by (apply HL; by left). assert (Hq1 : live s1 q k) by (apply HL; by right).
  rewrite (M_bind_Ok _ _ _ _ _ (block_size_ok _ _ _ _ _ _ I1 Hl1)). rewrite M_bind_modify. set (m := if size <? c then size else c).
  assert (Hm : m <= size /\ m <= c /\ forall i, i < size -> i < c -> i < m) by (unfold m; destruct (Z.ltb_spec size c); (split; [lia|split; [lia|intros; lia]])).
  set (f := copy_bytes q p m (bytes s1)). destruct (free_ok other own1 us (set_bytes f s1) p c (minv_bytes _ _ _ _ f I1) Hl1) as (s2 & HR2 & own2 & HO & I2 & HL2 & HB2).
  rewrite (M_bind_Ok _ _ _ _ _ HR2). exists q, own2, s2. split; [done|]. split; [done|]. right. exists k. split; [done|]. split; [done|].
  assert (LV : forall b k', live (set_bytes f s1) b k' <-> live s b k' \/ (b = q /\ k' = k)) by (intros; apply HL).
  pose proof (live_apart _ _ _ _ _ _ _ _ I1 Hl1 Hq1 ltac:(done)) as AP. split; [|split].
  - intros b k'. rewrite HL2, LV. split; [intros [[H|[-> ->]] Hn]; [by left|by right]|]. intros [[H Hn]|[-> ->]]; [split; [by left|done]|split; [by right|done]].
  - intros i Hi Hic. destruct Hm as (M1 & M2 & M3). specialize (M3 i ltac:(lia) Hic). rewrite HB2 by lia. cbn. unfold f, copy_bytes.
    rewrite bool_decide_eq_true_2, HB by lia. f_equal. lia.
  - intros b k' x Hb Hn Hx. assert (Hb1 : live s1 b k') by (apply HL; by left). assert (Hbq : b <> q) by (intros ->; apply HN; by exists k').
    pose proof (live_apart _ _ _ _ _ _ _ _ I1 Hl1 Hb1 ltac:(done)). pose proof (live_apart _ _ _ _ _ _ _ _ I1 Hq1 Hb1 ltac:(done)).
    rewrite HB2 by lia. cbn. unfold f, copy_bytes. rewrite bool_decide_eq_false_2 by lia. by rewrite HB.
Qed.

(** calloc of a size whose computation does not wrap around. *)
Lemma calloc_ok other own us s a b : minv other own us s -> 0 < a -> 0 < b -> a * b + 12 + 4095 < 2 ^ 32 ->
  (exists s', calloc a b s = Ok (0, s') /\ minv other own us s') \/
  (exists p s' own' c, calloc a b s = Ok (p, s') /\ minv other own' us s' /\ a * b <= c /\ live s' p c /\ forall x, p <= x < p + a * b -> bytes s' x = 0).
Proof.
  intros I Ha Hb Hu. unfold calloc. rewrite u32_small by (unfold is_u32; nia). rewrite (proj2 (Z.ltb_ge (a * b) a)), (proj2 (Z.ltb_ge (a * b) b)) by nia. cbn [orb].
  destruct (malloc_ok other own us s (a * b) I ltac:(nia) Hu) as [(s1 & HR & I1 & _)|(p & s1 & HR & own1 & c & I1 & HB & Hc & HP & _ & HL)]; rewrite (M_bind_Ok _ _ _ _ _ HR).
  - left. by exists s1.
  - right. rewrite (proj2 (Z.eqb_neq p 0)) by (unfold PHYS_BASE in HP; lia). cbn [negb]. rewrite M_bind_modify. eexists p, _, own1, c. split; [done|].
    split; [by apply minv_bytes|]. split; [done|]. split; [apply HL; by right|]. intros x Hx. cbn. unfold fill_bytes. by rewrite bool_decide_eq_true_2.
Qed.

(** malloc_init establishes the invariant. *)
Definition sizes : list Z := [16; 32; 64; 128; 256; 512; 1024].
Definition initial_descs : list desc := (fun n => Desc n (4084 / n) []) <$> sizes.

Lemma malloc_init_ok f y : malloc_init (MState [] ∅ f y) = Ok (tt, MState initial_descs ∅ f y).
Proof. by_kernel. Qed.

Lemma initial_minv f y other us : pa_inv y other us -> minv other ∅ us (MState initial_descs ∅ f y).
Proof.
  intros HY. split; cbn [pst arenas descs].
  - by rewrite union_empty_r_L.
  - apply disjoint_empty_r.
  - intros q. split; [by intros ?%elem_of_empty|]. intros (a & r & Ea & _). by rewrite lookup_empty in Ea.
  - intros a r a' r' Ea. by rewrite lookup_empty in Ea.
  - intros d x Ed. unfold initial_descs in Ed. apply list_lookup_fmap_Some in Ed as (n & -> & Hn). split; [|done]. cbn.
    apply list_elem_of_lookup_2 in Hn. unfold sizes in Hn. repeat (apply elem_of_cons in Hn as [->|Hn]; [lia|]). by apply elem_of_nil in Hn.
  - intros a r Ea. by rewrite lookup_empty in Ea.
  - intros d x Ed. unfold initial_descs in Ed. apply list_lookup_fmap_Some in Ed as (n & -> & _). split; [constructor|]. cbn. by intros b ?%elem_of_nil.
Qed.

End Ops.

(** ** Example: the state after malloc_init and malloc (100) *)

Definition demo_other : gset Z := marked 0xc0101000 demo_kernel.
Definition demo_us : gset Z := marked 0xc0200000 (replicate 4 false).
Definition demo_init : mstate (pstate bitmap) := MState initial_descs ∅ (fun _ => 0) demo_pstate.

Lemma demo_init_minv : minv demo_other ∅ demo_us demo_init.
Proof. apply initial_minv. exists demo_kernel, (replicate 4 false). split; [apply demo_state_repr|done]. Qed.

#[local] Opaque demo_other demo_us.

Lemma demo_live : exists own s p c, minv demo_other own demo_us s /\ live s p c /\ malloc 100 demo_init = Ok (p, s).
Proof.
  assert (H : match malloc 100 demo_init with Ok (p, _) => p =? 0 | Fail _ => true end = false) by by_kernel.
  destruct (malloc_ok demo_other ∅ demo_us demo_init 100 demo_init_minv ltac:(lia) ltac:(lia)) as [(s & HR & _)|(p & s & HR & own & c & I & _ & _ & _ & _ & HL)].
  - rewrite HR in H. discriminate H.
  - exists own, s, p, c. split; [exact I|]. split; [exact (proj2 (HL p c) (or_intror (conj eq_refl eq_refl)))|exact HR].
Qed.

#[local] Opaque demo_init.

Lemma malloc_correct_witness : exists p own s, malloc 100 demo_init = Ok (p, s) /\ minv demo_other own demo_us s.
Proof.
  destruct (malloc_correct demo_other ∅ demo_us demo_init 100 demo_init_minv ltac:(lia) ltac:(lia)) as (p & own & s & HR & I & _).
  exists p, own, s. exact (conj HR I).
Defined.

Lemma free_correct_witness : exists p s own s', malloc 100 demo_init = Ok (p, s) /\ free p s = Ok (tt, s') /\ minv demo_other own demo_us s'.
Proof.
  destruct demo_live as (own & s & p & c & I & Hl & HM). destruct (free_correct demo_other own demo_us s p c I Hl) as [_ (own' & s' & HR & _ & I' & _)].
  exists p, s, own', s'. exact (conj HM (conj HR I')).
Defined.

End Malloc.
