(* ===== verification/Pagedir.v ===== *)
(** * Page directories (src/userprog/pagedir.c)

    A page directory and its page tables are pages of 1024 words; the state maps the
    address of such a page to its words.  Pages come from any page allocator that keeps the
    promise of Pages.  The model has the page directory base register and the sequence of
    values loaded into it, since loading it is what invalidates the TLB. *)

From S2P Require Import Prelude Vaddr Bitmap Palloc Pages.
Import Vaddr Bitmap Palloc Pages.

Module Pagedir.

Record pdstate (P : Type) := PD {
  tables : gmap Z (list Z);
  pst : P;
  cr3 : Z;
  loads : list Z
}.
Arguments PD {_} _ _ _ _.
Arguments tables {_} _.
Arguments pst {_} _.
Arguments cr3 {_} _.
Arguments loads {_} _.

Section Ops.
Context {P : Type} `{PA : PageAlloc P} (init_page_dir init_ram_pages : Z).
Implicit Types s : pdstate P.

Definition set_tables (t : gmap Z (list Z)) s : pdstate P := PD t (pst s) (cr3 s) (loads s).
Definition set_pst (p : P) s : pdstate P := PD (tables s) p (cr3 s) (loads s).

(** The word [*(page + 4 * idx)]. *)
Definition read_word (page idx : Z) : M (pdstate P) Z := fun s =>
  match tables s !! page with
  | Some ws => match ws !! Z.to_nat idx with Some w => Ok (w, s) | None => Fail FMemory end
  | None => Fail FMemory
  end.
Definition write_word (page idx w : Z) : M (pdstate P) unit := fun s =>
  match tables s !! page with
  | Some ws => if bool_decide (Z.to_nat idx < length ws)%nat
               then Ok (tt, set_tables (<[page := <[Z.to_nat idx := w]> ws]> (tables s)) s) else Fail FMemory
  | None => Fail FMemory
  end.

Definition get_page (flags : Z) : M (pdstate P) Z := fun s =>
  match pa_get (pst s) flags 1 with Ok (p, x) => Ok (p, set_pst x s) | Fail e => Fail e end.
(** A page given back is no longer readable. *)
Definition free_page (p : Z) : M (pdstate P) unit := fun s =>
  match pa_free (pst s) p 1 with
  | Ok x => Ok (tt, set_tables (delete p (tables s)) (set_pst x s))
  | Fail e => Fail e
  end.
Definition lift {A} (o : outcome A) : M (pdstate P) A := fun s =>
  match o with Ok a => Ok (a, s) | Fail e => Fail e end.

Definition pagedir_create : M (pdstate P) Z :=
  let* pd := get_page 0 in
  if negb (pd =? 0) then
    let* t := gets tables in
    match t !! init_page_dir with
    | Some ws => do* modify (fun s => set_tables (<[pd := ws]> (tables s)) s); mret pd
    | None => fail FMemory
    end
  else mret pd.

(** The page tables from entry [i] of table [pt] on, [n] entries. *)
Fixpoint free_ptes (n : nat) (pt i : Z) : M (pdstate P) unit :=
  match n with
  | O => mret tt
  | S n =>
    let* pte := read_word pt i in
    do* (if negb (Z.land pte PTE_P =? 0) then let* page := lift (pte_get_page pte) in free_page page else mret tt);
    free_ptes n pt (i + 1)
  end.

Fixpoint free_pdes (n : nat) (pd i : Z) : M (pdstate P) unit :=
  match n with
  | O => mret tt
  | S n =>
    let* pde := read_word pd i in
    do* (if negb (Z.land pde PTE_P =? 0) then
           let* pt := lift (pde_get_pt pde) in
           do* free_ptes (Z.to_nat (PGSIZE / 4)) pt 0;
           free_page pt
         else mret tt);
    free_pdes n pd (i + 1)
  end.

Definition pagedir_destroy (pd : Z) : M (pdstate P) unit :=
  if pd =? 0 then mret tt else
  do* ASSERT (negb (pd =? init_page_dir));
  do* free_pdes (Z.to_nat (pd_no PHYS_BASE)) pd 0;
  free_page pd.

(** A pointer into a page table: the table's page and the entry's index. *)
Definition lookup_page (pd vaddr : Z) (create : bool) : M (pdstate P) (option (Z * Z)) :=
  do* ASSERT (negb (pd =? 0));
  do* ASSERT (negb create || is_user_vaddr vaddr);
  let* pde := read_word pd (pd_no vaddr) in
  let* found : bool :=
    if pde =? 0 then
      if create then
        let* pt := get_page PAL_ZERO in
        if pt =? 0 then mret false else
        do* modify (fun s => set_tables (<[pt := replicate (Z.to_nat 1024) 0]> (tables s)) s);
        let* w := lift (pde_create pt) in
        do* write_word pd (pd_no vaddr) w;
        mret true
      else mret false
    else mret true in
  if found then
    let* pde := read_word pd (pd_no vaddr) in
    let* pt := lift (pde_get_pt pde) in
    mret (Some (pt, pt_no vaddr))
  else mret None.

Definition pagedir_activate (pd : Z) : M (pdstate P) unit :=
  let pd := if pd =? 0 then init_page_dir else pd in
  let* p := lift (vtop pd) in
  modify (fun s => PD (tables s) (pst s) p (loads s ++ [p])).

Definition active_pd : M (pdstate P) Z :=
  let* p := gets cr3 in lift (ptov p).

Definition invalidate_pagedir (pd : Z) : M (pdstate P) unit :=
  let* a := active_pd in
  if a =? pd then pagedir_activate pd else mret tt.

Definition pagedir_set_page (pd upage kpage : Z) (writable : bool) : M (pdstate P) bool :=
  do* ASSERT (pg_ofs upage =? 0);
  do* ASSERT (pg_ofs kpage =? 0);
  do* ASSERT (is_user_vaddr upage);
  let* p := lift (vtop kpage) in
  do* ASSERT (Z.shiftr p PTSHIFT <? init_ram_pages);
  do* ASSERT (negb (pd =? init_page_dir));
  let* pte := lookup_page pd upage true in
  match pte with
  | Some (pt, i) =>
    let* w := read_word pt i in
    do* ASSERT (Z.land w PTE_P =? 0);
    let* e := lift (pte_create_user kpage writable) in
    do* write_word pt i e;
    mret true
  | None => mret false
  end.

Definition pagedir_get_page (pd uaddr : Z) : M (pdstate P) Z :=
  do* ASSERT (is_user_vaddr uaddr);
  let* pte := lookup_page pd uaddr false in
  match pte with
  | Some (pt, i) =>
    let* w := read_word pt i in
    if negb (Z.land w PTE_P =? 0) then let* page := lift (pte_get_page w) in mret (u32 (page + pg_ofs uaddr))
    else mret 0
  | None => mret 0
  end.

Definition pagedir_clear_page (pd upage : Z) : M (pdstate P) unit :=
  do* ASSERT (pg_ofs upage =? 0);
  do* ASSERT (is_user_vaddr upage);
  let* pte := lookup_page pd upage false in
  match pte with
  | Some (pt, i) =>
    let* w := read_word pt i in
    if negb (Z.land w PTE_P =? 0) then
      do* write_word pt i (Z.land w (not32 PTE_P));
      invalidate_pagedir pd
    else mret tt
  | None => mret tt
  end.

(** [pagedir_is_dirty] and [pagedir_is_accessed], [pagedir_set_dirty] and
    [pagedir_set_accessed] differ in the flag. *)
Definition is_flag (flag pd vpage : Z) : M (pdstate P) bool :=
  let* pte := lookup_page pd vpage false in
  match pte with
  | Some (pt, i) => let* w := read_word pt i in mret (negb (Z.land w flag =? 0))
  | None => mret false
  end.
Definition set_flag (flag pd vpage : Z) (on : bool) : M (pdstate P) unit :=
  let* pte := lookup_page pd vpage false in
  match pte with
  | Some (pt, i) =>
    let* w := read_word pt i in
    if on then write_word pt i (Z.lor w flag)
    else do* write_word pt i (Z.land w (not32 flag)); invalidate_pagedir pd
  | None => mret tt
  end.

Definition pagedir_is_dirty : Z -> Z -> M (pdstate P) bool := is_flag PTE_D.
Definition pagedir_set_dirty : Z -> Z -> bool -> M (pdstate P) unit := set_flag PTE_D.
Definition pagedir_is_accessed : Z -> Z -> M (pdstate P) bool := is_flag PTE_A.
Definition pagedir_set_accessed : Z -> Z -> bool -> M (pdstate P) unit := set_flag PTE_A.

Definition pagedir_install_page (pd upage kpage : Z) (writable : bool) : M (pdstate P) bool :=
  let* old := pagedir_get_page pd upage in
  if old =? 0 then pagedir_set_page pd upage kpage writable else mret false.

(** ** What a page directory stands for *)

(** The page table a directory entry refers to. *)
Definition table_of (pde : Z) : Z := Z.land pde PTE_ADDR + PHYS_BASE.

(** The page-table entry for [va], 0 if there is no page table. *)
Definition entry s (pd va : Z) : Z :=
  match tables s !! pd with
  | Some dir =>
    match dir !! Z.to_nat (pd_no va) with
    | Some pde => if pde =? 0 then 0 else
        match tables s !! table_of pde with Some tb => default 0 (tb !! Z.to_nat (pt_no va)) | None => 0 end
    | None => 0
    end
  | None => 0
  end.

Definition present (e : Z) : bool := negb (Z.land e PTE_P =? 0).

(** An entry is a 32-bit word; a present one refers to physical memory. *)
Definition pte_ok (e : Z) : Prop := is_u32 e /\ (present e = true -> Z.land e PTE_ADDR < 2 ^ 30).

Record wf (ks us : gset Z) (pd : Z) s : Prop := {
  w_pages : pa_inv (pst s) ks us;
  w_init : pd <> init_page_dir;
  w_in : pd ∈ ks;
  w_initial : init_page_dir ∈ ks;
  w_cr3 : 0 <= cr3 s < 2 ^ 30;
  w_dir : exists dir, tables s !! pd = Some dir /\ Z.of_nat (length dir) = 1024;
  w_pde : forall dir i pde, tables s !! pd = Some dir -> Z.of_nat i < 768 -> dir !! i = Some pde -> pde <> 0 ->
    pde_create (table_of pde) = Ok pde /\ table_of pde ∈ ks /\ table_of pde <> pd /\ table_of pde <> init_page_dir /\
    exists tb, tables s !! table_of pde = Some tb /\ Z.of_nat (length tb) = 1024 /\ Forall pte_ok tb;
  w_inj : forall dir i j pde, tables s !! pd = Some dir -> Z.of_nat i < 768 -> Z.of_nat j < 768 ->
    dir !! i = Some pde -> dir !! j = Some pde -> pde <> 0 -> i = j
}.

Lemma pd_range ks us pd s : wf ks us pd s -> pd mod 4096 = 0 /\ PHYS_BASE < pd /\ pd + 4096 < 2 ^ 32.
Proof. intros W. apply (pa_range _ _ _ pd (w_pages _ _ _ _ W)), elem_of_union_l, (w_in _ _ _ _ W). Qed.
Lemma pd_base ks us pd s : wf ks us pd s -> PHYS_BASE < pd.
Proof. intros W. apply (pd_range _ _ _ _ W). Qed.

(** ** Words *)

Lemma pde_word pt : PHYS_BASE < pt -> pt + 4096 < 2 ^ 32 -> pt mod 4096 = 0 ->
  pde_create pt = Ok (pt - PHYS_BASE + 7) /\ table_of (pt - PHYS_BASE + 7) = pt /\
  pde_get_pt (pt - PHYS_BASE + 7) = Ok pt /\ pt - PHYS_BASE + 7 <> 0 /\ present (pt - PHYS_BASE + 7) = true.
Proof.
  intros H1 H2 H3. assert (HA : (pt - PHYS_BASE) mod 4096 = 0) by (rewrite Zminus_mod, H3; done).
  unfold PHYS_BASE in *.
  assert (HL : Z.land (pt - 0xc0000000 + 7) PTE_ADDR = pt - 0xc0000000) by (apply land_pte_addr; lia).
  assert (HP : present (pt - 0xc0000000 + 7) = true).
  { unfold present. change PTE_P with (2 ^ 0). rewrite land_bit_testbit, testbit_pte_flag by lia. done. }
  split; [|split; [unfold table_of, PHYS_BASE; rewrite HL; lia|split; [|split; [lia|done]]]].
  - unfold pde_create. rewrite pg_ofs_mod, H3, vtop_ok by (unfold PHYS_BASE; lia).
    cbn [Z.eqb mbind outcome_bind mret outcome_ret]. f_equal. rewrite <- !Z.lor_assoc.
    change (Z.lor PTE_U (Z.lor PTE_P PTE_W)) with 7. unfold PHYS_BASE. rewrite (lor_disjoint _ _ 12); [done|lia|exact HA|lia].
  - unfold pde_get_pt. unfold present in HP. apply negb_true_iff in HP. rewrite HP, HL, ptov_ok by lia. f_equal. unfold PHYS_BASE. lia.
Qed.

Lemma pde_facts ks us pd s dir i pde : wf ks us pd s -> tables s !! pd = Some dir -> Z.of_nat i < 768 -> dir !! i = Some pde -> pde <> 0 ->
  pde_get_pt pde = Ok (table_of pde) /\ present pde = true.
Proof.
  intros W E Hi Hp Hn. destruct (w_pde _ _ _ _ W dir i pde E Hi Hp Hn) as (HC & HK & _).
  destruct (pa_range _ _ _ (table_of pde) (w_pages _ _ _ _ W)) as (R1 & R2 & R3); [by apply elem_of_union_l|].
  destruct (pde_word (table_of pde) R2 R3 R1) as (C & _ & G & _ & Q). rewrite C in HC. injection HC as HC. rewrite HC in *. done.
Qed.

Lemma user_index va : 0 <= va < PHYS_BASE -> Z.of_nat (Z.to_nat (pd_no va)) < 768 /\ Z.of_nat (Z.to_nat (pt_no va)) < 1024.
Proof.
  intros H. rewrite pd_no_div, pt_no_div. unfold PHYS_BASE in H. pose proof (Z.mod_pos_bound (va / 4096) 1024 ltac:(lia)).
  assert (va / 4194304 < 768) by (apply Z.div_lt_upper_bound; lia). lia.
Qed.

(** Two user addresses share an entry exactly when they are on the same page. *)
Lemma same_entry va vb : 0 <= va -> 0 <= vb ->
  (Z.to_nat (pd_no va) = Z.to_nat (pd_no vb) /\ Z.to_nat (pt_no va) = Z.to_nat (pt_no vb)) <-> pg_no va = pg_no vb.
Proof.
  intros Ha Hb. rewrite !pd_no_div, !pt_no_div, !pg_no_div.
  assert (E : forall v, 0 <= v -> v / 4194304 = v / 4096 / 1024) by (intros; rewrite Z.div_div by lia; done).
  rewrite !E by done. pose proof (Z.div_pos va 4096). pose proof (Z.div_pos vb 4096).
  set (x := va / 4096) in *. set (y := vb / 4096) in *.
  pose proof (Z.mod_pos_bound x 1024). pose proof (Z.mod_pos_bound y 1024).
  pose proof (Z.div_pos x 1024). pose proof (Z.div_pos y 1024). split; [intros [X1 X2]|intros ->; done].
  pose proof (Z.div_mod x 1024). pose proof (Z.div_mod y 1024). lia.
Qed.

Lemma read_at page idx s ws w : tables s !! page = Some ws -> ws !! Z.to_nat idx = Some w -> read_word page idx s = Ok (w, s).
Proof. intros E H. unfold read_word. by rewrite E, H. Qed.

Lemma entry_page s pd va vb : 0 <= va -> 0 <= vb -> pg_no va = pg_no vb -> entry s pd va = entry s pd vb.
Proof. intros Ha Hb [G1 G2]%same_entry; [|lia..]. unfold entry. by rewrite G1, G2. Qed.

(** ** The walk *)

(** What [lookup_page] finds: nothing, or the place of the entry. *)
Inductive walk s (pd va : Z) : option (Z * Z) -> Prop :=
| walk_none dir : tables s !! pd = Some dir -> dir !! Z.to_nat (pd_no va) = Some 0 -> entry s pd va = 0 -> walk s pd va None
| walk_some dir pde tb : tables s !! pd = Some dir -> dir !! Z.to_nat (pd_no va) = Some pde -> pde <> 0 ->
    tables s !! table_of pde = Some tb -> tb !! Z.to_nat (pt_no va) = Some (entry s pd va) ->
    walk s pd va (Some (table_of pde, pt_no va)).

Lemma walk_ok ks us pd s va : wf ks us pd s -> 0 <= va < PHYS_BASE ->
  exists r, lookup_page pd va false s = Ok (r, s) /\ walk s pd va r.
Proof.
  intros W Hv. destruct (w_dir _ _ _ _ W) as (dir & E & HL). destruct (user_index va Hv) as [I1 I2].
  pose proof (pd_base _ _ _ _ W) as R2.
  unfold PHYS_BASE in R2. destruct (lookup_lt_is_Some_2 dir (Z.to_nat (pd_no va))) as [pde Hp]; [lia|].
  unfold lookup_page. rewrite (proj2 (Z.eqb_neq pd 0)) by lia. cbn [negb orb ASSERT].
  unfold mbind, M_bind, read_word, mret, M_ret. rewrite E, Hp.
  assert (EN : entry s pd va = if pde =? 0 then 0 else
    match tables s !! table_of pde with Some tb => default 0 (tb !! Z.to_nat (pt_no va)) | None => 0 end)
    by (unfold entry; by rewrite E, Hp).
  destruct (Z.eqb_spec pde 0) as [->|Hn].
  - exists None. split; [done|]. by eapply walk_none.
  - destruct (w_pde _ _ _ _ W dir _ pde E I1 Hp Hn) as (_ & _ & _ & _ & tb & Et & Lt & _).
    destruct (pde_facts _ _ _ _ _ _ _ W E I1 Hp Hn) as [HG _].
    rewrite E, Hp. unfold lift. rewrite HG. eexists. split; [done|]. rewrite Et in EN.
    destruct (lookup_lt_is_Some_2 tb (Z.to_nat (pt_no va))) as [e He]; [lia|]. rewrite He in EN. cbn in EN.
    eapply walk_some; try done. by rewrite EN.
Qed.

Lemma walk_read ks us pd s va pt i : wf ks us pd s -> walk s pd va (Some (pt, i)) -> read_word pt i s = Ok (entry s pd va, s).
Proof. intros W H. inversion H; subst. unfold read_word. by rewrite H5, H6. Qed.

(** [q] is one of the page tables of [pd] for user addresses. *)
Definition is_table s (pd q : Z) : Prop :=
  exists dir i pde, tables s !! pd = Some dir /\ Z.of_nat i < 768 /\ dir !! i = Some pde /\ pde <> 0 /\ table_of pde = q.

(** What every operation on [pd] leaves alone: pages that are neither its directory nor
    one of its tables. *)
Definition untouched (ks : gset Z) (pd : Z) s s' : Prop :=
  forall q, q ∈ ks -> q <> pd -> ~ is_table s pd q -> tables s' !! q = tables s !! q /\ ~ is_table s' pd q.

Lemma untouched_trans ks ks' pd s1 s2 s3 : ks ⊆ ks' -> untouched ks pd s1 s2 -> untouched ks' pd s2 s3 -> untouched ks pd s1 s3.
Proof.
  intros HS H1 H2 q Hq Hd Ht. destruct (H1 q Hq Hd Ht) as [E1 T1]. destruct (H2 q (HS q Hq) Hd T1) as [E2 T2].
  by rewrite E2, E1.
Qed.

Lemma untouched_same ks pd s s' : tables s' = tables s -> untouched ks pd s s'.
Proof. intros E q Hq Hd Ht. unfold is_table. by rewrite E. Qed.

(** [s'] has the entries of [s] but for the page of [va], whose entry is [e]. *)
Definition updated (pd va e : Z) s s' : Prop :=
  forall vb, 0 <= vb < PHYS_BASE -> entry s' pd vb = if decide (pg_no vb = pg_no va) then e else entry s pd vb.

Lemma walk_write ks us pd s va pt i e : wf ks us pd s -> 0 <= va < PHYS_BASE -> walk s pd va (Some (pt, i)) -> pte_ok e ->
  exists s', write_word pt i e s = Ok (tt, s') /\ wf ks us pd s' /\ updated pd va e s s' /\ untouched ks pd s s' /\
    cr3 s' = cr3 s /\ loads s' = loads s.
Proof.
  intros W Hv H He. inversion H as [|dir pde tb E Hp Hn Et Hb Ept]; subst. destruct (user_index va Hv) as [I1 I2].
  destruct (w_pde _ _ _ _ W dir _ pde E I1 Hp Hn) as (HC & HK & Hpd & Hin & tb' & Et' & Lt & Ft).
  destruct (w_dir _ _ _ _ W) as (? & ? & HL). simplify_eq.
  unfold write_word. rewrite Et, bool_decide_eq_true_2 by lia. eexists. split; [done|].
  set (tb2 := <[Z.to_nat (pt_no va) := e]> tb). set (s' := set_tables _ s).
  assert (LK : forall q, tables s' !! q = if decide (table_of pde = q) then Some tb2 else tables s !! q)
    by (intros; apply lookup_insert).
  assert (ED : tables s' !! pd = Some dir) by (rewrite LK, decide_False by congruence; done).
  split; [|split; [|split; [|done]]].
  - destruct W. split; try done; [by exists dir|..]; rewrite ED.
    + intros d j q [= <-] Hj Hq Hq0. destruct (w_pde0 dir j q E Hj Hq Hq0) as (A1 & A2 & A3 & A4 & tbq & A5 & A6 & A7).
      repeat (split; [done|]). rewrite LK. case_decide as Hc; [|by exists tbq]. exists tb2. split; [done|].
      unfold tb2. rewrite length_insert. split; [done|]. by apply Forall_insert.
    + intros d j j' q [= <-]. by apply w_inj0.
  - intros vb Hvb. destruct (user_index vb Hvb) as [J1 J2]. unfold entry. rewrite ED, E.
    destruct (dir !! Z.to_nat (pd_no vb)) as [q|] eqn:Eq.
    2:{ apply lookup_ge_None in Eq. lia. }
    rewrite LK. destruct (decide (pg_no vb = pg_no va)) as [Hg|Hg].
    + apply same_entry in Hg as [G1 G2]; [|lia..]. rewrite G1 in Eq. simplify_eq.
      rewrite (proj2 (Z.eqb_neq _ _)) by done. rewrite decide_True by done. unfold tb2. rewrite G2, list_lookup_insert_eq by lia. done.
    + destruct (Z.eqb_spec q 0); [done|]. destruct (decide (table_of pde = table_of q)) as [Hc|Hc]; [|done].
      destruct (decide (Z.to_nat (pd_no vb) = Z.to_nat (pd_no va))) as [Hpdn|Hpdn].
      * rewrite Hpdn in Eq. simplify_eq. rewrite Et. unfold tb2. rewrite list_lookup_insert_ne; [done|].
        intros G2. apply Hg, same_entry; [lia..|done].
      * exfalso. apply Hpdn. destruct (w_pde _ _ _ _ W dir _ q E J1 Eq ltac:(done)) as (HC' & _).
        rewrite <- Hc, HC in HC'. injection HC' as ->. symmetry. by eapply (w_inj _ _ _ _ W).
  - intros q Hq Hqpd Hnt. split.
    + rewrite LK, decide_False; [done|]. intros Hpt. apply Hnt. by exists dir, (Z.to_nat (pd_no va)), pde.
    + unfold is_table. rewrite ED. by rewrite <- E.
Qed.

Lemma new_table_wf ks us pd s x dir i pt : wf ks us pd s -> tables s !! pd = Some dir -> Z.of_nat i < 768 -> dir !! i = Some 0 ->
  pa_inv x (ks ∪ {[ pt ]}) us -> pt ∉ ks ∪ us ->
  let s' := PD (<[pd := <[i := pt - PHYS_BASE + 7]> dir]> (<[pt := replicate (Z.to_nat 1024) 0]> (tables s))) x (cr3 s) (loads s) in
  wf (ks ∪ {[ pt ]}) us pd s' /\ (forall vb, 0 <= vb < PHYS_BASE -> entry s' pd vb = entry s pd vb) /\ untouched ks pd s s'.
Proof.
  intros W E Hi Hp HX HF s'. pose proof (w_in _ _ _ _ W) as Hin. pose proof (w_initial _ _ _ _ W) as Hinit.
  destruct (w_dir _ _ _ _ W) as (? & ? & HL). simplify_eq.
  assert (Hk : pt ∉ ks) by (clear -HF; set_solver).
  assert (Hne : pt <> pd) by (by intros ->). assert (Hni : pt <> init_page_dir) by (by intros ->).
  assert (Hu : forall q, q ∈ ks -> q ∈ ks ∪ {[ pt ]}) by (intros; by apply elem_of_union_l).
  assert (Hpu : pt ∈ ks ∪ {[ pt ]}) by (by apply elem_of_union_r, elem_of_singleton).
  destruct (pa_range _ _ _ pt HX) as (R1 & R2 & R3); [by apply elem_of_union_l|].
  destruct (pde_word pt R2 R3 R1) as (C1 & C2 & C3 & C4 & C5). set (w := pt - PHYS_BASE + 7) in *.
  assert (LK : forall q, tables s' !! q = if decide (pd = q) then Some (<[i := w]> dir)
    else if decide (pt = q) then Some (replicate (Z.to_nat 1024) 0) else tables s !! q) by (intros; unfold s'; cbn; by rewrite !lookup_insert).
  assert (OLD : forall j q, Z.of_nat j < 768 -> dir !! j = Some q -> q <> 0 -> table_of q <> pt).
  { intros j q Hj Hq Hq0 Hpt. destruct (w_pde _ _ _ _ W dir j q E Hj Hq Hq0) as (_ & Hk' & _). by rewrite Hpt in Hk'. }
  assert (CASE : forall j q, <[i := w]> dir !! j = Some q -> (j = i /\ q = w) \/ (j <> i /\ dir !! j = Some q)).
  { intros j q Hq. destruct (decide (j = i)) as [->|]; [rewrite list_lookup_insert_eq in Hq by lia; left; split; congruence|].
    rewrite list_lookup_insert_ne in Hq by done. by right. }
  assert (ED : tables s' !! pd = Some (<[i := w]> dir)) by (by rewrite LK, decide_True).
  split; [|split].
  - split; [done|apply W|by apply Hu|by apply Hu|apply W|eexists; split; [exact ED|by rewrite length_insert]|..]; rewrite ED.
    + intros d j q [= <-] Hj Hq Hq0. destruct (CASE j q Hq) as [[-> ->]|[Hji Hq']].
      * rewrite C2. repeat (split; [done|]).
        exists (replicate (Z.to_nat 1024) 0). rewrite LK, decide_False, decide_True by done. split; [done|]. split; [by rewrite length_replicate|].
        apply Forall_replicate. by split; [solve_int|].
      * destruct (w_pde _ _ _ _ W dir j q E Hj Hq' Hq0) as (A1 & A2 & A3 & A4 & tb & A5 & A6 & A7).
        split; [done|]. split; [by apply Hu|]. split; [done|]. split; [done|]. exists tb.
        rewrite LK, decide_False, decide_False; [done| |done]. intros Hpt. by apply (OLD j q).
    + intros d j j' q [= <-] Hj Hj' Hq Hq' Hq0. destruct (CASE j q Hq) as [[X1 X2]|[X1 X2]], (CASE j' q Hq') as [[Y1 Y2]|[Y1 Y2]].
      * congruence.
      * exfalso. apply (OLD j' q); [done..|congruence].
      * exfalso. apply (OLD j q); [done..|congruence].
      * by eapply (w_inj _ _ _ _ W).
  - intros vb Hvb. destruct (user_index vb Hvb) as [J1 J2]. unfold entry. rewrite ED, E.
    destruct (decide (Z.to_nat (pd_no vb) = i)) as [Hvi|Hvi].
    + rewrite Hvi, list_lookup_insert_eq, Hp by lia. rewrite (proj2 (Z.eqb_neq _ _)) by done. rewrite Z.eqb_refl.
      rewrite C2, LK, decide_False, decide_True by done. by rewrite lookup_replicate_2 by lia.
    + rewrite list_lookup_insert_ne by done. destruct (dir !! Z.to_nat (pd_no vb)) as [q|] eqn:Eq; [|done].
      destruct (Z.eqb_spec q 0); [done|]. destruct (w_pde _ _ _ _ W dir _ q E J1 Eq ltac:(done)) as (_ & _ & A3 & _).
      rewrite LK, decide_False, decide_False; [done| |done]. intros Hpt. by apply (OLD _ q J1 Eq).
  - intros q Hq Hqpd Hnt. split; [rewrite LK, decide_False, decide_False; [done| |congruence]; by intros <-|].
    intros (d & j & e & Hd & Hj & He & He0 & Hq'). rewrite ED in Hd. injection Hd as <-.
    destruct (CASE j e He) as [[-> ->]|[_ He']]; [by rewrite <- Hq', C2 in Hq|]. apply Hnt. by exists dir, j, e.
Qed.

(** The state is the same but for the page allocator's. *)
Definition same s s' : Prop := tables s' = tables s /\ cr3 s' = cr3 s /\ loads s' = loads s.

Lemma same_wf ks us pd s x : wf ks us pd s -> pa_inv x ks us -> wf ks us pd (set_pst x s).
Proof. intros [] H. by split. Qed.

Lemma lookup_found ks us pd s va create dir pde : wf ks us pd s -> 0 <= va < PHYS_BASE ->
  tables s !! pd = Some dir -> dir !! Z.to_nat (pd_no va) = Some pde -> pde <> 0 ->
  lookup_page pd va create s = Ok (Some (table_of pde, pt_no va), s).
Proof.
  intros W Hv E Hp Hn. destruct (user_index va Hv) as [I1 _].
  pose proof (pd_base _ _ _ _ W) as R2.
  destruct (pde_facts _ _ _ _ _ _ _ W E I1 Hp Hn) as [HG _].
  unfold lookup_page, is_user_vaddr. rewrite (proj2 (Z.eqb_neq pd 0)), (proj2 (Z.ltb_lt va PHYS_BASE)), orb_true_r by (unfold PHYS_BASE in *; lia).
  cbn [negb ASSERT]. unfold mbind, M_bind, read_word, mret, M_ret. rewrite E, Hp, (proj2 (Z.eqb_neq pde 0)), E, Hp by done.
  unfold lift. by rewrite HG.
Qed.

(** The directory has taken at most one more page of the kernel pool. *)
Definition grown (ks ks' : gset Z) : Prop := ks ⊆ ks' /\ (size ks' <= S (size ks))%nat.
Lemma pages_grown_refl ks : grown ks ks.
Proof. split; [done|lia]. Qed.
Lemma grown_add ks p : grown ks (ks ∪ {[ p ]}).
Proof.
  split; [apply union_subseteq_l|]. rewrite size_union_alt. pose proof (subseteq_size ({[ p ]} ∖ ks) {[ p ]} ltac:(set_solver)) as H.
  rewrite size_singleton in H. lia.
Qed.

Lemma walk_create ks us pd s va : wf ks us pd s -> 0 <= va < PHYS_BASE ->
  (exists s', lookup_page pd va true s = Ok (None, s') /\ wf ks us pd s' /\ same s s' /\ size ks = pa_kcap (pst s)) \/
  (exists ks' s' r, lookup_page pd va true s = Ok (Some r, s') /\ grown ks ks' /\ wf ks' us pd s' /\ walk s' pd va (Some r) /\
     (forall vb, 0 <= vb < PHYS_BASE -> entry s' pd vb = entry s pd vb) /\ untouched ks pd s s' /\ cr3 s' = cr3 s /\ loads s' = loads s).
Proof.
  intros W Hv. destruct (w_dir _ _ _ _ W) as (dir & E & HL). destruct (user_index va Hv) as [I1 I2].
  destruct (lookup_lt_is_Some_2 dir (Z.to_nat (pd_no va))) as [pde Hp]; [lia|].
  destruct (walk_ok _ _ _ _ _ W Hv) as (r & HF & HW). destruct (decide (pde = 0)) as [->|Hn].
  2:{ right. pose proof (lookup_found _ _ _ _ _ false _ _ W Hv E Hp Hn) as HF'. rewrite HF in HF'. injection HF' as ->.
      exists ks, s, (table_of pde, pt_no va). split; [by apply (lookup_found ks us _ _ _ _ dir)|]. split; [apply pages_grown_refl|]. do 3 (split; [done|]). split; [by apply untouched_same|done]. }
  pose proof (pd_base _ _ _ _ W) as R2.
  unfold lookup_page, is_user_vaddr. rewrite (proj2 (Z.eqb_neq pd 0)), (proj2 (Z.ltb_lt va PHYS_BASE)) by (unfold PHYS_BASE in *; lia).
  cbn [negb orb ASSERT]. unfold mbind, M_bind, mret, M_ret. rewrite (read_at pd _ s dir 0 E Hp). cbn [Z.eqb]. unfold get_page.
  destruct (pa_get_ok (pst s) ks us PAL_ZERO 1 (w_pages _ _ _ _ W)) as [(x & HG & HX)|(pt & x & HG & R & R' & HD & HX)]; [done..| |]; rewrite HG.
  { left. eexists. split; [done|]. split; [by apply same_wf|]. split; [done|]. by apply (pa_full _ _ _ PAL_ZERO _ (w_pages _ _ _ _ W) eq_refl HG). }
  right. cbn [has] in HX. change (has PAL_ZERO PAL_USER) with false in HX. rewrite pages_one in HX, HD. apply disjoint_singleton_l in HD.
  destruct (pa_range _ _ _ pt HX) as (Q1 & Q2 & Q3); [by apply elem_of_union_l, elem_of_union_r, elem_of_singleton|].
  destruct (pde_word pt Q2 Q3 Q1) as (C1 & C2 & C3 & C4 & C5).
  rewrite (proj2 (Z.eqb_neq pt 0)) by (unfold PHYS_BASE in *; lia). unfold modify, lift, write_word. rewrite C1.
  cbn [tables set_tables set_pst pst cr3 loads].
  assert (pt <> pd) by (intros ->; apply HD; apply elem_of_union_l, (w_in _ _ _ _ W)).
  rewrite !lookup_insert_ne, E, bool_decide_eq_true_2 by (lia || done). cbn [tables set_tables set_pst pst cr3 loads].
  rewrite (read_at pd _ _ (<[Z.to_nat (pd_no va) := pt - PHYS_BASE + 7]> dir) (pt - PHYS_BASE + 7));
    [|cbn; apply lookup_insert_eq|apply list_lookup_insert_eq; lia]. rewrite C3.
  destruct (new_table_wf ks us pd s x dir (Z.to_nat (pd_no va)) pt W E I1 Hp HX HD) as (W' & HE & HU).
  eexists _, _, _. split; [done|]. split; [apply grown_add|]. split; [exact W'|].
  split; [|by split].
  destruct (walk_ok _ _ _ _ _ W' Hv) as (r' & HF' & HW').
  rewrite (lookup_found _ _ _ _ _ false (<[Z.to_nat (pd_no va) := pt - PHYS_BASE + 7]> dir) (pt - PHYS_BASE + 7) W' Hv) in HF';
    [|cbn; apply lookup_insert_eq|apply list_lookup_insert_eq; lia|done].
  rewrite C2 in HF'. injection HF' as <-. exact HW'.
Qed.

(** ** Flags of an entry *)

(** Bit [k] of [e] set or cleared, as [pagedir_set_dirty] and the like do it. *)
Definition flagged (e k : Z) (on : bool) : Z := if on then Z.lor e (2 ^ k) else Z.land e (not32 (2 ^ k)).

Lemma not32_pow_testbit k i : 0 <= k < 32 -> 0 <= i -> Z.testbit (not32 (2 ^ k)) i = (i <? 32) && negb (i =? k).
Proof.
  intros Hk Hi. assert (E : not32 (2 ^ k) = Z.ldiff (Z.ones 32) (2 ^ k)).
  { change (not32 (2 ^ k)) with (Z.ones 32 - 2 ^ k). apply Z.sub_nocarry_ldiff.
    apply Z.bits_inj'. intros n Hn. rewrite Z.ldiff_spec, Z.pow2_bits_eqb, Z.bits_0 by lia.
    destruct (Z.eqb_spec k n) as [->|]; [|done]. by rewrite Z.ones_spec_low by lia. }
  rewrite E, Z.ldiff_spec, Z.pow2_bits_eqb, Z.testbit_ones_nonneg by lia. by rewrite (Z.eqb_sym k i).
Qed.

Lemma flagged_testbit e k on i : is_u32 e -> 0 <= k < 32 -> 0 <= i < 32 ->
  Z.testbit (flagged e k on) i = if i =? k then on else Z.testbit e i.
Proof.
  intros He Hk Hi. unfold flagged. destruct on.
  - rewrite Z.lor_spec, Z.pow2_bits_eqb, (Z.eqb_sym k i) by lia. destruct (i =? k); [apply orb_true_r|apply orb_false_r].
  - rewrite Z.land_spec, not32_pow_testbit, (proj2 (Z.ltb_lt i 32)) by lia. destruct (i =? k); [apply andb_false_r|apply andb_true_r].
Qed.

Lemma flagged_u32 e k on : is_u32 e -> 0 <= k < 32 -> is_u32 (flagged e k on).
Proof.
  intros He Hk. assert (E : flagged e k on = flagged e k on mod 2 ^ 32); [|rewrite E; apply Z.mod_pos_bound; lia].
  apply Z.bits_inj'. intros i Hi. destruct (Z.lt_ge_cases i 32); [by rewrite Z.mod_pow2_bits_low by lia|].
  rewrite Z.mod_pow2_bits_high by lia. assert (Z.testbit e i = false) as HB.
  { rewrite <- (Z.mod_small e (2 ^ 32)) by done. apply Z.mod_pow2_bits_high. lia. }
  unfold flagged. destruct on; [rewrite Z.lor_spec, HB, Z.pow2_bits_false by lia|rewrite Z.land_spec, HB]; done.
Qed.

Lemma present_testbit e : present e = Z.testbit e 0.
Proof. unfold present. change PTE_P with (2 ^ 0). by rewrite land_bit_testbit by lia. Qed.

Lemma flagged_addr e k on : is_u32 e -> 0 <= k < 12 -> Z.land (flagged e k on) PTE_ADDR = Z.land e PTE_ADDR.
Proof.
  intros He Hk. apply Z.bits_inj'. intros i Hi. rewrite !Z.land_spec.
  assert (HA : Z.testbit PTE_ADDR i = (12 <=? i) && (i <? 32)).
  { change PTE_ADDR with (Z.shiftl (Z.ones 20) 12). rewrite Z.shiftl_spec by lia.
    destruct (Z.leb_spec 12 i); [rewrite Z.testbit_ones_nonneg by lia|by rewrite Z.testbit_neg_r by lia].
    cbn [andb]. destruct (Z.ltb_spec (i - 12) 20), (Z.ltb_spec i 32); (done || lia). }
  rewrite HA. destruct (Z.leb_spec 12 i), (Z.ltb_spec i 32); cbn [andb]; rewrite ?andb_false_r; try done.
  rewrite flagged_testbit by (done || lia). by rewrite (proj2 (Z.eqb_neq i k)) by lia.
Qed.

Lemma flagged_ok e k on : pte_ok e -> 0 < k < 12 -> pte_ok (flagged e k on) /\ present (flagged e k on) = present e.
Proof.
  intros [He Hp] Hk. assert (present (flagged e k on) = present e) as HP.
  { rewrite !present_testbit, flagged_testbit by (done || lia). by rewrite (proj2 (Z.eqb_neq 0 k)) by lia. }
  split; [|done]. split; [apply flagged_u32; [done|lia]|]. rewrite HP, flagged_addr by (done || lia). done.
Qed.

(** ** The view of a page directory *)

(** The kernel address a user address is mapped to, 0 if it is not. *)
Definition translate s (pd ua : Z) : Z :=
  let e := entry s pd ua in if present e then Z.land e PTE_ADDR + PHYS_BASE + pg_ofs ua else 0.

Lemma entry_ok ks us pd s va : wf ks us pd s -> 0 <= va < PHYS_BASE -> pte_ok (entry s pd va).
Proof.
  intros W Hv. destruct (user_index va Hv) as [I1 I2]. destruct (walk_ok _ _ _ _ _ W Hv) as (r & _ & HW).
  inversion HW as [dir ? ? E|dir pde tb E Hp Hn Et Hb]; [rewrite E; by split|].
  destruct (w_pde _ _ _ _ W dir _ pde E I1 Hp Hn) as (_ & _ & _ & _ & tb' & Et' & _ & Ft). simplify_eq.
  by apply (Forall_lookup_1 _ _ _ _ Ft Hb).
Qed.

Lemma addr_bounds e : pte_ok e -> present e = true -> 0 <= Z.land e PTE_ADDR <= 2 ^ 30 - 4096 /\ Z.land e PTE_ADDR mod 4096 = 0.
Proof.
  intros [He Hp] HP. specialize (Hp HP). assert (E : Z.land e PTE_ADDR = e - e mod 2 ^ 12) by (apply (land_high e 12 32); [lia|done]).
  assert (HM : Z.land e PTE_ADDR mod 4096 = 0) by (rewrite E, Zminus_mod, Z.mod_mod, Z.sub_diag by lia; done).
  split; [|done]. pose proof (Z.mod_le e (2 ^ 12)). unfold is_u32 in He. pose proof (Z.div_mod (Z.land e PTE_ADDR) 4096). lia.
Qed.

Lemma pte_get_page_ok e : pte_ok e -> present e = true -> pte_get_page e = Ok (Z.land e PTE_ADDR + PHYS_BASE).
Proof. intros He HP. destruct (addr_bounds e He HP). apply ptov_ok. lia. Qed.

Lemma get_page_ok ks us pd s ua : wf ks us pd s -> 0 <= ua < PHYS_BASE -> pagedir_get_page pd ua s = Ok (translate s pd ua, s).
Proof.
  intros W Hv. destruct (walk_ok _ _ _ _ _ W Hv) as (r & HF & HW). pose proof (entry_ok _ _ _ _ _ W Hv) as HE.
  unfold pagedir_get_page, is_user_vaddr. rewrite (proj2 (Z.ltb_lt ua PHYS_BASE)) by lia. cbn [ASSERT].
  unfold mbind, M_bind, mret, M_ret. rewrite HF. unfold translate. destruct r as [[pt i]|].
  - rewrite (walk_read _ _ _ _ _ _ _ W HW). fold (present (entry s pd ua)). destruct (present (entry s pd ua)) eqn:HP; [|done].
    unfold lift. rewrite (pte_get_page_ok _ HE HP). do 2 f_equal. destruct (addr_bounds _ HE HP) as [HB _].
    apply u32_small. rewrite pg_ofs_mod. pose proof (Z.mod_pos_bound ua 4096). unfold PHYS_BASE. solve_int.
  - inversion HW as [dir ? ? E|]. by rewrite E.
Qed.

Lemma translate_zero ks us pd s ua : wf ks us pd s -> 0 <= ua < PHYS_BASE -> translate s pd ua = 0 <-> present (entry s pd ua) = false.
Proof.
  intros W Hv. pose proof (entry_ok _ _ _ _ _ W Hv) as HE. unfold translate. destruct (present _) eqn:HP; [|done].
  destruct (addr_bounds _ HE HP) as [HB _]. rewrite pg_ofs_mod. pose proof (Z.mod_pos_bound ua 4096). unfold PHYS_BASE. split; [lia|done].
Qed.

Lemma is_flag_ok ks us pd s k va : wf ks us pd s -> 0 <= va < PHYS_BASE -> 0 <= k ->
  is_flag (2 ^ k) pd va s = Ok (Z.testbit (entry s pd va) k, s).
Proof.
  intros W Hv Hk. destruct (walk_ok _ _ _ _ _ W Hv) as (r & HF & HW). unfold is_flag, mbind, M_bind, mret, M_ret. rewrite HF.
  destruct r as [[pt i]|]; [|inversion HW as [dir ? ? E|]; by rewrite E, Z.bits_0].
  by rewrite (walk_read _ _ _ _ _ _ _ W HW), land_bit_testbit.
Qed.

(** The TLB is flushed exactly when the directory is the active one. *)
Definition flushed (pd : Z) s s' : Prop :=
  cr3 s' = cr3 s /\ loads s' = loads s ++ (if decide (cr3 s + PHYS_BASE = pd) then [cr3 s] else []).

Lemma invalidate_ok ks us pd s : wf ks us pd s ->
  exists s', invalidate_pagedir pd s = Ok (tt, s') /\ wf ks us pd s' /\ tables s' = tables s /\ flushed pd s s'.
Proof.
  intros W. pose proof (w_cr3 _ _ _ _ W) as HC. destruct (pd_range _ _ _ _ W) as (R1 & R2 & R3).
  unfold invalidate_pagedir, active_pd, gets, lift, mbind, M_bind, mret, M_ret, flushed. rewrite ptov_ok by lia.
  destruct (Z.eqb_spec (cr3 s + PHYS_BASE) pd) as [E|E].
  - rewrite decide_True by done. unfold pagedir_activate, lift, modify, mbind, M_bind. rewrite (proj2 (Z.eqb_neq pd 0)) by (unfold PHYS_BASE in *; lia).
    rewrite vtop_ok by lia. replace (pd - PHYS_BASE) with (cr3 s) by lia. eexists. split; [done|]. split; [by destruct W|done].
  - rewrite decide_False, app_nil_r by done. by exists s.
Qed.

(** ** Mapping, unmapping and the flags *)

Lemma updated_translate ks ks' us pd va e s s' ua : wf ks us pd s -> wf ks' us pd s' -> 0 <= ua < PHYS_BASE -> updated pd va e s s' ->
  pagedir_get_page pd ua s' = Ok (if decide (pg_no ua = pg_no va) then (if present e then Z.land e PTE_ADDR + PHYS_BASE + pg_ofs ua else 0)
    else translate s pd ua, s').
Proof. intros W W' Hu HU. rewrite (get_page_ok _ _ _ _ _ W' Hu). unfold translate. rewrite (HU ua Hu). by destruct (decide _). Qed.

Lemma new_pte kpage writable : PHYS_BASE <= kpage < 2 ^ 32 -> kpage mod 4096 = 0 ->
  exists e, pte_create_user kpage writable = Ok e /\ pte_ok e /\ present e = true /\ Z.land e PTE_ADDR + PHYS_BASE = kpage /\
    Z.testbit e 1 = writable /\ Z.testbit e 2 = true /\ Z.testbit e 5 = false /\ Z.testbit e 6 = false.
Proof.
  intros Hk Ha. rewrite pte_create_user_ok by done. eexists. split; [done|].
  assert (HF : 0 <= user_flags writable < 4096) by (by destruct writable). unfold PHYS_BASE in *.
  assert (HA : (kpage - 0xc0000000) mod 4096 = 0) by (rewrite Zminus_mod, Ha; done).
  pose proof (Z.div_mod kpage 4096).
  rewrite present_testbit, !testbit_pte_flag by (done || lia). unfold pte_ok. rewrite land_pte_addr by (done || lia).
  split; [|destruct writable; (split; [done|]); (split; [lia|done])]. split; [solve_int|lia].
Qed.

(** Where [kpage] may be mapped. *)
Definition mappable (kpage : Z) : Prop :=
  PHYS_BASE <= kpage < 2 ^ 32 /\ kpage mod 4096 = 0 /\ (kpage - PHYS_BASE) / 4096 < init_ram_pages.

Lemma set_page_ok ks us pd s upage kpage writable : wf ks us pd s -> 0 <= upage < PHYS_BASE -> upage mod 4096 = 0 -> mappable kpage ->
  present (entry s pd upage) = false ->
  (exists s', pagedir_set_page pd upage kpage writable s = Ok (false, s') /\ wf ks us pd s' /\ same s s' /\ size ks = pa_kcap (pst s)) \/
  (exists ks' s' e, pagedir_set_page pd upage kpage writable s = Ok (true, s') /\ pte_create_user kpage writable = Ok e /\
    grown ks ks' /\ wf ks' us pd s' /\ updated pd upage e s s' /\ untouched ks pd s s' /\ cr3 s' = cr3 s /\ loads s' = loads s).
Proof.
  intros W Hu Ha (K1 & K2 & K3) HP. destruct (new_pte kpage writable K1 K2) as (e & HE & Ho & _).
  assert (PRE : pagedir_set_page pd upage kpage writable s =
    (let* pte := lookup_page pd upage true in
     match pte with
     | Some (pt, i) => let* w := read_word pt i in do* ASSERT (Z.land w PTE_P =? 0);
         let* e := lift (pte_create_user kpage writable) in do* write_word pt i e; mret true
     | None => mret false
     end) s).
  { unfold pagedir_set_page, is_user_vaddr. rewrite !pg_ofs_mod, Ha, K2, (proj2 (Z.ltb_lt upage PHYS_BASE)), vtop_ok by lia.
    unfold mbind at 1 2 3 4 5 6, M_bind, lift at 1. cbn [Z.eqb ASSERT]. unfold PTSHIFT, PGBITS. rewrite Z.shiftr_div_pow2 by lia.
    rewrite (proj2 (Z.ltb_lt _ init_ram_pages)) by done. rewrite (proj2 (Z.eqb_neq pd init_page_dir)) by (apply W). done. }
  rewrite PRE. clear PRE. unfold mbind, M_bind, mret, M_ret.
  destruct (walk_create _ _ _ _ upage W Hu) as [(s' & HF & W' & HS)|(ks' & s1 & [pt i] & HF & HK & W1 & HW & HEn & HU & HC & HL)]; rewrite HF.
  { left. eexists. done. }
  right. rewrite (walk_read _ _ _ _ _ _ _ W1 HW), HEn by done. unfold present in HP. apply negb_false_iff in HP. rewrite HP.
  cbn [ASSERT]. unfold mret, M_ret, lift. rewrite HE. destruct (walk_write _ _ _ _ _ _ _ _ W1 Hu HW Ho) as (s2 & HR & W2 & HD & HN & HC2 & HL2).
  rewrite HR. exists ks', s2, e. split; [done|]. split; [done|]. split; [done|]. split; [done|].
  split; [|split; [by apply (untouched_trans _ ks' _ _ s1); [apply HK|..]|by rewrite HC2, HL2]].
  intros vb Hvb. rewrite (HD vb Hvb). destruct (decide _); [done|]. by apply HEn.
Qed.

Lemma install_page_ok ks us pd s upage kpage writable : wf ks us pd s -> 0 <= upage < PHYS_BASE -> upage mod 4096 = 0 -> mappable kpage ->
  (exists s', pagedir_install_page pd upage kpage writable s = Ok (false, s') /\ wf ks us pd s' /\ same s s' /\
    (translate s pd upage <> 0 /\ s' = s \/ translate s pd upage = 0 /\ size ks = pa_kcap (pst s))) \/
  (exists ks' s' e, pagedir_install_page pd upage kpage writable s = Ok (true, s') /\ translate s pd upage = 0 /\ pte_create_user kpage writable = Ok e /\
    grown ks ks' /\ wf ks' us pd s' /\ updated pd upage e s s' /\ untouched ks pd s s' /\ cr3 s' = cr3 s /\ loads s' = loads s).
Proof.
  intros W Hu Ha HK. unfold pagedir_install_page, mbind, M_bind, mret, M_ret. rewrite (get_page_ok _ _ _ _ _ W Hu).
  destruct (Z.eqb_spec (translate s pd upage) 0) as [Hz|Hz]; [|left; exists s; split_and!; try done; by left].
  pose proof Hz as HP. rewrite (translate_zero _ _ _ _ _ W Hu) in HP.
  destruct (set_page_ok _ _ _ _ _ _ writable W Hu Ha HK HP) as [(s' & HF & W' & HS & Hf)|(ks' & s' & e & HF & HE & HS & W' & HU & HN & HC & HL)];
    [left; exists s'|right; exists ks', s', e]; rewrite HF; [|done]. split_and!; try done. by right.
Qed.

(** C22: Installing a user page (pagedir_install_page, through pagedir_get_page and
    pagedir_set_page).  If the address is mapped already the answer is false and nothing
    changes.  Otherwise it is false only when every page of the kernel pool is in use, so that no page
    table can be had, and then nothing changes either.  In all other cases the answer is true: every
    address of the page is mapped to its place in the kernel page, writable as asked for, not accessed and
    not dirty, and no other user address is mapped differently; pages that do not belong to
    the directory keep their contents, and at most one more page of the kernel pool is in use. *)
Theorem install_page_maps ks us pd s upage kpage writable : wf ks us pd s -> 0 <= upage < PHYS_BASE -> upage mod 4096 = 0 -> mappable kpage ->
  exists ok ks' s', pagedir_install_page pd upage kpage writable s = Ok (ok, s') /\
    grown ks ks' /\ wf ks' us pd s' /\ untouched ks pd s s' /\ cr3 s' = cr3 s /\ loads s' = loads s /\
    (translate s pd upage <> 0 -> ok = false /\ s' = s) /\
    (translate s pd upage = 0 -> (size ks < pa_kcap (pst s))%nat -> ok = true) /\
    (ok = false -> ks' = ks /\ same s s') /\
    (ok = true -> forall ua, 0 <= ua < PHYS_BASE ->
      if decide (pg_no ua = pg_no upage) then
        pagedir_get_page pd ua s' = Ok (kpage + pg_ofs ua, s') /\ Z.testbit (entry s' pd ua) 1 = writable /\
        pagedir_is_dirty pd ua s' = Ok (false, s') /\ pagedir_is_accessed pd ua s' = Ok (false, s')
      else pagedir_get_page pd ua s' = Ok (translate s pd ua, s') /\ entry s' pd ua = entry s pd ua).
Proof.
  intros W Hu Ha HK. destruct (install_page_ok _ _ _ _ _ _ writable W Hu Ha HK) as [(s' & HF & W' & HS & HT)|(ks' & s' & e & HF & Hz & HE & HS & W' & HU & HN & HC & HL)].
  { exists false, ks, s'. split; [done|]. split; [apply pages_grown_refl|]. split; [done|]. split; [apply untouched_same, HS|]. split; [apply HS|]. split; [apply HS|].
    split; [|split; [|done]]; intros Hz; destruct HT as [[? ?]|[? ?]]; try done. lia. }
  exists true, ks', s'. do 8 (split; [done|]). split; [done|]. intros _ ua Hua. pose proof HK as (K1 & K2 & _).
  destruct (new_pte kpage writable K1 K2) as (e' & HE' & _ & Hpr & Had & Hw & _ & H5 & H6). rewrite HE in HE'. injection HE' as <-.
  rewrite (updated_translate _ _ _ _ _ _ _ _ _ W W' Hua HU). pose proof (HU ua Hua) as HEn. destruct (decide _); [|done].
  rewrite Hpr, Had. split; [done|]. rewrite HEn. split; [done|].
  unfold pagedir_is_dirty, pagedir_is_accessed. change PTE_D with (2 ^ 6). change PTE_A with (2 ^ 5).
  by rewrite !(is_flag_ok _ _ _ _ _ _ W' Hua), HEn, H5, H6 by lia.
Qed.

Lemma clear_page_ok ks us pd s upage : wf ks us pd s -> 0 <= upage < PHYS_BASE -> upage mod 4096 = 0 ->
  exists s', pagedir_clear_page pd upage s = Ok (tt, s') /\ wf ks us pd s' /\ untouched ks pd s s' /\
    if present (entry s pd upage) then flushed pd s s' /\ updated pd upage (flagged (entry s pd upage) 0 false) s s' else s' = s.
Proof.
  intros W Hu Ha. pose proof (entry_ok _ _ _ _ _ W Hu) as [HE HE'].
  unfold pagedir_clear_page, is_user_vaddr. rewrite pg_ofs_mod, Ha, (proj2 (Z.ltb_lt upage PHYS_BASE)) by lia.
  cbn [ASSERT Z.eqb]. unfold mbind, M_bind, mret, M_ret. destruct (walk_ok _ _ _ _ _ W Hu) as (r & HF & HW). rewrite HF.
  destruct r as [[pt i]|].
  2:{ inversion HW as [? ? ? E|]. rewrite E. exists s. split; [done|]. split; [done|]. split; [by apply untouched_same|]. done. }
  rewrite (walk_read _ _ _ _ _ _ _ W HW). fold (present (entry s pd upage)). destruct (present (entry s pd upage)) eqn:HP.
  2:{ exists s. split; [done|]. split; [done|]. split; [by apply untouched_same|]. done. }
  change (Z.land (entry s pd upage) (not32 PTE_P)) with (flagged (entry s pd upage) 0 false).
  destruct (walk_write _ _ _ _ _ _ _ (flagged (entry s pd upage) 0 false) W Hu HW) as (s1 & HR & W1 & HU & HN & HC & HL).
  { split; [apply flagged_u32; [done|lia]|]. rewrite present_testbit, flagged_testbit by (done || lia). done. }
  rewrite HR. destruct (invalidate_ok _ _ _ _ W1) as (s2 & HI & W2 & HT & HF1 & HF2). rewrite HI.
  exists s2. split; [done|]. split; [done|]. split; [apply (untouched_trans _ ks _ _ s1); [done|done|by apply untouched_same]|].
  split; [split; [congruence|by rewrite HF2, HC, HL]|]. intros vb Hvb. rewrite <- (HU vb Hvb). unfold entry. by rewrite HT.
Qed.

(** pagedir_clear_page makes every address of the page unmapped and no other user
    address; the other bits of the entry, among them the dirty and the accessed bit, and
    pages outside the directory are kept; the TLB is flushed if the page was present and
    the directory is the active one, and only then. *)
Theorem clear_page_unmaps ks us pd s upage : wf ks us pd s -> 0 <= upage < PHYS_BASE -> upage mod 4096 = 0 ->
  exists s', pagedir_clear_page pd upage s = Ok (tt, s') /\ wf ks us pd s' /\ untouched ks pd s s' /\
    (if present (entry s pd upage) then flushed pd s s' else s' = s) /\
    forall ua, 0 <= ua < PHYS_BASE ->
      pagedir_get_page pd ua s' = Ok (if decide (pg_no ua = pg_no upage) then 0 else translate s pd ua, s') /\
      forall k, 0 < k < 32 -> Z.testbit (entry s' pd ua) k = Z.testbit (entry s pd ua) k.
Proof.
  intros W Hu Ha. pose proof (entry_ok _ _ _ _ _ W Hu) as [HE HE'].
  destruct (clear_page_ok _ _ _ _ _ W Hu Ha) as (s' & E & W' & N & C). exists s'. split; [done|]. split; [done|]. split; [done|].
  destruct (present (entry s pd upage)) eqn:HP.
  - destruct C as [F U]. split; [done|]. intros ua Hua. split.
    + rewrite (updated_translate _ _ _ _ _ _ _ _ _ W W' Hua U). by rewrite present_testbit, flagged_testbit by (done || lia).
    + intros k Hk. rewrite (U ua Hua). destruct (decide (pg_no ua = pg_no upage)) as [Hg|]; [|done].
      rewrite flagged_testbit, (proj2 (Z.eqb_neq k 0)) by (done || lia). by rewrite (entry_page s pd ua upage) by (done || lia).
  - subst s'. split; [done|]. intros ua Hua. split; [|done]. rewrite (get_page_ok _ _ _ _ _ W Hua). destruct (decide _) as [Hg|]; [|done].
    unfold translate. by rewrite (entry_page s pd ua upage), HP by (done || lia).
Qed.

Lemma set_flag_ok ks us pd s k va on : wf ks us pd s -> 0 <= va < PHYS_BASE -> 0 < k < 12 ->
  exists s', set_flag (2 ^ k) pd va on s = Ok (tt, s') /\ wf ks us pd s' /\ untouched ks pd s s' /\
    (if on then cr3 s' = cr3 s /\ loads s' = loads s else s' = s \/ flushed pd s s') /\
    ((entry s pd va = 0 /\ s' = s) \/ updated pd va (flagged (entry s pd va) k on) s s').
Proof.
  intros W Hv Hk. destruct (walk_ok _ _ _ _ _ W Hv) as (r & HF & HW). destruct (entry_ok _ _ _ _ _ W Hv) as [HE HE'].
  destruct (flagged_ok (entry s pd va) k on (conj HE HE') Hk) as [Ho _].
  unfold set_flag, mbind, M_bind, mret, M_ret. rewrite HF. destruct r as [[pt i]|].
  2:{ inversion HW as [? ? ? E|]. exists s. split; [done|]. split; [done|]. split; [by apply untouched_same|]. split; [destruct on; auto|auto]. }
  rewrite (walk_read _ _ _ _ _ _ _ W HW). destruct (walk_write _ _ _ _ _ _ _ _ W Hv HW Ho) as (s1 & HR & W1 & HU & HN & HC & HL).
  destruct on; cbn [flagged] in HR; rewrite HR; [exists s1; auto 10|].
  destruct (invalidate_ok _ _ _ _ W1) as (s2 & HI & W2 & HT & HF1 & HF2). rewrite HI.
  exists s2. split; [done|]. split; [done|]. split; [apply (untouched_trans _ ks _ _ s1); [done|done|by apply untouched_same]|].
  split; [right; split; [congruence|by rewrite HF2, HC, HL]|]. right. intros vb Hvb. rewrite <- (HU vb Hvb). unfold entry. by rewrite HT.
Qed.

(** pagedir_set_dirty and pagedir_set_accessed change exactly the bit they name, of
    exactly the page they name: where the page has an entry the test for that bit then
    answers the value set, for every other user page and for the other bit the answers
    are the old ones, no address is mapped differently, and clearing a bit flushes the
    TLB if the directory is active. *)
Theorem set_flag_correct ks us pd s (dirty : bool) va on : wf ks us pd s -> 0 <= va < PHYS_BASE -> entry s pd va <> 0 ->
  exists s', (if dirty then pagedir_set_dirty pd va on s else pagedir_set_accessed pd va on s) = Ok (tt, s') /\ wf ks us pd s' /\
    untouched ks pd s s' /\ (on = true -> loads s' = loads s) /\
    forall ua, 0 <= ua < PHYS_BASE ->
      pagedir_get_page pd ua s' = Ok (translate s pd ua, s') /\
      pagedir_is_dirty pd ua s' = Ok (if decide (dirty = true /\ pg_no ua = pg_no va) then on else Z.testbit (entry s pd ua) 6, s') /\
      pagedir_is_accessed pd ua s' = Ok (if decide (dirty = false /\ pg_no ua = pg_no va) then on else Z.testbit (entry s pd ua) 5, s').
Proof.
  intros W Hv Hn. set (k := if dirty then 6 else 5). assert (Hk : 0 < k < 12) by (by destruct dirty).
  destruct (set_flag_ok _ _ _ _ k va on W Hv Hk) as (s' & HF & W' & HN & HL & HU). destruct HU as [[? _]|HU]; [done|].
  exists s'. split; [by destruct dirty|]. split; [done|]. split; [done|]. split; [intros ->; apply HL|]. intros ua Hua.
  pose proof (entry_ok _ _ _ _ _ W Hv) as Ho. destruct (flagged_ok _ k on Ho Hk) as [_ HP].
  rewrite (updated_translate _ _ _ _ _ _ _ _ _ W W' Hua HU), HP, flagged_addr by (apply Ho || lia).
  change (pagedir_is_dirty pd ua) with (is_flag (2 ^ 6) pd ua). change (pagedir_is_accessed pd ua) with (is_flag (2 ^ 5) pd ua).
  rewrite !(is_flag_ok _ _ _ _ _ _ W' Hua), (HU ua Hua) by lia. destruct (decide (pg_no ua = pg_no va)) as [Hg|Hg].
  - unfold translate. rewrite (entry_page s pd ua va), !flagged_testbit by (apply Ho || done || lia).
    split; [done|].
    by destruct dirty; subst k; cbn [Z.eqb Pos.eqb]; do 2 destruct (decide (_ /\ _)) as [[]|]; try done; tauto.
  - rewrite !decide_False by tauto. done.
Qed.

(** ** Creation and destruction *)

Lemma wf_empty ks us pd s dir : pa_inv (pst s) ks us -> pd <> init_page_dir -> pd ∈ ks -> init_page_dir ∈ ks -> 0 <= cr3 s < 2 ^ 30 ->
  tables s !! pd = Some dir -> Z.of_nat (length dir) = 1024 -> (forall i, Z.of_nat i < 768 -> dir !! i = Some 0) ->
  wf ks us pd s /\ forall va, 0 <= va < PHYS_BASE -> entry s pd va = 0.
Proof.
  intros H1 H2 H3 H4 H5 H6 H7 H8. split.
  - split; try done; [by exists dir|..]; rewrite H6.
    + intros d i q [= <-] Hi Hq Hq0. rewrite H8 in Hq by done. congruence.
    + intros d i j q [= <-] Hi Hj Hq Hq' Hq0. rewrite H8 in Hq by done. congruence.
  - intros va Hv. destruct (user_index va Hv) as [I1 _]. unfold entry. by rewrite H6, H8.
Qed.

Lemma directory_create_ok ks us s dir : pa_inv (pst s) ks us -> init_page_dir ∈ ks -> 0 <= cr3 s < 2 ^ 30 -> tables s !! init_page_dir = Some dir ->
  Z.of_nat (length dir) = 1024 -> (forall i, Z.of_nat i < 768 -> dir !! i = Some 0) ->
  (exists s', pagedir_create s = Ok (0, s') /\ pa_inv (pst s') ks us /\ same s s' /\ size ks = pa_kcap (pst s)) \/
  (exists pd s', pagedir_create s = Ok (pd, s') /\ pd ∉ ks ∪ us /\ wf (ks ∪ {[ pd ]}) us pd s' /\
    tables s' = <[pd := dir]> (tables s) /\ forall va, 0 <= va < PHYS_BASE -> entry s' pd va = 0).
Proof.
  intros HI Hk HC E HL HZ. unfold pagedir_create, get_page, mbind, M_bind, mret, M_ret.
  destruct (pa_get_ok (pst s) ks us 0 1 HI) as [(x & HG & HX)|(p & x & HG & R & R' & HD & HX)]; [done..| |]; rewrite HG.
  { left. eexists. split; [done|]. split; [done|]. split; [done|]. by apply (pa_full _ _ _ 0 _ HI eq_refl HG). }
  right. rewrite (proj2 (Z.eqb_neq p 0)) by (unfold PHYS_BASE in *; lia). unfold gets, modify. cbn [negb tables set_pst]. rewrite E.
  change (has 0 PAL_USER) with false in HX. rewrite pages_one in HX, HD. apply disjoint_singleton_l in HD.
  eexists p, _. split; [done|]. split; [done|]. cbn [tables set_tables pst cr3 set_pst].
  destruct (wf_empty (ks ∪ {[ p ]}) us p (set_tables (<[p := dir]> (tables s)) (set_pst x s)) dir) as [W HE]; try done.
  - intros ->. apply HD. by apply elem_of_union_l.
  - by apply elem_of_union_r, elem_of_singleton.
  - by apply elem_of_union_l.
  - apply lookup_insert_eq.
Qed.

(** The pages the present entries of a table refer to, the page tables the directory
    entries refer to, and the pages all of those tables refer to. *)
Definition frames (ws : list Z) : list Z := omap (fun e => if present e then Some (Z.land e PTE_ADDR + PHYS_BASE) else None) ws.
Definition tabs (es : list Z) : list Z := omap (fun e => if e =? 0 then None else Some (table_of e)) es.
Definition frames_of (t : gmap Z (list Z)) (ps : list Z) : list Z := p ← ps; frames (default [] (t !! p)).

Definition user_tables s (pd : Z) : list Z := tabs (take (Z.to_nat (pd_no PHYS_BASE)) (default [] (tables s !! pd))).
Definition user_frames s (pd : Z) : list Z := frames_of (tables s) (user_tables s pd).

Lemma NoDup_omap_inj {A B} (f : A -> option B) (l : list A) :
  (forall i j x y z, l !! i = Some x -> l !! j = Some y -> f x = Some z -> f y = Some z -> i = j) -> NoDup (omap f l).
Proof.
  induction l as [|a l IH]; intros H; cbn; [constructor|].
  assert (NoDup (omap f l)) by (apply IH; intros i j x y z Hx Hy Hz Hz'; specialize (H (S i) (S j) x y z Hx Hy Hz Hz'); lia).
  destruct (f a) as [b|] eqn:E; [|done]. constructor; [|done].
  intros (y & Hy & Hb)%list_elem_of_omap. apply list_elem_of_lookup in Hy as [j Hj].
  specialize (H 0%nat (S j) a y b eq_refl Hj E Hb). lia.
Qed.

Lemma frames_of_ext t t' ps : (forall p, p ∈ ps -> t' !! p = t !! p) -> frames_of t' ps = frames_of t ps.
Proof.
  induction ps as [|p ps IH]; intros H; [done|]. unfold frames_of in *. cbn. rewrite (H p) by apply list_elem_of_here.
  f_equal. apply IH. intros q Hq. apply H. by apply list_elem_of_further.
Qed.

Lemma free_page_ok user ks us p s : pa_inv (pst s) ks us -> p ∈ used_of user ks us ->
  exists s', free_page p s = Ok (tt, s') /\
    pa_inv (pst s') (if user then ks else ks ∖ {[ p ]}) (if user then us ∖ {[ p ]} else us) /\
    forall q, q <> p -> tables s' !! q = tables s !! q.
Proof.
  intros HI Hp. destruct (pa_free_ok (pst s) ks us user p 1 HI) as (x & HF & HX); [lia| |].
  - rewrite pages_one. by apply singleton_subseteq_l.
  - unfold free_page. rewrite HF. rewrite pages_one in HX. eexists. split; [done|]. split; [done|].
    intros q Hq. cbn. by apply lookup_delete_ne.
Qed.

Lemma free_ptes_ok ks pt tb n : forall j us s, pa_inv (pst s) ks us -> pt ∈ ks -> tables s !! pt = Some tb -> length tb = (j + n)%nat ->
  Forall pte_ok tb -> NoDup (frames (drop j tb)) -> list_to_set (frames (drop j tb)) ⊆ us ->
  exists s', free_ptes n pt (Z.of_nat j) s = Ok (tt, s') /\ pa_inv (pst s') ks (us ∖ list_to_set (frames (drop j tb))) /\
    forall q, q ∈ ks -> tables s' !! q = tables s !! q.
Proof.
  induction n as [|n IH]; intros j us s HI Hpt E HL HF HD HS.
  { exists s. rewrite drop_ge by lia. cbn. by rewrite difference_empty_L. }
  destruct (lookup_lt_is_Some_2 tb j) as [e He]; [lia|]. rewrite (drop_S _ _ _ He) in HD, HS |- *.
  pose proof (Forall_lookup_1 _ _ _ _ HF He) as Ho. cbn [free_ptes]. unfold mbind, M_bind at 1.
  rewrite (read_at pt (Z.of_nat j) s tb e E) by (by rewrite Nat2Z.id). fold (present e). unfold M_bind at 1.
  replace (Z.of_nat j + 1) with (Z.of_nat (S j)) by lia. unfold frames in HD, HS |- *. cbn [omap list_omap] in HD, HS |- *.
  destruct (present e) eqn:HP; [|apply IH; (done || lia)].
  fold (frames (drop (S j) tb)) in *. unfold M_bind, lift. rewrite (pte_get_page_ok e Ho HP). set (f := _ + PHYS_BASE) in *.
  apply NoDup_cons in HD as [HD1 HD2]. cbn [list_to_set] in *.
  assert (Hfu : f ∈ us) by (apply HS, elem_of_union_l, elem_of_singleton; done).
  destruct (free_page_ok true ks us f s HI Hfu) as (s1 & HF1 & HI1 & HT1). rewrite HF1.
  assert (KEEP : forall q, q ∈ ks -> tables s1 !! q = tables s !! q).
  { intros q Hq. apply HT1. intros ->. exact (pa_apart _ _ _ HI f Hq Hfu). }
  destruct (IH (S j) (us ∖ {[ f ]}) s1) as (s2 & HF2 & HI2 & HT2); try done; [by rewrite KEEP|lia| |].
  { intros q Hq. apply elem_of_difference. split; [by apply HS, elem_of_union_r|].
    intros ->%elem_of_singleton. by apply elem_of_list_to_set in Hq. }
  exists s2. split; [exact HF2|]. split; [by rewrite difference_difference_l_L in HI2|].
  intros q Hq. by rewrite HT2, KEEP.
Qed.

(** A directory entry that [free_pdes] can follow. *)
Definition pde_ready (ks : gset Z) (pd : Z) (t : gmap Z (list Z)) (e : Z) : Prop := e <> 0 ->
  present e = true /\ pde_get_pt e = Ok (table_of e) /\ table_of e ∈ ks /\ table_of e <> pd /\
  exists tb, t !! table_of e = Some tb /\ Z.of_nat (length tb) = 1024 /\ Forall pte_ok tb.

Lemma tabs_ks ks pd t es p : Forall (pde_ready ks pd t) es -> p ∈ tabs es -> p ∈ ks /\ p <> pd.
Proof.
  intros HF (e & He & Hp)%list_elem_of_omap. destruct (Z.eqb_spec e 0) as [|Hn]; [done|]. injection Hp as <-.
  rewrite Forall_forall in HF. destruct (HF e He Hn) as (_ & _ & Hk & Hd & _). done.
Qed.

Lemma free_pdes_ok pd dir n : forall j ks us s, let es := take n (drop j dir) in
  pa_inv (pst s) ks us -> pd ∈ ks -> tables s !! pd = Some dir -> (j + n <= length dir)%nat ->
  Forall (pde_ready ks pd (tables s)) es -> NoDup (tabs es) -> NoDup (frames_of (tables s) (tabs es)) ->
  list_to_set (frames_of (tables s) (tabs es)) ⊆ us ->
  exists s', free_pdes n pd (Z.of_nat j) s = Ok (tt, s') /\
    pa_inv (pst s') (ks ∖ list_to_set (tabs es)) (us ∖ list_to_set (frames_of (tables s) (tabs es))) /\
    forall q, q ∈ ks -> q ∉ tabs es -> tables s' !! q = tables s !! q.
Proof.
  induction n as [|n IH]; intros j ks us s es HI Hpd E HL HF HT HD HS.
  { exists s. subst es. rewrite take_0. split; [done|]. split; [|done]. change (tabs []) with (@nil Z). unfold frames_of.
    cbn [mbind list_bind list_to_set]. by rewrite !difference_empty_L. }
  destruct (lookup_lt_is_Some_2 dir j) as [e He]; [lia|]. subst es. rewrite (drop_S _ _ _ He) in HF, HT, HD, HS |- *.
  cbn [take] in *. apply Forall_cons in HF as [He' HF]. set (es := take n (drop (S j) dir)) in *.
  cbn [free_pdes]. unfold mbind, M_bind at 1. rewrite (read_at pd (Z.of_nat j) s dir e E) by (by rewrite Nat2Z.id). fold (present e). unfold M_bind at 1.
  replace (Z.of_nat j + 1) with (Z.of_nat (S j)) by lia. unfold tabs in HT, HD, HS |- *. cbn [omap list_omap] in HT, HD, HS |- *.
  destruct (Z.eqb_spec e 0) as [->|Hn]; [apply (IH (S j) ks us s); (done || lia)|]. fold (tabs es) in *.
  destruct (He' Hn) as (HP & HG & Hk & Hne & tb & Et & Lt & Ft). rewrite HP. unfold M_bind, lift. rewrite HG.
  set (p := table_of e) in *. unfold frames_of in HD, HS |- *. cbn [mbind list_bind] in HD, HS |- *. rewrite Et in HD, HS |- *. cbn [default] in HD, HS |- *.
  fold (frames_of (tables s) (tabs es)) in *. apply NoDup_cons in HT as [HT1 HT2]. apply NoDup_app in HD as (HD1 & HD2 & HD3).
  rewrite list_to_set_app_L in HS |- *.
  destruct (free_ptes_ok ks p tb (Z.to_nat (PGSIZE / 4)) 0 us s HI Hk Et) as (s1 & HF1 & HI1 & HT1'); [change (PGSIZE / 4) with 1024; lia|done|done| |].
  { intros q Hq. by apply HS, elem_of_union_l. }
  change (Z.of_nat 0) with 0 in HF1. rewrite drop_0 in HI1. rewrite HF1. destruct (free_page_ok false ks _ p s1 HI1 Hk) as (s2 & HF2 & HI2 & HT2'). rewrite HF2.
  assert (KEEP : forall q, q ∈ ks -> q <> p -> tables s2 !! q = tables s !! q) by (intros q Hq Hqp; by rewrite HT2', HT1').
  assert (OTHER : forall q, q ∈ tabs es -> q ∈ ks ∖ {[ p ]} /\ tables s2 !! q = tables s !! q).
  { intros q Hq. destruct (tabs_ks _ _ _ _ _ HF Hq) as [Hqk _]. assert (q <> p) by (by intros ->).
    split; [by apply elem_of_difference; rewrite elem_of_singleton|by apply KEEP]. }
  assert (EXT : frames_of (tables s2) (tabs es) = frames_of (tables s) (tabs es)) by (apply frames_of_ext; intros; by apply OTHER).
  specialize (IH (S j) (ks ∖ {[ p ]}) (us ∖ list_to_set (frames tb)) s2). cbv zeta in IH. fold es in IH. rewrite EXT in IH.
  destruct IH as (s3 & HF3 & HI3 & HT3); try done.
  - by apply elem_of_difference; rewrite elem_of_singleton.
  - by rewrite KEEP.
  - lia.
  - apply Forall_forall. intros x Hx Hx0. rewrite Forall_forall in HF. destruct (HF x Hx Hx0) as (A1 & A2 & A3 & A4 & A5).
    destruct (OTHER (table_of x)) as [O1 O2]; [|by rewrite O2].
    apply list_elem_of_omap. exists x. split; [done|]. by rewrite (proj2 (Z.eqb_neq x 0)).
  - intros q Hq. apply elem_of_difference. split; [by apply HS, elem_of_union_r|]. apply elem_of_list_to_set in Hq. intros Hq2.
    apply elem_of_list_to_set in Hq2. exact (HD2 q Hq2 Hq).
  - exists s3. split; [done|]. cbn [list_to_set]. rewrite !difference_difference_l_L in HI3. split; [done|].
    intros q Hq [H1 H2]%not_elem_of_cons. rewrite HT3, KEEP; [done..| |done]. by apply elem_of_difference; rewrite elem_of_singleton.
Qed.

(** C23: pagedir_destroy gives back, to the pool each came from, exactly the directory's
    own page, its page tables for user addresses and the pages its present user entries
    refer to (each of which is in use and mapped once); every other kernel page, the
    initial page directory included, stays allocated with its contents. *)
Theorem destroy_frees ks us pd s : wf ks us pd s -> NoDup (user_frames s pd) -> list_to_set (user_frames s pd) ⊆ us ->
  exists s', pagedir_destroy pd s = Ok (tt, s') /\
    pa_inv (pst s') (ks ∖ (list_to_set (user_tables s pd) ∪ {[ pd ]})) (us ∖ list_to_set (user_frames s pd)) /\
    init_page_dir ∉ user_tables s pd /\
    forall q, q ∈ ks -> q <> pd -> q ∉ user_tables s pd -> tables s' !! q = tables s !! q.
Proof.
  intros W HD HS. pose proof W as [HI Hi Hk _ _ (dir & E & HL) HP HJ]. pose proof (pd_base _ _ _ _ W) as HB.
  unfold user_frames, user_tables in *. rewrite E in HD, HS |- *. cbn [default id] in HD, HS |- *. change (pd_no PHYS_BASE) with 768 in HD, HS |- *.
  assert (ENT : forall i e, take (Z.to_nat 768) dir !! i = Some e -> Z.of_nat i < 768 /\ dir !! i = Some e).
  { intros i e [H1 H2]%lookup_take_Some. split; [lia|done]. }
  assert (READY : Forall (pde_ready ks pd (tables s)) (take (Z.to_nat 768) dir)).
  { apply Forall_lookup. intros i e [H1 H2]%ENT Hn. destruct (pde_facts _ _ _ _ _ _ _ W E H1 H2 Hn) as [G1 G2].
    destruct (HP dir i e E H1 H2 Hn) as (_ & A2 & A3 & _ & A5). done. }
  assert (ND : NoDup (tabs (take (Z.to_nat 768) dir))).
  { apply NoDup_omap_inj. intros i j x y z [I1 Hx]%ENT [J1 Hy]%ENT Hz1 Hz2.
    destruct (Z.eqb_spec x 0) as [|Hx0], (Z.eqb_spec y 0) as [|Hy0]; try done. injection Hz1 as Hz1. injection Hz2 as Hz2.
    destruct (HP dir i x E I1 Hx Hx0) as (C1 & _), (HP dir j y E J1 Hy Hy0) as (C2 & _).
    rewrite Hz1 in C1. rewrite Hz2, C1 in C2. injection C2 as ->. by apply (HJ dir i j y). }
  destruct (free_pdes_ok pd dir (Z.to_nat 768) 0 ks us s HI Hk E) as (s1 & HF1 & HI1 & HT1); [lia|done..|].
  assert (NPD : pd ∉ tabs (take (Z.to_nat 768) dir)) by (intros Hin; by apply (tabs_ks _ _ _ _ _ READY) in Hin as [_ []]).
  unfold pagedir_destroy, mbind, M_bind. rewrite (proj2 (Z.eqb_neq pd 0)), (proj2 (Z.eqb_neq pd init_page_dir)) by (done || unfold PHYS_BASE in HB; lia).
  rewrite drop_0 in HI1, HT1. change (Z.of_nat 0) with 0 in HF1. cbn [negb ASSERT]. unfold mret, M_ret. change (pd_no PHYS_BASE) with 768. rewrite HF1.
  destruct (free_page_ok false _ _ pd s1 HI1) as (s2 & HF2 & HI2 & HT2); [apply elem_of_difference; by rewrite elem_of_list_to_set|].
  rewrite HF2. exists s2. split; [done|]. rewrite difference_difference_l_L in HI2. split; [done|]. split.
  - intros (e & He & Hp)%list_elem_of_omap. destruct (Z.eqb_spec e 0) as [|Hn]; [done|]. injection Hp as Hp.
    apply list_elem_of_lookup in He as (i & [I1 He]%ENT). by destruct (HP dir i e E I1 He Hn) as (_ & _ & _ & A4 & _).
  - intros q Hq Hqpd Hqt. by rewrite HT2, HT1.
Qed.

End Ops.

(** ** A directory with one page mapped *)

Definition demo_alloc : pstate bitmap :=
  PState (Pool (Bitmap 8 [11]) 0xc0101000) (Pool (Bitmap 4 [1]) 0xc0200000) (fun _ => 7).
Definition demo_ks : gset Z := marked 0xc0101000 demo_kernel.
Definition demo_us : gset Z := marked 0xc0200000 [true; false; false; false].

Lemma demo_pages_inv : palloc_inv demo_alloc demo_ks demo_us.
Proof.
  exists demo_kernel, [true; false; false; false]. split; [|done].
  split; [split..|]; try (vm_compute; done); cbn [ba_repr bitmap_BitArray]; apply small_repr; by vm_compute.
Qed.

(** The initial directory, and an empty one that is active. *)
Definition demo_init : Z := 0xc0101000.
Definition demo_dir : Z := 0xc0102000.
Definition demo_empty : pdstate (pstate bitmap) :=
  PD (<[demo_init := replicate (Z.to_nat 1024) 0]> {[ demo_dir := replicate (Z.to_nat 1024) 0 ]}) demo_alloc 0x102000 [].

Lemma demo_empty_wf : wf demo_init demo_ks demo_us demo_dir demo_empty /\
  forall va, 0 <= va < PHYS_BASE -> entry demo_empty demo_dir va = 0.
Proof.
  apply (wf_empty _ _ _ _ _ (replicate (Z.to_nat 1024) 0)); try done.
  - exact demo_pages_inv.
  - intros i Hi. apply lookup_replicate_2. lia.
Qed.

Definition demo_mapped : pdstate (pstate bitmap) :=
  match pagedir_set_page demo_init 1024 demo_dir 0x8048000 0xc0200000 true demo_empty with Ok (_, s) => s | Fail _ => demo_empty end.

#[local] Opaque demo_empty demo_us demo_ks.

Lemma demo_mapped_wf : exists ks, wf demo_init ks demo_us demo_dir demo_mapped /\ entry demo_mapped demo_dir 0x8048000 = 0x200007.
Proof.
  destruct demo_empty_wf as [W HE].
  assert (H : match pagedir_set_page demo_init 1024 demo_dir 0x8048000 0xc0200000 true demo_empty with Ok (b, _) => b | Fail _ => false end = true)
    by by_kernel.
  destruct (set_page_ok demo_init 1024 _ _ _ _ 0x8048000 0xc0200000 true W) as [(s' & HF & _)|(ks & s' & e & HF & He & _ & W' & HU & _)];
    [clear; done|clear; done|clear; done|rewrite HE by (clear; done); clear; done|rewrite HF in H; discriminate H|].
  exists ks. unfold demo_mapped. rewrite HF. split; [exact W'|]. rewrite HU, decide_True by (clear; done).
  vm_compute in He. injection He as <-. clear. done.
Qed.

#[local] Opaque demo_mapped.

Lemma install_page_maps_witness :
  exists ks s, pagedir_install_page demo_init 1024 demo_dir 0x8048000 0xc0200000 true demo_empty = Ok (true, s) /\
    wf demo_init ks demo_us demo_dir s /\ pagedir_get_page demo_dir 0x8048123 s = Ok (0xc0200123, s) /\
    pagedir_get_page demo_dir 0x8049123 s = Ok (0, s).
Proof.
  destruct demo_empty_wf as [W HE].
  assert (HT : forall ua, 0 <= ua < PHYS_BASE -> translate demo_empty demo_dir ua = 0) by (intros ua Hu; apply (translate_zero _ _ _ _ _ _ W Hu); by rewrite HE).
  destruct (install_page_maps demo_init 1024 demo_ks demo_us demo_dir demo_empty 0x8048000 0xc0200000 true W) as (ok & ks & s & H1 & _ & H2 & _ & _ & _ & _ & H3 & _ & H4);
    [done|done|done|]. assert (Hok : ok = true) by (apply H3; [by apply HT|]; apply Nat.ltb_lt; by_kernel). subst ok.
  exists ks, s. split; [exact H1|]. split; [exact H2|]. specialize (H4 eq_refl).
  pose proof (H4 0x8048123 ltac:(done)) as A. pose proof (H4 0x8049123 ltac:(done)) as B. rewrite decide_True in A by done. rewrite decide_False in B by done.
  split; [apply A|]. rewrite <- (HT 0x8049123) by done. apply B.
Defined.

Lemma destroy_frees_witness :
  exists ks s, pagedir_destroy demo_init demo_dir demo_mapped = Ok (tt, s) /\ palloc_inv (pst s) ks ∅.
Proof.
  destruct demo_mapped_wf as (ks & W & _).
  assert (HF : user_frames demo_mapped demo_dir = [0xc0200000]) by by_kernel.
  destruct (destroy_frees demo_init ks demo_us demo_dir demo_mapped W) as (s & H1 & H2 & _); rewrite HF in *.
  - apply NoDup_singleton.
  - intros q Hq. apply elem_of_list_to_set, list_elem_of_singleton in Hq as ->. apply (elem_of_marked 0xc0200000 0xc0200000 [true; false; false; false]). exists 0%nat. exact (conj eq_refl eq_refl).
  - eexists _, s. split; [exact H1|]. replace (∅ : gset Z) with (demo_us ∖ list_to_set [0xc0200000]) by by_kernel. exact H2.
Defined.

End Pagedir.
