(* ===== verification/AddressSpace.v ===== *)
(** * What page directories and the user pool promise to virtual memory

    Paging (src/vm/frame.c, src/vm/spt.c) uses page directories (src/userprog/pagedir.c) and the user
    pool of the page allocator (src/threads/palloc.c) through this interface: which pages of the pool are
    in use, and what each user page of each process is mapped to.  The page directories of Pagedir, over
    any page allocator that keeps the promise of Pages, implement it for any number of processes. *)

From S2P Require Import Prelude Vaddr Palloc Pages Pagedir.
Import Vaddr Palloc Pages Pagedir.

Module AddressSpace.

(** A mapping of a user page. *)
Record pte := MkPte { pte_page : Z; pte_writable : bool; pte_accessed : bool; pte_dirty : bool }.
Definition set_accessed (b : bool) (e : pte) : pte := MkPte (pte_page e) (pte_writable e) b (pte_dirty e).

Definition set_dirty (b : bool) (e : pte) : pte := MkPte (pte_page e) (pte_writable e) (pte_accessed e) b.

(** The address of a user page. *)
Definition user_page (ua : Z) : Prop := 0 <= ua < PHYS_BASE /\ ua mod 4096 = 0.
#[export] Instance user_page_dec ua : Decision (user_page ua).
Proof. unfold user_page. apply _. Defined.

Class AddressSpaces (D : Type) := {
  (** The user pool has [cap] pages, those of [us] are in use; [pds] are page directories, and [m] says
      for each of them and each user page what it is mapped to. *)
  as_inv : D -> nat -> gset Z -> gset Z -> gmap (Z * Z) pte -> Prop;
  as_get : Z -> M D Z;
  as_free : Z -> M D unit;
  as_install : Z -> Z -> Z -> bool -> M D bool;
  as_clear : Z -> Z -> M D unit;
  as_is_accessed : Z -> Z -> M D bool;
  as_is_dirty : Z -> Z -> M D bool;
  as_set_accessed : Z -> Z -> bool -> M D unit;
  as_set_dirty : Z -> Z -> bool -> M D unit;
  (** What the processor finds for a page. *)
  as_walk : Z -> Z -> M D (option pte);
  as_cap_ok d cap us pds m : as_inv d cap us pds m -> (size us <= cap)%nat;
  as_pages d cap us pds m p : as_inv d cap us pds m -> p ∈ us -> p mod 4096 = 0 /\ PHYS_BASE < p;
  as_map d cap us pds m pd ua e : as_inv d cap us pds m -> m !! (pd, ua) = Some e -> pd ∈ pds /\ user_page ua;
  as_get_ok d cap us pds m flags : as_inv d cap us pds m -> has flags PAL_USER = true -> has flags PAL_ASSERT = false ->
    (exists d', as_get flags d = Ok (0, d') /\ as_inv d' cap us pds m /\ size us = cap) \/
    (exists p d', as_get flags d = Ok (p, d') /\ p <> 0 /\ p ∉ us /\ as_inv d' cap ({[ p ]} ∪ us) pds m);
  as_free_ok d cap us pds m p : as_inv d cap us pds m -> p ∈ us ->
    exists d', as_free p d = Ok (tt, d') /\ as_inv d' cap (us ∖ {[ p ]}) pds m;
  as_install_ok d cap us pds m pd ua p w : as_inv d cap us pds m -> pd ∈ pds -> user_page ua -> p ∈ us ->
    exists ok d', as_install pd ua p w d = Ok (ok, d') /\
      if ok : bool then m !! (pd, ua) = None /\ as_inv d' cap us pds (<[(pd, ua) := MkPte p w false false]> m) else as_inv d' cap us pds m;
  as_clear_ok d cap us pds m pd ua : as_inv d cap us pds m -> pd ∈ pds -> user_page ua ->
    exists d', as_clear pd ua d = Ok (tt, d') /\ as_inv d' cap us pds (delete (pd, ua) m);
  as_is_accessed_ok d cap us pds m pd ua e : as_inv d cap us pds m -> m !! (pd, ua) = Some e -> as_is_accessed pd ua d = Ok (pte_accessed e, d);
  as_is_dirty_ok d cap us pds m pd ua e : as_inv d cap us pds m -> m !! (pd, ua) = Some e -> as_is_dirty pd ua d = Ok (pte_dirty e, d);
  as_set_accessed_ok d cap us pds m pd ua e on : as_inv d cap us pds m -> m !! (pd, ua) = Some e ->
    exists d', as_set_accessed pd ua on d = Ok (tt, d') /\ as_inv d' cap us pds (<[(pd, ua) := set_accessed on e]> m);
  as_set_dirty_ok d cap us pds m pd ua e on : as_inv d cap us pds m -> m !! (pd, ua) = Some e ->
    exists d', as_set_dirty pd ua on d = Ok (tt, d') /\ as_inv d' cap us pds (<[(pd, ua) := set_dirty on e]> m);
  as_walk_ok d cap us pds m pd ua : as_inv d cap us pds m -> pd ∈ pds -> user_page ua -> as_walk pd ua d = Ok (m !! (pd, ua), d);
  (** There is memory for [n] more page tables.  With memory for one, a page that is not mapped can be;
      nothing else takes any. *)
  as_room : nat -> D -> Prop;
  as_room_S d n : as_room (S n) d -> as_room n d;
  as_install_room d cap us pds m pd ua p w n ok d' : as_inv d cap us pds m -> pd ∈ pds -> user_page ua -> p ∈ us -> as_room (S n) d ->
    as_install pd ua p w d = Ok (ok, d') -> (m !! (pd, ua) = None -> ok = true) /\ as_room n d';
  as_get_room d flags n r d' : has flags PAL_USER = true -> has flags PAL_ASSERT = false -> as_room n d -> as_get flags d = Ok (r, d') -> as_room n d';
  as_free_room d cap us pds m p n d' : as_inv d cap us pds m -> p ∈ us -> as_room n d -> as_free p d = Ok (tt, d') -> as_room n d';
  as_clear_room d pd ua n d' : as_room n d -> as_clear pd ua d = Ok (tt, d') -> as_room n d';
  as_set_accessed_room d pd ua on n d' : as_room n d -> as_set_accessed pd ua on d = Ok (tt, d') -> as_room n d';
  as_set_dirty_room d pd ua on n d' : as_room n d -> as_set_dirty pd ua on d = Ok (tt, d') -> as_room n d'
}.

(** ** The page directories of pagedir.c *)

Section instance_.
Context {P : Type} `{PA : PageAlloc P} (init_page_dir init_ram_pages : Z).
Notation pds_state := (pdstate P).
Notation wf := (wf init_page_dir).

Definition decode (e : Z) : option pte :=
  if present e then Some (MkPte (Z.land e PTE_ADDR + PHYS_BASE) (Z.testbit e 1) (Z.testbit e 5) (Z.testbit e 6)) else None.

(** The directory new ones are copies of, which has no user pages. *)
Definition base (d : pds_state) (ks : gset Z) : Prop :=
  init_page_dir ∈ ks /\ 0 <= cr3 d < 2 ^ 30 /\
  exists dir, tables d !! init_page_dir = Some dir /\ Z.of_nat (length dir) = 1024 /\ forall i, Z.of_nat i < 768 -> dir !! i = Some 0.
Lemma base_kept d d' ks ks' : base d ks -> ks ⊆ ks' -> 0 <= cr3 d' < 2 ^ 30 -> tables d' !! init_page_dir = tables d !! init_page_dir -> base d' ks'.
Proof. intros (H1 & _ & H2) HK HC HT. split; [by apply HK|]. split; [done|]. by rewrite HT. Qed.

(** Every directory is well formed, no two of them share a page table, and [m] is what their entries say. *)
Record spaces (d : pds_state) (ks : gset Z) (cap : nat) (us pds : gset Z) (m : gmap (Z * Z) pte) : Prop := {
  sp_pages : pa_inv (pst d) ks us;
  sp_cap : pa_cap (pst d) = cap;
  sp_top : pa_top (pst d) <= PHYS_BASE + 4096 * init_ram_pages;
  sp_base : base d ks;
  sp_wf pd : pd ∈ pds -> wf ks us pd d;
  sp_apart pd pd' q : pd ∈ pds -> pd' ∈ pds -> pd <> pd' -> is_table d pd q -> ~ is_table d pd' q /\ q <> pd';
  sp_entries pd ua : m !! (pd, ua) = if decide (pd ∈ pds /\ user_page ua) then decode (entry d pd ua) else None
}.
Definition spaces_inv (d : pds_state) (cap : nat) (us pds : gset Z) (m : gmap (Z * Z) pte) : Prop := exists ks, spaces d ks cap us pds m.

(** A directory whose pages are as they were stays well formed, with the same entries. *)
Lemma wf_kept ks ks' us us' pd d d' :
  wf ks us pd d -> pa_inv (pst d') ks' us' -> ks ⊆ ks' -> 0 <= cr3 d' < 2 ^ 30 ->
  (forall q, q = pd \/ is_table d pd q -> tables d' !! q = tables d !! q) ->
  wf ks' us' pd d' /\ (forall ua, 0 <= ua < PHYS_BASE -> entry d' pd ua = entry d pd ua) /\ (forall q, is_table d' pd q <-> is_table d pd q).
Proof.
  intros W HP HK HC HT. assert (Ed : tables d' !! pd = tables d !! pd) by (apply HT; by left).
  assert (Ht : forall dir i pde, tables d !! pd = Some dir -> Z.of_nat i < 768 -> dir !! i = Some pde -> pde <> 0 -> tables d' !! table_of pde = tables d !! table_of pde).
  { intros dir i pde H1 H2 H3 H4. apply HT. right. by exists dir, i, pde. }
  split; [|split].
  - destruct W as [W1 W2 W3 W4 W5 W6 W7 W8]. split; try done; rewrite ?Ed; try done; [by apply HK|by apply HK|].
    intros dir i pde H1 H2 H3 H4. rewrite (Ht dir i pde) by done. destruct (W7 dir i pde H1 H2 H3 H4) as (A1 & A2 & A). split; [done|]. split; [by apply HK|done].
  - intros ua Hu. destruct (user_index ua Hu) as [I1 _]. unfold entry. rewrite Ed. destruct (tables d !! pd) as [dir|] eqn:E; [|done].
    destruct (dir !! Z.to_nat (pd_no ua)) as [pde|] eqn:Hp; [|done]. destruct (Z.eqb_spec pde 0); [done|]. by rewrite (Ht dir (Z.to_nat (pd_no ua))).
  - intros q. unfold is_table. by rewrite Ed.
Qed.

(** The pages of the directory [pd'] are not touched by what is done to [pd]. *)
Lemma others_kept d ks cap us pds m pd d' ks' :
  spaces d ks cap us pds m -> pd ∈ pds -> ks ⊆ ks' -> wf ks' us pd d' -> untouched ks pd d d' ->
  pa_cap (pst d') = pa_cap (pst d) -> pa_top (pst d') = pa_top (pst d) ->
  forall m', (forall pd' ua, pd' <> pd -> m' !! (pd', ua) = m !! (pd', ua)) ->
  (forall ua, m' !! (pd, ua) = if decide (user_page ua) then decode (entry d' pd ua) else None) -> spaces d' ks' cap us pds m'.
Proof.
  intros S Hpd HK W' HU Hc Htop m' Hother Hsame.
  assert (K : forall pd', pd' ∈ pds -> pd' <> pd -> wf ks' us pd' d' /\ (forall ua, 0 <= ua < PHYS_BASE -> entry d' pd' ua = entry d pd' ua) /\
    (forall q, is_table d' pd' q <-> is_table d pd' q)).
  { intros pd' Hp' Hne. pose proof (sp_wf _ _ _ _ _ _ S pd' Hp') as Wp. eapply wf_kept; [exact Wp|apply W'|done|apply W'|].
    intros q [->|Hq]; apply HU.
    - apply Wp.
    - done.
    - intros Ht. by destruct (sp_apart _ _ _ _ _ _ S pd pd' pd' Hpd Hp' ltac:(done) Ht).
    - destruct Hq as (dir & i & pde & H1 & H2 & H3 & H4 & <-). apply (w_pde _ _ _ _ _ Wp dir i pde); done.
    - apply (sp_apart _ _ _ _ _ _ S pd' pd q Hp' Hpd Hne Hq).
    - intros Ht. by destruct (sp_apart _ _ _ _ _ _ S pd' pd q Hp' Hpd Hne Hq). }
  assert (X : forall pd' q, pd' ∈ pds -> pd' <> pd -> is_table d pd' q -> ~ is_table d' pd q /\ q <> pd /\ ~ is_table d' pd pd').
  { intros pd' q Hp' Hne Hq. pose proof (sp_wf _ _ _ _ _ _ S pd' Hp') as Wp. destruct (sp_apart _ _ _ _ _ _ S pd' pd q Hp' Hpd Hne Hq) as [N1 N2].
    split; [|split; [done|]].
    - apply HU; [|done|done]. destruct Hq as (dir & i & pde & H1 & H2 & H3 & H4 & <-). apply (w_pde _ _ _ _ _ Wp dir i pde); done.
    - apply HU; [apply Wp|done|]. intros Ht. by destruct (sp_apart _ _ _ _ _ _ S pd pd' pd' Hpd Hp' ltac:(done) Ht). }
  split; [apply W'|rewrite Hc; apply S|rewrite Htop; apply S| | | |].
  - pose proof (sp_wf _ _ _ _ _ _ S pd Hpd) as Wp. eapply base_kept; [apply S|done|apply W'|]. apply HU; [apply Wp|intros E; by apply (w_init _ _ _ _ _ Wp)|].
    intros (dir & i & pde & H1 & H2 & H3 & H4 & H5). destruct (w_pde _ _ _ _ _ Wp dir i pde) as (_ & _ & _ & Hne & _); done.
  - intros pd' Hp'. destruct (decide (pd' = pd)) as [->|]; [done|by apply K].
  - intros p1 p2 q H1 H2 Hne Ht. destruct (decide (p1 = pd)) as [->|N1], (decide (p2 = pd)) as [->|N2]; [done| | |].
    + split; [intros Hq; rewrite (proj2 (proj2 (K p2 H2 N2))) in Hq; by destruct (X p2 q H2 N2 Hq)|].
      intros ->. pose proof (sp_wf _ _ _ _ _ _ S p2 H2) as Wp. destruct (HU p2) as [_ HN]; [apply Wp|done| |done].
      intros Ht'. by destruct (sp_apart _ _ _ _ _ _ S pd p2 p2 Hpd H2 ltac:(done) Ht').
    + rewrite (proj2 (proj2 (K p1 H1 N1))) in Ht. by destruct (X p1 q H1 N1 Ht) as (? & ? & _).
    + rewrite (proj2 (proj2 (K p1 H1 N1))) in Ht. rewrite (proj2 (proj2 (K p2 H2 N2))). by apply (sp_apart _ _ _ _ _ _ S p1 p2 q).
  - intros pd' ua. destruct (decide (pd' = pd)) as [->|Hne].
    + rewrite Hsame. destruct (decide (user_page ua)) as [Hu|Hu]; [rewrite decide_True by done; done|rewrite decide_False by tauto; done].
    + rewrite Hother, (sp_entries _ _ _ _ _ _ S) by done. case_decide as Hd; [|done]. destruct Hd as [Hp' [Hu _]].
      by rewrite (proj1 (proj2 (K pd' Hp' Hne))).
Qed.

(** ** What an operation does to the pools *)

Definition pool_kept (s s' : pds_state) : Prop :=
  pa_cap (pst s') = pa_cap (pst s) /\ pa_top (pst s') = pa_top (pst s) /\ pa_kcap (pst s') = pa_kcap (pst s).
Definition keeps {A} (f : M pds_state A) (s : pds_state) : Prop := forall r s', f s = Ok (r, s') -> pool_kept s s'.
Definition reads {A} (f : M pds_state A) : Prop := forall s r s', f s = Ok (r, s') -> s' = s.

Lemma keeps_bind {A C} (f : M pds_state A) (k : A -> M pds_state C) s :
  keeps f s -> (forall a s1, f s = Ok (a, s1) -> keeps (k a) s1) -> keeps (let* x := f in k x) s.
Proof.
  intros Hf Hk r s'. unfold mbind, M_bind. destruct (f s) as [[a s1]|] eqn:E; [|done]. intros H. destruct (Hf _ _ E) as (H1 & H2 & H3).
  destruct (Hk _ _ eq_refl _ _ H) as (H4 & H5 & H6). split_and!; congruence.
Qed.
Lemma keeps_reads {A C} (f : M pds_state A) (k : A -> M pds_state C) s :
  reads f -> (forall a, f s = Ok (a, s) -> keeps (k a) s) -> keeps (let* x := f in k x) s.
Proof.
  intros Hf Hk. apply keeps_bind; [intros r s' ->%Hf; by split|]. intros a s1 E. pose proof (Hf _ _ _ E) as ->. by apply Hk.
Qed.
Lemma keeps_ret {A} (a : A) s : keeps (mret a) s.
Proof. intros r s'. unfold mret, M_ret. intros [= _ <-]. by split. Qed.
Lemma reads_assert b : reads (ASSERT b).
Proof. intros s r s'. destruct b; [|done]. unfold ASSERT, mret, M_ret. by intros [= _ <-]. Qed.
Lemma reads_lift {A} (o : outcome A) : reads (lift o).
Proof. intros s r s'. unfold lift. destruct o; [|done]. by intros [= _ <-]. Qed.
Lemma reads_word q i : reads (read_word q i).
Proof. intros s r s'. unfold read_word. repeat case_match; try done. by intros [= _ <-]. Qed.
Lemma keeps_write q i w s : keeps (write_word q i w) s.
Proof. intros r s'. unfold write_word. repeat case_match; try done. intros [= _ <-]. by split. Qed.
Lemma keeps_tables f s : keeps (modify (fun s => set_tables (f s) s)) s.
Proof. intros r s'. unfold modify. intros [= _ <-]. by split. Qed.

#[local] Hint Resolve keeps_ret reads_assert reads_lift reads_word keeps_write keeps_tables : pools.
#[local] Hint Extern 2 (keeps (mbind _ _) _) => (apply keeps_reads; [auto with pools; fail|intros ? ?]) : pools.
#[local] Hint Extern 3 (keeps (mbind _ _) _) => (apply keeps_bind; [auto with pools; fail|intros ? ? ?]) : pools.

Lemma keeps_get s ks us flags : pa_inv (pst s) ks us -> has flags PAL_ASSERT = false -> keeps (get_page flags) s.
Proof.
  intros HI HA r s'. unfold get_page. destruct (pa_get (pst s) flags 1) as [[p x]|] eqn:E; [|done]. intros [= _ <-].
  destruct (pa_get_same _ _ _ _ 1 _ _ HI eq_refl HA E) as (? & ? & ?). by split_and!.
Qed.

Lemma keeps_lookup s ks us pd va : pa_inv (pst s) ks us -> keeps (lookup_page pd va true) s.
Proof.
  intros HI. unfold lookup_page. apply keeps_reads; [apply reads_assert|intros _ _]. apply keeps_reads; [apply reads_assert|intros _ _].
  apply keeps_reads; [apply reads_word|intros pde _]. apply keeps_bind.
  - destruct (pde =? 0); [|apply keeps_ret]. apply keeps_bind; [by eapply keeps_get|]. intros p s1 _. destruct (p =? 0); auto with pools.
  - intros f s1 _. destruct f; auto with pools.
Qed.

Lemma keeps_install s ks us pd ua p w : wf ks us pd s -> 0 <= ua < PHYS_BASE -> keeps (pagedir_install_page init_page_dir init_ram_pages pd ua p w) s.
Proof.
  intros W Hu. unfold pagedir_install_page. apply keeps_bind.
  - intros r s'. rewrite (get_page_ok _ _ _ _ _ _ W Hu). intros [= _ <-]. by split.
  - intros a s1. rewrite (get_page_ok _ _ _ _ _ _ W Hu). intros [= <- <-]. destruct (_ =? 0); [|apply keeps_ret].
    unfold pagedir_set_page. do 3 (apply keeps_reads; [apply reads_assert|intros _ _]). apply keeps_reads; [apply reads_lift|intros x _].
    do 2 (apply keeps_reads; [apply reads_assert|intros _ _]). apply keeps_bind; [eapply keeps_lookup; apply W|].
    intros [[q i]|] s1 _; auto with pools.
Qed.

Lemma keeps_invalidate pd s : keeps (invalidate_pagedir init_page_dir pd) s.
Proof.
  unfold invalidate_pagedir. apply keeps_reads.
  - unfold active_pd. intros s0 r s'. unfold gets, lift, mbind, M_bind. destruct (ptov (cr3 s0)); [|done]. by intros [= _ <-].
  - intros a _. destruct (a =? pd); [|apply keeps_ret]. unfold pagedir_activate. apply keeps_reads; [apply reads_lift|]. intros x _ r s'. unfold modify.
    intros [= _ <-]. by split.
Qed.

Lemma reads_walk pd va : reads (lookup_page pd va false).
Proof.
  intros s r s'. unfold lookup_page. unfold mbind, M_bind, ASSERT, fail, mret, M_ret. destruct (negb (pd =? 0)); [|done].
  cbn [negb orb]. unfold read_word, lift. repeat case_match; simplify_eq; try done; by intros [= _ <-].
Qed.

Lemma keeps_clear pd ua s : keeps (pagedir_clear_page init_page_dir pd ua) s.
Proof.
  unfold pagedir_clear_page. do 2 (apply keeps_reads; [apply reads_assert|intros _ _]). apply keeps_reads; [apply reads_walk|].
  intros [[q i]|] _; [|apply keeps_ret]. apply keeps_reads; [apply reads_word|intros w _]. destruct (negb _); [|apply keeps_ret].
  apply keeps_bind; [apply keeps_write|]. intros _ s1 _. apply keeps_invalidate.
Qed.

Lemma keeps_flag k pd ua on s : keeps (set_flag init_page_dir k pd ua on) s.
Proof.
  unfold set_flag. apply keeps_reads; [apply reads_walk|]. intros [[q i]|] _; [|apply keeps_ret]. apply keeps_reads; [apply reads_word|intros w _].
  destruct on; [apply keeps_write|]. apply keeps_bind; [apply keeps_write|]. intros _ s1 _. apply keeps_invalidate.
Qed.

(** ** The laws *)

Lemma spaces_pages d cap us pds m p : spaces_inv d cap us pds m -> p ∈ us -> p mod 4096 = 0 /\ PHYS_BASE < p.
Proof. intros (ks & S) Hp. destruct (pa_range _ _ _ p (sp_pages _ _ _ _ _ _ S)) as (? & ? & _); [by apply elem_of_union_r|done]. Qed.

Lemma spaces_map d cap us pds m pd ua e : spaces_inv d cap us pds m -> m !! (pd, ua) = Some e -> pd ∈ pds /\ user_page ua.
Proof. intros (ks & S). rewrite (sp_entries _ _ _ _ _ _ S). by case_decide. Qed.

Lemma spaces_entry d ks cap us pds m pd ua e : spaces d ks cap us pds m -> m !! (pd, ua) = Some e ->
  pd ∈ pds /\ user_page ua /\ wf ks us pd d /\ decode (entry d pd ua) = Some e.
Proof. intros S. rewrite (sp_entries _ _ _ _ _ _ S). case_decide as H; [|done]. destruct H. intros. by split_and!; [..|apply S|]. Qed.

(** Pages of the user pool come and go without any directory being touched. *)
Lemma spaces_pool d ks cap us pds m us' d' :
  spaces d ks cap us pds m -> pa_inv (pst d') ks us' -> cr3 d' = cr3 d -> pool_kept d d' -> (forall q, q ∈ ks -> tables d' !! q = tables d !! q) ->
  spaces d' ks cap us' pds m.
Proof.
  intros S HP HC (K1 & K2 & _) HT.
  assert (K : forall pd, pd ∈ pds -> wf ks us' pd d' /\ (forall ua, 0 <= ua < PHYS_BASE -> entry d' pd ua = entry d pd ua) /\ (forall q, is_table d' pd q <-> is_table d pd q)).
  { intros pd Hpd. pose proof (sp_wf _ _ _ _ _ _ S pd Hpd) as W. eapply wf_kept; [exact W|done|done|rewrite HC; apply W|].
    intros q [->|(dir & i & pde & H1 & H2 & H3 & H4 & <-)]; apply HT; [apply W|]. apply (w_pde _ _ _ _ _ W dir i pde); done. }
  split; [done|rewrite K1; apply S|rewrite K2; apply S| |intros pd Hpd; by apply K| |].
  - destruct (sp_base _ _ _ _ _ _ S) as (B1 & B2 & B3). eapply base_kept; [apply S|done|by rewrite HC|by apply HT].
  - intros p1 p2 q H1 H2 Hne. rewrite (proj2 (proj2 (K p1 H1))), (proj2 (proj2 (K p2 H2))). by apply S.
  - intros pd ua. rewrite (sp_entries _ _ _ _ _ _ S). case_decide as H; [|done]. destruct H as [Hpd [Hu _]]. by rewrite (proj1 (proj2 (K pd Hpd))).
Qed.

Lemma spaces_get d cap us pds m flags : spaces_inv d cap us pds m -> has flags PAL_USER = true -> has flags PAL_ASSERT = false ->
  (exists d', get_page flags d = Ok (0, d') /\ spaces_inv d' cap us pds m /\ size us = cap) \/
  (exists p d', get_page flags d = Ok (p, d') /\ p <> 0 /\ p ∉ us /\ spaces_inv d' cap ({[ p ]} ∪ us) pds m).
Proof.
  intros (ks & S) HU HA. pose proof (sp_pages _ _ _ _ _ _ S) as HP. unfold get_page.
  assert (HK : forall r x, pa_get (pst d) flags 1 = Ok (r, x) -> pool_kept d (set_pst x d)) by (intros r x E; apply (keeps_get d ks us flags HP HA r); unfold get_page; by rewrite E).
  destruct (pa_get_ok (pst d) ks us flags 1 HP ltac:(done) HA) as [(x & E & HX)|(p & x & E & R & _ & HD & HX)]; rewrite E.
  - left. eexists. split; [done|]. split; [exists ks; eapply spaces_pool; [exact S|exact HX|done|by eapply HK|done]|].
    pose proof (pa_full _ _ _ _ _ HP HA E) as HF. rewrite HU in HF. rewrite HF. apply S.
  - right. rewrite HU, pages_one in HX. rewrite pages_one in HD. eexists p, _. split; [done|].
    split; [unfold PHYS_BASE in R; lia|]. split; [set_solver|]. exists ks. eapply spaces_pool; [exact S| |done|by eapply HK|done]. by rewrite (union_comm_L {[ p ]} us).
Qed.

Lemma spaces_free d cap us pds m p : spaces_inv d cap us pds m -> p ∈ us ->
  exists d', free_page p d = Ok (tt, d') /\ spaces_inv d' cap (us ∖ {[ p ]}) pds m.
Proof.
  intros (ks & S) Hp. pose proof (sp_pages _ _ _ _ _ _ S) as HP. assert (HS : pages p 1 ⊆ used_of true ks us) by (rewrite pages_one; cbn; set_solver).
  destruct (pa_free_ok (pst d) ks us true p 1 HP ltac:(done) HS) as (x & E & HX). rewrite pages_one in HX. unfold free_page. rewrite E.
  destruct (pa_free_same (pst d) ks us true p 1 x HP eq_refl HS E) as (K1 & K2 & K3). eexists. split; [done|]. exists ks.
  eapply spaces_pool; [exact S|done|done|by split_and!|]. intros q Hq. simpl. apply lookup_delete_ne. intros ->.
  by apply (pa_apart _ _ _ HP q Hq).
Qed.

(** The map after the entry of one page has changed. *)
Lemma spaces_update d ks cap us pds m pd ua e d' ks' m' :
  spaces d ks cap us pds m -> pd ∈ pds -> user_page ua -> ks ⊆ ks' -> wf ks' us pd d' -> updated pd ua e d d' -> untouched ks pd d d' -> pool_kept d d' ->
  m' !! (pd, ua) = decode e -> (forall k, k <> (pd, ua) -> m' !! k = m !! k) -> spaces d' ks' cap us pds m'.
Proof.
  intros S Hpd [Hu Ha] HK W' HU HN (K1 & K2 & _) Hm Ho. eapply others_kept; try done.
  - intros pd' ub Hne. apply Ho. congruence.
  - intros ub. destruct (decide (ub = ua)) as [->|Hne].
    + rewrite Hm, decide_True by done. rewrite (HU ua Hu), decide_True by done. done.
    + rewrite Ho by congruence. rewrite (sp_entries _ _ _ _ _ _ S). case_decide as Hd.
      * destruct Hd as [_ [Hu' Ha']]. rewrite decide_True, (HU ub Hu'), decide_False; [done| |done]. rewrite !pg_no_div. intros Heq. apply Hne.
        pose proof (Z.div_mod ub 4096). pose proof (Z.div_mod ua 4096). lia.
      * rewrite decide_False; [done|]. tauto.
Qed.

Lemma spaces_install d cap us pds m pd ua p w : spaces_inv d cap us pds m -> pd ∈ pds -> user_page ua -> p ∈ us ->
  exists ok d', pagedir_install_page init_page_dir init_ram_pages pd ua p w d = Ok (ok, d') /\
    if ok : bool then m !! (pd, ua) = None /\ spaces_inv d' cap us pds (<[(pd, ua) := MkPte p w false false]> m) else spaces_inv d' cap us pds m.
Proof.
  intros (ks & S) Hpd [Hu Ha] Hp. pose proof (sp_wf _ _ _ _ _ _ S pd Hpd) as W. pose proof (sp_pages _ _ _ _ _ _ S) as HP.
  destruct (pa_range _ _ _ p HP) as (R1 & R2 & R3); [by apply elem_of_union_r|]. pose proof (pa_top_ok _ _ _ _ HP Hp). pose proof (sp_top _ _ _ _ _ _ S).
  assert (HM : mappable init_ram_pages p) by (split; [lia|]; split; [done|]; apply Z.div_lt_upper_bound; lia).
  pose proof (keeps_install d ks us pd ua p w W Hu) as HK.
  destruct (install_page_ok init_page_dir init_ram_pages ks us pd d ua p w W Hu Ha HM) as [(s' & E & W' & HS & _)|(ks' & s' & e & E & Hz & He & HS & W' & HU & HN & HC & _)].
  - exists false, s'. split; [done|]. exists ks. eapply spaces_pool; [exact S|apply W'|apply HS|by eapply HK|]. intros q _. by rewrite (proj1 HS).
  - exists true, s'. split; [done|]. destruct (new_pte p w) as (e' & He' & _ & Hpr & Had & Hw & _ & H5 & H6); [lia|done|]. rewrite He in He'. injection He' as <-.
    rewrite (translate_zero _ _ _ _ _ _ W Hu) in Hz. split.
    + rewrite (sp_entries _ _ _ _ _ _ S), decide_True by done. unfold decode. by rewrite Hz.
    + exists ks'. eapply spaces_update; try done; [apply HS|by eapply HK| |].
      * rewrite lookup_insert_eq. unfold decode. by rewrite Hpr, Had, Hw, H5, H6.
      * intros k Hk. by apply lookup_insert_ne.
Qed.

Lemma spaces_clear d cap us pds m pd ua : spaces_inv d cap us pds m -> pd ∈ pds -> user_page ua ->
  exists d', pagedir_clear_page init_page_dir pd ua d = Ok (tt, d') /\ spaces_inv d' cap us pds (delete (pd, ua) m).
Proof.
  intros (ks & S) Hpd [Hu Ha]. pose proof (sp_wf _ _ _ _ _ _ S pd Hpd) as W. pose proof (keeps_clear pd ua d) as HK.
  destruct (entry_ok _ _ _ _ _ _ W Hu) as [He _].
  destruct (clear_page_ok _ _ _ _ _ _ W Hu Ha) as (d' & E & W' & HN & HC). exists d'. split; [done|]. exists ks.
  destruct (present (entry d pd ua)) eqn:HP.
  - destruct HC as [_ HU]. eapply spaces_update; try done; [by eapply HK| |].
    + rewrite lookup_delete_eq. unfold decode. by rewrite present_testbit, flagged_testbit by (done || lia).
    + intros k Hk. by apply lookup_delete_ne.
  - subst d'. rewrite delete_id; [done|]. rewrite (sp_entries _ _ _ _ _ _ S), decide_True by done. unfold decode. by rewrite HP.
Qed.

Lemma spaces_flag d cap us pds m pd ua e k : spaces_inv d cap us pds m -> m !! (pd, ua) = Some e -> 0 <= k ->
  is_flag (2 ^ k) pd ua d = Ok (Z.testbit (entry d pd ua) k, d) /\ pte_accessed e = Z.testbit (entry d pd ua) 5 /\ pte_dirty e = Z.testbit (entry d pd ua) 6.
Proof.
  intros (ks & S) Hm Hk. destruct (spaces_entry _ _ _ _ _ _ _ _ _ S Hm) as (_ & [Hu _] & W & He).
  rewrite (is_flag_ok _ _ _ _ _ _ _ W Hu Hk). unfold decode in He. destruct (present _); [|done]. by injection He as <-.
Qed.

Lemma spaces_set_flag d cap us pds m pd ua e k on : spaces_inv d cap us pds m -> m !! (pd, ua) = Some e -> k = 5 \/ k = 6 ->
  exists d', set_flag init_page_dir (2 ^ k) pd ua on d = Ok (tt, d') /\
    spaces_inv d' cap us pds (<[(pd, ua) := if k =? 5 then set_accessed on e else set_dirty on e]> m).
Proof.
  intros (ks & S) Hm Hk. destruct (spaces_entry _ _ _ _ _ _ _ _ _ S Hm) as (Hpd & [Hu Ha] & W & He). pose proof (entry_ok _ _ _ _ _ _ W Hu) as Ho.
  destruct (set_flag_ok init_page_dir ks us pd d k ua on W Hu ltac:(lia)) as (d' & E & W' & HN & _ & HU).
  exists d'. split; [done|]. exists ks. unfold decode in He. destruct (present (entry d pd ua)) eqn:HP; [|done]. injection He as <-.
  destruct HU as [[Hz _]|HU]; [rewrite Hz in HP; done|]. destruct (flagged_ok _ k on Ho ltac:(lia)) as [_ HP'].
  eapply spaces_update; try done; [by eapply (keeps_flag (2 ^ k))| |intros x Hx; by apply lookup_insert_ne].
  rewrite lookup_insert_eq. unfold decode. rewrite HP', HP, flagged_addr by (apply Ho || lia). rewrite !flagged_testbit by (apply Ho || lia).
  by destruct Hk as [-> | ->].
Qed.

(** The entry the processor finds. *)
Definition walk_page (pd ua : Z) : M pds_state (option pte) :=
  let* r := lookup_page pd ua false in
  match r with
  | Some (pt, i) => let* w := read_word pt i in mret (decode w)
  | None => mret None
  end.

Lemma spaces_walk d cap us pds m pd ua : spaces_inv d cap us pds m -> pd ∈ pds -> user_page ua -> walk_page pd ua d = Ok (m !! (pd, ua), d).
Proof.
  intros (ks & S) Hpd [Hu Ha]. pose proof (sp_wf _ _ _ _ _ _ S pd Hpd) as W. rewrite (sp_entries _ _ _ _ _ _ S), decide_True by done.
  destruct (walk_ok _ _ _ _ _ _ W Hu) as (r & HF & HW). unfold walk_page. rewrite (M_bind_Ok _ _ _ _ _ HF).
  destruct r as [[pt i]|]; [|inversion HW as [dir ? ? E|]; by rewrite E]. by rewrite (M_bind_Ok _ _ _ _ _ (walk_read _ _ _ _ _ _ _ _ W HW)).
Qed.

(** ** New page directories *)

Lemma spaces_activate d cap us pds m pd : spaces_inv d cap us pds m -> pd ∈ pds ->
  exists d', pagedir_activate init_page_dir pd d = Ok (tt, d') /\ spaces_inv d' cap us pds m.
Proof.
  intros (ks & S) Hpd. pose proof (sp_wf _ _ _ _ _ _ S pd Hpd) as W. destruct (pd_range _ _ _ _ _ W) as (_ & R1 & R2).
  unfold pagedir_activate, vtop, is_kernel_vaddr, lift, mbind, M_bind, modify. rewrite (proj2 (Z.eqb_neq pd 0)), (proj2 (Z.leb_le _ _)) by (unfold PHYS_BASE in *; lia).
  eexists. split; [reflexivity|]. exists ks. rewrite u32_small by (unfold is_u32, PHYS_BASE in *; lia).
  assert (HC : 0 <= pd - PHYS_BASE < 2 ^ 30) by (unfold PHYS_BASE in *; lia). destruct S as [S1 S2 S3 S4 S5 S6 S7]. split; try done.
  - destruct S4 as (B1 & _ & B2). done.
  - intros pd' Hp'. destruct (S5 pd' Hp'). by split.
Qed.

Lemma create_keeps d cap us pds m : spaces_inv d cap us pds m -> keeps (pagedir_create init_page_dir) d.
Proof.
  intros (ks & S). unfold pagedir_create. apply keeps_bind; [eapply keeps_get; [apply S|done]|]. intros p s1 _. destruct (negb (p =? 0)); [|apply keeps_ret].
  apply keeps_reads; [intros ? ? ?; by intros [= _ <-]|intros t _]. destruct (t !! init_page_dir); [|done]. apply keeps_bind; [apply keeps_tables|]. intros. apply keeps_ret.
Qed.

(** A new directory belongs to nobody yet, and has no user page. *)
Lemma spaces_create d cap us pds m : spaces_inv d cap us pds m ->
  exists pd d', pagedir_create init_page_dir d = Ok (pd, d') /\ if pd =? 0 then spaces_inv d' cap us pds m else pd ∉ pds /\ spaces_inv d' cap us ({[ pd ]} ∪ pds) m.
Proof.
  intros (ks & S). pose proof (sp_pages _ _ _ _ _ _ S) as HP. destruct (sp_base _ _ _ _ _ _ S) as (B1 & B2 & dir & B3 & B4 & B5).
  assert (HK := create_keeps d cap us pds m (ex_intro _ ks S)).
  destruct (directory_create_ok init_page_dir ks us d dir HP B1 B2 B3 B4 B5) as [(d' & E & HX & HS & Hf)|(pd & d' & E & Hn & W & HT & HE)].
  - exists 0, d'. split; [done|]. exists ks. eapply spaces_pool; [exact S|done|apply HS|by eapply HK|]. intros q _. by rewrite (proj1 HS).
  - exists pd, d'. split; [done|]. pose proof (pd_base _ _ _ _ _ W) as Hpos. rewrite (proj2 (Z.eqb_neq pd 0)) by (unfold PHYS_BASE in *; lia).
    assert (Hold : forall q, q ∈ ks -> q <> pd /\ tables d' !! q = tables d !! q).
    { intros q Hq. assert (q <> pd) by (intros ->; set_solver). split; [done|]. rewrite HT. by apply lookup_insert_ne. }
    assert (Hnew : forall q, ~ is_table d' pd q).
    { intros q (dr & i & pde & H1 & H2 & H3 & H4 & _). rewrite HT, lookup_insert_eq in H1. injection H1 as <-. rewrite B5 in H3 by done. congruence. }
    assert (K : forall pd', pd' ∈ pds -> wf (ks ∪ {[ pd ]}) us pd' d' /\ (forall ua, 0 <= ua < PHYS_BASE -> entry d' pd' ua = entry d pd' ua) /\
      (forall q, is_table d' pd' q <-> is_table d pd' q) /\ forall q, is_table d pd' q -> q ∈ ks).
    { intros pd' Hp'. pose proof (sp_wf _ _ _ _ _ _ S pd' Hp') as Wp. assert (Hin : forall q, is_table d pd' q -> q ∈ ks).
      { intros q (dr & i & pde & H1 & H2 & H3 & H4 & <-). apply (w_pde _ _ _ _ _ Wp dr i pde); done. }
      destruct (wf_kept ks (ks ∪ {[ pd ]}) us us pd' d d' Wp) as (K1 & K2 & K3); [apply W|set_solver|apply W| |done].
      intros q [->|Hq]; apply Hold; [apply Wp|by apply Hin]. }
    assert (Hnp : pd ∉ pds). { intros Hp. apply Hn, elem_of_union_l. apply (w_in _ _ _ _ _ (sp_wf _ _ _ _ _ _ S pd Hp)). }
    destruct (HK _ _ E) as (K1 & K2 & _). split; [done|]. exists (ks ∪ {[ pd ]}).
    split; [apply W|rewrite K1; apply S|rewrite K2; apply S| | | |].
    + eapply base_kept; [apply S|set_solver|apply W|]. by apply Hold.
    + intros pd' [->%elem_of_singleton|Hp']%elem_of_union; [done|by apply K].
    + intros p1 p2 q [->%elem_of_singleton|H1]%elem_of_union [->%elem_of_singleton|H2]%elem_of_union Hne Ht; [done|by apply Hnew in Ht| |].
      * split; [apply Hnew|]. apply (K p1 H1) in Ht. apply (proj2 (proj2 (proj2 (K p1 H1)))) in Ht. by apply Hold.
      * apply (K p1 H1) in Ht. rewrite (proj1 (proj2 (proj2 (K p2 H2))) q). by apply (sp_apart _ _ _ _ _ _ S p1 p2 q).
    + intros pd' ua. rewrite (sp_entries _ _ _ _ _ _ S). destruct (decide (pd' = pd)) as [->|Hne].
      * rewrite decide_False by tauto. case_decide as Hd; [|done]. destruct Hd as [_ [Hu _]]. by rewrite HE.
      * destruct (decide (pd' ∈ pds /\ user_page ua)) as [[Hp' Hu]|Hd].
        -- rewrite decide_True by set_solver. by rewrite (proj1 (proj2 (K pd' Hp')) ua (proj1 Hu)).
        -- rewrite decide_False; [done|]. set_solver.
Qed.

(** ** Memory for page tables *)

(** [n] pages of the kernel pool are free. *)
Definition spaces_room (n : nat) (d : pds_state) : Prop := exists ks us, pa_inv (pst d) ks us /\ (size ks + n <= pa_kcap (pst d))%nat.

(** A state that has [us] in use has room by the pages it has in use. *)
Lemma spaces_room_eq d ks us n : pa_inv (pst d) ks us -> spaces_room n d -> (size ks + n <= pa_kcap (pst d))%nat.
Proof. intros HP (ks' & us' & HP' & Hn). by destruct (pa_inj _ _ _ _ _ HP HP') as [-> _]. Qed.

Lemma room_same d d' n : pst d' = pst d -> spaces_room n d -> spaces_room n d'.
Proof. intros E (ks & us & H). exists ks, us. by rewrite E. Qed.

Lemma spaces_install_room d cap us pds m pd ua p w n ok d' : spaces_inv d cap us pds m -> pd ∈ pds -> user_page ua -> p ∈ us -> spaces_room (S n) d ->
  pagedir_install_page init_page_dir init_ram_pages pd ua p w d = Ok (ok, d') -> (m !! (pd, ua) = None -> ok = true) /\ spaces_room n d'.
Proof.
  intros (ks & S) Hpd [Hu Ha] Hp Hr E. pose proof (sp_wf _ _ _ _ _ _ S pd Hpd) as W. pose proof (sp_pages _ _ _ _ _ _ S) as HP.
  pose proof (spaces_room_eq _ _ _ _ HP Hr) as Hn. destruct (keeps_install d ks us pd ua p w W Hu _ _ E) as (_ & _ & HK).
  destruct (install_page_ok init_page_dir init_ram_pages ks us pd d ua p w W Hu Ha) as [(s' & E' & W' & HS & Ho)|(ks' & s' & e & E' & Hz & He & HS & W' & _)].
  - destruct (pa_range _ _ _ p HP) as (R1 & R2 & R3); [by apply elem_of_union_r|]. pose proof (pa_top_ok _ _ _ _ HP Hp). pose proof (sp_top _ _ _ _ _ _ S).
    split; [lia|]. split; [done|]. apply Z.div_lt_upper_bound; lia.
  - rewrite E in E'. injection E' as -> <-. split; [|exists ks, us; split; [apply W'|lia]]. intros Hm. destruct Ho as [[Hz _]|[_ Hf]]; [|lia].
    rewrite (sp_entries _ _ _ _ _ _ S), decide_True in Hm by done. rewrite (translate_zero _ _ _ _ _ _ W Hu) in Hz. unfold decode in Hm. by destruct (present _).
  - rewrite E in E'. injection E' as -> <-. split; [done|]. exists ks', us. split; [apply W'|]. destruct HS as [_ HS]. lia.
Qed.

Lemma spaces_get_room d flags n r d' : has flags PAL_USER = true -> has flags PAL_ASSERT = false -> spaces_room n d -> get_page flags d = Ok (r, d') -> spaces_room n d'.
Proof.
  intros HU HA (ks & us & HP & Hn) E. destruct (keeps_get d ks us flags HP HA _ _ E) as (_ & _ & HK). revert E. unfold get_page.
  destruct (pa_get_ok (pst d) ks us flags 1 HP ltac:(done) HA) as [(x & E & HX)|(p & x & E & _ & _ & _ & HX)]; rewrite E; intros [= _ <-].
  - exists ks, us. split; [done|]. lia.
  - rewrite HU in HX. eexists ks, _. split; [exact HX|]. lia.
Qed.

Lemma spaces_free_room d cap us pds m p n d' : spaces_inv d cap us pds m -> p ∈ us -> spaces_room n d -> free_page p d = Ok (tt, d') -> spaces_room n d'.
Proof.
  intros (ks & S) Hp Hr. pose proof (sp_pages _ _ _ _ _ _ S) as HP. pose proof (spaces_room_eq _ _ _ _ HP Hr) as Hn.
  assert (HS : pages p 1 ⊆ used_of true ks us) by (rewrite pages_one; cbn; set_solver). destruct (pa_free_ok (pst d) ks us true p 1 HP ltac:(done) HS) as (x & E & HX).
  destruct (pa_free_same (pst d) ks us true p 1 x HP eq_refl HS E) as (_ & _ & K3). unfold free_page. rewrite E. intros [= <-]. eexists ks, _. split; [exact HX|]. simpl. lia.
Qed.

(** What only writes page tables takes no page. *)
Definition no_pages {A} (f : M pds_state A) : Prop := forall s r s', f s = Ok (r, s') -> pst s' = pst s.
Lemma no_pages_bind {A C} (f : M pds_state A) (k : A -> M pds_state C) : no_pages f -> (forall a, no_pages (k a)) -> no_pages (let* x := f in k x).
Proof. intros Hf Hk s r s'. unfold mbind, M_bind. destruct (f s) as [[a s1]|] eqn:E; [|done]. intros H%Hk. apply Hf in E. congruence. Qed.
Lemma no_pages_reads {A} (f : M pds_state A) : reads f -> no_pages f.
Proof. by intros H s r s' ->%H. Qed.
Lemma no_pages_write q i w : no_pages (write_word q i w).
Proof. intros s r s'. unfold write_word. repeat case_match; try done. by intros [= _ <-]. Qed.
Lemma no_pages_invalidate pd : no_pages (invalidate_pagedir init_page_dir pd).
Proof.
  unfold invalidate_pagedir. apply no_pages_bind.
  - intros s r s'. unfold active_pd, gets, lift, mbind, M_bind. destruct (ptov (cr3 s)); [|done]. by intros [= _ <-].
  - intros a. destruct (a =? pd); [|by intros s r s' [= _ <-]]. unfold pagedir_activate. apply no_pages_bind; [apply no_pages_reads, reads_lift|].
    intros x s r s'. unfold modify. by intros [= _ <-].
Qed.

Lemma clear_no_pages pd ua : no_pages (pagedir_clear_page init_page_dir pd ua).
Proof.
  unfold pagedir_clear_page. do 2 (apply no_pages_bind; [apply no_pages_reads, reads_assert|intros _]). apply no_pages_bind; [apply no_pages_reads, reads_walk|].
  intros [[q i]|]; [|by intros s r s' [= _ <-]]. apply no_pages_bind; [apply no_pages_reads, reads_word|intros w]. destruct (negb _); [|by intros s r s' [= _ <-]].
  apply no_pages_bind; [apply no_pages_write|]. intros _. apply no_pages_invalidate.
Qed.
Lemma flag_no_pages k pd ua on : no_pages (set_flag init_page_dir k pd ua on).
Proof.
  unfold set_flag. apply no_pages_bind; [apply no_pages_reads, reads_walk|]. intros [[q i]|]; [|by intros s r s' [= _ <-]].
  apply no_pages_bind; [apply no_pages_reads, reads_word|intros w]. destruct on; [apply no_pages_write|]. apply no_pages_bind; [apply no_pages_write|].
  intros _. apply no_pages_invalidate.
Qed.

(** A new directory takes one page. *)
Lemma spaces_create_room d cap us pds m n pd d' : spaces_inv d cap us pds m -> spaces_room (S n) d -> pagedir_create init_page_dir d = Ok (pd, d') ->
  pd <> 0 /\ spaces_room n d'.
Proof.
  intros (ks & S) Hr E. pose proof (sp_pages _ _ _ _ _ _ S) as HP. pose proof (spaces_room_eq _ _ _ _ HP Hr) as Hn.
  destruct (create_keeps d cap us pds m (ex_intro _ ks S) _ _ E) as (_ & _ & HK). destruct (sp_base _ _ _ _ _ _ S) as (B1 & B2 & dir & B3 & B4 & B5).
  destruct (directory_create_ok init_page_dir ks us d dir HP B1 B2 B3 B4 B5) as [(d1 & E1 & _ & _ & Hf)|(pd1 & d1 & E1 & _ & W & _)]; [lia|].
  rewrite E in E1. injection E1 as <- <-. split; [intros ->; pose proof (pd_base _ _ _ _ _ W); unfold PHYS_BASE in *; lia|].
  exists (ks ∪ {[ pd ]}), us. split; [apply W|]. destruct (grown_add ks pd) as [_ HG]. lia.
Qed.

Lemma spaces_activate_room d n pd d' : spaces_room n d -> pagedir_activate init_page_dir pd d = Ok (tt, d') -> spaces_room n d'.
Proof.
  intros Hr E. apply (room_same d); [|done]. unfold pagedir_activate, lift, modify, mbind, M_bind in E. destruct (vtop _); [|done]. by injection E as <-.
Qed.

(** The interface, for a kernel with the base page directory [init_page_dir] and [init_ram_pages] pages of RAM. *)
Program Definition pagedir_AddressSpaces : AddressSpaces pds_state := {|
  as_inv := spaces_inv;
  as_get := get_page;
  as_free := free_page;
  as_install := pagedir_install_page init_page_dir init_ram_pages;
  as_clear := pagedir_clear_page init_page_dir;
  as_is_accessed := pagedir_is_accessed;
  as_is_dirty := pagedir_is_dirty;
  as_set_accessed := pagedir_set_accessed init_page_dir;
  as_set_dirty := pagedir_set_dirty init_page_dir;
  as_walk := walk_page;
  as_pages := spaces_pages;
  as_map := spaces_map;
  as_get_ok := spaces_get;
  as_free_ok := spaces_free;
  as_install_ok := spaces_install;
  as_clear_ok := spaces_clear;
  as_walk_ok := spaces_walk;
  as_room := spaces_room;
  as_install_room := spaces_install_room;
  as_get_room := spaces_get_room;
  as_free_room := spaces_free_room
|}.
Next Obligation. intros d cap us pds m (ks & S). rewrite <- (sp_cap _ _ _ _ _ _ S). eapply pa_cap_ok. apply S. Qed.
Next Obligation. intros d cap us pds m pd ua e S Hm. destruct (spaces_flag _ _ _ _ _ _ _ _ 5 S Hm ltac:(lia)) as (E & -> & _). exact E. Qed.
Next Obligation. intros d cap us pds m pd ua e S Hm. destruct (spaces_flag _ _ _ _ _ _ _ _ 6 S Hm ltac:(lia)) as (E & _ & ->). exact E. Qed.
Next Obligation. intros d cap us pds m pd ua e on S Hm. destruct (spaces_set_flag _ _ _ _ _ _ _ _ 5 on S Hm ltac:(lia)) as (d' & E & S'). by exists d'. Qed.
Next Obligation. intros d cap us pds m pd ua e on S Hm. destruct (spaces_set_flag _ _ _ _ _ _ _ _ 6 on S Hm ltac:(lia)) as (d' & E & S'). by exists d'. Qed.
Next Obligation. intros d n (ks & us & HP & Hn). exists ks, us. split; [exact HP|lia]. Qed.
Next Obligation. intros d pd ua n d' Hr E. eapply room_same; [|exact Hr]. by eapply clear_no_pages. Qed.
Next Obligation. intros d pd ua on n d' Hr E. eapply room_same; [|exact Hr]. by eapply flag_no_pages. Qed.
Next Obligation. intros d pd ua on n d' Hr E. eapply room_same; [|exact Hr]. by eapply flag_no_pages. Qed.

End instance_.

End AddressSpace.
