(* ===== verification/Block.v ===== *)
(** * Block devices and partitions (devices/block.c, devices/partition.c, threads/init.c)

    The table of registered block devices, reads and writes by sector, the scan of a
    partition table, and the choice of the device for each role.  A device is either a raw
    disk, whose driver is a parameter, or a partition of another device.  The theorems: a
    write through one device changes exactly the sector it names, on whichever device
    that sector is visible; a scan of a table of primary partitions registers exactly the
    partitions that fit the disk; a scan of a table with an extended partition does not
    return, because every level reads sector 0 again. *)

From S2P Require Import Prelude Mem.

Module Block.
Import Mem.

Definition BLOCK_SECTOR_SIZE : Z := 512.

Inductive block_type :=
  | BLOCK_KERNEL
  | BLOCK_FILESYS
  | BLOCK_SCRATCH
  | BLOCK_SWAP
  | BLOCK_RAW
  | BLOCK_FOREIGN.

#[export] Instance block_type_eq_dec : EqDecision block_type.
Proof. solve_decision. Defined.

(** The value of the enumerator; [BLOCK_ROLE_CNT] is that of [BLOCK_RAW]. *)
Definition type_index (t : block_type) : Z :=
  match t with
  | BLOCK_KERNEL => 0 | BLOCK_FILESYS => 1 | BLOCK_SCRATCH => 2 | BLOCK_SWAP => 3 | BLOCK_RAW => 4 | BLOCK_FOREIGN => 5
  end.
Definition BLOCK_ROLE_CNT : Z := 4.

(** The content of a sector. *)
Definition is_sector (v : list Z) : Prop := Z.of_nat (length v) = BLOCK_SECTOR_SIZE /\ Forall is_u8 v.

(** A little-endian number. *)
Definition le (l : list Z) : Z := foldr (fun b r => b + 2 ^ 8 * r) 0 l.

(** What the block layer relies on from the driver of a disk (ide_read and ide_write): it is
    an array of sectors. *)
Class RawDisk (D : Type) := {
  raw_repr : D -> list (list Z) -> Prop;
  raw_read : D -> Z -> outcome (list Z * D);
  raw_write : D -> Z -> list Z -> outcome D;
  raw_sectors d ss : raw_repr d ss -> Forall is_sector ss;
  raw_read_ok d ss i v :
    raw_repr d ss -> 0 <= i -> ss !! Z.to_nat i = Some v ->
    exists d', raw_read d i = Ok (v, d') /\ raw_repr d' ss;
  raw_write_ok d ss i v :
    raw_repr d ss -> 0 <= i < Z.of_nat (length ss) -> is_sector v ->
    exists d', raw_write d i v = Ok d' /\ raw_repr d' (<[Z.to_nat i := v]> ss)
}.

Section block.
Context {D : Type} `{!RawDisk D}.

(** ** Data *)

(** A partition: the device it is a part of, and its first sector there. *)
Record partition := Partition { pt_block : Z; pt_start : Z }.

(** The driver operations of a device, with the driver's [aux]. *)
Inductive block_operations :=
  | ide_operations (aux : D)
  | partition_operations (aux : partition).

Record block := MkBlock {
  name : list Z;
  type : block_type;
  bsize : Z;
  ops : block_operations;
  read_cnt : Z;
  write_cnt : Z
}.

(** The device table.  [mallocs] says which of the coming calls of malloc succeed, and [next]
    is the address the next one returns. *)
Record devices := Devices {
  blocks : gmap Z block;
  all_blocks : list Z;
  block_by_role : list (option Z);
  mallocs : list bool;
  next : Z
}.

Definition set_blocks (f : gmap Z block -> gmap Z block) (d : devices) : devices :=
  Devices (f (blocks d)) (all_blocks d) (block_by_role d) (mallocs d) (next d).
Definition get_block (p : Z) : M devices block := fun d =>
  match blocks d !! p with Some b => Ok (b, d) | None => Fail FMemory end.
Definition put_block (p : Z) (b : block) : M devices unit := modify (set_blocks (<[p := b]>)).
Definition set_ops (o : block_operations) (b : block) : block :=
  MkBlock (name b) (type b) (bsize b) o (read_cnt b) (write_cnt b).

Definition malloc : M devices (option Z) := fun d =>
  match mallocs d with
  | true :: r => Ok (Some (next d), Devices (blocks d) (all_blocks d) (block_by_role d) r (next d + 1))
  | _ :: r => Ok (None, Devices (blocks d) (all_blocks d) (block_by_role d) r (next d))
  | [] => Ok (None, d)
  end.

(** A call of the driver of a disk. *)
Definition raw {A} (m : outcome A) : M devices A := fun d => match m with Ok a => Ok (a, d) | Fail e => Fail e end.

(** ** Input and output *)

Definition check_sector (b : block) (sector : Z) : M devices unit :=
  if bsize b <=? sector then fail FPanic else mret tt.

(** Calls through [ops] of a partition lead to another device: [fuel] bounds the number of
    devices on the way. *)
Definition partition_read (block_read : Z -> Z -> M devices (list Z)) (p : partition) (sector : Z) :
  M devices (list Z) := block_read (pt_block p) (u32 (pt_start p + sector)).
Definition partition_write (block_write : Z -> Z -> list Z -> M devices unit) (p : partition) (sector : Z)
  (buffer : list Z) : M devices unit := block_write (pt_block p) (u32 (pt_start p + sector)) buffer.

Definition count_read (b : block) : block :=
  MkBlock (name b) (type b) (bsize b) (ops b) (u64 (read_cnt b + 1)) (write_cnt b).
Definition count_write (b : block) : block :=
  MkBlock (name b) (type b) (bsize b) (ops b) (read_cnt b) (u64 (write_cnt b + 1)).

Fixpoint block_read_f (fuel : nat) (p : Z) (sector : Z) : M devices (list Z) :=
  match fuel with
  | O => fail FFuel
  | S fuel =>
      let* b := get_block p in
      do* check_sector b sector ;
      let* buffer :=
        match ops b with
        | ide_operations aux =>
            let* r : list Z * D := raw (raw_read aux sector) in
            do* put_block p (set_ops (ide_operations r.2) b) ; mret r.1
        | partition_operations aux => partition_read (block_read_f fuel) aux sector
        end in
      let* b := get_block p in
      do* put_block p (count_read b) ;
      mret buffer
  end.

Fixpoint block_write_f (fuel : nat) (p : Z) (sector : Z) (buffer : list Z) : M devices unit :=
  match fuel with
  | O => fail FFuel
  | S fuel =>
      let* b := get_block p in
      do* check_sector b sector ;
      do* ASSERT (negb (bool_decide (type b = BLOCK_FOREIGN))) ;
      do* match ops b with
          | ide_operations aux =>
              let* aux := raw (raw_write aux sector buffer) in
              put_block p (set_ops (ide_operations aux) b)
          | partition_operations aux => partition_write (block_write_f fuel) aux sector buffer
          end ;
      let* b := get_block p in
      put_block p (count_write b)
  end.

(** A partition of a partition would need one more level per nesting; with as many levels
    as devices none is cut short. *)
Definition block_read (p : Z) (sector : Z) : M devices (list Z) := fun d =>
  block_read_f (S (size (blocks d))) p sector d.
Definition block_write (p : Z) (sector : Z) (buffer : list Z) : M devices unit := fun d =>
  block_write_f (S (size (blocks d))) p sector buffer d.

Definition block_size (p : Z) : M devices Z := let* b := get_block p in mret (bsize b).
Definition block_name (p : Z) : M devices (list Z) := let* b := get_block p in mret (name b).
Definition get_block_type (p : Z) : M devices block_type := let* b := get_block p in mret (type b).

(** ** The device table and the roles *)

Definition block_get_role (role : block_type) : M devices (option Z) :=
  do* ASSERT (type_index role <? BLOCK_ROLE_CNT) ;
  let* d := gets (fun d => d) in
  mret (default None (block_by_role d !! Z.to_nat (type_index role))).

Definition block_set_role (role : block_type) (p : Z) : M devices unit :=
  do* ASSERT (type_index role <? BLOCK_ROLE_CNT) ;
  modify (fun d => Devices (blocks d) (all_blocks d) (<[Z.to_nat (type_index role) := Some p]> (block_by_role d))
    (mallocs d) (next d)).

Definition block_first : M devices (option Z) := gets (fun d => head (all_blocks d)).

(** The element after [p] in a list, none at its end. *)
Fixpoint after (p : Z) (l : list Z) : option Z :=
  match l with [] => None | q :: l => if p =? q then head l else after p l end.
Definition block_next (p : Z) : M devices (option Z) := gets (fun d => after p (all_blocks d)).

Fixpoint find_name (nm : list Z) (l : list Z) : M devices (option Z) :=
  match l with
  | [] => mret None
  | p :: l => let* b := get_block p in if bool_decide (nm = name b) then mret (Some p) else find_name nm l
  end.
Definition block_get_by_name (nm : list Z) : M devices (option Z) :=
  let* l := gets all_blocks in find_name nm l.

(** The name is copied by strlcpy into 16 bytes.  What the function prints is left out. *)
Definition block_register (nm : list Z) (t : block_type) (sz : Z) (o : block_operations) : M devices Z :=
  let* p := malloc in
  match p with
  | None => fail FPanic
  | Some p =>
      do* modify (fun d => Devices (<[p := MkBlock (take 15 nm) t sz o 0 0]> (blocks d)) (all_blocks d ++ [p])
            (block_by_role d) (mallocs d) (next d)) ;
      mret p
  end.

(** threads/init.c: the loop over [block_first] and [block_next]. *)
Fixpoint find_type (fuel : nat) (role : block_type) (p : option Z) : M devices (option Z) :=
  match p with
  | None => mret None
  | Some p =>
      match fuel with
      | O => fail FFuel
      | S fuel =>
          let* t := get_block_type p in
          if bool_decide (t = role) then mret (Some p)
          else let* q := block_next p in find_type fuel role q
      end
  end.

Definition locate_block_device (role : block_type) (nm : option (list Z)) : M devices unit :=
  let* p :=
    match nm with
    | Some nm =>
        let* p := block_get_by_name nm in
        match p with None => fail FPanic | Some p => mret (Some p) end
    | None =>
        let* l := gets all_blocks in
        let* p := block_first in
        find_type (length l) role p
    end in
  match p with Some p => block_set_role role p | None => mret tt end.

Definition locate_block_devices (filesys scratch swap : option (list Z)) : M devices unit :=
  do* locate_block_device BLOCK_FILESYS filesys ;
  do* locate_block_device BLOCK_SCRATCH scratch ;
  locate_block_device BLOCK_SWAP swap.

(** ** Partition tables *)

Record partition_table_entry := Entry { pe_type : Z; pe_offset : Z; pe_size : Z }.

Definition pt_field (pt : list Z) (ofs n : nat) : Z := le (take n (drop ofs pt)).
Definition pt_signature (pt : list Z) : Z := pt_field pt 510 2.
Definition pt_entry (pt : list Z) (i : nat) : partition_table_entry :=
  let o := (446 + 16 * i)%nat in Entry (pt_field pt (o + 4) 1) (pt_field pt (o + 8) 4) (pt_field pt (o + 12) 4).
Definition pt_partitions (pt : list Z) : list partition_table_entry := pt_entry pt <$> seq 0 4.

(** [%d] of a number below a million. *)
Definition digits_of (n : Z) : list Z :=
  let ds := (fun k => n / 10 ^ k mod 10) <$> [5; 4; 3; 2; 1; 0] in
  let fix strip l := match l with [] => [] | [d] => [d] | d :: l => if d =? 0 then strip l else d :: l end in
  (fun d => 48 + d) <$> strip ds.

Definition type_of_partition (part_type : Z) : block_type :=
  if part_type =? 0x20 then BLOCK_KERNEL
  else if part_type =? 0x21 then BLOCK_FILESYS
  else if part_type =? 0x22 then BLOCK_SCRATCH
  else if part_type =? 0x23 then BLOCK_SWAP
  else BLOCK_FOREIGN.

Definition found_partition (p part_type start sz part_nr : Z) : M devices unit :=
  let* n := block_size p in
  if n <=? start then mret tt
  else if (u32 (start + sz) <? start) || (n <? u32 (start + sz)) then mret tt
  else
    let* q := malloc in
    match q with
    | None => fail FPanic
    | Some _ =>
        let* nm := block_name p in
        let* _ := block_register (take 15 (nm ++ digits_of part_nr)) (type_of_partition part_type) sz
          (partition_operations (Partition p start)) in
        mret tt
    end.

Definition is_extended (t : Z) : bool := (t =? 0x05) || (t =? 0x0f) || (t =? 0x85) || (t =? 0xc5).
Definition is_empty (e : partition_table_entry) : bool := (pe_size e =? 0) || (pe_type e =? 0).

(** The loop over the entries; [rec] is the call on a nested table. *)
Fixpoint parse_partitions (rec : Z -> Z -> Z -> M devices Z) (p sector primary_extended_sector : Z)
  (es : list partition_table_entry) (part_nr : Z) : M devices Z :=
  match es with
  | [] => mret part_nr
  | e :: es =>
      if is_empty e then parse_partitions rec p sector primary_extended_sector es part_nr
      else if is_extended (pe_type e) then
        let* part_nr :=
          if sector =? 0 then rec (pe_offset e) (pe_offset e) part_nr
          else rec (u32 (pe_offset e + primary_extended_sector)) primary_extended_sector part_nr in
        parse_partitions rec p sector primary_extended_sector es part_nr
      else
        do* found_partition p (pe_type e) (u32 (pe_offset e + sector)) (pe_size e) (part_nr + 1) ;
        parse_partitions rec p sector primary_extended_sector es (part_nr + 1)
  end.

(** The sector read is sector 0, whatever [sector] is. *)
Fixpoint read_partition_table (fuel : nat) (p sector primary_extended_sector part_nr : Z) : M devices Z :=
  match fuel with
  | O => fail FFuel
  | S fuel =>
      let* n := block_size p in
      if n <=? sector then mret part_nr
      else
        let* q := malloc in
        match q with
        | None => fail FPanic
        | Some _ =>
            let* pt := block_read p 0 in
            if negb (pt_signature pt =? 0xaa55) then mret part_nr
            else parse_partitions (read_partition_table fuel p) p sector primary_extended_sector (pt_partitions pt) part_nr
        end
  end.

Definition partition_scan (fuel : nat) (p : Z) : M devices Z := read_partition_table fuel p 0 0 0.

(** ** Which sector of which disk a device's sector is *)

(** A device without its counters and its driver's state. *)
Definition shape (b : block) : list Z * block_type * Z * option partition :=
  (name b, type b, bsize b, match ops b with ide_operations _ => None | partition_operations p => Some p end).
Definition shapes (d : devices) := shape <$> blocks d.

Definition locate (d : devices) (p i : Z) : option (Z * Z) :=
  match shapes d !! p with
  | Some (_, _, n, w) =>
      if decide (0 <= i < n) then Some (match w with None => (p, i) | Some w => (pt_block w, pt_start w + i) end)
      else None
  | None => None
  end.

(** The sectors of the disks. *)
Notation disks := (gmap Z (list (list Z))) (only parsing).
Definition sector_at (rs : disks) (l : Z * Z) : option (list Z) := rs !! l.1 ≫= (.!! Z.to_nat l.2).
Definition write_at (rs : disks) (l : Z * Z) (v : list Z) : disks := alter <[Z.to_nat l.2 := v]> l.1 rs.

(** The device table is in order: a disk's size is that of its array of sectors, a partition
    lies within a disk, and no device is at an address malloc has yet to return. *)
Record wf (d : devices) (rs : disks) : Prop := {
  wf_block p b : blocks d !! p = Some b ->
    0 <= bsize b < 2 ^ 32 /\
    match ops b with
    | ide_operations a => exists ss, rs !! p = Some ss /\ raw_repr a ss /\ bsize b = Z.of_nat (length ss)
    | partition_operations w => exists q a, blocks d !! pt_block w = Some q /\ ops q = ide_operations a /\
        0 <= pt_start w /\ pt_start w + bsize b <= bsize q
    end;
  wf_fresh p : next d <= p -> blocks d !! p = None
}.

(** Nothing but counters and drivers' states has changed. *)
Definition same_devices (d d' : devices) : Prop :=
  shapes d' = shapes d /\ all_blocks d' = all_blocks d /\ block_by_role d' = block_by_role d /\
  mallocs d' = mallocs d /\ next d' = next d.

Lemma same_devices_trans d1 d2 d3 : same_devices d1 d2 -> same_devices d2 d3 -> same_devices d1 d3.
Proof. unfold same_devices. intuition congruence. Qed.

Lemma same_locate d d' p i : same_devices d d' -> locate d' p i = locate d p i.
Proof. unfold locate. by intros [-> _]. Qed.

(** A device's counters or driver state change. *)
Lemma wf_touch d rs rs' p b b' :
  wf d rs -> blocks d !! p = Some b -> shape b' = shape b -> (forall q, q <> p -> rs' !! q = rs !! q) ->
  match ops b' with ide_operations a => exists ss, rs' !! p = Some ss /\ raw_repr a ss /\ bsize b = Z.of_nat (length ss) | _ => True end ->
  wf (set_blocks <[p := b']> d) rs' /\ same_devices d (set_blocks <[p := b']> d).
Proof.
  intros [W F] Hb Hs Hr Ha. split; [split|].
  - intros q c. cbn [set_blocks blocks]. intros Hc. apply lookup_insert_Some in Hc as [[<- <-]|[Hn Hc]].
    + destruct (W p b Hb) as [Hz Ho]. injection Hs as _ _ E3 E4. rewrite E3. split; [done|].
      destruct (ops b') as [a|w], (ops b) as [a0|w0] eqn:Eb; try done. injection E4 as ->.
      destruct Ho as (q & a & Hq & Hqa & Hl). exists q, a.
      rewrite lookup_insert_ne; [done|]. intros ->. rewrite Hq in Hb. by injection Hb as ->; rewrite Hqa in Eb.
    + destruct (W q c Hc) as [Hz Ho]. split; [done|]. destruct (ops c) as [a|w]; [rewrite Hr by done; done|].
      destruct Ho as (qb & a & Hq & Hqa & Hl). destruct (decide (p = pt_block w)) as [->|Hn'].
      * rewrite Hq in Hb. injection Hb as ->. injection Hs as _ _ E3 E4. exists b'.
        rewrite lookup_insert_eq, E3. rewrite Hqa in E4. destruct (ops b') as [a'|]; [|done]. by exists a'.
      * exists qb, a. by rewrite lookup_insert_ne.
  - intros q Hq. cbn [set_blocks blocks next]. cbn in Hq. rewrite lookup_insert_ne; [by apply F|].
    intros <-. by rewrite (F p Hq) in Hb.
  - unfold same_devices, shapes. cbn [set_blocks blocks]. rewrite fmap_insert, Hs.
    split; [|done]. apply insert_id. by rewrite lookup_fmap, Hb.
Qed.

Lemma wf_content d rs p i l :
  wf d rs -> locate d p i = Some l -> exists v, sector_at rs l = Some v /\ is_sector v /\ 0 <= l.2.
Proof.
  intros [W _]. unfold locate, shapes. rewrite lookup_fmap. destruct (blocks d !! p) as [b|] eqn:Hb; [|done]. cbn.
  case_decide as Hi; [|done]. destruct (W p b Hb) as [Hz Ho]. intros [= <-].
  assert (R : forall q c a j, blocks d !! q = Some c -> ops c = ide_operations a -> 0 <= j < bsize c ->
    exists v, sector_at rs (q, j) = Some v /\ is_sector v).
  { intros q c a j Hq Ha Hj. destruct (W q c Hq) as [_ Hc]. rewrite Ha in Hc. destruct Hc as (ss & Hs & Hr & Hl).
    destruct (lookup_lt_is_Some_2 ss (Z.to_nat j)) as [v Hv]; [lia|]. exists v. unfold sector_at. cbn. rewrite Hs.
    split; [done|]. by eapply Forall_lookup_1; [eapply raw_sectors|]. }
  destruct (ops b) as [a|w] eqn:Eb.
  - destruct (R p b a i) as (v & ? & ?); [done..|]. exists v. cbn. auto with lia.
  - destruct Ho as (q & a & Hq & Ha & Hl). destruct (R (pt_block w) q a (pt_start w + i)) as (v & ? & ?); [done|done|lia|].
    exists v. cbn. auto with lia.
Qed.

(** Reading a sector of a disk. *)
Lemma read_disk n d rs p b a i :
  wf d rs -> blocks d !! p = Some b -> ops b = ide_operations a -> 0 <= i < bsize b ->
  exists v d', block_read_f (S n) p i d = Ok (v, d') /\ sector_at rs (p, i) = Some v /\ wf d' rs /\ same_devices d d'.
Proof.
  intros W Hb Ha Hi. destruct (wf_block _ _ W p b Hb) as [Hz Ho]. rewrite Ha in Ho. destruct Ho as (ss & Hs & Hr & Hl).
  destruct (lookup_lt_is_Some_2 ss (Z.to_nat i)) as [v Hv]; [lia|].
  destruct (raw_read_ok a ss i v) as (a' & Er & Hr'); [done|lia|done|].
  cbn [block_read_f]. unfold get_block, check_sector, put_block, raw, mbind, M_bind. rewrite Hb. cbn beta iota.
  rewrite (proj2 (Z.leb_gt _ _)), Ha, Er by lia. cbn [mret M_ret modify fst snd set_blocks blocks].
  rewrite lookup_insert_eq. eexists v, _. split; [reflexivity|]. split; [unfold sector_at; cbn; by rewrite Hs|].
  destruct (wf_touch d rs rs p b (count_read (set_ops (ide_operations a') b))) as [W' S']; [done|done| |done| |].
  { unfold shape. cbn. by rewrite Ha. }
  { cbn. by exists ss. }
  unfold set_blocks in *. cbn [blocks all_blocks block_by_role mallocs next] in *. rewrite insert_insert_eq. done.
Qed.

(** Writing one. *)
Lemma write_disk n d rs p b a i v :
  wf d rs -> blocks d !! p = Some b -> ops b = ide_operations a -> type b <> BLOCK_FOREIGN -> 0 <= i < bsize b -> is_sector v ->
  exists d', block_write_f (S n) p i v d = Ok (tt, d') /\ wf d' (write_at rs (p, i) v) /\ same_devices d d'.
Proof.
  intros W Hb Ha Ht Hi Hv. destruct (wf_block _ _ W p b Hb) as [Hz Ho]. rewrite Ha in Ho. destruct Ho as (ss & Hs & Hr & Hl).
  destruct (raw_write_ok a ss i v) as (a' & Er & Hr'); [done|lia|done|].
  cbn [block_write_f]. unfold get_block, check_sector, put_block, raw, mbind, M_bind. rewrite Hb. cbn beta iota.
  rewrite (proj2 (Z.leb_gt _ _)), bool_decide_eq_false_2, Ha, Er by (done || lia).
  cbn [mret M_ret modify fst snd set_blocks blocks negb ASSERT]. rewrite lookup_insert_eq. eexists. split; [reflexivity|].
  destruct (wf_touch d rs (write_at rs (p, i) v) p b (count_write (set_ops (ide_operations a') b))) as [W' S']; [done|done| | | |].
  { unfold shape. cbn. by rewrite Ha. }
  { intros q Hq. unfold write_at. cbn [fst]. by rewrite lookup_alter_ne. }
  { cbn. exists (<[Z.to_nat i := v]> ss). unfold write_at. cbn [fst snd]. rewrite lookup_alter_eq, Hs, length_insert. done. }
  unfold set_blocks in *. cbn [blocks all_blocks block_by_role mallocs next] in *. rewrite insert_insert_eq. done.
Qed.

(** The device an access through [p] ends at. *)
Lemma wf_cases d rs p i l :
  wf d rs -> locate d p i = Some l ->
  exists b, blocks d !! p = Some b /\ 0 <= i < bsize b /\
    ((exists a, ops b = ide_operations a /\ l = (p, i)) \/
     (exists w q a, ops b = partition_operations w /\ blocks d !! pt_block w = Some q /\ ops q = ide_operations a /\
        p <> pt_block w /\ u32 (pt_start w + i) = pt_start w + i /\ 0 <= pt_start w + i < bsize q /\
        l = (pt_block w, pt_start w + i))).
Proof.
  intros W. unfold locate, shapes. rewrite lookup_fmap. destruct (blocks d !! p) as [b|] eqn:Hb; [|done]. cbn.
  case_decide as Hi; [|done]. destruct (wf_block _ _ W p b Hb) as [Hz Ho]. intros [= <-]. exists b. split_and!; [done|lia|lia|].
  destruct (ops b) as [a|w] eqn:Eb; [left; by exists a|]. right. destruct Ho as (q & a & Hq & Ha & Hl).
  destruct (wf_block _ _ W _ q Hq) as [Hz' _]. exists w, q, a. split_and!; try done; try lia.
  - intros ->. rewrite Hq in Hb. injection Hb as ->. by rewrite Ha in Eb.
  - apply u32_small. unfold is_u32. lia.
Qed.

Lemma two_blocks d p q (b c : block) : blocks d !! p = Some b -> blocks d !! q = Some c -> p <> q -> exists n, size (blocks d) = S n.
Proof.
  intros Hb _ _. destruct (size (blocks d)) eqn:E; [|eauto]. apply map_size_empty_inv in E. by rewrite E, lookup_empty in Hb.
Qed.

Lemma same_block d d' p b : same_devices d d' -> blocks d !! p = Some b -> exists b', blocks d' !! p = Some b' /\ shape b' = shape b.
Proof.
  intros [E _] Hb. assert (H : shapes d' !! p = Some (shape b)) by (rewrite E; unfold shapes; by rewrite lookup_fmap, Hb).
  unfold shapes in H. rewrite lookup_fmap in H. destruct (blocks d' !! p) as [b'|]; [|done]. exists b'. split; [done|].
  exact (inj Some _ _ H).
Qed.

Lemma block_read_ok d rs p i l :
  wf d rs -> locate d p i = Some l ->
  exists v d', block_read p i d = Ok (v, d') /\ sector_at rs l = Some v /\ wf d' rs /\ same_devices d d'.
Proof.
  intros W L. destruct (wf_cases d rs p i l W L) as (b & Hb & Hi & C). unfold block_read.
  destruct C as [(a & Ha & ->)|(w & q & a & Hw & Hq & Ha & Hn & Hu & Hj & ->)]; [by eapply read_disk|].
  destruct (two_blocks d p (pt_block w) b q) as [n ->]; [done..|].
  destruct (read_disk n d rs (pt_block w) q a (pt_start w + i)) as (v & d' & E & Hv & W' & S'); [done..|].
  destruct (same_block d d' p b S' Hb) as (b' & Hb' & Es).
  cbn [block_read_f]. rewrite (M_bind_Ok _ _ d b d) by (unfold get_block; by rewrite Hb).
  rewrite (M_bind_Ok _ _ d tt d) by (unfold check_sector; by rewrite (proj2 (Z.leb_gt _ _)) by lia).
  rewrite Hw. unfold partition_read. rewrite Hu, (M_bind_Ok _ _ d v d' E).
  rewrite (M_bind_Ok _ _ d' b' d') by (unfold get_block; by rewrite Hb').
  destruct (wf_touch d' rs rs p b' (count_read b')) as [W2 S2]; [done|done|done|done| |].
  { cbn. unfold shape in Es. rewrite Hw in Es. by destruct (ops b'). }
  eexists v, _. split; [reflexivity|]. split_and!; [done|done|]. by eapply same_devices_trans.
Qed.

(** The types of the devices a write goes through. *)
Definition writable (d : devices) (p : Z) (l : Z * Z) : Prop :=
  (forall b, blocks d !! p = Some b -> type b <> BLOCK_FOREIGN) /\ (forall b, blocks d !! l.1 = Some b -> type b <> BLOCK_FOREIGN).

Lemma block_write_ok d rs p i l v :
  wf d rs -> locate d p i = Some l -> writable d p l -> is_sector v ->
  exists d', block_write p i v d = Ok (tt, d') /\ wf d' (write_at rs l v) /\ same_devices d d'.
Proof.
  intros W L [T1 T2] Hv. destruct (wf_cases d rs p i l W L) as (b & Hb & Hi & C). unfold block_write.
  destruct C as [(a & Ha & ->)|(w & q & a & Hw & Hq & Ha & Hn & Hu & Hj & ->)].
  { eapply write_disk; try done. by apply T1. }
  destruct (two_blocks d p (pt_block w) b q) as [n ->]; [done..|].
  destruct (write_disk n d rs (pt_block w) q a (pt_start w + i) v) as (d' & E & W' & S'); [done..|by apply T2|done|done|].
  destruct (same_block d d' p b S' Hb) as (b' & Hb' & Es).
  cbn [block_write_f]. rewrite (M_bind_Ok _ _ d b d) by (unfold get_block; by rewrite Hb).
  rewrite (M_bind_Ok _ _ d tt d) by (unfold check_sector; by rewrite (proj2 (Z.leb_gt _ _)) by lia).
  rewrite (M_bind_Ok _ _ d tt d) by (rewrite bool_decide_eq_false_2; [done|by apply T1]).
  rewrite Hw. unfold partition_write. rewrite Hu, (M_bind_Ok _ _ d tt d' E).
  rewrite (M_bind_Ok _ _ d' b' d') by (unfold get_block; by rewrite Hb').
  destruct (wf_touch d' (write_at rs (pt_block w, pt_start w + i) v) (write_at rs (pt_block w, pt_start w + i) v) p b' (count_write b')) as [W2 S2];
    [done|done|done|done| |].
  { cbn. unfold shape in Es. rewrite Hw in Es. by destruct (ops b'). }
  eexists. split; [reflexivity|]. split; [done|]. by eapply same_devices_trans.
Qed.

(** ** The counters of accesses *)

Definition counters (d : devices) (q : Z) : option (Z * Z) := (fun b => (read_cnt b, write_cnt b)) <$> blocks d !! q.
Definition one_read_more (c : Z * Z) : Z * Z := (u64 (c.1 + 1), c.2).
Definition one_write_more (c : Z * Z) : Z * Z := (c.1, u64 (c.2 + 1)).
(** The device an access goes through and the disk it ends at have counted it, and no other device. *)
Definition counted (f : Z * Z -> Z * Z) (p : Z) (l : Z * Z) (d d' : devices) : Prop :=
  forall q, counters d' q = (if decide (q = p \/ q = l.1) then f else id) <$> counters d q.

Lemma counters_put d p b b' f : blocks d !! p = Some b -> (read_cnt b', write_cnt b') = f (read_cnt b, write_cnt b) ->
  forall q, counters (set_blocks <[p := b']> d) q = (if decide (q = p) then f else id) <$> counters d q.
Proof.
  intros Hb Hf q. unfold counters. cbn [set_blocks blocks]. case_decide as Hq; [subst q; rewrite lookup_insert_eq, Hb; cbn; by rewrite Hf|].
  rewrite lookup_insert_ne by done. by rewrite option_fmap_id.
Qed.
Lemma read_disk_counts n d p b a i v d' : blocks d !! p = Some b -> ops b = ide_operations a -> i < bsize b -> block_read_f (S n) p i d = Ok (v, d') ->
  forall q, counters d' q = (if decide (q = p) then one_read_more else id) <$> counters d q.
Proof.
  intros Hb Ha Hi. cbn [block_read_f]. unfold get_block, check_sector, put_block, raw, mbind, M_bind. rewrite Hb. cbn beta iota.
  rewrite (proj2 (Z.leb_gt _ _)), Ha by lia. destruct (raw_read a i) as [[v' a']|]; [|done]. cbn [mret M_ret modify fst snd set_blocks blocks].
  rewrite lookup_insert_eq. intros [= _ <-]. unfold set_blocks. cbn [blocks all_blocks block_by_role mallocs next]. rewrite insert_insert_eq.
  by apply (counters_put d p b).
Qed.
Lemma write_disk_counts n d p b a i v d' : blocks d !! p = Some b -> ops b = ide_operations a -> i < bsize b -> block_write_f (S n) p i v d = Ok (tt, d') ->
  forall q, counters d' q = (if decide (q = p) then one_write_more else id) <$> counters d q.
Proof.
  intros Hb Ha Hi. cbn [block_write_f]. unfold get_block, check_sector, put_block, raw, mbind, M_bind. rewrite Hb. cbn beta iota.
  rewrite (proj2 (Z.leb_gt _ _)), Ha by lia. cbn [mret M_ret]. destruct (bool_decide _); [done|]. cbn [negb ASSERT mret M_ret].
  destruct (raw_write a i v) as [a'|]; [|done]. cbn [mret M_ret modify fst snd set_blocks blocks].
  rewrite lookup_insert_eq. intros [= <-]. unfold set_blocks. cbn [blocks all_blocks block_by_role mallocs next]. rewrite insert_insert_eq.
  by apply (counters_put d p b).
Qed.

(** A partition counts after its disk has. *)
Lemma counted_through f p r k d d1 d2 : p <> r -> (forall q, counters d1 q = (if decide (q = r) then f else id) <$> counters d q) ->
  (forall q, counters d2 q = (if decide (q = p) then f else id) <$> counters d1 q) -> counted f p (r, k) d d2.
Proof.
  intros Hn H1 H2 q. rewrite H2, H1. cbn [fst]. destruct (counters d q) as [c|]; [|done]. cbn. f_equal. repeat case_decide; try done; naive_solver.
Qed.

Lemma block_read_counts d rs p i l v d' : wf d rs -> locate d p i = Some l -> block_read p i d = Ok (v, d') -> counted one_read_more p l d d'.
Proof.
  intros W L. destruct (wf_cases d rs p i l W L) as (b & Hb & Hi & C). unfold block_read.
  destruct C as [(a & Ha & ->)|(w & q & a & Hw & Hq & Ha & Hn & Hu & Hj & ->)].
  { intros E r. rewrite (read_disk_counts _ d p b a i v d' Hb Ha) by (done || lia). cbn [fst]. repeat case_decide; naive_solver. }
  destruct (two_blocks d p (pt_block w) b q) as [n ->]; [done..|].
  destruct (read_disk n d rs (pt_block w) q a (pt_start w + i)) as (v1 & d1 & E & Hv & W' & S'); [done..|].
  destruct (same_block d d1 p b S' Hb) as (b' & Hb' & Es).
  cbn [block_read_f]. rewrite (M_bind_Ok _ _ d b d) by (unfold get_block; by rewrite Hb).
  rewrite (M_bind_Ok _ _ d tt d) by (unfold check_sector; by rewrite (proj2 (Z.leb_gt _ _)) by lia).
  rewrite Hw. unfold partition_read. rewrite Hu, (M_bind_Ok _ _ d v1 d1 E).
  rewrite (M_bind_Ok _ _ d1 b' d1) by (unfold get_block; by rewrite Hb'). intros [= _ <-].
  eapply counted_through; [done|by eapply (read_disk_counts n d _ q a); try done; lia|]. by apply (counters_put d1 p b').
Qed.
Lemma block_write_counts d rs p i l v d' : wf d rs -> locate d p i = Some l -> writable d p l -> is_sector v -> block_write p i v d = Ok (tt, d') ->
  counted one_write_more p l d d'.
Proof.
  intros W L [T1 T2] Hv. destruct (wf_cases d rs p i l W L) as (b & Hb & Hi & C). unfold block_write.
  destruct C as [(a & Ha & ->)|(w & q & a & Hw & Hq & Ha & Hn & Hu & Hj & ->)].
  { intros E r. rewrite (write_disk_counts _ d p b a i v d' Hb Ha) by (done || lia). cbn [fst]. repeat case_decide; naive_solver. }
  destruct (two_blocks d p (pt_block w) b q) as [n ->]; [done..|].
  destruct (write_disk n d rs (pt_block w) q a (pt_start w + i) v) as (d1 & E & W' & S'); [done..|by apply T2|done|done|].
  destruct (same_block d d1 p b S' Hb) as (b' & Hb' & Es).
  cbn [block_write_f]. rewrite (M_bind_Ok _ _ d b d) by (unfold get_block; by rewrite Hb).
  rewrite (M_bind_Ok _ _ d tt d) by (unfold check_sector; by rewrite (proj2 (Z.leb_gt _ _)) by lia).
  rewrite (M_bind_Ok _ _ d tt d) by (rewrite bool_decide_eq_false_2; [done|by apply T1]).
  rewrite Hw. unfold partition_write. rewrite Hu, (M_bind_Ok _ _ d tt d1 E).
  rewrite (M_bind_Ok _ _ d1 b' d1) by (unfold get_block; by rewrite Hb'). intros [= <-].
  eapply counted_through; [done|by eapply (write_disk_counts n d _ q a); try done; lia|]. by apply (counters_put d1 p b').
Qed.

Lemma write_at_lookup rs l v l' old :
  sector_at rs l' = Some old -> is_Some (sector_at rs l) -> 0 <= l.2 -> 0 <= l'.2 ->
  sector_at (write_at rs l v) l' = Some (if decide (l' = l) then v else old).
Proof.
  destruct l as [r k], l' as [r' k']. unfold sector_at, write_at. cbn [fst snd]. intros Ho [x Hx] P P'.
  destruct (decide (r' = r)) as [->|Hr]; [|rewrite lookup_alter_ne, decide_False by congruence; done].
  rewrite lookup_alter_eq. destruct (rs !! r) as [ss|]; [|done]. cbn in *.
  destruct (decide (k' = k)) as [->|Hk].
  - rewrite decide_True by done. by rewrite list_lookup_insert_eq by (by eapply lookup_lt_Some).
  - rewrite decide_False by congruence. by rewrite list_lookup_insert_ne by lia.
Qed.

(** An access past the end of a device. *)
Lemma block_past_end d p b k :
  blocks d !! p = Some b -> bsize b <= k -> block_read p k d = Fail FPanic /\ forall v, block_write p k v d = Fail FPanic.
Proof.
  intros Hb Hk. unfold block_read, block_write. cbn [block_read_f block_write_f]. split; [|intros v];
    rewrite (M_bind_Ok _ _ d b d) by (unfold get_block; by rewrite Hb); unfold check_sector; by rewrite (proj2 (Z.leb_le _ _)) by lia.
Qed.

(** ** Scanning a partition table *)

Lemma le_bound l : Forall is_u8 l -> 0 <= le l < 2 ^ (8 * Z.of_nat (length l)).
Proof.
  induction 1 as [|x l Hx _ IH]; [done|]. cbn [le foldr length] in *. fold (le l).
  replace (8 * Z.of_nat (S (length l))) with (8 + 8 * Z.of_nat (length l)) by lia. rewrite Z.pow_add_r by lia.
  unfold is_u8 in Hx. nia.
Qed.

Lemma pt_field_bound pt o n : is_sector pt -> 0 <= pt_field pt o n < 2 ^ (8 * Z.of_nat n).
Proof.
  intros [_ F]. unfold pt_field. pose proof (le_bound (take n (drop o pt))) as H.
  assert (L : Z.of_nat (length (take n (drop o pt))) <= Z.of_nat n) by (rewrite length_take; lia).
  assert (2 ^ (8 * Z.of_nat (length (take n (drop o pt)))) <= 2 ^ (8 * Z.of_nat n)) by (apply Z.pow_le_mono_r; lia).
  destruct H; [by apply Forall_take, Forall_drop|lia].
Qed.

Definition entry_ok (e : partition_table_entry) : Prop := is_u32 (pe_offset e) /\ is_u32 (pe_size e).

Lemma entries_ok pt : is_sector pt -> Forall entry_ok (pt_partitions pt).
Proof.
  intros H. apply Forall_fmap, Forall_forall. intros i _. split; apply (pt_field_bound pt _ 4 H).
Qed.

(** The part of the disk from [start], [sz] sectors long, lies within its [n] sectors. *)
Definition fits (n start sz : Z) : bool := (start <? n) && (start + sz <=? n).

Lemma fits_test n start sz :
  0 <= n < 2 ^ 32 -> is_u32 start -> is_u32 sz ->
  (if n <=? start then false else negb ((u32 (start + sz) <? start) || (n <? u32 (start + sz)))) = fits n start sz.
Proof.
  intros Hn Hs Hz. unfold fits. int_unfold. destruct (Z.leb_spec n start), (Z.ltb_spec start n); try lia; cbn [andb]; try done.
  destruct (Z.lt_ge_cases (start + sz) 4294967296).
  - rewrite Z.mod_small by lia. destruct (Z.ltb_spec (start + sz) start); [lia|]. cbn [orb].
    destruct (Z.ltb_spec n (start + sz)), (Z.leb_spec (start + sz) n); lia || done.
  - replace ((start + sz) mod 4294967296) with (start + sz - 4294967296) by (apply Z.mod_unique with 1; lia).
    destruct (Z.ltb_spec (start + sz - 4294967296) start); [|lia]. cbn [orb negb]. destruct (Z.leb_spec (start + sz) n); lia || done.
Qed.

(** The device [found_partition] registers. *)
Definition partition_block (p : Z) (nm : list Z) (part_type start sz part_nr : Z) : block :=
  MkBlock (take 15 (nm ++ digits_of part_nr)) (type_of_partition part_type) sz (partition_operations (Partition p start)) 0 0.
Definition add_block (p : Z) (c : block) (d : devices) : devices :=
  Devices (<[p := c]> (blocks d)) (all_blocks d ++ [p]) (block_by_role d) (drop 2 (mallocs d)) (p + 1).

Lemma found_partition_eq p b d part_type start sz part_nr :
  blocks d !! p = Some b -> 0 <= bsize b < 2 ^ 32 -> is_u32 start -> is_u32 sz ->
  found_partition p part_type start sz part_nr d =
    (if fits (bsize b) start sz then
       match mallocs d with
       | true :: true :: _ => Ok (tt, add_block (next d + 1) (partition_block p (name b) part_type start sz part_nr) d)
       | _ => Fail FPanic
       end
     else Ok (tt, d)).
Proof.
  intros Hb Hn Hs Hz. rewrite <- fits_test by done. unfold found_partition, block_size, block_name.
  assert (G : forall d, blocks d !! p = Some b -> get_block p d = Ok (b, d)) by (intros d0 H0; unfold get_block; by rewrite H0).
  rewrite (M_bind_Ok _ _ d (bsize b) d) by (unfold mbind, M_bind; by rewrite (G d Hb)).
  destruct (bsize b <=? start); [done|].
  destruct ((u32 (start + sz) <? start) || (bsize b <? u32 (start + sz))); [done|]. cbn [negb].
  clear G. unfold malloc, get_block, block_register, malloc, mbind, M_bind, mret, M_ret, modify.
  destruct (mallocs d) as [|[] [|[] r]] eqn:Em; cbn; rewrite ?Hb; cbn; try done.
  unfold add_block, partition_block. rewrite Em. cbn. rewrite take_take, Nat.min_id. done.
Qed.

Lemma wf_add d rs p b a c q :
  wf d rs -> blocks d !! p = Some b -> ops b = ide_operations a -> next d <= q -> 0 <= bsize c < 2 ^ 32 ->
  (exists start, ops c = partition_operations (Partition p start) /\ 0 <= start /\ start + bsize c <= bsize b) ->
  wf (add_block q c d) rs /\ shapes (add_block q c d) = <[q := shape c]> (shapes d) /\ shapes d ⊆ shapes (add_block q c d).
Proof.
  intros [W F] Hb Ha Hq Hz (st & Hc & Hst). assert (E : shapes (add_block q c d) = <[q := shape c]> (shapes d)).
  { unfold shapes, add_block. cbn [blocks]. apply fmap_insert. }
  split_and!; [split|done|].
  - intros r b0. cbn [add_block blocks]. intros Hr. apply lookup_insert_Some in Hr as [[<- <-]|[Hn Hr]].
    + split; [done|]. rewrite Hc. exists b, a. rewrite lookup_insert_ne; [done|]. cbn. intros ->. by rewrite (F p Hq) in Hb.
    + destruct (W r b0 Hr) as [Hz' Ho]. split; [done|]. destruct (ops b0) as [|w]; [done|].
      destruct Ho as (qb & a' & Hqb & Ho). exists qb, a'. rewrite lookup_insert_ne; [done|]. intros Eq. by rewrite <- Eq, (F q Hq) in Hqb.
  - intros r. cbn [add_block blocks next]. intros Hr. rewrite lookup_insert_ne by lia. apply F. lia.
  - rewrite E. apply insert_subseteq. unfold shapes. by rewrite lookup_fmap, (F q Hq).
Qed.

(** What is kept by everything a scan does: the device table stays in order, and every
    device in it stays. *)
Definition kept (rs : disks) (d d' : devices) : Prop := wf d' rs /\ shapes d ⊆ shapes d'.

Lemma kept_block rs d d' p b : kept rs d d' -> blocks d !! p = Some b -> exists b', blocks d' !! p = Some b' /\ shape b' = shape b.
Proof.
  intros [_ S] Hb. assert (H : shapes d' !! p = Some (shape b)).
  { eapply lookup_weaken; [|done]. unfold shapes. by rewrite lookup_fmap, Hb. }
  unfold shapes in H. rewrite lookup_fmap in H. destruct (blocks d' !! p) as [b'|]; [|done]. exists b'. split; [done|].
  exact (inj Some _ _ H).
Qed.

(** The disk [p] of [n] sectors, whose sector 0 is [pt]. *)
Definition disk_with (d : devices) (rs : disks) (p n : Z) (pt : list Z) : Prop :=
  wf d rs /\ sector_at rs (p, 0) = Some pt /\ 0 < n /\
  exists b a, blocks d !! p = Some b /\ ops b = ide_operations a /\ bsize b = n.

Lemma disk_kept d d' rs p n pt : disk_with d rs p n pt -> kept rs d d' -> disk_with d' rs p n pt.
Proof.
  intros (W & Hs & Hn & b & a & Hb & Ha & Hz) K. destruct (kept_block _ _ _ _ _ K Hb) as (b' & Hb' & E).
  split_and!; [apply K|done|done|]. injection E as E1 E2 E3 E4. rewrite Ha in E4. destruct (ops b') as [a'|] eqn:Ho; [|done].
  exists b', a'. split_and!; [done|done|congruence].
Qed.

Lemma malloc_case d rs :
  wf d rs -> exists r d', malloc d = Ok (r, d') /\ kept rs d d' /\
    (r = None \/ r = Some (next d)) /\ mallocs d' = tail (mallocs d) /\ (head (mallocs d) = Some true -> r = Some (next d)) /\
    blocks d' = blocks d /\ all_blocks d' = all_blocks d.
Proof.
  intros W. assert (K : forall m n, next d <= n -> kept rs d (Devices (blocks d) (all_blocks d) (block_by_role d) m n)).
  { intros m n Hn. split; [|done]. destruct W as [W F]. split; [exact W|]. intros p. cbn. intros. apply F. lia. }
  unfold malloc. destruct (mallocs d) as [|[] r] eqn:E; cbn [head tail].
  - exists None, d. split_and!; auto; done.
  - eexists (Some _), _. split; [done|]. split; [apply K; lia|]. auto 10.
  - eexists None, _. split; [done|]. split; [apply K; lia|]. cbn. split_and!; auto; done.
Qed.

Lemma kept_refl rs d : wf d rs -> kept rs d d.
Proof. done. Qed.
Lemma dev_kept_trans rs d1 d2 d3 : kept rs d1 d2 -> kept rs d2 d3 -> kept rs d1 d3.
Proof. intros [_ S1] [W2 S2]. split; [done|]. by transitivity (shapes d2). Qed.

Lemma disk_sector d rs p n pt : disk_with d rs p n pt -> is_sector pt /\ n < 2 ^ 32.
Proof.
  intros (W & Hs & Hn & b & a & Hb & Ha & Hz). destruct (wf_block _ _ W p b Hb) as [Hl _]. split; [|lia].
  destruct (wf_content d rs p 0 (p, 0)) as (v & E & H & _); [done| |congruence].
  unfold locate, shapes. rewrite lookup_fmap, Hb. cbn. rewrite Ha, decide_True by lia. done.
Qed.

Lemma disk_size d rs p n pt : disk_with d rs p n pt -> block_size p d = Ok (n, d).
Proof.
  intros (_ & _ & _ & b & a & Hb & _ & Hz). unfold block_size, get_block, mbind, M_bind. rewrite Hb. cbn. by rewrite Hz.
Qed.

Lemma disk_read d rs p n pt :
  disk_with d rs p n pt -> exists d', block_read p 0 d = Ok (pt, d') /\ kept rs d d' /\ same_devices d d'.
Proof.
  intros (W & Hs & Hn & b & a & Hb & Ha & Hz).
  destruct (block_read_ok d rs p 0 (p, 0)) as (v & d' & E & Hv & W' & S'); [done| |].
  { unfold locate, shapes. rewrite lookup_fmap, Hb. cbn. rewrite Ha, decide_True by lia. done. }
  exists d'. assert (v = pt) by congruence. subst v. split_and!; [done|split; [done|]|done]. by rewrite (proj1 S').
Qed.

Lemma found_kept d rs p n pt t start sz nr :
  disk_with d rs p n pt -> is_u32 start -> is_u32 sz ->
  (exists d', found_partition p t start sz nr d = Ok (tt, d') /\ kept rs d d') \/ found_partition p t start sz nr d = Fail FPanic.
Proof.
  intros HD Hs Hz. pose proof (disk_sector _ _ _ _ _ HD) as [_ Hn2]. destruct HD as (W & _ & Hn & b & a & Hb & Ha & <-).
  rewrite (found_partition_eq p b) by (done || lia).
  destruct (fits (bsize b) start sz) eqn:Hf; [|left; eexists; split; [done|by apply kept_refl]].
  unfold fits in Hf. apply andb_true_iff in Hf as [_ Hf]. apply Z.leb_le in Hf.
  destruct (mallocs d) as [|[] [|[] r]]; auto. left. eexists. split; [done|].
  destruct (wf_add d rs p b a (partition_block p (name b) t start sz nr) (next d + 1)) as (W' & _ & S'); [done|done|done|lia|done| |done].
  exists start. cbn. unfold is_u32 in Hs. split_and!; [done|lia|done].
Qed.

(** A scan that returns has kept the device table. *)
Lemma parse_kept rec p n pt rs sector prim es k d r d' :
  (forall d s q k r d', disk_with d rs p n pt -> rec s q k d = Ok (r, d') -> kept rs d d') ->
  Forall entry_ok es -> disk_with d rs p n pt ->
  parse_partitions rec p sector prim es k d = Ok (r, d') -> kept rs d d'.
Proof.
  intros HR HF. revert k d. induction HF as [|e es [He1 He2] _ IH]; intros k d HD; cbn [parse_partitions].
  { intros [= _ <-]. apply kept_refl, HD. }
  destruct (is_empty e); [by apply IH|]. destruct (is_extended (pe_type e)).
  - intros (k1 & d1 & E1 & E2)%M_bind_inv.
    assert (K : kept rs d d1) by (destruct (sector =? 0); by eapply HR).
    eapply dev_kept_trans; [done|]. eapply IH; [by eapply disk_kept|done].
  - intros ([] & d1 & E1 & E2)%M_bind_inv.
    destruct (found_kept d rs p n pt (pe_type e) (u32 (pe_offset e + sector)) (pe_size e) (k + 1) HD) as [(d2 & E & K)|E];
      [apply u32_range|done| |congruence].
    rewrite E in E1. injection E1 as <-. eapply dev_kept_trans; [done|]. eapply IH; [by eapply disk_kept|done].
Qed.

(** One level of the scan, up to the loop over the entries. *)
Lemma table_step fuel p n pt rs sector prim k d r d' :
  disk_with d rs p n pt -> read_partition_table (S fuel) p sector prim k d = Ok (r, d') ->
  (n <= sector /\ r = k /\ d' = d) \/
  exists d1, kept rs d d1 /\
    (if negb (pt_signature pt =? 0xaa55) then Ok (k, d1)
     else parse_partitions (read_partition_table fuel p) p sector prim (pt_partitions pt) k d1) = Ok (r, d').
Proof.
  intros HD. cbn [read_partition_table]. rewrite (M_bind_Ok _ _ d n d) by (by eapply disk_size).
  destruct (Z.leb_spec n sector); [intros [= <- <-]; auto|]. intros H1. right.
  destruct (malloc_case d rs) as (q & d1 & E1 & K1 & Hq & _); [apply HD|]. rewrite (M_bind_Ok _ _ d q d1 E1) in H1.
  destruct Hq as [->| ->]; [done|].
  destruct (disk_read d1 rs p n pt) as (d2 & E2 & K2 & _); [by eapply disk_kept|]. rewrite (M_bind_Ok _ _ d1 pt d2 E2) in H1.
  exists d2. split; [by eapply dev_kept_trans|]. by destruct (negb (pt_signature pt =? 0xaa55)).
Qed.

Lemma table_kept fuel p n pt rs d s q k r d' :
  disk_with d rs p n pt -> read_partition_table fuel p s q k d = Ok (r, d') -> kept rs d d'.
Proof.
  revert d s q k r d'. induction fuel as [|fuel IH]; intros d s q k r d' HD H; [done|].
  destruct (table_step _ _ _ _ _ _ _ _ _ _ _ HD H) as [(_ & _ & ->)|(d1 & K & E)]; [apply kept_refl, HD|].
  destruct (negb (pt_signature pt =? 0xaa55)); [by injection E as _ <-|]. eapply dev_kept_trans; [done|].
  eapply parse_kept; [|apply entries_ok; by eapply disk_sector|by eapply disk_kept|exact E]. exact IH.
Qed.

(** A table with an entry on whose nested table the scan does not return. *)
Lemma parse_stuck rec p n pt rs sector prim es e k d x :
  (forall d s q k r d', disk_with d rs p n pt -> rec s q k d = Ok (r, d') -> kept rs d d') ->
  (forall d k x, disk_with d rs p n pt ->
     (if sector =? 0 then rec (pe_offset e) (pe_offset e) k else rec (u32 (pe_offset e + prim)) prim k) d <> Ok x) ->
  Forall entry_ok es -> disk_with d rs p n pt -> e ∈ es -> is_empty e = false -> is_extended (pe_type e) = true ->
  parse_partitions rec p sector prim es k d <> Ok x.
Proof.
  intros HR HS HF HD Hin He Hx. revert k d HD. induction HF as [|e' es [He1 He2] _ IH]; intros k d HD; [by apply elem_of_nil in Hin|].
  cbn [parse_partitions]. apply elem_of_cons in Hin as [<-|Hin].
  { rewrite He, Hx. intros (k1 & d1 & E1 & _)%M_bind_inv. by apply (HS d k (k1, d1)). }
  destruct (is_empty e'); [by apply IH|]. destruct (is_extended (pe_type e')).
  - intros (k1 & d1 & E1 & E2)%M_bind_inv.
    assert (K : kept rs d d1) by (destruct (sector =? 0); by eapply HR). revert E2. apply IH; [done|by eapply disk_kept].
  - intros ([] & d1 & E1 & E2)%M_bind_inv.
    destruct (found_kept d rs p n pt (pe_type e') (u32 (pe_offset e' + sector)) (pe_size e') (k + 1) HD) as [(d2 & E & K)|E];
      [apply u32_range|done| |congruence].
    rewrite E in E1. injection E1 as <-. revert E2. apply IH; [done|by eapply disk_kept].
Qed.

Lemma table_stuck fuel p n pt rs e :
  pt_signature pt = 0xaa55 -> e ∈ pt_partitions pt -> is_empty e = false -> is_extended (pe_type e) = true ->
  pe_offset e < n -> u32 (pe_offset e + pe_offset e) < n ->
  forall sector prim d k x, sector < n -> (sector = 0 \/ prim = pe_offset e) -> disk_with d rs p n pt ->
  read_partition_table fuel p sector prim k d <> Ok x.
Proof.
  intros Hs Hin He Hx Ho1 Ho2. induction fuel as [|fuel IH]; intros sector prim d k [r d'] Hn HC HD H; [done|].
  destruct (table_step _ _ _ _ _ _ _ _ _ _ _ HD H) as [(? & _)|(d1 & K & E)]; [lia|]. rewrite Hs, Z.eqb_refl in E. cbn [negb] in E.
  revert E. eapply (parse_stuck _ p n pt rs sector prim _ e); try done; [by apply table_kept| | |].
  - intros d2 k2 x2 HD2. destruct (Z.eqb_spec sector 0); [by apply IH; auto|].
    destruct HC as [HC| ->]; [done|]. by apply IH; auto.
  - apply entries_ok. by eapply disk_sector.
  - by eapply disk_kept.
Qed.

(** ** How a scan ends *)

(** The allocations of a scan [fuel] levels deep, at most: a table, and two per partition. *)
Fixpoint scan_need (fuel : nat) : nat :=
  match fuel with O => O | S fuel => (1 + 4 * (scan_need fuel + 2))%nat end.

(** A run that may take [c] allocations, and goes [depth] levels deep if nothing stops it: it returns, it
    lacks one of the allocations, or the levels are used up, each of which has taken an allocation. *)
Definition ends (rs : disks) (c depth : nat) (d : devices) (x : outcome (Z * devices)) : Prop :=
  (exists r d' j, x = Ok (r, d') /\ kept rs d d' /\ (j <= c)%nat /\ mallocs d' = drop j (mallocs d)) \/
  (x = Fail FPanic /\ ~ replicate c true `prefix_of` mallocs d) \/
  (x = Fail FFuel /\ (depth <= length (mallocs d))%nat).

Lemma ends_after rs c c' depth d d1 j x : kept rs d d1 -> mallocs d1 = drop j (mallocs d) -> (j + c <= c')%nat -> ends rs c depth d1 x -> ends rs c' depth d x.
Proof.
  intros K Hj Hc [(r & d' & j' & -> & K' & Hl & Hm)|[[-> H]|[-> H]]].
  - left. exists r, d', (j + j')%nat. split; [done|]. split; [by eapply dev_kept_trans|]. split; [lia|]. by rewrite Hm, Hj, drop_drop.
  - right; left. split; [done|]. intros Hp. apply H. rewrite Hj. by eapply replicate_prefix_drop.
  - right; right. split; [done|]. rewrite Hj, length_drop in H. lia.
Qed.

Lemma found_ends d rs p n pt t start sz nr : disk_with d rs p n pt -> is_u32 start -> is_u32 sz ->
  (exists d' j, found_partition p t start sz nr d = Ok (tt, d') /\ kept rs d d' /\ (j <= 2)%nat /\ mallocs d' = drop j (mallocs d)) \/
  (found_partition p t start sz nr d = Fail FPanic /\ ~ replicate 2 true `prefix_of` mallocs d).
Proof.
  intros HD Hs Hz. pose proof (disk_sector _ _ _ _ _ HD) as [_ Hn2]. pose proof HD as (W & _ & Hn & b & a & Hb & Ha & Eb).
  pose proof (found_partition_eq p b d t start sz nr Hb ltac:(lia) Hs Hz) as E. destruct (found_kept d rs p n pt t start sz nr HD Hs Hz) as [(d' & E' & K)|E'].
  - left. exists d'. rewrite E' in E |- *. destruct (fits (bsize b) start sz); [|injection E as ->; exists 0%nat; split_and!; (done || lia)].
    exists 2%nat. split; [done|]. split; [done|]. split; [lia|]. destruct (mallocs d) as [|[] [|[] r]] eqn:Em; try done. injection E as ->. simpl. by rewrite Em.
  - right. split; [done|]. rewrite E' in E. destruct (fits (bsize b) start sz); [|done]. intros [r Er]. by rewrite Er in E.
Qed.

Lemma parse_ends rec p n pt rs c depth sector prim es : (forall d s q k, disk_with d rs p n pt -> ends rs c depth d (rec s q k d)) -> Forall entry_ok es ->
  forall k d, disk_with d rs p n pt -> ends rs (length es * (c + 2)) depth d (parse_partitions rec p sector prim es k d).
Proof.
  intros HR HF. induction HF as [|e es [He1 He2] _ IH]; intros k d HD; cbn [parse_partitions length].
  { left. exists k, d, 0%nat. split_and!; [done|apply kept_refl, HD|lia|done]. }
  destruct (is_empty e); [eapply (ends_after _ _ _ _ d d 0); [apply kept_refl, HD|done| |by apply IH]; lia|]. destruct (is_extended (pe_type e)).
  - assert (HE : ends rs c depth d ((if sector =? 0 then rec (pe_offset e) (pe_offset e) k else rec (u32 (pe_offset e + prim)) prim k) d)) by (destruct (sector =? 0); by apply HR).
    destruct HE as [(r & d1 & j & E & K & Hj & Hm)|[[E H]|[E H]]].
    + rewrite (M_bind_Ok _ _ _ _ _ E). eapply (ends_after _ _ _ _ d d1 j); [done|done| |apply IH; by eapply disk_kept]. lia.
    + right; left. split; [by rewrite (M_bind_Fail _ _ _ _ E)|]. intros Hp. apply H. rewrite <- (drop_0 (mallocs d)). eapply replicate_prefix_drop; [|done]. lia.
    + right; right. by rewrite (M_bind_Fail _ _ _ _ E).
  - destruct (found_ends d rs p n pt (pe_type e) (u32 (pe_offset e + sector)) (pe_size e) (k + 1) HD) as [(d1 & j & E & K & Hj & Hm)|[E H]]; [apply u32_range|done| |].
    + rewrite (M_bind_Ok _ _ _ _ _ E). eapply (ends_after _ _ _ _ d d1 j); [done|done| |apply IH; by eapply disk_kept]. lia.
    + right; left. split; [by rewrite (M_bind_Fail _ _ _ _ E)|]. intros Hp. apply H. rewrite <- (drop_0 (mallocs d)). eapply replicate_prefix_drop; [|done]. lia.
Qed.

Lemma table_ends fuel p n pt rs : forall d s q k, disk_with d rs p n pt -> ends rs (scan_need fuel) fuel d (read_partition_table fuel p s q k d).
Proof.
  induction fuel as [|fuel IH]; intros d s q k HD; cbn [read_partition_table scan_need]; [right; right; split; [done|lia]|].
  rewrite (M_bind_Ok _ _ d n d) by (by eapply disk_size). destruct (Z.leb_spec n s).
  { left. exists k, d, 0%nat. split_and!; [done|apply kept_refl, HD|lia|done]. }
  destruct (malloc_case d rs) as (r & d1 & E1 & K1 & Hr & Hm & Hh & _); [apply HD|]. rewrite (M_bind_Ok _ _ d r d1 E1). destruct Hr as [->| ->].
  { right; left. split; [done|]. intros [l El]. rewrite El in Hh. by specialize (Hh eq_refl). }
  destruct (disk_read d1 rs p n pt) as (d2 & E2 & K2 & S2); [by eapply disk_kept|]. rewrite (M_bind_Ok _ _ d1 pt d2 E2).
  assert (K : kept rs d d2) by by eapply dev_kept_trans. assert (HD2 : disk_with d2 rs p n pt) by by eapply disk_kept.
  assert (Hm2 : mallocs d2 = drop 1 (mallocs d)) by (destruct S2 as (_ & _ & _ & -> & _); rewrite Hm; by destruct (mallocs d)).
  destruct (negb (pt_signature pt =? 0xaa55)); [left; exists k, d2, 1%nat; split_and!; (done || lia)|].
  destruct (parse_ends (read_partition_table fuel p) p n pt rs (scan_need fuel) fuel s q (pt_partitions pt)) with (k := k) (d := d2) as [HE|[HE|[E HE]]];
    [done|apply entries_ok; by eapply disk_sector|done| | |].
  - eapply (ends_after _ _ _ _ d d2 1); [done|done| |left; exact HE]. cbn. lia.
  - eapply (ends_after _ _ _ _ d d2 1); [done|done| |right; left; exact HE]. cbn. lia.
  - right; right. split; [done|]. rewrite Hm2, length_drop in HE. unfold malloc in E1. destruct (mallocs d); [done|simpl in *; lia].
Qed.

(** The partitions a table of primary partitions describes, on the disk [p] of [n] sectors
    called [nm]: the entries in use, numbered from [k], less those that do not fit. *)
Fixpoint primary_partitions (p n : Z) (nm : list Z) (es : list partition_table_entry) (k : Z) :=
  match es with
  | [] => []
  | e :: es =>
      if is_empty e then primary_partitions p n nm es k
      else
        let rest := primary_partitions p n nm es (k + 1) in
        if fits n (pe_offset e) (pe_size e)
        then shape (partition_block p nm (pe_type e) (pe_offset e) (pe_size e) (k + 1)) :: rest else rest
  end.
Definition in_use (es : list partition_table_entry) : list partition_table_entry := filter (fun e => is_empty e = false) es.

Lemma parse_primary rec rs p n pt nm w t es k d m rest :
  Forall entry_ok es -> Forall (fun e => is_empty e = false -> is_extended (pe_type e) = false) es ->
  disk_with d rs p n pt -> shapes d !! p = Some (nm, t, n, w) ->
  mallocs d = replicate m true ++ rest -> (2 * length es <= m)%nat ->
  exists new d', parse_partitions rec p 0 0 es k d = Ok (k + Z.of_nat (length (in_use es)), d') /\ kept rs d d' /\
    all_blocks d' = all_blocks d ++ new /\ ((fun q => shapes d' !! q) <$> new) = Some <$> primary_partitions p n nm es k.
Proof.
  intros HF. revert k d m. induction HF as [|e es [He1 He2] _ IH]; intros k d m HX HD Hp Hm Hl; cbn [parse_partitions primary_partitions].
  { exists [], d. rewrite app_nil_r. split_and!; [by rewrite Z.add_0_r|apply kept_refl, HD|done|done]. }
  apply Forall_cons in HX as [Hx HX]. cbn [length] in Hl. unfold in_use. destruct (is_empty e) eqn:Ee.
  { rewrite filter_cons_False by congruence. apply (IH k d m); (done || lia). }
  rewrite filter_cons_True, (Hx eq_refl) by done. cbn [length]. fold (in_use es).
  replace (k + Z.of_nat (S (length (in_use es)))) with (k + 1 + Z.of_nat (length (in_use es))) by lia.
  rewrite Z.add_0_r, u32_small by done. pose proof (disk_sector _ _ _ _ _ HD) as [_ Hn2].
  pose proof HD as (W & _ & Hn & b & a & Hb & Ha & Hz).
  assert (Hnm : name b = nm) by (unfold shapes in Hp; rewrite lookup_fmap, Hb in Hp; by injection Hp).
  assert (HFd := found_partition_eq p b d (pe_type e) (pe_offset e) (pe_size e) (k + 1) Hb ltac:(lia) He1 He2).
  rewrite Hz in HFd. destruct (fits n (pe_offset e) (pe_size e)) eqn:Hf.
  - destruct m as [|[|m]]; [lia|lia|]. cbn [replicate app] in Hm. rewrite Hm in HFd. rewrite (M_bind_Ok _ _ _ _ _ HFd).
    apply andb_true_iff in Hf as [_ Hf]. apply Z.leb_le in Hf. rewrite Hnm in *. set (c := partition_block _ _ _ _ _ _) in *.
    destruct (wf_add d rs p b a c (next d + 1)) as (W' & Es & S'); [done|done|done|lia|done|exists (pe_offset e); cbn; unfold is_u32 in He1; split_and!; [done|lia|lia]|].
    set (d1 := add_block (next d + 1) c d) in *. assert (K : kept rs d d1) by done.
    destruct (IH (k + 1) d1 m) as (new & d' & E & K' & A & B); [done|by eapply disk_kept|by eapply lookup_weaken| |lia|].
    { cbn. rewrite Hm. cbn. by rewrite drop_0. }
    exists ((next d + 1) :: new), d'. split_and!; [done|by eapply dev_kept_trans|by rewrite A; cbn; rewrite <- app_assoc|].
    cbn [fmap list_fmap]. f_equal; [|exact B]. eapply lookup_weaken; [|apply K']. by rewrite Es, lookup_insert_eq.
  - rewrite (M_bind_Ok _ _ _ _ _ HFd). destruct (IH (k + 1) d m) as (new & d' & H); [done..|lia|]. by exists new, d'.
Qed.

(** The loop of [locate_block_device]: the first device of the type, in probe order. *)
Lemma find_type_ok d role l1 l2 fuel :
  all_blocks d = l1 ++ l2 -> NoDup (all_blocks d) -> Forall (fun p => is_Some (blocks d !! p)) (all_blocks d) ->
  (length l2 <= fuel)%nat ->
  find_type fuel role (head l2) d =
    Ok (head (filter (fun p => type <$> blocks d !! p = Some role) l2), d).
Proof.
  intros Ha ND HF. revert l1 fuel Ha. induction l2 as [|p l2 IH]; intros l1 fuel Ha Hl; [by destruct fuel|].
  destruct fuel as [|fuel]; cbn [length] in Hl; [lia|]. cbn [head find_type].
  assert (Hp : is_Some (blocks d !! p)) by (eapply Forall_forall in HF; [done|rewrite Ha; set_solver]). destruct Hp as [b Hb].
  rewrite (M_bind_Ok _ _ d (type b) d) by (unfold get_block_type, get_block, mbind, M_bind; by rewrite Hb).
  case_bool_decide as Ht; [by rewrite filter_cons_True by (rewrite Hb; cbn; congruence)|].
  rewrite filter_cons_False by (rewrite Hb; cbn; congruence).
  rewrite (M_bind_Ok _ _ d (head l2) d); [apply (IH (l1 ++ [p])); [by rewrite <- app_assoc|lia]|].
  unfold block_next, gets. do 2 f_equal. rewrite Ha in ND |- *. clear -ND. induction l1 as [|q l1 IH]; cbn [app after].
  - by rewrite Z.eqb_refl.
  - cbn [app] in ND. apply NoDup_cons in ND as [Hq ND]. destruct (Z.eqb_spec p q) as [->|]; [|by apply IH].
    exfalso. apply Hq, elem_of_app. right. left.
Qed.

Lemma locate_block_device_ok d role :
  type_index role < BLOCK_ROLE_CNT -> NoDup (all_blocks d) -> Forall (fun p => is_Some (blocks d !! p)) (all_blocks d) ->
  locate_block_device role None d =
    match head (filter (fun p => type <$> blocks d !! p = Some role) (all_blocks d)) with
    | Some p => block_set_role role p d
    | None => Ok (tt, d)
    end.
Proof.
  intros Hr ND HF. unfold locate_block_device. unfold mbind at 1, M_bind at 1.
  rewrite (M_bind_Ok _ _ d (all_blocks d) d), (M_bind_Ok _ _ d (head (all_blocks d)) d) by done.
  rewrite (find_type_ok d role [] (all_blocks d)) by done. by destruct (head _).
Qed.

(** C28: A write through a device changes exactly the disk sector the device's sector is, as
    seen through every device, its own disk and the other partitions of it included: a
    later read of that sector, through whichever device, gives what was written, and a read
    of any other sector gives what was there.  The write is counted by the device and by the
    disk it ends at, and so is the read, and by no other device.  An access past the end of a
    device stops the kernel.  Neither the device nor its disk may be of a foreign type, which
    block_write asserts. *)
Theorem block_io_correct d rs p i l v q j l' old :
  wf d rs -> locate d p i = Some l -> writable d p l -> is_sector v ->
  locate d q j = Some l' -> sector_at rs l' = Some old ->
  (exists d1 d2, block_write p i v d = Ok (tt, d1) /\
    block_read q j d1 = Ok (if decide (l' = l) then v else old, d2) /\
    wf d2 (write_at rs l v) /\ same_devices d d2 /\
    counted one_write_more p l d d1 /\ counted one_read_more q l' d1 d2) /\
  (forall b k, blocks d !! p = Some b -> bsize b <= k ->
    block_read p k d = Fail FPanic /\ block_write p k v d = Fail FPanic).
Proof.
  intros W L T Hv L' Ho. split.
  - destruct (block_write_ok d rs p i l v) as (d1 & E1 & W1 & S1); [done..|].
    destruct (block_read_ok d1 (write_at rs l v) q j l') as (v' & d2 & E2 & Hv' & W2 & S2); [done|by rewrite (same_locate d d1)|].
    exists d1, d2. split; [done|]. split; cycle 1.
    { split; [done|]. split; [by eapply same_devices_trans|]. split; [by eapply block_write_counts|]. eapply block_read_counts; [done|by rewrite (same_locate d d1)|done]. }
    rewrite E2. do 2 f_equal. destruct (wf_content d rs q j l' W L') as (_ & _ & _ & P'), (wf_content d rs p i l W L) as (x & Hx & _ & P).
    rewrite (write_at_lookup rs l v l' old) in Hv' by done. congruence.
  - intros b k Hb Hk. destruct (block_past_end d p b k Hb Hk). auto.
Qed.

(** A scan of a table without extended partitions, with enough memory, registers exactly
    the partitions of the table that fit the disk, in table order, each under the disk's name
    with its number, with the type and the size of its entry and starting at its offset; every
    device there was is kept, and each new one lies within the disk. *)
Theorem partition_scan_correct d rs p n pt nm w t m rest fuel :
  disk_with d rs p n pt -> shapes d !! p = Some (nm, t, n, w) -> pt_signature pt = 0xaa55 ->
  Forall (fun e => is_empty e = false -> is_extended (pe_type e) = false) (pt_partitions pt) ->
  mallocs d = replicate m true ++ rest -> (9 <= m)%nat ->
  exists new d', partition_scan (S fuel) p d = Ok (Z.of_nat (length (in_use (pt_partitions pt))), d') /\
    wf d' rs /\ shapes d ⊆ shapes d' /\ all_blocks d' = all_blocks d ++ new /\
    ((fun q => shapes d' !! q) <$> new) = Some <$> primary_partitions p n nm (pt_partitions pt) 0.
Proof.
  intros HD Hp Hs HX Hm Hl. pose proof HD as (W & _ & Hn & _). unfold partition_scan. cbn [read_partition_table].
  rewrite (M_bind_Ok _ _ d n d) by (by eapply disk_size). rewrite (proj2 (Z.leb_gt _ _)) by lia.
  destruct (malloc_case d rs W) as (r & d1 & E1 & K1 & _ & M1 & Hr & B1 & A1). destruct m as [|m]; [lia|].
  rewrite (M_bind_Ok _ _ _ _ _ E1), Hr by (by rewrite Hm).
  destruct (disk_read d1 rs p n pt) as (d2 & E2 & K2 & S2); [by eapply disk_kept|]. rewrite (M_bind_Ok _ _ _ _ _ E2), Hs.
  cbn [negb Z.eqb Pos.eqb]. pose proof (dev_kept_trans _ _ _ _ K1 K2) as K.
  destruct (parse_primary (read_partition_table fuel p) rs p n pt nm w t (pt_partitions pt) 0 d2 m rest) as (new & d' & E & K' & A & B);
    [by apply entries_ok; eapply disk_sector|done|by eapply disk_kept|by eapply lookup_weaken; [|apply K]| |cbn; lia|].
  { destruct S2 as (_ & _ & _ & -> & _). by rewrite M1, Hm. }
  exists new, d'. rewrite E. split_and!; [done|apply K'|by eapply dev_kept_trans|by rewrite A, (proj1 (proj2 S2)), A1|done].
Qed.

(** C29: A scan of a table with an extended partition does not return.  Every level of the
    recursion reads sector 0 instead of the sector of the nested table, finds the same entry
    again, and goes one level deeper: with memory for the tables and partitions of any number
    of levels, it is not done after that many; and it ends in the panic of an allocation that
    fails, once memory has run out.  This holds when the entry's offset, and twice the offset,
    are sectors of the disk.  (The kernel's stack, which may be used up before, is not modelled.) *)
Theorem partition_scan_extended d rs p n pt e fuel :
  disk_with d rs p n pt -> pt_signature pt = 0xaa55 ->
  e ∈ pt_partitions pt -> is_empty e = false -> is_extended (pe_type e) = true ->
  pe_offset e < n -> u32 (pe_offset e + pe_offset e) < n ->
  (replicate (scan_need fuel) true `prefix_of` mallocs d -> partition_scan fuel p d = Fail FFuel) /\
  ((length (mallocs d) < fuel)%nat -> partition_scan fuel p d = Fail FPanic).
Proof.
  intros HD Hs Hin He Hx H1 H2. unfold partition_scan.
  assert (HN : forall r, read_partition_table fuel p 0 0 0 d <> Ok r) by (intros r; apply (table_stuck fuel p n pt rs e); try done; [apply HD|auto]).
  destruct (table_ends fuel p n pt rs d 0 0 0 HD) as [(r & d' & j & E & _)|[[E H]|[E H]]]; [by destruct (HN (r, d'))|by split|]. split; [done|]. intros ?. lia.
Qed.

End block.

(** ** The interface of one device

    What a client of one device (the file system, the swap table) relies on: it is an array
    of sectors, and an access past its end stops the kernel. *)
Class BlockDevice (B : Type) := {
  dev_repr : B -> list (list Z) -> Prop;
  dev_size : B -> Z;
  dev_read : B -> Z -> outcome (list Z * B);
  dev_write : B -> Z -> list Z -> outcome B;
  dev_sectors b ss : dev_repr b ss -> Forall is_sector ss;
  dev_size_ok b ss : dev_repr b ss -> dev_size b = Z.of_nat (length ss) /\ dev_size b < 2 ^ 32;
  dev_read_ok b ss i v :
    dev_repr b ss -> 0 <= i -> ss !! Z.to_nat i = Some v -> exists b', dev_read b i = Ok (v, b') /\ dev_repr b' ss;
  dev_write_ok b ss i v :
    dev_repr b ss -> 0 <= i < Z.of_nat (length ss) -> is_sector v ->
    exists b', dev_write b i v = Ok b' /\ dev_repr b' (<[Z.to_nat i := v]> ss);
  dev_past_end b ss i :
    dev_repr b ss -> Z.of_nat (length ss) <= i -> dev_read b i = Fail FPanic /\ forall v, dev_write b i v = Fail FPanic
}.

Section device.
Context {D : Type} `{!RawDisk D}.

(** The device at an address of the device table. *)
Record one_device := OneDevice { od_block : Z; od_devices : devices (D := D) }.

Definition one_repr (o : one_device) (ss : list (list Z)) : Prop :=
  exists rs b, wf (od_devices o) rs /\ blocks (od_devices o) !! od_block o = Some b /\ bsize b = Z.of_nat (length ss) /\
    forall i l, locate (od_devices o) (od_block o) i = Some l -> writable (od_devices o) (od_block o) l /\ sector_at rs l = ss !! Z.to_nat i.

Definition one_read (o : one_device) (i : Z) : outcome (list Z * one_device) :=
  match block_read (od_block o) i (od_devices o) with Ok (v, d) => Ok (v, OneDevice (od_block o) d) | Fail e => Fail e end.
Definition one_write (o : one_device) (i : Z) (v : list Z) : outcome one_device :=
  match block_write (od_block o) i v (od_devices o) with Ok (_, d) => Ok (OneDevice (od_block o) d) | Fail e => Fail e end.
Definition one_size (o : one_device) : Z :=
  match block_size (od_block o) (od_devices o) with Ok (n, _) => n | Fail _ => 0 end.

Lemma located d rs p (b : block) i : wf (D := D) d rs -> blocks d !! p = Some b -> 0 <= i < bsize b -> is_Some (locate d p i).
Proof. intros _ Hb Hi. unfold locate, shapes. rewrite lookup_fmap, Hb. cbn. rewrite decide_True by done. by eexists. Qed.

Lemma same_writable (d d' : devices (D := D)) p l : same_devices d d' -> writable d p l -> writable d' p l.
Proof.
  intros S [T1 T2]. assert (S' : same_devices d' d) by (unfold same_devices in *; intuition congruence).
  split; intros b Hb; destruct (same_block _ _ _ _ S' Hb) as (b' & Hb' & E); injection E as _ <- _ _; eauto.
Qed.

(** Different sectors of a device are different sectors of its disk. *)
Lemma locate_inj d p i j l : locate (D := D) d p i = Some l -> locate d p j = Some l -> i = j.
Proof.
  unfold locate. destruct (shapes d !! p) as [[[[nm t] n] [w|]]|]; [| |done]; intros Hi Hj;
    do 2 (case_decide; [|done]); simplify_eq; lia.
Qed.

#[export] Program Instance one_device_BlockDevice : BlockDevice one_device := {
  dev_repr := one_repr; dev_size := one_size; dev_read := one_read; dev_write := one_write
}.
Next Obligation.
  intros [p d] ss (rs & b & W & Hb & Hn & HL). cbn in *. apply Forall_lookup. intros i v Hv. pose proof (lookup_lt_Some _ _ _ Hv).
  destruct (located d rs p b (Z.of_nat i) W Hb) as [l Hl]; [lia|]. destruct (HL _ _ Hl) as [_ E]. rewrite Nat2Z.id in E.
  destruct (wf_content d rs p _ l W Hl) as (v' & Hv' & ? & _). congruence.
Qed.
Next Obligation.
  intros [p d] ss (rs & b & W & Hb & Hn & _). cbn in *. unfold one_size, block_size, get_block, mbind, M_bind. cbn. rewrite Hb. cbn.
  split; [done|]. apply (wf_block _ _ W p b Hb).
Qed.
Next Obligation.
  intros [p d] ss i v (rs & b & W & Hb & Hn & HL) Hi Hv. cbn in *. pose proof (lookup_lt_Some _ _ _ Hv).
  destruct (located d rs p b i W Hb) as [l Hl]; [lia|]. destruct (HL _ _ Hl) as [_ E].
  destruct (block_read_ok d rs p i l W Hl) as (v' & d' & E1 & Hv' & W' & S'). exists (OneDevice p d').
  assert (v' = v) by congruence. subst v'. unfold one_read; cbn [od_block od_devices]; rewrite E1. split; [done|].
  destruct (same_block d d' p b S' Hb) as (b' & Hb' & Es). exists rs, b'. cbn. split_and!; [done|done|injection Es as _ _ ->; done|].
  intros j k. rewrite (same_locate d d') by done. intros Hk. destruct (HL _ _ Hk). split; [by eapply same_writable|done].
Qed.
Next Obligation.
  intros [p d] ss i v (rs & b & W & Hb & Hn & HL) Hi Hv. cbn in *.
  destruct (located d rs p b i W Hb) as [l Hl]; [lia|]. destruct (HL _ _ Hl) as [T E].
  destruct (block_write_ok d rs p i l v W Hl T Hv) as (d' & E1 & W' & S'). exists (OneDevice p d').
  unfold one_write; cbn [od_block od_devices]; rewrite E1. split; [done|]. destruct (same_block d d' p b S' Hb) as (b' & Hb' & Es).
  exists (write_at rs l v), b'. cbn. rewrite length_insert. split_and!; [done|done|injection Es as _ _ ->; done|].
  intros j k. rewrite (same_locate d d') by done. intros Hk. destruct (HL _ _ Hk) as [T' E']. split; [by eapply same_writable|].
  destruct (wf_content d rs p i l W Hl) as (x & Hx & _ & P), (wf_content d rs p j k W Hk) as (y & Hy & _ & P').
  rewrite (write_at_lookup rs l v k y) by done. rewrite list_lookup_insert.
  destruct (wf_cases d rs p j k W Hk) as (b2 & Hb2 & Hj & _). assert (b2 = b) by congruence. subst b2.
  destruct (decide (k = l)) as [->|Hne].
  - rewrite decide_True; [done|]. rewrite (locate_inj d p i j l) by done. lia.
  - rewrite decide_False; [congruence|]. intros [E2 _]. assert (i = j) by lia. subst j. congruence.
Qed.
Next Obligation.
  intros [p d] ss i (rs & b & W & Hb & Hn & _) Hi. cbn [od_block od_devices] in *.
  destruct (block_past_end d p b i Hb ltac:(lia)) as [H1 H2]. unfold one_read, one_write. cbn [od_block od_devices]. rewrite H1. split; [done|]. intros v. by rewrite H2.
Qed.

End device.

(** ** A disk in memory *)

#[export] Instance is_sector_dec v : Decision (is_sector v).
Proof. unfold is_sector. apply _. Defined.

Definition ram_read (d : list (list Z)) (i : Z) : outcome (list Z * list (list Z)) :=
  match d !! Z.to_nat i with Some v => Ok (v, d) | None => Fail FMemory end.

#[export] Program Instance ram_disk : RawDisk (list (list Z)) := {
  raw_repr d ss := d = ss /\ Forall is_sector ss;
  raw_read := ram_read;
  raw_write d i v := Ok (<[Z.to_nat i := v]> d)
}.
Next Obligation. by intros d ss []. Qed.
Next Obligation. intros d ss i v [-> F] _ Hv. exists ss. unfold ram_read. by rewrite Hv. Qed.
Next Obligation. intros d ss i v [-> F] _ Hv. eexists. split; [done|]. split; [done|]. by apply Forall_insert. Qed.

(** The same as a device of its own. *)
#[export] Program Instance ram_device : BlockDevice (list (list Z)) := {
  dev_repr d ss := d = ss /\ Forall is_sector ss /\ Z.of_nat (length ss) < 2 ^ 32;
  dev_size d := Z.of_nat (length d);
  dev_read d i := match d !! Z.to_nat i with Some v => Ok (v, d) | None => Fail FPanic end;
  dev_write d i v := if Z.of_nat (length d) <=? i then Fail FPanic else Ok (<[Z.to_nat i := v]> d)
}.
Next Obligation. by intros d ss (_ & ? & _). Qed.
Next Obligation. by intros d ss (-> & ? & ?). Qed.
Next Obligation. intros d ss i v (-> & ? & ?) _ Hv. exists ss. cbn. by rewrite Hv. Qed.
Next Obligation.
  intros d ss i v (-> & F & H) Hi Hv. eexists. cbn. rewrite (proj2 (Z.leb_gt _ _)) by lia. split; [done|].
  rewrite length_insert. split_and!; [done|by apply Forall_insert|done].
Qed.
Next Obligation.
  intros d ss i (-> & _) Hi. cbn. rewrite (lookup_ge_None_2 ss) by lia. rewrite (proj2 (Z.leb_le _ _)) by lia. done.
Qed.

(** A boot sector with one table entry. *)
Definition demo_table (t ofs sz : Z) : list Z :=
  replicate 446 0 ++ [0; 0; 0; 0; t; 0; 0; 0] ++ word_bytes ofs ++ word_bytes sz ++ replicate 48 0 ++ [0x55; 0xaa].
Definition demo_disk (t : Z) : list (list Z) := demo_table t 2 3 :: replicate 7 (replicate 512 0).

(** The disk [hda] at address 1 and, at address 2, its second to fourth sectors. *)
Definition demo_devices (t : Z) : devices :=
  Devices {[ 1 := MkBlock [104; 100; 97] BLOCK_RAW 8 (ide_operations (demo_disk t)) 0 0;
             2 := MkBlock [104; 100; 97; 49] BLOCK_FILESYS 3 (partition_operations (Partition 1 2)) 0 0 ]}
    [1; 2] [None; None; None; None] (replicate 9 true) 3.
Definition demo_disks (t : Z) : gmap Z (list (list Z)) := {[ 1 := demo_disk t ]}.

Lemma demo_sectors t : is_u8 t -> Forall is_sector (demo_disk t).
Proof.
  intros Ht. constructor; [|by apply Forall_replicate; split; [|apply Forall_replicate]].
  split; [done|]. unfold demo_table. rewrite !Forall_app. split_and!; try by apply Forall_replicate.
  all: repeat first [apply Forall_nil; exact I | apply Forall_cons; split; [first [done|apply u8_range]|]].
Qed.

Lemma demo_wf t : is_u8 t -> wf (demo_devices t) (demo_disks t).
Proof.
  intros Ht. split.
  - intros p b Hb. cbn [demo_devices blocks] in Hb. apply lookup_insert_Some in Hb as [[<- <-]|[_ Hb]].
    { split; [done|]. exists (demo_disk t). split; [done|]. split; [|done]. split; [done|]. by apply demo_sectors. }
    apply lookup_singleton_Some in Hb as [<- <-]. split; [done|]. eexists _, _. by split.
  - intros p Hp. cbn in Hp. cbn [demo_devices blocks]. rewrite lookup_insert_ne, lookup_singleton_ne by lia. done.
Qed.

Lemma demo_disk_with t : is_u8 t -> disk_with (demo_devices t) (demo_disks t) 1 8 (demo_table t 2 3).
Proof. intros Ht. split_and!; [by apply demo_wf|done|done|]. eexists _, _. by split. Qed.

Lemma block_io_correct_witness :
  exists d1 d2, block_write 2 1 (replicate 512 7) (demo_devices 0x21) = Ok (tt, d1) /\ block_read 1 3 d1 = Ok (replicate 512 7, d2) /\
    counters d2 1 = Some (1, 1) /\ counters d2 2 = Some (0, 1).
Proof.
  destruct (block_io_correct (demo_devices 0x21) (demo_disks 0x21) 2 1 (1, 3) (replicate 512 7) 1 3 (1, 3) (replicate 512 0))
    as [(d1 & d2 & E1 & E2 & _ & _ & C1 & C2) _].
  - by apply demo_wf.
  - done.
  - split; intros b; vm_compute; by intros [= <-].
  - by split; [|apply Forall_replicate].
  - done.
  - done.
  - exists d1, d2. split; [exact E1|]. split; [exact E2|]. split; rewrite C2, C1; reflexivity.
Defined.

(** The disk as above, with an extended partition for the first one. *)
Lemma partition_scan_extended_witness :
  partition_scan 1 1 (demo_devices 0x05) = Fail FFuel /\ partition_scan 10 1 (demo_devices 0x05) = Fail FPanic.
Proof.
  assert (HD := demo_disk_with 0x05 ltac:(done)). assert (Hin : Entry 0x05 2 3 ∈ pt_partitions (demo_table 0x05 2 3)) by (apply list_elem_of_fmap; exists 0%nat; split; [done|left]). split.
  - apply (partition_scan_extended (demo_devices 0x05) (demo_disks 0x05) 1 8 (demo_table 0x05 2 3) (Entry 0x05 2 3) 1); try done.
  - apply (partition_scan_extended (demo_devices 0x05) (demo_disks 0x05) 1 8 (demo_table 0x05 2 3) (Entry 0x05 2 3) 10); try done. simpl. lia.
Defined.

End Block.
