(* ===== verification/Swap.v ===== *)
(** * The swap area (src/vm/swap.c)

    The swap device is divided into slots of eight sectors, one page each; a bitmap says which slots are
    in use.  A swap area stands for a finite map from slots to pages: [swap_out] adds a page in a slot
    that was free, [swap_in] and [swap_free] take one out.  The page a slot is read into or written from
    is a list of 4096 bytes.  The file ends with what its clients rely on, as a class, and the instance.
    [swap_lock] is taken at the start of each function and released at its end and nowhere else. *)

From S2P Require Import Prelude Mem Bitmap Block.
Import Bitmap Block.

Module Swap.

(** [PGSIZE / BLOCK_SECTOR_SIZE]. *)
Definition SECTORS_PER_PAGE : Z := 8.

Section ops.
Context {B : Type} `{!BlockDevice B}.

Record swap := MkSwap { swap_device : B; swap_bitmap : bitmap }.

(** [dev] is what [block_get_role] returns; [header] and [storage] are what the allocations of
    [bitmap_create] return. *)
Definition swap_init (dev : option B) (header : bool) (storage : option (list Z)) : outcome swap :=
  match dev with
  | None => Fail FPanic
  | Some dev =>
      let swap_total_pages := dev_size dev / SECTORS_PER_PAGE in
      let* b := bitmap_create swap_total_pages header storage in
      match b with None => Fail FPanic | Some b => Ok (MkSwap dev b) end
  end.

(** The loops over the sectors of a slot; [n] is [PGSIZE / BLOCK_SECTOR_SIZE - i]. *)
Fixpoint read_sectors (n : nat) (d : B) (swap_index i : Z) : outcome (list Z * B) :=
  match n with
  | O => Ok ([], d)
  | S n =>
      let* r := dev_read d (u32 (swap_index * SECTORS_PER_PAGE + i)) in
      let* q := read_sectors n r.2 swap_index (i + 1) in
      Ok (r.1 ++ q.1, q.2)
  end.
Fixpoint write_sectors (n : nat) (d : B) (page : list Z) (swap_index i : Z) : outcome B :=
  match n with
  | O => Ok d
  | S n =>
      let* d := dev_write d (u32 (swap_index * SECTORS_PER_PAGE + i)) (take (Z.to_nat BLOCK_SECTOR_SIZE) (drop (Z.to_nat (i * BLOCK_SECTOR_SIZE)) page)) in
      write_sectors n d page swap_index (i + 1)
  end.

Definition swap_in (w : swap) (swap_index : Z) : outcome (list Z * swap) :=
  let* used := bitmap_test (swap_bitmap w) swap_index in
  if negb used then Fail FPanic
  else
    let* r := read_sectors (Z.to_nat SECTORS_PER_PAGE) (swap_device w) swap_index 0 in
    let* b := bitmap_set (swap_bitmap w) swap_index false in
    Ok (r.1, MkSwap r.2 b).

Definition swap_out (w : swap) (page : list Z) : outcome (Z * swap) :=
  let* r := bitmap_scan_and_flip (swap_bitmap w) 0 1 false in
  if r.1 =? BITMAP_ERROR then Fail FPanic
  else
    let* d := write_sectors (Z.to_nat SECTORS_PER_PAGE) (swap_device w) page r.1 0 in
    Ok (r.1, MkSwap d r.2).

Definition swap_free (w : swap) (swap_index : Z) : outcome swap :=
  let* used := bitmap_test (swap_bitmap w) swap_index in
  if negb used then Fail FPanic
  else let* b := bitmap_set (swap_bitmap w) swap_index false in Ok (MkSwap (swap_device w) b).

(** ** What a swap area stands for *)

Definition is_page (v : list Z) : Prop := length v = 4096%nat /\ Forall is_u8 v.
Definition slot_page (ss : list (list Z)) (k : nat) : list Z := concat (take 8 (drop (8 * k) ss)).

Record swap_at (w : swap) (ss : list (list Z)) (bs : list bool) (m : gmap Z (list Z)) : Prop := {
  sw_dev : dev_repr (swap_device w) ss;
  sw_map : repr (swap_bitmap w) bs;
  sw_room : (8 * length bs <= length ss)%nat;
  sw_slots k : m !! k = if decide (0 <= k /\ bs !! Z.to_nat k = Some true) then Some (slot_page ss (Z.to_nat k)) else None
}.
(** The area has [n] slots. *)
Definition swap_repr (w : swap) (n : Z) (m : gmap Z (list Z)) : Prop :=
  exists ss bs, swap_at w ss bs m /\ n = Z.of_nat (length bs).

(** ** Lemmas *)

Lemma read_sectors_ok n : forall d ss k i,
  dev_repr d ss -> 0 <= k -> 0 <= i -> i + Z.of_nat n = 8 -> (8 * S (Z.to_nat k) <= length ss)%nat ->
  exists d', read_sectors n d k i = Ok (concat (take n (drop (8 * Z.to_nat k + Z.to_nat i) ss)), d') /\ dev_repr d' ss.
Proof.
  induction n as [|n IH]; intros d ss k i R Hk Hi Hn Hl; [by exists d|].
  destruct (dev_size_ok _ _ R) as [Es Hs]. destruct (lookup_lt_is_Some_2 ss (8 * Z.to_nat k + Z.to_nat i)) as [v Hv]; [lia|].
  cbn [read_sectors]. unfold SECTORS_PER_PAGE. rewrite u32_small by (unfold is_u32; lia).
  destruct (dev_read_ok d ss (k * 8 + i) v R) as (d1 & E1 & R1); [lia|by replace (Z.to_nat (k * 8 + i)) with (8 * Z.to_nat k + Z.to_nat i)%nat by lia|].
  rewrite E1. cbn [mbind outcome_bind fst snd]. destruct (IH d1 ss k (i + 1) R1 Hk) as (d2 & E2 & R2); [lia..|].
  rewrite E2. cbn [mbind outcome_bind fst snd]. exists d2. split; [|done]. rewrite (drop_S ss v (8 * Z.to_nat k + Z.to_nat i)) by done. cbn [take concat].
  by replace (8 * Z.to_nat k + Z.to_nat (i + 1))%nat with (S (8 * Z.to_nat k + Z.to_nat i)) by lia.
Qed.

Lemma page_sector page i : is_page page -> 0 <= i < 8 -> is_sector (take (Z.to_nat BLOCK_SECTOR_SIZE) (drop (Z.to_nat (i * BLOCK_SECTOR_SIZE)) page)).
Proof.
  intros [L F] Hi. unfold BLOCK_SECTOR_SIZE. split; [rewrite length_take, length_drop; unfold BLOCK_SECTOR_SIZE; lia|].
  by apply Forall_take, Forall_drop.
Qed.

(** The sectors of slot [k] after those from the [i]-th on have been written. *)
Lemma write_sectors_ok n : forall d ss page k i,
  dev_repr d ss -> is_page page -> 0 <= k -> 0 <= i -> i + Z.of_nat n = 8 -> (8 * S (Z.to_nat k) <= length ss)%nat ->
  exists d' ss', write_sectors n d page k i = Ok d' /\ dev_repr d' ss' /\ length ss' = length ss /\
    (forall j, ~ (8 * Z.to_nat k + Z.to_nat i <= j < 8 * Z.to_nat k + 8)%nat -> ss' !! j = ss !! j) /\
    concat (take n (drop (8 * Z.to_nat k + Z.to_nat i) ss')) = drop (Z.to_nat (i * 512)) page.
Proof.
  induction n as [|n IH]; intros d ss page k i R Hp Hk Hi Hn Hl.
  { exists d, ss. split_and!; try done. rewrite (drop_ge page); [by rewrite take_0|]. destruct Hp as [-> _]. lia. }
  destruct (dev_size_ok _ _ R) as [Es Hs]. cbn [write_sectors]. unfold SECTORS_PER_PAGE. rewrite u32_small by (unfold is_u32; lia).
  set (v := take (Z.to_nat BLOCK_SECTOR_SIZE) (drop (Z.to_nat (i * BLOCK_SECTOR_SIZE)) page)).
  destruct (dev_write_ok d ss (k * 8 + i) v R) as (d1 & E1 & R1); [lia|by apply page_sector; [|lia]|]. rewrite E1. cbn [mbind outcome_bind].
  replace (Z.to_nat (k * 8 + i)) with (8 * Z.to_nat k + Z.to_nat i)%nat in R1 by lia.
  destruct (IH d1 _ page k (i + 1) R1 Hp Hk) as (d2 & ss2 & E2 & R2 & L2 & O2 & C2); [lia|lia|by rewrite length_insert|].
  rewrite length_insert in L2. exists d2, ss2. split_and!; try done.
  - intros j Hj. rewrite O2 by lia. apply list_lookup_insert_ne. lia.
  - rewrite (drop_S ss2 v (8 * Z.to_nat k + Z.to_nat i)); [|rewrite O2 by lia; apply list_lookup_insert_eq; lia]. cbn [take concat].
    replace (S (8 * Z.to_nat k + Z.to_nat i)) with (8 * Z.to_nat k + Z.to_nat (i + 1))%nat by lia. rewrite C2. unfold v, BLOCK_SECTOR_SIZE.
    replace (Z.to_nat ((i + 1) * 512)) with (Z.to_nat (i * 512) + Z.to_nat 512)%nat by lia. by rewrite <- drop_drop, take_drop.
Qed.

Lemma slot_page_other (ss ss' : list (list Z)) j k :
  (forall x, ~ (8 * k <= x < 8 * k + 8)%nat -> ss' !! x = ss !! x) -> j <> k -> slot_page ss' j = slot_page ss j.
Proof.
  intros H Hne. unfold slot_page. f_equal. apply list_eq. intros x. destruct (decide (x < 8)%nat); [|by rewrite !lookup_take_ge by lia].
  rewrite !lookup_take_lt, !lookup_drop by done. apply H. lia.
Qed.

Lemma slot_is_page ss k : Forall is_sector ss -> (8 * S k <= length ss)%nat -> is_page (slot_page ss k).
Proof.
  intros F Hl. unfold slot_page. assert (G : forall l : list (list Z), Forall is_sector l -> length (concat l) = (512 * length l)%nat /\ Forall is_u8 (concat l)).
  { induction 1 as [|v l [Lv Fv] _ [IH1 IH2]]; [done|]. cbn. unfold BLOCK_SECTOR_SIZE in Lv. split; [rewrite length_app, IH1; lia|by apply Forall_app]. }
  destruct (G (take 8 (drop (8 * k) ss))) as [G1 G2]; [by apply Forall_take, Forall_drop|]. split; [|done].
  rewrite G1, length_take, length_drop. lia.
Qed.

Lemma slot_in_use w ss bs m k page : swap_at w ss bs m -> m !! k = Some page ->
  0 <= k /\ bs !! Z.to_nat k = Some true /\ page = slot_page ss (Z.to_nat k) /\ (8 * S (Z.to_nat k) <= length ss)%nat.
Proof.
  intros S Hm. rewrite (sw_slots _ _ _ _ S) in Hm. case_decide as H; [|done]. destruct H as [H1 H2]. pose proof (lookup_lt_Some _ _ _ H2).
  pose proof (sw_room _ _ _ _ S). split_and!; [done|done|congruence|lia].
Qed.

(** A slot that is given up. *)
Lemma clear_slot w ss bs m k page d b : swap_at w ss bs m -> m !! k = Some page -> dev_repr d ss -> repr b (<[Z.to_nat k := false]> bs) ->
  swap_at (MkSwap d b) ss (<[Z.to_nat k := false]> bs) (delete k m).
Proof.
  intros S Hm Hd Hb. destruct (slot_in_use _ _ _ _ _ _ S Hm) as (Hk & Hu & -> & Hl). split; [done|done|rewrite length_insert; apply S|].
  intros j. destruct (decide (j = k)) as [->|Hne].
  - rewrite lookup_delete_eq, decide_False; [done|]. intros [_ H]. rewrite list_lookup_insert_eq in H by (by eapply lookup_lt_Some). done.
  - rewrite lookup_delete_ne by done. rewrite (sw_slots _ _ _ _ S). destruct (decide (0 <= j)).
    + rewrite list_lookup_insert_ne by lia. done.
    + rewrite !decide_False by (intros [? _]; lia). done.
Qed.

Lemma test_used w ss bs m k page : swap_at w ss bs m -> m !! k = Some page -> bitmap_test (swap_bitmap w) k = Ok true.
Proof.
  intros S Hm. destruct (slot_in_use _ _ _ _ _ _ S Hm) as (Hk & Hu & _). rewrite <- (Z2Nat.id k) by done. by eapply bitmap_test_ok; [apply S|].
Qed.

Lemma set_unused w ss bs m k page : swap_at w ss bs m -> m !! k = Some page ->
  exists b, bitmap_set (swap_bitmap w) k false = Ok b /\ repr b (<[Z.to_nat k := false]> bs).
Proof.
  intros S Hm. destruct (slot_in_use _ _ _ _ _ _ S Hm) as (Hk & Hu & _). apply bitmap_set_ok; [apply S|]. apply lookup_lt_Some in Hu.
  rewrite (repr_cnt _ _ (sw_map _ _ _ _ S)). lia.
Qed.

Lemma swap_in_ok w n m k page : swap_repr w n m -> m !! k = Some page -> exists w', swap_in w k = Ok (page, w') /\ swap_repr w' n (delete k m).
Proof.
  intros (ss & bs & S & ->) Hm. destruct (slot_in_use _ _ _ _ _ _ S Hm) as (Hk & Hu & -> & Hl).
  destruct (set_unused _ _ _ _ _ _ S Hm) as (b & Eb & Rb). unfold swap_in. rewrite (test_used _ _ _ _ _ _ S Hm). cbn [mbind outcome_bind negb].
  destruct (read_sectors_ok (Z.to_nat SECTORS_PER_PAGE) (swap_device w) ss k 0) as (d & Ed & Rd); [apply S|done|done|done|done|].
  rewrite Ed. cbn [mbind outcome_bind fst snd]. rewrite Eb. cbn [mbind outcome_bind]. rewrite Nat.add_0_r. exists (MkSwap d b). split; [done|].
  exists ss, (<[Z.to_nat k := false]> bs). split; [by eapply clear_slot|by rewrite length_insert].
Qed.

Lemma swap_free_ok w n m k page : swap_repr w n m -> m !! k = Some page -> exists w', swap_free w k = Ok w' /\ swap_repr w' n (delete k m).
Proof.
  intros (ss & bs & S & ->) Hm. destruct (set_unused _ _ _ _ _ _ S Hm) as (b & Eb & Rb). unfold swap_free. rewrite (test_used _ _ _ _ _ _ S Hm), Eb.
  exists (MkSwap (swap_device w) b). split; [done|]. exists ss, (<[Z.to_nat k := false]> bs). split; [eapply clear_slot; try done; apply S|by rewrite length_insert].
Qed.

(** A slot that is in range and free stops the kernel, one that is out of range fails the bitmap's assertion. *)
Lemma swap_unused w n m k : swap_repr w n m -> 0 <= k -> m !! k = None ->
  let e := if decide (k < n) then FPanic else FAssert in swap_in w k = Fail e /\ swap_free w k = Fail e.
Proof.
  intros (ss & bs & S & ->) Hk Hm e. pose proof (repr_cnt _ _ (sw_map _ _ _ _ S)) as C.
  assert (T : bitmap_test (swap_bitmap w) k = if decide (k < Z.of_nat (length bs)) then Ok false else Fail FAssert).
  { case_decide as H.
    - destruct (lookup_lt_is_Some_2 bs (Z.to_nat k)) as [v Hv]; [lia|]. assert (v = false) as ->.
      { destruct v; [|done]. rewrite (sw_slots _ _ _ _ S), decide_True in Hm by done. done. }
      rewrite <- (Z2Nat.id k) by done. by eapply bitmap_test_ok; [apply S|].
    - unfold bitmap_test. by rewrite (proj2 (Z.ltb_ge _ _)) by lia. }
  unfold swap_in, swap_free, e. rewrite T. by case_decide.
Qed.

Lemma swap_out_ok w n m page : swap_repr w n m -> is_page page ->
  (swap_out w page = Fail FPanic /\ forall k, 0 <= k < n -> is_Some (m !! k)) \/
  (exists k w', swap_out w page = Ok (k, w') /\ m !! k = None /\ 0 <= k < n /\ swap_repr w' n (<[k := page]> m)).
Proof.
  intros (ss & bs & S & ->) Hp. destruct (bitmap_scan_and_flip_ok (swap_bitmap w) bs 0 1 false) as (r & b & E & G & Rb); [apply S| |done|].
  { split; [done|]. rewrite (repr_cnt _ _ (sw_map _ _ _ _ S)). lia. }
  unfold swap_out. rewrite E. cbn [mbind outcome_bind fst snd]. destruct G as [(i & -> & Hne & _ & [Hl Hg] & _)|[-> Hno]].
  - right. specialize (Hg 0%nat ltac:(lia)). rewrite Nat.add_0_r in Hg. change (Z.to_nat 1) with 1%nat in *. pose proof (sw_room _ _ _ _ S) as Hr.
    rewrite (proj2 (Z.eqb_neq _ _)) by done. rewrite decide_False in Rb by done. rewrite Nat2Z.id in Rb.
    destruct (write_sectors_ok (Z.to_nat SECTORS_PER_PAGE) (swap_device w) ss page (Z.of_nat i) 0) as (d & ss' & Ew & Rd & Ls & O & C); [apply S|done|lia|done|done|lia|].
    rewrite Ew. cbn [mbind outcome_bind]. rewrite Nat2Z.id in O, C. exists (Z.of_nat i), (MkSwap d b). split; [done|].
    assert (Hm : m !! Z.of_nat i = None) by (rewrite (sw_slots _ _ _ _ S), Nat2Z.id, Hg, decide_False by (intros [_ ?]; done); done).
    split_and!; [done|lia|lia|]. exists ss', (fill i 1 true bs). split; [|by rewrite length_fill]. split; [done|done|rewrite length_fill by done; lia|].
    intros k. destruct (decide (k = Z.of_nat i)) as [->|Hk].
    + rewrite lookup_insert_eq, Nat2Z.id, decide_True; [|split; [lia|rewrite lookup_fill, decide_True by lia; done]].
      rewrite Nat.add_0_r in C. unfold slot_page. symmetry. by f_equal.
    + rewrite lookup_insert_ne, (sw_slots _ _ _ _ S) by done. destruct (decide (0 <= k)) as [Hk0|]; [|rewrite !decide_False by (intros [? _]; lia); done].
      rewrite lookup_fill, (decide_False (P := (i <= _ < _)%nat)) by lia. case_decide; [|done]. f_equal. symmetry. eapply (slot_page_other ss ss' _ i); [|lia].
      intros x Hx. apply O. lia.
  - left. rewrite Z.eqb_refl. split; [done|]. intros k Hk. rewrite (sw_slots _ _ _ _ S).
    destruct (lookup_lt_is_Some_2 bs (Z.to_nat k)) as [[] Hv]; [lia|rewrite decide_True by (split; [lia|done]); done|]. exfalso. apply (Hno (Z.to_nat k)); [lia|].
    change (Z.to_nat 1) with 1%nat. split; [lia|]. intros j Hj. replace (Z.to_nat k + j)%nat with (Z.to_nat k) by lia. done.
Qed.

Lemma swap_init_ok dev ss junk : dev_repr dev ss -> elem_cnt (Z.of_nat (length ss) / 8) <= Z.of_nat (length junk) -> Forall is_u32 junk ->
  exists w, swap_init (Some dev) true (Some junk) = Ok w /\ swap_repr w (Z.of_nat (length ss) / 8) ∅.
Proof.
  intros R Hj Fj. destruct (dev_size_ok _ _ R) as [Es Hs]. unfold swap_init, SECTORS_PER_PAGE. rewrite Es in *.
  pose proof (Z.div_pos (Z.of_nat (length ss)) 8). pose proof (Z.mul_div_le (Z.of_nat (length ss)) 8).
  destruct (bitmap_create_ok (Z.of_nat (length ss) / 8) junk) as (b & E & Rb); [lia|lia|done|done|]. rewrite E. cbn [mbind outcome_bind].
  exists (MkSwap dev b). split; [done|]. exists ss, (replicate (Z.to_nat (Z.of_nat (length ss) / 8)) false). rewrite length_replicate. split; [|lia].
  split; [done|done|rewrite length_replicate; lia|]. intros k. rewrite lookup_empty, decide_False; [done|]. intros [_ [? _]%lookup_replicate]. done.
Qed.

(** C14: The swap area is a finite map from slots to pages.  [swap_init] makes it empty, with a slot for
    every eight sectors of the device.  [swap_out] stores a page in a slot that was free and leaves the
    other slots alone, and stops the kernel exactly when every slot is in use.  [swap_in] returns the page
    that was stored, byte for byte, and frees the slot; [swap_free] frees it.  Both stop the kernel for a
    slot that is not in use. *)
Theorem swap_refines_map w n m k page :
  swap_repr w n m -> is_page page -> 0 <= k ->
  ((swap_out w page = Fail FPanic /\ forall k, 0 <= k < n -> is_Some (m !! k)) \/
   (exists k w', swap_out w page = Ok (k, w') /\ m !! k = None /\ 0 <= k < n /\ swap_repr w' n (<[k := page]> m))) /\
  match m !! k with
  | Some v => (exists w', swap_in w k = Ok (v, w') /\ swap_repr w' n (delete k m)) /\ exists w', swap_free w k = Ok w' /\ swap_repr w' n (delete k m)
  | None => (exists e, swap_in w k = Fail e) /\ exists e, swap_free w k = Fail e
  end /\
  forall dev ss junk, dev_repr dev ss -> elem_cnt (Z.of_nat (length ss) / 8) <= Z.of_nat (length junk) -> Forall is_u32 junk ->
    exists w, swap_init (Some dev) true (Some junk) = Ok w /\ swap_repr w (Z.of_nat (length ss) / 8) ∅.
Proof.
  intros R Hp Hk. split_and!; [by apply swap_out_ok| |by apply swap_init_ok]. destruct (m !! k) as [v|] eqn:Hm.
  - split; [by apply swap_in_ok|by eapply swap_free_ok].
  - destruct (swap_unused w n m k R Hk Hm) as [H1 H2]. eauto.
Qed.

End ops.

(** ** What the swap area promises *)

Class SwapSpace (W : Type) := {
  sp_repr : W -> Z -> gmap Z (list Z) -> Prop;
  sp_out : W -> list Z -> outcome (Z * W);
  sp_in : W -> Z -> outcome (list Z * W);
  sp_free : W -> Z -> outcome W;
  sp_page w n m k page : sp_repr w n m -> m !! k = Some page -> is_page page /\ 0 <= k < n;
  sp_out_ok w n m page : sp_repr w n m -> is_page page ->
    (sp_out w page = Fail FPanic /\ forall k, 0 <= k < n -> is_Some (m !! k)) \/
    (exists k w', sp_out w page = Ok (k, w') /\ m !! k = None /\ 0 <= k < n /\ sp_repr w' n (<[k := page]> m));
  sp_in_ok w n m k page : sp_repr w n m -> m !! k = Some page -> exists w', sp_in w k = Ok (page, w') /\ sp_repr w' n (delete k m);
  sp_free_ok w n m k page : sp_repr w n m -> m !! k = Some page -> exists w', sp_free w k = Ok w' /\ sp_repr w' n (delete k m);
  sp_unused w n m k : sp_repr w n m -> 0 <= k < n -> m !! k = None -> sp_in w k = Fail FPanic /\ sp_free w k = Fail FPanic
}.

#[export] Program Instance swap_SwapSpace {B : Type} `{!BlockDevice B} : SwapSpace (swap (B := B)) := {
  sp_repr := swap_repr;
  sp_out := swap_out;
  sp_in := swap_in;
  sp_free := swap_free
}.
Next Obligation.
  intros B ? w n m k page (ss & bs & S & ->) Hm. destruct (slot_in_use _ _ _ _ _ _ S Hm) as (Hk & Hu & -> & Hl).
  split; [apply slot_is_page; [eapply dev_sectors; apply S|done]|]. apply lookup_lt_Some in Hu. lia.
Qed.
Next Obligation. intros. by apply swap_out_ok. Qed.
Next Obligation. intros. by apply swap_in_ok. Qed.
Next Obligation. intros. by eapply swap_free_ok. Qed.
Next Obligation.
  intros B ? w n m k R Hk Hm. destruct (swap_unused w n m k R) as [H1 H2]; [lia|done|]. by rewrite decide_True in H1, H2 by lia.
Qed.

(** A device of 20 sectors, with two slots. *)
Definition demo_device : list (list Z) := replicate 20 (replicate 512 0).

Lemma demo_device_repr : dev_repr demo_device demo_device.
Proof. split; [done|]. split; [|done]. apply Forall_replicate. split; [done|]. by apply Forall_replicate. Qed.

Lemma demo_swap : swap_repr (MkSwap demo_device (Bitmap.Bitmap 2 [0])) 2 ∅.
Proof.
  exists demo_device, [false; false]. split; [|done]. split; [apply demo_device_repr| |cbn; lia|].
  - split; [done|done|done|by repeat constructor|]. intros i Hi. simpl in Hi.
    assert (i = 0 \/ i = 1) as [-> | ->] by lia; done.
  - intros k. rewrite lookup_empty, decide_False; [done|]. intros [_ H]. by destruct (Z.to_nat k) as [|[|]].
Qed.

Lemma swap_refines_map_witness :
  exists k w', swap_out (MkSwap demo_device (Bitmap.Bitmap 2 [0])) (replicate 4096 7) = Ok (k, w') /\ swap_repr w' 2 (<[k := replicate 4096 7]> ∅).
Proof.
  destruct (swap_refines_map (MkSwap demo_device (Bitmap.Bitmap 2 [0])) 2 ∅ 0 (replicate 4096 7)) as [H _]; [apply demo_swap|split; [apply length_replicate|by apply Forall_replicate]|done|].
  destruct H as [[_ H]|(k & w' & E & _ & _ & R)].
  - destruct (H 0 ltac:(lia)) as [v Hv]. rewrite lookup_empty in Hv. discriminate Hv.
  - exists k, w'. split; [exact E|exact R].
Defined.

End Swap.
