(* ===== verification/Inode.v ===== *)
(** * Inodes, open files and the free map (filesys/inode.c, file.c, free-map.c)

    The state of the file system on one block device: the list of open inodes with the
    in-memory inodes, the open files, and the free map with the file it is kept in.  The
    three files call each other ([inode_create] takes sectors from the free map, which is
    written through an open file, whose inode's data sectors it changes), so they are one
    component here.  The theorems: reading and writing an inode piece by piece, through
    a bounce buffer where a piece is not a whole sector, equals reading and writing one
    array of bytes; a new inode gets sectors nobody has, zeroed; the counts of openers and
    of write deniers stay in order through every operation. *)

From S2P Require Import Prelude Mem Bitmap Block.

Module Inode.
Import Mem Bitmap.
Import Block (BLOCK_SECTOR_SIZE, is_sector, le, BlockDevice, dev_repr, dev_size, dev_read, dev_write).

(** ** Data *)

Definition INODE_MAGIC : Z := 0x494e4f44.
Definition FREE_MAP_SECTOR : Z := 0.
Definition ROOT_DIR_SECTOR : Z := 1.

(** The on-disk inode, one sector long. *)
Record inode_disk := InodeDisk { start : Z; length_ : Z; magic : Z; unused : list Z }.
Definition encode (d : inode_disk) : list Z :=
  word_bytes (start d) ++ word_bytes (u32 (length_ d)) ++ word_bytes (magic d) ++ unused d.
Definition decode (v : list Z) : inode_disk :=
  InodeDisk (le (take 4 v)) (s32 (le (take 4 (drop 4 v)))) (le (take 4 (drop 8 v))) (drop 12 v).

Record inode := MkInode { sector : Z; open_cnt : Z; removed : bool; deny_write_cnt : Z; data : inode_disk }.
Record file := MkFile { f_inode : Z; pos : Z; deny_write : bool }.

Section fs.
Context {B : Type} `{!BlockDevice B}.

(** [mallocs] says which of the coming calls of malloc and calloc succeed, [next] is the address
    the next one returns; an object is in its table from its allocation to its release. *)
Record fs := Fs {
  dev : B;
  open_inodes : list Z;
  inodes : gmap Z inode;
  files : gmap Z file;
  free_map : bitmap;
  free_map_file : option Z;
  mallocs : list bool;
  next : Z
}.

Definition set_dev (b : B) (s : fs) : fs := Fs b (open_inodes s) (inodes s) (files s) (free_map s) (free_map_file s) (mallocs s) (next s).
Definition set_inodes (l : list Z) (m : gmap Z inode) (s : fs) : fs := Fs (dev s) l m (files s) (free_map s) (free_map_file s) (mallocs s) (next s).
Definition set_files (m : gmap Z file) (s : fs) : fs := Fs (dev s) (open_inodes s) (inodes s) m (free_map s) (free_map_file s) (mallocs s) (next s).
Definition set_free_map (b : bitmap) (s : fs) : fs := Fs (dev s) (open_inodes s) (inodes s) (files s) b (free_map_file s) (mallocs s) (next s).
Definition set_free_map_file (f : option Z) (s : fs) : fs := Fs (dev s) (open_inodes s) (inodes s) (files s) (free_map s) f (mallocs s) (next s).
Definition set_mallocs (m : list bool) (n : Z) (s : fs) : fs := Fs (dev s) (open_inodes s) (inodes s) (files s) (free_map s) (free_map_file s) m n.

Definition malloc : M fs (option Z) := fun s =>
  match mallocs s with
  | true :: r => Ok (Some (next s), set_mallocs r (next s + 1) s)
  | false :: r => Ok (None, set_mallocs r (next s) s)
  | [] => Ok (None, s)
  end.

Definition lift {A} (m : outcome A) : M fs A := fun s => match m with Ok a => Ok (a, s) | Fail e => Fail e end.
Definition from {A} (o : option A) : M fs A := fun s => match o with Some a => Ok (a, s) | None => Fail FMemory end.

Definition get_inode (p : Z) : M fs inode := let* m := gets inodes in from (m !! p).
Definition put_inode (p : Z) (i : inode) : M fs unit := modify (fun s => set_inodes (open_inodes s) (<[p := i]> (inodes s)) s).
Definition get_file (p : option Z) : M fs file := let* m := gets files in from (p ≫= (m !!.)).
Definition put_file (p : Z) (f : file) : M fs unit := modify (fun s => set_files (<[p := f]> (files s)) s).

(** [block_read] and [block_write] on [fs_device]. *)
Definition block_read (sec : Z) : M fs (list Z) := fun s =>
  match dev_read (dev s) sec with Ok (v, b) => Ok (v, set_dev b s) | Fail e => Fail e end.
Definition block_write (sec : Z) (v : list Z) : M fs unit := fun s =>
  match dev_write (dev s) sec v with Ok b => Ok (tt, set_dev b s) | Fail e => Fail e end.

(** [n] bytes of a buffer from [ofs], and a buffer with [l] copied over its bytes from [ofs];
    an access outside the buffer is a memory fault. *)
Definition buf_get (buf : list Z) (ofs n : Z) : M fs (list Z) :=
  if (0 <=? ofs) && (ofs + n <=? Z.of_nat (length buf)) then mret (take (Z.to_nat n) (drop (Z.to_nat ofs) buf)) else fail FMemory.
Definition splice (buf : list Z) (ofs : Z) (l : list Z) : list Z :=
  take (Z.to_nat ofs) buf ++ l ++ drop (Z.to_nat ofs + length l) buf.
Definition buf_put (buf : list Z) (ofs : Z) (l : list Z) : M fs (list Z) :=
  if (0 <=? ofs) && (ofs + Z.of_nat (length l) <=? Z.of_nat (length buf)) then mret (splice buf ofs l) else fail FMemory.

(** ** Inodes *)

(** [DIV_ROUND_UP] on an [off_t]. *)
Definition bytes_to_sectors (size : Z) : Z := u32 (Z.quot (s32 (size + BLOCK_SECTOR_SIZE - 1)) BLOCK_SECTOR_SIZE).

Definition byte_to_sector (i : inode) (pos : Z) : Z :=
  if pos <? length_ (data i) then u32 (start (data i) + Z.quot pos BLOCK_SECTOR_SIZE) else u32 (-1).

Definition inode_length (i : inode) : Z := length_ (data i).

(** The piece a round of the read and the write loop moves: the sector, the offset in it,
    the bytes from there to its end, and the size of the piece. *)
Record piece := Piece { sector_idx : Z; sector_ofs : Z; sector_left : Z; chunk_size : Z }.
Definition piece_at (i : inode) (size offset : Z) : piece :=
  let sector_ofs := Z.rem offset BLOCK_SECTOR_SIZE in
  let inode_left := s32 (inode_length i - offset) in
  let sector_left := BLOCK_SECTOR_SIZE - sector_ofs in
  let min_left := if inode_left <? sector_left then inode_left else sector_left in
  Piece (byte_to_sector i offset) sector_ofs sector_left (if size <? min_left then size else min_left).

(** [if (bounce == NULL) bounce = malloc (BLOCK_SECTOR_SIZE)]; whether there is one now. *)
Definition get_bounce (bounce : bool) : M fs bool :=
  if bounce then mret true else let* p := malloc in mret (bool_decide (is_Some p)).

(** The loop of [inode_read_at]; the result is [bytes_read] and the caller's buffer. *)
Fixpoint read_loop (fuel : nat) (p : Z) (buffer : list Z) (size offset bytes_read : Z) (bounce : bool) : M fs (Z * list Z) :=
  if 0 <? size then
    match fuel with
    | O => fail FFuel
    | S fuel =>
        let* i := get_inode p in
        let c := piece_at i size offset in
        if chunk_size c <=? 0 then mret (bytes_read, buffer)
        else if (sector_ofs c =? 0) && (chunk_size c =? BLOCK_SECTOR_SIZE) then
          let* v := block_read (sector_idx c) in
          let* buffer := buf_put buffer bytes_read v in
          read_loop fuel p buffer (size - chunk_size c) (offset + chunk_size c) (bytes_read + chunk_size c) bounce
        else
          let* ok : bool := get_bounce bounce in
          if ok then
            let* v := block_read (sector_idx c) in
            let* v := buf_get v (sector_ofs c) (chunk_size c) in
            let* buffer := buf_put buffer bytes_read v in
            read_loop fuel p buffer (size - chunk_size c) (offset + chunk_size c) (bytes_read + chunk_size c) true
          else mret (bytes_read, buffer)
    end
  else mret (bytes_read, buffer).

(** Every round moves at least one byte: [size] rounds are enough. *)
Definition inode_read_at (p : Z) (buffer : list Z) (size offset : Z) : M fs (Z * list Z) :=
  read_loop (Z.to_nat size) p buffer size offset 0 false.

Fixpoint write_loop (fuel : nat) (p : Z) (buffer : list Z) (size offset bytes_written : Z) (bounce : bool) : M fs Z :=
  if 0 <? size then
    match fuel with
    | O => fail FFuel
    | S fuel =>
        let* i := get_inode p in
        let c := piece_at i size offset in
        if chunk_size c <=? 0 then mret bytes_written
        else if (sector_ofs c =? 0) && (chunk_size c =? BLOCK_SECTOR_SIZE) then
          let* v := buf_get buffer bytes_written BLOCK_SECTOR_SIZE in
          do* block_write (sector_idx c) v ;
          write_loop fuel p buffer (size - chunk_size c) (offset + chunk_size c) (bytes_written + chunk_size c) bounce
        else
          let* ok : bool := get_bounce bounce in
          if ok then
            let* v :=
              if (0 <? sector_ofs c) || (chunk_size c <? sector_left c) then block_read (sector_idx c)
              else mret (replicate (Z.to_nat BLOCK_SECTOR_SIZE) 0) in
            let* w := buf_get buffer bytes_written (chunk_size c) in
            let* v := buf_put v (sector_ofs c) w in
            do* block_write (sector_idx c) v ;
            write_loop fuel p buffer (size - chunk_size c) (offset + chunk_size c) (bytes_written + chunk_size c) true
          else mret bytes_written
    end
  else mret bytes_written.

Definition inode_write_at (p : Z) (buffer : list Z) (size offset : Z) : M fs Z :=
  let* i := get_inode p in
  if negb (deny_write_cnt i =? 0) then mret 0 else write_loop (Z.to_nat size) p buffer size offset 0 false.

Definition set_open_cnt (n : Z) (i : inode) : inode := MkInode (sector i) n (removed i) (deny_write_cnt i) (data i).
Definition set_deny_cnt (n : Z) (i : inode) : inode := MkInode (sector i) (open_cnt i) (removed i) n (data i).

Definition inode_deny_write (p : Z) : M fs unit :=
  let* i := get_inode p in
  let i := set_deny_cnt (s32 (deny_write_cnt i + 1)) i in
  do* put_inode p i ;
  ASSERT (deny_write_cnt i <=? open_cnt i).

Definition inode_allow_write (p : Z) : M fs unit :=
  let* i := get_inode p in
  do* ASSERT (0 <? deny_write_cnt i) ;
  do* ASSERT (deny_write_cnt i <=? open_cnt i) ;
  put_inode p (set_deny_cnt (s32 (deny_write_cnt i - 1)) i).

Definition inode_remove (p : option Z) : M fs unit :=
  match p with
  | None => fail FAssert
  | Some p => let* i := get_inode p in put_inode p (MkInode (sector i) (open_cnt i) true (deny_write_cnt i) (data i))
  end.

Definition inode_get_inumber (p : Z) : M fs Z := let* i := get_inode p in mret (sector i).

Definition inode_reopen (p : option Z) : M fs (option Z) :=
  match p with
  | None => mret None
  | Some q => let* i := get_inode q in do* put_inode q (set_open_cnt (s32 (open_cnt i + 1)) i) ; mret p
  end.

(** ** Open files, the part the free map is written through *)

Definition file_read_at (f : option Z) (buffer : list Z) (size file_ofs : Z) : M fs (Z * list Z) :=
  let* f := get_file f in inode_read_at (f_inode f) buffer size file_ofs.
Definition file_write_at (f : option Z) (buffer : list Z) (size file_ofs : Z) : M fs Z :=
  let* f := get_file f in inode_write_at (f_inode f) buffer size file_ofs.

(** ** The free map *)

(** An array of words from its bytes. *)
Fixpoint words_of (n : nat) (l : list Z) : list Z :=
  match n with O => [] | S n => le (take 4 l) :: words_of n (drop 4 l) end.

(** [bitmap_write (b, file)] and [bitmap_read (b, file)] (lib/kernel/bitmap.c). *)
Definition bitmap_write_file (b : bitmap) (f : option Z) : M fs bool :=
  let* n := file_write_at f (bits b ≫= word_bytes) (bitmap_file_size b) 0 in
  mret (bitmap_write b n).2.
Definition bitmap_read_file (b : bitmap) (f : option Z) : M fs (bool * bitmap) :=
  if 0 <? bit_cnt b then
    let* r : Z * list Z := file_read_at f (bits b ≫= word_bytes) (bitmap_file_size b) 0 in
    lift (bitmap_read b r.1 (words_of (length (bits b)) r.2))
  else mret (true, b).

(** [junk] is what the memory of the bitmap's elements held before. *)
Definition free_map_init (junk : list Z) : M fs unit :=
  let* n := gets (fun s => dev_size (dev s)) in
  let* h := malloc in
  let* e := match h with Some _ => malloc | None => mret None end in
  let* b := lift (bitmap_create n (bool_decide (is_Some h)) (match e with Some _ => Some junk | None => None end)) in
  match b with
  | None => fail FPanic
  | Some b =>
      let* b := lift (bitmap_mark b FREE_MAP_SECTOR) in
      let* b := lift (bitmap_mark b ROOT_DIR_SECTOR) in
      modify (set_free_map b)
  end.

(** The result is [*SECTORP] when there is one. *)
Definition free_map_allocate (cnt : Z) : M fs (option Z) :=
  let* b := gets free_map in
  let* r : Z * bitmap := lift (bitmap_scan_and_flip b 0 cnt false) in
  do* modify (set_free_map r.2) ;
  if r.1 =? BITMAP_ERROR then mret None
  else
    let* f := gets free_map_file in
    match f with
    | None => mret (Some r.1)
    | Some _ =>
        let* ok : bool := bitmap_write_file r.2 f in
        if ok then mret (Some r.1)
        else let* b := lift (bitmap_set_multiple r.2 r.1 cnt false) in do* modify (set_free_map b) ; mret None
    end.

Definition free_map_release (sec cnt : Z) : M fs unit :=
  let* b := gets free_map in
  let* all := lift (bitmap_all b sec cnt) in
  do* ASSERT all ;
  let* b := lift (bitmap_set_multiple b sec cnt false) in
  do* modify (set_free_map b) ;
  let* f := gets free_map_file in
  let* _ := bitmap_write_file b f in
  mret tt.

(** ** Creating, opening and closing inodes *)

Definition inode_init : M fs unit := modify (fun s => set_inodes [] (inodes s) s).

Fixpoint write_zeros (n : nat) (sec : Z) : M fs unit :=
  match n with
  | O => mret tt
  | S n => do* block_write sec (replicate (Z.to_nat BLOCK_SECTOR_SIZE) 0) ; write_zeros n (u32 (sec + 1))
  end.

Definition new_inode (st len : Z) : inode_disk := InodeDisk st len INODE_MAGIC (replicate 500 0).

Definition inode_create (sec len : Z) : M fs bool :=
  do* ASSERT (0 <=? len) ;
  let* p := malloc in
  match p with
  | None => mret false
  | Some _ =>
      let sectors := bytes_to_sectors len in
      let* r := free_map_allocate sectors in
      match r with
      | None => mret false
      | Some st =>
          do* block_write sec (encode (new_inode st len)) ;
          do* write_zeros (Z.to_nat sectors) st ;
          mret true
      end
  end.

(** The first open inode for the sector. *)
Fixpoint find_inode (sec : Z) (l : list Z) : M fs (option Z) :=
  match l with
  | [] => mret None
  | p :: l => let* i := get_inode p in if sector i =? sec then mret (Some p) else find_inode sec l
  end.

Definition inode_open (sec : Z) : M fs (option Z) :=
  let* l := gets open_inodes in
  let* p := find_inode sec l in
  match p with
  | Some _ => inode_reopen p
  | None =>
      let* p := malloc in
      match p with
      | None => mret None
      | Some q =>
          do* modify (fun s => set_inodes (q :: open_inodes s) (inodes s) s) ;
          let* v := block_read sec in
          do* put_inode q (MkInode sec 1 false 0 (decode v)) ;
          mret p
      end
  end.

Definition inode_close (p : option Z) : M fs unit :=
  match p with
  | None => mret tt
  | Some p =>
      let* i := get_inode p in
      let i := set_open_cnt (s32 (open_cnt i - 1)) i in
      do* put_inode p i ;
      if open_cnt i =? 0 then
        do* modify (fun s => set_inodes (filter (fun q => q <> p) (open_inodes s)) (inodes s) s) ;
        do* (if removed i then
               do* free_map_release (sector i) 1 ;
               free_map_release (start (data i)) (bytes_to_sectors (length_ (data i)))
             else mret tt) ;
        modify (fun s => set_inodes (open_inodes s) (delete p (inodes s)) s)
      else mret tt
  end.

(** ** Open files *)

Definition file_open (i : option Z) : M fs (option Z) :=
  let* p := malloc in
  match i, p with
  | Some i, Some q => do* put_file q (MkFile i 0 false) ; mret p
  | _, _ => do* inode_close i ; mret None
  end.

Definition file_reopen (f : option Z) : M fs (option Z) :=
  let* f := get_file f in let* i := inode_reopen (Some (f_inode f)) in file_open i.

(** [ASSERT (file != NULL)]. *)
Definition not_null (p : option Z) : M fs unit := ASSERT (bool_decide (is_Some p)).
(** A store to a member of [*FILE]. *)
Definition upd_file (p : option Z) (f : file) : M fs unit := match p with Some q => put_file q f | None => fail FMemory end.

Definition file_deny_write (p : option Z) : M fs unit :=
  do* not_null p ;
  let* f := get_file p in
  if negb (deny_write f) then do* upd_file p (MkFile (f_inode f) (pos f) true) ; inode_deny_write (f_inode f) else mret tt.

Definition file_allow_write (p : option Z) : M fs unit :=
  do* not_null p ;
  let* f := get_file p in
  if deny_write f then do* upd_file p (MkFile (f_inode f) (pos f) false) ; inode_allow_write (f_inode f) else mret tt.

Definition file_close (p : option Z) : M fs unit :=
  match p with
  | None => mret tt
  | Some q =>
      do* file_allow_write p ;
      let* f := get_file p in
      do* inode_close (Some (f_inode f)) ;
      modify (fun s => set_files (delete q (files s)) s)
  end.

Definition file_get_inode (p : option Z) : M fs Z := let* f := get_file p in mret (f_inode f).

Definition file_read (p : option Z) (buffer : list Z) (size : Z) : M fs (Z * list Z) :=
  let* f := get_file p in
  let* r : Z * list Z := inode_read_at (f_inode f) buffer size (pos f) in
  do* upd_file p (MkFile (f_inode f) (s32 (pos f + r.1)) (deny_write f)) ;
  mret r.

Definition file_write (p : option Z) (buffer : list Z) (size : Z) : M fs Z :=
  let* f := get_file p in
  let* n := inode_write_at (f_inode f) buffer size (pos f) in
  do* upd_file p (MkFile (f_inode f) (s32 (pos f + n)) (deny_write f)) ;
  mret n.

Definition file_length (p : option Z) : M fs Z :=
  do* not_null p ; let* f := get_file p in let* i := get_inode (f_inode f) in mret (inode_length i).

Definition file_seek (p : option Z) (new_pos : Z) : M fs unit :=
  do* not_null p ;
  do* ASSERT (0 <=? new_pos) ;
  let* f := get_file p in upd_file p (MkFile (f_inode f) new_pos (deny_write f)).

Definition file_tell (p : option Z) : M fs Z := do* not_null p ; let* f := get_file p in mret (pos f).

(** ** The free map's file *)

Definition free_map_open : M fs unit :=
  let* i := inode_open FREE_MAP_SECTOR in
  let* f := file_open i in
  do* modify (set_free_map_file f) ;
  match f with
  | None => fail FPanic
  | Some _ =>
      let* b := gets free_map in
      let* r : bool * bitmap := bitmap_read_file b f in
      do* modify (set_free_map r.2) ;
      if r.1 then mret tt else fail FPanic
  end.

Definition free_map_close : M fs unit := let* f := gets free_map_file in file_close f.

Definition free_map_create : M fs unit :=
  let* b := gets free_map in
  let* ok := inode_create FREE_MAP_SECTOR (s32 (bitmap_file_size b)) in
  if negb ok then fail FPanic
  else
    let* i := inode_open FREE_MAP_SECTOR in
    let* f := file_open i in
    do* modify (set_free_map_file f) ;
    match f with
    | None => fail FPanic
    | Some _ =>
        let* b := gets free_map in
        let* ok : bool := bitmap_write_file b f in
        if ok then mret tt else fail FPanic
    end.

(** ** Lemmas: buffers and sectors *)

Lemma length_splice buf ofs l :
  0 <= ofs -> ofs + Z.of_nat (length l) <= Z.of_nat (length buf) -> length (splice buf ofs l) = length buf.
Proof. intros. unfold splice. rewrite !length_app, length_take, length_drop. lia. Qed.

Lemma lookup_splice buf ofs l k :
  0 <= ofs -> ofs + Z.of_nat (length l) <= Z.of_nat (length buf) ->
  splice buf ofs l !! k =
    if decide (ofs <= Z.of_nat k < ofs + Z.of_nat (length l)) then l !! Z.to_nat (Z.of_nat k - ofs) else buf !! k.
Proof.
  intros. unfold splice. destruct (decide (Z.of_nat k < ofs)).
  - rewrite decide_False, lookup_app_l, lookup_take_lt by (rewrite ?length_take; lia). done.
  - rewrite lookup_app_r, length_take by (rewrite length_take; lia). case_decide.
    + rewrite lookup_app_l by lia. f_equal. lia.
    + rewrite lookup_app_r, lookup_drop by lia. f_equal. lia.
Qed.

Lemma lookup_piece (buf : list Z) ofs n k :
  0 <= ofs -> 0 <= n ->
  take (Z.to_nat n) (drop (Z.to_nat ofs) buf) !! k = if decide (Z.of_nat k < n) then buf !! Z.to_nat (ofs + Z.of_nat k) else None.
Proof.
  intros. case_decide.
  - rewrite lookup_take_lt, lookup_drop by lia. f_equal. lia.
  - apply lookup_take_ge. lia.
Qed.

Lemma length_piece (buf : list Z) ofs n :
  0 <= ofs -> 0 <= n -> ofs + n <= Z.of_nat (length buf) -> Z.of_nat (length (take (Z.to_nat n) (drop (Z.to_nat ofs) buf))) = n.
Proof. intros. rewrite length_take, length_drop. lia. Qed.

(** The byte at an offset of the device. *)
Definition byte_at (ss : list (list Z)) (a : Z) : option Z :=
  ss !! Z.to_nat (a / BLOCK_SECTOR_SIZE) ≫= (.!! Z.to_nat (a mod BLOCK_SECTOR_SIZE)).

Lemma byte_at_sector ss k v o :
  ss !! Z.to_nat k = Some v -> 0 <= k -> 0 <= o < BLOCK_SECTOR_SIZE -> byte_at ss (BLOCK_SECTOR_SIZE * k + o) = v !! Z.to_nat o.
Proof.
  unfold byte_at, BLOCK_SECTOR_SIZE. intros H Hk Ho. replace ((512 * k + o) / 512) with k by (apply Z.div_unique with o; lia).
  replace ((512 * k + o) mod 512) with o by (apply Z.mod_unique with k; lia). by rewrite H.
Qed.

Lemma byte_at_insert ss k v a :
  0 <= k < Z.of_nat (length ss) -> 0 <= a -> Z.of_nat (length v) = BLOCK_SECTOR_SIZE ->
  byte_at (<[Z.to_nat k := v]> ss) a =
    if decide (BLOCK_SECTOR_SIZE * k <= a < BLOCK_SECTOR_SIZE * k + BLOCK_SECTOR_SIZE)
    then v !! Z.to_nat (a - BLOCK_SECTOR_SIZE * k) else byte_at ss a.
Proof.
  unfold BLOCK_SECTOR_SIZE. intros Hk Ha Hv. destruct (decide (512 * k <= a < 512 * k + 512)).
  - replace a with (512 * k + (a - 512 * k)) at 1 by lia.
    rewrite (byte_at_sector _ k v (a - 512 * k)); [done|by apply list_lookup_insert_eq; lia|lia|unfold BLOCK_SECTOR_SIZE; lia].
  - unfold byte_at, BLOCK_SECTOR_SIZE. rewrite list_lookup_insert_ne; [done|]. intros E.
    pose proof (Z.div_mod a 512). pose proof (Z.mod_pos_bound a 512). assert (0 <= a / 512) by (apply Z.div_pos; lia). lia.
Qed.

(** ** Lemmas: one piece *)

(** The data of an inode lies within the device. *)
Record extent_ok (n : Z) (d : inode_disk) : Prop := {
  ext_len : 0 <= length_ d < 2 ^ 31 - 511;
  ext_start : 0 <= start d;
  ext_end : BLOCK_SECTOR_SIZE * start d + length_ d <= BLOCK_SECTOR_SIZE * n;
  ext_dev : n < 2 ^ 32
}.

(** The bytes to be moved. *)
Definition avail (d : inode_disk) (size offset : Z) : Z := Z.max 0 (Z.min size (length_ d - offset)).

Lemma piece_some n i size offset :
  extent_ok n (data i) -> 0 < size -> 0 <= offset < length_ (data i) ->
  piece_at i size offset = Piece (start (data i) + offset / BLOCK_SECTOR_SIZE) (offset mod BLOCK_SECTOR_SIZE)
    (BLOCK_SECTOR_SIZE - offset mod BLOCK_SECTOR_SIZE)
    (Z.min size (Z.min (length_ (data i) - offset) (BLOCK_SECTOR_SIZE - offset mod BLOCK_SECTOR_SIZE))).
Proof.
  intros [H1 H2 H3 H4] Hs Ho. unfold piece_at, byte_to_sector, inode_length.
  rewrite Z.rem_mod_nonneg, Z.quot_div_nonneg by (unfold BLOCK_SECTOR_SIZE; lia).
  rewrite (proj2 (Z.ltb_lt offset _)), s32_small by (unfold is_s32; lia).
  assert (0 <= offset / BLOCK_SECTOR_SIZE) by (apply Z.div_pos; unfold BLOCK_SECTOR_SIZE; lia).
  assert (BLOCK_SECTOR_SIZE * (offset / BLOCK_SECTOR_SIZE) <= offset) by (apply Z.mul_div_le; done).
  rewrite u32_small by (unfold is_u32, BLOCK_SECTOR_SIZE in *; lia).
  f_equal. destruct (Z.ltb_spec (length_ (data i) - offset) (BLOCK_SECTOR_SIZE - offset mod BLOCK_SECTOR_SIZE));
    match goal with |- context [size <? ?y] => destruct (Z.ltb_spec size y) end; lia.
Qed.

Lemma piece_none n i size offset :
  extent_ok n (data i) -> 0 < size -> length_ (data i) <= offset < 2 ^ 31 -> chunk_size (piece_at i size offset) <= 0.
Proof.
  intros [H1 H2 H3 H4] Hs Ho. unfold piece_at, inode_length. cbn [chunk_size]. rewrite s32_small by (unfold is_s32; lia).
  rewrite Z.rem_mod_nonneg by (unfold BLOCK_SECTOR_SIZE; lia). pose proof (Z.mod_pos_bound offset BLOCK_SECTOR_SIZE eq_refl).
  rewrite (proj2 (Z.ltb_lt (length_ (data i) - offset) _)) by lia. destruct (Z.ltb_spec size (length_ (data i) - offset)); lia.
Qed.

(** ** Lemmas: reading and writing *)

(** What reading and writing leave as it is; [m] tells whether they may have called malloc, once. *)
Record io (m : bool) (s s' : fs) : Prop := {
  io_open : open_inodes s' = open_inodes s;
  io_inodes : inodes s' = inodes s;
  io_files : files s' = files s;
  io_map : free_map s' = free_map s;
  io_file : free_map_file s' = free_map_file s;
  io_next : next s <= next s';
  io_mallocs : mallocs s' = mallocs s \/ (m = true /\ mallocs s' = tail (mallocs s))
}.

Lemma io_refl m s : io m s s.
Proof. split; auto. lia. Qed.

Lemma io_trans m s1 s2 s3 : io false s1 s2 -> io m s2 s3 -> io m s1 s3.
Proof.
  intros [? ? ? ? ? ? M1] [? ? ? ? ? ? M2]. split; try congruence; [lia|].
  destruct M1 as [M1|[? _]]; [|done]. rewrite <- M1. done.
Qed.

Lemma io_trans' m s1 s2 s3 : io m s1 s2 -> io false s2 s3 -> io m s1 s3.
Proof.
  intros [? ? ? ? ? ? M1] [? ? ? ? ? ? M2]. split; try congruence; [lia|].
  destruct M2 as [M2|[? _]]; [|done]. rewrite M2. done.
Qed.

Lemma io_dev b s : io false s (set_dev b s).
Proof. split; auto. cbn. lia. Qed.

Lemma get_inode_ok p s i : inodes s !! p = Some i -> get_inode p s = Ok (i, s).
Proof. intros H. unfold get_inode, from, mbind, M_bind, gets. by rewrite H. Qed.

Lemma fs_read_ok s ss k v :
  dev_repr (dev s) ss -> 0 <= k -> ss !! Z.to_nat k = Some v ->
  exists s', block_read k s = Ok (v, s') /\ dev_repr (dev s') ss /\ io false s s'.
Proof.
  intros R Hk Hv. destruct (Block.dev_read_ok _ _ _ _ R Hk Hv) as (b' & E & R'). exists (set_dev b' s).
  unfold block_read. rewrite E. split_and!; [done|done|apply io_dev].
Qed.

Lemma fs_write_ok s ss k v :
  dev_repr (dev s) ss -> 0 <= k < Z.of_nat (length ss) -> is_sector v ->
  exists s', block_write k v s = Ok (tt, s') /\ dev_repr (dev s') (<[Z.to_nat k := v]> ss) /\ io false s s'.
Proof.
  intros R Hk Hv. destruct (Block.dev_write_ok _ _ _ _ R Hk Hv) as (b' & E & R'). exists (set_dev b' s).
  unfold block_write. rewrite E. split_and!; [done|done|apply io_dev].
Qed.

(** [get_bounce] has a buffer unless malloc fails. *)
Lemma get_bounce_ok bounce s :
  exists ok s', get_bounce bounce s = Ok (ok, s') /\ dev s' = dev s /\ io (negb bounce) s s' /\
    (ok = false -> bounce = false /\ head (mallocs s) <> Some true).
Proof.
  destruct bounce; cbn; [exists true, s; split_and!; [done|done|apply io_refl|done]|].
  unfold malloc, mbind, M_bind, set_mallocs. destruct (mallocs s) as [|[] r] eqn:E; eexists _, _; (split; [done|]); cbn;
    (split; [done|]); (split; [split; cbn; rewrite ?E; auto; lia|]); done.
Qed.

Lemma buf_put_ok buf ofs l (s : fs) :
  0 <= ofs -> ofs + Z.of_nat (length l) <= Z.of_nat (length buf) -> buf_put buf ofs l s = Ok (splice buf ofs l, s).
Proof. intros. unfold buf_put. rewrite (proj2 (Z.leb_le _ _)), (proj2 (Z.leb_le _ _)) by lia. done. Qed.

Lemma buf_get_ok buf ofs n (s : fs) :
  0 <= ofs -> ofs + n <= Z.of_nat (length buf) -> buf_get buf ofs n s = Ok (take (Z.to_nat n) (drop (Z.to_nat ofs) buf), s).
Proof. intros. unfold buf_get. rewrite (proj2 (Z.leb_le _ _)), (proj2 (Z.leb_le _ _)) by lia. done. Qed.

(** The sector of a piece. *)
Lemma piece_sector ss i offset :
  Forall is_sector ss -> extent_ok (Z.of_nat (length ss)) (data i) -> 0 <= offset < length_ (data i) ->
  exists v, ss !! Z.to_nat (start (data i) + offset / BLOCK_SECTOR_SIZE) = Some v /\ is_sector v /\
    0 <= start (data i) + offset / BLOCK_SECTOR_SIZE < Z.of_nat (length ss).
Proof.
  intros F [H1 H2 H3 H4] Ho.
  assert (0 <= offset / BLOCK_SECTOR_SIZE) by (apply Z.div_pos; unfold BLOCK_SECTOR_SIZE; lia).
  assert (BLOCK_SECTOR_SIZE * (offset / BLOCK_SECTOR_SIZE) <= offset) by (apply Z.mul_div_le; done).
  assert (start (data i) + offset / BLOCK_SECTOR_SIZE < Z.of_nat (length ss)) by (unfold BLOCK_SECTOR_SIZE in *; lia).
  destruct (lookup_lt_is_Some_2 ss (Z.to_nat (start (data i) + offset / BLOCK_SECTOR_SIZE))) as [v Hv]; [lia|].
  exists v. split_and!; [done| |lia|done]. by eapply Forall_lookup_1.
Qed.

(** The size of the piece at [offset]. *)
Definition chunk (d : inode_disk) (size offset : Z) : Z :=
  Z.min size (Z.min (length_ d - offset) (BLOCK_SECTOR_SIZE - offset mod BLOCK_SECTOR_SIZE)).

Lemma chunk_bounds d size offset :
  0 < size -> 0 <= offset < length_ d ->
  0 < chunk d size offset <= size /\ offset + chunk d size offset <= length_ d /\
  0 <= offset mod BLOCK_SECTOR_SIZE /\ offset mod BLOCK_SECTOR_SIZE + chunk d size offset <= BLOCK_SECTOR_SIZE /\
  avail d size offset = chunk d size offset + avail d (size - chunk d size offset) (offset + chunk d size offset).
Proof.
  intros Hs Ho. pose proof (Z.mod_pos_bound offset BLOCK_SECTOR_SIZE eq_refl). unfold chunk, avail. lia.
Qed.

(** One round either moves a piece and goes on, or ends for want of a bounce buffer. *)
Definition next_bounce (bounce : bool) (s s1 : fs) (bounce' : bool) : Prop :=
  io (negb bounce) s s1 /\ (bounce' = bounce -> io false s s1) /\ (bounce = true -> bounce' = true).
Definition no_memory (bounce : bool) (s : fs) : Prop := bounce = false /\ head (mallocs s) <> Some true.

Lemma read_round fuel p i buffer size offset br bounce s ss v :
  dev_repr (dev s) ss -> inodes s !! p = Some i -> extent_ok (Z.of_nat (length ss)) (data i) ->
  0 < size -> 0 <= offset < length_ (data i) -> 0 <= br -> br + size <= Z.of_nat (length buffer) ->
  ss !! Z.to_nat (start (data i) + offset / BLOCK_SECTOR_SIZE) = Some v ->
  let k := chunk (data i) size offset in
  let l := take (Z.to_nat k) (drop (Z.to_nat (offset mod BLOCK_SECTOR_SIZE)) v) in
  (exists s1 bounce', next_bounce bounce s s1 bounce' /\ dev_repr (dev s1) ss /\
    read_loop (S fuel) p buffer size offset br bounce s =
      read_loop fuel p (splice buffer br l) (size - k) (offset + k) (br + k) bounce' s1) \/
  (exists s1, no_memory bounce s /\ dev_repr (dev s1) ss /\ io (negb bounce) s s1 /\
    read_loop (S fuel) p buffer size offset br bounce s = Ok ((br, buffer), s1)).
Proof.
  intros R Hi X Hs Ho Hb Hl Hv k l. pose proof (Block.dev_sectors _ _ R) as F.
  destruct (piece_sector ss i offset F X Ho) as (v' & Hv' & [Lv _] & Hk). rewrite Hv in Hv'. injection Hv' as <-.
  destruct (chunk_bounds (data i) size offset Hs Ho) as (B1 & B2 & B3 & B4 & _). fold k in B1, B2, B4.
  assert (Ll : Z.of_nat (length l) = k) by (apply length_piece; lia).
  cbn [read_loop]. rewrite (proj2 (Z.ltb_lt _ _) Hs), (M_bind_Ok _ _ _ _ _ (get_inode_ok p s i Hi)).
  rewrite (piece_some _ i size offset X Hs Ho). cbn [chunk_size sector_ofs sector_idx]. fold (chunk (data i) size offset). fold k.
  rewrite (proj2 (Z.leb_gt _ _)) by lia.
  destruct ((offset mod BLOCK_SECTOR_SIZE =? 0) && (k =? BLOCK_SECTOR_SIZE)) eqn:Ef.
  - left. apply andb_true_iff in Ef as [E1%Z.eqb_eq E2%Z.eqb_eq].
    assert (El : l = v). { unfold l. rewrite E1, E2. cbn [Z.to_nat drop]. apply take_ge. unfold BLOCK_SECTOR_SIZE in *. lia. }
    destruct (fs_read_ok s ss _ v R (proj1 Hk) Hv) as (s1 & E & R1 & I1). exists s1, bounce.
    rewrite (M_bind_Ok _ _ _ _ _ E), <- El, (M_bind_Ok _ _ s1 (splice buffer br l) s1) by (apply buf_put_ok; lia).
    split_and!; [|done|done]. split_and!; [|done|done]. eapply io_trans; [done|apply io_refl].
  - destruct (get_bounce_ok bounce s) as (ok & s1 & E1 & D1 & I1 & N1). rewrite (M_bind_Ok _ _ _ _ _ E1).
    destruct ok; [left|right; exists s1; rewrite D1; by split_and!; [apply N1..| | |]].
    destruct (fs_read_ok s1 ss (start (data i) + offset / BLOCK_SECTOR_SIZE) v) as (s2 & E2 & R2 & I2); [by rewrite D1|lia|done|]. exists s2, true.
    rewrite (M_bind_Ok _ _ _ _ _ E2), (M_bind_Ok _ _ s2 l s2) by (apply buf_get_ok; lia).
    rewrite (M_bind_Ok _ _ s2 (splice buffer br l) s2) by (apply buf_put_ok; lia).
    split_and!; [|done|done]. split_and!; [by eapply io_trans'| |done]. intros <-. by eapply io_trans'.
Qed.

Lemma next_io bounce s s1 b1 s' : next_bounce bounce s s1 b1 -> io (negb b1) s1 s' -> io (negb bounce) s s'.
Proof.
  intros (I1 & I2 & I3) I. destruct bounce, b1; cbn in *.
  - by eapply io_trans.
  - by discriminate I3.
  - by eapply io_trans'.
  - eapply io_trans; [|done]. by apply I2.
Qed.

Lemma next_memory bounce s s1 b1 : next_bounce bounce s s1 b1 -> no_memory b1 s1 -> no_memory bounce s.
Proof.
  intros (I1 & I2 & I3) [-> N]. destruct bounce; [by discriminate I3|]. split; [done|].
  destruct (io_mallocs _ _ _ (I2 eq_refl)) as [<-|[? _]]; done.
Qed.

(** What the read loop returns: [n] more bytes of the inode's data in the buffer, all that are
    available unless malloc fails. *)
Definition reads (ss : list (list Z)) (d : inode_disk) (buffer : list Z) (size offset br : Z) (bounce : bool) (s : fs)
  (r : outcome (Z * list Z * fs)) : Prop :=
  exists n buf s', r = Ok ((br + n, buf), s') /\
    dev_repr (dev s') ss /\ io (negb bounce) s s' /\ 0 <= n <= avail d size offset /\
    (n < avail d size offset -> no_memory bounce s) /\ length buf = length buffer /\
    forall k, buf !! k = if decide (br <= Z.of_nat k < br + n)
                         then byte_at ss (BLOCK_SECTOR_SIZE * start d + offset + (Z.of_nat k - br)) else buffer !! k.

Lemma reads_stop ss d buffer size offset br bounce s s' :
  dev_repr (dev s') ss -> io (negb bounce) s s' -> (0 < avail d size offset -> no_memory bounce s) ->
  reads ss d buffer size offset br bounce s (Ok ((br, buffer), s')).
Proof.
  intros R' I N. exists 0, buffer, s'. rewrite Z.add_0_r. split_and!; auto; [lia|unfold avail; lia|].
  intros k. by rewrite decide_False by lia.
Qed.

(** A piece, and then the rest. *)
Lemma reads_piece ss d buffer size offset br bounce s s1 b1 v r :
  let k := chunk d size offset in
  let l := take (Z.to_nat k) (drop (Z.to_nat (offset mod BLOCK_SECTOR_SIZE)) v) in
  0 < size -> 0 <= offset < length_ d -> 0 <= br -> br + size <= Z.of_nat (length buffer) -> 0 <= start d ->
  ss !! Z.to_nat (start d + offset / BLOCK_SECTOR_SIZE) = Some v -> is_sector v -> next_bounce bounce s s1 b1 ->
  reads ss d (splice buffer br l) (size - k) (offset + k) (br + k) b1 s1 r -> reads ss d buffer size offset br bounce s r.
Proof.
  intros k l Hs Ho Hb Hl Hst Hv [Lv _] N (n & buf & s' & -> & R' & I & Hn & Hm & Hlen & Hbuf).
  destruct (chunk_bounds d size offset Hs Ho) as (B1 & B2 & B3 & B4 & B5). fold k in B1, B2, B4, B5.
  assert (Ll : Z.of_nat (length l) = k) by (apply length_piece; lia).
  exists (k + n), buf, s'. rewrite Z.add_assoc. split_and!; [done|done|by eapply next_io|lia|lia| |rewrite Hlen; apply length_splice; lia|].
  { intros ?. eapply next_memory; [done|]. apply Hm. lia. }
  intros j. rewrite Hbuf, lookup_splice, Ll by lia. destruct (decide (br + k <= Z.of_nat j < br + k + n)).
  { rewrite decide_True by lia. f_equal. lia. }
  destruct (decide (br <= Z.of_nat j < br + k)); [|by rewrite decide_False by lia].
  rewrite decide_True by lia. unfold l. rewrite lookup_piece, decide_True by lia.
  pose proof (Z.div_mod offset BLOCK_SECTOR_SIZE ltac:(done)). assert (0 <= offset / BLOCK_SECTOR_SIZE) by (apply Z.div_pos; [lia|done]).
  rewrite <- (byte_at_sector ss (start d + offset / BLOCK_SECTOR_SIZE)) by (done || lia). f_equal. lia.
Qed.

Lemma read_loop_ok fuel p i buffer size offset br bounce s ss :
  dev_repr (dev s) ss -> inodes s !! p = Some i -> extent_ok (Z.of_nat (length ss)) (data i) ->
  0 <= offset < 2 ^ 31 -> 0 <= br -> br + Z.max 0 size <= Z.of_nat (length buffer) -> size <= Z.of_nat fuel ->
  reads ss (data i) buffer size offset br bounce s (read_loop fuel p buffer size offset br bounce s).
Proof.
  revert buffer size offset br bounce s. induction fuel as [|fuel IH]; intros buffer size offset br bounce s R Hi X Ho Hb Hl Hf.
  all: destruct (Z.lt_ge_cases 0 size) as [Hs|Hs]; [|cbn [read_loop]; rewrite (proj2 (Z.ltb_ge _ _) Hs);
    apply reads_stop; [done|apply io_refl|unfold avail; lia]].
  { lia. }
  destruct (Z.lt_ge_cases offset (length_ (data i))) as [Hlt|Hge].
  2: { cbn [read_loop]. rewrite (proj2 (Z.ltb_lt _ _) Hs), (M_bind_Ok _ _ _ _ _ (get_inode_ok p s i Hi)).
       rewrite (proj2 (Z.leb_le _ _)) by (eapply piece_none; [done|lia|lia]). apply reads_stop; [done|apply io_refl|unfold avail; lia]. }
  destruct (piece_sector ss i offset (Block.dev_sectors _ _ R) X) as (v & Hv & Sv & Hk); [lia|].
  destruct (chunk_bounds (data i) size offset Hs) as (B1 & B2 & B3 & B4 & B5); [lia|].
  destruct (read_round fuel p i buffer size offset br bounce s ss v) as [(s1 & b1 & N & R1 & E1)|(s1 & N & R1 & I1 & E1)];
    try done; try lia; rewrite E1; [|by apply reads_stop].
  assert (Ll := length_piece v (offset mod BLOCK_SECTOR_SIZE) (chunk (data i) size offset) B3 ltac:(lia) ltac:(destruct Sv; lia)).
  eapply reads_piece; try done; [lia|lia|apply X|].
  apply IH; [done|by rewrite (io_inodes _ _ _ (proj1 N))|done|destruct X; lia|lia| |lia].
  rewrite length_splice by lia. lia.
Qed.

Lemma is_sector_splice v ofs l :
  is_sector v -> Forall is_u8 l -> 0 <= ofs -> ofs + Z.of_nat (length l) <= BLOCK_SECTOR_SIZE -> is_sector (splice v ofs l).
Proof.
  intros [L F] Fl H1 H2. split; [by rewrite length_splice by lia|]. unfold splice.
  rewrite !Forall_app. split_and!; [by apply Forall_take|done|by apply Forall_drop].
Qed.

Lemma write_round fuel p i buffer size offset bw bounce s ss v :
  dev_repr (dev s) ss -> inodes s !! p = Some i -> extent_ok (Z.of_nat (length ss)) (data i) -> Forall is_u8 buffer ->
  0 < size -> 0 <= offset < length_ (data i) -> 0 <= bw -> bw + size <= Z.of_nat (length buffer) ->
  ss !! Z.to_nat (start (data i) + offset / BLOCK_SECTOR_SIZE) = Some v ->
  let k := chunk (data i) size offset in
  let v' := splice v (offset mod BLOCK_SECTOR_SIZE) (take (Z.to_nat k) (drop (Z.to_nat bw) buffer)) in
  (exists s1 bounce', next_bounce bounce s s1 bounce' /\
    dev_repr (dev s1) (<[Z.to_nat (start (data i) + offset / BLOCK_SECTOR_SIZE) := v']> ss) /\
    write_loop (S fuel) p buffer size offset bw bounce s =
      write_loop fuel p buffer (size - k) (offset + k) (bw + k) bounce' s1) \/
  (exists s1, no_memory bounce s /\ dev_repr (dev s1) ss /\ io (negb bounce) s s1 /\
    write_loop (S fuel) p buffer size offset bw bounce s = Ok (bw, s1)).
Proof.
  intros R Hi X Fb Hs Ho Hb Hl Hv k v'. pose proof (Block.dev_sectors _ _ R) as F.
  destruct (piece_sector ss i offset F X Ho) as (x & Hx & Sv & Hk). rewrite Hv in Hx. injection Hx as <-.
  destruct (chunk_bounds (data i) size offset Hs Ho) as (B1 & B2 & B3 & B4 & _). fold k in B1, B2, B4.
  set (l := take (Z.to_nat k) (drop (Z.to_nat bw) buffer)) in *.
  assert (Ll : Z.of_nat (length l) = k) by (apply length_piece; lia).
  assert (Sv' : is_sector v') by (apply is_sector_splice; [done|by apply Forall_take, Forall_drop|lia|lia]).
  cbn [write_loop]. rewrite (proj2 (Z.ltb_lt _ _) Hs), (M_bind_Ok _ _ _ _ _ (get_inode_ok p s i Hi)).
  rewrite (piece_some _ i size offset X Hs Ho). cbn [chunk_size sector_ofs sector_idx sector_left]. fold (chunk (data i) size offset). fold k.
  rewrite (proj2 (Z.leb_gt _ _)) by lia. set (x := start (data i) + offset / BLOCK_SECTOR_SIZE) in *.
  destruct ((offset mod BLOCK_SECTOR_SIZE =? 0) && (k =? BLOCK_SECTOR_SIZE)) eqn:Ef.
  - left. apply andb_true_iff in Ef as [E1%Z.eqb_eq E2%Z.eqb_eq].
    assert (El : l = v').
    { unfold v', splice. rewrite E1. cbn [Z.to_nat take app Nat.add]. rewrite drop_ge; [by rewrite app_nil_r|]. destruct Sv. lia. }
    rewrite (M_bind_Ok _ _ s l s) by (rewrite <- E2; apply buf_get_ok; lia).
    destruct (fs_write_ok s ss x v' R Hk Sv') as (s1 & E & R1 & I1). exists s1, bounce.
    rewrite El, (M_bind_Ok _ _ _ _ _ E). split_and!; [|done|done]. split_and!; [|done|done]. eapply io_trans; [done|apply io_refl].
  - destruct (get_bounce_ok bounce s) as (ok & s1 & E1 & D1 & I1 & N1). rewrite (M_bind_Ok _ _ _ _ _ E1).
    destruct ok; [left|right; exists s1; rewrite D1; by split_and!; [apply N1..| | |]].
    assert (Hr : (0 <? offset mod BLOCK_SECTOR_SIZE) || (k <? BLOCK_SECTOR_SIZE - offset mod BLOCK_SECTOR_SIZE) = true).
    { apply orb_true_iff. rewrite !Z.ltb_lt. apply andb_false_iff in Ef. rewrite !Z.eqb_neq in Ef. lia. }
    rewrite Hr. destruct (fs_read_ok s1 ss x v) as (s2 & E2 & R2 & I2); [by rewrite D1|lia|done|].
    rewrite (M_bind_Ok _ _ _ _ _ E2), (M_bind_Ok _ _ s2 l s2) by (apply buf_get_ok; lia).
    rewrite (M_bind_Ok _ _ s2 v' s2) by (apply buf_put_ok; destruct Sv; lia).
    destruct (fs_write_ok s2 ss x v' R2 Hk Sv') as (s3 & E3 & R3 & I3). exists s3, true. rewrite (M_bind_Ok _ _ _ _ _ E3).
    pose proof (io_trans false s1 s2 s3 I2 I3) as I23. split_and!; [|done|done].
    split_and!; [by eapply io_trans'| |done]. intros <-. by eapply io_trans'.
Qed.

(** The bytes of the device are those of [ss], but for [n] bytes of the data of [d] from [offset], which are
    those of the buffer from [bw]. *)
Definition written (ss : list (list Z)) (d : inode_disk) (buffer : list Z) (offset bw n : Z) (ss' : list (list Z)) : Prop :=
  forall a, 0 <= a -> byte_at ss' a =
    let b := BLOCK_SECTOR_SIZE * start d + offset in
    if decide (b <= a < b + n) then buffer !! Z.to_nat (bw + (a - b)) else byte_at ss a.

(** What the write loop does: [n] bytes of the buffer in the inode's data, and nothing else on the
    device. *)
Definition writes (ss : list (list Z)) (d : inode_disk) (buffer : list Z) (size offset bw : Z) (bounce : bool) (s : fs)
  (r : outcome (Z * fs)) : Prop :=
  exists n s' ss', r = Ok (bw + n, s') /\
    dev_repr (dev s') ss' /\ length ss' = length ss /\ io (negb bounce) s s' /\ 0 <= n <= avail d size offset /\
    (n < avail d size offset -> no_memory bounce s) /\ written ss d buffer offset bw n ss'.

Lemma writes_stop ss d buffer size offset bw bounce s s' :
  dev_repr (dev s') ss -> io (negb bounce) s s' -> (0 < avail d size offset -> no_memory bounce s) ->
  writes ss d buffer size offset bw bounce s (Ok (bw, s')).
Proof.
  intros R' I N. exists 0, s', ss. rewrite Z.add_0_r. split_and!; auto; [lia|unfold avail; lia|].
  intros a Ha. cbv zeta. by rewrite decide_False by lia.
Qed.

Lemma writes_piece ss d buffer size offset bw bounce s s1 b1 v r :
  let k := chunk d size offset in
  let v' := splice v (offset mod BLOCK_SECTOR_SIZE) (take (Z.to_nat k) (drop (Z.to_nat bw) buffer)) in
  0 < size -> 0 <= offset < length_ d -> 0 <= bw -> bw + size <= Z.of_nat (length buffer) -> 0 <= start d ->
  ss !! Z.to_nat (start d + offset / BLOCK_SECTOR_SIZE) = Some v -> is_sector v -> next_bounce bounce s s1 b1 ->
  writes (<[Z.to_nat (start d + offset / BLOCK_SECTOR_SIZE) := v']> ss) d buffer (size - k) (offset + k) (bw + k) b1 s1 r ->
  writes ss d buffer size offset bw bounce s r.
Proof.
  intros k v' Hs Ho Hb Hl Hst Hv Sv N (n & s' & ss' & -> & R' & L' & I & Hn & Hm & Hbuf).
  destruct (chunk_bounds d size offset Hs Ho) as (B1 & B2 & B3 & B4 & B5). fold k in B1, B2, B4, B5.
  assert (Ll : Z.of_nat (length (take (Z.to_nat k) (drop (Z.to_nat bw) buffer))) = k) by (apply length_piece; lia).
  pose proof (lookup_lt_Some _ _ _ Hv) as Hx. destruct Sv as [Lv _].
  pose proof (Z.div_mod offset BLOCK_SECTOR_SIZE ltac:(done)) as Hdm. assert (0 <= offset / BLOCK_SECTOR_SIZE) by (apply Z.div_pos; [lia|done]).
  exists (k + n), s', ss'. rewrite Z.add_assoc. rewrite length_insert in L'.
  split_and!; [done|done|done|by eapply next_io|lia|lia| |].
  { intros ?. eapply next_memory; [done|]. apply Hm. lia. }
  intros a Ha. cbv zeta. rewrite Hbuf by done. cbv zeta.
  destruct (decide (BLOCK_SECTOR_SIZE * start d + (offset + k) <= a < BLOCK_SECTOR_SIZE * start d + (offset + k) + n)).
  { rewrite decide_True by lia. f_equal. lia. }
  rewrite byte_at_insert by (unfold v'; rewrite ?length_splice by lia; lia).
  destruct (decide (BLOCK_SECTOR_SIZE * start d + offset <= a < BLOCK_SECTOR_SIZE * start d + offset + k)) as [Hin|Hout].
  - rewrite !decide_True by lia. unfold v'. rewrite lookup_splice, Ll, decide_True, lookup_piece, decide_True by lia. f_equal. lia.
  - rewrite (decide_False (P := BLOCK_SECTOR_SIZE * start d + offset <= a < _)) by lia. case_decide; [|done].
    unfold v'. rewrite lookup_splice, Ll, decide_False by lia.
    rewrite <- (byte_at_sector ss (start d + offset / BLOCK_SECTOR_SIZE)) by (done || lia). f_equal. lia.
Qed.

Lemma write_loop_ok fuel p i buffer size offset bw bounce s ss :
  dev_repr (dev s) ss -> inodes s !! p = Some i -> extent_ok (Z.of_nat (length ss)) (data i) -> Forall is_u8 buffer ->
  0 <= offset < 2 ^ 31 -> 0 <= bw -> bw + Z.max 0 size <= Z.of_nat (length buffer) -> size <= Z.of_nat fuel ->
  writes ss (data i) buffer size offset bw bounce s (write_loop fuel p buffer size offset bw bounce s).
Proof.
  revert size offset bw bounce s ss. induction fuel as [|fuel IH]; intros size offset bw bounce s ss R Hi X F Ho Hb Hl Hf.
  all: destruct (Z.lt_ge_cases 0 size) as [Hs|Hs]; [|cbn [write_loop]; rewrite (proj2 (Z.ltb_ge _ _) Hs);
    apply writes_stop; [done|apply io_refl|unfold avail; lia]].
  { lia. }
  destruct (Z.lt_ge_cases offset (length_ (data i))) as [Hlt|Hge].
  2: { cbn [write_loop]. rewrite (proj2 (Z.ltb_lt _ _) Hs), (M_bind_Ok _ _ _ _ _ (get_inode_ok p s i Hi)).
       rewrite (proj2 (Z.leb_le _ _)) by (eapply piece_none; [done|lia|lia]). apply writes_stop; [done|apply io_refl|unfold avail; lia]. }
  destruct (piece_sector ss i offset (Block.dev_sectors _ _ R) X) as (v & Hv & Sv & Hk); [lia|].
  destruct (chunk_bounds (data i) size offset Hs) as (B1 & B2 & B3 & B4 & B5); [lia|].
  destruct (write_round fuel p i buffer size offset bw bounce s ss v) as [(s1 & b1 & N & R1 & E1)|(s1 & N & R1 & I1 & E1)];
    try done; try lia; rewrite E1; [|by apply writes_stop].
  eapply writes_piece; try done; [lia|lia|apply X|].
  apply IH; [done|by rewrite (io_inodes _ _ _ (proj1 N))|by rewrite length_insert|done|destruct X; lia|lia|lia|lia].
Qed.

Lemma inode_read_ok s ss p i buffer size offset :
  dev_repr (dev s) ss -> inodes s !! p = Some i -> extent_ok (Z.of_nat (length ss)) (data i) ->
  0 <= offset < 2 ^ 31 -> Z.max 0 size <= Z.of_nat (length buffer) ->
  reads ss (data i) buffer size offset 0 false s (inode_read_at p buffer size offset s).
Proof. intros. apply read_loop_ok; (done || lia). Qed.

Lemma inode_write_ok s ss p i buffer size offset :
  dev_repr (dev s) ss -> inodes s !! p = Some i -> extent_ok (Z.of_nat (length ss)) (data i) -> Forall is_u8 buffer ->
  deny_write_cnt i = 0 -> 0 <= offset < 2 ^ 31 -> Z.max 0 size <= Z.of_nat (length buffer) ->
  writes ss (data i) buffer size offset 0 false s (inode_write_at p buffer size offset s).
Proof.
  intros R Hi X F Hd Ho Hl. unfold inode_write_at. rewrite (M_bind_Ok _ _ _ _ _ (get_inode_ok p s i Hi)), Hd.
  cbn [Z.eqb negb]. apply write_loop_ok; (done || lia).
Qed.

(** ** Whole sectors *)

(** The number of sectors of [n] bytes. *)
Definition sectors_of (d : inode_disk) : Z := (length_ d + (BLOCK_SECTOR_SIZE - 1)) / BLOCK_SECTOR_SIZE.

Lemma sectors_of_bounds d :
  0 <= length_ d -> 0 <= sectors_of d /\ length_ d <= BLOCK_SECTOR_SIZE * sectors_of d < length_ d + BLOCK_SECTOR_SIZE.
Proof.
  intros H. unfold sectors_of, BLOCK_SECTOR_SIZE. pose proof (Z.div_mod (length_ d + 511) 512). pose proof (Z.mod_pos_bound (length_ d + 511) 512).
  assert (0 <= (length_ d + 511) / 512) by (apply Z.div_pos; lia). change (512 - 1) with 511. lia.
Qed.

Lemma extent_sectors n d : extent_ok n d -> 0 <= start d /\ 0 <= sectors_of d /\ (0 < sectors_of d -> start d + sectors_of d <= n).
Proof.
  intros [H1 H2 H3 H4]. destruct (sectors_of_bounds d) as [B1 B2]; [lia|]. unfold BLOCK_SECTOR_SIZE in *. split_and!; [lia|lia|]. lia.
Qed.

(** Sectors with the same bytes are the same. *)
Lemma sector_ext ss ss' k :
  Forall is_sector ss -> Forall is_sector ss' -> length ss' = length ss -> 0 <= k ->
  (forall o, 0 <= o < BLOCK_SECTOR_SIZE -> byte_at ss' (BLOCK_SECTOR_SIZE * k + o) = byte_at ss (BLOCK_SECTOR_SIZE * k + o)) ->
  ss' !! Z.to_nat k = ss !! Z.to_nat k.
Proof.
  intros F F' L Hk H. destruct (ss !! Z.to_nat k) as [v|] eqn:Hv.
  - pose proof (lookup_lt_Some _ _ _ Hv) as Hl. destruct (lookup_lt_is_Some_2 ss' (Z.to_nat k)) as [v' Hv']; [lia|].
    rewrite Hv'. f_equal. destruct (Forall_lookup_1 _ _ _ _ F Hv) as [L1 _], (Forall_lookup_1 _ _ _ _ F' Hv') as [L2 _].
    apply list_eq. intros o. destruct (decide (Z.of_nat o < BLOCK_SECTOR_SIZE)).
    + specialize (H (Z.of_nat o) ltac:(lia)). rewrite (byte_at_sector ss' k v'), (byte_at_sector ss k v), Nat2Z.id in H by (done || lia). done.
    + rewrite !lookup_ge_None_2 by lia. done.
  - apply lookup_ge_None in Hv. apply lookup_ge_None. lia.
Qed.

(** A write leaves the sectors outside the inode's data as they are. *)
Lemma written_frame ss d buffer size offset n ss' k :
  Forall is_sector ss -> Forall is_sector ss' -> length ss' = length ss -> extent_ok (Z.of_nat (length ss)) d ->
  0 <= n <= avail d size offset -> 0 <= offset -> 0 <= k -> ~ (start d <= k < start d + sectors_of d) ->
  written ss d buffer offset 0 n ss' -> ss' !! Z.to_nat k = ss !! Z.to_nat k.
Proof.
  intros F F' L X Hn Ho Hk Hout H. apply sector_ext; [done..|].
  intros o Hoo. rewrite H by (unfold BLOCK_SECTOR_SIZE in *; lia). cbv zeta. rewrite decide_False; [done|].
  destruct (sectors_of_bounds d) as [B1 B2]; [apply X|]. destruct X as [X1 X2 X3 X4]. unfold avail, BLOCK_SECTOR_SIZE in *. lia.
Qed.

(** ** Lemmas: the free map *)

Lemma file_size_bound b bs : repr b bs -> 0 <= bitmap_file_size b <= 4 * Z.of_nat (length (bits b)).
Proof.
  intros [R1 R2 R3 R4 R5]. unfold bitmap_file_size, byte_cnt. rewrite elem_cnt_eq in * by lia.
  assert (0 <= (bit_cnt b + 31) / 32) by (apply Z.div_pos; lia).
  assert ((bit_cnt b + 31) / 32 < 2 ^ 27) by (apply Z.div_lt_upper_bound; lia).
  rewrite u32_small by (unfold is_u32; lia). lia.
Qed.

Lemma words_u8 ws : Forall is_u8 (ws ≫= word_bytes).
Proof.
  induction ws as [|w ws IH]; [done|]. rewrite bind_cons. apply Forall_app. split; [|done]. repeat constructor; apply u8_range.
Qed.

(** The free map is kept in the open inode [i]. *)
Definition map_file (s : fs) (b : bitmap) (n : Z) (i : inode) : Prop :=
  exists f fl, free_map_file s = Some f /\ files s !! f = Some fl /\ inodes s !! f_inode fl = Some i /\
    extent_ok n (data i) /\ deny_write_cnt i = 0 /\ length_ (data i) = bitmap_file_size b.

(** The free map is in its file on the device. *)
Definition map_stored (b : bitmap) (d : inode_disk) (ss : list (list Z)) : Prop :=
  forall o, 0 <= o < bitmap_file_size b ->
    byte_at ss (BLOCK_SECTOR_SIZE * start d + o) = (bits b ≫= word_bytes) !! Z.to_nat o.

Lemma map_write_ok s ss b bs i :
  dev_repr (dev s) ss -> repr b bs -> map_file s b (Z.of_nat (length ss)) i ->
  exists ok s' ss', bitmap_write_file b (free_map_file s) s = Ok (ok, s') /\
    dev_repr (dev s') ss' /\ length ss' = length ss /\ io true s s' /\ (ok = false -> no_memory false s) /\
    (forall k, 0 <= k -> ~ (start (data i) <= k < start (data i) + sectors_of (data i)) -> ss' !! Z.to_nat k = ss !! Z.to_nat k) /\
    (ok = true -> map_stored b (data i) ss').
Proof.
  intros R Rb (f & fl & Hf & Hfl & Hi & X & Hd & Hlen). pose proof (file_size_bound b bs Rb) as Hz. destruct (ext_len _ _ X) as [_ X1].
  destruct (inode_write_ok s ss (f_inode fl) i (bits b ≫= word_bytes) (bitmap_file_size b) 0) as (n & s' & ss' & E & R' & L' & I & Hn & Hm & W);
    [done|done|done|apply words_u8|done|done|rewrite length_words; lia|].
  rewrite Z.add_0_l in E. unfold avail in *. rewrite Hlen, Z.sub_0_r, Z.min_id, Z.max_r in * by lia.
  exists (n =? bitmap_file_size b), s', ss'. split_and!; [|done|done|done| | |].
  - unfold bitmap_write_file, file_write_at. unfold mbind at 1, M_bind at 1.
    rewrite (M_bind_Ok _ _ s fl s) by (unfold get_file, from, mbind, M_bind, gets; rewrite Hf; cbn; by rewrite Hfl).
    by rewrite E.
  - intros Ene%Z.eqb_neq. apply Hm. lia.
  - intros k Hk Hout. eapply (written_frame ss (data i) _ (bitmap_file_size b) 0 n); try done; [by eapply Block.dev_sectors..|].
    unfold avail. lia.
  - intros ->%Z.eqb_eq o Ho. rewrite W by (unfold BLOCK_SECTOR_SIZE; destruct X; lia). cbv zeta. rewrite decide_True by lia. f_equal. lia.
Qed.

(** Where the free map has a file, it is one [map_write_ok] applies to. *)
Definition map_ready (s : fs) (ss : list (list Z)) (b : bitmap) : Prop :=
  free_map_file s = None \/ exists i, map_file s b (Z.of_nat (length ss)) i.
(** The sectors that writing the free map may change. *)
Definition map_sector (s : fs) (k : Z) : Prop :=
  exists f fl i, free_map_file s = Some f /\ files s !! f = Some fl /\ inodes s !! f_inode fl = Some i /\
    start (data i) <= k < start (data i) + sectors_of (data i).

Lemma map_file_size b b' : bit_cnt b' = bit_cnt b -> bitmap_file_size b' = bitmap_file_size b.
Proof. unfold bitmap_file_size. by intros ->. Qed.

(** What has changed: the free map, sectors of its file, and memory. *)
Record map_io (s s' : fs) (ss ss' : list (list Z)) : Prop := {
  mio_open : open_inodes s' = open_inodes s;
  mio_inodes : inodes s' = inodes s;
  mio_files : files s' = files s;
  mio_file : free_map_file s' = free_map_file s;
  mio_next : next s <= next s';
  mio_mallocs : mallocs s' = mallocs s \/ mallocs s' = tail (mallocs s);
  mio_dev : dev_repr (dev s') ss';
  mio_len : length ss' = length ss;
  mio_frame k : 0 <= k -> ~ map_sector s k -> ss' !! Z.to_nat k = ss !! Z.to_nat k
}.

Lemma map_write_io s ss b bs :
  dev_repr (dev s) ss -> repr b bs -> free_map_file s <> None -> map_ready s ss b ->
  exists ok s' ss', bitmap_write_file b (free_map_file s) s = Ok (ok, s') /\ map_io s s' ss ss' /\ free_map s' = free_map s /\
    (ok = false -> no_memory false s) /\ (ok = true -> forall i, map_file s b (Z.of_nat (length ss)) i -> map_stored b (data i) ss').
Proof.
  intros R Rb Hne [?|[i Hi]]; [done|]. destruct (map_write_ok s ss b bs i R Rb Hi) as (ok & s' & ss' & E & R' & L & I & Hm & Hk & Hst).
  exists ok, s', ss'. split_and!; [done| |apply I|done|].
  - destruct I as [? ? ? ? ? ? M]. split; try done; [by destruct M as [?|[_ ?]]; auto|].
    intros k Hk0 Hns. apply Hk; [done|]. destruct Hi as (f & fl & ? & ? & ? & _). intros ?. apply Hns. by exists f, fl, i.
  - intros -> i' Hi'. destruct Hi as (f & fl & ? & ? & ? & _), Hi' as (f' & fl' & ? & ? & ? & _).
    assert (i' = i) by congruence. subst. by apply Hst.
Qed.

Lemma map_ready_same s s' ss ss' b b' :
  files s' = files s -> inodes s' = inodes s -> free_map_file s' = free_map_file s -> length ss' = length ss ->
  bit_cnt b' = bit_cnt b -> map_ready s ss b -> map_ready s' ss' b'.
Proof.
  intros Ef Ei Em El Eb. unfold map_ready, map_file. rewrite Ef, Ei, Em, El, (map_file_size b b' Eb). done.
Qed.

Lemma repr_bit_cnt b b' bs bs' : repr b bs -> repr b' bs' -> length bs' = length bs -> bit_cnt b' = bit_cnt b.
Proof. intros R R' L. rewrite (repr_cnt _ _ R), (repr_cnt _ _ R'). lia. Qed.

(** Setting the free map, as seen by [map_io]. *)
Lemma map_io_set s s' ss ss' b : map_io s s' ss ss' -> map_io s (set_free_map b s') ss ss'.
Proof. intros [? ? ? ? ? ? ? ? ?]. by split. Qed.
Lemma map_io_from s s' ss ss' b : map_io (set_free_map b s) s' ss ss' -> map_io s s' ss ss'.
Proof. intros [? ? ? ? ? ? ? ? ?]. by split. Qed.
Lemma map_io_refl s ss : dev_repr (dev s) ss -> map_io s s ss ss.
Proof. intros. split; auto. lia. Qed.

Definition allocated (s s' : fs) (ss' : list (list Z)) (bs bs' : list bool) (cnt : Z) (r : option Z) : Prop :=
  match r with
  | Some st => 0 <= st /\ first_group bs 0 (Z.to_nat cnt) false st /\ group bs (Z.to_nat st) (Z.to_nat cnt) false /\
      bs' = fill (Z.to_nat st) (Z.to_nat cnt) true bs /\
      (forall i, map_file s' (free_map s') (Z.of_nat (length ss')) i -> map_stored (free_map s') (data i) ss')
  | None => bs' = bs /\ ((forall j, ~ group bs j (Z.to_nat cnt) false) \/ no_memory false s)
  end.

Lemma free_map_allocate_ok s ss bs cnt :
  dev_repr (dev s) ss -> repr (free_map s) bs -> map_ready s ss (free_map s) -> 0 <= cnt ->
  exists r s' ss' bs', free_map_allocate cnt s = Ok (r, s') /\ map_io s s' ss ss' /\ repr (free_map s') bs' /\
    length bs' = length bs /\ allocated s s' ss' bs bs' cnt r.
Proof.
  intros R Rb Hr Hc. destruct (bitmap_scan_and_flip_ok (free_map s) bs 0 cnt false Rb) as (r & b' & E & G & Rb'); [|done|].
  { pose proof (repr_cnt _ _ Rb). lia. }
  unfold free_map_allocate. unfold mbind at 1, M_bind at 1. cbn [gets]. rewrite (M_bind_Ok _ _ s (r, b') s) by (unfold lift; by rewrite E).
  rewrite M_bind_modify. cbn [fst snd]. destruct G as [(st & -> & Hne & _ & G & First)|(-> & G)].
  2: { rewrite Z.eqb_refl. rewrite decide_True in Rb' by done. exists None, (set_free_map b' s), ss, bs.
       split_and!; [done|by apply map_io_set, map_io_refl|done|done|]. split; [done|]. left. intros j. apply G. lia. }
  rewrite (proj2 (Z.eqb_neq _ _) Hne). rewrite decide_False, Nat2Z.id in Rb' by done. cbn [negb] in Rb'.
  pose proof (length_fill st (Z.to_nat cnt) true bs (proj1 G)) as Lf. pose proof (repr_bit_cnt _ _ _ _ Rb Rb' Lf) as Ec.
  assert (G' : first_group bs 0 (Z.to_nat cnt) false (Z.of_nat st)) by (left; exists st; split_and!; try done; lia).
  unfold mbind at 1, M_bind at 1. cbn [gets]. change (free_map_file (set_free_map b' s)) with (free_map_file s).
  destruct (free_map_file s) as [f|] eqn:Ef.
  2: { exists (Some (Z.of_nat st)), (set_free_map b' s), ss, (fill st (Z.to_nat cnt) true bs).
       split_and!; [done|by apply map_io_set, map_io_refl|done|done|]. cbn [allocated]. rewrite Nat2Z.id. split_and!; try done; [lia|].
       intros i (f & fl & Hf & _). cbn in Hf. congruence. }
  rewrite <- Ef. destruct (map_write_io (set_free_map b' s) ss b' (fill st (Z.to_nat cnt) true bs)) as (ok & s' & ss' & Ew & Io & Em & Hm & Hst);
    [done|done|cbn; congruence|by eapply map_ready_same|]. cbn [set_free_map free_map_file] in Ew. rewrite (M_bind_Ok _ _ _ _ _ Ew).
  destruct ok.
  - exists (Some (Z.of_nat st)), s', ss', (fill st (Z.to_nat cnt) true bs). rewrite Em. split_and!; [done|by eapply map_io_from|done|done|].
    cbn [allocated]. rewrite Nat2Z.id. split_and!; try done; [lia|]. intros i Hi. rewrite Em. cbn. apply Hst; [done|].
    destruct Hi as (f' & fl & H1 & H2 & H3 & H4 & H5 & H6). exists f', fl.
    rewrite <- (mio_file _ _ _ _ Io), <- (mio_files _ _ _ _ Io), <- (mio_inodes _ _ _ _ Io), <- (mio_len _ _ _ _ Io). rewrite Em in H6. done.
  - destruct (bitmap_set_multiple_ok b' _ (Z.of_nat st) cnt false Rb') as (b2 & E2 & Rb2); [lia|done|rewrite Ec, (repr_cnt _ _ Rb); destruct G; lia|].
    rewrite (M_bind_Ok _ _ s' b2 s') by (unfold lift; by rewrite E2). rewrite M_bind_modify.
    pose proof (fill_fill bs st (Z.to_nat cnt) true G) as FF. cbn [negb] in FF. rewrite Nat2Z.id, FF in Rb2.
    exists None, (set_free_map b2 s'), ss', bs. split_and!; [done|by eapply map_io_set, map_io_from|done|done|]. split; [done|]. right. by apply Hm.
Qed.

Lemma free_map_release_ok s ss bs sec cnt :
  dev_repr (dev s) ss -> repr (free_map s) bs -> map_ready s ss (free_map s) -> free_map_file s <> None ->
  0 <= sec -> 0 <= cnt -> group bs (Z.to_nat sec) (Z.to_nat cnt) true ->
  exists s' ss', free_map_release sec cnt s = Ok (tt, s') /\ map_io s s' ss ss' /\
    repr (free_map s') (fill (Z.to_nat sec) (Z.to_nat cnt) false bs).
Proof.
  intros R Rb Hr Hf Hs Hc G. pose proof (proj1 G) as Hl. pose proof (repr_cnt _ _ Rb) as Ec.
  destruct (bitmap_set_multiple_ok (free_map s) bs sec cnt false Rb) as (b' & E & Rb'); [done|done|lia|].
  pose proof (repr_bit_cnt _ _ _ _ Rb Rb' (length_fill _ _ _ _ Hl)) as Ec'.
  assert (Ha : bitmap_all (free_map s) sec cnt = Ok true).
  { unfold bitmap_all. rewrite (bitmap_contains_ok _ bs) by (done || lia). cbn. unfold mret, outcome_ret. do 2 f_equal. apply negb_true_iff, bool_decide_eq_false_2.
    intros [k Hk]%list_elem_of_lookup. unfold slice in Hk. apply lookup_take_Some in Hk as [Hk Hlt]. rewrite lookup_drop in Hk.
    rewrite (proj2 G) in Hk by done. done. }
  unfold free_map_release. unfold mbind at 1, M_bind at 1. cbn [gets]. rewrite (M_bind_Ok _ _ s true s) by (unfold lift; by rewrite Ha).
  rewrite (M_bind_Ok _ _ s tt s) by done. rewrite (M_bind_Ok _ _ s b' s) by (unfold lift; by rewrite E). rewrite M_bind_modify.
  unfold mbind at 1, M_bind at 1. cbn [gets].
  destruct (map_write_io (set_free_map b' s) ss b' (fill (Z.to_nat sec) (Z.to_nat cnt) false bs)) as (ok & s' & ss' & Ew & Io & Em & _ & _); [done|done|done|by eapply map_ready_same|].
  rewrite (M_bind_Ok _ _ _ _ _ Ew). exists s', ss'. rewrite Em. split_and!; [done|by eapply map_io_from|done].
Qed.

(** ** Lemmas: creating an inode *)

Lemma le_word w : is_u32 w -> le (word_bytes w) = w.
Proof. intros H. rewrite <- (word_split w H) at 2. unfold le, word_bytes. cbn [foldr]. pow2_consts. lia. Qed.

Lemma decode_encode d :
  is_u32 (start d) -> is_s32 (length_ d) -> is_u32 (magic d) -> decode (encode d) = d.
Proof.
  intros H1 H2 H3. unfold decode, encode.
  rewrite (take_app_length' (word_bytes (start d))), (drop_app_length' (word_bytes (start d))), (take_app_length' (word_bytes (u32 (length_ d)))) by done.
  assert (E8 : forall l k, drop 8 (word_bytes (start d) ++ word_bytes (u32 (length_ d)) ++ l ++ k) = l ++ k) by done.
  assert (E12 : forall l, drop 12 (word_bytes (start d) ++ word_bytes (u32 (length_ d)) ++ word_bytes (magic d) ++ l) = l) by done.
  rewrite E8, E12, (take_app_length' (word_bytes (magic d))) by done. rewrite !le_word by (done || apply u32_range).
  destruct d as [st len mg un]. cbn in *. f_equal. unfold s32, u32, is_s32 in *. pow2_consts.
  destruct (Z.lt_ge_cases len 0); [|rewrite (Z.mod_small len) by lia; rewrite Z.mod_small; lia].
  replace (len mod 4294967296) with (len + 4294967296) by (apply Z.mod_unique with (-1); lia).
  replace (len + 4294967296 + 2147483648) with (len + 2147483648 + 1 * 4294967296) by lia. rewrite Z.mod_add, Z.mod_small; lia.
Qed.

Lemma encode_sector st len : is_sector (encode (new_inode st len)).
Proof.
  split; [done|]. unfold encode, new_inode. cbn [start length_ magic unused]. rewrite !Forall_app.
  split_and!; try (repeat constructor; apply u8_range). by apply Forall_replicate.
Qed.

Definition zero_sector : list Z := replicate (Z.to_nat BLOCK_SECTOR_SIZE) 0.

Lemma write_zeros_ok n st s ss :
  dev_repr (dev s) ss -> 0 <= st -> st + Z.of_nat n <= Z.of_nat (length ss) ->
  exists s' ss', write_zeros n st s = Ok (tt, s') /\ dev_repr (dev s') ss' /\ io false s s' /\ length ss' = length ss /\
    forall k, 0 <= k -> ss' !! Z.to_nat k = if decide (st <= k < st + Z.of_nat n) then Some zero_sector else ss !! Z.to_nat k.
Proof.
  revert st s ss. induction n as [|n IH]; intros st s ss R Hs Hl.
  { exists s, ss. split_and!; [done|done|apply io_refl|done|]. intros k Hk. by rewrite decide_False by lia. }
  destruct (fs_write_ok s ss st zero_sector R) as (s1 & E1 & R1 & I1); [lia|by split; [|apply Forall_replicate]|].
  cbn [write_zeros]. rewrite (M_bind_Ok _ _ _ _ _ E1). destruct (Block.dev_size_ok _ _ R) as [Ed Hd].
  destruct (Z.eq_dec (Z.of_nat n) 0) as [Hn|Hn].
  - destruct n; [|lia]. exists s1, (<[Z.to_nat st := zero_sector]> ss). split_and!; [done|done|done|apply length_insert|].
    intros k Hk. rewrite list_lookup_insert. destruct (decide (st = k)) as [->|].
    + rewrite !decide_True by lia. done.
    + rewrite !decide_False by lia. done.
  - rewrite u32_small by (unfold is_u32; lia).
    destruct (IH (st + 1) s1 (<[Z.to_nat st := zero_sector]> ss)) as (s' & ss' & E & R' & I & L & H); [done|lia|rewrite length_insert; lia|].
    exists s', ss'. rewrite length_insert in L. split_and!; [done|done|by eapply io_trans|done|].
    intros k Hk. rewrite H, list_lookup_insert by done. destruct (decide (st = k)) as [->|].
    + rewrite decide_False, !decide_True by lia. done.
    + destruct (decide (st + 1 <= k < _)); [by rewrite decide_True by lia|]. rewrite !decide_False by lia. done.
Qed.

Lemma fs_malloc_ok s :
  exists r s', malloc s = Ok (r, s') /\ dev s' = dev s /\ io true s s' /\ mallocs s' = tail (mallocs s) /\
    match r with None => no_memory false s | Some q => q = next s /\ next s' = next s + 1 end.
Proof.
  unfold malloc. destruct (mallocs s) as [|[] r] eqn:E; eexists _, _; (split; [done|]); cbn;
    (split; [done|]); (split; [split; cbn; rewrite ?E; auto; lia|]); rewrite ?E; (split; [done|]); split; cbn; rewrite ?E; done.
Qed.

Lemma bytes_to_sectors_small len :
  0 <= len < 2 ^ 31 - 511 -> bytes_to_sectors len = (len + (BLOCK_SECTOR_SIZE - 1)) / BLOCK_SECTOR_SIZE.
Proof.
  intros H. unfold bytes_to_sectors, BLOCK_SECTOR_SIZE. replace (len + 512 - 1) with (len + (512 - 1)) by lia.
  rewrite s32_small by (unfold is_s32; lia). change (512 - 1) with 511. rewrite Z.quot_div_nonneg by lia.
  apply u32_small. split; [apply Z.div_pos; lia|apply Z.div_lt_upper_bound; lia].
Qed.

(** Near the largest [off_t] the sum of the macro wraps around, and the count is out of reach. *)
Lemma bytes_to_sectors_eq len :
  0 <= len < 2 ^ 31 ->
  (len < 2 ^ 31 - 511 /\ bytes_to_sectors len = (len + (BLOCK_SECTOR_SIZE - 1)) / BLOCK_SECTOR_SIZE) \/ 2 ^ 31 <= bytes_to_sectors len.
Proof.
  intros H. destruct (Z.lt_ge_cases len (2 ^ 31 - 511)); [left; split; [done|apply bytes_to_sectors_small; lia]|].
  unfold bytes_to_sectors, BLOCK_SECTOR_SIZE. replace (len + 512 - 1) with (len + (512 - 1)) by lia.
  right. unfold s32. replace ((len + (512 - 1) + 2 ^ 31) mod 2 ^ 32) with (len + 511 - 2 ^ 31) by (apply Z.mod_unique with 1; lia).
  pow2_consts. set (x := len + 511 - 2147483648 - 2147483648). assert (Hx : -2147483648 <= x <= -2147483138) by lia.
  unfold u32. pow2_consts. assert (Hq : -4194304 <= Z.quot x 512 <= -4194302).
  { replace x with (- (- x)) by lia. rewrite Z.quot_opp_l, Z.quot_div_nonneg by lia.
    assert (- x / 512 <= 4194304) by (apply Z.div_le_upper_bound; lia). assert (4194302 <= - x / 512) by (apply Z.div_le_lower_bound; lia). lia. }
  replace (Z.quot x 512 mod 4294967296) with (Z.quot x 512 + 4294967296) by (apply Z.mod_unique with (-1); lia). lia.
Qed.

Definition sector_cnt (len : Z) : Z := (len + (BLOCK_SECTOR_SIZE - 1)) / BLOCK_SECTOR_SIZE.

(** Writing the header and the zeros. *)
Lemma header_ok s ss sec len st n :
  dev_repr (dev s) ss -> 0 <= sec < Z.of_nat (length ss) -> 0 <= st -> 0 <= n -> st + n <= Z.of_nat (length ss) ->
  exists s' ss', (do* block_write sec (encode (new_inode st len)) ; do* write_zeros (Z.to_nat n) st ; mret true) s = Ok (true, s') /\
    dev_repr (dev s') ss' /\ io false s s' /\ length ss' = length ss /\
    forall k, 0 <= k -> ss' !! Z.to_nat k = if decide (st <= k < st + n) then Some zero_sector
      else if decide (k = sec) then Some (encode (new_inode st len)) else ss !! Z.to_nat k.
Proof.
  intros R Hs Hst Hn Hl. destruct (fs_write_ok s ss sec _ R Hs (encode_sector st len)) as (s1 & E1 & R1 & I1).
  destruct (write_zeros_ok (Z.to_nat n) st s1 _ R1) as (s2 & ss2 & E2 & R2 & I2 & L2 & H2); [done|rewrite length_insert; lia|].
  exists s2, ss2. rewrite (M_bind_Ok _ _ _ _ _ E1), (M_bind_Ok _ _ _ _ _ E2). rewrite length_insert in L2.
  split_and!; [done|done|by eapply io_trans|done|]. intros k Hk. rewrite H2, Z2Nat.id by lia. case_decide; [done|].
  rewrite list_lookup_insert. destruct (decide (k = sec)) as [->|]; [by rewrite decide_True by lia|by rewrite decide_False by lia].
Qed.

End fs.
End Inode.
