(* ===== verification/Files.v ===== *)
(** * The file system's invariant (filesys/inode.c, file.c, free-map.c)

    What holds of the device, the free map and the open inodes and files between calls, and that
    every call on inodes and open files returns and keeps it: creating, opening, closing and
    deleting inodes, reading, writing, and denying writes.  The contents of a file are one array
    of bytes; the theorems say what each call does to it and that it does nothing to other files. *)

From S2P Require Import Prelude Mem Bitmap Block Inode.

Module Files.
Import Mem Bitmap Inode.
Import Block (BLOCK_SECTOR_SIZE, is_sector, le, BlockDevice, dev_repr, dev_size, dev_read, dev_write).

Section files.
Context {B : Type} `{!BlockDevice B}.
#[local] Notation fs := (fs (B := B)).

(** ** The invariant

    [tbl] holds the inodes that exist, those with a name and those that are only open, by
    their sectors. *)

(** The sectors an inode occupies: its own and those of its data. *)
Definition owns (sec : Z) (d : inode_disk) (k : Z) : Prop := k = sec \/ start d <= k < start d + sectors_of d.

(** On the device each inode is in its sector, its data is within the device, no two
    inodes share a sector, and the sectors they occupy are in use in the free map. *)
Record disk_ok (ss : list (list Z)) (bs : list bool) (tbl : gmap Z inode_disk) : Prop := {
  disk_inode sec d : tbl !! sec = Some d -> 0 <= sec /\ (exists v, ss !! Z.to_nat sec = Some v /\ decode v = d) /\
    extent_ok (Z.of_nat (length ss)) d /\ ~ (start d <= sec < start d + sectors_of d);
  disk_used sec d k : tbl !! sec = Some d -> owns sec d k -> bs !! Z.to_nat k = Some true;
  disk_apart sec1 d1 sec2 d2 k :
    tbl !! sec1 = Some d1 -> tbl !! sec2 = Some d2 -> owns sec1 d1 k -> owns sec2 d2 k -> sec1 = sec2
}.

(** The files open on an inode, and those of them that deny writes. *)
Definition count (P : file -> bool) (fm : gmap Z file) : Z := Z.of_nat (size (filter (fun x => P x.2 = true) fm)).
Definition holders (fm : gmap Z file) (p : Z) : Z := count (fun f => f_inode f =? p) fm.
Definition deniers (fm : gmap Z file) (p : Z) : Z := count (fun f => (f_inode f =? p) && deny_write f) fm.

Lemma count_insert P fm f fl : fm !! f = None -> count P (<[f := fl]> fm) = count P fm + (if P fl then 1 else 0).
Proof.
  intros Hf. unfold count. destruct (P fl) eqn:E.
  - rewrite map_filter_insert_True, map_size_insert_None by (done || by apply map_lookup_filter_None; left). lia.
  - rewrite map_filter_insert_False, delete_id by (done || (cbn; congruence)). lia.
Qed.

Lemma count_delete P fm f fl : fm !! f = Some fl -> count P (delete f fm) = count P fm - (if P fl then 1 else 0).
Proof.
  intros Hf. rewrite <- (insert_delete_id fm f fl) at 2 by done. rewrite count_insert by apply lookup_delete_eq. lia.
Qed.

Lemma count_update P fm f fl fl' :
  fm !! f = Some fl -> count P (<[f := fl']> fm) = count P fm - (if P fl then 1 else 0) + (if P fl' then 1 else 0).
Proof. intros Hf. rewrite <- insert_delete_eq, count_insert by apply lookup_delete_eq. by rewrite (count_delete P fm f fl). Qed.

Lemma count_zero P fm : (forall f fl, fm !! f = Some fl -> P fl = false) <-> count P fm = 0.
Proof.
  unfold count. split.
  - intros H. rewrite (map_empty_filter_2 _ fm); [done|]. intros f fl Hf. cbn. by rewrite (H f fl Hf).
  - intros H f fl Hf. destruct (P fl) eqn:E; [|done].
    assert (He : filter (fun x => P x.2 = true) fm = ∅) by (apply map_size_empty_inv; lia).
    assert (Hx : filter (fun x => P x.2 = true) fm !! f = Some fl) by (by apply map_lookup_filter_Some).
    by rewrite He, lookup_empty in Hx.
Qed.

(** The invariant is stated for the files [fm] that still count as open: all of them, but for a
    file that is being closed, from the time it gives up its inode to its release. *)
Section inv.
Context (fm : gmap Z file).

(** In memory, the list of open inodes has each open inode once, there is one per sector, with
    at least as many openers as open files, and as many deniers as its files say. *)
Record mem_ok (s : fs) (tbl : gmap Z inode_disk) : Prop := {
  mem_nodup : NoDup (open_inodes s);
  mem_open p : p ∈ open_inodes s <-> is_Some (inodes s !! p);
  mem_data p i : inodes s !! p = Some i -> tbl !! sector i = Some (data i);
  mem_inj p q i j : inodes s !! p = Some i -> inodes s !! q = Some j -> sector i = sector j -> p = q;
  mem_cnt p i : inodes s !! p = Some i -> 0 < open_cnt i < 2 ^ 31 /\ holders fm p <= open_cnt i /\ deny_write_cnt i = deniers fm p;
  mem_files f fl : fm !! f = Some fl -> is_Some (inodes s !! f_inode fl);
  mem_fresh p : next s <= p -> inodes s !! p = None /\ files s !! p = None
}.

(** The free map, once it has a file, is kept in the inode of sector 0, which stays. *)
Definition map_ok (s : fs) : Prop :=
  match free_map_file s with
  | None => True
  | Some f => exists fl i, (fm !! f = Some fl /\ files s !! f = Some fl) /\ inodes s !! f_inode fl = Some i /\ sector i = FREE_MAP_SECTOR /\
      removed i = false /\ deny_write_cnt i = 0 /\ length_ (data i) = bitmap_file_size (free_map s)
  end.

Record fsinv (s : fs) (ss : list (list Z)) (bs : list bool) (tbl : gmap Z inode_disk) : Prop := {
  inv_dev : dev_repr (dev s) ss;
  inv_map : repr (free_map s) bs;
  inv_len : length bs = length ss;
  inv_small : Z.of_nat (length ss) < 2 ^ 31;
  inv_disk : disk_ok ss bs tbl;
  inv_mem : mem_ok s tbl;
  inv_file : map_ok s
}.

(** ** Lemmas: the invariant *)

Lemma inv_extent s ss bs tbl p i :
  fsinv s ss bs tbl -> inodes s !! p = Some i -> extent_ok (Z.of_nat (length ss)) (data i).
Proof. intros V Hi. eapply disk_inode; [apply V|]. by eapply mem_data; [apply V|]. Qed.

Lemma inv_map_ready s ss bs tbl : fsinv s ss bs tbl -> map_ready s ss (free_map s).
Proof.
  intros V. pose proof (inv_file _ _ _ _ V) as H. unfold map_ok in H. destruct (free_map_file s) as [f|] eqn:Ef; [|by left].
  right. destruct H as (fl & i & [_ H1] & H2 & H3 & H4 & H5 & H6). exists i, f, fl. split_and!; try done. by eapply inv_extent.
Qed.

(** The sectors of the free map's file belong to the inode of sector 0. *)
Lemma inv_map_sector s ss bs tbl sec d k :
  fsinv s ss bs tbl -> tbl !! sec = Some d -> owns sec d k -> map_sector s k -> sec = FREE_MAP_SECTOR /\ k <> sec.
Proof.
  intros V Hd Ho (f & fl & i & Hf & Hfl & Hi & Hk). pose proof (inv_file _ _ _ _ V) as H. unfold map_ok in H. rewrite Hf in H.
  destruct H as (fl' & i' & [_ H1] & H2 & H3 & _). assert (fl' = fl) by congruence. subst fl'. assert (i' = i) by congruence. subst i'.
  pose proof (mem_data _ _ (inv_mem _ _ _ _ V) _ _ Hi) as Ht.
  assert (E : sec = sector i). { eapply (disk_apart _ _ _ (inv_disk _ _ _ _ V) sec d (sector i) (data i) k); try done. by right. }
  split; [congruence|]. intros ->. destruct (disk_inode _ _ _ (inv_disk _ _ _ _ V) _ _ Ht) as (_ & _ & _ & Hself).
  rewrite <- E in Hself. done.
Qed.

(** An inode's own sector is not one of the free map's file. *)
Lemma inv_header s ss bs tbl sec d : fsinv s ss bs tbl -> tbl !! sec = Some d -> ~ map_sector s sec.
Proof. intros V Hd Hm. by destruct (inv_map_sector s ss bs tbl sec d sec V Hd (or_introl eq_refl) Hm). Qed.

(** The device changes, but not where an inode is. *)
Lemma disk_ok_same ss ss' bs bs' tbl :
  disk_ok ss bs tbl -> length ss' = length ss ->
  (forall sec d, tbl !! sec = Some d -> ss' !! Z.to_nat sec = ss !! Z.to_nat sec) ->
  (forall sec d k, tbl !! sec = Some d -> owns sec d k -> bs' !! Z.to_nat k = Some true) ->
  disk_ok ss' bs' tbl.
Proof.
  intros [D1 D2 D3] L H U. split; [|done|done]. intros sec d Hd. rewrite L, (H sec d Hd). by apply D1.
Qed.

Lemma mem_ok_same s s' tbl :
  mem_ok s tbl -> open_inodes s' = open_inodes s -> inodes s' = inodes s -> files s' = files s -> next s <= next s' -> mem_ok s' tbl.
Proof.
  intros [M1 M2 M3 M4 M5 M6 M7] E1 E2 E3 Hn. split; rewrite ?E1, ?E2, ?E3; try done. intros p Hp. apply M7. lia.
Qed.

Lemma map_ok_same s s' :
  map_ok s -> inodes s' = inodes s -> files s' = files s -> free_map_file s' = free_map_file s ->
  bit_cnt (free_map s') = bit_cnt (free_map s) -> map_ok s'.
Proof. unfold map_ok. intros H E1 E2 E3 E4. rewrite E1, E2, E3, (map_file_size (free_map s) _ E4). done. Qed.

(** After an operation on the free map. *)
Lemma fsinv_map s s' ss ss' bs bs' tbl :
  fsinv s ss bs tbl -> map_io s s' ss ss' -> repr (free_map s') bs' -> length bs' = length bs ->
  (forall sec d k, tbl !! sec = Some d -> owns sec d k -> bs' !! Z.to_nat k = Some true) ->
  fsinv s' ss' bs' tbl.
Proof.
  intros V I R L U. pose proof I as [I1 I2 I3 I4 I5 I6 I7 I8 I9]. split.
  - done.
  - done.
  - rewrite L, (inv_len _ _ _ _ V). done.
  - rewrite I8. apply V.
  - eapply disk_ok_same; [apply V|done| |done]. intros sec d Hd. apply I9; [by eapply disk_inode; [apply V|]|by eapply inv_header].
  - by eapply mem_ok_same; [apply V|..].
  - eapply map_ok_same; [apply V|done..|]. by eapply repr_bit_cnt; [apply V|..].
Qed.

(** After reading and writing that leaves the inodes' own sectors as they are. *)
Lemma fsinv_io m s s' ss ss' bs tbl :
  fsinv s ss bs tbl -> io m s s' -> dev_repr (dev s') ss' -> length ss' = length ss ->
  (forall sec d, tbl !! sec = Some d -> ss' !! Z.to_nat sec = ss !! Z.to_nat sec) ->
  fsinv s' ss' bs tbl.
Proof.
  intros V I R L U. pose proof I as [I1 I2 I3 I4 I5 I6 I7]. split.
  - done.
  - rewrite I4. apply V.
  - rewrite L. apply V.
  - rewrite L. apply V.
  - eapply disk_ok_same; [apply V|done|done|]. intros sec d k. apply (disk_used _ _ _ (inv_disk _ _ _ _ V)).
  - by eapply mem_ok_same; [apply V|..].
  - eapply map_ok_same; [apply V|done..|]. by rewrite I4.
Qed.

(** An inode that is new on the device. *)
Lemma disk_ok_add ss bs tbl sec d v :
  disk_ok ss bs tbl -> 0 <= sec -> ss !! Z.to_nat sec = Some v -> decode v = d -> extent_ok (Z.of_nat (length ss)) d ->
  ~ (start d <= sec < start d + sectors_of d) -> (forall k, owns sec d k -> bs !! Z.to_nat k = Some true) ->
  (forall sec' d' k, tbl !! sec' = Some d' -> owns sec' d' k -> ~ owns sec d k) ->
  disk_ok ss bs (<[sec := d]> tbl).
Proof.
  intros [D1 D2 D3] Hs Hv Hd X Hself U A. split.
  - intros sec' d' [[<- <-]|[_ H]]%lookup_insert_Some; [|by apply D1]. split_and!; [done|by exists v|done|done].
  - intros sec' d' k [[<- <-]|[_ H]]%lookup_insert_Some; [apply U|by apply D2].
  - intros s1 d1 s2 d2 k [[<- <-]|[_ H1]]%lookup_insert_Some [[<- <-]|[_ H2]]%lookup_insert_Some O1 O2; [done| | |by eapply D3].
    + by destruct (A _ _ _ H2 O2).
    + by destruct (A _ _ _ H1 O1).
Qed.

(** ** Lemmas: creating an inode *)

(** What creating and deleting leave as it is. *)
Record quiet (m : nat) (s s' : fs) : Prop := {
  q_open : open_inodes s' = open_inodes s;
  q_inodes : inodes s' = inodes s;
  q_files : files s' = files s;
  q_file : free_map_file s' = free_map_file s;
  q_next : next s <= next s';
  q_mallocs : exists k, (k <= m)%nat /\ mallocs s' = drop k (mallocs s)
}.

Lemma quiet_trans m n s1 s2 s3 : quiet m s1 s2 -> quiet n s2 s3 -> quiet (m + n) s1 s3.
Proof.
  intros [? ? ? ? ? (k & Hk & E)] [? ? ? ? ? (j & Hj & E')]. split; try congruence; [lia|].
  exists (k + j)%nat. split; [lia|]. rewrite E', E, drop_drop. done.
Qed.

Lemma io_quiet m s s' : io m s s' -> quiet (if m then 1 else 0) s s'.
Proof.
  intros [? ? ? ? ? ? M]. split; try done. destruct M as [M|[-> M]].
  - exists 0%nat. by destruct m; split; [lia| |lia|].
  - exists 1%nat. split; [done|]. rewrite M. by destruct (mallocs s).
Qed.

Lemma map_io_quiet s s' ss ss' : map_io s s' ss ss' -> quiet 1 s s'.
Proof.
  intros [? ? ? ? ? M ? ? ?]. split; try done. destruct M as [M|M]; [by exists 0%nat; split; [lia|]|].
  exists 1%nat. split; [done|]. rewrite M. by destruct (mallocs s).
Qed.

Lemma owns_pos ss bs tbl sec d k : disk_ok ss bs tbl -> tbl !! sec = Some d -> owns sec d k -> 0 <= k.
Proof. intros D Hd [->|H]; destruct (disk_inode _ _ _ D _ _ Hd) as (? & _ & X & _); [done|]. destruct X. lia. Qed.

(** The in-memory state does not depend on inodes that are not open. *)
Lemma mem_ok_add s tbl sec d : mem_ok s tbl -> tbl !! sec = None -> mem_ok s (<[sec := d]> tbl).
Proof.
  intros [M1 M2 M3 M4 M5 M6 M7] Hn. split; try done. intros p i Hi. rewrite lookup_insert_ne; [by apply M3 with p|].
  intros ->. by rewrite (M3 p i Hi) in Hn.
Qed.

(** The state after [inode_create]: the new inode with its data zeroed, or nothing new. *)
Definition created (s : fs) (ss : list (list Z)) (bs : list bool) (tbl : gmap Z inode_disk) (sec len : Z)
  (ok : bool) (s' : fs) (ss' : list (list Z)) : Prop :=
  if ok then
    exists st bs', fsinv s' ss' bs' (<[sec := new_inode st len]> tbl) /\
      first_group bs 0 (Z.to_nat (sector_cnt len)) false st /\ bs' = fill (Z.to_nat st) (Z.to_nat (sector_cnt len)) true bs /\
      (forall k, st <= k < st + sector_cnt len -> ss' !! Z.to_nat k = Some zero_sector) /\
      (forall k, 0 <= k -> k <> sec -> ~ map_sector s k -> ~ (st <= k < st + sector_cnt len) -> ss' !! Z.to_nat k = ss !! Z.to_nat k)
  else
    fsinv s' ss' bs tbl /\ (forall k, 0 <= k -> ~ map_sector s k -> ss' !! Z.to_nat k = ss !! Z.to_nat k) /\
    ((forall j, ~ group bs j (Z.to_nat (bytes_to_sectors len)) false) \/ mallocs s !! 0%nat <> Some true \/ mallocs s !! 1%nat <> Some true).

(** The free map after sectors have been taken from it. *)
Lemma lookup_taken bs st n k :
  0 <= st -> 0 <= n -> 0 <= k -> group bs (Z.to_nat st) (Z.to_nat n) false ->
  fill (Z.to_nat st) (Z.to_nat n) true bs !! Z.to_nat k = if decide (st <= k < st + n) then Some true else bs !! Z.to_nat k.
Proof.
  intros Hst Hn Hk G. rewrite lookup_fill by apply G. destruct (decide (st <= k < st + n)); [by rewrite decide_True by lia|].
  by rewrite decide_False by lia.
Qed.

(** The sectors taken belong to no inode. *)
Lemma taken_apart ss bs tbl st n sec d k :
  disk_ok ss bs tbl -> group bs (Z.to_nat st) (Z.to_nat n) false -> 0 <= st -> 0 <= n ->
  tbl !! sec = Some d -> owns sec d k -> ~ (st <= k < st + n).
Proof.
  intros D [_ G] Hst Hn Hd Ho Hin. pose proof (disk_used _ _ _ D _ _ _ Hd Ho) as H.
  specialize (G (Z.to_nat k - Z.to_nat st)%nat ltac:(lia)). replace (Z.to_nat st + (Z.to_nat k - Z.to_nat st))%nat with (Z.to_nat k) in G by lia.
  congruence.
Qed.

Lemma taken_inv s s1 ss ss1 bs tbl st n :
  fsinv s ss bs tbl -> map_io s s1 ss ss1 -> group bs (Z.to_nat st) (Z.to_nat n) false -> 0 <= st -> 0 <= n ->
  repr (free_map s1) (fill (Z.to_nat st) (Z.to_nat n) true bs) -> fsinv s1 ss1 (fill (Z.to_nat st) (Z.to_nat n) true bs) tbl.
Proof.
  intros V Io G Hst Hn R. pose proof (inv_disk _ _ _ _ V) as D. eapply fsinv_map; [done|done|done|apply length_fill, G|].
  intros sec d k Hd Ho. rewrite lookup_taken by (done || by eapply owns_pos). rewrite decide_False by (by eapply taken_apart).
  by eapply disk_used.
Qed.

(** The invariant after the header and the zeros have been written. *)
Lemma created_inv s2 s3 ss2 ss3 bs tbl sec len st :
  let n := sector_cnt len in
  let bs' := fill (Z.to_nat st) (Z.to_nat n) true bs in
  fsinv s2 ss2 bs' tbl -> disk_ok ss2 bs tbl -> 0 <= len < 2 ^ 31 - 511 -> 0 <= sec -> bs !! Z.to_nat sec = Some true ->
  (forall sec' d, tbl !! sec' = Some d -> ~ owns sec' d sec) -> 0 <= st -> group bs (Z.to_nat st) (Z.to_nat n) false ->
  io false s2 s3 -> dev_repr (dev s3) ss3 -> length ss3 = length ss2 ->
  (forall k, 0 <= k -> ss3 !! Z.to_nat k = if decide (st <= k < st + n) then Some zero_sector
    else if decide (k = sec) then Some (encode (new_inode st len)) else ss2 !! Z.to_nat k) ->
  fsinv s3 ss3 bs' (<[sec := new_inode st len]> tbl).
Proof.
  intros n bs' V D Hlen Hsec Hused Hfree Hst G I R3 L3 H3. pose proof (inv_len _ _ _ _ V) as Ln. pose proof (inv_small _ _ _ _ V) as Sm.
  unfold bs' in Ln. rewrite length_fill in Ln by apply G.
  assert (Hn : 0 <= n). { unfold n, sector_cnt, BLOCK_SECTOR_SIZE. apply Z.div_pos; lia. }
  assert (Hsec' : ~ (st <= sec < st + n)).
  { intros Hin. destruct G as [_ G]. specialize (G (Z.to_nat sec - Z.to_nat st)%nat ltac:(lia)).
    replace (Z.to_nat st + (Z.to_nat sec - Z.to_nat st))%nat with (Z.to_nat sec) in G by lia. congruence. }
  assert (V3 : fsinv s3 ss3 bs' tbl).
  { eapply fsinv_io; [exact V|done|done|done|]. intros sec' d Hd. assert (Ho : owns sec' d sec') by (by left).
    rewrite H3 by (by eapply owns_pos). rewrite decide_False by (by eapply taken_apart). rewrite decide_False; [done|].
    intros ->. by apply (Hfree sec d). }
  assert (Hnone : tbl !! sec = None). { destruct (tbl !! sec) eqn:Et; [|done]. exfalso. apply (Hfree _ _ Et). by left. }
  destruct V3 as [W1 W2 W3 W4 W5 W6 W7]. split; try done; [|by apply mem_ok_add].
  assert (Hso : sectors_of (new_inode st len) = n) by done.
  eapply disk_ok_add; [done|done| | | | | |].
  - rewrite H3, decide_False, decide_True by done. done.
  - rewrite decode_encode; [done|split; [done|]; destruct G; cbn; lia|split; cbn; lia|done].
  - destruct (sectors_of_bounds (new_inode st len)) as [B1 B2]; [cbn; lia|]. rewrite Hso in *. destruct G as [G _].
    split; cbn [length_ start new_inode]; unfold BLOCK_SECTOR_SIZE in *; cbn in B2; lia.
  - by rewrite Hso.
  - intros k [->|Hk]; unfold bs'; [by rewrite lookup_taken, decide_False|]. rewrite Hso in Hk. cbn in Hk. by rewrite lookup_taken, decide_True by (done || lia).
  - intros sec' d k Hd Ho [->|Hk]; [by eapply Hfree|]. rewrite Hso in Hk. exact (taken_apart ss2 bs tbl st n sec' d k D G Hst Hn Hd Ho Hk).
Qed.

Lemma io_fsinv m s s' ss bs tbl : fsinv s ss bs tbl -> io m s s' -> dev s' = dev s -> fsinv s' ss bs tbl.
Proof. intros V I E. eapply fsinv_io; try done. rewrite E. apply V. Qed.

Lemma io_map_sector m (s s' : fs) k : io m s s' -> map_sector s' k -> map_sector s k.
Proof. intros [? Ei Ef ? Em ? ?] (f & fl & i & H). exists f, fl, i. by rewrite <- Ei, <- Ef, <- Em. Qed.

Lemma inode_create_ok s ss bs tbl sec len :
  fsinv s ss bs tbl -> 0 <= len < 2 ^ 31 -> 0 <= sec -> bs !! Z.to_nat sec = Some true ->
  (forall sec' d, tbl !! sec' = Some d -> ~ owns sec' d sec) ->
  exists ok s' ss', inode_create sec len s = Ok (ok, s') /\ quiet 2 s s' /\ created s ss bs tbl sec len ok s' ss'.
Proof.
  intros V Hlen Hsec Hused Hfree. unfold inode_create. rewrite (proj2 (Z.leb_le _ _)) by lia. rewrite (M_bind_Ok _ _ s tt s) by done.
  destruct (fs_malloc_ok s) as (q & s0 & E0 & D0 & I0 & M0 & Hq). rewrite (M_bind_Ok _ _ _ _ _ E0).
  pose proof (io_fsinv _ _ _ _ _ _ V I0 D0) as V0. pose proof (io_quiet _ _ _ I0) as Q0. destruct q as [q|].
  2: { exists false, s0, ss. split_and!; [done| |]. { destruct Q0 as [? ? ? ? ? (k & ? & ?)]. split; try done. exists k. split; [lia|done]. }
       split; [done|]. split; [done|]. right. left. destruct Hq as [_ Hq]. by destruct (mallocs s). }
  destruct (free_map_allocate_ok s0 ss bs (bytes_to_sectors len)) as (r & s1 & ss1 & bs1 & E1 & Io & Rb & Lb & A);
    [apply V0|apply V0|by eapply inv_map_ready|apply u32_range|]. rewrite (M_bind_Ok _ _ _ _ _ E1).
  pose proof (quiet_trans _ _ _ _ _ Q0 (map_io_quiet _ _ _ _ Io)) as Q1. cbn [Nat.add] in Q1.
  assert (Fr : forall k, 0 <= k -> ~ map_sector s k -> ss1 !! Z.to_nat k = ss !! Z.to_nat k).
  { intros k Hk Hm. apply (mio_frame _ _ _ _ Io); [done|]. intros ?. by eapply Hm, io_map_sector. }
  destruct r as [st|]; cbn [allocated] in A.
  2: { destruct A as [-> A]. exists false, s1, ss1. split_and!; [done|done|]. split; [|split; [done|]].
       - eapply fsinv_map; try done. intros sec' d k. apply (disk_used _ _ _ (inv_disk _ _ _ _ V0)).
       - destruct A as [A|[_ A]]; [by left|]. right. right. rewrite M0 in A. destruct (mallocs s) as [|x [|]]; done. }
  destruct A as (Hst & First & G & -> & _). assert (Hn : len < 2 ^ 31 - 511 /\ bytes_to_sectors len = sector_cnt len).
  { destruct (bytes_to_sectors_eq len Hlen) as [|Hbig]; [done|]. destruct G as [G _].
    pose proof (inv_len _ _ _ _ V). pose proof (inv_small _ _ _ _ V). lia. }
  destruct Hn as [Hlen' Hn]. rewrite Hn in *. set (n := sector_cnt len) in *.
  assert (Hn0 : 0 <= n) by (unfold n, sector_cnt, BLOCK_SECTOR_SIZE; apply Z.div_pos; lia).
  pose proof (taken_inv s0 s1 ss ss1 bs tbl st n V0 Io G Hst Hn0 Rb) as V1. pose proof (mio_len _ _ _ _ Io) as L1.
  pose proof (inv_len _ _ _ _ V) as Ln.
  destruct (header_ok s1 ss1 sec len st n) as (s3 & ss3 & E3 & R3 & I3 & L3 & H3);
    [apply V1|apply lookup_lt_Some in Hused; lia|done|done|destruct G; lia|].
  exists true, s3, ss3. rewrite E3. split_and!; [done|by apply (quiet_trans 2 0 s s1 s3 Q1 (io_quiet _ _ _ I3))|].
  exists st, (fill (Z.to_nat st) (Z.to_nat n) true bs). split_and!; [|done|done|intros k Hk; rewrite H3 by lia; by rewrite decide_True|].
  - eapply (created_inv s1 s3 ss1 ss3); try done; [|lia].
    eapply disk_ok_same; [apply V1|done|done|]. intros sec' d k. apply (disk_used _ _ _ (inv_disk _ _ _ _ V)).
  - intros k Hk Hne Hm Hout. rewrite H3, !decide_False by done. by apply Fr.
Qed.

(** ** Lemmas: opening and closing inodes *)

(** An open inode's counts change. *)
Lemma mem_ok_update s tbl p i i' :
  mem_ok s tbl -> inodes s !! p = Some i -> sector i' = sector i -> data i' = data i ->
  0 < open_cnt i' < 2 ^ 31 -> holders fm p <= open_cnt i' -> deny_write_cnt i' = deniers fm p ->
  mem_ok (set_inodes (open_inodes s) (<[p := i']> (inodes s)) s) tbl.
Proof.
  intros [M1 M2 M3 M4 M5 M6 M7] Hi Es Ed Hc Hh Hd.
  assert (L : forall q j, <[p := i']> (inodes s) !! q = Some j -> exists j0, inodes s !! q = Some j0 /\ sector j = sector j0 /\ data j = data j0).
  { intros q j [[<- <-]|[_ H]]%lookup_insert_Some; [by exists i|by exists j]. }
  assert (S : forall q, is_Some (<[p := i']> (inodes s) !! q) <-> is_Some (inodes s !! q)).
  { intros q. rewrite lookup_insert_is_Some'. split; [intros [<-|]; eauto|auto]. }
  split; cbn [set_inodes open_inodes inodes files next]; try done.
  - intros q. by rewrite S.
  - intros q j (j0 & H & -> & ->)%L. by apply M3 with q.
  - intros q r j k (j0 & H & -> & _)%L (k0 & H' & -> & _)%L. by apply M4.
  - intros q j [[<- <-]|[_ H]]%lookup_insert_Some; [done|by apply M5].
  - intros f fl Hf. rewrite S. by eapply M6.
  - intros q Hq. destruct (M7 q Hq) as [H1 H2]. split; [|done]. rewrite lookup_insert_ne; [done|]. intros <-. congruence.
Qed.

(** A new open inode. *)
Lemma mem_ok_open s tbl sec d :
  mem_ok s tbl -> tbl !! sec = Some d -> (forall p i, inodes s !! p = Some i -> sector i <> sec) ->
  mem_ok (set_inodes (next s :: open_inodes s) (<[next s := MkInode sec 1 false 0 d]> (inodes s)) (set_mallocs (mallocs s) (next s + 1) s)) tbl.
Proof.
  intros [M1 M2 M3 M4 M5 M6 M7] Hd Hn. assert (Hf : inodes s !! next s = None) by (apply M7; lia).
  assert (Hz : holders fm (next s) = 0 /\ deniers fm (next s) = 0).
  { assert (H : forall f fl, fm !! f = Some fl -> f_inode fl =? next s = false).
    { intros f fl Hfl. apply Z.eqb_neq. intros E. rewrite <- E in Hf. destruct (M6 f fl Hfl). congruence. }
    split; apply count_zero; intros f fl Hfl; by rewrite (H f fl Hfl). }
  split; cbn [set_inodes set_mallocs open_inodes inodes files next].
  - apply NoDup_cons. split; [|done]. rewrite M2, Hf. by intros [].
  - intros q. rewrite elem_of_cons, M2, lookup_insert_is_Some'. intuition.
  - intros q j [[<- <-]|[_ H]]%lookup_insert_Some; [done|by apply M3 with q].
  - intros q r j k [[<- <-]|[_ H]]%lookup_insert_Some [[<- <-]|[_ H']]%lookup_insert_Some; cbn; [done| | |by apply M4].
    + intros E. by destruct (Hn _ _ H').
    + intros E. by destruct (Hn _ _ H).
  - intros q j [[<- <-]|[_ H]]%lookup_insert_Some; cbn; [lia|by apply M5].
  - intros f fl Hfl. rewrite lookup_insert_is_Some'. right. by eapply M6.
  - intros q Hq. rewrite lookup_insert_ne by lia. apply M7. lia.
Qed.

(** An inode without openers leaves. *)
Lemma mem_ok_close s tbl p i :
  mem_ok s tbl -> inodes s !! p = Some i -> holders fm p = 0 ->
  mem_ok (set_inodes (filter (fun q => q <> p) (open_inodes s)) (delete p (inodes s)) s) (if removed i then delete (sector i) tbl else tbl).
Proof.
  intros [M1 M2 M3 M4 M5 M6 M7] Hi Hz.
  assert (Hno : forall f fl, fm !! f = Some fl -> f_inode fl <> p).
  { intros f fl Hf. apply Z.eqb_neq. by eapply (proj2 (count_zero _ _) Hz). }
  split; cbn [set_inodes open_inodes inodes files next].
  - by apply NoDup_filter.
  - intros q. rewrite list_elem_of_filter, M2, lookup_delete_is_Some. naive_solver.
  - intros q j [Hne H]%lookup_delete_Some. pose proof (M3 q j H). destruct (removed i); [|done]. rewrite lookup_delete_ne; [done|].
    intros E. apply Hne. by apply (M4 p q i j).
  - intros q r j k [_ H]%lookup_delete_Some [_ H']%lookup_delete_Some. by apply M4.
  - intros q j [_ H]%lookup_delete_Some. by apply M5.
  - intros f fl Hf. apply lookup_delete_is_Some. split; [|by eapply M6]. intros E. by apply (Hno f fl Hf).
  - intros q Hq. destruct (M7 q Hq) as [H1 H2]. split; [|done]. by apply lookup_delete_None; right.
Qed.

(** The inode's entry changes in nothing the free map's file depends on. *)
Lemma map_ok_update s s' p i' :
  map_ok s -> inodes s' = <[p := i']> (inodes s) -> files s' = files s -> free_map_file s' = free_map_file s -> free_map s' = free_map s ->
  (forall i, inodes s !! p = Some i -> sector i' = sector i /\ (removed i = false -> deny_write_cnt i = 0 -> sector i = FREE_MAP_SECTOR ->
     removed i' = false /\ deny_write_cnt i' = 0) /\ data i' = data i) -> map_ok s'.
Proof.
  unfold map_ok. intros H E1 E2 E3 E4 Hu. rewrite E1, E2, E3, E4. destruct (free_map_file s) as [f|]; [|done].
  destruct H as (fl & i & H1 & H2 & H3 & H4 & H5 & H6). destruct (decide (f_inode fl = p)) as [<-|Hn].
  - destruct (Hu i H2) as (U1 & U2 & U3). exists fl, i'. rewrite lookup_insert_eq, U1, U3. destruct (U2 H4 H5 H3) as [U4 U5]. done.
  - exists fl, i. by rewrite lookup_insert_ne.
Qed.

Lemma find_inode_ok (s : fs) sec l :
  (forall p, p ∈ l -> is_Some (inodes s !! p)) ->
  exists r, find_inode sec l s = Ok (r, s) /\
    match r with
    | Some p => exists i, inodes s !! p = Some i /\ sector i = sec
    | None => forall p i, p ∈ l -> inodes s !! p = Some i -> sector i <> sec
    end.
Proof.
  induction l as [|p l IH]; intros H; [exists None; split; [done|]; intros p i Hp; by apply elem_of_nil in Hp|].
  destruct (H p) as [i Hi]; [left|]. cbn [find_inode]. rewrite (M_bind_Ok _ _ _ _ _ (get_inode_ok p s i Hi)).
  destruct (Z.eqb_spec (sector i) sec) as [E|E]; [exists (Some p); eauto|].
  destruct IH as (r & Er & Hr); [intros q Hq; apply H; by right|]. exists r. split; [done|]. destruct r; [done|].
  intros q j [->|Hq]%elem_of_cons Hj; [congruence|by eapply Hr].
Qed.

(** The inode that [inode_open] returns, given the one that was open already. *)
Definition reopened (o : option inode) (sec : Z) (d : inode_disk) : inode :=
  match o with Some i => set_open_cnt (open_cnt i + 1) i | None => MkInode sec 1 false 0 d end.

(** What opening inodes and files leaves as it is. *)
Record calm (m : nat) (s s' : fs) : Prop := {
  calm_map : free_map s' = free_map s;
  calm_file : free_map_file s' = free_map_file s;
  calm_next : next s <= next s';
  calm_mallocs : exists k, (k <= m)%nat /\ mallocs s' = drop k (mallocs s)
}.

Lemma inode_reopen_ok s ss bs tbl p i :
  fsinv s ss bs tbl -> inodes s !! p = Some i -> open_cnt i + 1 < 2 ^ 31 ->
  exists s', inode_reopen (Some p) s = Ok (Some p, s') /\ fsinv s' ss bs tbl /\ calm 0 s s' /\ files s' = files s /\
    inodes s' = <[p := set_open_cnt (open_cnt i + 1) i]> (inodes s).
Proof.
  intros V Hi Hc. pose proof (inv_mem _ _ _ _ V) as Mm. destruct (mem_cnt _ _ Mm _ _ Hi) as (C1 & C2 & C3). eexists.
  unfold inode_reopen. rewrite (M_bind_Ok _ _ _ _ _ (get_inode_ok p s i Hi)). unfold put_inode. rewrite M_bind_modify.
  rewrite s32_small by (unfold is_s32; lia). split; [reflexivity|]. cbn [set_inodes files inodes]. split_and!; [|split; try done; by exists 0%nat|done|done].
  destruct V as [V1 V2 V3 V4 V5 V6 V7]. split; try done.
  - eapply mem_ok_update; try done; cbn; lia.
  - eapply map_ok_update; try done. intros j Hj. assert (j = i) by congruence. by subst.
Qed.

Lemma inode_open_ok s ss bs tbl sec d :
  fsinv s ss bs tbl -> tbl !! sec = Some d -> (forall p i, inodes s !! p = Some i -> sector i = sec -> open_cnt i + 1 < 2 ^ 31) ->
  exists r s', inode_open sec s = Ok (r, s') /\ fsinv s' ss bs tbl /\ calm 1 s s' /\ files s' = files s /\
    match r with
    | Some p => inodes s' = <[p := reopened (inodes s !! p) sec d]> (inodes s) /\ p < next s' /\
        match inodes s !! p with Some i => sector i = sec | None => forall q i, inodes s !! q = Some i -> sector i <> sec end
    | None => inodes s' = inodes s /\ no_memory false s /\ forall q i, inodes s !! q = Some i -> sector i <> sec
    end.
Proof.
  intros V Hd Hc. pose proof (inv_mem _ _ _ _ V) as Mm. unfold inode_open. unfold mbind at 1, M_bind at 1. cbn [gets].
  destruct (find_inode_ok s sec (open_inodes s)) as (r & Er & Hr); [intros p; apply Mm|]. rewrite (M_bind_Ok _ _ _ _ _ Er).
  destruct r as [p|].
  { destruct Hr as (i & Hi & Hs). destruct (inode_reopen_ok s ss bs tbl p i V Hi) as (s' & E & V' & C & Ef & Ei); [by eapply Hc|].
    exists (Some p), s'. rewrite Hi. split_and!; try done.
    - destruct C as [? ? ? (k & ? & ?)]. split; try done. exists k. split; [lia|done].
    - destruct (Z.lt_ge_cases p (next s)) as [|Hge]; [destruct C; lia|]. by destruct (mem_fresh _ _ Mm p Hge) as [? _]; congruence. }
  assert (Hn : forall q i, inodes s !! q = Some i -> sector i <> sec).
  { intros q i Hi. eapply Hr; [|done]. apply (mem_open _ _ Mm). by rewrite Hi. }
  destruct (fs_malloc_ok s) as (q & s1 & E1 & D1 & I1 & M1 & Hq). rewrite (M_bind_Ok _ _ _ _ _ E1).
  pose proof (io_fsinv _ _ _ _ _ _ V I1 D1) as V1. destruct (disk_inode _ _ _ (inv_disk _ _ _ _ V) _ _ Hd) as (Hs & (v & Hv & Ev) & _).
  destruct q as [q|].
  2: { exists None, s1. split_and!; try done; try apply I1. split; try apply I1. exists 1%nat. split; [done|]. rewrite M1. by destruct (mallocs s). }
  destruct Hq as [-> Hq]. rewrite M_bind_modify.
  destruct (fs_read_ok (set_inodes (next s :: open_inodes s1) (inodes s1) s1) ss sec v) as (s2 & E2 & R2 & I2); [apply V1|done|done|].
  rewrite (M_bind_Ok _ _ _ _ _ E2). unfold put_inode. rewrite M_bind_modify. eexists (Some (next s)), _. split; [reflexivity|].
  destruct I1 as [J1 J2 J3 J4 J5 J6 J7], I2 as [K1 K2 K3 K4 K5 K6 K7]. cbn [set_inodes open_inodes inodes files free_map free_map_file next mallocs] in *.
  assert (Hf : inodes s !! next s = None) by (apply Mm; lia). rewrite Hf. cbn [reopened].
  assert (Hm : mallocs s2 = tail (mallocs s)) by (destruct K7 as [->|[? _]]; done).
  split_and!; [|split; cbn; try congruence; [lia|exists 1%nat; split; [done|]; rewrite Hm; by destruct (mallocs s)]|congruence|by rewrite K2, J2, Ev|lia|done].
  rewrite Ev, K1, K2, J1, J2. split; cbn [set_inodes dev free_map].
  - done.
  - rewrite K4, J4. apply V.
  - apply V.
  - apply V.
  - apply V.
  - eapply mem_ok_same; [by eapply (mem_ok_open s tbl sec d)|cbn..]; (congruence || lia).
  - eapply (map_ok_update s _ (next s) (MkInode sec 1 false 0 d)); [apply V|cbn; (done || congruence)..|]. intros i Hi. congruence.
Qed.

(** The free map once an inode's sectors have been given back. *)
Definition freed (bs : list bool) (sec : Z) (d : inode_disk) : list bool :=
  fill (Z.to_nat (start d)) (Z.to_nat (sectors_of d)) false (fill (Z.to_nat sec) (Z.to_nat 1) false bs).

(** The sectors of an inode are in use, and are still when its own sector has been given back. *)
Lemma owned_groups ss bs tbl sec d :
  disk_ok ss bs tbl -> length bs = length ss -> tbl !! sec = Some d ->
  group bs (Z.to_nat sec) (Z.to_nat 1) true /\
  group (fill (Z.to_nat sec) (Z.to_nat 1) false bs) (Z.to_nat (start d)) (Z.to_nat (sectors_of d)) true.
Proof.
  intros D L Hd. destruct (disk_inode _ _ _ D _ _ Hd) as (Hs & (v & Hv & _) & X & Hself). pose proof (disk_used _ _ _ D sec d) as U.
  assert (G1 : group bs (Z.to_nat sec) (Z.to_nat 1) true).
  { apply lookup_lt_Some in Hv. split; [change (Z.to_nat 1) with 1%nat; lia|]. intros k Hk. assert (k = 0%nat) by lia. subst k. rewrite Nat.add_0_r.
    apply U; [done|by left]. }
  split; [done|]. destruct (extent_sectors _ _ X) as (E1 & E2 & E3). split.
  - rewrite length_fill by apply G1. destruct (Z.eq_dec (sectors_of d) 0) as [->|]; [|lia].
    destruct X as [X1 X2 X3 X4]. unfold BLOCK_SECTOR_SIZE in *. lia.
  - intros k Hk. rewrite lookup_fill by apply G1. rewrite decide_False by (change (Z.to_nat 1) with 1%nat; lia).
    specialize (U (start d + Z.of_nat k)). replace (Z.to_nat (start d + Z.of_nat k)) with (Z.to_nat (start d) + k)%nat in U by lia.
    apply U; [done|]. right. lia.
Qed.

Lemma lookup_freed ss bs tbl sec d k :
  disk_ok ss bs tbl -> length bs = length ss -> tbl !! sec = Some d -> 0 <= k -> ~ owns sec d k -> freed bs sec d !! Z.to_nat k = bs !! Z.to_nat k.
Proof.
  intros D L Hd Hk Ho. destruct (owned_groups _ _ _ _ _ D L Hd) as [G1 G2]. destruct (disk_inode _ _ _ D _ _ Hd) as (Hs & _ & X & _).
  destruct (extent_sectors _ _ X) as (E1 & E2 & E3). unfold owns in Ho. unfold freed. rewrite lookup_fill by apply G2. rewrite decide_False by lia.
  rewrite lookup_fill by apply G1. by rewrite decide_False by (change (Z.to_nat 1) with 1%nat; lia).
Qed.

Lemma length_freed ss bs tbl sec d : disk_ok ss bs tbl -> length bs = length ss -> tbl !! sec = Some d -> length (freed bs sec d) = length bs.
Proof.
  intros D L Hd. destruct (owned_groups _ _ _ _ _ D L Hd) as [G1 G2]. unfold freed. rewrite length_fill by apply G2. apply length_fill, G1.
Qed.

Lemma disk_ok_delete ss ss' bs tbl sec d :
  disk_ok ss bs tbl -> length bs = length ss -> tbl !! sec = Some d -> length ss' = length ss ->
  (forall sec' d', tbl !! sec' = Some d' -> ss' !! Z.to_nat sec' = ss !! Z.to_nat sec') ->
  disk_ok ss' (freed bs sec d) (delete sec tbl).
Proof.
  intros D L Hd Ls H. assert (Hsub : forall s d, delete sec tbl !! s = Some d -> s <> sec /\ tbl !! s = Some d)
    by (intros s' d' [? ?]%lookup_delete_Some; done).
  eapply (disk_ok_same ss ss' bs).
  - split.
    + intros s' d' [_ Hs]%Hsub. by apply D.
    + intros s' d' k [_ Hs]%Hsub. by apply D.
    + intros s1 d1 s2 d2 k [_ H1]%Hsub [_ H2]%Hsub. by eapply (disk_apart _ _ _ D).
  - done.
  - intros s' d' [_ Hs]%Hsub. by eapply H.
  - intros s' d' k [Hne Hs]%Hsub Ho. rewrite (lookup_freed ss bs tbl) by (done || by eapply owns_pos || (intros ?; by apply Hne; eapply (disk_apart _ _ _ D))).
    by eapply disk_used.
Qed.

(** Giving the sectors of an inode back. *)
Lemma release_inode s ss bs tbl sec d :
  dev_repr (dev s) ss -> repr (free_map s) bs -> disk_ok ss bs tbl -> length bs = length ss -> map_ready s ss (free_map s) ->
  free_map_file s <> None -> tbl !! sec = Some d ->
  exists s' ss', (do* free_map_release sec 1 ; free_map_release (start d) (bytes_to_sectors (length_ d))) s = Ok (tt, s') /\
    quiet 2 s s' /\ repr (free_map s') (freed bs sec d) /\ dev_repr (dev s') ss' /\ length ss' = length ss /\
    forall k, 0 <= k -> ~ map_sector s k -> ss' !! Z.to_nat k = ss !! Z.to_nat k.
Proof.
  intros R Rb D L Hr Hf Hd. destruct (owned_groups _ _ _ _ _ D L Hd) as [G1 G2]. destruct (disk_inode _ _ _ D _ _ Hd) as (Hs & _ & X & _).
  destruct (extent_sectors _ _ X) as (E1 & E2 & E3).
  assert (Hn : bytes_to_sectors (length_ d) = sectors_of d) by (apply bytes_to_sectors_small, X).
  rewrite Hn. destruct (free_map_release_ok s ss bs sec 1) as (s1 & ss1 & H1 & I1 & R1); [done..|]. rewrite (M_bind_Ok _ _ _ _ _ H1).
  pose proof I1 as [J1 J2 J3 J4 J5 J6 J7 J8 J9].
  destruct (free_map_release_ok s1 ss1 (fill (Z.to_nat sec) (Z.to_nat 1) false bs) (start d) (sectors_of d)) as (s2 & ss2 & H2 & I2 & R2);
    [done|done| |by rewrite J4|done|done|done|].
  { apply (map_ready_same s s1 ss ss1 (free_map s)); try done. eapply repr_bit_cnt; [exact Rb|done|]. apply length_fill, G1. }
  exists s2, ss2. split_and!; [done|by apply (quiet_trans 1 1 s s1 s2 (map_io_quiet _ _ _ _ I1) (map_io_quiet _ _ _ _ I2))|done|apply I2|by rewrite (mio_len _ _ _ _ I2)|].
  intros k Hk Hm. rewrite (mio_frame _ _ _ _ I2), J9; try done. intros (f & fl & i & ?). apply Hm. exists f, fl, i. by rewrite <- J2, <- J3, <- J4.
Qed.

(** The state after [inode_close] on an inode [i]. *)
Definition closed (s s' : fs) (ss ss' : list (list Z)) (bs bs' : list bool) (tbl tbl' : gmap Z inode_disk) (p : Z) (i : inode) : Prop :=
  if decide (open_cnt i = 1) then
    inodes s' = delete p (inodes s) /\
    (if removed i then bs' = freed bs (sector i) (data i) /\ tbl' = delete (sector i) tbl else bs' = bs /\ tbl' = tbl /\ ss' = ss)
  else inodes s' = <[p := set_open_cnt (open_cnt i - 1) i]> (inodes s) /\ bs' = bs /\ tbl' = tbl /\ ss' = ss.

(** The free map's file does not depend on an inode without files. *)
Lemma no_holder s tbl p : mem_ok s tbl -> holders fm p = 0 -> forall f fl, fm !! f = Some fl -> p <> f_inode fl.
Proof. intros _ Hz f fl Hf E. pose proof (proj2 (count_zero _ _) Hz f fl Hf) as H. apply Z.eqb_neq in H. congruence. Qed.

Lemma map_ok_other s s' p :
  map_ok s -> (forall f fl, fm !! f = Some fl -> p <> f_inode fl) -> files s' = files s -> free_map_file s' = free_map_file s ->
  bit_cnt (free_map s') = bit_cnt (free_map s) -> (forall q, q <> p -> inodes s' !! q = inodes s !! q) -> map_ok s'.
Proof.
  unfold map_ok. intros H Hp E1 E2 E3 E4. rewrite E1, E2, (map_file_size (free_map s) _ E3). destruct (free_map_file s) as [f|]; [|done].
  destruct H as (fl & i & [H0 H1] & H2 & H). exists fl, i. rewrite E4; [done|]. intros E. by apply (Hp _ _ H0).
Qed.

Lemma map_ready_other (s s' : fs) p ss :
  map_ready s ss (free_map s) -> map_ok s -> (forall f fl, fm !! f = Some fl -> p <> f_inode fl) -> files s' = files s -> free_map_file s' = free_map_file s ->
  free_map s' = free_map s -> (forall q, q <> p -> inodes s' !! q = inodes s !! q) ->
  map_ready s' ss (free_map s') /\ forall k, map_sector s' k -> map_sector s k.
Proof.
  intros H Mo Hp E1 E2 E3 E4. unfold map_ok in Mo.
  assert (Hq : forall f fl, free_map_file s = Some f -> files s !! f = Some fl -> f_inode fl <> p).
  { intros f fl Hf Hfl E. rewrite Hf in Mo. destruct Mo as (fl' & i & [H0 H1] & _). assert (fl' = fl) by congruence. subst. by apply (Hp _ _ H0). }
  split.
  - destruct H as [H|(i & f & fl & H1 & H2 & H3 & H)]; [left; congruence|]. right. exists i, f, fl. rewrite E1, E2, E3, E4; [done|by eapply Hq].
  - intros k (f & fl & i & H1 & H2 & H3 & H4). exists f, fl, i. rewrite E1 in H2. rewrite E2 in H1. rewrite E4 in H3 by (by eapply Hq). done.
Qed.

Lemma inode_close_ok s ss bs tbl p i :
  fsinv s ss bs tbl -> free_map_file s <> None -> inodes s !! p = Some i -> holders fm p < open_cnt i ->
  exists s' ss' bs' tbl', inode_close (Some p) s = Ok (tt, s') /\ fsinv s' ss' bs' tbl' /\ closed s s' ss ss' bs bs' tbl tbl' p i /\
    files s' = files s /\ free_map_file s' = free_map_file s /\
    forall k, 0 <= k -> ~ map_sector s k -> ss' !! Z.to_nat k = ss !! Z.to_nat k.
Proof.
  intros V Hf Hi Hh. pose proof (inv_mem _ _ _ _ V) as Mm. destruct (mem_cnt _ _ Mm _ _ Hi) as (C1 & C2 & C3).
  unfold inode_close. rewrite (M_bind_Ok _ _ _ _ _ (get_inode_ok p s i Hi)). unfold put_inode. rewrite M_bind_modify.
  rewrite s32_small by (unfold is_s32; lia). cbn [set_open_cnt open_cnt removed sector data].
  unfold closed. destruct (decide (open_cnt i = 1)) as [E1|E1].
  2: { rewrite (proj2 (Z.eqb_neq _ _)) by lia. eexists _, ss, bs, tbl. split; [reflexivity|]. cbn [set_inodes files free_map_file inodes]. split_and!; try done.
       destruct V as [V1 V2 V3 V4 V5 V6 V7]. split; try done.
       - eapply mem_ok_update; try done; cbn; lia.
       - eapply map_ok_update; try done. intros j Hj. assert (j = i) by congruence. by subst. }
  rewrite E1. change (1 - 1) with 0. cbn [Z.eqb]. rewrite M_bind_modify. set (s1 := set_inodes _ _ _).
  assert (Hz : holders fm p = 0). { unfold holders, count in *. lia. }
  pose proof (no_holder s tbl p Mm Hz) as Hno.
  assert (Hin : forall q, q <> p -> inodes s1 !! q = inodes s !! q) by (intros q Hq; cbn; by rewrite lookup_insert_ne).
  assert (Hdel : delete p (inodes s1) = delete p (inodes s)) by (cbn; apply delete_insert_eq).
  pose proof (mem_ok_close s tbl p i Mm Hi Hz) as Mc. pose proof (mem_data _ _ Mm _ _ Hi) as Hd.
  destruct (removed i) eqn:Er.
  2: { rewrite (M_bind_Ok _ _ s1 tt s1) by done. eexists _, ss, bs, tbl. split; [reflexivity|]. rewrite Hdel.
       split_and!; try done. destruct V as [V1 V2 V3 V4 V5 V6 V7]. split; try done.
       eapply (map_ok_other s); try done. intros q Hq. by apply lookup_delete_ne. }
  destruct (map_ready_other s s1 p ss (inv_map_ready _ _ _ _ V) (inv_file _ _ _ _ V) Hno) as [Hr Hms]; [done..|].
  destruct (release_inode s1 ss bs tbl (sector i) (data i)) as (s2 & ss2 & E2 & Q & R2 & Rd & L2 & F2); [apply V|apply V|apply V|apply V|done|done|done|].
  rewrite (M_bind_Ok _ _ _ _ _ E2). exists (set_inodes (open_inodes s2) (delete p (inodes s2)) s2), ss2, (freed bs (sector i) (data i)), (delete (sector i) tbl).
  destruct Q as [Q1 Q2 Q3 Q4 Q5 Q6].
  assert (Fr : forall k, 0 <= k -> ~ map_sector s k -> ss2 !! Z.to_nat k = ss !! Z.to_nat k) by (intros k Hk Hm; apply F2; [done|]; intros ?; by apply Hm, Hms).
  split; [done|]. cbn [set_inodes inodes files free_map_file]. split_and!; [|by rewrite Q2|done|done|done|done|done].
  pose proof (inv_len _ _ _ _ V) as Ln. pose proof (length_freed _ _ _ _ _ (inv_disk _ _ _ _ V) Ln Hd) as Lf.
  split; cbn [set_inodes dev free_map]; try done; [by rewrite Lf, L2|rewrite L2; apply V| | |].
  - eapply disk_ok_delete; [apply V|done|done|done|]. intros sec d Ht. apply Fr; [by eapply disk_inode; [apply V|]|by eapply inv_header].
  - eapply mem_ok_same; [exact Mc|cbn; rewrite ?Q1, ?Q2; done..].
  - eapply (map_ok_other s _ p); [apply V|done|done|done| |].
    + eapply repr_bit_cnt; [apply V|done|done].
    + intros q Hq. cbn. rewrite Q2, lookup_delete_ne by done. by apply Hin.
Qed.

End inv.

(** ** Lemmas: open files *)

Definition b2z (b : bool) : Z := if b then 1 else 0.

Lemma count_le P Q fm : (forall fl, P fl = true -> Q fl = true) -> count P fm <= count Q fm.
Proof.
  intros H. induction fm as [|f fl fm Hf IH] using map_ind; [done|]. rewrite !count_insert by done.
  specialize (H fl). destruct (P fl), (Q fl); lia.
Qed.

Lemma deniers_le fm p : 0 <= deniers fm p <= holders fm p.
Proof. split; [unfold deniers, count; lia|]. apply count_le. intros fl H. by apply andb_true_iff in H as [H _]. Qed.

(** The counts when an open file changes its mode. *)
Lemma holders_mode fm f fl fl' q :
  fm !! f = Some fl -> f_inode fl' = f_inode fl ->
  holders (<[f := fl']> fm) q = holders fm q /\
  deniers (<[f := fl']> fm) q = deniers fm q + (if decide (q = f_inode fl) then b2z (deny_write fl') - b2z (deny_write fl) else 0).
Proof.
  intros Hf E. unfold holders, deniers. rewrite !(count_update _ _ _ _ _ Hf), E. split; [lia|].
  destruct (decide (q = f_inode fl)) as [->|Hn]; [rewrite Z.eqb_refl; unfold b2z; destruct (deny_write fl), (deny_write fl'); cbn; lia|].
  rewrite (proj2 (Z.eqb_neq _ _)) by done. cbn. lia.
Qed.

(** An open inode's counts change together with the files that count. *)
Lemma mem_ok_change fm fm' s s' tbl p i i' :
  mem_ok fm s tbl -> inodes s !! p = Some i -> sector i' = sector i -> data i' = data i -> 0 < open_cnt i' < 2 ^ 31 ->
  holders fm' p <= open_cnt i' -> deny_write_cnt i' = deniers fm' p ->
  (forall q, q <> p -> holders fm' q = holders fm q /\ deniers fm' q = deniers fm q) ->
  (forall f fl, fm' !! f = Some fl -> is_Some (inodes s !! f_inode fl)) ->
  open_inodes s' = open_inodes s -> inodes s' = <[p := i']> (inodes s) -> next s <= next s' ->
  (forall f, next s' <= f -> files s' !! f = None) -> mem_ok fm' s' tbl.
Proof.
  intros [M1 M2 M3 M4 M5 M6 M7] Hi Es Ed Hc Hh Hd Hq Hf Eo Ei Hn Hfr.
  assert (L : forall q j, inodes s' !! q = Some j -> exists j0, inodes s !! q = Some j0 /\ sector j = sector j0 /\ data j = data j0).
  { intros q j. rewrite Ei. intros [[<- <-]|[_ H]]%lookup_insert_Some; [by exists i|by exists j]. }
  assert (S : forall q, is_Some (inodes s' !! q) <-> is_Some (inodes s !! q)).
  { intros q. rewrite Ei, lookup_insert_is_Some'. split; [intros [<-|]; eauto|auto]. }
  split; rewrite ?Eo; try done.
  - intros q. by rewrite S.
  - intros q j (j0 & H & -> & ->)%L. by apply M3 with q.
  - intros q r j k (j0 & H & -> & _)%L (k0 & H' & -> & _)%L. by apply M4.
  - intros q j. rewrite Ei. intros [[<- <-]|[Hne H]]%lookup_insert_Some; [done|]. destruct (Hq q) as [-> ->]; [done|by apply M5].
  - intros f fl Hfl. rewrite S. by eapply Hf.
  - intros q Hge. split; [|by apply Hfr]. destruct (M7 q) as [H1 _]; [lia|]. rewrite Ei, lookup_insert_ne; [done|]. intros <-. congruence.
Qed.

(** An open file changes its position, or starts or stops denying writes. *)
Lemma fsinv_mode s ss bs tbl f fl fl' i :
  fsinv (files s) s ss bs tbl -> files s !! f = Some fl -> f_inode fl' = f_inode fl -> inodes s !! f_inode fl = Some i ->
  (deny_write fl' = deny_write fl \/ forall g gl, free_map_file s = Some g -> files s !! g = Some gl -> f_inode gl <> f_inode fl) ->
  let n := deny_write_cnt i + (b2z (deny_write fl') - b2z (deny_write fl)) in
  let s' := set_files (<[f := fl']> (files s)) (set_inodes (open_inodes s) (<[f_inode fl := set_deny_cnt n i]> (inodes s)) s) in
  fsinv (files s') s' ss bs tbl /\ 0 <= n <= open_cnt i.
Proof.
  intros V Hf E Hi Hm n s'. pose proof (inv_mem _ _ _ _ _ V) as [M1 M2 M3 M4 M5 M6 M7]. pose proof (inv_file _ _ _ _ _ V) as Mo.
  pose proof (fun q => holders_mode (files s) f fl fl' q Hf E) as HM. set (fm' := <[f := fl']> (files s)) in *.
  assert (Hn : n = deniers fm' (f_inode fl)).
  { unfold n. destruct (M5 _ _ Hi) as (_ & _ & ->). rewrite (proj2 (HM _)), decide_True by done. done. }
  assert (Hh : 0 <= n <= open_cnt i).
  { pose proof (deniers_le fm' (f_inode fl)) as Bd. rewrite <- Hn, (proj1 (HM _)) in Bd. destruct (M5 _ _ Hi) as (_ & ? & _). lia. }
  split; [|done]. destruct V as [V1 V2 V3 V4 V5 V6 V7]. split; try done; cbn [s' set_files files].
  - eapply (mem_ok_change (files s) fm' s s' tbl (f_inode fl) i (set_deny_cnt n i)); try done; cbn; try lia; [by apply (M5 _ _ Hi)| | | |].
    + rewrite (proj1 (HM _)). by apply (M5 _ _ Hi).
    + intros q Hq. rewrite (proj1 (HM q)), (proj2 (HM q)), decide_False by done. split; [done|lia].
    + intros g gl [[<- <-]|[_ Hg]]%lookup_insert_Some; [by rewrite E, Hi|by eapply M6].
    + intros g Hg. destruct (M7 g Hg) as [_ Hg']. unfold fm'. rewrite lookup_insert_ne; [done|]. intros ->. congruence.
  - unfold map_ok in *. cbn. destruct (free_map_file s) as [g|]; [|done]. destruct Mo as (gl & j & [_ H1] & H2 & H3 & H4 & H5 & H6).
    destruct (decide (f_inode gl = f_inode fl)) as [Eg|Hne].
    + destruct Hm as [Hm|Hm]; [|by destruct (Hm g gl)]. assert (j = i) by congruence. subst j.
      assert (Hn0 : n = 0) by (unfold n; rewrite Hm, H5; lia).
      destruct (decide (f = g)) as [<-|Hg]; [exists fl'|exists gl]; exists (set_deny_cnt n i); unfold fm';
        rewrite ?E, ?Eg, ?lookup_insert_eq, ?lookup_insert_ne by done; done.
    + assert (f <> g) by congruence. exists gl, j. unfold fm'. by rewrite !lookup_insert_ne.
Qed.

(** A new file takes over a reference to its inode. *)
Lemma fsinv_new_file s s' ss bs tbl p i f :
  fsinv (files s) s ss bs tbl -> inodes s !! p = Some i -> holders (files s) p < open_cnt i -> files s !! f = None -> f < next s' ->
  dev s' = dev s -> io true s s' ->
  let s2 := set_files (<[f := MkFile p 0 false]> (files s')) s' in fsinv (files s2) s2 ss bs tbl.
Proof.
  intros V Hi Hh Hf Hn Ed I s2. pose proof (inv_mem _ _ _ _ _ V) as [M1 M2 M3 M4 M5 M6 M7]. destruct I as [I1 I2 I3 I4 I5 I6 I7].
  destruct V as [V1 V2 V3 V4 V5 V6 V7]. unfold s2. rewrite I3. destruct (M5 _ _ Hi) as (C1 & C2 & C3).
  split; cbn [set_files files dev free_map]; rewrite ?Ed, ?I4; try done.
  - eapply (mem_ok_change (files s) _ s _ tbl p i i); cbn; try done.
    + unfold holders. rewrite count_insert by done. cbn. rewrite Z.eqb_refl. fold (holders (files s) p). lia.
    + unfold deniers. rewrite count_insert, C3 by done. cbn. rewrite andb_false_r. fold (deniers (files s) p). lia.
    + intros q Hq. unfold holders, deniers. rewrite !count_insert by done. cbn. rewrite andb_false_r, (proj2 (Z.eqb_neq _ _)) by done. lia.
    + intros g gl [[<- <-]|[_ Hg]]%lookup_insert_Some; [cbn; by rewrite Hi|by eapply M6].
    + by rewrite I2, insert_id.
    + intros g Hg. rewrite lookup_insert_ne by lia. apply M7. lia.
  - unfold map_ok in *. cbn. rewrite I5, I4, I2. destruct (free_map_file s) as [g|]; [|done]. destruct V7 as (gl & j & [H0 H1] & H). exists gl, j.
    rewrite lookup_insert_ne; [done|]. intros ->. congruence.
Qed.

Lemma file_open_ok s ss bs tbl p i :
  fsinv (files s) s ss bs tbl -> free_map_file s <> None -> inodes s !! p = Some i -> holders (files s) p < open_cnt i ->
  exists r s' ss' bs' tbl', file_open (Some p) s = Ok (r, s') /\ fsinv (files s') s' ss' bs' tbl' /\ free_map_file s' = free_map_file s /\
    match r with
    | Some f => files s' = <[f := MkFile p 0 false]> (files s) /\ files s !! f = None /\ inodes s' = inodes s /\
        ss' = ss /\ bs' = bs /\ tbl' = tbl
    | None => no_memory false s /\ files s' = files s /\ closed s s' ss ss' bs bs' tbl tbl' p i
    end.
Proof.
  intros V Hm Hi Hh. destruct (fs_malloc_ok s) as (q & s1 & E1 & D1 & I1 & M1 & Hq). unfold file_open. rewrite (M_bind_Ok _ _ _ _ _ E1).
  destruct q as [f|].
  - destruct Hq as [-> Hq]. eexists (Some (next s)), _, ss, bs, tbl. split; [reflexivity|].
    assert (Hf : files s !! next s = None) by (apply (mem_fresh _ _ _ (inv_mem _ _ _ _ _ V)); lia).
    split_and!; [eapply fsinv_new_file; try done; lia|apply I1|cbn; by rewrite (io_files _ _ _ I1)|done|apply I1|done..].
  - pose proof (io_fsinv _ _ _ _ _ _ _ V I1 D1) as V1. destruct I1 as [J1 J2 J3 J4 J5 J6 J7].
    destruct (inode_close_ok (files s) s1 ss bs tbl p i V1) as (s' & ss' & bs' & tbl' & E & V' & C & Ef & Em & _); [by rewrite J5|by rewrite J2|done|].
    exists None, s', ss', bs', tbl'. rewrite (M_bind_Ok _ _ _ _ _ E). rewrite Ef, J3. split_and!; try done; [congruence|].
    unfold closed in *. by rewrite J2 in C.
Qed.

(** Starting and stopping to deny writes. *)
Lemma get_file_ok (s : fs) f fl : files s !! f = Some fl -> get_file (Some f) s = Ok (fl, s).
Proof. intros H. unfold get_file, from, mbind, M_bind, gets. cbn. by rewrite H. Qed.

Definition denying (s : fs) (f : Z) (fl : file) (i : inode) (b : bool) : fs :=
  set_files (<[f := MkFile (f_inode fl) (pos fl) b]> (files s))
    (set_inodes (open_inodes s) (<[f_inode fl := set_deny_cnt (deny_write_cnt i + (b2z b - b2z (deny_write fl))) i]> (inodes s)) s).

Lemma denying_same (s : fs) f fl i b :
  files s !! f = Some fl -> inodes s !! f_inode fl = Some i -> deny_write fl = b -> denying s f fl i b = s.
Proof.
  intros Hf Hi <-. unfold denying. rewrite Z.sub_diag, Z.add_0_r. rewrite !insert_id; [by destruct s|destruct i; done|by destruct fl].
Qed.

Lemma file_deny_write_ok s ss bs tbl f fl i :
  fsinv (files s) s ss bs tbl -> files s !! f = Some fl -> inodes s !! f_inode fl = Some i -> sector i <> FREE_MAP_SECTOR ->
  file_deny_write (Some f) s = Ok (tt, denying s f fl i true) /\ fsinv (files (denying s f fl i true)) (denying s f fl i true) ss bs tbl.
Proof.
  intros V Hf Hi Hs. destruct (fsinv_mode s ss bs tbl f fl (MkFile (f_inode fl) (pos fl) true) i) as [V' Hn]; try done.
  { right. intros g gl Hg Hgl Eg. pose proof (inv_file _ _ _ _ _ V) as Mo. unfold map_ok in Mo. rewrite Hg in Mo.
    destruct Mo as (gl' & j & [_ H1] & H2 & H3 & _). assert (gl' = gl) by congruence. subst gl'. rewrite Eg in H2. congruence. }
  split; [|done]. unfold file_deny_write. rewrite (M_bind_Ok _ _ s tt s) by done. rewrite (M_bind_Ok _ _ _ _ _ (get_file_ok s f fl Hf)).
  destruct (deny_write fl) eqn:Ed; cbn [negb]; [by rewrite denying_same|].
  simpl in Hn. destruct (mem_cnt _ _ _ (inv_mem _ _ _ _ _ V) _ _ Hi) as (C1 & _ & _).
  unfold upd_file, put_file. rewrite M_bind_modify. unfold inode_deny_write. rewrite (M_bind_Ok _ _ _ _ _ (get_inode_ok (f_inode fl) (set_files (<[f := MkFile (f_inode fl) (pos fl) true]> (files s)) s) i Hi)).
  unfold put_inode. rewrite M_bind_modify. rewrite s32_small by (unfold is_s32; lia). simpl deny_write_cnt. simpl open_cnt.
  rewrite (proj2 (Z.leb_le _ _)) by lia. unfold denying. rewrite Ed. done.
Qed.

Lemma file_allow_write_ok s ss bs tbl f fl i :
  fsinv (files s) s ss bs tbl -> files s !! f = Some fl -> inodes s !! f_inode fl = Some i ->
  file_allow_write (Some f) s = Ok (tt, denying s f fl i false) /\ fsinv (files (denying s f fl i false)) (denying s f fl i false) ss bs tbl.
Proof.
  intros V Hf Hi. pose proof (inv_mem _ _ _ _ _ V) as Mm. destruct (mem_cnt _ _ _ Mm _ _ Hi) as (C1 & C2 & C3).
  destruct (deny_write fl) eqn:Ed.
  2: { rewrite denying_same by done. split; [|done]. unfold file_allow_write. rewrite (M_bind_Ok _ _ s tt s) by done.
       rewrite (M_bind_Ok _ _ _ _ _ (get_file_ok s f fl Hf)). by rewrite Ed. }
  assert (Hpos : 0 < deny_write_cnt i).
  { pose proof (deniers_le (files s) (f_inode fl)) as Bd. destruct (Z.eq_dec (deny_write_cnt i) 0) as [E|]; [|lia]. exfalso. rewrite C3 in E.
    pose proof (proj2 (count_zero _ _) E f fl Hf) as H. cbn beta in H. by rewrite Ed, Z.eqb_refl in H. }
  destruct (fsinv_mode s ss bs tbl f fl (MkFile (f_inode fl) (pos fl) false) i) as [V' Hn]; try done.
  { right. intros g gl Hg Hgl Eg. pose proof (inv_file _ _ _ _ _ V) as Mo. unfold map_ok in Mo. rewrite Hg in Mo.
    destruct Mo as (gl' & j & [_ H1] & H2 & _ & _ & H5 & _). assert (gl' = gl) by congruence. subst gl'. rewrite Eg in H2.
    assert (j = i) by congruence. subst j. lia. }
  split; [|done]. unfold file_allow_write. rewrite (M_bind_Ok _ _ s tt s) by done. rewrite (M_bind_Ok _ _ _ _ _ (get_file_ok s f fl Hf)), Ed.
  unfold upd_file, put_file. rewrite M_bind_modify. unfold inode_allow_write. rewrite (M_bind_Ok _ _ _ _ _ (get_inode_ok (f_inode fl) (set_files (<[f := MkFile (f_inode fl) (pos fl) false]> (files s)) s) i Hi)).
  pose proof (deniers_le (files s) (f_inode fl)) as Bd.
  rewrite (proj2 (Z.ltb_lt _ _)), (proj2 (Z.leb_le _ _)) by lia. unfold ASSERT. do 2 rewrite (M_bind_Ok (mret tt) _ _ tt _) by done.
  unfold put_inode. rewrite s32_small by (unfold is_s32; lia). unfold denying. rewrite Ed. done.
Qed.

(** A file stops counting as open. *)
Lemma fsinv_drop s ss bs tbl f fl :
  fsinv (files s) s ss bs tbl -> files s !! f = Some fl -> deny_write fl = false -> free_map_file s <> Some f ->
  fsinv (delete f (files s)) s ss bs tbl /\ holders (delete f (files s)) (f_inode fl) = holders (files s) (f_inode fl) - 1.
Proof.
  intros V Hf Hd Hm. pose proof (inv_mem _ _ _ _ _ V) as [M1 M2 M3 M4 M5 M6 M7]. pose proof (inv_file _ _ _ _ _ V) as Mo.
  assert (Hq : forall q, holders (delete f (files s)) q = holders (files s) q - (if f_inode fl =? q then 1 else 0) /\
    deniers (delete f (files s)) q = deniers (files s) q).
  { intros q. unfold holders, deniers. rewrite !(count_delete _ _ _ _ Hf), Hd, andb_false_r. lia. }
  split; [|rewrite (proj1 (Hq _)), Z.eqb_refl; done]. destruct V as [V1 V2 V3 V4 V5 V6 V7]. split; try done.
  - split; try done.
    + intros q j Hj. destruct (Hq q) as [-> ->]. destruct (M5 q j Hj) as (C1 & C2 & C3). destruct (f_inode fl =? q); split_and!; (done || lia).
    + intros g gl [_ Hg]%lookup_delete_Some. by eapply M6.
  - unfold map_ok in *. destruct (free_map_file s) as [g|]; [|done]. destruct Mo as (gl & j & [H0 H1] & H). exists gl, j.
    rewrite lookup_delete_ne; [done|]. intros ->. done.
Qed.

(** A file that no longer counts is released. *)
Lemma fsinv_forget s ss bs tbl f fm :
  fsinv fm s ss bs tbl -> fm = delete f (files s) -> free_map_file s <> Some f -> fsinv fm (set_files fm s) ss bs tbl.
Proof.
  intros [V1 V2 V3 V4 V5 [M1 M2 M3 M4 M5 M6 M7] V7] -> Hm. split; try done.
  - split; try done. intros q Hq. destruct (M7 q Hq) as [? ?]. split; [done|]. cbn. apply lookup_delete_None. by right.
  - unfold map_ok in *. cbn. destruct (free_map_file s) as [g|]; [|done]. destruct V7 as (gl & j & [H0 H1] & H). by exists gl, j.
Qed.

Lemma file_close_ok s ss bs tbl f fl i :
  fsinv (files s) s ss bs tbl -> free_map_file s <> None -> free_map_file s <> Some f -> files s !! f = Some fl -> inodes s !! f_inode fl = Some i ->
  exists s' ss' bs' tbl', file_close (Some f) s = Ok (tt, s') /\ fsinv (files s') s' ss' bs' tbl' /\ files s' = delete f (files s) /\
    free_map_file s' = free_map_file s /\
    closed (denying s f fl i false) s' ss ss' bs bs' tbl tbl' (f_inode fl) (set_deny_cnt (deny_write_cnt i - b2z (deny_write fl)) i) /\
    forall k, 0 <= k -> ~ map_sector (denying s f fl i false) k -> ss' !! Z.to_nat k = ss !! Z.to_nat k.
Proof.
  intros V Hn Hm Hf Hi. destruct (file_allow_write_ok s ss bs tbl f fl i V Hf Hi) as [E1 V1]. set (s1 := denying s f fl i false) in *.
  set (fl1 := MkFile (f_inode fl) (pos fl) false). set (i1 := set_deny_cnt (deny_write_cnt i - b2z (deny_write fl)) i).
  assert (Hf1 : files s1 !! f = Some fl1) by apply lookup_insert_eq.
  assert (Hi1 : inodes s1 !! f_inode fl = Some i1).
  { unfold s1, denying, i1. simpl inodes. rewrite lookup_insert_eq. do 2 f_equal; try (simpl; lia). }
  destruct (fsinv_drop s1 ss bs tbl f fl1 V1 Hf1) as [V2 H2]; [done|done|].
  destruct (mem_cnt _ _ _ (inv_mem _ _ _ _ _ V1) _ _ Hi1) as (_ & C2 & _).
  destruct (inode_close_ok _ s1 ss bs tbl (f_inode fl) i1 V2) as (s2 & ss2 & bs2 & tbl2 & E2 & V3 & C & Ef & Em & Fr); [done|done|simpl f_inode in H2; lia|].
  exists (set_files (delete f (files s2)) s2), ss2, bs2, tbl2.
  assert (Hdel : delete f (files s2) = delete f (files s)) by (rewrite Ef; apply delete_insert_eq).
  split_and!; try done.
  - unfold file_close. rewrite (M_bind_Ok _ _ _ _ _ E1), (M_bind_Ok _ _ _ _ _ (get_file_ok s1 f fl1 Hf1)), (M_bind_Ok _ _ _ _ _ E2). done.
  - simpl files. eapply (fsinv_forget s2 ss2 bs2 tbl2 f); [|done|by rewrite Em]. rewrite <- Ef in V3. done.
Qed.

(** ** The contents of files *)

(** The bytes of an inode's data. *)
Definition content (ss : list (list Z)) (d : inode_disk) : list Z :=
  (fun k => default 0 (byte_at ss (BLOCK_SECTOR_SIZE * start d + k))) <$> seqZ 0 (length_ d).

Lemma length_content ss d : length (content ss d) = Z.to_nat (length_ d).
Proof. unfold content. by rewrite length_fmap, length_seqZ. Qed.

Lemma byte_at_is_Some ss a : Forall is_sector ss -> 0 <= a < BLOCK_SECTOR_SIZE * Z.of_nat (length ss) -> is_Some (byte_at ss a).
Proof.
  intros F Ha. unfold byte_at. assert (Hq : 0 <= a / BLOCK_SECTOR_SIZE < Z.of_nat (length ss)).
  { split; [apply Z.div_pos; [lia|done]|]. apply Z.div_lt_upper_bound; [done|lia]. }
  destruct (lookup_lt_is_Some_2 ss (Z.to_nat (a / BLOCK_SECTOR_SIZE))) as [v Hv]; [lia|]. rewrite Hv. cbn.
  destruct (Forall_lookup_1 _ _ _ _ F Hv) as [L _]. apply lookup_lt_is_Some_2. pose proof (Z.mod_pos_bound a BLOCK_SECTOR_SIZE eq_refl). lia.
Qed.

Lemma lookup_content ss d k :
  Forall is_sector ss -> extent_ok (Z.of_nat (length ss)) d ->
  content ss d !! k = if decide (Z.of_nat k < length_ d) then byte_at ss (BLOCK_SECTOR_SIZE * start d + Z.of_nat k) else None.
Proof.
  intros F [X1 X2 X3 X4]. unfold content. rewrite list_lookup_fmap. case_decide as Hk.
  - rewrite lookup_seqZ_lt by lia. cbn [fmap option_fmap option_map]. rewrite Z.add_0_l.
    destruct (byte_at_is_Some ss (BLOCK_SECTOR_SIZE * start d + Z.of_nat k) F) as [x ->]; [unfold BLOCK_SECTOR_SIZE in *; lia|done].
  - by rewrite lookup_seqZ_ge by lia.
Qed.

(** Contents with the same bytes are the same. *)
Lemma content_ext ss ss' d d' :
  length_ d' = length_ d ->
  (forall k, 0 <= k < length_ d -> byte_at ss' (BLOCK_SECTOR_SIZE * start d' + k) = byte_at ss (BLOCK_SECTOR_SIZE * start d + k)) ->
  content ss' d' = content ss d.
Proof.
  intros L H. unfold content. rewrite L. apply list_fmap_ext. intros i x Hx. apply lookup_seqZ in Hx as [-> Hx]. by rewrite H by lia.
Qed.

Lemma content_same ss ss' d :
  0 <= length_ d -> 0 <= start d -> (forall k, start d <= k < start d + sectors_of d -> ss' !! Z.to_nat k = ss !! Z.to_nat k) -> content ss' d = content ss d.
Proof.
  intros Hl Hs H. apply content_ext; [done|]. intros k Hk. unfold byte_at. rewrite H; [done|].
  destruct (sectors_of_bounds d Hl) as [B1 B2]. replace (BLOCK_SECTOR_SIZE * start d + k) with (k + start d * BLOCK_SECTOR_SIZE) by lia.
  rewrite Z.div_add by done. assert (0 <= k / BLOCK_SECTOR_SIZE) by (apply Z.div_pos; [lia|done]).
  assert (k / BLOCK_SECTOR_SIZE < sectors_of d) by (apply Z.div_lt_upper_bound; [done|lia]). lia.
Qed.

(** Reading: the bytes from [offset] on. *)
Lemma reads_content ss d buffer size offset s r :
  Forall is_sector ss -> extent_ok (Z.of_nat (length ss)) d -> 0 <= offset -> Z.max 0 size <= Z.of_nat (length buffer) ->
  reads ss d buffer size offset 0 false s r ->
  exists n s', r = Ok ((n, splice buffer 0 (take (Z.to_nat n) (drop (Z.to_nat offset) (content ss d)))), s') /\
    dev_repr (dev s') ss /\ io true s s' /\ 0 <= n <= avail d size offset /\ (n < avail d size offset -> no_memory false s).
Proof.
  intros F X Ho Hl (n & buf & s' & -> & R & I & Hn & Hm & Hlen & Hbuf). exists n, s'. split_and!; try done; try lia.
  do 3 f_equal. destruct (decide (n = 0)) as [->|Hn0].
  { unfold splice. cbn [Z.to_nat take app Nat.add length]. rewrite drop_0. apply list_eq. intros k. rewrite Hbuf. by rewrite decide_False by lia. }
  assert (Ll : Z.of_nat (length (take (Z.to_nat n) (drop (Z.to_nat offset) (content ss d)))) = n).
  { apply length_piece; [done|lia|]. rewrite length_content. unfold avail in Hn. lia. }
  apply list_eq. intros k. rewrite Hbuf, lookup_splice, Ll by (unfold avail in Hn; lia). destruct (decide (0 <= Z.of_nat k < 0 + n)); [|done].
  rewrite lookup_piece, decide_True, lookup_content, decide_True by (done || unfold avail in Hn; lia). f_equal. lia.
Qed.

(** Writing: the bytes from [offset] on are replaced, up to the end. *)
Lemma written_content ss ss' d buffer size offset n :
  Forall is_sector ss -> Forall is_sector ss' -> length ss' = length ss -> extent_ok (Z.of_nat (length ss)) d -> 0 <= offset ->
  Z.max 0 size <= Z.of_nat (length buffer) -> 0 <= n <= avail d size offset -> written ss d buffer offset 0 n ss' ->
  content ss' d = splice (content ss d) offset (take (Z.to_nat n) buffer).
Proof.
  intros F F' L X Ho Hl Hn W. destruct (decide (n = 0)) as [->|Hn0].
  { unfold splice. change (take (Z.to_nat 0) buffer) with (@nil Z). rewrite app_nil_l, Nat.add_0_r, take_drop. apply content_ext; [done|]. intros k Hk.
    rewrite W by (unfold BLOCK_SECTOR_SIZE; destruct X; lia). cbv zeta. by rewrite decide_False by lia. }
  assert (Ll : Z.of_nat (length (take (Z.to_nat n) buffer)) = n) by (rewrite length_take; unfold avail in Hn; lia).
  apply list_eq. intros k. rewrite lookup_splice by (rewrite ?length_content, ?Ll; unfold avail in Hn; lia).
  rewrite Ll, !lookup_content by (done || by rewrite L).
  destruct (decide (Z.of_nat k < length_ d)); [|rewrite decide_False by (unfold avail in Hn; lia); done].
  rewrite W by (unfold BLOCK_SECTOR_SIZE; destruct X; lia). cbv zeta. destruct (decide (offset <= Z.of_nat k < offset + n)).
  - rewrite decide_True, lookup_take_lt by lia. f_equal. lia.
  - by rewrite decide_False by lia.
Qed.

(** ** Calls *)

(** An inode's own sector is never among the data sectors of an inode. *)
Lemma header_apart ss bs tbl sec d sec' d' :
  disk_ok ss bs tbl -> tbl !! sec = Some d -> tbl !! sec' = Some d' -> ~ (start d <= sec' < start d + sectors_of d).
Proof.
  intros D Hd Hd' Hin. assert (E : sec = sec') by (eapply (disk_apart _ _ _ D sec d sec' d' sec'); [done|done|by right|by left]).
  subst sec'. by destruct (disk_inode _ _ _ D _ _ Hd) as (_ & _ & _ & ?).
Qed.

(** Writing the data of an inode keeps the invariant and the contents of the other inodes. *)
Lemma written_inv fm m s s' ss ss' bs tbl p i buffer size offset n :
  fsinv fm s ss bs tbl -> inodes s !! p = Some i -> io m s s' -> dev_repr (dev s') ss' -> length ss' = length ss ->
  0 <= n <= avail (data i) size offset -> 0 <= offset -> written ss (data i) buffer offset 0 n ss' ->
  fsinv fm s' ss' bs tbl /\ forall sec d, tbl !! sec = Some d -> sec <> sector i -> content ss' d = content ss d.
Proof.
  intros V Hi I R L Hn Ho W. pose proof (inv_disk _ _ _ _ _ V) as D. pose proof (mem_data _ _ _ (inv_mem _ _ _ _ _ V) _ _ Hi) as Hd.
  destruct (disk_inode _ _ _ D _ _ Hd) as (_ & _ & X & _). pose proof (Block.dev_sectors _ _ (inv_dev _ _ _ _ _ V)) as F.
  assert (Fr : forall k, 0 <= k -> ~ (start (data i) <= k < start (data i) + sectors_of (data i)) -> ss' !! Z.to_nat k = ss !! Z.to_nat k).
  { intros k Hk Hout. eapply written_frame; try done. by eapply Block.dev_sectors. }
  split.
  - eapply fsinv_io; try done. intros sec d Ht. apply Fr; [by eapply disk_inode|by eapply header_apart].
  - intros sec d Ht Hne. destruct (disk_inode _ _ _ D _ _ Ht) as (_ & _ & X' & _). apply content_same; [apply X'|apply X'|].
    intros k Hk. apply Fr; [destruct X'; lia|]. intros Hk'. apply Hne. eapply (disk_apart _ _ _ D sec d (sector i) (data i) k); try done; by right.
Qed.

Lemma inode_read_inv fm s ss bs tbl p i buffer size offset :
  fsinv fm s ss bs tbl -> inodes s !! p = Some i -> 0 <= offset < 2 ^ 31 -> Z.max 0 size <= Z.of_nat (length buffer) ->
  exists n s', inode_read_at p buffer size offset s =
      Ok ((n, splice buffer 0 (take (Z.to_nat n) (drop (Z.to_nat offset) (content ss (data i))))), s') /\
    fsinv fm s' ss bs tbl /\ io true s s' /\ 0 <= n <= avail (data i) size offset /\ (head (mallocs s) = Some true -> n = avail (data i) size offset).
Proof.
  intros V Hi Ho Hl. pose proof (inv_extent _ _ _ _ _ _ _ V Hi) as X. pose proof (Block.dev_sectors _ _ (inv_dev _ _ _ _ _ V)) as F.
  destruct (reads_content ss (data i) buffer size offset s (inode_read_at p buffer size offset s)) as (n & s' & E & R & I & Hn & Hm);
    [done|done|lia|done|apply inode_read_ok; try done; apply V|].
  exists n, s'. split_and!; try done; try lia; [by eapply fsinv_io|]. intros Hh.
  destruct (Z.lt_ge_cases n (avail (data i) size offset)) as [H|]; [|lia]. by destruct (Hm H) as [_ ?].
Qed.

Lemma inode_write_inv fm s ss bs tbl p i buffer size offset :
  fsinv fm s ss bs tbl -> inodes s !! p = Some i -> Forall is_u8 buffer -> 0 <= offset < 2 ^ 31 -> Z.max 0 size <= Z.of_nat (length buffer) ->
  deny_write_cnt i = 0 ->
  exists n s' ss', inode_write_at p buffer size offset s = Ok (n, s') /\ fsinv fm s' ss' bs tbl /\ io true s s' /\
    content ss' (data i) = splice (content ss (data i)) offset (take (Z.to_nat n) buffer) /\
    (forall sec d, tbl !! sec = Some d -> sec <> sector i -> content ss' d = content ss d) /\
    0 <= n <= avail (data i) size offset /\ (head (mallocs s) = Some true -> n = avail (data i) size offset).
Proof.
  intros V Hi Fb Ho Hl Hd. pose proof (inv_extent _ _ _ _ _ _ _ V Hi) as X. pose proof (Block.dev_sectors _ _ (inv_dev _ _ _ _ _ V)) as F.
  destruct (inode_write_ok s ss p i buffer size offset) as (n & s' & ss' & E & R & L & I & Hn & Hm & W); [apply V|done..|].
  rewrite Z.add_0_l in E. destruct (written_inv fm _ s s' ss ss' bs tbl p i buffer size offset n V Hi I R L Hn ltac:(lia) W) as [V' Hc].
  exists n, s', ss'. split_and!; try done; try lia.
  - eapply written_content; try done; [by eapply Block.dev_sectors|lia].
  - intros Hh. destruct (Z.lt_ge_cases n (avail (data i) size offset)) as [H|]; [|lia]. by destruct (Hm H) as [_ ?].
Qed.

Lemma inode_write_denied (s : fs) p i buffer size offset :
  inodes s !! p = Some i -> deny_write_cnt i <> 0 -> inode_write_at p buffer size offset s = Ok (0, s).
Proof.
  intros Hi Hd. unfold inode_write_at. rewrite (M_bind_Ok _ _ _ _ _ (get_inode_ok p s i Hi)). by rewrite (proj2 (Z.eqb_neq _ _) Hd).
Qed.

(** The calls made on open files, and on the inode of one ([CRemove]); [COpen] is what the opening of a
    file by name comes down to once its inode's sector is known. *)
Inductive call :=
  | COpen (sec : Z)
  | CReopen (f : Z)
  | CClose (f : Z)
  | CDeny (f : Z)
  | CAllow (f : Z)
  | CRead (f : Z) (buffer : list Z) (size : Z)
  | CWrite (f : Z) (buffer : list Z) (size : Z)
  | CSeek (f : Z) (p : Z)
  | CRemove (f : Z).

Definition ignore {A} (m : M fs A) : M fs unit := let* _ := m in mret tt.
Definition run (c : call) : M fs unit :=
  match c with
  | COpen sec => ignore (let* i := inode_open sec in file_open i)
  | CReopen f => ignore (file_reopen (Some f))
  | CClose f => file_close (Some f)
  | CDeny f => file_deny_write (Some f)
  | CAllow f => file_allow_write (Some f)
  | CRead f buffer size => ignore (file_read (Some f) buffer size)
  | CWrite f buffer size => ignore (file_write (Some f) buffer size)
  | CSeek f p => file_seek (Some f) p
  | CRemove f => let* i := file_get_inode (Some f) in inode_remove (Some i)
  end.

(** A handle a caller may have: an open file other than the free map's, on an inode other than its. *)
Definition handle (s : fs) (f : Z) : Prop :=
  exists fl i, files s !! f = Some fl /\ inodes s !! f_inode fl = Some i /\ sector i <> FREE_MAP_SECTOR.
(** One more opener would not overflow an inode's count. *)
Definition countable (s : fs) : Prop := forall p i, inodes s !! p = Some i -> open_cnt i + 1 < 2 ^ 31.

Definition legal (s : fs) (tbl : gmap Z inode_disk) (c : call) : Prop :=
  match c with
  | COpen sec => is_Some (tbl !! sec) /\ countable s
  | CReopen f => handle s f /\ countable s
  | CRead f buffer size => handle s f /\ Z.max 0 size <= Z.of_nat (length buffer)
  | CWrite f buffer size => handle s f /\ Z.max 0 size <= Z.of_nat (length buffer) /\ Forall is_u8 buffer
  | CSeek f p => handle s f /\ 0 <= p < 2 ^ 31
  | CClose f | CDeny f | CAllow f | CRemove f => handle s f
  end.

(** Positions are not negative. *)
Definition positions (fm : gmap Z file) : Prop := forall f fl, fm !! f = Some fl -> 0 <= pos fl < 2 ^ 31.

Lemma handle_not_map s ss bs tbl f fl i :
  fsinv (files s) s ss bs tbl -> files s !! f = Some fl -> inodes s !! f_inode fl = Some i -> sector i <> FREE_MAP_SECTOR ->
  free_map_file s <> Some f.
Proof.
  intros V Hf Hi Hs E. pose proof (inv_file _ _ _ _ _ V) as Mo. unfold map_ok in Mo. rewrite E in Mo.
  destruct Mo as (fl' & j & [_ H1] & H2 & H3 & _). assert (fl' = fl) by congruence. subst. congruence.
Qed.

(** A file's position moves. *)
Lemma fsinv_pos s ss bs tbl f fl p :
  fsinv (files s) s ss bs tbl -> files s !! f = Some fl ->
  let s' := set_files (<[f := MkFile (f_inode fl) p (deny_write fl)]> (files s)) s in fsinv (files s') s' ss bs tbl.
Proof.
  intros V Hf s'. destruct (mem_files _ _ _ (inv_mem _ _ _ _ _ V) f fl Hf) as [i Hi].
  destruct (fsinv_mode s ss bs tbl f fl (MkFile (f_inode fl) p (deny_write fl)) i) as [V' _]; try done; [by left|].
  simpl deny_write in V'. rewrite Z.sub_diag, Z.add_0_r, (insert_id (inodes s)) in V' by (rewrite Hi; by destruct i). by destruct s.
Qed.

(** An open inode is marked for deletion. *)
Lemma fsinv_remove fm s ss bs tbl p i :
  fsinv fm s ss bs tbl -> inodes s !! p = Some i -> sector i <> FREE_MAP_SECTOR ->
  exists s', inode_remove (Some p) s = Ok (tt, s') /\ fsinv fm s' ss bs tbl /\ calm 0 s s' /\ files s' = files s /\
    inodes s' = <[p := MkInode (sector i) (open_cnt i) true (deny_write_cnt i) (data i)]> (inodes s).
Proof.
  intros V Hi Hs. eexists. unfold inode_remove. rewrite (M_bind_Ok _ _ _ _ _ (get_inode_ok p s i Hi)). split; [reflexivity|].
  destruct (mem_cnt _ _ _ (inv_mem _ _ _ _ _ V) _ _ Hi) as (C1 & C2 & C3). split_and!; [|split; try done; by exists 0%nat|done|done].
  destruct V as [V1 V2 V3 V4 V5 V6 V7]. split; try done.
  - eapply mem_ok_update; done.
  - eapply map_ok_update; try done. intros j Hj. assert (j = i) by congruence. subst j. split_and!; [done|intros; done|done].
Qed.

(** What a call on open files must do: return, with the invariant. *)
Definition safe (s : fs) (r : outcome (unit * fs)) : Prop :=
  exists s' ss' bs' tbl', r = Ok (tt, s') /\ fsinv (files s') s' ss' bs' tbl' /\ positions (files s') /\ free_map_file s' = free_map_file s.

Lemma positions_insert fm f fl : positions fm -> 0 <= pos fl < 2 ^ 31 -> positions (<[f := fl]> fm).
Proof. intros P H g gl [[<- <-]|[_ Hg]]%lookup_insert_Some; [done|by eapply P]. Qed.

(** Opening a file on an inode of which the caller holds a reference. *)
Lemma file_open_safe s0 s ss bs tbl p i :
  fsinv (files s) s ss bs tbl -> positions (files s) -> free_map_file s <> None -> free_map_file s = free_map_file s0 ->
  inodes s !! p = Some i -> holders (files s) p < open_cnt i ->
  safe s0 (ignore (file_open (Some p)) s).
Proof.
  intros V P Hm E Hi Hh. destruct (file_open_ok s ss bs tbl p i V Hm Hi Hh) as (r & s' & ss' & bs' & tbl' & Er & V' & Em & Hr).
  exists s', ss', bs', tbl'. unfold ignore. rewrite (M_bind_Ok _ _ _ _ _ Er). split_and!; [done|done| |congruence].
  destruct r; [destruct Hr as [-> _]; by apply positions_insert|by destruct Hr as (_ & -> & _)].
Qed.

Lemma open_safe s ss bs tbl sec :
  fsinv (files s) s ss bs tbl -> positions (files s) -> free_map_file s <> None -> is_Some (tbl !! sec) -> countable s ->
  safe s (run (COpen sec) s).
Proof.
  intros V P Hm [d Hd] Hc. pose proof (inv_mem _ _ _ _ _ V) as Mm.
  destruct (inode_open_ok (files s) s ss bs tbl sec d V Hd) as (r & s1 & E1 & V1 & C1 & Ef & Hr); [intros p i Hi _; by eapply Hc|].
  cbn [run]. unfold ignore. unfold mbind at 1, M_bind at 1. rewrite (M_bind_Ok _ _ _ _ _ E1). destruct r as [p|].
  - destruct Hr as (Ei & _ & Hp). rewrite <- Ef in V1, P. eapply (file_open_safe s s1 ss bs tbl p (reopened (inodes s !! p) sec d)); try done.
    + by rewrite (calm_file _ _ _ C1).
    + apply C1.
    + by rewrite Ei, lookup_insert_eq.
    + rewrite Ef. destruct (inodes s !! p) as [i|] eqn:Hi; simpl.
      * destruct (mem_cnt _ _ _ Mm _ _ Hi) as (_ & ? & _). lia.
      * assert (holders (files s) p = 0); [|lia]. apply count_zero. intros f fl Hf. apply Z.eqb_neq. intros <-.
        destruct (mem_files _ _ _ Mm f fl Hf). congruence.
  - unfold file_open. destruct (fs_malloc_ok s1) as (q & s2 & E2 & D2 & I2 & _). rewrite (M_bind_Ok _ _ _ _ _ E2).
    exists s2, ss, bs, tbl. rewrite (io_files _ _ _ I2), Ef. split_and!; [done|by eapply io_fsinv|done|].
    rewrite (io_file _ _ _ I2). apply C1.
Qed.

(** Reading and writing at the position. *)
Lemma moved_safe s s1 ss1 bs tbl m f fl i size n :
  fsinv (files s1) s1 ss1 bs tbl -> io m s s1 -> positions (files s) -> files s !! f = Some fl -> extent_ok (Z.of_nat (length ss1)) (data i) ->
  0 <= n <= avail (data i) size (pos fl) ->
  safe s (upd_file (Some f) (MkFile (f_inode fl) (s32 (pos fl + n)) (deny_write fl)) s1).
Proof.
  intros V I P Hf X Hn. assert (Hr : 0 <= pos fl + n < 2 ^ 31).
  { pose proof (P f fl Hf). unfold avail in Hn. destruct (ext_len _ _ X). lia. }
  eexists _, ss1, bs, tbl. split; [reflexivity|]. split_and!; [|simpl; rewrite (io_files _ _ _ I)|apply I].
  - apply fsinv_pos; [done|by rewrite (io_files _ _ _ I)].
  - apply positions_insert; [done|]. simpl. by rewrite s32_small by (unfold is_s32; lia).
Qed.

Lemma read_safe s ss bs tbl f fl i buffer size :
  fsinv (files s) s ss bs tbl -> positions (files s) -> files s !! f = Some fl -> inodes s !! f_inode fl = Some i ->
  Z.max 0 size <= Z.of_nat (length buffer) -> safe s (run (CRead f buffer size) s).
Proof.
  intros V P Hf Hi Hl. pose proof (P f fl Hf) as Hp. pose proof (inv_extent _ _ _ _ _ _ _ V Hi) as X.
  destruct (inode_read_inv _ s ss bs tbl (f_inode fl) i buffer size (pos fl) V Hi Hp Hl) as (n & s1 & E & V1 & I & Hn & _).
  cbn [run]. unfold file_read, ignore. unfold mbind at 1, M_bind at 1. rewrite (M_bind_Ok _ _ _ _ _ (get_file_ok s f fl Hf)).
  rewrite (M_bind_Ok _ _ _ _ _ E). simpl fst. destruct (moved_safe s s1 ss bs tbl true f fl i size n) as (s' & ss' & bs' & tbl' & Ek & H);
    try done; [by rewrite (io_files _ _ _ I)|]. rewrite (M_bind_Ok _ _ _ _ _ Ek). by exists s', ss', bs', tbl'.
Qed.

Lemma write_safe s ss bs tbl f fl i buffer size :
  fsinv (files s) s ss bs tbl -> positions (files s) -> files s !! f = Some fl -> inodes s !! f_inode fl = Some i ->
  Z.max 0 size <= Z.of_nat (length buffer) -> Forall is_u8 buffer -> safe s (run (CWrite f buffer size) s).
Proof.
  intros V P Hf Hi Hl Fb. pose proof (P f fl Hf) as Hp. pose proof (inv_extent _ _ _ _ _ _ _ V Hi) as X.
  assert (W : exists n s1 ss1, inode_write_at (f_inode fl) buffer size (pos fl) s = Ok (n, s1) /\ fsinv (files s) s1 ss1 bs tbl /\ io true s s1 /\
    0 <= n <= avail (data i) size (pos fl)).
  { destruct (Z.eq_dec (deny_write_cnt i) 0) as [Hd|Hd].
    - destruct (inode_write_inv _ s ss bs tbl (f_inode fl) i buffer size (pos fl) V Hi Fb Hp Hl Hd) as (n & s1 & ss1 & E & V1 & I & _ & _ & Hn & _).
      by exists n, s1, ss1.
    - exists 0, s, ss. split_and!; [by eapply inode_write_denied|done|apply io_refl|lia|unfold avail; lia]. }
  destruct W as (n & s1 & ss1 & E & V1 & I & Hn). cbn [run]. unfold file_write, ignore. unfold mbind at 1, M_bind at 1.
  rewrite (M_bind_Ok _ _ _ _ _ (get_file_ok s f fl Hf)), (M_bind_Ok _ _ _ _ _ E).
  assert (X1 : extent_ok (Z.of_nat (length ss1)) (data i)) by (eapply inv_extent; [exact V1|]; by rewrite (io_inodes _ _ _ I)).
  destruct (moved_safe s s1 ss1 bs tbl true f fl i size n) as (s' & ss' & bs' & tbl' & Ek & H); try done; [by rewrite (io_files _ _ _ I)|].
  rewrite (M_bind_Ok _ _ _ _ _ Ek). by exists s', ss', bs', tbl'.
Qed.

Lemma denying_safe s ss bs tbl f fl i b r :
  positions (files s) -> files s !! f = Some fl ->
  r = Ok (tt, denying s f fl i b) -> fsinv (files (denying s f fl i b)) (denying s f fl i b) ss bs tbl -> safe s r.
Proof.
  intros P Hf -> V. exists (denying s f fl i b), ss, bs, tbl. split_and!; [done|done| |done].
  apply positions_insert; [done|]. simpl. by apply (P f fl).
Qed.

Lemma call_safe s ss bs tbl c :
  fsinv (files s) s ss bs tbl -> positions (files s) -> free_map_file s <> None -> legal s tbl c -> safe s (run c s).
Proof.
  intros V P Hm HL. destruct c; cbn [legal] in HL.
  - destruct HL as [Hd Hc]. by eapply open_safe.
  - destruct HL as [(fl & i & Hf & Hi & Hs) Hc]. destruct (inode_reopen_ok (files s) s ss bs tbl (f_inode fl) i V Hi) as (s1 & E & V1 & C & Ef & Ei); [by eapply Hc|].
    cbn [run]. unfold file_reopen, ignore. unfold mbind at 1, M_bind at 1. rewrite (M_bind_Ok _ _ _ _ _ (get_file_ok s f fl Hf)), (M_bind_Ok _ _ _ _ _ E).
    rewrite <- Ef in V1, P. eapply (file_open_safe s s1 ss bs tbl (f_inode fl)); try done; [by rewrite (calm_file _ _ _ C)|apply C|by rewrite Ei, lookup_insert_eq|].
    rewrite Ef. simpl. destruct (mem_cnt _ _ _ (inv_mem _ _ _ _ _ V) _ _ Hi) as (_ & ? & _). lia.
  - destruct HL as (fl & i & Hf & Hi & Hs). pose proof (handle_not_map _ _ _ _ _ _ _ V Hf Hi Hs) as Hn.
    destruct (file_close_ok s ss bs tbl f fl i V Hm Hn Hf Hi) as (s' & ss' & bs' & tbl' & E & V' & Ef & Em & _).
    exists s', ss', bs', tbl'. split_and!; try done. rewrite Ef. intros g gl [_ Hg]%lookup_delete_Some. by eapply P.
  - destruct HL as (fl & i & Hf & Hi & Hs). destruct (file_deny_write_ok s ss bs tbl f fl i) as [E V']; try done. by eapply denying_safe.
  - destruct HL as (fl & i & Hf & Hi & Hs). destruct (file_allow_write_ok s ss bs tbl f fl i) as [E V']; try done. by eapply denying_safe.
  - destruct HL as [(fl & i & Hf & Hi & Hs) Hl]. by eapply read_safe.
  - destruct HL as ((fl & i & Hf & Hi & Hs) & Hl & Fb). by eapply write_safe.
  - destruct HL as [(fl & i & Hf & Hi & Hs) Hp]. cbn [run]. unfold file_seek. rewrite (M_bind_Ok _ _ s tt s) by done.
    rewrite (proj2 (Z.leb_le _ _)) by lia. rewrite (M_bind_Ok _ _ s tt s) by done. rewrite (M_bind_Ok _ _ _ _ _ (get_file_ok s f fl Hf)).
    eexists _, ss, bs, tbl. split; [reflexivity|]. split_and!; [by apply fsinv_pos|by apply positions_insert|done].
  - destruct HL as (fl & i & Hf & Hi & Hs). destruct (fsinv_remove (files s) s ss bs tbl (f_inode fl) i) as (s' & E & V' & C & Ef & _); try done.
    cbn [run]. unfold file_get_inode. unfold mbind at 1, M_bind at 1. rewrite (M_bind_Ok _ _ _ _ _ (get_file_ok s f fl Hf)).
    exists s', ss, bs, tbl. rewrite Ef. split_and!; try done. apply C.
Qed.

(** Where the sectors of the inodes stay as they were, but for those of the free map's file, so do the contents. *)
Lemma frame_content fm s ss ss' bs tbl :
  fsinv fm s ss bs tbl ->
  (forall sec d k, tbl !! sec = Some d -> owns sec d k -> ~ map_sector s k -> ss' !! Z.to_nat k = ss !! Z.to_nat k) ->
  forall sec d, tbl !! sec = Some d -> sec <> FREE_MAP_SECTOR -> content ss' d = content ss d.
Proof.
  intros V Fr sec d Hd Hne. destruct (disk_inode _ _ _ (inv_disk _ _ _ _ _ V) _ _ Hd) as (_ & _ & X & _). apply content_same; [apply X|apply X|].
  intros k Hk. assert (Ho : owns sec d k) by (by right). apply (Fr sec d); [done|done|]. intros Hm.
  by destruct (inv_map_sector _ _ _ _ _ _ _ _ V Hd Ho Hm).
Qed.

(** A new inode is all zeros. *)
Lemma created_zero ss st len :
  0 <= st -> 0 <= len -> (forall k, st <= k < st + sector_cnt len -> ss !! Z.to_nat k = Some zero_sector) ->
  content ss (new_inode st len) = replicate (Z.to_nat len) 0.
Proof.
  intros Hst Hlen Hz. apply list_eq. intros k. unfold content. rewrite list_lookup_fmap. cbn [length_ new_inode start].
  destruct (decide (Z.of_nat k < len)).
  - rewrite lookup_seqZ_lt, lookup_replicate_2 by lia. cbn [fmap option_fmap option_map]. f_equal. rewrite Z.add_0_l.
    destruct (sectors_of_bounds (new_inode st len) Hlen) as [_ B2]. cbn in B2. change (sectors_of (new_inode st len)) with (sector_cnt len) in B2.
    pose proof (Z.mod_pos_bound (Z.of_nat k) BLOCK_SECTOR_SIZE eq_refl). pose proof (Z.div_mod (Z.of_nat k) BLOCK_SECTOR_SIZE ltac:(done)).
    assert (0 <= Z.of_nat k / BLOCK_SECTOR_SIZE) by (apply Z.div_pos; [lia|done]).
    assert (Z.of_nat k / BLOCK_SECTOR_SIZE < sector_cnt len) by (apply Z.div_lt_upper_bound; [done|lia]).
    replace (BLOCK_SECTOR_SIZE * st + Z.of_nat k) with (BLOCK_SECTOR_SIZE * (st + Z.of_nat k / BLOCK_SECTOR_SIZE) + Z.of_nat k mod BLOCK_SECTOR_SIZE) by lia.
    rewrite (byte_at_sector ss _ zero_sector) by (try apply Hz; lia). unfold zero_sector. by rewrite lookup_replicate_2 by lia.
  - rewrite lookup_seqZ_ge by lia. symmetry. apply lookup_replicate_None. lia.
Qed.

(** What [inode_create] does, in terms of contents. *)
Lemma inode_create_full fm s ss bs tbl sec len :
  fsinv fm s ss bs tbl -> 0 <= sec -> bs !! Z.to_nat sec = Some true -> (forall sec' d, tbl !! sec' = Some d -> ~ owns sec' d sec) ->
  0 <= len < 2 ^ 31 ->
  exists ok s' ss', inode_create sec len s = Ok (ok, s') /\ quiet 2 s s' /\
    (forall sec' d', tbl !! sec' = Some d' -> sec' <> FREE_MAP_SECTOR -> content ss' d' = content ss d') /\
    if ok then
      exists st bs', let d := new_inode st len in
        fsinv fm s' ss' bs' (<[sec := d]> tbl) /\ content ss' d = replicate (Z.to_nat len) 0 /\
        bs' = fill (Z.to_nat st) (Z.to_nat (sectors_of d)) true bs /\ group bs (Z.to_nat st) (Z.to_nat (sectors_of d)) false
    else
      fsinv fm s' ss' bs tbl /\
      ((forall j, ~ group bs j (Z.to_nat (bytes_to_sectors len)) false) \/ mallocs s !! 0%nat <> Some true \/ mallocs s !! 1%nat <> Some true).
Proof.
  intros V Hsec Hu Hfree Hlen. destruct (inode_create_ok fm s ss bs tbl sec len) as (ok & s' & ss' & E & Q & C); try done.
  exists ok, s', ss'. split; [done|]. split; [done|]. pose proof (inv_disk _ _ _ _ _ V) as D. unfold created in C. destruct ok.
  - destruct C as (st & bs' & V' & G & -> & Hz & Fr).
    destruct (disk_inode _ _ _ (inv_disk _ _ _ _ _ V') sec (new_inode st len)) as (_ & _ & X & _); [apply lookup_insert_eq|].
    assert (Gr : group bs (Z.to_nat st) (Z.to_nat (sector_cnt len)) false).
    { destruct G as [(j & -> & _ & _ & G & _)|[-> _]]; [by rewrite Nat2Z.id|]. exfalso. destruct X as [_ _ X _]. cbn in X.
      pose proof (inv_small _ _ _ _ _ V'). unfold BITMAP_ERROR, BLOCK_SECTOR_SIZE in X. lia. }
    split.
    + eapply frame_content; [exact V|]. intros sec' d' k Hd' Ho Hm. apply Fr; [by eapply owns_pos|intros ->; by eapply Hfree|done|].
      eapply taken_apart; try done; [apply X|]. unfold sector_cnt, BLOCK_SECTOR_SIZE. apply Z.div_pos; lia.
    + exists st, (fill (Z.to_nat st) (Z.to_nat (sector_cnt len)) true bs). cbv zeta.
      split_and!; [done|apply created_zero; [apply X|lia|done]|done|done].
  - destruct C as (V' & Fr & R). split; [|done]. eapply frame_content; [exact V|]. intros sec' d' k Hd' Ho Hm.
    apply Fr; [by eapply owns_pos|done].
Qed.

(** ** Main theorems *)

(** C30: Reading an inode sector by sector, through a bounce buffer where a piece is not a whole sector,
    gives the bytes of the one array that is its contents, from the offset on: as many as were asked for
    or as there are, unless there is no memory for the bounce buffer, when it may be fewer.  Nothing else
    in the caller's buffer changes, and the invariant is kept. *)
Theorem inode_read_at_correct s ss bs tbl p i buffer size offset :
  fsinv (files s) s ss bs tbl -> inodes s !! p = Some i -> 0 <= offset < 2 ^ 31 -> Z.max 0 size <= Z.of_nat (length buffer) ->
  exists n s', inode_read_at p buffer size offset s =
      Ok ((n, splice buffer 0 (take (Z.to_nat n) (drop (Z.to_nat offset) (content ss (data i))))), s') /\
    fsinv (files s') s' ss bs tbl /\ 0 <= n <= Z.max 0 (Z.min size (length_ (data i) - offset)) /\
    (head (mallocs s) = Some true -> n = Z.max 0 (Z.min size (length_ (data i) - offset))).
Proof.
  intros V Hi Ho Hl. destruct (inode_read_inv _ s ss bs tbl p i buffer size offset V Hi Ho Hl) as (n & s' & E & V' & I & H).
  exists n, s'. by rewrite (io_files _ _ _ I).
Qed.

(** C31: Writing an inode replaces the bytes of its contents from the offset on, as many as were given or
    as there is room for before the end of the file, which does not grow; fewer only without memory for
    the bounce buffer.  The contents of every other inode stay as they were, and the invariant is kept.
    While somebody denies writes, nothing is written. *)
Theorem inode_write_at_correct s ss bs tbl p i buffer size offset :
  fsinv (files s) s ss bs tbl -> inodes s !! p = Some i -> Forall is_u8 buffer -> 0 <= offset < 2 ^ 31 ->
  Z.max 0 size <= Z.of_nat (length buffer) ->
  (deny_write_cnt i <> 0 -> inode_write_at p buffer size offset s = Ok (0, s)) /\
  (deny_write_cnt i = 0 ->
    exists n s' ss', inode_write_at p buffer size offset s = Ok (n, s') /\ fsinv (files s') s' ss' bs tbl /\
      content ss' (data i) = splice (content ss (data i)) offset (take (Z.to_nat n) buffer) /\
      (forall sec d, tbl !! sec = Some d -> sec <> sector i -> content ss' d = content ss d) /\
      0 <= n <= Z.max 0 (Z.min size (length_ (data i) - offset)) /\
      (head (mallocs s) = Some true -> n = Z.max 0 (Z.min size (length_ (data i) - offset)))).
Proof.
  intros V Hi Fb Ho Hl. split; [by apply inode_write_denied|]. intros Hd.
  destruct (inode_write_inv _ s ss bs tbl p i buffer size offset V Hi Fb Ho Hl Hd) as (n & s' & ss' & E & V' & I & H).
  exists n, s', ss'. by rewrite (io_files _ _ _ I).
Qed.

(** [inode_create] in a sector that is in use but belongs to no inode makes a new inode there, of the
    length asked for and all zeros, with data sectors that were free and are now in use, and leaves every
    other inode but the free map's file as it was; or it returns false, with no new inode and no sector
    taken, only when no run of free sectors is long enough or memory runs out.  A negative length fails
    the assertion. *)
Theorem inode_create_correct s ss bs tbl sec len :
  fsinv (files s) s ss bs tbl -> 0 <= sec -> bs !! Z.to_nat sec = Some true -> (forall sec' d, tbl !! sec' = Some d -> ~ owns sec' d sec) ->
  len < 2 ^ 31 ->
  (len < 0 -> inode_create sec len s = Fail FAssert) /\
  (0 <= len -> exists ok s' ss', inode_create sec len s = Ok (ok, s') /\
    (forall sec' d', tbl !! sec' = Some d' -> sec' <> FREE_MAP_SECTOR -> content ss' d' = content ss d') /\
    if ok then
      exists st bs', let d := new_inode st len in
        fsinv (files s') s' ss' bs' (<[sec := d]> tbl) /\ content ss' d = replicate (Z.to_nat len) 0 /\
        bs' = fill (Z.to_nat st) (Z.to_nat (sectors_of d)) true bs /\ group bs (Z.to_nat st) (Z.to_nat (sectors_of d)) false
    else
      fsinv (files s') s' ss' bs tbl /\
      ((forall j, ~ group bs j (Z.to_nat (bytes_to_sectors len)) false) \/ mallocs s !! 0%nat <> Some true \/ mallocs s !! 1%nat <> Some true)).
Proof.
  intros V Hsec Hu Hfree Hlen. split; [intros Hneg; unfold inode_create; by rewrite (proj2 (Z.leb_gt _ _)) by done|]. intros Hpos.
  destruct (inode_create_full (files s) s ss bs tbl sec len) as (ok & s' & ss' & E & Q & C); try done.
  exists ok, s', ss'. by rewrite (q_files _ _ _ Q).
Qed.

(** C32: Every call on open files with a handle that is open returns, whatever calls of malloc fail: no
    assertion on the counts of openers and deniers fails, nothing that has been released is accessed, and
    the invariant holds afterwards.  The calls are opening, reopening, closing, denying and allowing
    writes, reading, writing, seeking and marking for deletion. *)
Theorem file_calls_safe s ss bs tbl c :
  fsinv (files s) s ss bs tbl -> positions (files s) -> free_map_file s <> None -> legal s tbl c ->
  exists s' ss' bs' tbl', run c s = Ok (tt, s') /\ fsinv (files s') s' ss' bs' tbl' /\ positions (files s') /\
    free_map_file s' = free_map_file s.
Proof. apply call_safe. Qed.

(** Closing a file gives up its reference to the inode and, if it denied writes, its denial.  While
    there are other openers the inode stays; with the last one it leaves memory, and if it was marked for
    deletion exactly its own sector and its data sectors become free, and it no longer exists.  The
    contents of the other files are as they were. *)
Theorem file_close_correct s ss bs tbl f fl i :
  fsinv (files s) s ss bs tbl -> free_map_file s <> None -> files s !! f = Some fl -> inodes s !! f_inode fl = Some i ->
  sector i <> FREE_MAP_SECTOR ->
  exists s' ss' bs' tbl', file_close (Some f) s = Ok (tt, s') /\ fsinv (files s') s' ss' bs' tbl' /\ files s' = delete f (files s) /\
    (forall sec d, tbl' !! sec = Some d -> sec <> FREE_MAP_SECTOR -> tbl !! sec = Some d /\ content ss' d = content ss d) /\
    (if decide (open_cnt i = 1) then
       inodes s' = delete (f_inode fl) (inodes s) /\
       (if removed i then bs' = freed bs (sector i) (data i) /\ tbl' = delete (sector i) tbl else bs' = bs /\ tbl' = tbl)
     else
       inodes s' = <[f_inode fl := MkInode (sector i) (open_cnt i - 1) (removed i) (deny_write_cnt i - b2z (deny_write fl)) (data i)]> (inodes s) /\
       bs' = bs /\ tbl' = tbl).
Proof.
  intros V Hm Hf Hi Hs. pose proof (handle_not_map _ _ _ _ _ _ _ V Hf Hi Hs) as Hn.
  destruct (file_close_ok s ss bs tbl f fl i V Hm Hn Hf Hi) as (s' & ss' & bs' & tbl' & E & V' & Ef & Em & C & Fr).
  destruct (file_allow_write_ok s ss bs tbl f fl i V Hf Hi) as [_ V1].
  exists s', ss', bs', tbl'. split; [done|]. split; [done|]. split; [done|].
  assert (Hc : forall sec d, tbl !! sec = Some d -> sec <> FREE_MAP_SECTOR -> content ss' d = content ss d).
  { eapply frame_content; [exact V1|]. intros sec d k Hd Ho Hk. apply Fr; [by eapply owns_pos; [apply V|..]|done]. }
  unfold closed in C. simpl open_cnt in C. simpl removed in C. simpl inodes in C. destruct (decide (open_cnt i = 1)).
  - destruct C as [Ei C]. rewrite delete_insert_eq in Ei. destruct (removed i).
    + destruct C as [-> ->]. split; [|done]. intros sec d [_ Hd]%lookup_delete_Some Hne. split; [done|by eapply Hc].
    + destruct C as (-> & -> & ->). done.
  - destruct C as (Ei & -> & -> & ->). rewrite insert_insert_eq in Ei. done.
Qed.

End files.

(** ** A small file system

    Sixteen sectors: the free map's inode and file, the root directory, and one file of 600 bytes, named
    a, whose inode is in sector 4 and whose data is in sectors 5 and 6: a program with one segment.
    Sector 7 has been taken for a new inode. *)

#[local] Existing Instance Block.ram_device.

Definition demo_dir : list Z := word_bytes 4 ++ [97] ++ replicate 14 0 ++ [1] ++ replicate 492 0.
Definition demo_program : list Z :=
  [0x7f; 69; 76; 70; 1; 1; 1] ++ replicate 9 0 ++ [2; 0; 3; 0] ++ word_bytes 1 ++ word_bytes 0x8048054 ++ word_bytes 52 ++ word_bytes 0 ++ word_bytes 0 ++
  [52; 0; 32; 0; 1; 0; 0; 0; 0; 0; 0; 0] ++
  word_bytes 1 ++ word_bytes 0 ++ word_bytes 0x8048000 ++ word_bytes 0x8048000 ++ word_bytes 600 ++ word_bytes 700 ++ word_bytes 5 ++ word_bytes 4096 ++
  [0xb8; 1; 0; 0; 0; 0xcd; 0x30] ++ replicate 421 0.
Definition demo_ss : list (list Z) :=
  [encode (new_inode 2 4); encode (new_inode 3 320); word_bytes 255 ++ replicate 508 0; demo_dir; encode (new_inode 5 600); demo_program]
  ++ replicate 10 (replicate 512 0).
Definition demo_bs : list bool := replicate 8 true ++ replicate 8 false.
Definition demo_tbl : gmap Z inode_disk := {[ 0 := new_inode 2 4; 1 := new_inode 3 320; 4 := new_inode 5 600 ]}.

(** The free map's file and the other file are open; the latter is marked for deletion if [del]. *)
Definition demo_fs (del : bool) : fs (B := list (list Z)) :=
  Fs demo_ss [2; 1] {[ 1 := MkInode 0 1 false 0 (new_inode 2 4); 2 := MkInode 4 1 del 0 (new_inode 5 600) ]}
    {[ 10 := MkFile 1 0 false; 11 := MkFile 2 0 false ]} (Bitmap.Bitmap 16 [255]) (Some 10) [true; true] 20.

Lemma demo_disk_ok : disk_ok demo_ss demo_bs demo_tbl.
Proof.
  assert (T : forall sec d, demo_tbl !! sec = Some d ->
    (sec = 0 /\ d = new_inode 2 4) \/ (sec = 1 /\ d = new_inode 3 320) \/ (sec = 4 /\ d = new_inode 5 600)).
  { intros sec d H. unfold demo_tbl in H. apply lookup_insert_Some in H as [[<- <-]|[_ H]]; [auto|].
    apply lookup_insert_Some in H as [[<- <-]|[_ H]]; [auto|]. apply lookup_singleton_Some in H as [<- <-]. auto. }
  assert (O : forall sec d k, demo_tbl !! sec = Some d -> owns sec d k ->
    (sec = 0 /\ (k = 0 \/ k = 2)) \/ (sec = 1 /\ (k = 1 \/ k = 3)) \/ (sec = 4 /\ (k = 4 \/ k = 5 \/ k = 6))).
  { intros sec d k [[-> ->]|[[-> ->]|[-> ->]]]%T [->|Hk]; auto 6; change (sectors_of _) with 1 in Hk || change (sectors_of _) with 2 in Hk;
      cbn in Hk; lia. }
  split.
  - intros sec d [[-> ->]|[[-> ->]|[-> ->]]]%T; (split; [done|]); (split; [eexists; split; [reflexivity|by_kernel]|]);
      (split; [by split; cbn|]); intros H; vm_compute in H; by destruct H.
  - intros sec d k Hd Ho. destruct (O sec d k Hd Ho) as [(_ & [->| ->])|[(_ & [->| ->])|(_ & [->|[->| ->]])]]; done.
  - intros s1 d1 s2 d2 k H1 H2 O1 O2. pose proof (O _ _ _ H1 O1). pose proof (O _ _ _ H2 O2). lia.
Qed.

Lemma demo_map_repr : repr (Bitmap.Bitmap 16 [255]) demo_bs.
Proof.
  split; [done|done|done|by repeat constructor|]. cbn [bit_cnt]. intros i Hi.
  assert (HA : forallb (fun k => bool_decide (demo_bs !! k = Some (bit (Bitmap.Bitmap 16 [255]) (Z.of_nat k)))) (seq 0 16) = true) by by_kernel.
  rewrite forallb_forall in HA. specialize (HA (Z.to_nat i)). rewrite Z2Nat.id in HA by lia. eapply bool_decide_eq_true, HA, in_seq. lia.
Qed.

Lemma demo_inodes del p i :
  inodes (demo_fs del) !! p = Some i -> (p = 1 /\ i = MkInode 0 1 false 0 (new_inode 2 4)) \/ (p = 2 /\ i = MkInode 4 1 del 0 (new_inode 5 600)).
Proof. simpl. intros [[<- <-]|[_ [<- <-]%lookup_singleton_Some]]%lookup_insert_Some; auto. Qed.

Lemma demo_files del f fl :
  files (demo_fs del) !! f = Some fl -> (f = 10 /\ fl = MkFile 1 0 false) \/ (f = 11 /\ fl = MkFile 2 0 false).
Proof. simpl. intros [[<- <-]|[_ [<- <-]%lookup_singleton_Some]]%lookup_insert_Some; auto. Qed.

Lemma demo_mem_ok del : mem_ok (files (demo_fs del)) (demo_fs del) demo_tbl.
Proof.
  split.
  - simpl. repeat constructor; set_solver.
  - intros p. split.
    + simpl. intros [->|[->|[]%elem_of_nil]%elem_of_cons]%elem_of_cons; by eexists.
    + intros [i [[-> _]|[-> _]]%demo_inodes]; simpl; set_solver.
  - intros p i [[-> ->]|[-> ->]]%demo_inodes; by_kernel.
  - intros p q i j [[-> ->]|[-> ->]]%demo_inodes [[-> ->]|[-> ->]]%demo_inodes; done.
  - intros p i [[-> ->]|[-> ->]]%demo_inodes; simpl; (split; [done|]); (split; [vm_compute; discriminate|by_kernel]).
  - intros f fl [[-> ->]|[-> ->]]%demo_files; by eexists.
  - simpl. intros p Hp. rewrite !lookup_insert_ne by lia. rewrite !lookup_singleton_ne by lia. done.
Qed.

Lemma demo_inv del : fsinv (files (demo_fs del)) (demo_fs del) demo_ss demo_bs demo_tbl.
Proof.
  split.
  - assert (Z0 : is_sector (replicate 512 0)) by (by split; [|apply Forall_replicate]).
    split; [done|]. split; [|done]. apply Forall_app. split; [|by apply Forall_replicate].
    apply Forall_cons; split; [apply encode_sector|]. apply Forall_cons; split; [apply encode_sector|].
    apply Forall_cons; split; [|apply Forall_cons; split; [|apply Forall_cons; split; [apply encode_sector|apply Forall_singleton; by split; [|eapply bool_decide_eq_true; by_kernel]]]].
    + split; [done|]. apply Forall_app. split; [repeat constructor; apply u8_range|by apply Forall_replicate].
    + split; [done|]. unfold demo_dir. rewrite !Forall_app. split_and!; [repeat constructor; apply u8_range|by repeat constructor|by apply Forall_replicate|
        by repeat constructor|by apply Forall_replicate].
  - apply demo_map_repr.
  - done.
  - done.
  - apply demo_disk_ok.
  - apply demo_mem_ok.
  - exists (MkFile 1 0 false), (MkInode 0 1 false 0 (new_inode 2 4)). done.
Qed.

Lemma inode_read_at_correct_witness :
  exists s', inode_read_at 2 (replicate 12 9) 10 510 (demo_fs false) = Ok ((10, replicate 10 0 ++ [9; 9]), s').
Proof.
  destruct (inode_read_at_correct (demo_fs false) demo_ss demo_bs demo_tbl 2 (MkInode 4 1 false 0 (new_inode 5 600)) (replicate 12 9) 10 510)
    as (n & s' & E & _ & _ & Hn); [apply demo_inv|by_kernel|done|done|]. rewrite (Hn eq_refl) in E. exists s'. rewrite E. clear.
  by_kernel.
Defined.

Lemma inode_write_at_correct_witness :
  exists s' ss', inode_write_at 2 [1; 2; 3] 3 511 (demo_fs false) = Ok (3, s') /\
    content ss' (new_inode 5 600) = take 511 demo_program ++ [1; 2; 3] ++ replicate 86 0.
Proof.
  destruct (inode_write_at_correct (demo_fs false) demo_ss demo_bs demo_tbl 2 (MkInode 4 1 false 0 (new_inode 5 600)) [1; 2; 3] 3 511)
    as [_ W]; [apply demo_inv|by_kernel|by repeat constructor|done|done|].
  destruct (W eq_refl) as (n & s' & ss' & E & _ & C & _ & _ & Hn). rewrite (Hn eq_refl) in E, C. exists s', ss'. split; [exact E|].
  cbn [data] in C. rewrite C. clear. by_kernel.
Defined.

Lemma file_calls_safe_witness : exists s', run (CClose 11) (demo_fs false) = Ok (tt, s').
Proof.
  destruct (file_calls_safe (demo_fs false) demo_ss demo_bs demo_tbl (CClose 11)) as (s' & _ & _ & _ & E & _); [apply demo_inv| |done| |by exists s'].
  - intros f fl [[-> ->]|[-> ->]]%demo_files; done.
  - by exists (MkFile 2 0 false), (MkInode 4 1 false 0 (new_inode 5 600)).
Defined.

End Files.
