(* ===== verification/FileStore.v ===== *)
(** * What open files promise to virtual memory

    The pages of a process that are backed by a file are read and written through open files
    (src/filesys/file.c).  The interface says what is behind a handle, the inode and the position, and
    what the contents of the inodes are; a read or a write may be short, a read only if the file system has
    no memory for it.  The open files of Files implement it, the file of the free map apart. *)

From S2P Require Import Prelude Block Inode Files.
Import Block Inode Files.

Module FileStore.

(** [l] written over [c] from [pos] on. *)
Definition overwrite (c : list Z) (pos : Z) (l : list Z) : list Z := take (Z.to_nat pos) c ++ l ++ drop (Z.to_nat pos + length l) c.

(** The bytes of [c] from [pos] to its end, [size] of them at most. *)
Definition left_at (c : list Z) (pos size : Z) : Z := Z.max 0 (Z.min size (Z.of_nat (length c) - pos)).

Class FileStore (F : Type) := {
  (** [hs] has the inode and the position of every handle, [cs] the contents of every inode. *)
  st_inv : F -> gmap Z (Z * Z) -> gmap Z (list Z) -> Prop;
  st_seek : Z -> Z -> M F unit;
  st_read : Z -> Z -> M F (list Z);
  st_write : Z -> list Z -> M F Z;
  st_length : Z -> M F Z;
  st_bytes s hs cs i c : st_inv s hs cs -> cs !! i = Some c -> Forall is_u8 c /\ Z.of_nat (length c) < 2 ^ 31;
  st_inode s hs cs f i pos : st_inv s hs cs -> hs !! f = Some (i, pos) -> is_Some (cs !! i) /\ 0 <= pos < 2 ^ 31;
  st_seek_ok s hs cs f i pos ofs : st_inv s hs cs -> hs !! f = Some (i, pos) -> 0 <= ofs < 2 ^ 31 ->
    exists s', st_seek f ofs s = Ok (tt, s') /\ st_inv s' (<[f := (i, ofs)]> hs) cs;
  st_read_ok s hs cs f i pos c size : st_inv s hs cs -> hs !! f = Some (i, pos) -> cs !! i = Some c -> 0 <= size < 2 ^ 31 ->
    exists n s', st_read f size s = Ok (take (Z.to_nat n) (drop (Z.to_nat pos) c), s') /\ 0 <= n <= left_at c pos size /\
      st_inv s' (<[f := (i, pos + n)]> hs) cs;
  st_write_ok s hs cs f i pos c l : st_inv s hs cs -> hs !! f = Some (i, pos) -> cs !! i = Some c -> Forall is_u8 l -> Z.of_nat (length l) < 2 ^ 31 ->
    exists n s', st_write f l s = Ok (n, s') /\ 0 <= n <= left_at c pos (Z.of_nat (length l)) /\
      st_inv s' (<[f := (i, pos + n)]> hs) (<[i := overwrite c pos (take (Z.to_nat n) l)]> cs);
  st_length_ok s hs cs f i pos c : st_inv s hs cs -> hs !! f = Some (i, pos) -> cs !! i = Some c -> st_length f s = Ok (Z.of_nat (length c), s);
  (** There is memory for [n] reads or writes.  With memory for one, a read is not short. *)
  st_room : nat -> F -> Prop;
  st_room_S s n : st_room (S n) s -> st_room n s;
  st_seek_room s f ofs n s' : st_room n s -> st_seek f ofs s = Ok (tt, s') -> st_room n s';
  st_read_room s hs cs f i pos c size n l s' : st_inv s hs cs -> hs !! f = Some (i, pos) -> cs !! i = Some c -> 0 <= size < 2 ^ 31 -> st_room (S n) s ->
    st_read f size s = Ok (l, s') -> Z.of_nat (length l) = left_at c pos size /\ st_room n s';
  st_write_room s hs cs f i pos c l n r s' : st_inv s hs cs -> hs !! f = Some (i, pos) -> cs !! i = Some c -> Forall is_u8 l -> Z.of_nat (length l) < 2 ^ 31 ->
    st_room (S n) s -> st_write f l s = Ok (r, s') -> st_room n s'
}.

(** ** The open files of file.c *)

Section instance_.
Context {B : Type} `{!BlockDevice B}.
Notation fs := (fs (B := B)).

Definition file_of (s : fs) (f i p : Z) : Prop :=
  exists fl ino, files s !! f = Some fl /\ inodes s !! f_inode fl = Some ino /\ sector ino <> FREE_MAP_SECTOR /\ i = f_inode fl /\ p = pos fl.
Definition contents_of (s : fs) (ss : list (list Z)) (i : Z) (c : list Z) : Prop :=
  exists ino, inodes s !! i = Some ino /\ sector ino <> FREE_MAP_SECTOR /\ c = content ss (data ino).

Record files_repr (s : fs) (ss : list (list Z)) (bs : list bool) (tbl : gmap Z inode_disk) (hs : gmap Z (Z * Z)) (cs : gmap Z (list Z)) : Prop := {
  fr_inv : fsinv (files s) s ss bs tbl;
  fr_pos : positions (files s);
  fr_map : free_map_file s <> None;
  fr_handles f i p : hs !! f = Some (i, p) <-> file_of s f i p;
  fr_contents i c : cs !! i = Some c <-> contents_of s ss i c
}.
Definition files_inv (s : fs) (hs : gmap Z (Z * Z)) (cs : gmap Z (list Z)) : Prop := exists ss bs tbl, files_repr s ss bs tbl hs cs.

Definition seek (f ofs : Z) : M fs unit := file_seek (Some f) ofs.
Definition read (f size : Z) : M fs (list Z) :=
  let* r : Z * list Z := file_read (Some f) (replicate (Z.to_nat size) 0) size in mret (take (Z.to_nat r.1) r.2).
Definition write (f : Z) (l : list Z) : M fs Z := file_write (Some f) l (Z.of_nat (length l)).
Definition size_of (f : Z) : M fs Z := file_length (Some f).

(** The position of a handle moves, and nothing else does. *)
Lemma moved_repr (s s1 : fs) m ss ss1 bs tbl hs cs cs1 f fl p :
  files_repr s ss bs tbl hs cs -> io m s s1 -> fsinv (files s) s1 ss1 bs tbl -> files s !! f = Some fl -> is_Some (hs !! f) -> 0 <= p < 2 ^ 31 ->
  (forall i c, cs1 !! i = Some c <-> contents_of s ss1 i c) ->
  files_inv (set_files (<[f := MkFile (f_inode fl) p (deny_write fl)]> (files s1)) s1) (<[f := (f_inode fl, p)]> hs) cs1.
Proof.
  intros [V P Hm H C] I V1 Hf [[i0 p0] H0] Hp HC. exists ss1, bs, tbl. rewrite <- (io_files _ _ _ I) in V1. split.
  - apply fsinv_pos; [done|by rewrite (io_files _ _ _ I)].
  - simpl. rewrite (io_files _ _ _ I). by apply positions_insert.
  - simpl. by rewrite (io_file _ _ _ I).
  - intros f2 i2 p2. unfold file_of. simpl. rewrite (io_files _ _ _ I), (io_inodes _ _ _ I). destruct (decide (f2 = f)) as [->|Hne].
    + rewrite !lookup_insert_eq. apply H in H0 as (fl' & ino & A1 & A2 & A3 & _). assert (fl' = fl) as -> by congruence. split.
      * intros [= <- <-]. by eexists _, ino.
      * intros (fl2 & ino2 & [= <-] & _ & _ & -> & ->). done.
    + rewrite !lookup_insert_ne by done. apply H.
  - intros i c. rewrite HC. unfold contents_of. simpl. by rewrite (io_inodes _ _ _ I).
Qed.

(** The file behind a handle. *)
Lemma repr_file s ss bs tbl hs cs f i p c : files_repr s ss bs tbl hs cs -> hs !! f = Some (i, p) -> cs !! i = Some c ->
  exists fl ino, files s !! f = Some fl /\ inodes s !! f_inode fl = Some ino /\ sector ino <> FREE_MAP_SECTOR /\ i = f_inode fl /\ p = pos fl /\
    c = content ss (data ino) /\ extent_ok (Z.of_nat (length ss)) (data ino) /\ 0 <= p < 2 ^ 31.
Proof.
  intros R Hh Hc. apply (fr_handles _ _ _ _ _ _ R) in Hh as (fl & ino & A1 & A2 & A3 & -> & ->).
  apply (fr_contents _ _ _ _ _ _ R) in Hc as (ino2 & B1 & B2 & ->). assert (ino2 = ino) as -> by congruence. exists fl, ino.
  split_and!; try done; [|by apply (fr_pos _ _ _ _ _ _ R f)|by apply (fr_pos _ _ _ _ _ _ R f)]. eapply inv_extent; [apply R|done].
Qed.

Lemma left_at_avail ss d p size : extent_ok (Z.of_nat (length ss)) d -> left_at (content ss d) p size = avail d size p.
Proof. intros X. unfold left_at, avail. rewrite length_content. destruct (ext_len _ _ X). lia. Qed.

Lemma seek_ok s hs cs f i p ofs : files_inv s hs cs -> hs !! f = Some (i, p) -> 0 <= ofs < 2 ^ 31 ->
  exists s', seek f ofs s = Ok (tt, s') /\ files_inv s' (<[f := (i, ofs)]> hs) cs.
Proof.
  intros (ss & bs & tbl & R) Hh Ho. pose proof Hh as (fl & ino & A1 & A2 & A3 & -> & ->)%(fr_handles _ _ _ _ _ _ R).
  unfold seek, file_seek. rewrite (M_bind_Ok _ _ s tt s) by done. rewrite (proj2 (Z.leb_le _ _)) by lia. rewrite (M_bind_Ok _ _ s tt s) by done.
  rewrite (M_bind_Ok _ _ _ _ _ (get_file_ok s f fl A1)). eexists. split; [reflexivity|].
  eapply (moved_repr s s true); [exact R|apply io_refl|apply R|done|by eexists|done|apply R].
Qed.

Lemma read_ok s hs cs f i p c size : files_inv s hs cs -> hs !! f = Some (i, p) -> cs !! i = Some c -> 0 <= size < 2 ^ 31 ->
  exists n s', read f size s = Ok (take (Z.to_nat n) (drop (Z.to_nat p) c), s') /\ 0 <= n <= left_at c p size /\ files_inv s' (<[f := (i, p + n)]> hs) cs /\
    (head (mallocs s) = Some true -> n = left_at c p size) /\ (mallocs s' = mallocs s \/ mallocs s' = tail (mallocs s)).
Proof.
  intros (ss & bs & tbl & R) Hh Hc Hs. destruct (repr_file s ss bs tbl hs cs f i p c R Hh Hc) as (fl & ino & A1 & A2 & A3 & -> & -> & -> & X & Hp).
  assert (Hl : Z.max 0 size <= Z.of_nat (length (replicate (Z.to_nat size) 0))) by (rewrite length_replicate; lia).
  destruct (inode_read_inv _ s ss bs tbl (f_inode fl) ino _ size (pos fl) (fr_inv _ _ _ _ _ _ R) A2 Hp Hl) as (n & s1 & E & V1 & I & Hn & Hall).
  rewrite left_at_avail by done. unfold avail in Hn. destruct (ext_len _ _ X) as [X1 X2]. exists n. unfold read, file_read, upd_file, put_file. unfold mbind at 1, M_bind at 1.
  rewrite (M_bind_Ok _ _ _ _ _ (get_file_ok s f fl A1)), (M_bind_Ok _ _ _ _ _ E), M_bind_modify. simpl fst. rewrite s32_small by (unfold is_s32; lia).
  eexists. split; [|split; [done|split; [|split; [done|]]]].
  - unfold mret, M_ret. do 2 f_equal. unfold splice. simpl. rewrite drop_replicate, take_app_le, take_take, Nat.min_id; [done|].
    rewrite length_take, length_drop, length_content. lia.
  - eapply (moved_repr s s1 true ss ss); try done; [lia|apply R].
  - simpl. destruct (io_mallocs _ _ _ I) as [->|[_ ->]]; auto.
Qed.

Lemma write_ok s hs cs f i p c l : files_inv s hs cs -> hs !! f = Some (i, p) -> cs !! i = Some c -> Forall is_u8 l -> Z.of_nat (length l) < 2 ^ 31 ->
  exists n s', write f l s = Ok (n, s') /\ 0 <= n <= left_at c p (Z.of_nat (length l)) /\
    files_inv s' (<[f := (i, p + n)]> hs) (<[i := overwrite c p (take (Z.to_nat n) l)]> cs) /\
    (mallocs s' = mallocs s \/ mallocs s' = tail (mallocs s)).
Proof.
  intros (ss & bs & tbl & R) Hh Hc Fl Hs. destruct (repr_file s ss bs tbl hs cs f i p c R Hh Hc) as (fl & ino & A1 & A2 & A3 & -> & -> & -> & X & Hp).
  destruct (ext_len _ _ X) as [X1 X2]. pose proof (fr_inv _ _ _ _ _ _ R) as V. pose proof (inv_mem _ _ _ _ _ V) as Mm.
  assert (W : exists n s1 ss1, inode_write_at (f_inode fl) l (Z.of_nat (length l)) (pos fl) s = Ok (n, s1) /\ fsinv (files s) s1 ss1 bs tbl /\ io true s s1 /\
    content ss1 (data ino) = overwrite (content ss (data ino)) (pos fl) (take (Z.to_nat n) l) /\
    (forall sec d, tbl !! sec = Some d -> sec <> sector ino -> content ss1 d = content ss d) /\ 0 <= n <= avail (data ino) (Z.of_nat (length l)) (pos fl)).
  { destruct (Z.eq_dec (deny_write_cnt ino) 0) as [Hd|Hd].
    - destruct (inode_write_inv _ s ss bs tbl (f_inode fl) ino l (Z.of_nat (length l)) (pos fl) V A2 Fl Hp ltac:(lia) Hd) as (n & s1 & ss1 & E & V1 & I & H1 & H2 & H3 & _).
      by exists n, s1, ss1.
    - exists 0, s, ss. split_and!; try done; [by eapply inode_write_denied|apply io_refl| |unfold avail; lia].
      unfold overwrite. change (take (Z.to_nat 0) l) with (@nil Z). by rewrite app_nil_l, Nat.add_0_r, take_drop. }
  destruct W as (n & s1 & ss1 & E & V1 & I & H1 & H2 & Hn). exists n. rewrite left_at_avail by done. unfold avail in Hn.
  unfold write, file_write, upd_file, put_file. rewrite (M_bind_Ok _ _ _ _ _ (get_file_ok s f fl A1)), (M_bind_Ok _ _ _ _ _ E), M_bind_modify.
  rewrite s32_small by (unfold is_s32; lia). eexists. split; [reflexivity|]. split; [done|].
  split; [|simpl; destruct (io_mallocs _ _ _ I) as [->|[_ ->]]; auto].
  eapply (moved_repr s s1 true ss ss1); try done; [lia|]. intros i c. destruct (decide (i = f_inode fl)) as [->|Hne].
  - rewrite lookup_insert_eq, <- H1. split; [intros [= <-]; by exists ino|]. intros (ino2 & Q1 & _ & ->). congruence.
  - rewrite lookup_insert_ne by done. rewrite (fr_contents _ _ _ _ _ _ R). unfold contents_of.
    assert (K : forall ino2, inodes s !! i = Some ino2 -> content ss1 (data ino2) = content ss (data ino2)).
    { intros ino2 Q. apply (H2 (sector ino2)); [by apply (mem_data _ _ _ Mm i)|]. intros Es. apply Hne. by eapply (mem_inj _ _ _ Mm). }
    split; intros (ino2 & Q1 & Q2 & ->); exists ino2; by rewrite K.
Qed.

Lemma size_of_ok s hs cs f i p c : files_inv s hs cs -> hs !! f = Some (i, p) -> cs !! i = Some c -> size_of f s = Ok (Z.of_nat (length c), s).
Proof.
  intros (ss & bs & tbl & R) Hh Hc. destruct (repr_file s ss bs tbl hs cs f i p c R Hh Hc) as (fl & ino & A1 & A2 & A3 & -> & -> & -> & X & Hp).
  destruct (ext_len _ _ X) as [X1 X2]. unfold size_of, file_length. rewrite (M_bind_Ok _ _ s tt s) by done.
  rewrite (M_bind_Ok _ _ _ _ _ (get_file_ok s f fl A1)), (M_bind_Ok _ _ _ _ _ (get_inode_ok _ s ino A2)). unfold mret, M_ret, inode_length.
  rewrite length_content. do 2 f_equal. lia.
Qed.

Lemma content_bytes ss d : Forall is_sector ss -> extent_ok (Z.of_nat (length ss)) d -> Forall is_u8 (content ss d).
Proof.
  intros HS X. apply Forall_lookup_2. intros k x. rewrite lookup_content by done. case_decide; [|done]. unfold byte_at.
  destruct (ss !! _) as [v|] eqn:Hv; [|done]. destruct (Forall_lookup_1 _ _ _ _ HS Hv) as [_ Hb]. intros Hx. by eapply Forall_lookup_1.
Qed.

(** The next [n] allocations succeed. *)
Definition memory_for (n : nat) (s : fs) : Prop := replicate n true `prefix_of` mallocs s.

Lemma memory_for_next n s s' : memory_for (S n) s -> mallocs s' = mallocs s \/ mallocs s' = tail (mallocs s) -> memory_for n s'.
Proof.
  intros [r E] H. unfold memory_for. destruct H as [->| ->]; rewrite E; [|by exists r].
  exists (true :: r). by rewrite replicate_S_end, <- app_assoc.
Qed.

#[export] Program Instance files_FileStore : FileStore fs := {
  st_inv := files_inv;
  st_seek := seek;
  st_read := read;
  st_write := write;
  st_length := size_of;
  st_room := memory_for
}.
Next Obligation.
  intros s hs cs i c (ss & bs & tbl & R) (ino & H1 & H2 & ->)%(fr_contents _ _ _ _ _ _ R).
  pose proof (inv_extent _ _ _ _ _ _ _ (fr_inv _ _ _ _ _ _ R) H1) as X. split.
  - apply content_bytes; [|done]. eapply Block.dev_sectors. apply (inv_dev _ _ _ _ _ (fr_inv _ _ _ _ _ _ R)).
  - rewrite length_content. destruct (ext_len _ _ X). lia.
Qed.
Next Obligation.
  intros s hs cs f i p (ss & bs & tbl & R) (fl & ino & A1 & A2 & A3 & -> & ->)%(fr_handles _ _ _ _ _ _ R). split; [|by apply (fr_pos _ _ _ _ _ _ R f)].
  eexists. apply (fr_contents _ _ _ _ _ _ R). by exists ino.
Qed.
Next Obligation. intros. by eapply seek_ok. Qed.
Next Obligation.
  intros s hs cs f i p c size V Hh Hc Hs. destruct (read_ok s hs cs f i p c size V Hh Hc Hs) as (n & s' & E & Hn & V' & _). by exists n, s'.
Qed.
Next Obligation.
  intros s hs cs f i p c l V Hh Hc Fl Hs. destruct (write_ok s hs cs f i p c l V Hh Hc Fl Hs) as (n & s' & E & Hn & V' & _). by exists n, s'.
Qed.
Next Obligation. intros. by eapply size_of_ok. Qed.
Next Obligation. intros s n H. eapply memory_for_next; [exact H|by left]. Qed.
Next Obligation.
  intros s f ofs n s' Hr. unfold seek, file_seek, not_null, upd_file, put_file, get_file, gets, modify, from, mbind, M_bind, ASSERT, mret, M_ret, fail. simpl.
  destruct (0 <=? ofs); [|done]. destruct (files s !! f); [|done]. intros [= <-]. done.
Qed.
Next Obligation.
  intros s hs cs f i p c size n l s' V Hh Hc Hs Hr E. destruct (read_ok s hs cs f i p c size V Hh Hc Hs) as (k & s1 & E1 & Hk & _ & Hall & Hm).
  rewrite E in E1. injection E1 as -> <-. split; [|by eapply memory_for_next]. assert (Hd : head (mallocs s) = Some true) by (destruct Hr as [r ->]; done).
  rewrite (Hall Hd) in *. unfold left_at in *. rewrite length_take, length_drop.
  destruct V as (ss & bs & tbl & R). destruct (repr_file s ss bs tbl hs cs f i p c R Hh Hc) as (? & ? & _ & _ & _ & _ & _ & _ & _ & Hp). lia.
Qed.
Next Obligation.
  intros s hs cs f i p c l n r s' V Hh Hc Fl Hs Hr E. destruct (write_ok s hs cs f i p c l V Hh Hc Fl Hs) as (k & s1 & E1 & _ & _ & Hm).
  rewrite E in E1. injection E1 as _ <-. by eapply memory_for_next.
Qed.

End instance_.

End FileStore.
