(* ===== verification/Directory.v ===== *)
(** * Directories and files by name (filesys/directory.c, filesys.c)

    A directory is an inode whose contents are entries of twenty bytes: the sector of a file's
    inode, its name, and whether the entry is in use.  A [struct dir] belongs to one caller and is
    passed as a value.  The theorems: looking a name up, adding one and removing one do on the bytes
    of the directory what they should do on the names in it, with enough memory; what goes wrong
    when memory for a bounce buffer runs out half-way; and what [filesys_create] leaves behind when
    the name is taken. *)

From S2P Require Import Prelude Mem Bitmap Block Inode Files.

Module Directory.
Import Mem Bitmap Inode Files.
Import Block (BLOCK_SECTOR_SIZE, is_sector, le, BlockDevice, dev_repr, dev_size, dev_read, dev_write).

Section dir.
Context {B : Type} `{!BlockDevice B}.
#[local] Notation fs := (fs (B := B)).

(** ** Data *)

Definition NAME_MAX : Z := 14.
Record dir := MkDir { d_inode : Z; d_pos : Z }.

(** The members of a [struct dir_entry], which is [DIR_ENTRY] bytes long. *)
Definition DIR_ENTRY : Z := 20.
Definition inode_sector (e : list Z) : Z := le (take 4 e).
Definition name_bytes (e : list Z) : list Z := drop 4 e.
Definition in_use (e : list Z) : bool := negb (default 0 (e !! 19%nat) =? 0).
Definition set_in_use (b : bool) (e : list Z) : list Z := splice e 19 [if b then 1 else 0].
Definition set_inode_sector (sec : Z) (e : list Z) : list Z := splice e 0 (word_bytes sec).
(** [strlcpy (e.name, name, sizeof e.name)]. *)
Definition set_name (nm : list Z) (e : list Z) : list Z := splice e 4 (take (Z.to_nat NAME_MAX) nm ++ [0]).

(** The string at the start of a buffer. *)
Fixpoint cstring (l : list Z) : list Z := match l with [] => [] | x :: l => if x =? 0 then [] else x :: cstring l end.

(** [!strcmp (a, b)], on the bytes from [a] and from [b] on. *)
Fixpoint str_equal (a b : list Z) : outcome bool :=
  match a, b with
  | x :: a, y :: b => if x =? y then if x =? 0 then Ok true else str_equal a b else Ok false
  | _, _ => Fail FMemory
  end.

(** ** Directories *)

Definition dir_create (sec entry_cnt : Z) : M fs bool := inode_create sec (s32 (u32 (entry_cnt * DIR_ENTRY))).

Definition dir_open (i : option Z) : M fs (option dir) :=
  let* p := malloc in
  match i, p with
  | Some i, Some _ => mret (Some (MkDir i 0))
  | _, _ => do* inode_close i ; mret None
  end.

Definition dir_open_root : M fs (option dir) := let* i := inode_open ROOT_DIR_SECTOR in dir_open i.
Definition dir_reopen (d : dir) : M fs (option dir) := let* i := inode_reopen (Some (d_inode d)) in dir_open i.
Definition dir_close (d : option dir) : M fs unit :=
  match d with Some d => inode_close (Some (d_inode d)) | None => mret tt end.
Definition dir_get_inode (d : dir) : Z := d_inode d.

(** The loop of [lookup]; [e] is the local [struct dir_entry], at first with what the stack held. *)
Fixpoint lookup_loop (fuel : nat) (p : Z) (nm : list Z) (e : list Z) (ofs : Z) : M fs (option (list Z * Z)) :=
  match fuel with
  | O => fail FFuel
  | S fuel =>
      let* r : Z * list Z := inode_read_at p e DIR_ENTRY (s32 ofs) in
      if r.1 =? DIR_ENTRY then
        if in_use r.2 then
          let* eq : bool := lift (str_equal (nm ++ [0]) (name_bytes r.2)) in
          if eq then mret (Some (r.2, ofs)) else lookup_loop fuel p nm r.2 (u32 (ofs + DIR_ENTRY))
        else lookup_loop fuel p nm r.2 (u32 (ofs + DIR_ENTRY))
      else mret None
  end.

(** A loop over the entries of an inode reads one more than there are. *)
Definition entry_fuel (p : Z) : M fs nat := let* i := get_inode p in mret (S (S (Z.to_nat (inode_length i / DIR_ENTRY)))).

(** [lookup (dir, name, ep, ofsp)]: [*ep] and [*ofsp] if it returns true. *)
Definition lookup (d : option dir) (nm junk : list Z) : M fs (option (list Z * Z)) :=
  match d with
  | None => fail FAssert
  | Some d => let* n := entry_fuel (d_inode d) in lookup_loop n (d_inode d) nm junk 0
  end.

(** The value of [*inode]; the function returns whether it is not null. *)
Definition dir_lookup (d : option dir) (nm junk : list Z) : M fs (option Z) :=
  let* r := lookup d nm junk in
  match r with Some (e, _) => inode_open (inode_sector e) | None => mret None end.

Fixpoint free_slot (fuel : nat) (p : Z) (e : list Z) (ofs : Z) : M fs (Z * list Z) :=
  match fuel with
  | O => fail FFuel
  | S fuel =>
      let* r : Z * list Z := inode_read_at p e DIR_ENTRY ofs in
      if r.1 =? DIR_ENTRY then
        if negb (in_use r.2) then mret (ofs, r.2) else free_slot fuel p r.2 (s32 (ofs + DIR_ENTRY))
      else mret (ofs, r.2)
  end.

(** [junk] is what the stack holds at the first [struct dir_entry] of a call and [junk'] at the next. *)
Definition dir_add (d : option dir) (nm : list Z) (sec : Z) (junk junk' : list Z) : M fs bool :=
  match d with
  | None => fail FAssert
  | Some d' =>
      if bool_decide (nm = []) || (NAME_MAX <? Z.of_nat (length nm)) then mret false
      else
        let* r := lookup d nm junk' in
        match r with
        | Some _ => mret false
        | None =>
            let* n := entry_fuel (d_inode d') in
            let* s : Z * list Z := free_slot n (d_inode d') junk 0 in
            let e := set_inode_sector sec (set_name nm (set_in_use true s.2)) in
            let* n := inode_write_at (d_inode d') e DIR_ENTRY s.1 in
            mret (n =? DIR_ENTRY)
        end
  end.

Definition dir_remove (d : option dir) (nm junk : list Z) : M fs bool :=
  match d with
  | None => fail FAssert
  | Some d' =>
      let* r := lookup d nm junk in
      match r with
      | None => mret false
      | Some (e, ofs) =>
          let* i := inode_open (inode_sector e) in
          match i with
          | None => mret false
          | Some _ =>
              let* n := inode_write_at (d_inode d') (set_in_use false e) DIR_ENTRY (s32 ofs) in
              if negb (n =? DIR_ENTRY) then do* inode_close i ; mret false
              else do* inode_remove i ; do* inode_close i ; mret true
          end
      end
  end.

(** The name that [strlcpy] copies out, and the directory with its new position. *)
Fixpoint readdir_loop (fuel : nat) (d : dir) (e : list Z) : M fs (option (list Z) * dir) :=
  match fuel with
  | O => fail FFuel
  | S fuel =>
      let* r : Z * list Z := inode_read_at (d_inode d) e DIR_ENTRY (d_pos d) in
      if r.1 =? DIR_ENTRY then
        let d := MkDir (d_inode d) (s32 (d_pos d + DIR_ENTRY)) in
        if in_use r.2 then mret (Some (take (Z.to_nat NAME_MAX) (cstring (name_bytes r.2))), d) else readdir_loop fuel d r.2
      else mret (None, d)
  end.
Definition dir_readdir (d : dir) (junk : list Z) : M fs (option (list Z) * dir) :=
  let* n := entry_fuel (d_inode d) in readdir_loop n d junk.

(** ** Files by name *)

(** The conjunction of [filesys_create], left to right: whether it holds, and [inode_sector], which is 0
    until a sector is taken. *)
Definition create_entry (d : option dir) (nm : list Z) (initial_size : Z) (junk junk' : list Z) : M fs (bool * Z) :=
  match d with
  | None => mret (false, 0)
  | Some _ =>
      let* sec := free_map_allocate 1 in
      match sec with
      | None => mret (false, 0)
      | Some sec =>
          let* ok : bool := inode_create sec initial_size in
          if ok then let* ok := dir_add d nm sec junk junk' in mret (ok, sec) else mret (false, sec)
      end
  end.

Definition filesys_create (nm : list Z) (initial_size : Z) (junk junk' : list Z) : M fs bool :=
  let* d := dir_open_root in
  let* r : bool * Z := create_entry d nm initial_size junk junk' in
  do* (if negb r.1 && negb (r.2 =? 0) then free_map_release r.2 1 else mret tt) ;
  do* dir_close d ;
  mret r.1.

Definition filesys_open (nm junk : list Z) : M fs (option Z) :=
  let* d := dir_open_root in
  let* i := match d with Some _ => dir_lookup d nm junk | None => mret None end in
  do* dir_close d ;
  file_open i.

Definition filesys_remove (nm junk : list Z) : M fs bool :=
  let* d := dir_open_root in
  let* ok := match d with Some _ => dir_remove d nm junk | None => mret false end in
  do* dir_close d ;
  mret ok.

(** [fs_device] is the device of the state: [block_get_role] has found it.  [junk] is what the
    free map's memory held. *)
Definition do_format : M fs unit :=
  do* free_map_create ;
  let* ok := dir_create ROOT_DIR_SECTOR 16 in
  if negb ok then fail FPanic else free_map_close.

Definition filesys_init (format : bool) (junk : list Z) : M fs unit :=
  do* inode_init ;
  do* free_map_init junk ;
  do* (if format then do_format else mret tt) ;
  free_map_open.

Definition filesys_done : M fs unit := free_map_close.

(** ** The entries of a directory *)

(** The whole entries in the contents of a directory. *)
Definition slots (c : list Z) : list (list Z) :=
  (fun k => take 20 (drop (20 * k) c)) <$> seq 0 (length c / 20).
Definition slot_name (e : list Z) : list Z := cstring (take 15 (name_bytes e)).
(** The names of entries in use end within their entry. *)
Definition named (e : list Z) : Prop := in_use e = true -> 0 ∈ take 15 (name_bytes e).
Definition entry_of (nm : list Z) (e : list Z) : Prop := in_use e = true /\ slot_name e = nm.

Lemma lookup_slots c k :
  slots c !! k = if decide (k < length c / 20)%nat then Some (take 20 (drop (20 * k) c)) else None.
Proof.
  unfold slots. rewrite list_lookup_fmap. case_decide as H.
  - by rewrite lookup_seq_lt by done.
  - by rewrite lookup_seq_ge by lia.
Qed.

Lemma slot_end (c : list Z) k : (k < length c / 20)%nat -> (20 * k + 20 <= length c)%nat.
Proof. intros H. pose proof (Nat.mul_div_le (length c) 20). lia. Qed.

Lemma length_slot c k e : slots c !! k = Some e -> length e = 20%nat.
Proof.
  rewrite lookup_slots. case_decide as H; [|done]. intros [= <-]. pose proof (slot_end c k H). rewrite length_take, length_drop. lia.
Qed.

(** Where the contents of a directory end before the next entry does. *)
Lemma slots_end (c : list Z) k : (length c / 20 <= k)%nat -> (length c < 20 * k + 20)%nat.
Proof. intros H. pose proof (Nat.div_mod (length c) 20 ltac:(done)). pose proof (Nat.mod_upper_bound (length c) 20 ltac:(done)). lia. Qed.

(** [strcmp] on a name and an entry in use. *)
Lemma str_equal_ok nm l :
  Forall is_char nm -> 0 ∈ l -> str_equal (nm ++ [0]) l = Ok (bool_decide (cstring l = nm)).
Proof.
  revert nm. induction l as [|y l IH]; intros nm F H0; [by apply elem_of_nil in H0|]. cbn [cstring].
  destruct nm as [|x nm]; cbn [app str_equal].
  - destruct (Z.eqb_spec 0 y) as [<-|Hy]; [done|]. rewrite (proj2 (Z.eqb_neq y 0)) by done. done.
  - apply Forall_cons in F as [Fx F]. unfold is_char in Fx. destruct (Z.eqb_spec x y) as [<-|Hxy].
    + rewrite (proj2 (Z.eqb_neq x 0)) by lia. rewrite IH; [|done|by apply elem_of_cons in H0 as [|]; [lia|]].
      f_equal. apply bool_decide_ext. split; [by intros ->|congruence].
    + f_equal. symmetry. apply bool_decide_eq_false_2. destruct (Z.eqb_spec y 0); congruence.
Qed.

Lemma str_equal_app a l k : 0 ∈ l -> str_equal a (l ++ k) = str_equal a l.
Proof.
  revert a. induction l as [|y l IH]; intros a H0; [by apply elem_of_nil in H0|]. destruct a as [|x a]; [done|]. cbn [app str_equal].
  destruct (Z.eqb_spec x y) as [->|]; [|done]. destruct (Z.eqb_spec y 0) as [->|]; [done|]. apply IH. by apply elem_of_cons in H0 as [|].
Qed.

Lemma entry_equal nm e :
  Forall is_char nm -> in_use e = true -> named e -> str_equal (nm ++ [0]) (name_bytes e) = Ok (bool_decide (slot_name e = nm)).
Proof.
  intros F Hu Hn. rewrite <- (take_drop 15 (name_bytes e)), str_equal_app by (by apply Hn). apply str_equal_ok; [done|by apply Hn].
Qed.

(** ** Memory *)

(** The next [n] calls of malloc succeed. *)
Definition plenty (n : nat) (s : fs) : Prop := forall j, (j < n)%nat -> mallocs s !! j = Some true.

Lemma plenty_drop n m s s' k : plenty n s -> mallocs s' = drop k (mallocs s) -> (k + m <= n)%nat -> plenty m s'.
Proof. intros P E H j Hj. rewrite E, lookup_drop. apply P. lia. Qed.

Lemma plenty_head n s : plenty (S n) s -> head (mallocs s) = Some true.
Proof. intros P. specialize (P 0%nat ltac:(lia)). by destruct (mallocs s). Qed.

Lemma plenty_io m n s s' : plenty (S n) s -> io m s s' -> plenty n s'.
Proof.
  intros P I. destruct (io_mallocs _ _ _ I) as [E|[_ E]].
  - intros j Hj. rewrite E. apply P. lia.
  - eapply (plenty_drop (S n) n s s' 1); [done| |lia]. rewrite E. by destruct (mallocs s).
Qed.

(** ** Lemmas: looking names up *)

Lemma content_u8 ss d : Forall is_sector ss -> extent_ok (Z.of_nat (length ss)) d -> Forall is_u8 (content ss d).
Proof.
  intros F X. apply Forall_lookup. intros k x. rewrite lookup_content by done. case_decide; [|done]. unfold byte_at.
  destruct (ss !! _) as [v|] eqn:Hv; [|done]. cbn. intros Hx. destruct (Forall_lookup_1 _ _ _ _ F Hv) as [_ Fv]. by eapply Forall_lookup_1.
Qed.

(** What [inode_read_at] leaves in the buffer consists of bytes. *)
Lemma read_u8 c buf n ofs : Forall is_u8 buf -> Forall is_u8 c -> Forall is_u8 (splice buf 0 (take n (drop ofs c))).
Proof.
  intros Fb Fc. unfold splice. rewrite !Forall_app. split_and!; [by apply Forall_take|by apply Forall_take, Forall_drop|by apply Forall_drop].
Qed.

(** Reading the [k]-th entry. *)
Lemma read_slot fm s ss bs tbl p i e k :
  fsinv fm s ss bs tbl -> inodes s !! p = Some i -> length e = 20%nat -> plenty 1 s -> (k <= length (content ss (data i)) / 20)%nat ->
  exists n buf s', inode_read_at p e DIR_ENTRY (Z.of_nat (20 * k)) s = Ok ((n, buf), s') /\ fsinv fm s' ss bs tbl /\ io true s s' /\ length buf = 20%nat /\
    (Forall is_u8 e -> Forall is_u8 buf) /\
    match slots (content ss (data i)) !! k with Some v => n = DIR_ENTRY /\ buf = v | None => n <> DIR_ENTRY end.
Proof.
  intros V Hi Le Hp Hk. set (c := content ss (data i)) in *. pose proof (inv_extent _ _ _ _ _ _ _ V Hi) as [[X0 X1] _ _ _].
  pose proof (length_content ss (data i)) as Lc. fold c in Lc. pose proof (Nat.mul_div_le (length c) 20 ltac:(done)).
  destruct (inode_read_inv fm s ss bs tbl p i e DIR_ENTRY (Z.of_nat (20 * k)) V Hi) as (n & s' & E & V' & I & Hn & Hm); [lia|unfold DIR_ENTRY; lia|].
  specialize (Hm (plenty_head 0 s Hp)). fold c in E. rewrite Nat2Z.id in E.
  eexists n, _, s'. split; [exact E|]. split; [done|]. split; [done|].
  assert (Ll : Z.of_nat (length (take (Z.to_nat n) (drop (20 * k) c))) = n).
  { rewrite length_take, length_drop. unfold avail, DIR_ENTRY in *. lia. }
  split; [rewrite length_splice; [done|lia|unfold avail, DIR_ENTRY in *; lia]|].
  split; [intros Fe; apply read_u8; [done|]; apply content_u8; [eapply Block.dev_sectors; apply V|exact (inv_extent _ _ _ _ _ _ _ V Hi)]|].
  rewrite lookup_slots. case_decide as Hc.
  - pose proof (slot_end c k Hc). assert (Hn20 : n = DIR_ENTRY) by (unfold avail, DIR_ENTRY in *; lia). split; [done|].
    unfold splice. rewrite (drop_ge e), app_nil_r by (unfold DIR_ENTRY in *; lia). by rewrite Hn20.
  - pose proof (slots_end c k ltac:(lia)). unfold avail, DIR_ENTRY in *. lia.
Qed.

(** What a search leaves as it is. *)
Definition still (m : nat) (s s' : fs) : Prop := quiet m s s' /\ free_map s' = free_map s.

Lemma still_refl m s : still m s s.
Proof. split; [|done]. split; try done. exists 0%nat. split; [lia|]. by rewrite drop_0. Qed.
Lemma still_trans m n s1 s2 s3 : still m s1 s2 -> still n s2 s3 -> still (m + n) s1 s3.
Proof. intros [Q1 E1] [Q2 E2]. split; [by eapply quiet_trans|congruence]. Qed.
Lemma still_io m s s' : io m s s' -> still 1 s s'.
Proof.
  intros I. split; [|apply I]. destruct (io_quiet _ _ _ I) as [? ? ? ? ? (k & Hk & E)]. split; try done. exists k. split; [destruct m; lia|done].
Qed.
Lemma still_plenty m n s s' : still m s s' -> plenty (m + n) s -> plenty n s'.
Proof. intros [[_ _ _ _ _ (k & Hk & E)] _] P. eapply plenty_drop; [done|done|lia]. Qed.

(** The result of [lookup]: the first entry with the name from the [k]-th on. *)
Definition found (c nm : list Z) (k : nat) (r : option (list Z * Z)) : Prop :=
  match r with
  | Some (e, ofs) => exists j, (k <= j)%nat /\ slots c !! j = Some e /\ ofs = Z.of_nat (20 * j) /\ entry_of nm e /\
      forall j' e', (k <= j' < j)%nat -> slots c !! j' = Some e' -> ~ entry_of nm e'
  | None => forall j e, (k <= j)%nat -> slots c !! j = Some e -> ~ entry_of nm e
  end.

Lemma found_skip c nm k e r : slots c !! k = Some e -> ~ entry_of nm e -> found c nm (S k) r -> found c nm k r.
Proof.
  intros Hk He. destruct r as [[e' ofs]|]; unfold found.
  - intros (j & Hj & Hs & Ho & Hm & Hf). exists j. split_and!; try done; [lia|]. intros j' e2 Hj' Hs'.
    destruct (decide (j' = k)) as [->|]; [assert (e2 = e) by congruence; by subst|]. eapply Hf; [|done]. lia.
  - intros H j e' Hj Hs. destruct (decide (j = k)) as [->|]; [assert (e' = e) by congruence; by subst|]. eapply H; [|done]. lia.
Qed.

Lemma lookup_loop_ok fm ss bs tbl p i nm fuel :
  Forall is_char nm -> Forall named (slots (content ss (data i))) ->
  forall k e s, fsinv fm s ss bs tbl -> inodes s !! p = Some i -> length e = 20%nat ->
  (k <= length (content ss (data i)) / 20)%nat -> (length (content ss (data i)) / 20 - k < fuel)%nat -> plenty fuel s ->
  exists r s', lookup_loop fuel p nm e (Z.of_nat (20 * k)) s = Ok (r, s') /\ fsinv fm s' ss bs tbl /\ still fuel s s' /\ found (content ss (data i)) nm k r.
Proof.
  intros Fn Fs. set (c := content ss (data i)) in *. induction fuel as [|fuel IH]; intros k e s V Hi Le Hk Hf Hp; [lia|].
  pose proof (inv_extent _ _ _ _ _ _ _ V Hi) as [[X0 X1] _ _ _]. pose proof (length_content ss (data i)) as Lc. fold c in Lc.
  pose proof (Nat.mul_div_le (length c) 20 ltac:(done)).
  destruct (read_slot fm s ss bs tbl p i e k V Hi Le) as (n & buf & s1 & E & V1 & I & Lb & Fb & Hs); [intros j Hj; apply Hp; lia|done|].
  cbn [lookup_loop]. rewrite s32_small by (unfold is_s32; lia). rewrite (M_bind_Ok _ _ _ _ _ E). cbn [fst snd]. fold c in Hs.
  destruct (slots c !! k) as [v|] eqn:Hv.
  2: { rewrite (proj2 (Z.eqb_neq _ _)) by done. exists None, s1. split_and!; [done|done|by apply (still_trans 1 fuel s s1 s1); [by eapply still_io|apply still_refl]|].
       intros j e' Hj He'. exfalso. rewrite lookup_slots in Hv, He'. destruct (decide (k < length c / 20)%nat); [done|]. rewrite decide_False in He' by lia. done. }
  destruct Hs as [-> ->]. rewrite Z.eqb_refl. pose proof (Forall_lookup_1 _ _ _ _ Fs Hv) as Hnamed.
  assert (Next : ~ entry_of nm v -> exists r s', lookup_loop fuel p nm v (u32 (Z.of_nat (20 * k) + DIR_ENTRY)) s1 = Ok (r, s') /\
    fsinv fm s' ss bs tbl /\ still (S fuel) s s' /\ found c nm k r).
  { intros Hne. rewrite lookup_slots in Hv. case_decide as Hlt; [|done].
    replace (u32 (Z.of_nat (20 * k) + DIR_ENTRY)) with (Z.of_nat (20 * S k)) by (rewrite u32_small; unfold is_u32, DIR_ENTRY; lia).
    destruct (IH (S k) v s1) as (r & s' & E' & V' & S' & F'); [done|by rewrite (io_inodes _ _ _ I)|done|lia|lia|by eapply plenty_io|].
    exists r, s'. split_and!; [done|done|by apply (still_trans 1 fuel s s1 s'); [eapply still_io|]|]. eapply found_skip; [|done|done].
    by rewrite lookup_slots, decide_True. }
  destruct (in_use v) eqn:Hu; [|apply Next; intros [? _]; congruence].
  rewrite (M_bind_Ok _ _ s1 (bool_decide (slot_name v = nm)) s1) by (unfold lift; by rewrite entry_equal).
  case_bool_decide as Hnm; [|apply Next; by intros [_ ?]].
  exists (Some (v, Z.of_nat (20 * k))), s1. split_and!; [done|done|by apply (still_trans 1 fuel s s1 s1); [by eapply still_io|apply still_refl]|].
  exists k. split_and!; try done. intros j' e' Hj. lia.
Qed.

(** The number of entries, as the loops' bound has it. *)
Definition nslots (c : list Z) : nat := (length c / 20)%nat.

Lemma entry_fuel_ok fm s ss bs tbl p i :
  fsinv fm s ss bs tbl -> inodes s !! p = Some i -> entry_fuel p s = Ok (S (S (nslots (content ss (data i)))), s).
Proof.
  intros V Hi. unfold entry_fuel. rewrite (M_bind_Ok _ _ _ _ _ (get_inode_ok p s i Hi)). unfold mret, M_ret, nslots, inode_length, DIR_ENTRY.
  pose proof (inv_extent _ _ _ _ _ _ _ V Hi) as [[X0 _] _ _ _]. rewrite length_content, Z2Nat.inj_div by lia. done.
Qed.

Lemma lookup_ok fm s ss bs tbl d i nm junk :
  let c := content ss (data i) in
  fsinv fm s ss bs tbl -> inodes s !! d_inode d = Some i -> Forall is_char nm -> Forall named (slots c) -> length junk = 20%nat ->
  plenty (nslots c + 2) s ->
  exists r s', lookup (Some d) nm junk s = Ok (r, s') /\ fsinv fm s' ss bs tbl /\ still (nslots c + 2) s s' /\ found c nm 0 r.
Proof.
  intros c V Hi Fn Fs Lj Hp. unfold lookup. rewrite (M_bind_Ok _ _ _ _ _ (entry_fuel_ok fm s ss bs tbl (d_inode d) i V Hi)). fold c.
  replace (S (S (nslots c))) with (nslots c + 2)%nat by lia. change 0 with (Z.of_nat (20 * 0)).
  eapply lookup_loop_ok; try done; unfold nslots; fold c; lia.
Qed.

(** ** Lemmas: adding names *)

(** The first entry from the [k]-th on that is not in use, or the end. *)
Definition vacant (c : list Z) (k : nat) (ofs : Z) (e : list Z) : Prop :=
  exists j, ofs = Z.of_nat (20 * j) /\ length e = 20%nat /\ (k <= j)%nat /\
    (forall j' e', (k <= j' < j)%nat -> slots c !! j' = Some e' -> in_use e' = true) /\
    match slots c !! j with Some v => e = v /\ in_use v = false | None => j = nslots c end.

Lemma free_slot_ok fm ss bs tbl p i fuel :
  forall k e s, fsinv fm s ss bs tbl -> inodes s !! p = Some i -> length e = 20%nat -> Forall is_u8 e -> (k <= nslots (content ss (data i)))%nat ->
  (nslots (content ss (data i)) - k < fuel)%nat -> plenty fuel s ->
  exists r s', free_slot fuel p e (Z.of_nat (20 * k)) s = Ok (r, s') /\ fsinv fm s' ss bs tbl /\ still fuel s s' /\
    vacant (content ss (data i)) k r.1 r.2 /\ Forall is_u8 r.2.
Proof.
  set (c := content ss (data i)). induction fuel as [|fuel IH]; intros k e s V Hi Le Fe Hk Hf Hp; [lia|].
  pose proof (inv_extent _ _ _ _ _ _ _ V Hi) as [[X0 X1] _ _ _]. pose proof (length_content ss (data i)) as Lc. fold c in Lc.
  pose proof (Nat.mul_div_le (length c) 20 ltac:(done)). unfold nslots in *.
  destruct (read_slot fm s ss bs tbl p i e k V Hi Le) as (n & buf & s1 & E & V1 & I & Lb & Fb & Hs); [intros j Hj; apply Hp; lia|done|].
  cbn [free_slot]. rewrite (M_bind_Ok _ _ _ _ _ E). cbn [fst snd]. fold c in Hs. specialize (Fb Fe).
  assert (Stop : match slots c !! k with Some v => buf = v /\ in_use v = false | None => k = nslots c end ->
    exists r s', Ok ((Z.of_nat (20 * k), buf), s1) = Ok (r, s') /\ fsinv fm s' ss bs tbl /\ still (S fuel) s s' /\ vacant c k r.1 r.2 /\ Forall is_u8 r.2).
  { intros Hm. exists (Z.of_nat (20 * k), buf), s1. split_and!; [done|done|by apply (still_trans 1 fuel s s1 s1); [by eapply still_io|apply still_refl]| |done].
    exists k. split_and!; try done. intros j' e' Hj. lia. }
  destruct (slots c !! k) as [v|] eqn:Hv.
  2: { rewrite (proj2 (Z.eqb_neq _ _)) by done. apply Stop. rewrite lookup_slots in Hv. destruct (decide (k < length c / 20)%nat); [done|]. unfold nslots. lia. }
  destruct Hs as [-> ->]. rewrite Z.eqb_refl. destruct (in_use v) eqn:Hu; cbn [negb]; [|by apply Stop]. clear Stop.
  assert (Hlt : (k < length c / 20)%nat) by (rewrite lookup_slots in Hv; by destruct (decide (k < length c / 20)%nat)).
  replace (s32 (Z.of_nat (20 * k) + DIR_ENTRY)) with (Z.of_nat (20 * S k)) by (rewrite s32_small; unfold is_s32, DIR_ENTRY; lia).
  destruct (IH (S k) v s1) as (r & s' & E' & V' & S' & (j & Ho & Lr & Hj & Hall & Hm) & Fr); [done|by rewrite (io_inodes _ _ _ I)|done|done|lia|lia|by eapply plenty_io|].
  exists r, s'. split_and!; [done|done|by apply (still_trans 1 fuel s s1 s'); [eapply still_io|]| |done].
  exists j. split_and!; try done; [lia|]. intros j' e' Hj' Hs'. destruct (decide (j' = k)) as [->|]; [congruence|]. eapply Hall; [|done]. lia.
Qed.

(** The entry that [dir_add] writes over the one it found. *)
Definition new_entry (nm : list Z) (sec : Z) (e : list Z) : list Z := set_inode_sector sec (set_name nm (set_in_use true e)).
Definition valid_name (nm : list Z) : Prop := nm <> [] /\ Z.of_nat (length nm) <= NAME_MAX.

Lemma cstring_app nm r : Forall is_char nm -> cstring (nm ++ 0 :: r) = nm.
Proof.
  induction 1 as [|x nm Hx _ IH]; [done|]. cbn [app cstring]. unfold is_char in Hx. rewrite (proj2 (Z.eqb_neq x 0)) by lia. by rewrite IH.
Qed.

Lemma set_in_use_u8 b e : Forall is_u8 e -> Forall is_u8 (set_in_use b e).
Proof.
  intros F. unfold set_in_use, splice. rewrite !Forall_app. split_and!; [by apply Forall_take|by destruct b; repeat constructor|by apply Forall_drop].
Qed.

Lemma new_entry_ok nm sec e :
  length e = 20%nat -> Forall is_u8 e -> Forall is_char nm -> valid_name nm -> is_u32 sec ->
  let e' := new_entry nm sec e in
  length e' = 20%nat /\ Forall is_u8 e' /\ entry_of nm e' /\ inode_sector e' = sec /\ named e'.
Proof.
  intros Le Fe Fn [_ Hn] Hs e'. unfold NAME_MAX in Hn. unfold e', new_entry, set_inode_sector, set_name.
  assert (Et : take (Z.to_nat NAME_MAX) nm = nm) by (apply take_ge; unfold NAME_MAX; lia). rewrite Et. set (e1 := set_in_use true e).
  assert (L1 : length e1 = 20%nat) by (unfold e1, set_in_use; rewrite length_splice; cbn; lia).
  set (e2 := splice e1 4 (nm ++ [0])).
  assert (L2 : length e2 = 20%nat) by (unfold e2; rewrite length_splice; [done|lia|rewrite length_app; cbn; lia]).
  assert (L3 : length (splice e2 0 (word_bytes sec)) = 20%nat) by (rewrite length_splice; cbn; lia).
  assert (En : exists r, name_bytes (splice e2 0 (word_bytes sec)) = nm ++ 0 :: r).
  { exists (drop (4 + length (nm ++ [0])) e1). change (name_bytes (splice e2 0 (word_bytes sec))) with (drop 4 e2). unfold e2, splice.
    rewrite drop_app_length' by (rewrite length_take, L1; done). by rewrite <- app_assoc. }
  assert (Eu : in_use (splice e2 0 (word_bytes sec)) = true).
  { unfold in_use. rewrite lookup_splice by (cbn; lia). rewrite decide_False by (cbn; lia). unfold e2.
    rewrite lookup_splice by (rewrite ?length_app; cbn; lia). rewrite decide_False by (rewrite length_app; cbn; lia).
    unfold e1, set_in_use. rewrite lookup_splice by (cbn; lia). done. }
  destruct En as [r En]. assert (Ez : take 15 (name_bytes (splice e2 0 (word_bytes sec))) = nm ++ 0 :: take (14 - length nm) r).
  { rewrite En, take_app, take_ge by lia. f_equal. replace (15 - length nm)%nat with (S (14 - length nm)) by lia. done. }
  split_and!; [done| | | |].
  - unfold splice. rewrite !Forall_app. pose proof (set_in_use_u8 true e Fe) as F1.
    assert (F2 : Forall is_u8 e2).
    { unfold e2, splice. rewrite !Forall_app. split_and!; [by apply Forall_take| |by repeat constructor|by apply Forall_drop].
      eapply Forall_impl; [exact Fn|]. intros x Hx. unfold is_char, is_u8 in *. lia. }
    split_and!; [done|repeat constructor; apply u8_range|by apply Forall_drop].
  - split; [done|]. unfold slot_name. rewrite Ez. by apply cstring_app.
  - unfold inode_sector. change (take 4 (splice e2 0 (word_bytes sec))) with (word_bytes sec). by apply le_word.
  - intros _. rewrite Ez. apply elem_of_app. right. left.
Qed.

(** The entries after one has been written over. *)
Lemma slots_splice c k e :
  length e = 20%nat -> (k < nslots c)%nat -> slots (splice c (Z.of_nat (20 * k)) e) = <[k := e]> (slots c).
Proof.
  intros Le Hk. unfold nslots in Hk. pose proof (slot_end c k Hk) as He.
  assert (Ll : length (splice c (Z.of_nat (20 * k)) e) = length c) by (apply length_splice; lia).
  apply list_eq. intros j. rewrite lookup_slots, Ll. destruct (decide (j < length c / 20)%nat) as [Hj|Hj].
  - pose proof (slot_end c j Hj). destruct (decide (j = k)) as [->|Hne].
    + rewrite list_lookup_insert_eq by (unfold slots; rewrite length_fmap, length_seq; done). f_equal. unfold splice. rewrite Nat2Z.id.
      rewrite drop_app_length' by (rewrite length_take; lia). by rewrite take_app_length'.
    + rewrite list_lookup_insert_ne, lookup_slots, decide_True by done. f_equal. apply list_eq. intros m.
      destruct (decide (m < 20)%nat); [|by rewrite !lookup_take_ge by lia].
      rewrite !lookup_take_lt, !lookup_drop, lookup_splice, Le by lia. rewrite decide_False by lia. done.
  - rewrite list_lookup_insert_ne, lookup_slots, decide_False by lia. done.
Qed.

(** Bytes behind the last entry. *)
Lemma slots_tail c c' :
  length c' = length c -> (forall m, (m < 20 * nslots c)%nat -> c' !! m = c !! m) -> slots c' = slots c.
Proof.
  intros L H. apply list_eq. intros j. rewrite !lookup_slots, L. case_decide as Hj; [|done]. f_equal. apply list_eq. intros m.
  destruct (decide (m < 20)%nat); [|by rewrite !lookup_take_ge by lia]. rewrite !lookup_take_lt, !lookup_drop by lia. apply H.
  unfold nslots. lia.
Qed.

(** Why [dir_add] refuses a name: it is empty or too long, or it is taken, or there is no entry to spare. *)
Definition refused (c nm : list Z) : Prop :=
  ~ valid_name nm \/ (exists e, e ∈ slots c /\ entry_of nm e) \/ (forall e, e ∈ slots c -> in_use e = true).

(** What [dir_add] does to the entries. *)
Definition added (c c' nm : list Z) (sec : Z) (ok : bool) : Prop :=
  if ok then
    valid_name nm /\ (forall e, e ∈ slots c -> ~ entry_of nm e) /\
    exists k e, slots c !! k = Some e /\ in_use e = false /\ slots c' = <[k := new_entry nm sec e]> (slots c)
  else slots c' = slots c /\ refused c nm.

(** Writing the new entry at the place found. *)
Lemma write_slot_ok fm s ss bs tbl p i nm sec ofs e :
  let c := content ss (data i) in
  fsinv fm s ss bs tbl -> inodes s !! p = Some i -> deny_write_cnt i = 0 -> Forall is_char nm -> valid_name nm -> is_u32 sec ->
  Forall is_u8 e -> vacant c 0 ofs e -> (forall e, e ∈ slots c -> ~ entry_of nm e) -> plenty 1 s ->
  exists n s' ss', inode_write_at p (new_entry nm sec e) DIR_ENTRY ofs s = Ok (n, s') /\ fsinv fm s' ss' bs tbl /\ io true s s' /\
    (forall sec d, tbl !! sec = Some d -> sec <> sector i -> content ss' d = content ss d) /\ added c (content ss' (data i)) nm sec (n =? DIR_ENTRY).
Proof.
  intros c V Hi Hd Fn Vn Hsec Fe (j & -> & Le & _ & Hall & Hj) Hnone Hp. pose proof (inv_extent _ _ _ _ _ _ _ V Hi) as [[X0 X1] _ _ _].
  destruct (new_entry_ok nm sec e Le Fe Fn Vn Hsec) as (Ln & Fne & _). pose proof (length_content ss (data i)) as Lc. fold c in Lc.
  assert (Hjn : (j <= nslots c)%nat).
  { unfold nslots. rewrite lookup_slots in Hj. destruct (decide (j < length c / 20)%nat); [lia|unfold nslots in Hj; lia]. }
  pose proof (Nat.mul_div_le (length c) 20 ltac:(done)). unfold nslots in Hjn.
  destruct (inode_write_inv fm s ss bs tbl p i (new_entry nm sec e) DIR_ENTRY (Z.of_nat (20 * j)) V Hi) as (n & s' & ss' & E & V' & I & C & O & Hn & Hm);
    [done|lia|rewrite Ln; done|done|]. specialize (Hm (plenty_head 0 s Hp)).
  exists n, s', ss'. split_and!; try done. fold c in C. rewrite lookup_slots in Hj. destruct (decide (j < length c / 20)%nat) as [Hlt|Hge].
  - pose proof (slot_end c j Hlt). assert (En : n = DIR_ENTRY) by (unfold avail, DIR_ENTRY in *; lia). rewrite En in *. cbn [added].
    rewrite C, take_ge by (rewrite Ln; done). destruct Hj as [He Hu]. rewrite Z.eqb_refl. split_and!; [done|done|]. exists j, e.
    rewrite lookup_slots, decide_True, slots_splice by done. by rewrite <- He in Hu |- *.
  - pose proof (slots_end c j ltac:(lia)). rewrite (proj2 (Z.eqb_neq _ _)) by (unfold avail, DIR_ENTRY in *; lia). cbn [added]. split.
    + apply slots_tail; [by rewrite !length_content|]. intros m Hmm. rewrite C. rewrite lookup_splice; [|lia|rewrite length_take, Ln, Lc; unfold avail, DIR_ENTRY in *; lia].
      rewrite decide_False by (unfold nslots in *; lia). done.
    + right. right. intros e' [k Hk]%list_elem_of_lookup. eapply Hall; [|done]. rewrite lookup_slots in Hk.
      destruct (decide (k < length c / 20)%nat); [lia|done].
Qed.

Lemma dir_add_ok fm s ss bs tbl d i nm sec junk junk' :
  let c := content ss (data i) in
  fsinv fm s ss bs tbl -> inodes s !! d_inode d = Some i -> deny_write_cnt i = 0 -> Forall is_char nm -> Forall named (slots c) ->
  length junk = 20%nat -> Forall is_u8 junk -> length junk' = 20%nat -> is_u32 sec -> plenty (2 * nslots c + 5) s ->
  exists ok s' ss', dir_add (Some d) nm sec junk junk' s = Ok (ok, s') /\ fsinv fm s' ss' bs tbl /\ still (2 * nslots c + 5) s s' /\
    (forall sec d, tbl !! sec = Some d -> sec <> sector i -> content ss' d = content ss d) /\ added c (content ss' (data i)) nm sec ok.
Proof.
  intros c V Hi Hd Fn Fs Lj Fj Lj' Hsec Hp. cbn [dir_add].
  assert (Weak : forall k s', (k <= 2 * nslots c + 5)%nat -> still k s s' -> still (2 * nslots c + 5) s s').
  { intros k s' Hk [[? ? ? ? ? (m & Hm & Em)] Ef]. split; [|done]. split; try done. exists m. split; [lia|done]. }
  destruct (bool_decide (nm = []) || (NAME_MAX <? Z.of_nat (length nm))) eqn:Ev.
  { exists false, s, ss. split_and!; [done|done|apply still_refl|done|]. split; [done|]. left. intros [H1 H2].
    apply orb_true_iff in Ev as [Ev|Ev]; [by apply bool_decide_eq_true in Ev|apply Z.ltb_lt in Ev; lia]. }
  assert (Vn : valid_name nm) by (apply orb_false_iff in Ev as [E1 E2]; apply bool_decide_eq_false in E1; apply Z.ltb_ge in E2; done).
  destruct (lookup_ok fm s ss bs tbl d i nm junk' V Hi Fn Fs Lj') as (r & s1 & E1 & V1 & S1 & F1); [intros j Hj; apply Hp; fold c in Hj; lia|].
  fold c in S1, F1. rewrite (M_bind_Ok _ _ _ _ _ E1). destruct r as [[e ofs]|].
  { exists false, s1, ss. split_and!; [done|done|apply (Weak (nslots c + 2)%nat); [lia|done]|done|]. split; [done|]. right. left.
    destruct F1 as (j & _ & Hj & _ & Hm & _). exists e. split; [|done]. by eapply list_elem_of_lookup_2. }
  assert (Hnone : forall e, e ∈ slots c -> ~ entry_of nm e) by (intros e [k Hk]%list_elem_of_lookup; eapply F1; [|done]; lia).
  assert (Hi1 : inodes s1 !! d_inode d = Some i) by (by rewrite (q_inodes _ _ _ (proj1 S1))).
  rewrite (M_bind_Ok _ _ _ _ _ (entry_fuel_ok fm s1 ss bs tbl (d_inode d) i V1 Hi1)). fold c. change 0 with (Z.of_nat (20 * 0)).
  assert (P1 : plenty (nslots c + 3) s1) by (eapply (still_plenty _ _ s s1 S1); intros j Hj; apply Hp; lia).
  destruct (free_slot_ok fm ss bs tbl (d_inode d) i (S (S (nslots c))) 0 junk s1) as ([ofs e] & s2 & E2 & V2 & S2 & Va & Fe);
    [done|done|done|done|lia|fold c; lia|intros j Hj; apply P1; lia|]. fold c in Va. cbn [fst snd] in *. rewrite (M_bind_Ok _ _ _ _ _ E2). cbn [fst snd].
  destruct (write_slot_ok fm s2 ss bs tbl (d_inode d) i nm sec ofs e) as (n & s3 & ss3 & E3 & V3 & I3 & O3 & A3); try done.
  { by rewrite (q_inodes _ _ _ (proj1 S2)). }
  { eapply (still_plenty _ _ s1 s2 S2). intros j Hj. apply P1. lia. }
  exists (n =? DIR_ENTRY), s3, ss3. rewrite (M_bind_Ok _ _ _ _ _ E3). split_and!; try done.
  apply (Weak (nslots c + 2 + S (S (nslots c)) + 1)%nat); [lia|]. eapply still_trans; [by eapply still_trans|by eapply still_io].
Qed.

(** ** Lemmas: creating a file *)

Lemma plenty_calm m n s s' : calm m s s' -> plenty (m + n) s -> plenty n s'.
Proof. intros [_ _ _ (k & Hk & E)] P. eapply plenty_drop; [done|done|lia]. Qed.
Lemma plenty_quiet m n s s' : quiet m s s' -> plenty (m + n) s -> plenty n s'.
Proof. intros [_ _ _ _ _ (k & Hk & E)] P. eapply plenty_drop; [done|done|lia]. Qed.
Lemma plenty_le m n s : plenty n s -> (m <= n)%nat -> plenty m s.
Proof. intros P H j Hj. apply P. lia. Qed.

(** Opening the root directory, of which the caller then holds a reference. *)
Lemma root_open_ok s ss bs tbl rd n :
  fsinv (files s) s ss bs tbl -> tbl !! ROOT_DIR_SECTOR = Some rd -> countable s -> plenty (2 + n) s ->
  exists d s', dir_open_root s = Ok (Some d, s') /\ fsinv (files s) s' ss bs tbl /\ files s' = files s /\ free_map_file s' = free_map_file s /\ plenty n s' /\
    inodes s' = <[d_inode d := reopened (inodes s !! d_inode d) ROOT_DIR_SECTOR rd]> (inodes s) /\
    match inodes s !! d_inode d with Some i => sector i = ROOT_DIR_SECTOR | None => forall q i, inodes s !! q = Some i -> sector i <> ROOT_DIR_SECTOR end.
Proof.
  intros V Hr Hc Hp. destruct (inode_open_ok (files s) s ss bs tbl ROOT_DIR_SECTOR rd V Hr) as (r & s1 & E1 & V1 & C1 & Ef & Hm);
    [intros p i Hi _; by eapply Hc|].
  unfold dir_open_root. rewrite (M_bind_Ok _ _ _ _ _ E1). destruct r as [p|].
  2: { destruct Hm as (_ & [_ Hm] & _). exfalso. apply Hm. by eapply plenty_head. }
  destruct Hm as (Ei & _ & Hs). pose proof (plenty_calm 1 (S n) s s1 C1 Hp) as P1.
  destruct (fs_malloc_ok s1) as (q & s2 & E2 & D2 & I2 & M2 & Hq). unfold dir_open. rewrite (M_bind_Ok _ _ _ _ _ E2).
  destruct q as [q|]; [|destruct Hq as [_ Hq]; exfalso; apply Hq; by eapply plenty_head].
  exists (MkDir p 0), s2. cbn [d_inode]. split_and!; [done|by eapply io_fsinv|by rewrite (io_files _ _ _ I2)| |by eapply plenty_io|by rewrite (io_inodes _ _ _ I2)|done].
  rewrite (io_file _ _ _ I2). apply C1.
Qed.

Lemma fill_one bs k x v : bs !! k = Some x -> fill k (Z.to_nat 1) v bs = <[k := v]> bs.
Proof.
  intros Hk. pose proof (lookup_lt_Some _ _ _ Hk). change (Z.to_nat 1) with 1%nat. apply list_eq. intros j.
  rewrite lookup_fill, list_lookup_insert by lia. destruct (decide (k <= j < k + 1)%nat); [rewrite decide_True by lia; done|rewrite decide_False by lia; done].
Qed.

Lemma group_one bs k v : group bs k (Z.to_nat 1) v <-> bs !! k = Some v.
Proof.
  change (Z.to_nat 1) with 1%nat. split; [intros [_ G]; specialize (G 0%nat ltac:(lia)); by rewrite Nat.add_0_r in G|].
  intros H. split; [apply lookup_lt_Some in H; lia|]. intros j Hj. assert (j = 0%nat) by lia. subst j. by rewrite Nat.add_0_r.
Qed.

(** Taking one sector for the new file's inode. *)
Lemma take_sector fm s ss bs tbl n :
  fsinv fm s ss bs tbl -> free_map_file s <> None -> plenty (S n) s ->
  exists r s' ss', free_map_allocate 1 s = Ok (r, s') /\ quiet 1 s s' /\ plenty n s' /\
    (forall sec d, tbl !! sec = Some d -> sec <> FREE_MAP_SECTOR -> content ss' d = content ss d) /\
    match r with
    | Some sec => 0 < sec < 2 ^ 31 /\ bs !! Z.to_nat sec = Some false /\ fsinv fm s' ss' (<[Z.to_nat sec := true]> bs) tbl
    | None => fsinv fm s' ss' bs tbl /\ forall k, bs !! k <> Some false
    end.
Proof.
  intros V Hf Hp. destruct (free_map_allocate_ok s ss bs 1) as (r & s' & ss' & bs' & E & Io & Rb & Lb & A); [apply V|apply V|by eapply inv_map_ready|done|].
  exists r, s', ss'. split; [done|]. split; [by eapply map_io_quiet|]. split; [by eapply plenty_quiet; [by eapply map_io_quiet|]|].
  split. { eapply frame_content; [exact V|]. intros sec d k Hd Ho Hm. apply (mio_frame _ _ _ _ Io); [by eapply owns_pos; [apply V|..]|done]. }
  destruct r as [sec|]; cbn [allocated] in A.
  - destruct A as (Hs & _ & G & -> & _). pose proof (proj1 (group_one _ _ _) G) as Hb. pose proof (taken_inv fm s s' ss ss' bs tbl sec 1 V Io G Hs ltac:(lia) Rb) as V'.
    rewrite (fill_one _ _ _ _ Hb) in V'. pose proof (lookup_lt_Some _ _ _ Hb). pose proof (inv_len _ _ _ _ _ V). pose proof (inv_small _ _ _ _ _ V).
    split_and!; [|lia|done|done]. destruct (Z.eq_dec sec 0) as [->|]; [|lia]. exfalso.
    pose proof (inv_file _ _ _ _ _ V) as Mo. unfold map_ok in Mo. destruct (free_map_file s) as [f|]; [|done]. destruct Mo as (fl & i & _ & Hi & Hsi & _).
    pose proof (mem_data _ _ _ (inv_mem _ _ _ _ _ V) _ _ Hi) as Hd. pose proof (disk_used _ _ _ (inv_disk _ _ _ _ _ V) _ _ (sector i) Hd (or_introl eq_refl)) as Hu.
    rewrite Hsi in Hu. unfold FREE_MAP_SECTOR in Hu. congruence.
  - destruct A as [-> A]. split.
    + eapply fsinv_map; [exact V|done|done|done|]. intros sec d k. apply (disk_used _ _ _ (inv_disk _ _ _ _ _ V)).
    + destruct A as [A|[_ A]]; [|exfalso; apply A; by eapply plenty_head]. intros k Hk. apply (A k). by apply group_one.
Qed.

(** Giving back the sector of an inode that no one has. *)
Lemma give_back fm s ss bs tblx tbl sec :
  fsinv fm s ss bs tblx -> tbl ⊆ tblx -> mem_ok fm s tbl -> (forall sec' d', tbl !! sec' = Some d' -> ~ owns sec' d' sec) ->
  0 <= sec -> bs !! Z.to_nat sec = Some true -> free_map_file s <> None ->
  exists s' ss', free_map_release sec 1 s = Ok (tt, s') /\ quiet 1 s s' /\ fsinv fm s' ss' (<[Z.to_nat sec := false]> bs) tbl /\
    forall sec d, tbl !! sec = Some d -> sec <> FREE_MAP_SECTOR -> content ss' d = content ss d.
Proof.
  intros V Hsub Mm Hno Hs Hu Hf. assert (V' : fsinv fm s ss bs tbl).
  { destruct V as [V1 V2 V3 V4 [D1 D2 D3] V6 V7]. split; try done. split.
    - intros sec' d' Hd. apply D1. by eapply lookup_weaken.
    - intros sec' d' k Hd. apply D2. by eapply lookup_weaken.
    - intros s1 d1 s2 d2 k H1 H2. eapply D3; by eapply lookup_weaken. }
  destruct (free_map_release_ok s ss bs sec 1) as (s' & ss' & E & Io & Rb); [apply V|apply V|by eapply inv_map_ready|done|done|done|by apply group_one|].
  rewrite (fill_one _ _ _ _ Hu) in Rb. exists s', ss'. split; [done|]. split; [by eapply map_io_quiet|]. split.
  - eapply fsinv_map; [exact V'|done|done|apply length_insert|]. intros sec' d k Hd Ho. pose proof (disk_used _ _ _ (inv_disk _ _ _ _ _ V') _ _ _ Hd Ho).
    pose proof (owns_pos _ _ _ _ _ _ (inv_disk _ _ _ _ _ V') Hd Ho). rewrite list_lookup_insert_ne; [done|]. intros Eq. assert (k = sec) by lia. subst. by eapply Hno.
  - eapply frame_content; [exact V'|]. intros sec' d k Hd Ho Hm. apply (mio_frame _ _ _ _ Io); [by eapply owns_pos; [apply V'|..]|done].
Qed.

(** Closing the root directory again. *)
Lemma inode_close_quiet (s s' : fs) p i :
  inodes s !! p = Some i -> removed i = false -> inode_close (Some p) s = Ok (tt, s') -> mallocs s' = mallocs s /\ free_map_file s' = free_map_file s.
Proof.
  intros Hi Hr. unfold inode_close. rewrite (M_bind_Ok _ _ _ _ _ (get_inode_ok p s i Hi)). unfold put_inode. rewrite M_bind_modify. simpl. rewrite Hr.
  destruct (_ =? 0); unfold mbind, M_bind, modify, mret, M_ret; simpl; intros E; injection E as <-; done.
Qed.

Lemma root_close_ok fm s ss bs tbl p o rd :
  fsinv fm s ss bs tbl -> free_map_file s <> None -> inodes s !! p = Some (reopened o ROOT_DIR_SECTOR rd) ->
  holders fm p < open_cnt (reopened o ROOT_DIR_SECTOR rd) -> (forall i, o = Some i -> 0 < open_cnt i /\ removed i = false) ->
  exists s', inode_close (Some p) s = Ok (tt, s') /\ fsinv fm s' ss bs tbl /\ files s' = files s /\ mallocs s' = mallocs s /\ free_map_file s' = free_map_file s /\
    inodes s' = match o with Some i => <[p := i]> (inodes s) | None => delete p (inodes s) end.
Proof.
  intros V Hf Hi Hh Ho. assert (Hr : removed (reopened o ROOT_DIR_SECTOR rd) = false) by (destruct o as [i|]; [by apply (Ho i)|done]).
  destruct (inode_close_ok fm s ss bs tbl p _ V Hf Hi Hh) as (s' & ss' & bs' & tbl' & E & V' & C & Ef & _).
  destruct (inode_close_quiet _ _ _ _ Hi Hr E). exists s'. unfold closed in C. destruct o as [i|]; cbn [reopened] in C.
  - destruct (Ho i eq_refl) as [Hc _]. rewrite decide_False in C by (simpl; lia). destruct C as (Ei & -> & -> & ->). split_and!; try done.
    rewrite Ei. do 2 f_equal. destruct i. simpl. unfold set_open_cnt. simpl. f_equal. lia.
  - rewrite decide_True in C by done. destruct C as (Ei & -> & -> & ->). done.
Qed.

(** Where [create_entry] has got to: the file is made, or there was no sector for its inode, or none for
    its data, or the directory refused the name, when the inode and its data are on the device. *)
Definition made (fm : gmap Z file) (s' : fs) (ss' : list (list Z)) (bs : list bool) (tbl : gmap Z inode_disk) (c c' nm : list Z) (size : Z)
  (r : bool * Z) : Prop :=
  if r.1 then
    exists st bs', fsinv fm s' ss' bs' (<[r.2 := new_inode st size]> tbl) /\ tbl !! r.2 = None /\ 0 <= r.2 /\
      content ss' (new_inode st size) = replicate (Z.to_nat size) 0 /\ added c c' nm r.2 true
  else
    slots c' = slots c /\
    ((r.2 = 0 /\ fsinv fm s' ss' bs tbl /\ (forall k, bs !! k <> Some false)) \/
     (0 < r.2 /\ bs !! Z.to_nat r.2 = Some false /\
      ((fsinv fm s' ss' (<[Z.to_nat r.2 := true]> bs) tbl /\ forall j, ~ group (<[Z.to_nat r.2 := true]> bs) j (Z.to_nat (bytes_to_sectors size)) false) \/
       exists st, let d := new_inode st size in let bs1 := <[Z.to_nat r.2 := true]> bs in
         fsinv fm s' ss' (fill (Z.to_nat st) (Z.to_nat (sectors_of d)) true bs1) (<[r.2 := d]> tbl) /\
         group bs1 (Z.to_nat st) (Z.to_nat (sectors_of d)) false /\ 0 <= st /\ refused c nm))).

Lemma create_entry_ok fm s ss bs tbl d i nm size junk junk' :
  let c := content ss (data i) in
  fsinv fm s ss bs tbl -> free_map_file s <> None -> inodes s !! d_inode d = Some i -> sector i = ROOT_DIR_SECTOR -> deny_write_cnt i = 0 ->
  Forall is_char nm -> Forall named (slots c) -> length junk = 20%nat -> Forall is_u8 junk -> length junk' = 20%nat -> 0 <= size < 2 ^ 31 ->
  plenty (2 * nslots c + 8) s ->
  exists r s' ss', create_entry (Some d) nm size junk junk' s = Ok (r, s') /\ quiet (2 * nslots c + 8) s s' /\
    (forall sec d', tbl !! sec = Some d' -> sec <> FREE_MAP_SECTOR -> sec <> ROOT_DIR_SECTOR -> content ss' d' = content ss d') /\
    made fm s' ss' bs tbl c (content ss' (data i)) nm size r.
Proof.
  intros c V Hf Hi Hsi Hd Fn Fs Lj Fj Lj' Hsz Hp. pose proof (mem_data _ _ _ (inv_mem _ _ _ _ _ V) _ _ Hi) as Htd. rewrite Hsi in Htd.
  assert (Weak : forall k s', (k <= 2 * nslots c + 8)%nat -> quiet k s s' -> quiet (2 * nslots c + 8) s s').
  { intros k s' Hk [? ? ? ? ? (m & Hm & Em)]. split; try done. exists m. split; [lia|done]. }
  destruct (take_sector fm s ss bs tbl (2 * nslots c + 7)) as (r & s1 & ss1 & E1 & Q1 & P1 & C1 & A1); [done|done|by eapply plenty_le; [done|lia]|].
  cbn [create_entry]. rewrite (M_bind_Ok _ _ _ _ _ E1). pose proof (C1 _ _ Htd ltac:(done)) as Ec1. fold c in Ec1. destruct r as [sec|].
  2: { exists (false, 0), s1, ss1. split_and!; [done|apply (Weak 1%nat); [lia|done]|intros sec' d' ???; by apply (C1 sec')|]. unfold made. cbn [fst snd]. rewrite Ec1.
       split; [done|]. left. done. }
  destruct A1 as (Hs & Hb & V1). pose proof (inv_disk _ _ _ _ _ V) as D.
  assert (Hfree : forall sec' d', tbl !! sec' = Some d' -> ~ owns sec' d' sec).
  { intros sec' d' Hd' Ho. pose proof (disk_used _ _ _ D _ _ _ Hd' Ho). congruence. }
  assert (Hnone : tbl !! sec = None). { destruct (tbl !! sec) eqn:Et; [|done]. exfalso. apply (Hfree _ _ Et). by left. }
  destruct (inode_create_full fm s1 ss1 (<[Z.to_nat sec := true]> bs) tbl sec size) as (ok & s2 & ss2 & E2 & Q2 & C2 & A2); [done|lia| |done|done|].
  { apply list_lookup_insert_eq. by eapply lookup_lt_Some. }
  rewrite (M_bind_Ok _ _ _ _ _ E2). pose proof (C2 _ _ Htd ltac:(done)) as Ec2. rewrite Ec1 in Ec2.
  pose proof (quiet_trans _ _ _ _ _ Q1 Q2) as Q12. destruct ok.
  2: { exists (false, sec), s2, ss2. split_and!; [done|apply (Weak 3%nat); [lia|done]|intros sec' d' ???; rewrite (C2 sec'), (C1 sec') by done; done|]. unfold made. cbn [fst snd]. rewrite Ec2.
       split; [done|]. right. split_and!; [lia|done|]. left. destruct A2 as [V2 A2]. split; [done|].
       destruct A2 as [A2|[A2|A2]]; [done|exfalso; apply A2, P1; lia..]. }
  destruct A2 as (st & bs2 & V2 & Cz & Eb & G). assert (Hst : 0 <= st).
  { destruct (disk_inode _ _ _ (inv_disk _ _ _ _ _ V2) sec (new_inode st size)) as (_ & _ & X & _); [apply lookup_insert_eq|apply X]. }
  assert (Hi2 : inodes s2 !! d_inode d = Some i) by (rewrite (q_inodes _ _ _ Q2), (q_inodes _ _ _ Q1); done).
  destruct (dir_add_ok fm s2 ss2 bs2 _ d i nm sec junk junk' V2 Hi2) as (ok & s3 & ss3 & E3 & V3 & S3 & C3 & A3); try done.
  { by rewrite Ec2. } { unfold is_u32. lia. } { rewrite Ec2. eapply (plenty_quiet 2); [done|]. eapply plenty_le; [done|lia]. }
  rewrite Ec2 in A3, S3. exists (ok, sec), s3, ss3. rewrite (M_bind_Ok _ _ _ _ _ E3).
  assert (C0 : forall sec' d', tbl !! sec' = Some d' -> sec' <> FREE_MAP_SECTOR -> sec' <> ROOT_DIR_SECTOR -> content ss3 d' = content ss d').
  { intros sec' d' Hd' H0 H1. rewrite (C3 sec'); [rewrite (C2 sec') by done; by apply (C1 sec')|rewrite lookup_insert_ne; [done|congruence]|congruence]. }
  split_and!; [done|apply (Weak (1 + 2 + (2 * nslots c + 5))%nat); [lia|eapply quiet_trans; [done|apply S3]]|done|].
  unfold made. cbn [fst snd]. destruct ok.
  - exists st, bs2. split_and!; [done|done|lia| |done]. rewrite (C3 sec); [done|apply lookup_insert_eq|]. rewrite Hsi. intros ->. congruence.
  - destruct A3 as [A3 A4]. split; [done|]. right. split_and!; [lia|done|]. right. exists st. cbv zeta. rewrite <- Eb. done.
Qed.

Lemma fill_around bs k st n :
  bs !! k = Some false -> group (<[k := true]> bs) st n false ->
  group bs st n false /\ <[k := false]> (fill st n true (<[k := true]> bs)) = fill st n true bs /\ fill st n true (<[k := true]> bs) !! k = Some true.
Proof.
  intros Hk [Hl Hg]. rewrite length_insert in Hl. pose proof (lookup_lt_Some _ _ _ Hk) as Hlt.
  assert (Hout : ~ (st <= k < st + n)%nat).
  { intros Hin. specialize (Hg (k - st)%nat ltac:(lia)). rewrite list_lookup_insert in Hg. case_decide; [done|lia]. }
  split_and!.
  - split; [done|]. intros j Hj. rewrite <- (Hg j Hj), list_lookup_insert_ne by lia. done.
  - apply list_eq. intros j. rewrite list_lookup_insert, !lookup_fill, length_fill, length_insert, list_lookup_insert by (rewrite ?length_insert; lia).
    repeat case_decide; try lia; try done. replace j with k by lia. by rewrite Hk.
  - rewrite lookup_fill, decide_False by (rewrite ?length_insert; lia). by apply list_lookup_insert_eq.
Qed.

(** What [filesys_create] leaves: a new file and its entry, or the file system as it was because there
    was no room on the device, or, if the directory refuses the name, as it was except that the data
    sectors of the inode it had created stay in use. *)
Definition create_result (ss' : list (list Z)) (bs bs' : list bool) (tbl tbl' : gmap Z inode_disk) (c c' nm : list Z) (size : Z) (ok : bool) : Prop :=
  let n := Z.to_nat (bytes_to_sectors size) in
  if ok then
    exists sec st, tbl' = <[sec := new_inode st size]> tbl /\ tbl !! sec = None /\
      content ss' (new_inode st size) = replicate (Z.to_nat size) 0 /\ added c c' nm sec true
  else
    tbl' = tbl /\ slots c' = slots c /\
    ((bs' = bs /\ ((forall k, bs !! k <> Some false) \/ exists k, bs !! k = Some false /\ forall j, ~ group (<[k := true]> bs) j n false)) \/
     (refused c nm /\ exists st, group bs st n false /\ bs' = fill st n true bs)).

Lemma create_undo fm m s ss bs tbl s1 ss1 c nm size rd r :
  mem_ok fm s tbl -> free_map_file s <> None -> disk_ok ss bs tbl -> tbl !! ROOT_DIR_SECTOR = Some rd ->
  quiet m s s1 -> made fm s1 ss1 bs tbl c (content ss1 rd) nm size r ->
  exists s' ss' bs' tbl', (if negb r.1 && negb (r.2 =? 0) then free_map_release r.2 1 else mret tt) s1 = Ok (tt, s') /\ inodes s' = inodes s /\ files s' = files s /\
    free_map_file s' = free_map_file s /\ fsinv fm s' ss' bs' tbl' /\ create_result ss' bs bs' tbl tbl' c (content ss' rd) nm size r.1 /\
    forall sec d', tbl !! sec = Some d' -> sec <> FREE_MAP_SECTOR -> content ss' d' = content ss1 d'.
Proof.
  intros Mm Hf D Hrd Q M. pose proof (mem_ok_same _ _ s1 _ Mm (q_open _ _ _ Q) (q_inodes _ _ _ Q) (q_files _ _ _ Q) (q_next _ _ _ Q)) as M1.
  destruct r as [ok sec]. unfold made in M. cbn [fst snd] in *. destruct ok; cbn [negb andb].
  { destruct M as (st & bs' & V & Hn & _ & Cz & Ad). exists s1, ss1, bs', (<[sec := new_inode st size]> tbl). rewrite (q_inodes _ _ _ Q), (q_files _ _ _ Q), (q_file _ _ _ Q).
    split_and!; try done. by exists sec, st. }
  destruct M as [Es M]. destruct M as [(-> & V & Hfull)|(Hp & Hb & M)].
  { exists s1, ss1, bs, tbl. rewrite (q_inodes _ _ _ Q), (q_files _ _ _ Q), (q_file _ _ _ Q). split_and!; try done. unfold create_result. cbv zeta. split_and!; [done..|]. left. auto. }
  rewrite (proj2 (Z.eqb_neq sec 0)) by lia. cbn [negb].
  assert (Hno : forall sec' d', tbl !! sec' = Some d' -> ~ owns sec' d' sec).
  { intros sec' d' Hd' Ho. pose proof (disk_used _ _ _ D _ _ _ Hd' Ho). congruence. }
  assert (Hnone : tbl !! sec = None). { destruct (tbl !! sec) eqn:Et; [|done]. exfalso. apply (Hno _ _ Et). by left. }
  assert (R : forall bsx tblx, fsinv fm s1 ss1 bsx tblx -> tbl ⊆ tblx -> bsx !! Z.to_nat sec = Some true ->
    create_result ss1 bs (<[Z.to_nat sec := false]> bsx) tbl tbl c (content ss1 rd) nm size false -> exists s' ss' bs' tbl', 
    free_map_release sec 1 s1 = Ok (tt, s') /\ inodes s' = inodes s /\ files s' = files s /\
    free_map_file s' = free_map_file s /\ fsinv fm s' ss' bs' tbl' /\ create_result ss' bs bs' tbl tbl' c (content ss' rd) nm size false /\
    forall sec d', tbl !! sec = Some d' -> sec <> FREE_MAP_SECTOR -> content ss' d' = content ss1 d').
  { intros bsx tblx V Hsub Hx Cr. destruct (give_back fm s1 ss1 bsx tblx tbl sec V Hsub M1 Hno) as (s' & ss' & E & Q' & V' & C'); [lia|done|by rewrite (q_file _ _ _ Q)|].
    exists s', ss', (<[Z.to_nat sec := false]> bsx), tbl. rewrite (q_inodes _ _ _ Q'), (q_files _ _ _ Q'), (q_file _ _ _ Q'), (q_inodes _ _ _ Q), (q_files _ _ _ Q), (q_file _ _ _ Q).
    split_and!; try done. rewrite (C' _ _ Hrd) by done. exact Cr. }
  destruct M as [[V Hg]|(st & V & G & Hst & Rf)].
  - eapply R; [exact V|done|apply list_lookup_insert_eq; by eapply lookup_lt_Some|]. unfold create_result. cbv zeta. split_and!; [done|done|]. left.
    rewrite list_insert_insert_eq, list_insert_id by done. eauto.
  - destruct (fill_around _ _ _ _ Hb G) as (G' & Ef & Hx). eapply R; [exact V|by apply insert_subseteq|exact Hx|].
    unfold create_result. cbv zeta. split_and!; [done|done|]. right. split; [done|]. exists (Z.to_nat st).
    destruct (disk_inode _ _ _ (inv_disk _ _ _ _ _ V) sec (new_inode st size)) as (_ & _ & X & _); [apply lookup_insert_eq|].
    change size with (length_ (new_inode st size)). rewrite bytes_to_sectors_small by apply X. split; [exact G'|exact Ef].
Qed.

Lemma no_holders fm (s : fs) tbl p : mem_ok fm s tbl -> inodes s !! p = None -> holders fm p = 0.
Proof.
  intros M Hp. apply count_zero. intros f fl Hf. apply Z.eqb_neq. intros E. destruct (mem_files _ _ _ M _ _ Hf) as [i Hi]. congruence.
Qed.

(** Nobody has removed the root directory or denies writes to it: no system call can. *)
Definition root_kept (s : fs) : Prop :=
  forall p i, inodes s !! p = Some i -> sector i = ROOT_DIR_SECTOR -> removed i = false /\ deny_write_cnt i = 0.

(** The root directory is opened, and closing it again leaves the open inodes as they were. *)
Record root_opened (s s1 : fs) (ss : list (list Z)) (bs : list bool) (tbl : gmap Z inode_disk) (rd : inode_disk) (n : nat) (d : dir) : Prop := {
  ro_inv : fsinv (files s) s1 ss bs tbl;
  ro_files : files s1 = files s;
  ro_map : free_map_file s1 = free_map_file s;
  ro_plenty : plenty n s1;
  ro_inodes : inodes s1 = <[d_inode d := reopened (inodes s !! d_inode d) ROOT_DIR_SECTOR rd]> (inodes s);
  ro_root : exists i, inodes s1 !! d_inode d = Some i /\ sector i = ROOT_DIR_SECTOR /\ data i = rd /\ deny_write_cnt i = 0;
  ro_close s2 ss2 bs2 tbl2 : fsinv (files s) s2 ss2 bs2 tbl2 -> inodes s2 !! d_inode d = inodes s1 !! d_inode d -> free_map_file s2 <> None ->
    exists s3, dir_close (Some d) s2 = Ok (tt, s3) /\ fsinv (files s) s3 ss2 bs2 tbl2 /\ files s3 = files s2 /\ mallocs s3 = mallocs s2 /\
      free_map_file s3 = free_map_file s2 /\ forall q, inodes s3 !! q = if decide (q = d_inode d) then inodes s !! q else inodes s2 !! q
}.

Lemma root_restored s s1 ss bs tbl rd n d (s2 s3 : fs) :
  root_opened s s1 ss bs tbl rd n d -> inodes s2 = inodes s1 ->
  (forall q, inodes s3 !! q = if decide (q = d_inode d) then inodes s !! q else inodes s2 !! q) -> inodes s3 = inodes s.
Proof.
  intros R E H. apply map_eq. intros q. rewrite H. case_decide; [done|]. by rewrite E, (ro_inodes _ _ _ _ _ _ _ _ R), lookup_insert_ne.
Qed.

Lemma root_around s ss bs tbl rd n :
  fsinv (files s) s ss bs tbl -> tbl !! ROOT_DIR_SECTOR = Some rd -> countable s -> root_kept s -> plenty (2 + n) s ->
  exists d s1, dir_open_root s = Ok (Some d, s1) /\ root_opened s s1 ss bs tbl rd n d.
Proof.
  intros V Hr Hc Hk Hp. destruct (root_open_ok s ss bs tbl rd n V Hr Hc Hp) as (d & s1 & E & V1 & Ef & Em & P1 & Ei & Hs).
  pose proof (inv_mem _ _ _ _ _ V) as Mm. exists d, s1. split; [done|]. split; try done.
  - rewrite Ei, lookup_insert_eq. eexists. split; [done|]. destruct (inodes s !! d_inode d) as [j|] eqn:Ej; [|done]. cbn [reopened]. simpl.
    split; [done|]. split; [|by eapply Hk]. pose proof (mem_data _ _ _ Mm _ _ Ej) as Hd. rewrite Hs, Hr in Hd. by simplify_eq.
  - intros s2 ss2 bs2 tbl2 V2 E2 M2. destruct (root_close_ok (files s) s2 ss2 bs2 tbl2 (d_inode d) (inodes s !! d_inode d) rd) as (s3 & E3 & V3 & F3 & M3 & Mf3 & I3); try done.
    + by rewrite E2, Ei, lookup_insert_eq.
    + destruct (inodes s !! d_inode d) as [j|] eqn:Ej; cbn [reopened]; simpl; [pose proof (mem_cnt _ _ _ Mm _ _ Ej); lia|by rewrite (no_holders _ _ _ _ Mm Ej)].
    + intros j Ej. rewrite Ej in Hs. split; [apply (mem_cnt _ _ _ Mm _ _ Ej)|by eapply Hk].
    + exists s3. split_and!; try done. intros q. rewrite I3. case_decide as Hq; [subst q|]; destruct (inodes s !! d_inode d) as [j|] eqn:Ej;
        [apply lookup_insert_eq|apply lookup_delete_eq|by rewrite lookup_insert_ne|by rewrite lookup_delete_ne].
Qed.

(** The invariant of the root directory, whose contents are [c]: names end within their field, the
    entries in use have different names and stand for different inodes, none of them the directory's own
    or the free map's. *)
Record dir_ok (c : list Z) (tbl : gmap Z inode_disk) : Prop := {
  dir_named : Forall named (slots c);
  dir_linked e : e ∈ slots c -> in_use e = true -> inode_sector e <> ROOT_DIR_SECTOR /\ inode_sector e <> FREE_MAP_SECTOR /\ is_Some (tbl !! inode_sector e);
  dir_apart j k e e' : slots c !! j = Some e -> slots c !! k = Some e' -> in_use e = true -> in_use e' = true ->
    slot_name e = slot_name e' \/ inode_sector e = inode_sector e' -> j = k
}.

Lemma dir_ok_change c c' tbl tbl' k e v :
  dir_ok c tbl -> slots c !! k = Some e -> slots c' = <[k := v]> (slots c) -> named v ->
  (forall j e', j <> k -> slots c !! j = Some e' -> in_use e' = true -> is_Some (tbl' !! inode_sector e')) ->
  (in_use v = true -> (inode_sector v <> ROOT_DIR_SECTOR /\ inode_sector v <> FREE_MAP_SECTOR /\ is_Some (tbl' !! inode_sector v)) /\
    forall j e', j <> k -> slots c !! j = Some e' -> in_use e' = true -> slot_name e' <> slot_name v /\ inode_sector e' <> inode_sector v) ->
  dir_ok c' tbl'.
Proof.
  intros [D1 D2 D3] Hk Ec Nv Ht Hv. pose proof (lookup_lt_Some _ _ _ Hk) as Hlt.
  assert (L : forall j x, slots c' !! j = Some x -> (j = k /\ x = v) \/ (j <> k /\ slots c !! j = Some x)).
  { intros j x. rewrite Ec, list_lookup_insert_Some. naive_solver. }
  split.
  - rewrite Ec. by apply Forall_insert.
  - intros x [j Hj]%list_elem_of_lookup Hu. destruct (L _ _ Hj) as [[-> ->]|[Hne Hx]]; [by apply Hv|].
    destruct (D2 x) as (? & ? & _); [by eapply list_elem_of_lookup_2|done|]. split_and!; [done|done|by eapply Ht].
  - intros j1 j2 x1 x2 H1 H2 U1 U2 Hor. destruct (L _ _ H1) as [[-> ->]|[N1 X1]], (L _ _ H2) as [[-> ->]|[N2 X2]]; [done| | |by eapply D3].
    + destruct (Hv U1) as [_ Hd]. destruct (Hd _ _ N2 X2 U2). naive_solver.
    + destruct (Hv U2) as [_ Hd]. destruct (Hd _ _ N1 X1 U1). naive_solver.
Qed.

Lemma dir_ok_same c c' tbl : slots c' = slots c -> dir_ok c tbl -> dir_ok c' tbl.
Proof. intros E [D1 D2 D3]. split; rewrite ?E; done. Qed.

Lemma slot_u8 c k e : Forall is_u8 c -> slots c !! k = Some e -> Forall is_u8 e.
Proof. rewrite lookup_slots. intros F. case_decide; [|done]. intros [= <-]. by apply Forall_take, Forall_drop. Qed.

Lemma map_inode fm s ss bs tbl : fsinv fm s ss bs tbl -> free_map_file s <> None -> is_Some (tbl !! FREE_MAP_SECTOR).
Proof.
  intros V Hf. pose proof (inv_file _ _ _ _ _ V) as M. unfold map_ok in M. destruct (free_map_file s); [|done].
  destruct M as (fl & i & _ & Hi & <- & _). by eapply mk_is_Some, mem_data; [apply V|].
Qed.

Lemma created_dir_ok fm s s' ss ss' bs bs' tbl tbl' rd nm size ok :
  fsinv fm s ss bs tbl -> free_map_file s <> None -> tbl !! ROOT_DIR_SECTOR = Some rd -> Forall is_char nm -> dir_ok (content ss rd) tbl ->
  fsinv fm s' ss' bs' tbl' -> create_result ss' bs bs' tbl tbl' (content ss rd) (content ss' rd) nm size ok -> dir_ok (content ss' rd) tbl'.
Proof.
  intros V Hf Hr Fn D V' C. destruct ok; [|destruct C as (-> & E & _); by eapply dir_ok_same].
  destruct C as (sec & st & -> & Hnone & _ & Vn & Hno & k & e & Hk & Hu & Ec). destruct (map_inode _ _ _ _ _ V Hf) as [dm Hm].
  destruct (disk_inode _ _ _ (inv_disk _ _ _ _ _ V') sec (new_inode st size)) as (Hs & (v & Hv & _) & _); [apply lookup_insert_eq|].
  apply lookup_lt_Some in Hv. pose proof (inv_small _ _ _ _ _ V').
  destruct (disk_inode _ _ _ (inv_disk _ _ _ _ _ V) _ _ Hr) as (_ & _ & X & _).
  pose proof (content_u8 ss rd (Block.dev_sectors _ _ (inv_dev _ _ _ _ _ V)) X) as Fc.
  destruct (new_entry_ok nm sec e (length_slot _ _ _ Hk) (slot_u8 _ _ _ Fc Hk) Fn Vn) as (_ & _ & [_ En] & Es & Nn); [unfold is_u32; lia|].
  eapply (dir_ok_change _ _ tbl _ k e); try done.
  - intros j e' _ He' Hu'. destruct (dir_linked _ _ D e') as (_ & _ & Hx); [by eapply list_elem_of_lookup_2|done|].
    rewrite lookup_insert_is_Some'. by right.
  - intros _. rewrite Es, En, lookup_insert_eq. split_and!; [congruence|congruence|done|]. intros j e' Hj He' Hu'.
    split; [intros Heq; apply (Hno e'); [by eapply list_elem_of_lookup_2|by split]|].
    destruct (dir_linked _ _ D e') as (_ & _ & [y Hx]); [by eapply list_elem_of_lookup_2|done|]. congruence.
Qed.

Lemma filesys_create_ok s ss bs tbl rd nm size junk junk' :
  let c := content ss rd in
  fsinv (files s) s ss bs tbl -> free_map_file s <> None -> tbl !! ROOT_DIR_SECTOR = Some rd -> countable s -> root_kept s ->
  Forall is_char nm -> dir_ok c tbl -> length junk = 20%nat -> Forall is_u8 junk -> length junk' = 20%nat -> 0 <= size < 2 ^ 31 ->
  plenty (2 * nslots c + 10) s ->
  exists ok s' ss' bs' tbl', filesys_create nm size junk junk' s = Ok (ok, s') /\ fsinv (files s') s' ss' bs' tbl' /\
    files s' = files s /\ inodes s' = inodes s /\ free_map_file s' = free_map_file s /\
    (forall sec d, tbl !! sec = Some d -> sec <> FREE_MAP_SECTOR -> sec <> ROOT_DIR_SECTOR -> content ss' d = content ss d) /\
    create_result ss' bs bs' tbl tbl' c (content ss' rd) nm size ok /\ dir_ok (content ss' rd) tbl'.
Proof.
  intros c V Hf Hr Hc Hk Fn Hl Lj Fj Lj' Hsz Hp. pose proof (dir_named _ _ Hl) as Fs.
  destruct (root_around s ss bs tbl rd (2 * nslots c + 8) V Hr Hc Hk) as (d & s1 & E1 & R1); [by eapply plenty_le; [done|lia]|].
  destruct (ro_root _ _ _ _ _ _ _ _ R1) as (i & Hi & Si & Di & Wi). pose proof (ro_map _ _ _ _ _ _ _ _ R1) as Em.
  destruct (create_entry_ok (files s) s1 ss bs tbl d i nm size junk junk') as (r & s2 & ss2 & E2 & Q2 & C2 & M2); try rewrite Di; try done; [apply R1|congruence|apply R1|].
  rewrite Di in *. fold c in Q2, M2.
  destruct (create_undo (files s) (2 * nslots c + 8) s1 ss bs tbl s2 ss2 c nm size rd r (inv_mem _ _ _ _ _ (ro_inv _ _ _ _ _ _ _ _ R1))) as (s3 & ss3 & bs3 & tbl3 & E3 & I3 & F3 & M3 & V3 & Cr & C3);
    [congruence|apply V|done|exact Q2|exact M2|].
  destruct (ro_close _ _ _ _ _ _ _ _ R1 s3 ss3 bs3 tbl3 V3) as (s4 & E4 & V4 & F4 & _ & M4 & I4); [congruence|congruence|].
  unfold filesys_create. rewrite (M_bind_Ok _ _ _ _ _ E1), (M_bind_Ok _ _ _ _ _ E2), (M_bind_Ok _ _ _ _ _ E3), (M_bind_Ok _ _ _ _ _ E4).
  assert (Ff : files s4 = files s) by (rewrite F4, F3; apply R1).
  exists r.1, s4, ss3, bs3, tbl3. rewrite Ff. split_and!; try done; [by eapply root_restored|congruence| |by eapply (created_dir_ok (files s)); [exact V|..]].
  intros sec d' Hd H0 H1. rewrite (C3 sec) by done. by apply (C2 sec).
Qed.

(** C9: [filesys_create], with memory enough, creates a file of the size asked for, all zeros, under the
    name asked for, in an entry of the root directory that was unused; or it returns false because the
    device has no room for the file, or because the directory refuses the name: it is empty or longer
    than [NAME_MAX], or taken, or every entry is in use.  In every case the other files are as they were,
    the files and inodes in memory too, and the invariant holds, that of the directory too.  But when the directory refuses the name
    only the inode's sector is given back: the data sectors stay in use and belong to no file. *)
Theorem filesys_create_correct s ss bs tbl rd nm size junk junk' :
  let c := content ss rd in
  fsinv (files s) s ss bs tbl -> free_map_file s <> None -> tbl !! ROOT_DIR_SECTOR = Some rd -> countable s -> root_kept s ->
  Forall is_char nm -> dir_ok c tbl -> length junk = 20%nat -> Forall is_u8 junk -> length junk' = 20%nat -> 0 <= size < 2 ^ 31 ->
  plenty (2 * nslots c + 10) s ->
  exists ok s' ss' bs' tbl', filesys_create nm size junk junk' s = Ok (ok, s') /\ fsinv (files s') s' ss' bs' tbl' /\
    files s' = files s /\ inodes s' = inodes s /\ free_map_file s' = free_map_file s /\
    (forall sec d, tbl !! sec = Some d -> sec <> FREE_MAP_SECTOR -> sec <> ROOT_DIR_SECTOR -> content ss' d = content ss d) /\
    create_result ss' bs bs' tbl tbl' c (content ss' rd) nm size ok /\ dir_ok (content ss' rd) tbl'.
Proof. apply filesys_create_ok. Qed.

(** [p] is the open inode of a sector, opened once more than before. *)
Definition opened (s s' : fs) (p sec : Z) (d : inode_disk) : Prop :=
  inodes s' = <[p := reopened (inodes s !! p) sec d]> (inodes s) /\
  match inodes s !! p with Some i => sector i = sec | None => forall q i, inodes s !! q = Some i -> sector i <> sec end.

Lemma opened_holders fm s s' tbl p sec d :
  mem_ok fm s tbl -> opened s s' p sec d -> exists i, inodes s' !! p = Some i /\ i = reopened (inodes s !! p) sec d /\ holders fm p < open_cnt i /\ sector i = sec.
Proof.
  intros M [E H]. exists (reopened (inodes s !! p) sec d). rewrite E, lookup_insert_eq. split_and!; try done.
  - destruct (inodes s !! p) as [j|] eqn:Ej; cbn [reopened]; simpl; [pose proof (mem_cnt _ _ _ M _ _ Ej); lia|by rewrite (no_holders _ _ _ _ M Ej)].
  - by destruct (inodes s !! p).
Qed.

(** Looking a name up in the open root directory, and opening the inode of the entry found. *)
Lemma lookup_open_ok s s1 ss bs tbl rd n d nm junk :
  let c := content ss rd in
  root_opened s s1 ss bs tbl rd (nslots c + 3 + n) d -> countable s -> Forall is_char nm -> dir_ok c tbl -> length junk = 20%nat ->
  exists r s2, lookup (Some d) nm junk s1 = Ok (r, s2) /\ fsinv (files s) s2 ss bs tbl /\ files s2 = files s /\ free_map_file s2 = free_map_file s /\
    inodes s2 = inodes s1 /\ plenty n s2 /\
    match r with
    | Some (e, ofs) => exists k dd p s3, found c nm 0 r /\ slots c !! k = Some e /\ ofs = Z.of_nat (20 * k) /\ tbl !! inode_sector e = Some dd /\
        inode_sector e <> ROOT_DIR_SECTOR /\ inode_sector e <> FREE_MAP_SECTOR /\ p <> d_inode d /\ inode_open (inode_sector e) s2 = Ok (Some p, s3) /\
        fsinv (files s) s3 ss bs tbl /\ files s3 = files s /\ free_map_file s3 = free_map_file s /\ plenty n s3 /\ opened s1 s3 p (inode_sector e) dd
    | None => forall e, e ∈ slots c -> ~ entry_of nm e
    end.
Proof.
  intros c R Hc Fn [Fs Hl _] Lj. destruct (ro_root _ _ _ _ _ _ _ _ R) as (i & Hi & Si & Di & Wi). pose proof (ro_inv _ _ _ _ _ _ _ _ R) as V1.
  pose proof (ro_plenty _ _ _ _ _ _ _ _ R) as P1.
  destruct (lookup_ok (files s) s1 ss bs tbl d i nm junk V1 Hi) as (r & s2 & E2 & V2 & S2 & F2); rewrite ?Di; try done; [by eapply plenty_le; [done|fold c; lia]|].
  rewrite Di in *. fold c in S2, F2. pose proof (still_plenty _ (S n) _ _ S2 ltac:(eapply plenty_le; [done|lia])) as P2. destruct S2 as [Q2 _].
  exists r, s2. rewrite (q_files _ _ _ Q2), (q_file _ _ _ Q2), (q_inodes _ _ _ Q2). split_and!; try done; [apply R|apply R|by eapply plenty_le; [done|lia]|].
  destruct r as [[e ofs]|]; [|intros e [j Hj]%list_elem_of_lookup; eapply F2; [|done]; lia].
  pose proof F2 as (k & Hk & Hs & -> & He & _). destruct (Hl e) as (Hroot & Hmap & dd & Hdd); [by eapply list_elem_of_lookup_2|by apply He|].
  destruct (inode_open_ok (files s) s2 ss bs tbl (inode_sector e) dd V2 Hdd) as (r & s3 & E3 & V3 & C3 & F3 & Hr).
  { intros q j. rewrite (q_inodes _ _ _ Q2), (ro_inodes _ _ _ _ _ _ _ _ R). intros [[<- <-]|[_ Hj]]%lookup_insert_Some Hsec; [|by eapply Hc].
    exfalso. rewrite (ro_inodes _ _ _ _ _ _ _ _ R), lookup_insert_eq in Hi. simplify_eq. congruence. }
  destruct r as [p|]; [|destruct Hr as (_ & [_ Hr] & _); exfalso; apply Hr; by eapply plenty_head].
  destruct Hr as (Ei & _ & Hsec). rewrite (q_inodes _ _ _ Q2) in Ei, Hsec. exists k, dd, p, s3.
  rewrite F3, (q_files _ _ _ Q2), (calm_file _ _ _ C3), (q_file _ _ _ Q2).
  split_and!; try done; [|apply R|apply R|by eapply (plenty_calm 1)]. intros ->. rewrite Hi in Hsec. congruence.
Qed.

Lemma opened_restored s s1 ss bs tbl rd n d (s2 s3 : fs) p sec dd :
  root_opened s s1 ss bs tbl rd n d -> sec <> ROOT_DIR_SECTOR -> p <> d_inode d -> opened s1 s2 p sec dd ->
  (forall q, inodes s3 !! q = if decide (q = d_inode d) then inodes s !! q else inodes s2 !! q) -> opened s s3 p sec dd.
Proof.
  intros R Hs Hp [E H] H3. pose proof (ro_inodes _ _ _ _ _ _ _ _ R) as E1.
  assert (Ep : inodes s1 !! p = inodes s !! p) by (rewrite E1; by apply lookup_insert_ne). split.
  - apply map_eq. intros q. rewrite H3, E, Ep, E1. case_decide as Hq; [subst q; by rewrite lookup_insert_ne|].
    destruct (decide (q = p)) as [->|]; [by rewrite !lookup_insert_eq|]. by rewrite !lookup_insert_ne.
  - rewrite Ep in H. destruct (inodes s !! p); [done|]. intros q i Hq.
    destruct (decide (q = d_inode d)) as [->|]; [|eapply H; rewrite E1, lookup_insert_ne by done; done].
    destruct (ro_root _ _ _ _ _ _ _ _ R) as (j & Hj & Sj & _). rewrite E1, lookup_insert_eq, Hq in Hj. simplify_eq. simpl in Sj. congruence.
Qed.

Lemma filesys_open_ok s ss bs tbl rd nm junk :
  let c := content ss rd in
  fsinv (files s) s ss bs tbl -> free_map_file s <> None -> tbl !! ROOT_DIR_SECTOR = Some rd -> countable s -> root_kept s ->
  Forall is_char nm -> dir_ok c tbl -> length junk = 20%nat -> plenty (nslots c + 6) s ->
  exists r s', filesys_open nm junk s = Ok (r, s') /\ fsinv (files s') s' ss bs tbl /\ free_map_file s' = free_map_file s /\
    match r with
    | Some f => exists p k e dd, slots c !! k = Some e /\ entry_of nm e /\ (forall j e', (j < k)%nat -> slots c !! j = Some e' -> ~ entry_of nm e') /\
        tbl !! inode_sector e = Some dd /\ opened s s' p (inode_sector e) dd /\ files s !! f = None /\ files s' = <[f := MkFile p 0 false]> (files s)
    | None => (forall e, e ∈ slots c -> ~ entry_of nm e) /\ files s' = files s /\ inodes s' = inodes s
    end.
Proof.
  intros c V Hf Hr Hc Hk Fn Hl Lj Hp.
  destruct (root_around s ss bs tbl rd (nslots c + 3 + 1) V Hr Hc Hk) as (d & s1 & E1 & R1); [by eapply plenty_le; [done|lia]|].
  destruct (lookup_open_ok s s1 ss bs tbl rd 1 d nm junk R1) as (r & s2 & E2 & V2 & F2 & M2 & Ei2 & P2 & Hr2); try done.
  unfold filesys_open. rewrite (M_bind_Ok _ _ _ _ _ E1). unfold dir_lookup. destruct r as [[e ofs]|].
  - destruct Hr2 as (k & dd & p & s3 & (k' & _ & Hs & Hofs & He & Hfirst) & _ & Ek & Hdd & Hroot & _ & Hne & E3 & V3 & F3 & M3 & P3 & Ho). assert (k' = k) by lia. subst k'.
    destruct (ro_close _ _ _ _ _ _ _ _ R1 s3 ss bs tbl V3) as (s4 & E4 & V4 & F4 & A4 & M4 & I4); [destruct Ho as [-> _]; by apply lookup_insert_ne|congruence|].
    assert (Ff : files s4 = files s) by congruence. assert (P4 : plenty 1 s4) by (intros j Hj; rewrite A4; by apply P3).
    pose proof (opened_restored _ _ _ _ _ _ _ _ _ _ _ _ _ R1 Hroot Hne Ho I4) as Ho4.
    destruct (opened_holders _ _ _ _ _ _ _ (inv_mem _ _ _ _ _ V) Ho4) as (i & Hi & _ & Hh & _).
    destruct (file_open_ok s4 ss bs tbl p i) as (f & s5 & ss5 & bs5 & tbl5 & E5 & V5 & M5 & Hf5); rewrite ?Ff; try done; [congruence|].
    destruct f as [f|]; [|destruct Hf5 as [[_ Hn] _]; exfalso; apply Hn; by eapply plenty_head]. destruct Hf5 as (Ef & Hnf & Ei & -> & -> & ->).
    exists (Some f), s5. rewrite (M_bind_Ok _ _ s1 (Some p) s3) by (by rewrite (M_bind_Ok _ _ _ _ _ E2)). rewrite (M_bind_Ok _ _ _ _ _ E4).
    split_and!; [done|done|congruence|]. exists p, k, e, dd. split_and!; try done; [|by unfold opened; rewrite Ei|congruence|congruence].
    intros j e' Hj. eapply Hfirst. lia.
  - destruct (ro_close _ _ _ _ _ _ _ _ R1 s2 ss bs tbl V2) as (s3 & E3 & V3 & F3 & A3 & M3 & I3); [congruence|congruence|].
    destruct (fs_malloc_ok s3) as (q & s4 & E4 & D4 & I4 & _). rewrite (M_bind_Ok _ _ s1 None s2) by (by rewrite (M_bind_Ok _ _ _ _ _ E2)).
    rewrite (M_bind_Ok _ _ _ _ _ E3). unfold file_open. rewrite (M_bind_Ok _ _ _ _ _ E4).
    exists None, s4. assert (Ef4 : files s4 = files s) by (rewrite (io_files _ _ _ I4); congruence). rewrite Ef4. split_and!; try done; [by eapply io_fsinv|rewrite (io_file _ _ _ I4); congruence|].
    rewrite (io_inodes _ _ _ I4). by eapply root_restored.
Qed.

(** C33: [filesys_open], with memory enough, returns a file on the inode of the first entry of the root
    directory with the name asked for, at position 0 and not denying writes; the inode is the one already
    in memory, if it is open, with one more opener.  It returns null, and changes nothing, if no entry in
    use has the name.  The contents of the device are as they were and the invariant holds. *)
Theorem filesys_open_correct s ss bs tbl rd nm junk :
  let c := content ss rd in
  fsinv (files s) s ss bs tbl -> free_map_file s <> None -> tbl !! ROOT_DIR_SECTOR = Some rd -> countable s -> root_kept s ->
  Forall is_char nm -> dir_ok c tbl -> length junk = 20%nat -> plenty (nslots c + 6) s ->
  exists r s', filesys_open nm junk s = Ok (r, s') /\ fsinv (files s') s' ss bs tbl /\ free_map_file s' = free_map_file s /\
    match r with
    | Some f => exists p k e dd, slots c !! k = Some e /\ entry_of nm e /\ (forall j e', (j < k)%nat -> slots c !! j = Some e' -> ~ entry_of nm e') /\
        tbl !! inode_sector e = Some dd /\ opened s s' p (inode_sector e) dd /\ files s !! f = None /\ files s' = <[f := MkFile p 0 false]> (files s)
    | None => (forall e, e ∈ slots c -> ~ entry_of nm e) /\ files s' = files s /\ inodes s' = inodes s
    end.
Proof. apply filesys_open_ok. Qed.

(** Writing an entry back as not in use. *)
Lemma clear_slot_ok fm s ss bs tbl p i k e :
  let c := content ss (data i) in
  fsinv fm s ss bs tbl -> inodes s !! p = Some i -> deny_write_cnt i = 0 -> slots c !! k = Some e -> plenty 1 s ->
  exists s' ss', inode_write_at p (set_in_use false e) DIR_ENTRY (s32 (Z.of_nat (20 * k))) s = Ok (DIR_ENTRY, s') /\ fsinv fm s' ss' bs tbl /\ io true s s' /\
    (forall sec d, tbl !! sec = Some d -> sec <> sector i -> content ss' d = content ss d) /\
    slots (content ss' (data i)) = <[k := set_in_use false e]> (slots c).
Proof.
  intros c V Hi Hd Hs Hp. pose proof (inv_extent _ _ _ _ _ _ _ V Hi) as X. pose proof (ext_len _ _ X). pose proof (length_slot _ _ _ Hs) as Le.
  pose proof (length_content ss (data i)) as Lc. fold c in Lc. pose proof Hs as Hs'. rewrite lookup_slots in Hs'. case_decide as Hk; [|done]. pose proof (slot_end c k Hk).
  assert (Lw : length (set_in_use false e) = 20%nat) by (unfold set_in_use; rewrite length_splice; cbn; lia).
  rewrite s32_small by (unfold is_s32; lia).
  destruct (inode_write_inv fm s ss bs tbl p i (set_in_use false e) DIR_ENTRY (Z.of_nat (20 * k)) V Hi) as (n & s' & ss' & E & V' & I & C & O & Hn & Hm);
    [|lia|rewrite Lw; done|done|].
  { pose proof (content_u8 ss (data i) (Block.dev_sectors _ _ (inv_dev _ _ _ _ _ V)) X) as Fc. fold c in Fc.
    simplify_eq. apply set_in_use_u8. by apply Forall_take, Forall_drop. }
  specialize (Hm (plenty_head 0 s Hp)). assert (En : n = DIR_ENTRY) by (unfold avail, DIR_ENTRY in *; lia). clear Hm. subst n.
  exists s', ss'. split_and!; try done. fold c in C. rewrite C, take_ge, slots_splice by (rewrite ?Lw; done). done.
Qed.

(** What removing the file of an entry leaves: the file is gone, with its sectors given back, or, if it is
    open, marked to go when the last opener closes it. *)
Definition unlinked (s s' : fs) (bs bs' : list bool) (tbl tbl' : gmap Z inode_disk) (sec : Z) (dd : inode_disk) : Prop :=
  ((forall q i, inodes s !! q = Some i -> sector i <> sec) /\ inodes s' = inodes s /\ bs' = freed bs sec dd /\ tbl' = delete sec tbl) \/
  (exists p i, inodes s !! p = Some i /\ sector i = sec /\ bs' = bs /\ tbl' = tbl /\
    inodes s' = <[p := MkInode (sector i) (open_cnt i) true (deny_write_cnt i) (data i)]> (inodes s)).

Lemma remove_close_ok fm s s1 ss bs tbl p sec dd :
  fsinv fm s1 ss bs tbl -> mem_ok fm s tbl -> free_map_file s1 <> None -> sec <> FREE_MAP_SECTOR -> opened s s1 p sec dd -> tbl !! sec = Some dd ->
  exists s' ss' bs' tbl', (do* inode_remove (Some p) ; do* inode_close (Some p) ; mret true) s1 = Ok (true, s') /\ fsinv fm s' ss' bs' tbl' /\
    files s' = files s1 /\ free_map_file s' = free_map_file s1 /\ unlinked s s' bs bs' tbl tbl' sec dd /\
    (forall sec' d, tbl !! sec' = Some d -> sec' <> FREE_MAP_SECTOR -> content ss' d = content ss d) /\ (forall q, q <> p -> inodes s' !! q = inodes s1 !! q).
Proof.
  intros V M Hf Hm Ho Hdd. destruct (opened_holders _ _ _ _ _ _ _ M Ho) as (i & Hi & Ei & Hh & Hsec). rewrite <- Hsec in Hm.
  destruct (fsinv_remove fm s1 ss bs tbl p i V Hi Hm) as (s2 & E2 & V2 & C2 & F2 & I2).
  destruct (inode_close_ok fm s2 ss bs tbl p (MkInode (sector i) (open_cnt i) true (deny_write_cnt i) (data i)) V2) as (s3 & ss3 & bs3 & tbl3 & E3 & V3 & C3 & F3 & M3 & Fr);
    [by rewrite (calm_file _ _ _ C2)|by rewrite I2, lookup_insert_eq|done|].
  rewrite (M_bind_Ok _ _ _ _ _ E2), (M_bind_Ok _ _ _ _ _ E3). exists s3, ss3, bs3, tbl3.
  split_and!; [done|done|congruence|rewrite M3; apply C2| | |].
  - destruct Ho as [Eo Hp]. unfold closed in C3. simpl in C3. rewrite I2, Eo, ?delete_insert_eq, ?insert_insert_eq in C3. destruct (inodes s !! p) as [j|] eqn:Ej.
    + right. exists p, j. subst i. simpl in C3. rewrite decide_False in C3 by (pose proof (mem_cnt _ _ _ M _ _ Ej); lia).
      destruct C3 as (E & -> & -> & _). split_and!; try done. rewrite E. unfold set_open_cnt. simpl. do 2 f_equal. lia.
    + left. subst i. simpl in C3. destruct C3 as (E & -> & ->). split_and!; try done. rewrite E. by apply delete_id.
  - eapply frame_content; [exact V2|]. intros sec' d k Hd Hown Hk. apply Fr; [by eapply owns_pos; [apply V|..]|done].
  - intros q Hq. unfold closed in C3. simpl in C3. case_decide.
    + destruct C3 as (-> & _). by rewrite lookup_delete_ne, I2, lookup_insert_ne.
    + destruct C3 as (-> & _). by rewrite lookup_insert_ne, I2, lookup_insert_ne.
Qed.

Lemma unlinked_restored s s1 ss bs bs' tbl tbl' rd n d (s2 s3 : fs) sec dd :
  root_opened s s1 ss bs tbl rd n d -> sec <> ROOT_DIR_SECTOR -> unlinked s1 s2 bs bs' tbl tbl' sec dd ->
  (forall q, inodes s3 !! q = if decide (q = d_inode d) then inodes s !! q else inodes s2 !! q) -> unlinked s s3 bs bs' tbl tbl' sec dd.
Proof.
  intros R Hs U H3. pose proof (ro_inodes _ _ _ _ _ _ _ _ R) as E1. destruct (ro_root _ _ _ _ _ _ _ _ R) as (i & Hi & Si & _).
  destruct U as [(Hno & E & U)|(p & j & Hj & Sj & -> & -> & E)].
  - left. split_and!; try apply U; [|by eapply root_restored]. intros q j Hj. destruct (decide (q = d_inode d)) as [->|]; [|eapply Hno; by rewrite E1, lookup_insert_ne].
    rewrite E1, lookup_insert_eq, Hj in Hi. simplify_eq. simpl in Si. congruence.
  - right. assert (Hp : p <> d_inode d) by congruence. exists p, j. rewrite E1, lookup_insert_ne in Hj by done. split_and!; try done.
    apply map_eq. intros q. rewrite H3, E, E1. case_decide as Hq; [subst q; by rewrite lookup_insert_ne|].
    destruct (decide (q = p)) as [->|]; [by rewrite !lookup_insert_eq|]. by rewrite !lookup_insert_ne.
Qed.

Lemma unlinked_dir_ok (s s' : fs) bs bs' c c' tbl tbl' k e dd :
  dir_ok c tbl -> slots c !! k = Some e -> in_use e = true -> unlinked s s' bs bs' tbl tbl' (inode_sector e) dd ->
  slots c' = <[k := set_in_use false e]> (slots c) -> dir_ok c' tbl'.
Proof.
  intros D Hk Hu U Ec. pose proof (length_slot _ _ _ Hk) as Le.
  assert (Hoff : in_use (set_in_use false e) = false).
  { unfold in_use, set_in_use. rewrite lookup_splice by (cbn; lia). rewrite decide_True by (cbn; lia). done. }
  eapply (dir_ok_change c c' tbl tbl' k e); [done|done|done| | |congruence].
  - intros Hx. congruence.
  - intros j e' Hj He' Hu'. destruct (dir_linked _ _ D e') as (_ & _ & Hs); [by eapply list_elem_of_lookup_2|done|].
    destruct U as [(_ & _ & _ & ->)|(p & i & _ & _ & _ & -> & _)]; [|done]. rewrite lookup_delete_ne; [done|].
    intros Heq. apply Hj. eapply (dir_apart _ _ D); try done. by right.
Qed.

Lemma filesys_remove_ok s ss bs tbl rd nm junk :
  let c := content ss rd in
  fsinv (files s) s ss bs tbl -> free_map_file s <> None -> tbl !! ROOT_DIR_SECTOR = Some rd -> countable s -> root_kept s ->
  Forall is_char nm -> dir_ok c tbl -> length junk = 20%nat -> plenty (nslots c + 6) s ->
  exists ok s' ss' bs' tbl', filesys_remove nm junk s = Ok (ok, s') /\ fsinv (files s') s' ss' bs' tbl' /\ files s' = files s /\ free_map_file s' = free_map_file s /\
    (forall sec d, tbl !! sec = Some d -> sec <> FREE_MAP_SECTOR -> sec <> ROOT_DIR_SECTOR -> content ss' d = content ss d) /\
    if ok then
      exists k e dd, slots c !! k = Some e /\ entry_of nm e /\ (forall j e', (j < k)%nat -> slots c !! j = Some e' -> ~ entry_of nm e') /\
        slots (content ss' rd) = <[k := set_in_use false e]> (slots c) /\ tbl !! inode_sector e = Some dd /\ unlinked s s' bs bs' tbl tbl' (inode_sector e) dd /\
        dir_ok (content ss' rd) tbl'
    else (forall e, e ∈ slots c -> ~ entry_of nm e) /\ inodes s' = inodes s /\ ss' = ss /\ bs' = bs /\ tbl' = tbl.
Proof.
  intros c V Hf Hr Hc Hk Fn Hl Lj Hp.
  destruct (root_around s ss bs tbl rd (nslots c + 3 + 1) V Hr Hc Hk) as (d & s1 & E1 & R1); [by eapply plenty_le; [done|lia]|].
  destruct (lookup_open_ok s s1 ss bs tbl rd 1 d nm junk R1) as (r & s2 & E2 & V2 & F2 & M2 & Ei2 & P2 & Hr2); try done.
  unfold filesys_remove. rewrite (M_bind_Ok _ _ _ _ _ E1). cbn [dir_remove]. destruct r as [[e ofs]|].
  2: { destruct (ro_close _ _ _ _ _ _ _ _ R1 s2 ss bs tbl V2) as (s3 & E3 & V3 & F3 & _ & M3 & I3); [congruence|congruence|].
       rewrite (M_bind_Ok _ _ s1 false s2) by (by rewrite (M_bind_Ok _ _ _ _ _ E2)). rewrite (M_bind_Ok _ _ _ _ _ E3).
       assert (Ff : files s3 = files s) by congruence. exists false, s3, ss, bs, tbl. rewrite Ff. split_and!; try done; [congruence|by eapply root_restored]. }
  destruct Hr2 as (k & dd & p & s3 & (k' & _ & Hs & Hofs & He & Hfirst) & _ & Ek & Hdd & Hroot & Hmap & Hne & E3 & V3 & F3 & M3 & P3 & Ho).
  assert (k' = k) by lia. subst k' ofs. destruct (ro_root _ _ _ _ _ _ _ _ R1) as (i & Hi & Si & Di & Wi).
  assert (Hi3 : inodes s3 !! d_inode d = Some i) by (destruct Ho as [-> _]; by rewrite lookup_insert_ne).
  destruct (clear_slot_ok (files s) s3 ss bs tbl (d_inode d) i k e V3 Hi3) as (s4 & ss4 & E4 & V4 & I4 & C4 & S4); try rewrite Di; try done. rewrite Di, Si in *. fold c in S4.
  assert (Ho4 : opened s1 s4 p (inode_sector e) dd) by (unfold opened; by rewrite (io_inodes _ _ _ I4)).
  destruct (remove_close_ok (files s) s1 s4 ss4 bs tbl p (inode_sector e) dd V4) as (s5 & ss5 & bs5 & tbl5 & E5 & V5 & F5 & M5 & U5 & C5 & I5); try done.
  { apply (ro_inv _ _ _ _ _ _ _ _ R1). } { rewrite (io_file _ _ _ I4). congruence. }
  destruct (ro_close _ _ _ _ _ _ _ _ R1 s5 ss5 bs5 tbl5 V5) as (s6 & E6 & V6 & F6 & _ & M6 & I6);
    [rewrite I5 by done; rewrite (io_inodes _ _ _ I4); congruence|rewrite M5, (io_file _ _ _ I4); congruence|].
  rewrite (M_bind_Ok _ _ s1 true s5).
  2: { rewrite (M_bind_Ok _ _ _ _ _ E2), (M_bind_Ok _ _ _ _ _ E3), (M_bind_Ok _ _ _ _ _ E4). exact E5. }
  rewrite (M_bind_Ok _ _ _ _ _ E6). assert (Ff : files s6 = files s) by (rewrite F6, F5, (io_files _ _ _ I4); congruence).
  exists true, s6, ss5, bs5, tbl5. rewrite Ff. split_and!; try done.
  - rewrite M6, M5, (io_file _ _ _ I4). congruence.
  - intros sec d' Hd H0 H1. rewrite (C5 sec) by done. by apply (C4 sec).
  - exists k, e, dd. split_and!; try done; [intros j e' Hj; eapply Hfirst; lia|by rewrite (C5 _ _ Hr)|by eapply unlinked_restored|].
    eapply unlinked_dir_ok; [done|exact Hs|by apply He|exact U5|]. by rewrite (C5 _ _ Hr).
Qed.

(** C34: [filesys_remove], with memory enough, marks the first entry with the name as unused and changes no
    other entry.  A file that nobody has open is gone at once, its own sector and its data sectors free
    again; an open one stays, marked, until the last opener closes it.  It returns false, and changes
    nothing, if no entry in use has the name.  The other files are as they were and the invariants hold. *)
Theorem filesys_remove_correct s ss bs tbl rd nm junk :
  let c := content ss rd in
  fsinv (files s) s ss bs tbl -> free_map_file s <> None -> tbl !! ROOT_DIR_SECTOR = Some rd -> countable s -> root_kept s ->
  Forall is_char nm -> dir_ok c tbl -> length junk = 20%nat -> plenty (nslots c + 6) s ->
  exists ok s' ss' bs' tbl', filesys_remove nm junk s = Ok (ok, s') /\ fsinv (files s') s' ss' bs' tbl' /\ files s' = files s /\ free_map_file s' = free_map_file s /\
    (forall sec d, tbl !! sec = Some d -> sec <> FREE_MAP_SECTOR -> sec <> ROOT_DIR_SECTOR -> content ss' d = content ss d) /\
    if ok then
      exists k e dd, slots c !! k = Some e /\ entry_of nm e /\ (forall j e', (j < k)%nat -> slots c !! j = Some e' -> ~ entry_of nm e') /\
        slots (content ss' rd) = <[k := set_in_use false e]> (slots c) /\ tbl !! inode_sector e = Some dd /\ unlinked s s' bs bs' tbl tbl' (inode_sector e) dd /\
        dir_ok (content ss' rd) tbl'
    else (forall e, e ∈ slots c -> ~ entry_of nm e) /\ inodes s' = inodes s /\ ss' = ss /\ bs' = bs /\ tbl' = tbl.
Proof. apply filesys_remove_ok. Qed.

End dir.

(** ** The small file system, with memory

    Its root directory has room for sixteen entries, and one of them is in use. *)

#[local] Existing Instance Block.ram_device.

Definition demo : fs (B := list (list Z)) := set_mallocs (replicate 60 true) 20 (demo_fs false).
Definition demo_root : inode_disk := new_inode 3 320.

Lemma demo_fsinv : fsinv (files demo) demo demo_ss demo_bs demo_tbl.
Proof. destruct (demo_inv false) as [V1 V2 V3 V4 V5 V6 V7]. split; try done. by eapply mem_ok_same. Qed.

Lemma demo_quiet : countable demo /\ root_kept demo /\ plenty 42 demo /\ plenty 22 demo.
Proof.
  split_and!.
  - intros p i [[-> ->]|[-> ->]]%demo_inodes; done.
  - intros p i [[-> ->]|[-> ->]]%demo_inodes; done.
  - intros j Hj. apply lookup_replicate. simpl. lia.
  - intros j Hj. apply lookup_replicate. simpl. lia.
Qed.

Lemma demo_slots : slots (content demo_ss demo_root) = (word_bytes 4 ++ [97] ++ replicate 14 0 ++ [1]) :: replicate 15 (replicate 20 0).
Proof. by_kernel. Qed.

Lemma demo_dir_ok : dir_ok (content demo_ss demo_root) demo_tbl.
Proof.
  assert (Hu : forall k e, slots (content demo_ss demo_root) !! k = Some e -> in_use e = true -> k = 0%nat /\ e = word_bytes 4 ++ [97] ++ replicate 14 0 ++ [1]).
  { intros k e. rewrite demo_slots, lookup_cons_Some. intros [[-> <-]|[_ [-> _]%lookup_replicate]] Hi; [done|]. discriminate Hi. }
  split.
  - apply Forall_lookup_2. intros k e He Hi. destruct (Hu _ _ He Hi) as [_ ->]. apply list_elem_of_lookup_2 with 1%nat. done.
  - intros e [k He]%list_elem_of_lookup Hi. destruct (Hu _ _ He Hi) as [_ ->]. split_and!; [done|done|]. by exists (new_inode 5 600).
  - intros j k e e' H1 H2 U1 U2 _. destruct (Hu _ _ H1 U1), (Hu _ _ H2 U2). congruence.
Qed.

Lemma demo_entry : ~ (forall e, e ∈ slots (content demo_ss demo_root) -> ~ entry_of [97] e).
Proof. intros H. apply (H (word_bytes 4 ++ [97] ++ replicate 14 0 ++ [1])); [rewrite demo_slots; by left|]. split; by_kernel. Qed.

Lemma filesys_create_correct_witness :
  exists ok s' ss' bs' tbl', filesys_create [98; 99] 600 (replicate 20 7) (replicate 20 8) demo = Ok (ok, s') /\ fsinv (files s') s' ss' bs' tbl' /\
    dir_ok (content ss' demo_root) tbl'.
Proof.
  destruct demo_quiet as (Q1 & Q2 & Q3 & _).
  destruct (filesys_create_correct demo demo_ss demo_bs demo_tbl demo_root [98; 99] 600 (replicate 20 7) (replicate 20 8))
    as (ok & s' & ss' & bs' & tbl' & E & V & _ & _ & _ & _ & _ & D);
    [apply demo_fsinv|done|by_kernel|exact Q1|exact Q2|by repeat constructor|apply demo_dir_ok|done|by apply Forall_replicate|done|done| |].
  - replace (2 * nslots (content demo_ss demo_root) + 10)%nat with 42%nat by by_kernel. exact Q3.
  - exists ok, s', ss', bs', tbl'. split; [exact E|]. split; [exact V|exact D].
Defined.

Lemma filesys_open_correct_witness :
  exists f s' p, filesys_open [97] (replicate 20 7) demo = Ok (Some f, s') /\ files s' = <[f := MkFile p 0 false]> (files demo).
Proof.
  destruct demo_quiet as (Q1 & Q2 & _ & Q3).
  destruct (filesys_open_correct demo demo_ss demo_bs demo_tbl demo_root [97] (replicate 20 7)) as (r & s' & E & _ & _ & H);
    [apply demo_fsinv|done|by_kernel|exact Q1|exact Q2|by repeat constructor|apply demo_dir_ok|done| |].
  - replace (nslots (content demo_ss demo_root) + 6)%nat with 22%nat by by_kernel. exact Q3.
  - destruct r as [f|].
    + destruct H as (p & _ & _ & _ & _ & _ & _ & _ & _ & _ & H). exists f, s', p. split; [exact E|exact H].
    + destruct H as [H _]. by destruct (demo_entry H).
Defined.

Lemma filesys_remove_correct_witness :
  exists s' bs' tbl', filesys_remove [97] (replicate 20 7) demo = Ok (true, s') /\ unlinked demo s' demo_bs bs' demo_tbl tbl' 4 (new_inode 5 600).
Proof.
  destruct demo_quiet as (Q1 & Q2 & _ & Q3).
  destruct (filesys_remove_correct demo demo_ss demo_bs demo_tbl demo_root [97] (replicate 20 7)) as (ok & s' & ss' & bs' & tbl' & E & _ & _ & _ & _ & H);
    [apply demo_fsinv|done|by_kernel|exact Q1|exact Q2|by repeat constructor|apply demo_dir_ok|done| |].
  - replace (nslots (content demo_ss demo_root) + 6)%nat with 22%nat by by_kernel. exact Q3.
  - destruct ok.
    + destruct H as (k & e & dd & Hk & [Hu _] & _ & _ & Hd & H & _). exists s', bs', tbl'. split; [exact E|]. rewrite demo_slots in Hk. destruct k as [|k].
      * injection Hk as <-. change (demo_tbl !! 4 = Some dd) in Hd. injection Hd as <-. exact H.
      * apply lookup_replicate in Hk as [-> _]. discriminate Hu.
    + destruct H as [H _]. by destruct (demo_entry H).
Defined.

End Directory.
