(* ===== verification/FileSystem.v ===== *)
(** * The file system as system calls use it

    The invariants of open files (Files) and of the root directory (Directory) taken together, and that
    every call a system call makes into src/filesys keeps them, whatever the file is and however much or
    little of it is asked for: opening, reading, writing, seeking and closing, and creating and removing
    files by name. *)

From S2P Require Import Prelude Mem Block Inode Files Directory.
Import Mem Inode Files Directory.
Import Block (BlockDevice).

Module FileSystem.

Section fs.
Context {B : Type} `{!BlockDevice B}.
Notation fs := (fs (B := B)).

(** The files that are open are on inodes that are neither the free map's nor the root directory's, the
    free map's own file apart; an inode that has been removed has no name. *)
Record fs_state (k : fs) (ss : list (list Z)) (bs : list bool) (tbl : gmap Z inode_disk) (rd : inode_disk) : Prop := {
  f_inv : fsinv (files k) k ss bs tbl;
  f_positions : positions (files k);
  f_map : free_map_file k <> None;
  f_root : tbl !! ROOT_DIR_SECTOR = Some rd;
  f_length : length_ rd = 320;
  f_kept : root_kept k;
  f_dir : dir_ok (content ss rd) tbl;
  f_removed p i e : inodes k !! p = Some i -> removed i = true -> e ∈ slots (content ss rd) -> in_use e = true -> inode_sector e <> sector i;
  f_user f fl : files k !! f = Some fl -> free_map_file k <> Some f ->
    exists i, inodes k !! f_inode fl = Some i /\ sector i <> FREE_MAP_SECTOR /\ sector i <> ROOT_DIR_SECTOR
}.
Definition fs_ok (k : fs) : Prop := exists ss bs tbl rd, fs_state k ss bs tbl rd.
(** A file a process may have open. *)
Definition user_file (k : fs) (f : Z) : Prop := is_Some (files k !! f) /\ free_map_file k <> Some f.
(** The same files are open. *)
Definition same_open (k k' : fs) : Prop := free_map_file k' = free_map_file k /\ dom (files k') = dom (files k).
(** Memory enough to work on the root directory, and counts that do not overflow. *)
Definition resources (k : fs) : Prop := countable k /\ plenty 42 k.

Lemma same_open_user k k' f : same_open k k' -> user_file k f -> user_file k' f.
Proof. intros [E1 E2] [H1 H2]. split; [|by rewrite E1]. rewrite <- elem_of_dom, E2. by apply elem_of_dom. Qed.

Lemma user_inode k ss bs tbl rd f : fs_state k ss bs tbl rd -> user_file k f ->
  exists fl i, files k !! f = Some fl /\ inodes k !! f_inode fl = Some i /\ sector i <> FREE_MAP_SECTOR /\ sector i <> ROOT_DIR_SECTOR /\
    tbl !! sector i = Some (data i) /\ 0 <= pos fl < 2 ^ 31 /\ 0 <= length_ (data i) < 2 ^ 31.
Proof.
  intros S [[fl Hf] Hm]. destruct (f_user _ _ _ _ _ S f fl Hf Hm) as (i & Hi & H1 & H2). exists fl, i. pose proof (f_inv _ _ _ _ _ S) as V.
  destruct (ext_len _ _ (inv_extent _ _ _ _ _ _ _ V Hi)). split_and!; try done; [by apply (mem_data _ _ _ (inv_mem _ _ _ _ _ V) (f_inode fl))|apply (f_positions _ _ _ _ _ S f fl Hf)|apply (f_positions _ _ _ _ _ S f fl Hf)|lia].
Qed.

(** The position of [f] moves by [n]; nothing else changes in memory, and malloc has been called once at most. *)
Definition moved (k : fs) (f : Z) (fl : file) (n : Z) (k' : fs) : Prop :=
  files k' = <[f := MkFile (f_inode fl) (pos fl + n) (deny_write fl)]> (files k) /\ inodes k' = inodes k /\ free_map_file k' = free_map_file k /\
  (mallocs k' = mallocs k \/ mallocs k' = tail (mallocs k)).

Lemma moved_same_open k f fl n k' : files k !! f = Some fl -> moved k f fl n k' -> same_open k k'.
Proof. intros Hf (E & _ & Em & _). split; [done|]. rewrite E, dom_insert_L. apply elem_of_dom_2 in Hf. set_solver. Qed.

Lemma fs_moved k k1 ss ss1 bs tbl rd f fl p :
  fs_state k ss bs tbl rd -> io true k k1 -> fsinv (files k) k1 ss1 bs tbl -> files k !! f = Some fl -> 0 <= p < 2 ^ 31 -> content ss1 rd = content ss rd ->
  let k2 := set_files (<[f := MkFile (f_inode fl) p (deny_write fl)]> (files k1)) k1 in fs_state k2 ss1 bs tbl rd /\ moved k f fl (p - pos fl) k2.
Proof.
  intros [S1 S2 S3 S4 S5 S6 S7 S8 S9] I V1 Hf Hp Hc k2. pose proof (io_files _ _ _ I) as Ef. pose proof (io_inodes _ _ _ I) as Ei. pose proof (io_file _ _ _ I) as Em. split.
  - rewrite <- Ef in V1, Hf. split; try done.
    + by apply fsinv_pos.
    + simpl. rewrite Ef. by apply positions_insert.
    + simpl. by rewrite Em.
    + intros q i. simpl. rewrite Ei. apply S6.
    + by rewrite Hc.
    + intros q i e. simpl. rewrite Ei, Hc. apply S8.
    + intros g gl. simpl. rewrite Em, Ei, Ef. intros [[<- <-]|[_ Hg]]%lookup_insert_Some Hm; [|by apply (S9 g)]. rewrite Ef in Hf. by apply (S9 f fl).
  - unfold moved. simpl. rewrite Ef. replace (pos fl + (p - pos fl)) with p by lia. destruct (io_mallocs _ _ _ I) as [->|[_ ->]]; auto.
Qed.

Lemma user_read_ok k ss bs tbl rd f fl i buf size : fs_state k ss bs tbl rd -> files k !! f = Some fl -> inodes k !! f_inode fl = Some i -> Z.max 0 size <= Z.of_nat (length buf) ->
  exists n k', file_read (Some f) buf size k = Ok ((n, splice buf 0 (take (Z.to_nat n) (drop (Z.to_nat (pos fl)) (content ss (data i))))), k') /\
    fs_state k' ss bs tbl rd /\ moved k f fl n k' /\ 0 <= n <= avail (data i) size (pos fl) /\ (head (mallocs k) = Some true -> n = avail (data i) size (pos fl)).
Proof.
  intros S Hf Hi Hb. pose proof (f_inv _ _ _ _ _ S) as V. pose proof (f_positions _ _ _ _ _ S f fl Hf) as Hp. destruct (ext_len _ _ (inv_extent _ _ _ _ _ _ _ V Hi)).
  destruct (inode_read_inv _ k ss bs tbl _ i buf size (pos fl) V Hi Hp Hb) as (n & k1 & E & V1 & I & Hn & Hm). unfold avail in Hn.
  unfold file_read. rewrite (M_bind_Ok _ _ _ _ _ (get_file_ok k f fl Hf)), (M_bind_Ok _ _ _ _ _ E). unfold upd_file, put_file. rewrite M_bind_modify.
  eexists n, _. split; [reflexivity|]. simpl fst. rewrite s32_small by (unfold is_s32; lia).
  destruct (fs_moved k k1 ss ss bs tbl rd f fl (pos fl + n) S I V1 Hf ltac:(lia) eq_refl) as [H1 H2]. replace (pos fl + n - pos fl) with n in H2 by lia. done.
Qed.

Lemma splice_nothing c p : 0 <= p -> splice c p [] = c.
Proof. intros Hp. unfold splice. simpl. rewrite ?Z.add_0_r, ?Nat.add_0_r. apply take_drop. Qed.

Lemma user_write_ok k ss bs tbl rd f fl i buf size : fs_state k ss bs tbl rd -> files k !! f = Some fl -> free_map_file k <> Some f -> inodes k !! f_inode fl = Some i ->
  Z.max 0 size <= Z.of_nat (length buf) -> Forall is_u8 buf ->
  exists n k' ss', file_write (Some f) buf size k = Ok (n, k') /\ fs_state k' ss' bs tbl rd /\ moved k f fl n k' /\
    content ss' (data i) = splice (content ss (data i)) (pos fl) (take (Z.to_nat n) buf) /\
    (forall sec d, tbl !! sec = Some d -> sec <> sector i -> content ss' d = content ss d) /\
    0 <= n <= avail (data i) size (pos fl) /\ (deny_write_cnt i = 0 -> head (mallocs k) = Some true -> n = avail (data i) size (pos fl)) /\ (deny_write_cnt i <> 0 -> n = 0).
Proof.
  intros S Hf Hu Hi Hb Fb. pose proof (f_inv _ _ _ _ _ S) as V. pose proof (f_positions _ _ _ _ _ S f fl Hf) as Hp. destruct (ext_len _ _ (inv_extent _ _ _ _ _ _ _ V Hi)).
  destruct (f_user _ _ _ _ _ S f fl Hf Hu) as (i' & Hi' & _ & Hroot). assert (i' = i) as -> by congruence.
  assert (W : exists n k1 ss1, inode_write_at (f_inode fl) buf size (pos fl) k = Ok (n, k1) /\ fsinv (files k) k1 ss1 bs tbl /\ io true k k1 /\
    content ss1 (data i) = splice (content ss (data i)) (pos fl) (take (Z.to_nat n) buf) /\ (forall sec d, tbl !! sec = Some d -> sec <> sector i -> content ss1 d = content ss d) /\
    0 <= n <= avail (data i) size (pos fl) /\ (deny_write_cnt i = 0 -> head (mallocs k) = Some true -> n = avail (data i) size (pos fl)) /\ (deny_write_cnt i <> 0 -> n = 0)).
  { destruct (Z.eq_dec (deny_write_cnt i) 0) as [Hw|Hw].
    - destruct (inode_write_inv _ k ss bs tbl _ i buf size (pos fl) V Hi Fb Hp Hb Hw) as (n & k1 & ss1 & E & V1 & I & Hc & Ho & Hn & Hm). exists n, k1, ss1. by do 6 (split; [done|]).
    - exists 0, k, ss. assert (0 <= avail (data i) size (pos fl)) by (unfold avail; lia).
      split_and!; try done; [by eapply inode_write_denied|apply io_refl|]. by rewrite take_0, splice_nothing by lia. }
  destruct W as (n & k1 & ss1 & E & V1 & I & Hc & Ho & Hn & Hm). exists n. unfold file_write.
  rewrite (M_bind_Ok _ _ _ _ _ (get_file_ok k f fl Hf)), (M_bind_Ok _ _ _ _ _ E). unfold upd_file, put_file. rewrite M_bind_modify.
  eexists _, ss1. split; [reflexivity|]. unfold avail in Hn. rewrite s32_small by (unfold is_s32; lia).
  destruct (fs_moved k k1 ss ss1 bs tbl rd f fl (pos fl + n) S I V1 Hf ltac:(lia) ltac:(apply (Ho ROOT_DIR_SECTOR); [apply S|done])) as [H1 H2].
  replace (pos fl + n - pos fl) with n in H2 by lia. done.
Qed.

Lemma fs_seek_ok k ss bs tbl rd f fl p : fs_state k ss bs tbl rd -> files k !! f = Some fl -> 0 <= p < 2 ^ 31 ->
  exists k', file_seek (Some f) p k = Ok (tt, k') /\ fs_state k' ss bs tbl rd /\ moved k f fl (p - pos fl) k' /\ mallocs k' = mallocs k.
Proof.
  intros S Hf Hp. unfold file_seek. rewrite (M_bind_Ok _ _ k tt k) by done. rewrite (proj2 (Z.leb_le _ _)) by lia. rewrite (M_bind_Ok _ _ k tt k) by done.
  rewrite (M_bind_Ok _ _ _ _ _ (get_file_ok k f fl Hf)). eexists. split; [reflexivity|].
  destruct (fs_moved k k ss ss bs tbl rd f fl p S (io_refl _ _) (f_inv _ _ _ _ _ S) Hf Hp eq_refl) as [H1 H2]. done.
Qed.

Lemma fs_length_ok k f : fs_ok k -> user_file k f -> exists n, file_length (Some f) k = Ok (n, k) /\ 0 <= n < 2 ^ 31.
Proof.
  intros (ss & bs & tbl & rd & S) Hu. destruct (user_inode _ _ _ _ _ _ S Hu) as (fl & i & Hf & Hi & _ & _ & _ & _ & Hl). exists (length_ (data i)).
  unfold file_length. rewrite (M_bind_Ok _ _ k tt k) by done. rewrite (M_bind_Ok _ _ _ _ _ (get_file_ok k f fl Hf)), (M_bind_Ok _ _ _ _ _ (get_inode_ok (f_inode fl) k i Hi)). done.
Qed.

Lemma fs_tell_ok k f : fs_ok k -> user_file k f -> exists n, file_tell (Some f) k = Ok (n, k) /\ 0 <= n < 2 ^ 31.
Proof.
  intros (ss & bs & tbl & rd & S) [[fl Hf] Hm]. exists (pos fl). unfold file_tell. rewrite (M_bind_Ok _ _ k tt k) by done. rewrite (M_bind_Ok _ _ _ _ _ (get_file_ok k f fl Hf)).
  split; [done|]. apply (f_positions _ _ _ _ _ S f fl Hf).
Qed.

(** ** Closing *)

Lemma fs_close_ok k f : fs_ok k -> user_file k f ->
  exists k', file_close (Some f) k = Ok (tt, k') /\ fs_ok k' /\ free_map_file k' = free_map_file k /\ files k' = delete f (files k).
Proof.
  intros (ss & bs & tbl & rd & S) Hu. destruct (user_inode _ _ _ _ _ _ S Hu) as (fl & i & Hf & Hi & Hfree & Hroot & Hd & _). destruct Hu as [_ Hm].
  pose proof (f_inv _ _ _ _ _ S) as V. destruct (file_allow_write_ok k ss bs tbl f fl i V Hf Hi) as [_ V1].
  destruct (file_close_ok k ss bs tbl f fl i V (f_map _ _ _ _ _ S) Hm Hf Hi) as (k' & ss' & bs' & tbl' & E & V' & Ef & Em & C & Fr). set (k1 := denying k f fl i false) in *.
  exists k'. split; [done|]. split; [|done]. exists ss', bs', tbl', rd.
  assert (Ht : tbl' = tbl \/ (removed i = true /\ tbl' = delete (sector i) tbl)).
  { unfold closed in C. simpl open_cnt in C. simpl removed in C. destruct (decide (open_cnt i = 1)); [|left; by destruct C as (_ & _ & -> & _)].
    destruct C as [_ C]. destruct (removed i); [right|left]; [by destruct C as [_ ->]|by destruct C as (_ & -> & _)]. }
  assert (Hj : forall q j', inodes k' !! q = Some j' -> exists j, inodes k !! q = Some j /\ sector j' = sector j /\ removed j' = removed j /\ (q <> f_inode fl -> j' = j)).
  { intros q j' Hq. assert (HI : forall j2, inodes k1 !! q = Some j2 -> exists j, inodes k !! q = Some j /\ sector j2 = sector j /\ removed j2 = removed j /\ (q <> f_inode fl -> j2 = j)).
    { intros j2. simpl. intros [[<- <-]|[Hne Hq2]]%lookup_insert_Some; [by exists i|by exists j2]. }
    unfold closed in C. destruct (decide _); [destruct C as [Ei _]|destruct C as [Ei _]]; rewrite Ei in Hq.
    - apply lookup_delete_Some in Hq as [_ Hq]. by apply HI.
    - apply lookup_insert_Some in Hq as [[<- <-]|[_ Hq]]; [by exists i|by apply HI]. }
  assert (Hc : content ss' rd = content ss rd).
  { eapply (frame_content _ k1 ss ss' bs tbl V1); [|apply S|done]. intros sec d x Hsec Ho Hns. apply Fr; [|done]. eapply owns_pos; [apply V|done|done]. }
  split; try done; rewrite ?Hc.
  - intros g gl. rewrite Ef. intros [_ Hg]%lookup_delete_Some. by apply (f_positions _ _ _ _ _ S g).
  - rewrite Em. apply S.
  - destruct Ht as [->|[_ ->]]; [apply S|]. rewrite lookup_delete_ne by done. apply S.
  - apply S.
  - intros q j' Hq Hs. destruct (Hj q j' Hq) as (j & Hq' & E1 & E2 & E3). rewrite E1 in Hs. destruct (decide (q = f_inode fl)) as [->|Hne]; [congruence|].
    rewrite (E3 Hne). by apply (f_kept _ _ _ _ _ S q).
  - destruct Ht as [->|[Hr ->]]; [apply S|]. destruct (f_dir _ _ _ _ _ S) as [D1 D2 D3]. split; [done| |done]. intros e He Hu. destruct (D2 e He Hu) as (A1 & A2 & A3). split; [done|]. split; [done|].
    rewrite lookup_delete_ne; [done|]. intros Heq. by apply (f_removed _ _ _ _ _ S _ i e Hi Hr He Hu).
  - intros q j' e Hq Hr He Hu. destruct (Hj q j' Hq) as (j & Hq' & E1 & E2 & _). rewrite E1. apply (f_removed _ _ _ _ _ S q j e); [done|congruence|done|done].
  - intros g gl Hg Hgm. rewrite Em in Hgm. destruct (mem_files _ _ _ (inv_mem _ _ _ _ _ V') g gl Hg) as [j' Hj']. exists j'. split; [done|].
    rewrite Ef in Hg. apply lookup_delete_Some in Hg as [_ Hg]. destruct (Hj _ _ Hj') as (j & Hq & -> & _). destruct (f_user _ _ _ _ _ S g gl Hg Hgm) as (j2 & H2 & H3). by assert (j2 = j) as -> by congruence.
Qed.

(** ** Names *)

Lemma nslots_root ss rd : length_ rd = 320 -> nslots (content ss rd) = 16%nat.
Proof. intros H. unfold nslots. by rewrite length_content, H. Qed.

Lemma fs_open_ok k nm junk : fs_ok k -> resources k -> Forall is_char nm -> length junk = 20%nat ->
  exists r k', filesys_open nm junk k = Ok (r, k') /\ fs_ok k' /\ free_map_file k' = free_map_file k /\
    match r with
    | Some f => files k !! f = None /\ dom (files k') = {[ f ]} ∪ dom (files k) /\ free_map_file k <> Some f
    | None => files k' = files k
    end.
Proof.
  intros (ss & bs & tbl & rd & S) [Hc Hp] Fn Lj. pose proof (f_inv _ _ _ _ _ S) as V. pose proof (inv_mem _ _ _ _ _ V) as Mm.
  destruct (filesys_open_ok k ss bs tbl rd nm junk V (f_map _ _ _ _ _ S) (f_root _ _ _ _ _ S) Hc (f_kept _ _ _ _ _ S) Fn (f_dir _ _ _ _ _ S) Lj) as (r & k' & E & V' & Em & H).
  { rewrite nslots_root by apply S. eapply plenty_le; [done|lia]. }
  exists r, k'. split; [done|]. destruct r as [f|].
  - destruct H as (p & j & e & dd & Hj & He & _ & Hdd & [Ei Hs] & Hf & Ef).
    destruct (dir_linked _ _ (f_dir _ _ _ _ _ S) e) as (Hroot & Hfree & _); [by eapply list_elem_of_lookup_2|apply He|].
    set (ino := reopened (inodes k !! p) (inode_sector e) dd) in *. assert (Hsec : sector ino = inode_sector e) by (unfold ino; by destruct (inodes k !! p)).
    assert (Hmf : free_map_file k <> Some f).
    { intros Hm. pose proof (inv_file _ _ _ _ _ V) as Mo. unfold map_ok in Mo. rewrite Hm in Mo. destruct Mo as (fl & _ & [Hfl _] & _). congruence. }
    split; [|split; [done|split; [done|split; [rewrite Ef; apply dom_insert_L|done]]]]. exists ss, bs, tbl, rd. split; try done; try apply S.
    + rewrite Ef. apply positions_insert; [apply S|done].
    + rewrite Em. apply S.
    + intros q i. rewrite Ei. intros [[<- <-]|[_ Hq]]%lookup_insert_Some Hr; [congruence|by apply (f_kept _ _ _ _ _ S q)].
    + intros q i e2. rewrite Ei. intros [[<- <-]|[_ Hq]]%lookup_insert_Some Hr He2 Hu2; [|by apply (f_removed _ _ _ _ _ S q i)].
      unfold ino in *. destruct (inodes k !! p) as [i0|] eqn:Hi0; [|done]. simpl in *. by apply (f_removed _ _ _ _ _ S p i0).
    + intros g gl. rewrite Ef, Em, Ei. intros [[<- <-]|[_ Hg]]%lookup_insert_Some Hgm; [exists ino; simpl; rewrite lookup_insert_eq, Hsec; done|].
      destruct (f_user _ _ _ _ _ S g gl Hg Hgm) as (i & Hi & H1 & H2). destruct (decide (f_inode gl = p)) as [->|Hne].
      * exists ino. rewrite lookup_insert_eq, Hsec. done.
      * exists i. rewrite lookup_insert_ne by done. done.
  - destruct H as (_ & Ef & Ei). split; [|done]. exists ss, bs, tbl, rd. split; try done; try apply S; rewrite ?Ef, ?Em; try apply S.
    + intros q i. rewrite Ei. apply S.
    + intros q i e. rewrite Ei. apply S.
    + intros g gl. rewrite Ei. apply S.
Qed.

(** The name of a new file is that of its own inode. *)
Lemma created_sector fm k' ss' bs' tbl ss rd nm sec st size j e : fsinv fm k' ss' bs' (<[sec := new_inode st size]> tbl) -> Forall is_u8 (content ss rd) ->
  Forall is_char nm -> valid_name nm -> slots (content ss rd) !! j = Some e -> inode_sector (new_entry nm sec e) = sec.
Proof.
  intros V' Fc Fn Vn Hj. destruct (disk_inode _ _ _ (inv_disk _ _ _ _ _ V') sec (new_inode st size)) as (Hs & (v & Hv & _) & _); [apply lookup_insert_eq|].
  apply lookup_lt_Some in Hv. pose proof (inv_small _ _ _ _ _ V').
  apply (new_entry_ok nm sec e (length_slot _ _ _ Hj) (slot_u8 _ _ _ Fc Hj) Fn Vn). unfold is_u32. lia.
Qed.

Lemma fs_create_ok k nm size junk junk' : fs_ok k -> resources k -> Forall is_char nm -> length junk = 20%nat -> Forall is_u8 junk -> length junk' = 20%nat -> 0 <= size < 2 ^ 31 ->
  exists ok k', filesys_create nm size junk junk' k = Ok (ok, k') /\ fs_ok k' /\ free_map_file k' = free_map_file k /\ files k' = files k.
Proof.
  intros (ss & bs & tbl & rd & S) [Hc Hp] Fn Lj Fj Lj' Hsz. pose proof (f_inv _ _ _ _ _ S) as V. pose proof (inv_mem _ _ _ _ _ V) as Mm.
  destruct (filesys_create_ok k ss bs tbl rd nm size junk junk' V (f_map _ _ _ _ _ S) (f_root _ _ _ _ _ S) Hc (f_kept _ _ _ _ _ S) Fn (f_dir _ _ _ _ _ S) Lj Fj Lj' Hsz)
    as (ok & k' & ss' & bs' & tbl' & E & V' & Ef & Ei & Em & _ & CR & D'); [by rewrite nslots_root by apply S|].
  exists ok, k'. split; [done|]. split; [|done]. exists ss', bs', tbl', rd.
  assert (Hroot : tbl' !! ROOT_DIR_SECTOR = Some rd).
  { destruct ok; [|destruct CR as [-> _]; apply S]. destruct CR as (sec & st & -> & Hn & _). rewrite lookup_insert_ne; [apply S|]. intros ->. pose proof (f_root _ _ _ _ _ S). congruence. }
  assert (Fc : Forall is_u8 (content ss rd)).
  { apply content_u8; [eapply Block.dev_sectors, (inv_dev _ _ _ _ _ V)|]. apply (disk_inode _ _ _ (inv_disk _ _ _ _ _ V) _ _ (f_root _ _ _ _ _ S)). }
  split; try done; rewrite ?Ef, ?Em; try apply S.
  - intros q i. rewrite Ei. apply S.
  - intros q i e Hq Hr [j He]%list_elem_of_lookup Hu. rewrite Ei in Hq. destruct ok.
    + destruct CR as (sec & st & -> & Hn & _ & Vn & _ & j0 & e0 & Hj0 & _ & Es). rewrite Es in He. apply list_lookup_insert_Some in He as [(-> & <- & _)|[_ He]].
      * rewrite (created_sector _ _ _ _ _ _ _ _ _ _ _ _ _ V' Fc Fn Vn Hj0). intros ->. pose proof (mem_data _ _ _ Mm q i Hq). congruence.
      * apply (f_removed _ _ _ _ _ S q i); [done|done|by eapply list_elem_of_lookup_2|done].
    + destruct CR as (_ & Es & _). rewrite Es in He. apply (f_removed _ _ _ _ _ S q i); [done|done|by eapply list_elem_of_lookup_2|done].
  - intros g gl. rewrite Ei. apply S.
Qed.

Lemma fs_remove_ok k nm junk : fs_ok k -> resources k -> Forall is_char nm -> length junk = 20%nat ->
  exists ok k', filesys_remove nm junk k = Ok (ok, k') /\ fs_ok k' /\ free_map_file k' = free_map_file k /\ files k' = files k.
Proof.
  intros (ss & bs & tbl & rd & S) [Hc Hp] Fn Lj. pose proof (f_inv _ _ _ _ _ S) as V.
  destruct (filesys_remove_ok k ss bs tbl rd nm junk V (f_map _ _ _ _ _ S) (f_root _ _ _ _ _ S) Hc (f_kept _ _ _ _ _ S) Fn (f_dir _ _ _ _ _ S) Lj)
    as (ok & k' & ss' & bs' & tbl' & E & V' & Ef & Em & _ & H); [rewrite nslots_root by apply S; eapply plenty_le; [done|lia]|].
  exists ok, k'. split; [done|]. split; [|done]. exists ss', bs', tbl', rd. destruct ok.
  2:{ destruct H as (_ & Ei & -> & -> & ->). split; try done; rewrite ?Ef, ?Em; try apply S; [intros q i|intros q i e|intros g gl]; rewrite Ei; apply S. }
  destruct H as (j & e & dd & Hj & He & _ & Es & Hdd & U & D').
  destruct (dir_linked _ _ (f_dir _ _ _ _ _ S) e) as (Hroot & Hfree & _); [by eapply list_elem_of_lookup_2|apply He|].
  assert (Hsame : forall q i', inodes k' !! q = Some i' -> exists i, inodes k !! q = Some i /\ sector i' = sector i /\ deny_write_cnt i' = deny_write_cnt i /\
    (removed i' = removed i \/ sector i' = inode_sector e)).
  { intros q i' Hq. destruct U as [(_ & Ei & _)|(p & i & Hi & Hs & _ & _ & Ei)]; rewrite Ei in Hq; [exists i'; auto|].
    apply lookup_insert_Some in Hq as [[<- <-]|[_ Hq]]; [exists i; simpl; auto|exists i'; auto]. }
  assert (Hoff : in_use (set_in_use false e) = false).
  { pose proof (length_slot _ _ _ Hj) as Le. unfold in_use, set_in_use. rewrite lookup_splice by (cbn; lia). rewrite decide_True by (cbn; lia). done. }
  assert (Hin : forall x, x ∈ slots (content ss' rd) -> in_use x = true -> x ∈ slots (content ss rd) /\ inode_sector x <> inode_sector e).
  { intros x [jx Hx]%list_elem_of_lookup Hu. rewrite Es in Hx. apply list_lookup_insert_Some in Hx as [(-> & <- & _)|[Hne Hx]]; [congruence|].
    split; [by eapply list_elem_of_lookup_2|]. intros Heq. apply Hne. eapply (dir_apart _ _ (f_dir _ _ _ _ _ S) j jx e x); try done; [apply He|by right]. }
  split; try done; rewrite ?Ef, ?Em; try apply S.
  - destruct U as [(_ & _ & _ & ->)|(p & i & _ & _ & _ & -> & _)]; [|apply S]. rewrite lookup_delete_ne by done. apply S.
  - intros q i' Hq Hs. destruct (Hsame q i' Hq) as (i & Hi & E1 & E2 & E3). destruct (f_kept _ _ _ _ _ S q i Hi ltac:(congruence)) as [K1 K2].
    split; [destruct E3 as [->|Hx]; [done|congruence]|congruence].
  - intros q i' x Hq Hr Hx Hu. destruct (Hsame q i' Hq) as (i & Hi & E1 & _ & E3). destruct (Hin x Hx Hu) as [Hx' Hne].
    destruct E3 as [E3|E3]; [|congruence]. rewrite E1. apply (f_removed _ _ _ _ _ S q i); [done|congruence|done|done].
  - intros g gl Hg Hgm. destruct (f_user _ _ _ _ _ S g gl Hg Hgm) as (i & Hi & H1 & H2). destruct (mem_files _ _ _ (inv_mem _ _ _ _ _ V') g gl ltac:(by rewrite Ef)) as [i' Hi'].
    exists i'. split; [done|]. destruct (Hsame _ _ Hi') as (i2 & Hi2 & E1 & _). assert (i2 = i) as -> by congruence. by rewrite E1.
Qed.

End fs.


(** ** Example: the disk of Directory *)

#[local] Existing Instance Block.ram_device.

Lemma demo_fs_state : fs_state demo demo_ss demo_bs demo_tbl demo_root.
Proof.
  destruct demo_quiet as (_ & Q2 & _). split; [apply demo_fsinv| |done|by_kernel|done|exact Q2|apply demo_dir_ok| |].
  - intros f fl [[-> ->]|[-> ->]]%(demo_files false); done.
  - intros p i e [[-> ->]|[-> ->]]%(demo_inodes false); done.
  - intros f fl [[-> ->]|[-> ->]]%(demo_files false) Hm; [done|]. exists (MkInode 4 1 false 0 (new_inode 5 600)). split; [by_kernel|done].
Qed.

End FileSystem.
