(* ===== verification/Vm.v ===== *)
(** * Virtual memory: frames, supplemental page tables, page faults

    src/vm/frame.c (the frame table and the clock algorithm), src/vm/spt.c (supplemental page tables and
    the movement of pages between memory, swap and files) and the page fault handler of
    src/userprog/exception.c, as functions on one state.  Page directories and the user pool, the swap
    area and open files are used through their interfaces.

    A frame is an object at a heap address, and the frame table a sequence of such addresses; the clock
    hand is null, an element of the table or its end.  The contents of the pages of the user pool are a
    function of their kernel address.  A supplemental page table, a hash table keyed by the user address,
    is a finite map; a pointer to one of its entries is the process and the address.  The two locks are
    seen from the running thread, which holds them or not. *)

From S2P Require Import Prelude Vaddr Palloc Swap FileStore AddressSpace.
Import Vaddr Palloc Swap FileStore AddressSpace.

Module Vm.

Record frame := MkFrame { kaddr : Z; uaddr : Z; owner : Z; pinned : bool }.

Inductive page_status := PAGE_MEMORY | PAGE_LAZY | PAGE_SWAP.
#[export] Instance page_status_eq_dec : EqDecision page_status.
Proof. solve_decision. Defined.

Record spt_entry := MkEntry {
  e_uaddr : Z;
  status : page_status;
  e_frame : option Z;
  e_file : option Z;
  offset : Z;
  read_bytes : Z;
  zero_bytes : Z;
  swap_index : Z;
  mmap : bool;
  writable : bool
}.
Definition set_status (x : page_status) (e : spt_entry) : spt_entry :=
  MkEntry (e_uaddr e) x (e_frame e) (e_file e) (offset e) (read_bytes e) (zero_bytes e) (swap_index e) (mmap e) (writable e).
Definition set_frame (x : option Z) (e : spt_entry) : spt_entry :=
  MkEntry (e_uaddr e) (status e) x (e_file e) (offset e) (read_bytes e) (zero_bytes e) (swap_index e) (mmap e) (writable e).
Definition set_swap (x : Z) (e : spt_entry) : spt_entry :=
  MkEntry (e_uaddr e) (status e) (e_frame e) (e_file e) (offset e) (read_bytes e) (zero_bytes e) x (mmap e) (writable e).
Definition set_pinned (x : bool) (f : frame) : frame := MkFrame (kaddr f) (uaddr f) (owner f) x.

Inductive hand := HNull | HElem (p : Z) | HEnd.
#[export] Instance hand_eq_dec : EqDecision hand.
Proof. solve_decision. Defined.

(** The parts of a [struct thread] paging uses. *)
Record proc := MkProc { pagedir : Z; s_page_table : gmap Z spt_entry }.

(** [PAGE_ZERO] and what [palloc_free_page] leaves behind. *)
Definition zero_page : list Z := replicate 4096 0.
Definition freed_page : list Z := replicate 4096 0xcc.

Section ops.
Context {D W F : Type} `{!AddressSpaces D} `{!SwapSpace W} `{!FileStore F}.

Record vm := MkVm {
  mmu : D;
  store : F;
  swp : W;
  mem : Z -> list Z;
  frames : gmap Z frame;
  frame_table : list Z;
  clock_hand : hand;
  procs : gmap Z proc;
  frame_lock : bool;
  fs_lock : bool;
  mallocs : list bool;
  next : Z
}.
Definition set_mmu (x : D) (s : vm) := MkVm x (store s) (swp s) (mem s) (frames s) (frame_table s) (clock_hand s) (procs s) (frame_lock s) (fs_lock s) (mallocs s) (next s).
Definition set_store (x : F) (s : vm) := MkVm (mmu s) x (swp s) (mem s) (frames s) (frame_table s) (clock_hand s) (procs s) (frame_lock s) (fs_lock s) (mallocs s) (next s).
Definition set_swp (x : W) (s : vm) := MkVm (mmu s) (store s) x (mem s) (frames s) (frame_table s) (clock_hand s) (procs s) (frame_lock s) (fs_lock s) (mallocs s) (next s).
Definition set_page (k : Z) (v : list Z) (s : vm) :=
  MkVm (mmu s) (store s) (swp s) (fun a => if a =? k then v else mem s a) (frames s) (frame_table s) (clock_hand s) (procs s) (frame_lock s) (fs_lock s) (mallocs s) (next s).
Definition set_frames (x : gmap Z frame) (l : list Z) (h : hand) (s : vm) :=
  MkVm (mmu s) (store s) (swp s) (mem s) x l h (procs s) (frame_lock s) (fs_lock s) (mallocs s) (next s).
Definition set_procs (x : gmap Z proc) (s : vm) := MkVm (mmu s) (store s) (swp s) (mem s) (frames s) (frame_table s) (clock_hand s) x (frame_lock s) (fs_lock s) (mallocs s) (next s).
Definition set_locks (x y : bool) (s : vm) := MkVm (mmu s) (store s) (swp s) (mem s) (frames s) (frame_table s) (clock_hand s) (procs s) x y (mallocs s) (next s).
Definition set_mallocs (x : list bool) (n : Z) (s : vm) :=
  MkVm (mmu s) (store s) (swp s) (mem s) (frames s) (frame_table s) (clock_hand s) (procs s) (frame_lock s) (fs_lock s) x n.

Definition on_mmu {A} (f : M D A) : M vm A := fun s => match f (mmu s) with Ok (a, x) => Ok (a, set_mmu x s) | Fail e => Fail e end.
Definition on_store {A} (f : M F A) : M vm A := fun s => match f (store s) with Ok (a, x) => Ok (a, set_store x s) | Fail e => Fail e end.
Definition from {A} (o : option A) : M vm A := fun s => match o with Some a => Ok (a, s) | None => Fail FMemory end.

Definition skip : M vm unit := mret tt.

(** [malloc]: the next of the answers to come. *)
Definition malloc : M vm (option Z) := fun s =>
  match mallocs s with
  | true :: r => Ok (Some (next s), set_mallocs r (next s + 1) s)
  | false :: r => Ok (None, set_mallocs r (next s) s)
  | [] => Ok (None, s)
  end.

Definition get_frame (p : Z) : M vm frame := let* m := gets frames in from (m !! p).
Definition put_frame (p : Z) (f : frame) : M vm unit := modify (fun s => set_frames (<[p := f]> (frames s)) (frame_table s) (clock_hand s) s).
Definition set_hand (h : hand) : M vm unit := modify (fun s => set_frames (frames s) (frame_table s) h s).
Definition get_proc (t : Z) : M vm proc := let* m := gets procs in from (m !! t).
Definition get_entry (t ua : Z) : M vm spt_entry := let* pr := get_proc t in from (s_page_table pr !! ua).
Definition put_table (t : Z) (pr : proc) (m : gmap Z spt_entry) : M vm unit := modify (fun s => set_procs (<[t := MkProc (pagedir pr) m]> (procs s)) s).
(** A store to members of the entry. *)
Definition upd_entry (t ua : Z) (f : spt_entry -> spt_entry) : M vm unit :=
  let* pr := get_proc t in let* e := from (s_page_table pr !! ua) in put_table t pr (<[ua := f e]> (s_page_table pr)).

(** ** Locks *)

(** [if (!was_held) lock_acquire (&frame_table_lock)], with [was_held]. *)
Definition frame_lock_if_needed : M vm bool :=
  let* was_held : bool := gets frame_lock in
  do* (if was_held then skip else modify (fun s => set_locks true (fs_lock s) s)) ;
  mret was_held.
Definition frame_release_lock_if_needed (was_held : bool) : M vm unit :=
  if was_held then skip
  else let* h := gets frame_lock in do* ASSERT h ; modify (fun s => set_locks false (fs_lock s) s).

Definition filesys_lock_acquire : M vm unit :=
  let* h := gets fs_lock in do* ASSERT (negb h) ; modify (fun s => set_locks (frame_lock s) true s).
Definition filesys_lock_release : M vm unit :=
  let* h := gets fs_lock in do* ASSERT h ; modify (fun s => set_locks (frame_lock s) false s).

(** ** Pages of the user pool *)

Definition palloc_get_page (flags : Z) : M vm Z :=
  let* k := on_mmu (as_get flags) in
  do* (if negb (k =? 0) && has flags PAL_ZERO then modify (set_page k zero_page) else skip) ;
  mret k.
Definition palloc_free_page (k : Z) : M vm unit :=
  do* modify (set_page k freed_page) ; on_mmu (as_free k).

(** ** Frames *)

Definition frame_init : M vm unit := modify (fun s => set_locks false (fs_lock s) (set_frames (frames s) [] HNull s)).

(** [list_begin] and [list_next] on the frame table. *)
Definition first_elem (l : list Z) : hand := match l with [] => HEnd | p :: _ => HElem p end.
Fixpoint elem_after (p : Z) (l : list Z) : option hand :=
  match l with [] => None | q :: l => if q =? p then Some (first_elem l) else elem_after p l end.

Definition frame_free (p : Z) : M vm unit :=
  let* was_held : bool := frame_lock_if_needed in
  let* f := get_frame p in
  do* palloc_free_page (kaddr f) ;
  let* l := gets frame_table in
  let* n := from (elem_after p l) in
  let* h := gets clock_hand in
  do* (if bool_decide (h = HElem p) then set_hand n else skip) ;
  do* modify (fun s => set_frames (delete p (frames s)) (filter (fun q => q <> p) (frame_table s)) (clock_hand s) s) ;
  frame_release_lock_if_needed was_held.

Fixpoint find_kaddr (k : Z) (l : list Z) : M vm (option Z) :=
  match l with
  | [] => mret None
  | p :: l => let* f := get_frame p in if kaddr f =? k then mret (Some p) else find_kaddr k l
  end.
Definition find_frame_by_kaddr (k : Z) : M vm (option Z) :=
  let* was_held : bool := frame_lock_if_needed in
  let* l := gets frame_table in
  let* r := find_kaddr k l in
  do* frame_release_lock_if_needed was_held ;
  mret r.

(** ** Pages leaving memory *)

(** The address of the entry. *)
Definition spt_lookup (t ua : Z) : M vm (option Z) :=
  let* pr := get_proc t in
  let k := pg_round_down ua in
  mret (match s_page_table pr !! k with Some _ => Some k | None => None end).

(** [file_seek (file, ofs)] and [file_write (file, kpage, n)]. *)
Definition not_null {A} (o : option A) : M vm A := match o with Some a => mret a | None => fail FAssert end.
Definition file_seek (f : option Z) (ofs : Z) : M vm unit := let* f := not_null f in do* ASSERT (0 <=? ofs) ; on_store (st_seek f ofs).
Definition file_write (f : option Z) (k n : Z) : M vm Z :=
  let* f := from f in
  let* m := gets mem in
  if n <=? 4096 then on_store (st_write f (take (Z.to_nat n) (m k))) else fail FMemory.

Definition spt_memory_to_lazy (t ua : Z) : M vm unit :=
  let* e := get_entry t ua in
  let* p := from (e_frame e) in
  let* f := get_frame p in
  let* pr := get_proc (owner f) in
  let* d : bool := on_mmu (as_is_dirty (pagedir pr) (e_uaddr e)) in
  do* (if d then
         do* filesys_lock_acquire ;
         do* file_seek (e_file e) (offset e) ;
         let* _ := file_write (e_file e) (kaddr f) (read_bytes e) in
         filesys_lock_release
       else skip) ;
  do* on_mmu (as_clear (pagedir pr) (e_uaddr e)) ;
  do* frame_free p ;
  do* upd_entry t ua (set_frame None) ;
  upd_entry t ua (set_status PAGE_LAZY).

Definition spt_memory_to_swap (t ua : Z) : M vm unit :=
  let* e := get_entry t ua in
  let* p := from (e_frame e) in
  let* f := get_frame p in
  let* m := gets mem in
  let* swap_index := fun s => match sp_out (swp s) (m (kaddr f)) with Ok (i, w) => Ok (i, set_swp w s) | Fail e => Fail e end in
  do* upd_entry t ua (set_swap swap_index) ;
  do* upd_entry t ua (set_frame None) ;
  let* pr := get_proc (owner f) in
  do* on_mmu (as_clear (pagedir pr) (uaddr f)) ;
  do* frame_free p ;
  upd_entry t ua (set_status PAGE_SWAP).

(** ** Eviction *)

(** One look at the frame under the hand; whether it has been evicted. *)
Definition evict_one (p : Z) : M vm bool :=
  let* f := get_frame p in
  if negb (pinned f) then
    let* pr := get_proc (owner f) in
    let* a : bool := on_mmu (as_is_accessed (pagedir pr) (uaddr f)) in
    if a then do* on_mmu (as_set_accessed (pagedir pr) (uaddr f) false) ; mret false
    else
      let* k := spt_lookup (owner f) (uaddr f) in
      let* k := not_null k in
      do* put_frame p (set_pinned true f) ;
      let* e := get_entry (owner f) k in
      do* (if mmap e then spt_memory_to_lazy (owner f) k else spt_memory_to_swap (owner f) k) ;
      mret true
  else mret false.

(** [clock_hand = list_next (clock_hand)], round the end. *)
Definition advance (p : Z) : M vm unit :=
  let* l := gets frame_table in
  let* n := from (elem_after p l) in
  set_hand (if bool_decide (n = HEnd) then first_elem l else n).

Fixpoint evict_loop (fuel : nat) : M vm unit :=
  match fuel with
  | O => fail FFuel
  | S fuel =>
      let* h := gets clock_hand in
      match h with
      | HElem p => let* r : bool := evict_one p in if r then skip else do* advance p ; evict_loop fuel
      | _ => fail FMemory
      end
  end.

(** The hand goes round twice at most, since the first round clears the accessed bits. *)
Definition evict_frame : M vm unit :=
  let* held := gets frame_lock in
  do* ASSERT held ;
  let* l := gets frame_table in
  let* h := gets clock_hand in
  do* (match h with HElem _ => skip | _ => set_hand (first_elem l) end) ;
  evict_loop (S (2 * length l)).

Definition frame_alloc (cur ua flags : Z) : M vm (option Z) :=
  let* was_held : bool := frame_lock_if_needed in
  let* p := malloc in
  match p with
  | None => do* frame_release_lock_if_needed was_held ; mret None
  | Some p =>
      let* k := palloc_get_page flags in
      let* k := if k =? 0 then do* evict_frame ; palloc_get_page flags else mret k in
      if k =? 0 then do* frame_release_lock_if_needed was_held ; mret None
      else
        do* modify (fun s => set_frames (<[p := MkFrame k ua cur true]> (frames s)) (frame_table s ++ [p]) (clock_hand s) s) ;
        do* frame_release_lock_if_needed was_held ;
        mret (Some p)
  end.

(** [frame->pinned = b]. *)
Definition pin (p : Z) (b : bool) : M vm unit := let* f := get_frame p in put_frame p (set_pinned b f).

(** ** Pages entering memory *)

Definition install_page (cur ua k : Z) (w : bool) : M vm bool :=
  let* pr := get_proc cur in on_mmu (as_install (pagedir pr) ua k w).

Definition spt_swap_to_memory (cur ua : Z) : M vm bool :=
  let* e := get_entry cur ua in
  let* r := frame_alloc cur (e_uaddr e) PAL_USER in
  match r with
  | None => mret false
  | Some p =>
      let* f := get_frame p in
      let* page := fun s => match sp_in (swp s) (swap_index e) with Ok (v, w) => Ok (v, set_swp w s) | Fail e => Fail e end in
      do* modify (set_page (kaddr f) page) ;
      let* ok : bool := install_page cur (e_uaddr e) (kaddr f) (writable e) in
      if negb ok then do* frame_free p ; mret false
      else
        do* pin p false ;
        do* upd_entry cur ua (set_status PAGE_MEMORY) ;
        do* upd_entry cur ua (set_frame (Some p)) ;
        mret true
  end.

(** [file_read (file, kpage, n)], which leaves the rest of the page as it was. *)
Definition file_read (f : option Z) (k n : Z) : M vm Z :=
  let* f := from f in
  if n <=? 4096 then
    let* l := on_store (st_read f n) in
    let* m := gets mem in
    do* modify (set_page k (l ++ drop (length l) (m k))) ;
    mret (Z.of_nat (length l))
  else fail FMemory.

Definition load_page (cur ua : Z) : M vm (option Z) :=
  let* e := get_entry cur ua in
  do* ASSERT (u32 (read_bytes e + zero_bytes e) mod PGSIZE =? 0) ;
  do* ASSERT (pg_ofs (e_uaddr e) =? 0) ;
  do* ASSERT (Z.rem (offset e) PGSIZE =? 0) ;
  do* file_seek (e_file e) (offset e) ;
  let* r := frame_alloc cur (e_uaddr e) PAL_USER in
  match r with
  | None => mret None
  | Some p =>
      let* f := get_frame p in
      do* filesys_lock_acquire ;
      let* nread := file_read (e_file e) (kaddr f) (read_bytes e) in
      do* filesys_lock_release ;
      if negb (nread =? s32 (read_bytes e)) then do* frame_free p ; mret None
      else
        let* m := gets mem in
        do* (if read_bytes e + zero_bytes e <=? 4096
             then modify (set_page (kaddr f) (take (Z.to_nat (read_bytes e)) (m (kaddr f)) ++ replicate (Z.to_nat (zero_bytes e)) 0 ++
                    drop (Z.to_nat (read_bytes e + zero_bytes e)) (m (kaddr f))))
             else fail FMemory) ;
        let* ok : bool := install_page cur (e_uaddr e) (kaddr f) (writable e) in
        if negb ok then do* frame_free p ; mret None else mret (Some p)
  end.

Definition spt_lazy_to_memory (cur ua : Z) : M vm bool :=
  let* r := load_page cur ua in
  match r with
  | None => mret false
  | Some p =>
      do* pin p false ;
      do* upd_entry cur ua (set_status PAGE_MEMORY) ;
      do* upd_entry cur ua (set_frame (Some p)) ;
      mret true
  end.

(** ** New entries *)

(** [hash_insert] leaves an entry with the same key alone. *)
Definition hash_insert (t : Z) (e : spt_entry) : M vm unit :=
  let* pr := get_proc t in
  match s_page_table pr !! e_uaddr e with
  | Some _ => skip
  | None => put_table t pr (<[e_uaddr e := e]> (s_page_table pr))
  end.

Definition add_lazy_page (t : Z) (file : option Z) (ofs ua rb zb : Z) (w mark_mmap : bool) : M vm bool :=
  if negb (u32 (rb + zb) =? PGSIZE) then mret false
  else
    let* p := malloc in
    match p with
    | None => mret false
    | Some _ =>
        let* pr := get_proc t in
        match s_page_table pr !! ua with
        | Some _ => mret false
        | None => do* hash_insert t (MkEntry (pg_round_down ua) PAGE_LAZY None file ofs rb zb 0 mark_mmap w) ; mret true
        end
    end.

Definition add_memory_page (t ua p : Z) (w : bool) : M vm bool :=
  let k := pg_round_down ua in
  let* q := malloc in
  match q with
  | None => mret false
  | Some _ =>
      let* pr := get_proc t in
      match s_page_table pr !! k with
      | Some _ => mret false
      | None => do* hash_insert t (MkEntry k PAGE_MEMORY (Some p) None 0 0 0 (2 ^ 32 - 1) false w) ; mret true
      end
  end.

Fixpoint spt_initialize_file_as_lazy (fuel : nat) (t : Z) (file : option Z) (ofs upage rb zb : Z) (w mark_mmap : bool) : M vm bool :=
  if (0 <? rb) || (0 <? zb) then
    match fuel with
    | O => fail FFuel
    | S fuel =>
        let page_read_bytes := if rb <? PGSIZE then rb else PGSIZE in
        let page_zero_bytes := PGSIZE - page_read_bytes in
        let* ok : bool := add_lazy_page t file ofs upage page_read_bytes page_zero_bytes w mark_mmap in
        if ok then spt_initialize_file_as_lazy fuel t file (s32 (ofs + PGSIZE)) (u32 (upage + PGSIZE)) (u32 (rb - page_read_bytes)) (u32 (zb - page_zero_bytes)) w mark_mmap
        else mret false
    end
  else mret true.

Definition spt_initialize_as_memory (cur upage : Z) : M vm bool :=
  let* r := frame_alloc cur upage (Z.lor PAL_USER PAL_ZERO) in
  match r with
  | None => mret false
  | Some p =>
      let* f := get_frame p in
      let* ok : bool := install_page cur upage (kaddr f) true in
      if negb ok then do* frame_free p ; mret false
      else
        let* ok : bool := add_memory_page cur upage p true in
        if negb ok then do* frame_free p ; mret false
        else do* pin p false ; mret true
  end.

(** ** The end of an entry *)

(** The destructor [hash_destroy] calls for each entry. *)
Definition spt_destroy_entry (t ua : Z) : M vm unit :=
  let* e := get_entry t ua in
  do* (match e_frame e with
       | Some p =>
           if bool_decide (status e = PAGE_MEMORY) then
             do* pin p true ;
             let* f := get_frame p in
             let* pr := get_proc (owner f) in
             do* on_mmu (as_clear (pagedir pr) (e_uaddr e)) ;
             frame_free p
           else skip
       | None => skip
       end) ;
  do* (if bool_decide (status e = PAGE_SWAP)
       then fun s => match sp_free (swp s) (swap_index e) with Ok w => Ok (tt, set_swp w s) | Fail e => Fail e end
       else skip) ;
  let* pr := get_proc t in put_table t pr (delete ua (s_page_table pr)).

(** [hash_destroy (&t->s_page_table, spt_destroy_entry)], [keys] being the entries in the order of the
    buckets. *)
Fixpoint spt_destroy (t : Z) (keys : list Z) : M vm unit :=
  match keys with
  | [] => skip
  | ua :: keys => do* spt_destroy_entry t ua ; spt_destroy t keys
  end.

(** ** Page faults *)

Definition MAX_STACK_SIZE : Z := 8 * 1024 * 1024.

(** [process_cleanup (-1)], which does not return, or the return to the instruction that faulted. *)
Inductive verdict := Kill | Resume.

(** [esp] is the user's stack pointer, from the interrupt frame or, for a fault in the kernel, from the
    start of the system call. *)
Definition page_fault_handler (cur fault_addr esp : Z) (not_present : bool) : M vm verdict :=
  let upage := pg_round_down fault_addr in
  if negb not_present then mret Kill
  else
    let* k := spt_lookup cur upage in
    match k with
    | None =>
        if (PHYS_BASE - MAX_STACK_SIZE <=? fault_addr) && (fault_addr <? PHYS_BASE) && (u32 (esp - 32) <=? fault_addr) then
          let* ok : bool := spt_initialize_as_memory cur upage in mret (if ok then Resume else Kill)
        else mret Kill
    | Some k =>
        let* e := get_entry cur k in
        match status e with
        | PAGE_MEMORY => mret Kill
        | PAGE_LAZY => let* ok : bool := spt_lazy_to_memory cur k in mret (if ok then Resume else Kill)
        | PAGE_SWAP => let* ok : bool := spt_swap_to_memory cur k in mret (if ok then Resume else Kill)
        end
    end.

Definition PF_P : Z := 0x1.
Definition PF_W : Z := 0x2.
Definition PF_U : Z := 0x4.

(** The page fault interrupt: the stack pointer is [f_esp], that of the interrupt frame, for a fault in
    user mode, and [t_esp], that of the system call, in the kernel.  [process_cleanup] does not return, so
    the lock is not taken again for a process that is killed. *)
Definition page_fault (cur fault_addr f_esp t_esp error_code : Z) : M vm verdict :=
  let not_present := Z.land error_code PF_P =? 0 in
  let user := negb (Z.land error_code PF_U =? 0) in
  let* lock_was_held : bool := gets fs_lock in
  do* (if lock_was_held then filesys_lock_release else skip) ;
  let* v := page_fault_handler cur fault_addr (if user then f_esp else t_esp) not_present in
  do* (match v with Resume => if lock_was_held then filesys_lock_acquire else skip | Kill => skip end) ;
  mret v.

(** ** A user's access

    The processor finds the mapping of the page, and sets its accessed bit, and its dirty bit on a write;
    where there is no mapping, or the page may not be written, the access faults, and is made again when
    the handler returns. *)

Inductive walked := Hit (k : Z) | Absent | Forbidden.

Definition touch (cur ua : Z) (w : bool) : M vm walked :=
  let* pr := get_proc cur in
  let* e := on_mmu (as_walk (pagedir pr) ua) in
  match e with
  | None => mret Absent
  | Some e =>
      if w && negb (pte_writable e) then mret Forbidden
      else
        do* on_mmu (as_set_accessed (pagedir pr) ua true) ;
        do* (if w then on_mmu (as_set_dirty (pagedir pr) ua true) else skip) ;
        mret (Hit (pte_page e))
  end.

Definition error_code (w : option Z) (present : bool) : Z :=
  Z.lor PF_U (Z.lor (if w then PF_W else 0) (if present then PF_P else 0)).

(** The byte at [a], which [w] may replace; [None] for a process that was killed. *)
Fixpoint access (fuel : nat) (cur a : Z) (w : option Z) (esp : Z) : M vm (option Z) :=
  match fuel with
  | O => fail FFuel
  | S fuel =>
      let* r := touch cur (pg_round_down a) (if w then true else false) in
      match r with
      | Hit k =>
          let* m := gets mem in
          let* b := from (m k !! Z.to_nat (a mod 4096)) in
          do* (match w with Some v => modify (set_page k (<[Z.to_nat (a mod 4096) := v]> (m k))) | None => skip end) ;
          mret (Some b)
      | Absent => let* v := page_fault cur a esp esp (error_code w false) in match v with Resume => access fuel cur a w esp | Kill => mret None end
      | Forbidden => let* v := page_fault cur a esp esp (error_code w true) in match v with Resume => access fuel cur a w esp | Kill => mret None end
      end
  end.

End ops.

End Vm.
