(* ===== verification/VmInv.v ===== *)
(** * Virtual memory: the invariant, and eviction

    What the frame table, the supplemental page tables, the page directories and the swap area have to
    say of each other, what a user page holds wherever it is, and that the clock algorithm
    (src/vm/frame.c) always finds a victim, keeps that invariant and loses nothing. *)

From S2P Require Import Prelude Vaddr Palloc Swap FileStore AddressSpace Vm.
Import Vaddr Palloc Swap FileStore AddressSpace Vm.

Module VmInv.

(** What the interfaces say of a state: pages of the pool in use, mappings, swap slots in use, positions
    of the handles and contents of the files. *)
Record ghost := MkGhost {
  g_us : gset Z;
  g_map : gmap (Z * Z) pte;
  g_swap : gmap Z (list Z);
  g_pos : gmap Z (Z * Z);
  g_files : gmap Z (list Z)
}.

Section inv.
Context {D W F : Type} `{!AddressSpaces D} `{!SwapSpace W} `{!FileStore F}.
Notation vm := (vm (D := D) (W := W) (F := F)).
(** The pages of the user pool, the page directories and the slots of the swap area. *)
Context (cap : nat) (pds : gset Z) (slots : Z).

Definition machine (s : vm) (g : ghost) : Prop :=
  as_inv (mmu s) cap (g_us g) pds (g_map g) /\ sp_repr (swp s) slots (g_swap g) /\ st_inv (store s) (g_pos g) (g_files g).

(** The part of its file an entry stands for is there, and is a page with the zeros behind it. *)
Definition backed (g : ghost) (e : spt_entry) : Prop :=
  exists h i pos c, e_file e = Some h /\ g_pos g !! h = Some (i, pos) /\ g_files g !! i = Some c /\
    0 <= offset e < 2 ^ 31 /\ offset e mod 4096 = 0 /\ 0 <= read_bytes e /\ 0 <= zero_bytes e /\ read_bytes e + zero_bytes e = 4096 /\
    (0 < read_bytes e -> offset e + read_bytes e <= Z.of_nat (length c)).

(** The entry of the page [ua] of the process [t], whose page directory is [pd]. *)
Definition entry_ok (s : vm) (g : ghost) (t pd ua : Z) (e : spt_entry) : Prop :=
  e_uaddr e = ua /\ user_page ua /\
  match status e with
  | PAGE_MEMORY => exists p f pt, e_frame e = Some p /\ frames s !! p = Some f /\ owner f = t /\ uaddr f = ua /\
      g_map g !! (pd, ua) = Some pt /\ pte_page pt = kaddr f /\ pte_writable pt = writable e
  | PAGE_LAZY => e_frame e = None /\ g_map g !! (pd, ua) = None
  | PAGE_SWAP => e_frame e = None /\ g_map g !! (pd, ua) = None /\ is_Some (g_swap g !! swap_index e) /\ mmap e = false
  end /\
  (status e = PAGE_LAZY \/ mmap e = true -> backed g e).

Definition spt_get (s : vm) (t ua : Z) : option (Z * spt_entry) :=
  match procs s !! t with
  | Some pr => match s_page_table pr !! ua with Some e => Some (pagedir pr, e) | None => None end
  | None => None
  end.

Record paging (s : vm) (g : ghost) : Prop := {
  pg_dir t pr : procs s !! t = Some pr -> pagedir pr ∈ pds;
  pg_dirs t pr t' pr' : procs s !! t = Some pr -> procs s !! t' = Some pr' -> pagedir pr = pagedir pr' -> t = t';
  pg_entry t ua pd e : spt_get s t ua = Some (pd, e) -> entry_ok s g t pd ua e;
  pg_slots t ua pd e t' ua' pd' e' : spt_get s t ua = Some (pd, e) -> spt_get s t' ua' = Some (pd', e') -> status e = PAGE_SWAP -> status e' = PAGE_SWAP ->
    swap_index e = swap_index e' -> t = t' /\ ua = ua';
  pg_frame p f : frames s !! p = Some f -> kaddr f ∈ g_us g /\
    (pinned f = false -> exists pd e, spt_get s (owner f) (uaddr f) = Some (pd, e) /\ status e = PAGE_MEMORY /\ e_frame e = Some p);
  pg_kaddr p f p' f' : frames s !! p = Some f -> frames s !! p' = Some f' -> kaddr f = kaddr f' -> p = p';
  pg_used k : k ∈ g_us g -> exists p f, frames s !! p = Some f /\ kaddr f = k;
  pg_mem k : is_page (mem s k);
  pg_table p : p ∈ frame_table s <-> is_Some (frames s !! p);
  pg_nodup : NoDup (frame_table s);
  pg_fresh p : p ∈ frame_table s -> p < next s;
  pg_hand p : clock_hand s = HElem p -> p ∈ frame_table s
}.

Definition inv (s : vm) (g : ghost) : Prop := machine s g /\ paging s g.

(** Whether the page may be written, and whether it belongs to a mapped file. *)
Definition attrs (s : vm) (t ua : Z) : option (bool * bool) :=
  match spt_get s t ua with Some (_, e) => Some (writable e, mmap e) | None => None end.

(** What the page [ua] of the process [t] holds. *)
Definition contents (s : vm) (g : ghost) (e : spt_entry) : option (list Z) :=
  match status e with
  | PAGE_MEMORY => match e_frame e with
                   | Some p => match frames s !! p with Some f => Some (mem s (kaddr f)) | None => None end
                   | None => None
                   end
  | PAGE_SWAP => g_swap g !! swap_index e
  | PAGE_LAZY => match e_file e with
                 | Some h => match g_pos g !! h with
                             | Some (i, _) => match g_files g !! i with
                                              | Some c => Some (take (Z.to_nat (read_bytes e)) (drop (Z.to_nat (offset e)) c) ++ replicate (Z.to_nat (zero_bytes e)) 0)
                                              | None => None
                                              end
                             | None => None
                             end
                 | None => None
                 end
  end.
Definition view (s : vm) (g : ghost) (t ua : Z) : option (list Z) :=
  match spt_get s t ua with Some (_, e) => contents s g e | None => None end.

Lemma freed_page_ok : is_page freed_page.
Proof. split; [apply length_replicate|by apply Forall_replicate]. Qed.
Lemma zero_page_ok : is_page zero_page.
Proof. split; [apply length_replicate|by apply Forall_replicate]. Qed.

(** ** Mappings up to the accessed bits *)

Definition same_map (m m' : gmap (Z * Z) pte) : Prop := forall x, set_accessed false <$> m !! x = set_accessed false <$> m' !! x.

Lemma same_map_some m m' x e : same_map m m' -> m !! x = Some e -> exists e', m' !! x = Some e' /\ pte_page e' = pte_page e /\ pte_writable e' = pte_writable e /\ pte_dirty e' = pte_dirty e.
Proof. intros H E. specialize (H x). rewrite E in H. simpl in H. destruct (m' !! x) as [e'|]; [|done]. injection H as H1 H2 H3. by exists e'. Qed.
Lemma same_map_none m m' x : same_map m m' -> m !! x = None -> m' !! x = None.
Proof. intros H E. specialize (H x). rewrite E in H. by destruct (m' !! x). Qed.
Lemma same_map_refl m : same_map m m.
Proof. by intros x. Qed.
Lemma same_map_trans m1 m2 m3 : same_map m1 m2 -> same_map m2 m3 -> same_map m1 m3.
Proof. intros H1 H2 x. by rewrite (H1 x). Qed.
Lemma same_map_set m x e b : m !! x = Some e -> same_map m (<[x := set_accessed b e]> m).
Proof. intros E y. destruct (decide (y = x)) as [->|]; [rewrite lookup_insert_eq, E; done|by rewrite lookup_insert_ne]. Qed.

Definition g_set_map (m : gmap (Z * Z) pte) (g : ghost) : ghost := MkGhost (g_us g) m (g_swap g) (g_pos g) (g_files g).

Lemma paging_same_map s g m d : paging s g -> same_map (g_map g) m -> paging (set_mmu d s) (g_set_map m g).
Proof.
  intros [] Hm. split; simpl; try done.
  intros t ua pd e He. destruct (pg_entry0 t ua pd e He) as (H1 & H2 & H3 & H4). split; [done|]. split; [done|]. split; [|done].
  destruct (status e); simpl.
  - destruct H3 as (p & f & pt & A1 & A2 & A3 & A4 & A5 & A6 & A7). destruct (same_map_some _ _ _ _ Hm A5) as (pt' & B1 & B2 & B3 & _).
    exists p, f, pt'. split_and!; try done; congruence.
  - destruct H3 as [A1 A2]. split; [done|by eapply same_map_none].
  - destruct H3 as (A1 & A2 & A3). split; [done|]. split; [by eapply same_map_none|done].
Qed.

(** ** Steps of the operations *)

Lemma on_mmu_ok {A} (f : M D A) (s : vm) a d : f (mmu s) = Ok (a, d) -> on_mmu f s = Ok (a, set_mmu d s).
Proof. intros E. unfold on_mmu. by rewrite E. Qed.
Lemma on_mmu_read {A} (f : M D A) (s : vm) a : f (mmu s) = Ok (a, mmu s) -> on_mmu f s = Ok (a, s).
Proof. intros E. rewrite (on_mmu_ok _ _ _ _ E). by destruct s. Qed.
Lemma on_store_ok {A} (f : M F A) (s : vm) a d : f (store s) = Ok (a, d) -> on_store f s = Ok (a, set_store d s).
Proof. intros E. unfold on_store. by rewrite E. Qed.
Lemma get_frame_ok (s : vm) p f : frames s !! p = Some f -> get_frame p s = Ok (f, s).
Proof. intros E. unfold get_frame, mbind, M_bind, gets, from. by rewrite E. Qed.
Lemma get_proc_ok (s : vm) t pr : procs s !! t = Some pr -> get_proc t s = Ok (pr, s).
Proof. intros E. unfold get_proc, mbind, M_bind, gets, from. by rewrite E. Qed.
Lemma get_entry_ok (s : vm) t ua pr e : procs s !! t = Some pr -> s_page_table pr !! ua = Some e -> get_entry t ua s = Ok (e, s).
Proof. intros E1 E2. unfold get_entry. rewrite (M_bind_Ok _ _ s pr s) by by apply get_proc_ok. unfold from. by rewrite E2. Qed.
Lemma upd_entry_ok (s : vm) t ua u pr e : procs s !! t = Some pr -> s_page_table pr !! ua = Some e ->
  upd_entry t ua u s = Ok (tt, set_procs (<[t := MkProc (pagedir pr) (<[ua := u e]> (s_page_table pr))]> (procs s)) s).
Proof.
  intros E1 E2. unfold upd_entry. rewrite (M_bind_Ok _ _ s pr s) by by apply get_proc_ok. unfold from, mbind, M_bind. rewrite E2. done.
Qed.
Lemma spt_get_some (s : vm) t ua pd e : spt_get s t ua = Some (pd, e) <-> exists pr, procs s !! t = Some pr /\ s_page_table pr !! ua = Some e /\ pagedir pr = pd.
Proof.
  unfold spt_get. split.
  - destruct (procs s !! t) as [pr|]; [|done]. destruct (s_page_table pr !! ua) as [e'|] eqn:E; [|done]. intros [= <- <-]. by exists pr.
  - intros (pr & -> & -> & <-). done.
Qed.

Lemma elem_after_ok p l : p ∈ l -> is_Some (elem_after p l).
Proof.
  induction l as [|q l IH]; simpl; [by intros ?%not_elem_of_nil|]. intros H. destruct (Z.eqb_spec q p); [by eexists|].
  apply IH. by apply elem_of_cons in H as [->|].
Qed.
Lemma elem_after_elem p l q : NoDup l -> elem_after p l = Some (HElem q) -> q ∈ l /\ q <> p.
Proof.
  induction l as [|x l IH]; simpl; [done|]. intros [H1 H2]%NoDup_cons. destruct (Z.eqb_spec x p) as [->|].
  - destruct l as [|y l]; [done|]. intros [= ->]. split; [set_solver|]. set_solver.
  - intros E. destruct (IH H2 E). set_solver.
Qed.

(** ** Memory for page tables and for the file system *)

(** Between the two states no page table was made, and the file system did [k] transfers at most. *)
Definition spends (k : nat) (s s' : vm) : Prop :=
  (forall n, as_room n (mmu s) -> as_room n (mmu s')) /\ forall n, st_room (k + n) (store s) -> st_room n (store s').

Lemma spends_refl k (s s' : vm) : mmu s' = mmu s -> store s' = store s -> spends k s s'.
Proof. intros E1 E2. split; [by rewrite E1|]. rewrite E2. intros n. induction k as [|k IH]; [done|]. intros H%st_room_S. auto. Qed.
Lemma spends_trans k1 k2 (s1 s2 s3 : vm) : spends k1 s1 s2 -> spends k2 s2 s3 -> spends (k1 + k2) s1 s3.
Proof. intros [A1 A2] [B1 B2]. split; [auto|]. intros n Hn. apply B2, A2. by rewrite Nat.add_assoc. Qed.
Lemma spends_mmu (s s' : vm) : (forall n, as_room n (mmu s) -> as_room n (mmu s')) -> store s' = store s -> spends 0 s s'.
Proof. intros H E. split; [done|]. by rewrite E. Qed.

Lemma frame_free_ok (s : vm) us m p f nx :
  as_inv (mmu s) cap us pds m -> frames s !! p = Some f -> kaddr f ∈ us -> elem_after p (frame_table s) = Some nx ->
  exists d', as_inv d' cap (us ∖ {[ kaddr f ]}) pds m /\ (forall n, as_room n (mmu s) -> as_room n d') /\
    frame_free p s = Ok (tt, set_frames (delete p (frames s)) (filter (fun q => q <> p) (frame_table s))
                               (if bool_decide (clock_hand s = HElem p) then nx else clock_hand s) (set_page (kaddr f) freed_page (set_mmu d' s))).
Proof.
  intros HA Hf Hk Hn. destruct (as_free_ok _ _ _ _ _ _ HA Hk) as (d' & Ed & HA'). exists d'. split; [done|]. split; [intros n Hr; exact (as_free_room _ _ _ _ _ _ n d' HA Hk Hr Ed)|].
  unfold frame_free, frame_lock_if_needed, frame_release_lock_if_needed, palloc_free_page, mbind, M_bind, gets, modify, get_frame, on_mmu, from, set_hand, skip, ASSERT, mret, M_ret.
  destruct s as [mm st sw me fr ta ha pr fl fs ml nn]. simpl in *.
  destruct fl; simpl; unfold mbind, M_bind, modify; simpl; rewrite Hf; simpl; rewrite Ed; simpl; rewrite Hn; simpl; by case_bool_decide.
Qed.

(** ** A page leaves memory *)

(** The frame [f] at [p] of a page whose entry [e] becomes [e'] is given back. *)
Record leaves (s : vm) (g : ghost) (p : Z) (f : frame) (pr : proc) (e' : spt_entry) (s' : vm) (g' : ghost) : Prop := {
  lv_procs : procs s' = <[owner f := MkProc (pagedir pr) (<[uaddr f := e']> (s_page_table pr))]> (procs s);
  lv_frames : frames s' = delete p (frames s);
  lv_table : frame_table s' = filter (fun q => q <> p) (frame_table s);
  lv_hand q : clock_hand s' = HElem q -> q ∈ frame_table s';
  lv_mem : mem s' = mem (set_page (kaddr f) freed_page s);
  lv_rest : mallocs s' = mallocs s /\ next s' = next s /\ frame_lock s' = frame_lock s /\ fs_lock s' = fs_lock s;
  lv_us : g_us g' = g_us g ∖ {[ kaddr f ]};
  lv_map : g_map g' = delete (pagedir pr, uaddr f) (g_map g);
  lv_machine : machine s' g';
  lv_spends : spends 1 s s'
}.

(** What the page is left as: a copy in a new slot, or the file, into which a part of the page was written
    if the page was dirty. *)
Definition to_swap (s : vm) (g : ghost) (f : frame) (e e' : spt_entry) (g' : ghost) : Prop :=
  exists k, e' = set_status PAGE_SWAP (set_frame None (set_swap k e)) /\ g_swap g !! k = None /\
    g_swap g' = <[k := mem s (kaddr f)]> (g_swap g) /\ g_pos g' = g_pos g /\ g_files g' = g_files g.
Definition to_file (s : vm) (g : ghost) (f : frame) (pd : Z) (e e' : spt_entry) (s' : vm) (g' : ghost) : Prop :=
  e' = set_status PAGE_LAZY (set_frame None e) /\ g_swap g' = g_swap g /\
  exists pt, g_map g !! (pd, uaddr f) = Some pt /\
  if pte_dirty pt then
    exists h i pos c n, e_file e = Some h /\ g_pos g !! h = Some (i, pos) /\ g_files g !! i = Some c /\ 0 <= n <= read_bytes e /\
      g_pos g' = <[h := (i, offset e + n)]> (g_pos g) /\ g_files g' = <[i := overwrite c (offset e) (take (Z.to_nat n) (mem s (kaddr f)))]> (g_files g) /\
      exists st, st_seek h (offset e) (store s) = Ok (tt, st) /\ st_write h (take (Z.to_nat (read_bytes e)) (mem s (kaddr f))) st = Ok (n, store s')
  else g_pos g' = g_pos g /\ g_files g' = g_files g.

Lemma hand_kept (s : vm) g p nx q : paging s g -> elem_after p (frame_table s) = Some nx ->
  (if bool_decide (clock_hand s = HElem p) then nx else clock_hand s) = HElem q -> q ∈ filter (fun q => q <> p) (frame_table s).
Proof.
  intros P En H. apply list_elem_of_filter. case_bool_decide as Hh.
  - subst nx. apply elem_after_elem in En as [H1 H2]; [done|]. apply P.
  - split; [|by apply (pg_hand _ _ P)]. intros ->. done.
Qed.

(** A page in memory, its frame and its mapping. *)
Lemma in_memory (s : vm) g t ua pr e p f :
  paging s g -> procs s !! t = Some pr -> s_page_table pr !! ua = Some e -> status e = PAGE_MEMORY -> e_frame e = Some p -> frames s !! p = Some f ->
  owner f = t /\ uaddr f = ua /\ e_uaddr e = ua /\ user_page ua /\ pagedir pr ∈ pds /\ kaddr f ∈ g_us g /\ is_page (mem s (kaddr f)) /\
  (exists pt, g_map g !! (pagedir pr, ua) = Some pt /\ pte_page pt = kaddr f) /\ exists nx, elem_after p (frame_table s) = Some nx.
Proof.
  intros P Hp He Hst Hfr Hf. assert (Hg : spt_get s t ua = Some (pagedir pr, e)) by (apply spt_get_some; eauto).
  destruct (pg_entry _ _ P _ _ _ _ Hg) as (E1 & E2 & E3 & E4). rewrite Hst in E3. destruct E3 as (p' & f' & pt & A1 & A2 & A3 & A4 & A5 & A6 & A7).
  assert (p' = p) as -> by congruence. assert (f' = f) as -> by congruence. destruct (pg_frame _ _ P p f Hf) as [Hk _].
  split_and!; try done; [by eapply pg_dir|by eapply pg_mem|by exists pt|]. apply elem_after_ok, (pg_table _ _ P). by eexists.
Qed.

Lemma spt_memory_to_swap_ok (s : vm) g t ua pr e p f :
  inv s g -> procs s !! t = Some pr -> s_page_table pr !! ua = Some e -> status e = PAGE_MEMORY -> e_frame e = Some p -> frames s !! p = Some f ->
  (spt_memory_to_swap t ua s = Fail FPanic /\ forall k, 0 <= k < slots -> is_Some (g_swap g !! k)) \/
  (exists s' g' e', spt_memory_to_swap t ua s = Ok (tt, s') /\ leaves s g p f pr e' s' g' /\ to_swap s g f e e' g').
Proof.
  intros [(MA & MS & MF) P] Hp He Hst Hfr Hf.
  destruct (in_memory s g t ua pr e p f) as (<- & <- & E1 & E2 & Hpd & Hk & Hpage & (pt & A5 & A6) & nx & Hn); try done.
  unfold spt_memory_to_swap. rewrite (M_bind_Ok _ _ s e s) by (by eapply get_entry_ok). rewrite Hfr.
  rewrite (M_bind_Ok (from _) _ s p s) by done. rewrite (M_bind_Ok _ _ s f s) by by apply get_frame_ok.
  rewrite (M_bind_Ok _ _ s (mem s) s) by done.
  destruct (sp_out_ok _ _ _ _ MS Hpage) as [[Eo Hfull]|(k & w' & Eo & Hfree & Hk2 & MS')].
  { left. unfold mbind, M_bind. by rewrite Eo. }
  right. erewrite (M_bind_Ok _ _ s k (set_swp w' s)) by (by rewrite Eo).
  rewrite (M_bind_Ok _ _ _ _ _ (upd_entry_ok (set_swp w' s) _ _ _ pr e Hp He)).
  set (s1 := set_procs _ _). rewrite (M_bind_Ok _ _ _ _ _ (upd_entry_ok s1 _ _ _ _ _ (lookup_insert_eq _ _ _) (lookup_insert_eq _ _ _))).
  set (s2 := set_procs _ s1). rewrite (M_bind_Ok _ _ _ _ _ (get_proc_ok s2 _ _ (lookup_insert_eq _ _ _))). simpl pagedir.
  destruct (as_clear_ok _ _ _ _ _ (pagedir pr) (uaddr f) MA) as (d1 & Ec & MA1); [done|done|].
  rewrite (M_bind_Ok _ _ _ _ _ (on_mmu_ok _ s2 _ _ Ec)).
  destruct (frame_free_ok (set_mmu d1 s2) _ _ p f nx MA1 Hf Hk Hn) as (d2 & MA2 & HR2 & Ef). rewrite (M_bind_Ok _ _ _ _ _ Ef).
  match goal with |- context [upd_entry _ _ _ ?x] => set (s3 := x) end.
  rewrite (upd_entry_ok s3 _ _ _ _ _ (lookup_insert_eq _ _ _) (lookup_insert_eq _ _ _)).
  eexists _, (MkGhost (g_us g ∖ {[kaddr f]}) (delete (pagedir pr, uaddr f) (g_map g)) (<[k := mem s (kaddr f)]> (g_swap g)) (g_pos g) (g_files g)), _.
  split; [reflexivity|]. split; [|exists k; by rewrite Hfree].
  split; try done.
  - simpl. by rewrite !insert_insert_eq.
  - simpl. intros q. by apply (hand_kept s g).
  - apply (spends_trans 0 1 _ (set_mmu d2 s)); [|by apply spends_refl]. apply spends_mmu; [|done]. intros n Hr. apply HR2. exact (as_clear_room _ _ _ n d1 Hr Ec).
Qed.

(** A page is written back to its place in its file; the write may be short. *)
Lemma write_back_ok (s : vm) hs cs h i pos c ofs k n :
  fs_lock s = false -> st_inv (store s) hs cs -> hs !! h = Some (i, pos) -> cs !! i = Some c -> 0 <= ofs < 2 ^ 31 -> 0 <= n <= 4096 -> is_page (mem s k) ->
  exists st r, (do* filesys_lock_acquire ; do* file_seek (Some h) ofs ; let* _ := file_write (Some h) k n in filesys_lock_release) s = Ok (tt, set_store st s) /\
    0 <= r <= left_at c ofs n /\ st_inv st (<[h := (i, ofs + r)]> hs) (<[i := overwrite c ofs (take (Z.to_nat r) (mem s k))]> cs) /\
    (exists st1, st_seek h ofs (store s) = Ok (tt, st1) /\ st_write h (take (Z.to_nat n) (mem s k)) st1 = Ok (r, st)) /\
    forall x, st_room (S x) (store s) -> st_room x st.
Proof.
  intros Hl MF H1 H2 H3 H4 [H5 H6]. destruct (st_seek_ok _ _ _ _ _ _ ofs MF H1 H3) as (st1 & E1 & M1).
  assert (Hlen : length (take (Z.to_nat n) (mem s k)) = Z.to_nat n) by (rewrite length_take; lia).
  destruct (st_write_ok _ _ _ h i ofs c (take (Z.to_nat n) (mem s k)) M1) as (r & st2 & E2 & Hr & M2); [by rewrite lookup_insert_eq|done|by apply Forall_take|lia|].
  rewrite Hlen, Z2Nat.id in Hr by lia. exists st2, r. split; [|split; [done|split; [|split; [by exists st1|]]]].
  - unfold filesys_lock_acquire, filesys_lock_release, file_seek, file_write, not_null, from, mbind, M_bind, gets, modify, ASSERT, mret, M_ret, on_store, skip.
    destruct s as [mm st sw me fr ta ha pr fl fl2 ml nn]. simpl in *. subst fl2. simpl. rewrite (proj2 (Z.leb_le _ _)) by lia. simpl.
    rewrite E1. simpl. rewrite (proj2 (Z.leb_le _ _)) by lia. simpl. rewrite E2. done.
  - rewrite insert_insert_eq, take_take in M2. unfold left_at in Hr. by rewrite Nat.min_l in M2 by lia.
  - intros x Hx. eapply (st_write_room st1 _ _ h i ofs c (take (Z.to_nat n) (mem s k)) x r st2 M1); [by rewrite lookup_insert_eq|done|by apply Forall_take|lia| |done]. by eapply st_seek_room.
Qed.

Lemma spt_memory_to_lazy_ok (s : vm) g t ua pr e p f :
  inv s g -> procs s !! t = Some pr -> s_page_table pr !! ua = Some e -> status e = PAGE_MEMORY -> e_frame e = Some p -> frames s !! p = Some f ->
  mmap e = true -> fs_lock s = false ->
  exists s' g' e', spt_memory_to_lazy t ua s = Ok (tt, s') /\ leaves s g p f pr e' s' g' /\ to_file s g f (pagedir pr) e e' s' g'.
Proof.
  intros [(MA & MS & MF) P] Hp He Hst Hfr Hf Hmm Hfs.
  destruct (in_memory s g t ua pr e p f) as (<- & <- & E1 & E2 & Hpd & Hk & Hpage & (pt & A5 & A6) & nx & Hn); try done.
  assert (Hg : spt_get s (owner f) (uaddr f) = Some (pagedir pr, e)) by (apply spt_get_some; eauto).
  destruct (pg_entry _ _ P _ _ _ _ Hg) as (_ & _ & _ & E4). destruct E4 as (h & i & pos & c & B1 & B2 & B3 & B4 & B5 & B6 & B7 & B8 & B9); [by right|].
  unfold spt_memory_to_lazy. rewrite (M_bind_Ok _ _ s e s) by (by eapply get_entry_ok). rewrite Hfr.
  rewrite (M_bind_Ok (from _) _ s p s) by done. rewrite (M_bind_Ok _ _ s f s) by by apply get_frame_ok.
  rewrite (M_bind_Ok _ _ s pr s) by by apply get_proc_ok. rewrite E1.
  rewrite (M_bind_Ok _ _ _ _ _ (on_mmu_ok _ s _ _ (as_is_dirty_ok _ _ _ _ _ _ _ _ MA A5))).
  set (s0 := set_mmu (mmu s) s). match goal with |- context [mbind _ (if pte_dirty pt then ?a else ?b)] => set (wb := if pte_dirty pt then a else b) end.
  assert (Hwb : exists st hs cs, wb s0 = Ok (tt, set_store st s0) /\ st_inv st hs cs /\ (forall x, st_room (S x) (store s) -> st_room x st) /\
    if pte_dirty pt then exists n, 0 <= n <= read_bytes e /\ hs = <[h := (i, offset e + n)]> (g_pos g) /\ cs = <[i := overwrite c (offset e) (take (Z.to_nat n) (mem s (kaddr f)))]> (g_files g) /\
      exists st1, st_seek h (offset e) (store s) = Ok (tt, st1) /\ st_write h (take (Z.to_nat (read_bytes e)) (mem s (kaddr f))) st1 = Ok (n, st)
    else hs = g_pos g /\ cs = g_files g).
  { subst wb. destruct (pte_dirty pt); [|exists (store s), (g_pos g), (g_files g); split; [by destruct s|split; [done|split; [intros x; apply st_room_S|done]]]]. rewrite B1.
    destruct (write_back_ok s0 _ _ h i pos c (offset e) (kaddr f) (read_bytes e) Hfs MF) as (st & r & Ew & Hr & M' & Hwr & Hroom); [done|done|done|lia|done|].
    eexists st, _, _. split; [exact Ew|]. split; [exact M'|]. split; [exact Hroom|]. exists r. unfold left_at in Hr. split; [lia|done]. }
  destruct Hwb as (st & hs & cs & Ew & MF' & Hroom & Hwb). rewrite (M_bind_Ok _ _ _ _ _ Ew). clear wb Ew.
  destruct (as_clear_ok _ _ _ _ _ (pagedir pr) (uaddr f) MA) as (d1 & Ec & MA1); [done|done|].
  rewrite (M_bind_Ok _ _ _ _ _ (on_mmu_ok _ (set_store st s0) _ _ Ec)).
  destruct (frame_free_ok (set_mmu d1 (set_store st s0)) _ _ p f nx MA1 Hf Hk Hn) as (d2 & MA2 & HR2 & Ef). rewrite (M_bind_Ok _ _ _ _ _ Ef).
  match goal with |- exists _ _ _, mbind _ _ ?x = _ /\ _ => set (s3 := x) end.
  rewrite (M_bind_Ok _ _ _ _ _ (upd_entry_ok s3 _ _ _ pr e Hp He)).
  match goal with |- context [upd_entry _ _ (set_status PAGE_LAZY) ?x] => set (s4 := x) end.
  rewrite (upd_entry_ok s4 _ _ _ _ _ (lookup_insert_eq _ _ _) (lookup_insert_eq _ _ _)).
  eexists _, (MkGhost (g_us g ∖ {[kaddr f]}) (delete (pagedir pr, uaddr f) (g_map g)) (g_swap g) hs cs), _.
  split; [reflexivity|]. split.
  - split; try done; simpl; [by rewrite !insert_insert_eq|intros q; by apply (hand_kept s g)|].
    split; [|exact Hroom]. simpl. intros n Hr. apply HR2. exact (as_clear_room _ _ _ n d1 Hr Ec).
  - split; [done|]. split; [done|]. exists pt. split; [done|]. destruct (pte_dirty pt); [|done].
    destruct Hwb as (n & H1 & H2 & H3 & H4). by exists h, i, pos, c, n.
Qed.

(** Handles keep their inodes, and files their lengths. *)
Definition files_kept (g g' : ghost) : Prop :=
  (forall h i pos, g_pos g !! h = Some (i, pos) -> exists pos', g_pos g' !! h = Some (i, pos')) /\
  (forall i c, g_files g !! i = Some c -> exists c', g_files g' !! i = Some c' /\ length c' = length c).

Lemma files_kept_refl g g' : g_pos g' = g_pos g -> g_files g' = g_files g -> files_kept g g'.
Proof. intros E1 E2. split; [rewrite E1|rewrite E2]; eauto. Qed.
Lemma backed_kept g g' e : files_kept g g' -> backed g e -> backed g' e.
Proof.
  intros [K1 K2] (h & i & pos & c & B1 & B2 & B3 & B). destruct (K1 _ _ _ B2) as [pos' E1]. destruct (K2 _ _ B3) as (c' & E2 & E3).
  exists h, i, pos', c'. by rewrite E3.
Qed.
Lemma overwrite_nil c pos : overwrite c pos [] = c.
Proof. unfold overwrite. simpl. by rewrite Nat.add_0_r, take_drop. Qed.
Lemma length_overwrite c pos l : 0 <= pos -> pos + Z.of_nat (length l) <= Z.of_nat (length c) -> length (overwrite c pos l) = length c.
Proof. intros H1 H2. unfold overwrite. rewrite !length_app, length_take, length_drop. lia. Qed.

Lemma to_file_kept (s : vm) g f pd e e' s' g' : backed g e -> to_file s g f pd e e' s' g' -> files_kept g g'.
Proof.
  intros (h & i & pos & c & B1 & B2 & B3 & B4 & B5 & B6 & B7 & B8 & B9) (_ & _ & pt & _ & H). destruct (pte_dirty pt); [|by apply files_kept_refl; apply H].
  destruct H as (h' & i' & pos' & c' & n & C1 & C2 & C3 & C4 & C5 & C6 & _). simplify_eq. split.
  - intros h2 i2 pos2 H. rewrite C5. destruct (decide (h = h2)) as [<-|]; [rewrite lookup_insert_eq|rewrite lookup_insert_ne by done]; simplify_eq; eauto.
  - intros i2 c2 H. rewrite C6. destruct (decide (i = i2)) as [<-|]; [rewrite lookup_insert_eq|rewrite lookup_insert_ne by done; eauto].
    simplify_eq. eexists. split; [done|]. destruct (decide (n = 0)) as [->|]; [by rewrite overwrite_nil|]. apply length_overwrite; [lia|]. rewrite length_take. lia.
Qed.

(** The entries after a page has left. *)
Lemma leaves_spt (s : vm) g p f pr e' s' g' t ua :
  procs s !! owner f = Some pr -> leaves s g p f pr e' s' g' ->
  spt_get s' t ua = if decide ((t, ua) = (owner f, uaddr f)) then Some (pagedir pr, e') else spt_get s t ua.
Proof.
  intros Hp L. unfold spt_get. rewrite (lv_procs _ _ _ _ _ _ _ _ L). destruct (decide (t = owner f)) as [->|Ht].
  - rewrite lookup_insert_eq, Hp. simpl. destruct (decide (ua = uaddr f)) as [->|Hu].
    + rewrite lookup_insert_eq, decide_True by done. done.
    + rewrite lookup_insert_ne, decide_False by congruence. done.
  - rewrite lookup_insert_ne, decide_False by congruence. done.
Qed.

Section leave.
Context (s : vm) (g : ghost) (t ua : Z) (pr : proc) (e : spt_entry) (p : Z) (f : frame) (e' : spt_entry) (s' : vm) (g' : ghost).
Hypothesis P : paging s g.
Hypothesis Hp : procs s !! t = Some pr.
Hypothesis He : s_page_table pr !! ua = Some e.
Hypothesis Hst : status e = PAGE_MEMORY.
Hypothesis Hfr : e_frame e = Some p.
Hypothesis Hf : frames s !! p = Some f.
Hypothesis L : leaves s g p f pr e' s' g'.
Hypothesis Hto : to_swap s g f e e' g' /\ mmap e = false \/ to_file s g f (pagedir pr) e e' s' g' /\ mmap e = true.

Lemma left_entry : spt_get s t ua = Some (pagedir pr, e).
Proof. apply spt_get_some. eauto. Qed.

Lemma left_kept : files_kept g g'.
Proof.
  destruct Hto as [[(k & _ & _ & _ & H1 & H2) _]|[H Hm]]; [by apply files_kept_refl|].
  eapply to_file_kept; [|exact H]. apply (pg_entry _ _ P _ _ _ _ left_entry). by right.
Qed.

Lemma left_swap k page : g_swap g !! k = Some page -> g_swap g' !! k = Some page.
Proof.
  destruct Hto as [[(k' & _ & Hn & -> & _) _]|[(_ & -> & _) _]]; [|done]. intros H. rewrite lookup_insert_ne; [done|]. intros ->. congruence.
Qed.

(** No other page is in that frame. *)
Lemma left_other t2 ua2 pd2 e2 p2 : spt_get s t2 ua2 = Some (pd2, e2) -> (t2, ua2) <> (t, ua) -> status e2 = PAGE_MEMORY -> e_frame e2 = Some p2 -> p2 <> p.
Proof.
  intros H Hne H2 H3 ->. apply Hne. destruct (in_memory s g t ua pr e p f) as (E1 & E2 & _); try done.
  apply spt_get_some in H as (pr2 & Q1 & Q2 & _). destruct (in_memory s g t2 ua2 pr2 e2 p f) as (E3 & E4 & _); try done. congruence.
Qed.

Lemma left_entry_ok t2 ua2 pd2 e2 : spt_get s' t2 ua2 = Some (pd2, e2) -> entry_ok s' g' t2 pd2 ua2 e2.
Proof.
  pose proof left_kept as HK. pose proof left_swap as HS.
  destruct (in_memory s g t ua pr e p f) as (Eo & Eu & Ea & Hup & _ & Hk & _); try done.
  rewrite (leaves_spt s g p f pr e' s' g') by (by rewrite ?Eo). rewrite Eo, Eu. case_decide as Hd.
  - injection Hd as -> ->. intros [= <- <-]. destruct (pg_entry _ _ P _ _ _ _ left_entry) as (_ & _ & _ & HB).
    assert (Hmap : g_map g' !! (pagedir pr, ua) = None) by (rewrite (lv_map _ _ _ _ _ _ _ _ L), Eu; apply lookup_delete_eq).
    destruct Hto as [[(k & -> & Hn & Hs & _) Hm]|[[-> _] Hm]]; split; [done| |done|]; (split; [done|]); simpl; split.
    + split_and!; try done. rewrite Hs, lookup_insert_eq. by eexists.
    + intros [?|?]; [done|congruence].
    + done.
    + intros _. destruct (backed_kept _ _ _ HK (HB (or_intror Hm))) as (h & i & pos & c & B). by exists h, i, pos, c.
  - intros H. destruct (pg_entry _ _ P _ _ _ _ H) as (E1 & E2 & E3 & E4). split; [done|]. split; [done|]. split.
    2:{ intros Hc. eapply backed_kept; [exact HK|by apply E4]. }
    assert (Hmap : g_map g' !! (pd2, ua2) = g_map g !! (pd2, ua2)).
    { rewrite (lv_map _ _ _ _ _ _ _ _ L), Eu. apply lookup_delete_ne. intros [= H1 <-]. apply Hd. apply spt_get_some in H as (pr2 & Q1 & _ & Q3). f_equal.
      eapply (pg_dirs _ _ P); [exact Q1|exact Hp|congruence]. }
    rewrite Hmap. destruct (status e2) eqn:Hs2.
    + destruct E3 as (p2 & f2 & pt2 & A1 & A2 & A). exists p2, f2, pt2. split; [done|]. split; [|done].
      rewrite (lv_frames _ _ _ _ _ _ _ _ L), lookup_delete_ne; [done|]. apply not_eq_sym. by eapply left_other.
    + done.
    + destruct E3 as (A1 & A2 & [page A3] & A4). split_and!; try done. exists page. by apply HS.
Qed.

Lemma left_table q : q ∈ frame_table s' <-> q ∈ frame_table s /\ q <> p.
Proof. rewrite (lv_table _ _ _ _ _ _ _ _ L), list_elem_of_filter. tauto. Qed.

Lemma left_frame q x : frames s' !! q = Some x <-> frames s !! q = Some x /\ q <> p.
Proof. rewrite (lv_frames _ _ _ _ _ _ _ _ L), lookup_delete_Some. naive_solver. Qed.

Lemma left_slots t1 ua1 pd1 e1 t2 ua2 pd2 e2 :
  spt_get s' t1 ua1 = Some (pd1, e1) -> spt_get s' t2 ua2 = Some (pd2, e2) -> status e1 = PAGE_SWAP -> status e2 = PAGE_SWAP ->
  swap_index e1 = swap_index e2 -> t1 = t2 /\ ua1 = ua2.
Proof.
  destruct (in_memory s g t ua pr e p f) as (Eo & Eu & _); try done.
  rewrite !(leaves_spt s g p f pr e' s' g') by (by rewrite ?Eo). rewrite Eo, Eu.
  assert (K : forall t2 ua2 pd2 e2, spt_get s t2 ua2 = Some (pd2, e2) -> status e2 = PAGE_SWAP -> status e' = PAGE_SWAP -> swap_index e2 <> swap_index e').
  { intros t3 ua3 pd3 e3 H3 Hs Hs'. destruct Hto as [[(k & -> & Hn & _) _]|[[-> _] _]]; [|done]. simpl. intros E.
    destruct (pg_entry _ _ P _ _ _ _ H3) as (_ & _ & HE & _). rewrite Hs in HE. destruct HE as (_ & _ & [page HE] & _). congruence. }
  do 2 case_decide; intros H1 H2 S1 S2 E; simplify_eq; try done; [by destruct (K _ _ _ _ H2 S2 S1)|by destruct (K _ _ _ _ H1 S1 S2)|].
  by apply (pg_slots _ _ P _ _ _ _ _ _ _ _ H1 H2).
Qed.

Lemma left_paging : paging s' g'.
Proof.
  destruct (in_memory s g t ua pr e p f) as (Eo & Eu & Ea & Hup & Hpd & Hk & _); try done.
  assert (Hprocs : forall t2 pr2, procs s' !! t2 = Some pr2 -> exists pr3, procs s !! t2 = Some pr3 /\ pagedir pr3 = pagedir pr2).
  { intros t2 pr2. rewrite (lv_procs _ _ _ _ _ _ _ _ L). intros [[<- <-]|[_ H]]%lookup_insert_Some; [exists pr; by rewrite Eo|eauto]. }
  destruct (lv_rest _ _ _ _ _ _ _ _ L) as (_ & Hnext & _). split.
  - intros t2 pr2 (pr3 & H1 & <-)%Hprocs. by apply (pg_dir _ _ P t2).
  - intros t2 pr2 t3 pr3 (pr4 & H1 & <-)%Hprocs (pr5 & H2 & <-)%Hprocs. by apply (pg_dirs _ _ P).
  - apply left_entry_ok.
  - apply left_slots.
  - intros q x [Hq Hne]%left_frame. destruct (pg_frame _ _ P q x Hq) as [H1 H2]. rewrite (lv_us _ _ _ _ _ _ _ _ L). split.
    + apply elem_of_difference. split; [done|]. intros E%elem_of_singleton. apply Hne. by eapply (pg_kaddr _ _ P).
    + intros Hpin. destruct (H2 Hpin) as (pd & e2 & G1 & G2 & G3). exists pd, e2. split; [|done].
      rewrite (leaves_spt s g p f pr e' s' g') by (by rewrite ?Eo). rewrite decide_False; [done|]. intros [= H3 H4].
      rewrite H3, H4, Eo, Eu, left_entry in G1. congruence.
  - intros q x q' x' [Hq _]%left_frame [Hq' _]%left_frame. by apply (pg_kaddr _ _ P).
  - intros k. rewrite (lv_us _ _ _ _ _ _ _ _ L). intros [H1 H2]%elem_of_difference. destruct (pg_used _ _ P k H1) as (q & x & Hq & <-).
    exists q, x. split; [|done]. apply left_frame. split; [done|]. intros ->. assert (x = f) as -> by congruence. set_solver.
  - intros k. rewrite (lv_mem _ _ _ _ _ _ _ _ L). simpl. case_match; [apply freed_page_ok|by apply (pg_mem _ _ P)].
  - intros q. rewrite left_table, (pg_table _ _ P), (lv_frames _ _ _ _ _ _ _ _ L). destruct (decide (q = p)) as [->|Hne].
    + rewrite lookup_delete_eq. split; [by intros []|by intros []].
    + rewrite lookup_delete_ne by done. tauto.
  - rewrite (lv_table _ _ _ _ _ _ _ _ L). apply NoDup_filter, P.
  - intros q [H _]%left_table. rewrite Hnext. by apply (pg_fresh _ _ P).
  - apply L.
Qed.

(** What the page held is in the swap slot, or was read from the file; what any other page holds is
    the same unless it is to be read from that file. *)
Lemma left_view_apart t2 ua2 : (t2, ua2) <> (t, ua) -> (forall pd2 e2, spt_get s t2 ua2 = Some (pd2, e2) -> status e2 = PAGE_LAZY -> contents s' g' e2 = contents s g e2) ->
  view s' g' t2 ua2 = view s g t2 ua2.
Proof.
  intros Hne Hlazy. destruct (in_memory s g t ua pr e p f) as (Eo & Eu & _); try done. unfold view.
  rewrite (leaves_spt s g p f pr e' s' g') by (by rewrite ?Eo). rewrite Eo, Eu, decide_False by done.
  destruct (spt_get s t2 ua2) as [[pd2 e2]|] eqn:H; [|done]. destruct (pg_entry _ _ P _ _ _ _ H) as (_ & _ & HE & _).
  destruct (status e2) eqn:S2; [|by apply (Hlazy pd2)|]; unfold contents; rewrite S2.
  - destruct HE as (p2 & f2 & pt2 & A1 & A2 & _). rewrite A1. assert (p2 <> p) by by eapply left_other.
    rewrite A2, (proj2 (left_frame p2 f2)) by done. rewrite (lv_mem _ _ _ _ _ _ _ _ L). simpl. destruct (Z.eqb_spec (kaddr f2) (kaddr f)) as [E|]; [|done].
    by destruct (pg_kaddr _ _ P _ _ _ _ A2 Hf E).
  - destruct HE as (_ & _ & [page HE] & _). rewrite HE. by apply left_swap.
Qed.

Lemma left_view_other t2 ua2 : (t2, ua2) <> (t, ua) -> (forall pd2 e2, spt_get s t2 ua2 = Some (pd2, e2) -> status e2 = PAGE_LAZY -> g_pos g' = g_pos g /\ g_files g' = g_files g) ->
  view s' g' t2 ua2 = view s g t2 ua2.
Proof.
  intros Hne Hlazy. apply left_view_apart; [done|]. intros pd2 e2 H S2. destruct (Hlazy pd2 e2 H S2) as [E1 E2]. unfold contents. by rewrite S2, E1, E2.
Qed.

Lemma left_view_private t2 ua2 : mmap e = false -> view s' g' t2 ua2 = view s g t2 ua2.
Proof.
  intros Hm. pose proof (left_view_other t2 ua2) as HV. destruct (in_memory s g t ua pr e p f) as (Eo & Eu & _); try done. destruct Hto as [[(k & E & Hn & Hsw & Hpos & Hfi) _]|[_ H]]; [|congruence].
  destruct (decide ((t2, ua2) = (t, ua))) as [[= -> ->]|Hne].
  - unfold view. rewrite (leaves_spt s g p f pr e' s' g') by (by rewrite ?Eo). rewrite Eo, Eu, decide_True, left_entry by done.
    unfold contents. rewrite E, Hst, Hfr, Hf. simpl. by rewrite Hsw, lookup_insert_eq.
  - by apply HV.
Qed.

End leave.

(** ** Pinning *)

Definition pin_state (p : Z) (b : bool) (f : frame) (s : vm) : vm := set_frames (<[p := set_pinned b f]> (frames s)) (frame_table s) (clock_hand s) s.

Lemma pin_frame (s : vm) p b f q x : frames s !! p = Some f -> frames (pin_state p b f s) !! q = Some x <->
  exists y, frames s !! q = Some y /\ x = if decide (q = p) then set_pinned b y else y.
Proof.
  intros Hf. simpl. destruct (decide (q = p)) as [->|Hne].
  - rewrite lookup_insert_eq, Hf. naive_solver.
  - rewrite lookup_insert_ne by done. naive_solver.
Qed.

Lemma paging_pin (s : vm) g p b f : paging s g -> frames s !! p = Some f ->
  (b = false -> exists pd e, spt_get s (owner f) (uaddr f) = Some (pd, e) /\ status e = PAGE_MEMORY /\ e_frame e = Some p) -> paging (pin_state p b f s) g.
Proof.
  intros P Hf Hb. destruct P as [P1 P2 P3 P4 P5 P6 P7 P8 P9 P10 P11 P12]. split; try done.
  - intros t ua pd e He. destruct (P3 t ua pd e He) as (H1 & H2 & H3 & H4). split; [done|]. split; [done|]. split; [|done].
    destruct (status e); try done. destruct H3 as (q & x & pt & A1 & A2 & A3 & A4 & A). exists q, (if decide (q = p) then set_pinned b x else x), pt.
    split; [done|]. split; [apply pin_frame; eauto|]. by case_decide.
  - intros q x (y & Hy & ->)%pin_frame; [|done]. destruct (P5 q y Hy) as [H1 H2]. case_decide as Hd; [|done]. subst q. split; [done|].
    simpl. intros Hp. assert (y = f) as -> by congruence. by apply Hb.
  - intros q x q' x' (y & Hy & ->)%pin_frame (y' & Hy' & ->)%pin_frame E; [|done|done]. eapply P6; [exact Hy|exact Hy'|]. by repeat case_decide.
  - intros k (q & x & Hq & <-)%P7. exists q, (if decide (q = p) then set_pinned b x else x). split; [apply pin_frame; eauto|]. by case_decide.
  - intros q. rewrite P9. simpl. destruct (decide (q = p)) as [->|]; [rewrite lookup_insert_eq, Hf|by rewrite lookup_insert_ne]. split; by eexists.
Qed.

Lemma contents_pin (s : vm) g p b f e : frames s !! p = Some f -> contents (pin_state p b f s) g e = contents s g e.
Proof.
  intros Hf. unfold contents. destruct (status e); try done. destruct (e_frame e) as [q|]; [|done]. simpl.
  destruct (decide (q = p)) as [->|]; [by rewrite lookup_insert_eq, Hf|by rewrite lookup_insert_ne].
Qed.

(** ** The clock *)

(** The frame at [p] was evicted: it was not pinned, and not accessed when the hand came to it; on the way
    to it accessed bits were cleared. *)
Definition evicted (s : vm) (g : ghost) (p : Z) (s' : vm) (g' : ghost) : Prop :=
  exists f pr e e' m pt,
    (frames s !! p = Some f /\ pinned f = false) /\
    (procs s !! owner f = Some pr /\ s_page_table pr !! uaddr f = Some e /\ status e = PAGE_MEMORY /\ e_frame e = Some p) /\
    (same_map (g_map g) m /\ m !! (pagedir pr, uaddr f) = Some pt /\ pte_accessed pt = false) /\
    leaves s (g_set_map m g) p f pr e' s' g' /\
    (to_swap s (g_set_map m g) f e e' g' /\ mmap e = false \/ to_file s (g_set_map m g) f (pagedir pr) e e' s' g' /\ mmap e = true).

Definition accessed (s : vm) (g : ghost) (f : frame) : bool :=
  match procs s !! owner f with
  | Some pr => match g_map g !! (pagedir pr, uaddr f) with Some pt => pte_accessed pt | None => false end
  | None => false
  end.
Definition full (g : ghost) : Prop := forall k, 0 <= k < slots -> is_Some (g_swap g !! k).

Lemma not_full (g : ghost) : Z.of_nat (size (g_swap g)) < slots -> ~ full g.
Proof.
  intros Hs Hf. assert (H : (list_to_set (Z.of_nat <$> seq 0 (Z.to_nat slots)) : gset Z) ⊆ dom (g_swap g)).
  { intros k (i & -> & Hi%elem_of_seq)%elem_of_list_to_set%list_elem_of_fmap. apply elem_of_dom, Hf. lia. }
  apply subseteq_size in H. rewrite size_list_to_set, length_fmap, length_seq, size_dom in H; [lia|]. apply NoDup_fmap_2; [apply _|apply NoDup_seq].
Qed.

(** The page in a frame that is not pinned. *)
Lemma unpinned_entry (s : vm) g p f : paging s g -> frames s !! p = Some f -> pinned f = false ->
  exists pr e, procs s !! owner f = Some pr /\ s_page_table pr !! uaddr f = Some e /\ status e = PAGE_MEMORY /\ e_frame e = Some p.
Proof. intros P Hf Hp. destruct (pg_frame _ _ P p f Hf) as [_ H]. destruct (H Hp) as (pd & e & (pr & H1 & H2 & H3)%spt_get_some & H4 & H5). by exists pr, e. Qed.

Lemma leaves_pin (s : vm) g p b f pr e' s' g' : frames s !! p = Some f -> leaves (pin_state p b f s) g p (set_pinned b f) pr e' s' g' -> leaves s g p f pr e' s' g'.
Proof. intros Hf []. split; try done. rewrite lv_frames0. simpl. apply delete_insert_eq. Qed.

Lemma round_down_user ua : user_page ua -> pg_round_down ua = ua.
Proof.
  intros [H1 H2]. apply pg_round_down_id; [|done]. unfold PHYS_BASE in H1. unfold is_u32. lia.
Qed.

Lemma spt_lookup_ok (s : vm) t ua pr e : procs s !! t = Some pr -> s_page_table pr !! ua = Some e -> user_page ua -> spt_lookup t ua s = Ok (Some ua, s).
Proof.
  intros Hp He Hu. unfold spt_lookup. rewrite (M_bind_Ok _ _ s pr s) by by apply get_proc_ok. by rewrite round_down_user, He by done.
Qed.

(** The hand passes the frame. *)
Lemma evict_one_passes (s : vm) g p f : inv s g -> frames s !! p = Some f -> pinned f = true \/ accessed s g f = true ->
  exists d m, evict_one p s = Ok (false, set_mmu d s) /\ inv (set_mmu d s) (g_set_map m g) /\ same_map (g_map g) m /\
    accessed s (g_set_map m g) f = (if pinned f then accessed s g f else false) /\
    (forall q x, frames s !! q = Some x -> q <> p -> pinned x = false -> accessed s (g_set_map m g) x = accessed s g x) /\ spends 0 s (set_mmu d s).
Proof.
  intros [(MA & MS & MF) P] Hf H. unfold evict_one. rewrite (M_bind_Ok _ _ s f s) by by apply get_frame_ok. destruct (pinned f) eqn:Hpin; simpl.
  { exists (mmu s), (g_map g). split; [by destruct s|]. split; [by destruct s, g|]. split_and!; [apply same_map_refl|by destruct g|by destruct g|by apply spends_refl]. }
  destruct H as [|H]; [done|]. destruct (unpinned_entry s g p f P Hf Hpin) as (pr & e & Hp & He & Hst & Hfr).
  destruct (in_memory s g (owner f) (uaddr f) pr e p f) as (_ & _ & _ & Hu & Hpd & Hk & Hpage & (pt & A5 & A6) & _); try done.
  rewrite (M_bind_Ok _ _ s pr s) by by apply get_proc_ok. unfold accessed in H. rewrite Hp, A5 in H.
  rewrite (M_bind_Ok _ _ s true s) by (apply on_mmu_read; rewrite <- H; by eapply as_is_accessed_ok).
  destruct (as_set_accessed_ok _ _ _ _ _ _ _ _ false MA A5) as (d & Ed & MA'). rewrite (M_bind_Ok _ _ _ _ _ (on_mmu_ok _ s _ _ Ed)).
  exists d, (<[(pagedir pr, uaddr f) := set_accessed false pt]> (g_map g)). assert (Hsm := same_map_set _ _ _ false A5).
  split; [done|]. split; [split; [done|by apply paging_same_map]|]. split; [done|]. split; [|split].
  - unfold accessed. simpl. by rewrite Hp, lookup_insert_eq.
  - intros q x Hq Hne Hx. unfold accessed. destruct (unpinned_entry s g q x P Hq Hx) as (pr2 & e2 & Q1 & Q2 & Q3 & Q4). rewrite Q1. simpl.
    rewrite lookup_insert_ne; [done|]. intros [= E1 E2]. assert (owner f = owner x) as E3 by by eapply (pg_dirs _ _ P).
    rewrite E3, Q1 in Hp. injection Hp as <-. rewrite E2, Q2 in He. injection He as <-. congruence.
  - apply spends_mmu; [|done]. intros n Hr. exact (as_set_accessed_room _ _ _ _ n d Hr Ed).
Qed.

(** The frame is evicted, or the swap area is full. *)
Lemma evict_one_evicts (s : vm) g p f : inv s g -> frames s !! p = Some f -> pinned f = false -> accessed s g f = false -> fs_lock s = false ->
  (evict_one p s = Fail FPanic /\ full g) \/ exists s' g', evict_one p s = Ok (true, s') /\ evicted s g p s' g' /\ paging s' g'.
Proof.
  intros [(MA & MS & MF) P] Hf Hpin H Hfs. unfold evict_one. rewrite (M_bind_Ok _ _ s f s) by by apply get_frame_ok. rewrite Hpin. simpl.
  destruct (unpinned_entry s g p f P Hf Hpin) as (pr & e & Hp & He & Hst & Hfr).
  destruct (in_memory s g (owner f) (uaddr f) pr e p f) as (_ & _ & _ & Hu & Hpd & Hk & Hpage & (pt & A5 & A6) & _); try done.
  rewrite (M_bind_Ok _ _ s pr s) by by apply get_proc_ok. unfold accessed in H. rewrite Hp, A5 in H.
  rewrite (M_bind_Ok _ _ s false s) by (apply on_mmu_read; rewrite <- H; by eapply as_is_accessed_ok).
  rewrite (M_bind_Ok _ _ s (Some (uaddr f)) s) by by eapply spt_lookup_ok.
  rewrite (M_bind_Ok _ _ s (uaddr f) s) by done. rewrite (M_bind_Ok _ _ s tt (pin_state p true f s)) by done.
  set (s1 := pin_state p true f s). assert (Hf1 : frames s1 !! p = Some (set_pinned true f)) by apply lookup_insert_eq.
  rewrite (M_bind_Ok _ _ s1 e s1) by by eapply get_entry_ok. assert (I1 : inv s1 g) by (split; [done|by apply paging_pin]).
  assert (Eg : g_set_map (g_map g) g = g) by by destruct g. destruct (mmap e) eqn:Hm.
  - destruct (spt_memory_to_lazy_ok s1 g _ _ pr e p _ I1 Hp He Hst Hfr Hf1 Hm Hfs) as (s' & g' & e' & E1 & L & Hto). right. exists s', g'.
    split; [by rewrite (M_bind_Ok _ _ _ _ _ E1)|]. split.
    + exists f, pr, e, e', (g_map g), pt. rewrite Eg. split_and!; try done; [by eapply leaves_pin|]. right. done.
    + eapply (left_paging s1 g (owner f) (uaddr f)); [apply I1|done..|by right].
  - destruct (spt_memory_to_swap_ok s1 g _ _ pr e p _ I1 Hp He Hst Hfr Hf1) as [[E1 Hfull]|(s' & g' & e' & E1 & L & Hto)].
    { left. split; [|done]. unfold mbind, M_bind. by rewrite E1. }
    right. exists s', g'. split; [by rewrite (M_bind_Ok _ _ _ _ _ E1)|]. split.
    + exists f, pr, e, e', (g_map g), pt. rewrite Eg. split_and!; try done; [by eapply leaves_pin|]. left. done.
    + eapply (left_paging s1 g (owner f) (uaddr f)); [apply I1|done..|by left].
Qed.

(** The hand moves round the table. *)
Lemma elem_after_index l i p : NoDup l -> l !! i = Some p -> elem_after p l = Some (match l !! S i with Some q => HElem q | None => HEnd end).
Proof.
  revert i. induction l as [|x l IH]; intros i Hn Hi; [by rewrite lookup_nil in Hi|]. apply NoDup_cons in Hn as [Hx Hn]. simpl. destruct i as [|i]; simpl in Hi.
  - injection Hi as ->. rewrite Z.eqb_refl. by destruct l.
  - destruct (Z.eqb_spec x p) as [->|]; [by apply list_elem_of_lookup_2 in Hi|]. by apply IH.
Qed.

Definition to_hand (h : hand) (s : vm) : vm := set_frames (frames s) (frame_table s) h s.

Lemma advance_ok (s : vm) i p : NoDup (frame_table s) -> frame_table s !! i = Some p ->
  exists q, advance p s = Ok (tt, to_hand (HElem q) s) /\ frame_table s !! (S i mod length (frame_table s))%nat = Some q.
Proof.
  intros Hn Hi. pose proof (lookup_lt_Some _ _ _ Hi) as Hl. unfold advance. rewrite (M_bind_Ok _ _ s (frame_table s) s) by done.
  rewrite (elem_after_index _ i p) by done. destruct (frame_table s !! S i) as [q|] eqn:Hq.
  - exists q. split; [done|]. pose proof (lookup_lt_Some _ _ _ Hq). by rewrite Nat.mod_small.
  - apply lookup_ge_None in Hq. replace (S i) with (length (frame_table s)) by lia. rewrite Nat.Div0.mod_same.
    destruct (frame_table s) as [|q l] eqn:E; [by simpl in Hl|]. exists q. split; [|done]. unfold to_hand, set_hand, modify, from, mbind, M_bind. simpl. by rewrite E.
Qed.

Lemma paging_hand (s : vm) g h : paging s g -> (forall q, h = HElem q -> q ∈ frame_table s) -> paging (to_hand h s) g.
Proof. intros [] H. by split. Qed.

Lemma evicted_after (s : vm) g d m h q s' g' : same_map (g_map g) m -> spends 0 s (set_mmu d s) -> evicted (to_hand h (set_mmu d s)) (g_set_map m g) q s' g' -> evicted s g q s' g'.
Proof.
  intros Hm Hs (f & pr & e & e' & m' & pt & H1 & H2 & (H3 & H4 & H5) & [] & H7). exists f, pr, e, e', m', pt.
  split; [exact H1|]. split; [exact H2|]. split; [split; [by eapply same_map_trans|done]|]. split; [|exact H7]. split; try done. by apply (spends_trans 0 1 s (set_mmu d s) s').
Qed.

(** How many frames the hand passes before it comes to the one at index [j]. *)
Definition distance (i j len : nat) : nat := if (i <=? j)%nat then (j - i)%nat else (j + len - i)%nat.

Lemma distance_next i j len : (i < len)%nat -> (j < len)%nat -> i <> j -> distance i j len = S (distance (S i mod len) j len).
Proof.
  intros H1 H2 H3. unfold distance. destruct (decide (S i = len)) as [E|].
  - rewrite E, Nat.Div0.mod_same. repeat case_match; rewrite ?Nat.leb_le, ?Nat.leb_gt in *; lia.
  - rewrite Nat.mod_small by lia. repeat case_match; rewrite ?Nat.leb_le, ?Nat.leb_gt in *; lia.
Qed.
Lemma distance_self i len : (i < len)%nat -> distance i i len = 0%nat /\ distance (S i mod len) i len = (len - 1)%nat.
Proof.
  intros H. unfold distance. rewrite Nat.leb_refl. split; [lia|]. destruct (decide (S i = len)) as [E|].
  - rewrite E, Nat.Div0.mod_same. simpl. lia.
  - rewrite Nat.mod_small by lia. case_match; rewrite ?Nat.leb_le, ?Nat.leb_gt in *; lia.
Qed.

Lemma evict_loop_ok fuel : forall (s : vm) g i p j p0 f0,
  inv s g -> fs_lock s = false -> clock_hand s = HElem p -> frame_table s !! i = Some p ->
  frame_table s !! j = Some p0 -> frames s !! p0 = Some f0 -> pinned f0 = false ->
  (distance i j (length (frame_table s)) + (if accessed s g f0 then length (frame_table s) else 0) < fuel)%nat ->
  (evict_loop fuel s = Fail FPanic /\ full g) \/ exists q s' g', evict_loop fuel s = Ok (tt, s') /\ evicted s g q s' g' /\ paging s' g'.
Proof.
  induction fuel as [|fuel IH]; intros s g i p j p0 f0 I Hfs Hh Hi Hj Hf0 Hpin Hfuel; [lia|]. simpl. rewrite (M_bind_Ok _ _ s (clock_hand s) s) by done. rewrite Hh.
  destruct (proj1 (pg_table _ _ (proj2 I) p)) as [f Hf]; [by eapply list_elem_of_lookup_2|].
  destruct (decide (pinned f = false /\ accessed s g f = false)) as [[H1 H2]|Hnot].
  { destruct (evict_one_evicts s g p f I Hf H1 H2 Hfs) as [[E Hfull]|(s' & g' & E & HE)].
    - left. split; [|done]. unfold mbind, M_bind. by rewrite E.
    - right. exists p, s', g'. split; [by rewrite (M_bind_Ok _ _ _ _ _ E)|done]. }
  destruct (evict_one_passes s g p f I Hf) as (d & m & E & I' & Hm & Hp & Hothers & Hsp); [destruct (pinned f), (accessed s g f); naive_solver|].
  rewrite (M_bind_Ok _ _ _ _ _ E). pose proof (pg_nodup _ _ (proj2 I)) as Hnd.
  destruct (advance_ok (set_mmu d s) i p Hnd Hi) as (q & Ea & Hq). rewrite (M_bind_Ok _ _ _ _ _ Ea). simpl in Hq.
  pose proof (lookup_lt_Some _ _ _ Hi) as Li. pose proof (lookup_lt_Some _ _ _ Hj) as Lj.
  destruct (IH (to_hand (HElem q) (set_mmu d s)) (g_set_map m g) (S i mod length (frame_table s))%nat q j p0 f0) as [[EL Hfull]|(q' & s' & g' & EL & HE & P')]; try done.
  - split; [apply I'|]. apply paging_hand; [apply I'|]. intros ? [= <-]. by eapply list_elem_of_lookup_2.
  - change (accessed (to_hand (HElem q) (set_mmu d s)) (g_set_map m g) f0) with (accessed s (g_set_map m g) f0). simpl frame_table. destruct (decide (p = p0)) as [->|Hne].
    + assert (f0 = f) as -> by congruence. assert (i = j) as -> by (eapply NoDup_lookup; done). destruct (distance_self j _ Li) as [D1 D2].
      rewrite Hpin in Hp. rewrite Hp. rewrite D1 in Hfuel. rewrite D2. destruct (accessed s g f); [lia|]. by destruct Hnot.
    + rewrite (Hothers p0 f0 Hf0) by done. assert (i <> j) by (intros ->; congruence). pose proof (distance_next i j _ Li Lj ltac:(done)). lia.
  - left. done.
  - right. exists q', s', g'. split; [done|]. split; [|done]. by eapply evicted_after.
Qed.

Lemma evict_frame_ok (s : vm) g p0 f0 :
  inv s g -> frame_lock s = true -> fs_lock s = false -> frames s !! p0 = Some f0 -> pinned f0 = false ->
  (evict_frame s = Fail FPanic /\ full g) \/ exists q s' g', evict_frame s = Ok (tt, s') /\ evicted s g q s' g' /\ paging s' g'.
Proof.
  intros I Hl Hfs Hf0 Hpin. assert (Hin : p0 ∈ frame_table s) by (apply (pg_table _ _ (proj2 I)); by eexists).
  apply list_elem_of_lookup_1 in Hin as [j Hj]. pose proof (lookup_lt_Some _ _ _ Hj) as Lj.
  set (h := match clock_hand s with HElem p => HElem p | _ => first_elem (frame_table s) end).
  assert (Hh : exists i p, h = HElem p /\ frame_table s !! i = Some p).
  { subst h. destruct (clock_hand s) as [|p|] eqn:E.
    - destruct (frame_table s) as [|x l]; [simpl in Lj; lia|]. by exists 0%nat, x.
    - apply (pg_hand _ _ (proj2 I)), list_elem_of_lookup_1 in E as [i Hi]. by exists i, p.
    - destruct (frame_table s) as [|x l]; [simpl in Lj; lia|]. by exists 0%nat, x. }
  destruct Hh as (i & p & Hh & Hi).
  assert (Ee : evict_frame s = evict_loop (S (2 * length (frame_table s))) (to_hand h s)).
  { unfold evict_frame. rewrite (M_bind_Ok _ _ s (frame_lock s) s) by done. rewrite Hl. rewrite (M_bind_Ok _ _ s tt s) by done.
    rewrite (M_bind_Ok _ _ s (frame_table s) s), (M_bind_Ok _ _ s (clock_hand s) s) by done. rewrite (M_bind_Ok _ _ s tt (to_hand h s)); [done|].
    subst h. destruct s as [? ? ? ? ? ? []]; done. }
  rewrite Ee. pose proof (lookup_lt_Some _ _ _ Hi) as Li.
  destruct (evict_loop_ok (S (2 * length (frame_table s))) (to_hand h s) g i p j p0 f0) as [H|(q & s' & g' & EL & HE & P')]; try done.
  - split; [apply I|]. apply paging_hand; [apply I|]. intros x Hx. rewrite Hh in Hx. injection Hx as <-. by eapply list_elem_of_lookup_2.
  - simpl frame_table. unfold distance. destruct (accessed _ _ _); case_match; rewrite ?Nat.leb_le, ?Nat.leb_gt in *; lia.
  - by left.
  - right. exists q, s', g'. split; [done|]. split; [|done]. apply (evicted_after s g (mmu s) (g_map g) h); [apply same_map_refl|by apply spends_refl|].
    by replace (to_hand h (set_mmu (mmu s) s)) with (to_hand h s) by (by destruct s); replace (g_set_map (g_map g) g) with g by by destruct g.
Qed.

(** ** What eviction leaves *)

(** The pages of mapped files in memory are as their files. *)
Definition clean (s : vm) (g : ghost) : Prop :=
  forall t ua pd e, spt_get s t ua = Some (pd, e) -> mmap e = true -> status e = PAGE_MEMORY ->
    (exists pt, g_map g !! (pd, ua) = Some pt /\ pte_dirty pt = false) /\ contents s g e = contents s g (set_status PAGE_LAZY e).

Lemma evicted_paging (s : vm) g m : paging s g -> same_map (g_map g) m -> paging s (g_set_map m g).
Proof. intros P Hm. pose proof (paging_same_map s g m (mmu s) P Hm) as H. by destruct s. Qed.

(** The page [ua] of [t] has left memory, for swap or, if it belongs to a mapped file, for its file. *)
Definition left_memory (s s' : vm) (t ua : Z) : Prop :=
  exists pd e e', spt_get s t ua = Some (pd, e) /\ status e = PAGE_MEMORY /\ spt_get s' t ua = Some (pd, e') /\ status e' <> PAGE_MEMORY /\
    writable e' = writable e /\ mmap e' = mmap e /\ e_file e' = e_file e /\ (status e' = PAGE_LAZY -> mmap e = true).

(** The entry of the victim changes, and no other. *)
Lemma evicted_spt (s : vm) g q s' g' t ua : paging s g -> evicted s g q s' g' -> spt_get s' t ua = spt_get s t ua \/ left_memory s s' t ua.
Proof.
  intros P (f & pr & e & e' & m & pt & [H1 _] & (Hp & He & Hst & Hfr) & _ & L & Hto). unfold left_memory. rewrite (leaves_spt s _ q f pr e' s' g' _ _ Hp L). case_decide as Hd; [|by left].
  right. injection Hd as -> ->. exists (pagedir pr), e, e'. split; [apply spt_get_some; eauto|]. split; [done|]. split; [done|].
  by destruct Hto as [[(k & -> & _) _]|[[-> _] ?]].
Qed.

(** The page is to be read from the file with inode [i]. *)
Definition from_inode (s : vm) (g : ghost) (i t ua : Z) : Prop :=
  exists pd e h pos, spt_get s t ua = Some (pd, e) /\ status e = PAGE_LAZY /\ e_file e = Some h /\ g_pos g !! h = Some (i, pos).

(** The page in the frame has been written since it was mapped. *)
Definition dirty (s : vm) (g : ghost) (f : frame) : bool :=
  match procs s !! owner f with
  | Some pr => match g_map g !! (pagedir pr, uaddr f) with Some pt => pte_dirty pt | None => false end
  | None => false
  end.

(** What all pages hold after the page with the entry [e] has left the frame [f].  If it does not belong to
    a mapped file, what they held.  If it does, it is to be read from its file [i]; had it been written, the
    first [n] of the bytes that belong to the file are now there, [n] being what the write of all of them
    answered, and of the other pages only those that are to be read from that file may change. *)
Record eviction (s : vm) (g : ghost) (f : frame) (e : spt_entry) (s' : vm) (g' : ghost) : Prop := {
  ev_private : mmap e = false -> (forall t ua, view s' g' t ua = view s g t ua) /\ g_files g' = g_files g;
  ev_mapped : mmap e = true -> exists h i pos c n page v, e_file e = Some h /\ g_pos g !! h = Some (i, pos) /\ g_files g !! i = Some c /\
    view s g (owner f) (uaddr f) = Some page /\
    (if dirty s g f then exists st, st_seek h (offset e) (store s) = Ok (tt, st) /\ st_write h (take (Z.to_nat (read_bytes e)) page) st = Ok (n, store s') else n = 0) /\
    g_files g' = <[i := overwrite c (offset e) (take (Z.to_nat n) page)]> (g_files g) /\
    (view s' g' (owner f) (uaddr f) = Some v /\ take (Z.to_nat n) v = take (Z.to_nat n) page /\
     v = take (Z.to_nat (read_bytes e)) (drop (Z.to_nat (offset e)) (overwrite c (offset e) (take (Z.to_nat n) page))) ++ replicate (Z.to_nat (zero_bytes e)) 0) /\
    forall t ua, (t, ua) <> (owner f, uaddr f) -> n = 0 \/ ~ from_inode s g i t ua -> view s' g' t ua = view s g t ua
}.

(** A prefix of what was written over a file is read back. *)
Lemma overwrite_prefix c ofs l m n : 0 <= ofs -> ofs + Z.of_nat (length l) <= Z.of_nat (length c) -> (n <= m)%nat -> (n = length l)%nat ->
  take n (take m (drop (Z.to_nat ofs) (overwrite c ofs l))) = l.
Proof.
  intros H1 H2 H3 ->. rewrite take_take, Nat.min_l by done. unfold overwrite. rewrite drop_app_length' by (rewrite length_take; lia).
  by rewrite take_app_length.
Qed.

Lemma to_file_views (s : vm) g t ua pr e p f e' s' g' : paging s g -> procs s !! t = Some pr -> s_page_table pr !! ua = Some e -> status e = PAGE_MEMORY ->
  e_frame e = Some p -> frames s !! p = Some f -> leaves s g p f pr e' s' g' -> to_file s g f (pagedir pr) e e' s' g' -> mmap e = true -> eviction s g f e s' g'.
Proof.
  intros P Hp He Hst Hfr Hf L Hto Hm. split; [congruence|]. intros _. pose proof (left_view_apart s g t ua pr e p f e' s' g' P Hp He Hst Hfr Hf L (or_intror (conj Hto Hm))) as HO.
  destruct (in_memory s g t ua pr e p f) as (Eo & Eu & _ & _ & _ & _ & [Hl _] & _); try done.
  assert (Hg : spt_get s t ua = Some (pagedir pr, e)) by (apply spt_get_some; eauto).
  destruct (pg_entry _ _ P _ _ _ _ Hg) as (_ & _ & _ & E4). destruct E4 as (h & i & pos & c & B1 & B2 & B3 & B4 & B5 & B6 & B7 & B8 & B9); [by right|].
  destruct Hto as (-> & _ & pt & A1 & Hd).
  assert (Ed : dirty s g f = pte_dirty pt) by (unfold dirty; by rewrite Eo, Hp, A1).
  assert (X : exists n pos', 0 <= n <= read_bytes e /\ g_files g' = <[i := overwrite c (offset e) (take (Z.to_nat n) (mem s (kaddr f)))]> (g_files g) /\
    g_pos g' = <[h := (i, pos')]> (g_pos g) /\
    if pte_dirty pt then exists st, st_seek h (offset e) (store s) = Ok (tt, st) /\ st_write h (take (Z.to_nat (read_bytes e)) (mem s (kaddr f))) st = Ok (n, store s') else n = 0).
  { destruct (pte_dirty pt).
    - destruct Hd as (h' & i' & pos' & c' & n & C1 & C2 & C3 & C4 & C5 & C6 & C7). simplify_eq. by exists n, (offset e + n).
    - destruct Hd as [-> ->]. exists 0, pos. rewrite take_0, overwrite_nil, !insert_id by done. split; [lia|done]. }
  destruct X as (n & pos' & Hn & Ef & Ep & Hw). set (page := mem s (kaddr f)) in *. exists h, i, pos, c, n, page. rewrite Eo, Eu, Ed. eexists.
  split; [done|]. split; [done|]. split; [done|]. split; [unfold view; rewrite Hg; unfold contents; by rewrite Hst, Hfr, Hf|]. split; [done|]. split; [done|]. split; [split; [|split; [|reflexivity]]|].
  - unfold view. rewrite (leaves_spt s g p f pr _ s' g') by (by rewrite ?Eo). rewrite Eo, Eu, decide_True by done. unfold contents. simpl.
    rewrite B1, Ep, lookup_insert_eq, Ef, lookup_insert_eq. done.
  - destruct (decide (n = 0)) as [->|]; [done|]. assert (Lt : length (take (Z.to_nat n) page) = Z.to_nat n) by (rewrite length_take; lia).
    rewrite take_app_le by (rewrite length_take, length_drop, length_overwrite; lia). apply overwrite_prefix; lia.
  - intros t2 ua2 Hne Hi. apply HO; [done|]. intros pd2 e2 H2 S2. unfold contents. rewrite S2. destruct (e_file e2) as [h2|] eqn:F2; [|done].
    rewrite Ep, Ef. destruct (decide (h2 = h)) as [->|Hh].
    + rewrite lookup_insert_eq, B2, lookup_insert_eq, B3. destruct Hi as [->|Hi]; [by rewrite take_0, overwrite_nil|]. destruct Hi. by exists pd2, e2, h, pos.
    + rewrite lookup_insert_ne by done. destruct (g_pos g !! h2) as [[i2 pos2]|] eqn:G2; [|done]. destruct (decide (i2 = i)) as [->|Hii]; [|by rewrite lookup_insert_ne].
      rewrite lookup_insert_eq, B3. destruct Hi as [->|Hi]; [by rewrite take_0, overwrite_nil|]. destruct Hi. by exists pd2, e2, h2, pos2.
Qed.

Lemma evicted_views (s : vm) g q s' g' : paging s g -> evicted s g q s' g' ->
  exists f pr e, frames s !! q = Some f /\ procs s !! owner f = Some pr /\ s_page_table pr !! uaddr f = Some e /\ eviction s g f e s' g'.
Proof.
  intros P (f & pr & e & e' & m & pt & [H1 _] & (Hp & He & Hst & Hfr) & (Hm & _) & L & Hto). exists f, pr, e. split; [done|]. split; [done|]. split; [done|].
  pose proof (evicted_paging s g m P Hm) as P'. destruct Hto as [[Hto Hmm]|[Hto Hmm]].
  - split; [intros _|congruence]. split; [|by destruct Hto as (k & _ & _ & _ & _ & ->)]. intros t ua. change (view s g t ua) with (view s (g_set_map m g) t ua).
    eapply (left_view_private s (g_set_map m g) (owner f) (uaddr f) pr e q f e'); try done. by left.
  - pose proof (to_file_views s (g_set_map m g) _ _ pr e q f e' s' g' P' Hp He Hst Hfr H1 L Hto Hmm) as [_ V]. split; [congruence|]. intros _.
    destruct (in_memory s g (owner f) (uaddr f) pr e q f) as (_ & _ & _ & _ & _ & _ & _ & (pt0 & A5 & _) & _); try done.
    assert (Ed : dirty s (g_set_map m g) f = dirty s g f).
    { unfold dirty. rewrite Hp. destruct (same_map_some _ _ _ _ Hm A5) as (pt1 & B1 & _ & _ & B2). simpl. by rewrite A5, B1. }
    rewrite Ed in V. exact (V Hmm).
Qed.

(** A slot of the swap area at most is taken. *)
Lemma evicted_swap (s : vm) g q s' g' : evicted s g q s' g' -> (size (g_swap g') <= S (size (g_swap g)))%nat.
Proof.
  intros (f & pr & e & e' & m & pt & _ & _ & _ & _ & [[(k & _ & Hn & -> & _) _]|[(_ & -> & _) _]]); simpl; [|lia]. by rewrite map_size_insert_None.
Qed.

Lemma evicted_clean (s : vm) g q s' g' : paging s g -> evicted s g q s' g' -> clean s g ->
  (forall t ua, view s' g' t ua = view s g t ua) /\ g_pos g' = g_pos g /\ g_files g' = g_files g.
Proof.
  intros P (f & pr & e & e' & m & pt & [H1 _] & (Hp & He & Hst & Hfr) & (Hm & Hpt & _) & L & Hto) HC. pose proof (evicted_paging s g m P Hm) as P'.
  destruct (in_memory s g (owner f) (uaddr f) pr e q f) as (_ & _ & _ & _ & _ & _ & _ & (pt0 & A5 & _) & _); try done.
  assert (Hg : spt_get s (owner f) (uaddr f) = Some (pagedir pr, e)) by (apply spt_get_some; eauto).
  assert (HF : g_pos g' = g_pos g /\ g_files g' = g_files g).
  { destruct Hto as [[(k & _ & _ & _ & ? & ?) _]|[(_ & _ & pt1 & B1 & B2) Hmm]]; [done|].
    destruct (HC _ _ _ _ Hg Hmm Hst) as [(pt2 & C1 & C2) _]. destruct (same_map_some _ _ _ _ Hm C1) as (pt3 & C3 & _ & _ & C4).
    simpl in B1. assert (pt1 = pt3) as -> by congruence. rewrite C4, C2 in B2. done. }
  split; [|done]. intros t ua. change (view s g t ua) with (view s (g_set_map m g) t ua). destruct (decide (mmap e = false)) as [Hmm|Hmm%not_false_is_true].
  { by eapply (left_view_private s (g_set_map m g) (owner f) (uaddr f) pr e q f e'). }
  destruct (decide ((t, ua) = (owner f, uaddr f))) as [[= -> ->]|Hne].
  - unfold view. rewrite (leaves_spt s _ q f pr e' s' g' _ _ Hp L), decide_True, Hg by done.
    change (contents s (g_set_map m g) e) with (contents s g e). destruct (HC _ _ _ _ Hg Hmm Hst) as [_ ->].
    destruct Hto as [[_ ?]|[[-> _] _]]; [congruence|]. unfold contents. simpl. destruct HF as [-> ->]. done.
  - by eapply (left_view_other s (g_set_map m g) (owner f) (uaddr f) pr e q f e').
Qed.

Lemma evicted_still_clean (s : vm) g q s' g' : paging s g -> paging s' g' -> evicted s g q s' g' -> clean s g -> clean s' g'.
Proof.
  intros P P2 HE HC t ua pd e2 G2 Hmm Hst2. pose proof (evicted_clean s g q s' g' P HE HC) as (HV & HP & HF). specialize (HV t ua).
  assert (G1 : spt_get s t ua = Some (pd, e2)). { destruct (evicted_spt s g q s' g' t ua P HE) as [E|(? & ? & e3 & _ & _ & E & Hn & _)]; congruence. }
  destruct (HC _ _ _ _ G1 Hmm Hst2) as [(pt & C1 & C2) C3]. unfold view in HV. rewrite G1, G2 in HV. split.
  - destruct (pg_entry _ _ P2 _ _ _ _ G2) as (_ & _ & HEn & _). rewrite Hst2 in HEn. destruct HEn as (_ & _ & pt2 & _ & _ & _ & _ & HEn & _).
    exists pt2. split; [done|]. destruct HE as (f & pr & e & e' & m & ptv & _ & _ & (Hm & _) & L & _). rewrite (lv_map _ _ _ _ _ _ _ _ L) in HEn.
    apply lookup_delete_Some in HEn as [_ HEn]. simpl in HEn. destruct (same_map_some _ _ _ _ Hm C1) as (pt3 & C4 & _ & _ & C5). congruence.
  - rewrite HV, C3. unfold contents. simpl. by rewrite HP, HF.
Qed.

End inv.
End VmInv.
