(* ===== verification/VmFault.v ===== *)
(** * Virtual memory: frames are handed out, page faults

    What src/vm/frame.c and src/vm/spt.c do to bring a page into memory, and the page fault handler of
    src/userprog/exception.c: over the eviction of VmInv, a page that is not in memory can be used as if
    it were. *)

From S2P Require Import Prelude Vaddr Palloc Swap FileStore AddressSpace Vm VmInv.
Import Vaddr Palloc Swap FileStore AddressSpace Vm VmInv.

Module VmFault.

Section fault.
Context {D W F : Type} `{!AddressSpaces D} `{!SwapSpace W} `{!FileStore F}.
Notation vm := (vm (D := D) (W := W) (F := F)).
Context (cap : nat) (pds : gset Z) (slots : Z).
Notation machine := (machine cap pds slots).
Notation paging := (paging pds).
Notation inv := (inv cap pds slots).
Notation full := (full slots).

(** ** Pages of the pool *)

(** While a frame is handed out, a page may leave memory; the others stay where they are. *)
Record kept (s : vm) (g : ghost) (s' : vm) (g' : ghost) : Prop := {
  kp_spt t ua : spt_get s' t ua = spt_get s t ua \/ left_memory s s' t ua;
  kp_procs t : pagedir <$> procs s' !! t = pagedir <$> procs s !! t;
  kp_frames q x : frames s' !! q = Some x -> frames s !! q = Some x;
  kp_rest : mallocs s' = mallocs s /\ next s' = next s /\ frame_lock s' = frame_lock s /\ fs_lock s' = fs_lock s;
  kp_files : files_kept g g';
  kp_map x : g_map g !! x = None -> g_map g' !! x = None;
  kp_clean : clean s g -> clean s' g' /\ (forall t ua, view s' g' t ua = view s g t ua) /\ g_pos g' = g_pos g /\ g_files g' = g_files g
}.

Lemma files_kept_trans g1 g2 g3 : files_kept g1 g2 -> files_kept g2 g3 -> files_kept g1 g3.
Proof.
  intros [A1 A2] [B1 B2]. split.
  - intros h i pos (p2 & H2)%A1. by apply B1 in H2.
  - intros i c (c2 & H2 & E2)%A2. apply B2 in H2 as (c3 & H3 & E3). exists c3. split; [done|congruence].
Qed.

Lemma pages_kept_trans s1 g1 s2 g2 s3 g3 : kept s1 g1 s2 g2 -> kept s2 g2 s3 g3 -> kept s1 g1 s3 g3.
Proof.
  intros [A1 A2 A3 (A4 & A5 & A6 & A7) A8 A10 A9] [B1 B2 B3 (B4 & B5 & B6 & B7) B8 B10 B9]. split.
  - intros t ua. destruct (B1 t ua) as [Eb|(pd & e & e' & H1 & H2 & H3 & H4)], (A1 t ua) as [Ea|(pd2 & e2 & e3 & G1 & G2 & G3 & G4)].
    + left. congruence.
    + right. exists pd2, e2, e3. by rewrite Eb.
    + right. exists pd, e, e'. by rewrite <- Ea.
    + rewrite G3 in H1. injection H1 as <- <-. by destruct G4.
  - intros t. by rewrite B2.
  - auto.
  - split_and!; congruence.
  - by eapply files_kept_trans.
  - auto.
  - intros C. destruct (A9 C) as (C2 & V2 & P2 & F2). destruct (B9 C2) as (C3 & V3 & P3 & F3). split; [done|]. split; [intros t ua; by rewrite V3|]. by rewrite P3, F3.
Qed.

Lemma evicted_kept (s : vm) g q s' g' : paging s g -> paging s' g' -> evicted cap pds slots s g q s' g' -> kept s g s' g'.
Proof.
  intros P P' HE. split.
  - intros t ua. by eapply evicted_spt.
  - intros t. destruct HE as (f & pr & e & e' & m & pt & _ & (Hp & _) & _ & L & _). rewrite (lv_procs _ _ _ _ _ _ _ _ _ _ _ L).
    destruct (decide (t = owner f)) as [->|]; [by rewrite lookup_insert_eq, Hp|by rewrite lookup_insert_ne].
  - intros x y. destruct HE as (f & pr & e & e' & m & pt & _ & _ & _ & L & _). rewrite (lv_frames _ _ _ _ _ _ _ _ _ _ _ L). by intros [_ ?]%lookup_delete_Some.
  - destruct HE as (f & pr & e & e' & m & pt & _ & _ & _ & L & _). apply L.
  - destruct HE as (f & pr & e & e' & m & pt & [Hf _] & (Hp & He & Hst & Hfr) & (Hm & _) & L & Hto).
    change (files_kept (g_set_map m g) g'). eapply (left_kept _ s (g_set_map m g) (owner f) (uaddr f) pr e); try done. by apply evicted_paging.
  - intros x Hx. destruct HE as (f & pr & e & e' & m & pt & _ & _ & (Hm & _) & L & _). rewrite (lv_map _ _ _ _ _ _ _ _ _ _ _ L).
    apply lookup_delete_None. right. by eapply same_map_none.
  - intros HC. split; [by apply (evicted_still_clean cap pds slots s g q)|]. by apply (evicted_clean cap pds slots s g q).
Qed.

(** A page that is not in use may be filled with anything. *)
Lemma paging_fill (s : vm) g k v : paging s g -> is_page v -> paging (set_page k v s) g.
Proof. intros [] Hv. split; try done. intros k'. simpl. by case_match. Qed.

Lemma contents_fill (s : vm) g k v t ua pd e : paging s g -> k ∉ g_us g -> spt_get s t ua = Some (pd, e) -> contents (set_page k v s) g e = contents s g e.
Proof.
  intros P Hk G. unfold contents. destruct (pg_entry _ _ _ P _ _ _ _ G) as (_ & _ & HE & _). destruct (status e); try done.
  destruct HE as (p & f & pt & -> & A2 & _). simpl. rewrite A2. destruct (Z.eqb_spec (kaddr f) k) as [E|]; [|done].
  destruct (pg_frame _ _ _ P p f A2) as [Hu _]. congruence.
Qed.

Lemma kept_fill (s : vm) g k v : paging s g -> k ∉ g_us g -> kept s g (set_page k v s) g.
Proof.
  intros P Hk. split; try done; [by left|by apply files_kept_refl|]. intros HC. split; [|split; [|done]].
  - intros t ua pd e G Hm Hs. destruct (HC t ua pd e G Hm Hs) as [H1 H2]. split; [done|]. rewrite (contents_fill s g k v t ua pd e) by done. rewrite H2. done.
  - intros t ua. unfold view. change (spt_get (set_page k v s) t ua) with (spt_get s t ua). destruct (spt_get s t ua) as [[pd e]|] eqn:G; [|done]. by eapply contents_fill.
Qed.

Lemma kept_mmu (s : vm) g d : kept s g (set_mmu d s) g.
Proof. split; try done; [by left|by apply files_kept_refl]. Qed.
Lemma paging_mmu (s : vm) g d : paging s g -> paging (set_mmu d s) g.
Proof. by intros []. Qed.

Definition flags_ok (flags : Z) : Prop := has flags PAL_USER = true /\ has flags PAL_ASSERT = false.

(** [k] has been taken from the pool, and belongs to no frame yet. *)
Record taken (flags k : Z) (s : vm) (g : ghost) : Prop := {
  tk_null : k <> 0;
  tk_unused : k ∉ g_us g;
  tk_paging : paging s g;
  tk_machine : machine s (MkGhost ({[ k ]} ∪ g_us g) (g_map g) (g_swap g) (g_pos g) (g_files g));
  tk_zero : has flags PAL_ZERO = true -> mem s k = zero_page
}.

Lemma palloc_get_page_ok (s : vm) g flags : inv s g -> flags_ok flags ->
  (exists d, palloc_get_page flags s = Ok (0, set_mmu d s) /\ inv (set_mmu d s) g /\ size (g_us g) = cap /\ spends 0 s (set_mmu d s)) \/
  (exists k s', palloc_get_page flags s = Ok (k, s') /\ taken flags k s' g /\ kept s g s' g /\ spends 0 s s').
Proof.
  intros [(MA & MS & MF) P] [H1 H2]. unfold palloc_get_page.
  assert (HS : forall r d, as_get flags (mmu s) = Ok (r, d) -> spends 0 s (set_mmu d s)) by (intros r d E; apply spends_mmu; [|done]; intros n Hn; exact (as_get_room _ _ _ _ _ H1 H2 Hn E)).
  destruct (as_get_ok _ _ _ _ _ flags MA H1 H2) as [(d & E & MA' & Hc)|(k & d & E & Hk0 & Hk & MA')].
  - left. exists d. rewrite (M_bind_Ok _ _ _ _ _ (on_mmu_ok _ s _ _ E)). split; [done|]. split; [split; [done|by apply paging_mmu]|]. split; [done|by eapply HS].
  - right. exists k. rewrite (M_bind_Ok _ _ _ _ _ (on_mmu_ok _ s _ _ E)). rewrite (proj2 (Z.eqb_neq _ _)) by done. simpl.
    destruct (has flags PAL_ZERO) eqn:Hz; (eexists; split; [reflexivity|]).
    + split; [split; try done; [by apply paging_fill, zero_page_ok; apply paging_mmu|]|split].
      * simpl. by rewrite Z.eqb_refl.
      * eapply pages_kept_trans; [apply kept_mmu|]. apply kept_fill; [by apply paging_mmu|done].
      * by eapply HS.
    + split; [split; try done; [by apply paging_mmu|congruence]|]. split; [apply kept_mmu|by eapply HS].
Qed.

(** A frame can be evicted when none is free. *)
Definition evictable (s : vm) (g : ghost) : Prop := size (g_us g) = cap -> exists p f, frames s !! p = Some f /\ pinned f = false.

(** After an eviction there is a page: the message of a synchronization error is never printed. *)
Lemma take_page_ok (s : vm) g flags : inv s g -> frame_lock s = true -> fs_lock s = false -> evictable s g -> flags_ok flags ->
  exists k0 s0, palloc_get_page flags s = Ok (k0, s0) /\
    let second := if k0 =? 0 then do* evict_frame ; palloc_get_page flags else mret k0 in
    (second s0 = Fail FPanic /\ full g) \/ exists k s' g', second s0 = Ok (k, s') /\ taken flags k s' g' /\ kept s g s' g' /\ spends 1 s s' /\
      (size (g_swap g') <= S (size (g_swap g)))%nat.
Proof.
  intros I Hl Hfs He Hfl. destruct (palloc_get_page_ok s g flags I Hfl) as [(d & E & I1 & Hc & S0)|(k & s' & E & T & K & S0)].
  2:{ exists k, s'. split; [done|]. rewrite (proj2 (Z.eqb_neq _ _)) by apply T. right. exists k, s', g. split_and!; try done; [|lia]. apply (spends_trans 0 1 s s' s'); [done|by apply spends_refl]. }
  exists 0, (set_mmu d s). split; [done|]. rewrite Z.eqb_refl. cbv zeta. destruct (He Hc) as (p0 & f0 & Hf0 & Hp0).
  destruct (evict_frame_ok cap pds slots (set_mmu d s) g p0 f0 I1 Hl Hfs Hf0 Hp0) as [[E1 Hfull]|(q & s1 & g1 & E1 & HE & P1)].
  { left. split; [|done]. unfold mbind, M_bind. by rewrite E1. }
  right. rewrite (M_bind_Ok _ _ _ _ _ E1). assert (K1 := evicted_kept _ _ _ _ _ (proj2 I1) P1 HE).
  pose proof HE as (f & pr & e & e' & m & pt & [Hf _] & _ & _ & L & _). pose proof (lv_machine _ _ _ _ _ _ _ _ _ _ _ L) as M1.
  destruct (palloc_get_page_ok s1 g1 flags (conj M1 P1) Hfl) as [(d2 & _ & _ & Hc2 & _)|(k & s2 & E2 & T2 & K2 & S2)].
  - exfalso. rewrite (lv_us _ _ _ _ _ _ _ _ _ _ _ L) in Hc2. simpl in Hc2. destruct (pg_frame _ _ _ (proj2 I1) q f Hf) as [Hk _].
    rewrite size_difference, size_singleton in Hc2 by set_solver. assert (size (g_us g) <> 0%nat) by (apply size_non_empty_iff; set_solver). lia.
  - exists k, s2, g1. split; [done|]. split; [done|]. split; [eapply pages_kept_trans; [apply kept_mmu|]; by eapply pages_kept_trans|].
    split; [|by eapply evicted_swap]. apply (spends_trans 0 1 s (set_mmu d s) s2); [done|]. apply (spends_trans 1 0 _ s1 s2); [apply L|done].
Qed.

(** ** A new frame *)

Definition add_frame (p k ua cur : Z) (s : vm) : vm :=
  set_frames (<[p := MkFrame k ua cur true]> (frames s)) (frame_table s ++ [p]) (clock_hand s) s.
Definition add_page (k : Z) (g : ghost) : ghost := MkGhost ({[ k ]} ∪ g_us g) (g_map g) (g_swap g) (g_pos g) (g_files g).

Lemma contents_add (s : vm) g p k ua cur t ua' pd e : paging s g -> frames s !! p = None -> spt_get s t ua' = Some (pd, e) ->
  contents (add_frame p k ua cur s) (add_page k g) e = contents s g e.
Proof.
  intros P Hp G. unfold contents. destruct (pg_entry _ _ _ P _ _ _ _ G) as (_ & _ & HE & _). destruct (status e); try done.
  destruct HE as (q & f & pt & -> & A2 & _). simpl. rewrite lookup_insert_ne by congruence. done.
Qed.

Lemma add_frame_paging flags (s : vm) g p k ua cur : taken flags k s g -> frames s !! p = None -> p < next s -> paging (add_frame p k ua cur s) (add_page k g).
Proof.
  intros [_ Hk P _ _] Hp Hn. destruct P as [P1 P2 P3 P4 P5 P6 P7 P8 P9 P10 P11 P12]. split; try done; simpl.
  - intros t ua' pd e G. destruct (P3 _ _ _ _ G) as (E1 & E2 & E3 & E4). split; [done|]. split; [done|]. split; [|done]. destruct (status e); try done.
    destruct E3 as (q & f & pt & A1 & A2 & A). exists q, f, pt. split; [done|]. split; [|done]. simpl. rewrite lookup_insert_ne by congruence. done.
  - intros q x [[<- <-]|[Hne H]]%lookup_insert_Some; [split; [set_solver|done]|]. destruct (P5 q x H). split; [set_solver|done].
  - intros q x q' x' [[<- <-]|[Hne H]]%lookup_insert_Some [[<- <-]|[Hne' H']]%lookup_insert_Some E; simpl in *; [done| | |by eapply P6].
    + destruct (P5 _ _ H'). congruence.
    + destruct (P5 _ _ H). congruence.
  - intros k' Hk'. apply elem_of_union in Hk' as [E%elem_of_singleton|H]; [subst k'; exists p, (MkFrame k ua cur true); by rewrite lookup_insert_eq|].
    destruct (P7 k' H) as (q & x & H1 & H2). exists q, x. rewrite lookup_insert_ne by congruence. done.
  - intros q. rewrite elem_of_app, list_elem_of_singleton, P9. destruct (decide (q = p)) as [->|]; [rewrite lookup_insert_eq; split; [by eexists|by right]|].
    rewrite lookup_insert_ne by done. naive_solver.
  - apply NoDup_app. split; [done|]. split; [|apply NoDup_singleton]. intros q Hq E%list_elem_of_singleton. subst q. apply P9 in Hq as [? ?]. congruence.
  - intros q [H|E%list_elem_of_singleton]%elem_of_app; [by apply P11|by subst q].
  - intros q Hq. apply elem_of_app. left. by apply P12.
Qed.

(** A frame for the page [ua] of the process [cur] has been allocated, pinned. *)
Record allocated (s : vm) (g : ghost) (cur ua flags p k : Z) (s' : vm) (g' : ghost) : Prop := {
  al_inv : inv s' g';
  al_frame : frames s' !! p = Some (MkFrame k ua cur true);
  al_others q x : q <> p -> frames s' !! q = Some x -> frames s !! q = Some x;
  al_unused t ua' pd e : spt_get s' t ua' = Some (pd, e) -> e_frame e <> Some p;
  al_zero : has flags PAL_ZERO = true -> mem s' k = zero_page;
  al_spt t ua' : spt_get s' t ua' = spt_get s t ua' \/ left_memory s s' t ua';
  al_procs t : pagedir <$> procs s' !! t = pagedir <$> procs s !! t;
  al_rest : mallocs s' = tail (mallocs s) /\ frame_lock s' = frame_lock s /\ fs_lock s' = fs_lock s;
  al_files : files_kept g g';
  al_spends : spends 1 s s';
  al_swap : (size (g_swap g') <= S (size (g_swap g)))%nat;
  al_map x : g_map g !! x = None -> g_map g' !! x = None;
  al_clean : clean s g -> clean s' g' /\ (forall t ua, view s' g' t ua = view s g t ua) /\ g_pos g' = g_pos g /\ g_files g' = g_files g
}.

Lemma lock_ok (s : vm) : frame_lock_if_needed s = Ok (frame_lock s, set_locks true (fs_lock s) s).
Proof. unfold frame_lock_if_needed, mbind, M_bind, gets, skip, modify, mret, M_ret. destruct s as [? ? ? ? ? ? ? ? []]; done. Qed.
Lemma unlock_ok (s : vm) b : frame_lock s = true -> frame_release_lock_if_needed b s = Ok (tt, set_locks b (fs_lock s) s).
Proof.
  intros H. unfold frame_release_lock_if_needed, mbind, M_bind, gets, skip, modify, mret, M_ret, ASSERT.
  destruct s as [? ? ? ? ? ? ? ? fl]. simpl in H. subst fl. by destruct b.
Qed.
Lemma inv_locks (s : vm) g a b : inv s g -> inv (set_locks a b s) g.
Proof. intros [H []]. by split. Qed.

(** Memory has been allocated; nothing in the tables changes. *)
Lemma inv_mallocs (s : vm) g r n : inv s g -> next s <= n -> inv (set_mallocs r n s) g.
Proof.
  intros [H P] Hn. split; [done|]. pose proof (pg_fresh _ _ _ P) as Hf. destruct P. split; try done. simpl. intros p Hp. specialize (Hf p Hp). lia.
Qed.

Lemma entry_malloc_ok (s : vm) : (exists r, malloc s = Ok (None, set_mallocs r (next s) s) /\ head (mallocs s) <> Some true /\ r = tail (mallocs s)) \/
  malloc s = Ok (Some (next s), set_mallocs (tail (mallocs s)) (next s + 1) s).
Proof.
  unfold malloc. destruct (mallocs s) as [|[|] r] eqn:E; [left|by right|left].
  - exists []. split; [|done]. destruct s. simpl in *. by subst.
  - by exists r.
Qed.

Lemma frame_alloc_ok (s : vm) g cur ua flags : inv s g -> fs_lock s = false -> evictable s g -> flags_ok flags ->
  (frame_alloc cur ua flags s = Ok (None, set_mallocs (tail (mallocs s)) (next s) s) /\ head (mallocs s) <> Some true) \/
  (frame_alloc cur ua flags s = Fail FPanic /\ full g) \/
  exists p k s' g', frame_alloc cur ua flags s = Ok (Some p, s') /\ allocated s g cur ua flags p k s' g'.
Proof.
  intros I Hfs Hev Hfl. unfold frame_alloc. rewrite (M_bind_Ok _ _ _ _ _ (lock_ok s)). set (s0 := set_locks true (fs_lock s) s).
  destruct (entry_malloc_ok s0) as [(r & E & Hh & ->)|E]; rewrite (M_bind_Ok _ _ _ _ _ E).
  { left. split; [|done]. rewrite (M_bind_Ok _ _ _ _ _ (unlock_ok (set_mallocs (tail (mallocs s0)) (next s0) s0) (frame_lock s) eq_refl)). by destruct s. }
  right. set (s1 := set_mallocs _ _ s0). assert (I1 : inv s1 g) by (apply inv_mallocs; [by apply inv_locks|simpl; lia]).
  destruct (take_page_ok s1 g flags I1 eq_refl Hfs Hev Hfl) as (k0 & s2 & E1 & [[E2 Hfull]|(k & s3 & g3 & E2 & T & K & SP & SW)]); rewrite (M_bind_Ok _ _ _ _ _ E1).
  { left. split; [|done]. unfold mbind at 1, M_bind at 1. by rewrite E2. }
  right. rewrite (M_bind_Ok _ _ _ _ _ E2). rewrite (proj2 (Z.eqb_neq _ _)) by apply T. rewrite M_bind_modify.
  set (p := next s0). fold (add_frame p k ua cur s3). destruct (kp_rest _ _ _ _ K) as (R1 & R2 & R3 & R4).
  assert (Hfresh : forall q x, frames s3 !! q = Some x -> q <> p).
  { intros q x Hq ->. apply (kp_frames _ _ _ _ K) in Hq. assert (p ∈ frame_table s) as Hin by (apply (pg_table _ _ _ (proj2 I)); by eexists).
    apply (pg_fresh _ _ _ (proj2 I)) in Hin. subst p s0. simpl in Hin. lia. }
  assert (Hp : frames s3 !! p = None). { destruct (frames s3 !! p) as [x|] eqn:Ex; [|done]. by destruct (Hfresh _ _ Ex). }
  assert (P3 := tk_paging _ _ _ _ T). assert (P4 : paging (add_frame p k ua cur s3) (add_page k g3)).
  { eapply add_frame_paging; [exact T|done|]. rewrite R2. subst p s0 s1. simpl. lia. }
  rewrite (M_bind_Ok _ _ _ _ _ (unlock_ok (add_frame p k ua cur s3) _ R3)). exists p, k. eexists _, (add_page k g3). split; [reflexivity|].
  assert (I4 : inv (add_frame p k ua cur s3) (add_page k g3)) by (split; [apply T|done]). split; try done.
  - by apply inv_locks.
  - apply lookup_insert_eq.
  - intros q x Hq. simpl. rewrite lookup_insert_ne by done. intros H. by apply (kp_frames _ _ _ _ K) in H.
  - intros t ua' pd e G Hf. destruct (pg_entry _ _ _ P3 t ua' pd e G) as (_ & _ & HE & _). rewrite Hf in HE. destruct (status e); [|by destruct HE..].
    destruct HE as (q & f & pt & [= <-] & H2 & _). congruence.
  - intros Hz. simpl. by apply T.
  - apply K.
  - apply K.
  - apply K.
  - apply K.
  - intros HC. destruct (kp_clean _ _ _ _ K HC) as (C3 & V3 & Hrest). split; [|split; [|done]].
    + intros t ua' pd e G Hm Hs. destruct (C3 t ua' pd e G Hm Hs) as [H1 H2]. split; [done|].
      change (contents (add_frame p k ua cur s3) (add_page k g3) e = contents s3 g3 (set_status PAGE_LAZY e)). by rewrite (contents_add s3 g3 p k ua cur t ua' pd e).
    + intros t ua'. change (view s g t ua') with (view s1 g t ua'). rewrite <- (V3 t ua'). unfold view.
      change (spt_get (set_locks _ _ _) t ua') with (spt_get s3 t ua').
      destruct (spt_get s3 t ua') as [[pd e]|] eqn:G; [|done]. by apply (contents_add s3 g3 p k ua cur t ua' pd e).
Qed.

(** ** A page enters memory *)

(** The page of the frame [f] at [p] now holds [v] and is mapped, with [e'] for its entry; a swap slot it
    may have had is free. *)
Record enters (s : vm) (g : ghost) (p : Z) (f : frame) (pr : proc) (e' : spt_entry) (v : list Z) (s' : vm) (g' : ghost) : Prop := {
  en_procs : procs s' = <[owner f := MkProc (pagedir pr) (<[uaddr f := e']> (s_page_table pr))]> (procs s);
  en_frames : frames s' = <[p := set_pinned false f]> (frames s);
  en_table : frame_table s' = frame_table s /\ clock_hand s' = clock_hand s /\ next s <= next s';
  en_mem a : mem s' a = if a =? kaddr f then v else mem s a;
  en_us : g_us g' = g_us g;
  en_map : g_map g' = <[(pagedir pr, uaddr f) := MkPte (kaddr f) (writable e') false false]> (g_map g);
  en_swap k : (forall e, s_page_table pr !! uaddr f = Some e -> status e = PAGE_SWAP -> k <> swap_index e) -> g_swap g' !! k = g_swap g !! k;
  en_files : files_kept g g'
}.

Section enter.
Context (s : vm) (g : ghost) (p : Z) (f : frame) (pr : proc) (e' : spt_entry) (v : list Z) (s' : vm) (g' : ghost).
Hypothesis P : paging s g.
Hypothesis Hf : frames s !! p = Some f.
Hypothesis Hp : procs s !! owner f = Some pr.
Hypothesis Hold : forall e, s_page_table pr !! uaddr f = Some e -> status e <> PAGE_MEMORY.
Hypothesis Hunused : forall t ua pd e, spt_get s t ua = Some (pd, e) -> e_frame e <> Some p.
Hypothesis Hu : user_page (uaddr f).
Hypothesis He' : e_uaddr e' = uaddr f /\ status e' = PAGE_MEMORY /\ e_frame e' = Some p /\ (mmap e' = true -> backed g' e').
Hypothesis Hv : is_page v.
Hypothesis E : enters s g p f pr e' v s' g'.

Lemma enters_spt t ua : spt_get s' t ua = if decide ((t, ua) = (owner f, uaddr f)) then Some (pagedir pr, e') else spt_get s t ua.
Proof.
  unfold spt_get. rewrite (en_procs _ _ _ _ _ _ _ _ _ E). destruct (decide (t = owner f)) as [->|Ht].
  - rewrite lookup_insert_eq, Hp. simpl. destruct (decide (ua = uaddr f)) as [->|Hne].
    + rewrite lookup_insert_eq, decide_True by done. done.
    + rewrite lookup_insert_ne, decide_False by congruence. done.
  - rewrite lookup_insert_ne, decide_False by congruence. done.
Qed.

Lemma enters_frame q x : frames s' !! q = Some x <-> (q = p /\ x = set_pinned false f) \/ (q <> p /\ frames s !! q = Some x).
Proof.
  rewrite (en_frames _ _ _ _ _ _ _ _ _ E), lookup_insert_Some. split; [intros [[<- <-]|[? ?]]; auto|intros [[-> ->]|[? ?]]; auto].
Qed.

(** The slot of a page that is in swap and is not the one that enters. *)
Lemma enters_slot t ua pd e : spt_get s t ua = Some (pd, e) -> (t, ua) <> (owner f, uaddr f) -> status e = PAGE_SWAP -> g_swap g' !! swap_index e = g_swap g !! swap_index e.
Proof.
  intros G Hne Hs. apply (en_swap _ _ _ _ _ _ _ _ _ E). intros e2 H2 S2 Ei. apply Hne.
  destruct (pg_slots _ _ _ P t ua pd e (owner f) (uaddr f) (pagedir pr) e2) as [-> ->]; try done. apply spt_get_some. eauto.
Qed.

Lemma enters_entry_ok t ua pd e : spt_get s' t ua = Some (pd, e) -> entry_ok s' g' t pd ua e.
Proof.
  rewrite enters_spt. case_decide as Hd.
  - injection Hd as -> ->. intros [= <- <-]. destruct He' as (H1 & H2 & H3 & H4). split; [done|]. split; [done|]. rewrite H2. split; [|intros [|]; [done|auto]].
    eexists p, (set_pinned false f), _. split_and!; try done; [apply enters_frame; by left|rewrite (en_map _ _ _ _ _ _ _ _ _ E); apply lookup_insert_eq|done|done].
  - intros G. destruct (pg_entry _ _ _ P t ua pd e G) as (E1 & E2 & E3 & E4). split; [done|]. split; [done|]. split.
    2:{ intros Hc. eapply backed_kept; [apply E|by apply E4]. }
    assert (Hm : g_map g' !! (pd, ua) = g_map g !! (pd, ua)).
    { rewrite (en_map _ _ _ _ _ _ _ _ _ E), lookup_insert_ne; [done|]. intros [= H1 H2]. apply Hd. rewrite <- H2. f_equal.
      apply spt_get_some in G as (pr2 & G1 & _ & G3). eapply (pg_dirs _ _ _ P); [exact G1|exact Hp|congruence]. }
    rewrite Hm. destruct (status e) eqn:Hs.
    + destruct E3 as (q & x & pt & A1 & A2 & A3). exists q, x, pt. split; [done|]. split; [|done]. apply enters_frame. right. split; [|done]. intros ->. by eapply Hunused.
    + done.
    + destruct E3 as (A1 & A2 & A3 & A4). split_and!; try done. by rewrite (enters_slot t ua pd e).
Qed.

Lemma enters_paging : paging s' g'.
Proof.
  assert (Hprocs : forall t2 pr2, procs s' !! t2 = Some pr2 -> exists pr3, procs s !! t2 = Some pr3 /\ pagedir pr3 = pagedir pr2).
  { intros t2 pr2. rewrite (en_procs _ _ _ _ _ _ _ _ _ E). intros [[<- <-]|[_ H]]%lookup_insert_Some; eauto. }
  destruct (en_table _ _ _ _ _ _ _ _ _ E) as (T1 & T2 & T3). destruct He' as (H1 & H2 & H3 & _). split.
  - intros t2 pr2 (pr3 & G1 & <-)%Hprocs. by apply (pg_dir _ _ _ P t2).
  - intros t2 pr2 t3 pr3 (pr4 & G1 & <-)%Hprocs (pr5 & G2 & <-)%Hprocs. by apply (pg_dirs _ _ _ P).
  - apply enters_entry_ok.
  - intros t1 ua1 pd1 e1 t2 ua2 pd2 e2. rewrite !enters_spt. do 2 case_decide; intros G1 G2 S1 S2 Ei; simplify_eq; try congruence. by apply (pg_slots _ _ _ P _ _ _ _ _ _ _ _ G1 G2).
  - intros q x [[-> ->]|[Hne Hq]]%enters_frame; rewrite (en_us _ _ _ _ _ _ _ _ _ E).
    + split; [apply (pg_frame _ _ _ P p f Hf)|]. intros _. exists (pagedir pr), e'. rewrite enters_spt, decide_True by done. done.
    + destruct (pg_frame _ _ _ P q x Hq) as [A1 A2]. split; [done|]. intros Hpin. destruct (A2 Hpin) as (pd & e & G1 & G2 & G3). exists pd, e. split; [|done].
      rewrite enters_spt, decide_False; [done|]. intros [= B1 B2]. rewrite B1, B2 in G1. apply spt_get_some in G1 as (pr2 & C1 & C2 & _).
      assert (pr2 = pr) as -> by congruence. by eapply Hold.
  - intros q x q' x' [[-> ->]|[_ Hq]]%enters_frame [[-> ->]|[_ Hq']]%enters_frame Ek; simpl in Ek; [done|by apply (pg_kaddr _ _ _ P p f q' x')|by apply (pg_kaddr _ _ _ P q x p f)|by apply (pg_kaddr _ _ _ P q x q' x')].
  - intros k. rewrite (en_us _ _ _ _ _ _ _ _ _ E). intros (q & x & Hq & <-)%(pg_used _ _ _ P). destruct (decide (q = p)) as [->|].
    + exists p, (set_pinned false f). split; [apply enters_frame; by left|]. simpl. congruence.
    + exists q, x. split; [apply enters_frame; by right|done].
  - intros k. rewrite (en_mem _ _ _ _ _ _ _ _ _ E). case_match; [done|apply P].
  - intros q. rewrite T1, (pg_table _ _ _ P). rewrite (en_frames _ _ _ _ _ _ _ _ _ E). destruct (decide (q = p)) as [->|]; [rewrite lookup_insert_eq, Hf|by rewrite lookup_insert_ne].
    split; by eexists.
  - rewrite T1. apply P.
  - intros q. rewrite T1. intros Hq. pose proof (pg_fresh _ _ _ P q Hq). lia.
  - intros q. rewrite T1, T2. apply P.
Qed.

(** The inodes behind the handles and the contents of the files are the same. *)
Definition same_files (g g' : ghost) : Prop := (forall h, fst <$> g_pos g' !! h = fst <$> g_pos g !! h) /\ g_files g' = g_files g.

Lemma contents_lazy (s1 s2 : vm) g1 g2 e : same_files g1 g2 -> status e = PAGE_LAZY -> contents s2 g2 e = contents s1 g1 e.
Proof.
  intros [H1 H2] Hs. unfold contents. rewrite Hs, H2. destruct (e_file e) as [h|]; [|done]. specialize (H1 h).
  destruct (g_pos g2 !! h) as [[]|], (g_pos g1 !! h) as [[]|]; simpl in H1; simplify_eq; done.
Qed.

Lemma enters_contents t ua pd e : same_files g g' -> spt_get s t ua = Some (pd, e) -> (t, ua) <> (owner f, uaddr f) -> contents s' g' e = contents s g e.
Proof.
  intros HF G Hne. destruct (pg_entry _ _ _ P t ua pd e G) as (_ & _ & HE & _). destruct (status e) eqn:Hs.
  - destruct HE as (q & x & pt & A1 & A2 & _). unfold contents. rewrite Hs, A1, A2. assert (q <> p) as Hq by (intros ->; by eapply Hunused).
    rewrite (proj2 (enters_frame q x)) by (by right). rewrite (en_mem _ _ _ _ _ _ _ _ _ E). destruct (Z.eqb_spec (kaddr x) (kaddr f)) as [Ek|]; [|done].
    by destruct (pg_kaddr _ _ _ P _ _ _ _ A2 Hf Ek).
  - by apply contents_lazy.
  - unfold contents. rewrite Hs. by eapply enters_slot.
Qed.

Lemma enters_view t ua : same_files g g' -> view s' g' t ua = if decide ((t, ua) = (owner f, uaddr f)) then Some v else view s g t ua.
Proof.
  intros HF. unfold view. rewrite enters_spt. case_decide as Hd.
  - destruct He' as (_ & H2 & H3 & _). unfold contents. rewrite H2, H3, (proj2 (enters_frame p (set_pinned false f))) by (by left).
    rewrite (en_mem _ _ _ _ _ _ _ _ _ E). simpl. by rewrite Z.eqb_refl.
  - destruct (spt_get s t ua) as [[pd e]|] eqn:G; [|done]. by eapply enters_contents.
Qed.

Lemma enters_clean : same_files g g' -> clean s g -> (mmap e' = true -> contents s' g' (set_status PAGE_LAZY e') = Some v) -> clean s' g'.
Proof.
  intros HF HC Hmm t ua pd e. rewrite enters_spt. case_decide as Hd.
  - injection Hd as -> ->. intros [= <- <-] Hm _. split; [eexists; split; [rewrite (en_map _ _ _ _ _ _ _ _ _ E); apply lookup_insert_eq|done]|].
    rewrite (Hmm Hm). pose proof (enters_view (owner f) (uaddr f) HF) as HV. unfold view in HV. by rewrite enters_spt, !decide_True in HV.
  - intros G Hm Hs. destruct (HC t ua pd e G Hm Hs) as [(pt & H1 & H2) H3]. split.
    + exists pt. rewrite (en_map _ _ _ _ _ _ _ _ _ E), lookup_insert_ne; [done|]. intros [= B1 B2]. apply Hd. rewrite <- B2. f_equal.
      apply spt_get_some in G as (pr2 & G1 & _ & G3). eapply (pg_dirs _ _ _ P); [exact G1|exact Hp|congruence].
    + rewrite (enters_contents t ua pd e), H3 by done. symmetry. by apply contents_lazy.
Qed.

End enter.

(** ** A frame that was not used is given back *)

Lemma frame_free_unused (s : vm) g p f : inv s g -> frames s !! p = Some f -> (forall t ua pd e, spt_get s t ua = Some (pd, e) -> e_frame e <> Some p) ->
  exists s', frame_free p s = Ok (tt, s') /\ inv s' (MkGhost (g_us g ∖ {[ kaddr f ]}) (g_map g) (g_swap g) (g_pos g) (g_files g)) /\ procs s' = procs s /\
    frames s' = delete p (frames s) /\ (forall a, a <> kaddr f -> mem s' a = mem s a) /\ frame_lock s' = frame_lock s /\ fs_lock s' = fs_lock s.
Proof.
  intros [(MA & MS & MF) P] Hf Hun. destruct (pg_frame _ _ _ P p f Hf) as [Hk _]. destruct (elem_after_ok p (frame_table s)) as [nx Hn]; [apply (pg_table _ _ _ P); by eexists|].
  destruct (frame_free_ok cap pds s _ _ p f nx MA Hf Hk Hn) as (d & MA' & _ & E). eexists. split; [exact E|].
  split; [|split_and!; try done; intros a Ha; simpl; by rewrite (proj2 (Z.eqb_neq _ _))]. split; [done|].
  assert (Hfr : forall q x, delete p (frames s) !! q = Some x <-> frames s !! q = Some x /\ q <> p) by (intros q x; rewrite lookup_delete_Some; naive_solver).
  assert (Hh := fun q => hand_kept pds s g p nx q P Hn). destruct P as [P1 P2 P3 P4 P5 P6 P7 P8 P9 P10 P11 P12]. split; try done; simpl.
  - intros t ua pd e G. destruct (P3 _ _ _ _ G) as (E1 & E2 & E3 & E4). split; [done|]. split; [done|]. split; [|done]. destruct (status e); try done.
    destruct E3 as (q & x & pt & A1 & A2 & A). exists q, x, pt. split; [done|]. split; [|done]. simpl. apply Hfr. split; [done|]. intros ->. by eapply Hun.
  - intros q x [H1 H2]%Hfr. destruct (P5 q x H1) as [A1 A2]. split; [|done]. apply elem_of_difference. split; [done|]. intros Ek%elem_of_singleton. apply H2. by eapply P6.
  - intros q x q' x' [H1 _]%Hfr [H2 _]%Hfr. by apply P6.
  - intros k [H1 H2]%elem_of_difference. destruct (P7 k H1) as (q & x & A1 & A2). exists q, x. split; [|done]. apply Hfr. split; [done|]. intros ->. assert (x = f) by congruence. set_solver.
  - intros k. destruct (k =? kaddr f); [apply freed_page_ok|done].
  - intros q. rewrite list_elem_of_filter, P9. destruct (decide (q = p)) as [->|]; [rewrite lookup_delete_eq; split; [by intros []|by intros []]|rewrite lookup_delete_ne by done; tauto].
  - by apply NoDup_filter.
  - intros q [_ H]%list_elem_of_filter. by apply P11.
Qed.

(** What [frame_free] needs to run. *)
Lemma frame_free_runs (s : vm) (s0 : vm) g m p f : as_inv (mmu s) cap (g_us g) pds m -> paging s0 g -> frames s0 !! p = Some f -> frames s = frames s0 -> frame_table s = frame_table s0 ->
  exists s', frame_free p s = Ok (tt, s') /\ procs s' = procs s /\ frames s' = delete p (frames s) /\ (forall a, a <> kaddr f -> mem s' a = mem s a) /\
    as_inv (mmu s') cap (g_us g ∖ {[ kaddr f ]}) pds m /\ swp s' = swp s /\ store s' = store s.
Proof.
  intros MA P Hf Ef Et. destruct (pg_frame _ _ _ P p f Hf) as [Hk _]. destruct (elem_after_ok p (frame_table s)) as [nx Hn]; [rewrite Et; apply (pg_table _ _ _ P); by eexists|].
  rewrite <- Ef in Hf. destruct (frame_free_ok cap pds s _ _ p f nx MA Hf Hk Hn) as (d & MA' & _ & E). eexists. split; [exact E|]. split_and!; try done.
  intros a Ha. simpl. by rewrite (proj2 (Z.eqb_neq _ _)).
Qed.

(** ** Faults *)

(** The page [ua] of [cur] is in memory, and no frame has become pinned. *)
Record resumed (s : vm) (g : ghost) (cur ua : Z) (s' : vm) (g' : ghost) : Prop := {
  rs_inv : inv s' g';
  rs_clean : clean s' g';
  rs_entry : exists pd e pt, spt_get s' cur ua = Some (pd, e) /\ status e = PAGE_MEMORY /\ g_map g' !! (pd, ua) = Some pt;
  rs_frames q x : frames s' !! q = Some x -> pinned x = true -> frames s !! q = Some x;
  rs_locks : frame_lock s' = frame_lock s /\ fs_lock s' = fs_lock s;
  rs_files : same_files g g';
  rs_attrs t ua' : (t, ua') <> (cur, ua) \/ is_Some (attrs s t ua') -> attrs s' t ua' = attrs s t ua'
}.

Lemma map_page_ok (s : vm) g cur pr ua k w : machine s g -> procs s !! cur = Some pr -> pagedir pr ∈ pds -> user_page ua -> k ∈ g_us g ->
  exists ok d, install_page cur ua k w s = Ok (ok, set_mmu d s) /\ as_install (pagedir pr) ua k w (mmu s) = Ok (ok, d) /\
    as_inv d cap (g_us g) pds (if ok : bool then <[(pagedir pr, ua) := MkPte k w false false]> (g_map g) else g_map g) /\
    (g_map g !! (pagedir pr, ua) = None -> as_room 1 (mmu s) -> ok = true) /\ forall n, as_room (S n) (mmu s) -> as_room n d.
Proof.
  intros (MA & _ & _) Hp Hd Hu Hk. destruct (as_install_ok _ _ _ _ _ (pagedir pr) ua k w MA Hd Hu Hk) as (ok & d & E & H). exists ok, d.
  unfold install_page. rewrite (M_bind_Ok _ _ s pr s) by by apply get_proc_ok. split; [by apply on_mmu_ok|]. split; [done|]. split; [destruct ok; [by destruct H|done]|].
  assert (HR := fun n Hr => as_install_room _ _ _ _ _ (pagedir pr) ua k w n ok d MA Hd Hu Hk Hr E). split; [|intros n Hr; by apply HR].
  intros Hm Hr. by apply (HR 0%nat Hr).
Qed.

(** What a page is brought in with: [k] allocations of the kernel, memory for a page table if the page
    directory lacks one, and memory of the file system for writing a page back and for reading one.
    Some of it is not there. *)
Definition refused (k : nat) (s : vm) : Prop := ~ replicate k true `prefix_of` mallocs s \/ ~ as_room 1 (mmu s) \/ ~ st_room 2 (store s).

Lemma no_malloc k (s : vm) : head (mallocs s) <> Some true -> ~ replicate (S k) true `prefix_of` mallocs s.
Proof. intros H [r E]. by rewrite E in H. Qed.

(** A page could not be brought in; all pages of all processes hold what they held, and no frame has
    become pinned. *)
Record unharmed (s : vm) (g : ghost) (s' : vm) (g' : ghost) : Prop := {
  uh_inv : inv s' g';
  uh_clean : clean s' g';
  uh_view t ua : view s' g' t ua = view s g t ua;
  uh_attrs t ua : attrs s' t ua = attrs s t ua;
  uh_spt t ua : spt_get s' t ua = spt_get s t ua \/ left_memory s s' t ua;
  uh_frames q x : frames s' !! q = Some x -> pinned x = true -> frames s !! q = Some x;
  uh_locks : frame_lock s' = frame_lock s /\ fs_lock s' = fs_lock s;
  uh_files : same_files g g'
}.

Lemma unharmed_mallocs (s : vm) g r : inv s g -> clean s g -> unharmed s g (set_mallocs r (next s) s) g.
Proof. intros I C. split; try done; [apply inv_mallocs; [done|lia]|by left]. Qed.

(** The last steps of bringing in a page: its frame is unpinned, and its entry says where it is. *)
Lemma enter_steps (s : vm) p f t ua pr e : frames s !! p = Some f -> procs s !! t = Some pr -> s_page_table pr !! ua = Some e ->
  (do* pin p false ; do* upd_entry t ua (set_status PAGE_MEMORY) ; do* upd_entry t ua (set_frame (Some p)) ; mret true) s =
  Ok (true, set_procs (<[t := MkProc (pagedir pr) (<[ua := set_frame (Some p) (set_status PAGE_MEMORY e)]> (s_page_table pr))]> (procs s)) (pin_state p false f s)).
Proof.
  intros Hf Hp He. unfold pin. unfold mbind at 1, M_bind at 1. rewrite (M_bind_Ok _ _ s f s) by by apply get_frame_ok. unfold put_frame at 1, modify at 1.
  fold (pin_state p false f s). rewrite (M_bind_Ok _ _ _ _ _ (upd_entry_ok (pin_state p false f s) t ua _ pr e Hp He)).
  match goal with |- mbind _ _ ?x = _ => set (s1 := x) end.
  rewrite (M_bind_Ok _ _ _ _ _ (upd_entry_ok s1 t ua _ _ _ (lookup_insert_eq _ _ _) (lookup_insert_eq _ _ _))). simpl. by rewrite !insert_insert_eq.
Qed.

(** The entry of a page that is not in memory is still there when a frame has been allocated. *)
Lemma allocated_entry (s : vm) g cur ua' flags p k s' g' t ua pr e : allocated s g cur ua' flags p k s' g' -> procs s !! t = Some pr -> s_page_table pr !! ua = Some e ->
  status e <> PAGE_MEMORY -> exists pr', procs s' !! t = Some pr' /\ s_page_table pr' !! ua = Some e /\ pagedir pr' = pagedir pr.
Proof.
  intros A Hp He Hs. assert (G : spt_get s t ua = Some (pagedir pr, e)) by (apply spt_get_some; eauto).
  destruct (al_spt _ _ _ _ _ _ _ _ _ A t ua) as [Es|(pd & e1 & e2 & G1 & Hm & _)]; [|congruence]. rewrite G in Es. by apply spt_get_some.
Qed.

Lemma allocated_attrs (s : vm) g cur ua' flags p k s' g' t ua : allocated s g cur ua' flags p k s' g' -> attrs s' t ua = attrs s t ua.
Proof.
  intros A. unfold attrs. destruct (al_spt _ _ _ _ _ _ _ _ _ A t ua) as [->|(pd & e & e' & -> & _ & -> & _ & -> & -> & _)]; done.
Qed.

Lemma same_files_kept g g' : same_files g g' -> files_kept g g'.
Proof.
  intros [H1 H2]. split; [|rewrite H2; eauto]. intros h i pos H. specialize (H1 h). rewrite H in H1. simpl in H1. destruct (g_pos g' !! h) as [[i' pos']|]; simpl in H1; [|done].
  simplify_eq. eauto.
Qed.

(** ** A frame that could not be used *)

(** What a page holds when a frame of no page has been given back. *)
Lemma freed_contents (s1 s2 : vm) g1 g2 p f t ua pd e : paging s1 g1 -> frames s1 !! p = Some f -> spt_get s1 t ua = Some (pd, e) -> e_frame e <> Some p ->
  frames s2 = delete p (frames s1) -> (forall a, a <> kaddr f -> mem s2 a = mem s1 a) -> same_files g1 g2 ->
  (status e = PAGE_SWAP -> g_swap g2 !! swap_index e = g_swap g1 !! swap_index e) -> contents s2 g2 e = contents s1 g1 e.
Proof.
  intros P Hf G Hne Ef Em SF Hsw. destruct (pg_entry _ _ _ P t ua pd e G) as (_ & _ & HE & _). destruct (status e) eqn:Hs.
  - destruct HE as (q & x & pt & A1 & A2 & _). unfold contents. rewrite Hs, A1, Ef, lookup_delete_ne by congruence. rewrite A2. rewrite Em; [done|].
    intros Ek. apply Hne. rewrite A1. f_equal. by eapply (pg_kaddr _ _ _ P).
  - by apply contents_lazy.
  - unfold contents. rewrite Hs. by apply Hsw.
Qed.

(** The new frame has been filled, its page perhaps mapped, and is given back: only the position in the
    file and the page of the frame are different. *)
Lemma frame_given_back (s : vm) g cur ua flags p k s1 g1 s2 g2 :
  clean s g -> allocated s g cur ua flags p k s1 g1 ->
  frames s2 = frames s1 /\ frame_table s2 = frame_table s1 /\ clock_hand s2 = clock_hand s1 /\ procs s2 = procs s1 /\ next s1 <= next s2 /\
    frame_lock s2 = frame_lock s1 /\ fs_lock s2 = fs_lock s1 ->
  (forall a, a <> k -> mem s2 a = mem s1 a) -> is_page (mem s2 k) -> machine s2 g2 -> g_us g2 = g_us g1 -> g_swap g2 = g_swap g1 -> same_files g1 g2 ->
  (forall t ua' pd e, spt_get s1 t ua' = Some (pd, e) -> g_map g2 !! (pd, ua') = g_map g1 !! (pd, ua')) ->
  exists s' g', frame_free p s2 = Ok (tt, s') /\ unharmed s g s' g'.
Proof.
  intros HC A (E1 & E2 & E3 & E4 & E5 & E6 & E7) Em Hk M2 Eu Es SF Hmap. pose proof (al_frame _ _ _ _ _ _ _ _ _ A) as Hf1. destruct (al_inv _ _ _ _ _ _ _ _ _ A) as [_ P1].
  pose proof (al_unused _ _ _ _ _ _ _ _ _ A) as Hun. destruct (al_clean _ _ _ _ _ _ _ _ _ A HC) as (C1 & V1 & Q1 & Q2). destruct (al_rest _ _ _ _ _ _ _ _ _ A) as (_ & R1 & R2).
  assert (HS : forall t ua', spt_get s2 t ua' = spt_get s1 t ua') by (intros; unfold spt_get; by rewrite E4).
  assert (P2 : paging s2 g2).
  { destruct P1 as [P1 P2 P3 P4 P5 P6 P7 P8 P9 P10 P11 P12]. split; rewrite ?E1, ?E2, ?E3, ?E4, ?Eu; try done.
    - intros t ua' pd e. rewrite HS. intros G. destruct (P3 t ua' pd e G) as (A1 & A2 & A3 & A4). split; [done|]. split; [done|]. rewrite E1, Es, (Hmap t ua' pd e G).
      split; [done|]. intros Hb. eapply backed_kept; [by apply same_files_kept|by apply A4].
    - intros t3 ua3 pd3 e3 t4 ua4 pd4 e4. rewrite !HS. apply P4.
    - intros q x Hq. destruct (P5 q x Hq) as [A1 A2]. split; [done|]. intros Hx. destruct (A2 Hx) as (pd & e & A3). exists pd, e. by rewrite HS.
    - intros a. destruct (decide (a = k)) as [->|]; [done|]. by rewrite Em.
    - intros q Hq. specialize (P11 q Hq). lia. }
  assert (Hun2 : forall t ua' pd e, spt_get s2 t ua' = Some (pd, e) -> e_frame e <> Some p) by (intros t ua' pd e; rewrite HS; apply Hun).
  rewrite <- E1 in Hf1. destruct (frame_free_unused s2 g2 p _ (conj M2 P2) Hf1 Hun2) as (s' & Ef & I' & F1 & F2 & F3 & F4 & F5). simpl in F3. rewrite E1 in Hf1.
  eexists s', _. split; [exact Ef|]. assert (HS' : forall t ua', spt_get s' t ua' = spt_get s1 t ua') by (intros; unfold spt_get; by rewrite F1, E4).
  assert (HV : forall t ua' pd e, spt_get s1 t ua' = Some (pd, e) -> forall g', g_swap g' = g_swap g1 -> same_files g1 g' -> contents s' g' e = contents s1 g1 e).
  { intros t ua' pd e G g' X1 X2. eapply (freed_contents s1 s' g1 g' p); try done; [by eapply Hun|by rewrite F2, E1| |by rewrite X1].
    intros a Ha. rewrite F3, Em by done. done. }
  split.
  - exact I'.
  - intros t ua' pd e. rewrite HS'. intros G Hm Hs. destruct (C1 t ua' pd e G Hm Hs) as [(pt & H1 & H2) H3]. split; [exists pt; simpl; by rewrite (Hmap t ua' pd e G)|].
    rewrite (HV t ua' pd e G) by done. rewrite H3. symmetry. by apply contents_lazy.
  - intros t ua'. rewrite <- V1. unfold view. rewrite HS'. destruct (spt_get s1 t ua') as [[pd e]|] eqn:G; [|done]. by apply (HV t ua' pd e G).
  - intros t ua'. rewrite <- (allocated_attrs _ _ _ _ _ _ _ _ _ t ua' A). unfold attrs. by rewrite HS'.
  - intros t ua'. unfold left_memory. rewrite HS'. apply A.
  - intros q x Hq _. rewrite F2, E1 in Hq. apply lookup_delete_Some in Hq as [Hne Hq]. by apply (al_others _ _ _ _ _ _ _ _ _ A).
  - split; congruence.
  - destruct SF as [S1 S2]. split; [intros h; simpl; by rewrite S1, Q1|simpl; congruence].
Qed.

(** ** Faults on pages in swap, of files and of the stack *)

(** What it has cost to bring a page in: [j] allocations, at most one page table, two transfers of the file
    system and a swap slot. *)
Definition cost (j : nat) (s : vm) (g : ghost) (s' : vm) (g' : ghost) : Prop :=
  mallocs s' = drop j (mallocs s) /\ (forall n, as_room (S n) (mmu s) -> as_room n (mmu s')) /\
  (forall n, st_room (2 + n) (store s) -> st_room n (store s')) /\ (size (g_swap g') <= S (size (g_swap g)))%nat.

Lemma cost_allocated (s : vm) g cur ua flags p k s1 g1 j s' g' : allocated s g cur ua flags p k s1 g1 ->
  mallocs s' = drop j (mallocs s1) -> (forall n, as_room (S n) (mmu s1) -> as_room n (mmu s')) -> (forall n, st_room (S n) (store s1) -> st_room n (store s')) ->
  (size (g_swap g') <= size (g_swap g1))%nat -> cost (S j) s g s' g'.
Proof.
  intros A H1 H2 H3 H4. destruct (al_spends _ _ _ _ _ _ _ _ _ A) as [S1 S2]. destruct (al_rest _ _ _ _ _ _ _ _ _ A) as (R1 & _). pose proof (al_swap _ _ _ _ _ _ _ _ _ A).
  split; [rewrite H1, R1; destruct (mallocs s); [simpl; by rewrite drop_nil|done]|]. split; [auto|]. split; [|lia]. intros n Hn. apply H3, S2. exact Hn.
Qed.

(** The page is in memory, and nothing else is different. *)
Lemma resume (s : vm) g cur ua flags p k s1 g1 pr1 e' v s' g' :
  clean s g -> allocated s g cur ua flags p k s1 g1 -> procs s1 !! cur = Some pr1 -> (forall e, s_page_table pr1 !! ua = Some e -> status e <> PAGE_MEMORY) ->
  user_page ua -> e_uaddr e' = ua /\ status e' = PAGE_MEMORY /\ e_frame e' = Some p /\ (mmap e' = true -> backed g' e') -> is_page v ->
  enters s1 g1 p (MkFrame k ua cur true) pr1 e' v s' g' -> machine s' g' -> same_files g1 g' -> (mmap e' = true -> contents s' g' (set_status PAGE_LAZY e') = Some v) ->
  frame_lock s' = frame_lock s1 /\ fs_lock s' = fs_lock s1 -> (forall e, s_page_table pr1 !! ua = Some e -> writable e' = writable e /\ mmap e' = mmap e) ->
  resumed s g cur ua s' g' /\ forall t ua', view s' g' t ua' = if decide ((t, ua') = (cur, ua)) then Some v else view s g t ua'.
Proof.
  intros HC A Hp1 Hold Hu He' Hv EN M' SF Hmm [L1 L2] Hat. set (f := MkFrame k ua cur true). pose proof (al_unused _ _ _ _ _ _ _ _ _ A) as Hun.
  pose proof (al_frame _ _ _ _ _ _ _ _ _ A) as Hf1. destruct (al_inv _ _ _ _ _ _ _ _ _ A) as [M1 P1]. destruct (al_clean _ _ _ _ _ _ _ _ _ A HC) as (C1 & V1 & Q1 & Q2).
  destruct (al_rest _ _ _ _ _ _ _ _ _ A) as (_ & R1 & R2). split.
  - split.
    + split; [done|]. by apply (enters_paging s1 g1 p f pr1 e' v).
    + by apply (enters_clean s1 g1 p f pr1 e' v).
    + exists (pagedir pr1), e'. eexists. rewrite (enters_spt s1 g1 p f pr1 e' v s' g') by done. rewrite decide_True by done. split; [done|]. split; [apply He'|].
      rewrite (en_map _ _ _ _ _ _ _ _ _ EN). apply lookup_insert_eq.
    + intros q x Hq Hpin. apply (enters_frame s1 g1 p f pr1 e' v s' g' EN) in Hq as [[-> ->]|[Hne Hq]]; [done|]. by apply (al_others _ _ _ _ _ _ _ _ _ A).
    + split; congruence.
    + destruct SF as [S1 S2]. split; [intros h; by rewrite S1, Q1|congruence].
    + intros t ua' H. rewrite <- (allocated_attrs _ _ _ _ _ _ _ _ _ t ua' A) in *. unfold attrs in *. rewrite (enters_spt s1 g1 p f pr1 e' v s' g') by done.
      case_decide as Hd; [|done]. injection Hd as -> ->. destruct H as [|[a Ha]]; [done|]. unfold spt_get in *. simpl in *. rewrite Hp1 in *.
      destruct (s_page_table pr1 !! ua) as [e|]; [|done]. by destruct (Hat e eq_refl) as [-> ->].
  - intros t ua'. rewrite <- V1. by apply (enters_view s1 g1 p f pr1 e' v).
Qed.

Lemma spt_swap_to_memory_ok (s : vm) g cur ua pr e : inv s g -> clean s g -> fs_lock s = false -> evictable s g ->
  procs s !! cur = Some pr -> s_page_table pr !! ua = Some e -> status e = PAGE_SWAP ->
  (exists s' g', spt_swap_to_memory cur ua s = Ok (false, s') /\ refused 1 s /\ machine s' g' /\ forall t ua', (t, ua') <> (cur, ua) -> view s' g' t ua' = view s g t ua') \/ (spt_swap_to_memory cur ua s = Fail FPanic /\ full g) \/
  exists s' g', spt_swap_to_memory cur ua s = Ok (true, s') /\ (resumed s g cur ua s' g' /\ cost 1 s g s' g') /\ forall t ua', view s' g' t ua' = view s g t ua'.
Proof.
  intros I HC Hfs Hev Hp He Hs. assert (G : spt_get s cur ua = Some (pagedir pr, e)) by (apply spt_get_some; eauto).
  destruct (pg_entry _ _ _ (proj2 I) _ _ _ _ G) as (E1 & E2 & _). unfold spt_swap_to_memory. rewrite (M_bind_Ok _ _ s e s) by (by eapply get_entry_ok). rewrite E1.
  destruct (frame_alloc_ok s g cur ua PAL_USER I Hfs Hev ltac:(done)) as [[E Hml]|[[E Hfull]|(p & k & s1 & g1 & E & A)]].
  { left. rewrite (M_bind_Ok _ _ _ _ _ E). eexists _, g. split; [done|]. split; [left; by apply no_malloc|]. split; [apply I|done]. }
  { right; left. split; [|done]. unfold mbind at 1, M_bind at 1. by rewrite E. }
  rewrite (M_bind_Ok _ _ _ _ _ E). destruct (allocated_entry s g cur ua PAL_USER p k s1 g1 cur ua pr e A Hp He) as (pr1 & Hp1 & He1 & Epd); [congruence|].
  pose proof (al_frame _ _ _ _ _ _ _ _ _ A) as Hf1. destruct (al_inv _ _ _ _ _ _ _ _ _ A) as [M1 P1].
  assert (G1 : spt_get s1 cur ua = Some (pagedir pr1, e)) by (apply spt_get_some; eauto).
  destruct (pg_entry _ _ _ P1 _ _ _ _ G1) as (_ & _ & HE & HB). rewrite Hs in HE. destruct HE as (_ & Hmap & [page Hpage] & Hmm).
  destruct (al_clean _ _ _ _ _ _ _ _ _ A HC) as (C1 & V1 & Q1 & Q2).
  rewrite (M_bind_Ok _ _ s1 _ s1 (get_frame_ok s1 p _ Hf1)). simpl kaddr. destruct M1 as (MA & MS & MF).
  destruct (sp_in_ok _ _ _ _ _ MS Hpage) as (w & Ei & MS'). erewrite (M_bind_Ok _ _ s1 page (set_swp w s1)) by (by rewrite Ei). rewrite M_bind_modify.
  set (s2 := set_page k page (set_swp w s1)). set (g2 := MkGhost (g_us g1) (g_map g1) (delete (swap_index e) (g_swap g1)) (g_pos g1) (g_files g1)).
  destruct (pg_frame _ _ _ P1 p _ Hf1) as [Hk _]. simpl in Hk.
  destruct (map_page_ok s2 g2 cur pr1 ua k (writable e)) as (ok & d & Ein & Eas & MA2 & Hroom & Hspent); [done|done|by apply (pg_dir _ _ _ P1 cur)|done|done|].
  rewrite (M_bind_Ok _ _ _ _ _ Ein). destruct ok; cbn [negb].
  - right; right. rewrite (enter_steps (set_mmu d s2) p (MkFrame k ua cur true) cur ua pr1 e Hf1 Hp1 He1). simpl in MA2.
    eexists _, (MkGhost (g_us g1) (<[(pagedir pr1, ua) := MkPte k (writable e) false false]> (g_map g1)) (delete (swap_index e) (g_swap g1)) (g_pos g1) (g_files g1)).
    split; [reflexivity|]. set (s' := set_procs _ _). set (g' := MkGhost _ _ _ _ _).
    assert (EN : enters s1 g1 p (MkFrame k ua cur true) pr1 (set_frame (Some p) (set_status PAGE_MEMORY e)) page s' g').
    { split; try done; [|by apply files_kept_refl]. intros k2 Hk2. simpl. rewrite lookup_delete_ne; [done|]. apply not_eq_sym. by apply (Hk2 e). }
    destruct (sp_page _ _ _ _ _ MS Hpage) as [Hip _].
    destruct (resume s g cur ua PAL_USER p k s1 g1 pr1 (set_frame (Some p) (set_status PAGE_MEMORY e)) page s' g') as [HR HV]; try done.
    + intros e0 ?. congruence.
    + split_and!; try done. simpl. congruence.
    + simpl. congruence.
    + intros e0 H0. rewrite He1 in H0. by injection H0 as <-.
    + split; [|intros t ua'; rewrite HV; case_decide as Hd; [|done]; injection Hd as -> ->; rewrite <- V1; unfold view; rewrite G1; unfold contents; by rewrite Hs, Hpage].
      split; [done|]. eapply cost_allocated; [exact A|done|exact Hspent|intros n; apply st_room_S|]. simpl. apply map_subseteq_size, delete_subseteq.
  - left. destruct (frame_free_runs (set_mmu d s2) s1 g1 _ p _ MA2 P1 Hf1 eq_refl eq_refl) as (s' & Ef & F1 & F2 & F3 & F4 & F5 & F6). rewrite (M_bind_Ok _ _ _ _ _ Ef).
    set (g3 := MkGhost (g_us g1 ∖ {[ k ]}) (g_map g1) (g_swap g2) (g_pos g1) (g_files g1)). exists s', g3. split; [done|]. split.
    { right; left. intros Hr. apply (al_spends _ _ _ _ _ _ _ _ _ A) in Hr. by specialize (Hroom Hmap Hr). }
    split; [unfold machine; rewrite F5, F6; done|]. intros t ua' Hne. rewrite <- V1. unfold view. assert (Es : spt_get s' t ua' = spt_get s1 t ua') by (unfold spt_get; by rewrite F1). rewrite Es.
    destruct (spt_get s1 t ua') as [[pd2 e2]|] eqn:G2; [|done]. eapply (freed_contents s1 s' g1 g3 p _ t ua' pd2 e2 P1 Hf1 G2); try done.
    + by apply (al_unused _ _ _ _ _ _ _ _ _ A t ua' pd2).
    + intros a Ha. rewrite F3 by done. simpl. by rewrite (proj2 (Z.eqb_neq _ _)).
    + intros Hs2. simpl. apply lookup_delete_ne. intros Ex. apply Hne. by destruct (pg_slots _ _ _ P1 t ua' pd2 e2 cur ua (pagedir pr1) e G2 G1) as [-> ->].
Qed.

(** The position of a handle changes nothing else. *)
Definition set_pos (h i pos : Z) (g : ghost) : ghost := MkGhost (g_us g) (g_map g) (g_swap g) (<[h := (i, pos)]> (g_pos g)) (g_files g).

Lemma set_pos_same h i pos pos0 g : g_pos g !! h = Some (i, pos0) -> same_files g (set_pos h i pos g).
Proof. intros H. split; [|done]. intros h'. simpl. destruct (decide (h' = h)) as [->|]; [by rewrite lookup_insert_eq, H|by rewrite lookup_insert_ne]. Qed.
Lemma inv_seek (s : vm) g st h i pos pos0 : inv s g -> g_pos g !! h = Some (i, pos0) -> st_inv st (<[h := (i, pos)]> (g_pos g)) (g_files g) ->
  inv (set_store st s) (set_pos h i pos g).
Proof.
  intros [(MA & MS & MF) P] Hh Hst. split; [done|]. destruct P as [P1 P2 P3 P4 P5 P6 P7 P8 P9 P10 P11 P12]. split; try done.
  intros t ua pd e G. destruct (P3 t ua pd e G) as (E1 & E2 & E3 & E4). split; [done|]. split; [done|]. split; [done|]. intros Hc.
  eapply backed_kept; [apply same_files_kept; by eapply set_pos_same|by apply E4].
Qed.
Lemma view_seek (s : vm) g st h i pos pos0 t ua : g_pos g !! h = Some (i, pos0) -> view (set_store st s) (set_pos h i pos g) t ua = view s g t ua.
Proof.
  intros Hh. unfold view. change (spt_get (set_store st s) t ua) with (spt_get s t ua). destruct (spt_get s t ua) as [[pd e]|]; [|done].
  destruct (status e) eqn:Hs; [unfold contents; by rewrite Hs| |unfold contents; by rewrite Hs]. apply contents_lazy; [by eapply set_pos_same|done].
Qed.
Lemma clean_seek (s : vm) g st h i pos pos0 : g_pos g !! h = Some (i, pos0) -> clean s g -> clean (set_store st s) (set_pos h i pos g).
Proof.
  intros Hh HC t ua pd e G Hm Hs. destruct (HC t ua pd e G Hm Hs) as [H1 H2]. split; [done|].
  rewrite (contents_lazy s (set_store st s) g (set_pos h i pos g) (set_status PAGE_LAZY e) (set_pos_same h i pos pos0 g Hh) eq_refl). rewrite <- H2. unfold contents. by rewrite Hs.
Qed.

Lemma unharmed_seek (s : vm) g st h i pos pos0 s' g' : g_pos g !! h = Some (i, pos0) -> unharmed (set_store st s) (set_pos h i pos g) s' g' -> unharmed s g s' g'.
Proof.
  intros Hh [U1 U2 U3 U4 U9 U5 U6 [U7 U8]]. destruct (set_pos_same h i pos pos0 g Hh) as [S1 S2]. split; try done.
  - intros t ua. by rewrite U3, (view_seek s g st h i pos pos0).
  - split; [intros h'; by rewrite U7, S1|congruence].
Qed.

Lemma file_seek_ok (s : vm) g h i pos0 ofs : machine s g -> g_pos g !! h = Some (i, pos0) -> 0 <= ofs < 2 ^ 31 ->
  exists st, Vm.file_seek (Some h) ofs s = Ok (tt, set_store st s) /\ st_inv st (<[h := (i, ofs)]> (g_pos g)) (g_files g) /\
    forall n, st_room n (store s) -> st_room n st.
Proof.
  intros (_ & _ & MF) Hh Ho. destruct (st_seek_ok _ _ _ _ _ _ ofs MF Hh Ho) as (st & E & H). exists st. split; [|split; [done|intros n Hn; exact (st_seek_room _ _ _ _ _ Hn E)]].
  unfold Vm.file_seek, not_null. rewrite (M_bind_Ok _ _ s h s) by done. rewrite (proj2 (Z.leb_le _ _)) by lia. rewrite (M_bind_Ok _ _ s tt s) by done. by apply on_store_ok.
Qed.

(** The bytes of the file and the zeros behind them. *)
Lemma load_contents (l m : list Z) rb zb : 0 <= rb -> 0 <= zb -> rb + zb = 4096 -> length l = Z.to_nat rb -> length m = 4096%nat ->
  let m1 := l ++ drop (length l) m in
  take (Z.to_nat rb) m1 ++ replicate (Z.to_nat zb) 0 ++ drop (Z.to_nat (rb + zb)) m1 = l ++ replicate (Z.to_nat zb) 0.
Proof.
  intros H1 H2 H3 H4 H5 m1. subst m1. rewrite take_app_length' by lia. f_equal. rewrite (drop_ge (l ++ _)), app_nil_r; [done|]. rewrite length_app, length_drop. lia.
Qed.

(** Reading the page of the file into the frame, with the lock of the file system. *)
Lemma read_page_ok (s : vm) hs cs h i pos c k n : fs_lock s = false -> st_inv (store s) hs cs -> hs !! h = Some (i, pos) -> cs !! i = Some c -> 0 <= n <= 4096 ->
  exists st r, st_read h n (store s) = Ok (take (Z.to_nat r) (drop (Z.to_nat pos) c), st) /\ st_inv st (<[h := (i, pos + r)]> hs) cs /\ 0 <= r <= left_at c pos n /\
    forall A (K : Z -> M vm A), (do* filesys_lock_acquire ; let* nread := Vm.file_read (Some h) k n in do* filesys_lock_release ; K nread) s =
      K (Z.of_nat (length (take (Z.to_nat r) (drop (Z.to_nat pos) c))))
        (set_page k (take (Z.to_nat r) (drop (Z.to_nat pos) c) ++ drop (length (take (Z.to_nat r) (drop (Z.to_nat pos) c))) (mem s k)) (set_store st s)).
Proof.
  intros Hl MF H1 H2 Hn. destruct (st_read_ok _ _ _ _ _ _ _ n MF H1 H2) as (r & st & E & Hr & MF'); [lia|]. exists st, r. split_and!; try done; try lia.
  intros A K. unfold filesys_lock_acquire, filesys_lock_release, Vm.file_read, from, mbind, M_bind, gets, modify, ASSERT, mret, M_ret, on_store, skip.
  destruct s as [mm st0 sw me fr ta ha pr fl fl2 ml nn]. simpl in *. subst fl2. simpl. rewrite (proj2 (Z.leb_le _ _)) by lia. simpl. rewrite E. done.
Qed.

(** The page of the file has been read into a new frame and mapped. *)
Definition loaded (s : vm) (g : ghost) (cur ua : Z) (e : spt_entry) (p : Z) (s2 : vm) : Prop :=
  exists h i c st0 k s1 g1 pr1 st x d,
    let v := take (Z.to_nat (read_bytes e)) (drop (Z.to_nat (offset e)) c) ++ replicate (Z.to_nat (zero_bytes e)) 0 in
    let g0 := set_pos h i (offset e) g in
    let g2 := MkGhost (g_us g1) (<[(pagedir pr1, ua) := MkPte k (writable e) false false]> (g_map g1)) (g_swap g1) (<[h := (i, offset e + read_bytes e)]> (g_pos g1)) (g_files g1) in
    (e_file e = Some h /\ (exists pos0, g_pos g !! h = Some (i, pos0)) /\ g_files g !! i = Some c) /\
    (inv (set_store st0 s) g0 /\ allocated (set_store st0 s) g0 cur ua PAL_USER p k s1 g1) /\
    (procs s1 !! cur = Some pr1 /\ s_page_table pr1 !! ua = Some e) /\
    s2 = set_mmu d (set_page k v (set_page k x (set_store st s1))) /\ machine s2 g2 /\ is_page v /\ cost 1 s g s2 g2.

Lemma loaded_page c rb zb ofs : Forall is_u8 c -> 0 <= rb -> 0 <= zb -> rb + zb = 4096 -> 0 <= ofs -> (0 < rb -> ofs + rb <= Z.of_nat (length c)) ->
  length (take (Z.to_nat rb) (drop (Z.to_nat ofs) c)) = Z.to_nat rb /\ is_page (take (Z.to_nat rb) (drop (Z.to_nat ofs) c) ++ replicate (Z.to_nat zb) 0).
Proof.
  intros F1 H1 H2 H3 H4 H5. assert (L : length (take (Z.to_nat rb) (drop (Z.to_nat ofs) c)) = Z.to_nat rb) by (rewrite length_take, length_drop; lia).
  split; [done|]. split; [rewrite length_app, L, length_replicate; lia|]. apply Forall_app. split; [by apply Forall_take, Forall_drop|by apply Forall_replicate].
Qed.

Lemma page_asserts ua rb zb ofs : user_page ua -> rb + zb = 4096 -> 0 <= ofs -> ofs mod 4096 = 0 ->
  (u32 (rb + zb) mod PGSIZE =? 0) = true /\ (pg_ofs ua =? 0) = true /\ (Z.rem ofs PGSIZE =? 0) = true.
Proof.
  intros [H1 H2] -> H3 H4. split; [done|]. unfold pg_ofs. split; apply Z.eqb_eq.
  - rewrite <- H2. change PGMASK with (Z.ones 12). rewrite Z.land_ones by done. done.
  - change PGSIZE with 4096. rewrite Z.rem_mod_nonneg by lia. done.
Qed.

Lemma load_page_ok (s : vm) g cur ua pr e : inv s g -> clean s g -> fs_lock s = false -> evictable s g ->
  procs s !! cur = Some pr -> s_page_table pr !! ua = Some e -> status e = PAGE_LAZY ->
  (exists s' g', load_page cur ua s = Ok (None, s') /\ refused 1 s /\ unharmed s g s' g') \/ (load_page cur ua s = Fail FPanic /\ full g) \/
  exists p s2, load_page cur ua s = Ok (Some p, s2) /\ loaded s g cur ua e p s2.
Proof.
  intros I HC Hfs Hev Hp He Hs. assert (G : spt_get s cur ua = Some (pagedir pr, e)) by (apply spt_get_some; eauto).
  destruct (pg_entry _ _ _ (proj2 I) _ _ _ _ G) as (E1 & E2 & _ & (h & i & pos0 & c & B1 & B2 & B3 & B4 & B5 & B6 & B7 & B8 & B9)); [by left|].
  destruct (page_asserts ua (read_bytes e) (zero_bytes e) (offset e) E2 B8) as (T1 & T2 & T3); [lia|done|].
  unfold load_page. rewrite (M_bind_Ok _ _ s e s) by (by eapply get_entry_ok). rewrite E1, T1, T2, T3. do 3 rewrite (M_bind_Ok _ _ s tt s) by done.
  destruct (file_seek_ok s g h i pos0 (offset e) (proj1 I) B2 B4) as (st0 & Es & MF0 & Hst0). rewrite B1, (M_bind_Ok _ _ _ _ _ Es).
  pose proof (inv_seek s g st0 h i (offset e) pos0 I B2 MF0) as I0. set (s0 := set_store st0 s) in *. set (g0 := set_pos h i (offset e) g) in *.
  destruct (frame_alloc_ok s0 g0 cur ua PAL_USER I0 Hfs Hev ltac:(done)) as [[E Hml]|[[E Hfull]|(p & k & s1 & g1 & E & A)]].
  { left. rewrite (M_bind_Ok _ _ _ _ _ E). eexists _, g0. split; [done|]. split; [left; by apply no_malloc|]. eapply (unharmed_seek s g st0 h i); [done|].
    apply unharmed_mallocs; [done|by eapply clean_seek]. }
  { right; left. split; [|done]. unfold mbind at 1, M_bind at 1. by rewrite E. }
  rewrite (M_bind_Ok _ _ _ _ _ E). destruct (allocated_entry s0 g0 cur ua PAL_USER p k s1 g1 cur ua pr e A Hp He) as (pr1 & Hp1 & He1 & Epd); [congruence|].
  pose proof (al_frame _ _ _ _ _ _ _ _ _ A) as Hf1. pose proof (al_inv _ _ _ _ _ _ _ _ _ A) as [(MA & MS & MF) P1].
  pose proof (clean_seek s g st0 h i (offset e) pos0 B2 HC) as C0. destruct (al_clean _ _ _ _ _ _ _ _ _ A C0) as (C1 & V1 & Q1 & Q2).
  destruct (al_rest _ _ _ _ _ _ _ _ _ A) as (_ & _ & R2). rewrite (M_bind_Ok _ _ s1 _ s1 (get_frame_ok s1 p _ Hf1)). simpl kaddr.
  destruct (read_page_ok s1 (g_pos g1) (g_files g1) h i (offset e) c k (read_bytes e)) as (st & r & ER & MF' & Hr & EK);
    [by rewrite R2|exact MF|by rewrite Q1; apply lookup_insert_eq|by rewrite Q2|lia|]. rewrite EK. clear EK.
  destruct (st_bytes _ _ _ i c MF) as [Hb _]; [by rewrite Q2|].
  destruct (loaded_page c (read_bytes e) (zero_bytes e) (offset e)) as [Lr Hpage]; try done; try lia.
  assert (Lr' : length (take (Z.to_nat r) (drop (Z.to_nat (offset e)) c)) = Z.to_nat r) by (unfold left_at in Hr; rewrite length_take, length_drop; lia).
  rewrite Lr', Z2Nat.id by lia. rewrite s32_small by (unfold is_s32; lia). pose proof (al_unused _ _ _ _ _ _ _ _ _ A) as Hun.
  set (x := take (Z.to_nat r) (drop (Z.to_nat (offset e)) c) ++ drop (Z.to_nat r) (mem s1 k)).
  destruct (Z.eqb_spec r (read_bytes e)) as [->|Hshort]; cbn [negb].
  2:{ left. destruct (frame_given_back s0 g0 cur ua PAL_USER p k s1 g1 (set_page k x (set_store st s1)) (set_pos h i (offset e + r) g1) C0 A) as (s' & g' & Ef & U); try done.
    - intros a Ha. simpl. by rewrite (proj2 (Z.eqb_neq _ _)).
    - simpl. rewrite Z.eqb_refl. destruct (pg_mem _ _ _ P1 k) as [Lm Fm]. split; [unfold left_at in Hr; unfold x; rewrite length_app, Lr', length_drop; lia|].
      apply Forall_app. split; [by apply Forall_take, Forall_drop|by apply Forall_drop].
    - eapply set_pos_same. rewrite Q1. apply lookup_insert_eq.
    - rewrite (M_bind_Ok _ _ _ _ _ Ef). exists s', g'. split; [done|]. split; [|by eapply unharmed_seek]. right; right. intros Hroom.
      apply Hst0, (al_spends _ _ _ _ _ _ _ _ _ A) in Hroom. destruct (st_read_room (store s1) (g_pos g1) (g_files g1) h i (offset e) c (read_bytes e) 0 (take (Z.to_nat r) (drop (Z.to_nat (offset e)) c)) st MF) as [Hl _];
        [by rewrite Q1; apply lookup_insert_eq|by rewrite Q2|lia|done|exact ER|]. rewrite Lr' in Hl. unfold left_at in Hl. lia. }
  set (s2 := set_page k x (set_store st s1)). rewrite (M_bind_Ok _ _ s2 (mem s2) s2) by done. rewrite (proj2 (Z.leb_le _ _)), M_bind_modify by lia.
  assert (Ev : mem s2 k = x) by (simpl; by rewrite Z.eqb_refl). rewrite Ev. destruct (pg_mem _ _ _ P1 k) as [Lm _].
  assert (Ex := load_contents (take (Z.to_nat (read_bytes e)) (drop (Z.to_nat (offset e)) c)) (mem s1 k) (read_bytes e) (zero_bytes e) B6 B7 B8 Lr Lm).
  cbv zeta in Ex. rewrite Lr in Ex. fold x in Ex. rewrite Ex. clear Ex. set (v := take _ _ ++ replicate _ _).
  destruct (pg_frame _ _ _ P1 p _ Hf1) as [Hk _]. set (g2 := set_pos h i (offset e + read_bytes e) g1).
  destruct (map_page_ok (set_page k v s2) g2 cur pr1 ua k (writable e)) as (ok & d & Ein & Eas & MA2 & Hroom & Hspent); [done|done|by apply (pg_dir _ _ _ P1 cur)|done|done|].
  rewrite (M_bind_Ok _ _ _ _ _ Ein). destruct ok; cbn [negb].
  - right; right. exists p, (set_mmu d (set_page k v s2)). split; [done|]. exists h, i, c, st0, k, s1, g1, pr1, st, x, d. cbv zeta. split_and!; try done; [by exists pos0|].
    assert (K : cost 1 s0 g0 (set_mmu d (set_page k v s2)) g2).
    { eapply cost_allocated; [exact A|done|exact Hspent| |done]. intros n Hn. eapply (st_read_room (store s1) (g_pos g1) (g_files g1) h i (offset e) c (read_bytes e) n _ st MF);
        [by rewrite Q1; apply lookup_insert_eq|by rewrite Q2|lia|exact Hn|exact ER]. }
    destruct K as (K1 & K2 & K3 & K4). split_and!; auto.
  - left. destruct (frame_given_back s0 g0 cur ua PAL_USER p k s1 g1 (set_mmu d (set_page k v s2)) g2 C0 A) as (s' & g' & Ef & U); try done.
    + intros a Ha. simpl. by rewrite !(proj2 (Z.eqb_neq _ _)).
    + simpl. by rewrite Z.eqb_refl.
    + eapply set_pos_same. rewrite Q1. apply lookup_insert_eq.
    + rewrite (M_bind_Ok _ _ _ _ _ Ef). exists s', g'. split; [done|]. split; [|by eapply unharmed_seek]. right; left. intros Hr1.
      assert (G1 : spt_get s1 cur ua = Some (pagedir pr1, e)) by (apply spt_get_some; eauto). destruct (pg_entry _ _ _ P1 _ _ _ _ G1) as (_ & _ & HE & _). rewrite Hs in HE.
      destruct HE as [_ Hmap]. apply (al_spends _ _ _ _ _ _ _ _ _ A) in Hr1. by specialize (Hroom Hmap Hr1).
Qed.

Lemma spt_lazy_to_memory_ok (s : vm) g cur ua pr e : inv s g -> clean s g -> fs_lock s = false -> evictable s g ->
  procs s !! cur = Some pr -> s_page_table pr !! ua = Some e -> status e = PAGE_LAZY ->
  (exists s' g', spt_lazy_to_memory cur ua s = Ok (false, s') /\ refused 1 s /\ unharmed s g s' g') \/ (spt_lazy_to_memory cur ua s = Fail FPanic /\ full g) \/
  exists s' g', spt_lazy_to_memory cur ua s = Ok (true, s') /\ (resumed s g cur ua s' g' /\ cost 1 s g s' g') /\ forall t ua', view s' g' t ua' = view s g t ua'.
Proof.
  intros I HC Hfs Hev Hp He Hs. assert (G : spt_get s cur ua = Some (pagedir pr, e)) by (apply spt_get_some; eauto).
  destruct (pg_entry _ _ _ (proj2 I) _ _ _ _ G) as (E1 & E2 & _ & HB). specialize (HB (or_introl Hs)). unfold spt_lazy_to_memory.
  destruct (load_page_ok s g cur ua pr e I HC Hfs Hev Hp He Hs) as [(s' & g' & E & Href)|[[E Hfull]|(p & s2 & E & HL)]].
  { left. rewrite (M_bind_Ok _ _ _ _ _ E). by exists s', g'. }
  { right; left. split; [|done]. unfold mbind at 1, M_bind at 1. by rewrite E. }
  right; right. rewrite (M_bind_Ok _ _ _ _ _ E).
  destruct HL as (h & i & c & st0 & k & s1 & g1 & pr1 & st & x & d & (F1 & (pos0 & F2) & F3) & (I0 & A) & (Hp1 & He1) & -> & M2 & Hpage & KC).
  set (v := take _ _ ++ replicate _ _) in *. set (s2 := set_mmu _ _) in *. pose proof (al_frame _ _ _ _ _ _ _ _ _ A) as Hf1.
  rewrite (enter_steps s2 p _ cur ua pr1 e Hf1 Hp1 He1). pose proof (clean_seek s g st0 h i (offset e) pos0 F2 HC) as C0.
  destruct (al_clean _ _ _ _ _ _ _ _ _ A C0) as (C1 & V1 & Q1 & Q2). set (e' := set_frame (Some p) (set_status PAGE_MEMORY e)).
  set (g' := MkGhost (g_us g1) _ _ _ _) in M2. set (s' := set_procs _ _). exists s', g'. split; [done|].
  assert (SF : same_files g1 g').
  { split; [|done]. intros h'. simpl. destruct (decide (h' = h)) as [->|]; [|by rewrite lookup_insert_ne]. rewrite Q1. simpl. by rewrite !lookup_insert_eq. }
  assert (SF0 : same_files g g1). { destruct (set_pos_same h i (offset e) pos0 g F2) as [S1 S2]. split; [intros h'; by rewrite Q1|by rewrite Q2]. }
  assert (SF1 : same_files g g'). { destruct SF as [S1 S2], SF0 as [S3 S4]. split; [intros h'; by rewrite S1|congruence]. }
  destruct (resume (set_store st0 s) (set_pos h i (offset e) g) cur ua PAL_USER p k s1 g1 pr1 e' v s' g') as [[RI RC RE RF RL RS RA] RV]; try done.
  - intros e0 H0. congruence.
  - split_and!; try done. intros _. destruct (backed_kept _ _ _ (same_files_kept _ _ SF1) HB) as (h1 & i1 & p1 & c1 & B). by exists h1, i1, p1, c1.
  - split; try done; [|by apply same_files_kept]. intros a. simpl. by case_match.
  - intros _. transitivity (contents s g e).
    + rewrite (contents_lazy s s' g g' (set_status PAGE_LAZY e') SF1 eq_refl). unfold contents. simpl. by rewrite Hs.
    + unfold contents. by rewrite Hs, F1, F2, F3.
  - intros e0 H0. rewrite He1 in H0. by injection H0 as <-.
  - split; [split; [by split|exact KC]|]. intros t ua'. rewrite RV, (view_seek s g st0 h i (offset e) pos0) by done. case_decide as Hd; [|done]. injection Hd as -> ->.
    unfold view. rewrite G. unfold contents. by rewrite Hs, F1, F2, F3.
Qed.

Lemma allocated_no_entry (s : vm) g cur ua' flags p k s' g' t ua pr : allocated s g cur ua' flags p k s' g' -> procs s !! t = Some pr -> s_page_table pr !! ua = None ->
  exists pr', procs s' !! t = Some pr' /\ s_page_table pr' !! ua = None /\ pagedir pr' = pagedir pr.
Proof.
  intros A Hp He. pose proof (al_procs _ _ _ _ _ _ _ _ _ A t) as Ep. rewrite Hp in Ep. destruct (procs s' !! t) as [pr'|] eqn:Hp'; [|done]. injection Ep as Ep.
  assert (G : spt_get s t ua = None) by (unfold spt_get; by rewrite Hp, He). exists pr'. split; [done|]. split; [|done].
  destruct (s_page_table pr' !! ua) as [e|] eqn:He'; [|done]. assert (G' : spt_get s' t ua = Some (pagedir pr', e)) by (apply spt_get_some; eauto).
  destruct (al_spt _ _ _ _ _ _ _ _ _ A t ua) as [Es|(? & ? & ? & ? & _)]; congruence.
Qed.

Lemma add_memory_page_ok (s : vm) t ua p w pr : user_page ua -> procs s !! t = Some pr -> s_page_table pr !! ua = None ->
  (exists r, add_memory_page t ua p w s = Ok (false, set_mallocs r (next s) s) /\ head (mallocs s) <> Some true) \/
  exists r, r = tail (mallocs s) /\ add_memory_page t ua p w s = Ok (true, set_procs (<[t := MkProc (pagedir pr) (<[ua := MkEntry ua PAGE_MEMORY (Some p) None 0 0 0 (2 ^ 32 - 1) false w]> (s_page_table pr))]> (procs s))
                                                      (set_mallocs r (next s + 1) s)).
Proof.
  intros Hu Hp He. unfold add_memory_page. rewrite round_down_user by done. destruct (entry_malloc_ok s) as [(r & E & Hm & _)|E]; rewrite (M_bind_Ok _ _ _ _ _ E).
  - left. by eexists.
  - right. set (s1 := set_mallocs _ _ s). rewrite (M_bind_Ok _ _ s1 pr s1) by by apply get_proc_ok. cbv zeta. rewrite He.
    unfold hash_insert. unfold mbind at 1, M_bind at 1. rewrite (M_bind_Ok _ _ s1 pr s1) by by apply get_proc_ok. cbn [e_uaddr]. rewrite He. eexists. split; [reflexivity|]. done.
Qed.

(** Stack growth: a page of zeros. *)
Lemma spt_initialize_as_memory_ok (s : vm) g cur ua pr : inv s g -> clean s g -> fs_lock s = false -> evictable s g ->
  procs s !! cur = Some pr -> s_page_table pr !! ua = None -> user_page ua -> g_map g !! (pagedir pr, ua) = None ->
  (exists s' g', spt_initialize_as_memory cur ua s = Ok (false, s') /\ (~ replicate 2 true `prefix_of` mallocs s \/ ~ as_room 1 (mmu s)) /\ unharmed s g s' g') \/ (spt_initialize_as_memory cur ua s = Fail FPanic /\ full g) \/
  exists s' g', spt_initialize_as_memory cur ua s = Ok (true, s') /\ (resumed s g cur ua s' g' /\ cost 2 s g s' g') /\ attrs s' cur ua = Some (true, false) /\
    forall t ua', view s' g' t ua' = if decide ((t, ua') = (cur, ua)) then Some zero_page else view s g t ua'.
Proof.
  intros I HC Hfs Hev Hp He Hu Hmap. unfold spt_initialize_as_memory.
  destruct (frame_alloc_ok s g cur ua (Z.lor PAL_USER PAL_ZERO) I Hfs Hev ltac:(done)) as [[E Hml]|[[E Hfull]|(p & k & s1 & g1 & E & A)]].
  { left. rewrite (M_bind_Ok _ _ _ _ _ E). eexists _, g. split; [done|]. split; [left; by apply no_malloc|]. by apply unharmed_mallocs. }
  { right; left. split; [|done]. unfold mbind at 1, M_bind at 1. by rewrite E. }
  rewrite (M_bind_Ok _ _ _ _ _ E). destruct (allocated_no_entry _ _ _ _ _ _ _ _ _ cur ua pr A Hp He) as (pr1 & Hp1 & He1 & Epd).
  pose proof (al_frame _ _ _ _ _ _ _ _ _ A) as Hf1. pose proof (al_inv _ _ _ _ _ _ _ _ _ A) as [M1 P1]. rewrite (M_bind_Ok _ _ s1 _ s1 (get_frame_ok s1 p _ Hf1)). simpl kaddr.
  destruct (pg_frame _ _ _ P1 p _ Hf1) as [Hk _].
  assert (Hno : forall t ua' pd e, spt_get s1 t ua' = Some (pd, e) -> (pd, ua') <> (pagedir pr1, ua)).
  { intros t ua' pd e (pr2 & G1 & G2 & <-)%spt_get_some [= Hd ->]. assert (t = cur) as -> by by eapply (pg_dirs _ _ _ P1). congruence. }
  destruct (map_page_ok s1 g1 cur pr1 ua k true) as (ok & d & Ein & Eas & MA2 & Hroom & Hspent); [done|done|by apply (pg_dir _ _ _ P1 cur)|done|done|].
  rewrite (M_bind_Ok _ _ _ _ _ Ein). destruct ok; cbn [negb].
  2:{ left. destruct (frame_given_back s g cur ua (Z.lor PAL_USER PAL_ZERO) p k s1 g1 (set_mmu d s1) g1 HC A) as (s' & g' & Ef & U); try done.
    - apply (pg_mem _ _ _ P1).
    - destruct M1 as (_ & ? & ?). done.
    - rewrite (M_bind_Ok _ _ _ _ _ Ef). exists s', g'. split; [done|]. split; [|done]. right. intros Hr. apply (al_spends _ _ _ _ _ _ _ _ _ A) in Hr.
      apply (al_map _ _ _ _ _ _ _ _ _ A) in Hmap. rewrite <- Epd in Hmap. by specialize (Hroom Hmap Hr). }
  destruct (add_memory_page_ok (set_mmu d s1) cur ua p true pr1 Hu Hp1 He1) as [(r & Ea & Hm)|(r & Er & Ea)]; rewrite (M_bind_Ok _ _ _ _ _ Ea); cbn [negb].
  { left. destruct (frame_given_back s g cur ua (Z.lor PAL_USER PAL_ZERO) p k s1 g1 (set_mallocs r (next (set_mmu d s1)) (set_mmu d s1))
      (g_set_map (<[(pagedir pr1, ua) := MkPte k true false false]> (g_map g1)) g1) HC A) as (s' & g' & Ef & U); try done.
    - apply (pg_mem _ _ _ P1).
    - destruct M1 as (_ & ? & ?). done.
    - intros t ua' pd e G. simpl. apply lookup_insert_ne. apply not_eq_sym. by apply (Hno t ua' pd e).
    - rewrite (M_bind_Ok _ _ _ _ _ Ef). exists s', g'. split; [done|]. split; [|done]. left. intros [r' Er].
      destruct (al_rest _ _ _ _ _ _ _ _ _ A) as (R1 & _). simpl in Hm. by rewrite R1, Er in Hm. }
  right; right. set (e' := MkEntry ua _ _ _ _ _ _ _ _ _) in *. unfold pin. unfold mbind at 1, M_bind at 1.
  match goal with |- context [set_procs ?a ?b] => set (s2 := set_procs a b) end. rewrite (M_bind_Ok _ _ s2 _ s2 (get_frame_ok s2 p _ Hf1)).
  eexists _, (MkGhost (g_us g1) (<[(pagedir pr1, ua) := MkPte k true false false]> (g_map g1)) (g_swap g1) (g_pos g1) (g_files g1)). split; [reflexivity|].
  set (s' := set_frames _ _ _ _). set (g' := MkGhost _ _ _ _ _).
  assert (HA : attrs s' cur ua = Some (true, false)) by (unfold attrs, spt_get; simpl; rewrite lookup_insert_eq; simpl; by rewrite lookup_insert_eq).
  assert (KC : cost 2 s g s' g').
  { eapply cost_allocated; [exact A| |exact Hspent|intros n; apply st_room_S|done]. simpl. rewrite Er. simpl. by destruct (mallocs s1). }
  enough (resumed s g cur ua s' g' /\ forall t ua', view s' g' t ua' = if decide ((t, ua') = (cur, ua)) then Some zero_page else view s g t ua') by tauto.
  apply (resume s g cur ua (Z.lor PAL_USER PAL_ZERO) p k s1 g1 pr1 e' zero_page s' g'); try done.
  - intros e0 H0. congruence.
  - apply zero_page_ok.
  - split; try done; [|simpl|].
    + simpl. split_and!; try done. lia.
    + intros a. destruct (Z.eqb_spec a k) as [->|]; [|done]. by apply (al_zero _ _ _ _ _ _ _ _ _ A).
    + by apply files_kept_refl.
  - destruct M1 as (_ & ? & ?). done.
  - intros e0 H0. congruence.
Qed.

(** An access below the stack pointer the stack may grow to: not more than 32 bytes below, as PUSHA goes. *)
Definition stack_access (fault_addr esp : Z) : Prop := PHYS_BASE - MAX_STACK_SIZE <= fault_addr < PHYS_BASE /\ u32 (esp - 32) <= fault_addr.

(** A page that is elsewhere, or one more page of stack. *)
Definition expected (pr : proc) (fault_addr esp : Z) : Prop :=
  match s_page_table pr !! pg_round_down fault_addr with Some e => status e <> PAGE_MEMORY | None => stack_access fault_addr esp end.

(** The answer of the handler is that of the function that brings the page in. *)
Lemma answer (m : M vm bool) (s : vm) (X : vm -> ghost -> Prop) (Y : Prop) (Q : vm -> ghost -> Prop) :
  (exists s' g', m s = Ok (false, s') /\ X s' g') \/ (m s = Fail FPanic /\ Y) \/ (exists s' g', m s = Ok (true, s') /\ Q s' g') ->
  let r := (let* ok : bool := m in mret (if ok then Resume else Kill)) s in
  (exists s' g', r = Ok (Kill, s') /\ X s' g') \/ (r = Fail FPanic /\ Y) \/ exists s' g', r = Ok (Resume, s') /\ Q s' g'.
Proof.
  intros H r. subst r. unfold mbind, M_bind. destruct H as [(s' & g' & -> & H)|[[-> H]|(s' & g' & -> & H)]]; [left; by exists s', g'|by right; left|].
  right; right. by exists s', g'.
Qed.

(** The page was in swap. *)
Definition swapped (pr : proc) (ua : Z) : Prop := exists e, s_page_table pr !! ua = Some e /\ status e = PAGE_SWAP.

Lemma page_fault_ok (s : vm) g cur pr fault_addr esp :
  inv s g -> clean s g -> fs_lock s = false -> evictable s g -> procs s !! cur = Some pr -> is_u32 fault_addr ->
  let ua := pg_round_down fault_addr in
  let r := page_fault_handler cur fault_addr esp true s in
  (~ expected pr fault_addr esp -> r = Ok (Kill, s)) /\
  (expected pr fault_addr esp -> g_map g !! (pagedir pr, ua) = None ->
    (exists s' g', r = Ok (Kill, s') /\ refused (if s_page_table pr !! ua then 1 else 2) s /\ machine s' g' /\
      (forall t ua', (t, ua') <> (cur, ua) -> view s' g' t ua' = view s g t ua') /\ (swapped pr ua \/ unharmed s g s' g')) \/
    (r = Fail FPanic /\ full g) \/
    exists s' g', r = Ok (Resume, s') /\ (resumed s g cur ua s' g' /\ cost (if s_page_table pr !! ua then 1 else 2) s g s' g') /\
      forall t ua', view s' g' t ua' = if decide ((t, ua') = (cur, ua) /\ s_page_table pr !! ua = None) then Some zero_page else view s g t ua').
Proof.
  intros I HC Hfs Hev Hp Ha ua r. unfold expected. fold ua. assert (Eu : pg_round_down ua = ua).
  { apply pg_round_down_id; [by apply pg_round_down_range|by apply pg_round_down_aligned]. }
  assert (Er : r = match s_page_table pr !! ua with
    | Some e => match status e with
        | PAGE_MEMORY => mret Kill
        | PAGE_LAZY => let* ok : bool := spt_lazy_to_memory cur ua in mret (if ok then Resume else Kill)
        | PAGE_SWAP => let* ok : bool := spt_swap_to_memory cur ua in mret (if ok then Resume else Kill)
        end
    | None => if (PHYS_BASE - MAX_STACK_SIZE <=? fault_addr) && (fault_addr <? PHYS_BASE) && (u32 (esp - 32) <=? fault_addr)
        then let* ok : bool := spt_initialize_as_memory cur ua in mret (if ok then Resume else Kill) else mret Kill
    end s).
  { unfold r, page_fault_handler. fold ua. cbn [negb]. rewrite (M_bind_Ok _ _ s (match s_page_table pr !! ua with Some _ => Some ua | None => None end) s).
    2:{ unfold spt_lookup. rewrite (M_bind_Ok _ _ s pr s) by by apply get_proc_ok. by rewrite Eu. }
    destruct (s_page_table pr !! ua) as [e|] eqn:He; [|done]. by rewrite (M_bind_Ok _ _ s e s) by (by eapply get_entry_ok). }
  rewrite Er. clear Er. clearbody r. destruct (s_page_table pr !! ua) as [e|] eqn:He.
  - assert (V : forall t ua' v, (if decide ((t, ua') = (cur, ua) /\ Some e = None) then Some zero_page else v) = v) by (intros; rewrite decide_False; [done|by intros [_ ?]]).
    destruct (status e) eqn:Hs; (split; [done || (intros H; by destruct H)|]); intros Hx Hmap; [done| |]; apply answer.
    + destruct (spt_lazy_to_memory_ok s g cur ua pr e I HC Hfs Hev Hp He Hs) as [(s' & g' & H1 & H2 & H3)|[H|(s' & g' & H1 & H2 & H3)]]; [left|by right; left|].
      { exists s', g'. split; [done|]. split; [done|]. split; [apply H3|]. split; [intros; apply H3|by right]. }
      right; right. exists s', g'. split; [done|]. split; [done|]. intros. by rewrite V.
    + destruct (spt_swap_to_memory_ok s g cur ua pr e I HC Hfs Hev Hp He Hs) as [(s' & g' & H1 & H2 & H3)|[H|(s' & g' & H1 & H2 & H3)]]; [left|by right; left|].
      { exists s', g'. destruct H3 as [H3 H4]. split; [done|]. split; [done|]. split; [done|]. split; [done|]. left. by exists e. }
      right; right. exists s', g'. split; [done|]. split; [done|]. intros. by rewrite V.
  - unfold stack_access. destruct ((PHYS_BASE - MAX_STACK_SIZE <=? fault_addr) && (fault_addr <? PHYS_BASE) && (u32 (esp - 32) <=? fault_addr)) eqn:Hst;
      rewrite ?andb_true_iff, ?andb_false_iff, ?Z.leb_le, ?Z.ltb_lt, ?Z.leb_gt, ?Z.ltb_ge in Hst; (split; [intros Hx; done || (destruct Hx; lia)|intros Hx Hmap]); [|lia].
    assert (Hu : user_page ua).
    { split; [|by apply pg_round_down_aligned]. unfold ua. rewrite pg_round_down_sub by done. unfold is_u32 in Ha.
      pose proof (Z.mod_pos_bound fault_addr 4096 ltac:(lia)). pose proof (Z.mod_le fault_addr 4096). lia. }
    apply answer. destruct (spt_initialize_as_memory_ok s g cur ua pr I HC Hfs Hev Hp He Hu Hmap) as [(s' & g' & H1 & H2 & H3)|[H|(s' & g' & H1 & H2 & _ & H3)]];
      [left; exists s', g'; split; [done|]; split; [unfold refused; tauto|]; split; [apply H3|]; split; [intros; apply H3|by right]|by right; left|].
    right; right. exists s', g'. split; [done|]. split; [done|]. intros t ua'. rewrite H3. repeat case_decide; tauto.
Qed.

(** ** Accesses *)

(** Enough of everything for [n] accesses: memory of the kernel, of the page directories and of the file
    system, and swap slots. *)
Definition enough (n : nat) (s : vm) (g : ghost) : Prop :=
  replicate n true `prefix_of` mallocs s /\ as_room n (mmu s) /\ st_room (2 * n) (store s) /\ Z.of_nat (size (g_swap g)) + Z.of_nat n <= slots.

Lemma prefix_less n (l : list bool) : replicate (S n) true `prefix_of` l -> replicate n true `prefix_of` l /\ replicate n true `prefix_of` drop 1 l.
Proof. intros [r ->]. split; [exists (true :: r); by rewrite replicate_S_end, <- app_assoc|by exists r]. Qed.

Lemma enough_cost n (s : vm) g s' g' : cost 1 s g s' g' -> enough (S n) s g -> enough n s' g'.
Proof.
  intros (K1 & K2 & K3 & K4) (E1 & E2 & E3 & E4). split; [rewrite K1; by apply prefix_less|]. split; [auto|]. split; [|lia].
  apply K3. by replace (2 + 2 * n)%nat with (2 * S n)%nat by lia.
Qed.
Lemma enough_less n (s s' : vm) g g' : (forall x, as_room x (mmu s) -> as_room x (mmu s')) -> mallocs s' = mallocs s -> store s' = store s -> g_swap g' = g_swap g -> enough (S n) s g -> enough n s' g'.
Proof.
  intros H1 H2 H3 H4 (E1 & E2 & E3 & E4). split; [rewrite H2; by apply prefix_less|]. split; [by apply H1, as_room_S|]. rewrite H3, H4. split; [|lia].
  do 2 apply st_room_S. by replace (S (S (2 * n))) with (2 * S n)%nat by lia.
Qed.
Lemma enough_not_refused n (s : vm) g : enough (S n) s g -> ~ refused 1 s /\ ~ full g.
Proof.
  intros (E1 & E2 & E3 & E4). split; [|apply not_full; lia]. intros [H|[H|H]]; apply H.
  - destruct E1 as [r ->]. exists (replicate n true ++ r). done.
  - clear -E2. induction n as [|n IH]; [done|]. by apply IH, as_room_S.
  - clear -E3. replace (2 * S n)%nat with (2 * n + 2)%nat in E3 by lia. induction (2 * n)%nat as [|x IH]; [done|]. by apply IH, st_room_S.
Qed.

Definition idle (s : vm) : Prop := forall p f, frames s !! p = Some f -> pinned f = false.

Lemma idle_evictable (s : vm) g : inv s g -> idle s -> (0 < cap)%nat -> evictable s g.
Proof.
  intros [_ P] Hi Hc Hs. destruct (decide (g_us g = ∅)) as [E|[k Hk]%set_choose_L]; [rewrite E, size_empty in Hs; lia|].
  destruct (pg_used _ _ _ P k Hk) as (p & f & Hf & _). exists p, f. split; [done|]. by eapply Hi.
Qed.

(** Between two accesses. *)
Record ready (s : vm) (g : ghost) : Prop := {
  rd_inv : inv s g;
  rd_clean : clean s g;
  rd_idle : idle s;
  rd_lock : fs_lock s = false
}.

Lemma resumed_ready (s : vm) g cur ua s' g' : ready s g -> resumed s g cur ua s' g' -> ready s' g'.
Proof.
  intros [I C H L] R. split; [apply R|apply R| |by rewrite (proj2 (rs_locks _ _ _ _ _ _ R))]. intros p f Hf. destruct (pinned f) eqn:Hp; [|done].
  pose proof (rs_frames _ _ _ _ _ _ R p f Hf Hp) as Hf'. by rewrite (H p f Hf') in Hp.
Qed.

Definition touched (w : bool) (e : pte) : pte := MkPte (pte_page e) (pte_writable e) true (w || pte_dirty e).

Lemma touch_ok (s : vm) g cur pr ua w : machine s g -> procs s !! cur = Some pr -> pagedir pr ∈ pds -> user_page ua ->
  match g_map g !! (pagedir pr, ua) with
  | None => touch cur ua w s = Ok (Absent, s)
  | Some e => (w = true -> pte_writable e = true) ->
      exists d, touch cur ua w s = Ok (Hit (pte_page e), set_mmu d s) /\ as_inv d cap (g_us g) pds (<[(pagedir pr, ua) := touched w e]> (g_map g)) /\
        forall n, as_room n (mmu s) -> as_room n d
  end.
Proof.
  intros (MA & _ & _) Hp Hd Hu. pose proof (as_walk_ok _ _ _ _ _ _ _ MA Hd Hu) as E. unfold touch.
  destruct (g_map g !! (pagedir pr, ua)) as [e|] eqn:Hm.
  - intros Hw. destruct (as_set_accessed_ok _ _ _ _ _ _ _ _ true MA Hm) as (d1 & E1 & MA1).
    destruct (as_set_dirty_ok _ _ _ _ _ _ _ _ true MA1 (lookup_insert_eq _ _ _)) as (d2 & E2 & MA2). rewrite insert_insert_eq in MA2.
    rewrite (M_bind_Ok _ _ s pr s) by by apply get_proc_ok. rewrite (M_bind_Ok _ _ s (Some e) s) by by apply on_mmu_read. destruct w.
    + rewrite Hw by done. cbn [andb negb]. rewrite (M_bind_Ok _ _ _ _ _ (on_mmu_ok _ s _ _ E1)), (M_bind_Ok _ _ _ _ _ (on_mmu_ok _ (set_mmu d1 s) _ _ E2)). exists d2. split_and!; try done.
      intros n Hn. eapply as_set_dirty_room; [|exact E2]. by eapply as_set_accessed_room.
    + cbn [andb]. rewrite (M_bind_Ok _ _ _ _ _ (on_mmu_ok _ s _ _ E1)), (M_bind_Ok _ _ (set_mmu d1 s) tt (set_mmu d1 s)) by done. exists d1. split_and!; try done. intros n Hn. by eapply as_set_accessed_room.
  - rewrite (M_bind_Ok _ _ s pr s) by by apply get_proc_ok. by rewrite (M_bind_Ok _ _ s None s) by by apply on_mmu_read.
Qed.

Definition with_mem (mf : Z -> list Z) (s : vm) : vm :=
  MkVm (mmu s) (store s) (swp s) mf (frames s) (frame_table s) (clock_hand s) (procs s) (frame_lock s) (fs_lock s) (mallocs s) (next s).

(** A page in memory is touched, and may be written. *)
Section hit.
Context (s : vm) (g : ghost) (cur ua : Z) (pr : proc) (e : spt_entry) (p : Z) (f : frame) (pt : pte) (d : D) (w : bool) (v : list Z) (mf : Z -> list Z).
Hypothesis R : ready s g.
Hypothesis Hp : procs s !! cur = Some pr.
Hypothesis He : s_page_table pr !! ua = Some e.
Hypothesis Hs : status e = PAGE_MEMORY.
Hypothesis Hfr : e_frame e = Some p.
Hypothesis Hf : frames s !! p = Some f.
Hypothesis Hm : g_map g !! (pagedir pr, ua) = Some pt.
Hypothesis Hmm : w = true -> mmap e = false.
Hypothesis Hsame : w = false -> v = mem s (kaddr f).
Hypothesis Hv : is_page v.
Hypothesis MA : as_inv d cap (g_us g) pds (<[(pagedir pr, ua) := touched w pt]> (g_map g)).
Hypothesis Hmem : forall a, mf a = if a =? kaddr f then v else mem s a.
Let s' : vm := with_mem mf (set_mmu d s).
Let g' : ghost := g_set_map (<[(pagedir pr, ua) := touched w pt]> (g_map g)) g.

Lemma hit_paging : paging s' g'.
Proof.
  destruct (rd_inv _ _ R) as [_ P]. destruct P as [P1 P2 P3 P4 P5 P6 P7 P8 P9 P10 P11 P12]. split; try done.
  2:{ intros k. simpl. rewrite Hmem. by case_match. }
  intros t ua2 pd e2 G. destruct (P3 t ua2 pd e2 G) as (E1 & E2 & E3 & E4). split; [done|]. split; [done|]. split; [|done]. simpl.
  assert (Hd : forall x, (g_map g !! x = None -> <[(pagedir pr, ua):=touched w pt]> (g_map g) !! x = None) /\
    (forall q, g_map g !! x = Some q -> exists q', <[(pagedir pr, ua):=touched w pt]> (g_map g) !! x = Some q' /\ pte_page q' = pte_page q /\ pte_writable q' = pte_writable q)).
  { intros x. destruct (decide (x = (pagedir pr, ua))) as [->|]; [rewrite lookup_insert_eq, Hm; split; [done|]; intros q [= <-]; eauto|rewrite lookup_insert_ne by done; eauto]. }
  destruct (status e2).
  - destruct E3 as (q & x & pt2 & A1 & A2 & A3 & A4 & A5 & A6 & A7). destruct (proj2 (Hd _) _ A5) as (pt3 & B1 & B2 & B3). exists q, x, pt3. split_and!; try done; congruence.
  - split; [apply E3|apply Hd; apply E3].
  - destruct E3 as (A1 & A2 & A3). split; [done|]. split; [by apply Hd|done].
Qed.

Lemma hit_contents t ua2 pd2 e2 : spt_get s t ua2 = Some (pd2, e2) -> (t, ua2) <> (cur, ua) -> contents s' g' e2 = contents s g e2.
Proof.
  intros G Hne. destruct (rd_inv _ _ R) as [_ P]. unfold contents. destruct (status e2) eqn:Hs2; try done.
  destruct (pg_entry _ _ _ P _ _ _ _ G) as (_ & _ & HE & _). rewrite Hs2 in HE. destruct HE as (q & x & pt2 & A1 & A2 & A3 & A4 & _). rewrite A1. simpl. rewrite A2, Hmem.
  destruct (Z.eqb_spec (kaddr x) (kaddr f)) as [Ek|]; [|done]. destruct Hne. assert (q = p) as -> by by eapply (pg_kaddr _ _ _ P).
  destruct (in_memory pds s g cur ua pr e p f) as (B1 & B2 & _); try done. assert (x = f) as -> by congruence. congruence.
Qed.

Lemma hit_view t ua2 : view s' g' t ua2 = if decide ((t, ua2) = (cur, ua)) then Some v else view s g t ua2.
Proof.
  unfold view. change (spt_get s' t ua2) with (spt_get s t ua2). case_decide as Hd.
  - injection Hd as -> ->. assert (G : spt_get s cur ua = Some (pagedir pr, e)) by (apply spt_get_some; eauto). rewrite G. unfold contents. rewrite Hs, Hfr. simpl. rewrite Hf.
    by rewrite Hmem, Z.eqb_refl.
  - destruct (spt_get s t ua2) as [[pd2 e2]|] eqn:G; [|done]. by eapply hit_contents.
Qed.

Lemma hit_clean : clean s' g'.
Proof.
  intros t ua2 pd2 e2 G Hm2 Hs2. change (spt_get s' t ua2) with (spt_get s t ua2) in G. destruct (rd_clean _ _ R _ _ _ _ G Hm2 Hs2) as [(pt2 & H1 & H2) H3].
  assert (Gc : spt_get s cur ua = Some (pagedir pr, e)) by (apply spt_get_some; eauto). destruct (decide ((t, ua2) = (cur, ua))) as [[= -> ->]|Hne].
  - assert (pd2 = pagedir pr /\ e2 = e) as [-> ->] by (split; congruence). destruct (decide (w = true)) as [Hw|Hw%not_true_is_false]; [by rewrite Hmm in Hm2|]. split.
    + eexists. split; [apply lookup_insert_eq|]. simpl. rewrite Hw. simpl. congruence.
    + pose proof (hit_view cur ua) as HV. unfold view in HV. change (spt_get s' cur ua) with (spt_get s cur ua) in HV. rewrite Gc, decide_True in HV by done.
      rewrite HV, (Hsame Hw). change (contents s' g' (set_status PAGE_LAZY e)) with (contents s g (set_status PAGE_LAZY e)). rewrite <- H3. unfold contents. by rewrite Hs, Hfr, Hf.
  - split; [|rewrite (hit_contents t ua2 pd2 e2) by done; apply H3]. exists pt2. simpl. rewrite lookup_insert_ne; [done|]. intros [= E1 <-]. apply Hne.
    apply spt_get_some in G as (pr2 & G1 & _ & G3). f_equal. destruct (rd_inv _ _ R) as [_ P]. eapply (pg_dirs _ _ _ P); [exact G1|exact Hp|congruence].
Qed.

Lemma hit_ready : ready s' g'.
Proof.
  destruct (rd_inv _ _ R) as [(_ & MS & MF) _]. split; [split; [done|apply hit_paging]|apply hit_clean|apply R|apply R].
Qed.

End hit.

(** What an access does to a page, and to the pages of all processes. *)
Definition written (w : option Z) (a : Z) (page : list Z) : list Z := match w with Some v => <[Z.to_nat (a mod 4096) := v]> page | None => page end.
Definition accessed_at (s : vm) (g : ghost) (cur a : Z) (w : option Z) (b : Z) (s' : vm) (g' : ghost) : Prop :=
  exists page, view s g cur (pg_round_down a) = Some page /\ page !! Z.to_nat (a mod 4096) = Some b /\
    (forall t ua, view s' g' t ua = if decide ((t, ua) = (cur, pg_round_down a)) then Some (written w a page) else view s g t ua) /\
    forall t ua, attrs s' t ua = attrs s t ua.

Lemma written_page w a page : is_page page -> (forall v, w = Some v -> is_u8 v) -> is_page (written w a page).
Proof.
  intros [L F1] Hw. destruct w as [v|]; [|done]. split; [simpl; by rewrite length_insert|]. apply Forall_insert; [done|by apply Hw].
Qed.

Lemma access_hit (s : vm) g fuel cur a w esp pr e : ready s g -> is_u32 a -> procs s !! cur = Some pr -> s_page_table pr !! pg_round_down a = Some e -> status e = PAGE_MEMORY ->
  (forall v, w = Some v -> writable e = true /\ mmap e = false /\ is_u8 v) ->
  exists b s' g', access (S fuel) cur a w esp s = Ok (Some b, s') /\ ready s' g' /\ accessed_at s g cur a w b s' g' /\
    (forall n, enough (S n) s g -> enough n s' g') /\ forall n, enough n s g -> enough n s' g'.
Proof.
  intros R Ha Hp He Hs Hw. destruct (rd_inv _ _ R) as [M P]. set (ua := pg_round_down a) in *.
  assert (G : spt_get s cur ua = Some (pagedir pr, e)) by (apply spt_get_some; eauto).
  destruct (pg_entry _ _ _ P _ _ _ _ G) as (E1 & E2 & E3 & _). rewrite Hs in E3. destruct E3 as (p & f & pt & A1 & A2 & A3 & A4 & A5 & A6 & A7).
  pose proof (touch_ok s g cur pr ua (if w then true else false) M Hp (pg_dir _ _ _ P _ _ Hp) E2) as T. rewrite A5 in T.
  destruct T as (d & Et & MA & HR). { intros Hx. destruct w as [v|]; [|done]. destruct (Hw v eq_refl) as (? & _). congruence. }
  destruct (pg_mem _ _ _ P (kaddr f)) as [Lm Fm]. assert (Ho : (Z.to_nat (a mod 4096) < 4096)%nat) by (pose proof (Z.mod_pos_bound a 4096); lia).
  destruct (lookup_lt_is_Some_2 (mem s (kaddr f)) (Z.to_nat (a mod 4096))) as [b Hb]; [lia|].
  set (v := written w a (mem s (kaddr f))). set (mf := match w with Some _ => fun k => if k =? kaddr f then v else mem s k | None => mem s end).
  assert (Hmf : forall k, mf k = if k =? kaddr f then v else mem s k).
  { intros k. subst mf v. destruct w; [done|]. simpl. by destruct (Z.eqb_spec k (kaddr f)) as [->|]. }
  exists b, (with_mem mf (set_mmu d s)), (g_set_map (<[(pagedir pr, ua) := touched (if w then true else false) pt]> (g_map g)) g).
  assert (Hv : is_page v) by (apply written_page; [done|]; intros x Hx; by destruct (Hw x Hx) as (_ & _ & ?)).
  assert (Hsm : (if w then true else false) = false -> v = mem s (kaddr f)) by (intros Hx; subst v; by destruct w).
  assert (Hmm : (if w then true else false) = true -> mmap e = false) by (intros Hx; destruct w as [x|]; [by destruct (Hw x eq_refl) as (_ & ? & _)|done]).
  split; [|split; [|split; [|split]]].
  - cbn [access]. fold ua. rewrite (M_bind_Ok _ _ _ _ _ Et), A6. rewrite (M_bind_Ok _ _ (set_mmu d s) (mem s) (set_mmu d s)) by done.
    rewrite (M_bind_Ok _ _ (set_mmu d s) b (set_mmu d s)) by (unfold from; by rewrite Hb). unfold mf, v. destruct w; [done|]. by destruct s.
  - by apply (hit_ready s g cur ua pr e p f pt d _ v mf).
  - exists (mem s (kaddr f)). split; [unfold view; fold ua; rewrite G; unfold contents; by rewrite Hs, A1, A2|]. split; [done|]. split; [|done].
    intros t ua2. fold ua. by apply (hit_view s g cur ua pr e p f pt d _ v mf).
  - intros n. by apply enough_less.
  - intros n (N1 & N2 & N3). split; [done|]. split; [by apply HR|done].
Qed.

Lemma page_fault_user (s : vm) cur a esp w present : fs_lock s = false -> page_fault cur a esp esp (error_code w present) s = page_fault_handler cur a esp (negb present) s.
Proof.
  intros Hl. unfold page_fault, mbind, M_bind, gets. rewrite Hl. unfold skip, mret, M_ret.
  replace (Z.land (error_code w present) PF_P =? 0) with (negb present) by (by destruct w, present). replace (Z.land (error_code w present) PF_U =? 0) with false by (by destruct w, present).
  cbn [negb]. destruct (page_fault_handler cur a esp (negb present) s) as [[[|] s']|]; done.
Qed.

Lemma access_ok (s : vm) g cur a w esp wr mm : ready s g -> (0 < cap)%nat -> is_u32 a -> attrs s cur (pg_round_down a) = Some (wr, mm) ->
  (forall v, w = Some v -> wr = true /\ mm = false /\ is_u8 v) ->
  let r := access 2 cur a w esp s in
  (exists s', r = Ok (None, s') /\ refused 1 s) \/ (r = Fail FPanic /\ full g) \/
  exists b s' g', r = Ok (Some b, s') /\ ready s' g' /\ accessed_at s g cur a w b s' g' /\ forall n, enough (S n) s g -> enough n s' g'.
Proof.
  intros R Hc Ha Hat Hw r. set (ua := pg_round_down a) in *. assert (exists pd e, spt_get s cur ua = Some (pd, e) /\ writable e = wr /\ mmap e = mm) as (pd & e & G & Ew & Em).
  { unfold attrs in Hat. destruct (spt_get s cur ua) as [[pd e]|]; [|done]. injection Hat as <- <-. by exists pd, e. }
  pose proof G as (pr & Hp & He & Epd)%spt_get_some. destruct (decide (status e = PAGE_MEMORY)) as [Hs|Hne].
  { right; right. destruct (access_hit s g 1 cur a w esp pr e) as (b & s' & g' & H1 & H2 & H3 & H4 & _); try done; [by rewrite Ew, Em|by exists b, s', g']. }
  destruct (rd_inv _ _ R) as [M P]. destruct (pg_entry _ _ _ P _ _ _ _ G) as (E1 & E2 & E3 & _).
  assert (Hmap : g_map g !! (pagedir pr, ua) = None) by (rewrite Epd; destruct (status e); [done|apply E3|apply E3]).
  pose proof (touch_ok s g cur pr ua (if w then true else false) M Hp (pg_dir _ _ _ P _ _ Hp) E2) as T. rewrite Hmap in T.
  assert (Er : r = (let* v := page_fault_handler cur a esp true in match v with Resume => access 1 cur a w esp | Kill => mret None end) s).
  { unfold r. cbn [access]. fold ua. rewrite (M_bind_Ok _ _ _ _ _ T). unfold mbind at 1 3, M_bind at 1 3. rewrite page_fault_user by apply R. by destruct w. }
  rewrite Er. clear Er r.
  destruct (page_fault_ok s g cur pr a esp (rd_inv _ _ R) (rd_clean _ _ R) (rd_lock _ _ R) (idle_evictable s g (rd_inv _ _ R) (rd_idle _ _ R) Hc) Hp Ha) as [_ PF].
  unfold expected in PF. fold ua in PF. rewrite He in PF. destruct (PF Hne Hmap) as [(s' & g' & E & Hr & _)|[[E Hf]|(s1 & g1 & E & [Rs KC] & V)]]; clear PF.
  - left. exists s'. by rewrite (M_bind_Ok _ _ _ _ _ E).
  - right; left. split; [|done]. unfold mbind, M_bind. by rewrite E.
  - right; right. rewrite (M_bind_Ok _ _ _ _ _ E). destruct (rs_entry _ _ _ _ _ _ Rs) as (pd1 & e1 & pt1 & G1 & Hs1 & _).
    assert (Hat1 : forall t ua', attrs s1 t ua' = attrs s t ua').
    { intros t ua'. destruct (decide ((t, ua') = (cur, ua))) as [[= -> ->]|]; apply (rs_attrs _ _ _ _ _ _ Rs); [right; by rewrite Hat|by left]. }
    pose proof (Hat1 cur ua) as Hx. rewrite Hat in Hx. unfold attrs in Hx. rewrite G1 in Hx. injection Hx as Hx1 Hx2. apply spt_get_some in G1 as (pr1 & Hp1 & He1 & _).
    destruct (access_hit s1 g1 0 cur a w esp pr1 e1 (resumed_ready _ _ _ _ _ _ R Rs) Ha Hp1 He1 Hs1) as (b & s' & g' & E4 & R4 & (page & V1 & V2 & V3 & V4) & _ & HN); [by rewrite Hx1, Hx2|].
    assert (HV : forall t ua', view s1 g1 t ua' = view s g t ua') by (intros t ua'; rewrite V, decide_False; [done|by intros [_ ?]]).
    exists b, s', g'. split; [done|]. split; [done|]. split; [|intros n Hn; apply HN; by eapply enough_cost].
    exists page. rewrite <- HV. split; [done|]. split; [done|]. split; [|intros t ua'; by rewrite V4]. intros t ua'. by rewrite V3, HV.
Qed.

(** ** Programs

    Accesses of any number of processes, in any order, up to the first that is killed. *)
Record op := MkOp { op_proc : Z; op_addr : Z; op_write : option Z; op_esp : Z }.

Fixpoint run (ops : list op) : M vm (list Z) :=
  match ops with
  | [] => mret []
  | o :: ops =>
      let* r := access 2 (op_proc o) (op_addr o) (op_write o) (op_esp o) in
      match r with None => mret [] | Some b => let* l := run ops in mret (b :: l) end
  end.

(** What they read from memories that are just there. *)
Fixpoint flat_run (m : Z -> Z -> option (list Z)) (ops : list op) : list Z :=
  match ops with
  | [] => []
  | o :: ops =>
      match m (op_proc o) (pg_round_down (op_addr o)) with
      | Some page =>
          default 0 (page !! Z.to_nat (op_addr o mod 4096)) ::
          flat_run (fun t ua => if decide ((t, ua) = (op_proc o, pg_round_down (op_addr o))) then Some (written (op_write o) (op_addr o) page) else m t ua) ops
      | None => []
      end
  end.

(** Pages the processes have, written only where they may be and where they do not belong to a mapped file. *)
Definition allowed (s : vm) (o : op) : Prop :=
  is_u32 (op_addr o) /\ exists wr mm, attrs s (op_proc o) (pg_round_down (op_addr o)) = Some (wr, mm) /\
    forall v, op_write o = Some v -> wr = true /\ mm = false /\ is_u8 v.

Lemma flat_run_ext ops : forall m m', (forall t ua, m t ua = m' t ua) -> flat_run m ops = flat_run m' ops.
Proof.
  induction ops as [|o ops IH]; intros m m' H; [done|]. cbn [flat_run]. rewrite H. destruct (m' _ _) as [page|]; [|done]. f_equal. apply IH. intros t ua. by rewrite H.
Qed.

(** The accesses [done] were made; the next one, [o], did not return, for the lack of something in the
    state [s1] that they have led to. *)
Definition ended (s : vm) (g : ghost) (ops : list op) : Prop :=
  exists done o rest s1 g1, ops = done ++ o :: rest /\ run done s = Ok (flat_run (view s g) done, s1) /\ ready s1 g1 /\
    let r := access 2 (op_proc o) (op_addr o) (op_write o) (op_esp o) s1 in
    (exists s', r = Ok (None, s') /\ run ops s = Ok (flat_run (view s g) done, s') /\ refused 1 s1) \/
    (r = Fail FPanic /\ run ops s = Fail FPanic /\ full g1).

(** With enough of everything, that does not happen. *)
Lemma access_goes_on n (s : vm) g cur a w esp wr mm : ready s g -> (0 < cap)%nat -> is_u32 a -> attrs s cur (pg_round_down a) = Some (wr, mm) ->
  (forall v, w = Some v -> wr = true /\ mm = false /\ is_u8 v) -> enough (S n) s g ->
  exists b s' g', access 2 cur a w esp s = Ok (Some b, s') /\ ready s' g' /\ accessed_at s g cur a w b s' g' /\ enough n s' g'.
Proof.
  intros R Hc Ha Hat Hw Hn. destruct (enough_not_refused n s g Hn) as [N1 N2].
  destruct (access_ok s g cur a w esp wr mm R Hc Ha Hat Hw) as [(s' & _ & H)|[[_ H]|(b & s' & g' & E & R' & HA & HN)]]; [done|done|]. exists b, s', g'. split_and!; auto.
Qed.

Lemma run_ok ops : forall (s : vm) g, ready s g -> (0 < cap)%nat -> Forall (allowed s) ops ->
  (exists s' g', run ops s = Ok (flat_run (view s g) ops, s') /\ ready s' g' /\ length (flat_run (view s g) ops) = length ops) \/ ended s g ops.
Proof.
  induction ops as [|o ops IH]; intros s g R Hc HA; [left; by exists s, g|]. inversion HA as [|? ? (Ha & wr & mm & Hat & Hw) HA']; subst.
  destruct (access_ok s g (op_proc o) (op_addr o) (op_write o) (op_esp o) wr mm R Hc Ha Hat Hw) as [(s' & E & Hr)|[[E Hf]|(b & s1 & g1 & E & R1 & (page & V1 & V2 & V3 & V4) & HN)]].
  - right. exists [], o, ops, s, g. split_and!; try done. left. exists s'. split; [done|]. split; [|done]. cbn [run]. by rewrite (M_bind_Ok _ _ _ _ _ E).
  - right. exists [], o, ops, s, g. split_and!; try done. right. split; [done|]. split; [|done]. cbn [run]. unfold mbind at 1, M_bind at 1. by rewrite E.
  - set (m1 := fun t ua => if decide ((t, ua) = (op_proc o, pg_round_down (op_addr o))) then Some (written (op_write o) (op_addr o) page) else view s g t ua).
    assert (Er : forall l l' s2, run l s1 = Ok (l', s2) -> run (o :: l) s = Ok (b :: l', s2)).
    { intros l l' s2 H. cbn [run]. rewrite (M_bind_Ok _ _ _ _ _ E), (M_bind_Ok _ _ _ _ _ H). done. }
    assert (Ef : forall l, flat_run (view s g) (o :: l) = b :: flat_run (view s1 g1) l).
    { intros l. cbn [flat_run]. rewrite V1, V2. cbn [default from_option]. f_equal. apply flat_run_ext. intros t ua. by rewrite V3. }
    assert (HA1 : Forall (allowed s1) ops). { eapply Forall_impl; [exact HA'|]. intros o' (B1 & wr' & mm' & B2 & B3). split; [done|]. exists wr', mm'. by rewrite V4. }
    destruct (IH s1 g1 R1 Hc HA1) as [(s' & g' & E' & R' & L')|(dn & o' & rest & s2 & g2 & -> & Ed & R2 & H)].
    + left. exists s', g'. rewrite Ef. split; [by apply Er|]. split; [done|]. simpl. by rewrite L'.
    + right. exists (o :: dn), o', rest, s2, g2. rewrite Ef. split; [done|]. split; [by apply Er|]. split; [done|]. cbv zeta in H |- *. destruct H as [(s' & H1 & H2 & H3)|(H1 & H2 & H3)].
      * left. exists s'. split; [done|]. split; [|done]. by apply Er.
      * right. split; [done|]. split; [|done]. cbn [run]. rewrite (M_bind_Ok _ _ _ _ _ E). unfold mbind, M_bind. by rewrite H2.
Qed.

Lemma run_complete ops : forall (s : vm) g, ready s g -> (0 < cap)%nat -> Forall (allowed s) ops -> enough (length ops) s g ->
  exists s' g', run ops s = Ok (flat_run (view s g) ops, s') /\ ready s' g' /\ length (flat_run (view s g) ops) = length ops.
Proof.
  induction ops as [|o ops IH]; intros s g R Hc HA Hn; [by exists s, g|]. inversion HA as [|? ? (Ha & wr & mm & Hat & Hw) HA']; subst.
  destruct (access_goes_on (length ops) s g (op_proc o) (op_addr o) (op_write o) (op_esp o) wr mm R Hc Ha Hat Hw Hn) as (b & s1 & g1 & E & R1 & (page & V1 & V2 & V3 & V4) & Hn1).
  assert (HA1 : Forall (allowed s1) ops). { eapply Forall_impl; [exact HA'|]. intros o' (B1 & wr' & mm' & B2 & B3). split; [done|]. exists wr', mm'. by rewrite V4. }
  destruct (IH s1 g1 R1 Hc HA1 Hn1) as (s' & g' & E' & R' & L'). exists s', g'. cbn [run flat_run]. rewrite V1, V2, (M_bind_Ok _ _ _ _ _ E).
  cbn [default from_option]. match goal with |- context [flat_run ?m ops] => assert (Em : flat_run m ops = flat_run (view s1 g1) ops) by (apply flat_run_ext; intros t ua; by rewrite V3) end.
  rewrite Em, (M_bind_Ok _ _ _ _ _ E'). split; [done|]. split; [done|]. simpl. by rewrite L'.
Qed.

End fault.

End VmFault.
