(* ===== verification/VmEntries.v ===== *)
(** * Virtual memory: segments, and the end of a page

    How src/vm/spt.c enters the pages of a segment of a file, and gives up what a page has when its entry
    goes. *)

From S2P Require Import Prelude Vaddr Palloc Swap FileStore AddressSpace Vm VmInv VmFault.
Import Vaddr Palloc Swap FileStore AddressSpace Vm VmInv VmFault.

Module VmEntries.

Section entries.
Context {D W F : Type} `{!AddressSpaces D} `{!SwapSpace W} `{!FileStore F}.
Notation vm := (vm (D := D) (W := W) (F := F)).
Context (cap : nat) (pds : gset Z) (slots : Z).
Notation machine := (machine cap pds slots).
Notation paging := (paging pds).
Notation inv := (inv cap pds slots).

(** ** One page *)

Definition with_entry (t : Z) (pr : proc) (ua : Z) (e : spt_entry) (s : vm) : vm :=
  set_procs (<[t := MkProc (pagedir pr) (<[ua := e]> (s_page_table pr))]> (procs s)) s.

Lemma with_entry_spt (s : vm) t pr ua e t' ua' : procs s !! t = Some pr ->
  spt_get (with_entry t pr ua e s) t' ua' = if decide ((t', ua') = (t, ua)) then Some (pagedir pr, e) else spt_get s t' ua'.
Proof.
  intros Hp. unfold spt_get. simpl. destruct (decide (t' = t)) as [->|Ht].
  - rewrite lookup_insert_eq, Hp. simpl. destruct (decide (ua' = ua)) as [->|Hne].
    + rewrite lookup_insert_eq, decide_True by done. done.
    + rewrite lookup_insert_ne, decide_False by congruence. done.
  - rewrite lookup_insert_ne, decide_False by congruence. done.
Qed.

(** A page that is to be read from its file when it is needed. *)
Lemma with_lazy_entry (s : vm) g t pr ua e : inv s g -> procs s !! t = Some pr -> s_page_table pr !! ua = None -> user_page ua -> g_map g !! (pagedir pr, ua) = None ->
  e_uaddr e = ua -> status e = PAGE_LAZY -> e_frame e = None -> backed g e ->
  inv (with_entry t pr ua e s) g /\ forall t' ua', view (with_entry t pr ua e s) g t' ua' = if decide ((t', ua') = (t, ua)) then contents s g e else view s g t' ua'.
Proof.
  intros [M P] Hp He Hu Hm E1 E2 E3 HB. assert (HS := fun t' ua' => with_entry_spt s t pr ua e t' ua' Hp). set (s' := with_entry t pr ua e s) in *. split.
  2:{ intros t' ua'. unfold view. rewrite HS. by case_decide. }
  split; [done|]. assert (Hprocs : forall t2 pr2, procs s' !! t2 = Some pr2 -> exists pr3, procs s !! t2 = Some pr3 /\ pagedir pr3 = pagedir pr2).
  { intros t2 pr2. unfold s'. simpl. intros [[<- <-]|[_ H]]%lookup_insert_Some; eauto. }
  destruct P as [P1 P2 P3 P4 P5 P6 P7 P8 P9 P10 P11 P12]. split; try done.
  - intros t2 pr2 (pr3 & G1 & <-)%Hprocs. by apply (P1 t2).
  - intros t2 pr2 t3 pr3 (pr4 & G1 & <-)%Hprocs (pr5 & G2 & <-)%Hprocs. by apply P2.
  - intros t2 ua2 pd2 e2. rewrite HS. case_decide as Hd; [|apply P3]. injection Hd as -> ->. intros [= <- <-]. split; [done|]. split; [done|]. by rewrite E2.
  - intros t1 ua1 pd1 e1 t2 ua2 pd2 e2. rewrite !HS. do 2 case_decide; intros G1 G2 S1 S2 Ei; simplify_eq; try congruence. by apply (P4 _ _ _ _ _ _ _ _ G1 G2).
  - intros p f Hf. destruct (P5 p f Hf) as [A1 A2]. split; [done|]. intros Hpin. destruct (A2 Hpin) as (pd & e2 & G1 & G2 & G3). exists pd, e2. split; [|done].
    rewrite HS, decide_False; [done|]. intros [= B1 B2]. rewrite B1, B2 in G1. apply spt_get_some in G1 as (pr2 & C1 & C2 & _). congruence.
Qed.

Lemma add_lazy_page_ok (s : vm) t pr file ofs ua rb zb w mm : procs s !! t = Some pr -> user_page ua -> rb + zb = 4096 ->
  let r := add_lazy_page t file ofs ua rb zb w mm s in
  (exists n, r = Ok (false, set_mallocs (tail (mallocs s)) n s) /\ next s <= n /\ (head (mallocs s) <> Some true \/ is_Some (s_page_table pr !! ua))) \/
  (r = Ok (true, with_entry t pr ua (MkEntry ua PAGE_LAZY None file ofs rb zb 0 mm w) (set_mallocs (tail (mallocs s)) (next s + 1) s)) /\
    s_page_table pr !! ua = None /\ head (mallocs s) = Some true).
Proof.
  intros Hp Hu Hrz r. subst r. unfold add_lazy_page. rewrite Hrz. change (negb (u32 4096 =? PGSIZE)) with false. cbv iota.
  destruct (entry_malloc_ok s) as [(r & E & Hm & ->)|E]; rewrite (M_bind_Ok _ _ _ _ _ E); [left; exists (next s); split_and!; [done|lia|by left]|].
  set (s1 := set_mallocs _ _ s). rewrite (M_bind_Ok _ _ s1 pr s1) by by apply get_proc_ok. destruct (s_page_table pr !! ua) as [e|] eqn:He.
  - left. exists (next s + 1). split_and!; [done|lia|by right].
  - right. unfold hash_insert. unfold mbind at 1, M_bind at 1. rewrite (M_bind_Ok _ _ s1 pr s1) by by apply get_proc_ok. cbn [e_uaddr]. rewrite round_down_user, He by done.
    split; [done|]. split; [done|]. unfold malloc in E. destruct (mallocs s) as [|[|] ?]; done.
Qed.

(** ** Segments *)

(** [n] pages from [upage] on. *)
Definition in_range (upage : Z) (n : nat) (ua : Z) : Prop := exists k : nat, (k < n)%nat /\ ua = upage + 4096 * Z.of_nat k.

(** The pages of the segment, one after the other, hold the bytes of the file and the zeros. *)
Definition segment (s : vm) (g : ghost) (t upage : Z) (n : nat) (w mm : bool) (l : list Z) : Prop :=
  exists pages, length pages = n /\ concat pages = l /\
    forall k page, pages !! k = Some page -> view s g t (upage + 4096 * Z.of_nat k) = Some page /\ attrs s t (upage + 4096 * Z.of_nat k) = Some (w, mm).

Lemma segment_bytes (c : list Z) ofs rb zb : 0 <= ofs -> 0 <= rb -> 0 <= zb -> 4096 <= rb + zb ->
  let rb1 := if rb <? 4096 then rb else 4096 in
  (take (Z.to_nat rb1) (drop (Z.to_nat ofs) c) ++ replicate (Z.to_nat (4096 - rb1)) 0) ++
  take (Z.to_nat (rb - rb1)) (drop (Z.to_nat (ofs + 4096)) c) ++ replicate (Z.to_nat (zb - (4096 - rb1))) 0 =
  take (Z.to_nat rb) (drop (Z.to_nat ofs) c) ++ replicate (Z.to_nat zb) 0.
Proof.
  intros H1 H2 H3 H4 rb1. subst rb1. destruct (Z.ltb_spec rb 4096).
  - rewrite Z.sub_diag. change (take (Z.to_nat 0) (drop (Z.to_nat (ofs + 4096)) c)) with (@nil Z). rewrite app_nil_l, <- app_assoc, <- replicate_add. do 2 f_equal. lia.
  - change (replicate (Z.to_nat (4096 - 4096)) 0) with (@nil Z). rewrite app_nil_r, app_assoc. f_equal; [|f_equal; lia].
    replace (Z.to_nat rb) with (Z.to_nat 4096 + Z.to_nat (rb - 4096))%nat by lia. replace (Z.to_nat (ofs + 4096)) with (Z.to_nat ofs + Z.to_nat 4096)%nat by lia.
    rewrite <- drop_drop. apply take_take_drop.
Qed.

(** What is asked of a segment: whole pages, inside the user's addresses, of a part of the file. *)
Record segment_ok (g : ghost) (h i : Z) (c : list Z) (ofs upage rb zb : Z) (n : nat) : Prop := {
  sg_file : exists pos, g_pos g !! h = Some (i, pos) /\ g_files g !! i = Some c;
  sg_whole : 0 <= rb /\ 0 <= zb /\ rb + zb = 4096 * Z.of_nat n;
  sg_ofs : 0 <= ofs /\ ofs mod 4096 = 0 /\ ofs + 4096 * Z.of_nat n < 2 ^ 31;
  sg_bytes : 0 < rb -> ofs + rb <= Z.of_nat (length c);
  sg_pages : user_page upage /\ upage + 4096 * Z.of_nat n <= PHYS_BASE
}.

Lemma segment_next g h i c ofs upage rb zb n : segment_ok g h i c ofs upage rb zb (S n) ->
  let rb1 := if rb <? PGSIZE then rb else PGSIZE in
  (0 <= rb1 /\ 0 <= PGSIZE - rb1 /\ rb1 <= rb) /\ u32 (rb - rb1) = rb - rb1 /\ u32 (zb - (PGSIZE - rb1)) = zb - (PGSIZE - rb1) /\ s32 (ofs + PGSIZE) = ofs + PGSIZE /\
  u32 (upage + PGSIZE) = upage + PGSIZE /\ (n <> 0%nat -> segment_ok g h i c (ofs + PGSIZE) (upage + PGSIZE) (rb - rb1) (zb - (PGSIZE - rb1)) n).
Proof.
  intros [S1 (S2 & S3 & S4) (S5 & S6 & S7) S8 ([S9 S10] & S11)] rb1. change PGSIZE with 4096 in *. unfold PHYS_BASE in *.
  assert (H : 0 <= rb1 /\ 0 <= 4096 - rb1 /\ rb1 <= rb /\ 0 <= zb - (4096 - rb1)) by (unfold rb1; destruct (Z.ltb_spec rb 4096); lia).
  split; [lia|]. rewrite !u32_small, s32_small by (unfold is_u32, is_s32; lia). split_and!; try done. intros Hn. split; [done|lia| | |].
  - split; [lia|]. split; [|lia]. rewrite <- Zplus_mod_idemp_l, S6. done.
  - unfold rb1. destruct (Z.ltb_spec rb 4096); lia.
  - split; [|unfold PHYS_BASE; lia]. split; [unfold PHYS_BASE; lia|]. rewrite <- Zplus_mod_idemp_l, S10. done.
Qed.

Lemma inv_view_mallocs (s : vm) g r n : inv s g -> next s <= n -> inv (set_mallocs r n s) g /\ forall t ua, view (set_mallocs r n s) g t ua = view s g t ua.
Proof. intros I Hn. split; [by apply inv_mallocs|done]. Qed.

Lemma segment_loop n : forall (s : vm) g t pr h i c ofs upage rb zb w mm,
  inv s g -> procs s !! t = Some pr -> (n <> 0%nat -> segment_ok g h i c ofs upage rb zb n) -> (n = 0%nat -> rb = 0 /\ zb = 0) ->
  (forall ua, in_range upage n ua -> s_page_table pr !! ua = None -> g_map g !! (pagedir pr, ua) = None) ->
  exists ok s', spt_initialize_file_as_lazy n t (Some h) ofs upage rb zb w mm s = Ok (ok, s') /\ inv s' g /\
    (ok = false -> (exists ua, in_range upage n ua /\ is_Some (s_page_table pr !! ua)) \/ ~ replicate n true `prefix_of` mallocs s) /\
    (ok = true -> segment s' g t upage n w mm (take (Z.to_nat rb) (drop (Z.to_nat ofs) c) ++ replicate (Z.to_nat zb) 0)) /\
    (forall t' ua', ~ (t' = t /\ in_range upage n ua') -> view s' g t' ua' = view s g t' ua' /\ attrs s' t' ua' = attrs s t' ua').
Proof.
  induction n as [|n IH]; intros s g t pr h i c ofs upage rb zb w mm I Hp SG H0 Hmap.
  { destruct (H0 eq_refl) as [-> ->]. exists true, s. split; [done|]. split; [done|]. split; [done|]. split; [|done]. intros _. exists []. done. }
  specialize (SG ltac:(done)). pose proof (segment_next _ _ _ _ _ _ _ _ _ SG) as (B1 & B2 & B3 & B4 & B5 & B6). destruct SG as [(pos & F1 & F2) (S2 & S3 & S4) (S5 & S6 & S7) S8 (Hu & S11)].
  cbn [spt_initialize_file_as_lazy]. replace ((0 <? rb) || (0 <? zb)) with true by (symmetry; apply orb_true_iff; rewrite !Z.ltb_lt; lia). cbv iota.
  set (rb1 := if rb <? PGSIZE then rb else PGSIZE) in *. cbv zeta. change PGSIZE with 4096 in *.
  assert (R0 : in_range upage (S n) upage) by (exists 0%nat; split; lia).
  destruct (add_lazy_page_ok s t pr (Some h) ofs upage rb1 (4096 - rb1) w mm Hp Hu ltac:(lia)) as [(nx & E & Hnx & Hwhy)|(E & He & Hh)]; rewrite (M_bind_Ok _ _ _ _ _ E).
  { eexists false, _. split; [reflexivity|]. split; [by apply inv_mallocs|]. split; [|done]. intros _. destruct Hwhy as [Hm|Hsome]; [right|left; eauto].
    intros [r Er]. by rewrite Er in Hm. }
  set (s1 := set_mallocs (tail (mallocs s)) (next s + 1) s). destruct (inv_view_mallocs s g (tail (mallocs s)) (next s + 1) I ltac:(lia)) as [I1 V1]. fold s1 in I1, V1.
  set (e := MkEntry upage PAGE_LAZY None (Some h) ofs rb1 (4096 - rb1) 0 mm w).
  assert (HB : backed g e).
  { exists h, i, pos, c. unfold e. simpl. split_and!; try done; try lia. }
  destruct (with_lazy_entry s1 g t pr upage e I1 Hp He Hu (Hmap _ R0 He) eq_refl eq_refl eq_refl HB) as [I2 V2]. set (s2 := with_entry t pr upage e s1) in *.
  rewrite B2, B3, B4, B5. set (pr2 := MkProc (pagedir pr) (<[upage := e]> (s_page_table pr))).
  assert (Hp2 : procs s2 !! t = Some pr2) by apply lookup_insert_eq.
  assert (HR : forall ua, in_range (upage + 4096) n ua -> in_range upage (S n) ua /\ ua <> upage) by (intros ua (k & Hk & ->); split; [exists (S k); split|]; lia).
  assert (HE : forall ua, in_range (upage + 4096) n ua -> s_page_table pr2 !! ua = s_page_table pr !! ua) by (intros ua [_ Hne]%HR; by apply lookup_insert_ne).
  assert (HA2 : forall t' ua', (t', ua') <> (t, upage) -> attrs s2 t' ua' = attrs s t' ua') by (intros t' ua' Hne; unfold attrs; unfold s2; rewrite with_entry_spt, decide_False by done; done).
  destruct (IH s2 g t pr2 h i c (ofs + 4096) (upage + 4096) (rb - rb1) (zb - (4096 - rb1)) w mm I2 Hp2 B6) as (ok & s' & E' & I' & Hno & Hyes & Hother).
  { intros ->. unfold rb1. destruct (Z.ltb_spec rb 4096); lia. }
  { intros ua Hua. rewrite (HE ua Hua). apply Hmap. by apply HR. }
  exists ok, s'. split; [done|]. split; [done|]. assert (N0 : ~ in_range (upage + 4096) n upage) by (intros [_ []]%HR; done). split; [|split].
  - intros Hok. destruct (Hno Hok) as [(ua & Hua & Hs)|Hpre].
    + left. exists ua. rewrite <- (HE ua Hua). split; [by apply HR|done].
    + right. intros Hpre'. apply Hpre. simpl. destruct (mallocs s) as [|b r]; [by apply prefix_nil_not in Hpre'|]. apply prefix_cons_inv_2 in Hpre'. done.
  - intros Hok. destruct (Hyes Hok) as (pages & L & Ec & Hpg). destruct (Hother t upage) as [Vu Au]; [by intros [_ ?]|].
    exists ((take (Z.to_nat rb1) (drop (Z.to_nat ofs) c) ++ replicate (Z.to_nat (4096 - rb1)) 0) :: pages). split; [simpl; by rewrite L|]. split.
    + cbn [concat]. rewrite Ec. apply segment_bytes; lia.
    + intros [|k] page Hk; cbn [lookup list_lookup] in Hk.
      * injection Hk as <-. rewrite Z.mul_0_r, Z.add_0_r, Vu, Au, V2, decide_True by done. split; [unfold contents; simpl; by rewrite F1, F2|].
        unfold attrs, s2. rewrite with_entry_spt, decide_True by done. done.
      * replace (upage + 4096 * Z.of_nat (S k)) with (upage + 4096 + 4096 * Z.of_nat k) by lia. by apply Hpg.
  - intros t' ua' Hout. assert (Hne : (t', ua') <> (t, upage)) by (intros [= -> ->]; by apply Hout).
    destruct (Hother t' ua') as [Vo Ao]; [intros [-> Hr]; apply Hout; split; [done|by apply HR]|]. by rewrite Vo, Ao, V2, V1, HA2, decide_False.
Qed.

(** Only the table of the process and the heap change, and only where the segment is; a segment is
    entered in full only where there was no page. *)
Record filled (s : vm) (t : Z) (pr : proc) (upage : Z) (n : nat) (ok : bool) (s' : vm) : Prop := {
  fd_state : exists tab m nx, s' = set_mallocs m nx (set_procs (<[t := MkProc (pagedir pr) tab]> (procs s)) s) /\ (ok = true -> m = drop n (mallocs s)) /\
    forall ua, tab !! ua = s_page_table pr !! ua \/ in_range upage n ua /\ exists e, tab !! ua = Some e /\ status e = PAGE_LAZY /\ mmap e = false;
  fd_fresh ua : ok = true -> in_range upage n ua -> s_page_table pr !! ua = None
}.

Lemma segment_filled n : forall (s : vm) g t pr h i c ofs upage rb zb w ok s',
  procs s !! t = Some pr -> (n <> 0%nat -> segment_ok g h i c ofs upage rb zb n) -> (n = 0%nat -> rb = 0 /\ zb = 0) ->
  spt_initialize_file_as_lazy n t (Some h) ofs upage rb zb w false s = Ok (ok, s') -> filled s t pr upage n ok s'.
Proof.
  induction n as [|n IH]; intros s g t pr h i c ofs upage rb zb w ok s' Hp SG H0.
  { destruct (H0 eq_refl) as [-> ->]. intros [= <- <-]. split; [|intros ua _ (k & Hk & _); lia]. exists (s_page_table pr), (mallocs s), (next s).
    split; [|split; [done|by left]]. destruct pr. simpl. rewrite insert_id by done. by destruct s. }
  specialize (SG ltac:(done)). pose proof (segment_next _ _ _ _ _ _ _ _ _ SG) as (B1 & B2 & B3 & B4 & B5 & B6). destruct SG as [_ (S2 & S3 & S4) _ _ (Hu & _)].
  cbn [spt_initialize_file_as_lazy]. replace ((0 <? rb) || (0 <? zb)) with true by (symmetry; apply orb_true_iff; rewrite !Z.ltb_lt; lia). cbv iota zeta.
  rewrite B2, B3, B4, B5. change PGSIZE with 4096 in *. set (rb1 := if rb <? 4096 then rb else 4096) in *.
  assert (R0 : in_range upage (S n) upage) by (exists 0%nat; split; lia).
  destruct (add_lazy_page_ok s t pr (Some h) ofs upage rb1 (4096 - rb1) w false Hp Hu ltac:(lia)) as [(nx & E & _)|(E & He & Hh)]; rewrite (M_bind_Ok _ _ _ _ _ E).
  { intros [= <- <-]. split; [|done]. exists (s_page_table pr), (tail (mallocs s)), nx. split; [|split; [done|by left]]. destruct pr. simpl. by rewrite insert_id by done. }
  set (s1 := with_entry _ _ _ _ _). intros E1.
  destruct (IH s1 g t (MkProc (pagedir pr) (<[upage := MkEntry upage PAGE_LAZY None (Some h) ofs rb1 (4096 - rb1) 0 false w]> (s_page_table pr))) h i c
    (ofs + 4096) (upage + 4096) (rb - rb1) (zb - (4096 - rb1)) w ok s' ltac:(apply lookup_insert_eq) B6) as [(tab & m & nx & Es & Hm & Ht) Hf]; [|done|].
  { intros ->. unfold rb1. destruct (Z.ltb_spec rb 4096); lia. }
  assert (HR : forall ua, in_range (upage + 4096) n ua -> in_range upage (S n) ua /\ ua <> upage) by (intros ua (k & Hk & ->); split; [exists (S k); split|]; lia).
  simpl in Ht, Hf. split.
  - exists tab, m, nx. split; [subst s'; unfold s1, with_entry; simpl; by rewrite insert_insert_eq|]. split.
    + intros Hok. rewrite (Hm Hok). unfold s1. simpl. by destruct (mallocs s).
    + intros ua. destruct (Ht ua) as [Eu|[Hin He2]]; [|right; split; [by apply HR|done]]. destruct (decide (ua = upage)) as [->|Hne].
      * right. split; [done|]. rewrite Eu, lookup_insert_eq. by eexists.
      * left. by rewrite Eu, lookup_insert_ne.
  - intros ua Hok (k & Hk & ->). destruct k as [|k]; [by rewrite Z.mul_0_r, Z.add_0_r|]. assert (Hin : in_range (upage + 4096) n (upage + 4096 * Z.of_nat (S k))) by (exists k; lia).
    pose proof (Hf _ Hok Hin) as HN. by rewrite lookup_insert_ne in HN by lia.
Qed.

(** ** The end of a page *)

(** The entry [e] of the page [ua] of [t] goes, with the frame [o] or the swap slot it has. *)
Record destroys (s : vm) (g : ghost) (t ua : Z) (pr : proc) (e : spt_entry) (o : option (Z * frame)) (s' : vm) (g' : ghost) : Prop := {
  ds_frame : match o with Some (p, f) => status e = PAGE_MEMORY /\ e_frame e = Some p /\ frames s !! p = Some f | None => status e <> PAGE_MEMORY end;
  ds_procs : procs s' = <[t := MkProc (pagedir pr) (delete ua (s_page_table pr))]> (procs s);
  ds_frames q x : frames s' !! q = Some x <-> frames s !! q = Some x /\ Some q <> (fst <$> o);
  ds_table q : q ∈ frame_table s' <-> q ∈ frame_table s /\ Some q <> (fst <$> o);
  ds_nodup : NoDup (frame_table s');
  ds_hand q : clock_hand s' = HElem q -> q ∈ frame_table s';
  ds_rest : next s' = next s /\ frame_lock s' = frame_lock s /\ fs_lock s' = fs_lock s;
  ds_mem k : mem s' k = if decide (Some k = kaddr <$> (snd <$> o)) then freed_page else mem s k;
  ds_us : g_us g' = match o with Some (_, f) => g_us g ∖ {[ kaddr f ]} | None => g_us g end;
  ds_map : g_map g' = if o then delete (pagedir pr, ua) (g_map g) else g_map g;
  ds_swap : g_swap g' = if decide (status e = PAGE_SWAP) then delete (swap_index e) (g_swap g) else g_swap g;
  ds_files : g_pos g' = g_pos g /\ g_files g' = g_files g
}.

Section destroy.
Context (s : vm) (g : ghost) (t ua : Z) (pr : proc) (e : spt_entry) (o : option (Z * frame)) (s' : vm) (g' : ghost).
Hypothesis P : paging s g.
Hypothesis Hp : procs s !! t = Some pr.
Hypothesis He : s_page_table pr !! ua = Some e.
Hypothesis E : destroys s g t ua pr e o s' g'.

Lemma destroys_spt t2 ua2 : spt_get s' t2 ua2 = if decide ((t2, ua2) = (t, ua)) then None else spt_get s t2 ua2.
Proof.
  unfold spt_get. rewrite (ds_procs _ _ _ _ _ _ _ _ _ E). destruct (decide (t2 = t)) as [->|Ht].
  - rewrite lookup_insert_eq, Hp. simpl. destruct (decide (ua2 = ua)) as [->|Hne].
    + rewrite lookup_delete_eq, decide_True by done. done.
    + rewrite lookup_delete_ne, decide_False by congruence. done.
  - rewrite lookup_insert_ne, decide_False by congruence. done.
Qed.

Lemma destroyed_entry : spt_get s t ua = Some (pagedir pr, e).
Proof. apply spt_get_some. eauto. Qed.

(** No other page has that frame or that slot. *)
Lemma destroys_frame t2 ua2 pd2 e2 p2 f2 : spt_get s t2 ua2 = Some (pd2, e2) -> (t2, ua2) <> (t, ua) -> status e2 = PAGE_MEMORY -> e_frame e2 = Some p2 -> frames s !! p2 = Some f2 ->
  frames s' !! p2 = Some f2 /\ Some (kaddr f2) <> kaddr <$> (snd <$> o).
Proof.
  intros G Hne Hs2 Hf2 Hp2. apply spt_get_some in G as (pr2 & G1 & G2 & _). destruct (in_memory pds s g t2 ua2 pr2 e2 p2 f2) as (B1 & B2 & _); try done.
  rewrite (ds_frames _ _ _ _ _ _ _ _ _ E). pose proof (ds_frame _ _ _ _ _ _ _ _ _ E) as Ho. destruct o as [[p f]|]; [|done]. destruct Ho as (H1 & H2 & H3).
  destruct (in_memory pds s g t ua pr e p f) as (C1 & C2 & _); try done. split; [split; [done|]|]; simpl.
  - intros [= ->]. apply Hne. congruence.
  - intros [= Ek]. apply Hne. assert (p2 = p) as -> by by eapply (pg_kaddr _ _ _ P). congruence.
Qed.
Lemma destroys_slot t2 ua2 pd2 e2 : spt_get s t2 ua2 = Some (pd2, e2) -> (t2, ua2) <> (t, ua) -> status e2 = PAGE_SWAP -> g_swap g' !! swap_index e2 = g_swap g !! swap_index e2.
Proof.
  intros G Hne Hs2. rewrite (ds_swap _ _ _ _ _ _ _ _ _ E). case_decide as Hs; [|done]. apply lookup_delete_ne. intros Ei. apply Hne.
  destruct (pg_slots _ _ _ P _ _ _ _ _ _ _ _ G destroyed_entry Hs2 Hs) as [-> ->]; done.
Qed.

Lemma destroys_entry_ok t2 ua2 pd2 e2 : spt_get s' t2 ua2 = Some (pd2, e2) -> entry_ok s' g' t2 pd2 ua2 e2.
Proof.
  rewrite destroys_spt. case_decide as Hd; [done|]. intros G. destruct (pg_entry _ _ _ P _ _ _ _ G) as (E1 & E2 & E3 & E4). split; [done|]. split; [done|].
  destruct (ds_files _ _ _ _ _ _ _ _ _ E) as [F1 F2]. split; [|intros Hc; eapply backed_kept; [by apply files_kept_refl|by apply E4]].
  assert (Hm : g_map g' !! (pd2, ua2) = g_map g !! (pd2, ua2)).
  { rewrite (ds_map _ _ _ _ _ _ _ _ _ E). destruct o; [|done]. apply lookup_delete_ne. intros [= B1 <-]. apply Hd. f_equal.
    apply spt_get_some in G as (pr2 & G1 & _ & G3). eapply (pg_dirs _ _ _ P); [exact G1|exact Hp|congruence]. }
  rewrite Hm. destruct (status e2) eqn:Hs2; [|done|].
  - destruct E3 as (p2 & f2 & pt & A1 & A2 & A). exists p2, f2, pt. split; [done|]. split; [|done]. by apply (destroys_frame t2 ua2 pd2 e2).
  - destruct E3 as (A1 & A2 & A3 & A4). split_and!; try done. by rewrite (destroys_slot t2 ua2 pd2 e2).
Qed.

Lemma destroys_paging : paging s' g'.
Proof.
  assert (Hprocs : forall t2 pr2, procs s' !! t2 = Some pr2 -> exists pr3, procs s !! t2 = Some pr3 /\ pagedir pr3 = pagedir pr2).
  { intros t2 pr2. rewrite (ds_procs _ _ _ _ _ _ _ _ _ E). intros [[<- <-]|[_ H]]%lookup_insert_Some; eauto. }
  destruct (ds_rest _ _ _ _ _ _ _ _ _ E) as (Hnx & _). pose proof (ds_frame _ _ _ _ _ _ _ _ _ E) as Ho. split.
  - intros t2 pr2 (pr3 & G1 & <-)%Hprocs. by apply (pg_dir _ _ _ P t2).
  - intros t2 pr2 t3 pr3 (pr4 & G1 & <-)%Hprocs (pr5 & G2 & <-)%Hprocs. by apply (pg_dirs _ _ _ P).
  - apply destroys_entry_ok.
  - intros t1 ua1 pd1 e1 t2 ua2 pd2 e2. rewrite !destroys_spt. do 2 case_decide; try done. by apply (pg_slots _ _ _ P).
  - intros q x [Hq Hne]%(ds_frames _ _ _ _ _ _ _ _ _ E). destruct (pg_frame _ _ _ P q x Hq) as [A1 A2]. split.
    + rewrite (ds_us _ _ _ _ _ _ _ _ _ E). destruct o as [[p f]|]; [|done]. apply elem_of_difference. split; [done|]. intros Ek%elem_of_singleton.
      apply Hne. simpl. f_equal. eapply (pg_kaddr _ _ _ P); [exact Hq|apply Ho|done].
    + intros Hpin. destruct (A2 Hpin) as (pd & e2 & G1 & G2 & G3). exists pd, e2. split; [|done]. rewrite destroys_spt, decide_False; [done|]. intros [= B1 B2].
      rewrite B1, B2, destroyed_entry in G1. injection G1 as <- <-. destruct o as [[p f]|]; [|done]. apply Hne. simpl. destruct Ho as (_ & Ho & _). congruence.
  - intros q x q' x' [H1 _]%(ds_frames _ _ _ _ _ _ _ _ _ E) [H2 _]%(ds_frames _ _ _ _ _ _ _ _ _ E). by apply (pg_kaddr _ _ _ P).
  - intros k. rewrite (ds_us _ _ _ _ _ _ _ _ _ E). intros Hk. assert (Hk' : k ∈ g_us g) by (destruct o as [[? ?]|]; [by apply elem_of_difference in Hk as [? _]|done]).
    destruct (pg_used _ _ _ P k Hk') as (q & x & Hq & <-). exists q, x. split; [|done]. apply (ds_frames _ _ _ _ _ _ _ _ _ E). split; [done|].
    destruct o as [[p f]|]; [|done]. simpl. intros [= ->]. destruct Ho as (_ & _ & Ho). apply elem_of_difference in Hk as [_ Hk]. apply Hk, elem_of_singleton. congruence.
  - intros k. rewrite (ds_mem _ _ _ _ _ _ _ _ _ E). case_decide; [apply freed_page_ok|apply P].
  - intros q. rewrite (ds_table _ _ _ _ _ _ _ _ _ E), (pg_table _ _ _ P). split.
    + intros [[x Hx] Hne]. exists x. by apply (ds_frames _ _ _ _ _ _ _ _ _ E).
    + intros [x [Hx Hne]%(ds_frames _ _ _ _ _ _ _ _ _ E)]. split; [by exists x|done].
  - apply E.
  - intros q [Hq _]%(ds_table _ _ _ _ _ _ _ _ _ E). rewrite Hnx. by apply (pg_fresh _ _ _ P).
  - apply E.
Qed.

Lemma destroys_view t2 ua2 : view s' g' t2 ua2 = if decide ((t2, ua2) = (t, ua)) then None else view s g t2 ua2.
Proof.
  unfold view. rewrite destroys_spt. case_decide as Hd; [done|]. destruct (spt_get s t2 ua2) as [[pd2 e2]|] eqn:G; [|done].
  destruct (pg_entry _ _ _ P _ _ _ _ G) as (_ & _ & HE & _). destruct (ds_files _ _ _ _ _ _ _ _ _ E) as [F1 F2]. unfold contents. destruct (status e2) eqn:Hs2.
  - destruct HE as (p2 & f2 & pt & A1 & A2 & _). rewrite A1, A2. destruct (destroys_frame t2 ua2 pd2 e2 p2 f2 G Hd Hs2 A1 A2) as [-> Hk].
    by rewrite (ds_mem _ _ _ _ _ _ _ _ _ E), decide_False.
  - by rewrite F1, F2.
  - by apply (destroys_slot t2 ua2 pd2 e2).
Qed.

End destroy.

(** The frame of a page is unmapped and given back. *)
Lemma release_frame_ok (s : vm) g t ua pr e p f nx : inv s g -> procs s !! t = Some pr -> owner f = t -> user_page ua -> e_uaddr e = ua -> frames s !! p = Some f ->
  elem_after p (frame_table s) = Some nx ->
  exists d, as_inv d cap (g_us g ∖ {[ kaddr f ]}) pds (delete (pagedir pr, ua) (g_map g)) /\
    (do* pin p true ; let* f := get_frame p in let* pr := get_proc (owner f) in do* on_mmu (as_clear (pagedir pr) (e_uaddr e)) ; frame_free p) s =
    Ok (tt, set_frames (delete p (<[p := set_pinned true f]> (frames s))) (filter (fun q => q <> p) (frame_table s)) (if bool_decide (clock_hand s = HElem p) then nx else clock_hand s)
              (set_page (kaddr f) freed_page (set_mmu d s))).
Proof.
  intros [(MA & MS & MF) P] Hp Ho Hu Eu Hf Hn. destruct (pg_frame _ _ _ P p f Hf) as [Hk _].
  destruct (as_clear_ok _ _ _ _ _ (pagedir pr) ua MA (pg_dir _ _ _ P _ _ Hp) Hu) as (d1 & Ec & MA1).
  assert (Hf1 : frames (pin_state p true f s) !! p = Some (set_pinned true f)) by apply lookup_insert_eq.
  destruct (frame_free_ok cap pds (set_mmu d1 (pin_state p true f s)) _ _ p _ nx MA1 Hf1 Hk Hn) as (d2 & MA2 & _ & Ef). exists d2. split; [done|].
  unfold pin. unfold mbind at 1, M_bind at 1. rewrite (M_bind_Ok _ _ s f s) by by apply get_frame_ok. unfold put_frame, modify. fold (pin_state p true f s).
  rewrite (M_bind_Ok _ _ _ _ _ (get_frame_ok (pin_state p true f s) p _ Hf1)). cbn [owner set_pinned]. rewrite Ho.
  rewrite (M_bind_Ok _ _ _ _ _ (get_proc_ok (pin_state p true f s) t pr Hp)), Eu, (M_bind_Ok _ _ _ _ _ (on_mmu_ok _ (pin_state p true f s) _ _ Ec)). exact Ef.
Qed.

Lemma spt_destroy_entry_ok (s : vm) g t ua pr e : inv s g -> procs s !! t = Some pr -> s_page_table pr !! ua = Some e ->
  exists s' g' o, spt_destroy_entry t ua s = Ok (tt, s') /\ machine s' g' /\ destroys s g t ua pr e o s' g'.
Proof.
  intros I Hp He. pose proof I as [(MA & MS & MF) P]. assert (G : spt_get s t ua = Some (pagedir pr, e)) by (apply spt_get_some; eauto).
  destruct (pg_entry _ _ _ P _ _ _ _ G) as (E1 & E2 & E3 & _). unfold spt_destroy_entry. rewrite (M_bind_Ok _ _ s e s) by (by eapply get_entry_ok).
  assert (Hput : forall s1 : vm, procs s1 = procs s -> (let* pr := get_proc t in put_table t pr (delete ua (s_page_table pr))) s1 =
    Ok (tt, set_procs (<[t := MkProc (pagedir pr) (delete ua (s_page_table pr))]> (procs s1)) s1)) by (intros s1 Es; by rewrite (M_bind_Ok _ _ s1 pr s1) by (apply get_proc_ok; by rewrite Es)).
  destruct (status e) eqn:Hs.
  - destruct E3 as (p & f & pt & A1 & A2 & A3 & A4 & A5 & A6 & A7). rewrite A1.
    change (bool_decide (PAGE_MEMORY = PAGE_MEMORY)) with true. change (bool_decide (PAGE_MEMORY = PAGE_SWAP)) with false. cbv iota.
    destruct (in_memory pds s g t ua pr e p f) as (_ & _ & _ & _ & Hpd & Hk & _ & _ & nx & Hn); try done.
    destruct (release_frame_ok s g t ua pr e p f nx I Hp A3 E2 E1 A2 Hn) as (d & MA' & Er). rewrite (M_bind_Ok _ _ _ _ _ Er).
    match goal with |- context [mbind _ skip ?x] => set (s1 := x) end. rewrite (M_bind_Ok _ _ s1 tt s1), Hput by done.
    eexists _, (MkGhost (g_us g ∖ {[ kaddr f ]}) (delete (pagedir pr, ua) (g_map g)) (g_swap g) (g_pos g) (g_files g)), (Some (p, f)). split; [reflexivity|]. split; [done|].
    split; try done; simpl.
    + intros q x. rewrite delete_insert_eq, lookup_delete_Some. naive_solver.
    + intros q. rewrite list_elem_of_filter. naive_solver.
    + apply NoDup_filter, P.
    + intros q. by apply (hand_kept pds s g).
    + intros k. destruct (Z.eqb_spec k (kaddr f)) as [->|]; [by rewrite decide_True|rewrite decide_False; [done|congruence]].
    + by rewrite Hs.
  - destruct E3 as [A1 A2]. rewrite A1. change (bool_decide (PAGE_LAZY = PAGE_SWAP)) with false. do 2 rewrite (M_bind_Ok _ _ s tt s) by done. rewrite Hput by done.
    eexists _, g, None. split; [reflexivity|]. split; [done|]. split; try done; simpl; [congruence|by intros; naive_solver|by intros; naive_solver|apply P|apply P|by rewrite Hs].
  - destruct E3 as (A1 & A2 & [page A3] & A4). rewrite A1. change (bool_decide (PAGE_SWAP = PAGE_SWAP)) with true. rewrite (M_bind_Ok _ _ s tt s) by done.
    destruct (sp_free_ok _ _ _ _ _ MS A3) as (w & Ew & MS'). erewrite (M_bind_Ok _ _ s tt (set_swp w s)) by (by rewrite Ew). rewrite Hput by done.
    eexists _, (MkGhost (g_us g) (g_map g) (delete (swap_index e) (g_swap g)) (g_pos g) (g_files g)), None. split; [reflexivity|]. split; [done|].
    split; try done; simpl; [congruence|by intros; naive_solver|by intros; naive_solver|apply P|apply P|by rewrite Hs].
Qed.

(** ** The end of a process *)

Definition in_frame (pr : proc) (q : Z) : Prop := exists ua e, s_page_table pr !! ua = Some e /\ status e = PAGE_MEMORY /\ e_frame e = Some q.
Definition in_slot (pr : proc) (k : Z) : Prop := exists ua e, s_page_table pr !! ua = Some e /\ status e = PAGE_SWAP /\ swap_index e = k.

(** The frames and the swap slots of the process are free, and everything else is as it was. *)
Record released (s : vm) (g : ghost) (t : Z) (pr : proc) (s' : vm) (g' : ghost) : Prop := {
  rl_inv : inv s' g';
  rl_procs : procs s' = <[t := MkProc (pagedir pr) ∅]> (procs s);
  rl_view t' ua : view s' g' t' ua = if decide (t' = t) then None else view s g t' ua;
  rl_frames q x : frames s' !! q = Some x <-> frames s !! q = Some x /\ ~ in_frame pr q;
  rl_slots k page : g_swap g' !! k = Some page <-> g_swap g !! k = Some page /\ ~ in_slot pr k
}.

Lemma released_nil (s : vm) g t pr : inv s g -> procs s !! t = Some pr -> s_page_table pr = ∅ -> released s g t pr s g.
Proof.
  intros I Hp He. assert (N : forall ua e, s_page_table pr !! ua = Some e -> False) by (intros ua e H; by rewrite He, lookup_empty in H). split; try done.
  - rewrite insert_id; [done|]. rewrite Hp, <- He. by destruct pr.
  - intros t' ua. case_decide as Hd; [|done]. subst t'. unfold view, spt_get. by rewrite Hp, He, lookup_empty.
  - intros q x. split; [|by intros [? _]]. intros H. split; [done|]. intros (ua & e & H1 & _). by eapply N.
  - intros k page. split; [|by intros [? _]]. intros H. split; [done|]. intros (ua & e & H1 & _). by eapply N.
Qed.

Lemma released_cons (s : vm) g t pr ua e o s1 g1 s' g' : inv s g -> procs s !! t = Some pr -> s_page_table pr !! ua = Some e ->
  destroys s g t ua pr e o s1 g1 -> released s1 g1 t (MkProc (pagedir pr) (delete ua (s_page_table pr))) s' g' -> released s g t pr s' g'.
Proof.
  intros [M P] Hp He E [R1 R2 R3 R4 R5]. pose proof (ds_frame _ _ _ _ _ _ _ _ _ E) as Ho. split; try done.
  - by rewrite R2, (ds_procs _ _ _ _ _ _ _ _ _ E), insert_insert_eq.
  - intros t' ua2. rewrite R3. case_decide as Hd; [done|]. rewrite (destroys_view s g t ua pr e o s1 g1) by done. rewrite decide_False by congruence. done.
  - intros q x. rewrite R4, (ds_frames _ _ _ _ _ _ _ _ _ E). split.
    + intros [[H1 H2] H3]. split; [done|]. intros (ua2 & e2 & Q1 & Q2 & Q3). destruct (decide (ua2 = ua)) as [->|Hne].
      * assert (e2 = e) as -> by congruence. destruct o as [[p f]|]; [|done]. apply H2. simpl. destruct Ho as (_ & Ho & _). congruence.
      * apply H3. exists ua2, e2. simpl. by rewrite lookup_delete_ne.
    + intros [H1 H2]. split; [split; [done|]|].
      * destruct o as [[p f]|]; [|done]. simpl. intros [= ->]. destruct Ho as (O1 & O2 & _). apply H2. by exists ua, e.
      * intros (ua2 & e2 & Q1 & Q2 & Q3). apply H2. exists ua2, e2. simpl in Q1. by apply lookup_delete_Some in Q1 as [_ Q1].
  - intros k page. rewrite R5, (ds_swap _ _ _ _ _ _ _ _ _ E). split.
    + intros [H1 H3]. assert (Hk : g_swap g !! k = Some page /\ (status e = PAGE_SWAP -> k <> swap_index e)).
      { case_decide; [|split; [done|by intros ?]]. apply lookup_delete_Some in H1 as [H1 H2]. split; [done|]. intros _. congruence. }
      destruct Hk as [Hk1 Hk2]. split; [done|]. intros (ua2 & e2 & Q1 & Q2 & Q3). destruct (decide (ua2 = ua)) as [->|Hne].
      * assert (e2 = e) as -> by congruence. by apply Hk2.
      * apply H3. exists ua2, e2. simpl. by rewrite lookup_delete_ne.
    + intros [H1 H2]. split.
      * case_decide as Hs; [|done]. rewrite lookup_delete_ne; [done|]. intros Ek. apply H2. by exists ua, e.
      * intros (ua2 & e2 & Q1 & Q2 & Q3). apply H2. exists ua2, e2. simpl in Q1. by apply lookup_delete_Some in Q1 as [_ Q1].
Qed.

Lemma spt_destroy_ok t keys : forall (s : vm) g pr, inv s g -> procs s !! t = Some pr -> NoDup keys -> (forall ua, ua ∈ keys <-> is_Some (s_page_table pr !! ua)) ->
  exists s' g', spt_destroy t keys s = Ok (tt, s') /\ released s g t pr s' g'.
Proof.
  induction keys as [|ua keys IH]; intros s g pr I Hp Hn Hk.
  { exists s, g. split; [done|]. apply released_nil; [done|done|]. apply map_empty. intros ua. destruct (s_page_table pr !! ua) eqn:E; [|done].
    assert (H : ua ∈ @nil Z) by (apply Hk; by rewrite E). set_solver. }
  apply NoDup_cons in Hn as [Hn1 Hn2]. destruct (proj1 (Hk ua)) as [e He]; [set_solver|].
  destruct (spt_destroy_entry_ok s g t ua pr e I Hp He) as (s1 & g1 & o & E & M1 & Ed). simpl. rewrite (M_bind_Ok _ _ _ _ _ E).
  assert (I1 : inv s1 g1) by (split; [done|]; eapply (destroys_paging s g t ua pr e o); [apply I|done..]).
  destruct (IH s1 g1 (MkProc (pagedir pr) (delete ua (s_page_table pr))) I1) as (s' & g' & E' & R); [|done| |].
  - rewrite (ds_procs _ _ _ _ _ _ _ _ _ Ed). apply lookup_insert_eq.
  - intros ua2. simpl. destruct (decide (ua2 = ua)) as [->|Hne]; [rewrite lookup_delete_eq; split; [done|by intros []]|]. rewrite lookup_delete_ne by done. rewrite <- Hk. set_solver.
  - exists s', g'. split; [done|]. by eapply (released_cons s g t pr ua e o s1 g1).
Qed.

End entries.

End VmEntries.
