(* ===== verification/Paging.v ===== *)
(** * Virtual memory: what it does for user programs

    The main theorems on src/vm and the page fault handler, over any page directories, swap area and open
    files that keep the promises of their interfaces, and their instances for a kernel with the page
    directories of Pagedir, the swap area of Swap and the files of Files. *)

From S2P Require Import Prelude Vaddr Bitmap Palloc Pages Pagedir Block Inode Files Swap FileStore AddressSpace Vm VmInv VmFault VmEntries.
Import Vaddr Bitmap Palloc Pages Block Swap FileStore AddressSpace Vm VmInv VmFault VmEntries.

Module Paging.

Section main.
Context {D W F : Type} `{!AddressSpaces D} `{!SwapSpace W} `{!FileStore F}.
Notation vm := (vm (D := D) (W := W) (F := F)).
Context (cap : nat) (pds : gset Z) (slots : Z).

(** C1: Demand paging is transparent.  Reads of any pages and writes to pages that may be written and do
    not belong to a mapped file, by any number of processes, in any order, through page directories that
    map only some of their pages, with page faults that bring pages in from files and from swap and evict
    others when memory is full, read exactly what they would read from memories that are just there.
    With enough memory and swap for that many page faults, all of them are made.  In any case, if one of
    them is not, all before it have read what they should, and in the state they have led to either the
    swap area is full, and the kernel panics, or an allocation fails, a page table cannot be made or the
    file system has no memory for its transfers, and the process is killed. *)
Theorem paging_is_flat (s : vm) g ops :
  ready cap pds slots s g -> (0 < cap)%nat -> Forall (allowed s) ops ->
  let complete := exists s' g', run ops s = Ok (flat_run (view s g) ops, s') /\ ready cap pds slots s' g' /\ length (flat_run (view s g) ops) = length ops in
  (enough slots (length ops) s g -> complete) /\ (complete \/ ended cap pds slots s g ops).
Proof. intros R Hc HA complete. split; [by apply run_complete|by apply run_ok]. Qed.

(** C7: The clock algorithm always finds a victim when some frame is not pinned, within two rounds of the
    table: [evict_frame] returns, having evicted one frame that was not pinned and not accessed when the
    hand came to it, the page of the frame is free again, and the tables still agree with each other.
    If the victim does not belong to a mapped file, every page of every process holds what it held.  If it
    does, it will be read from its file; had it been written, the part of it that the file system could
    write is now in the file, and it alone is kept; and apart from it only pages that are to be read from
    the same file may hold something else.  Only a full swap area stops it. *)
Theorem evict_frame_correct (s : vm) g p0 f0 :
  inv cap pds slots s g -> frame_lock s = true -> fs_lock s = false -> frames s !! p0 = Some f0 -> pinned f0 = false ->
  (evict_frame s = Fail FPanic /\ full slots g) \/
  exists q s' g', evict_frame s = Ok (tt, s') /\ evicted cap pds slots s g q s' g' /\ inv cap pds slots s' g' /\ size (g_us g) = S (size (g_us g')) /\
    exists f pr e, frames s !! q = Some f /\ procs s !! owner f = Some pr /\ s_page_table pr !! uaddr f = Some e /\ eviction s g f e s' g'.
Proof.
  intros I Hl Hfs Hf0 Hp0. destruct (evict_frame_ok cap pds slots s g p0 f0 I Hl Hfs Hf0 Hp0) as [H|(q & s' & g' & E & HE & P')]; [by left|].
  right. exists q, s', g'. pose proof HE as (f & pr & e & e' & m & pt & [Hf _] & _ & _ & L & _). pose proof (lv_machine _ _ _ _ _ _ _ _ _ _ _ L) as M'.
  split; [done|]. split; [done|]. split; [done|]. destruct (pg_frame _ _ _ (proj2 I) q f Hf) as [Hk _]. split; [|eapply evicted_views; [apply I|exact HE]].
  rewrite (lv_us _ _ _ _ _ _ _ _ _ _ _ L). simpl. rewrite size_difference, size_singleton by set_solver.
  assert (size (g_us g) <> 0%nat) by (apply size_non_empty_iff; set_solver). lia.
Qed.


(** A segment of a file, [rb] bytes of it followed by [zb] zeros, is entered page by page, without
    reading the file: the loop ends after as many pages as there are, the pages hold, one after the other,
    exactly those bytes and zeros, and no other page of any process changes.  It fails only where a page
    is there already or an allocation fails. *)
Theorem lazy_segment_correct n (s : vm) g t pr h i c ofs upage rb zb w mm :
  inv cap pds slots s g -> procs s !! t = Some pr -> segment_ok g h i c ofs upage rb zb (S n) ->
  (forall ua, in_range upage (S n) ua -> s_page_table pr !! ua = None -> g_map g !! (pagedir pr, ua) = None) ->
  exists ok s', spt_initialize_file_as_lazy (S n) t (Some h) ofs upage rb zb w mm s = Ok (ok, s') /\ inv cap pds slots s' g /\
    (ok = false -> (exists ua, in_range upage (S n) ua /\ is_Some (s_page_table pr !! ua)) \/ ~ replicate (S n) true `prefix_of` mallocs s) /\
    (ok = true -> segment s' g t upage (S n) w mm (take (Z.to_nat rb) (drop (Z.to_nat ofs) c) ++ replicate (Z.to_nat zb) 0)) /\
    (forall t' ua', ~ (t' = t /\ in_range upage (S n) ua') -> view s' g t' ua' = view s g t' ua' /\ attrs s' t' ua' = attrs s t' ua').
Proof. intros I Hp SG Hm. by apply segment_loop with (pr := pr) (i := i). Qed.

(** C13: The destruction of a supplemental page table, entry by entry in any order, gives back every frame
    and every swap slot of the process and no other: the frames left are those of the other processes, a
    slot is in use afterwards exactly if it was and is not one of the process's, and the pages of the other
    processes hold what they held. *)
Theorem process_pages_released (s : vm) g t pr keys :
  inv cap pds slots s g -> idle s -> procs s !! t = Some pr -> NoDup keys -> (forall ua, ua ∈ keys <-> is_Some (s_page_table pr !! ua)) ->
  exists s' g', spt_destroy t keys s = Ok (tt, s') /\ inv cap pds slots s' g' /\ procs s' !! t = Some (MkProc (pagedir pr) ∅) /\
    (forall q x, frames s' !! q = Some x <-> frames s !! q = Some x /\ owner x <> t) /\
    (forall k page, g_swap g' !! k = Some page <-> g_swap g !! k = Some page /\ ~ in_slot pr k) /\
    (forall t' ua, t' <> t -> view s' g' t' ua = view s g t' ua).
Proof.
  intros I Hi Hp Hn Hk. destruct (spt_destroy_ok cap pds slots t keys s g pr I Hp Hn Hk) as (s' & g' & E & [R1 R2 R3 R4 R5]). exists s', g'. split; [done|]. split; [done|].
  split; [rewrite R2; apply lookup_insert_eq|]. split; [|split; [done|intros t' ua Hne; by rewrite R3, decide_False]].
  intros q x. rewrite R4. split; intros [H1 H2]; (split; [done|]).
  - intros Ho. apply H2. destruct (unpinned_entry pds s g q x (proj2 I) H1 (Hi _ _ H1)) as (pr2 & e & Q1 & Q2 & Q3 & Q4). rewrite Ho, Hp in Q1. injection Q1 as <-. by exists (uaddr x), e.
  - intros (ua & e & Q1 & Q2 & Q3). apply H2. by destruct (in_memory pds s g t ua pr e q x (proj2 I) Hp Q1 Q2 Q3 H1) as (? & _).
Qed.

End main.

(** ** A kernel with two pages

    One process with two pages: one in memory, in the only frame, and one to be read from a file. *)

#[local] Instance demo_spaces : AddressSpaces (Pagedir.pdstate (Palloc.pstate Bitmap.bitmap)) := pagedir_AddressSpaces Pagedir.demo_init 1024.

Definition demo_mmu : Pagedir.pdstate (Palloc.pstate Bitmap.bitmap) :=
  match Pagedir.pagedir_install_page Pagedir.demo_init 1024 Pagedir.demo_dir 0x8048000 0xc0200000 true Pagedir.demo_empty with Ok (_, s) => s | Fail _ => Pagedir.demo_empty end.
Definition demo_map : gmap (Z * Z) pte := {[ (Pagedir.demo_dir, 0x8048000) := MkPte 0xc0200000 true false false ]}.

Lemma demo_empty_inv : as_inv Pagedir.demo_empty 4 Pagedir.demo_us {[ Pagedir.demo_dir ]} ∅.
Proof.
  destruct Pagedir.demo_empty_wf as [Wf HE]. exists Pagedir.demo_ks. split.
  - apply Pagedir.demo_pages_inv.
  - done.
  - done.
  - split; [apply Wf|]. split; [apply Wf|]. exists (replicate (Z.to_nat 1024) 0). split; [by_kernel|]. split; [done|]. intros i Hi. apply lookup_replicate_2. lia.
  - intros pd ->%elem_of_singleton. done.
  - intros pd pd' q ->%elem_of_singleton ->%elem_of_singleton. done.
  - intros pd ua. rewrite lookup_empty. case_decide as H; [|done]. destruct H as [->%elem_of_singleton [Hu _]]. by rewrite HE.
Qed.

Lemma demo_mmu_inv : as_inv demo_mmu 4 Pagedir.demo_us {[ Pagedir.demo_dir ]} demo_map.
Proof.
  destruct (as_install_ok _ _ _ _ _ Pagedir.demo_dir 0x8048000 0xc0200000 true demo_empty_inv) as (ok & d & E & H); [set_solver|done|eapply bool_decide_eq_true; by_kernel|].
  assert (Hok : match Pagedir.pagedir_install_page Pagedir.demo_init 1024 Pagedir.demo_dir 0x8048000 0xc0200000 true Pagedir.demo_empty with Ok (b, _) => b | Fail _ => false end = true) by by_kernel.
  unfold demo_mmu. change (as_install Pagedir.demo_dir 0x8048000 0xc0200000 true Pagedir.demo_empty) with
    (Pagedir.pagedir_install_page Pagedir.demo_init 1024 Pagedir.demo_dir 0x8048000 0xc0200000 true Pagedir.demo_empty) in E.
  rewrite E in Hok |- *. subst ok. apply H.
Qed.

Definition demo_contents : list Z := Files.content Files.demo_ss (Inode.new_inode 5 600).

Lemma demo_files_repr m : files_repr (Inode.set_mallocs m 20 (Files.demo_fs false)) Files.demo_ss Files.demo_bs Files.demo_tbl {[ 11 := (2, 0) ]} {[ 2 := demo_contents ]}.
Proof.
  assert (HF := Files.demo_files false : forall f fl, Inode.files (Inode.set_mallocs m 20 (Files.demo_fs false)) !! f = Some fl -> _).
  assert (HI := Files.demo_inodes false : forall p i, Inode.inodes (Inode.set_mallocs m 20 (Files.demo_fs false)) !! p = Some i -> _).
  split.
  - destruct (Files.demo_inv false) as [V1 V2 V3 V4 V5 V6 V7]. split; try done. by eapply Files.mem_ok_same.
  - intros f fl [[-> ->]|[-> ->]]%HF; done.
  - done.
  - intros f i p. rewrite lookup_singleton_Some. split.
    + intros [<- [= <- <-]]. by exists (Inode.MkFile 2 0 false), (Inode.MkInode 4 1 false 0 (Inode.new_inode 5 600)).
    + intros (fl & ino & [[-> ->]|[-> ->]]%HF & [[H1 ->]|[H1 ->]]%HI & H & -> & ->); try done.
  - intros i c. rewrite lookup_singleton_Some. split.
    + intros [<- <-]. by exists (Inode.MkInode 4 1 false 0 (Inode.new_inode 5 600)).
    + intros (ino & [[-> ->]|[-> ->]]%HI & H & ->); [by destruct H|done].
Qed.
Definition demo_store : Inode.fs (B := list (list Z)) := Inode.set_mallocs (replicate 8 true) 20 (Files.demo_fs false).
Lemma demo_store_inv : st_inv demo_store {[ 11 := (2, 0) ]} {[ 2 := demo_contents ]}.
Proof. exists Files.demo_ss, Files.demo_bs, Files.demo_tbl. exact (demo_files_repr (replicate 8 true)). Qed.

Definition demo_swp : swap (B := list (list Z)) := MkSwap demo_device (Bitmap.Bitmap 2 [0]).
Definition demo_frame : frame := MkFrame 0xc0200000 0x8048000 1 false.
Definition demo_memory : spt_entry := MkEntry 0x8048000 PAGE_MEMORY (Some 100) None 0 0 0 (2 ^ 32 - 1) false true.
Definition demo_lazy : spt_entry := MkEntry 0x8049000 PAGE_LAZY None (Some 11) 0 600 3496 0 false false.
Definition demo_proc : proc := MkProc Pagedir.demo_dir {[ 0x8048000 := demo_memory; 0x8049000 := demo_lazy ]}.
Definition demo_vm (l : bool) : vm :=
  MkVm demo_mmu demo_store demo_swp (fun _ => replicate 4096 7) {[ 100 := demo_frame ]} [100] HNull {[ 1 := demo_proc ]} l false [true; true; true] 200.
Definition demo_ghost : ghost := MkGhost Pagedir.demo_us demo_map ∅ {[ 11 := (2, 0) ]} {[ 2 := demo_contents ]}.

Lemma demo_procs l t pr : procs (demo_vm l) !! t = Some pr -> 1 = t /\ demo_proc = pr.
Proof. change (procs (demo_vm l)) with ({[ 1 := demo_proc ]} : gmap Z proc). by intros ?%lookup_singleton_Some. Qed.
Lemma demo_frames l q x : frames (demo_vm l) !! q = Some x -> q = 100 /\ x = demo_frame.
Proof. change (frames (demo_vm l)) with ({[ 100 := demo_frame ]} : gmap Z frame). by intros [<- <-]%lookup_singleton_Some. Qed.
Lemma demo_entries l t ua pd e : spt_get (demo_vm l) t ua = Some (pd, e) -> t = 1 /\ pd = Pagedir.demo_dir /\ ((ua = 0x8048000 /\ e = demo_memory) \/ (ua = 0x8049000 /\ e = demo_lazy)).
Proof.
  intros (pr & [<- <-]%demo_procs & H & <-)%spt_get_some. split; [done|]. split; [done|]. simpl in H.
  apply lookup_insert_Some in H as [[<- <-]|[_ [<- <-]%lookup_singleton_Some]]; auto.
Qed.

Lemma demo_backed : backed demo_ghost demo_lazy.
Proof. exists 11, 2, 0, demo_contents. by split_and!. Qed.

Lemma demo_vm_inv l : inv 4 {[ Pagedir.demo_dir ]} 2 (demo_vm l) demo_ghost.
Proof.
  assert (Hus : Pagedir.demo_us = {[ 0xc0200000 ]}) by by_kernel.
  pose proof (demo_frames l) as HF.
  split; [split; [exact demo_mmu_inv|split; [exact demo_swap|exact demo_store_inv]]|]. split.
  - intros t pr [<- <-]%demo_procs. set_solver.
  - intros t pr t' pr' [<- <-]%demo_procs [<- <-]%demo_procs. done.
  - intros t ua pd e (-> & -> & [[-> ->]|[-> ->]])%demo_entries; (split; [done|]); (split; [done|]); split.
    + by exists 100, demo_frame, (MkPte 0xc0200000 true false false).
    + by intros [|].
    + done.
    + intros _. apply demo_backed.
  - intros t ua pd e t' ua' pd' e' (-> & -> & [[-> ->]|[-> ->]])%demo_entries; done.
  - intros q x [-> ->]%HF. split; [simpl; rewrite Hus; set_solver|]. intros _. by exists Pagedir.demo_dir, demo_memory.
  - intros q x q' x' [-> ->]%HF [-> ->]%HF. done.
  - intros k. simpl. rewrite Hus. intros ->%elem_of_singleton. by exists 100, demo_frame.
  - intros k. split; [apply length_replicate|by apply Forall_replicate].
  - intros q. simpl. rewrite list_elem_of_singleton. split; [intros ->; by eexists|by intros [x [-> _]%HF]].
  - apply NoDup_singleton.
  - intros q ->%list_elem_of_singleton. done.
  - done.
Qed.

Lemma demo_ready : ready 4 {[ Pagedir.demo_dir ]} 2 (demo_vm false) demo_ghost.
Proof.
  split; [apply demo_vm_inv| | |done].
  - intros t ua pd e (-> & -> & [[-> ->]|[-> ->]])%demo_entries; done.
  - by intros q x [-> ->]%demo_frames.
Qed.

(** There is memory for two page tables and four transfers, and two swap slots are free. *)
Lemma demo_room : as_room 2 demo_mmu.
Proof.
  assert (H : as_room 3 Pagedir.demo_empty). { exists Pagedir.demo_ks, Pagedir.demo_us. split; [apply Pagedir.demo_pages_inv|]. apply Nat.leb_le. by_kernel. }
  destruct (as_install_ok _ _ _ _ _ Pagedir.demo_dir 0x8048000 0xc0200000 true demo_empty_inv) as (ok & d & E & _); [set_solver|done|eapply bool_decide_eq_true; by_kernel|].
  destruct (as_install_room _ _ _ _ _ Pagedir.demo_dir 0x8048000 0xc0200000 true 2 ok d demo_empty_inv) with (5 := E) as [_ HR]; [set_solver|done|eapply bool_decide_eq_true; by_kernel|exact H|].
  unfold demo_mmu. change (as_install Pagedir.demo_dir 0x8048000 0xc0200000 true Pagedir.demo_empty) with
    (Pagedir.pagedir_install_page Pagedir.demo_init 1024 Pagedir.demo_dir 0x8048000 0xc0200000 true Pagedir.demo_empty) in E. by rewrite E.
Qed.
Lemma demo_enough : enough 2 2 (demo_vm false) demo_ghost.
Proof. split; [by exists [true]|]. split; [exact demo_room|]. split; [by exists (replicate 4 true)|]. done. Qed.

(** The page of the file is read, which faults, and the other one is written. *)
Definition demo_ops : list op := [MkOp 1 0x8049001 None 0; MkOp 1 0x8048010 (Some 9) 0].

Lemma paging_is_flat_witness : exists s', run demo_ops (demo_vm false) = Ok ([69; 7], s').
Proof.
  destruct (paging_is_flat 4 {[ Pagedir.demo_dir ]} 2 (demo_vm false) demo_ghost demo_ops demo_ready) as [H _].
  - lia.
  - assert (K1 : attrs (demo_vm false) 1 0x8048000 = Some (true, false)) by by_kernel. assert (K2 : attrs (demo_vm false) 1 0x8049000 = Some (false, false)) by by_kernel.
    repeat apply Forall_cons_2; try apply Forall_nil_2; (split; [done|]).
    + exists false, false. split; [exact K2|done].
    + exists true, false. split; [exact K1|]. by intros v [= <-].
  - destruct (H demo_enough) as (s' & g' & E & _). exists s'. assert (Ef : flat_run (view (demo_vm false) demo_ghost) demo_ops = [69; 7]) by by_kernel.
    rewrite Ef in E. exact E.
Defined.

Lemma demo_not_full : ~ full 2 demo_ghost.
Proof. by apply not_full. Qed.

Lemma evict_frame_correct_witness :
  exists q s' g', evict_frame (demo_vm true) = Ok (tt, s') /\ inv 4 {[ Pagedir.demo_dir ]} 2 s' g' /\
    view s' g' 1 0x8048000 = Some (replicate 4096 7) /\ evicted 4 {[ Pagedir.demo_dir ]} 2 (demo_vm true) demo_ghost q s' g'.
Proof.
  destruct (evict_frame_correct 4 {[ Pagedir.demo_dir ]} 2 (demo_vm true) demo_ghost 100 demo_frame (demo_vm_inv true)) as [[_ H]|(q & s' & g' & E & HE & I & _ & f & pr & e & Hf & Hp & He & [V _])]; [reflexivity|reflexivity|reflexivity|reflexivity| |].
  - destruct (demo_not_full H).
  - exists q, s', g'. split; [exact E|]. split; [exact I|]. split; [|exact HE]. apply demo_frames in Hf as [-> ->]. apply demo_procs in Hp as [_ <-]. injection He as <-.
    rewrite (proj1 (V eq_refl)). reflexivity.
Defined.


Lemma process_pages_released_witness :
  exists s' g', spt_destroy 1 [0x8049000; 0x8048000] (demo_vm false) = Ok (tt, s') /\ inv 4 {[ Pagedir.demo_dir ]} 2 s' g' /\ frames s' !! 100 = None.
Proof.
  destruct (process_pages_released 4 {[ Pagedir.demo_dir ]} 2 (demo_vm false) demo_ghost 1 demo_proc [0x8049000; 0x8048000]) as (s' & g' & E & I & _ & HF & _).
  - apply demo_vm_inv.
  - apply demo_ready.
  - reflexivity.
  - repeat constructor; set_solver.
  - intros ua. unfold demo_proc. simpl. rewrite lookup_insert_is_Some, lookup_singleton_is_Some. set_solver.
  - exists s', g'. split; [exact E|]. split; [exact I|]. destruct (frames s' !! 100) as [x|] eqn:Hx; [|reflexivity]. apply HF in Hx as [[_ ->]%demo_frames Ho]. destruct Ho. reflexivity.
Defined.

End Paging.
