(* ===== verification/Programs.v ===== *)
(** * What loading a program asks of page directories and of the file system

    [load] (src/userprog/process.c) makes a page directory, activates it, and opens, closes and
    write-protects a file.  The two classes extend those of AddressSpace and FileStore by that; the page
    directories of Pagedir and the file system of Directory implement them. *)

From S2P Require Import Prelude Mem Palloc Pages Pagedir AddressSpace Block Inode Files FileStore Directory.
Import Mem Palloc Pages AddressSpace Inode Files FileStore Directory.
Import Block (BlockDevice).

Module Programs.

Class Directories (D : Type) `{!AddressSpaces D} := {
  as_create : M D Z;
  as_activate : Z -> M D unit;
  as_create_ok d cap us pds m : as_inv d cap us pds m ->
    exists pd d', as_create d = Ok (pd, d') /\ if pd =? 0 then as_inv d' cap us pds m else pd ∉ pds /\ as_inv d' cap us ({[ pd ]} ∪ pds) m;
  as_activate_ok d cap us pds m pd : as_inv d cap us pds m -> pd ∈ pds ->
    exists d', as_activate pd d = Ok (tt, d') /\ as_inv d' cap us pds m;
  (** A page directory takes one page of the kernel's memory. *)
  as_create_room d cap us pds m n pd d' : as_inv d cap us pds m -> as_room (S n) d -> as_create d = Ok (pd, d') -> pd <> 0 /\ as_room n d';
  as_activate_room d n pd d' : as_room n d -> as_activate pd d = Ok (tt, d') -> as_room n d'
}.

Class Executables (F : Type) `{!FileStore F} := {
  st_open : list Z -> M F (option Z);
  st_close : Z -> M F unit;
  st_deny : Z -> M F unit;
  (** Files can be opened by name: [dir] has the contents of each of them. *)
  st_names : F -> gmap Z (Z * Z) -> gmap Z (list Z) -> gmap (list Z) (list Z) -> Prop;
  st_names_inv s hs cs dir : st_names s hs cs dir -> st_inv s hs cs;
  st_open_ok s hs cs dir nm : st_names s hs cs dir -> Forall is_char nm ->
    exists r s', st_open nm s = Ok (r, s') /\
      match r with
      | None => dir !! nm = None /\ st_inv s' hs cs
      | Some h => exists i cs' c, dir !! nm = Some c /\ hs !! h = None /\ cs ⊆ cs' /\ cs' !! i = Some c /\ st_inv s' (<[h := (i, 0)]> hs) cs'
      end;
  (** Closing a file leaves the others as they are. *)
  st_close_ok s hs cs h i pos : st_inv s hs cs -> hs !! h = Some (i, pos) ->
    exists s' cs', st_close h s = Ok (tt, s') /\ st_inv s' (delete h hs) cs' /\ forall h' i' pos', h' <> h -> hs !! h' = Some (i', pos') -> cs' !! i' = cs !! i';
  st_deny_ok s hs cs h i pos : st_inv s hs cs -> hs !! h = Some (i, pos) -> exists s', st_deny h s = Ok (tt, s') /\ st_inv s' hs cs
}.

(** ** The page directories of pagedir.c *)

Program Definition pagedir_Directories {P : Type} `{PA : PageAlloc P} (init_page_dir init_ram_pages : Z) :
  @Directories (Pagedir.pdstate P) (pagedir_AddressSpaces init_page_dir init_ram_pages) := {|
  as_create := Pagedir.pagedir_create init_page_dir;
  as_activate := Pagedir.pagedir_activate init_page_dir
|}.
Next Obligation. intros P PA init_page_dir init_ram_pages d cap us pds m H. exact (spaces_create init_page_dir init_ram_pages d cap us pds m H). Qed.
Next Obligation. intros P PA init_page_dir init_ram_pages d cap us pds m pd H. exact (spaces_activate init_page_dir init_ram_pages d cap us pds m pd H). Qed.
Next Obligation. intros P PA init_page_dir init_ram_pages d cap us pds m n pd d' H Hr E. exact (spaces_create_room init_page_dir init_ram_pages d cap us pds m n pd d' H Hr E). Qed.
Next Obligation. intros P PA init_page_dir init_ram_pages d n pd d' H E. exact (spaces_activate_room init_page_dir d n pd d' H E). Qed.

(** ** The file system *)

Section instance_.
Context {B : Type} `{!BlockDevice B}.
Notation fs := (fs (B := B)).
(** What is on the stack where [lookup] keeps a directory entry. *)
Context (junk : list Z) (Hjunk : length junk = 20%nat).

(** The root directory is well formed, there is memory to look a name up, and [dir] has the files. *)
Record names_repr (s : fs) (ss : list (list Z)) (bs : list bool) (tbl : gmap Z inode_disk) (rd : inode_disk) (dir : gmap (list Z) (list Z)) : Prop := {
  nr_root : tbl !! ROOT_DIR_SECTOR = Some rd;
  nr_countable : countable s;
  nr_kept : root_kept s;
  nr_dir : dir_ok (content ss rd) tbl;
  nr_plenty : plenty (nslots (content ss rd) + 6) s;
  nr_names nm c : dir !! nm = Some c <-> exists e dd, e ∈ slots (content ss rd) /\ entry_of nm e /\ tbl !! inode_sector e = Some dd /\ c = content ss dd
}.
Definition names (s : fs) (hs : gmap Z (Z * Z)) (cs : gmap Z (list Z)) (dir : gmap (list Z) (list Z)) : Prop :=
  exists ss bs tbl rd, files_repr s ss bs tbl hs cs /\ names_repr s ss bs tbl rd dir.

Lemma names_open s hs cs dir nm : names s hs cs dir -> Forall is_char nm ->
  exists r s', filesys_open nm junk s = Ok (r, s') /\
    match r with
    | None => dir !! nm = None /\ files_inv s' hs cs
    | Some h => exists i cs' c, dir !! nm = Some c /\ hs !! h = None /\ cs ⊆ cs' /\ cs' !! i = Some c /\ files_inv s' (<[h := (i, 0)]> hs) cs'
    end.
Proof.
  intros (ss & bs & tbl & rd & [V P Hm Hh Hc] & [R1 R2 R3 R4 R5 R6]) Fn. pose proof (inv_mem _ _ _ _ _ V) as Mm.
  destruct (filesys_open_ok s ss bs tbl rd nm junk) as (r & s' & E & V' & Hm' & H); try done. exists r, s'. split; [done|]. destruct r as [h|].
  - destruct H as (p & k & e & dd & Hk & He & _ & Hdd & Ho & Hf & Ef). assert (Hin : e ∈ slots (content ss rd)) by by eapply list_elem_of_lookup_2.
    destruct (dir_linked _ _ R4 e Hin (proj1 He)) as (_ & Hfree & _). destruct Ho as [Ei Hp].
    set (ino := reopened (inodes s !! p) (inode_sector e) dd) in *.
    assert (Hino : sector ino = inode_sector e /\ data ino = dd).
    { unfold ino. destruct (inodes s !! p) as [j|] eqn:Ej; [|done]. simpl. split; [done|]. pose proof (mem_data _ _ _ Mm _ _ Ej). congruence. }
    destruct Hino as [Hsec Hdata].
    exists p, (<[p := content ss dd]> cs), (content ss dd). split; [apply R6; by exists e, dd|]. split.
    { destruct (hs !! h) as [[i x]|] eqn:Eh; [|done]. apply Hh in Eh as (fl & ? & Hfl & _). congruence. }
    split.
    { apply map_subseteq_spec. intros i c Hi. destruct (decide (i = p)) as [->|]; [|by rewrite lookup_insert_ne].
      rewrite lookup_insert_eq. apply Hc in Hi as (j & Hj & _ & ->). rewrite Hj in Hp. pose proof (mem_data _ _ _ Mm _ _ Hj). congruence. }
    split; [apply lookup_insert_eq|]. exists ss, bs, tbl.
    assert (Hold : forall q j, q <> p -> inodes s' !! q = Some j <-> inodes s !! q = Some j) by (intros q j Hq; by rewrite Ei, lookup_insert_ne).
    assert (Hnew : inodes s' !! p = Some ino) by (rewrite Ei; apply lookup_insert_eq).
    assert (Hsame : forall q, (exists j, inodes s' !! q = Some j /\ sector j <> FREE_MAP_SECTOR) <-> q = p \/ exists j, inodes s !! q = Some j /\ sector j <> FREE_MAP_SECTOR).
    { intros q. destruct (decide (q = p)) as [->|Hq]; [|rewrite Ei, lookup_insert_ne by done; naive_solver].
      split; [by left|]. intros _. exists ino. by rewrite Hsec. }
    split; [done|rewrite Ef; by apply positions_insert|by rewrite Hm'| |].
    + intros f i x. unfold file_of. rewrite Ef. destruct (decide (f = h)) as [->|Hne].
      * rewrite !lookup_insert_eq. split; [intros [= <- <-]; exists (MkFile p 0 false), ino; by rewrite Hsec|]. by intros (fl & ? & [= <-] & _ & _ & -> & ->).
      * rewrite !lookup_insert_ne by done. rewrite Hh. split; intros (fl & j & A1 & A2 & A3 & A4).
        -- destruct (proj2 (Hsame (f_inode fl))) as (j' & B1 & B2); [right; by exists j|]. by exists fl, j'.
        -- destruct (proj1 (Hsame (f_inode fl))) as [Ep|(j' & B1 & B2)]; [by exists j| |by exists fl, j'].
           destruct (mem_files _ _ _ Mm _ _ A1) as [j' Hj']. exists fl, j'.
           assert (sector j' = inode_sector e) by (rewrite Ep in Hj'; by rewrite Hj' in Hp). split_and!; try apply A4; congruence.
    + intros i c. unfold contents_of. destruct (decide (i = p)) as [->|Hne].
      * rewrite lookup_insert_eq, Hnew. split; [intros [= <-]; exists ino; by rewrite Hsec, Hdata|]. intros (j & [= <-] & _ & ->). by rewrite Hdata.
      * rewrite lookup_insert_ne by done. rewrite Hc. unfold contents_of. split; intros (j & A1 & A2); exists j; (split; [by apply Hold|done]).
  - destruct H as (Hno & Ef & Ei). split.
    + destruct (dir !! nm) as [c|] eqn:Ed; [|done]. apply R6 in Ed as (e & dd & H1 & H2 & _). by destruct (Hno e H1).
    + exists ss, bs, tbl. split; [done|by rewrite Ef|by rewrite Hm'| |].
      * intros f i x. unfold file_of. rewrite Ef, Ei. apply Hh.
      * intros i c. unfold contents_of. rewrite Ei. apply Hc.
Qed.

(** The inodes that are still open after a file has been closed, and their contents. *)
Lemma closed_inodes s s' ss ss' bs bs' tbl tbl' h fl ino q j : fsinv (files s) s ss bs tbl -> files s !! h = Some fl -> inodes s !! f_inode fl = Some ino ->
  closed (denying s h fl ino false) s' ss ss' bs bs' tbl tbl' (f_inode fl) (set_deny_cnt (deny_write_cnt ino - b2z (deny_write fl)) ino) ->
  (forall k, 0 <= k -> ~ map_sector (denying s h fl ino false) k -> ss' !! Z.to_nat k = ss !! Z.to_nat k) ->
  inodes s' !! q = Some j -> exists j0, inodes s !! q = Some j0 /\ sector j0 = sector j /\ data j0 = data j /\
    (sector j <> FREE_MAP_SECTOR -> content ss' (data j) = content ss (data j)).
Proof.
  intros V Hf Hi C Fr Hq. destruct (file_allow_write_ok s ss bs tbl h fl ino V Hf Hi) as [_ V1].
  assert (HJ : exists j0, inodes s !! q = Some j0 /\ sector j0 = sector j /\ data j0 = data j).
  { unfold closed in C. case_decide as Hd; destruct C as [Ei _]; rewrite Ei in Hq; simpl in Hq.
    - apply lookup_delete_Some in Hq as [Hne Hq]. rewrite lookup_insert_ne in Hq by done. by exists j.
    - apply lookup_insert_Some in Hq as [[<- <-]|[Hne Hq]]; [by exists ino|]. rewrite lookup_insert_ne in Hq by done. by exists j. }
  destruct HJ as (j0 & H1 & H2 & H3). exists j0. split_and!; try done. intros Hs. rewrite <- H2, <- H3 in *.
  pose proof (mem_data _ _ _ (inv_mem _ _ _ _ _ V) _ _ H1) as Ht.
  eapply (frame_content _ _ ss ss' bs tbl V1); [|done|done]. intros sec d k Hd Ho Hk. apply Fr; [|done].
  destruct (disk_inode _ _ _ (inv_disk _ _ _ _ _ V) _ _ Hd) as (B1 & _ & [X1 X2 X3 X4] & _). destruct Ho as [->|Ho]; lia.
Qed.

Lemma names_close s hs cs h i pos : files_inv s hs cs -> hs !! h = Some (i, pos) ->
  exists s' cs', file_close (Some h) s = Ok (tt, s') /\ files_inv s' (delete h hs) cs' /\
    forall h' i' pos', h' <> h -> hs !! h' = Some (i', pos') -> cs' !! i' = cs !! i'.
Proof.
  intros (ss & bs & tbl & R) (fl & ino & A1 & A2 & A3 & _)%(fr_handles _ _ _ _ _ _ R). destruct R as [V P Hm Hh Hc].
  destruct (file_close_ok s ss bs tbl h fl ino V Hm) as (s' & ss' & bs' & tbl' & E & V' & Ef & Em & C & Fr); [by eapply handle_not_map|done|done|].
  assert (HJ := fun q j => closed_inodes s s' ss ss' bs bs' tbl tbl' h fl ino q j V A1 A2 C Fr). pose proof (inv_mem _ _ _ _ _ V') as Mm.
  exists s', (filter (fun x => is_Some (inodes s' !! x.1)) cs). split; [done|]. split.
  - exists ss', bs', tbl'. split; [done| |by rewrite Em| |].
    + intros f x. rewrite Ef. intros [_ H]%lookup_delete_Some. by apply (P f).
    + intros f i2 x. rewrite lookup_delete_Some, Hh. unfold file_of. rewrite Ef. split.
      * intros (Hne & g & j & B1 & B2 & B3 & B4). assert (Hg : files s' !! f = Some g) by (by rewrite Ef, lookup_delete_ne).
        destruct (mem_files _ _ _ Mm _ _ Hg) as [j' Hj']. destruct (HJ _ _ Hj') as (j0 & D1 & D2 & _). exists g, j'. rewrite lookup_delete_ne by done.
        split_and!; try done; try apply B4. congruence.
      * intros (g & j & [Hne B1]%lookup_delete_Some & B2 & B3 & B4). split; [done|]. destruct (HJ _ _ B2) as (j0 & D1 & D2 & _). exists g, j0. by rewrite D2.
    + intros i2 c. rewrite map_lookup_filter_Some, Hc. simpl. unfold contents_of. split.
      * intros [(j0 & B1 & B2 & ->) [j Hj]]. destruct (HJ _ _ Hj) as (j1 & D1 & D2 & D3 & D4). assert (j1 = j0) as -> by congruence. exists j.
        rewrite <- D2 in D4 |- *. split; [done|]. split; [done|]. rewrite D3. by rewrite D4.
      * intros (j & Hj & B2 & ->). destruct (HJ _ _ Hj) as (j0 & D1 & D2 & D3 & D4). split; [|by exists j]. exists j0. rewrite D2, D3. by rewrite D4.
  - intros h' i' pos' Hne (g & j & B1 & B2 & B3 & -> & _)%Hh. assert (Hg : files s' !! h' = Some g) by (by rewrite Ef, lookup_delete_ne).
    rewrite map_lookup_filter. destruct (cs !! f_inode g) as [c|]; [|done]. simpl. case_guard as Hn; [done|]. by destruct Hn, (mem_files _ _ _ Mm _ _ Hg).
Qed.

Lemma names_deny s hs cs h i x0 : files_inv s hs cs -> hs !! h = Some (i, x0) -> exists s', file_deny_write (Some h) s = Ok (tt, s') /\ files_inv s' hs cs.
Proof.
  intros (ss & bs & tbl & R) (fl & ino & A1 & A2 & A3 & _)%(fr_handles _ _ _ _ _ _ R). destruct R as [V P Hm Hh Hc].
  destruct (file_deny_write_ok s ss bs tbl h fl ino V A1 A2 A3) as [E V']. eexists. split; [exact E|]. exists ss, bs, tbl.
  set (n := set_deny_cnt (deny_write_cnt ino + (b2z true - b2z (deny_write fl))) ino).
  assert (Hino : forall q j, sector j <> FREE_MAP_SECTOR -> inodes (denying s h fl ino true) !! q = Some j -> exists j', inodes s !! q = Some j' /\ sector j' = sector j /\ data j' = data j).
  { intros q j Hs. simpl. intros [[<- <-]|[_ Hq]]%lookup_insert_Some; [by exists ino|by exists j]. }
  assert (Hino' : forall q j, inodes s !! q = Some j -> exists j', inodes (denying s h fl ino true) !! q = Some j' /\ sector j' = sector j /\ data j' = data j).
  { intros q j Hq. simpl. destruct (decide (q = f_inode fl)) as [->|]; [|by exists j; rewrite lookup_insert_ne]. exists n. rewrite lookup_insert_eq.
    assert (j = ino) as -> by congruence. done. }
  split; [done| |done| |].
  - apply positions_insert; [done|]. apply (P h fl A1).
  - intros f i2 x. rewrite Hh. unfold file_of. split.
    + intros (g & j & B1 & B2 & B3 & B4). destruct (Hino' _ _ B2) as (j' & C1 & C2 & _). destruct (decide (f = h)) as [->|].
      * assert (g = fl) as -> by congruence. exists (MkFile (f_inode fl) (pos fl) true), j'. rewrite C2. simpl. rewrite lookup_insert_eq. done.
      * exists g, j'. rewrite C2. simpl. rewrite lookup_insert_ne by done. done.
    + intros (g & j & B1 & B2 & B3 & B4). destruct (Hino _ _ B3 B2) as (j' & C1 & C2 & _). simpl in B1. apply lookup_insert_Some in B1 as [[<- <-]|[_ B1]].
      * exists fl, j'. by rewrite C2.
      * exists g, j'. by rewrite C2.
  - intros i2 c. rewrite Hc. unfold contents_of. split.
    + intros (j & B1 & B2 & ->). destruct (Hino' _ _ B1) as (j' & C1 & C2 & C3). exists j'. by rewrite C2, C3.
    + intros (j & B1 & B2 & ->). destruct (Hino _ _ B2 B1) as (j' & C1 & C2 & C3). exists j'. by rewrite C2, C3.
Qed.

Program Definition fs_Executables : Executables fs := {|
  st_open := fun nm => filesys_open nm junk;
  st_close := fun h => file_close (Some h);
  st_deny := fun h => file_deny_write (Some h);
  st_names := names
|}.
Next Obligation. intros s hs cs dir (ss & bs & tbl & rd & R & _). by exists ss, bs, tbl. Qed.
Next Obligation. intros s hs cs dir nm H Hn. exact (names_open s hs cs dir nm H Hn). Qed.
Next Obligation. intros s hs cs h i pos H Hh. exact (names_close s hs cs h i pos H Hh). Qed.
Next Obligation. intros s hs cs h i pos H Hh. exact (names_deny s hs cs h i pos H Hh). Qed.

End instance_.

End Programs.
