(* ===== verification/Load.v ===== *)
(** * Loading programs

    [load] of src/userprog/process.c and its helpers: a page directory is made, the program's file is
    opened, the ELF header and the program headers are read and checked, the segments to be loaded are
    entered into the supplemental page table, to be read when they are touched, and a page of stack is
    made.  The error messages it prints are left out.

    The theorem relates the file to the memory of the new process, as seen through VmInv: the bytes of
    every loadable segment are where its program header says, followed by zeros up to the size in memory. *)

From S2P Require Import Prelude Mem Vaddr Bitmap Palloc Pages Pagedir Block Inode Files Swap FileStore Directory AddressSpace Programs Vm VmInv VmFault VmEntries Paging.
Import Mem Vaddr Swap FileStore AddressSpace Programs Vm VmInv VmFault VmEntries.
Import Block (le).

Module Load.

(** ** ELF headers *)

Record Elf32_Ehdr := MkEhdr {
  e_ident : list Z;
  e_type : Z;
  e_machine : Z;
  e_version : Z;
  e_entry : Z;
  e_phoff : Z;
  e_shoff : Z;
  e_flags : Z;
  e_ehsize : Z;
  e_phentsize : Z;
  e_phnum : Z;
  e_shentsize : Z;
  e_shnum : Z;
  e_shstrndx : Z
}.
Record Elf32_Phdr := MkPhdr {
  p_type : Z;
  p_offset : Z;
  p_vaddr : Z;
  p_paddr : Z;
  p_filesz : Z;
  p_memsz : Z;
  p_flags : Z;
  p_align : Z
}.

(** The field of [n] bytes at [ofs], and the structures as they are in memory. *)
Definition field (v : list Z) (ofs n : nat) : Z := le (take n (drop ofs v)).
Definition ehdr_of (v : list Z) : Elf32_Ehdr :=
  MkEhdr (take 16 v) (field v 16 2) (field v 18 2) (field v 20 4) (field v 24 4) (field v 28 4) (field v 32 4) (field v 36 4)
    (field v 40 2) (field v 42 2) (field v 44 2) (field v 46 2) (field v 48 2) (field v 50 2).
Definition phdr_of (v : list Z) : Elf32_Phdr :=
  MkPhdr (field v 0 4) (field v 4 4) (field v 8 4) (field v 12 4) (field v 16 4) (field v 20 4) (field v 24 4) (field v 28 4).
Definition EHDR_SIZE : Z := 52.
Definition PHDR_SIZE : Z := 32.

Definition PT_LOAD : Z := 1.
Definition PT_DYNAMIC : Z := 2.
Definition PT_INTERP : Z := 3.
Definition PT_SHLIB : Z := 5.
Definition PF_W : Z := 2.

(** The condition on the bytes read for the executable header. *)
Definition bad_header (v : list Z) : bool :=
  let e := ehdr_of v in
  negb (Z.of_nat (length v) =? EHDR_SIZE) || negb (bool_decide (take 7 (e_ident e) = [0x7f; 69; 76; 70; 1; 1; 1])) ||
  negb (e_type e =? 2) || negb (e_machine e =? 3) || negb (e_version e =? 1) || negb (e_phentsize e =? PHDR_SIZE) || (1024 <? e_phnum e).

Section load.
Context {D W F : Type} `{!AddressSpaces D} `{!SwapSpace W} `{!FileStore F} `{!Directories D} `{!Executables F}.
Notation vm := (vm (D := D) (W := W) (F := F)).

(** [file_length (file)], and [file_read (file, &x, n)] for a local variable [x]. *)
Definition file_length (h : Z) : M vm Z := on_store (st_length h).
Definition file_read (h n : Z) : M vm (list Z) := on_store (st_read h n).

Definition validate_segment (ph : Elf32_Phdr) (h : Z) : M vm bool :=
  if negb (Z.land (p_offset ph) PGMASK =? Z.land (p_vaddr ph) PGMASK) then mret false
  else
    let* len := file_length h in
    if u32 len <? p_offset ph then mret false
    else if p_memsz ph <? p_filesz ph then mret false
    else if p_memsz ph =? 0 then mret false
    else if negb (is_user_vaddr (p_vaddr ph)) then mret false
    else if negb (is_user_vaddr (u32 (p_vaddr ph + p_memsz ph))) then mret false
    else if u32 (p_vaddr ph + p_memsz ph) <? p_vaddr ph then mret false
    else if p_vaddr ph <? PGSIZE then mret false
    else mret true.

(** [read_bytes] and [zero_bytes] of a segment. *)
Definition round_up32 (x : Z) : Z := u32 (u32 (x + PGSIZE - 1) / PGSIZE * PGSIZE).
Definition segment_read_bytes (ph : Elf32_Phdr) : Z :=
  let page_offset := Z.land (p_vaddr ph) PGMASK in
  if 0 <? p_filesz ph then u32 (page_offset + p_filesz ph) else 0.
Definition segment_zero_bytes (ph : Elf32_Phdr) : Z :=
  let page_offset := Z.land (p_vaddr ph) PGMASK in
  if 0 <? p_filesz ph then u32 (round_up32 (u32 (page_offset + p_memsz ph)) - u32 (page_offset + p_filesz ph))
  else round_up32 (u32 (page_offset + p_memsz ph)).

(** [case PT_LOAD]: a page is entered per round, so the pages of the segment bound the rounds. *)
Definition load_one (t h : Z) (ph : Elf32_Phdr) : M vm bool :=
  let* ok : bool := validate_segment ph h in
  if ok then
    let writable := negb (Z.land (p_flags ph) PF_W =? 0) in
    let file_page := Z.land (p_offset ph) (not32 PGMASK) in
    let mem_page := Z.land (p_vaddr ph) (not32 PGMASK) in
    let rb := segment_read_bytes ph in
    let zb := segment_zero_bytes ph in
    spt_initialize_file_as_lazy (Z.to_nat ((rb + zb) / PGSIZE)) t (Some h) (s32 file_page) mem_page rb zb writable false
  else mret false.

(** The loop over the program headers, [n] of them left. *)
Fixpoint load_headers (n : nat) (t h file_ofs : Z) : M vm bool :=
  match n with
  | O => mret true
  | S n =>
      if file_ofs <? 0 then mret false
      else
        let* len := file_length h in
        if len <? file_ofs then mret false
        else
          do* file_seek (Some h) file_ofs ;
          let* v := file_read h PHDR_SIZE in
          if negb (Z.of_nat (length v) =? PHDR_SIZE) then mret false
          else
            let ph := phdr_of v in
            let* ok : bool :=
              if (p_type ph =? PT_DYNAMIC) || (p_type ph =? PT_INTERP) || (p_type ph =? PT_SHLIB) then mret false
              else if p_type ph =? PT_LOAD then load_one t h ph
              else mret true in
            if ok then load_headers n t h (s32 (u32 file_ofs + PHDR_SIZE)) else mret false
  end.

Definition setup_stack (t : Z) : M vm (option Z) :=
  let* ok : bool := spt_initialize_as_memory t (PHYS_BASE - PGSIZE) in
  if ok then mret (Some PHYS_BASE) else mret None.

(** From the executable header to the stack: the entry point and the stack pointer. *)
Definition load_file (t h : Z) : M vm (option (Z * Z)) :=
  let* v := file_read h EHDR_SIZE in
  if bad_header v then mret None
  else
    let* ok : bool := load_headers (Z.to_nat (e_phnum (ehdr_of v))) t h (s32 (e_phoff (ehdr_of v))) in
    if negb ok then mret None
    else
      let* esp := setup_stack t in
      match esp with
      | Some esp => mret (Some (e_entry (ehdr_of v), esp))
      | None => mret None
      end.

Definition set_pagedir (t pd : Z) : M vm unit :=
  let* pr := get_proc t in modify (fun s => set_procs (<[t := MkProc pd (s_page_table pr)]> (procs s)) s).

(** [done:], for a load that has failed. *)
Definition load_failed (file : option Z) : M vm (option (Z * Z * Z)) :=
  do* filesys_lock_acquire ;
  do* (match file with Some h => on_store (st_close h) | None => skip end) ;
  do* filesys_lock_release ;
  mret None.

(** The entry point, the stack pointer and [t->executable] of the thread [t]. *)
Definition load (t : Z) (file_name : list Z) : M vm (option (Z * Z * Z)) :=
  let* pd := on_mmu as_create in
  do* set_pagedir t pd ;
  if pd =? 0 then load_failed None
  else
    do* on_mmu (as_activate pd) ;
    do* filesys_lock_acquire ;
    let* file := on_store (st_open file_name) in
    do* filesys_lock_release ;
    match file with
    | None => load_failed None
    | Some h =>
        let* r := load_file t h in
        match r with
        | None => load_failed (Some h)
        | Some (eip, esp) =>
            do* filesys_lock_acquire ;
            do* on_store (st_deny h) ;
            do* filesys_lock_release ;
            mret (Some (eip, esp, h))
        end
    end.

(** ** What a program's file says *)

(** The executable header and the program headers of the file with contents [c]. *)
Definition header (c : list Z) : Elf32_Ehdr := ehdr_of (take 52 c).
Definition phnum (c : list Z) : nat := Z.to_nat (e_phnum (header c)).
Definition phdr_at (c : list Z) (k : nat) : Elf32_Phdr := phdr_of (take 32 (drop (Z.to_nat (e_phoff (header c)) + 32 * k) c)).
Definition loadable (c : list Z) (k : nat) : Prop := (k < phnum c)%nat /\ p_type (phdr_at c k) = PT_LOAD.

(** A segment that lies in a file of [len] bytes at a place congruent to its address, and in the part of
    memory a program may use. *)
Definition valid_segment (ph : Elf32_Phdr) (len : Z) : Prop :=
  p_offset ph mod 4096 = p_vaddr ph mod 4096 /\ p_offset ph <= len /\ p_filesz ph <= p_memsz ph /\ 0 < p_memsz ph /\
  4096 <= p_vaddr ph /\ p_vaddr ph + p_memsz ph < PHYS_BASE.
#[global] Instance valid_segment_dec ph len : Decision (valid_segment ph len).
Proof. unfold valid_segment. apply _. Defined.

(** The pages of a segment. *)
Definition pages_of (ph : Elf32_Phdr) : nat := Z.to_nat ((p_vaddr ph mod 4096 + p_memsz ph + 4095) / 4096).
Definition first_page (ph : Elf32_Phdr) : Z := p_vaddr ph - p_vaddr ph mod 4096.
Definition in_segment (ph : Elf32_Phdr) (ua : Z) : Prop := in_range (first_page ph) (pages_of ph) ua.

Definition forbidden (ty : Z) : Prop := ty = PT_DYNAMIC \/ ty = PT_INTERP \/ ty = PT_SHLIB.
#[global] Instance forbidden_dec ty : Decision (forbidden ty).
Proof. unfold forbidden. apply _. Defined.

Record executable (c : list Z) : Prop := {
  x_header : bad_header (take 52 c) = false;
  x_table k : (k < phnum c)%nat -> e_phoff (header c) + 32 * (Z.of_nat k + 1) <= Z.of_nat (length c);
  x_types k : (k < phnum c)%nat -> ~ forbidden (p_type (phdr_at c k));
  x_segments k : loadable c k -> valid_segment (phdr_at c k) (Z.of_nat (length c))
}.
(** No page belongs to two segments. *)
Definition apart (c : list Z) : Prop :=
  forall j k ua, loadable c j -> loadable c k -> in_segment (phdr_at c j) ua -> in_segment (phdr_at c k) ua -> j = k.

(** What [load] takes on trust: the bytes of a segment are there, its offsets do not overflow and it does
    not reach the page of the stack. *)
Definition trusted (ph : Elf32_Phdr) (len : Z) : Prop :=
  (0 < p_filesz ph -> p_offset ph + p_filesz ph <= len) /\ p_offset ph + p_memsz ph + 4096 <= 2 ^ 31 /\ p_vaddr ph + p_memsz ph <= PHYS_BASE - 4096.

(** ** Segments *)

Definition is_phdr (ph : Elf32_Phdr) : Prop := is_u32 (p_offset ph) /\ is_u32 (p_vaddr ph) /\ is_u32 (p_filesz ph) /\ is_u32 (p_memsz ph).

Lemma field_u32 v ofs : Forall is_u8 v -> is_u32 (field v ofs 4).
Proof.
  intros H. unfold field. assert (Hf : Forall is_u8 (take 4 (drop ofs v))) by by apply Forall_take, Forall_drop.
  pose proof (Block.le_bound _ Hf) as B. pose proof (length_take (drop ofs v) 4) as L. unfold is_u32.
  assert (2 ^ (8 * Z.of_nat (length (take 4 (drop ofs v)))) <= 2 ^ 32) by (apply Z.pow_le_mono_r; lia). lia.
Qed.
Lemma phdr_of_u32 v : Forall is_u8 v -> is_phdr (phdr_of v).
Proof. intros H. split_and!; by apply field_u32. Qed.

Lemma validate_segment_ok (s : vm) hs cs h i pos c ph : st_inv (store s) hs cs -> hs !! h = Some (i, pos) -> cs !! i = Some c -> is_phdr ph ->
  validate_segment ph h s = Ok (bool_decide (valid_segment ph (Z.of_nat (length c))), s).
Proof.
  intros MF Hh Hc (H1 & H2 & H3 & H4). destruct (st_bytes _ _ _ _ _ MF Hc) as [_ Hlen]. unfold validate_segment, is_user_vaddr.
  change (Z.land (p_offset ph) PGMASK) with (pg_ofs (p_offset ph)). change (Z.land (p_vaddr ph) PGMASK) with (pg_ofs (p_vaddr ph)).
  rewrite !pg_ofs_mod. unfold valid_segment. change PGSIZE with 4096. unfold PHYS_BASE, is_u32 in *.
  destruct (Z.eqb_spec (p_offset ph mod 4096) (p_vaddr ph mod 4096)) as [E|E]; simpl; [|rewrite bool_decide_false by tauto; done].
  assert (EL : file_length h s = Ok (Z.of_nat (length c), s)).
  { unfold file_length, on_store. rewrite (st_length_ok _ _ _ _ _ _ _ MF Hh Hc). by destruct s. }
  rewrite (M_bind_Ok _ _ _ _ _ EL), u32_small by (unfold is_u32; lia).
  destruct (Z.ltb_spec (Z.of_nat (length c)) (p_offset ph)); [rewrite bool_decide_false by lia; done|].
  destruct (Z.ltb_spec (p_memsz ph) (p_filesz ph)); [rewrite bool_decide_false by lia; done|].
  destruct (Z.eqb_spec (p_memsz ph) 0); [rewrite bool_decide_false by lia; done|].
  destruct (Z.ltb_spec (p_vaddr ph) 0xc0000000); simpl negb; cbv iota; [|rewrite bool_decide_false by lia; done].
  assert (U : u32 (p_vaddr ph + p_memsz ph) = if p_vaddr ph + p_memsz ph <? 2 ^ 32 then p_vaddr ph + p_memsz ph else p_vaddr ph + p_memsz ph - 2 ^ 32).
  { unfold u32. destruct (Z.ltb_spec (p_vaddr ph + p_memsz ph) (2 ^ 32)); [apply Z.mod_small; lia|]. symmetry. apply (Z.mod_unique _ _ 1); lia. }
  rewrite U. destruct (Z.ltb_spec (p_vaddr ph + p_memsz ph) (2 ^ 32)).
  - destruct (Z.ltb_spec (p_vaddr ph + p_memsz ph) 0xc0000000); simpl negb; cbv iota; [|rewrite bool_decide_false by lia; done].
    rewrite (proj2 (Z.ltb_ge _ _)) by lia. destruct (Z.ltb_spec (p_vaddr ph) 4096); [rewrite bool_decide_false by lia; done|]. rewrite bool_decide_true by lia. done.
  - rewrite bool_decide_false by lia. destruct (_ <? 0xc0000000); simpl negb; cbv iota; [|done]. rewrite (proj2 (Z.ltb_lt _ _)) by lia. done.
Qed.

(** The segment asked of paging is the one the program header describes, page by page. *)
Lemma segment_args g h i pos c ph : g_pos g !! h = Some (i, pos) -> g_files g !! i = Some c ->
  is_phdr ph -> valid_segment ph (Z.of_nat (length c)) -> trusted ph (Z.of_nat (length c)) ->
  let rb := segment_read_bytes ph in let zb := segment_zero_bytes ph in let po := p_vaddr ph mod 4096 in
  segment_ok g h i c (p_offset ph - po) (first_page ph) rb zb (pages_of ph) /\ Z.to_nat ((rb + zb) / PGSIZE) = pages_of ph /\ pages_of ph <> 0%nat /\
  Z.land (p_vaddr ph) (not32 PGMASK) = first_page ph /\ s32 (Z.land (p_offset ph) (not32 PGMASK)) = p_offset ph - po /\
  rb = (if 0 <? p_filesz ph then po + p_filesz ph else 0).
Proof.
  intros Hh Hc (U1 & U2 & U3 & U4) (V1 & V2 & V3 & V4 & V5 & V6) (T1 & T2 & T3) rb zb po. unfold is_u32, PHYS_BASE in *.
  pose proof (Z.mod_pos_bound (p_vaddr ph) 4096 ltac:(lia)) as Hpo. fold po in Hpo.
  assert (Hov : 0 <= p_offset ph - po) by (unfold po; rewrite <- V1; pose proof (Z.mod_le (p_offset ph) 4096); lia).
  set (n := (po + p_memsz ph + 4095) / 4096).
  assert (Hn : 1 <= n /\ po + p_memsz ph <= 4096 * n < po + p_memsz ph + 4096).
  { unfold n. pose proof (Z.div_mod (po + p_memsz ph + 4095) 4096 ltac:(lia)). pose proof (Z.mod_pos_bound (po + p_memsz ph + 4095) 4096 ltac:(lia)). lia. }
  assert (Er : round_up32 (u32 (po + p_memsz ph)) = 4096 * n).
  { unfold round_up32. change PGSIZE with 4096. rewrite (u32_small (po + p_memsz ph)) by (unfold is_u32; lia).
    replace (po + p_memsz ph + 4096 - 1) with (po + p_memsz ph + 4095) by lia. rewrite (u32_small (po + p_memsz ph + 4095)) by (unfold is_u32; lia). fold n.
    rewrite u32_small by (unfold is_u32; lia). lia. }
  assert (Erz : rb = (if 0 <? p_filesz ph then po + p_filesz ph else 0) /\ zb = 4096 * n - rb).
  { unfold rb, zb, segment_read_bytes, segment_zero_bytes. change (Z.land (p_vaddr ph) PGMASK) with (pg_ofs (p_vaddr ph)). rewrite pg_ofs_mod. fold po. rewrite Er.
    destruct (Z.ltb_spec 0 (p_filesz ph)); [|lia].
    rewrite (u32_small (po + p_filesz ph)) by (unfold is_u32; lia). rewrite u32_small by (unfold is_u32; lia). lia. }
  destruct Erz as [Erb Ezb]. assert (Hrb : 0 <= rb <= 4096 * n) by (rewrite Erb; destruct (0 <? p_filesz ph); lia).
  assert (En : pages_of ph = Z.to_nat n) by done.
  split_and!; [|rewrite En, Ezb; change PGSIZE with 4096; f_equal; replace (rb + (4096 * n - rb)) with (n * 4096) by lia; apply Z.div_mul; lia|lia| | |done].
  - rewrite En. split; [by exists pos|lia| | |].
    + split; [lia|]. split; [|lia]. unfold po. rewrite <- V1. rewrite Zminus_mod_idemp_r, Z.sub_diag. done.
    + intros Hpos. rewrite Erb in Hpos |- *. destruct (Z.ltb_spec 0 (p_filesz ph)) as [Hfs|]; [|lia]. specialize (T1 Hfs). lia.
    + unfold user_page, first_page, PHYS_BASE. fold po. pose proof (Z.mod_le (p_vaddr ph) 4096 ltac:(lia) ltac:(lia)). fold po in H. split; [|].
      * split; [lia|]. unfold po. rewrite Zminus_mod_idemp_r, Z.sub_diag. done.
      * assert ((p_vaddr ph - po + 4096 * n - 4096) mod 4096 = 0).
        { replace (p_vaddr ph - po + 4096 * n - 4096) with ((p_vaddr ph - po) + (n - 1) * 4096) by lia. rewrite Z_mod_plus_full. unfold po. rewrite Zminus_mod_idemp_r, Z.sub_diag. done. }
        lia.
  - change (Z.land (p_vaddr ph) (not32 PGMASK)) with (pg_round_down (p_vaddr ph)). by rewrite pg_round_down_sub by (unfold is_u32; lia).
  - change (Z.land (p_offset ph) (not32 PGMASK)) with (pg_round_down (p_offset ph)). rewrite pg_round_down_sub by (unfold is_u32; lia). rewrite V1. fold po.
    apply s32_small. unfold is_s32. lia.
Qed.

(** ** The loop over the program headers *)

Context (cap : nat) (pds : gset Z) (slots : Z).
Notation inv := (inv cap pds slots).

(** The pages of the first [k] segments. *)
Fixpoint entered (c : list Z) (k : nat) : nat :=
  match k with
  | O => O
  | S k => (entered c k + if (p_type (phdr_at c k) =? PT_LOAD)%Z then pages_of (phdr_at c k) else 0)%nat
  end.

(** The bytes in the pages of a segment. *)
Definition segment_data (c : list Z) (ph : Elf32_Phdr) : list Z :=
  take (Z.to_nat (segment_read_bytes ph)) (drop (Z.to_nat (p_offset ph - p_vaddr ph mod 4096)) c) ++ replicate (Z.to_nat (segment_zero_bytes ph)) 0.
Definition writable_of (ph : Elf32_Phdr) : bool := negb (Z.land (p_flags ph) PF_W =? 0).

(** The process [t], whose page directory [pd] is still empty, has the segments of the first [k] program
    headers of its file [h], and no other page. *)
Record loading (s0 : vm) (g0 : ghost) (t pd h i : Z) (c : list Z) (k : nat) (s : vm) (g : ghost) : Prop := {
  ld_inv : inv s g;
  ld_clean : clean s g;
  ld_ghost : exists pos, g = set_pos h i pos g0;
  ld_state : exists st tab m nx, s = set_store st (set_mallocs m nx (set_procs (<[t := MkProc pd tab]> (procs s0)) s0)) /\ m = drop (entered c k) (mallocs s0) /\
    forall ua e, tab !! ua = Some e -> status e = PAGE_LAZY /\ exists j, (j < k)%nat /\ loadable c j /\ in_segment (phdr_at c j) ua;
  ld_segments j : (j < k)%nat -> loadable c j -> segment s g t (first_page (phdr_at c j)) (pages_of (phdr_at c j)) (writable_of (phdr_at c j)) false (segment_data c (phdr_at c j));
  ld_apart j j' ua : (j < k)%nat -> (j' < k)%nat -> loadable c j -> loadable c j' -> in_segment (phdr_at c j) ua -> in_segment (phdr_at c j') ua -> j = j';
  ld_views t' ua : t' <> t -> view s g t' ua = view s0 g0 t' ua
}.

Lemma segment_page (s : vm) g t upage n w l ua : segment s g t upage n w false l -> in_range upage n ua -> is_Some (view s g t ua).
Proof. intros (pages & L & _ & H) (k & Hk & ->). destruct (lookup_lt_is_Some_2 pages k) as [page Hp]; [lia|]. destruct (H _ _ Hp) as [-> _]. by eexists. Qed.
Lemma segment_same (s s' : vm) g g' t upage n w l : segment s g t upage n w false l ->
  (forall ua, is_Some (view s g t ua) -> view s' g' t ua = view s g t ua /\ attrs s' t ua = attrs s t ua) -> segment s' g' t upage n w false l.
Proof. intros (pages & L & E & H) HV. exists pages. split; [done|]. split; [done|]. intros k page Hk. destruct (H _ _ Hk) as [H1 H2]. destruct (HV _ (mk_is_Some _ _ H1)) as [-> ->]. done. Qed.

(** The position of the file moves. *)
Lemma loading_move s0 g0 t pd h i c k s g p0 st pos : g_pos g0 !! h = Some (i, p0) -> loading s0 g0 t pd h i c k s g ->
  st_inv st (<[h := (i, pos)]> (g_pos g0)) (g_files g0) -> loading s0 g0 t pd h i c k (set_store st s) (set_pos h i pos g0).
Proof.
  intros Hh [I C [p1 Eg] (st1 & tab & m & nx & Es & Em & Ht) HS HA HV] Hst. assert (Hh1 : g_pos g !! h = Some (i, p1)) by (rewrite Eg; apply lookup_insert_eq).
  assert (Eg2 : set_pos h i pos g = set_pos h i pos g0) by (rewrite Eg; unfold set_pos; simpl; by rewrite insert_insert_eq).
  assert (V : forall t' ua, view (set_store st s) (set_pos h i pos g0) t' ua = view s g t' ua) by (intros; rewrite <- Eg2; by eapply view_seek).
  rewrite <- Eg2 in *. split; [| |rewrite Eg2; by exists pos|by exists st, tab, m, nx; subst s| |done|intros; by rewrite V, HV].
  - eapply inv_seek; [done|done|]. rewrite Eg. simpl. rewrite insert_insert_eq. done.
  - by eapply clean_seek.
  - intros j Hj Hl. eapply segment_same; [by apply HS|]. intros ua _. split; [apply V|done].
Qed.

Lemma clean_filled (s : vm) g t pr upage n ok s' : clean s g -> procs s !! t = Some pr -> filled s t pr upage n ok s' -> clean s' g.
Proof.
  intros C Hp [(tab & m & nx & -> & _ & Ht) _] t' ua pd e (pr' & G1 & G2 & <-)%spt_get_some Hm Hs. simpl in G1. apply lookup_insert_Some in G1 as [[<- <-]|[Hne G1]].
  - simpl in *. destruct (Ht ua) as [Eu|(_ & e' & He' & Hs' & _)]; [|congruence]. rewrite Eu in G2. apply (C t ua (pagedir pr) e); [|done|done]. apply spt_get_some. eauto.
  - apply (C t' ua (pagedir pr') e); [|done|done]. apply spt_get_some. eauto.
Qed.

(** Why the program of the file with contents [c] may not be loaded: it is none, its segments overlap, there
    is no memory for the reads of the headers, or none for the entries of the pages, the stack's among them,
    and for the frame of the stack. *)
Definition trouble (s0 : vm) (c : list Z) : Prop :=
  ~ executable c \/ ~ apart c \/ ~ st_room (phnum c + 1) (store s0) \/ ~ replicate (entered c (phnum c) + 2) true `prefix_of` mallocs s0.

Lemma entered_le c k n : (k <= n)%nat -> (entered c k <= entered c n)%nat.
Proof. induction 1; simpl; lia. Qed.
Lemma entered_next c k : loadable c k -> entered c (S k) = (entered c k + pages_of (phdr_at c k))%nat.
Proof. intros [_ H]. cbn [entered]. by rewrite H. Qed.
Lemma phdr_at_u32 c k : Forall is_u8 c -> is_phdr (phdr_at c k).
Proof. intros H. by apply phdr_of_u32, Forall_take, Forall_drop. Qed.

Section headers.
Context (s0 : vm) (g0 : ghost) (t pd h i p0 : Z) (c : list Z).
Context (Hh : g_pos g0 !! h = Some (i, p0)) (Hc : g_files g0 !! i = Some c) (Hmap : forall ua, g_map g0 !! (pd, ua) = None).
Context (Htrust : forall k, loadable c k -> trusted (phdr_at c k) (Z.of_nat (length c))).
Context (R0 : ready cap pds slots s0 g0).
(** No other process has pages of the file as it has been opened for this one. *)
Context (Hown : forall t' ua pd' e, t' <> t -> spt_get s0 t' ua = Some (pd', e) -> status e = PAGE_LAZY \/ mmap e = true -> e_file e <> Some h).
Notation loading := (loading s0 g0 t pd h i c).

Lemma loading_file k s g : loading k s g -> exists pos, g_pos g !! h = Some (i, pos) /\ g_files g !! i = Some c /\ Forall is_u8 c /\ Z.of_nat (length c) < 2 ^ 31 /\
  st_inv (store s) (g_pos g) (g_files g) /\ st_inv (store s) (<[h := (i, pos)]> (g_pos g0)) (g_files g0).
Proof.
  intros L. destruct (ld_ghost _ _ _ _ _ _ _ _ _ _ L) as [pos ->]. destruct (ld_inv _ _ _ _ _ _ _ _ _ _ L) as [(_ & _ & MF) _]. exists pos.
  split; [apply lookup_insert_eq|]. split; [done|]. destruct (st_bytes _ _ _ _ _ MF Hc). done.
Qed.

(** At most [r] reads of the file have been made. *)
Definition read_times (r : nat) (s : vm) : Prop := forall n, st_room (r + n) (store s0) -> st_room n (store s).

(** Loading has been given up: the process has no page in memory, and the others have what they had. *)
Record abandoned (s : vm) (g : ghost) : Prop := {
  ab_ready : ready cap pds slots s g;
  ab_none ua pd' e : spt_get s t ua = Some (pd', e) -> status e <> PAGE_MEMORY;
  ab_own t' ua pd' e : t' <> t -> spt_get s t' ua = Some (pd', e) -> status e = PAGE_LAZY \/ mmap e = true -> e_file e <> Some h;
  ab_views t' ua : t' <> t -> view s g t' ua = view s0 g0 t' ua;
  ab_file : exists pos, g_pos g !! h = Some (i, pos)
}.

Lemma abandon (s : vm) g st tab m nx pos : inv s g -> clean s g -> g = set_pos h i pos g0 ->
  s = set_store st (set_mallocs m nx (set_procs (<[t := MkProc pd tab]> (procs s0)) s0)) -> (forall ua e, tab !! ua = Some e -> status e = PAGE_LAZY) ->
  (forall t' ua, t' <> t -> view s g t' ua = view s0 g0 t' ua) -> abandoned s g.
Proof.
  intros I C Eg Es Ht HV. assert (HS : forall t' ua, t' <> t -> spt_get s t' ua = spt_get s0 t' ua) by (intros t' ua Hne; rewrite Es; unfold spt_get; simpl; by rewrite lookup_insert_ne).
  split.
  - split; [done|done|rewrite Es; apply R0|rewrite Es; apply R0].
  - intros ua pd' e (pr & G1 & G2 & _)%spt_get_some. rewrite Es in G1. simpl in G1. rewrite lookup_insert_eq in G1. injection G1 as <-. by rewrite (Ht ua e G2).
  - intros t' ua pd' e Hne. rewrite (HS t' ua Hne). by apply Hown.
  - done.
  - exists pos. rewrite Eg. apply lookup_insert_eq.
Qed.
Lemma loading_abandoned k s g : loading k s g -> abandoned s g.
Proof.
  intros [I C [pos G] (st & tab & m & nx & Es & _ & Ht) _ _ HV]. eapply abandon; [done|done|done|done| |done]. intros ua e He. by destruct (Ht ua e He).
Qed.

(** The stack could not be made. *)
Lemma abandoned_unharmed s g s' g' : abandoned s g -> unharmed cap pds slots s g s' g' -> abandoned s' g'.
Proof.
  intros [[I C Hi Hl] A2 A3 A4 [pos A5]] U. split.
  - split; [apply U|apply U| |rewrite (proj2 (uh_locks _ _ _ _ _ _ _ U)); done]. intros p f Hf. destruct (pinned f) eqn:Hp; [|done].
    by rewrite (Hi p f (uh_frames _ _ _ _ _ _ _ U p f Hf Hp)) in Hp.
  - intros ua pd' e G. destruct (uh_spt _ _ _ _ _ _ _ U t ua) as [E|(pd2 & e1 & e2 & G1 & G2 & _)]; [rewrite E in G; by eapply A2|by destruct (A2 _ _ _ G1)].
  - intros t' ua pd' e Hne G Hs. destruct (uh_spt _ _ _ _ _ _ _ U t' ua) as [E|(pd2 & e1 & e2 & G1 & G2 & G3 & G4 & _ & G5 & G6 & G7)]; [rewrite E in G; by eapply A3|].
    rewrite G in G3. injection G3 as <- <-. rewrite G6. eapply A3; [done|done|]. right. destruct Hs as [Hs|Hs]; [auto|congruence].
  - intros t' ua Hne. rewrite (uh_view _ _ _ _ _ _ _ U). by apply A4.
  - destruct (uh_files _ _ _ _ _ _ _ U) as [H1 _]. specialize (H1 h). rewrite A5 in H1. destruct (g_pos g' !! h) as [[i' pos']|]; [|done]. simpl in H1. injection H1 as ->. by exists pos'.
Qed.

(** A program header that stands for nothing to be loaded. *)
Lemma loading_skip k s g : loading k s g -> p_type (phdr_at c k) <> PT_LOAD -> loading (S k) s g.
Proof.
  intros [I C G (st & tab & m & nx & Es & Em & Ht) HS HA HV] Hty. assert (HL : forall j, (j < S k)%nat -> loadable c j -> (j < k)%nat).
  { intros j Hj [_ Hl]. destruct (decide (j = k)) as [->|]; [done|lia]. }
  split; try done; [|intros j Hj Hl; apply HS; auto|intros j j' ua H1 H2 L1 L2; apply HA; auto].
  exists st, tab, m, nx. split; [done|]. split; [simpl; rewrite (proj2 (Z.eqb_neq _ _)) by done; by rewrite Nat.add_0_r|].
  intros ua e He. destruct (Ht ua e He) as (? & j & ? & ? & ?). split; [done|]. exists j. split_and!; try done. lia.
Qed.

(** The segment of the next program header has been entered. *)
Lemma loading_next k s g tab m nx st s' : loading k s g -> loadable c k ->
  s = set_store st (set_mallocs m nx (set_procs (<[t := MkProc pd tab]> (procs s0)) s0)) -> m = drop (entered c k) (mallocs s0) ->
  filled s t (MkProc pd tab) (first_page (phdr_at c k)) (pages_of (phdr_at c k)) true s' -> inv s' g ->
  segment s' g t (first_page (phdr_at c k)) (pages_of (phdr_at c k)) (writable_of (phdr_at c k)) false (segment_data c (phdr_at c k)) ->
  (forall t' ua', ~ (t' = t /\ in_segment (phdr_at c k) ua') -> view s' g t' ua' = view s g t' ua' /\ attrs s' t' ua' = attrs s t' ua') -> loading (S k) s' g.
Proof.
  intros [I C G (st1 & tab1 & m1 & nx1 & Es1 & Em1 & Ht1) HS HA HV] Hl Es Em FD I' SG HO.
  assert (Hp : procs s !! t = Some (MkProc pd tab)) by (rewrite Es; apply lookup_insert_eq).
  assert (tab1 = tab) as ->. { rewrite Es1 in Hp. simpl in Hp. rewrite lookup_insert_eq in Hp. by injection Hp. }
  assert (HN : forall ua, is_Some (view s g t ua) -> ~ in_segment (phdr_at c k) ua).
  { intros ua [v Hv] Hin. pose proof (fd_fresh _ _ _ _ _ _ _ FD ua eq_refl Hin) as He. unfold view, spt_get in Hv. rewrite Hp in Hv. simpl in He, Hv. by rewrite He in Hv. }
  assert (HX : forall j ua, (j < k)%nat -> loadable c j -> in_segment (phdr_at c j) ua -> ~ in_segment (phdr_at c k) ua).
  { intros j ua Hj Hlj Hin. apply HN. by eapply segment_page; [apply HS|]. }
  assert (HK : forall j, (j < S k)%nat -> j = k \/ (j < k)%nat) by lia. split; try done.
  - by eapply clean_filled.
  - destruct FD as [(tab' & m' & nx' & Es' & Em' & Ht') _]. exists st, tab', m', nx'. split; [rewrite Es', Es; simpl; by rewrite insert_insert_eq|]. split.
    + rewrite entered_next, (Em' eq_refl), Es by done. cbn [set_store set_mallocs mallocs]. by rewrite Em, drop_drop.
    + intros ua e He. destruct (Ht' ua) as [Eu|(Hin & e' & He' & Hs' & _)].
      * simpl in Eu. rewrite Eu in He. destruct (Ht1 ua e He) as (? & j & ? & ? & ?). split; [done|]. exists j. split_and!; try done. lia.
      * assert (e' = e) as -> by congruence. split; [done|]. exists k. split_and!; try done. lia.
  - intros j Hj Hlj. destruct (HK j Hj) as [->|Hj']; [done|]. eapply segment_same; [by apply HS|]. intros ua Hu. apply HO. intros [_ Hin]. by apply (HN ua).
  - intros j j' ua Hj Hj' L1 L2 I1 I2. destruct (HK j Hj) as [->|H1], (HK j' Hj') as [->|H2]; [done|by destruct (HX j' ua)|by destruct (HX j ua)|by eapply HA].
  - intros t' ua Hne. rewrite (proj1 (HO t' ua ltac:(by intros [? _]))). by apply HV.
Qed.

Lemma load_one_ok k s g : loading k s g -> loadable c k ->
  exists ok s', load_one t h (phdr_at c k) s = Ok (ok, s') /\
    if ok : bool then (loading (S k) s' g /\ store s' = store s) /\ valid_segment (phdr_at c k) (Z.of_nat (length c)) else trouble s0 c /\ abandoned s' g.
Proof.
  intros L Hl. destruct (loading_file k s g L) as (pos & F1 & F2 & F3 & F4 & F5 & _). pose proof (phdr_at_u32 c k F3) as HU.
  unfold load_one. rewrite (M_bind_Ok _ _ _ _ _ (validate_segment_ok s _ _ h i pos c _ F5 F1 F2 HU)). case_bool_decide as HV.
  2:{ exists false, s. split; [done|]. split; [|by eapply loading_abandoned]. left. intros X. by apply HV, (x_segments _ X). }
  destruct (segment_args g h i pos c (phdr_at c k) F1 F2 HU HV (Htrust k Hl)) as (SG & -> & Hn & -> & -> & _). fold (writable_of (phdr_at c k)).
  destruct (ld_state _ _ _ _ _ _ _ _ _ _ L) as (st & tab & m & nx & Es & Em & Ht).
  assert (Hp : procs s !! t = Some (MkProc pd tab)) by (rewrite Es; apply lookup_insert_eq).
  destruct (segment_loop cap pds slots (pages_of (phdr_at c k)) s g t (MkProc pd tab) h i c _ _ _ _ (writable_of (phdr_at c k)) false (ld_inv _ _ _ _ _ _ _ _ _ _ L) Hp (fun _ => SG))
    as (ok & s' & E & I' & Hno & Hyes & Ho); [done| |].
  { intros ua _ _. destruct (ld_ghost _ _ _ _ _ _ _ _ _ _ L) as [p1 ->]. apply Hmap. }
  pose proof (segment_filled _ s g t (MkProc pd tab) h i c _ _ _ _ _ ok s' Hp (fun _ => SG) ltac:(done) E) as FD.
  exists ok, s'. split; [done|]. destruct ok.
  - split; [|done]. split; [by eapply (loading_next k s g tab m nx st s'); try done; apply Hyes|]. by destruct FD as [(tab' & m' & nx' & -> & _) _].
  - split; cycle 1.
    { pose proof (clean_filled _ _ _ _ _ _ _ _ (ld_clean _ _ _ _ _ _ _ _ _ _ L) Hp FD) as C'. destruct FD as [(tab' & m' & nx' & Es' & _ & Ht') _].
      destruct (ld_ghost _ _ _ _ _ _ _ _ _ _ L) as [p1 Eg]. apply (abandon s' g st tab' m' nx' p1); try done.
      - rewrite Es', Es. simpl. by rewrite insert_insert_eq.
      - intros ua e He. destruct (Ht' ua) as [Eu|(_ & e' & He' & Hs' & _)]; [simpl in Eu; rewrite Eu in He; by destruct (Ht ua e He)|congruence].
      - intros t' ua Hne. rewrite (proj1 (Ho t' ua ltac:(by intros [? _]))). by apply L. }
    destruct (Hno eq_refl) as [(ua & Hin & e & He)|Hm].
    + right; left. intros HA. destruct (Ht ua e He) as (_ & j & Hj & Hlj & Hin'). pose proof (HA j k ua Hlj Hl Hin' Hin). lia.
    + right; right; right. intros Hpre. apply Hm. rewrite Es. simpl. rewrite Em. eapply replicate_prefix_drop; [|done]. rewrite <- entered_next by done.
      pose proof (entered_le c (S k) (phnum c) (proj1 Hl)). lia.
Qed.

(** A program header is where the table says, and may be loaded. *)
Definition checked (j : nat) : Prop :=
  e_phoff (header c) + 32 * (Z.of_nat j + 1) <= Z.of_nat (length c) /\ ~ forbidden (p_type (phdr_at c j)) /\
  (loadable c j -> valid_segment (phdr_at c j) (Z.of_nat (length c))).

Definition stopped (s' : vm) : Prop := trouble s0 c /\ exists g', abandoned s' g'.

Lemma loading_stopped k s g : loading k s g -> trouble s0 c -> stopped s.
Proof. intros L T. split; [done|]. exists g. by eapply loading_abandoned. Qed.

(** Reading the program header at [ofs]. *)
Lemma read_phdr k s g ofs : loading k s g -> 0 <= ofs <= Z.of_nat (length c) ->
  exists n st s2, (do* file_seek (Some h) ofs ; file_read h PHDR_SIZE) s = Ok (take (Z.to_nat n) (drop (Z.to_nat ofs) c), s2) /\ s2 = set_store st s /\
    0 <= n <= left_at c ofs 32 /\ loading k s2 (set_pos h i (ofs + n) g0) /\
    forall r, st_room (S r) (store s) -> st_room r st /\ (ofs + 32 <= Z.of_nat (length c) -> n = 32).
Proof.
  intros L Ho. destruct (loading_file k s g L) as (pos & F1 & F2 & F3 & F4 & F5 & _). destruct (ld_ghost _ _ _ _ _ _ _ _ _ _ L) as [p1 Eg].
  destruct (file_seek_ok cap pds slots s g h i pos ofs (proj1 (ld_inv _ _ _ _ _ _ _ _ _ _ L)) F1 ltac:(lia)) as (st & E & H & HR).
  destruct (st_read_ok _ _ _ h i ofs c 32 H (lookup_insert_eq _ _ _) F2 ltac:(lia)) as (n & st2 & E2 & Hn & H2).
  exists n, st2, (set_store st2 s). rewrite (M_bind_Ok _ _ _ _ _ E). split; [|split; [done|split; [done|split]]].
  - unfold file_read, PHDR_SIZE. rewrite (on_store_ok _ (set_store st s) _ _ E2). done.
  - eapply loading_move; [done|done|]. rewrite Eg in H2. simpl in H2. by rewrite !insert_insert_eq in H2.
  - intros r Hr. destruct (st_read_room _ _ _ h i ofs c 32 r _ st2 H (lookup_insert_eq _ _ _) F2 ltac:(lia) (HR _ Hr) E2) as [Hl Hr2]. split; [done|]. intros Hle.
    unfold left_at in *. rewrite length_take, length_drop in Hl. lia.
Qed.

Lemma load_headers_ok n : forall k s g ofs, loading k s g -> read_times (S k) s -> (k + n = phnum c)%nat -> ofs = s32 (e_phoff (header c) + 32 * Z.of_nat k) ->
  (k <> 0%nat -> e_phoff (header c) + 32 * Z.of_nat k <= Z.of_nat (length c)) ->
  exists ok s', load_headers n t h ofs s = Ok (ok, s') /\
    if ok : bool then (exists g', loading (phnum c) s' g') /\ forall j, (k <= j < phnum c)%nat -> checked j else stopped s'.
Proof.
  induction n as [|n IH]; intros k s g ofs L Hrt Hk Eo Hle.
  { exists true, s. split; [done|]. rewrite Nat.add_0_r in Hk. subst k. split; [by exists g|]. intros j. lia. }
  destruct (loading_file k s g L) as (pos & F1 & F2 & F3 & F4 & F5 & _).
  assert (Hph : is_u32 (e_phoff (header c))) by by apply field_u32, Forall_take. unfold is_u32 in Hph.
  assert (Hofs : ofs = e_phoff (header c) + 32 * Z.of_nat k \/ ofs < 0 /\ Z.of_nat (length c) < e_phoff (header c) + 32 * Z.of_nat k).
  { destruct (decide (e_phoff (header c) + 32 * Z.of_nat k < 2 ^ 31)); [left; rewrite Eo; apply s32_small; unfold is_s32; lia|right].
    assert (k = 0%nat) by (destruct k; [done|]; lia). subst k. rewrite Eo, Z.mul_0_r, Z.add_0_r in *. rewrite s32_neg by lia. lia. }
  assert (HT : Z.of_nat (length c) < e_phoff (header c) + 32 * (Z.of_nat k + 1) -> trouble s0 c).
  { intros H. left. intros X. pose proof (x_table _ X k ltac:(lia)). lia. }
  cbn [load_headers]. destruct (Z.ltb_spec ofs 0); [exists false, s; split; [done|]; eapply loading_stopped; try done; apply HT; lia|].
  destruct Hofs as [Eofs|]; [|lia].
  assert (EL : file_length h s = Ok (Z.of_nat (length c), s)) by (unfold file_length, on_store; rewrite (st_length_ok _ _ _ _ _ _ _ F5 F1 F2); by destruct s).
  rewrite (M_bind_Ok _ _ _ _ _ EL). destruct (Z.ltb_spec (Z.of_nat (length c)) ofs); [exists false, s; split; [done|]; eapply loading_stopped; try done; apply HT; lia|].
  destruct (read_phdr k s g ofs L ltac:(lia)) as (m & st & s2 & E & Es2 & Hm & L2 & HR2).
  assert (Hrt2 : read_times (S (S k)) s2) by (intros r Hr; rewrite Es2; apply (HR2 r), Hrt; by rewrite Nat.add_succ_r).
  rewrite <- M_bind_assoc, (M_bind_Ok _ _ _ _ _ E). unfold left_at in Hm. rewrite length_take, length_drop. unfold PHDR_SIZE.
  destruct (Z.eqb_spec (Z.of_nat (Z.to_nat m `min` (length c - Z.to_nat ofs))) 32) as [H32|H32]; cbn [negb].
  2:{ exists false, s2. split; [done|]. eapply loading_stopped; try done. destruct (decide (ofs + 32 <= Z.of_nat (length c))); [|apply HT; lia].
      right; right; left. intros Hr. replace (phnum c + 1)%nat with (S k + S n)%nat in Hr by lia. destruct (HR2 _ (Hrt _ Hr)) as [_ H2]. lia. }
  assert (m = 32) as -> by lia. assert (Hat : phdr_of (take (Z.to_nat 32) (drop (Z.to_nat ofs) c)) = phdr_at c k) by (unfold phdr_at; do 3 f_equal; lia).
  rewrite Hat. cbv zeta. rewrite (u32_small ofs) by (unfold is_u32; lia). assert (Hnext : s32 (ofs + 32) = s32 (e_phoff (header c) + 32 * Z.of_nat (S k))) by (f_equal; lia).
  destruct (decide (forbidden (p_type (phdr_at c k)))) as [Hfb|Hfb].
  { replace ((p_type (phdr_at c k) =? PT_DYNAMIC) || (p_type (phdr_at c k) =? PT_INTERP) || (p_type (phdr_at c k) =? PT_SHLIB)) with true
      by (symmetry; rewrite !orb_true_iff, !Z.eqb_eq; unfold forbidden in Hfb; tauto).
    exists false, s2. split; [done|]. eapply loading_stopped; try done. left. intros X. by apply (x_types _ X k ltac:(lia)). }
  replace ((p_type (phdr_at c k) =? PT_DYNAMIC) || (p_type (phdr_at c k) =? PT_INTERP) || (p_type (phdr_at c k) =? PT_SHLIB)) with false
    by (symmetry; rewrite !orb_false_iff, !Z.eqb_neq; unfold forbidden in Hfb; tauto).
  assert (HR : forall s3 g3, loading (S k) s3 g3 -> store s3 = store s2 -> (loadable c k -> valid_segment (phdr_at c k) (Z.of_nat (length c))) ->
    exists ok s', load_headers n t h (s32 (ofs + 32)) s3 = Ok (ok, s') /\
      if ok : bool then (exists g', loading (phnum c) s' g') /\ forall j, (k <= j < phnum c)%nat -> checked j else stopped s').
  { intros s3 g3 L3 E3 HV. destruct (IH (S k) s3 g3 (s32 (ofs + 32)) L3 ltac:(unfold read_times; by rewrite E3) ltac:(lia) Hnext ltac:(lia)) as (ok & s' & E' & H'). exists ok, s'. split; [done|].
    destruct ok; [|done]. destruct H' as [H1 H2]. split; [done|]. intros j Hj. destruct (decide (j = k)) as [->|]; [|apply H2; lia]. split; [lia|done]. }
  destruct (Z.eqb_spec (p_type (phdr_at c k)) PT_LOAD) as [Hty|Hty].
  - assert (Hl : loadable c k) by (split; [lia|done]). destruct (load_one_ok k s2 _ L2 Hl) as (ok & s3 & E3 & H3). rewrite (M_bind_Ok _ _ _ _ _ E3). destruct ok.
    + destruct H3 as [[L3 E4] HV]. by apply (HR s3 _ L3).
    + destruct H3 as [T H4]. exists false, s3. split; [done|]. split; [done|]. by eexists.
  - rewrite (M_bind_Ok _ _ s2 true s2) by done. apply (HR s2 _ (loading_skip _ _ _ L2 Hty)); [done|]. by intros [_ ?].
Qed.

(** ** The image of a program *)

Definition stack_page : Z := PHYS_BASE - 4096.
Definition byte_of (s : vm) (g : ghost) (a : Z) : option Z := view s g t (a - a mod 4096) ≫= fun page => page !! Z.to_nat (a mod 4096).

Lemma concat_pages (pages : list (list Z)) k r page : Forall (fun p => length p = 4096%nat) pages -> pages !! k = Some page -> (r < 4096)%nat ->
  concat pages !! (4096 * k + r)%nat = page !! r.
Proof.
  intros Fp. revert k. induction Fp as [|p pages Hp Fp IH]; intros k Hk Hr; [done|]. destruct k as [|k]; cbn [concat].
  - injection Hk as ->. rewrite lookup_app_l by lia. done.
  - rewrite lookup_app_r by lia. rewrite <- (IH k Hk Hr). f_equal. lia.
Qed.

Lemma lazy_page k s g ua page : loading k s g -> view s g t ua = Some page -> length page = 4096%nat.
Proof.
  intros L Hv. destruct (ld_state _ _ _ _ _ _ _ _ _ _ L) as (st & tab & m & nx & Es & Em & Ht). unfold view in Hv.
  destruct (spt_get s t ua) as [[pd1 e]|] eqn:G; [|done]. pose proof G as (pr & G1 & G2 & _)%spt_get_some.
  assert (pr = MkProc pd tab) as -> by (rewrite Es in G1; simpl in G1; rewrite lookup_insert_eq in G1; by injection G1). destruct (Ht ua e G2) as [Hs _].
  destruct (pg_entry _ _ _ (proj2 (ld_inv _ _ _ _ _ _ _ _ _ _ L)) _ _ _ _ G) as (_ & _ & _ & (h1 & i1 & pos1 & c1 & B1 & B2 & B3 & B4 & B5 & B6 & B7 & B8 & B9)); [by left|].
  unfold contents in Hv. rewrite Hs, B1, B2, B3 in Hv. injection Hv as <-. rewrite length_app, length_take, length_drop, length_replicate.
  destruct (decide (0 < read_bytes e)) as [Hr|]; [specialize (B9 Hr)|]; lia.
Qed.

(** The bytes of the pages of a segment that has been entered. *)
Lemma segment_bytes_of k s g j a : loading k s g -> (j < k)%nat -> loadable c j ->
  first_page (phdr_at c j) <= a < first_page (phdr_at c j) + 4096 * Z.of_nat (pages_of (phdr_at c j)) ->
  byte_of s g a = segment_data c (phdr_at c j) !! Z.to_nat (a - first_page (phdr_at c j)) /\ attrs s t (a - a mod 4096) = Some (writable_of (phdr_at c j), false).
Proof.
  intros L Hj Hl Ha. destruct (ld_segments _ _ _ _ _ _ _ _ _ _ L j Hj Hl) as (pages & Ln & Ec & Hp). set (u := first_page (phdr_at c j)) in *.
  assert (Hu : u mod 4096 = 0) by (unfold u, first_page; rewrite Zminus_mod_idemp_r, Z.sub_diag; done).
  pose proof (Z.div_mod (a - u) 4096 ltac:(lia)) as Hd. pose proof (Z.mod_pos_bound (a - u) 4096 ltac:(lia)) as Hm. set (q := (a - u) / 4096) in *.
  assert (Hq : 0 <= q < Z.of_nat (pages_of (phdr_at c j))) by lia.
  assert (Em : a mod 4096 = (a - u) mod 4096) by (rewrite Zminus_mod, Hu, Z.sub_0_r, Zmod_mod; done). rewrite <- Em in *.
  destruct (lookup_lt_is_Some_2 pages (Z.to_nat q)) as [page Hpage]; [lia|]. destruct (Hp _ _ Hpage) as [V A]. rewrite Z2Nat.id in V, A by lia.
  replace (u + 4096 * q) with (a - a mod 4096) in V, A by lia. split; [|done]. unfold byte_of. rewrite V. simpl.
  assert (Fp : Forall (fun p => length p = 4096%nat) pages).
  { apply Forall_lookup. intros x p Hx. by eapply lazy_page; [|apply (Hp x p Hx)]. }
  rewrite <- Ec. rewrite <- (concat_pages pages (Z.to_nat q) (Z.to_nat (a mod 4096)) page Fp Hpage) by lia. f_equal. lia.
Qed.

(** The bytes of a segment are those of the file, followed by zeros. *)
Lemma segment_data_at ph x : is_phdr ph -> valid_segment ph (Z.of_nat (length c)) -> trusted ph (Z.of_nat (length c)) -> 0 <= x < p_memsz ph ->
  first_page ph <= p_vaddr ph + x < first_page ph + 4096 * Z.of_nat (pages_of ph) /\
  segment_data c ph !! Z.to_nat (p_vaddr ph + x - first_page ph) = if x <? p_filesz ph then c !! Z.to_nat (p_offset ph + x) else Some 0.
Proof.
  intros HU HV HT Hx. destruct (segment_args g0 h i p0 c ph Hh Hc HU HV HT) as ([_ (S1 & S2 & S3) (S4 & _) S5 _] & _ & _ & _ & _ & Erb).
  pose proof HV as (_ & _ & V3 & _). unfold segment_data. set (rb := segment_read_bytes ph) in *. set (zb := segment_zero_bytes ph) in *.
  pose proof (Z.mod_pos_bound (p_vaddr ph) 4096 ltac:(lia)) as Hpo. set (po := p_vaddr ph mod 4096) in *.
  assert (Hn : po + p_memsz ph <= 4096 * Z.of_nat (pages_of ph)).
  { unfold pages_of. fold po. pose proof (Z.div_mod (po + p_memsz ph + 4095) 4096 ltac:(lia)). pose proof (Z.mod_pos_bound (po + p_memsz ph + 4095) 4096 ltac:(lia)). lia. }
  unfold first_page. fold po. replace (p_vaddr ph + x - (p_vaddr ph - po)) with (po + x) by lia. split; [lia|].
  destruct HU as (U1 & U2 & U3 & U4). unfold is_u32 in *.
  destruct (Z.ltb_spec x (p_filesz ph)) as [Hf|Hf].
  - rewrite (proj2 (Z.ltb_lt 0 (p_filesz ph))) in Erb by lia. specialize (S5 ltac:(lia)).
    rewrite lookup_app_l by (rewrite length_take, length_drop; lia). rewrite lookup_take_lt, lookup_drop by lia. f_equal. lia.
  - assert (L : length (take (Z.to_nat rb) (drop (Z.to_nat (p_offset ph - po)) c)) = Z.to_nat rb) by (rewrite length_take, length_drop; destruct (0 <? p_filesz ph); lia).
    rewrite lookup_app_r; rewrite L; [|destruct (0 <? p_filesz ph); lia]. apply lookup_replicate_2. destruct (0 <? p_filesz ph); lia.
Qed.

(** The memory of a process that runs the program: its segments, a page of stack, and nothing else. *)
Record image (s : vm) (g : ghost) : Prop := {
  im_segment k x : let ph := phdr_at c k in loadable c k -> 0 <= x < p_memsz ph ->
    byte_of s g (p_vaddr ph + x) = (if x <? p_filesz ph then c !! Z.to_nat (p_offset ph + x) else Some 0) /\
    attrs s t (p_vaddr ph + x - (p_vaddr ph + x) mod 4096) = Some (writable_of ph, false);
  im_stack : view s g t stack_page = Some zero_page /\ attrs s t stack_page = Some (true, false);
  im_only ua : is_Some (view s g t ua) -> ua = stack_page \/ exists k, loadable c k /\ in_segment (phdr_at c k) ua
}.

Context (Hstart : procs s0 !! t = Some (MkProc pd ∅)) (Hcap : (0 < cap)%nat) (Hp0 : p0 = 0).

Lemma loading_start : loading 0 s0 g0.
Proof.
  destruct R0 as [I C Hi Hl]. split; try done; [| |intros j Hj; lia|intros j j' ua Hj; lia].
  - exists p0. unfold set_pos. rewrite insert_id by done. by destruct g0.
  - exists (store s0), ∅, (mallocs s0), (next s0). rewrite insert_id by done. split; [by destruct s0|]. split; [done|]. intros ua e He. by rewrite lookup_empty in He.
Qed.

Lemma below_stack k ua : loadable c k -> in_segment (phdr_at c k) ua -> ua < stack_page.
Proof.
  intros Hl (q & Hq & ->). destruct (Htrust k Hl) as (_ & _ & T). unfold pages_of, first_page, stack_page in *.
  set (x := p_vaddr (phdr_at c k)) in *. pose proof (Z.mod_pos_bound x 4096 ltac:(lia)).
  pose proof (Z.div_mod (x mod 4096 + p_memsz (phdr_at c k) + 4095) 4096 ltac:(lia)). pose proof (Z.mod_pos_bound (x mod 4096 + p_memsz (phdr_at c k) + 4095) 4096 ltac:(lia)). lia.
Qed.

(** Loading has failed, for one of those reasons or because the page table of the stack could not be made. *)
Definition gave_up (s' : vm) : Prop := (trouble s0 c \/ ~ as_room 1 (mmu s0)) /\ exists g', abandoned s' g'.

(** A page of stack is added to the segments. *)
Lemma setup_stack_ok s g : loading (phnum c) s g -> (forall k, loadable c k -> valid_segment (phdr_at c k) (Z.of_nat (length c))) ->
  (exists s', setup_stack t s = Ok (None, s') /\ gave_up s') \/ (setup_stack t s = Fail FPanic /\ full slots g0) \/
  exists s' g', setup_stack t s = Ok (Some PHYS_BASE, s') /\ ready cap pds slots s' g' /\ image s' g' /\
    (forall t' ua, t' <> t -> view s' g' t' ua = view s0 g0 t' ua) /\ (exists pos, g_pos g' !! h = Some (i, pos) /\ g_files g' !! i = Some c).
Proof.
  intros L HV. destruct R0 as [_ _ Hi Hl]. destruct (loading_file _ s g L) as (pos & F1 & F2 & F3 & _ & _ & F6).
  destruct (ld_state _ _ _ _ _ _ _ _ _ _ L) as (st & tab & m & nx & Es & Em & Ht). destruct (ld_ghost _ _ _ _ _ _ _ _ _ _ L) as [p1 Eg].
  assert (Hidle : idle s) by (rewrite Es; exact Hi). assert (Hlock : fs_lock s = false) by (rewrite Es; exact Hl).
  assert (Hp : procs s !! t = Some (MkProc pd tab)) by (rewrite Es; apply lookup_insert_eq).
  assert (Hno : tab !! stack_page = None).
  { destruct (tab !! stack_page) as [e|] eqn:He; [|done]. destruct (Ht _ _ He) as (_ & j & _ & Hlj & Hin). pose proof (below_stack j _ Hlj Hin). lia. }
  assert (Hr : ready cap pds slots s g) by (split; [apply L|apply L|done|done]).
  unfold setup_stack. change (PHYS_BASE - PGSIZE) with stack_page.
  destruct (spt_initialize_as_memory_ok cap pds slots s g t stack_page (MkProc pd tab) (ld_inv _ _ _ _ _ _ _ _ _ _ L) (ld_clean _ _ _ _ _ _ _ _ _ _ L) Hlock
    (idle_evictable _ _ _ s g (ld_inv _ _ _ _ _ _ _ _ _ _ L) Hidle Hcap) Hp Hno ltac:(done) ltac:(rewrite Eg; apply Hmap)) as [(s' & g' & E & Hwhy & U)|[[E Hf]|(s' & g' & E & [RS _] & A & V)]].
  - left. rewrite (M_bind_Ok _ _ _ _ _ E). exists s'. split; [done|]. split; [|exists g'; eapply abandoned_unharmed; [by eapply loading_abandoned|done]].
    destruct Hwhy as [Hm|Hroom]; [|right; by rewrite Es in Hroom]. left; right; right; right. intros Hpre. apply Hm. rewrite Es. cbn [set_store set_mallocs mallocs]. rewrite Em.
    by eapply replicate_prefix_drop; [|exact Hpre].
  - right; left. split; [unfold mbind, M_bind; by rewrite E|]. rewrite Eg in Hf. exact Hf.
  - right; right. rewrite (M_bind_Ok _ _ _ _ _ E). exists s', g'. split; [done|]. split; [by eapply resumed_ready|].
    assert (HO : forall ua, ua <> stack_page -> view s' g' t ua = view s g t ua /\ attrs s' t ua = attrs s t ua).
    { intros ua Hne. rewrite V, decide_False by congruence. split; [done|]. apply (rs_attrs _ _ _ _ _ _ _ _ _ RS). left. congruence. }
    split; [|split].
    + split.
      * intros k x ph Hlk Hx. destruct (segment_data_at ph x (phdr_at_u32 c k F3) (HV k Hlk) (Htrust k Hlk) Hx) as [Hin <-].
        destruct (segment_bytes_of _ s g k (p_vaddr ph + x) L (proj1 Hlk) Hlk Hin) as [B1 B2]. fold ph in B1, B2. rewrite <- B1, <- B2. unfold byte_of.
        destruct (HO (p_vaddr ph + x - (p_vaddr ph + x) mod 4096)) as [-> ->]; [|done]. destruct (Htrust k Hlk) as (_ & _ & T). fold ph in T.
        pose proof (Z.mod_pos_bound (p_vaddr ph + x) 4096 ltac:(lia)). unfold stack_page. lia.
      * rewrite V, decide_True by done. done.
      * intros ua Hu. destruct (decide (ua = stack_page)) as [->|Hne]; [by left|right]. rewrite (proj1 (HO ua Hne)) in Hu. destruct Hu as [v Hu].
        unfold view, spt_get in Hu. rewrite Hp in Hu. simpl in Hu. destruct (tab !! ua) as [e|] eqn:He; [|done]. destruct (Ht ua e He) as (_ & j & _ & H1 & H2). by exists j.
    + intros t' ua Hne. rewrite V, decide_False by congruence. by apply L.
    + destruct (rs_files _ _ _ _ _ _ _ _ _ RS) as [Q1 Q2]. specialize (Q1 h). rewrite F1 in Q1. simpl in Q1. destruct (g_pos g' !! h) as [[i' pos']|]; [|done].
      simpl in Q1. injection Q1 as ->. exists pos'. by rewrite Q2.
Qed.

Lemma load_file_ok :
  (exists s', load_file t h s0 = Ok (None, s') /\ gave_up s') \/ (load_file t h s0 = Fail FPanic /\ full slots g0) \/
  exists s' g', load_file t h s0 = Ok (Some (e_entry (header c), PHYS_BASE), s') /\ (executable c /\ apart c) /\ ready cap pds slots s' g' /\ image s' g' /\
    (forall t' ua, t' <> t -> view s' g' t' ua = view s0 g0 t' ua) /\ (exists pos, g_pos g' !! h = Some (i, pos) /\ g_files g' !! i = Some c).
Proof.
  destruct (loading_file 0 s0 g0 loading_start) as (pos & F1 & F2 & F3 & F4 & F5 & _). assert (pos = 0) as -> by congruence.
  destruct (st_read_ok _ _ _ h i 0 c 52 F5 F1 F2 ltac:(lia)) as (n & st & E & Hn & Hst). unfold left_at in Hn. simpl Z.to_nat in E. rewrite drop_0 in E.
  set (s1 := set_store st s0). assert (L1 : loading 0 s1 (set_pos h i (0 + n) g0)) by (eapply loading_move; [exact Hh|apply loading_start|exact Hst]).
  assert (HG : trouble s0 c -> gave_up s1) by (intros T; destruct (loading_stopped 0 s1 _ L1 T); split; [by left|done]).
  assert (HR := fun r Hr => st_read_room _ _ _ h i 0 c 52 r _ st F5 F1 F2 ltac:(lia) Hr E).
  unfold load_file. rewrite (M_bind_Ok _ _ s0 (take (Z.to_nat n) c) s1) by (by apply on_store_ok).
  destruct (bad_header (take (Z.to_nat n) c)) eqn:Hbad.
  { left. exists s1. split; [done|]. apply HG. destruct (decide (n < 52 /\ 52 <= Z.of_nat (length c))) as [Hs|Hs].
    - right; right; left. intros Hr. rewrite Nat.add_1_r in Hr. destruct (HR _ Hr) as [H _]. unfold left_at in H. rewrite length_take in H. lia.
    - left. intros X. pose proof (x_header _ X) as HX. destruct (decide (n = 52)) as [->|]; [change (Z.to_nat 52) with 52%nat in Hbad; congruence|].
      unfold bad_header in HX. rewrite length_take in HX. unfold EHDR_SIZE in HX. rewrite (proj2 (Z.eqb_neq _ _)) in HX by lia. done. }
  assert (n = 52) as ->.
  { unfold bad_header in Hbad. destruct (Z.eqb_spec (Z.of_nat (length (take (Z.to_nat n) c))) EHDR_SIZE) as [Hl|]; [|done]. rewrite length_take in Hl. unfold EHDR_SIZE in Hl. lia. }
  change (ehdr_of (take (Z.to_nat 52) c)) with (header c). fold (phnum c).
  destruct (load_headers_ok (phnum c) 0 s1 _ (s32 (e_phoff (header c))) L1 (fun r Hr => proj2 (HR r Hr)) eq_refl) as (ok & s2 & E2 & H2); [by rewrite Z.mul_0_r, Z.add_0_r|done|].
  rewrite (M_bind_Ok _ _ _ _ _ E2). destruct ok; cbn [negb].
  2:{ left. exists s2. split; [done|]. destruct H2 as [T H3]. split; [by left|done]. }
  destruct H2 as [[g2 L2] HC]. assert (X : executable c).
  { split; [done|intros k Hk; by apply HC; lia|intros k Hk; by apply HC; lia|intros k Hk; apply HC; [destruct Hk; lia|done]]. }
  assert (HA : apart c) by (intros j k ua Hj Hk; apply (ld_apart _ _ _ _ _ _ _ _ _ _ L2); [apply Hj|apply Hk|done|done]).
  destruct (setup_stack_ok s2 g2 L2 (x_segments _ X)) as [(s' & E3 & H3)|[[E3 H3]|(s' & g' & E3 & H3 & H4 & H5)]].
  - left. rewrite (M_bind_Ok _ _ _ _ _ E3). by exists s'.
  - right; left. split; [unfold mbind, M_bind; by rewrite E3|done].
  - right; right. rewrite (M_bind_Ok _ _ _ _ _ E3). by exists s', g'.
Qed.

End headers.

(** ** A thread gets a page directory, a file is opened *)

Definition others (t : Z) (s : vm) : vm := set_procs (delete t (procs s)) s.

Lemma newborn_ready (s : vm) g t pd d : ready cap pds slots (others t s) g -> pd ∉ pds -> as_inv d cap (g_us g) ({[ pd ]} ∪ pds) (g_map g) ->
  let s1 := set_procs (<[t := MkProc pd ∅]> (procs s)) (set_mmu d s) in
  ready cap ({[ pd ]} ∪ pds) slots s1 g /\ (forall t' ua, t' <> t -> view s1 g t' ua = view (others t s) g t' ua) /\ forall ua, g_map g !! (pd, ua) = None.
Proof.
  intros [[(MA & MS & MF) P] C Hi Hl] Hpd MA1 s1. assert (HS : forall t' ua, spt_get s1 t' ua = spt_get (others t s) t' ua).
  { intros t' ua. unfold spt_get. simpl. destruct (decide (t' = t)) as [->|]; [by rewrite lookup_insert_eq, lookup_delete_eq|by rewrite lookup_insert_ne, lookup_delete_ne]. }
  assert (HD : forall t' pr, procs s1 !! t' = Some pr -> (t' = t /\ pagedir pr = pd) \/ (procs (others t s) !! t' = Some pr /\ pagedir pr ∈ pds)).
  { intros t' pr. simpl. intros [[<- <-]|[Hne H]]%lookup_insert_Some; [by left|right]. assert (H' : procs (others t s) !! t' = Some pr) by by apply lookup_delete_Some.
    split; [done|]. by eapply (pg_dir _ _ _ P). }
  split; [|split].
  - split; [|intros t' ua pd' e; rewrite HS; apply C|done|done]. split; [done|]. destruct P as [P1 P2 P3 P4 P5 P6 P7 P8 P9 P10 P11 P12]. split; try done.
    + intros t' pr [[_ ->]|[_ H]]%HD; set_solver.
    + intros t1 pr1 t2 pr2 [[-> E1]|[H1 D1]]%HD [[-> E2]|[H2 D2]]%HD E; [done|congruence|congruence|by eapply P2].
    + intros t' ua pd' e. rewrite HS. apply P3.
    + intros t1 ua1 pd1 e1 t2 ua2 pd2 e2. rewrite !HS. apply P4.
    + intros p f Hf. destruct (P5 p f Hf) as [A1 A2]. split; [done|]. intros Hp. destruct (A2 Hp) as (pd' & e & A3 & A4). exists pd', e. by rewrite HS.
  - intros t' ua _. unfold view. by rewrite HS.
  - intros ua. destruct (g_map g !! (pd, ua)) as [e|] eqn:E; [|done]. by destruct (as_map _ _ _ _ _ _ _ _ MA E).
Qed.

Lemma ready_mmu (s : vm) g d : ready cap pds slots s g -> as_inv d cap (g_us g) pds (g_map g) -> ready cap pds slots (set_mmu d s) g.
Proof. intros [[(_ & MS & MF) P] C Hi Hl] MA. split; [|done|done|done]. split; [done|]. by destruct P. Qed.
Lemma ready_store (s : vm) g st : ready cap pds slots s g -> st_inv st (g_pos g) (g_files g) -> ready cap pds slots (set_store st s) g.
Proof. intros [[(MA & MS & _) P] C Hi Hl] MF. split; [|done|done|done]. split; [done|]. by destruct P. Qed.

Definition with_file (h i : Z) (cs : gmap Z (list Z)) (g : ghost) : ghost := MkGhost (g_us g) (g_map g) (g_swap g) (<[h := (i, 0)]> (g_pos g)) cs.

Lemma ready_open (s : vm) g st h i cs : ready cap pds slots s g -> g_pos g !! h = None -> g_files g ⊆ cs -> st_inv st (<[h := (i, 0)]> (g_pos g)) cs ->
  ready cap pds slots (set_store st s) (with_file h i cs g) /\ forall t ua, view (set_store st s) (with_file h i cs g) t ua = view s g t ua.
Proof.
  intros [[(MA & MS & MF) P] C Hi Hl] Hh Hcs Hst. set (g1 := with_file h i cs g).
  assert (HK : files_kept g g1).
  { split; [|intros i2 c Hc; exists c; split; [by eapply lookup_weaken|done]]. intros h2 i2 p2 H2. exists p2. simpl. rewrite lookup_insert_ne; [done|]. congruence. }
  assert (HB : forall e, backed g e -> contents (set_store st s) g1 (set_status PAGE_LAZY e) = contents s g (set_status PAGE_LAZY e)).
  { intros e (h2 & i2 & p2 & c & B1 & B2 & B3 & _). unfold contents. simpl. rewrite B1, B2, B3, lookup_insert_ne by congruence. rewrite B2. by rewrite (lookup_weaken _ _ _ _ B3 Hcs). }
  assert (HV : forall t ua pd e, spt_get s t ua = Some (pd, e) -> contents (set_store st s) g1 e = contents s g e).
  { intros t ua pd e G. destruct (pg_entry _ _ _ P _ _ _ _ G) as (_ & _ & _ & Hb). destruct (status e) eqn:Hs; [unfold contents; by rewrite Hs| |unfold contents; by rewrite Hs].
    replace e with (set_status PAGE_LAZY e) by (destruct e; simpl in *; by subst). apply HB, Hb. by left. }
  split; [|intros t ua; unfold view; change (spt_get (set_store st s) t ua) with (spt_get s t ua); destruct (spt_get s t ua) as [[pd e]|] eqn:G; [by eapply HV|done]].
  split; [|intros t ua pd e G Hm Hs|done|done].
  - split; [done|]. destruct P as [P1 P2 P3 P4 P5 P6 P7 P8 P9 P10 P11 P12]. split; try done.
    intros t ua pd e G. destruct (P3 t ua pd e G) as (E1 & E2 & E3 & E4). split; [done|]. split; [done|]. split; [done|]. intros Hb. by eapply backed_kept, E4.
  - destruct (C t ua pd e G Hm Hs) as [C1 C2]. split; [done|]. rewrite (HV t ua pd e G), HB, C2; [done|]. apply (pg_entry _ _ _ P _ _ _ _ G). by right.
Qed.


(** An operation on files, with the lock. *)
Lemma lock_store {A C} (m : M F A) (K : A -> M vm C) (s : vm) a st : fs_lock s = false -> m (store s) = Ok (a, st) ->
  (do* filesys_lock_acquire ; let* x := on_store m in do* filesys_lock_release ; K x) s = K a (set_store st s).
Proof.
  intros Hl E. unfold filesys_lock_acquire, filesys_lock_release, mbind, M_bind, gets, modify, ASSERT, mret, M_ret, on_store. rewrite Hl. simpl. rewrite E. simpl.
  f_equal. destruct s. simpl in *. by subst.
Qed.

Lemma load_failed_ok (s : vm) o st : fs_lock s = false -> match o with Some h => st_close h (store s) = Ok (tt, st) | None => st = store s end ->
  load_failed o s = Ok (None, set_store st s).
Proof.
  intros Hl E. destruct o as [h|]; [exact (lock_store (st_close h) (fun _ => mret None) s tt st Hl E)|subst st].
  unfold load_failed, filesys_lock_acquire, filesys_lock_release, skip, mbind, M_bind, gets, modify, ASSERT, mret, M_ret. rewrite Hl. simpl. destruct s. simpl in *. by subst.
Qed.

(** ** A process that could not be made *)

(** The other processes do not depend on one that has no page in memory. *)
Lemma ready_others (s : vm) g t : ready cap pds slots s g -> (forall ua pd e, spt_get s t ua = Some (pd, e) -> status e <> PAGE_MEMORY) ->
  ready cap pds slots (others t s) g /\ forall t' ua, t' <> t -> view (others t s) g t' ua = view s g t' ua.
Proof.
  intros [[M P] C Hi Hl] Ht.
  assert (HS : forall t' ua x, spt_get (others t s) t' ua = Some x -> spt_get s t' ua = Some x).
  { intros t' ua x. unfold spt_get. simpl. destruct (decide (t' = t)) as [->|]; [by rewrite lookup_delete_eq|by rewrite lookup_delete_ne]. }
  assert (HS' : forall t' ua, t' <> t -> spt_get (others t s) t' ua = spt_get s t' ua) by (intros t' ua Hne; unfold spt_get; simpl; by rewrite lookup_delete_ne).
  split; [|intros t' ua Hne; unfold view; by rewrite HS']. split; [|intros t' ua pd e G; apply (C t' ua pd e), HS, G|done|done]. split; [done|].
  destruct P as [P1 P2 P3 P4 P5 P6 P7 P8 P9 P10 P11 P12]. split; try done; simpl.
  - intros t' pr [_ H]%lookup_delete_Some. by eapply P1.
  - intros t1 pr1 t2 pr2 [_ H1]%lookup_delete_Some [_ H2]%lookup_delete_Some. by apply P2.
  - intros t' ua pd e G%HS. by apply P3.
  - intros t1 ua1 pd1 e1 t2 ua2 pd2 e2 G1%HS G2%HS. by apply (P4 _ _ _ _ _ _ _ _ G1 G2).
  - intros p f Hf. destruct (P5 p f Hf) as [A1 A2]. split; [done|]. intros Hp. destruct (A2 Hp) as (pd & e & A3 & A4 & A5). exists pd, e. split; [|done].
    rewrite HS'; [done|]. intros E. rewrite E in A3. by destruct (Ht _ _ _ A3).
Qed.

(** A file no page depends on is closed. *)
Definition without_file (h : Z) (cs : gmap Z (list Z)) (g : ghost) : ghost := MkGhost (g_us g) (g_map g) (g_swap g) (delete h (g_pos g)) cs.

Lemma ready_close (s : vm) g st h cs : ready cap pds slots s g -> (forall t ua pd e, spt_get s t ua = Some (pd, e) -> status e = PAGE_LAZY \/ mmap e = true -> e_file e <> Some h) ->
  st_inv st (delete h (g_pos g)) cs -> (forall h' i' pos', h' <> h -> g_pos g !! h' = Some (i', pos') -> cs !! i' = g_files g !! i') ->
  ready cap pds slots (set_store st s) (without_file h cs g) /\ forall t ua, view (set_store st s) (without_file h cs g) t ua = view s g t ua.
Proof.
  intros [[(MA & MS & MF) P] C Hi Hl] Hh Hst Hcs. set (g1 := without_file h cs g).
  assert (HB : forall e, backed g e -> e_file e <> Some h -> backed g1 e /\ contents (set_store st s) g1 (set_status PAGE_LAZY e) = contents s g (set_status PAGE_LAZY e)).
  { intros e (h2 & i2 & p2 & c & B1 & B2 & B3 & B4) Hne. assert (h2 <> h) as Hn by congruence. pose proof (Hcs _ _ _ Hn B2) as B5.
    assert (B6 : g_pos g1 !! h2 = Some (i2, p2)) by (simpl; by rewrite lookup_delete_ne). split.
    - exists h2, i2, p2, c. split; [done|]. split; [done|]. split; [simpl; congruence|done].
    - unfold contents. simpl status. cbv iota. simpl e_file. rewrite B1, B6, B2. simpl g_files. by rewrite B5, B3. }
  assert (HE : forall t ua pd e, spt_get s t ua = Some (pd, e) -> status e = PAGE_LAZY \/ mmap e = true ->
    backed g1 e /\ contents (set_store st s) g1 (set_status PAGE_LAZY e) = contents s g (set_status PAGE_LAZY e)).
  { intros t ua pd e G Hb. apply HB; [by apply (pg_entry _ _ _ P _ _ _ _ G)|by eapply Hh]. }
  assert (HV : forall t ua pd e, spt_get s t ua = Some (pd, e) -> contents (set_store st s) g1 e = contents s g e).
  { intros t ua pd e G. destruct (status e) eqn:Hs; [unfold contents; by rewrite Hs| |unfold contents; by rewrite Hs].
    replace e with (set_status PAGE_LAZY e) by (destruct e; simpl in *; by subst). eapply (HE t ua pd e G). by left. }
  split; [|intros t ua; unfold view; change (spt_get (set_store st s) t ua) with (spt_get s t ua); destruct (spt_get s t ua) as [[pd e]|] eqn:G; [by eapply HV|done]].
  split; [|intros t ua pd e G Hm Hs|done|done].
  - split; [done|]. destruct P as [P1 P2 P3 P4 P5 P6 P7 P8 P9 P10 P11 P12]. split; try done.
    intros t ua pd e G. destruct (P3 t ua pd e G) as (E1 & E2 & E3 & E4). split; [done|]. split; [done|]. split; [done|]. intros Hb. by apply (HE t ua pd e G).
  - destruct (C t ua pd e G Hm Hs) as [C1 C2]. split; [done|]. rewrite (HV t ua pd e G), C2. symmetry. apply (HE t ua pd e G). by right.
Qed.

Lemma abandoned_closed s0 g0 t h i (s : vm) g : abandoned s0 g0 t h i s g ->
  exists st g', st_close h (store s) = Ok (tt, st) /\ ready cap pds slots (others t (set_store st s)) g' /\
    forall t' ua, t' <> t -> view (others t (set_store st s)) g' t' ua = view s0 g0 t' ua.
Proof.
  intros [R A2 A3 A4 [pos A5]]. destruct (rd_inv _ _ _ _ _ R) as [(_ & _ & MF) _]. destruct (st_close_ok _ _ _ _ _ _ MF A5) as (st & cs & E & Hst & Hcs).
  destruct (ready_others s g t R A2) as [R1 V1]. destruct (ready_close (others t s) g st h cs R1) as [R2 V2]; [|done|done|].
  - intros t' ua pd e (pr & G1 & G2 & G3)%spt_get_some. simpl in G1. apply lookup_delete_Some in G1 as [Hne G1]. apply (A3 t' ua pd e); [done|]. apply spt_get_some. eauto.
  - exists st, (without_file h cs g). split; [done|]. split; [exact R2|]. intros t' ua Hne. change (others t (set_store st s)) with (set_store st (others t s)).
    rewrite V2, V1 by done. by apply A4.
Qed.

End load.

Section main.
Context {D W F : Type} `{!AddressSpaces D} `{!SwapSpace W} `{!FileStore F} `{!Directories D} `{!Executables F}.
Notation vm := (vm (D := D) (W := W) (F := F)).
Context (cap : nat) (pds : gset Z) (slots : Z).

(** Why [load] returns false: there is no such file, no memory for the page directory and the page table of
    the stack, or the file that has been opened is one that may not be loaded. *)
Definition load_fails (s : vm) (nm : list Z) (dir : gmap (list Z) (list Z)) : Prop :=
  dir !! nm = None \/ ~ as_room 2 (mmu s) \/
  exists c h st, dir !! nm = Some c /\ st_open nm (store s) = Ok (Some h, st) /\ trouble (set_store st s) c.

(** The processes other than [t] have in [s'] what they had in [s]. *)
Definition others_kept (t : Z) (s : vm) (g : ghost) (s' : vm) : Prop :=
  exists pds' g', pds ⊆ pds' /\ ready cap pds' slots (others t s') g' /\ forall t' ua, t' <> t -> view (others t s') g' t' ua = view (others t s) g t' ua.

(** The file has been opened. *)
Lemma load_opened (s : vm) g t pd d h i cs c st nm dir :
  ready cap pds slots (others t s) g -> (0 < cap)%nat -> pd ∉ pds -> as_inv d cap (g_us g) ({[ pd ]} ∪ pds) (g_map g) -> (as_room 2 (mmu s) -> as_room 1 d) ->
  st_open nm (store s) = Ok (Some h, st) -> dir !! nm = Some c -> g_pos g !! h = None -> g_files g ⊆ cs -> cs !! i = Some c -> st_inv st (<[h := (i, 0)]> (g_pos g)) cs ->
  (forall k, loadable c k -> trusted (phdr_at c k) (Z.of_nat (length c))) ->
  let s2 := set_store st (set_procs (<[t := MkProc pd ∅]> (procs s)) (set_mmu d s)) in
  (exists s', load_file t h s2 = Ok (None, s') /\ fs_lock s' = false /\ load_fails s nm dir /\ exists st', st_close h (store s') = Ok (tt, st') /\ others_kept t s g (set_store st' s')) \/
  (load_file t h s2 = Fail FPanic /\ full slots g) \/
  exists s' g', load_file t h s2 = Ok (Some (e_entry (header c), PHYS_BASE), s') /\ (executable c /\ apart c) /\ ready cap ({[ pd ]} ∪ pds) slots s' g' /\ image t c s' g' /\
    (forall t' ua, t' <> t -> view s' g' t' ua = view (others t s) g t' ua) /\ (exists pos, g_pos g' !! h = Some (i, pos) /\ g_files g' !! i = Some c).
Proof.
  intros R Hcap Hpd MA Hroom Eo Hd Hh Hcs Hi Hst HT s2. destruct (newborn_ready cap pds slots s g t pd d R Hpd MA) as (R1 & V1 & Hmap).
  destruct (ready_open cap ({[ pd ]} ∪ pds) slots _ g st h i cs R1) as [R2 V2]; [done|done|done|]. fold s2 in R2, V2.
  assert (HV : forall t' ua, t' <> t -> view s2 (with_file h i cs g) t' ua = view (others t s) g t' ua) by (intros; rewrite V2; by apply V1).
  assert (Hown : forall t' ua pd' e, t' <> t -> spt_get s2 t' ua = Some (pd', e) -> status e = PAGE_LAZY \/ mmap e = true -> e_file e <> Some h).
  { intros t' ua pd' e Hne G Hs. destruct (pg_entry _ _ _ (proj2 (rd_inv _ _ _ _ _ R)) t' ua pd' e) as (_ & _ & _ & HB).
    { unfold spt_get in G |- *. simpl in G |- *. rewrite lookup_insert_ne in G by done. by rewrite lookup_delete_ne. }
    destruct (HB Hs) as (h2 & i2 & p2 & c2 & B1 & B2 & _). congruence. }
  destruct (load_file_ok cap ({[ pd ]} ∪ pds) slots s2 (with_file h i cs g) t pd h i 0 c) as [(s' & E & T & g' & A)|[H|(s' & g' & E & X & R' & IM & V' & P)]];
    [apply lookup_insert_eq|done|done|done|done|done|apply lookup_insert_eq|done|done|left|by right; left|right; right].
  - exists s'. split; [done|]. split; [apply (ab_ready _ _ _ _ _ _ _ _ _ _ A)|]. split.
    + right. destruct T as [T|T]; [right; by exists c, h, st|left; by intros ?%Hroom].
    + destruct (abandoned_closed _ _ _ _ _ _ _ _ _ _ A) as (st' & g2 & E2 & R3 & V3). exists st'. split; [done|]. exists ({[ pd ]} ∪ pds), g2. split; [set_solver|].
      split; [done|]. intros t' ua Hne. rewrite (V3 t' ua Hne). by apply HV.
  - exists s', g'. split; [done|]. split; [done|]. split; [done|]. split; [done|]. split; [|done]. intros t' ua Hne. rewrite (V' t' ua Hne). by apply HV.
Qed.


End main.

(** ** A kernel that loads a program *)

#[local] Existing Instances Block.ram_device Bitmap.bitmap_BitArray Pages.palloc_PageAlloc.
#[local] Instance demo_spaces : AddressSpaces (Pagedir.pdstate (Palloc.pstate Bitmap.bitmap)) := pagedir_AddressSpaces Pagedir.demo_init 1024.
#[local] Instance demo_directories : Directories (Pagedir.pdstate (Palloc.pstate Bitmap.bitmap)) := pagedir_Directories Pagedir.demo_init 1024.
#[local] Instance demo_files : Executables (Inode.fs (B := list (list Z))) := fs_Executables (replicate 20 7) eq_refl.

(** The kernel of Paging, with the file system of Directory and a new thread. *)
Definition demo_old : vm := set_mallocs (replicate 10 true) 200 (set_store Directory.demo (Paging.demo_vm false)).
Definition demo_new : vm := set_procs (<[2 := MkProc 0 ∅]> (procs demo_old)) demo_old.
Definition demo_names : gmap (list Z) (list Z) := {[ [97] := Paging.demo_contents ]}.

Lemma demo_old_ready : ready 4 {[ Pagedir.demo_dir ]} 2 (others 2 demo_new) Paging.demo_ghost.
Proof.
  assert (E : others 2 demo_new = demo_old).
  { unfold others, demo_new. cbn [procs set_procs]. rewrite delete_insert_id; [by destruct demo_old|]. apply lookup_singleton_ne. done. }
  rewrite E. destruct (ready_store 4 {[ Pagedir.demo_dir ]} 2 (Paging.demo_vm false) Paging.demo_ghost Directory.demo Paging.demo_ready) as [I C Hi Hl].
  - exists Files.demo_ss, Files.demo_bs, Files.demo_tbl. apply (Paging.demo_files_repr (replicate 60 true)).
  - split; [apply inv_mallocs; [exact I|done]|exact C|exact Hi|exact Hl].
Qed.

Lemma demo_named : st_names (store demo_new) (g_pos Paging.demo_ghost) (g_files Paging.demo_ghost) demo_names.
Proof.
  exists Files.demo_ss, Files.demo_bs, Files.demo_tbl, Directory.demo_root. split; [apply (Paging.demo_files_repr (replicate 60 true))|]. destruct Directory.demo_quiet as (Q1 & Q2 & _ & Q3). split.
  - by_kernel.
  - exact Q1.
  - exact Q2.
  - apply Directory.demo_dir_ok.
  - replace (Directory.nslots (Files.content Files.demo_ss Directory.demo_root) + 6)%nat with 22%nat by by_kernel. exact Q3.
  - intros nm c. unfold demo_names. rewrite lookup_singleton_Some, Directory.demo_slots. split.
    + intros [<- <-]. eexists _, (Inode.new_inode 5 600). split; [by left|]. split; [split; by_kernel|]. split; [by_kernel|done].
    + intros (e & dd & [->|[-> _]%elem_of_replicate]%elem_of_cons & [Hu Hn] & Hd & ->); [|by vm_compute in Hu].
      split; [rewrite <- Hn; by_kernel|]. assert (H : Files.demo_tbl !! Directory.inode_sector (word_bytes 4 ++ [97] ++ replicate 14 0 ++ [1]) = Some (Inode.new_inode 5 600)) by by_kernel.
      rewrite H in Hd. by injection Hd as <-.
Qed.

Lemma demo_entered : phnum Paging.demo_contents = 1%nat /\ phdr_at Paging.demo_contents 0 = MkPhdr 1 0 0x8048000 0x8048000 600 700 5 4096.
Proof. split; by_kernel. Qed.

Lemma demo_trusted c k : demo_names !! [97] = Some c -> loadable c k -> trusted (phdr_at c k) (Z.of_nat (length c)).
Proof.
  unfold demo_names. intros [_ <-]%lookup_singleton_Some [Hk _]. destruct demo_entered as [En Ep].
  assert (k = 0%nat) as -> by lia. clear Hk En.
  assert (El : Z.of_nat (length Paging.demo_contents) = 600) by by_kernel. rewrite Ep, El. split; [done|]. done.
Qed.

Lemma demo_executable : executable Paging.demo_contents /\ apart Paging.demo_contents.
Proof.
  destruct demo_entered as [En Ep]. assert (El : Z.of_nat (length Paging.demo_contents) = 600) by by_kernel. assert (Eh : e_phoff (header Paging.demo_contents) = 52) by by_kernel.
  assert (Hb : bad_header (take 52 Paging.demo_contents) = false) by by_kernel. split; [split|].
  - exact Hb.
  - intros k Hk. rewrite Eh, El. lia.
  - intros k Hk. assert (k = 0%nat) as -> by lia. rewrite Ep. by intros [H|[H|H]].
  - intros k [Hk _]. assert (k = 0%nat) as -> by lia. rewrite Ep, El. done.
  - intros j k ua [Hj _] [Hk _] _ _. lia.
Qed.

(** Enough memory is left when the file has been opened. *)
Lemma demo_loads : ~ load_fails demo_new [97] demo_names.
Proof.
  assert (Hopen : match st_open [97] (store demo_new) with Ok (_, st) => bool_decide (replicate 2 true `prefix_of` Inode.mallocs st) | Fail _ => false end = true) by by_kernel.
  destruct demo_entered as [En Ep]. assert (Ee : entered Paging.demo_contents 1 = 1%nat) by (cbn [entered]; rewrite Ep; by_kernel).
  intros [H|[H|(c & h & st & Hc & Eo & T)]].
  - unfold demo_names in H. rewrite lookup_singleton_eq in H. discriminate H.
  - apply H. exact Paging.demo_room.
  - rewrite Eo in Hopen. apply bool_decide_eq_true in Hopen. unfold demo_names in Hc. apply lookup_singleton_Some in Hc as [_ <-]. unfold trouble in T. rewrite En, Ee in T.
    destruct demo_executable as [X A]. destruct T as [T|[T|[T|T]]]; [by apply T|by apply T|by apply T|]. apply T. exists (replicate 7 true). reflexivity.
Qed.


End Load.
