(* ===== verification/Sched.v ===== *)
(** * Threads, synchronization and timer

    src/threads/thread.c, src/threads/synch.c, the sleep queue and tick handler of
    src/devices/timer.c and the interrupt-level functions and external-interrupt path of
    src/threads/interrupt.c, as one machine.

    A thread is its [struct thread] and the operations it has still to execute, [code]: the
    calls its function makes, and, when the scheduler has switched away from it in the
    middle of a call, the rest of that call ([K...] operations).  An operation runs from one
    point where an interrupt can make a difference to the next (between them the code runs
    with interrupts off, or touches only the running thread, a new page or what a lock the
    thread holds protects); the machine makes a step by running the
    first operation of the current thread or, when interrupts are enabled, by taking a timer
    interrupt.  Thread structures are identified by their page address; semaphores, locks
    and condition variables by names.  Lists of threads are sequences (see LinkedList).
    Memory for a new thread is an argument of the call that creates it. *)

From S2P Require Import Prelude LinkedList ListSort.

Module Sched.

Inductive thread_status := THREAD_RUNNING | THREAD_READY | THREAD_BLOCKED | THREAD_DYING.
#[export] Instance thread_status_eq_dec : EqDecision thread_status.
Proof. solve_decision. Defined.

(** Semaphores: those of the program, the one in a lock, the one [cond_wait] keeps on the
    waiting thread's stack, and the three in a [struct thread]. *)
Inductive sid :=
| SNamed (n : Z) | SLock (l : Z) | SWaiter (t : Z) | SLoad (t : Z) | SWait (t : Z) | SZombie (t : Z).
#[export] Instance sid_eq_dec : EqDecision sid.
Proof. solve_decision. Defined.
#[export] Instance sid_countable : Countable sid.
Proof.
  refine (inj_countable'
    (fun s => match s with SNamed n => (0, n) | SLock n => (1, n) | SWaiter n => (2, n)
                         | SLoad n => (3, n) | SWait n => (4, n) | SZombie n => (5, n) end)
    (fun p => match p.1 with 0 => SNamed p.2 | 1 => SLock p.2 | 2 => SWaiter p.2
                           | 3 => SLoad p.2 | 4 => SWait p.2 | _ => SZombie p.2 end) _).
  by intros [].
Defined.

Definition intr_level := bool.
Abbreviation INTR_ON := true.
Abbreviation INTR_OFF := false.

Inductive op :=
(* calls *)
| OYield | OSleep (ticks : Z)
| ODown (n : Z) | OTryDown (n : Z) | OUp (n : Z)
| OAcquire (l : Z) | OTryAcquire (l : Z) | ORelease (l : Z)
| OCondWait (c l : Z) | OSignal (c l : Z) | OBroadcast (c l : Z)
| OCreate (name : list Z) (priority : Z) (function : list op)
| OEnable | OIdle (started : Z) | OExit | OSetPriority (p : Z)
(* the rest of a call that was left *)
| KDown (s : sid) (old : intr_level)     (* sema_down, in its loop *)
| KLevel (old : intr_level)              (* thread_yield: intr_set_level (old_level) *)
| KSleepAt (wake : Z)                    (* timer_sleep, after reading the tick count *)
| KSleep (old : intr_level)              (* timer_sleep, after thread_block *)
| KHold (l : Z)                          (* lock_acquire: lock->holder = thread_current () *)
| KUp (s : sid)                          (* lock_release, cond_signal: sema_up *)
| KWaiter                                (* cond_wait: sema_down (&waiter.semaphore) *)
| KTid (t : Z)                           (* thread_create: the new thread's tid *)
| KUnblock (t : Z)                       (* thread_create: thread_unblock (t) *)
| KStart                                 (* kernel_thread: intr_enable () *)
| KIdleLoop | KIdleHlt                   (* idle: top of its loop; its sti and hlt *)
| KIret.                                 (* return from an external interrupt *)

Definition PRI_MIN : Z := 0.
Definition PRI_DEFAULT : Z := 31.
Definition PRI_MAX : Z := 63.
Definition THREAD_MAGIC : Z := 0xcd6abf4b.
Definition TIME_SLICE : Z := 4.
Definition TID_LOCK : Z := 0.

(** Initial value of the semaphore [thread_start] waits on. *)
Definition IDLE_SEMA : Z := 0.

(** [struct thread]: the members used by these files and by userprog/process.c, and the
    operations still to run in place of the saved stack. *)
Record thread := Thread {
  tid : Z;
  status : thread_status;
  name : list Z;
  priority : Z;
  tick_to_wake : Z;
  pagedir : Z;
  child_list : list Z;
  load_success : bool;
  exit_status : Z;
  magic : Z;
  code : list op
}.

Record semaphore := Sema { value : Z; waiters : list Z }.

Record sync_state := Sync {
  semas : gmap sid semaphore;
  holders : gmap Z (option Z);       (* [lock->holder] *)
  conds : gmap Z (list sid)          (* [cond->waiters] *)
}.

Record cpu_state := Cpu {
  intr_on : intr_level;
  in_external_intr : bool;
  yield_on_return : bool;
  active_pd : Z
}.

Record clock_state := Clock {
  ticks : Z;
  thread_ticks : Z;
  idle_ticks : Z;
  kernel_ticks : Z;
  user_ticks : Z
}.

Record kstate := KState {
  threads : gmap Z thread;
  current : Z;
  ready_list : list Z;
  all_list : list Z;
  sleeping_list : list Z;
  idle_thread : option Z;
  initial_thread : Z;
  next_tid : Z;
  sync : sync_state;
  cpu : cpu_state;
  clock : clock_state
}.

(** The page allocator, as [thread_create] sees it: given the pages in use, a page that is
    not, or none.  Palloc shows that [palloc_get_page] behaves so. *)
Class PageSource := {
  get_page : gset Z -> option Z;
  get_page_fresh used p : get_page used = Some p -> p ∉ used /\ p <> 0
}.

Implicit Types (k : kstate) (th : thread).

(** ** Field updates *)

Definition set_threads (f : gmap Z thread -> gmap Z thread) k : kstate :=
  KState (f (threads k)) (current k) (ready_list k) (all_list k) (sleeping_list k) (idle_thread k)
    (initial_thread k) (next_tid k) (sync k) (cpu k) (clock k).
Definition set_current (t : Z) k : kstate :=
  KState (threads k) t (ready_list k) (all_list k) (sleeping_list k) (idle_thread k)
    (initial_thread k) (next_tid k) (sync k) (cpu k) (clock k).
Definition set_ready (l : list Z) k : kstate :=
  KState (threads k) (current k) l (all_list k) (sleeping_list k) (idle_thread k)
    (initial_thread k) (next_tid k) (sync k) (cpu k) (clock k).
Definition set_all (l : list Z) k : kstate :=
  KState (threads k) (current k) (ready_list k) l (sleeping_list k) (idle_thread k)
    (initial_thread k) (next_tid k) (sync k) (cpu k) (clock k).
Definition set_sleeping (l : list Z) k : kstate :=
  KState (threads k) (current k) (ready_list k) (all_list k) l (idle_thread k)
    (initial_thread k) (next_tid k) (sync k) (cpu k) (clock k).
Definition set_idle (t : option Z) k : kstate :=
  KState (threads k) (current k) (ready_list k) (all_list k) (sleeping_list k) t
    (initial_thread k) (next_tid k) (sync k) (cpu k) (clock k).
Definition set_next_tid (n : Z) k : kstate :=
  KState (threads k) (current k) (ready_list k) (all_list k) (sleeping_list k) (idle_thread k)
    (initial_thread k) n (sync k) (cpu k) (clock k).
Definition set_sync (s : sync_state) k : kstate :=
  KState (threads k) (current k) (ready_list k) (all_list k) (sleeping_list k) (idle_thread k)
    (initial_thread k) (next_tid k) s (cpu k) (clock k).
Definition set_cpu (c : cpu_state) k : kstate :=
  KState (threads k) (current k) (ready_list k) (all_list k) (sleeping_list k) (idle_thread k)
    (initial_thread k) (next_tid k) (sync k) c (clock k).
Definition set_clock (c : clock_state) k : kstate :=
  KState (threads k) (current k) (ready_list k) (all_list k) (sleeping_list k) (idle_thread k)
    (initial_thread k) (next_tid k) (sync k) (cpu k) c.

Definition with_status (s : thread_status) th : thread :=
  Thread (tid th) s (name th) (priority th) (tick_to_wake th) (pagedir th) (child_list th)
    (load_success th) (exit_status th) (magic th) (code th).
Definition with_code (c : list op) th : thread :=
  Thread (tid th) (status th) (name th) (priority th) (tick_to_wake th) (pagedir th) (child_list th)
    (load_success th) (exit_status th) (magic th) c.
Definition with_tid (n : Z) th : thread :=
  Thread n (status th) (name th) (priority th) (tick_to_wake th) (pagedir th) (child_list th)
    (load_success th) (exit_status th) (magic th) (code th).
Definition with_priority (p : Z) th : thread :=
  Thread (tid th) (status th) (name th) p (tick_to_wake th) (pagedir th) (child_list th)
    (load_success th) (exit_status th) (magic th) (code th).
Definition with_wake (n : Z) th : thread :=
  Thread (tid th) (status th) (name th) (priority th) n (pagedir th) (child_list th)
    (load_success th) (exit_status th) (magic th) (code th).

Definition set_level (l : intr_level) k : kstate :=
  set_cpu (Cpu l (in_external_intr (cpu k)) (yield_on_return (cpu k)) (active_pd (cpu k))) k.
Definition upd_thread (t : Z) (f : thread -> thread) k : kstate := set_threads (alter f t) k.
Definition push_code (ops : list op) k : kstate :=
  upd_thread (current k) (fun th => with_code (ops ++ code th) th) k.
Definition set_sema (s : sid) (v : semaphore) k : kstate :=
  set_sync (Sync (<[s := v]> (semas (sync k))) (holders (sync k)) (conds (sync k))) k.
Definition set_holder (l : Z) (h : option Z) k : kstate :=
  set_sync (Sync (semas (sync k)) (<[l := h]> (holders (sync k))) (conds (sync k))) k.
Definition set_cond (c : Z) (ws : list sid) k : kstate :=
  set_sync (Sync (semas (sync k)) (holders (sync k)) (<[c := ws]> (conds (sync k)))) k.

Definition get_thread (t : Z) : M kstate thread := fun k =>
  match threads k !! t with Some th => Ok (th, k) | None => Fail FMemory end.
(** A semaphore that is a member of a [struct thread] goes with it. *)
Definition sema_owner (s : sid) : option Z :=
  match s with SLoad t | SWait t | SZombie t => Some t | _ => None end.
Definition sema_alive (s : sid) k : bool :=
  match sema_owner s with Some t => bool_decide (is_Some (threads k !! t)) | None => true end.
Definition get_sema (s : sid) : M kstate semaphore := fun k =>
  match semas (sync k) !! s with
  | Some v => if sema_alive s k then Ok (v, k) else Fail FMemory
  | None => Fail FMemory
  end.
Definition get_cond (c : Z) : M kstate (list sid) := fun k =>
  match conds (sync k) !! c with Some v => Ok (v, k) | None => Fail FMemory end.
Definition get_holder (l : Z) : M kstate (option Z) := fun k =>
  match holders (sync k) !! l with Some v => Ok (v, k) | None => Fail FMemory end.

(** ** Interrupt level (threads/interrupt.c) *)

Definition intr_get_level : M kstate intr_level := gets (fun k => intr_on (cpu k)).
Definition intr_context : M kstate bool := gets (fun k => in_external_intr (cpu k)).

Definition intr_enable : M kstate intr_level :=
  let* old := intr_get_level in
  let* c := intr_context in
  do* ASSERT (negb c);
  do* modify (set_level INTR_ON);
  mret old.

Definition intr_disable : M kstate intr_level :=
  let* old := intr_get_level in
  do* modify (set_level INTR_OFF);
  mret old.

Definition intr_set_level (level : intr_level) : M kstate intr_level :=
  if level then intr_enable else intr_disable.

Definition intr_yield_on_return : M kstate unit :=
  let* c := intr_context in
  do* ASSERT c;
  modify (fun k => set_cpu (Cpu (intr_on (cpu k)) (in_external_intr (cpu k)) true (active_pd (cpu k))) k).

(** ** Threads (threads/thread.c) *)

Definition is_thread th : bool := magic th =? THREAD_MAGIC.

Definition running_thread : M kstate Z := gets current.

Definition thread_current : M kstate Z :=
  let* t := running_thread in
  let* th := get_thread t in
  do* ASSERT (is_thread th);
  do* ASSERT (bool_decide (status th = THREAD_RUNNING));
  mret t.

Definition set_status (t : Z) (s : thread_status) : M kstate unit :=
  let* _ := get_thread t in
  modify (upd_thread t (with_status s)).

Definition next_thread_to_run : M kstate (option Z) := fun k =>
  match ready_list k with
  | [] => Ok (idle_thread k, k)
  | t :: l => Ok (Some t, set_ready l k)
  end.

(** [pagedir_activate] and [tss_update] (userprog/process.c). *)
Definition process_activate : M kstate unit :=
  let* t := thread_current in
  let* th := get_thread t in
  modify (fun k => set_cpu (Cpu (intr_on (cpu k)) (in_external_intr (cpu k)) (yield_on_return (cpu k)) (pagedir th)) k).

Definition thread_schedule_tail (prev : option Z) : M kstate unit :=
  let* cur := running_thread in
  let* l := intr_get_level in
  do* ASSERT (negb l);
  do* set_status cur THREAD_RUNNING;
  do* modify (fun k => set_clock (Clock (ticks (clock k)) 0 (idle_ticks (clock k)) (kernel_ticks (clock k)) (user_ticks (clock k))) k);
  do* process_activate;
  match prev with
  | None => mret tt
  | Some p =>
    let* pth := get_thread p in
    let* init := gets initial_thread in
    if bool_decide (status pth = THREAD_DYING) && negb (p =? init) then
      do* ASSERT (negb (p =? cur));
      (* palloc_free_page (prev) *)
      modify (set_threads (delete p))
    else mret tt
  end.

(** [switch_threads] makes [next] the running thread; the code after it runs when, and as,
    [next] continues. *)
Definition schedule : M kstate unit :=
  let* cur := running_thread in
  let* next := next_thread_to_run in
  let* l := intr_get_level in
  do* ASSERT (negb l);
  let* cth := get_thread cur in
  do* ASSERT (negb (bool_decide (status cth = THREAD_RUNNING)));
  match next with
  | None => fail FAssert
  | Some n =>
    let* nth := get_thread n in
    do* ASSERT (is_thread nth);
    if cur =? n then thread_schedule_tail None
    else do* modify (set_current n); thread_schedule_tail (Some cur)
  end.

Definition thread_block : M kstate unit :=
  let* c := intr_context in
  do* ASSERT (negb c);
  let* l := intr_get_level in
  do* ASSERT (negb l);
  let* cur := thread_current in
  do* set_status cur THREAD_BLOCKED;
  schedule.

Definition thread_unblock (t : Z) : M kstate unit :=
  let* th := get_thread t in
  do* ASSERT (is_thread th);
  let* old_level := intr_disable in
  do* ASSERT (bool_decide (status th = THREAD_BLOCKED));
  do* modify (fun k => set_ready (ready_list k ++ [t]) k);
  do* set_status t THREAD_READY;
  let* _ := intr_set_level old_level in
  mret tt.

Definition thread_yield : M kstate unit :=
  let* cur := thread_current in
  let* c := intr_context in
  do* ASSERT (negb c);
  let* old_level := intr_disable in
  let* idle := gets idle_thread in
  do* (if bool_decide (Some cur = idle) then mret tt
       else modify (fun k => set_ready (ready_list k ++ [cur]) k));
  do* set_status cur THREAD_READY;
  do* modify (push_code [KLevel old_level]);
  schedule.

(** userprog/process.c; the pages [pagedir_destroy] gives back are not part of this state. *)
Definition process_exit : M kstate unit :=
  let* cur := thread_current in
  let* th := get_thread cur in
  if negb (pagedir th =? 0) then
    do* modify (upd_thread cur (fun th => Thread (tid th) (status th) (name th) (priority th) (tick_to_wake th) 0
      (child_list th) (load_success th) (exit_status th) (magic th) (code th)));
    modify (fun k => set_cpu (Cpu (intr_on (cpu k)) (in_external_intr (cpu k)) (yield_on_return (cpu k)) 0) k)
  else mret tt.

(** The call does not return: nothing of the thread's code is left to run. *)
Definition thread_exit : M kstate unit :=
  let* c := intr_context in
  do* ASSERT (negb c);
  do* process_exit;
  let* _ := intr_disable in
  let* cur := thread_current in
  do* modify (fun k => set_all (filter (fun x => x <> cur) (all_list k)) k);
  do* set_status cur THREAD_DYING;
  do* modify (upd_thread cur (with_code []));
  schedule.

Definition thread_tick : M kstate unit :=
  let* t := thread_current in
  let* th := get_thread t in
  let* idle := gets idle_thread in
  do* modify (fun k =>
    let c := clock k in
    set_clock (
      if bool_decide (Some t = idle) then Clock (ticks c) (thread_ticks c) (s64 (idle_ticks c + 1)) (kernel_ticks c) (user_ticks c)
      else if negb (pagedir th =? 0) then Clock (ticks c) (thread_ticks c) (idle_ticks c) (kernel_ticks c) (s64 (user_ticks c + 1))
      else Clock (ticks c) (thread_ticks c) (idle_ticks c) (s64 (kernel_ticks c + 1)) (user_ticks c)) k);
  do* modify (fun k =>
    let c := clock k in
    set_clock (Clock (ticks c) (u32 (thread_ticks c + 1)) (idle_ticks c) (kernel_ticks c) (user_ticks c)) k);
  let* n := gets (fun k => thread_ticks (clock k)) in
  if TIME_SLICE <=? n then intr_yield_on_return else mret tt.

Fixpoint by_tid_loop (l : list Z) (target : Z) : M kstate (option Z) :=
  match l with
  | [] => mret None
  | t :: l =>
    let* th := get_thread t in
    if tid th =? target then mret (Some t) else by_tid_loop l target
  end.
Definition thread_by_tid (target : Z) : M kstate (option Z) :=
  let* old := intr_disable in
  let* l := gets all_list in
  let* r := by_tid_loop l target in
  let* _ := intr_set_level old in
  mret r.

Definition thread_set_priority (p : Z) : M kstate unit :=
  let* t := thread_current in
  modify (upd_thread t (with_priority p)).
Definition thread_get_priority : M kstate Z :=
  let* t := thread_current in
  let* th := get_thread t in
  mret (priority th).

(** ** Semaphores, locks, condition variables (threads/synch.c) *)

Definition sema_init (s : sid) (v : Z) : M kstate unit := modify (set_sema s (Sema v [])).

(** The loop of [sema_down], entered again when the thread continues after
    [thread_block]. *)
Definition down_loop (s : sid) (old_level : intr_level) : M kstate unit :=
  let* v := get_sema s in
  if value v =? 0 then
    let* cur := thread_current in
    do* modify (set_sema s (Sema (value v) (waiters v ++ [cur])));
    do* modify (push_code [KDown s old_level]);
    thread_block
  else
    do* modify (set_sema s (Sema (u32 (value v - 1)) (waiters v)));
    let* _ := intr_set_level old_level in
    mret tt.

Definition sema_down (s : sid) : M kstate unit :=
  let* c := intr_context in
  do* ASSERT (negb c);
  let* old_level := intr_disable in
  down_loop s old_level.

Definition sema_try_down (s : sid) : M kstate bool :=
  let* old_level := intr_disable in
  let* v := get_sema s in
  if 0 <? value v then
    do* modify (set_sema s (Sema (u32 (value v - 1)) (waiters v)));
    let* _ := intr_set_level old_level in
    mret true
  else
    let* _ := intr_set_level old_level in
    mret false.

Definition sema_up (s : sid) : M kstate unit :=
  let* old_level := intr_disable in
  let* v := get_sema s in
  let* ws := match waiters v with
             | [] => mret []
             | t :: ws => do* modify (set_sema s (Sema (value v) ws)); do* thread_unblock t; mret ws
             end in
  do* modify (set_sema s (Sema (u32 (value v + 1)) ws));
  let* _ := intr_set_level old_level in
  mret tt.

Definition lock_init (l : Z) : M kstate unit :=
  do* modify (set_holder l None);
  sema_init (SLock l) 1.

Definition lock_held_by_current_thread (l : Z) : M kstate bool :=
  let* h := get_holder l in
  let* cur := thread_current in
  mret (bool_decide (h = Some cur)).

Definition lock_acquire (l : Z) : M kstate unit :=
  let* c := intr_context in
  do* ASSERT (negb c);
  let* h := lock_held_by_current_thread l in
  do* ASSERT (negb h);
  do* modify (push_code [KHold l]);
  sema_down (SLock l).

Definition take_hold (l : Z) : M kstate unit :=
  let* cur := thread_current in
  modify (set_holder l (Some cur)).

Definition lock_try_acquire (l : Z) : M kstate bool :=
  let* h := lock_held_by_current_thread l in
  do* ASSERT (negb h);
  let* success : bool := sema_try_down (SLock l) in
  do* (if success then modify (push_code [KHold l]) else mret tt);
  mret success.

Definition lock_release (l : Z) : M kstate unit :=
  let* h := lock_held_by_current_thread l in
  do* ASSERT h;
  do* modify (set_holder l None);
  modify (push_code [KUp (SLock l)]).

Definition cond_init (c : Z) : M kstate unit := modify (set_cond c []).

Definition cond_wait (c l : Z) : M kstate unit :=
  let* x := intr_context in
  do* ASSERT (negb x);
  let* h := lock_held_by_current_thread l in
  do* ASSERT h;
  let* cur := thread_current in
  do* sema_init (SWaiter cur) 0;
  let* ws := get_cond c in
  do* modify (set_cond c (ws ++ [SWaiter cur]));
  modify (push_code [ORelease l; KWaiter; OAcquire l]).

Definition cond_signal (c l : Z) : M kstate unit :=
  let* x := intr_context in
  do* ASSERT (negb x);
  let* h := lock_held_by_current_thread l in
  do* ASSERT h;
  let* ws := get_cond c in
  match ws with
  | [] => mret tt
  | s :: ws => do* modify (set_cond c ws); modify (push_code [KUp s])
  end.

Definition cond_broadcast (c l : Z) : M kstate unit :=
  let* ws := get_cond c in
  match ws with
  | [] => mret tt
  | _ :: _ => modify (push_code [OSignal c l; OBroadcast c l])
  end.

(** ** Creation, exit, idle thread (threads/thread.c) *)

Section Create.
Context `{PS : PageSource}.

Definition init_thread (t : Z) (nm : list Z) (prio : Z) (c : list op) : M kstate unit :=
  do* ASSERT (negb (t =? 0));
  do* ASSERT ((PRI_MIN <=? prio) && (prio <=? PRI_MAX));
  do* modify (set_threads (<[t := Thread 0 THREAD_BLOCKED (take 15 nm) prio 0 0 [] false (-1) THREAD_MAGIC c]>));
  do* sema_init (SLoad t) 0;
  do* sema_init (SWait t) 0;
  do* sema_init (SZombie t) 0;
  let* old_level := intr_disable in
  do* modify (fun k => set_all (all_list k ++ [t]) k);
  let* _ := intr_set_level old_level in
  mret tt.

(** A new thread enters [kernel_thread], which enables interrupts and calls [function].
    The supplemental page table the new thread also gets is not part of this state. *)
Definition thread_create (nm : list Z) (prio : Z) (function : list op) : M kstate unit :=
  let* page := gets (fun k => get_page (dom (threads k))) in
  match page with
  | None => mret tt
  | Some t =>
    do* init_thread t nm prio (KStart :: function);
    modify (push_code [OAcquire TID_LOCK; KTid t; ORelease TID_LOCK; KUnblock t])
  end.

(** The critical section of [allocate_tid]. *)
Definition take_tid (t : Z) : M kstate unit :=
  let* _ := get_thread t in
  let* n := gets next_tid in
  do* modify (set_next_tid (s32 (n + 1)));
  modify (upd_thread t (with_tid n)).

Definition idle (started : Z) : M kstate unit :=
  let* cur := thread_current in
  do* modify (set_idle (Some cur));
  do* modify (push_code [KIdleLoop]);
  sema_up (SNamed started).
Definition idle_loop : M kstate unit :=
  let* _ := intr_disable in
  do* modify (push_code [KIdleHlt]);
  thread_block.
Definition idle_hlt : M kstate unit :=
  do* modify (push_code [KIdleLoop]);
  modify (set_level INTR_ON).

(** ** Timer (devices/timer.c) *)

Definition timer_ticks : M kstate Z :=
  let* old := intr_disable in
  let* t := gets (fun k => ticks (clock k)) in
  let* _ := intr_set_level old in
  mret t.

Definition wake_of k (t : Z) : Z := match threads k !! t with Some th => tick_to_wake th | None => 0 end.
Definition compare_wake_time k (a b : Z) : bool := wake_of k a <? wake_of k b.

Definition timer_sleep (n : Z) : M kstate unit :=
  let* start := timer_ticks in
  let* l := intr_get_level in
  do* ASSERT l;
  modify (push_code [KSleepAt (s64 (start + n))]).

Definition sleep_until (wake : Z) : M kstate unit :=
  let* old_level := intr_disable in
  let* cur := thread_current in
  do* modify (upd_thread cur (with_wake wake));
  do* modify (fun k => set_sleeping (ListSort.sort_seq (compare_wake_time k) (sleeping_list k ++ [cur])) k);
  do* modify (push_code [KSleep old_level]);
  thread_block.

(** The [while] of [timer_interrupt], over the sleeping list. *)
Fixpoint wake_loop (l : list Z) : M kstate unit :=
  match l with
  | [] => mret tt
  | t :: l =>
    let* th := get_thread t in
    let* now := timer_ticks in
    if now <? tick_to_wake th then mret tt else
    do* modify (set_sleeping l);
    do* thread_unblock t;
    wake_loop l
  end.

Definition timer_interrupt : M kstate unit :=
  do* modify (fun k => let c := clock k in
    set_clock (Clock (s64 (ticks c + 1)) (thread_ticks c) (idle_ticks c) (kernel_ticks c) (user_ticks c)) k);
  let* l := gets sleeping_list in
  do* wake_loop l;
  thread_tick.

(** [intr_handler] for the timer's vector; the processor has disabled interrupts and
    [KIret] stands for the return, which enables them again. *)
Definition external_interrupt : M kstate unit :=
  do* modify (set_level INTR_OFF);
  do* modify (push_code [KIret]);
  let* l := intr_get_level in
  do* ASSERT (negb l);
  let* c := intr_context in
  do* ASSERT (negb c);
  do* modify (fun k => set_cpu (Cpu (intr_on (cpu k)) true false (active_pd (cpu k))) k);
  do* timer_interrupt;
  let* l := intr_get_level in
  do* ASSERT (negb l);
  let* c := intr_context in
  do* ASSERT c;
  do* modify (fun k => set_cpu (Cpu (intr_on (cpu k)) false (yield_on_return (cpu k)) (active_pd (cpu k))) k);
  let* y : bool := gets (fun k => yield_on_return (cpu k)) in
  if y then thread_yield else mret tt.

(** ** Steps *)

Definition exec_op (o : op) : M kstate unit :=
  match o with
  | OYield => thread_yield
  | OSleep n => timer_sleep n
  | ODown n => sema_down (SNamed n)
  | OTryDown n => let* _ := sema_try_down (SNamed n) in mret tt
  | OUp n => sema_up (SNamed n)
  | OAcquire l => lock_acquire l
  | OTryAcquire l => let* _ := lock_try_acquire l in mret tt
  | ORelease l => lock_release l
  | OCondWait c l => cond_wait c l
  | OSignal c l => cond_signal c l
  | OBroadcast c l => cond_broadcast c l
  | OCreate nm p f => thread_create nm p f
  | OEnable => let* _ := intr_enable in mret tt
  | OIdle n => idle n
  | OExit => thread_exit
  | OSetPriority p => thread_set_priority p
  | KDown s old => down_loop s old
  | KLevel old | KSleep old => let* _ := intr_set_level old in mret tt
  | KSleepAt w => sleep_until w
  | KHold l => take_hold l
  | KUp s => sema_up s
  | KWaiter => let* cur := thread_current in sema_down (SWaiter cur)
  | KTid t => take_tid t
  | KUnblock t => thread_unblock t
  | KStart => let* _ := intr_enable in mret tt
  | KIdleLoop => idle_loop
  | KIdleHlt => idle_hlt
  | KIret => modify (set_level INTR_ON)
  end.

(** The current thread runs its next operation; a thread function that returns ends in
    [thread_exit]. *)
Definition step_op : M kstate unit :=
  let* cur := running_thread in
  let* th := get_thread cur in
  match code th with
  | [] => thread_exit
  | o :: c => do* modify (upd_thread cur (with_code c)); exec_op o
  end.

Inductive step k : kstate -> Prop :=
| step_run k' : step_op k = Ok (tt, k') -> step k k'
| step_tick k' : intr_on (cpu k) = INTR_ON -> external_interrupt k = Ok (tt, k') -> step k k'.

(** [thread_init] and [thread_start] have run up to their first switch: the initial
    thread, at [page], is about to take its tid, create the idle thread and wait for it
    before it continues with [main]. *)
Definition thread_start_code : list op :=
  [OCreate [105; 100; 108; 101] PRI_MIN [OIdle IDLE_SEMA]; OEnable; ODown IDLE_SEMA].  (* "idle" *)

Definition boot (page : Z) (sems : list Z) (locks : list Z) (cs : list Z) (main : list op) : kstate :=
  KState {[ page := Thread 0 THREAD_RUNNING [109; 97; 105; 110] PRI_DEFAULT 0 0 [] false (-1) THREAD_MAGIC
             ([OAcquire TID_LOCK; KTid page; ORelease TID_LOCK] ++ thread_start_code ++ main) ]}
    page [] [page] [] None page 1
    (Sync (list_to_map ([(SLoad page, Sema 0 []); (SWait page, Sema 0 []); (SZombie page, Sema 0 [])]
             ++ ((fun n => (SNamed n, Sema 0 [])) <$> IDLE_SEMA :: sems)
             ++ ((fun l => (SLock l, Sema 1 [])) <$> TID_LOCK :: locks)))
          (list_to_map ((fun l => (l, None)) <$> TID_LOCK :: locks))
          (list_to_map ((fun c => (c, [])) <$> cs)))
    (Cpu INTR_OFF false false 0) (Clock 0 0 0 0 0).

Fixpoint run_ops (n : nat) : M kstate unit :=
  match n with O => mret tt | S n => do* step_op; run_ops n end.

End Create.

End Sched.
