(* ===== verification/SchedInv.v ===== *)
(** * Invariants of the thread machine

    The machine of Sched keeps every thread in exactly one place: the current thread is the
    only running one; the ready list holds the ready threads; a blocked thread waits on the
    one semaphore it is blocked in, or sleeps, or has not been started yet, or is the idle
    thread.  From this follows that the machine never trips an assertion in the scheduler,
    in a wake-up or in the timer interrupt, that locks exclude each other, and that no
    wake-up is lost. *)

From S2P Require Import Prelude LinkedList ListSort Sched.
Import Sched.

Module SchedInv.

Implicit Types (k : kstate) (th : thread).

(** ** Weakest preconditions

    [F] is what has to hold if the computation faults: [False] for a proof that it returns,
    [True] for a proof about what it returns. *)
Definition wp (F : Prop) {A} (m : M kstate A) (Q : A -> kstate -> Prop) k : Prop :=
  match m k with Ok (a, k') => Q a k' | Fail _ => F end.

Section Rules.
Context (F : Prop).

Lemma wp_bind {A B} (m : M kstate A) (f : A -> M kstate B) Q k :
  wp F m (fun a => wp F (f a) Q) k -> wp F (mbind f m) Q k.
Proof. unfold wp, mbind, M_bind. by destruct (m k) as [[a k']|]. Qed.
Lemma wp_ret {A} (a : A) (Q : A -> kstate -> Prop) k : Q a k -> wp F (mret a) Q k.
Proof. done. Qed.
Lemma wp_mono {A} (m : M kstate A) (P Q : A -> kstate -> Prop) k :
  (forall a k', P a k' -> Q a k') -> wp F m P k -> wp F m Q k.
Proof. unfold wp. intros H. destruct (m k) as [[a k']|]; auto. Qed.
Lemma wp_gets {A} (f : kstate -> A) (Q : A -> kstate -> Prop) k : Q (f k) k -> wp F (gets f) Q k.
Proof. done. Qed.
Lemma wp_modify (f : kstate -> kstate) (Q : unit -> kstate -> Prop) k : Q tt (f k) -> wp F (modify f) Q k.
Proof. done. Qed.
Lemma wp_assert (c : bool) (Q : unit -> kstate -> Prop) k :
  (c = true -> Q tt k) -> (c = false -> F) -> wp F (ASSERT c) Q k.
Proof. intros H1 H2. destruct c; [by apply H1|by apply H2]. Qed.
Lemma wp_get_thread t th (Q : thread -> kstate -> Prop) k :
  threads k !! t = Some th -> Q th k -> wp F (get_thread t) Q k.
Proof. unfold wp, get_thread. by intros ->. Qed.
Lemma wp_set_status t th s (Q : unit -> kstate -> Prop) k :
  threads k !! t = Some th -> Q tt (upd_thread t (with_status s) k) -> wp F (set_status t s) Q k.
Proof. unfold wp, set_status, mbind, M_bind, get_thread. by intros ->. Qed.
Lemma wp_thread_current th (Q : Z -> kstate -> Prop) k :
  threads k !! current k = Some th -> magic th = THREAD_MAGIC -> status th = THREAD_RUNNING ->
  Q (current k) k -> wp F thread_current Q k.
Proof.
  intros E M S H. unfold thread_current. apply wp_bind, wp_gets, wp_bind.
  eapply wp_get_thread; [done|]. apply wp_bind, wp_assert.
  - intros _. apply wp_bind, wp_assert; [by intros _; apply wp_ret|]. by rewrite bool_decide_eq_true_2.
  - unfold is_thread. by rewrite M, Z.eqb_refl.
Qed.
Lemma wp_disable (Q : intr_level -> kstate -> Prop) k :
  Q (intr_on (cpu k)) (set_level INTR_OFF k) -> wp F intr_disable Q k.
Proof. done. Qed.
Lemma wp_set_level l (Q : intr_level -> kstate -> Prop) k :
  in_external_intr (cpu k) = false \/ l = INTR_OFF -> Q (intr_on (cpu k)) (set_level l k) ->
  wp F (intr_set_level l) Q k.
Proof.
  intros H HQ. destruct l; [|done]. destruct H as [H|H]; [|done]. unfold intr_set_level, intr_enable.
  apply wp_bind, wp_gets, wp_bind, wp_gets, wp_bind, wp_assert; [|by rewrite H].
  intros _. by apply wp_bind, wp_modify, wp_ret.
Qed.
End Rules.

(** ** Why a thread is blocked *)

Inductive why := WSema (s : sid) | WSleep | WNew | WIdle | WNone.
#[export] Instance why_eq_dec : EqDecision why.
Proof. solve_decision. Defined.
Definition reason (c : list op) : why :=
  match c with
  | KDown s _ :: _ => WSema s
  | KSleep _ :: _ => WSleep
  | KStart :: _ => WNew
  | KIdleHlt :: _ => WIdle
  | _ => WNone
  end.

(** New threads the operations in [c] are still to unblock. *)
Definition targets (c : list op) : list Z :=
  omap (fun o => match o with KUnblock t => Some t | _ => None end) c.

(** Operations a thread function may consist of. *)
Fixpoint plain (o : op) : bool :=
  match o with
  | OYield | OSleep _ | ODown _ | OTryDown _ | OUp _ | OAcquire _ | OTryAcquire _ | ORelease _
  | OCondWait _ _ | OSignal _ _ | OBroadcast _ _ | OEnable | OExit | OSetPriority _ => true
  | OCreate _ _ f => forallb plain f
  | _ => false
  end.

(** Operations found in the code of thread [t], other than the idle thread. *)
Definition okop (t : Z) (o : op) : Prop :=
  match o with
  | OIdle _ | KIdleLoop | KIdleHlt => False
  | OCreate _ _ f => forallb plain f = true
  | KDown s _ => sema_owner s = None /\ match s with SWaiter x => x = t | _ => True end
  | KUp s => sema_owner s = None
  | _ => True
  end.

(** The idle thread only ever executes its loop, interrupted by ticks; [suf] is empty
    only while an operation of the loop is being executed. *)
Definition idle_code (c : list op) : Prop :=
  exists pre suf, c = pre ++ suf /\ Forall (fun o => match o with KLevel _ | KIret => True | _ => False end) pre /\
    (suf = [] \/ suf = [KIdleLoop] \/ suf = [KIdleHlt]).

Record okthread (idl : option Z) (t : Z) th : Prop := {
  ok_magic : magic th = THREAD_MAGIC;
  ok_code : if decide (idl = Some t) then idle_code (code th) else Forall (okop t) (code th)
}.

(** ** The invariant

    [run] is the running thread, if any: none in the middle of a switch.  [dy] is the
    thread that is exiting, if any. *)
Record cinv (run dy : option Z) k : Prop := {
  c_run : forall t th, threads k !! t = Some th -> (status th = THREAD_RUNNING <-> run = Some t);
  c_cur : forall t, run = Some t -> is_Some (threads k !! t);
  c_ok : forall t th, threads k !! t = Some th -> okthread (idle_thread k) t th;
  c_ready : forall t, t ∈ ready_list k <->
    exists th, threads k !! t = Some th /\ status th = THREAD_READY /\ idle_thread k <> Some t;
  c_wait : forall s v t, semas (sync k) !! s = Some v -> (t ∈ waiters v <->
    exists th, threads k !! t = Some th /\ status th = THREAD_BLOCKED /\ reason (code th) = WSema s);
  c_sema : forall t th s, threads k !! t = Some th -> status th = THREAD_BLOCKED ->
    reason (code th) = WSema s -> is_Some (semas (sync k) !! s);
  c_sleep : forall t, t ∈ sleeping_list k <->
    exists th, threads k !! t = Some th /\ status th = THREAD_BLOCKED /\ reason (code th) = WSleep;
  c_reason : forall t th, threads k !! t = Some th -> status th = THREAD_BLOCKED -> reason (code th) <> WNone;
  c_new : forall u uth t, threads k !! u = Some uth -> t ∈ targets (code uth) ->
    exists th, threads k !! t = Some th /\ status th = THREAD_BLOCKED /\ reason (code th) = WNew;
  c_new_once : forall u v uth vth t, threads k !! u = Some uth -> threads k !! v = Some vth ->
    t ∈ targets (code uth) -> t ∈ targets (code vth) -> u = v;
  c_new_nodup : forall u uth, threads k !! u = Some uth -> NoDup (targets (code uth));
  c_ready_nodup : NoDup (ready_list k);
  c_wait_nodup : forall s v, semas (sync k) !! s = Some v -> NoDup (waiters v);
  c_sleep_nodup : NoDup (sleeping_list k);
  c_idle : exists i, idle_thread k = Some i /\ is_Some (threads k !! i);
  c_dying : forall t th, threads k !! t = Some th -> status th = THREAD_DYING ->
    (t = initial_thread k \/ dy = Some t) /\ idle_thread k <> Some t
}.

(** One thread changes, and with it its membership in the lists. *)
Lemma cinv_local_new run dy run' dy' k k' t th th' :
  cinv run dy k -> threads k !! t = Some th -> threads k' = <[t := th']> (threads k) ->
  idle_thread k' = idle_thread k -> initial_thread k' = initial_thread k ->
  okthread (idle_thread k) t th' ->
  (forall u, u <> t -> (run = Some u <-> run' = Some u)) -> (status th' = THREAD_RUNNING <-> run' = Some t) ->
  (forall u, u <> t -> (u ∈ ready_list k' <-> u ∈ ready_list k)) ->
  (t ∈ ready_list k' <-> status th' = THREAD_READY /\ idle_thread k <> Some t) -> NoDup (ready_list k') ->
  (forall s v', semas (sync k') !! s = Some v' -> exists v, semas (sync k) !! s = Some v /\
    (forall u, u <> t -> (u ∈ waiters v' <-> u ∈ waiters v)) /\
    (t ∈ waiters v' <-> status th' = THREAD_BLOCKED /\ reason (code th') = WSema s) /\ NoDup (waiters v')) ->
  (forall s, is_Some (semas (sync k) !! s) -> is_Some (semas (sync k') !! s)) ->
  (status th' = THREAD_BLOCKED -> forall s, reason (code th') = WSema s -> is_Some (semas (sync k) !! s)) ->
  (forall u, u <> t -> (u ∈ sleeping_list k' <-> u ∈ sleeping_list k)) ->
  (t ∈ sleeping_list k' <-> status th' = THREAD_BLOCKED /\ reason (code th') = WSleep) -> NoDup (sleeping_list k') ->
  (status th' = THREAD_BLOCKED -> reason (code th') <> WNone) ->
  (forall u, u ∈ targets (code th') -> u ∈ targets (code th) \/
    (u <> t /\ (exists uth, threads k !! u = Some uth /\ status uth = THREAD_BLOCKED /\ reason (code uth) = WNew) /\
     forall w wth, threads k !! w = Some wth -> u ∉ targets (code wth))) -> NoDup (targets (code th')) ->
  (forall u uth, u <> t -> threads k !! u = Some uth -> t ∈ targets (code uth) ->
    status th' = THREAD_BLOCKED /\ reason (code th') = WNew) ->
  t ∉ targets (code th') ->
  (status th' = THREAD_DYING -> (t = initial_thread k \/ dy' = Some t) /\ idle_thread k <> Some t) ->
  (forall u, u <> t -> dy = Some u -> dy' = Some u) ->
  cinv run' dy' k'.
Proof.
  intros C Et ET EI EN HO HR HRt HY HYt NY HW HWs HWt HL HLt NL HB HT NT HX HXt HD HDu.
  assert (LK : forall u, threads k' !! u = if decide (t = u) then Some th' else threads k !! u).
  { intros u. rewrite ET, lookup_insert. done. }
  destruct C. split; rewrite ?EI, ?EN; try done.
  - intros u uth. rewrite LK. case_decide as E; [subst; by intros [= <-]|]. intros Eu. rewrite (c_run0 _ _ Eu). by apply HR.
  - intros u Hu. rewrite LK. case_decide as E; [eauto|]. apply c_cur0, HR; [congruence|done].
  - intros u uth. rewrite LK. case_decide as E; [subst; by intros [= <-]|]. apply c_ok0.
  - intros u. destruct (decide (u = t)) as [->|E].
    + rewrite HYt, LK, decide_True by done. split; [intros [? ?]; by exists th'|]. by intros (? & [= <-] & ? & ?).
    + rewrite HY, c_ready0, LK, decide_False by congruence. done.
  - intros s v' u Hs. destruct (HW s v' Hs) as (v & Ev & H1 & H2 & _). destruct (decide (u = t)) as [->|E].
    + rewrite H2, LK, decide_True by done. split; [intros [? ?]; by exists th'|]. by intros (? & [= <-] & ? & ?).
    + rewrite H1, (c_wait0 s v u Ev), LK, decide_False by congruence. done.
  - intros u uth s. rewrite LK. case_decide as E; [subst; intros [= <-] ? ?; by apply HWs, HWt|].
    intros. eapply HWs, c_sema0; done.
  - intros u. destruct (decide (u = t)) as [->|E].
    + rewrite HLt, LK, decide_True by done. split; [intros [? ?]; by exists th'|]. by intros (? & [= <-] & ? & ?).
    + rewrite HL, c_sleep0, LK, decide_False by congruence. done.
  - intros u uth. rewrite LK. case_decide as E; [subst; by intros [= <-]|]. apply c_reason0.
  - intros u uth x Eu Hx. rewrite LK in Eu.
    assert (Hx' : exists xth, threads k !! x = Some xth /\ status xth = THREAD_BLOCKED /\ reason (code xth) = WNew).
    { case_decide as E; [injection Eu as <-|by eapply c_new0].
      destruct (HT x Hx) as [?|(_ & ? & _)]; [by eapply c_new0|done]. }
    rewrite LK. destruct (decide (t = x)) as [E|E]; [|done]. subst x. exists th'. split; [done|].
    destruct (decide (t = u)) as [->|Hne]; [by simplify_eq|]. eapply HX; [|done|done]. congruence.
  - assert (HT' : forall u uth x, u <> t -> threads k !! u = Some uth -> x ∈ targets (code uth) -> x ∈ targets (code th') -> False).
    { intros u uth x Hu Eu Hx Hx'. destruct (HT x Hx') as [Hx2|(_ & _ & Hn)]; [|by eapply Hn].
      by apply Hu, (c_new_once0 u t uth th x). }
    intros u w uth wth x Eu Ew Hu Hw. rewrite LK in Eu, Ew.
    destruct (decide (t = u)), (decide (t = w)); simplify_eq; [done|..|by eapply c_new_once0].
    + by destruct (HT' w wth x).
    + by destruct (HT' u uth x).
  - intros u uth. rewrite LK. case_decide; [by intros [= <-]|apply c_new_nodup0].
  - intros s v' Hs. by destruct (HW s v' Hs) as (? & _ & _ & _ & ?).
  - destruct c_idle0 as (i & Ei & Hi). exists i. split; [done|]. rewrite LK. case_decide; eauto.
  - intros u uth. rewrite LK. case_decide as E; [subst; by intros [= <-]|]. intros Eu Hd.
    destruct (c_dying0 u uth Eu Hd) as [[?|?] ?]; (split; [|done]); [by left|right; apply HDu; congruence].
Qed.

Lemma cinv_local run dy run' dy' k k' t th th' :
  cinv run dy k -> threads k !! t = Some th -> threads k' = <[t := th']> (threads k) ->
  idle_thread k' = idle_thread k -> initial_thread k' = initial_thread k ->
  okthread (idle_thread k) t th' ->
  (forall u, u <> t -> (run = Some u <-> run' = Some u)) -> (status th' = THREAD_RUNNING <-> run' = Some t) ->
  (forall u, u <> t -> (u ∈ ready_list k' <-> u ∈ ready_list k)) ->
  (t ∈ ready_list k' <-> status th' = THREAD_READY /\ idle_thread k <> Some t) -> NoDup (ready_list k') ->
  (forall s v', semas (sync k') !! s = Some v' -> exists v, semas (sync k) !! s = Some v /\
    (forall u, u <> t -> (u ∈ waiters v' <-> u ∈ waiters v)) /\
    (t ∈ waiters v' <-> status th' = THREAD_BLOCKED /\ reason (code th') = WSema s) /\ NoDup (waiters v')) ->
  (forall s, is_Some (semas (sync k) !! s) -> is_Some (semas (sync k') !! s)) ->
  (status th' = THREAD_BLOCKED -> forall s, reason (code th') = WSema s -> is_Some (semas (sync k) !! s)) ->
  (forall u, u <> t -> (u ∈ sleeping_list k' <-> u ∈ sleeping_list k)) ->
  (t ∈ sleeping_list k' <-> status th' = THREAD_BLOCKED /\ reason (code th') = WSleep) -> NoDup (sleeping_list k') ->
  (status th' = THREAD_BLOCKED -> reason (code th') <> WNone) ->
  (forall u, u ∈ targets (code th') -> u ∈ targets (code th)) -> NoDup (targets (code th')) ->
  (forall u uth, u <> t -> threads k !! u = Some uth -> t ∈ targets (code uth) ->
    status th' = THREAD_BLOCKED /\ reason (code th') = WNew) ->
  t ∉ targets (code th') ->
  (status th' = THREAD_DYING -> (t = initial_thread k \/ dy' = Some t) /\ idle_thread k <> Some t) ->
  (forall u, u <> t -> dy = Some u -> dy' = Some u) ->
  cinv run' dy' k'.
Proof.
  intros C Et ET EI EN HO HR HRt HY HYt NY HW HWs HWt HL HLt NL HB HT. eapply cinv_local_new; try done. auto.
Qed.

Lemma cinv_same run dy k k' :
  threads k' = threads k -> ready_list k' = ready_list k -> sleeping_list k' = sleeping_list k ->
  semas (sync k') = semas (sync k) -> idle_thread k' = idle_thread k -> initial_thread k' = initial_thread k ->
  cinv run dy k -> cinv run dy k'.
Proof. intros E1 E2 E3 E4 E5 E6 []. split; rewrite ?E1, ?E2, ?E3, ?E4, ?E5, ?E6; done. Qed.

(** ** Switching *)

Lemma alter_insert_eq {V} (f : V -> V) t v (m : gmap Z V) : m !! t = Some v -> alter f t m = <[t := f v]> m.
Proof.
  intros E. apply map_eq. intros i. rewrite lookup_alter, lookup_insert.
  case_decide; subst; [by rewrite E|done].
Qed.

Lemma okthread_status idl t th s : okthread idl t th -> okthread idl t (with_status s th).
Proof. intros [H1 H2]. by split. Qed.

Lemma targets_not_self run dy k t th : cinv run dy k -> threads k !! t = Some th -> status th <> THREAD_BLOCKED ->
  forall u uth, threads k !! u = Some uth -> t ∉ targets (code uth).
Proof.
  intros C E HS u uth Eu Ht. destruct (c_new _ _ _ C _ _ _ Eu Ht) as (x & Ex & Bx & _). simplify_eq.
Qed.

(** A thread that is not running changes to running, when none is. *)
Lemma cinv_pick dy k n nth rest :
  cinv None dy k -> threads k !! n = Some nth -> dy <> Some n ->
  (ready_list k = n :: rest \/ (ready_list k = [] /\ rest = [] /\ idle_thread k = Some n)) ->
  cinv (Some n) dy (upd_thread n (with_status THREAD_RUNNING) (set_ready rest k)).
Proof.
  intros C E Hd HR.
  assert (HN : NoDup rest /\ n ∉ rest /\ forall u, u <> n -> (u ∈ rest <-> u ∈ ready_list k)).
  { destruct HR as [HR|(HR & -> & HI)].
    - pose proof (c_ready_nodup _ _ _ C) as N. rewrite HR in *. apply NoDup_cons in N as [? ?]. set_solver.
    - rewrite HR. split; [constructor|]. set_solver. }
  destruct HN as (N1 & N2 & N3).
  assert (HB : status nth = THREAD_BLOCKED -> idle_thread k = Some n).
  { intros HB. destruct HR as [HR|(_ & _ & ?)]; [|done].
    assert (Hn : n ∈ ready_list k) by (rewrite HR; set_solver). apply (c_ready _ _ _ C) in Hn as (? & ? & ? & _). congruence. }
  assert (HX : status nth = THREAD_BLOCKED -> reason (code nth) = WIdle).
  { intros B. pose proof (HB B) as HI. destruct (c_ok _ _ _ C _ _ E) as [_ OC]. rewrite decide_True in OC by done.
    pose proof (c_reason _ _ _ C _ _ E B) as Hr. destruct OC as (pre & suf & Ec & Fp & Hs). rewrite Ec in *.
    destruct pre as [|o pre]; [|apply Forall_cons in Fp as [Ho _]; by destruct o].
    cbn in *. destruct Hs as [->|[->| ->]]; done. }
  eapply (cinv_local None dy _ _ k _ n nth (with_status THREAD_RUNNING nth) C E); cbn [threads ready_list sync upd_thread
    set_threads set_ready idle_thread initial_thread sleeping_list]; try done.
  - by apply alter_insert_eq.
  - apply okthread_status. by apply (c_ok _ _ _ C).
  - intros u Hu. split; [done|]. congruence.
  - split; [done|]. by intros [? _].
  - intros s v Hv. exists v. split; [done|]. split; [done|]. split; [|by eapply c_wait_nodup].
    split; [|by intros [? _]]. intros Hn. apply (c_wait _ _ _ C s v n Hv) in Hn as (? & ? & B & R). simplify_eq.
    rewrite HX in R by done. done.
  - split; [|by intros [? _]]. intros Hn. apply (c_sleep _ _ _ C) in Hn as (? & ? & B & R). simplify_eq.
    rewrite HX in R by done. done.
  - by eapply c_sleep_nodup.
  - exact (c_new_nodup _ _ _ C _ _ E).
  - intros u uth Hu Eu Ht. destruct (c_new _ _ _ C _ _ _ Eu Ht) as (x & Ex & Bx & Rx). simplify_eq.
    by rewrite HX in Rx.
  - intros Ht. destruct (c_new _ _ _ C _ _ _ E Ht) as (x & Ex & Bx & Rx). simplify_eq.
    by rewrite HX in Rx.
Qed.

(** The page of a dead thread goes back to the allocator. *)
Lemma cinv_reap n c cth k :
  cinv (Some n) (Some c) k -> threads k !! c = Some cth -> status cth = THREAD_DYING ->
  cinv (Some n) None (set_threads (delete c) k).
Proof.
  intros C E HD. pose proof (c_dying _ _ _ C c cth E HD) as [_ HI].
  assert (LK : forall u uth, delete c (threads k) !! u = Some uth <-> threads k !! u = Some uth /\ u <> c).
  { intros u uth. rewrite lookup_delete_Some. split; intros []; done. }
  assert (LX : forall (P : thread -> Prop) u, (P cth -> False) ->
    ((exists uth, threads k !! u = Some uth /\ P uth) <-> exists uth, delete c (threads k) !! u = Some uth /\ P uth)).
  { intros P u HP. split; [|intros (uth & [? _]%LK & ?); eauto]. intros (uth & Eu & Hu). exists uth.
    split; [|done]. apply LK. split; [done|]. intros ->. apply HP. by simplify_eq. }
  destruct C. split; cbn [threads ready_list sync set_threads idle_thread initial_thread sleeping_list]; try done.
  - intros u uth [Eu _]%LK. by apply c_run0.
  - intros u Hu. destruct (c_cur0 u Hu) as [uth Eu]. exists uth. apply LK. split; [done|]. intros ->. simplify_eq.
    pose proof (proj2 (c_run0 _ _ E) eq_refl). congruence.
  - intros u uth [Eu _]%LK. by apply c_ok0.
  - intros u. rewrite c_ready0. apply (LX (fun th => status th = THREAD_READY /\ idle_thread k <> Some u)). intros [? _]. congruence.
  - intros s v u Hv. rewrite (c_wait0 s v u Hv). apply (LX (fun th => status th = THREAD_BLOCKED /\ reason (code th) = WSema s)).
    intros [? _]. congruence.
  - intros u uth s [Eu _]%LK. exact (c_sema0 u uth s Eu).
  - intros u. rewrite c_sleep0. apply (LX (fun th => status th = THREAD_BLOCKED /\ reason (code th) = WSleep)). intros [? _]. congruence.
  - intros u uth [Eu _]%LK. exact (c_reason0 u uth Eu).
  - intros u uth x [Eu _]%LK Hx. apply (LX (fun th => status th = THREAD_BLOCKED /\ reason (code th) = WNew)); [|by eapply c_new0].
    intros [? _]. congruence.
  - intros u w uth wth x [Eu _]%LK [Ew _]%LK. exact (c_new_once0 u w uth wth x Eu Ew).
  - intros u uth [Eu _]%LK. by eapply c_new_nodup0.
  - destruct c_idle0 as (i & Ei & [ith Hi]). exists i. split; [done|]. exists ith. apply LK. split; [done|]. congruence.
  - intros u uth [Eu Hne]%LK Hu. destruct (c_dying0 u uth Eu Hu) as [[?|?] ?]; [by split; [left|]|congruence].
Qed.

(** What a switch leaves alone: everything but the threads' status, and the page of a dead
    thread. *)
Record switched k k' : Prop := {
  sw_sync : sync k' = sync k;
  sw_sleep : sleeping_list k' = sleeping_list k;
  sw_idle : idle_thread k' = idle_thread k;
  sw_ticks : ticks (clock k') = ticks (clock k);
  sw_ext : in_external_intr (cpu k') = in_external_intr (cpu k);
  sw_level : intr_on (cpu k') = INTR_OFF;
  sw_thread : forall t th', threads k' !! t = Some th' ->
    exists th, threads k !! t = Some th /\ (th' = th \/ th' = with_status THREAD_RUNNING th);
  sw_live : forall t th, threads k !! t = Some th -> status th <> THREAD_DYING -> is_Some (threads k' !! t);
  sw_blocked : forall t th th', threads k !! t = Some th -> threads k' !! t = Some th' -> idle_thread k <> Some t ->
    (status th' = THREAD_BLOCKED <-> status th = THREAD_BLOCKED)
}.

(** The state after [thread_schedule_tail] has made [n] the running thread. *)
Definition started (n : Z) (nth : thread) k : kstate :=
  let k1 := upd_thread n (with_status THREAD_RUNNING) k in
  let k2 := set_clock (Clock (ticks (clock k1)) 0 (idle_ticks (clock k1)) (kernel_ticks (clock k1)) (user_ticks (clock k1))) k1 in
  set_cpu (Cpu (intr_on (cpu k2)) (in_external_intr (cpu k2)) (yield_on_return (cpu k2)) (pagedir nth)) k2.

Lemma wp_schedule_tail F n nth prev k (Q : unit -> kstate -> Prop) :
  current k = n -> threads k !! n = Some nth -> magic nth = THREAD_MAGIC -> intr_on (cpu k) = INTR_OFF ->
  match prev with
  | None => Q tt (started n nth k)
  | Some p => p <> n /\ exists pth, threads k !! p = Some pth /\
      Q tt (if decide (status pth = THREAD_DYING /\ p <> initial_thread k) then set_threads (delete p) (started n nth k)
            else started n nth k)
  end -> wp F (thread_schedule_tail prev) Q k.
Proof.
  intros Ec E HM HL HQ. unfold thread_schedule_tail.
  apply wp_bind, wp_gets, wp_bind, wp_gets, wp_bind, wp_assert; [intros _|cbn; by rewrite HL].
  apply wp_bind. rewrite Ec. eapply wp_set_status; [exact E|]. apply wp_bind, wp_modify, wp_bind.
  assert (EN : threads (upd_thread n (with_status THREAD_RUNNING) k) !! n = Some (with_status THREAD_RUNNING nth)).
  { cbn. by rewrite lookup_alter_eq, E. }
  unfold process_activate. apply wp_bind.
  eapply (wp_thread_current F (with_status THREAD_RUNNING nth)); cbn [current set_clock upd_thread set_threads];
    [rewrite Ec; exact EN|done|done|].
  rewrite Ec. apply wp_bind. eapply wp_get_thread; [exact EN|]. apply wp_modify.
  destruct prev as [p|]; [|exact HQ]. destruct HQ as (Hp & pth & Ep & HQ).
  apply wp_bind. eapply wp_get_thread; [cbn; by rewrite lookup_alter_ne|]. apply wp_bind, wp_gets.
  cbn [initial_thread set_cpu set_clock upd_thread set_threads].
  destruct (decide (status pth = THREAD_DYING)) as [Hd|Hd].
  - rewrite bool_decide_eq_true_2 by done. destruct (Z.eqb_spec p (initial_thread k)) as [Hi|Hi]; cbn [negb andb].
    + rewrite decide_False in HQ by tauto. exact HQ.
    + rewrite decide_True in HQ by done. apply wp_bind, wp_assert; [intros _; exact HQ|].
      by rewrite (proj2 (Z.eqb_neq _ _)).
  - rewrite bool_decide_eq_false_2 by done. cbn [andb]. rewrite decide_False in HQ by tauto. exact HQ.
Qed.

Lemma wp_schedule F dy k c cth (Q : unit -> kstate -> Prop) :
  cinv None dy k -> current k = c -> threads k !! c = Some cth -> intr_on (cpu k) = INTR_OFF ->
  (dy = None \/ (dy = Some c /\ status cth = THREAD_DYING)) ->
  (forall k', cinv (Some (current k')) None k' -> switched k k' -> Q tt k') ->
  wp F schedule Q k.
Proof.
  intros C Ec E HL Hdy HQ.
  assert (HN : exists n nth rest, threads k !! n = Some nth /\ next_thread_to_run k = Ok (Some n, set_ready rest k) /\
    (ready_list k = n :: rest \/ (ready_list k = [] /\ rest = [] /\ idle_thread k = Some n)) /\ dy <> Some n).
  { unfold next_thread_to_run. destruct (ready_list k) as [|n rest] eqn:ER.
    - destruct (c_idle _ _ _ C) as (i & Ei & [ith Hi]). exists i, ith, []. rewrite Ei.
      split; [done|]. split; [by destruct k; cbn in *; subst|]. split; [by right|].
      intros ->. destruct Hdy as [?|[[= ->] HD]]; [done|].
      destruct (c_dying _ _ _ C _ _ E HD) as [_ ?]. done.
    - assert (Hn : n ∈ ready_list k) by (rewrite ER; set_solver). apply (c_ready _ _ _ C) in Hn as (nth & En & Sn & _).
      exists n, nth, rest. split; [done|]. split; [done|]. split; [by left|]. intros ->.
      destruct Hdy as [?|[[= ->] HD]]; [done|]. congruence. }
  destruct HN as (n & nth & rest & En & EX & HR & Hd).
  pose proof (cinv_pick dy k n nth rest C En Hd HR) as C'.
  assert (HS : status cth <> THREAD_RUNNING) by (intros HS; by apply (c_run _ _ _ C _ _ E) in HS).
  assert (Mn : magic nth = THREAD_MAGIC) by apply (c_ok _ _ _ C _ _ En).
  unfold schedule. apply wp_bind, wp_gets, wp_bind. unfold wp at 1. rewrite EX.
  apply wp_bind, wp_gets, wp_bind, wp_assert; [intros _|cbn; by rewrite HL].
  apply wp_bind. rewrite Ec. eapply wp_get_thread; [exact E|].
  apply wp_bind, wp_assert; [intros _|by rewrite bool_decide_eq_false_2].
  apply wp_bind. eapply wp_get_thread; [exact En|]. apply wp_bind, wp_assert; [intros _|unfold is_thread; by rewrite Mn, Z.eqb_refl].
  assert (SW : forall d, (forall t th, threads k !! t = Some th -> status th <> THREAD_DYING -> d <> Some t) ->
    forall k', threads k' = match d with Some p => delete p | None => id end
      (<[n := with_status THREAD_RUNNING nth]> (threads k)) -> sync k' = sync k -> sleeping_list k' = sleeping_list k ->
    idle_thread k' = idle_thread k -> ticks (clock k') = ticks (clock k) ->
    in_external_intr (cpu k') = in_external_intr (cpu k) -> intr_on (cpu k') = INTR_OFF -> switched k k').
  { intros d Hdd k' ET. split; try done; rewrite ET.
    - intros t th' Et. assert (Et' : <[n := with_status THREAD_RUNNING nth]> (threads k) !! t = Some th')
        by (destruct d; [by apply lookup_delete_Some in Et as [_ ?]|done]).
      rewrite lookup_insert in Et'. case_decide; simplify_eq; eauto.
    - intros t th Et St. assert (Hi : is_Some (<[n := with_status THREAD_RUNNING nth]> (threads k) !! t))
        by (rewrite lookup_insert; case_decide; eauto).
      destruct d as [p|]; [|done]. rewrite lookup_delete_ne; [done|]. intros ->. by eapply Hdd.
    - intros t th th' Et Et' Hi. assert (Et2 : <[n := with_status THREAD_RUNNING nth]> (threads k) !! t = Some th')
        by (destruct d; [by apply lookup_delete_Some in Et' as [_ ?]|done]).
      rewrite lookup_insert in Et2. case_decide; simplify_eq; [|done].
      destruct HR as [HR|(_ & _ & ?)]; [|done]. assert (Hn : t ∈ ready_list k) by (rewrite HR; set_solver).
      apply (c_ready _ _ _ C) in Hn as (? & ? & ? & _). split; [done|congruence]. }
  assert (EA : alter (with_status THREAD_RUNNING) n (threads k) = <[n := with_status THREAD_RUNNING nth]> (threads k))
    by (by apply alter_insert_eq).
  destruct (Z.eqb_spec c n) as [Hcn|Hne].
  - eapply (wp_schedule_tail F n nth); [cbn; congruence|exact En|done|done|]. apply HQ.
    + assert (dy = None) as -> by (destruct Hdy as [?|[-> _]]; congruence).
      cbn. rewrite Ec, Hcn. eapply cinv_same; [..|exact C']; done.
    + apply (SW None); try done; cbn; by rewrite EA.
  - apply wp_bind, wp_modify. eapply (wp_schedule_tail F n nth); [done|exact En|done|done|].
    split; [done|]. exists cth. split; [exact E|]. cbn [initial_thread set_current set_ready].
    assert (C2 : cinv (Some n) dy (started n nth (set_current n (set_ready rest k)))) by (eapply cinv_same; [..|exact C']; done).
    case_decide as Hk.
    + destruct Hdy as [->|[-> _]].
      { destruct (c_dying _ _ _ C c cth E (proj1 Hk)) as [[?|?] _]; [by destruct Hk|done]. }
      apply HQ; [|apply (SW (Some c)); try done].
      * eapply (cinv_reap n c cth); [exact C2| |apply Hk]. cbn. by rewrite lookup_alter_ne.
      * intros t th Et St [= ->]. destruct Hk. congruence.
      * cbn. by rewrite EA.
    + apply HQ; [|apply (SW None); try done; cbn; by rewrite EA]. cbn [current set_current started set_cpu set_clock upd_thread set_threads].
      destruct Hdy as [->|[-> HD]]; [exact C2|]. destruct C2. split; try done.
      intros t th Et Ht. destruct (c_dying0 t th Et Ht) as [[?|[= <-]] ?]; [by split; [left|]|].
      split; [|done]. left. cbn. destruct (decide (c = initial_thread k)); [done|]. destruct Hk. tauto.
Qed.

(** ** Transitions of the current thread *)

Ltac kfields := cbn [threads current ready_list all_list sleeping_list idle_thread initial_thread next_tid sync cpu clock
  semas holders conds intr_on in_external_intr yield_on_return active_pd ticks thread_ticks
  set_threads set_current set_ready set_all set_sleeping set_idle set_next_tid set_sync set_cpu set_clock
  set_level upd_thread push_code set_sema set_holder set_cond value waiters
  with_status with_code with_tid with_priority with_wake status code magic tick_to_wake] in *.

(** An equality of states that differ in the order of independent updates. *)
Ltac kequal k :=
  destruct k as [? ? ? ? ? ? ? ? [] [] []];
  cbv beta iota delta [threads current ready_list all_list sleeping_list idle_thread initial_thread next_tid sync cpu clock
  semas holders conds intr_on in_external_intr yield_on_return active_pd ticks thread_ticks
  set_threads set_current set_ready set_all set_sleeping set_idle set_next_tid set_sync set_cpu set_clock
  set_level upd_thread set_sema set_holder set_cond value waiters tl] in *;
  rewrite ?insert_insert_eq; try done.

Lemma run_lookup dy k c : cinv (Some c) dy k ->
  exists th, threads k !! c = Some th /\ status th = THREAD_RUNNING /\ magic th = THREAD_MAGIC.
Proof.
  intros C. destruct (c_cur _ _ _ C c eq_refl) as [th E]. exists th. split; [done|].
  split; [by apply (c_run _ _ _ C _ _ E)|apply (c_ok _ _ _ C _ _ E)].
Qed.

(** The running thread is in no list. *)
Lemma run_nowhere dy k c : cinv (Some c) dy k ->
  c ∉ ready_list k /\ c ∉ sleeping_list k /\ (forall s v, semas (sync k) !! s = Some v -> c ∉ waiters v) /\
  (forall u uth, threads k !! u = Some uth -> c ∉ targets (code uth)).
Proof.
  intros C. destruct (run_lookup _ _ _ C) as (th & E & S & _). split_and!.
  - intros H. apply (c_ready _ _ _ C) in H as (? & ? & ? & _). congruence.
  - intros H. apply (c_sleep _ _ _ C) in H as (? & ? & ? & _). congruence.
  - intros s v Hs H. apply (c_wait _ _ _ C s v c Hs) in H as (? & ? & ? & _). congruence.
  - intros u uth Eu. eapply targets_not_self; [done|done|congruence|done].
Qed.

Lemma eq_Permutation {A} (l l' : list A) : l = l' -> l ≡ₚ l'.
Proof. by intros ->. Qed.

Lemma append_if (P : Prop) (DP : Decision P) (c : Z) (l l' : list Z) :
  l' ≡ₚ l ++ (if decide P then [c] else []) -> c ∉ l -> NoDup l ->
  (forall u, u <> c -> (u ∈ l' <-> u ∈ l)) /\ (c ∈ l' <-> P) /\ NoDup l'.
Proof.
  intros El Hc Hn.
  assert (EM : forall u, u ∈ l' <-> u ∈ l \/ (P /\ u = c)).
  { intros u. rewrite El, elem_of_app. case_decide as HP; [rewrite list_elem_of_singleton|rewrite elem_of_nil]; tauto. }
  split; [intros u Hu; rewrite EM; tauto|]. split; [rewrite EM; tauto|].
  rewrite El. case_decide; [|by rewrite app_nil_r]. apply NoDup_app. split; [done|].
  split; [|apply NoDup_singleton]. by intros x Hx ->%list_elem_of_singleton.
Qed.

(** [c] leaves the processor as [th'], joining the lists [k'] has it in. *)
Lemma cinv_leave k k' c th th' dy' :
  cinv (Some c) None k -> threads k !! c = Some th -> threads k' = <[c := th']> (threads k) ->
  idle_thread k' = idle_thread k -> initial_thread k' = initial_thread k ->
  code th' = code th -> magic th' = magic th -> status th' <> THREAD_RUNNING ->
  ready_list k' = ready_list k ++ (if decide (status th' = THREAD_READY /\ idle_thread k <> Some c) then [c] else []) ->
  (forall s v', semas (sync k') !! s = Some v' -> exists v, semas (sync k) !! s = Some v /\
    waiters v' = waiters v ++ (if decide (status th' = THREAD_BLOCKED /\ reason (code th) = WSema s) then [c] else [])) ->
  (forall s, is_Some (semas (sync k) !! s) -> is_Some (semas (sync k') !! s)) ->
  (forall s, status th' = THREAD_BLOCKED -> reason (code th) = WSema s -> is_Some (semas (sync k) !! s)) ->
  sleeping_list k' ≡ₚ sleeping_list k ++ (if decide (status th' = THREAD_BLOCKED /\ reason (code th) = WSleep) then [c] else []) ->
  (status th' = THREAD_BLOCKED -> reason (code th) <> WNone) ->
  (status th' = THREAD_DYING -> dy' = Some c /\ idle_thread k <> Some c) ->
  cinv None dy' k'.
Proof.
  intros C E ET EI EN EC EM HS HY HW HWs HWx HL HB HD.
  destruct (run_nowhere _ _ _ C) as (N1 & N2 & N3 & N4).
  apply eq_Permutation in HY.
  destruct (append_if _ _ _ _ _ HY N1 (c_ready_nodup _ _ _ C)) as (Y1 & Y2 & Y3).
  destruct (append_if _ _ _ _ _ HL N2 (c_sleep_nodup _ _ _ C)) as (L1 & L2 & L3).
  eapply (cinv_local _ _ None dy' k k' c th th' C E ET EI EN); rewrite ?EC; try done.
  - destruct (c_ok _ _ _ C _ _ E) as [O1 O2]. split; [by rewrite EM|by rewrite EC].
  - intros u Hu. split; [congruence|done].
  - intros s v' Hs. destruct (HW s v' Hs) as (v & Ev & Ew). exists v. split; [done|].
    apply eq_Permutation in Ew. destruct (append_if _ _ _ _ _ Ew (N3 s v Ev) (c_wait_nodup _ _ _ C s v Ev)) as (? & ? & ?).
    done.
  - intros B s. by apply HWx.
  - exact (c_new_nodup _ _ _ C _ _ E).
  - intros u uth _ Eu Ht. by destruct (N4 u uth Eu).
  - by apply (N4 c th E).
  - intros D. destruct (HD D). split; [by right|done].
Qed.

(** ** Waking a thread up *)

(** [t], blocked, becomes ready and leaves the lists [k'] has it out of. *)
Lemma cinv_wake run k k' t th :
  cinv run None k -> threads k !! t = Some th -> status th = THREAD_BLOCKED -> reason (code th) <> WIdle ->
  threads k' = <[t := with_status THREAD_READY th]> (threads k) ->
  idle_thread k' = idle_thread k -> initial_thread k' = initial_thread k ->
  ready_list k' = ready_list k ++ [t] ->
  (forall s v', semas (sync k') !! s = Some v' -> exists v, semas (sync k) !! s = Some v /\
    (waiters v = t :: waiters v' \/ (waiters v' = waiters v /\ reason (code th) <> WSema s))) ->
  (forall s, is_Some (semas (sync k) !! s) -> is_Some (semas (sync k') !! s)) ->
  (sleeping_list k = t :: sleeping_list k' \/ (sleeping_list k' = sleeping_list k /\ reason (code th) <> WSleep)) ->
  (forall u uth, threads k !! u = Some uth -> t ∉ targets (code uth)) ->
  cinv run None k'.
Proof.
  intros C E B HI ET EI EN HY HW HWs HL HT.
  assert (NI : idle_thread k <> Some t).
  { intros Ei. destruct (c_ok _ _ _ C _ _ E) as [_ OC]. rewrite decide_True in OC by done.
    pose proof (c_reason _ _ _ C _ _ E B) as Hr. destruct OC as (pre & suf & Ec & Fp & Hs). rewrite Ec in *.
    destruct pre as [|o pre]; [|apply Forall_cons in Fp as [Ho _]; by destruct o].
    cbn in *. by destruct Hs as [->|[->| ->]]. }
  assert (NR : t ∉ ready_list k) by (intros H; apply (c_ready _ _ _ C) in H as (? & ? & ? & _); congruence).
  assert (POP : forall l l' : list Z, NoDup l -> l = t :: l' -> (forall u, u <> t -> (u ∈ l' <-> u ∈ l)) /\ t ∉ l' /\ NoDup l').
  { intros l l' N ->. apply NoDup_cons in N as [? ?]. split; [|done]. intros u Hu. rewrite elem_of_cons. naive_solver. }
  eapply (cinv_local run None run None k k' t th (with_status THREAD_READY th) C E ET EI EN); try done.
  - apply okthread_status, (c_ok _ _ _ C _ _ E).
  - split; [done|]. intros ->. pose proof (proj2 (c_run _ _ _ C _ _ E) eq_refl). congruence.
  - intros u Hu. rewrite HY, elem_of_app, list_elem_of_singleton. naive_solver.
  - rewrite HY, elem_of_app, list_elem_of_singleton. naive_solver.
  - rewrite HY. apply NoDup_app. split; [by apply (c_ready_nodup _ _ _ C)|]. split; [|apply NoDup_singleton].
    by intros x Hx ->%list_elem_of_singleton.
  - intros s v' Hs. destruct (HW s v' Hs) as (v & Ev & [Ew|[Ew Hr]]); exists v; (split; [done|]).
    + destruct (POP _ _ (c_wait_nodup _ _ _ C s v Ev) Ew) as (P1 & P2 & P3).
      split; [done|]. split; [|done]. split; [done|by intros [? _]].
    + rewrite Ew. split; [done|]. split; [|by eapply c_wait_nodup]. split; [|by intros [? _]].
      intros Hn. apply (c_wait _ _ _ C s v t Ev) in Hn as (? & ? & _ & R). simplify_eq.
  - intros u Hu. destruct HL as [Ew|[-> _]]; [|done]. by apply (POP _ _ (c_sleep_nodup _ _ _ C) Ew).
  - split; [|by intros [? _]]. intros Hn. destruct HL as [Ew|[Ew Hr]].
    + by apply (POP _ _ (c_sleep_nodup _ _ _ C) Ew) in Hn.
    + rewrite Ew in Hn. apply (c_sleep _ _ _ C) in Hn as (? & ? & _ & R). simplify_eq.
  - destruct HL as [Ew|[-> _]]; [by apply (POP _ _ (c_sleep_nodup _ _ _ C) Ew)|apply (c_sleep_nodup _ _ _ C)].
  - exact (c_new_nodup _ _ _ C _ _ E).
  - intros u uth _ Eu Ht. by destruct (HT u uth Eu).
  - by apply (HT t th E).
Qed.

(** A thread waiting on something other than its first start is nobody's new thread. *)
Lemma waiting_not_new run dy k t th : cinv run dy k -> threads k !! t = Some th -> reason (code th) <> WNew ->
  forall u uth, threads k !! u = Some uth -> t ∉ targets (code uth).
Proof. intros C E HR u uth Eu Ht. destruct (c_new _ _ _ C _ _ _ Eu Ht) as (? & ? & _ & ?). simplify_eq. Qed.

Lemma wp_unblock F t th k (Q : unit -> kstate -> Prop) :
  threads k !! t = Some th -> magic th = THREAD_MAGIC -> status th = THREAD_BLOCKED ->
  (in_external_intr (cpu k) = false \/ intr_on (cpu k) = INTR_OFF) ->
  Q tt (set_level (intr_on (cpu k)) (upd_thread t (with_status THREAD_READY)
    (set_ready (ready_list k ++ [t]) (set_level INTR_OFF k)))) ->
  wp F (thread_unblock t) Q k.
Proof.
  intros E HM HB HE HQ. unfold thread_unblock. apply wp_bind. eapply wp_get_thread; [exact E|].
  apply wp_bind, wp_assert; [intros _|unfold is_thread; by rewrite HM, Z.eqb_refl].
  apply wp_bind, wp_disable, wp_bind, wp_assert; [intros _|by rewrite bool_decide_eq_true_2].
  apply wp_bind, wp_modify, wp_bind. eapply wp_set_status; [exact E|]. apply wp_bind, wp_set_level; [|exact HQ].
  kfields. destruct HE as [?|?]; [by left|by right].
Qed.

(** The state after [sema_up]. *)
Definition upped (s : sid) (v : semaphore) k : kstate :=
  set_sema s (Sema (u32 (value v + 1)) (tl (waiters v)))
    match waiters v with
    | [] => k
    | t :: _ => upd_thread t (with_status THREAD_READY) (set_ready (ready_list k ++ [t]) k)
    end.

Lemma wp_sema_up F s v k (Q : unit -> kstate -> Prop) :
  semas (sync k) !! s = Some v -> sema_alive s k = true ->
  (forall t, t ∈ waiters v -> exists th, threads k !! t = Some th /\ magic th = THREAD_MAGIC /\ status th = THREAD_BLOCKED) ->
  (in_external_intr (cpu k) = false \/ intr_on (cpu k) = INTR_OFF) ->
  Q tt (upped s v k) -> wp F (sema_up s) Q k.
Proof.
  intros Ev HA HW HE HQ. unfold sema_up. apply wp_bind, wp_disable, wp_bind. unfold wp at 1, get_sema. kfields.
  rewrite Ev. change (sema_alive s (set_level INTR_OFF k)) with (sema_alive s k). rewrite HA.
  unfold upped in HQ. destruct (waiters v) as [|t ws].
  - apply wp_bind, wp_ret, wp_bind, wp_modify, wp_bind, wp_set_level; [kfields; destruct HE; [by left|by right]|]. apply wp_ret.
    kequal k.
  - destruct (HW t ltac:(set_solver)) as (th & Et & Mt & Bt).
    apply wp_bind, wp_bind, wp_modify, wp_bind. eapply wp_unblock; [exact Et|done|done|right; done|]. apply wp_ret.
    apply wp_bind, wp_modify, wp_bind, wp_set_level; [kfields; destruct HE; [by left|by right]|]. apply wp_ret.
    kequal k.
Qed.

Lemma sema_waiter run k s v t : cinv run None k -> semas (sync k) !! s = Some v -> t ∈ waiters v ->
  exists th, threads k !! t = Some th /\ magic th = THREAD_MAGIC /\ status th = THREAD_BLOCKED.
Proof.
  intros C Ev Ht. apply (c_wait _ _ _ C s v t Ev) in Ht as (th & Et & Bt & _). exists th. split; [done|].
  split; [apply (c_ok _ _ _ C _ _ Et)|done].
Qed.

Lemma cinv_upped run k s v : cinv run None k -> semas (sync k) !! s = Some v -> cinv run None (upped s v k).
Proof.
  intros C Ev. unfold upped.
  assert (HS : forall u', <[s := Sema (u32 (value v + 1)) (tl (waiters v))]> (semas (sync k)) !! u' =
    if decide (s = u') then Some (Sema (u32 (value v + 1)) (tl (waiters v))) else semas (sync k) !! u')
    by (intros; apply lookup_insert).
  destruct (waiters v) as [|t ws] eqn:EW.
  - destruct C. split; kfields; try done.
    + intros s' v' t. rewrite HS. case_decide; [subst; intros [= <-]|by apply c_wait0]. cbn. rewrite <- EW. by apply c_wait0.
    + intros t th s' Et B R. destruct (c_sema0 t th s' Et B R) as [x Hx]. rewrite HS. case_decide; eauto.
    + intros s' v'. rewrite HS. case_decide; [subst; intros [= <-]; constructor|by apply c_wait_nodup0].
  - assert (Ht : t ∈ waiters v) by (rewrite EW; set_solver).
    apply (c_wait _ _ _ C s v t Ev) in Ht as (th & Et & Bt & Rt).
    eapply (cinv_wake run k _ t th C Et Bt); kfields; try done.
    + by rewrite Rt.
    + by apply alter_insert_eq.
    + intros s' v'. rewrite HS. case_decide as Es; [subst; intros [= <-]|].
      * exists v. split; [done|]. by left.
      * intros Hv. exists v'. split; [done|]. right. split; [done|]. rewrite Rt. congruence.
    + intros s' [x Hx]. rewrite HS. case_decide; eauto.
    + right. split; [done|]. by rewrite Rt.
    + eapply waiting_not_new; [done|done|]. by rewrite Rt.
Qed.

(** ** Other changes *)

(** The running thread changes, and goes on running. *)
Lemma cinv_edit dy k k' c th th' :
  cinv (Some c) dy k -> threads k !! c = Some th -> threads k' = <[c := th']> (threads k) ->
  ready_list k' = ready_list k -> sleeping_list k' = sleeping_list k -> semas (sync k') = semas (sync k) ->
  idle_thread k' = idle_thread k -> initial_thread k' = initial_thread k ->
  status th' = THREAD_RUNNING -> okthread (idle_thread k) c th' ->
  (forall u, u ∈ targets (code th') -> u ∈ targets (code th) \/
    (u <> c /\ (exists uth, threads k !! u = Some uth /\ status uth = THREAD_BLOCKED /\ reason (code uth) = WNew) /\
     forall w wth, threads k !! w = Some wth -> u ∉ targets (code wth))) ->
  NoDup (targets (code th')) ->
  cinv (Some c) dy k'.
Proof.
  intros C E ET ER EL ES EI EN HS HO HT HN. destruct (run_nowhere _ _ _ C) as (N1 & N2 & N3 & N4).
  eapply (cinv_local_new (Some c) dy (Some c) dy k k' c th th' C E ET EI EN HO); rewrite ?ER, ?EL, ?ES, ?HS; try done;
    try (by split; [|intros [? _]]); try by apply C.
  - intros s v Hv. exists v. split; [done|]. split; [done|]. split; [|by eapply c_wait_nodup]. split; [|by intros [? _]].
    intros Hc. by destruct (N3 s v Hv).
  - intros u uth _ Eu Hc. by destruct (N4 u uth Eu).
  - intros Hc. destruct (HT c Hc) as [?|[? _]]; [by destruct (N4 c th E)|done].
Qed.

(** A semaphore's value changes. *)
Lemma cinv_value run dy k k' s v n :
  cinv run dy k -> semas (sync k) !! s = Some v -> semas (sync k') = <[s := Sema n (waiters v)]> (semas (sync k)) ->
  threads k' = threads k -> ready_list k' = ready_list k -> sleeping_list k' = sleeping_list k ->
  idle_thread k' = idle_thread k -> initial_thread k' = initial_thread k -> cinv run dy k'.
Proof.
  intros [] Ev ES ET ER EL EI EN. split; rewrite ?ET, ?ER, ?EL, ?EI, ?EN, ?ES; try done.
  - intros x vx t. rewrite lookup_insert. case_decide; [subst; intros [= <-]; by apply (c_wait0 x v)|apply c_wait0].
  - intros t th x Et B R. rewrite lookup_insert. case_decide; [eauto|by eapply c_sema0].
  - intros x vx. rewrite lookup_insert. case_decide; [subst; intros [= <-]; by apply (c_wait_nodup0 x v)|apply c_wait_nodup0].
Qed.

(** A semaphore nobody waits on is initialized. *)
Lemma cinv_sema_init run dy k k' s n :
  cinv run dy k -> (forall t th, threads k !! t = Some th -> status th = THREAD_BLOCKED -> reason (code th) <> WSema s) ->
  semas (sync k') = <[s := Sema n []]> (semas (sync k)) ->
  threads k' = threads k -> ready_list k' = ready_list k -> sleeping_list k' = sleeping_list k ->
  idle_thread k' = idle_thread k -> initial_thread k' = initial_thread k -> cinv run dy k'.
Proof.
  intros [] Hs ES ET ER EL EI EN. split; rewrite ?ET, ?ER, ?EL, ?EI, ?EN, ?ES; try done.
  - intros x vx t. rewrite lookup_insert. case_decide; [subst; intros [= <-]|apply c_wait0]. cbn. rewrite elem_of_nil.
    split; [done|]. intros (th & Et & B & R). by destruct (Hs t th Et B).
  - intros t th x Et B R. rewrite lookup_insert. case_decide; [eauto|by eapply c_sema0].
  - intros x vx. rewrite lookup_insert. case_decide; [subst; intros [= <-]; constructor|apply c_wait_nodup0].
Qed.

(** A blocked thread [t], not yet started, comes into being. *)
Lemma cinv_new run dy k k' t th :
  cinv run dy k -> threads k !! t = None -> threads k' = <[t := th]> (threads k) ->
  ready_list k' = ready_list k -> sleeping_list k' = sleeping_list k -> semas (sync k') = semas (sync k) ->
  idle_thread k' = idle_thread k -> initial_thread k' = initial_thread k ->
  status th = THREAD_BLOCKED -> reason (code th) = WNew -> okthread (idle_thread k) t th -> targets (code th) = [] ->
  cinv run dy k'.
Proof.
  intros [] E ET ER EL ES EI EN HB HR HO HT.
  assert (LK : forall u uth, <[t := th]> (threads k) !! u = Some uth <-> (u = t /\ uth = th) \/ threads k !! u = Some uth).
  { intros u uth. rewrite lookup_insert. case_decide; [subst|]; split; [intros [= <-]; by left| |by right|].
    - intros [[_ ->]|?]; [done|congruence].
    - by intros [[-> _]|?]. }
  assert (LX : forall P : thread -> Prop, ~ P th -> forall u,
    ((exists uth, <[t := th]> (threads k) !! u = Some uth /\ P uth) <-> exists uth, threads k !! u = Some uth /\ P uth)).
  { intros P HP u. split; intros (uth & Eu & Hu); exists uth; (split; [|done]); [|by apply LK; right].
    apply LK in Eu as [[-> ->]|?]; done. }
  split; rewrite ?ER, ?EL, ?EI, ?EN, ?ES, ?ET; try done.
  - intros u uth [[-> ->]|Eu]%LK; [|by apply c_run0]. rewrite HB. split; [done|]. intros ->.
    destruct (c_cur0 t eq_refl). congruence.
  - intros u Hu. destruct (c_cur0 u Hu) as [uth ?]. exists uth. apply LK. by right.
  - intros u uth [[-> ->]|Eu]%LK; [done|by apply c_ok0].
  - intros u. rewrite c_ready0. symmetry. apply (LX (fun uth => status uth = THREAD_READY /\ idle_thread k <> Some u)).
    rewrite HB. by intros [? _].
  - intros s v u Ev. rewrite (c_wait0 s v u Ev). symmetry.
    apply (LX (fun uth => status uth = THREAD_BLOCKED /\ reason (code uth) = WSema s)). rewrite HR. by intros [_ ?].
  - intros u uth s [[-> ->]|Eu]%LK; [by rewrite HR|by eapply c_sema0].
  - intros u. rewrite c_sleep0. symmetry. apply (LX (fun uth => status uth = THREAD_BLOCKED /\ reason (code uth) = WSleep)).
    rewrite HR. by intros [_ ?].
  - intros u uth [[-> ->]|Eu]%LK; [by rewrite HR|by apply (c_reason0 u)].
  - intros u uth x [[-> ->]|Eu]%LK; [by rewrite HT, elem_of_nil|]. intros Hx.
    destruct (c_new0 u uth x Eu Hx) as (xth & Ex & ?). exists xth. split; [|done]. apply LK. by right.
  - intros u v uth vth x [[-> ->]|Eu]%LK [[-> ->]|Ew]%LK; rewrite ?HT, ?elem_of_nil; try done. by eapply c_new_once0.
  - intros u uth [[-> ->]|Eu]%LK; [rewrite HT; constructor|by apply (c_new_nodup0 u)].
  - destruct c_idle0 as (i & Ei & [ith Hi]). exists i. split; [done|]. exists ith. apply LK. by right.
  - intros u uth [[-> ->]|Eu]%LK; [by rewrite HB|by apply c_dying0].
Qed.

(** A thread changes in members the scheduler does not look at. *)
Lemma cinv_member run dy k k' t th th' :
  cinv run dy k -> threads k !! t = Some th -> threads k' = <[t := th']> (threads k) ->
  status th' = status th -> code th' = code th -> magic th' = magic th -> t ∉ targets (code th) ->
  ready_list k' = ready_list k -> sleeping_list k' = sleeping_list k -> semas (sync k') = semas (sync k) ->
  idle_thread k' = idle_thread k -> initial_thread k' = initial_thread k -> cinv run dy k'.
Proof.
  intros C E ET HS HC HM HT ER EL ES EI EN. pose proof C as [].
  eapply (cinv_local run dy run dy k k' t th th' C E ET EI EN); rewrite ?HC, ?HS, ?ER, ?EL, ?ES; try done.
  - destruct (c_ok0 t th E) as [O1 O2]. split; [congruence|by rewrite HC].
  - by apply c_run0.
  - rewrite c_ready0. split; [intros (? & ? & ? & ?); by simplify_eq|]. intros []. by exists th.
  - intros s v Ev. exists v. split; [done|]. split; [done|]. split; [|by eapply c_wait_nodup0].
    rewrite (c_wait0 s v t Ev). split; [intros (? & ? & ? & ?); by simplify_eq|]. intros []. by exists th.
  - intros. by eapply c_sema0.
  - rewrite c_sleep0. split; [intros (? & ? & ? & ?); by simplify_eq|]. intros []. by exists th.
  - by apply (c_reason0 t).
  - by apply (c_new_nodup0 t).
  - intros u uth _ Eu Ht. destruct (c_new0 u uth t Eu Ht) as (? & ? & ? & ?). by simplify_eq.
  - by apply c_dying0.
Qed.

(** [c] leaves the processor with new code. *)
Lemma cinv_leave_code k k' c th th' dy' :
  cinv (Some c) None k -> threads k !! c = Some th -> threads k' = <[c := th']> (threads k) ->
  idle_thread k' = idle_thread k -> initial_thread k' = initial_thread k ->
  okthread (idle_thread k) c th' -> (forall u, u ∈ targets (code th') -> u ∈ targets (code th)) ->
  NoDup (targets (code th')) -> status th' <> THREAD_RUNNING ->
  ready_list k' = ready_list k ++ (if decide (status th' = THREAD_READY /\ idle_thread k <> Some c) then [c] else []) ->
  (forall s v', semas (sync k') !! s = Some v' -> exists v, semas (sync k) !! s = Some v /\
    waiters v' = waiters v ++ (if decide (status th' = THREAD_BLOCKED /\ reason (code th') = WSema s) then [c] else [])) ->
  (forall s, is_Some (semas (sync k) !! s) -> is_Some (semas (sync k') !! s)) ->
  (forall s, status th' = THREAD_BLOCKED -> reason (code th') = WSema s -> is_Some (semas (sync k) !! s)) ->
  sleeping_list k' ≡ₚ sleeping_list k ++ (if decide (status th' = THREAD_BLOCKED /\ reason (code th') = WSleep) then [c] else []) ->
  (status th' = THREAD_BLOCKED -> reason (code th') <> WNone) ->
  (status th' = THREAD_DYING -> dy' = Some c /\ idle_thread k <> Some c) ->
  cinv None dy' k'.
Proof.
  intros C E ET EI EN HO HT HN HS HR HW HWs HWt HL HB HD.
  set (k1 := set_threads (fun _ => <[c := with_status THREAD_RUNNING th']> (threads k)) k).
  assert (C1 : cinv (Some c) None k1).
  { eapply (cinv_edit None k k1 c th); try done; [by apply okthread_status|]. intros u Hu. left. by apply HT. }
  eapply (cinv_leave k1 k' c (with_status THREAD_RUNNING th') th' dy' C1); try done; cbn.
  - by rewrite lookup_insert_eq.
  - by rewrite insert_insert_eq.
Qed.

End SchedInv.
