(* ===== verification/SchedSync.v ===== *)
(** * Locks, wake-ups and the sleep queue of the thread machine

    The second half of the invariant of Sched: what the code of the threads, the semaphore
    values, the lock holders and the sleep queue have to do with each other.  With SchedInv
    it is preserved by every step; the theorems at the end are its consequences. *)

From S2P Require Import Prelude LinkedList ListSort Sched SchedInv.
Import Sched SchedInv.

Module SchedSync.

Implicit Types (k : kstate) (th : thread).

(** ** Sums over the threads *)

Definition tsum (f : thread -> Z) (m : gmap Z thread) : Z := map_fold (fun _ th n => f th + n) 0 m.
Definition tval (f : thread -> Z) (m : gmap Z thread) (t : Z) : Z := default 0 (f <$> m !! t).

Lemma tsum_insert f m t th : m !! t = None -> tsum f (<[t := th]> m) = f th + tsum f m.
Proof. intros E. unfold tsum. rewrite map_fold_insert_L; [done| |done]. intros. lia. Qed.

Lemma tsum_delete f m t : tsum f m = tval f m t + tsum f (delete t m).
Proof.
  unfold tval. destruct (m !! t) as [th|] eqn:E; cbn.
  - rewrite <- (insert_delete_id m t th E) at 1. apply tsum_insert, lookup_delete_eq.
  - by rewrite delete_id.
Qed.

Lemma tsum_zero f m : (forall t, tval f m t = 0) -> tsum f m = 0.
Proof.
  induction m as [|t th m E IH] using map_ind; [done|]. intros H. rewrite tsum_insert by done.
  pose proof (H t) as Ht. unfold tval in Ht. rewrite lookup_insert_eq in Ht. cbn in Ht. rewrite Ht, IH; [lia|].
  intros u. specialize (H u). unfold tval in *. rewrite lookup_insert in H. case_decide; [subst; by rewrite E|done].
Qed.

Lemma tval_delete f m t u : tval f (delete t m) u = if decide (t = u) then 0 else tval f m u.
Proof. unfold tval. rewrite lookup_delete. by case_decide. Qed.

Lemma tsum_ext f g m m' : (forall t, tval f m t = tval g m' t) -> tsum f m = tsum g m'.
Proof.
  revert m'. induction m as [|t th m E IH] using map_ind; intros m' H.
  - rewrite (tsum_zero g m'); [done|]. intros t. by rewrite <- H.
  - rewrite tsum_insert, (tsum_delete g m' t), <- H by done. unfold tval at 1. rewrite lookup_insert_eq. cbn. f_equal.
    apply IH. intros u. specialize (H u). rewrite tval_delete. unfold tval in *. rewrite lookup_insert in H.
    case_decide; [subst; by rewrite E|done].
Qed.

(** Two maps that agree but at [t]. *)
Lemma tsum_local f m m' t : (forall u, u <> t -> tval f m u = tval f m' u) -> tsum f m' = tsum f m + tval f m' t - tval f m t.
Proof.
  intros H. rewrite (tsum_delete f m t), (tsum_delete f m' t).
  rewrite (tsum_ext f f (delete t m') (delete t m)); [lia|]. intros u. rewrite !tval_delete.
  case_decide; [done|]. symmetry. apply H. congruence.
Qed.

Lemma tsum_nonneg f m : (forall t th, m !! t = Some th -> 0 <= f th) -> 0 <= tsum f m.
Proof.
  induction m as [|t th m E IH] using map_ind; intros H; [done|]. rewrite tsum_insert by done.
  pose proof (H t th (lookup_insert_eq _ _ _)). enough (0 <= tsum f m) by lia. apply IH. intros u uth Eu.
  apply (H u). rewrite lookup_insert_ne; [done|]. congruence.
Qed.

Lemma tsum_member f m t th : (forall t th, m !! t = Some th -> 0 <= f th) -> m !! t = Some th ->
  f th <= tsum f m.
Proof.
  intros H E. rewrite (tsum_delete f m t). unfold tval. rewrite E. cbn.
  enough (0 <= tsum f (delete t m)) by lia. apply tsum_nonneg. intros u uth [_ Eu]%lookup_delete_Some. by eapply H.
Qed.

Lemma tsum_two f m t u th uth : (forall t th, m !! t = Some th -> 0 <= f th) -> m !! t = Some th -> m !! u = Some uth ->
  t <> u -> f th + f uth <= tsum f m.
Proof.
  intros H E Eu Hne. rewrite (tsum_delete f m t). unfold tval. rewrite E. cbn.
  enough (f uth <= tsum f (delete t m)) by lia. apply (tsum_member f (delete t m) u).
  - intros x xth [_ Ex]%lookup_delete_Some. by eapply H.
  - by rewrite lookup_delete_ne.
Qed.

Lemma tsum_pos f m : 0 < tsum f m -> exists t th, m !! t = Some th /\ 0 < f th.
Proof.
  induction m as [|t th m E IH] using map_ind; [done|]. rewrite tsum_insert by done. intros H.
  destruct (decide (0 < f th)); [exists t, th; by rewrite lookup_insert_eq|].
  destruct IH as (u & uth & Eu & Hu); [lia|]. exists u, uth. rewrite lookup_insert_ne by congruence. done.
Qed.

(** ** What a thread still has to do *)

(** Units of lock [l] that [o] accounts for: taken but not recorded in [lock->holder], or
    removed from there and not given back.  A thread inside [sema_down] has the unit its
    [KHold] speaks of still to take. *)
Definition unit_of (l : Z) (o : op) : Z :=
  match o with
  | KHold x => if decide (x = l) then 1 else 0
  | KUp s => if decide (s = SLock l) then 1 else 0
  | KDown s _ => if decide (s = SLock l) then -1 else 0
  | _ => 0
  end.
Fixpoint units (l : Z) (c : list op) : Z :=
  match c with
  | [] | OExit :: _ => 0
  | o :: c => unit_of l o + units l c
  end.

(** [th] was woken up from [sema_down (s)] and is to test the value again. *)
Definition retries (s : sid) th : Z := if decide (status th <> THREAD_BLOCKED /\ reason (code th) = WSema s) then 1 else 0.

Fixpoint nodown (c : list op) : bool :=
  match c with [] => true | KDown _ _ :: _ => false | _ :: c => nodown c end.
Fixpoint tids_ok (c : list op) : Prop :=
  match c with [] => True | KTid t :: c => t ∈ targets c /\ tids_ok c | _ :: c => tids_ok c end.
Record shape (c : list op) : Prop := {
  sh_down : nodown (tl c) = true;
  sh_tids : tids_ok c;
  sh_lock : forall l old c', c = KDown (SLock l) old :: c' -> hd_error c' = Some (KHold l)
}.

(** What [o], in the code of [t], refers to exists. *)
Definition refers k (t : Z) (o : op) : Prop :=
  match o with
  | KDown s _ | KUp s => is_Some (semas (sync k) !! s)
  | KWaiter => is_Some (semas (sync k) !! SWaiter t)
  | KHold l => is_Some (holders (sync k) !! l)
  | _ => True
  end.

Record tok k (t : Z) th : Prop := {
  t_ref : Forall (refers k t) (code th);
  t_shape : shape (code th);
  t_dead : status th = THREAD_DYING -> code th = []
}.

Definition held (h : option Z) : Z := match h with Some _ => 1 | None => 0 end.

(** The invariant, up to [d l] units of lock [l] and [e s] of semaphore [s] that the
    operation in progress has still to account for. *)
Record sinv (d : Z -> Z) (e : sid -> Z) k : Prop := {
  s_tok : forall t th, threads k !! t = Some th -> tok k t th;
  s_conds : forall (c : Z) (ws : list sid) s, conds (sync k) !! c = Some ws -> s ∈ ws -> exists t, s = SWaiter t /\ is_Some (semas (sync k) !! s);
  s_value : forall s v, semas (sync k) !! s = Some v -> 0 <= value v < 2 ^ 32;
  s_locks : forall l : Z, is_Some (semas (sync k) !! SLock l) <-> is_Some (holders (sync k) !! l);
  s_lock : forall (l : Z) v (h : option Z), semas (sync k) !! SLock l = Some v -> holders (sync k) !! l = Some h ->
    value v + held h + tsum (fun th => units l (code th)) (threads k) = 1 + d l;
  s_wake : forall s v, semas (sync k) !! s = Some v -> waiters v <> [] ->
    value v <= tsum (retries s) (threads k) + e s;
  s_sorted : StronglySorted (fun a b => wake_of k a <= wake_of k b) (sleeping_list k)
}.

Lemma sinv_ext d e d' e' k : (forall l, d l = d' l) -> (forall s, e s <= e' s) -> sinv d e k -> sinv d' e' k.
Proof.
  intros Hd He []. split; try done.
  - intros l v h Ev Eh. rewrite <- Hd. by apply s_lock0.
  - intros s v Ev Hw. specialize (s_wake0 s v Ev Hw). specialize (He s). lia.
Qed.

Lemma sinv_same d e k k' : threads k' = threads k -> sync k' = sync k -> sleeping_list k' = sleeping_list k ->
  sinv d e k -> sinv d e k'.
Proof.
  intros E1 E2 E3 []. split; rewrite ?E1, ?E2, ?E3; try done.
  - intros t th Et. destruct (s_tok0 t th Et) as [R S D]. split; [|done|done].
    eapply Forall_impl; [exact R|]. intros o. unfold refers. by rewrite E2.
  - unfold wake_of. rewrite E1. exact s_sorted0.
Qed.

Lemma tok_mono k k' t th : (forall s, is_Some (semas (sync k) !! s) -> is_Some (semas (sync k') !! s)) ->
  (forall l : Z, is_Some (holders (sync k) !! l) -> is_Some (holders (sync k') !! l)) -> tok k t th -> tok k' t th.
Proof.
  intros Hs Hh [R S D]. split; [|done|done]. eapply Forall_impl; [exact R|]. intros o. unfold refers. destruct o; auto.
Qed.

Lemma wake_sorted k k' l : (forall a, a ∈ l -> wake_of k' a = wake_of k a) ->
  StronglySorted (fun a b => wake_of k a <= wake_of k b) l -> StronglySorted (fun a b => wake_of k' a <= wake_of k' b) l.
Proof.
  intros H. induction l as [|a l IH]; [constructor|]. intros S%StronglySorted_inv. destruct S as [S F].
  constructor; [apply IH; [intros; apply H; set_solver|done]|]. rewrite Forall_forall in *. intros b Hb.
  rewrite !H by set_solver. by apply F.
Qed.

(** *** Primitive changes *)

(** Thread [t] changes to [th'], or is added. *)
Lemma sinv_thread d e k k' t th' :
  sinv d e k -> threads k' = <[t := th']> (threads k) -> sync k' = sync k -> sleeping_list k' = sleeping_list k ->
  tok k t th' -> (t ∉ sleeping_list k \/ exists th, threads k !! t = Some th /\ tick_to_wake th' = tick_to_wake th) ->
  sinv (fun l => d l + units l (code th') - tval (fun th => units l (code th)) (threads k) t)
       (fun s => e s - retries s th' + tval (retries s) (threads k) t) k'.
Proof.
  intros [] ET ES EL HT HW.
  assert (TS : forall f, tsum f (threads k') = tsum f (threads k) + f th' - tval f (threads k) t).
  { intros f. rewrite (tsum_local f (threads k) (threads k') t).
    - rewrite ET. unfold tval at 1. by rewrite lookup_insert_eq.
    - intros u Hu. rewrite ET. unfold tval. by rewrite lookup_insert_ne. }
  split; rewrite ?ES, ?EL; try done.
  - intros u uth. rewrite ET, lookup_insert. intros Eu. apply (tok_mono k); [by rewrite ES|by rewrite ES|].
    case_decide; simplify_eq; [done|by apply s_tok0].
  - intros l v h Ev Eh. rewrite TS, <- Z.add_sub_assoc, Z.add_assoc, (s_lock0 l v h Ev Eh). lia.
  - intros s v Ev Hw. rewrite TS. specialize (s_wake0 s v Ev Hw). lia.
  - eapply wake_sorted; [|exact s_sorted0]. intros a Ha. unfold wake_of. rewrite ET, lookup_insert.
    case_decide; [subst|done]. destruct HW as [?|(th & E & Hw)]; [done|]. by rewrite E, Hw.
Qed.

(** Semaphore [s] changes from [v] to [v']. *)
Lemma sinv_sema d e e' k k' s v v' :
  sinv d e k -> semas (sync k) !! s = Some v ->
  threads k' = threads k -> sync k' = Sync (<[s := v']> (semas (sync k))) (holders (sync k)) (conds (sync k)) ->
  sleeping_list k' = sleeping_list k -> 0 <= value v' < 2 ^ 32 -> (forall x, x <> s -> e x <= e' x) ->
  (waiters v' <> [] -> value v' <= e' s \/ (waiters v <> [] /\ value v' - value v <= e' s - e s)) ->
  sinv (fun l => d l + (if decide (s = SLock l) then value v' - value v else 0)) e' k'.
Proof.
  intros [] Ev ET ES EL HV HX HW.
  assert (LK : forall x, <[s := v']> (semas (sync k)) !! x = if decide (s = x) then Some v' else semas (sync k) !! x)
    by (intros; apply lookup_insert).
  assert (DM : forall x, is_Some (semas (sync k) !! x) <-> is_Some (<[s := v']> (semas (sync k)) !! x)).
  { intros x. rewrite LK. case_decide; [subst; rewrite Ev|]; split; eauto. }
  split; rewrite ?ES, ?EL; kfields; try done.
  - intros u uth. rewrite ET. intros Eu. apply (tok_mono k); [rewrite ES; kfields; apply DM|by rewrite ES|by apply s_tok0].
  - intros c ws x Ec Hx. destruct (s_conds0 c ws x Ec Hx) as (t & -> & Ht). exists t. by rewrite <- DM.
  - intros x vx. rewrite LK. case_decide; [by intros [= <-]|apply s_value0].
  - intros l. rewrite <- DM. apply s_locks0.
  - intros l vx h. rewrite LK, ET. case_decide as El; [subst; intros [= <-] Eh|intros Ex Eh].
    + specialize (s_lock0 l v h Ev Eh). lia.
    + specialize (s_lock0 l vx h Ex Eh). lia.
  - intros x vx. rewrite LK, ET. case_decide as El; [subst; intros [= <-]|]; intros Ex.
    + destruct (HW Ex) as [Hv|[Hn Hv]]; [|specialize (s_wake0 x v Ev Hn); lia].
      assert (0 <= tsum (retries x) (threads k)); [|lia].
      apply tsum_nonneg. intros t th _. unfold retries. by case_decide.
    + intros Hw. specialize (s_wake0 x vx Ex Hw). specialize (HX x ltac:(congruence)). lia.
  - unfold wake_of. by rewrite ET.
Qed.

(** Semaphore [s], not a lock's, is (re)initialized; nobody waits on it. *)
Lemma sinv_sema_init d e k k' s n :
  sinv d e k -> (forall l, s <> SLock l) -> 0 <= n < 2 ^ 32 ->
  threads k' = threads k -> sync k' = Sync (<[s := Sema n []]> (semas (sync k))) (holders (sync k)) (conds (sync k)) ->
  sleeping_list k' = sleeping_list k -> sinv d e k'.
Proof.
  intros [] Hs Hn ET ES EL.
  assert (LK : forall x, <[s := Sema n []]> (semas (sync k)) !! x = if decide (s = x) then Some (Sema n []) else semas (sync k) !! x)
    by (intros; apply lookup_insert).
  assert (DM : forall x, is_Some (semas (sync k) !! x) -> is_Some (<[s := Sema n []]> (semas (sync k)) !! x)).
  { intros x. rewrite LK. case_decide; eauto. }
  split; rewrite ?ES, ?EL; kfields; try done.
  - intros u uth. rewrite ET. intros Eu. apply (tok_mono k); [rewrite ES; kfields; apply DM|by rewrite ES|by apply s_tok0].
  - intros c ws x Ec Hx. destruct (s_conds0 c ws x Ec Hx) as (t & -> & Ht). eauto.
  - intros x vx. rewrite LK. case_decide; [by intros [= <-]|apply s_value0].
  - intros l. rewrite LK, decide_False by done. apply s_locks0.
  - intros l vx h. rewrite LK, ET, decide_False by done. apply s_lock0.
  - intros x vx. rewrite LK, ET. case_decide as El; [by intros [= <-]|]. apply s_wake0.
  - unfold wake_of. by rewrite ET.
Qed.

Lemma sinv_holder d e k k' l h h' :
  sinv d e k -> holders (sync k) !! l = Some h -> threads k' = threads k ->
  sync k' = Sync (semas (sync k)) (<[l := h']> (holders (sync k))) (conds (sync k)) -> sleeping_list k' = sleeping_list k ->
  sinv (fun x => d x + (if decide (l = x) then held h' - held h else 0)) e k'.
Proof.
  intros [] Eh ET ES EL.
  assert (DM : forall x : Z, is_Some (holders (sync k) !! x) <-> is_Some (<[l := h']> (holders (sync k)) !! x)).
  { intros x. rewrite lookup_insert. case_decide; [subst; rewrite Eh|]; split; eauto. }
  split; rewrite ?ES, ?EL; kfields; try done.
  - intros u uth. rewrite ET. intros Eu. apply (tok_mono k); [by rewrite ES|rewrite ES; kfields; apply DM|by apply s_tok0].
  - intros x. rewrite <- DM. apply s_locks0.
  - intros x v hx Ev. rewrite lookup_insert, ET. case_decide as El; [subst; intros [= <-]|intros Ex].
    + specialize (s_lock0 x v h Ev Eh). lia.
    + specialize (s_lock0 x v hx Ev Ex). lia.
  - by rewrite ET.
  - unfold wake_of. by rewrite ET.
Qed.

Lemma sinv_cond d e k k' c ws :
  sinv d e k -> (forall s, s ∈ ws -> exists t, s = SWaiter t /\ is_Some (semas (sync k) !! s)) -> threads k' = threads k ->
  sync k' = Sync (semas (sync k)) (holders (sync k)) (<[c := ws]> (conds (sync k))) -> sleeping_list k' = sleeping_list k ->
  sinv d e k'.
Proof.
  intros [] Hws ET ES EL. split; rewrite ?ES, ?EL; kfields; try done.
  - intros u uth. rewrite ET. intros Eu. apply (tok_mono k); [by rewrite ES|by rewrite ES|by apply s_tok0].
  - intros c' ws' s. rewrite lookup_insert. case_decide; [intros [= <-]; apply Hws|apply s_conds0].
  - by rewrite ET.
  - by rewrite ET.
  - unfold wake_of. by rewrite ET.
Qed.

Lemma sinv_sleep d e k k' :
  sinv d e k -> threads k' = threads k -> sync k' = sync k ->
  StronglySorted (fun a b => wake_of k a <= wake_of k b) (sleeping_list k') -> sinv d e k'.
Proof.
  intros [] ET ES HS. split; rewrite ?ES, ?ET; try done.
  - intros t th Et. apply (tok_mono k); [by rewrite ES|by rewrite ES|by apply s_tok0].
  - unfold wake_of. by rewrite ET.
Qed.

(** The scheduler switches: threads change between ready and running, and a thread that
    has exited goes. *)
Lemma sinv_switched e d k k' : sinv d e k -> switched k k' ->
  (forall i ith, idle_thread k = Some i -> threads k !! i = Some ith -> forall s, reason (code ith) <> WSema s) ->
  (forall t, t ∈ sleeping_list k -> exists th, threads k !! t = Some th /\ status th <> THREAD_DYING) ->
  sinv d e k'.
Proof.
  intros [] [] HI HL.
  assert (TV : forall f : thread -> Z, (forall th, code th = [] -> f th = 0) ->
    (forall t th th', threads k !! t = Some th -> threads k' !! t = Some th' -> f th' = f th) ->
    tsum f (threads k') = tsum f (threads k)).
  { intros f Hd Hf. apply tsum_ext. intros t. unfold tval. destruct (threads k' !! t) as [th'|] eqn:E'.
    - destruct (sw_thread0 t th' E') as (th & E & _). rewrite E. cbn. by eapply Hf.
    - destruct (threads k !! t) as [th|] eqn:E; [|done]. cbn. symmetry. apply Hd, (t_dead _ _ _ (s_tok0 t th E)).
      destruct (decide (status th = THREAD_DYING)) as [|Hn]; [done|]. destruct (sw_live0 t th E Hn) as [? ?]. congruence. }
  assert (HC : forall t th th', threads k !! t = Some th -> threads k' !! t = Some th' ->
    code th' = code th /\ tick_to_wake th' = tick_to_wake th).
  { intros t th th' E E'. destruct (sw_thread0 t th' E') as (th2 & E2 & [-> | ->]); by simplify_eq. }
  split; rewrite ?sw_sync0, ?sw_sleep0; try done.
  - intros t th' E'. apply (tok_mono k); [by rewrite sw_sync0|by rewrite sw_sync0|].
    destruct (sw_thread0 t th' E') as (th & E & [-> | ->]); [by apply s_tok0|]. by destruct (s_tok0 t th E) as [R S D].
  - intros l v h Ev Eh. rewrite TV; [by apply s_lock0|by intros th ->|]. intros t th th' E E'. by destruct (HC t th th' E E') as [-> _].
  - intros s v Ev Hw. rewrite TV; [by apply s_wake0| |].
    + intros th Hc. unfold retries. rewrite Hc, decide_False; [done|]. by intros [_ ?].
    + intros t th th' E E'. unfold retries. destruct (HC t th th' E E') as [-> _].
      destruct (decide (idle_thread k = Some t)) as [Hi|Hi].
      * rewrite !decide_False; [done|..]; intros [_ ?]; by eapply HI.
      * pose proof (sw_blocked0 t th th' E E' Hi). do 2 case_decide; tauto.
  - eapply wake_sorted; [|exact s_sorted0]. intros t Ht. destruct (HL t Ht) as (th & E & Hd). unfold wake_of. rewrite E.
    destruct (sw_live0 t th E Hd) as [th' E']. rewrite E'. by apply (HC t).
Qed.

(** ** The whole invariant *)

(** The idle thread has its loop to go back to. *)
Definition loops (c : list op) : Prop := exists pre o, c = pre ++ [o] /\ (o = KIdleLoop \/ o = KIdleHlt).

Record inv k : Prop := {
  i_c : cinv (Some (current k)) None k;
  i_s : sinv (fun _ => 0) (fun _ => 0) k;
  i_ext : in_external_intr (cpu k) = false;
  i_idle : forall i ith, idle_thread k = Some i -> threads k !! i = Some ith -> loops (code ith);
  i_off : forall th s old c, threads k !! current k = Some th -> code th = KDown s old :: c -> intr_on (cpu k) = INTR_OFF
}.

(** The current thread [th] is in the middle of an operation. *)
Record mid (d : Z -> Z) (e : sid -> Z) th k : Prop := {
  m_c : cinv (Some (current k)) None k;
  m_s : sinv d e k;
  m_th : threads k !! current k = Some th;
  m_ext : in_external_intr (cpu k) = false;
  m_idle : forall i ith, idle_thread k = Some i -> i <> current k -> threads k !! i = Some ith -> loops (code ith);
  m_down : nodown (code th) = true
}.

Lemma mid_done d e th k : mid d e th k -> (forall l, d l = 0) -> (forall s, e s <= 0) ->
  (idle_thread k = Some (current k) -> loops (code th)) -> inv k.
Proof.
  intros [] Hd He HI. split; [done|by eapply sinv_ext|done|..].
  - intros i ith Ei Et. destruct (decide (i = current k)) as [->|]; [simplify_eq; auto|eauto].
  - intros th' s old c E Hc. simplify_eq. by rewrite Hc in m_down0.
Qed.

Lemma idle_reason k i ith s : cinv (Some (current k)) None k \/ (exists dy, cinv None dy k) ->
  idle_thread k = Some i -> threads k !! i = Some ith -> reason (code ith) <> WSema s.
Proof.
  intros C Ei E. assert (O : okthread (idle_thread k) i ith) by (destruct C as [C|[dy C]]; by eapply c_ok).
  destruct O as [_ O]. rewrite decide_True in O by done. destruct O as (pre & suf & -> & F & S).
  destruct pre as [|o pre]; [by destruct S as [->|[->| ->]]|]. apply Forall_cons in F as [Ho _]. by destruct o.
Qed.

Lemma wp_switch F dy kb cth : cinv None dy kb -> sinv (fun _ => 0) (fun _ => 0) kb ->
  threads kb !! current kb = Some cth -> (dy = None \/ (dy = Some (current kb) /\ status cth = THREAD_DYING)) ->
  in_external_intr (cpu kb) = false -> intr_on (cpu kb) = INTR_OFF ->
  (forall i ith, idle_thread kb = Some i -> threads kb !! i = Some ith -> loops (code ith)) ->
  wp F schedule (fun _ k' => inv k' /\ switched kb k') kb.
Proof.
  intros C S E Hdy HE HL HI. eapply wp_schedule; [exact C|done|exact E|done|done|]. intros k' C' SW. split; [|done].
  split; [done| |by rewrite (sw_ext _ _ SW)| |].
  - eapply sinv_switched; [exact S|exact SW|..].
    + intros i ith Ei Et s. eapply (idle_reason kb); eauto.
    + intros t Ht. apply (c_sleep _ _ _ C) in Ht as (th & Et & B & _). exists th. split; [done|congruence].
  - intros i ith' Ei Et'. rewrite (sw_idle _ _ SW) in Ei. destruct (sw_thread _ _ SW i ith' Et') as (ith & Et & [-> | ->]); cbn; by eapply HI.
  - intros. apply (sw_level _ _ SW).
Qed.

Lemma wp_block F k th2 : threads k !! current k = Some th2 -> status th2 = THREAD_RUNNING -> magic th2 = THREAD_MAGIC ->
  in_external_intr (cpu k) = false -> intr_on (cpu k) = INTR_OFF ->
  (forall i ith, idle_thread k = Some i -> threads k !! i = Some ith -> loops (code ith)) ->
  cinv None None (upd_thread (current k) (with_status THREAD_BLOCKED) k) ->
  sinv (fun _ => 0) (fun _ => 0) (upd_thread (current k) (with_status THREAD_BLOCKED) k) ->
  wp F thread_block (fun _ => inv) k.
Proof.
  intros E HS HM HE HL HI C S. unfold thread_block.
  apply wp_bind, wp_gets, wp_bind, wp_assert; [intros _|by rewrite HE].
  apply wp_bind, wp_gets, wp_bind, wp_assert; [intros _|by rewrite HL].
  apply wp_bind. eapply wp_thread_current; [exact E|done|done|].
  apply wp_bind. eapply wp_set_status; [exact E|]. 
  apply (wp_mono F _ (fun _ k' => inv k' /\ switched (upd_thread (current k) (with_status THREAD_BLOCKED) k) k')); [by intros _ k' [H _]|].
  eapply (wp_switch F None _ (with_status THREAD_BLOCKED th2)); kfields; try done.
  - by rewrite lookup_alter_eq, E.
  - by left.
  - intros i ith Ei. rewrite lookup_alter. case_decide as Hc; [|eauto].
    rewrite E. intros [= <-]. cbn. apply (HI i); congruence.
Qed.

(** *** Changes in the middle of an operation *)

Definition no_exit (c : list op) : bool := forallb (fun o => match o with OExit => false | _ => true end) c.

Lemma units_app l ops c : no_exit ops = true -> units l (ops ++ c) = units l ops + units l c.
Proof. induction ops as [|o ops IH]; [done|]. cbn. intros [Ho Hr]%andb_true_iff. destruct o; try done; rewrite IH by done; lia. Qed.
Lemma nodown_app c c' : nodown (c ++ c') = nodown c && nodown c'.
Proof. induction c as [|o c IH]; [done|]. by destruct o. Qed.
Lemma targets_app c c' : targets (c ++ c') = targets c ++ targets c'.
Proof. apply omap_app. Qed.
Lemma nodown_retries s th : nodown (code th) = true -> retries s th = 0.
Proof. intros H. unfold retries. rewrite decide_False; [done|]. intros [_ R]. destruct (code th) as [|[] ?]; done. Qed.
Lemma nodown_shape c : nodown c = true -> tids_ok c -> shape c.
Proof. intros H T. split; [by destruct c as [|[] ?]|done|]. by intros l old c' ->. Qed.

Lemma tval_some f m (t : Z) th : m !! t = Some th -> tval f m t = f th.
Proof. unfold tval. by intros ->. Qed.

Lemma mid_frame d e d' e' th k k' : mid d e th k -> threads k' = threads k -> current k' = current k ->
  idle_thread k' = idle_thread k -> in_external_intr (cpu k') = in_external_intr (cpu k) ->
  cinv (Some (current k)) None k' -> sinv d' e' k' -> mid d' e' th k'.
Proof. intros [] ET EC EI EE C S. split; rewrite ?EC, ?ET, ?EI, ?EE; done. Qed.

Lemma mid_same d e th k k' : mid d e th k -> threads k' = threads k -> current k' = current k ->
  idle_thread k' = idle_thread k -> in_external_intr (cpu k') = in_external_intr (cpu k) ->
  ready_list k' = ready_list k -> sleeping_list k' = sleeping_list k -> sync k' = sync k ->
  initial_thread k' = initial_thread k -> mid d e th k'.
Proof.
  intros M ET EC EI EE ER EL ES EN. eapply mid_frame; try done.
  - eapply cinv_same; [..|apply (m_c _ _ _ _ M)]; congruence.
  - eapply sinv_same; [..|apply (m_s _ _ _ _ M)]; congruence.
Qed.

Lemma mid_thread d e th k th' k' : mid d e th k -> threads k' = <[current k := th']> (threads k) -> current k' = current k ->
  idle_thread k' = idle_thread k -> in_external_intr (cpu k') = in_external_intr (cpu k) ->
  ready_list k' = ready_list k -> sleeping_list k' = sleeping_list k -> sync k' = sync k ->
  initial_thread k' = initial_thread k ->
  status th' = status th -> magic th' = magic th ->
  (if decide (idle_thread k = Some (current k)) then idle_code (code th') else Forall (okop (current k)) (code th')) ->
  Forall (refers k (current k)) (code th') -> nodown (code th') = true -> tids_ok (code th') ->
  (forall u, u ∈ targets (code th') -> u ∈ targets (code th) \/
    (u <> current k /\ (exists uth, threads k !! u = Some uth /\ status uth = THREAD_BLOCKED /\ reason (code uth) = WNew) /\
     forall w wth, threads k !! w = Some wth -> u ∉ targets (code wth))) ->
  NoDup (targets (code th')) ->
  mid (fun l => d l + units l (code th') - units l (code th)) e th' k'.
Proof.
  intros [] ET EC EI EE ER EL ES EN HS HM HO HR HD HT HU HN.
  destruct (run_lookup _ _ _ m_c0) as (th0 & E0 & SR & MG). simplify_eq.
  split; rewrite ?EC, ?EI, ?EE, ?ET; try done.
  - eapply (cinv_edit None k k' _ th th' m_c0); try done; [congruence|congruence|]. split; [congruence|done].
  - eapply sinv_ext; [| |eapply (sinv_thread d e k k' (current k) th' m_s0 ET ES EL)].
    + intros l. cbn. by rewrite (tval_some _ _ _ th).
    + intros s. cbn. rewrite (tval_some _ _ _ th), !nodown_retries by done. lia.
    + split; [done|by apply nodown_shape|congruence].
    + left. by apply (run_nowhere _ _ _ m_c0).
  - by rewrite lookup_insert_eq.
  - intros i ith Ei Hi. rewrite lookup_insert_ne by done. by apply m_idle0.
Qed.

Lemma mid_push d e th k ops :
  mid d e th k -> nodown ops = true -> no_exit ops = true ->
  (idle_thread k <> Some (current k) -> Forall (okop (current k)) ops) ->
  (idle_thread k = Some (current k) -> idle_code (ops ++ code th)) ->
  Forall (refers k (current k)) ops -> (tids_ok (code th) -> tids_ok (ops ++ code th)) ->
  (forall u, u ∈ targets ops -> u <> current k /\
    (exists uth, threads k !! u = Some uth /\ status uth = THREAD_BLOCKED /\ reason (code uth) = WNew) /\
     forall w wth, threads k !! w = Some wth -> u ∉ targets (code wth)) -> NoDup (targets ops) ->
  mid (fun l => d l + units l ops) e (with_code (ops ++ code th) th) (push_code ops k).
Proof.
  intros M HD HE HO HI HR HT HU HN. pose proof M as []. destruct (s_tok _ _ _ m_s0 _ _ m_th0) as [R [_ T _] _].
  enough (M' : mid (fun l => d l + units l (code (with_code (ops ++ code th) th)) - units l (code th)) e
    (with_code (ops ++ code th) th) (push_code ops k)).
  { destruct M'. split; try done. eapply sinv_ext; [..|exact m_s1]; intros; cbn; [rewrite units_app by done|]; lia. }
  eapply (mid_thread _ _ _ _ _ _ M); try done; kfields.
  - by rewrite (alter_insert_eq _ _ th).
  - destruct (c_ok _ _ _ m_c0 _ _ m_th0) as [_ OC]. case_decide; [by apply HI|]. apply Forall_app. auto.
  - by apply Forall_app.
  - by rewrite nodown_app, HD.
  - by apply HT.
  - intros u. rewrite targets_app, elem_of_app. intros [Hu|Hu]; [right; by apply HU|by left].
  - rewrite targets_app. apply NoDup_app. split; [done|]. split; [|by apply (c_new_nodup _ _ _ m_c0 _ _ m_th0)].
    intros u Hu Hu'. destruct (HU u Hu) as (_ & _ & Hn). by apply (Hn _ _ m_th0).
Qed.

Lemma mid_value d e th k s v n :
  mid d e th k -> semas (sync k) !! s = Some v -> 0 <= n < 2 ^ 32 ->
  mid (fun l => d l + (if decide (s = SLock l) then n - value v else 0))
      (fun x => e x + (if decide (s = x) then n - value v else 0)) th (set_sema s (Sema n (waiters v)) k).
Proof.
  intros M Ev Hn. pose proof M as []. eapply (mid_frame _ _ _ _ _ _ _ M); try done.
  - eapply (cinv_value _ _ k _ s v n m_c0); done.
  - eapply (sinv_sema d e _ k _ s v (Sema n (waiters v)) m_s0); try done; cbn.
    + intros x Hx. rewrite decide_False by done. lia.
    + rewrite decide_True by done. intros Hw. right. split; [done|lia].
Qed.

Lemma mid_holder d e th k l h h' :
  mid d e th k -> holders (sync k) !! l = Some h ->
  mid (fun x => d x + (if decide (l = x) then held h' - held h else 0)) e th (set_holder l h' k).
Proof.
  intros M Eh. pose proof M as []. eapply (mid_frame _ _ _ _ _ _ _ M); try done.
  - eapply cinv_same; [..|exact m_c0]; done.
  - eapply (sinv_holder d e k _ l h h' m_s0); done.
Qed.

Lemma mid_upped d e th k s v :
  mid d e th k -> semas (sync k) !! s = Some v ->
  mid (fun l => d l + (if decide (s = SLock l) then u32 (value v + 1) - value v else 0)) e th (upped s v k).
Proof.
  intros M Ev. pose proof M as []. pose proof (s_value _ _ _ m_s0 s v Ev) as HV.
  assert (U : 0 <= u32 (value v + 1) < 2 ^ 32 /\ u32 (value v + 1) <= value v + 1).
  { unfold u32. pose proof (Z.mod_pos_bound (value v + 1) (2 ^ 32) ltac:(lia)). split; [done|]. apply Z.mod_le; lia. }
  destruct U as [U1 U2]. pose proof (cinv_upped _ k s v m_c0 Ev) as C'. unfold upped in *.
  destruct (waiters v) as [|t ws] eqn:EW.
  - eapply (mid_frame _ _ _ _ _ _ _ M); try done.
    eapply (sinv_sema d e e k _ s v (Sema (u32 (value v + 1)) []) m_s0); try done.
  - assert (Ht : t ∈ waiters v) by (rewrite EW; set_solver).
    apply (c_wait _ _ _ m_c0 s v t Ev) in Ht as (tth & Et & Bt & Rt).
    assert (Hc : t <> current k) by (intros ->; destruct (run_lookup _ _ _ m_c0) as (? & ? & ? & _); congruence).
    set (k1 := upd_thread t (with_status THREAD_READY) (set_ready (ready_list k ++ [t]) k)) in *.
    assert (S1 : sinv d (fun x => e x - if decide (s = x) then 1 else 0) k1).
    { eapply sinv_ext; [| |eapply (sinv_thread d e k k1 t (with_status THREAD_READY tth) m_s0); try done].
      - intros l. cbn. rewrite (tval_some _ _ _ tth) by done. lia.
      - intros x. cbn. rewrite (tval_some _ _ _ tth) by done. unfold retries. cbn. rewrite Bt, Rt.
        rewrite (decide_False (P := THREAD_BLOCKED <> THREAD_BLOCKED /\ _)) by tauto.
        destruct (decide (s = x)); [subst; rewrite decide_True by done|rewrite decide_False by naive_solver]; lia.
      - cbn. by apply alter_insert_eq.
      - destruct (s_tok _ _ _ m_s0 _ _ Et) as [R S D]. by split.
      - right. by exists tth. }
    split; try done; kfields.
    + eapply (sinv_sema d _ e k1 _ s v (Sema (u32 (value v + 1)) ws) S1); try done; cbn; [intros x Hx; rewrite decide_False by done; lia|].
      intros _. right. rewrite EW, decide_True by done. split; [done|lia].
    + unfold k1. kfields. by rewrite lookup_alter_ne.
    + unfold k1. kfields. intros i ith Ei Hi. rewrite lookup_alter. case_decide as Hti; [|by apply m_idle0]. rewrite Et. intros [= <-]. cbn.
      eapply m_idle0; [exact Ei|done|congruence].
Qed.

Lemma units_nodown l c : nodown c = true -> 0 <= units l c.
Proof.
  induction c as [|o c IH]; [done|]. intros H. destruct o; try done; cbn in *; specialize (IH H); repeat case_decide; lia.
Qed.
Lemma units_nonneg l c : shape c -> 0 <= units l c.
Proof.
  intros [H1 _ H2]. destruct c as [|o c]; [done|]. cbn [tl] in H1. pose proof (units_nodown l c H1) as U.
  destruct o; try done; cbn; repeat case_decide; subst; try lia.
  specialize (H2 l old c eq_refl). destruct c as [|o c]; [done|]. injection H2 as ->. cbn in H1 |- *.
  pose proof (units_nodown l c H1). rewrite decide_True by done. lia.
Qed.

(** A lock's semaphore and its holder account for at most one unit. *)
Lemma lock_value d e k l v h : sinv d e k -> semas (sync k) !! SLock l = Some v -> holders (sync k) !! l = Some h ->
  value v + held h <= 1 + d l.
Proof.
  intros S Ev Eh. pose proof (s_lock _ _ _ S l v h Ev Eh) as H.
  assert (0 <= tsum (fun th => units l (code th)) (threads k)); [|lia].
  apply tsum_nonneg. intros t th E. apply units_nonneg, (t_shape _ _ _ (s_tok _ _ _ S t th E)).
Qed.

(** *** Leaving the processor *)

Lemma push_threads ops k th : threads k !! current k = Some th ->
  threads (push_code ops k) = <[current k := with_code (ops ++ code th) th]> (threads k).
Proof. intros E. exact (alter_insert_eq (fun x => with_code (ops ++ code x) x) _ _ _ E). Qed.

Lemma mid_current d e th k F (Q : Z -> kstate -> Prop) : mid d e th k -> Q (current k) k -> wp F thread_current Q k.
Proof.
  intros [] HQ. destruct (run_lookup _ _ _ m_c0) as (th0 & E0 & SR & MG). eapply wp_thread_current; done.
Qed.

Lemma mid_loops d e th k (m : gmap Z thread) th' : mid d e th k -> m = <[current k := th']> (threads k) ->
  (idle_thread k = Some (current k) -> loops (code th')) ->
  forall i ith, idle_thread k = Some i -> m !! i = Some ith -> loops (code ith).
Proof.
  intros [] -> HI i ith Ei. rewrite lookup_insert. case_decide as Hc; [intros [= <-]; apply HI; congruence|].
  intros Et. by eapply m_idle0.
Qed.

(** The loop of [sema_down]: whether the thread gets a unit or goes to sleep. *)
Lemma wp_down_loop F d e th k s v old :
  mid d e th k -> idle_thread k <> Some (current k) -> intr_on (cpu k) = INTR_OFF ->
  semas (sync k) !! s = Some v -> okop (current k) (KDown s old) ->
  (forall l, s = SLock l -> hd_error (code th) = Some (KHold l)) ->
  (forall l, d l = if decide (s = SLock l) then 1 else 0) -> (forall x, e x <= if decide (s = x) then 1 else 0) ->
  wp F (down_loop s old) (fun _ => inv) k.
Proof.
  intros M NI HL Ev HO HH Hd He. pose proof M as []. pose proof (s_value _ _ _ m_s0 s v Ev) as HV.
  destruct (run_lookup _ _ _ m_c0) as (th0 & E0 & SR & MG). simplify_eq.
  destruct (run_nowhere _ _ _ m_c0) as (_ & NS & _ & NT). destruct (s_tok _ _ _ m_s0 _ _ m_th0) as [TR [_ TT _] _].
  unfold down_loop. apply wp_bind. unfold wp at 1, get_sema, sema_alive. destruct HO as [HO HO']. rewrite Ev, HO.
  destruct (Z.eqb_spec (value v) 0) as [V0|V0].
  - apply wp_bind. eapply mid_current; [exact M|]. apply wp_bind, wp_modify, wp_bind, wp_modify.
    set (k2 := set_sema s (Sema (value v) (waiters v ++ [current k])) k).
    set (th' := with_code (KDown s old :: code th) th).
    assert (ET : threads (push_code [KDown s old] k2) = <[current k := th']> (threads k)) by exact (push_threads _ k2 th m_th0).
    assert (EB : threads (upd_thread (current k) (with_status THREAD_BLOCKED) (push_code [KDown s old] k2)) =
      <[current k := with_status THREAD_BLOCKED th']> (threads k)).
    { kfields. erewrite alter_insert_eq; [|rewrite ET; apply lookup_insert_eq]. by rewrite ET, insert_insert_eq. }
    eapply (wp_block F _ th'); try done; [by rewrite ET, lookup_insert_eq|by apply (mid_loops _ _ _ _ _ _ M ET)|..].
    + eapply (cinv_leave_code k _ (current k) th _ None m_c0 m_th0 EB); try done; cbn.
      * split; [done|]. destruct (c_ok _ _ _ m_c0 _ _ m_th0) as [_ OC]. rewrite decide_False in * by done. by constructor.
      * apply (c_new_nodup _ _ _ m_c0 _ _ m_th0).
      * rewrite decide_False by naive_solver. by rewrite app_nil_r.
      * intros x v'. rewrite lookup_insert. case_decide as Ex; [subst; intros [= <-]|intros Hx].
        -- exists v. split; [done|]. by rewrite decide_True.
        -- exists v'. split; [done|]. rewrite decide_False by naive_solver. by rewrite app_nil_r.
      * intros x [y Hy]. rewrite lookup_insert. case_decide; eauto.
      * intros x _ [= <-]. eauto.
      * rewrite decide_False by naive_solver. by rewrite app_nil_r.
    + eapply sinv_ext; [| |eapply (sinv_thread d (fun _ => 0) k2 _ (current k) (with_status THREAD_BLOCKED th'))]; try done.
      * intros l. cbn. rewrite (tval_some _ _ _ th), Hd by done. case_decide; lia.
      * intros x. cbn. rewrite (tval_some _ _ _ th), (nodown_retries x th) by done. unfold retries. cbn.
        rewrite decide_False by naive_solver. lia.
      * eapply sinv_ext; [| |eapply (sinv_sema d e (fun _ => 0) k k2 s v _ m_s0 Ev)]; try done; cbn.
        -- intros l. case_decide; lia.
        -- intros x Hx. specialize (He x). rewrite decide_False in He by congruence. done.
        -- intros _. left. lia.
      * split; [|split; [done|done|]|done]; cbn.
        -- constructor; [cbn; rewrite lookup_insert_eq; eauto|]. eapply Forall_impl; [exact TR|].
           intros o. unfold refers. cbn. destruct o; try done; intros [y Hy]; rewrite lookup_insert; case_decide; eauto.
        -- intros l old' c' [= Hs _ <-]. by apply HH.
      * by left.
  - apply wp_bind, wp_modify. pose proof (mid_value d e th k s v (u32 (value v - 1)) M Ev ltac:(apply u32_range)) as M'.
    assert (EU : u32 (value v - 1) = value v - 1) by (apply u32_small; unfold is_u32; lia). rewrite EU in *.
    apply wp_bind, wp_set_level; [by left|]. apply wp_ret.
    eapply (mid_done _ _ th); [eapply (mid_same _ _ _ _ _ M'); done|..]; cbn.
    + intros l. rewrite Hd. case_decide; lia.
    + intros x. specialize (He x). case_decide; lia.
    + done.
Qed.

Lemma loops_cons o c : loops c -> loops (o :: c).
Proof. intros (pre & x & -> & H). by exists (o :: pre), x. Qed.

Lemma idle_code_cons o c : match o with KLevel _ | KIret => True | _ => False end -> idle_code c -> idle_code (o :: c).
Proof. intros Ho (pre & suf & -> & F & S). exists (o :: pre), suf. split; [done|]. split; [by constructor|done]. Qed.

Lemma status_threads s t k th : threads k !! t = Some th ->
  threads (upd_thread t (with_status s) k) = <[t := with_status s th]> (threads k).
Proof. apply alter_insert_eq. Qed.

(** What a yield leaves alone. *)
Record settled k k' : Prop := {
  se_sleep : sleeping_list k' = sleeping_list k;
  se_ticks : ticks (clock k') = ticks (clock k);
  se_ready : forall t th, threads k !! t = Some th -> status th = THREAD_READY -> idle_thread k <> Some t ->
    exists th', threads k' !! t = Some th' /\ status th' <> THREAD_BLOCKED
}.

Lemma wp_yield F d e th k : mid d e th k -> (forall l, d l = 0) -> (forall s, e s <= 0) ->
  (idle_thread k = Some (current k) -> loops (code th)) -> wp F thread_yield (fun _ k' => inv k' /\ settled k k') k.
Proof.
  intros M Hd He HI. pose proof M as []. destruct (run_lookup _ _ _ m_c0) as (th0 & E0 & SR & MG). simplify_eq.
  destruct (run_nowhere _ _ _ m_c0) as (_ & NS & _ & _). destruct (s_tok _ _ _ m_s0 _ _ m_th0) as [TR [_ TT _] _].
  unfold thread_yield. apply wp_bind. eapply mid_current; [exact M|].
  apply wp_bind, wp_gets, wp_bind, wp_assert; [intros _|by rewrite m_ext0].
  apply wp_bind, wp_disable, wp_bind, wp_gets, wp_bind. kfields.
  set (old := intr_on (cpu k)).
  assert (HR : forall k1, threads k1 = threads k -> current k1 = current k -> sync k1 = sync k ->
    sleeping_list k1 = sleeping_list k -> idle_thread k1 = idle_thread k -> initial_thread k1 = initial_thread k ->
    in_external_intr (cpu k1) = false -> intr_on (cpu k1) = INTR_OFF -> ticks (clock k1) = ticks (clock k) ->
    ready_list k1 = ready_list k ++ (if decide (idle_thread k <> Some (current k)) then [current k] else []) ->
    wp F (do* set_status (current k) THREAD_READY; do* modify (push_code [KLevel old]); schedule)
      (fun _ k' => inv k' /\ settled k k') k1).
  { intros k1 ET EC ES EL EI EN EE EO EK ER. apply wp_bind. eapply wp_set_status; [by rewrite ET|]. apply wp_bind, wp_modify.
    set (th' := with_code (KLevel old :: code th) (with_status THREAD_READY th)).
    set (kb := push_code [KLevel old] (upd_thread (current k) (with_status THREAD_READY) k1)).
    assert (EB : threads kb = <[current k := th']> (threads k)).
    { assert (E1 : threads (upd_thread (current k) (with_status THREAD_READY) k1) =
        <[current k := with_status THREAD_READY th]> (threads k)) by (rewrite <- ET; apply status_threads; by rewrite ET).
      unfold kb. rewrite (push_threads _ _ (with_status THREAD_READY th)), E1; kfields; rewrite EC, ?E1;
        [by rewrite insert_insert_eq|by rewrite lookup_insert_eq]. }
    assert (CB : current kb = current k) by exact EC.
    apply (wp_mono F schedule (fun _ k' => inv k' /\ switched kb k')).
    { intros _ k' [I SW]. split; [done|]. split; [by rewrite (sw_sleep _ _ SW)|by rewrite (sw_ticks _ _ SW)|].
      intros t tth Et St Ht. assert (Etb : threads kb !! t = Some tth) by (rewrite EB, lookup_insert_ne; congruence).
      destruct (sw_live _ _ SW t tth Etb) as [th2 E2]; [congruence|]. exists th2. split; [done|].
      rewrite (sw_blocked _ _ SW t tth th2 Etb E2); [congruence|]. unfold kb. kfields. congruence. }
    eapply (wp_switch F None kb th'); try done.
    - eapply (cinv_leave_code k kb (current k) th th' None m_c0 m_th0 EB); try done; cbn.
      + destruct (c_ok _ _ _ m_c0 _ _ m_th0) as [_ OC]. split; [done|]. cbn.
        case_decide; [by apply idle_code_cons|by constructor].
      + apply (c_new_nodup _ _ _ m_c0 _ _ m_th0).
      + rewrite ER. destruct (decide (idle_thread k = Some (current k))).
        * rewrite decide_False, decide_False by naive_solver. done.
        * by rewrite decide_True, decide_True.
      + rewrite ES. intros s v Ev. exists v. split; [done|]. rewrite decide_False by naive_solver. by rewrite app_nil_r.
      + by rewrite ES.
      + rewrite EL, decide_False by naive_solver. by rewrite app_nil_r.
    - eapply sinv_ext; [| |eapply (sinv_thread d e k kb (current k) th' m_s0 EB ES EL)].
      + intros l. cbn. rewrite (tval_some _ _ _ th), Hd by done. lia.
      + intros x. cbn. rewrite (tval_some _ _ _ th), !nodown_retries by done. specialize (He x). lia.
      + split; [by constructor|by split; [|done|]|done].
      + by left.
    - by rewrite EB, CB, lookup_insert_eq.
    - by left.
    - unfold kb. kfields. rewrite EI. apply (mid_loops _ _ _ _ _ _ M EB). intros Hi. apply loops_cons, HI, Hi. }
  destruct (decide (idle_thread k = Some (current k))) as [Hi|Hi].
  - rewrite bool_decide_eq_true_2 by done. apply wp_ret. apply HR; try done. cbn. rewrite decide_False by tauto. by rewrite app_nil_r.
  - rewrite bool_decide_eq_false_2 by done. apply wp_modify. apply HR; try done. cbn. by rewrite decide_True.
Qed.

(** [process_exit] gives up the page directory. *)
Definition without_pagedir th : thread :=
  Thread (tid th) (status th) (name th) (priority th) (tick_to_wake th) 0
    (child_list th) (load_success th) (exit_status th) (magic th) (code th).

Lemma wp_process_exit F d e th k (Q : unit -> kstate -> Prop) : mid d e th k ->
  (forall th' k', mid d e th' k' -> code th' = code th -> current k' = current k -> idle_thread k' = idle_thread k -> Q tt k') ->
  wp F process_exit Q k.
Proof.
  intros M HQ. pose proof M as []. destruct (s_tok _ _ _ m_s0 _ _ m_th0) as [TR [_ TT _] _].
  unfold process_exit. apply wp_bind. eapply mid_current; [exact M|]. apply wp_bind. eapply wp_get_thread; [done|].
  destruct (negb (pagedir th =? 0)); [|apply wp_ret; by eapply HQ].
  apply wp_bind, wp_modify, wp_modify.
  enough (M' : mid (fun l => d l + units l (code (without_pagedir th)) - units l (code th)) e (without_pagedir th)
    (upd_thread (current k) without_pagedir k)).
  { eapply (HQ (without_pagedir th)); try done. eapply mid_same with (k := upd_thread (current k) without_pagedir k); try done.
    destruct M'. split; try done. eapply sinv_ext; [..|exact m_s1]; intros; cbn; lia. }
  eapply (mid_thread _ _ _ _ _ _ M); try done; kfields; cbn.
  - by apply alter_insert_eq.
  - apply (c_ok _ _ _ m_c0 _ _ m_th0).
  - intros u Hu. by left.
  - apply (c_new_nodup _ _ _ m_c0 _ _ m_th0).
Qed.

Lemma wp_thread_exit F d e th k : mid d e th k -> (forall l, d l = units l (code th)) -> (forall s, e s <= 0) ->
  idle_thread k <> Some (current k) -> wp F thread_exit (fun _ => inv) k.
Proof.
  intros M0 Hd0 He HI0. unfold thread_exit. apply wp_bind, wp_gets, wp_bind, wp_assert; [intros _|by rewrite (m_ext _ _ _ _ M0)].
  apply wp_bind. eapply wp_process_exit; [exact M0|]. intros th1 k1 M Ec1 Ek1 Ei1.
  assert (Hd : forall l, d l = units l (code th1)) by (by rewrite Ec1).
  assert (HI : idle_thread k1 <> Some (current k1)) by congruence.
  clear M0 Hd0 HI0 Ec1 Ek1 Ei1 th k. rename th1 into th, k1 into k.
  pose proof M as []. destruct (run_lookup _ _ _ m_c0) as (th0 & E0 & SR & MG). simplify_eq.
  destruct (run_nowhere _ _ _ m_c0) as (_ & NS & _ & _).
  apply wp_bind, wp_disable, wp_bind. eapply (mid_current d e th); [eapply (mid_same _ _ _ k); done|].
  apply wp_bind, wp_modify, wp_bind. eapply wp_set_status; [exact m_th0|]. apply wp_bind, wp_modify. kfields.
  set (th' := with_code [] (with_status THREAD_DYING th)).
  match goal with |- wp _ _ _ ?x => set (kb := x) end.
  assert (EB : threads kb = <[current k := th']> (threads k)).
  { unfold kb. kfields. rewrite (alter_insert_eq (with_status _) _ th) by done.
    rewrite (alter_insert_eq _ _ (with_status THREAD_DYING th)) by apply lookup_insert_eq. by rewrite insert_insert_eq. }
  apply (wp_mono F _ (fun _ k' => inv k' /\ switched kb k')); [by intros _ k' [H _]|].
  eapply (wp_switch F (Some (current k)) kb th'); try done.
  - eapply (cinv_leave_code k kb (current k) th th' _ m_c0 m_th0 EB); try done; cbn.
    + split; [done|]. cbn. rewrite decide_False by done. constructor.
    + set_solver.
    + constructor.
    + rewrite decide_False by naive_solver. by rewrite app_nil_r.
    + intros s v Ev. exists v. split; [done|]. rewrite decide_False by naive_solver. by rewrite app_nil_r.
    + rewrite decide_False by naive_solver. by rewrite app_nil_r.
  - eapply sinv_ext; [| |eapply (sinv_thread _ e k kb (current k) th' m_s0 EB)]; try done.
    + intros l. cbn. rewrite (tval_some _ _ _ th), Hd by done. lia.
    + intros x. cbn. rewrite (tval_some _ _ _ th), !nodown_retries by done. specialize (He x). lia.
    + by left.
  - by rewrite EB, lookup_insert_eq.
  - by right.
  - by apply (mid_loops _ _ _ _ _ _ M EB).
Qed.

Lemma sort_wake k l c : StronglySorted (fun a b => wake_of k a <= wake_of k b) (ListSort.sort_seq (compare_wake_time k) (l ++ [c])) /\
  ListSort.sort_seq (compare_wake_time k) (l ++ [c]) ≡ₚ l ++ [c].
Proof.
  assert (W : ListSort.StrictWeakOrder (compare_wake_time k)).
  { split; unfold compare_wake_time; intros *; rewrite ?Z.ltb_lt, !Z.ltb_ge; lia. }
  destruct (ListSort.sort_seq_stable (compare_wake_time k) (l ++ [c])) as [P S _]. split; [|done].
  apply Sorted_StronglySorted; [intros x y z; lia|]. 
  assert (HL : forall a b, ListSort.le (compare_wake_time k) a b -> wake_of k a <= wake_of k b)
    by (intros a b; unfold ListSort.le, compare_wake_time; rewrite Z.ltb_ge; done).
  clear P. induction S as [|a xs S IH H]; [apply Sorted_nil|]. apply Sorted_cons; [done|].
  destruct H; constructor; auto.
Qed.

Lemma wp_sleep_until F d e th k w : mid d e th k -> (forall l, d l = 0) -> (forall s, e s <= 0) ->
  idle_thread k <> Some (current k) -> wp F (sleep_until w) (fun _ => inv) k.
Proof.
  intros M Hd He HI. pose proof M as []. destruct (run_lookup _ _ _ m_c0) as (th0 & E0 & SR & MG). simplify_eq.
  destruct (run_nowhere _ _ _ m_c0) as (_ & NS & _ & _). destruct (s_tok _ _ _ m_s0 _ _ m_th0) as [TR [_ TT _] _].
  unfold sleep_until. apply wp_bind, wp_disable, wp_bind. eapply (mid_current d e th); [eapply (mid_same _ _ _ k); done|].
  apply wp_bind, wp_modify, wp_bind, wp_modify, wp_bind, wp_modify.
  change (current (set_level INTR_OFF k)) with (current k).
  set (old := intr_on (cpu k)). set (k1 := upd_thread (current k) (with_wake w) (set_level INTR_OFF k)).
  set (l := ListSort.sort_seq (compare_wake_time k1) (sleeping_list k1 ++ [current k])).
  set (th' := with_code (KSleep old :: code th) (with_wake w th)).
  set (k2 := push_code [KSleep old] (set_sleeping l k1)).
  set (kb := upd_thread (current k) (with_status THREAD_BLOCKED) k2).
  assert (E1 : threads k1 = <[current k := with_wake w th]> (threads k)) by (by apply alter_insert_eq).
  assert (E2 : threads k2 = <[current k := th']> (threads k)).
  { unfold k2. rewrite (push_threads _ _ (with_wake w th)); change (threads (set_sleeping l k1)) with (threads k1);
      change (current (set_sleeping l k1)) with (current k); rewrite E1; [by rewrite insert_insert_eq|by rewrite lookup_insert_eq]. }
  assert (EB : threads kb = <[current k := with_status THREAD_BLOCKED th']> (threads k)).
  { unfold kb. rewrite (status_threads _ _ _ th'), E2 by (by rewrite E2, lookup_insert_eq). by rewrite insert_insert_eq. }
  destruct (sort_wake k1 (sleeping_list k1) (current k)) as [SO PE]. fold l in SO, PE.
  eapply (wp_block F _ th'); try done; [by rewrite E2, lookup_insert_eq|by apply (mid_loops _ _ _ _ _ _ M E2)|..];
    change (current k2) with (current k); fold kb.
  - eapply (cinv_leave_code k kb (current k) th _ None m_c0 m_th0 EB); try done; cbn.
    + split; [done|]. destruct (c_ok _ _ _ m_c0 _ _ m_th0) as [_ OC]. rewrite decide_False in * by done. by constructor.
    + apply (c_new_nodup _ _ _ m_c0 _ _ m_th0).
    + rewrite decide_False by naive_solver. by rewrite app_nil_r.
    + intros s v Ev. exists v. split; [done|]. rewrite decide_False by naive_solver. by rewrite app_nil_r.
  - eapply (sinv_sleep _ _ (set_sleeping (sleeping_list k) kb)); try done.
    + eapply sinv_ext; [| |eapply (sinv_thread d e k _ (current k) (with_status THREAD_BLOCKED th') m_s0)]; try done.
      * intros x. cbn. rewrite (tval_some _ _ _ th), Hd by done. lia.
      * intros x. cbn. rewrite (tval_some _ _ _ th), !nodown_retries by done. specialize (He x). lia.
      * split; [by constructor|by split; [|done|]|done].
      * by left.
    + eapply wake_sorted; [|exact SO]. intros a _. unfold wake_of. cbn [threads set_sleeping]. rewrite EB, E1, !lookup_insert.
      by case_decide.
Qed.

Lemma wp_idle_loop F d e th k : mid d e th k -> (forall l, d l = 0) -> (forall s, e s <= 0) -> code th = [] ->
  idle_thread k = Some (current k) -> wp F idle_loop (fun _ => inv) k.
Proof.
  intros M Hd He HC HI. pose proof M as []. destruct (run_lookup _ _ _ m_c0) as (th0 & E0 & SR & MG). simplify_eq.
  destruct (run_nowhere _ _ _ m_c0) as (_ & NS & _ & _).
  unfold idle_loop. apply wp_bind, wp_disable, wp_bind, wp_modify.
  set (k2 := push_code [KIdleHlt] (set_level INTR_OFF k)). set (th' := with_code [KIdleHlt] th).
  set (kb := upd_thread (current k) (with_status THREAD_BLOCKED) k2).
  assert (E2 : threads k2 = <[current k := th']> (threads k)).
  { unfold k2. rewrite (push_threads _ _ th) by done. by rewrite HC. }
  assert (EB : threads kb = <[current k := with_status THREAD_BLOCKED th']> (threads k)).
  { unfold kb. rewrite (status_threads _ _ _ th'), E2 by (by rewrite E2, lookup_insert_eq). by rewrite insert_insert_eq. }
  assert (LO : loops [KIdleHlt]) by (exists [], KIdleHlt; by split; [|right]).
  eapply (wp_block F _ th'); try done; [by rewrite E2, lookup_insert_eq|by apply (mid_loops _ _ _ _ _ _ M E2)|..];
    change (current k2) with (current k); fold kb.
  - eapply (cinv_leave_code k kb (current k) th _ None m_c0 m_th0 EB); try done; cbn.
    + split; [done|]. cbn. rewrite decide_True by done. exists [], [KIdleHlt]. split; [done|]. split; [done|]. by right; right.
    + set_solver.
    + constructor.
    + rewrite decide_False by naive_solver. by rewrite app_nil_r.
    + intros s v Ev. exists v. split; [done|]. rewrite decide_False by naive_solver. by rewrite app_nil_r.
    + rewrite decide_False by naive_solver. by rewrite app_nil_r.
  - eapply sinv_ext; [| |eapply (sinv_thread d e k kb (current k) (with_status THREAD_BLOCKED th') m_s0 EB)]; try done.
    + intros x. cbn. rewrite (tval_some _ _ _ th), Hd, HC by done. done.
    + intros x. cbn. rewrite (tval_some _ _ _ th), !nodown_retries by done. specialize (He x). lia.
    + split; [by repeat constructor| |done]. by apply nodown_shape.
    + by left.
Qed.

(** *** The timer interrupt *)

Definition due k (t : Z) : Prop := wake_of k t <= ticks (clock k).
#[export] Instance due_dec k t : Decision (due k t).
Proof. unfold due. apply _. Defined.

(** The threads whose time has come are made ready, in the order of the sleep queue. *)
Record woke k k' : Prop := {
  wk_sleep : sleeping_list k' = filter (fun t => ~ due k t) (sleeping_list k);
  wk_ready : ready_list k' = ready_list k ++ filter (due k) (sleeping_list k);
  wk_thread : forall t, threads k' !! t =
    (if decide (t ∈ sleeping_list k /\ due k t) then with_status THREAD_READY else id) <$> threads k !! t;
  wk_cur : current k' = current k;
  wk_idle : idle_thread k' = idle_thread k;
  wk_init : initial_thread k' = initial_thread k;
  wk_sync : sync k' = sync k;
  wk_cpu : cpu k' = cpu k;
  wk_clock : clock k' = clock k
}.

Lemma set_level_same k l : intr_on (cpu k) = l -> set_level l k = k.
Proof. destruct k as [? ? ? ? ? ? ? ? ? [] ?]. cbn. by intros ->. Qed.

Lemma woke_code k k' t th' : woke k k' -> threads k' !! t = Some th' ->
  exists th, threads k !! t = Some th /\ code th' = code th.
Proof.
  intros W. rewrite (wk_thread _ _ W). destruct (threads k !! t) as [th|]; [|done].
  case_decide; intros [= <-]; by exists th.
Qed.

Lemma filter_none {P : Z -> Prop} `{forall x, Decision (P x)} (l : list Z) : (forall x, x ∈ l -> ~ P x) -> filter P l = [].
Proof.
  induction l as [|x l IH]; [done|]. intros HP. rewrite filter_cons_False by (apply HP; set_solver).
  apply IH. intros y Hy. apply HP. set_solver.
Qed.
Lemma filter_every {P : Z -> Prop} `{forall x, Decision (P x)} (l : list Z) : (forall x, x ∈ l -> P x) -> filter P l = l.
Proof.
  induction l as [|x l IH]; [done|]. intros HP. rewrite filter_cons_True by (apply HP; set_solver).
  f_equal. apply IH. intros y Hy. apply HP. set_solver.
Qed.

Lemma woke_none k : (forall t, t ∈ sleeping_list k -> ~ due k t) -> woke k k.
Proof.
  intros H. split; try done.
  - by rewrite filter_every.
  - by rewrite filter_none, app_nil_r.
  - intros t. rewrite decide_False by naive_solver. by rewrite option_fmap_id.
Qed.

(** One thread is woken up. *)
Lemma wake_one d e c k t l th :
  cinv (Some c) None k -> sinv d e k -> sleeping_list k = t :: l -> threads k !! t = Some th ->
  let k1 := upd_thread t (with_status THREAD_READY) (set_ready (ready_list k ++ [t]) (set_sleeping l k)) in
  cinv (Some c) None k1 /\ sinv d e k1.
Proof.
  intros C S EL Et k1. assert (Ht : t ∈ sleeping_list k) by (rewrite EL; set_solver).
  apply (c_sleep _ _ _ C) in Ht as (? & ? & Bt & Rt). simplify_eq.
  assert (ET : threads k1 = <[t := with_status THREAD_READY th]> (threads k)) by (by apply alter_insert_eq).
  split.
  - eapply (cinv_wake (Some c) k k1 t th C Et Bt); try done.
    + by rewrite Rt.
    + intros s v Ev. exists v. split; [done|]. right. split; [done|]. by rewrite Rt.
    + by left.
    + eapply waiting_not_new; [done|done|]. by rewrite Rt.
  - eapply (sinv_sleep _ _ (set_sleeping (sleeping_list k) k1)); try done.
    + eapply sinv_ext; [| |eapply (sinv_thread d e k _ t (with_status THREAD_READY th) S)]; try done.
      * intros x. cbn. rewrite (tval_some _ _ _ th) by done. lia.
      * intros x. cbn. rewrite (tval_some _ _ _ th) by done. unfold retries. cbn. rewrite Rt.
        rewrite !decide_False by naive_solver. lia.
      * destruct (s_tok _ _ _ S _ _ Et) as [R SH D]. by split.
      * right. by exists th.
    + pose proof (s_sorted _ _ _ S) as SO. rewrite EL in SO. apply StronglySorted_inv in SO as [SO _].
      eapply wake_sorted; [|exact SO]. intros a _. unfold wake_of. cbn [threads set_sleeping]. rewrite ET, lookup_insert.
      case_decide; [subst; by rewrite Et|done].
Qed.

Lemma woke_cons k k' t l th :
  sleeping_list k = t :: l -> NoDup (t :: l) -> due k t -> threads k !! t = Some th ->
  woke (upd_thread t (with_status THREAD_READY) (set_ready (ready_list k ++ [t]) (set_sleeping l k))) k' -> woke k k'.
Proof.
  intros EL ND HD Et. set (k1 := upd_thread _ _ _). apply NoDup_cons in ND as [Nt _].
  assert (ET : threads k1 = <[t := with_status THREAD_READY th]> (threads k)) by (by apply alter_insert_eq).
  assert (EW : forall a, wake_of k1 a = wake_of k a).
  { intros a. unfold wake_of. rewrite ET, lookup_insert. case_decide; [subst; by rewrite Et|done]. }
  assert (ED : forall a, due k1 a <-> due k a) by (intros a; unfold due; by rewrite EW).
  intros []. split; try done.
  - rewrite wk_sleep0, EL, filter_cons_False by tauto. apply list_filter_iff. intros a. by rewrite ED.
  - rewrite wk_ready0, EL, filter_cons_True by done. cbn [ready_list k1 upd_thread set_threads set_ready sleeping_list set_sleeping].
    rewrite <- app_assoc. f_equal. cbn. f_equal. apply list_filter_iff. intros a. by rewrite ED.
  - intros a. rewrite wk_thread0, ET, lookup_insert, EL. change (sleeping_list k1) with l.
    destruct (decide (t = a)) as [<-|Hne].
    + rewrite Et. cbn. rewrite (decide_False (P := t ∈ l /\ _)) by tauto. rewrite decide_True; [done|]. split; [set_solver|done].
    + assert (HX : (a ∈ l /\ due k1 a) <-> (a ∈ t :: l /\ due k a)) by (rewrite ED, elem_of_cons; naive_solver).
      do 2 case_decide; tauto.
Qed.

Lemma wp_wake_loop F d e c l : forall k (Q : unit -> kstate -> Prop),
  cinv (Some c) None k -> sinv d e k -> sleeping_list k = l -> intr_on (cpu k) = INTR_OFF ->
  (forall k', cinv (Some c) None k' -> sinv d e k' -> woke k k' -> Q tt k') -> wp F (wake_loop l) Q k.
Proof.
  induction l as [|t l IH]; intros k Q C S EL HO HQ.
  - apply wp_ret, HQ; [done|done|]. apply woke_none. rewrite EL. set_solver.
  - assert (Ht : t ∈ sleeping_list k) by (rewrite EL; set_solver).
    apply (c_sleep _ _ _ C) in Ht as (th & Et & Bt & Rt).
    assert (Wt : wake_of k t = tick_to_wake th) by (unfold wake_of; by rewrite Et).
    cbn [wake_loop]. apply wp_bind. eapply wp_get_thread; [done|]. apply wp_bind.
    unfold timer_ticks. apply wp_bind, wp_disable, wp_bind, wp_gets, wp_bind.
    rewrite HO, !(set_level_same k) by done. apply wp_set_level; [by right|]. rewrite !(set_level_same k) by done. apply wp_ret.
    destruct (Z.ltb_spec (ticks (clock k)) (tick_to_wake th)) as [Hw|Hw].
    + apply wp_ret, HQ; [done|done|]. apply woke_none. rewrite EL. pose proof (s_sorted _ _ _ S) as SO. rewrite EL in SO.
      apply StronglySorted_inv in SO as [_ FO]. rewrite Forall_forall in FO.
      intros a [->|Ha]%elem_of_cons; unfold due; [lia|]. specialize (FO a Ha). cbn in FO. lia.
    + apply wp_bind, wp_modify, wp_bind. eapply wp_unblock; [exact Et|apply (c_ok _ _ _ C _ _ Et)|done|by right|].
      destruct (wake_one d e c k t l th C S EL Et) as [C1 S1]. cbv zeta in C1, S1.
      set (k1 := upd_thread t (with_status THREAD_READY) (set_ready (ready_list k ++ [t]) (set_sleeping l k))) in *.
      match goal with |- wp _ _ _ ?x => replace x with k1 end; [|unfold k1; kequal k; by subst].
      apply IH; try done. intros k' C' S' W. apply HQ; [done|done|]. eapply woke_cons; [exact EL| |unfold due; lia|exact Et|exact W].
      rewrite <- EL. apply (c_sleep_nodup _ _ _ C).
Qed.

Lemma nodown_run k th : inv k -> threads k !! current k = Some th -> intr_on (cpu k) = INTR_ON -> nodown (code th) = true.
Proof.
  intros I E HL. destruct (t_shape _ _ _ (s_tok _ _ _ (i_s _ I) _ _ E)) as [SH _ _].
  destruct (code th) as [|o c] eqn:EC; [done|]. destruct o; try done. pose proof (i_off _ I th s old c E EC). congruence.
Qed.

Lemma wp_thread_tick F th k (Q : unit -> kstate -> Prop) :
  threads k !! current k = Some th -> magic th = THREAD_MAGIC -> status th = THREAD_RUNNING -> in_external_intr (cpu k) = true ->
  (forall kc y, ticks kc = ticks (clock k) ->
    Q tt (set_cpu (Cpu (intr_on (cpu k)) true y (active_pd (cpu k))) (set_clock kc k))) ->
  wp F thread_tick Q k.
Proof.
  intros E HM HS HX HQ. unfold thread_tick. apply wp_bind. eapply wp_thread_current; [done..|].
  apply wp_bind. eapply wp_get_thread; [done|]. apply wp_bind, wp_gets, wp_bind, wp_modify, wp_bind, wp_modify, wp_bind, wp_gets.
  match goal with |- context [set_clock ?a (set_clock ?b k)] =>
    set (kc := a); assert (Hk : ticks kc = ticks (clock k));
      [unfold kc; cbn; by case_bool_decide; [|destruct (negb (pagedir th =? 0))]|] end.
  destruct (TIME_SLICE <=? _).
  - unfold intr_yield_on_return. apply wp_bind, wp_gets, wp_bind, wp_assert; [intros _|cbn; by rewrite HX].
    apply wp_modify. kfields. rewrite HX. apply (HQ kc true Hk).
  - apply wp_ret. specialize (HQ kc (yield_on_return (cpu k)) Hk). rewrite <- HX in HQ.
    replace (Cpu _ _ _ _) with (cpu k) in HQ by (by destruct (cpu k)). exact HQ.
Qed.

(** The threads whose time has come, and no others, have left the sleep queue. *)
Record ticked (now : Z) k k' : Prop := {
  tk_ticks : ticks (clock k') = now;
  tk_sleep : sleeping_list k' = filter (fun t => ~ wake_of k t <= now) (sleeping_list k);
  tk_woken : forall t, t ∈ sleeping_list k -> wake_of k t <= now ->
    exists th, threads k' !! t = Some th /\ status th <> THREAD_BLOCKED
}.

Lemma settled_refl k : settled k k.
Proof. split; try done. intros t th E S _. exists th. split; [done|congruence]. Qed.

Lemma ticked_woke now k k3 k4 k6 k' :
  cinv (Some (current k)) None k -> (forall a, wake_of k3 a = wake_of k a) -> sleeping_list k3 = sleeping_list k ->
  (forall t, t ∈ sleeping_list k -> threads k3 !! t = threads k !! t) -> idle_thread k3 = idle_thread k ->
  ticks (clock k3) = now -> woke k3 k4 ->
  threads k6 = threads k4 -> sleeping_list k6 = sleeping_list k4 -> idle_thread k6 = idle_thread k4 ->
  ticks (clock k6) = ticks (clock k4) -> settled k6 k' -> ticked now k k'.
Proof.
  intros C HW HS HT HI HK [] E1 E2 E3 E4 []. split.
  - rewrite se_ticks0, E4, wk_clock0. done.
  - rewrite se_sleep0, E2, wk_sleep0, HS. apply list_filter_iff. intros t. unfold due. by rewrite HW, HK.
  - intros t Ht Hw. pose proof Ht as (th & Et & Bt & Rt)%(c_sleep _ _ _ C).
    apply (se_ready0 t (with_status THREAD_READY th)); [|done|].
    + rewrite E1, wk_thread0, HT, Et, decide_True by (rewrite ?HS; unfold due; rewrite ?HW, ?HK; done). done.
    + rewrite E3, wk_idle0, HI. intros Hi. destruct (c_ok _ _ _ C _ _ Et) as [_ O]. rewrite decide_True in O by done.
      destruct O as (pre & suf & Ec & Fo & Hs). rewrite Ec in Rt.
      destruct pre as [|o pre]; [by destruct Hs as [->|[->| ->]]|]. apply Forall_cons in Fo as [Ho _]. by destruct o.
Qed.

(** A timer interrupt: the invariant holds again, and the threads whose time has come,
    and no others, have left the sleep queue. *)
Lemma wp_interrupt F k : inv k -> intr_on (cpu k) = INTR_ON ->
  wp F external_interrupt (fun _ k' => inv k' /\ ticked (s64 (ticks (clock k) + 1)) k k') k.
Proof.
  intros I HL. pose proof I as []. destruct (run_lookup _ _ _ i_c0) as (th & E & SR & MG).
  pose proof (nodown_run k th I E HL) as ND.
  assert (M : mid (fun _ => 0) (fun _ => 0) th (set_level INTR_OFF k)).
  { split; try done; [eapply cinv_same; [..|exact i_c0]; done|eapply sinv_same; [..|exact i_s0]; done|].
    intros i ith Ei _ Et. by eapply i_idle0. }
  apply (mid_push _ _ _ _ [KIret]) in M; try done; [|by repeat constructor| |by repeat constructor|set_solver|constructor].
  2:{ intros Hi. apply idle_code_cons; [done|]. pose proof (ok_code _ _ _ (c_ok _ _ _ i_c0 _ _ E)) as O. by rewrite decide_True in O. }
  set (k1 := push_code [KIret] (set_level INTR_OFF k)) in *. set (th1 := with_code ([KIret] ++ code th) th) in *.
  unfold external_interrupt. apply wp_bind, wp_modify, wp_bind, wp_modify. fold k1.
  apply wp_bind, wp_gets, wp_bind, wp_assert; [intros _|done].
  apply wp_bind, wp_gets, wp_bind, wp_assert; [intros _|by rewrite (m_ext _ _ _ _ M)].
  apply wp_bind, wp_modify, wp_bind. unfold timer_interrupt. apply wp_bind, wp_modify, wp_bind, wp_gets, wp_bind.
  match goal with |- wp _ _ _ ?x => set (k3 := x) end. change (sleeping_list k3) with (sleeping_list k).
  assert (E1 : threads k3 = <[current k := th1]> (threads k)) by exact (push_threads [KIret] (set_level INTR_OFF k) th E).
  assert (WK : forall a, wake_of k3 a = wake_of k a).
  { intros a. unfold wake_of. rewrite E1, lookup_insert. case_decide as Ha; [rewrite <- Ha; by rewrite E|done]. }
  eapply (wp_wake_loop F (fun _ => 0) (fun _ => 0) (current k)); try done.
  { eapply cinv_same; [..|exact (m_c _ _ _ _ M)]; done. }
  { eapply sinv_ext; [..|eapply sinv_same; [..|exact (m_s _ _ _ _ M)]; done]; done. }
  intros k4 C4 S4 W. pose proof W as [].
  assert (E4 : threads k4 !! current k4 = Some th1).
  { rewrite wk_cur0, wk_thread0, E1. change (current k3) with (current k). rewrite lookup_insert_eq, decide_False; [done|].
    intros [Hc _]. by apply (run_nowhere _ _ _ i_c0) in Hc. }
  eapply wp_thread_tick; [exact E4|done|done|by rewrite wk_cpu0|]. intros kc y Hk.
  rewrite wk_cpu0. apply wp_bind, wp_gets, wp_bind, wp_assert; [intros _|done].
  apply wp_bind, wp_gets, wp_bind, wp_assert; [intros _|done]. apply wp_bind, wp_modify, wp_bind, wp_gets.
  match goal with |- wp _ _ _ ?x => set (k6 := x) end. change (yield_on_return (cpu k6)) with y.
  assert (LO : forall i ith, idle_thread k = Some i -> threads k4 !! i = Some ith -> loops (code ith)).
  { intros i ith Ei Et. destruct (woke_code _ _ _ _ W Et) as (ith' & Et' & ->). rewrite E1, lookup_insert in Et'.
    case_decide as Hi; [|by eapply i_idle0]. injection Et' as <-. apply loops_cons. by eapply i_idle0; [|rewrite <- Hi]. }
  assert (M6 : mid (fun _ => 0) (fun _ => 0) th1 k6).
  { split; try done.
    - change (current k6) with (current k4). rewrite wk_cur0. eapply cinv_same; [..|exact C4]; done.
    - eapply sinv_same; [..|exact S4]; done.
    - intros i ith Ei _ Et. eapply LO; [|exact Et]. transitivity (idle_thread k4); [symmetry; exact wk_idle0|exact Ei]. }
  assert (HF : forall k', settled k6 k' -> ticked (s64 (ticks (clock k) + 1)) k k').
  { intros k'. eapply (ticked_woke _ k k3 k4 k6 k' i_c0 WK); try done.
    intros t Ht. rewrite E1, lookup_insert_ne; [done|]. intros <-. by apply (run_nowhere _ _ _ i_c0) in Ht. }
  assert (HI : idle_thread k6 = Some (current k6) -> loops (code th1)).
  { intros Hi. eapply LO; [|exact E4]. transitivity (idle_thread k4); [symmetry; exact wk_idle0|exact Hi]. }
  destruct y.
  - eapply wp_mono; [|eapply (wp_yield F _ _ th1 k6 M6); done]. intros _ k' [I' S']. auto.
  - apply wp_ret. split; [by eapply mid_done|]. apply HF, settled_refl.
Qed.

(** ** Operations *)

(** What a call asks of its caller. *)
Definition contract `{PageSource} k (o : op) : Prop :=
  match o with
  | OSleep _ => intr_on (cpu k) = INTR_ON
  | ODown n | OTryDown n | OUp n => is_Some (semas (sync k) !! SNamed n)
  | OAcquire l | OTryAcquire l => exists h, holders (sync k) !! l = Some h /\ h <> Some (current k)
  | ORelease l => holders (sync k) !! l = Some (Some (current k))
  | OCondWait c l | OSignal c l => holders (sync k) !! l = Some (Some (current k)) /\ is_Some (conds (sync k) !! c)
  | OBroadcast c _ => is_Some (conds (sync k) !! c)
  | OCreate _ p _ => get_page (dom (threads k)) = None \/ PRI_MIN <= p <= PRI_MAX
  | _ => True
  end.

Lemma loops_pop o c : loops (o :: c) -> o <> KIdleLoop -> o <> KIdleHlt -> loops c.
Proof.
  intros (pre & x & E & Hx) H1 H2. destruct pre as [|y pre]; [cbn in E; destruct Hx; inversion E; congruence|]. injection E as <- ->. by exists pre, x.
Qed.
Lemma idle_code_pop o c : idle_code (o :: c) -> idle_code c.
Proof.
  intros (pre & suf & E & F & S). destruct pre as [|y pre].
  - exists [], []. split; [destruct S as [->|[->| ->]]; cbn in E; by inversion E|]. by split; [|left].
  - injection E as <- ->. apply Forall_cons in F as [_ F]. by exists pre, suf.
Qed.

(** The current thread starts its next operation. *)
Lemma pop_ok k th o c : inv k -> threads k !! current k = Some th -> code th = o :: c ->
  mid (fun l => units l c - units l (o :: c)) (fun s => retries s th) (with_code c th) (upd_thread (current k) (with_code c) k).
Proof.
  intros [] E EC. destruct (run_lookup _ _ _ i_c0) as (th0 & E0 & SR & MG). simplify_eq.
  destruct (s_tok _ _ _ i_s0 _ _ E) as [TR [T1 T2 T3] TD]. rewrite EC in *. apply Forall_cons in TR as [_ TR].
  assert (ET : threads (upd_thread (current k) (with_code c) k) = <[current k := with_code c th]> (threads k)) by (by apply alter_insert_eq).
  assert (TO : tids_ok c) by (by destruct o; cbn in T2; try apply T2).
  assert (HT : forall u, u ∈ targets c -> u ∈ targets (o :: c)) by (intros u; destruct o; cbn; set_solver).
  split; try done.
  - eapply (cinv_edit None k _ (current k) th (with_code c th) i_c0); try done; cbn.
    + destruct (c_ok _ _ _ i_c0 _ _ E) as [_ OC]. split; [done|]. rewrite EC in OC. cbn.
      case_decide; [by eapply idle_code_pop|by apply Forall_cons in OC as [_ ?]].
    + rewrite EC. intros u Hu. left. by apply HT.
    + pose proof (c_new_nodup _ _ _ i_c0 _ _ E) as N. rewrite EC in N. destruct o; try exact N. by apply NoDup_cons in N as [_ N].
  - eapply sinv_ext; [| |eapply (sinv_thread _ _ k _ (current k) (with_code c th) i_s0 ET)]; try done.
    + intros l. cbn beta. rewrite (tval_some _ _ _ th), EC by done. done.
    + intros s. cbn beta. rewrite (tval_some _ _ _ th), (nodown_retries s (with_code c th)) by done. lia.
    + split; [done|by apply nodown_shape|cbn; congruence].
    + left. by apply (run_nowhere _ _ _ i_c0).
  - rewrite ET. apply lookup_insert_eq.
  - intros i ith Ei Hi. rewrite ET, lookup_insert_ne by done. by apply i_idle0.
Qed.

End SchedSync.
