(* ===== verification/SchedStep.v ===== *)
(** * Every step of the thread machine preserves its invariant

    One lemma for each call and each continuation of Sched: it preserves the invariant of
    SchedInv and SchedSync, and it faults only if the caller broke the call's contract.
    Then the theorems about runs of the machine. *)

From S2P Require Import Prelude LinkedList ListSort Sched SchedInv SchedSync.
Import Sched SchedInv SchedSync.

Module SchedStep.

Implicit Types (k : kstate) (th : thread).

Definition none {A} (_ : A) : Z := 0.

Lemma mid_ext d e d' e' th k : (forall l, d l = d' l) -> (forall s, e s <= e' s) -> mid d e th k -> mid d' e' th k.
Proof. intros Hd He []. split; try done. by eapply sinv_ext. Qed.

Lemma mid_level d e th k l : mid d e th k -> mid d e th (set_level l k).
Proof. intros M. eapply (mid_same _ _ _ k); done. Qed.

Ltac units_eq := intros ?; cbn; unfold none; repeat case_decide; try congruence; lia.

(** ** Code made of calls *)

Lemma plain_ok (t : Z) f k : forallb plain f = true ->
  Forall (okop t) f /\ targets f = [] /\ (forall l, units l f = 0) /\ nodown f = true /\ tids_ok f /\ Forall (refers k t) f.
Proof.
  induction f as [|o f IH]; cbn [forallb]; [repeat split; constructor|]. intros [Ho Hf]%andb_true_iff.
  destruct (IH Hf) as (H1 & H2 & H3 & H4 & H5 & H6).
  assert (OO : okop t o /\ refers k t o /\ (forall l, unit_of l o = 0)) by (by destruct o).
  destruct OO as (O1 & O2 & O3). repeat split; [by constructor| | | | |by constructor]; destruct o; try done.
Qed.

Section Exec.
Context `{PS : PageSource} (F : Prop) (th : thread) (k : kstate).
Hypothesis M : mid none none th k.
Hypothesis NI : idle_thread k <> Some (current k).

Lemma finish k' : mid none none th k' -> idle_thread k' = idle_thread k -> current k' = current k -> inv k'.
Proof. intros M' E1 E2. eapply mid_done; [exact M'|done|done|]. rewrite E1, E2. done. Qed.

(** Code of [ops], none of it inside [sema_down] or starting a thread, is put in front. *)
Lemma push_ok d ops : mid d none th k -> nodown ops = true -> no_exit ops = true -> Forall (okop (current k)) ops ->
  Forall (refers k (current k)) ops -> (tids_ok (code th) -> tids_ok (ops ++ code th)) -> targets ops = [] ->
  mid (fun l => d l + units l ops) none (with_code (ops ++ code th) th) (push_code ops k).
Proof. intros M' H1 H2 H3 H4 H5 H6. apply mid_push; try done; rewrite H6; [set_solver|constructor]. Qed.

Lemma down_ok d th1 k1 s : mid d none th1 k1 -> idle_thread k1 <> Some (current k1) ->
  (semas (sync k1) !! s = None -> F) -> (forall old, okop (current k1) (KDown s old)) ->
  (forall l, s = SLock l -> hd_error (code th1) = Some (KHold l)) -> (forall l, d l = if decide (s = SLock l) then 1 else 0) ->
  wp F (sema_down s) (fun _ => inv) k1.
Proof.
  intros M1 NI1 HF HO HH Hd. unfold sema_down.
  apply wp_bind, wp_gets, wp_bind, wp_assert; [intros _|by rewrite (m_ext _ _ _ _ M1)]. apply wp_bind, wp_disable.
  destruct (semas (sync k1) !! s) as [v|] eqn:Ev.
  - eapply (wp_down_loop F d none th1 (set_level INTR_OFF k1) s v); try done; [by apply mid_level|].
    intros x. unfold none. by case_decide.
  - unfold down_loop. apply wp_bind. unfold wp, get_sema. cbn. rewrite Ev. auto.
Qed.

Lemma try_down_ok s (Q : bool -> kstate -> Prop) : (semas (sync k) !! s = None -> F) ->
  (mid none none th k -> Q false k) ->
  (forall v, semas (sync k) !! s = Some v -> 0 < value v ->
    mid (fun l => if decide (s = SLock l) then -1 else 0) none th (set_sema s (Sema (value v - 1) (waiters v)) k) ->
    Q true (set_sema s (Sema (value v - 1) (waiters v)) k)) -> sema_owner s = None ->
  wp F (sema_try_down s) Q k.
Proof.
  intros HF Q0 Q1 HO. unfold sema_try_down. apply wp_bind, wp_disable, wp_bind. unfold wp at 1, get_sema, sema_alive. cbn [sync set_level set_cpu].
  destruct (semas (sync k) !! s) as [v|] eqn:Ev; [|auto]. rewrite HO. pose proof (s_value _ _ _ (m_s _ _ _ _ M) s v Ev) as HV.
  destruct (Z.ltb_spec 0 (value v)) as [Hv|Hv].
  - apply wp_bind, wp_modify, wp_bind, wp_set_level; [left; apply (m_ext _ _ _ _ M)|]. apply wp_ret.
    assert (EU : u32 (value v - 1) = value v - 1) by (apply u32_small; unfold is_u32; lia). rewrite EU.
    match goal with |- Q true ?x => replace x with (set_sema s (Sema (value v - 1) (waiters v)) k) by (clear; kequal k) end.
    eapply Q1; [done|done|]. eapply mid_ext; [..|eapply (mid_value none none th k s v); [exact M|done|lia]].
    + intros l. unfold none. case_decide; lia.
    + intros x. unfold none. case_decide; lia.
  - apply wp_bind, wp_set_level; [left; apply (m_ext _ _ _ _ M)|]. apply wp_ret.
    match goal with |- Q false ?x => replace x with k by (clear; kequal k) end. by apply Q0.
Qed.

Lemma up_ok d s (Q : unit -> kstate -> Prop) : mid d none th k -> (semas (sync k) !! s = None -> F) -> sema_owner s = None ->
  (forall k' v, semas (sync k) !! s = Some v -> idle_thread k' = idle_thread k -> current k' = current k ->
    mid (fun l => d l + (if decide (s = SLock l) then u32 (value v + 1) - value v else 0)) none th k' -> Q tt k') ->
  wp F (sema_up s) Q k.
Proof.
  intros M' HF HO HQ. destruct (semas (sync k) !! s) as [v|] eqn:Ev.
  - eapply wp_sema_up; [exact Ev|unfold sema_alive; by rewrite HO|intros t Ht; by eapply sema_waiter; [apply (m_c _ _ _ _ M')|..]| |].
    + left. apply (m_ext _ _ _ _ M).
    + eapply HQ; [done| | |by apply mid_upped]; unfold upped; by destruct (waiters v).
  - unfold sema_up. apply wp_bind, wp_disable, wp_bind. unfold wp, get_sema. cbn. rewrite Ev. auto.
Qed.

Lemma held_ok l (Q : bool -> kstate -> Prop) : (holders (sync k) !! l = None -> F) ->
  (forall h, holders (sync k) !! l = Some h -> Q (bool_decide (h = Some (current k))) k) ->
  wp F (lock_held_by_current_thread l) Q k.
Proof.
  intros HF HQ. unfold lock_held_by_current_thread. apply wp_bind. unfold wp at 1, get_holder.
  destruct (holders (sync k) !! l) as [h|]; [|auto]. apply wp_bind. eapply mid_current; [exact M|]. by apply wp_ret, HQ.
Qed.

Lemma lock_sema l h : holders (sync k) !! l = Some h -> exists v, semas (sync k) !! SLock l = Some v.
Proof. intros E. by apply (s_locks _ _ _ (m_s _ _ _ _ M)). Qed.

Lemma acquire_ok l : (~ (exists h, holders (sync k) !! l = Some h /\ h <> Some (current k)) -> F) ->
  wp F (lock_acquire l) (fun _ => inv) k.
Proof.
  intros HF. unfold lock_acquire. apply wp_bind, wp_gets, wp_bind, wp_assert; [intros _|by rewrite (m_ext _ _ _ _ M)].
  apply wp_bind, held_ok; [intros E; apply HF; intros (h & ? & _); congruence|]. intros h Eh. apply wp_bind, wp_assert.
  - intros Hn. apply wp_bind, wp_modify. destruct (lock_sema l h Eh) as [v Ev].
    eapply (down_ok _ _ (push_code [KHold l] k)); [eapply (push_ok none [KHold l]); try done| | | | |]; try done.
    + by repeat constructor.
    + repeat constructor. cbn. by rewrite Eh.
    + cbn. congruence.
    + by intros x [= <-].
    + units_eq.
  - intros Hn. apply HF. intros (h' & ? & Hh). simplify_eq. apply negb_false_iff, bool_decide_eq_true in Hn. done.
Qed.

Lemma try_acquire_ok l : (~ (exists h, holders (sync k) !! l = Some h /\ h <> Some (current k)) -> F) ->
  wp F (let* _ := lock_try_acquire l in mret tt) (fun _ => inv) k.
Proof.
  intros HF. apply wp_bind. unfold lock_try_acquire.
  apply wp_bind, held_ok; [intros E; apply HF; intros (h & ? & _); congruence|]. intros h Eh. apply wp_bind, wp_assert.
  - intros Hn. apply wp_bind. destruct (lock_sema l h Eh) as [v Ev].
    apply try_down_ok; [congruence| | |done].
    + intros _. apply wp_bind, wp_ret, wp_ret, wp_ret. by apply finish.
    + intros v' Ev' Hv M'. apply wp_bind, wp_modify, wp_ret, wp_ret.
      eapply mid_done; [eapply (mid_push _ _ _ _ [KHold l] M'); try done|..]; try done.
      * by repeat constructor.
      * repeat constructor. cbn. by rewrite Eh.
      * set_solver.
      * constructor.
      * units_eq.
  - intros Hn. apply HF. intros (h' & ? & Hh). simplify_eq. apply negb_false_iff, bool_decide_eq_true in Hn. done.
Qed.

Lemma release_ok l : (holders (sync k) !! l <> Some (Some (current k)) -> F) -> wp F (lock_release l) (fun _ => inv) k.
Proof.
  intros HF. unfold lock_release. apply wp_bind, held_ok; [intros E; apply HF; congruence|]. intros h Eh. apply wp_bind, wp_assert.
  - intros ->%bool_decide_eq_true. apply wp_bind, wp_modify, wp_modify. destruct (lock_sema l _ Eh) as [v Ev].
    eapply mid_done; [eapply (mid_push _ _ _ _ [KUp (SLock l)]); [eapply (mid_holder none none th k l _ None M Eh)|..]|..]; try done.
    + by repeat constructor.
    + repeat constructor. cbn. eauto.
    + set_solver.
    + constructor.
    + units_eq.
  - intros Hn%bool_decide_eq_false. apply HF. congruence.
Qed.

Lemma cond_init_waiter : mid none none th (set_sema (SWaiter (current k)) (Sema 0 []) k).
Proof.
  pose proof M as []. eapply (mid_frame _ _ _ _ _ _ _ M); try done.
  - eapply (cinv_sema_init _ _ k _ (SWaiter (current k)) 0 m_c0); try done.
    intros t tth Et B R. destruct (c_ok _ _ _ m_c0 _ _ Et) as [_ OC]. case_decide as Hi.
    + eapply (idle_reason k t tth); [by left|done|done|exact R].
    + destruct (code tth) as [|o c]; [done|]. apply Forall_cons in OC as [Ho _]. destruct o; try done. injection R as ->.
      destruct Ho as [_ Ht]. subst t. destruct (run_lookup _ _ _ m_c0) as (? & ? & ? & _). congruence.
  - by eapply (sinv_sema_init none none k _ (SWaiter (current k)) 0 m_s0).
Qed.

Lemma cond_wait_ok c l : (~ (holders (sync k) !! l = Some (Some (current k)) /\ is_Some (conds (sync k) !! c)) -> F) ->
  wp F (cond_wait c l) (fun _ => inv) k.
Proof.
  intros HF. unfold cond_wait. apply wp_bind, wp_gets, wp_bind, wp_assert; [intros _|by rewrite (m_ext _ _ _ _ M)].
  apply wp_bind, held_ok; [intros E; apply HF; intros []; congruence|]. intros h Eh. apply wp_bind, wp_assert.
  - intros ->%bool_decide_eq_true. apply wp_bind. eapply mid_current; [exact M|]. apply wp_bind, wp_modify, wp_bind.
    unfold wp at 1, get_cond. cbn [sync set_sema set_sync conds]. destruct (conds (sync k) !! c) as [ws|] eqn:Ec.
    2:{ apply HF. intros [_ [? ?]]. congruence. }
    apply wp_bind, wp_modify, wp_modify. pose proof cond_init_waiter as M1. set (k1 := set_sema (SWaiter (current k)) (Sema 0 []) k) in *.
    assert (M2 : mid none none th (set_cond c (ws ++ [SWaiter (current k)]) k1)).
    { eapply (mid_frame _ _ _ _ _ _ _ M1); try done; [eapply cinv_same; [..|apply (m_c _ _ _ _ M1)]; done|].
      eapply (sinv_cond none none k1 _ c); [apply (m_s _ _ _ _ M1)| |done..].
      intros s. rewrite elem_of_app, list_elem_of_singleton. intros [Hs| ->].
      - by eapply (s_conds _ _ _ (m_s _ _ _ _ M1)).
      - exists (current k). split; [done|]. cbn. rewrite lookup_insert_eq. eauto. }
    eapply mid_done; [eapply (mid_push _ _ _ _ [ORelease l; KWaiter; OAcquire l] M2); try done|..]; try done.
    + by repeat constructor.
    + repeat constructor. cbn. rewrite lookup_insert_eq. eauto.
    + set_solver.
    + constructor.
  - intros Hn%bool_decide_eq_false. apply HF. intros []. congruence.
Qed.

Lemma signal_ok c l : (~ (holders (sync k) !! l = Some (Some (current k)) /\ is_Some (conds (sync k) !! c)) -> F) ->
  wp F (cond_signal c l) (fun _ => inv) k.
Proof.
  intros HF. unfold cond_signal. apply wp_bind, wp_gets, wp_bind, wp_assert; [intros _|by rewrite (m_ext _ _ _ _ M)].
  apply wp_bind, held_ok; [intros E; apply HF; intros []; congruence|]. intros h Eh. apply wp_bind, wp_assert.
  - intros ->%bool_decide_eq_true. apply wp_bind. unfold wp at 1, get_cond. destruct (conds (sync k) !! c) as [ws|] eqn:Ec.
    2:{ apply HF. intros [_ [? ?]]. congruence. }
    destruct ws as [|s ws]; [apply wp_ret; by apply finish|]. apply wp_bind, wp_modify, wp_modify.
    assert (HW : forall x, x ∈ s :: ws -> exists t, x = SWaiter t /\ is_Some (semas (sync k) !! x))
      by (intros x; by eapply (s_conds _ _ _ (m_s _ _ _ _ M))).
    destruct (HW s ltac:(set_solver)) as (t & -> & Hs).
    assert (M2 : mid none none th (set_cond c ws k)).
    { eapply (mid_frame _ _ _ _ _ _ _ M); try done; [eapply cinv_same; [..|apply (m_c _ _ _ _ M)]; done|].
      eapply (sinv_cond none none k _ c); [apply (m_s _ _ _ _ M)| |done..]. intros x Hx. apply HW. set_solver. }
    eapply mid_done; [eapply (mid_push _ _ _ _ [KUp (SWaiter t)] M2); try done|..]; try done.
    + by repeat constructor.
    + by repeat constructor.
    + set_solver.
    + constructor.
  - intros Hn%bool_decide_eq_false. apply HF. intros []. congruence.
Qed.

Lemma broadcast_ok c l : (~ is_Some (conds (sync k) !! c) -> F) -> wp F (cond_broadcast c l) (fun _ => inv) k.
Proof.
  intros HF. unfold cond_broadcast. apply wp_bind. unfold wp at 1, get_cond. destruct (conds (sync k) !! c) as [ws|] eqn:Ec.
  2:{ apply HF. intros [? ?]. congruence. }
  destruct ws; [apply wp_ret; by apply finish|]. apply wp_modify.
  eapply mid_done; [eapply (mid_push _ _ _ _ [OSignal c l; OBroadcast c l] M); try done|..]; try done.
  - by repeat constructor.
  - by repeat constructor.
  - set_solver.
  - constructor.
Qed.

Lemma sleep_ok n : (intr_on (cpu k) <> INTR_ON -> F) -> wp F (timer_sleep n) (fun _ => inv) k.
Proof.
  intros HF. unfold timer_sleep. apply wp_bind. unfold timer_ticks. apply wp_bind, wp_disable, wp_bind, wp_gets, wp_bind.
  apply wp_set_level; [left; apply (m_ext _ _ _ _ M)|]. apply wp_ret, wp_bind, wp_gets, wp_bind, wp_assert.
  - intros _. apply wp_modify.
    match goal with |- inv (push_code ?a ?x) => set (k1 := x); set (ops := a) end.
    assert (M1 : mid none none th k1) by (by do 2 apply mid_level).
    eapply mid_done; [eapply (mid_push _ _ _ _ ops M1); try done|..]; try done.
    + by repeat constructor.
    + by repeat constructor.
    + set_solver.
    + constructor.
  - cbn. intros Hn. apply HF. by rewrite Hn.
Qed.

Lemma set_priority_ok p : wp F (thread_set_priority p) (fun _ => inv) k.
Proof.
  pose proof M as []. unfold thread_set_priority. apply wp_bind. eapply mid_current; [exact M|]. apply wp_modify.
  destruct (s_tok _ _ _ m_s0 _ _ m_th0) as [TR [_ TT _] _].
  eapply mid_done; [eapply (mid_thread _ _ _ _ (with_priority p th) _ M)|..]; try done; cbn.
  - by apply alter_insert_eq.
  - apply (c_ok _ _ _ m_c0 _ _ m_th0).
  - intros u Hu. by left.
  - apply (c_new_nodup _ _ _ m_c0 _ _ m_th0).
  - intros l. unfold none. lia.
Qed.

End Exec.

(** ** Creating a thread *)

Section Create.
Context `{PS : PageSource} (F : Prop) (th : thread) (k : kstate).
Hypothesis M : mid none none th k.
Hypothesis NI : idle_thread k <> Some (current k).

(** A semaphore inside a thread's page: nobody is blocked on it. *)
Lemma owned_init_ok th1 k1 s t n : mid none none th1 k1 -> sema_owner s = Some t -> 0 <= n < 2 ^ 32 ->
  mid none none th1 (set_sema s (Sema n []) k1).
Proof.
  intros M1 Hs Hn. pose proof M1 as []. eapply (mid_frame _ _ _ _ _ _ _ M1); try done.
  - eapply (cinv_sema_init _ _ k1 _ s n m_c0); try done.
    intros u uth Eu B R. destruct (c_ok _ _ _ m_c0 _ _ Eu) as [_ OC]. case_decide as Hi.
    + eapply (idle_reason k1 u uth); [by left|done|done|exact R].
    + destruct (code uth) as [|o c]; [done|]. apply Forall_cons in OC as [Ho _]. destruct o; try done. injection R as ->.
      destruct Ho as [Ho _]. congruence.
  - eapply (sinv_sema_init none none k1 _ s n m_s0); try done. intros l ->. done.
Qed.

Lemma new_thread_ok t nm p f (k1 := set_threads (<[t := Thread 0 THREAD_BLOCKED (take 15 nm) p 0 0 [] false (-1) THREAD_MAGIC (KStart :: f)]>) k) :
  threads k !! t = None -> forallb plain f = true -> mid none none th k1.
Proof.
  intros Et Hf. pose proof M as []. destruct (plain_ok t f k Hf) as (P1 & P2 & P3 & P4 & P5 & P6).
  destruct (c_idle _ _ _ m_c0) as (i & Ei & Hi). set (nth := Thread _ _ _ _ _ _ _ _ _ _ _) in k1.
  assert (Hct : current k <> t) by congruence.
  split; try done.
  - eapply (cinv_new _ _ k k1 t nth m_c0); try done. split; [done|]. rewrite decide_False; [by constructor|].
    intros ?. simplify_eq. destruct Hi. congruence.
  - eapply sinv_ext; [| |eapply (sinv_thread none none k k1 t nth m_s0)]; try done.
    + intros l. unfold tval. rewrite Et. cbn. rewrite P3. done.
    + intros s. unfold tval. rewrite Et. unfold retries. cbn. rewrite decide_False by naive_solver. done.
    + split; [by constructor| |done]. by apply nodown_shape.
    + left. intros H. apply (c_sleep _ _ _ m_c0) in H as (? & ? & _). congruence.
  - cbn. by rewrite lookup_insert_ne.
  - intros x xth Ex Hx. cbn. rewrite lookup_insert_ne; [by apply m_idle0|]. intros ?. destruct Hi as [y Hy]. cbn in Ex. congruence.
Qed.

Lemma create_ok nm p f : forallb plain f = true ->
  (~ (get_page (dom (threads k)) = None \/ PRI_MIN <= p <= PRI_MAX) -> F) -> wp F (thread_create nm p f) (fun _ => inv) k.
Proof.
  intros Hf HF. unfold thread_create. apply wp_bind, wp_gets.
  destruct (get_page (dom (threads k))) as [t|] eqn:Ep; [|apply wp_ret; by eapply finish].
  destruct (get_page_fresh _ _ Ep) as [Ht Hn]. apply not_elem_of_dom in Ht.
  apply wp_bind. unfold init_thread. apply wp_bind, wp_assert; [intros _|rewrite (proj2 (Z.eqb_neq t 0)) by done; done].
  apply wp_bind, wp_assert.
  2:{ intros Hp. apply HF. intros [?|[H1 H2]]; [done|]. by rewrite (proj2 (Z.leb_le _ _) H1), (proj2 (Z.leb_le _ _) H2) in Hp. }
  intros _. apply wp_bind, wp_modify, wp_bind, wp_modify, wp_bind, wp_modify, wp_bind, wp_modify, wp_bind, wp_disable, wp_bind, wp_modify.
  apply wp_bind, wp_set_level; [left; apply (m_ext _ _ _ _ M)|]. apply wp_ret, wp_modify.
  match goal with |- inv (push_code ?a ?x) => set (k1 := x); set (ops := a) end.
  assert (M1 : mid none none th k1).
  { apply mid_level. eapply (mid_same none none th); [apply mid_level|done..].
    do 3 (eapply (owned_init_ok _ _ _ t); [|done|done]). by apply new_thread_ok. }
  set (nth := Thread 0 THREAD_BLOCKED (take 15 nm) p 0 0 [] false (-1) THREAD_MAGIC (KStart :: f)).
  assert (E1 : threads k1 = <[t := nth]> (threads k)) by done.
  pose proof (m_th _ _ _ _ M) as Ec. assert (Hct : current k <> t) by congruence.
  eapply mid_done; [eapply (mid_push _ _ _ _ ops M1); try done|..]; try done.
  - by repeat constructor.
  - by repeat constructor.
  - intros HT. split; [set_solver|done].
  - intros u ->%list_elem_of_singleton. split; [done|]. split; [exists nth; by rewrite E1, lookup_insert_eq|].
    intros w wth. rewrite E1, lookup_insert. case_decide.
    + intros [= <-]. change (targets (code nth)) with (targets f). destruct (plain_ok t f k Hf) as (_ & -> & _). set_solver.
    + intros Ew Hw. destruct (c_new _ _ _ (m_c _ _ _ _ M) _ _ _ Ew Hw) as (? & ? & _). congruence.
  - apply NoDup_singleton.
Qed.

End Create.

(** ** Continuations *)

Section Continue.
Context (F : Prop) (th : thread) (k : kstate).

Lemma hold_ok l : mid (fun x => - unit_of x (KHold l)) none th k -> idle_thread k <> Some (current k) ->
  is_Some (holders (sync k) !! l) -> wp F (take_hold l) (fun _ => inv) k.
Proof.
  intros M NI [h Eh]. destruct (proj2 (s_locks _ _ _ (m_s _ _ _ _ M) l)) as [v Ev]; [eauto|].
  pose proof (lock_value _ _ _ l v h (m_s _ _ _ _ M) Ev Eh) as HL. cbn in HL. rewrite decide_True in HL by done.
  pose proof (s_value _ _ _ (m_s _ _ _ _ M) _ _ Ev). destruct h as [h|]; [cbn in HL; lia|].
  unfold take_hold. apply wp_bind. eapply mid_current; [exact M|]. apply wp_modify.
  eapply mid_done; [eapply (mid_holder _ _ _ _ _ _ _ M Eh)|..]; try done. units_eq.
Qed.

Lemma kup_ok s : mid (fun x => - unit_of x (KUp s)) none th k -> idle_thread k <> Some (current k) ->
  is_Some (semas (sync k) !! s) -> sema_owner s = None -> wp F (sema_up s) (fun _ => inv) k.
Proof.
  intros M NI [v Ev] HO. eapply wp_sema_up; [exact Ev|unfold sema_alive; by rewrite HO| |left; apply (m_ext _ _ _ _ M)|].
  { intros t Ht. by eapply sema_waiter; [apply (m_c _ _ _ _ M)|..]. }
  pose proof (s_value _ _ _ (m_s _ _ _ _ M) s v Ev) as HV.
  eapply mid_done; [by apply mid_upped; [exact M|]|..]; cbn.
  - intros l. case_decide as Hs; [|lia]. subst s.
    destruct (proj1 (s_locks _ _ _ (m_s _ _ _ _ M) l)) as [h Eh]; [eauto|].
    pose proof (lock_value _ _ _ l v h (m_s _ _ _ _ M) Ev Eh) as HL. cbn in HL. rewrite decide_True in HL by done.
    assert (0 <= held h) by (by destruct h). rewrite u32_small by (unfold is_u32; lia). lia.
  - done.
  - unfold upped. destruct (waiters v); cbn; congruence.
Qed.

Lemma tid_ok t : mid none none th k -> idle_thread k <> Some (current k) -> t ∈ targets (code th) ->
  wp F (take_tid t) (fun _ => inv) k.
Proof.
  intros M NI Ht. pose proof M as []. destruct (c_new _ _ _ m_c0 _ _ _ m_th0 Ht) as (tth & Et & Bt & Rt).
  assert (Hct : t <> current k) by (intros ->; destruct (run_lookup _ _ _ m_c0) as (? & ? & ? & _); congruence).
  unfold take_tid. apply wp_bind. eapply wp_get_thread; [exact Et|]. apply wp_bind, wp_gets, wp_bind, wp_modify, wp_modify.
  match goal with |- inv ?x => set (k1 := x) end.
  set (tth' := with_tid (next_tid k) tth).
  assert (ET : threads k1 = <[t := tth']> (threads k)) by (by apply alter_insert_eq).
  assert (NT : t ∉ targets (code tth)) by (intros Hs; by apply Hct, (c_new_once _ _ _ m_c0 t (current k) tth th t)).
  eapply (mid_done none none th); try done. split; try done.
  - by eapply (cinv_member _ _ k k1 t tth tth' m_c0).
  - eapply sinv_ext; [| |eapply (sinv_thread none none k k1 t tth' m_s0 ET)]; try done.
    + intros l. cbn beta. rewrite (tval_some _ _ _ tth) by done. cbn. unfold none. lia.
    + intros s. cbn beta. rewrite (tval_some _ _ _ tth) by done. change (retries s tth') with (retries s tth). unfold none. lia.
    + destruct (s_tok _ _ _ m_s0 _ _ Et). by split.
    + right. by exists tth.
  - rewrite ET. by rewrite lookup_insert_ne.
  - intros i ith Ei Hi. rewrite ET, lookup_insert. case_decide as Hti; [|by apply m_idle0]. intros [= <-]. subst i.
    exact (m_idle0 t tth Ei Hi Et).
Qed.

Lemma kunblock_ok t tth : mid none none th k -> idle_thread k <> Some (current k) ->
  threads k !! t = Some tth -> status tth = THREAD_BLOCKED -> reason (code tth) = WNew ->
  (forall u uth, threads k !! u = Some uth -> t ∉ targets (code uth)) ->
  wp F (thread_unblock t) (fun _ => inv) k.
Proof.
  intros M NI Et Bt Rt NT. pose proof M as [].
  assert (Hct : t <> current k) by (intros ->; destruct (run_lookup _ _ _ m_c0) as (? & ? & ? & _); congruence).
  eapply wp_unblock; [exact Et|apply (c_ok _ _ _ m_c0 _ _ Et)|done|by left|].
  match goal with |- inv ?x => set (k1 := x) end. set (tth' := with_status THREAD_READY tth).
  assert (ET : threads k1 = <[t := tth']> (threads k)) by (by apply alter_insert_eq).
  eapply (mid_done none none th); try done. split; try done.
  - eapply (cinv_wake _ k k1 t tth m_c0 Et Bt); try done; rewrite ?Rt; try done.
    + intros s v Ev. exists v. split; [done|]. right. split; [done|]. congruence.
    + by right.
  - eapply sinv_ext; [| |eapply (sinv_thread none none k k1 t tth' m_s0 ET)]; try done.
    + intros l. cbn beta. rewrite (tval_some _ _ _ tth) by done. cbn. unfold none. lia.
    + intros s. cbn beta. rewrite (tval_some _ _ _ tth) by done. unfold retries. cbn. rewrite Rt, !decide_False by naive_solver. done.
    + destruct (s_tok _ _ _ m_s0 _ _ Et). by split.
    + right. by exists tth.
  - rewrite ET. by rewrite lookup_insert_ne.
  - intros i ith Ei Hi. rewrite ET, lookup_insert. case_decide as Hti; [|by apply m_idle0]. intros [= <-]. subst i.
    exact (m_idle0 t tth Ei Hi Et).
Qed.

End Continue.

(** ** The step theorem *)

Section Step.
Context `{PS : PageSource}.

Lemma level_ok F (l : intr_level) d th k : mid d none th k -> (forall x, d x = 0) ->
  (idle_thread k = Some (current k) -> loops (code th)) ->
  wp F (let* _ := intr_set_level l in mret tt) (fun _ => inv) k.
Proof.
  intros M Hd HI. apply wp_bind, wp_set_level; [left; apply (m_ext _ _ _ _ M)|]. apply wp_ret.
  eapply mid_done; [by apply mid_level|done|done|done].
Qed.

(** The idle thread's next operation. *)
Lemma idle_op_ok F k th o c : inv k -> threads k !! current k = Some th -> code th = o :: c ->
  idle_thread k = Some (current k) -> wp F (exec_op o) (fun _ => inv) (upd_thread (current k) (with_code c) k).
Proof.
  intros I E EC HI. pose proof (pop_ok k th o c I E EC) as M. pose proof (i_idle _ I _ _ HI E) as LO. rewrite EC in LO.
  destruct (c_ok _ _ _ (i_c _ I) _ _ E) as [_ OC]. rewrite EC, decide_True in OC by done.
  set (k1 := upd_thread _ _ _) in *.
  assert (Ho : (exists l, o = KLevel l) \/ o = KIret \/ ((o = KIdleLoop \/ o = KIdleHlt) /\ c = [])).
  { destruct OC as (pre & suf & Eo & Fo & So). destruct pre as [|x pre].
    - right; right. destruct So as [->|[->| ->]]; cbn in Eo; [done|..]; injection Eo as -> ->; auto.
    - injection Eo as <- ->. apply Forall_cons in Fo as [Hx _]. destruct o; try done; eauto. }
  assert (M' : mid none none (with_code c th) k1).
  { eapply mid_ext; [..|exact M]; intros x; cbn beta.
    - destruct Ho as [[l ->]|[->|[[->| ->] ->]]]; cbn; unfold none; lia.
    - unfold retries. rewrite EC, decide_False; [done|]. intros [_ R].
      by destruct Ho as [[l ->]|[->|[[->| ->] ->]]]. }
  destruct Ho as [[l ->]|[->|[[->| ->] ->]]]; cbn [exec_op].
  - eapply level_ok; [exact M'|done|]. intros _. by eapply loops_pop.
  - apply wp_modify. eapply mid_done; [by apply mid_level|done|done|]. intros _. by eapply loops_pop.
  - by eapply wp_idle_loop.
  - unfold idle_hlt. apply wp_bind, wp_modify, wp_modify. eapply mid_done; [apply mid_level|..].
    + eapply (mid_push _ _ _ _ [KIdleLoop] M'); try done; [|by repeat constructor|set_solver|constructor].
      intros _. exists [], [KIdleLoop]. split; [done|]. split; [done|]. by right; left.
    + intros l. done.
    + done.
    + intros _. exists [], KIdleLoop. by split; [|left].
Qed.

(** Another thread's next operation. *)
Lemma thread_op_ok k th o c : inv k -> threads k !! current k = Some th -> code th = o :: c ->
  idle_thread k <> Some (current k) ->
  wp (~ contract k o) (exec_op o) (fun _ => inv) (upd_thread (current k) (with_code c) k).
Proof.
  intros I E EC HI. pose proof (pop_ok k th o c I E EC) as M.
  destruct (c_ok _ _ _ (i_c _ I) _ _ E) as [_ OC]. rewrite EC, decide_False in OC by done. apply Forall_cons in OC as [Ho _].
  destruct (s_tok _ _ _ (i_s _ I) _ _ E) as [TR [_ TT TL] _]. rewrite EC in TR, TT, TL. apply Forall_cons in TR as [Tr _].
  set (k1 := upd_thread _ _ _) in *.
  assert (DM : dom (threads k1) = dom (threads k)) by apply dom_alter_L.
  assert (M0 : (forall l, unit_of l o = 0) -> reason (o :: c) = WNone \/ reason (o :: c) = WNew \/ reason (o :: c) = WSleep ->
    o <> OExit -> mid none none (with_code c th) k1).
  { intros H1 H2 H3. eapply mid_ext; [..|exact M]; intros x; cbn beta.
    - specialize (H1 x). assert (units x (o :: c) = unit_of x o + units x c) by (by destruct o). unfold none. lia.
    - unfold retries. rewrite EC, decide_False; [done|]. intros [_ R]. destruct H2 as [H2|[H2|H2]]; congruence. }
  assert (M1 : o <> OExit -> reason (o :: c) = WNone -> mid (fun x => - unit_of x o) none (with_code c th) k1).
  { intros H1 H2. eapply mid_ext; [..|exact M]; intros x; cbn beta.
    - assert (units x (o :: c) = unit_of x o + units x c) by (by destruct o). lia.
    - unfold retries. rewrite EC, decide_False; [done|]. intros [_ R]. congruence. }
  assert (NS : forall s, ~ is_Some (semas (sync k) !! s) <-> semas (sync k) !! s = None) by (intros; by rewrite eq_None_not_Some).
  destruct o; try done; try (assert (M' := M0 ltac:(done) ltac:(cbn; tauto) ltac:(done))); cbn [exec_op contract].
  - eapply wp_mono; [|by eapply wp_yield]. by intros _ k' [? _].
  - by eapply sleep_ok.
  - eapply down_ok; try done. by rewrite NS.
  - apply wp_bind. eapply try_down_ok; try done; [by rewrite NS|intros _; apply wp_ret; by eapply finish|].
    intros v _ _ M2. apply wp_ret. eapply finish; [exact HI| |done|done]. exact M2.
  - eapply up_ok; try done; [by rewrite NS|]. intros k' v _ E1 E2 M2. eapply finish; [exact HI| |done|done]. exact M2.
  - by eapply acquire_ok.
  - by eapply try_acquire_ok.
  - by eapply release_ok.
  - by eapply cond_wait_ok.
  - by eapply signal_ok.
  - by eapply broadcast_ok.
  - eapply create_ok; try done. by rewrite DM.
  - by eapply (level_ok _ INTR_ON).
  - eapply (wp_thread_exit _ (fun l => units l c) none); [eapply mid_ext; [..|exact M]|..]; try done.
    + intros l. cbn. lia.
    + intros x. unfold retries. rewrite EC, decide_False; [done|]. by intros [_ ?].
  - by eapply set_priority_ok.
  - destruct Tr as [v Ev]. eapply (wp_down_loop _ (fun l => if decide (s = SLock l) then 1 else 0) _ _ k1 s v); try done.
    + eapply mid_ext; [..|exact M]; [|done]. intros l. cbn. case_decide; lia.
    + eapply (i_off _ I); done.
    + intros l ->. by apply (TL l old).
    + intros x. unfold retries. rewrite EC. cbn. do 2 case_decide; try done. naive_solver.
  - by eapply level_ok.
  - by eapply wp_sleep_until.
  - by eapply level_ok.
  - eapply hold_ok; try done. by apply M1.
  - eapply kup_ok; try done. by apply M1.
  - apply wp_bind. eapply mid_current; [exact M'|]. eapply down_ok; try done.
    cbn. intros Hn. destruct Tr as [v Ev]. cbn in Ev. congruence.
  - eapply tid_ok; try done. apply TT.
  - destruct (c_new _ _ _ (i_c _ I) _ _ t E) as (tth & Et & Bt & Rt); [rewrite EC; set_solver|].
    assert (Hct : t <> current k) by (intros ->; destruct (run_lookup _ _ _ (i_c _ I)) as (? & ? & ? & _); congruence).
    eapply (kunblock_ok _ _ _ t tth); try done; [unfold k1; cbn; by rewrite lookup_alter_ne|].
    intros u uth. unfold k1. cbn. rewrite lookup_alter. case_decide as Hu.
    + rewrite E. intros [= <-]. cbn. pose proof (c_new_nodup _ _ _ (i_c _ I) _ _ E) as N. rewrite EC in N.
      by apply NoDup_cons in N as [N _].
    + intros Eu Ht. apply Hu. eapply (c_new_once _ _ _ (i_c _ I) (current k) u th uth t); try done. rewrite EC. set_solver.
  - by eapply (level_ok _ INTR_ON).
  - apply wp_modify. eapply mid_done; [by apply mid_level|done..].
Qed.

(** A step of the current thread preserves the invariant; it faults only if the thread
    makes a call whose contract does not hold. *)
Lemma step_op_ok k th : inv k -> threads k !! current k = Some th ->
  wp (exists o c, code th = o :: c /\ ~ contract k o) step_op (fun _ => inv) k.
Proof.
  intros I E. unfold step_op. apply wp_bind, wp_gets, wp_bind. eapply wp_get_thread; [done|].
  destruct (code th) as [|o c] eqn:EC.
  - assert (NI : idle_thread k <> Some (current k)).
    { intros Hi. destruct (i_idle _ I _ _ Hi E) as (pre & o & Ec & _). rewrite EC in Ec. by destruct pre. }
    eapply (wp_thread_exit _ none none th); [|by rewrite EC|done|done]. destruct I. split; try done; [eauto|by rewrite EC].
  - apply wp_bind, wp_modify. destruct (decide (idle_thread k = Some (current k))) as [Hi|Hi].
    + by eapply idle_op_ok.
    + pose proof (thread_op_ok k th o c I E EC Hi) as H. unfold wp in *. destruct (exec_op o _) as [[]|]; [done|]. eauto.
Qed.

Lemma step_inv k k' : inv k -> step k k' -> inv k'.
Proof.
  intros I H. destruct (run_lookup _ _ _ (i_c _ I)) as (th & E & _). destruct H as [k' H|k' HL H].
  - pose proof (step_op_ok k th I E) as W. unfold wp in W. by rewrite H in W.
  - pose proof (wp_interrupt True k I HL) as W. unfold wp in W. rewrite H in W. apply W.
Qed.

Lemma steps_inv k k' : inv k -> rtc step k k' -> inv k'.
Proof. intros I H. induction H as [|k k1 k2 H _ IH]; [done|]. by eapply IH, step_inv. Qed.

End Step.

(** ** Start of the system *)

(** The initial thread [p] is about to run [main], interrupts are on, and the idle thread
    [i] waits in its loop: the state in which [thread_start] returns. *)
Definition launched (p i : Z) (pth ith : thread) (al : list Z) (n : Z) (sy : sync_state) (c : cpu_state) (ck : clock_state) : kstate :=
  KState (<[p := pth]> {[ i := ith ]}) p [] al [] (Some i) p n sy c ck.

(** Semaphores and locks nobody uses yet. *)
Definition fresh_sema (sy : sync_state) (s : sid) (v : semaphore) : Prop :=
  waiters v = [] /\ 0 <= value v < 2 ^ 32 /\
  match s with SLock l => value v = 1 /\ holders sy !! l = Some None | _ => True end.
#[export] Instance fresh_sema_dec sy s v : Decision (fresh_sema sy s v).
Proof. unfold fresh_sema. destruct s; apply _. Defined.
Record fresh_sync (sy : sync_state) : Prop := {
  f_semas : map_Forall (fresh_sema sy) (semas sy);
  f_holders : map_Forall (fun l _ => is_Some (semas sy !! SLock l)) (holders sy);
  f_conds : map_Forall (fun _ ws => ws = []) (conds sy)
}.

Lemma launched_cinv p i pth ith al n sy c ck : p <> i -> status pth = THREAD_RUNNING -> magic pth = THREAD_MAGIC ->
  forallb plain (code pth) = true -> status ith = THREAD_BLOCKED -> magic ith = THREAD_MAGIC -> code ith = [KIdleHlt] ->
  fresh_sync sy -> cinv (Some p) None (launched p i pth ith al n sy c ck).
Proof.
  intros Hpi SP MP CP SI MI CI [FS _ _]. set (m := <[p := pth]> {[ i := ith ]} : gmap Z thread). destruct (plain_ok p (code pth) (launched p i pth ith al n sy c ck) CP) as (P1 & P2 & _).
  assert (LK : forall t th, m !! t = Some th <-> (t = p /\ th = pth) \/ (t = i /\ th = ith)).
  { intros t th. unfold m. rewrite lookup_insert, lookup_singleton. split.
    - case_decide; [intros [= <-]; by left|]. case_decide; [intros [= <-]; by right|done].
    - intros [[-> ->]|[-> ->]]; [by rewrite decide_True|by rewrite decide_False, decide_True]. }
  assert (NO : forall (P : thread -> Prop) t, ~ P pth -> ~ P ith -> ~ exists th, m !! t = Some th /\ P th).
  { intros P t H1 H2 (th & [[-> ->]|[-> ->]]%LK & H); done. }
  assert (TG : forall t th u, m !! t = Some th -> u ∉ targets (code th)).
  { intros t th u [[-> ->]|[-> ->]]%LK; [rewrite P2|rewrite CI]; set_solver. }
  split; cbn [launched threads ready_list sleeping_list sync idle_thread initial_thread]; fold m.
  - intros t th [[-> ->]|[-> ->]]%LK; [rewrite SP|rewrite SI]; split; try done. intros [= ?]. congruence.
  - intros t [= <-]. unfold m. rewrite lookup_insert_eq. eauto.
  - intros t th [[-> ->]|[-> ->]]%LK; split; try done.
    + rewrite decide_False by congruence. done.
    + rewrite decide_True by done. exists [], [KIdleHlt]. split; [done|]. split; [done|]. by right; right.
  - intros t. rewrite elem_of_nil. split; [done|].
    apply (NO (fun th => status th = THREAD_READY /\ Some i <> Some t)); intros [? _]; congruence.
  - intros s v t Ev. rewrite (proj1 (FS s v Ev)), elem_of_nil. split; [done|].
    apply (NO (fun th => status th = THREAD_BLOCKED /\ reason (code th) = WSema s)); [intros [? _]; congruence|]. rewrite CI. by intros [_ ?].
  - intros t th s [[-> ->]|[-> ->]]%LK B R; [congruence|]. by rewrite CI in R.
  - intros t. rewrite elem_of_nil. split; [done|].
    apply (NO (fun th => status th = THREAD_BLOCKED /\ reason (code th) = WSleep)); [intros [? _]; congruence|]. rewrite CI. by intros [_ ?].
  - intros t th [[-> ->]|[-> ->]]%LK B; [congruence|]. by rewrite CI.
  - intros u uth t Eu Ht. by destruct (TG u uth t).
  - intros u v uth vth t Eu _ Ht. by destruct (TG u uth t).
  - intros u uth [[-> ->]|[-> ->]]%LK; [rewrite P2|rewrite CI]; constructor.
  - constructor.
  - intros s v Ev. rewrite (proj1 (FS s v Ev)). constructor.
  - constructor.
  - exists i. unfold m. rewrite lookup_insert_ne, lookup_singleton_eq by done. eauto.
  - intros t th [[-> ->]|[-> ->]]%LK; congruence.
Qed.

Lemma launched_inv p i pth ith al n sy c ck : p <> i -> status pth = THREAD_RUNNING -> magic pth = THREAD_MAGIC ->
  forallb plain (code pth) = true -> status ith = THREAD_BLOCKED -> magic ith = THREAD_MAGIC -> code ith = [KIdleHlt] ->
  fresh_sync sy -> in_external_intr c = false -> inv (launched p i pth ith al n sy c ck).
Proof.
  intros Hpi SP MP CP SI MI CI F HE. set (k := launched p i pth ith al n sy c ck).
  destruct (plain_ok p (code pth) k CP) as (P1 & P2 & P3 & P4 & P5 & P6). pose proof F as [FS FH FC].
  assert (LK : forall t th, threads k !! t = Some th -> (t = p /\ th = pth) \/ (t = i /\ th = ith)).
  { intros t th. cbn. rewrite lookup_insert, lookup_singleton.
    case_decide; [intros [= <-]; by left|]. case_decide; [intros [= <-]; by right|done]. }
  split; [by apply launched_cinv| |done|..].
  - split.
    + intros t th [[-> ->]|[-> ->]]%LK; split; try congruence; [by apply nodown_shape|rewrite CI; by repeat constructor|].
      rewrite CI. by apply nodown_shape.
    + intros x ws s Ex Hs. rewrite (FC x ws Ex) in Hs. set_solver.
    + intros s v Ev. apply (FS s v Ev).
    + intros l. split; [intros [v Ev]; destruct (FS _ v Ev) as (_ & _ & _ & Eh); by exists None|]. intros [h Eh]. by apply (FH l h).
    + intros l v h Ev Eh. destruct (FS _ v Ev) as (_ & _ & -> & Eh'). change (holders sy !! l = Some h) in Eh. rewrite Eh in Eh'. injection Eh' as ->. cbn [held].
      rewrite tsum_zero; [done|]. intros t. unfold tval. destruct (_ !! t) as [th|] eqn:Et; [|done]. cbn.
      destruct (LK t th Et) as [[-> ->]|[-> ->]]; [by rewrite P3|by rewrite CI].
    + intros s v Ev Hw. by rewrite (proj1 (FS s v Ev)) in Hw.
    + constructor.
  - intros x xth [= <-] [[? ->]|[_ ->]]%LK; [congruence|]. rewrite CI. exists [], KIdleHlt. by split; [|right].
  - intros th s old x E Ec. cbn in E. rewrite lookup_insert_eq in E. injection E as <-. by rewrite Ec in P4.
Qed.

(** A source of pages for the examples: the page after the highest one in use. *)
Definition next_page (used : gset Z) : option Z := Some (4096 + foldr Z.max 0 (elements used)).
Lemma next_page_fresh used p : next_page used = Some p -> p ∉ used /\ p <> 0.
Proof.
  intros [= <-]. assert (H : forall l : list Z, 0 <= foldr Z.max 0 l /\ forall x, x ∈ l -> x <= foldr Z.max 0 l).
  { induction l as [|y l [IH1 IH2]]; cbn; [split; [done|set_solver]|]. split; [lia|].
    intros x [->|Hx]%elem_of_cons; [lia|]. specialize (IH2 x Hx). lia. }
  destruct (H (elements used)) as [H1 H2]. split; [|lia]. intros Hu. apply elem_of_elements, H2 in Hu. lia.
Qed.
Definition next_page_source : PageSource := {| get_page := next_page; get_page_fresh := next_page_fresh |}.

Definition booted (main : list op) : kstate :=
  match run_ops (PS := next_page_source) 18 (boot 4096 [1; 2] [1] [1] main) with Ok (_, k) => k | Fail _ => boot 4096 [] [] [] [] end.

Lemma launched_eq k p i pth ith : threads k = <[p := pth]> {[ i := ith ]} -> current k = p -> ready_list k = [] ->
  sleeping_list k = [] -> idle_thread k = Some i -> initial_thread k = p ->
  k = launched p i pth ith (all_list k) (next_tid k) (sync k) (cpu k) (clock k).
Proof. destruct k. cbn. by intros -> -> -> -> -> ->. Qed.

Lemma booted_inv main : forallb plain main = true -> inv (booted main).
Proof.
  intros HM. rewrite (launched_eq (booted main) 4096 8192
    (Thread 1 THREAD_RUNNING [109; 97; 105; 110] PRI_DEFAULT 0 0 [] false (-1) THREAD_MAGIC main)
    (Thread 2 THREAD_BLOCKED [105; 100; 108; 101] PRI_MIN 0 0 [] false (-1) THREAD_MAGIC [KIdleHlt])) by by_kernel.
  apply launched_inv; [done|done|done|exact HM|done|done|done| |by_kernel].
  split; apply (bool_decide_eq_true_1 _); by_kernel.
Qed.

(** ** The theorems *)

Section Claims.
Context `{PS : PageSource}.

Lemma run_ops_steps n : forall k k', run_ops n k = Ok (tt, k') -> rtc step k k'.
Proof.
  induction n as [|n IH]; intros k k'; cbn [run_ops].
  - intros [= <-]. constructor.
  - unfold mbind, M_bind. destruct (step_op k) as [[[] k1]|] eqn:E; [|done]. intros H. eapply rtc_l; [by constructor|by apply IH].
Qed.

(** C2: In every state the machine reaches, whatever calls the threads make and whenever
    timer interrupts arrive, every thread is in exactly one place: the current thread is
    the running one, the ready list holds each ready thread once, a blocked thread is in
    the waiters of the one semaphore it waits on, or in the sleep queue, or is the idle
    thread or a thread not started yet; the sleep queue is sorted, and units of locks and
    semaphores are accounted for. *)
Theorem sched_invariant k k' : inv k -> rtc step k k' -> inv k'.
Proof. apply steps_inv. Qed.

(** C3: A timer interrupt never faults, and the current thread's next operation faults only
    if it is a call whose contract does not hold: no assertion of the scheduler, of the
    semaphores' wake-up path, of the timer or of a call's continuation can fail. *)
Theorem step_progress k th : inv k -> threads k !! current k = Some th ->
  (intr_on (cpu k) = INTR_ON -> exists k', external_interrupt k = Ok (tt, k')) /\
  ((forall o c, code th = o :: c -> contract k o) -> exists k', step_op k = Ok (tt, k')).
Proof.
  intros I E. split.
  - intros HL. pose proof (wp_interrupt False k I HL) as W. unfold wp in W.
    destruct (external_interrupt k) as [[[] k']|]; [eauto|done].
  - intros HC. pose proof (step_op_ok k th I E) as W. unfold wp in W. destruct (step_op k) as [[[] k']|]; [eauto|].
    destruct W as (o & c & Ec & Hn). exfalso. apply Hn. by eapply HC.
Qed.

(** [t] owns lock [l]: it is the recorded holder, or it has taken the lock's semaphore and
    not recorded it yet, or has removed itself and not released the semaphore yet. *)
Definition owns k (l t : Z) : Prop :=
  holders (sync k) !! l = Some (Some t) \/ exists th, threads k !! t = Some th /\ 0 < units l (code th).

(** C8: Mutual exclusion: in every reachable state a lock has at most one owner, and while
    it has one the value of its semaphore is 0, so nobody else can take it. *)
Theorem lock_exclusion k k' l v t u : inv k -> rtc step k k' -> semas (sync k') !! SLock l = Some v ->
  owns k' l t -> owns k' l u -> t = u /\ value v = 0.
Proof.
  intros I H Ev Ht Hu. destruct (steps_inv _ _ I H) as [_ S _ _ _].
  destruct (proj1 (s_locks _ _ _ S l)) as [h Eh]; [eauto|].
  pose proof (s_lock _ _ _ S l v h Ev Eh) as HL. pose proof (s_value _ _ _ S _ _ Ev) as HV.
  assert (NN : forall x xth, threads k' !! x = Some xth -> 0 <= units l (code xth)).
  { intros x xth Ex. apply units_nonneg, (t_shape _ _ _ (s_tok _ _ _ S x xth Ex)). }
  assert (HS : 0 <= tsum (fun th => units l (code th)) (threads k')) by (apply tsum_nonneg; eauto).
  assert (HM : forall x xth, threads k' !! x = Some xth -> 0 < units l (code xth) ->
    1 <= tsum (fun th => units l (code th)) (threads k')).
  { intros x xth Ex Hx. pose proof (tsum_member (fun th => units l (code th)) (threads k') x xth NN Ex). cbn in *. lia. }
  destruct Ht as [Ht|(tth & Et & Ht)], Hu as [Hu|(uth & Eu & Hu)]; simplify_eq; cbn [held] in HL.
  - split; [done|lia].
  - specialize (HM u uth Eu Hu). lia.
  - specialize (HM t tth Et Ht). lia.
  - pose proof (HM t tth Et Ht). split; [|destruct h; cbn [held] in HL; lia].
    destruct (decide (t = u)) as [|Hne]; [done|].
    pose proof (tsum_two (fun th => units l (code th)) (threads k') t u tth uth NN Et Eu Hne). cbn in *.
    destruct h; cbn [held] in HL; lia.
Qed.

(** C20: No lost wake-up: in every reachable state, if threads wait on a semaphore whose
    value is not 0, then a thread that was woken up for it is ready or running and about
    to try again. *)
Theorem no_lost_wakeup k k' s v : inv k -> rtc step k k' -> semas (sync k') !! s = Some v -> waiters v <> [] -> 0 < value v ->
  exists t th old c, threads k' !! t = Some th /\ (status th = THREAD_READY \/ status th = THREAD_RUNNING) /\
    code th = KDown s old :: c.
Proof.
  intros I H Ev Hw Hv. destruct (steps_inv _ _ I H) as [_ S _ _ _]. pose proof (s_wake _ _ _ S s v Ev Hw) as HS. cbn beta in HS.
  destruct (tsum_pos (retries s) (threads k')) as (t & th & Et & Hr); [lia|]. unfold retries in Hr. case_decide as Hc; [|lia].
  destruct Hc as [HB HR]. destruct (code th) as [|o c] eqn:EC; [done|]. destruct o; try done. injection HR as ->.
  exists t, th, old, c. split; [done|]. split; [|done]. destruct (status th) eqn:ES; try tauto.
  pose proof (t_dead _ _ _ (s_tok _ _ _ S t th Et) ES). congruence.
Qed.

(** C21: A timer interrupt advances the clock by one tick; exactly the sleeping threads
    whose wake-up time has come leave the sleep queue, which keeps its order, and they are
    ready or running when it returns. *)
Theorem timer_interrupt_wakes k : inv k -> intr_on (cpu k) = INTR_ON ->
  exists k', external_interrupt k = Ok (tt, k') /\ inv k' /\ ticked (s64 (ticks (clock k) + 1)) k k'.
Proof.
  intros I HL. pose proof (wp_interrupt False k I HL) as W. unfold wp in W.
  destruct (external_interrupt k) as [[[] k']|]; [|done]. by exists k'.
Qed.

End Claims.

(** *** Witnesses *)

(** Two threads wait on semaphore 1 when the initial thread, holding lock 1, ups it. *)
Definition demo_code : list op :=
  [OCreate [97] 31 [ODown 1]; OCreate [98] 31 [ODown 1]; OYield; OAcquire 1; OUp 1; OSleep 5].
Definition demo (n : nat) : kstate :=
  match run_ops (PS := next_page_source) n (booted demo_code) with Ok (_, k) => k | Fail _ => booted [] end.

Lemma demo_start : inv (booted demo_code).
Proof. by apply booted_inv. Qed.
Lemma demo_run n : (match run_ops (PS := next_page_source) n (booted demo_code) with Ok _ => true | _ => false end) = true ->
  rtc (step (PS := next_page_source)) (booted demo_code) (demo n).
Proof.
  intros H. apply (run_ops_steps n). unfold demo. by destruct (run_ops n (booted demo_code)) as [[[] k]|].
Qed.
Lemma demo_steps : rtc (step (PS := next_page_source)) (booted demo_code) (demo 23).
Proof. apply demo_run. by_kernel. Qed.
Lemma demo_28 : inv (demo 28).
Proof.
  apply (steps_inv (PS := next_page_source) (booted demo_code)); [apply demo_start|].
  apply demo_run. by_kernel.
Qed.

Lemma sched_invariant_witness : inv (demo 23).
Proof. apply (sched_invariant (PS := next_page_source) (booted demo_code)); [apply demo_start|apply demo_steps]. Defined.

Definition demo_idle : thread := Thread 2 THREAD_RUNNING [105; 100; 108; 101] PRI_MIN 0 0 [] false (-1) THREAD_MAGIC [KIdleLoop].
Lemma step_progress_witness : threads (demo 28) !! 8192 = Some demo_idle /\
  (exists k', external_interrupt (demo 28) = Ok (tt, k')) /\ (exists k', step_op (PS := next_page_source) (demo 28) = Ok (tt, k')).
Proof.
  assert (E : threads (demo 28) !! 8192 = Some demo_idle) by by_kernel. split; [exact E|].
  assert (HU : current (demo 28) = 8192) by by_kernel.
  destruct (step_progress (PS := next_page_source) (demo 28) demo_idle demo_28) as [H1 H2]; [rewrite HU; exact E|].
  split; [apply H1; by_kernel|]. apply H2. by intros o c [= <- <-].
Defined.

Lemma lock_exclusion_witness : owns (demo 23) 1 4096 /\ exists v, semas (sync (demo 23)) !! SLock 1 = Some v /\ value v = 0.
Proof.
  assert (O : owns (demo 23) 1 4096) by (left; by_kernel). split; [exact O|].
  assert (E : semas (sync (demo 23)) !! SLock 1 = Some (Sema 0 [])) by by_kernel. eexists. split; [exact E|].
  eapply (lock_exclusion (PS := next_page_source) (booted demo_code) (demo 23) 1 (Sema 0 []) 4096 4096); [apply demo_start|apply demo_steps|exact E|exact O|exact O].
Defined.

Lemma no_lost_wakeup_witness : exists v, semas (sync (demo 23)) !! SNamed 1 = Some v /\ waiters v = [16384] /\
  exists t th old c, threads (demo 23) !! t = Some th /\ (status th = THREAD_READY \/ status th = THREAD_RUNNING) /\
    code th = KDown (SNamed 1) old :: c.
Proof.
  assert (E : semas (sync (demo 23)) !! SNamed 1 = Some (Sema 1 [16384])) by by_kernel.
  eexists. split; [exact E|]. split; [done|].
  eapply (no_lost_wakeup (PS := next_page_source) (booted demo_code) (demo 23) (SNamed 1) (Sema 1 [16384])); [apply demo_start|apply demo_steps|exact E|done|done].
Defined.

Lemma timer_interrupt_wakes_witness : sleeping_list (demo 28) = [4096] /\
  exists k', external_interrupt (demo 28) = Ok (tt, k') /\ inv k' /\ ticked (s64 (ticks (clock (demo 28)) + 1)) (demo 28) k'.
Proof. split; [by_kernel|]. apply (timer_interrupt_wakes (demo 28) demo_28). by_kernel. Defined.

End SchedStep.
