(* ===== verification/Printf.v ===== *)
(** * Formatted output (src/lib/stdio.c, src/lib/kernel/console.c, src/lib/user/console.c)

    The formatting engine [__vprintf], with the output function it is given as an argument, and its three
    clients: [vsnprintf], the console of the kernel and the buffered console of user programs.

    A world is the byte memory, which holds the format and the strings, and whatever else the output function
    works on.  A [va_list] is the list of the 32-bit words that are left of the arguments, as the calling
    convention of the IA-32 lays them out (a 64-bit argument is two words, the low one first); characters and
    shorts are promoted to [int].  String literals are objects in memory: [lit s] is the address of the literal [s].
    The divisions by the base are those of Arithmetic, which is what the compiler calls for them. *)

From Stdlib Require Import Ascii String.
From S2P Require Import Prelude Arithmetic Mem Strings Qsort.
Import Mem Strings.

Module Printf.

(** The code of a character, and the bytes of a literal. *)
Definition ch (c : ascii) : Z := Z.of_N (N_of_ascii c).
Fixpoint str (s : string) : list Z := match s with EmptyString => [] | String c s => ch c :: str s end.
Arguments ch c%_char_scope.
Arguments str s%_string_scope.

(** ** Conversion specifications *)

Definition MINUS : Z := Z.shiftl 1 0.
Definition PLUS : Z := Z.shiftl 1 1.
Definition SPACE : Z := Z.shiftl 1 2.
Definition POUND : Z := Z.shiftl 1 3.
Definition ZERO : Z := Z.shiftl 1 4.
Definition GROUP : Z := Z.shiftl 1 5.

Inductive arg_type := CHAR | SHORT | INT | INTMAX | LONG | LONGLONG | PTRDIFFT | SIZET.

Record printf_conversion := Conversion { flags : Z; width : Z; precision : Z; type : arg_type }.

Record integer_base := Base { base : Z; digits : list Z; base_char : Z; group : Z }.

Definition base_d : integer_base := Base 10 (str "0123456789") 0 3.
Definition base_o : integer_base := Base 8 (str "01234567") 0 3.
Definition base_x : integer_base := Base 16 (str "0123456789abcdef") (ch "x") 4.
Definition base_X : integer_base := Base 16 (str "0123456789ABCDEF") (ch "X") 4.

(** [c->flags & f]. *)
Definition has (fl f : Z) : bool := negb (Z.land fl f =? 0).

Section Output.
Context {X : Type}.
Notation world := (mem * X)%type.

Definition on_mem {A} (f : M mem A) : M world A := fun w =>
  match f w.1 with Ok (a, m) => Ok (a, (m, w.2)) | Fail e => Fail e end.
Definition rd (a : Z) : M world Z := on_mem (get_byte a).
Definition loop_fuel : M world nat := gets (fun w : world => fuel w.1).

Definition va_arg32 (args : list Z) : M world (Z * list Z) := match args with v :: args => mret (v, args) | [] => fail FMemory end.
Definition va_arg64 (args : list Z) : M world (Z * list Z) := match args with lo :: hi :: args => mret (lo + 2 ^ 32 * hi, args) | _ => fail FMemory end.

Definition flag_of (c : Z) : option Z :=
  if c =? ch "-" then Some MINUS else if c =? ch "+" then Some PLUS else if c =? ch " " then Some SPACE else
  if c =? ch "#" then Some POUND else if c =? ch "0" then Some ZERO else if c =? ch "'" then Some GROUP else None.

Fixpoint parse_flags (n : nat) (format fl : Z) : M world (Z * Z) :=
  match n with
  | O => fail FFuel
  | S n =>
    let* c := rd format in
    match flag_of c with
    | Some f => parse_flags n (format + 1) (Z.lor fl f)
    | None => mret (format, fl)
    end
  end.

Fixpoint parse_number (n : nat) (format value : Z) : M world (Z * Z) :=
  match n with
  | O => fail FFuel
  | S n =>
    let* c := rd format in
    if Qsort.isdigit c then parse_number n (format + 1) (s32 (value * 10 + c - ch "0")) else mret (format, value)
  end.

(** A number, or the next argument for a star: the position after it, its value, and the rest of the arguments. *)
Definition number_or_star (format : Z) (args : list Z) : M world (Z * Z * list Z) :=
  let* c := rd format in
  if c =? ch "*" then
    let* '(v, args) := va_arg32 args in
    mret (format + 1, s32 v, args)
  else
    let* n := loop_fuel in
    let* '(format, v) := parse_number n format 0 in
    mret (format, v, args).

Definition parse_type (format : Z) : M world (Z * arg_type) :=
  let* c := rd format in
  if c =? ch "h" then
    let* d := rd (format + 1) in
    if d =? ch "h" then mret (format + 2, CHAR) else mret (format + 1, SHORT)
  else if c =? ch "j" then mret (format + 1, INTMAX)
  else if c =? ch "l" then
    let* d := rd (format + 1) in
    if d =? ch "l" then mret (format + 2, LONGLONG) else mret (format + 1, LONG)
  else if c =? ch "t" then mret (format + 1, PTRDIFFT)
  else if c =? ch "z" then mret (format + 1, SIZET)
  else mret (format, INT).

Definition parse_conversion (format : Z) (args : list Z) : M world (Z * printf_conversion * list Z) :=
  let* n := loop_fuel in
  let* '(format, fl) := parse_flags n format 0 in
  let fl := if has fl MINUS then Z.land fl (Z.lnot ZERO) else fl in
  let fl := if has fl PLUS then Z.land fl (Z.lnot SPACE) else fl in
  let* '(format, w, args) := number_or_star format args in
  let '(w, fl) := if w <? 0 then (s32 (- w), Z.lor fl MINUS) else (w, fl) in
  let* c := rd format in
  let* '(format, p, args) :=
    if c =? ch "." then
      let* '(format, p, args) := number_or_star (format + 1) args in
      mret (format, if p <? 0 then -1 else p, args)
    else mret (format, -1, args) in
  let fl := if 0 <=? p then Z.land fl (Z.lnot ZERO) else fl in
  let* '(format, t) := parse_type format in
  mret (format, Conversion fl w p t, args).

(** ** Integers *)

(** [*cp++ = c] in the buffer of 64 bytes. *)
Definition push (buf : list Z) (c : Z) : outcome (list Z) := if (length buf <? 64)%nat then Ok (buf ++ [c]) else Fail FMemory.

Fixpoint digits_loop (n : nat) (b : integer_base) (grouping : bool) (value digit_cnt : Z) (buf : list Z) : outcome (list Z) :=
  match n with
  | O => Fail FFuel
  | S n =>
    if 0 <? value then
      let* buf := if grouping && (0 <? digit_cnt) && (digit_cnt mod group b =? 0) then push buf (ch ",") else mret buf in
      let* r := Arithmetic.__umoddi3 value (base b) in
      let* d := match digits b !! Z.to_nat r with Some d => Ok d | None => Fail FMemory end in
      let* buf := push buf d in
      let* value := Arithmetic.__udivdi3 value (base b) in
      digits_loop n b grouping value (digit_cnt + 1) buf
    else mret buf
  end.

Fixpoint zeros_loop (n : nat) (prec : Z) (buf : list Z) : outcome (list Z) :=
  match n with
  | O => Fail FFuel
  | S n =>
    if (Z.of_nat (length buf) <? prec) && (length buf <? 63)%nat then let* buf := push buf (ch "0") in zeros_loop n prec buf
    else mret buf
  end.

(** The contents of the buffer, the first byte first.  A 64-bit value has at most 64 digits. *)
Definition integer_buf (value : Z) (b : integer_base) (c : printf_conversion) : outcome (list Z) :=
  let* buf := digits_loop 65 b (has (flags c) GROUP) value 0 [] in
  let prec := if precision c <? 0 then 1 else precision c in
  let* buf := zeros_loop 65 prec buf in
  if has (flags c) POUND && (base b =? 8) && match last buf with None => true | Some d => negb (d =? ch "0") end
  then push buf (ch "0") else mret buf.

Section Engine.
Context (output : Z -> M world unit) (lit : string -> Z).

Fixpoint output_dup (c : Z) (cnt : nat) : M world unit :=
  match cnt with O => mret tt | S cnt => do* output c ; output_dup c cnt end.

(** [while (cp > buf) output ( *--cp)]. *)
Fixpoint output_all (l : list Z) : M world unit :=
  match l with [] => mret tt | c :: l => do* output c ; output_all l end.

Definition when (b : bool) (m : M world unit) : M world unit := if b then m else mret tt.

Definition format_integer (value : Z) (is_signed negative : bool) (b : integer_base) (c : printf_conversion) : M world unit :=
  let sign :=
    if is_signed then
      if has (flags c) PLUS then (if negative then ch "-" else ch "+")
      else if has (flags c) SPACE then (if negative then ch "-" else ch " ")
      else if negative then ch "-" else 0
    else 0 in
  let x := if has (flags c) POUND && negb (value =? 0) then base_char b else 0 in
  let* buf := fun w => match integer_buf value b c with Ok l => Ok (l, w) | Fail e => Fail e end in
  let pad_cnt := s32 (width c - Z.of_nat (length buf) - (if negb (x =? 0) then 2 else 0) - (if negb (sign =? 0) then 1 else 0)) in
  let pad_cnt := if pad_cnt <? 0 then 0 else pad_cnt in
  do* when (negb (has (flags c) (Z.lor MINUS ZERO))) (output_dup (ch " ") (Z.to_nat pad_cnt)) ;
  do* when (negb (sign =? 0)) (output sign) ;
  do* when (negb (x =? 0)) (do* output (ch "0") ; output x) ;
  do* when (has (flags c) ZERO) (output_dup (ch "0") (Z.to_nat pad_cnt)) ;
  do* output_all (rev buf) ;
  when (has (flags c) MINUS) (output_dup (ch " ") (Z.to_nat pad_cnt)).

(** ** Strings *)

Fixpoint output_string (string : Z -> M world Z) (n : nat) (i : Z) : M world unit :=
  match n with
  | O => mret tt
  | S n => let* c := string i in do* output c ; output_string string n (i + 1)
  end.

(** [string i] reads the character [string[i]]. *)
Definition format_string (string : Z -> M world Z) (length : Z) (c : printf_conversion) : M world unit :=
  do* when ((length <? width c) && negb (has (flags c) MINUS)) (output_dup (ch " ") (Z.to_nat (s32 (width c - length)))) ;
  do* output_string string (Z.to_nat length) 0 ;
  when ((length <? width c) && has (flags c) MINUS) (output_dup (ch " ") (Z.to_nat (s32 (width c - length)))).

(** ** The arguments of integer conversions *)

Definition signed_char (v : Z) : Z := (v + 2 ^ 7) mod 2 ^ 8 - 2 ^ 7.
Definition signed_short (v : Z) : Z := (v + 2 ^ 15) mod 2 ^ 16 - 2 ^ 15.

Definition signed_arg (t : arg_type) (args : list Z) : M world (Z * list Z) :=
  match t with
  | CHAR => let* '(v, args) := va_arg32 args in mret (signed_char v, args)
  | SHORT => let* '(v, args) := va_arg32 args in mret (signed_short v, args)
  | INT | LONG | PTRDIFFT => let* '(v, args) := va_arg32 args in mret (s32 v, args)
  | INTMAX | LONGLONG => let* '(v, args) := va_arg64 args in mret (s64 v, args)
  | SIZET =>
    let* '(v, args) := va_arg32 args in
    mret (if (2 ^ 32 - 1) / 2 <? v then s64 (v - (2 ^ 32 - 1) - 1) else v, args)
  end.

Definition unsigned_arg (t : arg_type) (args : list Z) : M world (Z * list Z) :=
  match t with
  | CHAR => let* '(v, args) := va_arg32 args in mret (u8 v, args)
  | SHORT => let* '(v, args) := va_arg32 args in mret (v mod 2 ^ 16, args)
  | INT | LONG | SIZET => let* '(v, args) := va_arg32 args in mret (v, args)
  | INTMAX | LONGLONG => va_arg64 args
  | PTRDIFFT =>
    let* '(v, args) := va_arg32 args in
    mret (Z.land (u64 (s32 v)) (Z.lor (Z.shiftl (2 ^ 31 - 1) 1) 1), args)
  end.

(** ** The engine *)

Definition is_one_of (s : string) (c : Z) : bool := existsb (Z.eqb c) (str s).
Arguments is_one_of s%_string_scope c.

(** [*format] is the conversion character [f]; [again] is the engine, for the messages. *)
Definition convert (again : Z -> list Z -> M world unit) (f : Z) (c : printf_conversion) (args : list Z) : M world (list Z) :=
  if is_one_of "di" f then
    let* '(value, args) := signed_arg (type c) args in
    do* format_integer (u64 (if value <? 0 then s64 (- value) else value)) true (value <? 0) base_d c ;
    mret args
  else if is_one_of "ouxX" f then
    let* '(value, args) := unsigned_arg (type c) args in
    let b := if f =? ch "o" then base_o else if f =? ch "u" then base_d else if f =? ch "x" then base_x else base_X in
    do* format_integer value false false b c ;
    mret args
  else if f =? ch "c" then
    let* '(v, args) := va_arg32 args in
    do* format_string (fun _ => mret (u8 v)) 1 c ;
    mret args
  else if f =? ch "s" then
    let* '(s, args) := va_arg32 args in
    let s := if s =? 0 then lit "(null)" else s in
    let* len := on_mem (reading (fun m => strnlen m s (u32 (precision c)))) in
    do* format_string (fun i => rd (s + i)) (s32 len) c ;
    mret args
  else if f =? ch "p" then
    let* '(p, args) := va_arg32 args in
    do* format_integer p false false base_x (Conversion POUND (width c) (precision c) (type c)) ;
    mret args
  else if is_one_of "feEgGn" f then
    do* again (lit "<<no %%%c in kernel>>") [u32 (signed_char f)] ;
    mret args
  else
    do* again (lit "<<no %%%c conversion>>") [u32 (signed_char f)] ;
    mret args.

Fixpoint vprintf_loop (n : nat) (format : Z) (args : list Z) : M world unit :=
  match n with
  | O => fail FFuel
  | S n =>
    let* f := rd format in
    if f =? 0 then mret tt
    else if negb (f =? ch "%") then do* output f ; vprintf_loop n (format + 1) args
    else
      let* f := rd (format + 1) in
      if f =? ch "%" then do* output (ch "%") ; vprintf_loop n (format + 2) args
      else
        let* '(format, c, args) := parse_conversion (format + 1) args in
        let* f := rd format in
        let* args := convert (vprintf_loop n) f c args in
        vprintf_loop n (format + 1) args
  end.

(** A round reads a new character of the format, or belongs to one of the two messages. *)
Definition __vprintf (format : Z) (args : list Z) : M world unit :=
  let* n := loop_fuel in vprintf_loop (2 * n) format args.
Definition __printf (format : Z) (args : list Z) : M world unit := __vprintf format args.

End Engine.
End Output.
Arguments is_one_of s%_string_scope c.

(** ** Output into a buffer *)

Record vsnprintf_aux := Aux { aux_p : Z; aux_length : Z; aux_max : Z }.

Definition vsnprintf_helper (c : Z) : M (mem * vsnprintf_aux) unit := fun w =>
  let a := w.2 in
  if aux_length a <? aux_max a then
    match store (aux_p a) c w.1 with
    | Ok (_, m) => Ok (tt, (m, Aux (aux_p a + 1) (s32 (aux_length a + 1)) (aux_max a)))
    | Fail e => Fail e
    end
  else Ok (tt, (w.1, Aux (aux_p a) (s32 (aux_length a + 1)) (aux_max a))).

Definition vsnprintf (lit : string -> Z) (buffer buf_size format : Z) (args : list Z) : M mem Z := fun m =>
  let aux := Aux buffer 0 (s32 (if 0 <? buf_size then buf_size - 1 else 0)) in
  match __vprintf vsnprintf_helper lit format args (m, aux) with
  | Ok (_, (m, aux)) =>
    (do* (if 0 <? buf_size then store (aux_p aux) 0 else mret tt) ; mret (aux_length aux)) m
  | Fail e => Fail e
  end.
Definition snprintf (lit : string -> Z) (buffer buf_size format : Z) (args : list Z) : M mem Z := vsnprintf lit buffer buf_size format args.

(** ** What a format says

    A format that a caller may pass is a sequence of items: characters that stand for themselves, and conversions
    with their arguments.  [render] is the text of the format, [words] the arguments on the stack, [text] what is to
    be printed. *)

Inductive flag := Minus | Plus | Space | Pound | Zero | Group.
#[export] Instance flag_eq_dec : EqDecision flag.
Proof. solve_decision. Defined.

Inductive number := Num (n : Z) | Star (v : Z).
Record options := Options { o_flags : list flag; o_width : option number; o_prec : option number; o_type : arg_type }.

(** [Other c] is a conversion character [c] that is not supported. *)
Inductive conv := Cd | Ci | Co | Cu | Cx | CX | Cc | Cs | Cp | Other (c : Z).
Inductive item := Char (c : Z) | Percent | Conv (o : options) (k : conv) (v : Z).

Definition flag_char (f : flag) : Z :=
  match f with Minus => ch "-" | Plus => ch "+" | Space => ch " " | Pound => ch "#" | Zero => ch "0" | Group => ch "'" end.
Definition letter (k : conv) : Z :=
  match k with Cd => ch "d" | Ci => ch "i" | Co => ch "o" | Cu => ch "u" | Cx => ch "x" | CX => ch "X" | Cc => ch "c" | Cs => ch "s" | Cp => ch "p" | Other c => c end.
Definition type_chars (t : arg_type) : list Z :=
  match t with CHAR => str "hh" | SHORT => str "h" | INT => [] | INTMAX => str "j" | LONG => str "l" | LONGLONG => str "ll" | PTRDIFFT => str "t" | SIZET => str "z" end.

(** The digits of a 64-bit value, the last one first. *)
Fixpoint digits_of (n : nat) (b v : Z) : list Z :=
  match n with O => [] | S n => if 0 <? v then v mod b :: digits_of n b (v / b) else [] end.
Definition digit_chars (b : integer_base) (v : Z) : list Z := (fun d => default 0 (digits b !! Z.to_nat d)) <$> digits_of 64 (base b) v.
Definition numeral (v : Z) : list Z := rev (digit_chars base_d v).

Definition render_number (n : number) : list Z := match n with Num n => numeral n | Star _ => [ch "*"] end.
Definition render_options (o : options) : list Z :=
  (flag_char <$> o_flags o) ++ from_option render_number [] (o_width o) ++
  from_option (fun p => ch "." :: render_number p) [] (o_prec o) ++ type_chars (o_type o).
Definition render_item (i : item) : list Z :=
  match i with Char c => [c] | Percent => str "%%" | Conv o k _ => ch "%" :: render_options o ++ [letter k] end.
Definition render (l : list item) : list Z := l ≫= render_item.

(** The size of the argument of an integer conversion. *)
Definition bits (t : arg_type) : Z :=
  match t with CHAR => 8 | SHORT => 16 | INT | LONG | PTRDIFFT | SIZET => 32 | INTMAX | LONGLONG => 64 end.
Definition number_words (n : option number) : list Z := match n with Some (Star v) => [u32 v] | _ => [] end.
Definition value_words (o : options) (k : conv) (v : Z) : list Z :=
  match k with
  | Cd | Ci | Co | Cu | Cx | CX => if bits (o_type o) =? 64 then [u32 v; u32 (v / 2 ^ 32)] else [u32 v]
  | Cc | Cs | Cp => [u32 v]
  | Other _ => []
  end.
Definition words_item (i : item) : list Z :=
  match i with Conv o k v => number_words (o_width o) ++ number_words (o_prec o) ++ value_words o k v | _ => [] end.
Definition words (l : list item) : list Z := l ≫= words_item.

(** *** The text of a conversion *)

Definition fl (o : options) (f : flag) : bool := bool_decide (f ∈ o_flags o).
Definition o_minus (o : options) : bool := fl o Minus || match o_width o with Some (Star v) => v <? 0 | _ => false end.
Definition o_w (o : options) : Z := match o_width o with None => 0 | Some (Num n) => n | Some (Star v) => Z.abs v end.
Definition o_p (o : options) : option Z := match o_prec o with None => None | Some (Num n) => Some n | Some (Star v) => if v <? 0 then None else Some v end.
Definition o_zero (o : options) : bool := fl o Zero && negb (o_minus o) && bool_decide (o_p o = None).

(** A field is at least as wide as the width: blanks on the right, zeros after the prefix, or blanks on the left. *)
Definition field (minus zero : bool) (w : Z) (prefix body : list Z) : list Z :=
  let n := (Z.to_nat w - (length prefix + length body))%nat in
  if minus then prefix ++ body ++ replicate n (ch " ")
  else if zero then prefix ++ replicate n (ch "0") ++ body
  else replicate n (ch " ") ++ prefix ++ body.

(** A comma after every [g] digits, counted from the last one, which comes first. *)
Fixpoint grouped (g : Z) (k : Z) (l : list Z) : list Z :=
  match l with [] => [] | d :: l => (if (0 <? k) && (k mod g =? 0) then [ch ","] else []) ++ d :: grouped g (k + 1) l end.

(** The digits of [v], in groups, at least as many as the precision says (up to 63), with a 0 in front of octal ones. *)
Definition number_body (group_flag alternate : bool) (prec : option Z) (b : integer_base) (v : Z) : list Z :=
  let ds := digit_chars b v in
  let ds := if group_flag then grouped (group b) 0 ds else ds in
  let ds := ds ++ replicate (Z.to_nat (default 1 prec `min` 63) - length ds) (ch "0") in
  rev (if alternate && (base b =? 8) && bool_decide (last ds <> Some (ch "0")) then ds ++ [ch "0"] else ds).

Definition sign_chars (o : options) (negative : bool) : list Z :=
  if negative then [ch "-"] else if fl o Plus then [ch "+"] else if fl o Space then [ch " "] else [].
Definition base_chars (alternate : bool) (b : integer_base) (v : Z) : list Z :=
  if alternate && negb (v =? 0) && negb (base_char b =? 0) then [ch "0"; base_char b] else [].

Definition signed_value (n v : Z) : Z := (v + 2 ^ (n - 1)) mod 2 ^ n - 2 ^ (n - 1).

Definition text_signed (o : options) (v : Z) : list Z :=
  field (o_minus o) (o_zero o) (o_w o) (sign_chars o (v <? 0)) (number_body (fl o Group) (fl o Pound) (o_p o) base_d (Z.abs v)).
Definition text_unsigned (o : options) (b : integer_base) (v : Z) : list Z :=
  field (o_minus o) (o_zero o) (o_w o) (base_chars (fl o Pound) b v) (number_body (fl o Group) (fl o Pound) (o_p o) b v).
Definition text_pointer (o : options) (v : Z) : list Z :=
  field false false (o_w o) (base_chars true base_x v) (number_body false true (o_p o) base_x v).
Definition text_string (o : options) (s : list Z) : list Z := field (o_minus o) false (o_w o) [] s.
Definition text_message (c : Z) : list Z :=
  if is_one_of "feEgGn" c then str "<<no %" ++ [c] ++ str " in kernel>>" else str "<<no %" ++ [c] ++ str " conversion>>".

(** [string_at p] is the string at [p]. *)
Definition text_item (string_at : Z -> list Z) (i : item) : list Z :=
  match i with
  | Char c => [c]
  | Percent => [ch "%"]
  | Conv o k v =>
    match k with
    | Cd | Ci => text_signed o (signed_value (bits (o_type o)) v)
    | Co => text_unsigned o base_o (v mod 2 ^ bits (o_type o))
    | Cu => text_unsigned o base_d (v mod 2 ^ bits (o_type o))
    | Cx => text_unsigned o base_x (v mod 2 ^ bits (o_type o))
    | CX => text_unsigned o base_X (v mod 2 ^ bits (o_type o))
    | Cc => text_string o [u8 v]
    | Cs => let s := if v =? 0 then str "(null)" else string_at v in
            text_string o (match o_p o with Some p => take (Z.to_nat p) s | None => s end)
    | Cp => text_pointer o v
    | Other c => text_message c
    end
  end.
Definition text (string_at : Z -> list Z) (l : list item) : list Z := l ≫= text_item string_at.

(** ** Digits *)

Lemma div_half v b n : 2 <= b -> 0 <= v < 2 ^ Z.of_nat (S n) -> 0 <= v / b < 2 ^ Z.of_nat n.
Proof.
  intros Hb Hv. rewrite Nat2Z.inj_succ, Z.pow_succ_r in Hv by lia. split; [apply Z.div_pos; lia|].
  apply Z.div_lt_upper_bound; [lia|]. pose proof (Z.pow_pos_nonneg 2 (Z.of_nat n)). nia.
Qed.

(** The digits are those of the value in positional notation, without a leading zero. *)
Definition positional (b : Z) (ds : list Z) : Z := foldr (fun d v => d + b * v) 0 ds.

Lemma digits_of_value b : 2 <= b -> forall n v, 0 <= v < 2 ^ Z.of_nat n -> positional b (digits_of n b v) = v.
Proof.
  intros Hb. induction n as [|n IH]; intros v Hv; cbn [digits_of]; [cbn in *; lia|].
  destruct (Z.ltb_spec 0 v); [|cbn; lia]. cbn [positional foldr]. fold (positional b (digits_of n b (v / b))).
  rewrite IH by (apply div_half; lia). pose proof (Z.div_mod v b). lia.
Qed.

Lemma digits_of_range b : 0 < b -> forall n v, Forall (fun d => 0 <= d < b) (digits_of n b v).
Proof.
  intros Hb. induction n as [|n IH]; intros v; cbn [digits_of]; [constructor|].
  destruct (0 <? v); constructor; [apply Z.mod_pos_bound; lia|apply IH].
Qed.

Lemma digits_of_length b : 2 <= b -> forall n k v, 0 <= v < b ^ Z.of_nat k -> (length (digits_of n b v) <= k)%nat.
Proof.
  intros Hb. induction n as [|n IH]; intros k v Hv; cbn [digits_of]; [cbn; lia|].
  destruct (Z.ltb_spec 0 v); [|cbn; lia]. destruct k as [|k]; [cbn in Hv; lia|]. cbn [length].
  apply le_n_S, IH. rewrite Nat2Z.inj_succ, Z.pow_succ_r in Hv by lia. split; [apply Z.div_pos; lia|]. apply Z.div_lt_upper_bound; lia.
Qed.

Lemma digits_of_zero n b v : v <= 0 -> digits_of n b v = [].
Proof. intros. destruct n; cbn; [done|]. by rewrite (proj2 (Z.ltb_ge 0 v)) by lia. Qed.

(** The first digit is not zero. *)
Lemma digits_of_last b : 2 <= b -> forall n v, 0 < v < 2 ^ Z.of_nat n -> exists ds d, digits_of n b v = ds ++ [d] /\ 0 < d < b.
Proof.
  intros Hb. induction n as [|n IH]; intros v Hv; [cbn in Hv; lia|]. cbn [digits_of]. rewrite (proj2 (Z.ltb_lt 0 v)) by lia.
  destruct (decide (v / b = 0)) as [E|E].
  - exists [], (v mod b). rewrite E, digits_of_zero by lia. split; [done|]. pose proof (Z.div_mod v b). pose proof (Z.mod_pos_bound v b). lia.
  - pose proof (div_half v b n Hb). destruct (IH (v / b)) as (ds & d & -> & Hd); [lia|]. by exists (v mod b :: ds), d.
Qed.

(** The value of a decimal digit, and of an octal or hexadecimal one. *)
Ltac digit_cases d := let k := fresh in
  assert (k : d = 0 \/ d = 1 \/ d = 2 \/ d = 3 \/ d = 4 \/ d = 5 \/ d = 6 \/ d = 7 \/ d = 8 \/ d = 9 \/ d = 10 \/ d = 11 \/ d = 12 \/ d = 13 \/ d = 14 \/ d = 15) by lia;
  repeat (destruct k as [->|k]); [..|subst d].

Definition std_base (b : integer_base) : Prop := b = base_d \/ b = base_o \/ b = base_x \/ b = base_X.

Lemma std_base_range b : std_base b -> 8 <= base b <= 16.
Proof. intros [-> | [-> | [-> | ->]]]; cbn; lia. Qed.

Lemma digit_lookup b d : std_base b -> 0 <= d < base b -> exists c, digits b !! Z.to_nat d = Some c /\ is_char c /\ c <> ch ",".
Proof.
  intros HS Hd. pose proof (std_base_range b HS). destruct HS as [-> | [-> | [-> | ->]]]; cbn [base base_d base_o base_x base_X] in Hd;
    digit_cases d; try lia; (eexists; split; [reflexivity|]; split; [unfold is_char; pow2_consts; vm_compute; done|done]).
Qed.

Lemma low_digit b d : std_base b -> 0 <= d < base b -> d < 10 -> digits b !! Z.to_nat d = Some (48 + d).
Proof. intros HS Hd H. destruct HS as [-> | [-> | [-> | ->]]]; cbn [base base_d base_o base_x base_X] in Hd; digit_cases d; try lia; reflexivity. Qed.

Lemma digit_chars_char b v : std_base b -> Forall is_char (digit_chars b v).
Proof.
  intros HS. pose proof (std_base_range b HS). apply Forall_fmap. eapply Forall_impl; [apply digits_of_range; lia|].
  intros d Hd. cbn. by destruct (digit_lookup b d HS Hd) as (c & -> & Hc & _).
Qed.

Lemma char_u8 l : Forall is_char l -> Forall is_u8 l.
Proof. intros H. eapply Forall_impl; [done|]. unfold is_char, is_u8. lia. Qed.

Lemma digit_chars_length b v : std_base b -> is_u64 v -> (length (digit_chars b v) <= 22)%nat.
Proof.
  intros HS Hv. pose proof (std_base_range b HS). unfold digit_chars. rewrite length_fmap. apply digits_of_length; [lia|].
  split; [solve_int|]. apply Z.lt_le_trans with (8 ^ 22); [int_unfold; lia|]. apply Z.pow_le_mono_l. lia.
Qed.

(** Numbers in formats *)

Lemma rev_fmap {A B} (f : A -> B) l : rev (f <$> l) = f <$> rev l.
Proof. induction l as [|x l IH]; cbn; [done|]. by rewrite IH, fmap_app. Qed.

Lemma numeral_chars v : numeral v = (fun d => 48 + d) <$> rev (digits_of 64 10 v).
Proof.
  unfold numeral, digit_chars. rewrite rev_fmap. apply list_fmap_ext. intros i d Hd. apply list_elem_of_lookup_2, list_elem_of_In, in_rev, list_elem_of_In in Hd.
  pose proof (digits_of_range 10 ltac:(lia) 64 v) as HF. rewrite Forall_forall in HF. specialize (HF d Hd).
  rewrite low_digit; [done|by left|cbn; lia|lia].
Qed.

Lemma digits_value_rev ds : Qsort.digits_value 0 ((fun d => 48 + d) <$> rev ds) = positional 10 ds.
Proof.
  induction ds as [|d ds IH]; [done|]. cbn [rev]. rewrite fmap_app. unfold Qsort.digits_value in *. rewrite fold_left_app, IH.
  change (positional 10 (d :: ds)) with (d + 10 * positional 10 ds). cbn [fmap list_fmap fold_left]. lia.
Qed.

Lemma numeral_value v : 0 <= v < 2 ^ 64 -> Qsort.digits_value 0 (numeral v) = v.
Proof. intros Hv. rewrite numeral_chars, digits_value_rev. apply digits_of_value; lia. Qed.

Lemma numeral_isdigit v : Forall (fun c => Qsort.isdigit c = true) (numeral v).
Proof.
  rewrite numeral_chars. apply Forall_fmap, Forall_rev. eapply Forall_impl; [apply digits_of_range; lia|].
  intros d Hd. unfold compose, Qsort.isdigit. apply andb_true_intro. split; apply Z.leb_le; cbn beta in *; lia.
Qed.

Lemma numeral_head v : 0 < v < 2 ^ 64 -> exists c l, numeral v = c :: l /\ 49 <= c <= 57.
Proof.
  intros Hv. rewrite numeral_chars. destruct (digits_of_last 10 ltac:(lia) 64 v) as (ds & d & -> & Hd); [lia|].
  rewrite rev_app_distr. cbn [rev app fmap list_fmap]. exists (48 + d), ((fun d => 48 + d) <$> rev ds). split; [done|lia].
Qed.

(** ** Formats that a caller may pass *)

Definition number_ok (lo : Z) (n : number) : Prop := match n with Num n => lo <= n < 2 ^ 31 | Star v => - 2 ^ 31 < v < 2 ^ 31 end.

(** A zero flag with a negative width is left out: the code pads such a field on both sides. *)
Definition options_ok (o : options) : Prop :=
  from_option (number_ok 1) True (o_width o) /\ from_option (number_ok 0) True (o_prec o) /\
  (fl o Zero && negb (fl o Minus) && bool_decide (o_p o = None) = true -> o_minus o = false).

Definition other_ok (c : Z) : Prop :=
  is_char c /\ is_one_of "diouxXcsp%-+ #0'*.hjltz" c = false /\ Qsort.isdigit c = false.

Definition item_ok (const : mem) (string_at : Z -> list Z) (i : item) : Prop :=
  match i with
  | Char c => is_char c /\ c <> ch "%"
  | Percent => True
  | Conv o k v =>
    options_ok o /\
    match k with
    | Cs => v = 0 \/ is_u32 v /\ v <> 0 /\ cstr const v (string_at v) /\ Z.of_nat (length (string_at v)) < 2 ^ 31
    | Cp => is_u32 v
    | Other c => other_ok c
    | _ => True
    end
  end.

(** The literals the engine uses are in memory. *)
Definition literals (lit : string -> Z) (l : list string) (const : mem) : Prop := Forall (fun s => cstr const (lit s) (str s) /\ 0 < lit s) l.
Definition engine_literals : list string := ["(null)"; "<<no %%%c in kernel>>"; "<<no %%%c conversion>>"]%string.

(** What an output function has to do: [told out w] says that the text [out] has been taken so far.  The memory
    [const] stays as it is, and there is room for [cap] characters. *)
Class Sink {X} (output : Z -> M (mem * X) unit) (const : mem) (cap : nat) := {
  told : list Z -> mem * X -> Prop;
  told_const out w : told out w -> const ⊆ w.1;
  told_output out w c : told out w -> (length out < cap)%nat -> is_u8 c ->
    exists w', output c w = Ok (tt, w') /\ told (out ++ [c]) w';
}.

Section Emits.
Context {X : Type} {output : Z -> M (mem * X) unit} {const : mem} {cap : nat} `{SK : !Sink output const cap}.
Notation world := (mem * X)%type.

(** The program [p] prints [t] and returns [a]. *)
Definition emits {A} (p : M world A) (t : list Z) (a : A) : Prop := forall out w,
  told out w -> (length out + length t <= cap)%nat -> exists w', p w = Ok (a, w') /\ told (out ++ t) w'.

Lemma emits_ret {A} (a : A) : emits (mret a) [] a.
Proof. intros out w H _. exists w. by rewrite app_nil_r. Qed.

Lemma emits_bind {A B} (p : M world A) (k : A -> M world B) t u a b : emits p t a -> emits (k a) u b -> emits (mbind k p) (t ++ u) b.
Proof.
  intros Hp Hk out w H HL. rewrite length_app in HL. destruct (Hp out w H) as (w1 & E1 & H1); [lia|].
  destruct (Hk (out ++ t) w1 H1) as (w2 & E2 & H2); [rewrite length_app; lia|].
  exists w2. rewrite (M_bind_Ok _ _ _ _ _ E1), E2, app_assoc. done.
Qed.

(** A program that only computes, or only reads the memory that stays. *)
Definition reads {A} (p : M world A) (a : A) : Prop := forall w, const ⊆ w.1 -> p w = Ok (a, w).

Lemma reads_ret {A} (a : A) : reads (mret a) a.
Proof. done. Qed.

Lemma reads_bind {A B} (p : M world A) (k : A -> M world B) a b : reads p a -> reads (k a) b -> reads (mbind k p) b.
Proof. intros Hp Hk w Hw. rewrite (M_bind_Ok _ _ _ _ _ (Hp w Hw)). by apply Hk. Qed.

Lemma emits_reads {A B} (p : M world A) (k : A -> M world B) t a b : reads p a -> emits (k a) t b -> emits (mbind k p) t b.
Proof.
  intros Hp Hk out w H HL. rewrite (M_bind_Ok _ _ _ _ _ (Hp w (told_const _ _ H))). by apply Hk.
Qed.

Lemma emits_output c : is_u8 c -> emits (output c) [c] tt.
Proof. intros Hc out w H HL. cbn in HL. apply told_output; [done|lia|done]. Qed.

Lemma emits_when (b : bool) p t : (b = true -> emits p t tt) -> emits (when b p) (if b then t else []) tt.
Proof. intros H. destruct b; [by apply H|apply emits_ret]. Qed.

Lemma emits_dup c n : is_u8 c -> emits (output_dup output c n) (replicate n c) tt.
Proof.
  intros Hc. induction n as [|n IH]; cbn [output_dup replicate]; [apply emits_ret|].
  eapply (emits_bind _ _ [c]); [by apply emits_output|done].
Qed.

Lemma emits_all l : Forall is_u8 l -> emits (output_all output l) l tt.
Proof.
  intros H. induction H as [|c l Hc Hl IH]; cbn [output_all]; [apply emits_ret|].
  eapply (emits_bind _ _ [c]); [by apply emits_output|done].
Qed.

Lemma cstr_sub m m' p s : m ⊆ m' -> cstr m p s -> cstr m' p s.
Proof. intros HS [HB HF]. split; [|done]. intros i x Hi. eapply lookup_weaken; [by apply HB|done]. Qed.

Lemma reads_byte a c : const !! a = Some c -> reads (rd a) c.
Proof. intros H [m x] Hw. unfold rd, on_mem, get_byte, load. cbn in *. by rewrite (lookup_weaken _ _ _ _ H Hw). Qed.

(** The byte at the start of a string. *)
Lemma reads_cstr p s : cstr const p s -> reads (rd p) (default 0 (head s)).
Proof.
  intros H. apply reads_byte. destruct s as [|c s]; cbn; [by apply cstr_nil|]. by apply cstr_cons in H as (H & _ & _).
Qed.

(** Fuel computed from memory is enough for any string of the memory that stays. *)
Lemma reads_fuel {B} (k : nat -> M world B) p s b : cstr const p s -> (forall n, (length s < n)%nat -> (size const < n)%nat -> reads (k n) b) -> reads (mbind k loop_fuel) b.
Proof.
  intros Hc H w Hw. unfold loop_fuel. rewrite (M_bind_Ok _ _ w (fuel w.1) w) by done.
  pose proof (map_subseteq_size _ _ Hw). pose proof (cstr_size _ _ _ Hc). apply H; [unfold fuel; lia..|done].
Qed.

(** *** Parsing a conversion *)

Lemma cstr_after m p l s : cstr m p (l ++ s) -> cstr m (p + Z.of_nat (length l)) s.
Proof. intros H. apply (cstr_drop _ _ _ (length l)) in H; [|rewrite length_app; lia]. by rewrite drop_app_length in H. Qed.

Definition flag_bit (f : flag) : Z := match f with Minus => MINUS | Plus => PLUS | Space => SPACE | Pound => POUND | Zero => ZERO | Group => GROUP end.

Lemma parse_flags_ok fs : forall n p f0 s, cstr const p ((flag_char <$> fs) ++ s) -> flag_of (default 0 (head s)) = None -> (length fs < n)%nat ->
  reads (parse_flags n p f0) (p + Z.of_nat (length fs), foldl Z.lor f0 (flag_bit <$> fs)).
Proof.
  induction fs as [|f fs IH]; intros [|n] p f0 s HC HS Hn; cbn [length] in Hn; try lia; cbn [parse_flags];
    (eapply reads_bind; [by apply reads_cstr|]).
  - cbn [app fmap list_fmap]. rewrite HS. replace (p + Z.of_nat (length [])) with p by (cbn; lia). apply reads_ret.
  - cbn [app fmap list_fmap head default foldl length]. assert (E : flag_of (flag_char f) = Some (flag_bit f)) by by destruct f. cbn [from_option id]. rewrite E.
    cbn [app fmap list_fmap] in HC. apply cstr_cons in HC as (_ & _ & HC).
    replace (p + Z.of_nat (S (length fs))) with (p + 1 + Z.of_nat (length fs)) by lia. apply (IH n _ _ s); [done|done|lia].
Qed.

Lemma parse_number_ok ds : forall n p v s, cstr const p (ds ++ s) -> Forall (fun c => Qsort.isdigit c = true) ds -> Qsort.isdigit (default 0 (head s)) = false ->
  (length ds < n)%nat -> 0 <= v -> Qsort.digits_value v ds < 2 ^ 31 -> reads (parse_number n p v) (p + Z.of_nat (length ds), Qsort.digits_value v ds).
Proof.
  induction ds as [|c ds IH]; intros [|n] p v s HC HF HS Hn Hv HV; cbn [length] in Hn; try lia; cbn [parse_number];
    (eapply reads_bind; [by apply reads_cstr|]).
  - cbn [app]. rewrite HS. replace (p + Z.of_nat (length [])) with p by (cbn; lia). apply reads_ret.
  - cbn [app head default length]. apply Forall_cons in HF as [Hc HF]. cbn [from_option id]. rewrite Hc. apply cstr_cons in HC as (_ & _ & HC).
    apply Qsort.isdigit_range in Hc. change (Qsort.digits_value v (c :: ds)) with (Qsort.digits_value (v * 10 + (c - 48)) ds) in *.
    pose proof (Qsort.digits_value_le ds (v * 10 + (c - 48)) ltac:(lia) HF). change (ch "0") with 48. replace (v * 10 + c - 48) with (v * 10 + (c - 48)) by lia.
    rewrite s32_small by solve_int. replace (p + Z.of_nat (S (length ds))) with (p + 1 + Z.of_nat (length ds)) by lia. apply (IH n _ _ s); (done || lia).
Qed.

(** The value of a number, or of no number. *)
Definition number_value (n : option number) : Z := match n with None => 0 | Some (Num n) => n | Some (Star v) => v end.

Lemma number_or_star_ok lo (n : option number) p s args : 0 <= lo -> from_option (number_ok lo) True n -> cstr const p (from_option render_number [] n ++ s) ->
  Qsort.isdigit (default 0 (head s)) = false -> default 0 (head s) <> ch "*" ->
  reads (number_or_star p (number_words n ++ args)) (p + Z.of_nat (length (from_option render_number [] n)), number_value n, args).
Proof.
  intros Hlo Hn HC HS Hstar. unfold number_or_star. eapply reads_bind; [by apply reads_cstr|].
  destruct n as [[k|v]|]; cbn [from_option render_number number_words number_value number_ok app length] in *.
  - assert (HD := numeral_isdigit k). assert (HV := numeral_value k ltac:(pow2_consts; lia)).
    assert (Hc : (default 0 (head (numeral k ++ s)) =? ch "*") = false).
    { apply Z.eqb_neq. destruct (numeral k) as [|c l]; [done|]. apply Forall_cons in HD as [Hc _]. apply Qsort.isdigit_range in Hc. change (c <> 42). lia. }
    cbn [id] in Hc. rewrite Hc. eapply reads_fuel; [done|]. intros n Hl _. rewrite length_app in Hl.
    eapply reads_bind; [eapply parse_number_ok; [done|done|done|lia|lia|rewrite HV; lia]|]. cbn beta iota. rewrite HV. apply reads_ret.
  - cbn [head default id]. rewrite Z.eqb_refl. eapply reads_bind; [by apply reads_ret|]. cbn beta iota.
    replace (s32 (u32 v)) with v; [by apply reads_ret|]. int_unfold. cbn in Hn. Z.div_mod_to_equations. lia.
  - cbn [id] in Hstar. apply Z.eqb_neq in Hstar. rewrite Hstar. eapply reads_fuel; [done|]. intros n Hl _.
    eapply reads_bind; [apply (parse_number_ok [] n p 0 s); [done|constructor|done|cbn; lia|done|done]|]. apply reads_ret.
Qed.

Lemma parse_type_ok t p c s : cstr const p (type_chars t ++ c :: s) -> is_one_of "hjltz" c = false ->
  reads (parse_type p) (p + Z.of_nat (length (type_chars t)), t).
Proof.
  intros HC Hc. unfold parse_type. assert (c <> 104 /\ c <> 106 /\ c <> 108 /\ c <> 116 /\ c <> 122) as (H1 & H2 & H3 & H4 & H5).
  { unfold is_one_of, existsb in Hc. cbn [str] in Hc. rewrite !orb_false_iff, !Z.eqb_neq in Hc. vm_compute (ch _) in Hc. tauto. }
  eapply reads_bind; [by apply reads_cstr|].
  destruct t; cbn [type_chars str app head default from_option id length] in *;
    change (ch "h") with 104 in *; change (ch "l") with 108 in *; change (ch "j") with 106 in *; change (ch "t") with 116 in *; change (ch "z") with 122 in *;
    cbn [Z.eqb Pos.eqb]; rewrite ?(proj2 (Z.eqb_neq c _)) by done; try (replace (p + Z.of_nat 0) with p by lia); try apply reads_ret.
  all: apply cstr_cons in HC as (_ & _ & HC); (eapply reads_bind; [by apply reads_cstr|]); cbn [head default from_option id];
    rewrite ?(proj2 (Z.eqb_neq c _)) by done; apply reads_ret.
Qed.

(** Flags as bits *)

Lemma has_bit f b : has f (flag_bit b) = Z.testbit f (Z.log2 (flag_bit b)).
Proof. unfold has. rewrite <- land_bit_testbit by (destruct b; done). by destruct b. Qed.

Lemma flag_bit_test b c : Z.testbit (flag_bit b) (Z.log2 (flag_bit c)) = bool_decide (b = c).
Proof. by destruct b, c. Qed.

Lemma has_set f b c : has (Z.lor f (flag_bit b)) (flag_bit c) = has f (flag_bit c) || bool_decide (b = c).
Proof. by rewrite !has_bit, Z.lor_spec, flag_bit_test. Qed.

Lemma has_clear f b c : has (Z.land f (Z.lnot (flag_bit b))) (flag_bit c) = has f (flag_bit c) && negb (bool_decide (b = c)).
Proof. by rewrite !has_bit, Z.land_spec, Z.lnot_spec, flag_bit_test by (destruct c; done). Qed.

Lemma has_both f b c : has f (Z.lor (flag_bit b) (flag_bit c)) = has f (flag_bit b) || has f (flag_bit c).
Proof.
  unfold has. rewrite Z.land_lor_distr_r. rewrite <- negb_andb. f_equal. apply eq_bool_prop_intro.
  rewrite !Is_true_true, andb_true_iff, !Z.eqb_eq. apply Z.lor_eq_0_iff.
Qed.

Lemma has_flags fs c : forall f, has (foldl Z.lor f (flag_bit <$> fs)) (flag_bit c) = has f (flag_bit c) || bool_decide (c ∈ fs).
Proof.
  induction fs as [|b fs IH]; intros f; cbn [fmap list_fmap foldl]; [by rewrite orb_false_r|].
  rewrite IH, has_set, <- orb_assoc. f_equal. rewrite <- bool_decide_or. apply bool_decide_ext. rewrite elem_of_cons. naive_solver.
Qed.

(** A parsed conversion says what the options say. *)
Record conv_ok (o : options) (c : printf_conversion) : Prop := {
  co_width : width c = o_w o;
  co_prec : precision c = default (-1) (o_p o);
  co_type : type c = o_type o;
  co_minus : has (flags c) (flag_bit Minus) = o_minus o;
  co_zero : has (flags c) (flag_bit Zero) = o_zero o;
  co_plus : has (flags c) (flag_bit Plus) = fl o Plus;
  co_space : has (flags c) (flag_bit Space) = fl o Space && negb (fl o Plus);
  co_pound : has (flags c) (flag_bit Pound) = fl o Pound;
  co_group : has (flags c) (flag_bit Group) = fl o Group;
}.

(** A character that ends the options. *)
Definition ends_options (c : Z) : Prop := is_one_of "-+ #0'*.hjltz" c = false /\ Qsort.isdigit c = false.

Lemma one_of_false x s c : is_one_of (String x s) c = false <-> c <> ch x /\ is_one_of s c = false.
Proof. unfold is_one_of. cbn [str existsb]. by rewrite orb_false_iff, Z.eqb_neq. Qed.

(** What follows the flags, the width and the precision. *)
Definition after_prec (o : options) (s : list Z) : list Z := type_chars (o_type o) ++ s.
Definition after_width (o : options) (s : list Z) : list Z := from_option (fun p => ch "." :: render_number p) [] (o_prec o) ++ after_prec o s.
Definition after_flags (o : options) (s : list Z) : list Z := from_option render_number [] (o_width o) ++ after_width o s.

Lemma after_prec_head o c s : ends_options c -> let d := default 0 (head (after_prec o (c :: s))) in
  Qsort.isdigit d = false /\ d <> ch "*" /\ d <> ch "." /\ flag_of d = None.
Proof.
  intros [Hc HD]. unfold after_prec. rewrite !one_of_false in Hc. destruct Hc as (H1 & H2 & H3 & H4 & H5 & H6 & H7 & H8 & _).
  destruct (o_type o); cbn [type_chars str app head default from_option id]; try (repeat split; done).
  split; [done|]. split; [done|]. split; [done|]. unfold flag_of. by rewrite !(proj2 (Z.eqb_neq c _)) by done.
Qed.

Lemma after_width_head o c s : ends_options c -> let d := default 0 (head (after_width o (c :: s))) in
  Qsort.isdigit d = false /\ d <> ch "*" /\ flag_of d = None.
Proof.
  intros Hc. unfold after_width. destruct (o_prec o) as [n|]; cbn [from_option app head default id]; [done|].
  destruct (after_prec_head o c s Hc) as (H1 & H2 & _ & H4). done.
Qed.

Lemma after_flags_head o c s : ends_options c -> options_ok o -> flag_of (default 0 (head (after_flags o (c :: s)))) = None.
Proof.
  intros Hc (HW & _ & _). unfold after_flags. destruct (o_width o) as [[n|v]|]; cbn [from_option render_number number_ok] in *; [|done|].
  - destruct (numeral_head n) as (d & l & -> & Hd); [pow2_consts; lia|]. cbn [app head default from_option id]. unfold flag_of.
    repeat match goal with |- context [d =? ?x] => rewrite (proj2 (Z.eqb_neq d x)) by (vm_compute (ch _); lia) end. done.
  - apply (after_width_head o c s Hc).
Qed.

(** The conversion that is made of the options. *)
Definition parsed_flags (o : options) : Z :=
  let f := foldl Z.lor 0 (flag_bit <$> o_flags o) in
  let f := if has f MINUS then Z.land f (Z.lnot ZERO) else f in
  if has f PLUS then Z.land f (Z.lnot SPACE) else f.
Definition parsed_prec (o : options) : Z :=
  match o_prec o with None => -1 | Some n => if number_value (Some n) <? 0 then -1 else number_value (Some n) end.
Definition parsed (o : options) : printf_conversion :=
  let v := number_value (o_width o) in
  let f := if v <? 0 then Z.lor (parsed_flags o) MINUS else parsed_flags o in
  Conversion (if 0 <=? parsed_prec o then Z.land f (Z.lnot ZERO) else f) (if v <? 0 then s32 (- v) else v) (parsed_prec o) (o_type o).

Lemma parsed_flags_has o f : has (parsed_flags o) (flag_bit f) =
  fl o f && negb (bool_decide (f = Zero) && fl o Minus) && negb (bool_decide (f = Space) && fl o Plus).
Proof.
  unfold parsed_flags. set (F := foldl _ _ _). assert (HF : forall b, has F (flag_bit b) = fl o b) by (intros b; apply (has_flags (o_flags o) b 0)).
  change MINUS with (flag_bit Minus). change ZERO with (flag_bit Zero). change PLUS with (flag_bit Plus). change SPACE with (flag_bit Space).
  rewrite (HF Minus). destruct (fl o Minus); rewrite ?has_clear, ?HF, ?andb_true_r;
    (destruct (fl o Plus) eqn:EP; cbn [andb negb]; rewrite ?andb_true_r; rewrite ?has_clear, ?HF; destruct f; cbn -[fl]; rewrite ?EP, ?andb_true_r, ?andb_false_r; try done).
Qed.

Lemma parsed_prec_value o : from_option (number_ok 0) True (o_prec o) -> parsed_prec o = default (-1) (o_p o) /\ (0 <=? parsed_prec o) = negb (bool_decide (o_p o = None)).
Proof.
  unfold parsed_prec, o_p. destruct (o_prec o) as [[n|v]|]; cbn; intros H; [|destruct (Z.ltb_spec v 0)|done].
  - rewrite (proj2 (Z.ltb_ge n 0)) by lia. split; [done|]. apply Z.leb_le. lia.
  - done.
  - split; [done|]. rewrite bool_decide_eq_false_2 by done. by apply Z.leb_le.
Qed.

Lemma parsed_ok o : options_ok o -> conv_ok o (parsed o).
Proof.
  intros (HW & HP & HZ). destruct (parsed_prec_value o HP) as [EP EL]. unfold parsed. set (v := number_value (o_width o)).
  assert (Hv : (v <? 0) = match o_width o with Some (Star v) => v <? 0 | _ => false end /\ (if v <? 0 then s32 (- v) else v) = o_w o).
  { subst v. unfold o_w. destruct (o_width o) as [[n|v]|]; cbn in *; [|split; [done|]|done].
    - by rewrite (proj2 (Z.ltb_ge n 0)) by lia.
    - destruct (Z.ltb_spec v 0); [rewrite s32_small by solve_int|]; lia. }
  destruct Hv as [Hv EW]. unfold o_zero, o_minus in *. rewrite <- Hv in *. rewrite EL.
  assert (HB : forall f, has (if negb (bool_decide (o_p o = None)) then Z.land (if v <? 0 then Z.lor (parsed_flags o) (flag_bit Minus) else parsed_flags o) (Z.lnot (flag_bit Zero)) else if v <? 0 then Z.lor (parsed_flags o) (flag_bit Minus) else parsed_flags o) (flag_bit f)
    = (has (parsed_flags o) (flag_bit f) || (v <? 0) && bool_decide (Minus = f)) && (bool_decide (o_p o = None) || negb (bool_decide (Zero = f)))).
  { intros f. destruct (bool_decide (o_p o = None)), (v <? 0); cbn [negb andb orb]; rewrite ?has_clear, ?has_set, ?orb_false_r, ?andb_true_r; done. }
  split; cbn [width precision type flags]; [done..| | | | | |]; rewrite HB, parsed_flags_has; cbn -[fl o_p]; rewrite ?andb_true_r, ?andb_false_r, ?orb_false_r, ?orb_true_r, ?andb_true_r; try done;
    unfold o_zero, o_minus; rewrite <- Hv; [done|]. rewrite bool_decide_eq_true_2 by done.
  destruct (fl o Zero), (fl o Minus), (bool_decide (o_p o = None)), (v <? 0); cbn in *; try done. by specialize (HZ eq_refl).
Qed.

Definition render_prec (o : options) : list Z := from_option (fun p => ch "." :: render_number p) [] (o_prec o).

(** From the precision on. *)
Lemma parse_rest o p c s args f w : options_ok o -> ends_options c -> cstr const p (after_width o (c :: s)) ->
  reads (let* c := rd p in
    let* '(format, p, args) :=
      if c =? ch "." then
        let* '(format, p, args) := number_or_star (p + 1) (number_words (o_prec o) ++ args) in
        mret (format, if p <? 0 then -1 else p, args)
      else mret (p, -1, number_words (o_prec o) ++ args) in
    let fl := if 0 <=? p then Z.land f (Z.lnot ZERO) else f in
    let* '(format, t) := parse_type format in
    mret (format, Conversion fl w p t, args))
    (p + Z.of_nat (length (render_prec o)) + Z.of_nat (length (type_chars (o_type o))),
     Conversion (if 0 <=? parsed_prec o then Z.land f (Z.lnot ZERO) else f) w (parsed_prec o) (o_type o), args).
Proof.
  intros (_ & HP & _) Hc HC. destruct (after_prec_head o c s Hc) as (H3a & H3b & H3c & _). eapply reads_bind; [by apply reads_cstr|].
  assert (HT : is_one_of "hjltz" c = false) by (destruct Hc as [Hc _]; rewrite !one_of_false in *; tauto).
  unfold after_width, render_prec, parsed_prec in *. destruct (o_prec o) as [n|]; cbn [from_option app head default id length] in *.
  - rewrite Z.eqb_refl. apply cstr_cons in HC as (_ & _ & HC). eapply reads_bind.
    { eapply reads_bind; [apply (number_or_star_ok 0 (Some n) (p + 1) (after_prec o (c :: s)) args); done|]. cbn beta iota. apply reads_ret. }
    cbn beta iota zeta. apply cstr_after in HC. eapply reads_bind; [by apply (parse_type_ok (o_type o) _ c s)|]. cbn beta iota.
    replace (p + Z.of_nat (S (length (render_number n)))) with (p + 1 + Z.of_nat (length (render_number n))) by lia. apply reads_ret.
  - apply Z.eqb_neq in H3c. cbn [id] in H3c. rewrite H3c. eapply reads_bind; [apply reads_ret|]. cbn beta iota zeta.
    eapply reads_bind; [by apply (parse_type_ok (o_type o) _ c s)|]. cbn beta iota. rewrite Z.add_0_r. apply reads_ret.
Qed.

Lemma parse_conversion_ok o p c s args : options_ok o -> ends_options c -> cstr const p (render_options o ++ c :: s) ->
  reads (parse_conversion p (number_words (o_width o) ++ number_words (o_prec o) ++ args)) (p + Z.of_nat (length (render_options o)), parsed o, args).
Proof.
  intros HO Hc HC. assert (HO' := HO). destruct HO' as (HW & HP & HZ).
  assert (E : render_options o ++ c :: s = (flag_char <$> o_flags o) ++ after_flags o (c :: s)).
  { unfold render_options, after_flags, after_width, after_prec. by rewrite <- !app_assoc. }
  assert (EL : Z.of_nat (length (render_options o)) = Z.of_nat (length (o_flags o)) + Z.of_nat (length (from_option render_number [] (o_width o))) +
    Z.of_nat (length (from_option (fun p => ch "." :: render_number p) [] (o_prec o))) + Z.of_nat (length (type_chars (o_type o)))).
  { unfold render_options. rewrite !length_app, length_fmap. lia. }
  rewrite E in HC. pose proof (after_flags_head o c s Hc HO) as H1. destruct (after_width_head o c s Hc) as (H2a & H2b & _). destruct (after_prec_head o c s Hc) as (H3a & H3b & H3c & _).
  unfold parse_conversion. eapply reads_fuel; [exact HC|]. intros n Hn _. rewrite length_app, length_fmap in Hn.
  eapply reads_bind; [eapply parse_flags_ok; [exact HC|exact H1|lia]|]. cbn beta iota. fold (parsed_flags o).
  apply cstr_after in HC. rewrite length_fmap in HC. set (p1 := p + Z.of_nat (length (o_flags o))) in *.
  eapply reads_bind; [eapply (number_or_star_ok 1); [lia|exact HW|exact HC|done|done]|]. cbn beta iota.
  apply cstr_after in HC. set (p2 := p1 + _) in *. unfold parsed. set (v := number_value (o_width o)).
  assert (EP : p + Z.of_nat (length (render_options o)) = p2 + Z.of_nat (length (render_prec o)) + Z.of_nat (length (type_chars (o_type o)))) by (subst p1 p2; unfold render_prec; lia).
  rewrite EP. destruct (v <? 0); cbn beta iota zeta; by apply (parse_rest o p2 c s).
Qed.

(** *** Integers *)

Lemma digit_step b v : std_base b -> is_u64 v ->
  Arithmetic.__umoddi3 v (base b) = Ok (v mod base b) /\ Arithmetic.__udivdi3 v (base b) = Ok (v / base b).
Proof.
  intros HS Hv. pose proof (std_base_range b HS). pose proof (Z.mod_pos_bound v (base b)). split.
  - rewrite Arithmetic.umoddi3_ok, u32_small by solve_int. done.
  - apply Arithmetic.udiv64_ok; solve_int.
Qed.

Lemma buf_push_ok buf c : (length buf < 64)%nat -> push buf c = Ok (buf ++ [c]).
Proof. intros H. unfold push. by rewrite (proj2 (Nat.ltb_lt _ _)). Qed.

Definition digit_char (b : integer_base) (d : Z) : Z := default 0 (digits b !! Z.to_nat d).

Lemma digits_loop_unfold n b g v cnt buf : digits_loop (S n) b g v cnt buf =
  if 0 <? v then
    let* buf := if g && (0 <? cnt) && (cnt mod group b =? 0) then push buf (ch ",") else mret buf in
    let* r := Arithmetic.__umoddi3 v (base b) in
    let* d := match digits b !! Z.to_nat r with Some d => Ok d | None => Fail FMemory end in
    let* buf := push buf d in
    let* v := Arithmetic.__udivdi3 v (base b) in
    digits_loop n b g v (cnt + 1) buf
  else mret buf.
Proof. done. Qed.

Lemma digits_loop_ok b (g : bool) : std_base b -> forall n v cnt buf, 0 <= v < 2 ^ Z.of_nat n -> (n <= 64)%nat ->
  let l := digit_char b <$> digits_of n (base b) v in
  let l := if g then grouped (group b) cnt l else l in
  (length buf + length l <= 64)%nat -> digits_loop (S n) b g v cnt buf = Ok (buf ++ l).
Proof.
  intros HS. pose proof (std_base_range b HS). induction n as [|n IH]; intros v cnt buf Hv Hn l l1 HL.
  - change (2 ^ Z.of_nat 0) with 1 in Hv. rewrite digits_loop_unfold. rewrite (proj2 (Z.ltb_ge 0 v)) by lia. subst l1 l. by destruct g; rewrite app_nil_r.
  - rewrite digits_loop_unfold. subst l1 l. cbn [digits_of] in *. destruct (Z.ltb_spec 0 v); [|destruct g; cbn; by rewrite app_nil_r].
    assert (Hu : is_u64 v) by (split; [lia|]; apply Z.lt_le_trans with (2 ^ Z.of_nat (S n)); [lia|apply Z.pow_le_mono_r; lia]).
    destruct (digit_step b v HS Hu) as [E1 E2]. pose proof (Z.mod_pos_bound v (base b)). destruct (digit_lookup b (v mod base b) HS ltac:(lia)) as (c & Ec & _).
    assert (Ed : digit_char b (v mod base b) = c) by (unfold digit_char; by rewrite Ec).
    cbn [fmap list_fmap] in *. rewrite Ed in *. pose proof (div_half v (base b) n ltac:(lia) Hv).
    destruct g; cbn [andb grouped] in *.
    + destruct ((0 <? cnt) && (cnt mod group b =? 0)); cbn [app length] in HL |- *; rewrite ?buf_push_ok by lia; cbn [mbind outcome_bind mret outcome_ret];
        rewrite E1; cbn [mbind outcome_bind]; rewrite Ec; cbn [mbind outcome_bind]; rewrite buf_push_ok by (rewrite ?length_app; cbn [length]; lia); cbn [mbind outcome_bind];
        rewrite E2; cbn [mbind outcome_bind]; rewrite IH by (rewrite ?length_app; cbn [length]; lia); by rewrite <- !app_assoc.
    + cbn [length] in HL. cbn [mbind outcome_bind mret outcome_ret]. rewrite E1. cbn [mbind outcome_bind]. rewrite Ec. cbn [mbind outcome_bind]. rewrite buf_push_ok by lia. cbn [mbind outcome_bind].
      rewrite E2. cbn [mbind outcome_bind]. rewrite IH by (rewrite ?length_app; cbn [length]; lia). by rewrite <- !app_assoc.
Qed.

Lemma zeros_loop_ok prec : forall n buf, (length buf <= 63)%nat -> (64 <= n + length buf)%nat ->
  zeros_loop n prec buf = Ok (buf ++ replicate (Z.to_nat (prec `min` 63) - length buf) (ch "0")).
Proof.
  induction n as [|n IH]; intros buf HL Hn; [cbn in Hn; lia|]. cbn [zeros_loop].
  destruct (Z.ltb_spec (Z.of_nat (length buf)) prec), (Nat.ltb_spec (length buf) 63); cbn [andb].
  2-4: replace (Z.to_nat (prec `min` 63) - length buf)%nat with 0%nat by lia; by rewrite app_nil_r.
  rewrite buf_push_ok by lia. cbn [mbind outcome_bind]. rewrite IH by (rewrite length_app; cbn; lia). rewrite <- app_assoc. do 2 f_equal.
  replace (Z.to_nat (prec `min` 63) - length buf)%nat with (S (Z.to_nat (prec `min` 63) - length (buf ++ [ch "0"])))%nat by (rewrite length_app; cbn; lia). done.
Qed.

Lemma grouped_length g l : forall k, (length (grouped g k l) <= 2 * length l)%nat.
Proof. induction l as [|d l IH]; intros k; cbn [grouped length]; [lia|]. rewrite length_app. cbn. specialize (IH (k + 1)). destruct (_ && _); cbn; lia. Qed.

Lemma integer_buf_ok v b c p : std_base b -> is_u64 v -> precision c = default (-1) p -> from_option (fun p => 0 <= p) True p ->
  integer_buf v b c = Ok (rev (number_body (has (flags c) GROUP) (has (flags c) POUND) p b v)).
Proof.
  intros HS Hv HP H0. pose proof (digit_chars_length b v HS Hv) as HL. unfold integer_buf, number_body. set (g := has (flags c) GROUP).
  set (ds := if g then grouped (group b) 0 (digit_chars b v) else digit_chars b v).
  assert (HD : (length ds <= 44)%nat) by (subst ds; pose proof (grouped_length (group b) (digit_chars b v) 0); destruct g; lia).
  rewrite (digits_loop_ok b g HS 64 v 0 []); [|by destruct Hv|lia|exact (Nat.le_trans _ 44 64 HD ltac:(lia))]. cbn [mbind outcome_bind app].
  change (if g then grouped (group b) 0 (digit_char b <$> digits_of 64 (base b) v) else digit_char b <$> digits_of 64 (base b) v) with ds.
  rewrite zeros_loop_ok by lia. cbn [mbind outcome_bind].
  assert (EP : (if precision c <? 0 then 1 else precision c) = default 1 p).
  { rewrite HP. destruct p as [p|]; cbn in *; [by rewrite (proj2 (Z.ltb_ge p 0)) by lia|done]. }
  rewrite EP. set (zs := ds ++ _). assert (HZ : (length zs <= 63)%nat) by (subst zs; rewrite length_app, length_replicate; lia).
  rewrite rev_involutive. replace (match last zs with Some d => negb (d =? ch "0") | None => true end) with (bool_decide (last zs <> Some (ch "0"))).
  2:{ destruct (last zs) as [d|]; [|done]. destruct (Z.eqb_spec d (ch "0")) as [->|]; [by rewrite bool_decide_eq_false_2 by naive_solver|by rewrite bool_decide_eq_true_2 by naive_solver]. }
  destruct (_ && _ && _); [by apply buf_push_ok; lia|done].
Qed.

(** A byte that is known is a byte. *)
Ltac byte := split; vm_compute; first [reflexivity | discriminate].

Definition sign_list (c : printf_conversion) (is_signed negative : bool) : list Z :=
  if is_signed then if negative then [ch "-"] else if has (flags c) PLUS then [ch "+"] else if has (flags c) SPACE then [ch " "] else [] else [].

Lemma number_body_char g a p b v : std_base b -> Forall is_char (number_body g a p b v).
Proof.
  intros HS. apply Forall_rev. set (ds := if g then _ else _).
  assert (HD : Forall is_char ds).
  { pose proof (digit_chars_char b v HS) as H. subst ds. destruct g; [|done]. generalize 0. induction H as [|d l Hd Hl IH]; intros k; cbn [grouped]; [constructor|].
    apply Forall_app. split; [destruct (_ && _); repeat constructor; done|]. by constructor. }
  assert (HR : forall n, Forall is_char (ds ++ replicate n (ch "0"))) by (intros n; apply Forall_app; split; [done|by apply Forall_replicate]).
  destruct (_ && _ && _); [|done]. apply Forall_app. split; [done|by repeat constructor].
Qed.

Lemma number_body_length g a p b v : std_base b -> is_u64 v -> (length (number_body g a p b v) <= 64)%nat.
Proof.
  intros HS Hv. pose proof (digit_chars_length b v HS Hv) as HL. unfold number_body. rewrite length_rev. set (ds := if g then _ else _).
  assert (HD : (length ds <= 44)%nat) by (subst ds; pose proof (grouped_length (group b) (digit_chars b v) 0); destruct g; lia).
  destruct (_ && _ && _); rewrite ?length_app, ?length_replicate; cbn [length]; lia.
Qed.

(** The parts of a number, as they are put out one after the other, make up the field. *)
Lemma field_parts (minus zero : bool) w (s x body : list Z) n : minus && zero = false -> n = (Z.to_nat w - (length (s ++ x) + length body))%nat ->
  (if negb (minus || zero) then replicate n (ch " ") else []) ++ s ++ x ++ (if zero then replicate n (ch "0") else []) ++ body ++ (if minus then replicate n (ch " ") else [])
  = field minus zero w (s ++ x) body.
Proof. intros H ->. unfold field. destruct minus, zero; try done; cbn [negb orb app]; by rewrite ?app_nil_r, <- ?app_assoc. Qed.

Lemma format_integer_ok c p v is_signed negative b : std_base b -> is_u64 v -> precision c = default (-1) p -> from_option (fun p => 0 <= p) True p ->
  0 <= width c < 2 ^ 31 -> has (flags c) MINUS && has (flags c) ZERO = false ->
  emits (format_integer output v is_signed negative b c)
    (field (has (flags c) MINUS) (has (flags c) ZERO) (width c) (sign_list c is_signed negative ++ base_chars (has (flags c) POUND) b v)
       (number_body (has (flags c) GROUP) (has (flags c) POUND) p b v)) tt.
Proof.
  intros HS Hv HP H0 HW HMZ. unfold format_integer. set (sign := if is_signed then _ else _). set (x := if _ && _ then _ else _).
  set (body := number_body _ _ _ _ _). assert (HB := number_body_length (has (flags c) GROUP) (has (flags c) POUND) p b v HS Hv). fold body in HB.
  assert (ES : sign_list c is_signed negative = if negb (sign =? 0) then [sign] else []).
  { subst sign. unfold sign_list. by destruct is_signed, negative, (has (flags c) PLUS), (has (flags c) SPACE). }
  assert (EX : base_chars (has (flags c) POUND) b v = if negb (x =? 0) then [ch "0"; x] else []).
  { subst x. unfold base_chars. by destruct (has (flags c) POUND), (v =? 0), (base_char b =? 0) eqn:E; cbn; rewrite ?E. }
  assert (HS8 : is_u8 sign) by (subst sign; destruct is_signed, negative, (has (flags c) PLUS), (has (flags c) SPACE); byte).
  assert (HX8 : is_u8 x) by (subst x; destruct HS as [-> | [-> | [-> | ->]]]; destruct (has (flags c) POUND && _); byte).
  eapply emits_reads; [intros w Hw; by rewrite (integer_buf_ok v b c p)|]. fold body. cbn beta iota zeta. rewrite length_rev, rev_involutive.
  set (pad := if _ <? 0 then 0 else _).
  assert (EN : Z.to_nat pad = (Z.to_nat (width c) - (length (sign_list c is_signed negative ++ base_chars (has (flags c) POUND) b v) + length body))%nat).
  { subst pad. rewrite length_app, ES, EX. destruct (negb (x =? 0)), (negb (sign =? 0)); cbn [length]; rewrite s32_small by solve_int; destruct (_ <? 0) eqn:E; lia. }
  change (Z.lor MINUS ZERO) with (Z.lor (flag_bit Minus) (flag_bit Zero)). rewrite has_both. cbn [flag_bit].
  rewrite <- (field_parts (has (flags c) MINUS) (has (flags c) ZERO) (width c) _ _ body _ HMZ EN). rewrite ES, EX.
  eapply emits_bind; [apply emits_when; intros _; by apply emits_dup|].
  eapply emits_bind; [apply emits_when; intros _; by apply emits_output|].
  eapply emits_bind; [apply emits_when; intros _; eapply (emits_bind _ _ [ch "0"] [x]); by apply emits_output|].
  eapply emits_bind; [apply emits_when; intros _; by apply emits_dup|].
  eapply emits_bind; [by apply emits_all, char_u8, number_body_char|].
  apply emits_when; intros _; by apply emits_dup.
Qed.

(** *** Strings *)

Lemma output_string_ok (string : Z -> M world Z) l : forall i, Forall is_u8 l -> (forall k c, l !! k = Some c -> reads (string (i + Z.of_nat k)) c) ->
  emits (output_string output string (length l) i) l tt.
Proof.
  induction l as [|c l IH]; intros i HU HR; cbn [length output_string]; [apply emits_ret|]. apply Forall_cons in HU as [Hc HU].
  eapply emits_reads; [specialize (HR 0%nat c eq_refl); by rewrite Z.add_0_r in HR|]. eapply (emits_bind _ _ [c]); [by apply emits_output|].
  apply IH; [done|]. intros k d Hk. replace (i + 1 + Z.of_nat k) with (i + Z.of_nat (S k)) by lia. by apply HR.
Qed.

Lemma format_string_ok (string : Z -> M world Z) l c : Forall is_u8 l -> (forall k d, l !! k = Some d -> reads (string (Z.of_nat k)) d) -> 0 <= width c < 2 ^ 31 ->
  Z.of_nat (length l) < 2 ^ 31 -> emits (format_string output string (Z.of_nat (length l)) c) (field (has (flags c) MINUS) false (width c) [] l) tt.
Proof.
  intros HU HR HW HL. unfold format_string. rewrite Nat2Z.id, s32_small by solve_int.
  replace (Z.to_nat (width c - Z.of_nat (length l))) with (Z.to_nat (width c) - length l)%nat by lia. set (n := (Z.to_nat (width c) - length l)%nat).
  assert (E : field (has (flags c) MINUS) false (width c) [] l =
    (if (Z.of_nat (length l) <? width c) && negb (has (flags c) MINUS) then replicate n (ch " ") else []) ++ l ++ (if (Z.of_nat (length l) <? width c) && has (flags c) MINUS then replicate n (ch " ") else [])).
  { unfold field. cbn [length app Nat.add]. fold n. destruct (has (flags c) MINUS), (Z.ltb_spec (Z.of_nat (length l)) (width c)); cbn [andb negb app]; rewrite ?app_nil_r; try done;
      replace n with 0%nat by lia; by rewrite ?app_nil_r. }
  rewrite E. eapply emits_bind; [apply emits_when; intros _; by apply emits_dup|].
  eapply emits_bind; [by apply output_string_ok|]. apply emits_when; intros _; by apply emits_dup.
Qed.

(** *** Arguments *)

Lemma split64 v : u32 v + 2 ^ 32 * u32 (v / 2 ^ 32) = v mod 2 ^ 64.
Proof. int_unfold. Z.div_mod_to_equations. lia. Qed.

Definition int_words (t : arg_type) (v : Z) : list Z := if bits t =? 64 then [u32 v; u32 (v / 2 ^ 32)] else [u32 v].

Lemma signed_arg_ok t v args : reads (@signed_arg X t (int_words t v ++ args)) (signed_value (bits t) v, args).
Proof.
  unfold signed_arg, signed_value, int_words, signed_char, signed_short.
  destruct t; cbn [bits Z.eqb Pos.eqb app]; (eapply reads_bind; [apply reads_ret|]); cbn beta iota; rewrite ?split64;
    (match goal with |- reads (mret (?x, _)) (?y, _) => replace x with y; [apply reads_ret|] end);
    repeat match goal with |- context [2 ^ ?k] => let v := eval vm_compute in (2 ^ k) in change (2 ^ k) with v end; int_unfold;
    try match goal with |- context [if ?a <? ?b then _ else _] => destruct (Z.ltb_spec a b) end; Z.div_mod_to_equations; lia.
Qed.

Lemma unsigned_arg_ok t v args : reads (@unsigned_arg X t (int_words t v ++ args)) (v mod 2 ^ bits t, args).
Proof.
  unfold unsigned_arg, int_words.
  destruct t; cbn [bits Z.eqb Pos.eqb app]; try (eapply reads_bind; [apply reads_ret|]; cbn beta iota); rewrite <- ?split64; try apply reads_ret.
  all: match goal with |- reads (mret (?x, _)) (?y, _) => replace x with y; [apply reads_ret|] end.
  - change (2 ^ 8) with 256. int_unfold. Z.div_mod_to_equations; lia.
  - change (2 ^ 16) with 65536. int_unfold. Z.div_mod_to_equations; lia.
  - change (Z.lor _ 1) with (2 ^ 32 - 1). rewrite land_low by lia. int_unfold. Z.div_mod_to_equations. lia.
Qed.

(** *** Conversions *)

Lemma parsed_width o : options_ok o -> 0 <= o_w o < 2 ^ 31.
Proof. intros (HW & _). unfold o_w. destruct (o_width o) as [[n|v]|]; cbn in *; lia. Qed.

Lemma parsed_prec_range o : options_ok o -> from_option (fun p => 0 <= p < 2 ^ 31) True (o_p o).
Proof. intros (_ & HP & _). unfold o_p. destruct (o_prec o) as [[n|v]|]; cbn in *; [done| |done]. destruct (Z.ltb_spec v 0); cbn; [done|lia]. Qed.

(** The options of an integer conversion are used as the field says. *)
Lemma format_number_ok o v is_signed negative b : options_ok o -> std_base b -> is_u64 v ->
  emits (format_integer output v is_signed negative b (parsed o))
    (field (o_minus o) (o_zero o) (o_w o) ((if is_signed then sign_chars o negative else []) ++ base_chars (fl o Pound) b v)
       (number_body (fl o Group) (fl o Pound) (o_p o) b v)) tt.
Proof.
  intros HO HS Hv. destruct (parsed_ok o HO) as [EW EP ET EM EZ EPl ESp EPo EG]. pose proof (parsed_width o HO). pose proof (parsed_prec_range o HO) as HPR.
  cbn [flag_bit] in *. pose proof (format_integer_ok (parsed o) (o_p o) v is_signed negative b HS Hv EP) as HF. rewrite EM, EZ, EW, EG, EPo in HF.
  assert (ES : sign_list (parsed o) is_signed negative = if is_signed then sign_chars o negative else []).
  { unfold sign_list, sign_chars. rewrite EPl, ESp. by destruct is_signed, negative, (fl o Plus), (fl o Space). }
  rewrite ES in HF. apply HF; [destruct (o_p o); cbn in *; [lia|done]|lia|]. unfold o_zero. by destruct (o_minus o), (fl o Zero).
Qed.

Lemma format_signed_ok o v : options_ok o -> is_s64 v ->
  emits (format_integer output (u64 (if v <? 0 then s64 (- v) else v)) true (v <? 0) base_d (parsed o)) (text_signed o v) tt.
Proof.
  intros HO Hv. assert (E : u64 (if v <? 0 then s64 (- v) else v) = Z.abs v).
  { destruct (Z.ltb_spec v 0); [|rewrite u64_small by solve_int; lia]. int_unfold. Z.div_mod_to_equations. lia. }
  rewrite E. unfold text_signed. assert (HS : std_base base_d) by by left.
  pose proof (format_number_ok o (Z.abs v) true (v <? 0) base_d HO HS ltac:(solve_int)) as H. cbn beta iota in H.
  replace (base_chars (fl o Pound) base_d (Z.abs v)) with (@nil Z) in H by (unfold base_chars; cbn; by rewrite andb_false_r). by rewrite app_nil_r in H.
Qed.

Lemma format_pointer_ok o v : options_ok o -> is_u32 v ->
  emits (format_integer output v false false base_x (Conversion POUND (width (parsed o)) (precision (parsed o)) (type (parsed o)))) (text_pointer o v) tt.
Proof.
  intros HO Hv. destruct (parsed_ok o HO) as [EW EP _ _ _ _ _ _ _]. pose proof (parsed_width o HO). pose proof (parsed_prec_range o HO) as HPR.
  pose proof (format_integer_ok (Conversion POUND (width (parsed o)) (precision (parsed o)) (type (parsed o))) (o_p o) v false false base_x) as HF. cbn [flags precision width] in HF.
  rewrite EW in *. change (has POUND MINUS) with false in HF. change (has POUND ZERO) with false in HF. change (has POUND POUND) with true in HF. change (has POUND GROUP) with false in HF.
  apply HF; [right; right; by left|solve_int|done|destruct (o_p o); cbn in *; [lia|done]|lia|done].
Qed.

(** The length of a string that is printed. *)
Lemma strnlen_loop_ok m s : forall n p maxlen k, cstr m (p + Z.of_nat k) s -> (length s < n)%nat -> Z.of_nat k <= maxlen ->
  strnlen_loop m n p maxlen (Z.of_nat k) = Ok (Z.of_nat k + Z.min (Z.of_nat (length s)) (maxlen - Z.of_nat k)).
Proof.
  induction s as [|c s IH]; intros [|n] p maxlen k HC Hn Hk; cbn [length] in Hn; try lia; cbn [strnlen_loop].
  - apply cstr_nil in HC. rewrite (load_at _ _ _ HC). cbn. do 2 f_equal. lia.
  - apply cstr_cons in HC as (H1 & H2 & H3). rewrite (load_at _ _ _ H1). cbn [mbind outcome_bind]. unfold is_char in H2.
    rewrite (proj2 (Z.eqb_neq c 0)) by lia. cbn [negb andb length]. destruct (Z.ltb_spec (Z.of_nat k) maxlen); [|unfold mret, outcome_ret; f_equal; lia].
    replace (Z.of_nat k + 1) with (Z.of_nat (S k)) by lia. rewrite IH; [f_equal; lia|by replace (p + Z.of_nat (S k)) with (p + Z.of_nat k + 1) by lia|lia|lia].
Qed.

Lemma reads_strnlen p s maxlen : cstr const p s -> 0 <= maxlen ->
  reads (@on_mem X _ (reading (fun m => strnlen m p maxlen))) (Z.min (Z.of_nat (length s)) maxlen).
Proof.
  intros HC Hm [m x] Hw. cbn [fst] in Hw. pose proof (cstr_sub _ _ _ _ Hw HC) as HC'. pose proof (cstr_size _ _ _ HC').
  pose proof (strnlen_loop_ok m s (fuel m) p maxlen 0) as H2. change (Z.of_nat 0) with 0 in H2. rewrite Z.add_0_r, Z.sub_0_r, Z.add_0_l in H2.
  unfold on_mem, reading, strnlen. cbn [fst snd]. rewrite H2; [done|done|unfold fuel; lia|done].
Qed.

Definition limited (o : options) (s : list Z) : list Z := match o_p o with Some q => take (Z.to_nat q) s | None => s end.

Lemma limited_length o s : options_ok o -> Z.of_nat (length s) < 2 ^ 31 -> Z.min (Z.of_nat (length s)) (u32 (precision (parsed o))) = Z.of_nat (length (limited o s)).
Proof.
  intros HO HL. destruct (parsed_ok o HO) as [_ EP _ _ _ _ _ _ _]. pose proof (parsed_prec_range o HO) as HPR. unfold limited. rewrite EP.
  destruct (o_p o) as [q|]; cbn [default from_option] in *; [rewrite length_take; unfold id; rewrite u32_small by solve_int; lia|].
  change (u32 (-1)) with 4294967295. pow2_consts. lia.
Qed.

Lemma limited_take o s : exists k, limited o s = take k s.
Proof. unfold limited. destruct (o_p o) as [q|]; [by exists (Z.to_nat q)|]. exists (length s). by rewrite firstn_all. Qed.

Lemma format_pointed_ok o p s : options_ok o -> cstr const p s -> Z.of_nat (length s) < 2 ^ 31 ->
  emits (let* len := on_mem (reading (fun m => strnlen m p (u32 (precision (parsed o))))) in format_string output (fun i => rd (p + i)) (s32 len) (parsed o)) (text_string o (limited o s)) tt.
Proof.
  intros HO HC HL. destruct (parsed_ok o HO) as [EW _ _ EM _ _ _ _ _]. pose proof (parsed_width o HO).
  eapply emits_reads; [apply (reads_strnlen p s); [done|apply u32_range]|]. cbn beta. rewrite limited_length by done.
  destruct (limited_take o s) as [k HT]. set (t := limited o s) in *.
  assert (HLt : (length t <= length s)%nat) by (rewrite HT, length_take; lia). rewrite s32_small by solve_int.
  unfold text_string. cbn [flag_bit] in EM. rewrite <- EM, <- EW. apply format_string_ok.
  - rewrite HT. apply Forall_take, char_u8. by destruct HC.
  - intros i d Hi. apply reads_byte. destruct HC as [HB _]. apply HB. apply lookup_app_l_Some. rewrite HT in Hi. by apply lookup_take_Some in Hi as [? _].
  - by rewrite EW.
  - lia.
Qed.

(** *** The engine *)

Context (lit : string -> Z) (string_at : Z -> list Z).
Context (HLit : literals lit engine_literals const).

Lemma bits_range t : 8 <= bits t <= 64.
Proof. destruct t; cbn; lia. Qed.

Lemma signed_value_range t v : is_s64 (signed_value (bits t) v).
Proof.
  unfold signed_value. pose proof (bits_range t) as HB.
  assert (2 ^ bits t = 2 * 2 ^ (bits t - 1)) by (rewrite <- Z.pow_succ_r by lia; f_equal; lia).
  assert (0 < 2 ^ (bits t - 1) <= 2 ^ 63) by (split; [apply Z.pow_pos_nonneg; lia|apply Z.pow_le_mono_r; lia]).
  pose proof (Z.mod_pos_bound (v + 2 ^ (bits t - 1)) (2 ^ bits t)). unfold is_s64. lia.
Qed.

Lemma unsigned_value_range t v : is_u64 (v mod 2 ^ bits t).
Proof.
  pose proof (bits_range t) as HB. assert (0 < 2 ^ bits t <= 2 ^ 64) by (split; [apply Z.pow_pos_nonneg; lia|apply Z.pow_le_mono_r; lia]).
  pose proof (Z.mod_pos_bound v (2 ^ bits t)). unfold is_u64. lia.
Qed.

Section Convert.
Context (again : Z -> list Z -> M world unit) (o : options) (v : Z) (args : list Z).
Context (HO : options_ok o).

Lemma convert_signed k : k = Cd \/ k = Ci ->
  emits (convert output lit again (letter k) (parsed o) (value_words o k v ++ args)) (text_item string_at (Conv o k v)) args.
Proof.
  intros Hk. assert (EC : is_one_of "di" (letter k) = true) by (by destruct Hk as [-> | ->]). unfold convert. rewrite EC.
  assert (ET := co_type _ _ (parsed_ok o HO)). rewrite ET.
  assert (EV : value_words o k v = int_words (o_type o) v) by (by destruct Hk as [-> | ->]). rewrite EV.
  eapply emits_reads; [apply signed_arg_ok|]. cbn beta iota.
  replace (text_item string_at (Conv o k v)) with (text_signed o (signed_value (bits (o_type o)) v) ++ []) by (rewrite app_nil_r; by destruct Hk as [-> | ->]).
  eapply emits_bind; [apply format_signed_ok; [done|apply signed_value_range]|apply emits_ret].
Qed.

Lemma convert_unsigned k b : (k, b) ∈ [(Co, base_o); (Cu, base_d); (Cx, base_x); (CX, base_X)] ->
  emits (convert output lit again (letter k) (parsed o) (value_words o k v ++ args)) (text_item string_at (Conv o k v)) args.
Proof.
  intros Hk. assert (E : is_one_of "di" (letter k) = false /\ is_one_of "ouxX" (letter k) = true /\ value_words o k v = int_words (o_type o) v /\ std_base b /\
    (if letter k =? ch "o" then base_o else if letter k =? ch "u" then base_d else if letter k =? ch "x" then base_x else base_X) = b /\
    text_item string_at (Conv o k v) = text_unsigned o b (v mod 2 ^ bits (o_type o)) ++ []).
  { rewrite app_nil_r. unfold std_base. rewrite !elem_of_cons in Hk. destruct Hk as [E|[E|[E|[E|E]]]]; [..|by apply elem_of_nil in E]; injection E as -> ->; repeat split; auto. }
  destruct E as (E1 & E2 & E3 & HS & E4 & E5). unfold convert. rewrite E1, E2, E3, E5. rewrite (co_type _ _ (parsed_ok o HO)).
  eapply emits_reads; [apply unsigned_arg_ok|]. cbn beta iota zeta. rewrite E4.
  eapply emits_bind; [|apply emits_ret]. apply (format_number_ok o _ false false b HO HS). apply unsigned_value_range.
Qed.

Lemma convert_char : emits (convert output lit again (letter Cc) (parsed o) (value_words o Cc v ++ args)) (text_item string_at (Conv o Cc v)) args.
Proof.
  unfold convert. change (is_one_of "di" (letter Cc)) with false. change (is_one_of "ouxX" (letter Cc)) with false. change (letter Cc =? ch "c") with true.
  cbn beta iota. eapply emits_reads; [apply reads_ret|]. cbn beta iota. cbn [text_item]. rewrite <- (app_nil_r (text_string _ _)).
  eapply emits_bind; [|apply emits_ret]. unfold text_string. rewrite <- (co_width _ _ (parsed_ok o HO)), <- (co_minus _ _ (parsed_ok o HO)).
  replace (u8 (u32 v)) with (u8 v) by (int_unfold; Z.div_mod_to_equations; lia).
  apply (format_string_ok _ [u8 v]); [by repeat constructor; apply u8_range| |rewrite (co_width _ _ (parsed_ok o HO)); by apply parsed_width|done].
  intros [|k] d Hd; [injection Hd as <-; apply reads_ret|done].
Qed.

Lemma convert_string : v = 0 \/ is_u32 v /\ v <> 0 /\ cstr const v (string_at v) /\ Z.of_nat (length (string_at v)) < 2 ^ 31 ->
  emits (convert output lit again (letter Cs) (parsed o) (value_words o Cs v ++ args)) (text_item string_at (Conv o Cs v)) args.
Proof.
  intros Hv. unfold convert. change (is_one_of "di" (letter Cs)) with false. change (is_one_of "ouxX" (letter Cs)) with false.
  change (letter Cs =? ch "c") with false. change (letter Cs =? ch "s") with true.
  cbn beta iota. eapply emits_reads; [apply reads_ret|]. cbn beta iota zeta. cbn [text_item]. rewrite <- (app_nil_r (text_string _ _)).
  assert (HS : exists s, (if v =? 0 then str "(null)" else string_at v) = s /\ cstr const (if u32 v =? 0 then lit "(null)" else u32 v) s /\ Z.of_nat (length s) < 2 ^ 31).
  { destruct Hv as [-> | (H1 & H2 & H3 & H4)].
    - change (u32 0 =? 0) with true. eexists. split; [reflexivity|]. apply Forall_cons in HLit as [[HN _] _]. done.
    - rewrite (u32_small v) by done. rewrite (proj2 (Z.eqb_neq v 0)) by done. eauto. }
  destruct HS as (s & -> & HC & HL). fold (limited o s).
  set (p := if u32 v =? 0 then _ else _) in *. rewrite app_nil_r. intros out w Ht HLen.
  destruct (format_pointed_ok o p s HO HC HL out w Ht HLen) as (w' & E & Ht'). exists w'. split; [|done].
  apply M_bind_inv in E as (len & w1 & E1 & E2). rewrite (M_bind_Ok _ _ _ _ _ E1), (M_bind_Ok _ _ _ _ _ E2). done.
Qed.

Lemma convert_pointer : is_u32 v -> emits (convert output lit again (letter Cp) (parsed o) (value_words o Cp v ++ args)) (text_item string_at (Conv o Cp v)) args.
Proof.
  intros Hv. unfold convert. change (is_one_of "di" (letter Cp)) with false. change (is_one_of "ouxX" (letter Cp)) with false.
  change (letter Cp =? ch "c") with false. change (letter Cp =? ch "s") with false. change (letter Cp =? ch "p") with true.
  cbn beta iota. eapply emits_reads; [apply reads_ret|]. cbn beta iota. cbn [text_item]. rewrite <- (app_nil_r (text_pointer _ _)), u32_small by done.
  eapply emits_bind; [by apply format_pointer_ok|apply emits_ret].
Qed.

Lemma convert_other c : other_ok c ->
  emits (again (lit (if is_one_of "feEgGn" c then "<<no %%%c in kernel>>" else "<<no %%%c conversion>>")) [u32 (signed_char c)]) (text_message c) tt ->
  emits (convert output lit again c (parsed o) args) (text_message c) args.
Proof.
  intros (_ & Hc & _) HA. rewrite !one_of_false in Hc. unfold convert.
  replace (is_one_of "di" c) with false by (symmetry; rewrite !one_of_false; tauto). replace (is_one_of "ouxX" c) with false by (symmetry; rewrite !one_of_false; tauto).
  destruct Hc as (_ & _ & _ & _ & _ & _ & H1 & H2 & H3 & _). rewrite !(proj2 (Z.eqb_neq c _)) by done. rewrite <- (app_nil_r (text_message c)).
  destruct (is_one_of "feEgGn" c); (eapply emits_bind; [exact HA|apply emits_ret]).
Qed.
End Convert.

(** The messages as formats. *)
Definition plain : options := Options [] None None INT.
Definition message_items (c : Z) : list item :=
  (Char <$> str "<<no ") ++ [Percent; Conv plain Cc (signed_char c)] ++ (Char <$> (if is_one_of "feEgGn" c then str " in kernel>>" else str " conversion>>")).

Lemma plain_options_ok : options_ok plain.
Proof. done. Qed.

Lemma message_items_ok c : is_char c -> Forall (item_ok const string_at) (message_items c) /\ words (message_items c) = [u32 (signed_char c)] /\
  render (message_items c) = str (if is_one_of "feEgGn" c then "<<no %%%c in kernel>>" else "<<no %%%c conversion>>") /\
  text string_at (message_items c) = text_message c.
Proof.
  intros Hc. unfold message_items, text_message. assert (E : u8 (signed_char c) = c) by (unfold is_char, signed_char in *; int_unfold; change (2 ^ 7) with 128; Z.div_mod_to_equations; lia).
  split; [|split; [|split]].
  - apply Forall_app. split; [by repeat constructor|]. apply Forall_app. split; [by repeat constructor|]. destruct (is_one_of _ _); by repeat constructor.
  - by destruct (is_one_of "feEgGn" c).
  - by destruct (is_one_of "feEgGn" c).
  - destruct (is_one_of "feEgGn" c); cbn; by rewrite E.
Qed.

Lemma letter_ends k : (forall c, k = Other c -> other_ok c) -> ends_options (letter k) /\ letter k <> ch "%" /\ is_char (letter k).
Proof.
  intros H. destruct k; try (repeat split; (done || byte)). destruct (H c eq_refl) as (H1 & H2 & H3). rewrite !one_of_false in H2. cbn [letter].
  split; [split; [rewrite !one_of_false; tauto|done]|]. split; [tauto|done].
Qed.

Lemma options_head o k : options_ok o -> letter k <> ch "%" -> default 0 (head (render_options o ++ [letter k])) <> ch "%".
Proof.
  intros (HW & _) Hk. unfold render_options. destruct (o_flags o) as [|f fs]; [|by destruct f].
  cbn [fmap list_fmap app]. destruct (o_width o) as [[n|v]|]; cbn [from_option render_number number_ok] in *; [|done|].
  - destruct (numeral_head n) as (d & l & -> & Hd); [pow2_consts; lia|]. change (d <> 37). lia.
  - destruct (o_prec o) as [p|]; [done|]. destruct (o_type o); done.
Qed.

Definition is_other (i : item) : bool := match i with Conv _ (Other _) _ => true | _ => false end.

(** Fuel: one unit for each character of the format, and what the message needs. *)
Definition enough (n : nat) (l : list item) : Prop := (length (render l) + (if existsb is_other l then 22 else 0) < n)%nat.

Lemma render_cons i l : render (i :: l) = render_item i ++ render l.
Proof. done. Qed.

Lemma enough_cons n i l : enough (S n) (i :: l) -> enough n l /\ (is_other i = true -> (22 < n)%nat).
Proof.
  unfold enough. rewrite render_cons, length_app. cbn [existsb].
  assert (1 <= length (render_item i))%nat by (destruct i; cbn; lia). destruct (is_other i), (existsb is_other l); cbn [orb]; split; intros; (lia || done).
Qed.

(** A conversion, given the rest of the loop. *)
Lemma convert_ok n o k v args : item_ok const string_at (Conv o k v) ->
  (forall c, k = Other c -> emits (vprintf_loop output lit n (lit (if is_one_of "feEgGn" c then "<<no %%%c in kernel>>" else "<<no %%%c conversion>>")) [u32 (signed_char c)]) (text_message c) tt) ->
  emits (convert output lit (vprintf_loop output lit n) (letter k) (parsed o) (value_words o k v ++ args)) (text_item string_at (Conv o k v)) args.
Proof.
  intros [HO Hk] HA. destruct k.
  1-2: by apply convert_signed; auto.
  1: by apply (convert_unsigned _ _ _ _ HO _ base_o); set_solver.
  1: by apply (convert_unsigned _ _ _ _ HO _ base_d); set_solver.
  1: by apply (convert_unsigned _ _ _ _ HO _ base_x); set_solver.
  1: by apply (convert_unsigned _ _ _ _ HO _ base_X); set_solver.
  - by apply convert_char.
  - by apply convert_string.
  - by apply convert_pointer.
  - apply convert_other; [done|done|]. by apply HA.
Qed.

Lemma vprintf_loop_ok n : forall l p args, Forall (item_ok const string_at) l -> cstr const p (render l) -> enough n l ->
  emits (vprintf_loop output lit n p (words l ++ args)) (text string_at l) tt.
Proof.
  induction n as [|n IH]; intros l p args HF HC HN; [unfold enough in HN; lia|]. cbn [vprintf_loop]. eapply emits_reads; [by apply reads_cstr|].
  destruct l as [|i l]; [apply emits_ret|]. apply Forall_cons in HF as [Hi HF]. destruct (enough_cons _ _ _ HN) as [HN1 HN2].
  change (words (i :: l)) with (words_item i ++ words l). rewrite <- app_assoc. change (text string_at (i :: l)) with (text_item string_at i ++ text string_at l).
  rewrite render_cons in *. destruct i as [c| |o k v]; cbn [render_item app head default from_option id words_item text_item] in *.
  - destruct Hi as [Hc Hp]. apply cstr_cons in HC as (_ & _ & HC). unfold is_char in Hc. rewrite (proj2 (Z.eqb_neq c 0)), (proj2 (Z.eqb_neq c _)) by (done || lia). cbn [negb].
    eapply (emits_bind _ _ [c]); [apply emits_output; unfold is_u8; lia|]. by apply IH.
  - change (str "%%") with [ch "%"; ch "%"] in *. cbn [app] in HC. apply cstr_cons in HC as (_ & _ & HC). cbn [app head]. change (ch "%" =? 0) with false. rewrite Z.eqb_refl. cbn [negb].
    eapply emits_reads; [by apply reads_cstr|]. cbn [app head default from_option id]. rewrite Z.eqb_refl. apply cstr_cons in HC as (_ & _ & HC).
    eapply (emits_bind _ _ [ch "%"]); [by apply emits_output|]. replace (p + 2) with (p + 1 + 1) by lia. by apply IH.
  - change (ch "%" =? 0) with false. rewrite Z.eqb_refl. cbn [negb]. apply cstr_cons in HC as (_ & _ & HC). eapply emits_reads; [by apply reads_cstr|].
    destruct (letter_ends k) as (HE & HP & HK); [intros c ->; apply Hi|]. destruct Hi as [HO Hk].
    rewrite <- app_assoc in HC |- *. cbn [app] in HC |- *.
    assert (HH : (default 0 (head (render_options o ++ letter k :: render l)) =? ch "%") = false).
    { apply Z.eqb_neq. pose proof (options_head o k HO HP) as H. destruct (render_options o); done. }
    cbn [id] in HH. rewrite HH. rewrite <- !app_assoc.
    eapply emits_reads; [by apply (parse_conversion_ok o (p + 1) (letter k) (render l))|]. cbn beta iota. apply cstr_after in HC.
    eapply emits_reads; [by apply reads_cstr|]. cbn [head default from_option id]. apply cstr_cons in HC as (_ & _ & HC).
    eapply emits_bind; [apply (convert_ok n o k v (words l ++ args)); [done|]|cbn beta; by apply IH].
    intros c ->. destruct Hk as (Hc & _). destruct (message_items_ok c Hc) as (M1 & M2 & M3 & M4). rewrite <- M4, <- M2, <- (app_nil_r (words _)).
    pose proof HLit as HL. unfold literals, engine_literals in HL. rewrite !Forall_cons in HL. destruct HL as (_ & [HL1 _] & [HL2 _] & _).
    apply IH; [done|rewrite M3; by destruct (is_one_of "feEgGn" c)|].
    specialize (HN2 eq_refl). unfold enough. rewrite M3. unfold message_items. destruct (is_one_of "feEgGn" c); cbn; lia.
Qed.

(** The engine prints the text of the format. *)
Lemma __vprintf_ok l p args : Forall (item_ok const string_at) l -> cstr const p (render l) ->
  emits (__vprintf output lit p (words l ++ args)) (text string_at l) tt.
Proof.
  intros HF HC out w Ht HL. unfold __vprintf, loop_fuel. rewrite (M_bind_Ok _ _ w (fuel w.1) w) by done.
  apply (vprintf_loop_ok (2 * fuel w.1) l p args HF HC); [|done|done]. unfold enough, fuel. pose proof (map_subseteq_size _ _ (told_const _ _ Ht)).
  pose proof (cstr_size _ _ _ HC). pose proof HLit as HQ. unfold literals, engine_literals in HQ. rewrite !Forall_cons in HQ. destruct HQ as (_ & _ & [HL2 _] & _).
  apply cstr_size in HL2. change (length (str _)) with 22%nat in HL2. destruct (existsb _ _); lia.
Qed.

End Emits.

(** ** vsnprintf *)

Lemma put_end p l x m : <[p + Z.of_nat (length l) := x]> (put p l m) = put p (l ++ [x]) m.
Proof.
  rewrite put_snoc. apply map_eq. intros b. destruct (decide (b = p + Z.of_nat (length l))) as [->|Hb].
  - by rewrite lookup_insert_eq, lookup_put, decide_False, lookup_insert_eq by lia.
  - by rewrite lookup_insert_ne, !lookup_put, lookup_insert_ne by done.
Qed.

Section Buffer.
Context (m0 const : mem) (buffer : Z) (max : nat).
Context (HC : const ⊆ m0) (HM : mapped m0 buffer (Z.of_nat max)) (HD : forall a, buffer <= a < buffer + Z.of_nat max -> const !! a = None).

Definition buffer_told (out : list Z) (w : mem * vsnprintf_aux) : Prop :=
  w = (put buffer (take max out) m0, Aux (buffer + Z.of_nat (length (take max out))) (Z.of_nat (length out)) (Z.of_nat max)).

Lemma buffer_told_const out w : buffer_told out w -> const ⊆ w.1.
Proof.
  intros ->. cbn [fst]. apply map_subseteq_spec. intros a x Ha. rewrite lookup_put.
  rewrite decide_False; [by eapply lookup_weaken|]. intros Hr. rewrite HD in Ha; [done|]. rewrite length_take in Hr. lia.
Qed.

(** What the helper does: the buffer has the first [max] characters, the length counts all of them. *)
Lemma buffer_told_output out w c : buffer_told out w -> (length out < Z.to_nat (2 ^ 31 - 1))%nat -> is_u8 c ->
  exists w', vsnprintf_helper c w = Ok (tt, w') /\ buffer_told (out ++ [c]) w'.
Proof.
  intros -> HL Hc. unfold vsnprintf_helper. cbn [fst snd aux_length aux_max aux_p]. rewrite s32_small by solve_int.
  destruct (Z.ltb_spec (Z.of_nat (length out)) (Z.of_nat max)).
  - rewrite (take_ge out) by lia. set (a := buffer + Z.of_nat (length out)). assert (Ha : put buffer out m0 !! a = m0 !! a) by (rewrite lookup_put, decide_False by lia; done).
    destruct (HM a) as [x Hx]; [lia|]. rewrite <- Ha in Hx. rewrite (store_at _ _ _ _ Hx), u8_small by done. eexists. split; [reflexivity|].
    unfold buffer_told. rewrite take_ge by (rewrite length_app; cbn; lia). rewrite length_app. cbn [length]. f_equal; [apply put_end|f_equal; lia].
  - eexists. split; [reflexivity|]. unfold buffer_told. rewrite take_app_le, length_app by lia. cbn [length]. do 2 f_equal. lia.
Qed.

#[local] Instance buffer_Sink : Sink vsnprintf_helper const (Z.to_nat (2 ^ 31 - 1)) := {|
  told := buffer_told; told_const := buffer_told_const; told_output := buffer_told_output |}.

Lemma vsnprintf_ok lit string_at l p args size : literals lit engine_literals const -> Forall (item_ok const string_at) l -> cstr const p (render l) ->
  Z.of_nat max = Z.max 0 (size - 1) -> size <= 2 ^ 31 -> mapped m0 buffer size ->
  let t := text string_at l in Z.of_nat (length t) < 2 ^ 31 ->
  vsnprintf lit buffer size p (words l ++ args) m0 = Ok (Z.of_nat (length t), if 0 <? size then put buffer (take max t ++ [0]) m0 else m0).
Proof.
  intros HLit HF HR Hmax Hs HMs t HL. unfold vsnprintf. assert (E : s32 (if 0 <? size then size - 1 else 0) = Z.of_nat max).
  { destruct (Z.ltb_spec 0 size); rewrite s32_small by solve_int; lia. }
  rewrite E. destruct (__vprintf_ok lit string_at HLit l p args HF HR [] (m0, Aux buffer 0 (Z.of_nat max))) as (w' & E' & HT).
  { unfold told, buffer_Sink, buffer_told. rewrite take_nil. cbn. by rewrite Z.add_0_r. }
  { cbn [length]. fold t. lia. }
  cbn [app] in HT. fold t in HT. rewrite E'. cbn in HT. rewrite HT. cbn [aux_p aux_length]. destruct (Z.ltb_spec 0 size).
  - destruct (HMs (buffer + Z.of_nat (length (take max t)))) as [x Hx]; [rewrite length_take; lia|].
    rewrite (M_bind_Ok _ _ _ tt (put buffer (take max t ++ [0]) m0)); [done|]. erewrite store_at by (rewrite lookup_put, decide_False by lia; done).
    change (u8 0) with 0. by rewrite put_end.
  - replace max with 0%nat by lia. by rewrite take_0.
Qed.
End Buffer.

(** C35: vsnprintf (and snprintf) into a buffer of [size] bytes returns the length of the whole text of the format and writes
    its first [size - 1] characters and a null byte, or nothing at all when [size] is 0; no other byte of memory changes.
    The text is the one the items of the format stand for, with every flag, width, precision and length of the C
    standard that the code knows; unsupported conversions print their message. *)
Theorem vsnprintf_correct lit m const buffer size string_at l p args : 0 <= size <= 2 ^ 31 -> mapped m buffer size ->
  const ⊆ m -> (forall a, buffer <= a < buffer + size -> const !! a = None) ->
  literals lit engine_literals const -> Forall (item_ok const string_at) l -> cstr const p (render l) ->
  let t := text string_at l in Z.of_nat (length t) < 2 ^ 31 ->
  snprintf lit buffer size p (words l ++ args) m =
    Ok (Z.of_nat (length t), if 0 <? size then put buffer (take (Z.to_nat (size - 1)) t ++ [0]) m else m).
Proof.
  intros Hs HM HC HD HL HF HR t Ht. unfold snprintf.
  apply (vsnprintf_ok m const buffer (Z.to_nat (size - 1)) HC); [intros a Ha; apply HM; lia|intros a Ha; apply HD; lia|done..|lia|lia|done|done].
Qed.

(** The text of [%d] is the number. *)
Lemma text_decimal v : is_s32 v -> exists ds, text_signed plain v = (if v <? 0 then [ch "-"] else []) ++ ds /\ ds <> [] /\ (length ds <= 10)%nat /\
  Forall (fun c => Qsort.isdigit c = true) ds /\ Qsort.digits_value 0 ds = Z.abs v.
Proof.
  intros Hv. unfold text_signed, field. cbn [o_minus o_zero plain fl o_flags o_width o_w o_prec o_p bool_decide decide_rel]. 
  set (ds := number_body _ _ _ base_d (Z.abs v)). exists ds. split.
  { change (fl plain Minus || false) with false. change (fl plain Zero && negb (o_minus plain) && bool_decide (o_p plain = None)) with false. cbn [Z.to_nat replicate app Nat.sub orb]. unfold sign_chars. by destruct (v <? 0). }
  assert (E : ds = if decide (v = 0) then [48] else numeral (Z.abs v)).
  { subst ds. unfold number_body. rewrite andb_false_l. cbn [default fl plain o_flags]. change (fl plain Group) with false. cbn iota.
    destruct (decide (v = 0)) as [->|Hn]; [done|]. unfold numeral. f_equal. destruct (numeral_head (Z.abs v)) as (c & l & E & _); [solve_int|].
    assert (0 < length (digit_chars base_d (Z.abs v)))%nat by (rewrite <- length_rev; fold (numeral (Z.abs v)); rewrite E; cbn; lia).
    change (Z.to_nat (1 `min` 63)) with 1%nat. replace (1 - length (digit_chars base_d (Z.abs v)))%nat with 0%nat by lia. by rewrite app_nil_r. }
  rewrite E. destruct (decide (v = 0)) as [->|Hn]; [repeat split; (done || (cbn; lia) || by repeat constructor)|].
  destruct (numeral_head (Z.abs v)) as (c & l & E' & _); [solve_int|]. split; [by rewrite E'|]. split; [|split; [apply numeral_isdigit|apply numeral_value; solve_int]].
  rewrite numeral_chars, length_fmap, length_rev. apply digits_of_length; [lia|]. solve_int.
Qed.

(** The text of a conversion like [%07o]: exactly so many digits. *)
Fixpoint fixed (k : nat) (b : integer_base) (v : Z) : list Z :=
  match k with O => [] | S k => fixed k b (v / base b) ++ [digit_char b (v mod base b)] end.

Lemma fixed_zero k b : std_base b -> fixed k b 0 = replicate k (ch "0").
Proof.
  intros HS. pose proof (std_base_range b HS). induction k as [|k IH]; [done|]. cbn [fixed]. rewrite Z.div_0_l, Z.mod_0_l, IH by lia.
  replace (digit_char b 0) with (ch "0") by (unfold digit_char; by rewrite (low_digit b 0 HS) by lia). by rewrite <- replicate_S_end.
Qed.

Lemma length_fixed k b : forall v, length (fixed k b v) = k.
Proof. induction k as [|k IH]; intros v; cbn [fixed]; [done|]. rewrite length_app, IH. cbn. lia. Qed.

Lemma fixed_digits b : std_base b -> forall k n v, (k <= n)%nat -> 0 <= v < base b ^ Z.of_nat k ->
  fixed k b v = replicate (k - length (digits_of n (base b) v)) (ch "0") ++ rev (digit_char b <$> digits_of n (base b) v).
Proof.
  intros HS. pose proof (std_base_range b HS). induction k as [|k IH]; intros n v Hk Hv.
  - change (base b ^ Z.of_nat 0) with 1 in Hv. by rewrite digits_of_zero by lia.
  - destruct (decide (v = 0)) as [->|Hn]; [by rewrite fixed_zero, digits_of_zero, app_nil_r by done|].
    destruct n as [|n]; [lia|]. cbn [fixed digits_of]. rewrite (proj2 (Z.ltb_lt 0 v)) by lia. cbn [length fmap list_fmap rev Nat.sub].
    rewrite (IH n), app_assoc; [done|lia|]. rewrite Nat2Z.inj_succ, Z.pow_succ_r in Hv by lia. split; [apply Z.div_pos; lia|apply Z.div_lt_upper_bound; lia].
Qed.

Lemma text_fixed b t (k : nat) v : std_base b -> (1 <= k <= 22)%nat -> 0 <= v < base b ^ Z.of_nat k ->
  text_unsigned (Options [Zero] (Some (Num (Z.of_nat k))) None t) b v = fixed k b v.
Proof.
  intros HS Hk Hv. unfold text_unsigned, field. set (o := Options _ _ _ _). change (o_minus o) with false. change (o_zero o) with true. change (o_w o) with (Z.of_nat k).
  change (fl o Pound) with false. change (fl o Group) with false. change (o_p o) with (@None Z). unfold base_chars. rewrite !andb_false_l. cbn [app length Nat.add]. rewrite Nat2Z.id.
  rewrite (fixed_digits b HS k 64) by lia. unfold number_body. rewrite !andb_false_l. change (Z.to_nat (default 1 None `min` 63)) with 1%nat.
  change (digit_chars b v) with (digit_char b <$> digits_of 64 (base b) v). rewrite length_rev, !length_app, length_replicate, length_fmap.
  destruct (digits_of 64 (base b) v) as [|d ds]; cbn [length fmap list_fmap Nat.sub replicate app rev]; [|by rewrite Nat.add_0_r, app_nil_r].
  by rewrite <- replicate_S_end, app_nil_r; f_equal; lia.
Qed.

(** C36: printing an int with [%d] into a buffer of at least 12 bytes and reading it back with atoi gives the int. *)
Theorem snprintf_atoi lit m const buffer size p v args : is_s32 v -> 12 <= size <= 2 ^ 31 -> 0 < buffer -> mapped m buffer size ->
  const ⊆ m -> (forall a, buffer <= a < buffer + size -> const !! a = None) ->
  literals lit engine_literals const -> cstr const p (str "%d") ->
  exists n m', snprintf lit buffer size p (u32 v :: args) m = Ok (n, m') /\ Qsort.atoi m' buffer = Ok v.
Proof.
  intros Hv Hs Hb HM HC HD HL HP. destruct (text_decimal v Hv) as (ds & ET & Hne & HLen & HDg & HV).
  assert (E1 : text (fun _ => []) [Conv plain Cd v] = text_signed plain v).
  { unfold text. cbn [mbind list_bind text_item]. rewrite app_nil_r. f_equal. change (bits (o_type plain)) with 32. unfold signed_value. apply s32_small in Hv. by rewrite <- Hv at 2. }
  assert (HSg : Z.of_nat (length (if v <? 0 then [ch "-"] else [])) <= 1) by (destruct (v <? 0); cbn; lia).
  pose proof (vsnprintf_ok m const buffer (Z.to_nat (size - 1)) HC ltac:(intros a Ha; apply HM; lia) ltac:(intros a Ha; apply HD; lia) lit (fun _ => []) [Conv plain Cd v] p args size HL) as H.
  rewrite E1, ET in H. eexists _, _. split.
  { unfold snprintf. apply H; [constructor; [split; [apply plain_options_ok|done]|constructor]|done|lia|lia|done|]. rewrite length_app. lia. }
  rewrite (proj2 (Z.ltb_lt 0 size)) by lia. rewrite take_ge by (rewrite length_app; lia).
  rewrite (Qsort.atoi_correct _ buffer [] (if v <? 0 then [ch "-"] else []) ds []); [|lia| |constructor| |done|done|done|].
  - rewrite HV. destruct (Z.ltb_spec v 0); [rewrite decide_True by done|rewrite decide_False by done]; f_equal; lia.
  - cbn [app]. rewrite app_nil_r. apply put_cstr. apply Forall_app. split; [destruct (v <? 0); repeat constructor|].
    eapply Forall_impl; [done|]. intros c Hc. apply Qsort.isdigit_range in Hc. unfold is_char. pow2_consts. lia.
  - destruct (v <? 0); auto.
  - rewrite HV. int_unfold. destruct (Z.ltb_spec v 0); [|left; lia]. destruct (decide (v = -2147483648)); [right; split; [done|lia]|left; lia].
Qed.

(** ** Examples *)

Fixpoint holds_bytes (m : mem) (p : Z) (l : list Z) : bool :=
  match l with [] => true | x :: l => match m !! p with Some y => (y =? x) && holds_bytes m (p + 1) l | None => false end end.
Definition holds_cstr (m : mem) (p : Z) (s : list Z) : bool := holds_bytes m p (s ++ [0]) && forallb (fun c => (0 <? c) && (c <? 256)) s.

Lemma holds_bytes_at m l : forall p, holds_bytes m p l = true -> bytes_at m p l.
Proof.
  induction l as [|x l IH]; intros p H; [apply bytes_at_nil|]. cbn in H. destruct (m !! p) as [y|] eqn:E; [|done].
  apply andb_true_iff in H as [H1%Z.eqb_eq H2]. subst y. apply bytes_at_cons. auto.
Qed.

Lemma holds_cstr_ok m p s : holds_cstr m p s = true -> cstr m p s.
Proof.
  intros [H1 H2]%andb_true_iff. split; [by apply holds_bytes_at|].
  apply Forall_forall. intros c Hc. rewrite forallb_forall in H2. specialize (H2 c). rewrite <- list_elem_of_In in H2. specialize (H2 Hc). unfold is_char. pow2_consts. lia.
Qed.

(** Writing where a memory has nothing. *)
Lemma put_fresh const p l : (forall a, p <= a < p + Z.of_nat (length l) -> const !! a = None) -> const ⊆ put p l const.
Proof.
  intros H. apply map_subseteq_spec. intros a x Ha. rewrite lookup_put. rewrite decide_False; [done|]. intros Hr. by rewrite H in Ha.
Qed.

Lemma put_area_mapped m p l : mapped (put p l m) p (Z.of_nat (length l)).
Proof. intros a Ha. rewrite lookup_put, decide_True by done. apply lookup_lt_is_Some_2. lia. Qed.

Definition demo_lit (s : string) : Z :=
  if String.eqb s "(null)" then 100 else if String.eqb s "<<no %%%c in kernel>>" then 200 else if String.eqb s "<<no %%%c conversion>>" then 300 else 0.
(** A string, a format that uses it, and "%d". *)
Definition demo_items : list item :=
  [Char 91; Conv (Options [Minus] (Some (Num 6)) None INT) Cs 500; Char 124; Conv (Options [Plus; Zero] (Some (Star 5)) None SHORT) Cd (-42);
   Percent; Conv (Options [Pound] None None LONGLONG) Cx (2 ^ 40 + 255); Conv plain (Other 102) 0].
Definition demo_const : mem :=
  put 100 (str "(null)" ++ [0]) (put 200 (str "<<no %%%c in kernel>>" ++ [0]) (put 300 (str "<<no %%%c conversion>>" ++ [0])
    (put 400 (str "[%-6s|%+0*hd%%%#llx%f" ++ [0]) (put 500 (str "pin" ++ [0]) (put 520 (str "%d" ++ [0]) ∅))))).
Definition demo_string_at (p : Z) : list Z := if p =? 500 then str "pin" else [].
Definition demo_buffer (n : nat) : mem := put 600 (replicate n 7) demo_const.

Lemma demo_literals : literals demo_lit engine_literals demo_const.
Proof. repeat constructor; try done; apply holds_cstr_ok; by_kernel. Qed.

Lemma demo_above a : 600 <= a -> demo_const !! a = None.
Proof.
  intros Ha. unfold demo_const. rewrite !lookup_put, !decide_False, lookup_empty; [done|..]; rewrite length_app; cbn [length str]; lia.
Qed.

Lemma vsnprintf_correct_witness :
  snprintf demo_lit 600 30 400 (words demo_items) (demo_buffer 40) = Ok (46, put 600 (str "[pin   |-0042%0x100000000ff<<" ++ [0]) (demo_buffer 40)).
Proof.
  rewrite <- (app_nil_r (words demo_items)).
  refine (vsnprintf_correct demo_lit (demo_buffer 40) demo_const 600 30 demo_string_at demo_items 400 [] _ _ _ _ demo_literals _ _ _).
  - lia.
  - eapply mapped_mono; [done|..|apply put_area_mapped]; [lia|]. rewrite length_replicate. lia.
  - apply put_fresh. intros a Ha. apply demo_above. lia.
  - intros a Ha. apply demo_above. lia.
  - unfold demo_items. rewrite !Forall_cons. split; [done|]. split; [|repeat split; try done].
    split; [repeat split; try done|]. right. split; [done|]. split; [done|]. split; [apply holds_cstr_ok; by_kernel|done].
  - apply holds_cstr_ok. by_kernel.
  - apply Z.ltb_lt. by_kernel.
Defined.

Lemma snprintf_atoi_witness : exists n m', snprintf demo_lit 600 12 520 [u32 (- 2 ^ 31)] (demo_buffer 12) = Ok (n, m') /\ Qsort.atoi m' 600 = Ok (- 2 ^ 31).
Proof.
  apply (snprintf_atoi demo_lit (demo_buffer 12) demo_const 600 12 520 (- 2 ^ 31) []).
  - solve_int.
  - lia.
  - lia.
  - apply (put_area_mapped demo_const 600 (replicate 12 7)).
  - apply put_fresh. intros a Ha. apply demo_above. lia.
  - intros a Ha. apply demo_above. lia.
  - exact demo_literals.
  - apply holds_cstr_ok. by_kernel.
Defined.

End Printf.
