(* ===== verification/Console.v ===== *)
(** * Consoles (src/lib/kernel/console.c, src/lib/user/console.c, and what src/lib/stdio.c prints)

    The console of the kernel writes every character to the serial port and to the display, and keeps the output of
    threads apart with a lock that can be taken more than once; the state is seen from the running thread, which has
    the lock or not.  The console of user programs collects characters in a buffer of 64 bytes and writes it with the
    write system call, which is a log here.  Both are output functions of the engine of Printf. *)

From Stdlib Require Import Ascii String.
From S2P Require Import Prelude Mem Strings Qsort Printf.
Import Mem Strings Printf.

Module Console.

(** ** The console of the kernel *)

Record console := Con {
  use_console_lock : bool;
  lock_held : bool;              (* the running thread holds console_lock *)
  console_lock_depth : Z;
  write_cnt : Z;
  serial : list Z;               (* bytes given to serial_putc *)
  vga : list Z;                  (* bytes given to vga_putc *)
  in_intr : bool;                (* intr_context () *)
}.

Definition set_lock (held : bool) (depth : Z) (c : console) : console :=
  Con (use_console_lock c) held depth (write_cnt c) (serial c) (vga c) (in_intr c).
Definition set_use (b : bool) (c : console) : console :=
  Con b (lock_held c) (console_lock_depth c) (write_cnt c) (serial c) (vga c) (in_intr c).

Definition console_init : M console unit := modify (fun c => set_use true (set_lock false (console_lock_depth c) c)).
Definition console_panic : M console unit := modify (set_use false).

Definition acquire_console : M console unit := fun c =>
  if negb (in_intr c) && use_console_lock c then
    if lock_held c then Ok (tt, set_lock (lock_held c) (s32 (console_lock_depth c + 1)) c)
    else Ok (tt, set_lock true (console_lock_depth c) c)
  else Ok (tt, c).

(** lock_release asserts that the lock is held. *)
Definition release_console : M console unit := fun c =>
  if negb (in_intr c) && use_console_lock c then
    if 0 <? console_lock_depth c then Ok (tt, set_lock (lock_held c) (console_lock_depth c - 1) c)
    else if lock_held c then Ok (tt, set_lock false (console_lock_depth c) c) else Fail FAssert
  else Ok (tt, c).

Definition console_locked_by_current_thread (c : console) : bool := in_intr c || negb (use_console_lock c) || lock_held c.

Definition putchar_have_lock (ch : Z) : M console unit :=
  let* locked := gets console_locked_by_current_thread in
  do* ASSERT locked ;
  modify (fun c => Con (use_console_lock c) (lock_held c) (console_lock_depth c) (s64 (write_cnt c + 1)) (serial c ++ [ch]) (vga c ++ [ch]) (in_intr c)).

(** The world of kernel code that prints: memory and the console. *)
Notation world := (mem * console)%type.
Definition on_console {A} (f : M console A) : M world A := fun w =>
  match f w.2 with Ok (a, c) => Ok (a, (w.1, c)) | Fail e => Fail e end.

(** [char_cnt] is a variable of [vprintf]. *)
Definition vprintf_helper (c : Z) : M (mem * (console * Z)) unit := fun w =>
  match putchar_have_lock c w.2.1 with Ok (_, con) => Ok (tt, (w.1, (con, s32 (w.2.2 + 1)))) | Fail e => Fail e end.

Section Kernel.
Context (lit : string -> Z).

Definition vprintf (format : Z) (args : list Z) : M world Z :=
  do* on_console acquire_console ;
  let* char_cnt := fun w : world =>
    match __vprintf vprintf_helper lit format args (w.1, (w.2, 0)) with
    | Ok (_, (m, (con, n))) => Ok (n, (m, con))
    | Fail e => Fail e
    end in
  do* on_console release_console ;
  mret char_cnt.
Definition printf (format : string) (args : list Z) : M world Z := vprintf (lit format) args.

Definition console_print_stats : M world unit :=
  let* n := on_console (gets write_cnt) in
  let* _ : Z := printf "Console: %lld characters output
" [u32 n; u32 (n / 2 ^ 32)] in
  mret tt.

Fixpoint puts_loop (n : nat) (s : Z) : M world unit :=
  match n with
  | O => fail FFuel
  | S n => let* c := rd s in if c =? 0 then mret tt else do* on_console (putchar_have_lock c) ; puts_loop n (s + 1)
  end.
Definition puts (s : Z) : M world Z :=
  do* on_console acquire_console ;
  let* n := loop_fuel in
  do* puts_loop n s ;
  do* on_console (putchar_have_lock 10) ;
  do* on_console release_console ;
  mret 0.

Fixpoint putbuf_loop (n : nat) (buffer : Z) : M world unit :=
  match n with O => mret tt | S n => let* c := rd buffer in do* on_console (putchar_have_lock c) ; putbuf_loop n (buffer + 1) end.
Definition putbuf (buffer n : Z) : M world unit :=
  do* on_console acquire_console ;
  do* putbuf_loop (Z.to_nat n) buffer ;
  on_console release_console.

Definition putchar (c : Z) : M world Z :=
  do* on_console acquire_console ;
  do* on_console (putchar_have_lock (u8 c)) ;
  do* on_console release_console ;
  mret c.

(** ** Dumps and sizes (lib/stdio.c) *)

Definition print (format : string) (args : list Z) : M world unit := let* _ : Z := printf format args in mret tt.

(** [for (...) printf (s)], [n] times. *)
Fixpoint print_times (n : nat) (s : string) : M world unit :=
  match n with O => mret tt | S n => do* print s [] ; print_times n s end.

Definition ROUND_DOWN (x step : Z) : Z := x / step * step.
Definition per_line : Z := 16.

(** The bytes [buf[i - start]] for [n] values of [i]. *)
Fixpoint print_hex (n : nat) (buf i start : Z) : M world unit :=
  match n with
  | O => mret tt
  | S n =>
    let* b := rd (buf + (i - start)) in
    do* print "%02hhx%c" [b; if i =? per_line / 2 - 1 then ch "-" else ch " "] ;
    print_hex n buf (i + 1) start
  end.
Definition isprint (c : Z) : bool := (32 <=? c) && (c <? 127).
Fixpoint print_ascii (n : nat) (buf i start : Z) : M world unit :=
  match n with
  | O => mret tt
  | S n =>
    let* b := rd (buf + (i - start)) in
    do* print "%c" [if isprint b then b else ch "."] ;
    print_ascii n buf (i + 1) start
  end.

Definition hex_line (ofs buf start end_ : Z) (ascii : bool) : M world unit :=
  do* print "%08jx  " [ROUND_DOWN ofs per_line; 0] ;
  do* print_times (Z.to_nat start) "   " ;
  do* print_hex (Z.to_nat (end_ - start)) buf start start ;
  do* (if ascii then
         do* print_times (Z.to_nat (per_line - end_)) "   " ;
         do* print "|" [] ;
         do* print_times (Z.to_nat start) " " ;
         do* print_ascii (Z.to_nat (end_ - start)) buf start start ;
         do* print_times (Z.to_nat (per_line - end_)) " " ;
         print "|" []
       else mret tt) ;
  print "
" [].

(** Every line takes at least one byte. *)
Fixpoint hex_loop (n : nat) (ofs buf size : Z) (ascii : bool) : M world unit :=
  if 0 <? size then
    match n with
    | O => fail FFuel
    | S n =>
      let start := ofs mod per_line in
      let end_ := if size <? per_line - start then start + size else per_line in
      do* hex_line ofs buf start end_ ascii ;
      hex_loop n (u32 (ofs + (end_ - start))) (buf + (end_ - start)) (size - (end_ - start)) ascii
    end
  else mret tt.
Definition hex_dump (ofs buf size : Z) (ascii : bool) : M world unit := hex_loop (Z.to_nat size) ofs buf size ascii.

(** [f] is [*fp], [rest] what follows it up to the null pointer. *)
Fixpoint human_loop (f : string) (rest : list string) (size : Z) : Z * string :=
  match rest with
  | g :: rest => if 1024 <=? size then human_loop g rest (size / 1024) else (size, f)
  | [] => (size, f)
  end.
Definition print_human_readable_size (size : Z) : M world unit :=
  if size =? 1 then print "1 byte" []
  else
    let '(size, f) := human_loop "bytes" ["kB"; "MB"; "GB"; "TB"]%string size in
    print "%llu %s" [u32 size; u32 (size / 2 ^ 32); lit f].
End Kernel.

(** ** The console of user programs *)

(** [buf] are the characters before [p]; [writes] are the calls of write so far: the handle and the bytes. *)
Record vhprintf_aux := VAux { buf : list Z; char_cnt : Z; handle : Z; writes : list (Z * list Z) }.

Definition flush (a : vhprintf_aux) : vhprintf_aux :=
  VAux [] (char_cnt a) (handle a) (match buf a with [] => writes a | _ => writes a ++ [(handle a, buf a)] end).

Definition add_char (c : Z) : M (mem * vhprintf_aux) unit := fun w =>
  let a := w.2 in
  if (length (buf a) <? 64)%nat then
    let a := VAux (buf a ++ [c]) (char_cnt a) (handle a) (writes a) in
    let a := if (64 <=? length (buf a))%nat then flush a else a in
    Ok (tt, (w.1, VAux (buf a) (s32 (char_cnt a + 1)) (handle a) (writes a)))
  else Fail FMemory.

(** The state of a program: its memory and the calls of write it has made. *)
Section User.
Context (lit : string -> Z).

Definition vhprintf (handle format : Z) (args : list Z) : M (mem * list (Z * list Z)) Z := fun w =>
  match __vprintf add_char lit format args (w.1, VAux [] 0 handle w.2) with
  | Ok (_, (m, a)) => let a := flush a in Ok (char_cnt a, (m, writes a))
  | Fail e => Fail e
  end.
Definition hprintf (handle format : Z) (args : list Z) : M (mem * list (Z * list Z)) Z := vhprintf handle format args.
Definition STDOUT_FILENO : Z := 1.
Definition user_putchar (c : Z) : M (mem * list (Z * list Z)) Z := fun w => Ok (c, (w.1, w.2 ++ [(STDOUT_FILENO, [u8 c])])).
(** The bytes that write is given, read from memory. *)
Fixpoint bytes_of (n : nat) (p : Z) (m : mem) : outcome (list Z) :=
  match n with O => mret [] | S n => let* b := load m p in let* l := bytes_of n (p + 1) m in mret (b :: l) end.
Definition user_puts (s : Z) : M (mem * list (Z * list Z)) Z :=
  let* n := on_mem (reading (fun m => strlen m s)) in
  let* l := on_mem (reading (bytes_of (Z.to_nat n) s)) in
  do* modify (fun w => (w.1, w.2 ++ [(STDOUT_FILENO, l)])) ;
  let* _ : Z := user_putchar 10 in
  mret 0.
Definition user_vprintf (format : Z) (args : list Z) : M (mem * list (Z * list Z)) Z := vhprintf STDOUT_FILENO format args.
End User.

(** ** What is shown *)

(** The console after the text [t]. *)
Definition typed (t : list Z) (c : console) : console :=
  Con (use_console_lock c) (lock_held c) (console_lock_depth c) (s64 (write_cnt c + Z.of_nat (length t))) (serial c ++ t) (vga c ++ t) (in_intr c).

(** The variables of the lock agree with each other, and the depth can be raised. *)
Definition usable (c : console) : Prop :=
  is_s64 (write_cnt c) /\ 0 <= console_lock_depth c < 2 ^ 31 - 1 /\ (0 < console_lock_depth c -> lock_held c = true).

Lemma s64_s64 a b : s64 (s64 a + b) = s64 (a + b).
Proof. unfold s64. int_unfold. Z.div_mod_to_equations. lia. Qed.

Lemma typed_typed t u c : typed u (typed t c) = typed (t ++ u) c.
Proof. unfold typed. cbn. rewrite s64_s64, <- !app_assoc, length_app. do 2 f_equal. lia. Qed.

Lemma typed_nil c : is_s64 (write_cnt c) -> typed [] c = c.
Proof. intros H. destruct c. unfold typed. cbn in *. by rewrite Z.add_0_r, s64_small, !app_nil_r. Qed.

Lemma usable_typed t c : usable c -> usable (typed t c).
Proof. intros (H1 & H2 & H3). split; [apply s64_range|done]. Qed.

Lemma putchar_ok c con : console_locked_by_current_thread con = true -> putchar_have_lock c con = Ok (tt, typed [c] con).
Proof. intros H. unfold putchar_have_lock. rewrite (M_bind_Ok _ _ con true con) by (unfold gets; by rewrite H). done. Qed.

(** Between taking the console and giving it back. *)
Definition acquired (c : console) : console :=
  if negb (in_intr c) && use_console_lock c then if lock_held c then set_lock true (console_lock_depth c + 1) c else set_lock true (console_lock_depth c) c else c.

Lemma acquire_console_ok c : usable c -> acquire_console c = Ok (tt, acquired c) /\ console_locked_by_current_thread (acquired c) = true /\ is_s64 (write_cnt (acquired c)).
Proof.
  intros (HW & HD & _). unfold acquire_console, acquired, console_locked_by_current_thread. destruct c as [[] [] d n s v []]; cbn in *; repeat split; try done; try (by int_unfold; lia).
  by rewrite s32_small by solve_int.
Qed.

Lemma release_console_ok t c : usable c -> release_console (typed t (acquired c)) = Ok (tt, typed t c).
Proof.
  intros (HW & HD & HH). unfold release_console, acquired. destruct c as [[] [] d n s v []]; cbn in *; try done.
  - rewrite (proj2 (Z.ltb_lt 0 (d + 1))) by lia. unfold typed, set_lock. cbn. do 3 f_equal. lia.
  - assert (d = 0) as -> by (destruct (decide (0 < d)) as [H|]; [by specialize (HH H)|lia]). done.
Qed.

Section Shown.
Context (lit : string -> Z) (m : mem) (string_at : Z -> list Z).
Context (HLit : literals lit engine_literals m).

(** The program [p] shows [t] and returns [a]. *)
Definition shows {A} (p : M world A) (t : list Z) (a : A) : Prop := forall c, usable c -> p (m, c) = Ok (a, (m, typed t c)).

Lemma shows_ret {A} (a : A) : shows (mret a) [] a.
Proof. intros c (H & _). by rewrite typed_nil. Qed.

Lemma shows_bind {A B} (p : M world A) (k : A -> M world B) t u a b : shows p t a -> shows (k a) u b -> shows (mbind k p) (t ++ u) b.
Proof. intros Hp Hk c Hc. rewrite (M_bind_Ok _ _ _ _ _ (Hp c Hc)), (Hk _ (usable_typed t c Hc)). by rewrite typed_typed. Qed.

Lemma shows_reads {A B} (p : M world A) (k : A -> M world B) u a b : (forall c, p (m, c) = Ok (a, (m, c))) -> shows (k a) u b -> shows (mbind k p) u b.
Proof. intros Hp Hk c Hc. rewrite (M_bind_Ok _ _ _ _ _ (Hp c)). by apply Hk. Qed.

(** *** vprintf *)

Section Told.
Context (con : console) (HL : console_locked_by_current_thread con = true) (HW : is_s64 (write_cnt con)).

Definition console_told (out : list Z) (w : mem * (console * Z)) : Prop := w = (m, (typed out con, Z.of_nat (length out))).

Lemma console_told_const out w : console_told out w -> m ⊆ w.1.
Proof. by intros ->. Qed.

Lemma console_told_output out w c : console_told out w -> (length out < Z.to_nat (2 ^ 31 - 1))%nat -> is_u8 c ->
  exists w', vprintf_helper c w = Ok (tt, w') /\ console_told (out ++ [c]) w'.
Proof.
  intros -> HC _. eexists. unfold vprintf_helper. cbn [fst snd]. rewrite putchar_ok by done. split; [reflexivity|].
  unfold console_told. rewrite typed_typed, length_app, s32_small by solve_int. cbn [length]. do 2 f_equal. lia.
Qed.

#[local] Instance console_Sink : Sink vprintf_helper m (Z.to_nat (2 ^ 31 - 1)) := {|
  told := console_told; told_const := console_told_const; told_output := console_told_output |}.

Lemma vprintf_body l p args : Forall (item_ok m string_at) l -> cstr m p (render l) -> Z.of_nat (length (text string_at l)) < 2 ^ 31 ->
  __vprintf vprintf_helper lit p (words l ++ args) (m, (con, 0)) = Ok (tt, (m, (typed (text string_at l) con, Z.of_nat (length (text string_at l))))).
Proof.
  intros HF HC HT. destruct (__vprintf_ok lit string_at HLit l p args HF HC [] (m, (con, 0))) as (w' & E & H).
  { unfold told, console_Sink, console_told. cbn. by rewrite typed_nil. }
  { cbn [length]. lia. }
  rewrite E. cbn in H. by rewrite H.
Qed.
End Told.

Lemma vprintf_ok l p args : Forall (item_ok m string_at) l -> cstr m p (render l) -> Z.of_nat (length (text string_at l)) < 2 ^ 31 ->
  shows (vprintf lit p (words l ++ args)) (text string_at l) (Z.of_nat (length (text string_at l))).
Proof.
  intros HF HC HT c Hc. destruct (acquire_console_ok c Hc) as (E1 & E2 & E3). unfold vprintf.
  rewrite (M_bind_Ok _ _ _ tt (m, acquired c)) by (unfold on_console; cbn [snd fst]; by rewrite E1). cbn [fst snd].
  erewrite M_bind_Ok by (cbn [fst snd]; by rewrite (vprintf_body (acquired c) E2 E3 l p args HF HC HT)).
  rewrite (M_bind_Ok _ _ _ tt (m, typed (text string_at l) c)); [done|]. unfold on_console. cbn [fst snd]. by rewrite release_console_ok.
Qed.

Lemma shows_putchar c con : console_locked_by_current_thread con = true -> on_console (putchar_have_lock c) (m, con) = Ok (tt, (m, typed [c] con)).
Proof. intros H. unfold on_console. cbn [fst snd]. by rewrite putchar_ok. Qed.

(** A body that shows [t] while the console is locked, between taking and giving back the console. *)
Lemma shows_locked (body : M world unit) t : (forall c, console_locked_by_current_thread c = true -> is_s64 (write_cnt c) -> body (m, c) = Ok (tt, (m, typed t c))) ->
  shows (do* on_console acquire_console ; do* body ; on_console release_console) t tt.
Proof.
  intros HB c Hc. destruct (acquire_console_ok c Hc) as (E1 & E2 & E3).
  rewrite (M_bind_Ok _ _ _ tt (m, acquired c)) by (unfold on_console; cbn [snd fst]; by rewrite E1).
  rewrite (M_bind_Ok _ _ _ _ _ (HB _ E2 E3)). unfold on_console. cbn [fst snd]. by rewrite release_console_ok.
Qed.

(** *** puts, putbuf and putchar *)

Lemma puts_loop_ok s : forall n p c, cstr m p s -> (length s < n)%nat -> console_locked_by_current_thread c = true -> is_s64 (write_cnt c) ->
  puts_loop n p (m, c) = Ok (tt, (m, typed s c)).
Proof.
  induction s as [|x s IH]; intros [|n] p c HC Hn HL HW; cbn [length] in Hn; try lia; cbn [puts_loop]; rewrite (M_bind_Ok _ _ _ _ _ (reads_cstr p _ HC (m, c) (reflexivity m))).
  - cbn. by rewrite typed_nil.
  - cbn [head default from_option id]. apply cstr_cons in HC as (_ & Hx & HC). unfold is_char in Hx. rewrite (proj2 (Z.eqb_neq x 0)) by lia.
    rewrite (M_bind_Ok _ _ _ _ _ (shows_putchar x c HL)). rewrite IH; [by rewrite typed_typed|done|lia|done|apply s64_range].
Qed.

Lemma putbuf_loop_ok l : forall p c, bytes_at m p l -> console_locked_by_current_thread c = true -> is_s64 (write_cnt c) ->
  putbuf_loop (length l) p (m, c) = Ok (tt, (m, typed l c)).
Proof.
  induction l as [|x l IH]; intros p c HB HL HW; cbn [length putbuf_loop]; [by rewrite typed_nil|]. apply bytes_at_cons in HB as [Hx HB].
  rewrite (M_bind_Ok _ _ _ _ _ (reads_byte p x Hx (m, c) (reflexivity m))), (M_bind_Ok _ _ _ _ _ (shows_putchar x c HL)).
  rewrite IH; [by rewrite typed_typed|done|done|apply s64_range].
Qed.

Lemma puts_ok p s : cstr m p s -> shows (puts p) (s ++ [10]) 0.
Proof.
  intros HC c Hc.
  pose proof (shows_locked (let* n := loop_fuel in do* puts_loop n p ; on_console (putchar_have_lock 10)) (s ++ [10])) as H.
  specialize (H ltac:(intros con HL HW; unfold loop_fuel; rewrite (M_bind_Ok _ _ _ (fuel m) (m, con)) by done;
    rewrite (M_bind_Ok _ _ _ _ _ (puts_loop_ok s (fuel m) p con HC ltac:(pose proof (cstr_size _ _ _ HC); unfold fuel; lia) HL HW));
    rewrite shows_putchar by done; by rewrite typed_typed) c Hc).
  apply M_bind_inv in H as ([] & w1 & H1 & H). apply M_bind_inv in H as ([] & w2 & H2 & H3). apply M_bind_inv in H2 as (n & w4 & H4 & H2). apply M_bind_inv in H2 as ([] & w5 & H5 & H2).
  unfold puts. by rewrite (M_bind_Ok _ _ _ _ _ H1), (M_bind_Ok _ _ _ _ _ H4), (M_bind_Ok _ _ _ _ _ H5), (M_bind_Ok _ _ _ _ _ H2), (M_bind_Ok _ _ _ _ _ H3).
Qed.

Lemma putbuf_ok p l : bytes_at m p l -> shows (putbuf p (Z.of_nat (length l))) l tt.
Proof. intros HB. unfold putbuf. rewrite Nat2Z.id. apply shows_locked. intros c HL HW. by apply putbuf_loop_ok. Qed.

Lemma console_putchar_ok c : shows (putchar c) [u8 c] c.
Proof.
  intros con Hc. pose proof (shows_locked (on_console (putchar_have_lock (u8 c))) [u8 c] ltac:(intros; by apply shows_putchar) con Hc) as H.
  apply M_bind_inv in H as ([] & w1 & H1 & H). apply M_bind_inv in H as ([] & w2 & H2 & H3).
  unfold putchar. by rewrite (M_bind_Ok _ _ _ _ _ H1), (M_bind_Ok _ _ _ _ _ H2), (M_bind_Ok _ _ _ _ _ H3).
Qed.

(** Calls on the console, and what they show. *)
Inductive call := CPrintf (p : Z) (l : list item) | CPuts (p : Z) (s : list Z) | CPutbuf (p : Z) (l : list Z) | CPutchar (c : Z).
Definition call_ok (k : call) : Prop :=
  match k with
  | CPrintf p l => Forall (item_ok m string_at) l /\ cstr m p (render l) /\ Z.of_nat (length (text string_at l)) < 2 ^ 31
  | CPuts p s => cstr m p s
  | CPutbuf p l => bytes_at m p l
  | CPutchar _ => True
  end.
Definition run_call (k : call) : M world unit :=
  match k with
  | CPrintf p l => let* _ : Z := vprintf lit p (words l) in mret tt
  | CPuts p _ => let* _ : Z := puts p in mret tt
  | CPutbuf p l => putbuf p (Z.of_nat (length l))
  | CPutchar c => let* _ : Z := putchar c in mret tt
  end.
Definition call_text (k : call) : list Z :=
  match k with CPrintf _ l => text string_at l | CPuts _ s => s ++ [10] | CPutbuf _ l => l | CPutchar c => [u8 c] end.
Fixpoint run_calls (ks : list call) : M world unit := match ks with [] => mret tt | k :: ks => do* run_call k ; run_calls ks end.

Lemma run_call_ok k : call_ok k -> shows (run_call k) (call_text k) tt.
Proof.
  destruct k as [p l|p s|p l|c]; cbn [call_ok run_call call_text]; intros H; [| |by apply putbuf_ok|].
  - destruct H as (H1 & H2 & H3). rewrite <- (app_nil_r (text _ _)), <- (app_nil_r (words l)). eapply shows_bind; [by apply vprintf_ok|apply shows_ret].
  - rewrite <- (app_nil_r (s ++ [10])). eapply shows_bind; [by apply puts_ok|apply shows_ret].
  - rewrite <- (app_nil_r [u8 c]). eapply shows_bind; [by apply console_putchar_ok|apply shows_ret].
Qed.

Lemma run_calls_ok ks : Forall call_ok ks -> shows (run_calls ks) (ks ≫= call_text) tt.
Proof.
  intros H. induction H as [|k ks Hk Hks IH]; cbn [run_calls mbind list_bind]; [apply shows_ret|]. eapply shows_bind; [by apply run_call_ok|done].
Qed.
End Shown.

(** ** What a dump looks like *)

(** One line: the offset of the line, the bytes in hexadecimal with a dash in the middle, and the characters. *)
Definition hex_chars (start : Z) (bytes : list Z) : list Z :=
  concat (imap (fun i b => fixed 2 base_x b ++ [if start + Z.of_nat i =? 7 then ch "-" else ch " "]) bytes).
Definition ascii_chars (bytes : list Z) : list Z := (fun b => if isprint b then b else ch ".") <$> bytes.
Definition line_text (ofs : Z) (bytes : list Z) (ascii : bool) : list Z :=
  let start := Z.to_nat (ofs mod 16) in
  let after := (16 - start - length bytes)%nat in
  fixed 8 base_x (ofs - ofs mod 16) ++ str "  " ++ replicate (3 * start) (ch " ") ++ hex_chars (ofs mod 16) bytes ++
  (if ascii then replicate (3 * after) (ch " ") ++ str "|" ++ replicate start (ch " ") ++ ascii_chars bytes ++ replicate after (ch " ") ++ str "|" else []) ++ [10].

(** Lines end at multiples of 16. *)
Fixpoint dump_text (n : nat) (ofs : Z) (bytes : list Z) (ascii : bool) : list Z :=
  match n, bytes with
  | S n, _ :: _ =>
    let k := Z.to_nat (16 - ofs mod 16) in
    line_text ofs (take k bytes) ascii ++ dump_text n (ofs + Z.of_nat k) (drop k bytes) ascii
  | _, _ => []
  end.

Definition hex_literals : list string := ["%08jx  "; "   "; "%02hhx%c"; "|"; " "; "%c"; "
"]%string.

Section Dump.
Context (lit : string -> Z) (m : mem).
Context (HLit : literals lit engine_literals m) (HHex : literals lit hex_literals m).
Notation shows := (shows m).

Lemma print_ok s l t : cstr m (lit s) (str s) -> render l = str s -> Forall (item_ok m (fun _ => [])) l -> text (fun _ => []) l = t -> Z.of_nat (length t) < 2 ^ 31 ->
  shows (print lit s (words l)) t tt.
Proof.
  intros HC HR HF <- HT. unfold print, printf. rewrite <- (app_nil_r (text _ _)), <- (app_nil_r (words l)).
  eapply shows_bind; [apply (vprintf_ok lit m _ HLit); [done|by rewrite HR|done]|apply shows_ret].
Qed.

Lemma hex_literal s : s ∈ hex_literals -> cstr m (lit s) (str s).
Proof. intros H. unfold literals in HHex. rewrite Forall_forall in HHex. by apply HHex. Qed.

(** Texts without conversions. *)
Lemma print_blank : shows (print lit " " []) [ch " "] tt.
Proof. apply (print_ok " " [Char 32]); [apply hex_literal; set_solver|done|by repeat constructor|done|done]. Qed.
Lemma print_blanks : shows (print lit "   " []) (replicate 3 (ch " ")) tt.
Proof. apply (print_ok "   " [Char 32; Char 32; Char 32]); [apply hex_literal; set_solver|done|by repeat constructor|done|done]. Qed.
Lemma print_bar : shows (print lit "|" []) (str "|") tt.
Proof. apply (print_ok "|" [Char 124]); [apply hex_literal; set_solver|done|by repeat constructor|done|done]. Qed.
Lemma print_newline : shows (print lit "
" []) [10] tt.
Proof. apply (print_ok "
" [Char 10]); [apply hex_literal; set_solver|done|by repeat constructor|done|done]. Qed.

Lemma print_times_ok n s k : shows (print lit s []) (replicate k (ch " ")) tt -> shows (print_times lit n s) (replicate (k * n) (ch " ")) tt.
Proof.
  intros HP. induction n as [|n IH]; cbn [print_times]; [rewrite Nat.mul_0_r; apply shows_ret|].
  rewrite Nat.mul_succ_r, Nat.add_comm, replicate_add. by eapply shows_bind.
Qed.

Lemma print_offset ofs : is_u32 ofs -> shows (print lit "%08jx  " [ROUND_DOWN ofs per_line; 0]) (fixed 8 base_x (ofs - ofs mod 16) ++ str "  ") tt.
Proof.
  intros Ho. assert (E : ROUND_DOWN ofs per_line = ofs - ofs mod 16) by (unfold ROUND_DOWN, per_line; pose proof (Z.div_mod ofs 16); lia).
  assert (Hr : is_u32 (ofs - ofs mod 16)) by (pose proof (Z.mod_pos_bound ofs 16); pose proof (Z.mod_le ofs 16); solve_int).
  set (o := Options [Zero] (Some (Num 8)) None INTMAX). pose proof (print_ok "%08jx  " [Conv o Cx (ofs - ofs mod 16); Char 32; Char 32]) as H.
  assert (EW : words [Conv o Cx (ofs - ofs mod 16); Char 32; Char 32] = [ROUND_DOWN ofs per_line; 0]).
  { cbn [words mbind list_bind words_item value_words number_words o_width o_prec o bits o_type app Z.eqb Pos.eqb]. rewrite E, u32_small, Z.div_small by (done || solve_int). done. }
  rewrite EW in H. apply H; [apply hex_literal; set_solver|done|by repeat constructor| |].
  - change (text (fun _ => []) [Conv o Cx (ofs - ofs mod 16); Char 32; Char 32]) with (text_unsigned o base_x ((ofs - ofs mod 16) mod 2 ^ 64) ++ str "  ").
    rewrite Z.mod_small by solve_int. f_equal. apply (text_fixed base_x INTMAX 8); [right; right; by left|lia|]. change (base base_x ^ Z.of_nat 8) with (2 ^ 32). solve_int.
  - by rewrite length_app, length_fixed.
Qed.

Lemma print_byte b sep : is_u8 b -> is_char sep -> shows (print lit "%02hhx%c" [b; sep]) (fixed 2 base_x b ++ [sep]) tt.
Proof.
  intros Hb Hs. set (o := Options [Zero] (Some (Num 2)) None CHAR). pose proof (print_ok "%02hhx%c" [Conv o Cx b; Conv plain Cc sep]) as H.
  assert (EW : words [Conv o Cx b; Conv plain Cc sep] = [b; sep]).
  { unfold is_char in Hs. cbn [words mbind list_bind words_item value_words number_words o_width o_prec o plain bits o_type app Z.eqb Pos.eqb]. by rewrite !u32_small by solve_int. }
  rewrite EW in H. apply H; [apply hex_literal; set_solver|done|by repeat constructor| |by rewrite length_app, length_fixed].
  change (text (fun _ => []) [Conv o Cx b; Conv plain Cc sep]) with (text_unsigned o base_x (b mod 2 ^ 8) ++ [u8 sep]).
  unfold is_char in Hs. rewrite Z.mod_small, (u8_small sep) by solve_int. f_equal. apply (text_fixed base_x CHAR 2); [right; right; by left|lia|]. change (base base_x ^ Z.of_nat 2) with (2 ^ 8). solve_int.
Qed.

Lemma print_char c : is_char c -> shows (print lit "%c" [c]) [c] tt.
Proof.
  intros Hc. pose proof (print_ok "%c" [Conv plain Cc c]) as H. unfold is_char in Hc. replace (words [Conv plain Cc c]) with [c] in H by (cbn; by rewrite u32_small by solve_int).
  apply H; [apply hex_literal; set_solver|done|by repeat constructor| |done]. cbn. by rewrite u8_small by solve_int.
Qed.

Lemma print_hex_ok l : forall buf i start, bytes_at m (buf + (i - start)) l -> Forall is_u8 l ->
  shows (print_hex lit (length l) buf i start) (hex_chars i l) tt.
Proof.
  induction l as [|b l IH]; intros buf i start HB HU; cbn [length print_hex]; [apply shows_ret|]. apply bytes_at_cons in HB as [Hb HB]. apply Forall_cons in HU as [Hu HU].
  eapply shows_reads; [intros c; by apply (reads_byte _ b Hb (m, c))|].
  assert (E : hex_chars i (b :: l) = (fixed 2 base_x b ++ [if i =? per_line / 2 - 1 then ch "-" else ch " "]) ++ hex_chars (i + 1) l).
  { unfold hex_chars. rewrite imap_cons. cbn [concat]. rewrite Z.add_0_r. f_equal. f_equal. apply imap_ext. intros k c _. cbn [compose]. by replace (i + Z.of_nat (S k)) with (i + 1 + Z.of_nat k) by lia. }
  rewrite E. eapply shows_bind; [apply print_byte; [done|by destruct (_ =? _)]|]. apply IH; [|done]. by replace (buf + (i + 1 - start)) with (buf + (i - start) + 1) by lia.
Qed.

Lemma print_ascii_ok l : forall buf i start, bytes_at m (buf + (i - start)) l -> shows (print_ascii lit (length l) buf i start) (ascii_chars l) tt.
Proof.
  induction l as [|b l IH]; intros buf i start HB; cbn [length print_ascii ascii_chars fmap list_fmap]; [apply shows_ret|]. apply bytes_at_cons in HB as [Hb HB].
  eapply shows_reads; [intros c; by apply (reads_byte _ b Hb (m, c))|]. eapply (shows_bind _ _ _ [_]).
  - apply print_char. destruct (isprint b) eqn:E; [|done]. unfold isprint in E. unfold is_char. pow2_consts. lia.
  - apply IH. by replace (buf + (i + 1 - start)) with (buf + (i - start) + 1) by lia.
Qed.

Lemma hex_line_ok ofs buf l ascii : is_u32 ofs -> bytes_at m buf l -> Forall is_u8 l -> ofs mod 16 + Z.of_nat (length l) <= 16 ->
  shows (hex_line lit ofs buf (ofs mod 16) (ofs mod 16 + Z.of_nat (length l)) ascii) (line_text ofs l ascii) tt.
Proof.
  intros Ho HB HU HL. pose proof (Z.mod_pos_bound ofs 16 ltac:(lia)). unfold hex_line, line_text. set (start := ofs mod 16) in *.
  replace (Z.to_nat (start + Z.of_nat (length l) - start)) with (length l) by lia.
  replace (Z.to_nat (per_line - (start + Z.of_nat (length l)))) with (16 - Z.to_nat start - length l)%nat by (unfold per_line; lia).
  assert (HB' : bytes_at m (buf + (start - start)) l) by (by rewrite Z.sub_diag, Z.add_0_r).
  rewrite (app_assoc _ (str "  ")). eapply shows_bind; [by apply print_offset|].
  eapply shows_bind; [apply print_times_ok, print_blanks|]. eapply shows_bind; [by apply print_hex_ok|].
  eapply shows_bind; [|apply print_newline]. destruct ascii; [|apply shows_ret].
  eapply shows_bind; [apply print_times_ok, print_blanks|]. eapply shows_bind; [apply print_bar|].
  eapply shows_bind; [rewrite <- (Nat.mul_1_l (Z.to_nat start)) at 2; apply print_times_ok, print_blank|].
  eapply shows_bind; [by apply print_ascii_ok|]. eapply shows_bind; [|apply print_bar].
  rewrite <- (Nat.mul_1_l (16 - _ - _)) at 2. apply print_times_ok, print_blank.
Qed.

Lemma hex_loop_ok n : forall ofs buf l ascii, 0 <= ofs -> ofs + Z.of_nat (length l) <= 2 ^ 32 -> bytes_at m buf l -> Forall is_u8 l -> (length l <= n)%nat ->
  shows (hex_loop lit n ofs buf (Z.of_nat (length l)) ascii) (dump_text n ofs l ascii) tt.
Proof.
  induction n as [|n IH]; intros ofs buf l ascii Ho HO HB HU HL; [destruct l; [|cbn in HL; lia]; apply shows_ret|]. cbn [hex_loop dump_text].
  destruct l as [|b l]; [apply shows_ret|]. set (L := b :: l) in *. assert (1 <= length L)%nat by (cbn; lia). rewrite (proj2 (Z.ltb_lt 0 _)) by lia.
  pose proof (Z.mod_pos_bound ofs 16 ltac:(lia)) as Hm. unfold per_line. set (start := ofs mod 16) in *. set (k := Z.to_nat (16 - start)).
  assert (E : (if Z.of_nat (length L) <? 16 - start then start + Z.of_nat (length L) else 16) = start + Z.of_nat (length (take k L))) by (rewrite length_take; destruct (Z.ltb_spec (Z.of_nat (length L)) (16 - start)); lia).
  cbn zeta. rewrite E. assert (HL' : length (take k L) = (length L `min` k)%nat) by (rewrite length_take; lia). rewrite <- (take_drop k L) in HB, HU. apply bytes_at_app in HB as [HB1 HB2]. apply Forall_app in HU as [HU1 HU2].
  eapply shows_bind; [apply hex_line_ok; [solve_int|done|done|fold start; lia]|].
  replace (start + Z.of_nat (length (take k L)) - start) with (Z.of_nat (length (take k L))) by lia.
  destruct (decide (length L <= k)%nat) as [Hk|Hk].
  - rewrite drop_ge by done. rewrite HL'. replace (Z.of_nat (length L) - Z.of_nat (length L `min` k)) with 0 by lia. destruct n; apply shows_ret.
  - rewrite HL'. replace (length L `min` k)%nat with k in * by lia. rewrite u32_small by solve_int.
    replace (Z.of_nat (length L) - Z.of_nat k) with (Z.of_nat (length (drop k L))) by (rewrite length_drop; lia).
    apply IH; [lia|rewrite length_drop; lia|by rewrite HL' in HB2|done|rewrite length_drop; lia].
Qed.
End Dump.

(** ** What user programs write *)

Section UserTold.
Context (m : mem) (h : Z) (w0 : list (Z * list Z)).

(** The text so far is what has been written, in full buffers, and what is in the buffer. *)
Definition user_told (out : list Z) (w : mem * vhprintf_aux) : Prop := exists chunks b,
  w = (m, VAux b (Z.of_nat (length out)) h (w0 ++ ((fun l => (h, l)) <$> chunks))) /\ out = concat chunks ++ b /\
  Forall (fun l => length l = 64%nat) chunks /\ (length b < 64)%nat.

Lemma user_told_const out w : user_told out w -> m ⊆ w.1.
Proof. by intros (? & ? & -> & _). Qed.

Lemma user_told_output out w c : user_told out w -> (length out < Z.to_nat (2 ^ 31 - 1))%nat -> is_u8 c ->
  exists w', add_char c w = Ok (tt, w') /\ user_told (out ++ [c]) w'.
Proof.
  intros (chunks & b & -> & Ho & HF & HB) HL _. unfold add_char. cbn [snd fst buf char_cnt handle writes]. rewrite (proj2 (Nat.ltb_lt _ _)) by done.
  rewrite length_app. cbn [length]. destruct (Nat.leb_spec 64 (length b + 1)); eexists; (split; [reflexivity|]).
  - exists (chunks ++ [b ++ [c]]), []. unfold flush. cbn [buf char_cnt handle writes]. rewrite s32_small by solve_int. split; [|split; [|split]].
    + rewrite fmap_app, !length_app. cbn [length fmap list_fmap]. destruct b; cbn [app]; rewrite <- app_assoc; do 2 f_equal; lia.
    + rewrite Ho, concat_app. cbn [concat]. by rewrite !app_nil_r, <- app_assoc.
    + apply Forall_app. split; [done|]. constructor; [rewrite length_app; cbn [length]; lia|constructor].
    + cbn. lia.
  - exists chunks, (b ++ [c]). cbn [buf char_cnt handle writes]. rewrite s32_small by solve_int. split; [|split; [|split]].
    + rewrite length_app. cbn [length buf char_cnt handle writes]. do 2 f_equal. lia.
    + by rewrite Ho, <- app_assoc.
    + done.
    + rewrite length_app. cbn. lia.
Qed.

#[local] Instance user_Sink : Sink add_char m (Z.to_nat (2 ^ 31 - 1)) := {|
  told := user_told; told_const := user_told_const; told_output := user_told_output |}.

Lemma vhprintf_ok lit string_at l p args : literals lit engine_literals m -> Forall (item_ok m string_at) l -> cstr m p (render l) ->
  let t := text string_at l in Z.of_nat (length t) < 2 ^ 31 ->
  exists chunks, vhprintf lit h p (words l ++ args) (m, w0) = Ok (Z.of_nat (length t), (m, w0 ++ ((fun l => (h, l)) <$> chunks))) /\
    concat chunks = t /\ Forall (fun l => (1 <= length l <= 64)%nat) chunks.
Proof.
  intros HLit HF HC t HT. unfold vhprintf. cbn [fst snd]. destruct (__vprintf_ok lit string_at HLit l p args HF HC [] (m, VAux [] 0 h w0)) as (w' & E & H).
  { exists [], []. cbn. rewrite app_nil_r. repeat split; [constructor|lia]. }
  { cbn [length]. fold t. lia. }
  rewrite E. cbn [app] in H. fold t in H. destruct H as (chunks & b & -> & Ho & HCh & HB). unfold flush. cbn [buf char_cnt handle writes].
  assert (HCh' : Forall (fun l : list Z => (1 <= length l <= 64)%nat) chunks) by (eapply Forall_impl; [done|]; cbn; intros ? ->; lia).
  destruct b as [|x b]; [exists chunks|exists (chunks ++ [x :: b])]; (split; [|split]).
  - by rewrite Ho.
  - by rewrite Ho, app_nil_r.
  - done.
  - by rewrite fmap_app, <- app_assoc, Ho.
  - rewrite Ho, concat_app. cbn. by rewrite app_nil_r.
  - apply Forall_app. split; [done|]. constructor; [cbn in *; lia|constructor].
Qed.
End UserTold.

(** ** Theorems *)

(** C37: any sequence of printf, puts, putbuf and putchar calls returns, gives the serial port and the display the texts of
    the calls one after the other, counts their characters, and leaves the console lock as it was: free, or held at any
    depth by the caller, or not used because of an interrupt or a panic. *)
Theorem console_calls_correct lit m string_at ks c : literals lit engine_literals m -> usable c -> Forall (call_ok m string_at) ks ->
  run_calls lit ks (m, c) = Ok (tt, (m, typed (ks ≫= call_text string_at) c)).
Proof. intros HL Hc HF. by apply (run_calls_ok lit m string_at HL ks HF c Hc). Qed.

(** hex_dump shows every byte of the buffer once, in lines that end at multiples of 16 and start with their offset in
    eight digits, two digits a byte with a dash in the middle, and as characters with a dot for what cannot be printed. *)
Theorem hex_dump_correct lit m ofs buf l ascii c : literals lit engine_literals m -> literals lit hex_literals m -> usable c ->
  0 <= ofs -> ofs + Z.of_nat (length l) <= 2 ^ 32 -> bytes_at m buf l -> Forall is_u8 l ->
  hex_dump lit ofs buf (Z.of_nat (length l)) ascii (m, c) = Ok (tt, (m, typed (dump_text (length l) ofs l ascii) c)).
Proof. intros HL HH Hc H0 H1 HB HU. unfold hex_dump. rewrite Nat2Z.id. by apply (hex_loop_ok lit m HL HH). Qed.

(** the buffered console of user programs returns the length of the text; what it passes to write, one call after the other,
    is the text, in pieces of 1 to 64 bytes, all on the given handle. *)
Theorem vhprintf_correct lit m string_at h w0 l p args : literals lit engine_literals m -> Forall (item_ok m string_at) l -> cstr m p (render l) ->
  let t := text string_at l in Z.of_nat (length t) < 2 ^ 31 ->
  exists chunks, hprintf lit h p (words l ++ args) (m, w0) = Ok (Z.of_nat (length t), (m, w0 ++ ((fun l => (h, l)) <$> chunks))) /\
    concat chunks = t /\ Forall (fun l => (1 <= length l <= 64)%nat) chunks.
Proof. intros HL HF HC t HT. by apply vhprintf_ok. Qed.

(** ** Examples *)

Fixpoint place (p : Z) (l : list string) : list (string * Z) :=
  match l with [] => [] | s :: l => (s, p) :: place (p + Z.of_nat (String.length s) + 1) l end.
(** The literals one after the other from address 1000 on. *)
Definition literal_table : list (string * Z) := place 1000 (engine_literals ++ hex_literals).
Definition table_lit (s : string) : Z := from_option snd 0 (find (fun e => String.eqb e.1 s) literal_table).
Definition table_mem : mem := foldr (fun e m => put e.2 (str e.1 ++ [0]) m) (put 500 (str "pin" ++ [0]) (put 400 (str "[%-6s|%+0*hd%%%#llx%f" ++ [0]) ∅)) literal_table.

Lemma table_literals : literals table_lit engine_literals table_mem /\ literals table_lit hex_literals table_mem.
Proof. split; repeat constructor; try done; apply holds_cstr_ok; by_kernel. Qed.

(** A console whose lock the running thread already holds. *)
Definition demo_console : console := Con true true 0 5 [] [] false.
Lemma demo_usable : usable demo_console.
Proof. repeat split; done. Qed.

Definition demo_calls : list call := [CPuts 500 (str "pin"); CPrintf 400 demo_items; CPutbuf 500 (str "pi"); CPutchar 33].

Lemma demo_items_ok : Forall (item_ok table_mem demo_string_at) demo_items.
Proof.
  unfold demo_items. rewrite !Forall_cons. split; [done|]. split; [|repeat split; try done].
  split; [repeat split; try done|]. right. split; [done|]. split; [done|]. split; [apply holds_cstr_ok; by_kernel|done].
Qed.

Lemma console_calls_correct_witness : exists c', run_calls table_lit demo_calls (table_mem, demo_console) = Ok (tt, (table_mem, c')) /\
  serial c' = str "pin
[pin   |-0042%0x100000000ff<<no %f in kernel>>pi!" /\ vga c' = serial c' /\ write_cnt c' = 58 /\ lock_held c' = true /\ console_lock_depth c' = 0.
Proof.
  eexists. split; [refine (console_calls_correct table_lit table_mem demo_string_at demo_calls demo_console (proj1 table_literals) demo_usable _)|].
  - unfold demo_calls. rewrite !Forall_cons. split; [apply holds_cstr_ok; by_kernel|]. split; [|split; [apply holds_bytes_at; by_kernel|split; [done|constructor]]].
    split; [exact demo_items_ok|]. split; [apply holds_cstr_ok; by_kernel|apply Z.ltb_lt; by_kernel].
  - repeat split; by_kernel.
Defined.

End Console.
