(* ===== verification/Syscall.v ===== *)
(** * System calls on files (src/userprog/syscall.c, src/userprog/fd.c, and the end of a process in src/userprog/process.c)

    The state is what a system call of the running process can reach: the file system and its lock, the
    console and the keyboard, the memory of the process, and of its struct thread the table of descriptors,
    the executable, the stack pointer and the children.  A call returns, or it ends the process, or it
    switches the machine off ([ending]).

    User memory is seen as the flat memory that Paging shows it to be: a page that is not in it and is not
    stack to be grown ends the process when it is touched, and so does a page that cannot be brought in for
    want of memory.  Of the calls that deal with processes and mappings (exec, wait, mmap and munmap) only
    the fetching of the arguments is modelled: the handler hands them on ([HandedOn]). *)

From Stdlib Require Import Ascii String.
From S2P Require Import Prelude Vaddr Mem Strings Block Inode Files Directory FileSystem Printf Console.
Import Vaddr Mem Inode Files Directory FileSystem.
Import Block (BlockDevice).
Import Console (console).

Module Syscall.

(** ** Data *)

Record file_handle := Handle { fd : Z; h_file : Z }.

(** [sema_up] on a semaphore of another thread, or of this one. *)
Inductive wakeup := WakeZombie (child : Z) | WakeWait.

Inductive ending (A : Type) := Return (a : A) | Exited | PoweredOff.
Arguments Return {A}.
Arguments Exited {A}.
Arguments PoweredOff {A}.

Section sys.
Context {B : Type} `{!BlockDevice B}.
Notation fs := (fs (B := B)).

Record sys := Sys {
  kfs : fs;
  file_lock : bool;              (* held by the running thread *)
  kmem : mem;                    (* string literals and the name of the thread *)
  con : console;
  keys : nat -> Z;               (* the keys typed, and how many of them have been read *)
  keys_read : nat;
  umem : mem;
  readonly : gset Z;             (* pages the process may not write *)
  page_ins : list bool;          (* whether the pages touched next can be brought in *)
  handle_mallocs : list bool;    (* the answers of malloc for handles *)
  fd_table : list file_handle;
  next_fd : Z;
  executable : option Z;
  t_esp : Z;
  child_list : list Z;
  exit_status : Z;
  wakeups : list wakeup;
}.

Definition set_kfs (x : fs) (s : sys) : sys := Sys x (file_lock s) (kmem s) (con s) (keys s) (keys_read s) (umem s) (readonly s) (page_ins s) (handle_mallocs s)
  (fd_table s) (next_fd s) (executable s) (t_esp s) (child_list s) (exit_status s) (wakeups s).
Definition set_lock (x : bool) (s : sys) : sys := Sys (kfs s) x (kmem s) (con s) (keys s) (keys_read s) (umem s) (readonly s) (page_ins s) (handle_mallocs s)
  (fd_table s) (next_fd s) (executable s) (t_esp s) (child_list s) (exit_status s) (wakeups s).
Definition set_con (m : mem) (x : console) (s : sys) : sys := Sys (kfs s) (file_lock s) m x (keys s) (keys_read s) (umem s) (readonly s) (page_ins s) (handle_mallocs s)
  (fd_table s) (next_fd s) (executable s) (t_esp s) (child_list s) (exit_status s) (wakeups s).
Definition set_keys (n : nat) (s : sys) : sys := Sys (kfs s) (file_lock s) (kmem s) (con s) (keys s) n (umem s) (readonly s) (page_ins s) (handle_mallocs s)
  (fd_table s) (next_fd s) (executable s) (t_esp s) (child_list s) (exit_status s) (wakeups s).
Definition set_umem (m : mem) (x : list bool) (s : sys) : sys := Sys (kfs s) (file_lock s) (kmem s) (con s) (keys s) (keys_read s) m (readonly s) x (handle_mallocs s)
  (fd_table s) (next_fd s) (executable s) (t_esp s) (child_list s) (exit_status s) (wakeups s).
Definition set_fds (l : list file_handle) (n : Z) (mallocs : list bool) (s : sys) : sys := Sys (kfs s) (file_lock s) (kmem s) (con s) (keys s) (keys_read s) (umem s) (readonly s) (page_ins s) mallocs
  l n (executable s) (t_esp s) (child_list s) (exit_status s) (wakeups s).
Definition set_executable (x : option Z) (s : sys) : sys := Sys (kfs s) (file_lock s) (kmem s) (con s) (keys s) (keys_read s) (umem s) (readonly s) (page_ins s) (handle_mallocs s)
  (fd_table s) (next_fd s) x (t_esp s) (child_list s) (exit_status s) (wakeups s).
Definition set_esp (x : Z) (s : sys) : sys := Sys (kfs s) (file_lock s) (kmem s) (con s) (keys s) (keys_read s) (umem s) (readonly s) (page_ins s) (handle_mallocs s)
  (fd_table s) (next_fd s) (executable s) x (child_list s) (exit_status s) (wakeups s).
Definition set_exit (status : Z) (w : list wakeup) (s : sys) : sys := Sys (kfs s) (file_lock s) (kmem s) (con s) (keys s) (keys_read s) (umem s) (readonly s) (page_ins s) (handle_mallocs s)
  (fd_table s) (next_fd s) (executable s) (t_esp s) (child_list s) status w.

(** A computation of the running process. *)
Notation P A := (M sys (ending A)).
Definition pret {A} (a : A) : P A := mret (Return a).
Definition pbind {A C} (m : P A) (k : A -> P C) : P C :=
  let* r := m in match r with Return a => k a | Exited => mret Exited | PoweredOff => mret PoweredOff end.
Definition proc {A} (m : M sys A) : P A := let* a := m in mret (Return a).
Notation "'let!' x := m 'in' k" := (pbind m (fun x => k)) (at level 200, x pattern, m at level 100, k at level 200).
Notation "'do!' m ; k" := (pbind m (fun _ => k)) (at level 200, m at level 100, k at level 200).

Definition on_fs {A} (m : M fs A) : M sys A := fun s => match m (kfs s) with Ok (a, k) => Ok (a, set_kfs k s) | Fail e => Fail e end.
(** Kernel code that prints reads its strings from kernel memory. *)
Definition on_world {A} (m : M (mem * console) A) : M sys A := fun s =>
  match m (kmem s, con s) with Ok (a, (km, c)) => Ok (a, set_con km c s) | Fail e => Fail e end.
(** [putbuf] on a user buffer. *)
Definition on_user_world {A} (m : M (mem * console) A) : M sys A := fun s =>
  match m (umem s, con s) with Ok (a, (_, c)) => Ok (a, set_con (kmem s) c s) | Fail e => Fail e end.

(** lock_acquire and lock_release assert that the thread has not, and has, the lock. *)
Definition filesys_lock_acquire : M sys unit := let* h := gets file_lock in do* ASSERT (negb h) ; modify (set_lock true).
Definition filesys_lock_release : M sys unit := let* h := gets file_lock in do* ASSERT h ; modify (set_lock false).

(** ** Descriptors (fd.c) *)

Fixpoint find_handle (n : Z) (l : list file_handle) : option file_handle :=
  match l with [] => None | h :: l => if fd h =? n then Some h else find_handle n l end.
Definition lookup_handle_by_fd (n : Z) : M sys (option file_handle) := let* l := gets fd_table in mret (find_handle n l).

Definition fd_to_file (n : Z) : M sys (option Z) :=
  if n <? 1 then mret None else let* h := lookup_handle_by_fd n in mret (h_file <$> h).

(** Each round takes the first handle off the list. *)
Fixpoint destroy_loop (l : list file_handle) : M sys unit :=
  match l with
  | [] => mret tt
  | h :: l =>
    do* modify (fun s => set_fds l (next_fd s) (handle_mallocs s) s) ;
    do* on_fs (file_close (Some (h_file h))) ;
    destroy_loop l
  end.
Definition fd_table_destroy : M sys unit := let* l := gets fd_table in destroy_loop l.

(** ** The end of a process *)

Section calls.
Context (lit : string -> Z) (name : Z) (junk junk' : list Z).

(** The mappings and the supplemental page table, which are freed here too, are not part of this state. *)
Definition process_cleanup {A} (status : Z) : P A :=
  do* modify (fun s => set_exit status (wakeups s) s) ;
  let* _ : Z := on_world (Console.printf lit "%s: exit(%d)
" [name; u32 status]) in
  let* e := gets executable in
  do* match e with
      | Some _ =>
        do* filesys_lock_acquire ;
        do* on_fs (file_close e) ;
        do* modify (set_executable None) ;
        filesys_lock_release
      | None => mret tt
      end ;
  do* modify (fun s => set_exit (exit_status s) (wakeups s ++ (WakeZombie <$> child_list s)) s) ;
  do* fd_table_destroy ;
  do* modify (fun s => set_exit (exit_status s) (wakeups s ++ [WakeWait]) s) ;
  mret Exited.

Definition sys_exit {A} (status : Z) : P A := process_cleanup status.

(** ** Pointers of the user *)

Definition MAX_STACK_SIZE : Z := 8 * 1024 * 1024.
Definition grows (esp a : Z) : bool := (PHYS_BASE - MAX_STACK_SIZE <=? a) && (a <? PHYS_BASE) && (u32 (esp - 32) <=? a).
Definition zero_page : list Z := replicate (Z.to_nat PGSIZE) 0.

(** A read of the first byte of a page, with what page_fault_handler makes of it. *)
Definition touch_ptr (uaddr : Z) : P unit :=
  let* s := gets id in
  let present := bool_decide (is_Some (umem s !! uaddr)) in
  if (present || grows (t_esp s) uaddr) && default false (head (page_ins s)) then
    proc (modify (set_umem (if present then umem s else put uaddr zero_page (umem s)) (tail (page_ins s))))
  else process_cleanup (-1).

Fixpoint touch_loop (n : nat) (page last : Z) : P unit :=
  if page <=? last then
    match n with O => fail FFuel | S n => do! touch_ptr page ; touch_loop n (u32 (page + PGSIZE)) last end
  else pret tt.

Definition validate_ptr (ptr length : Z) : P unit :=
  let ptr_end := u32 (ptr + length - 1) in
  do! (if negb (is_user_vaddr ptr) || negb (is_user_vaddr ptr_end) then sys_exit (-1) else pret tt) ;
  touch_loop (Z.to_nat (PHYS_BASE / PGSIZE)) (pg_round_down ptr) (pg_round_down ptr_end).

Definition get_user (usrc : Z) : P Z :=
  do! validate_ptr usrc 4 ;
  proc (fun s => match load32 (umem s) usrc with Ok w => Ok (w, s) | Fail e => Fail e end).

(** The file system reads its names from user memory; a name that runs into a page that is not there is not
    followed further. *)
Fixpoint string_at (n : nat) (m : mem) (p : Z) : option (list Z) :=
  match n with
  | O => None
  | S n => match m !! p with None => None | Some c => if c =? 0 then Some [] else (cons c) <$> string_at n m (p + 1) end
  end.
Definition user_string (p : Z) : M sys (list Z) := fun s => match string_at (fuel (umem s)) (umem s) p with Some l => Ok (l, s) | None => Fail FTrap end.

(** A user buffer.  Writes to kernel memory are faults, writes to pages that are absent or may not be written
    are not followed further. *)
Definition buffer_at (m : mem) (p : Z) (n : nat) : list Z := (fun i => default 0 (m !! u32 (p + i))) <$> seqZ 0 (Z.of_nat n).
Fixpoint user_put (p : Z) (l : list Z) : M sys unit :=
  match l with
  | [] => mret tt
  | x :: l =>
    let* s := gets id in
    if negb (is_user_vaddr p) then fail FMemory
    else if bool_decide (is_Some (umem s !! p)) && negb (bool_decide (pg_round_down p ∈ readonly s)) then
      do* modify (set_umem (<[p := x]> (umem s)) (page_ins s)) ;
      user_put (u32 (p + 1)) l
    else fail FTrap
  end.
Definition user_get (p : Z) (n : nat) : M sys (list Z) := fun s =>
  if forallb (fun i => is_user_vaddr (u32 (p + i))) (seqZ 0 (Z.of_nat n)) then
    if forallb (fun i => bool_decide (is_Some (umem s !! u32 (p + i)))) (seqZ 0 (Z.of_nat n)) then Ok (buffer_at (umem s) p n, s) else Fail FTrap
  else Fail FMemory.

(** ** The calls *)

Definition sys_write (n buffer size : Z) : P Z :=
  if n <? 0 then pret (-1)
  else
    do! validate_ptr buffer (s32 size) ;
    if n =? 1 then
      proc (do* filesys_lock_acquire ;
            do* on_user_world (Console.putbuf buffer size) ;
            do* filesys_lock_release ;
            mret (s32 size))
    else
      proc (let* file := fd_to_file n in
            match file with
            | None => mret (-1)
            | Some _ =>
              do* filesys_lock_acquire ;
              let* m := gets umem in
              let* bytes_written := on_fs (file_write file (buffer_at m buffer (Z.to_nat (s32 size))) (s32 size)) in
              let* _ := user_get buffer (Z.to_nat bytes_written) in
              do* filesys_lock_release ;
              mret bytes_written
            end).

Definition sys_create (file initial_size : Z) : P bool :=
  do! validate_ptr file 4 ;
  do! (if file =? 0 then sys_exit (-1) else pret tt) ;
  proc (do* filesys_lock_acquire ;
        let* nm := user_string file in
        let* success := on_fs (filesys_create nm (s32 initial_size) junk junk') in
        do* filesys_lock_release ;
        mret success).

(** [malloc (sizeof *fh)] *)
Definition malloc_handle : M sys bool := fun s =>
  Ok (default false (head (handle_mallocs s)), set_fds (fd_table s) (next_fd s) (tail (handle_mallocs s)) s).

Definition sys_open (file : Z) : P Z :=
  do! validate_ptr file 4 ;
  do! (if file =? 0 then sys_exit (-1) else pret tt) ;
  proc (do* filesys_lock_acquire ;
        let* nm := user_string file in
        let* f := on_fs (filesys_open nm junk) in
        do* filesys_lock_release ;
        match f with
        | None => mret (-1)
        | Some q =>
          let* fh := malloc_handle in
          if negb fh then
            do* filesys_lock_acquire ;
            do* on_fs (file_close f) ;
            do* filesys_lock_release ;
            mret (-1)
          else
            let* n := gets next_fd in
            do* modify (fun s => set_fds (fd_table s ++ [Handle n q]) (s32 (n + 1)) (handle_mallocs s) s) ;
            mret n
        end).

(** [list_remove] takes the handle that was found, the first one with its number. *)
Fixpoint remove_handle (n : Z) (l : list file_handle) : list file_handle :=
  match l with [] => [] | h :: l => if fd h =? n then l else h :: remove_handle n l end.

Definition sys_close (n : Z) : P unit :=
  if n <? 1 then pret tt
  else
    proc (let* file := fd_to_file n in
          match file with
          | None => mret tt
          | Some _ =>
            do* filesys_lock_acquire ;
            do* on_fs (file_close file) ;
            do* filesys_lock_release ;
            let* handle := lookup_handle_by_fd n in
            match handle with
            | None => mret tt
            | Some _ => modify (fun s => set_fds (remove_handle n (fd_table s)) (next_fd s) (handle_mallocs s) s)
            end
          end).

(** The next key typed; the call waits for it. *)
Definition input_getc : M sys Z := fun s => Ok (u8 (keys s (keys_read s)), set_keys (S (keys_read s)) s).
Fixpoint read_keys (n : nat) (buffer : Z) : M sys unit :=
  match n with
  | O => mret tt
  | S n => let* c := input_getc in do* user_put buffer [c] ; read_keys n (u32 (buffer + 1))
  end.

Definition sys_read (n buffer size : Z) : P Z :=
  do! validate_ptr buffer (s32 size) ;
  if n =? 0 then
    proc (do* filesys_lock_acquire ;
          do* read_keys (Z.to_nat (s32 size)) buffer ;
          do* filesys_lock_release ;
          mret (s32 size))
  else
    proc (let* file := fd_to_file n in
          match file with
          | None => mret (-1)
          | Some _ =>
            do* filesys_lock_acquire ;
            let* m := gets umem in
            let* r : Z * list Z := on_fs (file_read file (buffer_at m buffer (Z.to_nat (s32 size))) (s32 size)) in
            do* user_put buffer (take (Z.to_nat r.1) r.2) ;
            do* filesys_lock_release ;
            mret r.1
          end).

Definition sys_filesize (n : Z) : P Z :=
  if n <? 1 then pret (-1)
  else
    proc (let* file := fd_to_file n in
          do* filesys_lock_acquire ;
          let* length := on_fs (file_length file) in
          do* filesys_lock_release ;
          mret length).

Definition sys_seek (n position : Z) : P unit :=
  if n <? 1 then pret tt
  else
    proc (let* file := fd_to_file n in
          match file with
          | None => mret tt
          | Some _ =>
            do* filesys_lock_acquire ;
            do* on_fs (file_seek file (s32 position)) ;
            filesys_lock_release
          end).

(** For a descriptor below 1 the function returns without a value. *)
Definition sys_tell (n : Z) : P (option Z) :=
  if n <? 1 then pret None
  else
    proc (let* file := fd_to_file n in
          match file with
          | None => mret (Some (u32 (-1)))
          | Some _ =>
            do* filesys_lock_acquire ;
            let* pos := on_fs (file_tell file) in
            do* filesys_lock_release ;
            mret (Some (u32 pos))
          end).

Definition sys_remove (file : Z) : P bool :=
  do! validate_ptr file 4 ;
  proc (do* filesys_lock_acquire ;
        let* nm := user_string file in
        let* success := on_fs (filesys_remove nm junk) in
        do* filesys_lock_release ;
        mret success).

(** ** The handler *)

Inductive call :=
  | SYS_HALT | SYS_EXIT (status : Z) | SYS_EXEC (cmd_line : Z) | SYS_WAIT (pid : Z)
  | SYS_CREATE (file initial_size : Z) | SYS_REMOVE (file : Z) | SYS_OPEN (file : Z) | SYS_FILESIZE (n : Z)
  | SYS_READ (n buffer size : Z) | SYS_WRITE (n buffer size : Z) | SYS_SEEK (n position : Z) | SYS_TELL (n : Z) | SYS_CLOSE (n : Z)
  | SYS_MMAP (n addr : Z) | SYS_MUNMAP (mapping : Z) | SYS_INVALID.

(** The call and its arguments, from the user stack. *)
Definition get_call (esp : Z) : P call :=
  do! validate_ptr esp 4 ;
  do! proc (modify (set_esp esp)) ;
  let! number := proc (fun s => match load32 (umem s) esp with Ok w => Ok (w, s) | Fail e => Fail e end) in
  let arg (i : Z) : P Z := get_user (u32 (esp + 4 * i)) in
  match number with
  | 0 => pret SYS_HALT
  | 1 => let! a := arg 1 in pret (SYS_EXIT (s32 a))
  | 2 => let! a := arg 1 in pret (SYS_EXEC a)
  | 3 => let! a := arg 1 in pret (SYS_WAIT (s32 a))
  | 4 => let! a := arg 1 in let! b := arg 2 in pret (SYS_CREATE a b)
  | 5 => let! a := arg 1 in pret (SYS_REMOVE a)
  | 6 => let! a := arg 1 in pret (SYS_OPEN a)
  | 7 => let! a := arg 1 in pret (SYS_FILESIZE (s32 a))
  | 8 => let! a := arg 1 in let! b := arg 2 in let! c := arg 3 in pret (SYS_READ (s32 a) b c)
  | 9 => let! a := arg 1 in let! b := arg 2 in let! c := arg 3 in pret (SYS_WRITE (s32 a) b c)
  | 10 => let! a := arg 1 in let! b := arg 2 in pret (SYS_SEEK (s32 a) b)
  | 11 => let! a := arg 1 in pret (SYS_TELL (s32 a))
  | 12 => let! a := arg 1 in pret (SYS_CLOSE (s32 a))
  | 13 => let! a := arg 1 in let! b := arg 2 in pret (SYS_MMAP (s32 a) b)
  | 14 => let! a := arg 1 in pret (SYS_MUNMAP (s32 a))
  | _ => pret SYS_INVALID
  end.

(** The value for [f->eax], when the call gives one. *)
Definition eax (m : P Z) : P (option Z) := let! v := m in pret (Some (u32 v)).
Definition eax_bool (m : P bool) : P (option Z) := let! v := m in pret (Some (if v then 1 else 0)).
Definition no_eax (m : P unit) : P (option Z) := do! m ; pret None.

(** The calls on processes and mappings, which are not modelled. *)
Definition process_call (c : call) : bool :=
  match c with SYS_EXEC _ | SYS_WAIT _ | SYS_MMAP _ _ | SYS_MUNMAP _ => true | _ => false end.

(** A call has been carried out, with the value for [f->eax], or its function is to be called. *)
Inductive reply := Reply (eax : option Z) | HandedOn (c : call).

Definition perform (c : call) : P reply :=
  let serve (m : P (option Z)) : P reply := let! r := m in pret (Reply r) in
  match c with
  | SYS_HALT => mret PoweredOff
  | SYS_EXIT status => sys_exit status
  | SYS_CREATE a n => serve (eax_bool (sys_create a n))
  | SYS_REMOVE a => serve (eax_bool (sys_remove a))
  | SYS_OPEN a => serve (eax (sys_open a))
  | SYS_FILESIZE n => serve (eax (sys_filesize n))
  | SYS_READ n b z => serve (eax (sys_read n b z))
  | SYS_WRITE n b z => serve (eax (sys_write n b z))
  | SYS_SEEK n p => serve (no_eax (sys_seek n p))
  | SYS_TELL n => serve (sys_tell n)
  | SYS_CLOSE n => serve (no_eax (sys_close n))
  | SYS_EXEC _ | SYS_WAIT _ | SYS_MMAP _ _ | SYS_MUNMAP _ => pret (HandedOn c)
  | SYS_INVALID => sys_exit (-1)
  end.

Definition syscall_handler (esp : Z) : P reply := let! c := get_call esp in perform c.

(** ** Invariant *)

(** The files a process has open. *)
Definition open_files (s : sys) : list Z := option_list (executable s) ++ (h_file <$> fd_table s).
Definition open_ok (k : fs) (l : list Z) : Prop := NoDup l /\ Forall (user_file k) l.
(** The files that are open, but not by the process. *)
Definition others (s : sys) : gset Z := dom (files (kfs s)) ∖ list_to_set (open_files s).

(** User memory: whole pages of bytes. *)
Record umem_ok (m : mem) : Prop := {
  um_bytes a x : m !! a = Some x -> is_u8 x /\ 0 <= a < PHYS_BASE;
  um_pages a b : is_Some (m !! a) -> a / 4096 = b / 4096 -> is_Some (m !! b);
}.

Definition exit_format : string := "%s: exit(%d)
".
Context (nm : list Z).
Record texts_ok (m : mem) : Prop := {
  tx_engine : Printf.literals lit Printf.engine_literals m;
  tx_format : cstr m (lit exit_format) (Printf.str exit_format);
  tx_name : cstr m name nm;
  tx_ptr : is_u32 name /\ name <> 0;
  tx_length : (length nm < 16)%nat;
}.

Record sys_ok (s : sys) : Prop := {
  ok_fs : fs_ok (kfs s);
  ok_lock : file_lock s = false;
  ok_texts : texts_ok (kmem s);
  ok_con : Console.usable (con s);
  ok_umem : umem_ok (umem s);
  ok_fds : NoDup (fd <$> fd_table s);
  ok_range : Forall (fun h => 2 <= fd h < next_fd s) (fd_table s);
  ok_next : 2 <= next_fd s < 2 ^ 31;
  ok_open : open_ok (kfs s) (open_files s);
}.

Definition exit_text (status : Z) : list Z :=
  nm ++ Printf.str ": exit(" ++ Printf.text_signed Printf.plain status ++ Printf.str ")
".
(** The process has no file open, has said that it ends, and has woken its children and who waits for it. *)
Record ended (s s' : sys) : Prop := {
  end_files : open_files s' = [];
  end_text : con s' = Console.typed (exit_text (exit_status s')) (con s);
  end_wakeups : wakeups s' = wakeups s ++ (WakeZombie <$> child_list s) ++ [WakeWait];
}.
(** What a system call does in every case: the invariant holds again, and no file is left open behind the
    back of the process or taken away from another. *)
Definition served {A} (s : sys) (r : ending A) (s' : sys) : Prop :=
  sys_ok s' /\ others s' = others s /\ match r with Exited => ended s s' | _ => True end.

(** ** The end of a process *)

Lemma on_fs_ok {A} (m : M fs A) s a k : m (kfs s) = Ok (a, k) -> on_fs m s = Ok (a, set_kfs k s).
Proof. intros E. unfold on_fs. by rewrite E. Qed.

Lemma filesys_acquire_ok s : file_lock s = false -> filesys_lock_acquire s = Ok (tt, set_lock true s).
Proof. intros E. unfold filesys_lock_acquire. rewrite (M_bind_Ok _ _ s (file_lock s) s) by done. by rewrite E. Qed.

Lemma filesys_release_ok s : file_lock s = true -> filesys_lock_release s = Ok (tt, set_lock false s).
Proof. intros E. unfold filesys_lock_release. rewrite (M_bind_Ok _ _ s (file_lock s) s) by done. by rewrite E. Qed.

Lemma close_open k f rest l : fs_ok k -> open_ok k l -> l ≡ₚ f :: rest ->
  exists k', file_close (Some f) k = Ok (tt, k') /\ fs_ok k' /\ open_ok k' rest /\
    dom (files k') ∖ list_to_set rest = dom (files k) ∖ (list_to_set l : gset Z).
Proof.
  intros V [Nd Fu] Hp. rewrite Hp in Nd, Fu. apply NoDup_cons in Nd as [Hni Nd]. apply Forall_cons in Fu as [Hu Fu].
  destruct (fs_close_ok k f V Hu) as (k' & E & V' & Em & Ef). exists k'. split; [done|]. split; [done|]. split.
  - split; [done|]. rewrite Forall_forall in Fu |- *. intros g Hg. destruct (Fu g Hg) as [H1 H2]. split; [|by rewrite Em].
    rewrite Ef, lookup_delete_ne; [done|]. by intros ->.
  - rewrite Ef, dom_delete_L. rewrite (list_to_set_perm_L _ _ Hp). simpl. set_solver.
Qed.

Lemma destroy_loop_ok l : forall s, sys_ok s -> executable s = None -> fd_table s = l ->
  exists s', destroy_loop l s = Ok (tt, s') /\ sys_ok s' /\ others s' = others s /\ open_files s' = [] /\
    con s' = con s /\ wakeups s' = wakeups s /\ exit_status s' = exit_status s.
Proof.
  induction l as [|h l IH]; intros s V He Hl; cbn [destroy_loop].
  - exists s. split; [done|]. unfold open_files. by rewrite He, Hl.
  - rewrite M_bind_modify. set (s1 := set_fds l (next_fd s) (handle_mallocs s) s).
    assert (Ho : open_files s ≡ₚ h_file h :: open_files s1) by (unfold open_files; simpl; by rewrite He, Hl).
    destruct (close_open (kfs s) (h_file h) _ _ (ok_fs _ V) (ok_open _ V) Ho) as (k' & E & V' & O' & Eo).
    rewrite (M_bind_Ok _ _ s1 tt (set_kfs k' s1)) by (by apply on_fs_ok).
    pose proof (ok_fds _ V) as Nd. pose proof (ok_range _ V) as Fr. rewrite Hl in Nd, Fr. apply NoDup_cons in Nd as [_ Nd]. apply Forall_cons in Fr as [_ Fr].
    destruct (IH (set_kfs k' s1)) as (s' & E' & V2 & Eo' & H); [|done|done|].
    { destruct V. split; done. }
    exists s'. split; [done|]. split; [done|]. split; [|done]. rewrite Eo'. exact Eo.
Qed.

Definition exit_items (status : Z) : list Printf.item :=
  Printf.Conv Printf.plain Printf.Cs name :: (Printf.Char <$> Printf.str ": exit(") ++ Printf.Conv Printf.plain Printf.Cd status :: (Printf.Char <$> Printf.str ")
").

Lemma exit_items_text status : is_s32 status -> name <> 0 -> Printf.text (fun _ => nm) (exit_items status) = exit_text status.
Proof.
  intros Hs Hn. unfold Printf.text, exit_items, exit_text. cbn [fmap list_fmap app mbind list_bind Printf.text_item].
  rewrite (proj2 (Z.eqb_neq name 0)) by done. assert (Es : Printf.signed_value 32 status = status) by (by apply s32_small).
  unfold Printf.text_string at 1, Printf.field. simpl. by rewrite Es.
Qed.

Lemma exit_text_length status : is_s32 status -> (length nm < 16)%nat -> Z.of_nat (length (exit_text status)) < 2 ^ 31.
Proof.
  intros Hs Hn. unfold exit_text. rewrite !length_app. cbn [length Printf.str].
  assert (length (Printf.text_signed Printf.plain status) <= 65)%nat; [|cbn; lia]. unfold Printf.text_signed, Printf.field. cbn [Printf.o_minus Printf.o_zero Printf.plain].
  pose proof (Printf.number_body_length (Printf.fl Printf.plain Printf.Group) (Printf.fl Printf.plain Printf.Pound) (Printf.o_p Printf.plain) Printf.base_d (Z.abs status)) as HL.
  specialize (HL ltac:(left; done) ltac:(unfold is_s32, is_u64 in *; lia)). set (body := Printf.number_body _ _ _ _ _) in *.
  change (length (Printf.sign_chars Printf.plain (status <? 0)%Z ++ body) <= 65)%nat. rewrite length_app.
  assert (forall b, length (Printf.sign_chars Printf.plain b) <= 1)%nat as Hb by (intros []; cbv; lia). specialize (Hb (status <? 0)). lia.
Qed.

Lemma exit_printf_ok status s : texts_ok (kmem s) -> Console.usable (con s) -> is_s32 status ->
  exists n, on_world (Console.printf lit exit_format [name; u32 status]) s = Ok (n, set_con (kmem s) (Console.typed (exit_text status) (con s)) s).
Proof.
  intros T C Hs. eexists. unfold on_world, Console.printf.
  pose proof (Console.vprintf_ok lit (kmem s) (fun _ => nm) (tx_engine _ T) (exit_items status) (lit exit_format) []) as H.
  destruct (tx_ptr _ T) as [Hp Hn]. rewrite app_nil_r, exit_items_text in H by done. specialize (H ltac:(
    unfold exit_items; rewrite Forall_cons, Forall_app, Forall_cons; split_and!; [split; [done|right; split_and!; try done; [apply T|pose proof (tx_length _ T); lia]]|repeat constructor; done|done|repeat constructor; done])).
  specialize (H (tx_format _ T) (exit_text_length _ Hs (tx_length _ T)) (con s) C).
  replace (Printf.words (exit_items status)) with [name; u32 status] in H; [by rewrite H|].
  unfold Printf.words, exit_items. simpl. unfold Printf.value_words. simpl. by rewrite (u32_small name).
Qed.

Lemma close_executable_ok s : sys_ok s ->
  exists s', match executable s with
             | Some _ => do* filesys_lock_acquire ; do* on_fs (file_close (executable s)) ; do* modify (set_executable None) ; filesys_lock_release
             | None => mret tt
             end s = Ok (tt, s') /\ sys_ok s' /\ others s' = others s /\ executable s' = None /\
    con s' = con s /\ wakeups s' = wakeups s /\ exit_status s' = exit_status s /\ child_list s' = child_list s.
Proof.
  intros V. destruct (executable s) as [f|] eqn:He; [|by exists s].
  rewrite (M_bind_Ok _ _ _ _ _ (filesys_acquire_ok s (ok_lock _ V))).
  assert (Ho : open_files s ≡ₚ f :: (h_file <$> fd_table s)) by (unfold open_files; by rewrite He).
  destruct (close_open (kfs s) f _ _ (ok_fs _ V) (ok_open _ V) Ho) as (k' & E & V' & O' & Eo).
  rewrite (M_bind_Ok _ _ _ tt (set_kfs k' (set_lock true s))) by (by apply on_fs_ok). rewrite M_bind_modify, filesys_release_ok by done.
  eexists. split; [reflexivity|]. split; [destruct V; by split|]. split; [exact Eo|]. done.
Qed.

Lemma cleanup_ok {A} status s : sys_ok s -> is_s32 status ->
  exists s', process_cleanup (A := A) status s = Ok (Exited, s') /\ served s (@Exited A) s' /\ exit_status s' = status.
Proof.
  intros V Hs. unfold process_cleanup. rewrite M_bind_modify. set (s1 := set_exit status (wakeups s) s).
  destruct (exit_printf_ok status s1 (ok_texts _ V) (ok_con _ V) Hs) as [n E]. change (string_of_list_ascii _) with exit_format in *.
  rewrite (M_bind_Ok _ _ _ _ _ E). clear E. set (s2 := set_con _ _ s1). rewrite (M_bind_Ok _ _ s2 (executable s2) s2) by done.
  assert (V2 : sys_ok s2) by (destruct V; split; try done; by apply Console.usable_typed).
  destruct (close_executable_ok s2 V2) as (s3 & E & V3 & O3 & He & E1 & E2 & E3 & E4). rewrite (M_bind_Ok _ _ _ _ _ E), M_bind_modify. clear E.
  set (s4 := set_exit _ _ s3). assert (V4 : sys_ok s4) by (destruct V3; by split).
  destruct (destroy_loop_ok (fd_table s4) s4 V4 He eq_refl) as (s5 & E & V5 & O5 & Hf & F1 & F2 & F3).
  rewrite (M_bind_Ok _ _ s4 tt s5) by exact E. rewrite M_bind_modify. assert (Es : exit_status s5 = status) by (rewrite F3; exact E3). eexists. split; [reflexivity|].
  split; [|exact Es]. split; [destruct V5; by split|]. split; [change (others s5 = others s); rewrite O5; exact O3|].
  split; [exact Hf| |].
  - simpl. rewrite F1, Es. exact E1.
  - simpl. rewrite F2. simpl. rewrite E2, E4. simpl. by rewrite <- app_assoc.
Qed.

(** ** Checked pointers *)

(** Only user memory and the stack pointer have changed, and memory has grown at most. *)
Record grown (s s' : sys) : Prop := {
  gr_state : exists m p e, s' = set_esp e (set_umem m p s);
  gr_sub : umem s ⊆ umem s';
  gr_ok : umem_ok (umem s');
}.
Definition checked {A} (s s' : sys) (r : ending A) (Q : A -> mem -> Prop) : Prop :=
  match r with Return a => grown s s' /\ Q a (umem s') | Exited => served s r s' | PoweredOff => False end.

Lemma grown_refl s : sys_ok s -> grown s s.
Proof. intros V. split; [exists (umem s), (page_ins s), (t_esp s); by destruct s|done|apply V]. Qed.

Lemma grown_trans s1 s2 s3 : grown s1 s2 -> grown s2 s3 -> grown s1 s3.
Proof. intros [(m & p & e & ->) Hs _] [(m' & p' & e' & ->) Hs' Hu]. split; [by exists m', p', e'|by etrans|done]. Qed.

Lemma grown_ok s s' : grown s s' -> sys_ok s -> sys_ok s' /\ others s' = others s.
Proof. intros [(m & p & e & ->) _ Hu] V. split; [destruct V; by split|done]. Qed.

Lemma grown_served {A} s s1 (r : ending A) s2 : grown s s1 -> served s1 r s2 -> served s r s2.
Proof.
  intros [(m & p & e & ->) _ _] (V & O & E). split; [done|]. split; [done|]. destruct r; try done. by destruct E; split.
Qed.

Lemma umem_grow m a : umem_ok m -> a mod 4096 = 0 -> 0 <= a -> a + 4096 <= PHYS_BASE -> (forall b, a <= b < a + 4096 -> m !! b = None) ->
  umem_ok (put a zero_page m) /\ m ⊆ put a zero_page m /\ is_Some (put a zero_page m !! a).
Proof.
  intros U Ha H0 Hb Hn.
  assert (Hl : forall b, put a zero_page m !! b = if decide (a <= b < a + 4096) then Some 0 else m !! b).
  { unfold zero_page. change PGSIZE with 4096. assert (Hn4 : Z.of_nat (Z.to_nat 4096) = 4096) by lia. set (n := Z.to_nat 4096) in *. clearbody n.
    intros b. rewrite lookup_put, length_replicate, Hn4. destruct (decide (a <= b < a + 4096)); [|done]. apply lookup_replicate. split; [done|lia]. }
  set (z := zero_page) in *. clearbody z.
  split; [split|split].
  - intros b x. rewrite Hl. destruct (decide _); [|apply U]. intros [= <-]. split; [done|]. lia.
  - intros b c. rewrite !Hl. destruct (decide (a <= b < a + 4096)), (decide (a <= c < a + 4096)); try done; [|apply U].
    intros _ E. exfalso. pose proof (Z.div_mod b 4096). pose proof (Z.div_mod c 4096). pose proof (Z.mod_pos_bound b 4096). pose proof (Z.mod_pos_bound c 4096).
    pose proof (Z.div_mod a 4096). lia.
  - apply map_subseteq_spec. intros b x Hx. rewrite Hl, decide_False; [done|]. intros Hr. rewrite Hn in Hx by done. done.
  - rewrite Hl, decide_True by lia. done.
Qed.

Lemma page_of a b : a mod 4096 = 0 -> a <= b < a + 4096 -> b / 4096 = a / 4096.
Proof. intros Ha Hb. pose proof (Z.div_mod a 4096). symmetry. apply (Z.div_unique b 4096 (a / 4096) (b - a)); lia. Qed.

#[local] Opaque zero_page.
Lemma touch_ptr_ok a s : sys_ok s -> a mod 4096 = 0 -> 0 <= a < PHYS_BASE ->
  exists r s', touch_ptr a s = Ok (r, s') /\ checked s s' r (fun _ m => is_Some (m !! a)).
Proof.
  intros V Ha Hr. unfold touch_ptr. rewrite (M_bind_Ok _ _ s s s) by done.
  destruct ((bool_decide (is_Some (umem s !! a)) || grows (t_esp s) a) && default false (head (page_ins s))) eqn:E.
  - eexists (Return tt), _. split; [reflexivity|]. unfold checked. simpl. case_bool_decide as Hp.
    + split; [|done]. split; simpl; [by exists (umem s), (tail (page_ins s)), (t_esp s)|done|apply V].
    + destruct (umem_grow (umem s) a) as (H1 & H2 & H3); [apply V|done|lia| | |].
      { pose proof (Z.div_mod a 4096). change PHYS_BASE with (786432 * 4096) in *. lia. }
      { intros b Hb. destruct (umem s !! b) eqn:Eb; [|done]. destruct Hp. apply (um_pages _ (ok_umem _ V) b a); [by rewrite Eb|by apply page_of]. }
      split; [|done]. split; simpl; [by exists (put a zero_page (umem s)), (tail (page_ins s)), (t_esp s)|done|done].
  - destruct (cleanup_ok (A := unit) (-1) s V ltac:(done)) as (s' & E' & H & _). exists Exited, s'. done.
Qed.

Lemma pbind_ok {A C} (m : P A) (k : A -> P C) s a s' : m s = Ok (Return a, s') -> pbind m k s = k a s'.
Proof. intros E. unfold pbind. by rewrite (M_bind_Ok _ _ _ _ _ E). Qed.

(** A check, and then a computation that the check allows. *)
Lemma checked_bind {A C} (m : P A) (k : A -> P C) s r s1 Q (R : ending C -> sys -> Prop) :
  m s = Ok (r, s1) -> checked s s1 r Q -> (forall s', served s (@Exited C) s' -> R Exited s') ->
  (forall a s', grown s s' -> Q a (umem s') -> exists r' s'', k a s' = Ok (r', s'') /\ R r' s'') ->
  exists r' s'', pbind m k s = Ok (r', s'') /\ R r' s''.
Proof.
  intros E Hc He Hk. unfold pbind. rewrite (M_bind_Ok _ _ _ _ _ E). destruct r as [a| |]; [|exists Exited, s1; auto|done].
  destruct Hc as [G HQ]. by apply Hk.
Qed.

Lemma grown_checked {A} s s1 s2 (r : ending A) Q : grown s s1 -> checked s1 s2 r Q -> checked s s2 r Q.
Proof. intros G H. destruct r; [|by eapply grown_served|done]. destruct H as [G2 H]. split; [by eapply grown_trans|done]. Qed.

Lemma touch_loop_ok n : forall page last s, sys_ok s -> page mod 4096 = 0 -> last mod 4096 = 0 -> 0 <= page -> last < PHYS_BASE -> last - page < 4096 * Z.of_nat n ->
  exists r s', touch_loop n page last s = Ok (r, s') /\ checked s s' r (fun _ m => forall a, page <= a < last + 4096 -> is_Some (m !! a)).
Proof.
  induction n as [|n IH]; intros page last s V Hp Hl H0 Hb Hn; cbn [touch_loop].
  - rewrite (proj2 (Z.leb_gt _ _)) by lia. exists (Return tt), s. split; [done|]. split; [by apply grown_refl|]. intros a Ha.
    pose proof (Z.div_mod page 4096). pose proof (Z.div_mod last 4096). lia.
  - destruct (page <=? last) eqn:Hle; [apply Z.leb_le in Hle|apply Z.leb_gt in Hle].
    2:{ exists (Return tt), s. split; [done|]. split; [by apply grown_refl|]. intros a Ha. pose proof (Z.div_mod page 4096). pose proof (Z.div_mod last 4096). lia. }
    destruct (touch_ptr_ok page s V Hp ltac:(lia)) as (r1 & s1 & E1 & C1).
    eapply checked_bind; [exact E1|exact C1|done|]. intros [] s' G Hpg. destruct (grown_ok _ _ G V) as [V' O'].
    change PGSIZE with 4096. change PHYS_BASE with (786432 * 4096) in *.
    assert (Hp' : (page + 4096) mod 4096 = 0) by (rewrite Zplus_mod, Hp; done).
    rewrite u32_small by (unfold is_u32; lia).
    destruct (IH (page + 4096) last s' V' Hp' Hl ltac:(lia) ltac:(lia) ltac:(lia)) as (r & s2 & E & H). exists r, s2. split; [done|].
    destruct r; [|by eapply grown_served|done]. destruct H as [G2 H]. split; [by eapply grown_trans|]. intros b Hb'.
    destruct (decide (page + 4096 <= b)); [apply H; lia|]. apply (um_pages _ (gr_ok _ _ G2) page b); [|symmetry; apply page_of; [done|lia]].
    destruct Hpg as [x Hx]. exists x. by eapply lookup_weaken; [|apply G2].
Qed.

Lemma validate_ptr_ok ptr len s : sys_ok s -> is_u32 ptr ->
  exists r s', validate_ptr ptr len s = Ok (r, s') /\
    checked s s' r (fun _ m => let e := u32 (ptr + len - 1) in ptr < PHYS_BASE /\ e < PHYS_BASE /\ forall a, pg_round_down ptr <= a < pg_round_down e + 4096 -> is_Some (m !! a)).
Proof.
  intros V Hp. unfold validate_ptr, is_user_vaddr. assert (Hn : Z.of_nat (Z.to_nat (PHYS_BASE / PGSIZE)) = 786432) by (by rewrite Z2Nat.id). set (n := Z.to_nat _) in *. clearbody n.
  set (e := u32 (ptr + len - 1)). assert (He : is_u32 e) by apply u32_range.
  destruct (ptr <? PHYS_BASE) eqn:E1; [apply Z.ltb_lt in E1|]; [destruct (e <? PHYS_BASE) eqn:E2; [apply Z.ltb_lt in E2|]|].
  2,3: destruct (cleanup_ok (A := unit) (-1) s V ltac:(done)) as (s' & E' & H & _); exists Exited, s'; split; [|done]; unfold pbind; cbn [negb orb]; by rewrite (M_bind_Ok _ _ _ _ _ E').
  cbn [negb orb]. rewrite (pbind_ok (pret tt) _ s tt s) by done.
  destruct (touch_loop_ok n (pg_round_down ptr) (pg_round_down e) s V) as (r & s' & E & H).
  - by apply pg_round_down_aligned.
  - by apply pg_round_down_aligned.
  - apply pg_round_down_range in Hp. apply Hp.
  - rewrite pg_round_down_sub by done. pose proof (Z.mod_pos_bound e 4096). lia.
  - apply pg_round_down_range in Hp. rewrite Hn. rewrite (pg_round_down_sub e) by done. pose proof (Z.mod_pos_bound e 4096). unfold is_u32 in Hp. change PHYS_BASE with 3221225472 in *. lia.
  - exists r, s'. split; [exact E|]. destruct r; try done. by destruct H.
Qed.

Lemma load32_ok m p : umem_ok m -> (forall a, p <= a < p + 4 -> is_Some (m !! a)) -> exists w, load32 m p = Ok w /\ is_u32 w.
Proof.
  intros U H. destruct (H p ltac:(lia)) as [b0 H0], (H (p + 1) ltac:(lia)) as [b1 H1], (H (p + 2) ltac:(lia)) as [b2 H2], (H (p + 3) ltac:(lia)) as [b3 H3].
  eexists. unfold load32. rewrite (load_at _ _ _ H0). simpl. rewrite (load_at _ _ _ H1). simpl. rewrite (load_at _ _ _ H2). simpl. rewrite (load_at _ _ _ H3). split; [reflexivity|].
  apply (um_bytes _ U) in H0 as [H0 _], H1 as [H1 _], H2 as [H2 _], H3 as [H3 _]. unfold is_u8, is_u32 in *. lia.
Qed.

(** A buffer that does not run past the end of the address space is there when it has been checked. *)
Lemma checked_buffer m ptr len : is_u32 ptr -> ptr < PHYS_BASE -> 0 < len -> ptr + len <= 2 ^ 32 ->
  (forall a, pg_round_down ptr <= a < pg_round_down (u32 (ptr + len - 1)) + 4096 -> is_Some (m !! a)) -> mapped m ptr len.
Proof.
  intros Hp Hb Hl Hw H a Ha. rewrite u32_small in H by (unfold is_u32 in *; lia). apply H.
  rewrite !pg_round_down_sub by (unfold is_u32 in *; lia). pose proof (Z.mod_pos_bound ptr 4096). pose proof (Z.mod_pos_bound (ptr + len - 1) 4096). lia.
Qed.

Lemma get_user_ok p s : sys_ok s -> is_u32 p -> exists r s', get_user p s = Ok (r, s') /\ checked s s' r (fun w _ => is_u32 w).
Proof.
  intros V Hp. unfold get_user. destruct (validate_ptr_ok p 4 s V Hp) as (r1 & s1 & E & C). eapply checked_bind; [exact E|exact C|done|].
  intros [] s' G (Hb & _ & Hm). destruct (load32_ok (umem s') p (gr_ok _ _ G)) as (w & Ew & Hw).
  { apply (checked_buffer _ p 4); try done; try lia. change PHYS_BASE with 3221225472 in *. lia. }
  exists (Return w), s'. split; [unfold proc; rewrite (M_bind_Ok _ _ s' w s'); [done|]; by rewrite Ew|]. done.
Qed.

(** The arguments of a call have the types of their parameters. *)
Definition typed_args (c : call) : Prop :=
  match c with
  | SYS_HALT | SYS_INVALID => True
  | SYS_EXIT n | SYS_WAIT n | SYS_FILESIZE n | SYS_TELL n | SYS_CLOSE n | SYS_MUNMAP n => is_s32 n
  | SYS_EXEC a | SYS_REMOVE a | SYS_OPEN a => is_u32 a
  | SYS_CREATE a n => is_u32 a /\ is_u32 n
  | SYS_READ n a z | SYS_WRITE n a z => is_s32 n /\ is_u32 a /\ is_u32 z
  | SYS_SEEK n a | SYS_MMAP n a => is_s32 n /\ is_u32 a
  end.

Lemma get_args_ok {A} (p : Z) (k : Z -> P A) s Q : sys_ok s ->
  (forall w s', is_u32 w -> sys_ok s' -> exists r s'', k w s' = Ok (r, s'') /\ checked s' s'' r Q) ->
  exists r s'', pbind (get_user (u32 p)) k s = Ok (r, s'') /\ checked s s'' r Q.
Proof.
  intros V Hk. destruct (get_user_ok (u32 p) s V (u32_range p)) as (r1 & s1 & E & C). eapply checked_bind; [exact E|exact C|done|].
  intros w s' G Hw. destruct (Hk w s' Hw (proj1 (grown_ok _ _ G V))) as (r & s2 & E2 & C2). exists r, s2. split; [done|]. by eapply grown_checked.
Qed.

Lemma get_call_ok esp s : sys_ok s -> is_u32 esp -> exists r s', get_call esp s = Ok (r, s') /\ checked s s' r (fun c _ => typed_args c).
Proof.
  intros V He. unfold get_call. destruct (validate_ptr_ok esp 4 s V He) as (r1 & s1 & E & C). eapply checked_bind; [exact E|exact C|done|].
  intros [] s2 G (Hb & _ & Hm). destruct (grown_ok _ _ G V) as [V2 _].
  rewrite (pbind_ok (proc (modify (set_esp esp))) _ s2 tt (set_esp esp s2)) by done. set (s3 := set_esp esp s2).
  assert (V3 : sys_ok s3) by (destruct V2; by split). assert (G3 : grown s s3).
  { eapply grown_trans; [exact G|]. split; [exists (umem s2), (page_ins s2), esp; by destruct s2|done|apply G]. }
  destruct (load32_ok (umem s3) esp (gr_ok _ _ G3)) as (w & Ew & Hw).
  { apply (checked_buffer _ esp 4); try done; try lia. change PHYS_BASE with 3221225472 in *. lia. }
  rewrite (pbind_ok _ _ s3 w s3) by (unfold proc; rewrite (M_bind_Ok _ _ s3 w s3); [done|]; by rewrite Ew).
  assert (Hpure : forall c s', sys_ok s' -> typed_args c -> exists r s'', pret c s' = Ok (r, s'') /\ checked s' s'' r (fun c _ => typed_args c)).
  { intros c s' V' Hc. exists (Return c), s'. split; [done|]. split; [by apply grown_refl|done]. }
  match goal with |- exists r s', ?X s3 = _ /\ _ => assert (Hx : exists r s', X s3 = Ok (r, s') /\ checked s3 s' r (fun c _ => typed_args c)) end.
  2:{ destruct Hx as (r & s' & Er & Cr). exists r, s'. split; [done|]. by eapply grown_checked. }
  pose proof s32_range as Hs.
  destruct w as [|w|w]; [apply Hpure; done| |apply Hpure; done].
  repeat (match goal with |- context [match w with _ => _ end] => destruct w as [w|w|] end); try (apply Hpure; [done|done]);
    repeat (refine (get_args_ok _ _ _ (fun c _ => typed_args c) _ _); [assumption|intros]); apply Hpure; simpl; auto.
Qed.

(** ** Every call keeps the invariant *)

Definition good {A} (m : P A) (s : sys) : Prop := exists r s', m s = Ok (r, s') /\ served s r s'.

Lemma good_return {A} (m : M sys A) s a s' : m s = Ok (a, s') -> sys_ok s' -> others s' = others s -> good (proc m) s.
Proof. intros E V O. exists (Return a), s'. unfold proc. by rewrite (M_bind_Ok _ _ _ _ _ E). Qed.

Lemma good_validate {A} p len (k : unit -> P A) s : sys_ok s -> is_u32 p ->
  (forall s', validate_ptr p len s = Ok (Return tt, s') -> grown s s' -> sys_ok s' -> p < PHYS_BASE ->
    (forall a, pg_round_down p <= a < pg_round_down (u32 (p + len - 1)) + 4096 -> is_Some (umem s' !! a)) -> good (k tt) s') ->
  good (pbind (validate_ptr p len) k) s.
Proof.
  intros V Hp Hk. destruct (validate_ptr_ok p len s V Hp) as (r & s1 & E & C). unfold good, pbind. rewrite (M_bind_Ok _ _ _ _ _ E).
  destruct r as [[]| |]; [|by exists Exited, s1|done]. destruct C as [G (H1 & _ & H3)]. destruct (grown_ok _ _ G V) as [V1 _].
  destruct (Hk s1 E G V1 H1 H3) as (r & s2 & E2 & H). exists r, s2. split; [done|]. by eapply grown_served.
Qed.

(** Work on the file system that opens and closes nothing. *)
Lemma sys_ok_fs s k : sys_ok s -> fs_ok k -> same_open (kfs s) k -> sys_ok (set_kfs k s) /\ others (set_kfs k s) = others s.
Proof.
  intros V F S. split; [|unfold others; simpl; by rewrite (proj2 S)]. destruct V. split; try done.
  destruct ok_open0 as [Nd Fu]. split; [done|]. eapply Forall_impl; [exact Fu|]. intros f. by apply same_open_user.
Qed.

Lemma set_lock_kfs s k : file_lock s = false -> set_lock false (set_kfs k (set_lock true s)) = set_kfs k s.
Proof. destruct s. simpl. by intros ->. Qed.

(** A call into the file system with its lock. *)
Lemma locked_ok {A C} (m : M fs A) (g : A -> C) s a k : sys_ok s -> m (kfs s) = Ok (a, k) ->
  (do* filesys_lock_acquire ; let* x := on_fs m in do* filesys_lock_release ; mret (g x)) s = Ok (g a, set_kfs k s).
Proof.
  intros V E. rewrite (M_bind_Ok _ _ _ _ _ (filesys_acquire_ok s (ok_lock _ V))). rewrite (M_bind_Ok _ _ _ a (set_kfs k (set_lock true s))) by (by apply on_fs_ok).
  rewrite (M_bind_Ok _ _ _ _ _ (filesys_release_ok (set_kfs k (set_lock true s)) eq_refl)). by rewrite set_lock_kfs by apply V.
Qed.

Lemma find_handle_Some n l h : find_handle n l = Some h -> h ∈ l /\ fd h = n.
Proof. induction l as [|x l IH]; simpl; [done|]. destruct (Z.eqb_spec (fd x) n); [intros [= <-]; split; [left|done]|intros H; destruct (IH H); split; [by right|done]]. Qed.

Lemma fd_to_file_ok n s : sys_ok s -> exists o, fd_to_file n s = Ok (o, s) /\
  match o with Some f => 1 <= n /\ user_file (kfs s) f /\ exists h, find_handle n (fd_table s) = Some h /\ h_file h = f | None => n < 1 \/ find_handle n (fd_table s) = None end.
Proof.
  intros V. unfold fd_to_file, lookup_handle_by_fd. destruct (Z.ltb_spec n 1) as [H|H]; [exists None; auto|].
  exists (h_file <$> find_handle n (fd_table s)). split; [done|]. destruct (find_handle n (fd_table s)) as [h|] eqn:E; simpl; [|auto]. split; [done|]. split; [|by exists h].
  apply find_handle_Some in E as [Hin _]. destruct (ok_open _ V) as [_ Fu]. rewrite Forall_forall in Fu. apply Fu. unfold open_files. apply elem_of_app. right.
  apply list_elem_of_fmap. by exists h.
Qed.

Lemma good_pret {A} (a : A) s : sys_ok s -> good (pret a) s.
Proof. intros V. by exists (Return a), s. Qed.

Lemma locked_unit (m : M fs unit) s k : sys_ok s -> m (kfs s) = Ok (tt, k) -> (do* filesys_lock_acquire ; do* on_fs m ; filesys_lock_release) s = Ok (tt, set_kfs k s).
Proof.
  intros V E. rewrite (M_bind_Ok _ _ _ _ _ (filesys_acquire_ok s (ok_lock _ V))). rewrite (M_bind_Ok _ _ _ tt (set_kfs k (set_lock true s))) by (by apply on_fs_ok).
  rewrite filesys_release_ok by done. by rewrite set_lock_kfs by apply V.
Qed.

(** The call is for an open file, or it does nothing. *)
Lemma good_fd {A} n (k : option Z -> M sys A) s : sys_ok s ->
  (forall f h, 1 <= n -> user_file (kfs s) f -> find_handle n (fd_table s) = Some h -> h_file h = f -> exists a s', k (Some f) s = Ok (a, s') /\ sys_ok s' /\ others s' = others s) ->
  (n < 1 \/ find_handle n (fd_table s) = None -> exists a s', k None s = Ok (a, s') /\ sys_ok s' /\ others s' = others s) -> good (proc (let* file := fd_to_file n in k file)) s.
Proof.
  intros V Hs Hn. destruct (fd_to_file_ok n s V) as (o & E & H). assert (X : exists a s', (let* file := fd_to_file n in k file) s = Ok (a, s') /\ sys_ok s' /\ others s' = others s).
  { rewrite (M_bind_Ok _ _ _ _ _ E). destruct o as [f|]; [|by apply Hn]. destruct H as (H1 & H2 & h & H3 & H4). by apply (Hs f h). }
  destruct X as (a & s' & Ea & V' & O'). by eapply good_return.
Qed.

Lemma good_filesize n s : sys_ok s -> (1 <= n -> is_Some (find_handle n (fd_table s))) -> good (sys_filesize n) s.
Proof.
  intros V Hn. unfold sys_filesize. destruct (Z.ltb_spec n 1); [by apply good_pret|]. apply good_fd; [done| |].
  - intros f h _ Hu _ _. destruct (fs_length_ok (kfs s) f (ok_fs _ V) Hu) as (m & E & _). exists m, (set_kfs (kfs s) s).
    split; [by apply (locked_ok _ id)|]. by apply sys_ok_fs; [|apply V|].
  - intros [?|Hf]; [lia|]. destruct (Hn ltac:(lia)) as [? ?]. congruence.
Qed.

Lemma good_tell n s : sys_ok s -> good (sys_tell n) s.
Proof.
  intros V. unfold sys_tell. destruct (Z.ltb_spec n 1); [by apply good_pret|]. apply good_fd; [done| |intros _; by eexists _, s].
  intros f h _ Hu _ _. destruct (fs_tell_ok (kfs s) f (ok_fs _ V) Hu) as (m & E & _). exists (Some (u32 m)), (set_kfs (kfs s) s).
  split; [by apply (locked_ok _ (fun x => Some (u32 x)))|]. by apply sys_ok_fs; [|apply V|].
Qed.

Lemma good_seek n p s : sys_ok s -> is_u32 p -> (is_Some (find_handle n (fd_table s)) -> p < 2 ^ 31) -> good (sys_seek n p) s.
Proof.
  intros V Hp Hs. unfold sys_seek. destruct (Z.ltb_spec n 1); [by apply good_pret|]. apply good_fd; [done| |intros _; by eexists _, s].
  intros f h _ [[fl Hf] Hm] Hh _. specialize (Hs ltac:(by eexists)). destruct (ok_fs _ V) as (ss & bs & tbl & rd & S).
  destruct (fs_seek_ok (kfs s) ss bs tbl rd f fl p S Hf) as (k & E & S' & Mv & _); [unfold is_u32 in Hp; lia|].
  exists tt, (set_kfs k s). split; [rewrite s32_small by (unfold is_s32, is_u32 in *; lia); by apply locked_unit|].
  apply sys_ok_fs; [done|by eexists _, _, _, _|by eapply moved_same_open].
Qed.

Lemma remove_handle_perm n l h : find_handle n l = Some h -> l ≡ₚ h :: remove_handle n l.
Proof.
  induction l as [|x l IH]; simpl; [done|]. destruct (Z.eqb_spec (fd x) n); [by intros [= <-]|]. intros H. rewrite (IH H) at 1. constructor.
Qed.

Lemma good_close n s : sys_ok s -> good (sys_close n) s.
Proof.
  intros V. unfold sys_close. destruct (Z.ltb_spec n 1); [by apply good_pret|]. apply good_fd; [done| |intros _; by eexists _, s].
  intros f h _ _ Hh <-. pose proof (remove_handle_perm _ _ _ Hh) as Hp. set (l := remove_handle n (fd_table s)) in *.
  assert (Ho : open_files s ≡ₚ h_file h :: (option_list (executable s) ++ (h_file <$> l))) by (unfold open_files; rewrite Hp; simpl; by rewrite Permutation_middle).
  destruct (close_open (kfs s) (h_file h) _ _ (ok_fs _ V) (ok_open _ V) Ho) as (k' & E & V' & O' & Eo).
  eexists tt, _. split; [|split].
  - rewrite (M_bind_Ok _ _ _ _ _ (filesys_acquire_ok s (ok_lock _ V))). rewrite (M_bind_Ok _ _ _ tt (set_kfs k' (set_lock true s))) by (by apply on_fs_ok).
    rewrite (M_bind_Ok _ _ _ _ _ (filesys_release_ok (set_kfs k' (set_lock true s)) eq_refl)), set_lock_kfs by apply V.
    rewrite (M_bind_Ok _ _ _ (Some h) (set_kfs k' s)) by (unfold lookup_handle_by_fd; rewrite (M_bind_Ok _ _ _ (fd_table s) (set_kfs k' s)) by done; by rewrite Hh). reflexivity.
  - destruct V. rewrite Hp in ok_fds0, ok_range0. split; try done; simpl; fold l; [by apply NoDup_cons in ok_fds0 as [_ ?]|by apply Forall_cons in ok_range0 as [_ ?]].
  - exact Eo.
Qed.

(** *** Names *)

Lemma string_at_ok m s : forall n p, cstr m p s -> (length s < n)%nat -> string_at n m p = Some s.
Proof.
  induction s as [|c s IH]; intros [|n] p Hc Hn; simpl in *; try lia.
  - apply cstr_nil in Hc. by rewrite Hc.
  - apply cstr_cons in Hc as (H1 & H2 & H3). rewrite H1. destruct (Z.eqb_spec c 0); [unfold is_char in H2; lia|]. by rewrite IH by (done || lia).
Qed.

Lemma user_string_ok s p l : cstr (umem s) p l -> user_string p s = Ok (l, s).
Proof. intros Hc. unfold user_string. rewrite (string_at_ok _ l); [done|done|]. pose proof (cstr_size _ _ _ Hc). unfold fuel. lia. Qed.

(** When the pointer is good there is a string at it. *)
Definition names (s : sys) (p : Z) : Prop := forall s', validate_ptr p 4 s = Ok (Return tt, s') -> exists l, cstr (umem s') p l.

Lemma named_ok {A C} (m : list Z -> M fs A) (g : A -> C) s p l a k : sys_ok s -> cstr (umem s) p l -> m l (kfs s) = Ok (a, k) ->
  (do* filesys_lock_acquire ; let* x := user_string p in let* y := on_fs (m x) in do* filesys_lock_release ; mret (g y)) s = Ok (g a, set_kfs k s).
Proof.
  intros V Hc E. rewrite (M_bind_Ok _ _ _ _ _ (filesys_acquire_ok s (ok_lock _ V))). rewrite (M_bind_Ok _ _ _ _ _ (user_string_ok (set_lock true s) p l Hc)).
  rewrite (M_bind_Ok _ _ _ a (set_kfs k (set_lock true s))) by (by apply on_fs_ok).
  rewrite (M_bind_Ok _ _ _ _ _ (filesys_release_ok (set_kfs k (set_lock true s)) eq_refl)). by rewrite set_lock_kfs by apply V.
Qed.

Lemma good_null {A} p (m : P A) s : sys_ok s -> good m s -> good (do! (if p =? 0 then sys_exit (-1) else pret tt) ; m) s.
Proof.
  intros V (r & s' & E & H). destruct (p =? 0); [|exists r, s'; by rewrite (pbind_ok (pret tt) _ s tt s)].
  destruct (cleanup_ok (A := unit) (-1) s V ltac:(done)) as (s2 & E2 & H2 & _).
  exists Exited, s2. unfold pbind, sys_exit. by rewrite (M_bind_Ok _ _ _ _ _ E2).
Qed.

(** What the file system needs of memory is not changed by a check. *)
Lemma grown_kfs s s' : grown s s' -> kfs s' = kfs s /\ next_fd s' = next_fd s /\ fd_table s' = fd_table s /\ readonly s' = readonly s.
Proof. by intros [(m & p & e & ->) _ _]. Qed.

Section named.
Context (junk_length : length junk = 20%nat) (junk_u8 : Forall is_u8 junk) (junk_length' : length junk' = 20%nat).

Lemma good_create p n s : sys_ok s -> is_u32 p -> 0 <= n < 2 ^ 31 -> names s p -> resources (kfs s) -> good (sys_create p n) s.
Proof.
  intros V Hp Hn Hs Hr. apply good_validate; [done|done|]. intros s1 E G V1 _ _. apply good_null; [done|]. destruct (Hs s1 E) as [l Hl].
  destruct (grown_kfs _ _ G) as [Ek _]. rewrite <- Ek in Hr.
  destruct (fs_create_ok (kfs s1) l n junk junk' (ok_fs _ V1) Hr (proj2 Hl) junk_length junk_u8 junk_length' Hn) as (ok & k & Ec & F & Em & Ef).
  eapply good_return; [rewrite s32_small by (unfold is_s32; lia); by apply (named_ok (fun x => filesys_create x n junk junk') id s1 p l ok k)| |].
  all: apply sys_ok_fs; [done|done|]; split; [done|by rewrite Ef].
Qed.

Lemma good_remove p s : sys_ok s -> is_u32 p -> names s p -> resources (kfs s) -> good (sys_remove p) s.
Proof.
  intros V Hp Hs Hr. apply good_validate; [done|done|]. intros s1 E G V1 _ _. destruct (Hs s1 E) as [l Hl]. destruct (grown_kfs _ _ G) as [Ek _]. rewrite <- Ek in Hr.
  destruct (fs_remove_ok (kfs s1) l junk (ok_fs _ V1) Hr (proj2 Hl) junk_length) as (ok & k & Ec & F & Em & Ef).
  eapply good_return; [by apply (named_ok (fun x => filesys_remove x junk) id s1 p l ok k)| |].
  all: apply sys_ok_fs; [done|done|]; split; [done|by rewrite Ef].
Qed.

Lemma opened_ok s k f n mallocs : sys_ok s -> fs_ok k -> free_map_file k = free_map_file (kfs s) -> files (kfs s) !! f = None -> dom (files k) = {[ f ]} ∪ dom (files (kfs s)) ->
  free_map_file (kfs s) <> Some f -> n = next_fd s -> n + 1 < 2 ^ 31 ->
  let s' := set_fds (fd_table s ++ [Handle n f]) (n + 1) mallocs (set_kfs k s) in sys_ok s' /\ others s' = others s.
Proof.
  intros V F Em Hf Ed Hm -> Hn s'. destruct (ok_open _ V) as [Nd Fu]. rewrite Forall_forall in Fu.
  assert (Ho : open_files s' = open_files s ++ [f]) by (unfold open_files; simpl; by rewrite fmap_app, app_assoc).
  assert (Hni : f ∉ open_files s) by (intros Hin; destruct (Fu f Hin) as [[? ?] _]; congruence). split.
  - destruct V. split; try done; simpl.
    + rewrite fmap_app. apply NoDup_app. split; [done|]. split; [|apply NoDup_singleton]. intros x (h & -> & Hh)%list_elem_of_fmap Hx. apply list_elem_of_singleton in Hx. simpl in Hx.
      rewrite Forall_forall in ok_range0. specialize (ok_range0 h Hh). lia.
    + apply Forall_app. split; [eapply Forall_impl; [exact ok_range0|simpl; lia]|]. apply Forall_singleton. simpl. lia.
    + lia.
    + rewrite Ho. split; [apply NoDup_app; split; [done|split; [|apply NoDup_singleton]]; intros x Hx ->%list_elem_of_singleton; done|].
      apply Forall_app. split; [|apply Forall_singleton; split; [rewrite <- elem_of_dom, Ed; set_solver|by rewrite Em]].
      apply Forall_forall. intros g Hg. destruct (Fu g Hg) as [H1 H2]. split; [rewrite <- elem_of_dom, Ed; apply elem_of_dom in H1; set_solver|by rewrite Em].
  - unfold others. rewrite Ho, list_to_set_app_L. simpl. rewrite Ed. apply not_elem_of_dom in Hf. set_solver.
Qed.

Lemma good_open p s : sys_ok s -> is_u32 p -> names s p -> resources (kfs s) -> next_fd s + 1 < 2 ^ 31 -> good (sys_open p) s.
Proof.
  intros V Hp Hs Hr Hn. apply good_validate; [done|done|]. intros s1 E G V1 _ _. apply good_null; [done|]. destruct (Hs s1 E) as [l Hl].
  destruct (grown_kfs _ _ G) as (Ek & En & _). rewrite <- Ek in Hr. rewrite <- En in Hn.
  destruct (fs_open_ok (kfs s1) l junk (ok_fs _ V1) Hr (proj2 Hl) junk_length) as (r & k & Eo & F & Em & H).
  set (rest := fun f : option Z => match f with None => mret (-1) | Some q => let* fh := malloc_handle in
    if negb fh then do* filesys_lock_acquire ; do* on_fs (file_close f) ; do* filesys_lock_release ; mret (-1)
    else let* n := gets next_fd in do* modify (fun s => set_fds (fd_table s ++ [Handle n q]) (s32 (n + 1)) (handle_mallocs s) s) ; mret n end).
  assert (X : exists a s', rest r (set_kfs k s1) = Ok (a, s') /\ sys_ok s' /\ others s' = others s1).
  { destruct r as [f|]; cycle 1.
    { exists (-1), (set_kfs k s1). split; [done|]. apply sys_ok_fs; [done|done|]. split; [done|by rewrite H]. }
    destruct H as (Hf & Ed & Hm). unfold rest. set (s2 := set_kfs k s1). set (s3 := set_fds (fd_table s2) (next_fd s2) (tail (handle_mallocs s2)) s2).
    rewrite (M_bind_Ok _ _ s2 (default false (head (handle_mallocs s2))) s3) by done.
    destruct (default false (head (handle_mallocs s2))); cbn [negb]; cbv iota.
    - rewrite (M_bind_Ok _ _ s3 (next_fd s3) s3) by done. rewrite M_bind_modify. eexists _, _. split; [reflexivity|].
      rewrite s32_small by (pose proof (ok_next _ V1); unfold is_s32; simpl; lia). by apply (opened_ok s1 k f (next_fd s1)).
    - destruct (fs_close_ok k f F) as (k' & Ec & F' & Em' & Ef'); [split; [rewrite <- elem_of_dom, Ed; set_solver|by rewrite Em]|].
      exists (-1), (set_kfs k' s3). rewrite (M_bind_Ok _ _ _ _ _ (filesys_acquire_ok s3 (ok_lock _ V1))). rewrite (M_bind_Ok _ _ _ tt (set_kfs k' (set_lock true s3))) by (by apply on_fs_ok).
      rewrite (M_bind_Ok _ _ _ _ _ (filesys_release_ok (set_kfs k' (set_lock true s3)) eq_refl)), set_lock_kfs by apply V1. split; [done|].
      destruct (sys_ok_fs s1 k' V1 F') as [V' O']; [split; [congruence|]; rewrite Ef', dom_delete_L, Ed; apply not_elem_of_dom in Hf; set_solver|].
      split; [destruct V'; by split|exact O']. }
  destruct X as (a & s' & Ea & V' & O'). eapply good_return; [|exact V'|exact O'].
  rewrite (M_bind_Ok _ _ _ _ _ (filesys_acquire_ok s1 (ok_lock _ V1))). rewrite (M_bind_Ok _ _ _ _ _ (user_string_ok (set_lock true s1) p l Hl)).
  rewrite (M_bind_Ok _ _ _ r (set_kfs k (set_lock true s1))) by (by apply on_fs_ok).
  rewrite (M_bind_Ok _ _ _ _ _ (filesys_release_ok (set_kfs k (set_lock true s1)) eq_refl)), set_lock_kfs by apply V1. exact Ea.
Qed.

End named.

(** *** Buffers *)

Lemma length_buffer_at m p n : length (buffer_at m p n) = n.
Proof. unfold buffer_at. rewrite length_fmap, length_seqZ. lia. Qed.

Lemma lookup_buffer_at m p n i : (i < n)%nat -> buffer_at m p n !! i = Some (default 0 (m !! u32 (p + Z.of_nat i))).
Proof. intros H. unfold buffer_at. rewrite list_lookup_fmap. rewrite (lookup_seqZ_lt 0 (Z.of_nat n)) by lia. simpl. by rewrite Z.add_0_l. Qed.

Lemma buffer_at_u8 m p n : umem_ok m -> Forall is_u8 (buffer_at m p n).
Proof.
  intros U. apply Forall_lookup. intros i x Hx. pose proof (lookup_lt_Some _ _ _ Hx) as Hi. rewrite length_buffer_at in Hi. rewrite lookup_buffer_at in Hx by done.
  injection Hx as <-. destruct (m !! u32 (p + Z.of_nat i)) as [x|] eqn:E; [by apply (um_bytes _ U) in E as [? _]|done].
Qed.

Lemma umem_end m p n : umem_ok m -> mapped m p n -> 0 < n -> 0 <= p /\ p + n <= PHYS_BASE.
Proof.
  intros U Hm Hn. destruct (Hm p ltac:(lia)) as [x Hx], (Hm (p + n - 1) ltac:(lia)) as [y Hy]. apply (um_bytes _ U) in Hx as [_ Hx], Hy as [_ Hy]. lia.
Qed.

Lemma buffer_bytes m p n : umem_ok m -> mapped m p (Z.of_nat n) -> bytes_at m p (buffer_at m p n).
Proof.
  intros U Hm i x Hi. pose proof (lookup_lt_Some _ _ _ Hi) as Hl. rewrite length_buffer_at in Hl. rewrite lookup_buffer_at in Hi by done. injection Hi as <-.
  destruct (umem_end m p (Z.of_nat n) U Hm ltac:(lia)) as [H0 H1]. change PHYS_BASE with 3221225472 in H1. rewrite u32_small by (unfold is_u32; lia).
  by destruct (Hm (p + Z.of_nat i) ltac:(lia)) as [x ->].
Qed.

Lemma umem_put m p l : umem_ok m -> mapped m p (Z.of_nat (length l)) -> Forall is_u8 l -> umem_ok (put p l m).
Proof.
  intros U Hm Fl. split.
  - intros a x. rewrite lookup_put. destruct (decide _) as [Ha|Ha]; [|apply U]. intros Hx. split; [by eapply Forall_lookup_1|].
    destruct (Hm a Ha) as [y Hy]. by apply (um_bytes _ U) in Hy as [_ ?].
  - intros a b [x Ha] Hab. apply put_mapped. apply (um_pages _ U a b); [|done]. rewrite lookup_put in Ha. destruct (decide _) as [Hr|Hr]; [by apply Hm|by exists x].
Qed.

Definition writable (s : sys) (p n : Z) : Prop := forall a, p <= a < p + n -> pg_round_down a ∉ readonly s.

Lemma user_put_ok l : forall p s, umem_ok (umem s) -> mapped (umem s) p (Z.of_nat (length l)) -> writable s p (Z.of_nat (length l)) -> Forall is_u8 l ->
  user_put p l s = Ok (tt, set_umem (put p l (umem s)) (page_ins s) s).
Proof.
  induction l as [|x l IH]; intros p s U Hm Hw Fl; cbn [user_put length] in *; [by destruct s|].
  apply Forall_cons in Fl as [Hx Fl]. destruct (umem_end _ _ _ U Hm ltac:(lia)) as [H0 H1]. change PHYS_BASE with 3221225472 in H1.
  rewrite (M_bind_Ok _ _ s s s) by done. rewrite bool_decide_true by (apply Hm; lia). rewrite bool_decide_false by (apply Hw; lia).
  unfold is_user_vaddr. rewrite (proj2 (Z.ltb_lt _ _)) by (change PHYS_BASE with 3221225472; lia). cbn [negb andb]. rewrite M_bind_modify.
  set (s1 := set_umem _ _ s).
  assert (U1 : umem_ok (umem s1)).
  { apply (umem_put (umem s) p [x] U); [intros a Ha; apply Hm; simpl in Ha; lia|by constructor]. }
  destruct l as [|y l']; [simpl; by destruct s|]. remember (y :: l') as l eqn:El.
  assert (0 < Z.of_nat (length l)) by (rewrite El; simpl; lia).
  rewrite u32_small by (unfold is_u32; lia). rewrite IH; [|done| |intros a Ha; apply Hw; lia|done].
  - simpl. rewrite put_insert by lia. by destruct s.
  - intros a Ha. simpl. apply insert_mapped, Hm. lia.
Qed.

Lemma user_get_ok n p s : umem_ok (umem s) -> mapped (umem s) p (Z.of_nat n) -> exists l, user_get p n s = Ok (l, s).
Proof.
  intros U Hm. exists (buffer_at (umem s) p n). unfold user_get. rewrite !(proj2 (forallb_forall _ _)); [done| |].
  all: intros i Hi%list_elem_of_In%elem_of_seqZ; destruct (umem_end _ _ _ U Hm ltac:(lia)) as [H0 H1]; change PHYS_BASE with 3221225472 in H1;
    rewrite u32_small by (unfold is_u32; lia).
  - apply bool_decide_true. apply Hm. lia.
  - apply Z.ltb_lt. change PHYS_BASE with 3221225472. lia.
Qed.

(** *** Reading and writing files *)

Definition write_file (f buffer z : Z) : M sys Z :=
  do* filesys_lock_acquire ;
  let* m := gets umem in
  let* bytes_written := on_fs (file_write (Some f) (buffer_at m buffer (Z.to_nat z)) z) in
  let* _ := user_get buffer (Z.to_nat bytes_written) in
  do* filesys_lock_release ;
  mret bytes_written.

Lemma write_file_ok s ss bs tbl rd f fl i buffer z : sys_ok s -> fs_state (kfs s) ss bs tbl rd -> files (kfs s) !! f = Some fl -> free_map_file (kfs s) <> Some f ->
  inodes (kfs s) !! f_inode fl = Some i -> (0 < z -> mapped (umem s) buffer z) ->
  exists n k ss', write_file f buffer z s = Ok (n, set_kfs k s) /\ fs_state k ss' bs tbl rd /\ moved (kfs s) f fl n k /\
    content ss' (data i) = splice (content ss (data i)) (pos fl) (take (Z.to_nat n) (buffer_at (umem s) buffer (Z.to_nat z))) /\
    (forall sec d, tbl !! sec = Some d -> sec <> sector i -> content ss' d = content ss d) /\
    0 <= n <= avail (data i) z (pos fl) /\ (deny_write_cnt i = 0 -> head (mallocs (kfs s)) = Some true -> n = avail (data i) z (pos fl)) /\ (deny_write_cnt i <> 0 -> n = 0).
Proof.
  intros V S Hf Hm Hi Hb. destruct (user_write_ok (kfs s) ss bs tbl rd f fl i (buffer_at (umem s) buffer (Z.to_nat z)) z S Hf Hm Hi) as (n & k & ss' & E & S' & Mv & Hc & Ho & Hn & H).
  { rewrite length_buffer_at. lia. }
  { apply buffer_at_u8, V. }
  exists n, k, ss'. split; [|done]. unfold write_file. rewrite (M_bind_Ok _ _ _ _ _ (filesys_acquire_ok s (ok_lock _ V))). rewrite (M_bind_Ok _ _ _ (umem s) (set_lock true s)) by done.
  rewrite (M_bind_Ok _ _ _ n (set_kfs k (set_lock true s))) by (by apply on_fs_ok). set (s1 := set_kfs k (set_lock true s)).
  destruct (user_get_ok (Z.to_nat n) buffer s1 (ok_umem _ V)) as [l El].
  { intros a Ha. unfold avail in Hn. apply Hb; lia. }
  rewrite (M_bind_Ok _ _ _ _ _ El), (M_bind_Ok _ _ _ _ _ (filesys_release_ok s1 eq_refl)). subst s1. by rewrite set_lock_kfs by apply V.
Qed.

Definition read_file (f buffer z : Z) : M sys Z :=
  do* filesys_lock_acquire ;
  let* m := gets umem in
  let* r : Z * list Z := on_fs (file_read (Some f) (buffer_at m buffer (Z.to_nat z)) z) in
  do* user_put buffer (take (Z.to_nat r.1) r.2) ;
  do* filesys_lock_release ;
  mret r.1.

Lemma read_file_ok s ss bs tbl rd f fl i buffer z : sys_ok s -> fs_state (kfs s) ss bs tbl rd -> files (kfs s) !! f = Some fl ->
  inodes (kfs s) !! f_inode fl = Some i -> (0 < z -> mapped (umem s) buffer z) -> writable s buffer z ->
  exists n k, let l := take (Z.to_nat n) (drop (Z.to_nat (pos fl)) (content ss (data i))) in
    read_file f buffer z s = Ok (n, set_umem (put buffer l (umem s)) (page_ins s) (set_kfs k s)) /\ length l = Z.to_nat n /\ Forall is_u8 l /\
    fs_state k ss bs tbl rd /\ moved (kfs s) f fl n k /\
    0 <= n <= avail (data i) z (pos fl) /\ (head (mallocs (kfs s)) = Some true -> n = avail (data i) z (pos fl)).
Proof.
  intros V S Hf Hi Hb Hw. destruct (user_read_ok (kfs s) ss bs tbl rd f fl i (buffer_at (umem s) buffer (Z.to_nat z)) z S Hf Hi) as (n & k & E & S' & Mv & Hn & H).
  { rewrite length_buffer_at. lia. }
  exists n, k. intros l. pose proof (f_positions _ _ _ _ _ S f fl Hf) as Hp. pose proof (f_inv _ _ _ _ _ S) as FI. unfold avail in Hn.
  assert (Ll : length l = Z.to_nat n) by (unfold l; rewrite length_take, length_drop, length_content; lia).
  assert (Fl : Forall is_u8 l).
  { apply Forall_take, Forall_drop. apply content_u8; [eapply Block.dev_sectors, (inv_dev _ _ _ _ _ FI)|apply (inv_extent _ _ _ _ _ _ _ FI Hi)]. }
  split; [|done]. unfold read_file. rewrite (M_bind_Ok _ _ _ _ _ (filesys_acquire_ok s (ok_lock _ V))). rewrite (M_bind_Ok _ _ _ (umem s) (set_lock true s)) by done.
  rewrite (M_bind_Ok _ _ _ _ (set_kfs k (set_lock true s))) by (by apply on_fs_ok). cbn [fst snd]. fold l.
  replace (take (Z.to_nat n) (splice _ 0 l)) with l by (unfold splice; simpl; by rewrite <- Ll, take_app_length).
  rewrite (M_bind_Ok _ _ _ _ _ (user_put_ok l buffer (set_kfs k (set_lock true s)) (ok_umem _ V) ltac:(simpl; intros a Ha; apply Hb; lia) ltac:(intros a Ha; apply Hw; lia) Fl)).
  erewrite M_bind_Ok by (by apply filesys_release_ok). pose proof (ok_lock _ V) as HL. clear - HL. destruct s. simpl in *. by rewrite HL.
Qed.

Lemma validated_mapped m p size : is_u32 p -> p < PHYS_BASE -> is_u32 size -> p + size <= 2 ^ 32 ->
  (forall a, pg_round_down p <= a < pg_round_down (u32 (p + s32 size - 1)) + 4096 -> is_Some (m !! a)) -> mapped m p size.
Proof.
  intros Hp Hb Hs Hw H. destruct (Z.eq_dec size 0) as [->|Hn]; [intros a Ha; lia|]. apply checked_buffer; try done; [unfold is_u32 in Hs; lia|].
  replace (u32 (p + size - 1)) with (u32 (p + s32 size - 1)); [done|].
  unfold s32, u32. replace (p + ((size + 2 ^ 31) mod 2 ^ 32 - 2 ^ 31) - 1) with ((size + 2 ^ 31) mod 2 ^ 32 + (p - 2 ^ 31 - 1)) by lia.
  rewrite Zplus_mod_idemp_l. f_equal. lia.
Qed.

Lemma s32_mapped m p size : is_u32 size -> mapped m p size -> 0 < s32 size -> mapped m p (s32 size).
Proof.
  intros Hs Hm Hz. replace (s32 size) with size; [done|]. unfold is_u32 in Hs. destruct (Z.lt_ge_cases size (2 ^ 31)) as [Hl|Hl]; [by rewrite s32_small by (unfold is_s32; lia)|].
  rewrite s32_neg in Hz by lia. lia.
Qed.

Lemma good_write n b z s : sys_ok s -> is_u32 b -> is_u32 z -> b + z <= 2 ^ 32 -> good (sys_write n b z) s.
Proof.
  intros V Hb Hz Hw. unfold sys_write. destruct (n <? 0); [by apply good_pret|]. apply good_validate; [done|done|]. intros s1 _ G V1 Hp Hm.
  apply (validated_mapped (umem s1) b z Hb Hp Hz Hw) in Hm. destruct (n =? 1).
  - pose proof (buffer_bytes (umem s1) b (Z.to_nat z) (ok_umem _ V1) ltac:(rewrite Z2Nat.id by apply Hz; done)) as HB.
    pose proof (Console.putbuf_ok (umem s1) b _ HB) as Hs. rewrite length_buffer_at, Z2Nat.id in Hs by apply Hz.
    set (l := buffer_at (umem s1) b (Z.to_nat z)) in *. apply (good_return _ s1 (s32 z) (set_con (kmem s1) (Console.typed l (con s1)) s1)).
    + rewrite (M_bind_Ok _ _ _ _ _ (filesys_acquire_ok s1 (ok_lock _ V1))). erewrite M_bind_Ok by (unfold on_user_world; simpl; by rewrite (Hs _ (ok_con _ V1))).
      erewrite M_bind_Ok by (by apply filesys_release_ok). pose proof (ok_lock _ V1) as HL. clear - HL. destruct s1. simpl in *. by rewrite HL.
    + destruct V1. split; try done. by apply Console.usable_typed.
    + done.
  - apply good_fd; [done| |intros _; by eexists _, s1]. intros f h _ [[fl Hf] Hfm] _ _. destruct (ok_fs _ V1) as (ss & bs & tbl & rd & S).
    destruct (user_inode _ _ _ _ _ f S) as (fl' & i & Hf' & Hi & _); [by split; [eexists|]|]. assert (fl' = fl) as -> by congruence.
    destruct (write_file_ok s1 ss bs tbl rd f fl i b (s32 z) V1 S Hf Hfm Hi (s32_mapped _ _ _ Hz Hm)) as (w & k & ss' & E & S' & Mv & _).
    exists w, (set_kfs k s1). split; [exact E|]. apply sys_ok_fs; [done|by eexists _, _, _, _|by eapply moved_same_open].
Qed.

Lemma read_keys_ok n : forall p s, umem_ok (umem s) -> mapped (umem s) p (Z.of_nat n) -> writable s p (Z.of_nat n) ->
  exists m, read_keys n p s = Ok (tt, set_keys (n + keys_read s) (set_umem m (page_ins s) s)) /\ umem_ok m.
Proof.
  induction n as [|n IH]; intros p s U Hm Hw; cbn [read_keys]; [exists (umem s); by destruct s|].
  rewrite (M_bind_Ok _ _ s (u8 (keys s (keys_read s))) (set_keys (S (keys_read s)) s)) by done. set (c := u8 _). set (s1 := set_keys _ s).
  assert (Hc : Forall is_u8 [c]) by (constructor; [apply u8_range|done]).
  rewrite (M_bind_Ok _ _ _ _ _ (user_put_ok [c] p s1 U ltac:(intros a Ha; apply Hm; simpl in Ha; lia) ltac:(intros a Ha; apply Hw; simpl in Ha; lia) Hc)).
  set (s2 := set_umem _ _ s1). assert (U2 : umem_ok (umem s2)) by (apply umem_put; [done|intros a Ha; apply Hm; simpl in Ha; lia|done]).
  destruct n as [|n]; [exists (umem s2); by destruct s|]. remember (S n) as n' eqn:En.
  destruct (umem_end _ _ _ U Hm ltac:(lia)) as [H0 H1]. change PHYS_BASE with 3221225472 in H1. rewrite u32_small by (unfold is_u32; lia).
  destruct (IH (p + 1) s2 U2) as (m & E & Um); [intros a Ha; simpl; apply insert_mapped, Hm; lia|intros a Ha; apply Hw; lia|].
  exists m. split; [|done]. rewrite E. destruct s. simpl. by replace (n' + S keys_read0)%nat with (S (n' + keys_read0)) by lia.
Qed.

Lemma good_read n b z s : sys_ok s -> is_u32 b -> is_u32 z -> b + z <= 2 ^ 32 -> writable s b z -> good (sys_read n b z) s.
Proof.
  intros V Hb Hz Hw Hr. unfold sys_read. apply good_validate; [done|done|]. intros s1 _ G V1 Hp Hm.
  apply (validated_mapped (umem s1) b z Hb Hp Hz Hw) in Hm. destruct (grown_kfs _ _ G) as (_ & _ & _ & Er).
  assert (Hr1 : writable s1 b (s32 z)).
  { intros a Ha. rewrite Er. apply Hr. destruct (Z.lt_ge_cases z (2 ^ 31)); [rewrite s32_small in Ha by (unfold is_s32, is_u32 in *; lia); lia|rewrite s32_neg in Ha by (unfold is_u32 in *; lia); unfold is_u32 in *; lia]. }
  destruct (n =? 0).
  - assert (Hm' : mapped (umem s1) b (Z.of_nat (Z.to_nat (s32 z)))) by (intros a Ha; apply (s32_mapped _ _ _ Hz Hm); lia).
    destruct (read_keys_ok (Z.to_nat (s32 z)) b (set_lock true s1) (ok_umem _ V1) Hm') as (m & E & Um); [intros a Ha; apply Hr1; lia|].
    eapply good_return.
    + rewrite (M_bind_Ok _ _ _ _ _ (filesys_acquire_ok s1 (ok_lock _ V1))), (M_bind_Ok _ _ _ _ _ E). erewrite M_bind_Ok by (by apply filesys_release_ok). reflexivity.
    + destruct V1. split; done.
    + done.
  - apply good_fd; [done| |intros _; by eexists _, s1]. intros f h _ [[fl Hf] Hfm] _ _. destruct (ok_fs _ V1) as (ss & bs & tbl & rd & S).
    destruct (user_inode _ _ _ _ _ f S) as (fl' & i & Hf' & Hi & _); [by split; [eexists|]|]. assert (fl' = fl) as -> by congruence.
    destruct (read_file_ok s1 ss bs tbl rd f fl i b (s32 z) V1 S Hf Hi (s32_mapped _ _ _ Hz Hm) Hr1) as (w & k & E & Ll & Fl & S' & Mv & Hn & _).
    eexists w, _. split; [exact E|]. destruct (sys_ok_fs s1 k V1) as [V' O']; [by eexists _, _, _, _|by eapply moved_same_open|]. split; [|exact O'].
    destruct V'. split; try done. simpl. apply umem_put; [done| |done]. rewrite Ll. intros a Ha. unfold avail in Hn. apply (s32_mapped _ _ _ Hz Hm); lia.
Qed.

(** ** The handler *)

(** What a process must not do: ask for the size of a descriptor that is not open, seek or create beyond what a
    signed integer holds, pass a buffer that runs over the end of the address space or cannot be written, or
    a name without an end.  Descriptors, memory and counters must not run out either. *)
Definition prudent (s : sys) (c : call) : Prop :=
  match c with
  | SYS_CREATE p n => n < 2 ^ 31 /\ names s p /\ resources (kfs s)
  | SYS_REMOVE p => names s p /\ resources (kfs s)
  | SYS_OPEN p => names s p /\ resources (kfs s) /\ next_fd s + 1 < 2 ^ 31
  | SYS_FILESIZE n => 1 <= n -> is_Some (find_handle n (fd_table s))
  | SYS_READ n b z => b + z <= 2 ^ 32 /\ writable s b z
  | SYS_WRITE n b z => b + z <= 2 ^ 32
  | SYS_SEEK n p => is_Some (find_handle n (fd_table s)) -> p < 2 ^ 31
  | _ => True
  end.

Lemma good_pure {A C} (m : P A) (g : A -> C) s : good m s -> good (pbind m (fun a => pret (g a))) s.
Proof.
  intros (r & s' & E & H). unfold good, pbind. rewrite (M_bind_Ok _ _ _ _ _ E). destruct r as [a| |]; [exists (Return (g a)), s'|exists Exited, s'|exists PoweredOff, s']; done.
Qed.

(** The call [c] is handed on if it is one on processes or mappings, and otherwise carried out. *)
Definition answers (c : call) (r : ending reply) : Prop :=
  match r with Return (HandedOn c') => c' = c /\ process_call c = true | Return (Reply _) => process_call c = false | _ => True end.
(** So is the call fetched from the stack. *)
Definition answered (esp : Z) (s : sys) (r : ending reply) : Prop :=
  match r with Return _ => exists c s1, get_call esp s = Ok (Return c, s1) /\ answers c r | _ => True end.

Lemma serve_ok c (m : P (option Z)) s : process_call c = false -> good m s -> exists r s', (let! x := m in pret (Reply x)) s = Ok (r, s') /\ answers c r /\ served s r s'.
Proof.
  intros Hc (r & s' & E & H). unfold pbind. rewrite (M_bind_Ok _ _ _ _ _ E). destruct r as [a| |]; [exists (Return (Reply a)), s'|exists Exited, s'|exists PoweredOff, s']; done.
Qed.
Lemma exit_ok c status s : sys_ok s -> is_s32 status -> exists r s', sys_exit (A := reply) status s = Ok (r, s') /\ answers c r /\ served s r s'.
Proof. intros V Hs. destruct (cleanup_ok (A := reply) status s V Hs) as (s' & E & H & _). by exists Exited, s'. Qed.

Lemma perform_ok c s : length junk = 20%nat -> Forall is_u8 junk -> length junk' = 20%nat -> sys_ok s -> typed_args c -> prudent s c ->
  exists r s', perform c s = Ok (r, s') /\ answers c r /\ served s r s'.
Proof.
  intros J1 J2 J3 V T Hp. destruct c; cbn [typed_args prudent perform] in *; try destruct T as (T1 & T); cbv zeta;
    try (apply serve_ok; [done|]; unfold eax, eax_bool, no_eax; try apply good_pure); try (by eexists (Return (HandedOn _)), s).
  - by exists PoweredOff, s.
  - by apply exit_ok.
  - apply good_create; try done; try apply Hp. split; [apply T|apply Hp].
  - by apply good_remove; try apply Hp.
  - by apply good_open; try apply Hp.
  - by apply good_filesize.
  - apply good_read; try done; try apply T; apply Hp.
  - apply good_write; try done; apply T.
  - by apply good_seek.
  - by apply good_tell.
  - by apply good_close.
  - by apply exit_ok.
Qed.

Lemma handler_ok esp s : length junk = 20%nat -> Forall is_u8 junk -> length junk' = 20%nat -> sys_ok s -> is_u32 esp -> (forall c s', get_call esp s = Ok (Return c, s') -> prudent s' c) ->
  exists r s', syscall_handler esp s = Ok (r, s') /\ answered esp s r /\ served s r s'.
Proof.
  intros J1 J2 J3 V He Hp. destruct (get_call_ok esp s V He) as (r & s1 & E & C). unfold syscall_handler, pbind. rewrite (M_bind_Ok _ _ _ _ _ E).
  destruct r as [c| |]; [|by exists Exited, s1|done]. destruct C as [G T]. destruct (perform_ok c s1 J1 J2 J3 (proj1 (grown_ok _ _ G V)) T (Hp c s1 E)) as (r & s2 & E2 & Hh & H).
  exists r, s2. split; [done|]. split; [destruct r; [by exists c, s1|done|done]|]. by eapply grown_served.
Qed.

(** ** Reading back what was written *)

(** The pages from [b] to [b + z] are there, and can be brought in. *)
Definition pages (b z : Z) : nat := Z.to_nat ((b + z - 1) / 4096 - b / 4096 + 1).
Definition present (s : sys) (b z : Z) (skip : nat) : Prop :=
  0 <= b /\ 0 < z < 2 ^ 31 /\ mapped (umem s) b z /\ forall j, (skip <= j < skip + pages b z)%nat -> page_ins s !! j = Some true.

Lemma touch_loop_present k : forall n page last s, umem_ok (umem s) -> page mod 4096 = 0 -> 0 <= page -> last = page + 4096 * (Z.of_nat k - 1) -> last < PHYS_BASE -> (k < n)%nat ->
  (forall a, page <= a <= last -> is_Some (umem s !! a)) -> (forall j, (j < k)%nat -> page_ins s !! j = Some true) ->
  touch_loop n page last s = Ok (Return tt, set_umem (umem s) (drop k (page_ins s)) s).
Proof.
  induction k as [|k IH]; intros [|n] page last s U Hp H0 -> Hb Hn Hm Hj; cbn [touch_loop]; try lia.
  - rewrite (proj2 (Z.leb_gt _ _)) by lia. by destruct s.
  - rewrite (proj2 (Z.leb_le _ _)) by lia. assert (Hh : head (page_ins s) = Some true) by (rewrite head_lookup; apply Hj; lia).
    rewrite (pbind_ok _ _ _ tt (set_umem (umem s) (tail (page_ins s)) s)).
    2:{ unfold touch_ptr. rewrite (M_bind_Ok _ _ s s s) by done. rewrite bool_decide_true by (apply Hm; lia). rewrite Hh. done. }
    change PGSIZE with 4096. change PHYS_BASE with 3221225472 in *. set (s1 := set_umem _ _ s).
    destruct (decide (k = 0%nat)) as [->|Hk].
    { destruct n as [|n]; [lia|]. cbn [touch_loop]. rewrite u32_small by (unfold is_u32; lia). rewrite (proj2 (Z.leb_gt _ _)) by lia. by destruct (page_ins s). }
    rewrite u32_small by (unfold is_u32; lia). rewrite (IH n (page + 4096) _ s1); [by destruct (page_ins s) as [|x l]; [|done]|..]; try done; try lia.
    + rewrite Zplus_mod, Hp. done.
    + intros a Ha. apply Hm. lia.
    + intros j Hlt. specialize (Hj (S j) ltac:(lia)). simpl. by destruct (page_ins s).
Qed.

Lemma validate_present b z s : sys_ok s -> present s b z 0 -> validate_ptr b z s = Ok (Return tt, set_umem (umem s) (drop (pages b z) (page_ins s)) s).
Proof.
  intros V (H0 & Hz & Hm & Hj). destruct (umem_end _ _ _ (ok_umem _ V) Hm ltac:(lia)) as [_ He]. unfold validate_ptr, is_user_vaddr.
  assert (Hn : Z.of_nat (Z.to_nat (PHYS_BASE / PGSIZE)) = 786432) by (by rewrite Z2Nat.id). set (n := Z.to_nat _) in *. clearbody n.
  change PHYS_BASE with 3221225472 in *. rewrite u32_small by (unfold is_u32; lia). rewrite !(proj2 (Z.ltb_lt _ _)) by lia. cbn [negb orb]. rewrite (pbind_ok (pret tt) _ s tt s) by done.
  rewrite !pg_round_down_sub by (unfold is_u32; lia).
  pose proof (Z.div_mod b 4096). pose proof (Z.div_mod (b + z - 1) 4096). pose proof (Z.mod_pos_bound b 4096). pose proof (Z.mod_pos_bound (b + z - 1) 4096).
  pose proof (Z.div_le_mono b (b + z - 1) 4096). unfold pages in *. set (q := b / 4096) in *. set (r := (b + z - 1) / 4096) in *.
  apply (touch_loop_present (Z.to_nat (r - q + 1))); try lia; try (apply V).
  - replace (b - b mod 4096) with (q * 4096) by lia. apply Z.mod_mul. lia.
  - change PHYS_BASE with 3221225472. lia.
  - intros a Ha. destruct (Z.le_gt_cases b a) as [Hle|Hlt]; [apply Hm; lia|]. apply (um_pages _ (ok_umem _ V) b a); [apply Hm; lia|].
    change (b / 4096) with q. apply (Z.div_unique a 4096 q (a - q * 4096)); lia.
  - intros j Hlt. apply Hj. lia.
Qed.

Lemma proc_bind {A C} (m : M sys A) (k : A -> M sys C) s a s' : m s = Ok (a, s') -> proc (let* x := m in k x) s = proc (k a) s'.
Proof. intros E. unfold proc. by rewrite M_bind_assoc, (M_bind_Ok _ _ _ _ _ E). Qed.

Lemma fd_to_file_found n s h : 1 <= n -> find_handle n (fd_table s) = Some h -> fd_to_file n s = Ok (Some (h_file h), s).
Proof. intros Hn Hh. unfold fd_to_file, lookup_handle_by_fd. destruct (Z.ltb_spec n 1); [lia|]. rewrite (M_bind_Ok _ _ s (Some h) s); [done|]. rewrite (M_bind_Ok _ _ s (fd_table s) s) by done. by rewrite Hh. Qed.

Lemma handle_fd n s h : sys_ok s -> find_handle n (fd_table s) = Some h -> 2 <= n /\ user_file (kfs s) (h_file h).
Proof.
  intros V Hh. destruct (find_handle_Some _ _ _ Hh) as [Hin <-]. pose proof (ok_range _ V) as Fr. rewrite Forall_forall in Fr. specialize (Fr h Hin). split; [lia|].
  destruct (fd_to_file_ok (fd h) s V) as (o & E & H). rewrite (fd_to_file_found (fd h) s h ltac:(lia) Hh) in E. injection E as <-. apply H.
Qed.

(** Writing to, and reading from, an open file, with memory enough. *)
Lemma sys_write_file n s h b z : sys_ok s -> find_handle n (fd_table s) = Some h -> present s b z 0 ->
  sys_write n b z s = proc (write_file (h_file h) b z) (set_umem (umem s) (drop (pages b z) (page_ins s)) s).
Proof.
  intros V Hh Hp. destruct (handle_fd n s h V Hh) as [Hn _]. unfold sys_write. rewrite (proj2 (Z.ltb_ge _ _)), (proj2 (Z.eqb_neq n 1)) by lia.
  assert (Hz : s32 z = z) by (destruct Hp as (_ & ? & _); apply s32_small; unfold is_s32; lia). rewrite Hz, (pbind_ok _ _ _ _ _ (validate_present b z s V Hp)).
  by rewrite (proc_bind _ _ _ _ _ (fd_to_file_found n (set_umem _ _ s) h ltac:(lia) Hh)).
Qed.

Lemma sys_read_file n s h b z : sys_ok s -> find_handle n (fd_table s) = Some h -> present s b z 0 ->
  sys_read n b z s = proc (read_file (h_file h) b z) (set_umem (umem s) (drop (pages b z) (page_ins s)) s).
Proof.
  intros V Hh Hp. destruct (handle_fd n s h V Hh) as [Hn _]. unfold sys_read. rewrite (proj2 (Z.eqb_neq n 0)) by lia.
  assert (Hz : s32 z = z) by (destruct Hp as (_ & ? & _); apply s32_small; unfold is_s32; lia). rewrite Hz, (pbind_ok _ _ _ _ _ (validate_present b z s V Hp)).
  by rewrite (proc_bind _ _ _ _ _ (fd_to_file_found n (set_umem _ _ s) h ltac:(lia) Hh)).
Qed.

Lemma drop_take_splice c p l : 0 <= p -> p + Z.of_nat (length l) <= Z.of_nat (length c) -> take (length l) (drop (Z.to_nat p) (splice c p l)) = l.
Proof.
  intros Hp Hl. unfold splice. rewrite drop_app_length' by (rewrite length_take; lia). by rewrite take_app_length.
Qed.

Lemma roundtrip_ok s ss bs tbl rd n h fl i b d z : sys_ok s -> fs_state (kfs s) ss bs tbl rd ->
  find_handle n (fd_table s) = Some h -> files (kfs s) !! h_file h = Some fl -> inodes (kfs s) !! f_inode fl = Some i -> deny_write_cnt i = 0 -> plenty 2 (kfs s) ->
  present s b z 0 -> present s d z (pages b z) -> writable s d z -> pos fl + z <= length_ (data i) ->
  exists s1 s2 s3 ss', let l := buffer_at (umem s) b (Z.to_nat z) in
    sys_write n b z s = Ok (Return z, s1) /\ sys_seek n (pos fl) s1 = Ok (Return tt, s2) /\ sys_read n d z s2 = Ok (Return z, s3) /\
    umem s3 = put d l (umem s) /\ fs_state (kfs s3) ss' bs tbl rd /\ content ss' (data i) = splice (content ss (data i)) (pos fl) l /\
    (forall sec d, tbl !! sec = Some d -> sec <> sector i -> content ss' d = content ss d).
Proof.
  intros V S Hh Hf Hi Hd Hm Pb Pd Wd Hl. destruct (handle_fd n s h V Hh) as [Hn [_ Hu]]. set (f := h_file h) in *. set (l := buffer_at (umem s) b (Z.to_nat z)).
  pose proof (f_positions _ _ _ _ _ S f fl Hf) as Hp. destruct Pb as (Pb0 & Pz & Pbm & Pbj). destruct Pd as (Pd0 & _ & Pdm & Pdj).
  assert (Ha : avail (data i) z (pos fl) = z) by (unfold avail; lia). assert (Ll : length l = Z.to_nat z) by apply length_buffer_at.
  set (s0 := set_umem (umem s) (drop (pages b z) (page_ins s)) s). assert (V0 : sys_ok s0) by (destruct V; by split).
  destruct (write_file_ok s0 ss bs tbl rd f fl i b z V0 S Hf Hu Hi (fun _ => Pbm)) as (w & k1 & ss' & E1 & S1 & (M1 & I1 & F1 & A1) & Hc & Ho & _ & Hw & _).
  rewrite (Hw Hd (plenty_head _ _ Hm)), Ha in *. clear w Hw. set (s1 := set_kfs k1 s0) in *. set (fl1 := MkFile (f_inode fl) (pos fl + z) (deny_write fl)) in *.
  destruct (sys_ok_fs s0 k1 V0) as [V1 _]; [by eexists _, _, _, _|by eapply moved_same_open; [exact Hf|]|]. fold s1 in V1.
  assert (Hf1 : files k1 !! f = Some fl1) by (rewrite M1; apply lookup_insert_eq).
  destruct (fs_seek_ok k1 ss' bs tbl rd f fl1 (pos fl) S1 Hf1 Hp) as (k2 & E2 & S2 & Mv & A2).
  destruct (sys_ok_fs s1 k2 V1) as [V2 _]; [by eexists _, _, _, _|by eapply moved_same_open|]. destruct Mv as (M2 & I2 & _). set (s2 := set_kfs k2 s1) in *.
  set (fl2 := MkFile (f_inode fl1) (pos fl1 + (pos fl - pos fl1)) (deny_write fl1)) in *. assert (Hp2 : pos fl2 = pos fl) by (simpl; lia).
  assert (Hf2 : files k2 !! f = Some fl2) by (rewrite M2; apply lookup_insert_eq).
  assert (Hm2 : head (mallocs k2) = Some true).
  { rewrite A2. rewrite head_lookup. destruct A1 as [-> | ->]; [apply (Hm 0%nat); lia|]. rewrite <- (Hm 1%nat) by lia. simpl. by destruct (mallocs (kfs s)). }
  set (s2' := set_umem (umem s2) (drop (pages d z) (page_ins s2)) s2). assert (V2' : sys_ok s2') by (destruct V2; by split).
  destruct (read_file_ok s2' ss' bs tbl rd f fl2 i d z V2' S2 Hf2) as (w & k3 & E3 & _ & _ & S3 & _ & _ & Hw); [simpl; by rewrite I2, I1|done|done|].
  rewrite Hp2 in *. rewrite (Hw Hm2), Ha in *. clear w Hw.
  assert (Hl2 : take (Z.to_nat z) (drop (Z.to_nat (pos fl)) (content ss' (data i))) = l).
  { rewrite Hc. change (buffer_at (umem s0) b (Z.to_nat z)) with l. rewrite <- Ll, firstn_all. apply drop_take_splice; [lia|]. rewrite length_content, Ll. lia. }
  eexists s1, s2, _, ss'. split_and!.
  - rewrite (sys_write_file n s h b z V Hh); [|by do 3 (split; [done|])]. unfold proc. fold s0. by rewrite (M_bind_Ok _ _ _ _ _ E1).
  - unfold sys_seek. rewrite (proj2 (Z.ltb_ge _ _)) by lia. rewrite (proc_bind _ _ _ _ _ (fd_to_file_found n s1 h ltac:(lia) Hh)). rewrite s32_small by (unfold is_s32; lia).
    unfold proc. by rewrite (M_bind_Ok _ _ _ _ _ (locked_unit _ s1 k2 V1 E2)).
  - rewrite (sys_read_file n s2 h d z V2 Hh); [unfold proc; fold s2'; by rewrite (M_bind_Ok _ _ _ _ _ E3)|]. split_and!; try done; try lia.
    intros j Hj. simpl. rewrite lookup_drop. apply Pdj. lia.
  - simpl. by rewrite Hl2.
  - exact S3.
  - rewrite Hc. change (buffer_at (umem s0) b (Z.to_nat z)) with l. by rewrite <- Ll, firstn_all.
  - exact Ho.
Qed.
(** ** Arguments that are not checked *)

Lemma filesize_unopened n s : sys_ok s -> 1 <= n -> find_handle n (fd_table s) = None -> sys_filesize n s = Fail FAssert.
Proof.
  intros V Hn Hf. unfold sys_filesize. destruct (Z.ltb_spec n 1); [lia|]. destruct (fd_to_file_ok n s V) as (o & E & Ho). rewrite (proc_bind _ _ _ _ _ E).
  destruct o as [f|]; [destruct Ho as (_ & _ & h & Hh & _); congruence|]. unfold proc. rewrite M_bind_assoc, (M_bind_Ok _ _ _ _ _ (filesys_acquire_ok s (ok_lock _ V))). done.
Qed.

Lemma seek_negative n p s h : sys_ok s -> find_handle n (fd_table s) = Some h -> 2 ^ 31 <= p < 2 ^ 32 -> sys_seek n p s = Fail FAssert.
Proof.
  intros V Hh Hp. destruct (handle_fd n s h V Hh) as [Hn _]. unfold sys_seek. destruct (Z.ltb_spec n 1); [lia|].
  rewrite (proc_bind _ _ _ _ _ (fd_to_file_found n s h ltac:(lia) Hh)). unfold proc. rewrite M_bind_assoc, (M_bind_Ok _ _ _ _ _ (filesys_acquire_ok s (ok_lock _ V))).
  rewrite s32_neg by done. rewrite M_bind_assoc. unfold on_fs at 1, file_seek. cbn [set_lock kfs].
  unfold mbind, M_bind. simpl. rewrite (proj2 (Z.leb_gt _ _)) by lia. done.
Qed.

(** A buffer that runs over the end of the address space into a lower page is not looked at. *)
Lemma wrapped_buffer p size s : is_u32 p -> p < PHYS_BASE -> is_u32 size -> 2 ^ 32 < p + size -> pg_round_down (p + size - 1 - 2 ^ 32) < pg_round_down p ->
  p + size - 1 - 2 ^ 32 < PHYS_BASE -> validate_ptr p (s32 size) s = Ok (Return tt, s).
Proof.
  intros Hp Hb Hs Hw Hr He. unfold validate_ptr, is_user_vaddr.
  replace (u32 (p + s32 size - 1)) with (p + size - 1 - 2 ^ 32).
  2:{ unfold u32, s32, is_u32 in *. replace (p + ((size + 2 ^ 31) mod 2 ^ 32 - 2 ^ 31) - 1) with ((size + 2 ^ 31) mod 2 ^ 32 + (p - 2 ^ 31 - 1)) by lia.
      rewrite Zplus_mod_idemp_l. apply (Z.mod_unique _ _ 1); lia. }
  rewrite !(proj2 (Z.ltb_lt _ _)) by done. cbn [negb orb]. rewrite (pbind_ok (pret tt) _ s tt s) by done.
  set (n := Z.to_nat _). destruct n; cbn [touch_loop]; by rewrite (proj2 (Z.leb_gt _ _)).
Qed.

Lemma get_user_present p w s : sys_ok s -> present s p 4 0 -> load32 (umem s) p = Ok w ->
  get_user p s = Ok (Return w, set_umem (umem s) (drop (pages p 4) (page_ins s)) s).
Proof. intros V Hp E. unfold get_user. rewrite (pbind_ok _ _ _ _ _ (validate_present p 4 s V Hp)). unfold proc. erewrite M_bind_Ok; [done|]. cbn [umem set_umem]. by rewrite E. Qed.

End calls.
End sys.

(** ** Theorems *)

Section theorems.
Context {B : Type} `{!BlockDevice B} (lit : string -> Z) (name : Z) (nm : list Z).
Notation sys := (sys (B := B)).

(** C5: whatever stack pointer a process passes to the handler, fetching the call does not stop the kernel,
    nor does carrying out halt, exit, or any call on files: it returns, switches the machine off, or ends the
    process.  The invariant holds again: the file system is sound, its lock is free, descriptors are distinct
    numbers for distinct open files.  No file of another process is closed and none is left open behind; a
    process that ends has closed all its files, printed its exit message and woken its children and its parent.
    The four calls on processes and mappings, exec, wait, mmap and munmap, are only followed to where their
    functions are called.  A call on files has to be [prudent]: the arguments excluded there do stop the kernel. *)
Theorem syscalls_safe (junk junk' : list Z) esp s :
  length junk = 20%nat -> Forall is_u8 junk -> length junk' = 20%nat -> sys_ok lit name nm s -> is_u32 esp ->
  (forall c s', get_call lit name esp s = Ok (Return c, s') -> prudent lit name s' c) ->
  exists r s', syscall_handler lit name junk junk' esp s = Ok (r, s') /\ answered lit name esp s r /\
    sys_ok lit name nm s' /\ others s' = others s /\ match r with Exited => ended nm s s' | _ => True end.
Proof. intros. by apply handler_ok. Qed.

(** C39: what a process writes to an open file it reads back: write, seek to the old position and read return the number
    of bytes asked for, the second buffer holds what the first one held, and no other byte of user memory changes; in
    the file exactly these bytes have changed, and no other file has. *)
Theorem write_seek_read s ss bs tbl rd n h fl i b d z : sys_ok lit name nm s -> fs_state (kfs s) ss bs tbl rd ->
  find_handle n (fd_table s) = Some h -> files (kfs s) !! h_file h = Some fl -> inodes (kfs s) !! f_inode fl = Some i -> deny_write_cnt i = 0 -> plenty 2 (kfs s) ->
  present s b z 0 -> present s d z (pages b z) -> writable s d z -> pos fl + z <= length_ (data i) ->
  exists s1 s2 s3 ss', let l := buffer_at (umem s) b (Z.to_nat z) in
    sys_write lit name n b z s = Ok (Return z, s1) /\ sys_seek n (pos fl) s1 = Ok (Return tt, s2) /\ sys_read lit name n d z s2 = Ok (Return z, s3) /\
    umem s3 = put d l (umem s) /\ fs_state (kfs s3) ss' bs tbl rd /\ content ss' (data i) = splice (content ss (data i)) (pos fl) l /\
    (forall sec d, tbl !! sec = Some d -> sec <> sector i -> content ss' d = content ss d).
Proof. intros. by eapply roundtrip_ok. Qed.

(** C40: arguments that no check stops.  The size of a descriptor that is not open, and a seek to 2 GB or more, fail an
    assertion of the file system; a buffer long enough to run over the end of the address space is accepted though
    none of its pages has been looked at. *)
Theorem unchecked_arguments s : sys_ok lit name nm s ->
  (forall n, 1 <= n -> find_handle n (fd_table s) = None -> sys_filesize n s = Fail FAssert) /\
  (forall n p h, find_handle n (fd_table s) = Some h -> 2 ^ 31 <= p < 2 ^ 32 -> sys_seek n p s = Fail FAssert) /\
  (forall p size, is_u32 p -> p < PHYS_BASE -> is_u32 size -> 2 ^ 32 < p + size -> p + size - 1 - 2 ^ 32 < PHYS_BASE ->
    pg_round_down (p + size - 1 - 2 ^ 32) < pg_round_down p -> validate_ptr lit name p (s32 size) s = Ok (Return tt, s)).
Proof.
  intros V. split_and!; intros.
  - by apply (filesize_unopened lit name nm).
  - by eapply (seek_negative lit name nm).
  - by apply wrapped_buffer.
Qed.

End theorems.

(** ** Examples: a process with one file open, and a page of stack *)

#[local] Existing Instance Block.ram_device.
#[local] Opaque zero_page.

Definition demo_lits : list (string * Z) := Console.place 1000 (Printf.engine_literals ++ [exit_format]).
Definition demo_lit (s : string) : Z := from_option snd 0 (find (fun e => String.eqb e.1 s) demo_lits).
Definition demo_kmem : mem := foldr (fun e m => put e.2 (Printf.str e.1 ++ [0]) m) (put 400 [97; 0] ∅) demo_lits.
(** read (2, 0xbffff000, 10) *)
Definition demo_esp : Z := 0xbfffff00.
Definition demo_stack : list Z := word_bytes 8 ++ word_bytes 2 ++ word_bytes 0xbffff000 ++ word_bytes 10.
Definition demo_umem : mem := put demo_esp demo_stack (put 0xbffff000 zero_page ∅).
Definition demo_sys : sys (B := list (list Z)) :=
  Sys demo false demo_kmem Console.demo_console (fun n => Z.of_nat n) 0 demo_umem ∅ (replicate 10 true) [true] [Handle 2 11] 3 None 0 [7] 0 [].

Lemma demo_texts : texts_ok demo_lit 400 [97] demo_kmem.
Proof. split; [repeat constructor; try done; apply Printf.holds_cstr_ok; by_kernel|apply Printf.holds_cstr_ok; by_kernel|apply Printf.holds_cstr_ok; by_kernel|done|simpl; lia]. Qed.

Lemma demo_umem_ok : umem_ok demo_umem /\ mapped demo_umem 0xbffff000 4096.
Proof.
  assert (U0 : umem_ok ∅) by (split; [by intros a x|by intros a b [x ?]]).
  destruct (umem_grow ∅ 0xbffff000 U0 eq_refl) as (U & _ & Hp); [done|done|done|].
  assert (Hm : mapped (put 0xbffff000 zero_page ∅) 0xbffff000 4096).
  { intros a Ha. apply (um_pages _ U 0xbffff000 a Hp). symmetry. apply page_of; [done|lia]. }
  split.
  - apply umem_put; [done|intros a Ha; apply Hm; simpl in Ha; unfold demo_esp in Ha; lia|]. repeat (apply Forall_app; split); repeat constructor; apply u8_range.
  - intros a Ha. by apply put_mapped, Hm.
Qed.

Lemma demo_words i w : (i, w) ∈ [(0, 8); (1, 2); (2, 0xbffff000); (3, 10)] -> load32 demo_umem (demo_esp + 4 * i) = Ok w.
Proof.
  assert (H : bytes_at demo_umem demo_esp demo_stack) by apply bytes_at_put. set (m := demo_umem) in *. clearbody m. unfold demo_stack in H. rewrite !bytes_at_app in H. destruct H as (H0 & H1 & H2 & H3).
  rewrite !elem_of_cons. intros [[= -> ->]|[[= -> ->]|[[= -> ->]|[[= -> ->]|[]%elem_of_nil]]]]; (apply load32_at; [done|]); unfold words_at; cbn [mbind list_bind]; rewrite app_nil_r.
  - exact H0.
  - exact H1.
  - exact H2.
  - exact H3.
Qed.

#[local] Opaque demo_umem.
Lemma demo_sys_ok : sys_ok demo_lit 400 [97] demo_sys.
Proof.
  split.
  - by eexists _, _, _, _; apply demo_fs_state.
  - done.
  - apply demo_texts.
  - apply Console.demo_usable.
  - apply demo_umem_ok.
  - apply NoDup_singleton.
  - apply Forall_singleton. simpl. lia.
  - simpl. lia.
  - split; [apply NoDup_singleton|apply Forall_singleton]. split; [exists (MkFile 2 0 false); by_kernel|done].
Qed.

(** The state after [j] pages have been touched. *)
Definition demo_after (j : nat) (e : Z) : sys (B := list (list Z)) := set_esp e (set_umem demo_umem (replicate (10 - j) true) demo_sys).
Lemma demo_after_ok j e : sys_ok demo_lit 400 [97] (demo_after j e).
Proof. apply (grown_ok demo_lit 400 [97] demo_sys); [|exact demo_sys_ok]. split; [by eexists _, _, _|apply reflexivity|apply demo_umem_ok]. Qed.

Lemma demo_arg j e i w : (j < 10)%nat -> (i, w) ∈ [(0, 8); (1, 2); (2, 0xbffff000); (3, 10)] ->
  get_user demo_lit 400 (demo_esp + 4 * i) (demo_after j e) = Ok (Return w, demo_after (S j) e).
Proof.
  intros Hj Hi. assert (Hr : 0 <= i <= 3) by (rewrite !elem_of_cons in Hi; destruct Hi as [[= -> ->]|[[= -> ->]|[[= -> ->]|[[= -> ->]|[]%elem_of_nil]]]]; lia).
  assert (Hp : pages (demo_esp + 4 * i) 4 = 1%nat).
  { unfold pages, demo_esp. rewrite (page_of 0xbffff000 (0xbfffff00 + 4 * i)), (page_of 0xbffff000 (0xbfffff00 + 4 * i + 4 - 1)) by (done || lia). done. }
  rewrite (get_user_present demo_lit 400 [97] _ w); [|apply demo_after_ok| |by apply demo_words].
  - rewrite Hp. unfold demo_after. simpl. rewrite drop_replicate. do 3 f_equal. by replace (10 - j - 1)%nat with (10 - S j)%nat by lia.
  - unfold present. rewrite Hp. unfold demo_esp. split; [lia|]. split; [lia|]. split; [intros a Ha; apply (proj2 demo_umem_ok); lia|].
    intros k Hk. apply lookup_replicate. split; [done|lia].
Qed.

Lemma demo_get_call : get_call demo_lit 400 demo_esp demo_sys = Ok (Return (SYS_READ 2 0xbffff000 10), demo_after 4 demo_esp).
Proof.
  unfold get_call. assert (Hp : present demo_sys demo_esp 4 0).
  { split; [done|]. split; [done|]. split; [intros a Ha; apply (proj2 demo_umem_ok); unfold demo_esp in Ha; lia|]. intros k Hk. apply lookup_replicate. split; [done|]. change (pages demo_esp 4) with 1%nat in Hk. lia. }
  rewrite (pbind_ok _ _ _ _ _ (validate_present demo_lit 400 [97] demo_esp 4 demo_sys demo_sys_ok Hp)).
  rewrite (pbind_ok _ _ _ tt (demo_after 1 demo_esp)) by reflexivity.
  rewrite (pbind_ok _ _ _ 8 (demo_after 1 demo_esp)).
  2:{ unfold proc. erewrite M_bind_Ok; [done|]. pose proof (demo_words 0 8 ltac:(by left)) as E. rewrite Z.add_0_r in E. change (umem (demo_after 1 demo_esp)) with demo_umem. by rewrite E. }
  cbv iota. rewrite !u32_small by done.
  rewrite (pbind_ok _ _ _ _ _ (demo_arg 1 demo_esp 1 2 ltac:(lia) ltac:(right; by left))).
  rewrite (pbind_ok _ _ _ _ _ (demo_arg 2 demo_esp 2 0xbffff000 ltac:(lia) ltac:(right; right; by left))).
  rewrite (pbind_ok _ _ _ _ _ (demo_arg 3 demo_esp 3 10 ltac:(lia) ltac:(right; right; right; by left))). reflexivity.
Qed.

Lemma syscalls_safe_witness : exists r s',
  syscall_handler demo_lit 400 (replicate 20 7) (replicate 20 8) demo_esp demo_sys = Ok (r, s') /\ answered demo_lit 400 demo_esp demo_sys r /\
  sys_ok demo_lit 400 [97] s' /\ others s' = others demo_sys /\ match r with Exited => ended [97] demo_sys s' | _ => True end.
Proof.
  apply (syscalls_safe demo_lit 400 [97]); [done|by apply Forall_replicate|done|exact demo_sys_ok|done|].
  intros c s' E. rewrite demo_get_call in E. injection E as <- <-. split; [done|]. intros a _. apply not_elem_of_empty.
Defined.

Lemma demo_present b j : 0xbffff000 <= b -> b + 10 <= 0xc0000000 -> (j + pages b 10 <= 10)%nat -> present demo_sys b 10 j.
Proof.
  intros H1 H2 Hj. split; [lia|]. split; [lia|]. split; [intros a Ha; apply (proj2 demo_umem_ok); lia|]. intros i Hi. apply lookup_replicate. split; [done|lia].
Qed.

Lemma write_seek_read_witness : exists s1 s2 s3,
  sys_write demo_lit 400 2 demo_esp 10 demo_sys = Ok (Return 10, s1) /\ sys_seek 2 0 s1 = Ok (Return tt, s2) /\
  sys_read demo_lit 400 2 0xbffff000 10 s2 = Ok (Return 10, s3) /\ umem s3 = put 0xbffff000 (buffer_at demo_umem demo_esp 10) demo_umem.
Proof.
  destruct (write_seek_read demo_lit 400 [97] demo_sys demo_ss demo_bs demo_tbl demo_root 2 (Handle 2 11) (MkFile 2 0 false) (MkInode 4 1 false 0 (new_inode 5 600)) demo_esp 0xbffff000 10)
    as (s1 & s2 & s3 & ss' & E1 & E2 & E3 & Em & _); [exact demo_sys_ok|exact demo_fs_state|done|by_kernel|by_kernel|done| | | |intros a _; apply not_elem_of_empty|done|].
  - destruct demo_quiet as (_ & _ & Q & _). eapply plenty_le; [exact Q|lia].
  - apply demo_present; [done|done|]. apply Nat.leb_le. by_kernel.
  - apply demo_present; [done|done|]. apply Nat.leb_le. by_kernel.
  - exists s1, s2, s3. split; [exact E1|]. split; [exact E2|]. split; [exact E3|exact Em].
Defined.

Lemma unchecked_arguments_witness :
  sys_filesize 5 demo_sys = Fail FAssert /\ sys_seek 2 0x80000000 demo_sys = Fail FAssert /\ validate_ptr demo_lit 400 0xbffff000 (s32 0x60000000) demo_sys = Ok (Return tt, demo_sys).
Proof.
  destruct (unchecked_arguments demo_lit 400 [97] demo_sys demo_sys_ok) as (H1 & H2 & H3).
  split; [by apply H1|]. split; [by apply (H2 2 _ (Handle 2 11))|]. by apply H3.
Defined.

End Syscall.
