(* ===== verification/Ustar.v ===== *)
(** * Archive headers (src/lib/ustar.c, src/lib/ustar.h)

    The headers of the archives that the file system utilities read and write: 512 bytes with the name, the type and
    the size of a file as text, and a checksum.  A header is in the byte memory of Mem; the functions of Strings and
    snprintf fill it in and take it apart.  An error is the address of its message; a name that is too long is reported on
    the console. *)

From Stdlib Require Import Ascii String.
From S2P Require Import Prelude Mem Strings Qsort Printf Console.
Import Mem Strings Printf Console.

Module Ustar.

Definition USTAR_REGULAR : Z := ch "0".
Definition USTAR_DIRECTORY : Z := ch "5".
Definition USTAR_EOF : Z := -1.
Definition USTAR_HEADER_SIZE : Z := 512.

(** The fields of [struct ustar_header] in order, with their sizes. *)
Inductive header_field := Name | Mode | Uid | Gid | Size | Mtime | Chksum | Typeflag | Linkname | Magic | Version | Uname | Gname | Devmajor | Devminor | Prefix | Padding.
Definition all_fields : list header_field := [Name; Mode; Uid; Gid; Size; Mtime; Chksum; Typeflag; Linkname; Magic; Version; Uname; Gname; Devmajor; Devminor; Prefix; Padding].
Definition sizeof (f : header_field) : Z :=
  match f with
  | Name | Linkname => 100 | Mode | Uid | Gid | Chksum | Devmajor | Devminor => 8 | Size | Mtime | Padding => 12
  | Typeflag => 1 | Magic => 6 | Version => 2 | Uname | Gname => 32 | Prefix => 155
  end.
#[export] Instance header_field_eq_dec : EqDecision header_field.
Proof. solve_decision. Defined.

(** The structure is packed. *)
Fixpoint offset_in (f : header_field) (l : list header_field) : Z :=
  match l with [] => 0 | g :: l => if decide (f = g) then 0 else sizeof g + offset_in f l end.
Definition offsetof (f : header_field) : Z := offset_in f all_fields.

Section Reading.
Context (lit : string -> Z).

Fixpoint chksum_loop (n : nat) (h i chksum : Z) (m : mem) : outcome Z :=
  match n with
  | O => mret chksum
  | S n =>
    let in_chksum_field := (offsetof Chksum <=? i) && (i <? offsetof Chksum + sizeof Chksum) in
    let* b := if in_chksum_field then mret (ch " ") else load m (h + i) in
    chksum_loop n h (i + 1) (u32 (chksum + b)) m
  end.
Definition calculate_chksum (h : Z) (m : mem) : outcome Z := chksum_loop (Z.to_nat USTAR_HEADER_SIZE) h 0 0 m.

Definition antisocial (m : mem) (file_name : Z) : outcome bool :=
  let* c := load m file_name in
  if c =? ch "/" then mret true else
  let* r := memcmp m file_name (lit "./") 2 in
  if r =? 0 then mret true else
  let* r := memcmp m file_name (lit "../") 3 in
  mret (r =? 0).

Fixpoint strip_loop (n : nat) (m : mem) (file_name : Z) : outcome Z :=
  match n with
  | O => Fail FFuel
  | S n =>
    let* b : bool := antisocial m file_name in
    if b then let* p := strchr m file_name (ch "/") in strip_loop n m (p + 1) else mret file_name
  end.
(** Every round of the loop goes past at least one character. *)
Definition strip_antisocial_prefixes (m : mem) (file_name : Z) : outcome Z :=
  let* file_name := strip_loop (fuel m) m file_name in
  let* c := load m file_name in
  if c =? 0 then mret (lit ".") else
  let* r := strcmp m file_name (lit "..") in
  mret (if r =? 0 then lit "." else file_name).

(** The answer and [*value]. *)
Fixpoint octal_loop (n : nat) (m : mem) (s ofs value : Z) : outcome (bool * Z) :=
  match n with
  | O => mret (false, value)
  | S n =>
    let* c := load m (s + ofs) in
    if (ch "0" <=? c) && (c <=? ch "7") then
      if (2 ^ 32 - 1) / 8 <? value then mret (false, value)
      else octal_loop n m s (ofs + 1) (u32 (c - ch "0" + value * 8))
    else if (c =? ch " ") || (c =? 0) then mret (0 <? ofs, value)
    else mret (false, value)
  end.
Definition parse_octal_field (m : mem) (s size : Z) : outcome (bool * Z) := octal_loop (Z.to_nat size) m s 0 0.

Fixpoint zeros_from (n : nat) (m : mem) (block : Z) : outcome bool :=
  match n with O => mret true | S n => let* c := load m block in if negb (c =? 0) then mret false else zeros_from n m (block + 1) end.
Definition is_all_zeros (m : mem) (block cnt : Z) : outcome bool := zeros_from (Z.to_nat cnt) m block.

(** An error message, or a null pointer and what is stored in [*file_name], [*type] and [*size]. *)
Inductive parse_result := Error (message : Z) | Parsed (file_name type size : Z).

Definition ustar_parse_header (m : mem) (header : Z) : outcome parse_result :=
  let* z : bool := is_all_zeros m header USTAR_HEADER_SIZE in
  if z then mret (Parsed 0 USTAR_EOF 0) else
  let* r := memcmp m (header + offsetof Magic) (lit "ustar") 6 in
  if negb (r =? 0) then mret (Error (lit "not a ustar archive")) else
  let* v0 := load m (header + offsetof Version) in
  let* bad_version : bool := if negb (v0 =? ch "0") then mret true else let* v1 := load m (header + offsetof Version + 1) in mret (negb (v1 =? ch "0")) in
  if bad_version then mret (Error (lit "invalid ustar version")) else
  let* '(ok, chksum) := parse_octal_field m (header + offsetof Chksum) (sizeof Chksum) in
  if negb ok then mret (Error (lit "corrupt chksum field")) else
  let* sum := calculate_chksum header m in
  if negb (chksum =? sum) then mret (Error (lit "checksum mismatch")) else
  let* last := load m (header + offsetof Name + (sizeof Name - 1)) in
  let* too_long : bool := if negb (last =? 0) then mret true else let* c := load m (header + offsetof Prefix) in mret (negb (c =? 0)) in
  if too_long then mret (Error (lit "file name too long")) else
  let* typeflag := load m (header + offsetof Typeflag) in
  if negb (typeflag =? USTAR_REGULAR) && negb (typeflag =? USTAR_DIRECTORY) then mret (Error (lit "unimplemented file type")) else
  let* '(error, size_ul) :=
    if typeflag =? USTAR_REGULAR then
      let* '(ok, size_ul) := parse_octal_field m (header + offsetof Size) (sizeof Size) in
      mret (if negb ok then Some (lit "corrupt file size field") else if 2 ^ 31 - 1 <? size_ul then Some (lit "file too large") else None, size_ul)
    else mret (None, 0) in
  match error with
  | Some message => mret (Error message)
  | None =>
    let* file_name := strip_antisocial_prefixes m (header + offsetof Name) in
    mret (Parsed file_name typeflag (s32 size_ul))
  end.

(** ** Making a header *)

Definition copy_field (h : Z) (f : header_field) (s : Z) : M mem unit :=
  let* _ : Z := strlcpy (h + offsetof f) s (sizeof f) in mret tt.
Definition print_field (h : Z) (f : header_field) (size : Z) (format : string) (v : Z) : M mem unit :=
  let* _ : Z := snprintf lit (h + offsetof f) size (lit format) [v] in mret tt.

Definition fill_header (h file_name type size : Z) : M mem unit :=
  let* _ : Z := memset h 0 USTAR_HEADER_SIZE in
  do* copy_field h Name file_name ;
  do* print_field h Mode (sizeof Mode) "%07o" (if type =? USTAR_REGULAR then 420 else 493) ;
  do* copy_field h Uid (lit "0000000") ;
  do* copy_field h Gid (lit "0000000") ;
  do* print_field h Size (sizeof Size) "%011o" (u32 size) ;
  do* print_field h Mtime (sizeof Size) "%011o" 1136102400 ;
  do* store (h + offsetof Typeflag) type ;
  do* copy_field h Magic (lit "ustar") ;
  do* store (h + offsetof Version + 1) (ch "0") ;
  do* store (h + offsetof Version) (ch "0") ;
  do* copy_field h Gname (lit "root") ;
  do* copy_field h Uname (lit "root") ;
  let* sum := reading (calculate_chksum h) in
  print_field h Chksum (sizeof Chksum) "%07o" sum.

Definition ustar_make_header (file_name type size header : Z) : M (mem * console) bool :=
  do* ASSERT ((type =? USTAR_REGULAR) || (type =? USTAR_DIRECTORY)) ;
  let* file_name := on_mem (reading (fun m => strip_antisocial_prefixes m file_name)) in
  let* len := on_mem (reading (fun m => strlen m file_name)) in
  if 99 <? len then
    do* print lit "%s: file name too long
" [file_name] ;
    mret false
  else
    do* on_mem (fill_header header file_name type size) ;
    mret true.
End Reading.

(** ** Names *)

(** How many characters of a dangerous prefix the name starts with. *)
Definition bad_prefix (s : list Z) : option nat :=
  if bool_decide (take 1 s = str "/") then Some 1%nat else if bool_decide (take 2 s = str "./") then Some 2%nat
  else if bool_decide (take 3 s = str "../") then Some 3%nat else None.
Fixpoint strip_prefixes (n : nat) (s : list Z) : list Z :=
  match n with O => s | S n => match bad_prefix s with Some k => strip_prefixes n (drop k s) | None => s end end.
Definition strip (s : list Z) : list Z :=
  let t := strip_prefixes (length s) s in if decide (t = [] \/ t = str "..") then str "." else t.

(** A name that an archive may have: not empty, not absolute, and it does not start with a step up. *)
Definition safe_name (s : list Z) : Prop := s <> [] /\ s <> str ".." /\ bad_prefix s = None.

Lemma bad_prefix_pos s k : bad_prefix s = Some k -> (1 <= k <= length s)%nat.
Proof.
  unfold bad_prefix. repeat case_bool_decide; intros [= <-]; (split; [lia|]);
    match goal with H : take ?n s = ?l |- _ => apply (f_equal length) in H; rewrite length_take in H; cbn [length str] in H end; lia.
Qed.

Lemma strip_prefixes_none n s : (length s <= n)%nat -> bad_prefix (strip_prefixes n s) = None.
Proof.
  revert s. induction n as [|n IH]; intros s Hn; [destruct s; [done|cbn in Hn; lia]|]. cbn [strip_prefixes].
  destruct (bad_prefix s) as [k|] eqn:E; [|done]. apply bad_prefix_pos in E. apply IH. rewrite length_drop. lia.
Qed.

Lemma strip_prefixes_suffix n s : exists k, strip_prefixes n s = drop k s.
Proof.
  revert s. induction n as [|n IH]; intros s; cbn [strip_prefixes]; [by exists 0%nat|]. destruct (bad_prefix s) as [k|]; [|by exists 0%nat].
  destruct (IH (drop k s)) as [j ->]. exists (k + j)%nat. by rewrite drop_drop.
Qed.

Lemma strip_safe s : safe_name (strip s).
Proof.
  unfold strip. set (t := strip_prefixes _ _). assert (bad_prefix t = None) by (by apply strip_prefixes_none).
  destruct (decide (t = [] \/ t = str "..")) as [|Hn]; [done|]. split; [tauto|]. split; [tauto|done].
Qed.

Lemma strip_idem s : safe_name s -> strip s = s.
Proof.
  intros (H1 & H2 & H3). unfold strip. assert (E : strip_prefixes (length s) s = s) by (destruct s; [done|]; cbn [length strip_prefixes]; by rewrite H3).
  rewrite E. rewrite decide_False by tauto. done.
Qed.

Definition ustar_literals : list string := ["./"; "../"; ".."; "."]%string.

Section Names.
Context (lit : string -> Z) (m : mem).
Context (HL : literals lit ustar_literals m).

Lemma ustar_literal s : s ∈ ustar_literals -> cstr m (lit s) (str s) /\ 0 < lit s.
Proof. intros H. unfold literals in HL. rewrite Forall_forall in HL. by apply HL. Qed.

(** memcmp of a string with the characters of another, which may be longer. *)
Lemma memcmp_prefix k : forall s a b, Forall is_char k -> cstr m a s -> bytes_at m b k ->
  exists r, memcmp_loop m (length k) a b = Ok r /\ (r =? 0) = bool_decide (take (length k) s = k).
Proof.
  induction k as [|y k IH]; intros s a b HK HA HB; cbn [length memcmp_loop]; [by exists 0|]. apply Forall_cons in HK as [Hy HK]. apply bytes_at_cons in HB as [Hb HB].
  rewrite (load_at _ _ _ Hb). unfold is_char in Hy. destruct s as [|x s].
  - apply cstr_nil in HA. rewrite (load_at _ _ _ HA). cbn [mbind outcome_bind take]. rewrite (proj2 (Z.eqb_neq 0 y)), (proj2 (Z.ltb_ge y 0)) by lia. by exists (-1).
  - apply cstr_cons in HA as (Ha & _ & HA). rewrite (load_at _ _ _ Ha). cbn [mbind outcome_bind take]. destruct (Z.eqb_spec x y) as [->|Hn]; cbn [negb].
    + destruct (IH s (a + 1) (b + 1) HK HA HB) as (r & -> & E). exists r. split; [done|]. rewrite E. apply bool_decide_ext. split; [by intros ->|by intros [= ?]].
    + exists (if y <? x then 1 else -1). split; [done|]. rewrite bool_decide_eq_false_2 by congruence. by destruct (y <? x).
Qed.

Lemma memcmp_literal s a (x : string) : a <> 0 -> cstr m a s -> x ∈ ustar_literals ->
  exists r, memcmp m a (lit x) (Z.of_nat (length (str x))) = Ok r /\ (r =? 0) = bool_decide (take (length (str x)) s = str x).
Proof.
  intros Ha HA Hx. destruct (ustar_literal x Hx) as [HC Hn]. unfold memcmp. rewrite (proj2 (Z.eqb_neq a 0)), (proj2 (Z.eqb_neq (lit x) 0)) by lia. cbn [negb orb assert mbind outcome_bind].
  rewrite Nat2Z.id. apply memcmp_prefix; [apply HC|done|]. by destruct HC as [[H _]%bytes_at_app _].
Qed.

Lemma antisocial_ok p s : p <> 0 -> cstr m p s -> antisocial lit m p = Ok (bool_decide (is_Some (bad_prefix s))).
Proof.
  intros Hp HC. unfold antisocial, bad_prefix.
  assert (H0 : exists c, load m p = Ok c /\ (c =? ch "/") = bool_decide (take 1 s = str "/")).
  { destruct s as [|c s]; [exists 0; apply cstr_nil in HC; split; [by apply load_at|done]|]. apply cstr_cons in HC as (H & _ & _). exists c. split; [by apply load_at|].
    destruct (Z.eqb_spec c (ch "/")) as [->|]; [done|]. by rewrite bool_decide_eq_false_2 by (intros [= ?]; done). }
  destruct H0 as (c & -> & E0). cbn [mbind outcome_bind]. rewrite E0. case_bool_decide; [done|].
  destruct (memcmp_literal s p "./" Hp HC) as (r & E1 & E2); [set_solver|]. change (Z.of_nat (length (str "./"))) with 2 in E1. rewrite E1. cbn [mbind outcome_bind]. rewrite E2.
  change (length (str "./")) with 2%nat. destruct (bool_decide (take 2 s = str "./")); [done|].
  destruct (memcmp_literal s p "../" Hp HC) as (r' & E3 & E4); [set_solver|]. change (Z.of_nat (length (str "../"))) with 3 in E3. rewrite E3. cbn [mbind outcome_bind mret outcome_ret]. rewrite E4.
  change (length (str "../")) with 3%nat. by destruct (bool_decide (take 3 s = str "../")).
Qed.

(** The first slash ends the dangerous prefix. *)
Lemma strchr_prefix p s k : p <> 0 -> cstr m p s -> bad_prefix s = Some k -> strchr m p (ch "/") = Ok (p + Z.of_nat k - 1).
Proof.
  intros Hp HC Hk. rewrite (strchr_ok m p _ s Hp HC). change (u8 (ch "/")) with 47. unfold bad_prefix in Hk.
  case_bool_decide as E1; [|case_bool_decide as E2; [|case_bool_decide as E3; [|done]]]; injection Hk as <-.
  - destruct s as [|c s]; [done|]. injection E1 as ->. change (Ok (p + 0) = Ok (p + 1 - 1)). f_equal. lia.
  - destruct s as [|c [|d s]]; [done..|]. injection E2 as -> ->. change (Ok (p + 1) = Ok (p + 2 - 1)). f_equal. lia.
  - destruct s as [|c [|d [|e s]]]; [done..|]. injection E3 as -> -> ->. change (Ok (p + 2) = Ok (p + 3 - 1)). f_equal. lia.
Qed.

Lemma strip_loop_ok n : forall f p s, 0 < p -> cstr m p s -> (length s <= n)%nat -> (n < f)%nat ->
  exists k, strip_loop lit f m p = Ok (p + Z.of_nat k) /\ strip_prefixes n s = drop k s /\ (k <= length s)%nat.
Proof.
  induction n as [|n IH]; intros [|f] p s Hp HC Hn Hf; try lia; cbn [strip_loop strip_prefixes]; rewrite (antisocial_ok p s) by (done || lia); cbn [mbind outcome_bind].
  - destruct s; [|cbn in Hn; lia]. exists 0%nat. by rewrite Z.add_0_r.
  - destruct (bad_prefix s) as [k|] eqn:E; [|exists 0%nat; rewrite Z.add_0_r; split; [done|split; [done|lia]]]. rewrite bool_decide_eq_true_2 by done. pose proof (bad_prefix_pos _ _ E).
    rewrite (strchr_prefix p s k) by (done || lia). cbn [mbind outcome_bind]. replace (p + Z.of_nat k - 1 + 1) with (p + Z.of_nat k) by lia.
    destruct (IH f (p + Z.of_nat k) (drop k s)) as (j & E1 & E2 & Hj); [lia|apply cstr_drop; [lia|done]|rewrite length_drop; lia|lia|].
    exists (k + j)%nat. rewrite E1, E2, drop_drop. rewrite length_drop in Hj. split; [f_equal; lia|]. split; [done|lia].
Qed.

(** The name that is returned: the literal, or a part of the argument. *)
Definition stripped (p : Z) (s : list Z) (q : Z) : Prop :=
  q = lit "." /\ strip s = str "." \/ exists k, (k <= length s)%nat /\ q = p + Z.of_nat k /\ strip s = drop k s.

Lemma strip_ok p s : 0 < p -> cstr m p s -> exists q, strip_antisocial_prefixes lit m p = Ok q /\ stripped p s q.
Proof.
  intros Hp HC. pose proof (cstr_size _ _ _ HC). unfold strip_antisocial_prefixes. destruct (strip_loop_ok (length s) (fuel m) p s Hp HC) as (k & E & EP & Hk); [lia|unfold fuel; lia|].
  assert (HQ := cstr_drop _ _ _ k Hk HC). rewrite E. cbn [mbind outcome_bind]. unfold stripped, strip. rewrite EP. set (q := p + Z.of_nat k) in *.
  destruct (ustar_literal ".." ltac:(set_solver)) as [HDD HDD0]. destruct (drop k s) as [|c t'] eqn:Et.
  - apply cstr_nil in HQ. rewrite (load_at _ _ _ HQ). cbn [mbind outcome_bind Z.eqb]. exists (lit "."). rewrite decide_True by auto. auto.
  - pose proof HQ as (H1 & H2 & _)%cstr_cons. rewrite (load_at _ _ _ H1). cbn [mbind outcome_bind]. unfold is_char in H2. rewrite (proj2 (Z.eqb_neq c 0)) by lia.
    rewrite (strcmp_ok m q (lit "..") (c :: t') (str "..")) by (done || lia). cbn [mbind outcome_bind]. destruct (Z.eqb_spec (lex (c :: t') (str "..")) 0) as [E1|E1]; rewrite lex_eq in E1.
    + exists (lit "."). rewrite decide_True by auto. auto.
    + exists q. rewrite decide_False by (intros [?|?]; done). split; [done|]. right. exists k. by rewrite Et.
Qed.

Lemma stripped_cstr p s q : 0 < p -> cstr m p s -> stripped p s q -> cstr m q (strip s) /\ 0 < q.
Proof.
  intros Hp HC [[-> ->]|(k & Hk & -> & ->)]; [apply ustar_literal; set_solver|]. split; [by apply cstr_drop|lia].
Qed.

(** A safe name is returned as it is. *)
Lemma strip_safe_ok p s : 0 < p -> cstr m p s -> safe_name s -> strip_antisocial_prefixes lit m p = Ok p.
Proof.
  intros Hp HC (H1 & H2 & H3). unfold strip_antisocial_prefixes, fuel. cbn [strip_loop]. rewrite (antisocial_ok p s) by (done || lia). rewrite H3, bool_decide_eq_false_2 by (by intros [? [=]]). cbn [mbind outcome_bind mret outcome_ret].
  destruct s as [|c s]; [done|]. pose proof HC as (H4 & H5 & _)%cstr_cons. rewrite (load_at _ _ _ H4). cbn [mbind outcome_bind]. unfold is_char in H5. rewrite (proj2 (Z.eqb_neq c 0)) by lia.
  destruct (ustar_literal ".." ltac:(set_solver)) as [HDD HDD0]. rewrite (strcmp_ok m p (lit "..") (c :: s) (str "..")) by (done || lia). cbn [mbind outcome_bind].
  rewrite (proj2 (Z.eqb_neq _ 0)) by (rewrite lex_eq; done). done.
Qed.
End Names.

(** ** Headers as fields

    The bytes of a header are its fields one after the other. *)

Definition fields := header_field -> list Z.
Definition encode_in (l : list header_field) (F : fields) : list Z := l ≫= F.
Definition encode (F : fields) : list Z := encode_in all_fields F.
Definition sized (F : fields) : Prop := forall f, Z.of_nat (length (F f)) = sizeof f.
(** [l] written at the start of the field [f]. *)
Definition set_field (f : header_field) (l : list Z) (F : fields) : fields := fun g => if decide (g = f) then l ++ drop (length l) (F f) else F g.

Lemma set_field_eq f l F : set_field f l F f = l ++ drop (length l) (F f).
Proof. unfold set_field. by rewrite decide_True. Qed.

Lemma sized_set f l F : sized F -> Z.of_nat (length l) <= sizeof f -> sized (set_field f l F).
Proof.
  intros HF Hl g. unfold set_field. destruct (decide (g = f)) as [->|]; [|done]. specialize (HF f). rewrite length_app, length_drop. lia.
Qed.

Lemma all_fields_all f : f ∈ all_fields.
Proof. destruct f; set_solver. Qed.
Lemma all_fields_nodup : NoDup all_fields.
Proof. by apply (bool_decide_unpack _). Qed.

Lemma encode_other F f k l : f ∉ l -> encode_in l (set_field f k F) = encode_in l F.
Proof.
  intros Hf. unfold encode_in. induction l as [|g l IH]; [done|]. apply not_elem_of_cons in Hf as [Hg Hf]. cbn [mbind list_bind]. rewrite IH by done.
  f_equal. unfold set_field. by rewrite decide_False.
Qed.

(** The bytes before a field, its bytes, and those after it. *)
Lemma encode_split F f l : sized F -> NoDup l -> f ∈ l -> exists pre post, encode_in l F = pre ++ F f ++ post /\ Z.of_nat (length pre) = offset_in f l /\
  forall k, encode_in l (set_field f k F) = pre ++ (k ++ drop (length k) (F f)) ++ post.
Proof.
  intros HF. induction l as [|g l IH]; intros HN Hf; [by apply elem_of_nil in Hf|]. apply NoDup_cons in HN as [Hg HN].
  assert (EC : forall G, encode_in (g :: l) G = G g ++ encode_in l G) by done. cbn [offset_in]. destruct (decide (f = g)) as [<-|Hn].
  - exists [], (encode_in l F). rewrite EC. split; [done|]. split; [done|]. intros k. rewrite EC, set_field_eq, encode_other by done. done.
  - apply elem_of_cons in Hf as [?|Hf]; [done|]. destruct (IH HN Hf) as (pre & post & E & EL & ES). exists (F g ++ pre), post. split; [by rewrite EC, E, app_assoc|].
    split; [rewrite length_app; specialize (HF g); lia|]. intros k. rewrite EC, ES. unfold set_field. rewrite decide_False by done. by rewrite app_assoc.
Qed.

Lemma encode_length F : sized F -> length (encode F) = 512%nat.
Proof.
  intros HF. unfold encode, encode_in. cbn [mbind list_bind all_fields]. rewrite !length_app. pose proof (fun f => HF f) as H. 
  assert (HS : forall f, length (F f) = Z.to_nat (sizeof f)) by (intros f; specialize (HF f); lia). rewrite !HS. done.
Qed.

(** Writing over a part of what has been written. *)
Lemma put_inside p pre old post l m : (length l <= length old)%nat ->
  put (p + Z.of_nat (length pre)) l (put p (pre ++ old ++ post) m) = put p (pre ++ (l ++ drop (length l) old) ++ post) m.
Proof.
  intros Hl. apply map_eq. intros a. rewrite !lookup_put, !length_app, length_drop.
  destruct (decide (p + Z.of_nat (length pre) <= a < p + Z.of_nat (length pre) + Z.of_nat (length l))) as [H1|H1].
  - rewrite decide_True by lia. rewrite lookup_app_r by lia. rewrite !lookup_app_l by (rewrite ?length_app; lia). f_equal. lia.
  - destruct (decide (p <= a < _)) as [H2|H2]; [rewrite decide_True by lia|by rewrite decide_False by lia].
    destruct (decide (a < p + Z.of_nat (length pre))); [by rewrite !lookup_app_l by lia|].
    rewrite !(lookup_app_r pre) by lia. set (i := (Z.to_nat (a - p) - length pre)%nat). assert (length l <= i)%nat by lia.
    destruct (decide (i < length old)%nat).
    + rewrite lookup_app_l by lia. rewrite (lookup_app_l (l ++ _)) by (rewrite length_app, length_drop; lia). rewrite lookup_app_r, lookup_drop by lia. f_equal. lia.
    + rewrite (lookup_app_r old) by lia. rewrite (lookup_app_r (l ++ _)) by (rewrite length_app, length_drop; lia). f_equal. rewrite length_app, length_drop. lia.
Qed.

Lemma put_field h F f l m : sized F -> Z.of_nat (length l) <= sizeof f ->
  put (h + offsetof f) l (put h (encode F) m) = put h (encode (set_field f l F)) m.
Proof.
  intros HF Hl. destruct (encode_split F f all_fields HF all_fields_nodup (all_fields_all f)) as (pre & post & E & EL & ES).
  unfold encode, offsetof. rewrite E, ES, <- EL. apply put_inside. specialize (HF f). lia.
Qed.

Lemma field_at h F f m : sized F -> bytes_at (put h (encode F) m) (h + offsetof f) (F f).
Proof.
  intros HF. destruct (encode_split F f all_fields HF all_fields_nodup (all_fields_all f)) as (pre & post & E & EL & _).
  unfold encode, offsetof. rewrite E, <- EL. pose proof (bytes_at_put m h (pre ++ F f ++ post)) as H. apply bytes_at_app in H as [_ H]. by apply bytes_at_app in H as [H _].
Qed.

Lemma offset_range f : 0 <= offsetof f /\ offsetof f + sizeof f <= 512.
Proof. by destruct f. Qed.

(** ** The checksum *)

Fixpoint chk (i : Z) (l : list Z) : Z :=
  match l with [] => 0 | b :: l => (if (offsetof Chksum <=? i) && (i <? offsetof Chksum + sizeof Chksum) then ch " " else b) + chk (i + 1) l end.

Lemma chk_app l k : forall i, chk i (l ++ k) = chk i l + chk (i + Z.of_nat (length l)) k.
Proof.
  induction l as [|b l IH]; intros i; cbn [chk app length]; [by rewrite Z.add_0_r|]. rewrite IH. replace (i + Z.of_nat (S (length l))) with (i + 1 + Z.of_nat (length l)) by lia. lia.
Qed.

Lemma chk_range l : forall i, Forall is_u8 l -> 0 <= chk i l <= 255 * Z.of_nat (length l).
Proof.
  induction l as [|b l IH]; intros i H; cbn [chk length]; [lia|]. apply Forall_cons in H as [Hb H]. specialize (IH (i + 1) H). unfold is_u8 in Hb. pow2_consts.
  destruct (_ && _); change (ch " ") with 32; lia.
Qed.

(** The bytes of the checksum itself count as blanks. *)
Lemma chk_own l : forall i, 148 <= i -> i + Z.of_nat (length l) <= 156 -> chk i l = 32 * Z.of_nat (length l).
Proof.
  induction l as [|b l IH]; intros i H1 H2; cbn [chk length] in *; [done|]. change (offsetof Chksum) with 148. change (sizeof Chksum) with 8. change (ch " ") with 32.
  rewrite (proj2 (Z.leb_le 148 i)), (proj2 (Z.ltb_lt i _)) by lia. cbn [andb]. rewrite IH by lia. lia.
Qed.

Lemma chksum_loop_ok m h l : forall i acc, bytes_at m (h + i) l -> is_u32 acc -> chksum_loop (length l) h i acc m = Ok (u32 (acc + chk i l)).
Proof.
  induction l as [|b l IH]; intros i acc HB Ha; cbn [chksum_loop chk length]; [by rewrite Z.add_0_r, u32_small|]. apply bytes_at_cons in HB as [Hb HB].
  set (x := if (_ <=? i) && _ then ch " " else b). assert (E : (if (offsetof Chksum <=? i) && (i <? offsetof Chksum + sizeof Chksum) then mret (ch " ") else load m (h + i)) = Ok x).
  { subst x. rewrite (load_at _ _ _ Hb). by destruct (_ && _). }
  rewrite E. cbn [mbind outcome_bind]. rewrite IH; [|by replace (h + (i + 1)) with (h + i + 1) by lia|apply u32_range].
  f_equal. int_unfold. rewrite Zplus_mod_idemp_l. f_equal. lia.
Qed.

Definition checksum (F : fields) : Z := u32 (chk 0 (encode F)).

Lemma checksum_own F l : sized F -> Z.of_nat (length l) <= 8 -> checksum (set_field Chksum l F) = checksum F.
Proof.
  intros HF Hl. destruct (encode_split F Chksum all_fields HF all_fields_nodup (all_fields_all Chksum)) as (pre & post & E & EL & ES). change (offset_in Chksum all_fields) with 148 in EL.
  pose proof (HF Chksum) as HS. change (sizeof Chksum) with 8 in HS.
  assert (E2 : length (l ++ drop (length l) (F Chksum)) = length (F Chksum)) by (rewrite length_app, length_drop; lia).
  unfold checksum, encode. rewrite E, ES. set (x := l ++ _) in *. by rewrite !(chk_app pre), !(chk_app _ post), EL, (chk_own x), (chk_own (F Chksum)), E2 by lia.
Qed.

Lemma calculate_chksum_ok h F m : sized F -> calculate_chksum h (put h (encode F) m) = Ok (checksum F).
Proof.
  intros HF. unfold calculate_chksum. pose proof (chksum_loop_ok (put h (encode F) m) h (encode F) 0 0) as H. rewrite encode_length in H by done.
  apply H; [rewrite Z.add_0_r; apply bytes_at_put|done].
Qed.

(** ** Filling in a header *)

Lemma memset_loop_ok v n : forall p m, is_u8 v -> mapped m p (Z.of_nat n) -> memset_loop n p v m = Ok (tt, put p (replicate n v) m).
Proof.
  induction n as [|n IH]; intros p m Hv HM; [done|]. cbn [memset_loop replicate put]. destruct (HM p) as [x Hx]; [lia|].
  rewrite (M_bind_Ok _ _ _ _ _ (store_at _ _ _ _ Hx)), u8_small by done. rewrite IH; [|done|].
  - f_equal. f_equal. apply map_eq. intros a. rewrite lookup_put. destruct (decide (a = p)) as [->|Hn].
    + by rewrite decide_False, !lookup_insert_eq by lia.
    + by rewrite !(lookup_insert_ne _ p a), lookup_put by done.
  - intros a Ha. rewrite lookup_insert_ne by lia. apply HM. lia.
Qed.

Lemma strlcpy_put m dst src s size : 0 < dst -> 0 < src -> cstr m src s -> Z.of_nat (length s) < size -> mapped m dst size ->
  ~ (src < dst < src + Z.of_nat (length s)) -> strlcpy dst src size m = Ok (Z.of_nat (length s), put dst (s ++ [0]) m).
Proof.
  intros Hd Hs HC HL HM HO. unfold strlcpy. rewrite (proj2 (Z.eqb_neq dst 0)), (proj2 (Z.eqb_neq src 0)) by lia. cbn [negb ASSERT].
  rewrite (M_bind_Ok _ _ m tt m) by done. rewrite (M_bind_Ok _ _ m tt m) by done.
  rewrite (M_bind_Ok _ _ m (Z.of_nat (length s)) m) by (unfold reading; by rewrite (strlen_ok m src s) by (done || lia)).
  rewrite (M_bind_Ok _ _ m tt (put dst (s ++ [0]) m)); [done|]. rewrite (proj2 (Z.ltb_lt 0 size)) by lia.
  replace (if Z.of_nat (length s) <? size - 1 then Z.of_nat (length s) else size - 1) with (Z.of_nat (length s)) by (destruct (Z.ltb_spec (Z.of_nat (length s)) (size - 1)); lia).
  destruct (cstr_bytes m src s (length s) HC ltac:(lia)) as [HB HU]. rewrite firstn_all in HB, HU.
  rewrite (M_bind_Ok _ _ _ _ _ (memcpy_ok m dst src s Hd Hs HB HU ltac:(intros a Ha; apply HM; lia) HO)).
  destruct (HM (dst + Z.of_nat (length s))) as [x Hx]; [lia|]. erewrite store_at by (rewrite lookup_put, decide_False by lia; done). change (u8 0) with 0. by rewrite put_end.
Qed.

Definition make_literals : list string := ["0000000"; "%07o"; "%011o"; "ustar"; "root"]%string.

Section Make.
Context (lit : string -> Z) (m0 const : mem) (h : Z).
Context (HC : const ⊆ m0) (HH : 0 < h) (HM : mapped m0 h 512) (HD : forall a, h <= a < h + 512 -> const !! a = None).
Context (HE : literals lit engine_literals const) (HLit : literals lit make_literals const).

(** Memory with a header that has the fields [F]. *)
Definition headed (F : fields) : mem := put h (encode F) m0.

Lemma headed_const F : sized F -> const ⊆ headed F.
Proof.
  intros HF. apply map_subseteq_spec. intros a x Ha. unfold headed. rewrite lookup_put, encode_length by done. rewrite decide_False; [by eapply lookup_weaken|].
  intros Hr. by rewrite HD in Ha.
Qed.

Lemma headed_mapped F f : sized F -> mapped (headed F) (h + offsetof f) (sizeof f).
Proof.
  intros HF a Ha. pose proof (offset_range f). unfold headed. rewrite lookup_put, encode_length, decide_True by (done || lia). apply lookup_lt_is_Some_2. rewrite encode_length by done. lia.
Qed.

(** A string of the memory that stays does not reach into the header. *)
Lemma const_apart p s a : cstr const p s -> h <= a < h + 512 -> ~ (p <= a <= p + Z.of_nat (length s)).
Proof.
  intros [HB _] Ha Hp. destruct (lookup_lt_is_Some_2 (s ++ [0]) (Z.to_nat (a - p))) as [x Hx]; [rewrite length_app; cbn; lia|].
  specialize (HB _ _ Hx). rewrite Z2Nat.id in HB by lia. replace (p + (a - p)) with a in HB by lia. by rewrite HD in HB.
Qed.

Lemma copy_field_ok F f p s : sized F -> 0 < p -> cstr const p s -> Z.of_nat (length s) < sizeof f ->
  copy_field h f p (headed F) = Ok (tt, headed (set_field f (s ++ [0]) F)).
Proof.
  intros HF Hp HS HL. pose proof (offset_range f). unfold copy_field. erewrite M_bind_Ok.
  2:{ apply (strlcpy_put _ _ _ s); [lia|done|eapply cstr_sub; [by apply headed_const|done]|done|by apply headed_mapped|].
      pose proof (const_apart p s (h + offsetof f) HS). lia. }
  unfold mret, M_ret, headed. rewrite put_field; [done|done|rewrite length_app; cbn; lia].
Qed.

Lemma make_literal s : s ∈ make_literals -> cstr const (lit s) (str s) /\ 0 < lit s.
Proof. intros Hs. unfold literals in HLit. rewrite Forall_forall in HLit. by apply HLit. Qed.

(** [format] is [%0<k>o]. *)
Lemma print_field_ok F f size (format : string) (k : nat) v : sized F -> is_u32 v -> size <= sizeof f -> Z.of_nat k < size -> (1 <= k <= 11)%nat -> v < 8 ^ Z.of_nat k ->
  format ∈ make_literals -> render [Conv (Options [Zero] (Some (Num (Z.of_nat k))) None INT) Co v] = str format ->
  print_field lit h f size format v (headed F) = Ok (tt, headed (set_field f (fixed k base_o v ++ [0]) F)).
Proof.
  intros HF Hv Hz Hk Hk' Hv8 Hs HR. pose proof (offset_range f). set (o := Options [Zero] (Some (Num (Z.of_nat k))) None INT) in *.
  assert (ET : text (fun _ => []) [Conv o Co v] = fixed k base_o v).
  { unfold text. cbn [mbind list_bind text_item]. rewrite app_nil_r. change (bits (o_type o)) with 32. rewrite Z.mod_small by done.
    apply text_fixed; [right; by left|lia|]. change (base base_o) with 8. unfold is_u32 in Hv. lia. }
  assert (EW : words [Conv o Co v] = [v]) by (cbn; by rewrite u32_small).
  assert (HO : options_ok o) by (split; [cbn; pow2_consts; lia|split; [done|done]]).
  pose proof (vsnprintf_ok (headed F) const (h + offsetof f) (Z.to_nat (size - 1)) (headed_const F HF)) as H0.
  specialize (H0 ltac:(intros a Ha; apply (headed_mapped F f HF); lia) ltac:(intros a Ha; apply HD; lia) lit (fun _ => []) [Conv o Co v] (lit format) [] size HE).
  cbn zeta in H0. rewrite EW, app_nil_r, ET, length_fixed in H0. unfold print_field, snprintf. erewrite M_bind_Ok.
  2:{ apply H0; [constructor; [by split|constructor]|rewrite HR; by apply make_literal|lia|pow2_consts; destruct f; cbn in *; lia|intros a Ha; apply (headed_mapped F f HF); lia|pow2_consts; lia]. }
  rewrite (proj2 (Z.ltb_lt 0 size)) by lia. rewrite take_ge by (rewrite length_fixed; lia). unfold mret, M_ret, headed.
  rewrite put_field; [done|done|rewrite length_app, length_fixed; cbn; lia].
Qed.

Lemma store_field_ok F f v : sized F -> is_u8 v -> 1 <= sizeof f -> store (h + offsetof f) v (headed F) = Ok (tt, headed (set_field f [v] F)).
Proof.
  intros HF Hv Hf. destruct (headed_mapped F f HF (h + offsetof f)) as [x Hx]; [lia|]. rewrite (store_at _ _ _ _ Hx), u8_small by done.
  do 2 f_equal. unfold headed. rewrite <- put_field by (cbn; done || lia). done.
Qed.

Lemma store_version_ok F : sized F -> (do* store (h + offsetof Version + 1) (ch "0") ; store (h + offsetof Version) (ch "0")) (headed F) = Ok (tt, headed (set_field Version (str "00") F)).
Proof.
  intros HF. destruct (headed_mapped F Version HF (h + offsetof Version + 1)) as [x Hx]; [cbn; lia|]. destruct (headed_mapped F Version HF (h + offsetof Version)) as [y Hy]; [cbn; lia|].
  rewrite (M_bind_Ok _ _ _ _ _ (store_at _ _ _ _ Hx)). erewrite store_at by (rewrite lookup_insert_ne by lia; done). do 2 f_equal.
  unfold headed. rewrite <- put_field by done. done.
Qed.

(** The header that is made: everything but the checksum, and the checksum. *)
Definition blank_fields : fields := fun f => replicate (Z.to_nat (sizeof f)) 0.
Definition made_base (name : list Z) (type size : Z) : fields :=
  set_field Uname (str "root" ++ [0]) (set_field Gname (str "root" ++ [0]) (set_field Version (str "00") (set_field Magic (str "ustar" ++ [0])
    (set_field Typeflag [type] (set_field Mtime (fixed 11 base_o 1136102400 ++ [0]) (set_field Size (fixed 11 base_o (u32 size) ++ [0])
      (set_field Gid (str "0000000" ++ [0]) (set_field Uid (str "0000000" ++ [0])
        (set_field Mode (fixed 7 base_o (if type =? USTAR_REGULAR then 420 else 493) ++ [0]) (set_field Name (name ++ [0]) blank_fields)))))))))).
Definition made (name : list Z) (type size : Z) : fields :=
  set_field Chksum (fixed 7 base_o (checksum (made_base name type size)) ++ [0]) (made_base name type size).

Lemma blank_sized : sized blank_fields.
Proof. intros f. unfold blank_fields. rewrite length_replicate. by destruct f. Qed.

Lemma made_base_sized name type size : Z.of_nat (length name) <= 99 -> sized (made_base name type size).
Proof. intros Hn. unfold made_base. repeat (apply sized_set; [|rewrite ?length_app, ?length_fixed; cbn [length sizeof str]; lia]). apply blank_sized. Qed.

Lemma made_sized name type size : Z.of_nat (length name) <= 99 -> sized (made name type size).
Proof. intros Hn. apply sized_set; [by apply made_base_sized|]. rewrite length_app, length_fixed. done. Qed.

Definition bytewise (F : fields) : Prop := forall f, Forall is_u8 (F f).

Lemma bytewise_set f l F : bytewise F -> Forall is_u8 l -> bytewise (set_field f l F).
Proof. intros HF Hl g. unfold set_field. destruct (decide (g = f)); [|apply HF]. apply Forall_app. split; [done|]. apply Forall_drop, HF. Qed.

Lemma fixed_octal_u8 k : forall v, Forall is_u8 (fixed k base_o v).
Proof.
  induction k as [|k IH]; intros v; cbn [fixed]; [constructor|]. apply Forall_app. split; [apply IH|]. constructor; [|constructor].
  destruct (digit_lookup base_o (v mod 8)) as (c & E & Hc & _); [right; by left|by apply Z.mod_pos_bound|]. unfold digit_char. change (base base_o) with 8. rewrite E. unfold is_char in Hc. cbn. unfold is_u8. lia.
Qed.

Lemma made_base_u8 name type size : Forall is_char name -> is_u8 type -> bytewise (made_base name type size).
Proof.
  intros Hn Ht. unfold made_base.
  repeat (apply bytewise_set; [|first [by apply Forall_singleton | by repeat constructor | apply Forall_app; split; [first [apply fixed_octal_u8 | by apply char_u8]|by repeat constructor]]]).
  intros f. unfold blank_fields. by apply Forall_replicate.
Qed.

Lemma made_u8 name type size : Forall is_char name -> is_u8 type -> bytewise (made name type size).
Proof. intros Hn Ht. unfold made. apply bytewise_set; [by apply made_base_u8|]. apply Forall_app. split; [apply fixed_octal_u8|by repeat constructor]. Qed.

Lemma encode_u8 F : bytewise F -> Forall is_u8 (encode F).
Proof. intros H. unfold encode, encode_in. cbn [mbind list_bind all_fields]. rewrite !Forall_app. repeat (split; [apply H|]). constructor. Qed.

Lemma made_checksum name type size : Z.of_nat (length name) <= 99 -> Forall is_char name -> is_u8 type -> 0 <= checksum (made_base name type size) <= 130560.
Proof.
  intros Hl Hn Ht. pose proof (chk_range (encode (made_base name type size)) 0 (encode_u8 _ (made_base_u8 name type size Hn Ht))) as H.
  rewrite encode_length in H by (by apply made_base_sized). unfold checksum. rewrite u32_small; [lia|]. unfold is_u32. pow2_consts. lia.
Qed.

(** A program that sets the field [f] to [l] in any header. *)
Definition sets (p : M mem unit) (f : header_field) (l : list Z) : Prop :=
  Z.of_nat (length l) <= sizeof f /\ forall F, sized F -> p (headed F) = Ok (tt, headed (set_field f l F)).

Lemma sets_bind {A} p f l F (k : unit -> M mem A) r : sets p f l -> sized F -> (sized (set_field f l F) -> k tt (headed (set_field f l F)) = r) -> mbind k p (headed F) = r.
Proof. intros [HL HP] HF HK. rewrite (M_bind_Ok _ _ _ _ _ (HP F HF)). by apply HK, sized_set. Qed.

Lemma sets_copy f p s : 0 < p -> cstr const p s -> Z.of_nat (length s) < sizeof f -> sets (copy_field h f p) f (s ++ [0]).
Proof. intros Hp HS HL. split; [rewrite length_app; cbn [length]; lia|]. intros F HF. by apply copy_field_ok. Qed.

Lemma sets_literal f s : s ∈ make_literals -> Z.of_nat (length (str s)) < sizeof f -> sets (copy_field h f (lit s)) f (str s ++ [0]).
Proof. intros Hs HL. destruct (make_literal s Hs). by apply sets_copy. Qed.

Lemma sets_octal f size (format : string) (k : nat) v : is_u32 v -> size <= sizeof f -> Z.of_nat k < size -> (1 <= k <= 11)%nat -> v < 8 ^ Z.of_nat k ->
  format ∈ make_literals -> render [Conv (Options [Zero] (Some (Num (Z.of_nat k))) None INT) Co v] = str format ->
  sets (print_field lit h f size format v) f (fixed k base_o v ++ [0]).
Proof. intros. split; [rewrite length_app, length_fixed; cbn [length]; lia|]. intros F HF. by apply print_field_ok. Qed.

Lemma fill_header_ok p name type size : 0 < p -> cstr const p name -> Z.of_nat (length name) <= 99 -> is_u8 type ->
  fill_header lit h p type size m0 = Ok (tt, headed (made name type size)).
Proof.
  intros Hp HS HL Ht. unfold fill_header. rewrite (M_bind_Ok _ _ m0 h (headed blank_fields)).
  2:{ unfold memset. rewrite (proj2 (Z.eqb_neq h 0)) by lia. cbn [negb orb ASSERT]. rewrite (M_bind_Ok _ _ m0 tt m0) by done.
      by rewrite (M_bind_Ok _ _ _ _ _ (memset_loop_ok 0 512 h m0 ltac:(done) HM)). }
  pose proof blank_sized as S0. pose proof (made_checksum name type size HL (proj2 HS) Ht) as HX.
  assert (Hm : is_u32 (if type =? USTAR_REGULAR then 420 else 493) /\ (if type =? USTAR_REGULAR then 420 else 493) < 8 ^ 7) by (destruct (type =? USTAR_REGULAR); by repeat split).
  assert (Hsz : u32 size < 8 ^ 11) by (pose proof (u32_range size); int_unfold; lia).
  eapply sets_bind; [by apply (sets_copy Name p name); [..|cbn [sizeof]; lia]|done|]. clear S0. intros S0.
  eapply sets_bind; [apply (sets_octal Mode 8 "%07o" 7); [apply Hm|done|done|lia|apply Hm|set_solver|done]|done|]. clear S0. intros S0.
  do 2 (eapply sets_bind; [by apply sets_literal; [set_solver|]|done|]; clear S0; intros S0).
  eapply sets_bind; [apply (sets_octal Size 12 "%011o" 11); [apply u32_range|done|done|lia|done|set_solver|done]|done|]. clear S0. intros S0.
  eapply sets_bind; [apply (sets_octal Mtime 12 "%011o" 11); [done|done|done|lia|done|set_solver|done]|done|]. clear S0. intros S0.
  eapply (sets_bind _ Typeflag [type]); [split; [done|]; intros F HF; by apply store_field_ok|done|]. clear S0. intros S0.
  eapply sets_bind; [by apply sets_literal; [set_solver|]|done|]. clear S0. intros S0.
  rewrite <- M_bind_assoc. eapply (sets_bind _ Version (str "00")); [split; [done|]; intros F HF; by apply store_version_ok|done|]. clear S0. intros S0.
  do 2 (eapply sets_bind; [by apply sets_literal; [set_solver|]|done|]; clear S0; intros S0).
  rewrite (M_bind_Ok _ _ _ (checksum (made_base name type size)) (headed (made_base name type size))) by (unfold reading, headed; by rewrite (calculate_chksum_ok h _ m0 S0)).
  apply (sets_octal Chksum 8 "%07o" 7); [unfold is_u32; pow2_consts; lia|done|done|lia|change (8 ^ Z.of_nat 7) with 2097152; lia|set_solver|done|done].
Qed.
End Make.

(** ** Taking a header apart *)

Definition octal_value (v : Z) (ds : list Z) : Z := foldl (fun a c => c - 48 + a * 8) v ds.

Lemma octal_value_le ds : forall v, 0 <= v -> Forall (fun c => 48 <= c <= 55) ds -> v <= octal_value v ds.
Proof.
  induction ds as [|c ds IH]; intros v Hv HF; [done|]. apply Forall_cons in HF as [Hc HF]. specialize (IH (c - 48 + v * 8) ltac:(lia) HF). change (v <= octal_value (c - 48 + v * 8) ds). lia.
Qed.

Lemma octal_loop_ok m p ds : forall n ofs v, bytes_at m (p + ofs) (ds ++ [0]) -> Forall (fun c => 48 <= c <= 55) ds -> (length ds < n)%nat -> 0 <= v -> octal_value v ds < 2 ^ 32 ->
  ds <> [] \/ 0 < ofs -> 0 <= ofs -> octal_loop n m p ofs v = Ok (true, octal_value v ds).
Proof.
  induction ds as [|c ds IH]; intros [|n] ofs v HB HF Hn Hv HV Hne Ho; cbn [length] in Hn; try lia; cbn [octal_loop app] in *; apply bytes_at_cons in HB as [Hb HB]; rewrite (load_at _ _ _ Hb); cbn [mbind outcome_bind].
  - cbn [Z.eqb orb andb Z.leb]. change (ch "0" <=? 0) with false. cbn [andb]. destruct Hne as [|Hne]; [done|]. rewrite (proj2 (Z.ltb_lt 0 ofs)) by lia. by rewrite orb_true_r.
  - apply Forall_cons in HF as [Hc HF]. change (ch "0") with 48. change (ch "7") with 55. rewrite (proj2 (Z.leb_le 48 c)), (proj2 (Z.leb_le c 55)) by lia. cbn [andb].
    change (octal_value v (c :: ds)) with (octal_value (c - 48 + v * 8) ds) in *. pose proof (octal_value_le ds (c - 48 + v * 8) ltac:(lia) HF).
    rewrite (proj2 (Z.ltb_ge _ v)) by (change ((2 ^ 32 - 1) / 8) with 536870911; pow2_consts; lia). rewrite u32_small by (unfold is_u32; lia).
    apply IH; [by replace (p + (ofs + 1)) with (p + ofs + 1) by lia|done|lia|lia|done|right; lia|lia].
Qed.

Lemma fixed_octal k : forall v x, 0 <= x < 8 ^ Z.of_nat k -> octal_value v (fixed k base_o x) = v * 8 ^ Z.of_nat k + x /\ Forall (fun c => 48 <= c <= 55) (fixed k base_o x).
Proof.
  induction k as [|k IH]; intros v x Hx; cbn [fixed]; [cbn in *; split; [lia|constructor]|]. change (base base_o) with 8. rewrite Nat2Z.inj_succ, Z.pow_succ_r in * by lia.
  destruct (IH v (x / 8)) as [E HF]; [split; [apply Z.div_pos; lia|apply Z.div_lt_upper_bound; lia]|].
  assert (EC : digit_char base_o (x mod 8) = 48 + x mod 8) by (unfold digit_char; pose proof (Z.mod_pos_bound x 8); rewrite (low_digit base_o (x mod 8)); [done|right; by left|cbn; lia|lia]).
  rewrite EC. pose proof (Z.mod_pos_bound x 8 ltac:(lia)). split; [|apply Forall_app; split; [done|constructor; [lia|constructor]]].
  unfold octal_value in *. rewrite foldl_app, E. cbn [foldl]. pose proof (Z.div_mod x 8). lia.
Qed.

Lemma parse_octal_ok m p size k x : bytes_at m p (fixed k base_o x ++ [0]) -> 0 <= x < 8 ^ Z.of_nat k -> x < 2 ^ 32 -> (1 <= k)%nat -> Z.of_nat k < size -> parse_octal_field m p size = Ok (true, x).
Proof.
  intros HB Hx H32 Hk Hs. destruct (fixed_octal k 0 x Hx) as [E HF]. unfold parse_octal_field.
  rewrite (octal_loop_ok m p (fixed k base_o x)); [by rewrite E|by rewrite Z.add_0_r|done|rewrite length_fixed; lia|done|rewrite E; lia| |done].
  left. intros E0. apply (f_equal length) in E0. rewrite length_fixed in E0. cbn in E0. lia.
Qed.

Lemma zeros_from_false m l : forall p, bytes_at m p l -> Exists (fun b => b <> 0) l -> zeros_from (length l) m p = Ok false.
Proof.
  induction l as [|b l IH]; intros p HB HE; [by apply Exists_nil in HE|]. apply bytes_at_cons in HB as [Hb HB]. cbn [length zeros_from]. rewrite (load_at _ _ _ Hb). cbn [mbind outcome_bind].
  destruct (Z.eqb_spec b 0) as [->|]; [|done]. cbn [negb]. apply IH; [done|]. by apply Exists_cons in HE as [|].
Qed.

Lemma encode_exists F f (P : Z -> Prop) : Exists P (F f) -> Exists P (encode F).
Proof.
  rewrite !Exists_exists. intros (x & Hx & HP). exists x. split; [|done]. unfold encode, encode_in. apply list_elem_of_bind. exists f. split; [done|apply all_fields_all].
Qed.

Lemma memcmp_same m a b l : a <> 0 -> b <> 0 -> bytes_at m a l -> bytes_at m b l -> memcmp m a b (Z.of_nat (length l)) = Ok 0.
Proof.
  intros Ha Hb HA HB. unfold memcmp. rewrite (proj2 (Z.eqb_neq a 0)), (proj2 (Z.eqb_neq b 0)) by done. cbn [negb orb assert mbind outcome_bind]. rewrite Nat2Z.id, (memcmp_loop_ok m l l) by done.
  by rewrite (proj2 (lex_eq l l)).
Qed.

Lemma headed_bytes m h F : headed m h F = put h (encode F) m.
Proof. reflexivity. Qed.

(** The name in a header that has been made, and the end of its field. *)
Lemma made_name m h name type size : Z.of_nat (length name) <= 99 -> Forall is_char name ->
  cstr (headed m h (made name type size)) h name /\ headed m h (made name type size) !! (h + offsetof Name + (sizeof Name - 1)) = Some 0.
Proof.
  intros HL Hn. pose proof (field_at h (made name type size) Name m (made_sized name type size HL)) as HN.
  assert (EF : made name type size Name = name ++ [0] ++ drop (length (name ++ [0])) (replicate 100 0)) by (unfold made, made_base; by rewrite app_assoc).
  rewrite EF in HN. change (offsetof Name) with 0 in *. change (sizeof Name - 1) with (Z.of_nat 99). rewrite Z.add_0_r in *. split.
  - split; [|done]. rewrite app_assoc in HN. by apply bytes_at_app in HN as [HN _].
  - apply HN. rewrite drop_replicate. rewrite lookup_app_r by lia. destruct (99 - length name)%nat as [|j] eqn:Ej; [done|].
    cbn [app lookup list_lookup]. apply lookup_replicate. split; [done|]. rewrite length_app. cbn [length]. lia.
Qed.

Section Parse.
Context (lit : string -> Z) (m0 const : mem) (h : Z).
Context (HC : const ⊆ m0) (HH : 0 < h) (HD : forall a, h <= a < h + 512 -> const !! a = None).
Context (HU : literals lit ustar_literals const) (HLit : literals lit make_literals const).
Notation headed := (headed m0 h).

Lemma literals_sub l m : const ⊆ m -> literals lit l const -> literals lit l m.
Proof. intros Hm HL. eapply Forall_impl; [exact HL|]. intros s [H1 H2]. split; [by eapply cstr_sub|done]. Qed.

(** A header with a name, a type and a size is read back. *)
Lemma parse_made name type size : Z.of_nat (length name) <= 99 -> Forall is_char name -> safe_name name -> type = USTAR_REGULAR \/ type = USTAR_DIRECTORY -> 0 <= size < 2 ^ 31 ->
  ustar_parse_header lit (headed (made name type size)) h = Ok (Parsed h type (if type =? USTAR_REGULAR then size else 0)).
Proof.
  intros HL Hn Hsafe Ht Hs. set (F := made name type size). set (m := headed F). assert (HF : sized F) by (by apply made_sized).
  assert (Hf : forall f, bytes_at m (h + offsetof f) (F f)) by (intros f; by apply field_at).
  assert (Hcm : const ⊆ m) by (apply (headed_const m0 const h HC HD F HF)).
  assert (HZ : is_all_zeros m h USTAR_HEADER_SIZE = Ok false).
  { unfold is_all_zeros. change (Z.to_nat USTAR_HEADER_SIZE) with 512%nat. rewrite <- (encode_length F HF). apply zeros_from_false; [apply bytes_at_put|].
    apply (encode_exists F Magic). by constructor. }
  assert (HX := made_checksum name type size HL Hn). specialize (HX ltac:(by destruct Ht as [-> | ->])).
  unfold ustar_parse_header. rewrite HZ. cbn [mbind outcome_bind].
  destruct (make_literal lit const HLit "ustar" ltac:(set_solver)) as [HMB HMp]. apply (cstr_sub _ _ _ _ Hcm) in HMB as [HMB _].
  assert (EM : memcmp m (h + offsetof Magic) (lit "ustar") 6 = Ok 0).
  { apply (memcmp_same m (h + offsetof Magic) (lit "ustar") (str "ustar" ++ [0])); [pose proof (offset_range Magic); lia|lia|apply (Hf Magic)|done]. }
  rewrite EM. cbn [mbind outcome_bind Z.eqb negb].
  assert (HV := Hf Version). change (F Version) with [48; 48] in HV. rewrite !bytes_at_cons in HV. destruct HV as (HV0 & HV1 & _).
  rewrite (load_at _ _ _ HV0). cbn [mbind outcome_bind]. change (negb (48 =? ch "0")) with false. rewrite (load_at _ _ _ HV1). cbn [mbind outcome_bind mret outcome_ret]. change (negb (48 =? ch "0")) with false. cbn iota.
  assert (HK : parse_octal_field m (h + offsetof Chksum) (sizeof Chksum) = Ok (true, checksum (made_base name type size))).
  { apply (parse_octal_ok m _ _ 7); [|change (8 ^ Z.of_nat 7) with 2097152; lia|pow2_consts; lia|lia|done].
    assert (H := Hf Chksum). unfold F, made in H. rewrite set_field_eq in H. by apply bytes_at_app in H as [H _]. }
  assert (ES : calculate_chksum h m = Ok (checksum (made_base name type size))).
  { unfold m, Ustar.headed. rewrite calculate_chksum_ok by done. unfold F, made. by rewrite checksum_own by (by apply made_base_sized || (rewrite length_app, length_fixed; done)). }
  rewrite HK. cbn [mbind outcome_bind negb]. rewrite ES. cbn [mbind outcome_bind]. rewrite Z.eqb_refl. cbn [negb].
  destruct (made_name m0 h name type size HL Hn) as [HNc HNl]. fold F m in HNc, HNl.
  rewrite (load_at _ _ _ HNl). cbn [mbind outcome_bind Z.eqb negb].
  assert (HP := Hf Prefix). change (F Prefix) with (0 :: replicate 154 0) in HP. apply bytes_at_cons in HP as [HP _]. rewrite (load_at _ _ _ HP). cbn [mbind outcome_bind mret outcome_ret Z.eqb negb].
  assert (HT := Hf Typeflag). change (F Typeflag) with [type] in HT. apply bytes_at_cons in HT as [HT _]. rewrite (load_at _ _ _ HT). cbn [mbind outcome_bind].
  assert (HSt : strip_antisocial_prefixes lit m (h + offsetof Name) = Ok h).
  { change (h + offsetof Name) with (h + 0). rewrite Z.add_0_r. apply (strip_safe_ok lit m (literals_sub _ _ Hcm HU) h name); done. }
  destruct Ht as [-> | ->].
  - change (negb (USTAR_REGULAR =? USTAR_REGULAR) && negb (USTAR_REGULAR =? USTAR_DIRECTORY)) with false. rewrite Z.eqb_refl.
    assert (HSz : parse_octal_field m (h + offsetof Size) (sizeof Size) = Ok (true, size)).
    { apply (parse_octal_ok m _ _ 11); [|change (8 ^ Z.of_nat 11) with (2 ^ 33); pow2_consts; lia|pow2_consts; lia|lia|done].
      assert (H := Hf Size). change (F Size) with ((fixed 11 base_o (u32 size) ++ [0]) ++ []) in H. rewrite app_nil_r, u32_small in H by solve_int. done. }
    rewrite HSz. cbn [mbind outcome_bind mret outcome_ret negb]. rewrite (proj2 (Z.ltb_ge _ size)) by lia. rewrite HSt. cbn. by rewrite s32_small by solve_int.
  - change (negb (USTAR_DIRECTORY =? USTAR_REGULAR) && negb (USTAR_DIRECTORY =? USTAR_DIRECTORY)) with false. change (USTAR_DIRECTORY =? USTAR_REGULAR) with false.
    cbn [mbind outcome_bind mret outcome_ret]. by rewrite HSt.
Qed.
End Parse.

(** ** Damaged headers *)

Lemma octal_loop_ext m m' p n : forall ofs v, (forall a, p + ofs <= a < p + ofs + Z.of_nat n -> m' !! a = m !! a) -> octal_loop n m' p ofs v = octal_loop n m p ofs v.
Proof.
  induction n as [|n IH]; intros ofs v H; [done|]. cbn [octal_loop]. unfold load. rewrite H by lia. destruct (m !! (p + ofs)) as [c|]; [|done]. cbn [mbind outcome_bind].
  rewrite IH by (intros a Ha; apply H; lia). done.
Qed.

Lemma zeros_from_total m l : forall p, bytes_at m p l -> zeros_from (length l) m p = Ok (forallb (fun b => b =? 0) l).
Proof.
  induction l as [|b l IH]; intros p HB; [done|]. apply bytes_at_cons in HB as [Hb HB]. cbn [length zeros_from forallb]. rewrite (load_at _ _ _ Hb). cbn [mbind outcome_bind].
  destruct (b =? 0); cbn [negb andb]; [by apply IH|done].
Qed.

Lemma chk_insert l i b b' : l !! i = Some b -> (Z.of_nat i < 148 \/ 156 <= Z.of_nat i) -> chk 0 (<[i:=b']> l) = chk 0 l + (b' - b).
Proof.
  intros Hi Ho. pose proof (lookup_lt_Some _ _ _ Hi). rewrite <- (take_drop_middle l i b Hi) at 2. rewrite insert_take_drop by done. rewrite !chk_app. cbn [chk].
  change (offsetof Chksum) with 148. change (sizeof Chksum) with 8. rewrite length_take_le by lia.
  destruct (Z.leb_spec 148 (0 + Z.of_nat i)), (Z.ltb_spec (0 + Z.of_nat i) (148 + 8)); cbn [andb]; lia.
Qed.

Lemma header_at m h H f : length H = 512%nat -> bytes_at (put h H m) (h + offsetof f) (take (Z.to_nat (sizeof f)) (drop (Z.to_nat (offsetof f)) H)).
Proof.
  intros HL. pose proof (offset_range f). assert (0 <= sizeof f) by by destruct f. pose proof (bytes_at_put m h H) as HB. rewrite <- (take_drop (Z.to_nat (offsetof f)) H) in HB at 2. apply bytes_at_app in HB as [_ HB].
  rewrite length_take, HL in HB. rewrite <- (take_drop (Z.to_nat (sizeof f)) (drop _ H)) in HB. apply bytes_at_app in HB as [HB _].
  by replace (h + Z.of_nat (Z.to_nat (offsetof f) `min` 512)) with (h + offsetof f) in HB by lia.
Qed.

Section Damage.
Context (lit : string -> Z) (m const : mem) (h : Z).
Context (HC : const ⊆ m) (HH : 0 < h) (HD : forall a, h <= a < h + 512 -> const !! a = None) (HLit : literals lit make_literals const).

Lemma magic_literal H : length H = 512%nat -> bytes_at (put h H m) (lit "ustar") (str "ustar" ++ [0]) /\ 0 < lit "ustar".
Proof.
  intros HL. destruct (make_literal lit const HLit "ustar" ltac:(set_solver)) as [[HB _] Hp]. split; [|done]. intros i x Hi. specialize (HB i x Hi). rewrite lookup_put, decide_False; [by eapply lookup_weaken|].
  intros Hr. rewrite HL in Hr. by rewrite HD in HB by lia.
Qed.

Lemma magic_memcmp H : length H = 512%nat -> memcmp (put h H m) (h + offsetof Magic) (lit "ustar") 6 = Ok (lex (take 6 (drop 257 H)) (str "ustar" ++ [0])).
Proof.
  intros HL. destruct (magic_literal H HL) as [HB Hp]. pose proof (offset_range Magic). unfold memcmp. rewrite (proj2 (Z.eqb_neq (h + offsetof Magic) 0)), (proj2 (Z.eqb_neq (lit "ustar") 0)) by lia.
  cbn [negb orb assert mbind outcome_bind]. replace (Z.to_nat 6) with (length (take 6 (drop 257 H))) by (rewrite length_take, length_drop; lia).
  apply memcmp_loop_ok; [rewrite length_take, length_drop, HL; done|apply (header_at m h H Magic HL)|done].
Qed.

Lemma header_byte H i : length H = 512%nat -> 0 <= i < 512 -> exists b, load (put h H m) (h + i) = Ok b.
Proof.
  intros HL Hi. destruct (lookup_lt_is_Some_2 H (Z.to_nat i)) as [b Hb]; [lia|]. exists b. apply load_at.
  pose proof (bytes_at_put m h H _ _ Hb) as HB. by rewrite Z2Nat.id in HB by lia.
Qed.

(** What a header that is accepted has. *)
Lemma accepted_header H p t n : length H = 512%nat -> ustar_parse_header lit (put h H m) h = Ok (Parsed p t n) -> t <> USTAR_EOF ->
  take 6 (drop 257 H) = str "ustar" ++ [0] /\ parse_octal_field (put h H m) (h + offsetof Chksum) (sizeof Chksum) = Ok (true, u32 (chk 0 H)).
Proof.
  intros HL HP Ht. unfold ustar_parse_header in HP. apply outcome_bind_inv in HP as (z & _ & HP). destruct z; [by injection HP as _ <- _|].
  rewrite magic_memcmp in HP by done. cbn [mbind outcome_bind] in HP. destruct (Z.eqb_spec (lex (take 6 (drop 257 H)) (str "ustar" ++ [0])) 0) as [E|]; [|done]. cbn [negb] in HP. apply lex_eq in E. split; [done|].
  apply outcome_bind_inv in HP as (v0 & _ & HP). apply outcome_bind_inv in HP as (bad & _ & HP). destruct bad; [done|].
  apply outcome_bind_inv in HP as ([ok k] & EK & HP). destruct ok; [|done]. cbn [negb] in HP. apply outcome_bind_inv in HP as (sum & ES & HP).
  destruct (Z.eqb_spec k sum) as [->|]; [|done]. rewrite EK. do 2 f_equal. unfold calculate_chksum in ES.
  pose proof (chksum_loop_ok (put h H m) h H 0 0) as HX. rewrite HL in HX. change (Z.to_nat USTAR_HEADER_SIZE) with 512%nat in ES. rewrite HX in ES by (rewrite ?Z.add_0_r; done || apply bytes_at_put).
  by injection ES as <-.
Qed.

Lemma damaged_header H i b b' p t n : length H = 512%nat -> Forall is_u8 H -> is_u8 b' -> H !! i = Some b -> b <> b' -> (Z.of_nat i < 148 \/ 156 <= Z.of_nat i) ->
  ustar_parse_header lit (put h H m) h = Ok (Parsed p t n) -> t <> USTAR_EOF ->
  exists e, ustar_parse_header lit (put h (<[i:=b']> H) m) h = Ok (Error e).
Proof.
  intros HL HU Hb' Hi Hne Ho HP Ht. destruct (accepted_header H p t n HL HP Ht) as [EM EK]. pose proof (lookup_lt_Some _ _ _ Hi) as Hlt. pose proof (Forall_lookup_1 _ _ _ _ HU Hi) as Hb.
  set (H' := <[i:=b']> H). assert (HL' : length H' = 512%nat) by (subst H'; by rewrite length_insert). set (m' := put h H' m).
  assert (HZ : is_all_zeros m' h USTAR_HEADER_SIZE = Ok false).
  { unfold is_all_zeros. change (Z.to_nat USTAR_HEADER_SIZE) with 512%nat. rewrite <- HL' at 1. apply zeros_from_false; [apply bytes_at_put|]. apply Exists_exists.
    assert (E1 : H !! 257%nat = Some 117) by (rewrite <- (Nat.add_0_r 257), <- lookup_drop, <- (lookup_take_lt _ 6), EM by lia; done).
    assert (E2 : H !! 258%nat = Some 115) by (change 258%nat with (257 + 1)%nat; rewrite <- lookup_drop, <- (lookup_take_lt _ 6), EM by lia; done).
    destruct (decide (i = 257%nat)) as [->|]; [exists 115|exists 117]; (split; [|done]); apply list_elem_of_lookup; [exists 258%nat|exists 257%nat]; subst H'; by rewrite list_lookup_insert_ne by lia. }
  assert (EK' : parse_octal_field m' (h + offsetof Chksum) (sizeof Chksum) = Ok (true, u32 (chk 0 H))).
  { rewrite <- EK. unfold parse_octal_field. apply octal_loop_ext. change (offsetof Chksum) with 148. change (Z.to_nat (sizeof Chksum)) with 8%nat. intros a Ha. unfold m'. rewrite !lookup_put, HL, HL'.
    destruct (decide _); [|done]. subst H'. by rewrite list_lookup_insert_ne by lia. }
  assert (ES : calculate_chksum h m' = Ok (u32 (chk 0 H'))).
  { unfold calculate_chksum. change (Z.to_nat USTAR_HEADER_SIZE) with 512%nat. rewrite <- HL'. apply (chksum_loop_ok m' h H' 0 0); [rewrite Z.add_0_r; apply bytes_at_put|done]. }
  unfold ustar_parse_header. fold m'. rewrite HZ. cbn [mbind outcome_bind]. pose proof (magic_memcmp H' HL') as EC. fold m' in EC. rewrite EC. cbn [mbind outcome_bind]. destruct (negb _); [by eexists|].
  destruct (header_byte H' (offsetof Version) HL' ltac:(done)) as [v0 EV0]. destruct (header_byte H' (offsetof Version + 1) HL' ltac:(done)) as [v1 EV1]. rewrite Z.add_assoc in EV1.
  fold m' in EV0, EV1. rewrite EV0. cbn [mbind outcome_bind]. rewrite EV1. cbn [mbind outcome_bind mret outcome_ret].
  assert (E : exists x, (if negb (v0 =? ch "0") then Ok true else Ok (negb (v1 =? ch "0"))) = Ok x) by (destruct (negb (v0 =? ch "0")); eauto).
  destruct E as [x Ex]. unfold mret, outcome_ret in *. rewrite Ex. cbn [mbind outcome_bind]. destruct x; [by eexists|]. rewrite EK'. cbn [mbind outcome_bind negb]. rewrite ES. cbn [mbind outcome_bind].
  rewrite (proj2 (Z.eqb_neq _ _)); [by eexists|]. pose proof (chk_range H 0 HU) as HR. pose proof (chk_range H' 0 ltac:(by apply Forall_insert)) as HR'. rewrite HL in HR. rewrite HL' in HR'.
  subst H'. rewrite (chk_insert H i b b') in * by done. rewrite !u32_small by solve_int. lia.
Qed.
End Damage.

(** ** Theorems *)

Definition error_literal : string := "%s: file name too long
".
Definition all_literals : list string := engine_literals ++ ustar_literals ++ make_literals ++ [error_literal].

Section Theorems.
Context (lit : string -> Z) (m const : mem) (header : Z).
Context (HC : const ⊆ m) (HH : 0 < header) (HM : mapped m header 512) (HD : forall a, header <= a < header + 512 -> const !! a = None).
Context (HL : literals lit all_literals const).

Lemma make_header_ok p s type size c : 0 < p -> cstr const p s -> Z.of_nat (length (strip s)) <= 99 -> type = USTAR_REGULAR \/ type = USTAR_DIRECTORY ->
  ustar_make_header lit p type size header (m, c) = Ok (true, (headed m header (made (strip s) type size), c)) /\ Forall is_char (strip s).
Proof.
  intros Hp HS Hlen Ht. unfold all_literals, literals in HL. rewrite !Forall_app in HL. destruct HL as (HE & HU & HMk & _).
  destruct (strip_ok lit m (literals_sub lit const ustar_literals m HC HU) p s Hp (cstr_sub _ _ _ _ HC HS)) as (q & EQ & HQ).
  destruct (stripped_cstr lit const HU p s q Hp HS HQ) as [HQc Hq]. split; [|apply HQc].
  pose proof (fill_header_ok lit m const header HC HH HM HD HE HMk q (strip s) type size Hq HQc Hlen ltac:(by destruct Ht as [-> | ->])) as EF. set (F := made _ _ _) in *. clearbody F.
  unfold ustar_make_header. rewrite (M_bind_Ok _ _ _ tt (m, c)) by (by destruct Ht as [-> | ->]).
  rewrite (M_bind_Ok _ _ _ q (m, c)) by (unfold on_mem, reading; cbn [fst snd]; by rewrite EQ).
  rewrite (M_bind_Ok _ _ _ (Z.of_nat (length (strip s))) (m, c)) by (unfold on_mem, reading; cbn [fst snd]; by rewrite (strlen_ok m q (strip s)) by (lia || by eapply cstr_sub)).
  rewrite (proj2 (Z.ltb_ge 99 _)) by lia. erewrite M_bind_Ok; [done|]. unfold on_mem. cbn [fst snd]. by rewrite EF.
Qed.

(** C38: what ustar_make_header writes, ustar_parse_header reads back: for a file name whose stripped form has at most 99 characters,
    a regular file or a directory and any size an int can hold, making a header succeeds, writes exactly the 512 bytes of the header
    and prints nothing, and parsing them gives the stripped name, the type and the size (0 for a directory). *)
Theorem ustar_roundtrip p s type size c : 0 < p -> cstr const p s -> Z.of_nat (length (strip s)) <= 99 ->
  type = USTAR_REGULAR \/ type = USTAR_DIRECTORY -> 0 <= size < 2 ^ 31 ->
  exists H, length H = 512%nat /\ ustar_make_header lit p type size header (m, c) = Ok (true, (put header H m, c)) /\
    ustar_parse_header lit (put header H m) header = Ok (Parsed header type (if type =? USTAR_REGULAR then size else 0)) /\
    cstr (put header H m) header (strip s).
Proof.
  intros Hp HS Hlen Ht Hs. destruct (make_header_ok p s type size c Hp HS Hlen Ht) as [EM Hch]. unfold all_literals, literals in HL. rewrite !Forall_app in HL. destruct HL as (_ & HU & HMk & _).
  pose proof (parse_made lit m const header HC HH HD HU HMk (strip s) type size Hlen Hch (strip_safe s) Ht Hs) as EP.
  destruct (made_name m header (strip s) type size Hlen Hch) as [HN _]. pose proof (made_sized (strip s) type size Hlen) as HF. set (F := made _ _ _) in *. clearbody F.
  rewrite headed_bytes in *. exists (encode F). split; [by apply encode_length|]. done.
Qed.

(** a header that ustar_parse_header accepts is rejected after any change of one byte outside its checksum field. *)
Theorem damaged_header_rejected H i b b' p t n : length H = 512%nat -> Forall is_u8 H -> is_u8 b' -> H !! i = Some b -> b <> b' ->
  (Z.of_nat i < 148 \/ 156 <= Z.of_nat i) -> ustar_parse_header lit (put header H m) header = Ok (Parsed p t n) -> t <> USTAR_EOF ->
  exists e, ustar_parse_header lit (put header (<[i:=b']> H) m) header = Ok (Error e).
Proof.
  intros. unfold all_literals, literals in HL. rewrite !Forall_app in HL. destruct HL as (_ & _ & HMk & _). by apply (damaged_header lit m const header HC HH HD HMk H i b b' p t n).
Qed.

(** for a name whose stripped form has more than 99 characters ustar_make_header answers false and prints the message with that name;
    the header is not touched. *)
Theorem ustar_name_too_long p s type size c : 0 < p -> cstr const p s -> p + Z.of_nat (length s) < 2 ^ 31 -> 99 < Z.of_nat (length (strip s)) -> Z.of_nat (length (strip s)) < 2 ^ 31 - 22 ->
  type = USTAR_REGULAR \/ type = USTAR_DIRECTORY -> usable c ->
  ustar_make_header lit p type size header (m, c) = Ok (false, (m, typed (strip s ++ str ": file name too long
") c)).
Proof.
  intros Hp HS Hb Hlong Hmax Ht Hc. unfold all_literals, literals in HL. rewrite !Forall_app in HL. destruct HL as (HE & HU & _ & HX). apply Forall_singleton in HX as [HX _].
  destruct (strip_ok lit m (literals_sub lit const ustar_literals m HC HU) p s Hp (cstr_sub _ _ _ _ HC HS)) as (q & EQ & HQ).
  destruct (stripped_cstr lit const HU p s q Hp HS HQ) as [HQc Hq]. assert (HQm := cstr_sub _ _ _ _ HC HQc).
  assert (Hq32 : is_u32 q). { destruct HQ as [[-> E]|(k & Hk & -> & _)]; [rewrite E in Hlong; cbn in Hlong; lia|]. solve_int. }
  unfold ustar_make_header. rewrite (M_bind_Ok _ _ _ tt (m, c)) by (by destruct Ht as [-> | ->]).
  rewrite (M_bind_Ok _ _ _ q (m, c)) by (unfold on_mem, reading; cbn [fst snd]; by rewrite EQ).
  rewrite (M_bind_Ok _ _ _ (Z.of_nat (length (strip s))) (m, c)) by (unfold on_mem, reading; cbn [fst snd]; by rewrite (strlen_ok m q (strip s)) by (done || lia)).
  rewrite (proj2 (Z.ltb_lt 99 _)) by lia. set (l := Conv plain Cs q :: (Char <$> str ": file name too long
")).
  assert (ET : text (fun _ => strip s) l = strip s ++ str ": file name too long
").
  { unfold l, text. cbn [mbind list_bind text_item]. rewrite (proj2 (Z.eqb_neq q 0)) by lia. cbn [plain o_p o_prec]. unfold text_string, field. cbn [app length o_w o_width plain Z.to_nat Nat.sub replicate]. done. }
  pose proof (vprintf_ok lit m (fun _ => strip s) (literals_sub lit const engine_literals m HC HE) l (lit error_literal) []) as HV.
  rewrite ET, length_app in HV. replace (words l ++ []) with [q] in HV by (unfold l; cbn; by rewrite u32_small).
  rewrite (M_bind_Ok _ _ _ tt (m, typed (strip s ++ str ": file name too long
") c)); [done|]. unfold print, printf. erewrite M_bind_Ok; [done|]. apply HV; [|by apply (cstr_sub const)|cbn [length str]; lia|done].
  constructor; [|by repeat constructor]. split; [apply plain_options_ok|]. right. split; [done|]. split; [lia|]. split; [done|lia].
Qed.
End Theorems.

(** ** Examples *)

Definition ustar_table : list (string * Z) := place 1000 all_literals.
Definition ustar_lit (s : string) : Z := from_option snd 0 (find (fun e => String.eqb e.1 s) ustar_table).
(** The literals, the name "/../bin/ls" and a name of 100 letters. *)
Definition ustar_const : mem :=
  foldr (fun e m => put e.2 (str e.1 ++ [0]) m) (put 300 (str "/../bin/ls" ++ [0]) (put 400 (replicate 100 97 ++ [0]) ∅)) ustar_table.
Definition ustar_mem : mem := put 8000 (replicate 512 7) ustar_const.

Lemma ustar_demo_literals : literals ustar_lit all_literals ustar_const.
Proof. unfold all_literals. repeat constructor; try done; apply holds_cstr_ok; by_kernel. Qed.

Lemma ustar_above a : 8000 <= a -> ustar_const !! a = None.
Proof.
  intros Ha. unfold ustar_const, ustar_table. cbn [place all_literals engine_literals ustar_literals make_literals app foldr fst snd]. 
  rewrite !lookup_put. rewrite !decide_False, lookup_empty; [done|..]; rewrite ?length_app, ?length_replicate; cbn [length str error_literal String.length]; lia.
Qed.

Lemma ustar_fresh : ustar_const ⊆ ustar_mem /\ mapped ustar_mem 8000 512 /\ forall a, 8000 <= a < 8000 + 512 -> ustar_const !! a = None.
Proof.
  split; [apply put_fresh; intros a Ha; apply ustar_above; lia|]. split; [apply (put_area_mapped ustar_const 8000 (replicate 512 7))|]. intros a Ha. apply ustar_above. lia.
Qed.

Lemma ustar_roundtrip_witness : exists H, length H = 512%nat /\
  ustar_make_header ustar_lit 300 USTAR_REGULAR 4096 8000 (ustar_mem, demo_console) = Ok (true, (put 8000 H ustar_mem, demo_console)) /\
  ustar_parse_header ustar_lit (put 8000 H ustar_mem) 8000 = Ok (Parsed 8000 USTAR_REGULAR 4096) /\ cstr (put 8000 H ustar_mem) 8000 (str "bin/ls").
Proof.
  destruct ustar_fresh as (F1 & F2 & F3).
  refine (ustar_roundtrip ustar_lit ustar_mem ustar_const 8000 F1 _ F2 F3 ustar_demo_literals 300 (str "/../bin/ls") USTAR_REGULAR 4096 demo_console _ _ _ _ _).
  - lia.
  - lia.
  - apply holds_cstr_ok. by_kernel.
  - by vm_compute.
  - by left.
  - lia.
Defined.

Definition demo_header : list Z := encode (made (str "bin/ls") USTAR_REGULAR 4096).

Lemma demo_header_u8 : Forall is_u8 demo_header.
Proof. unfold demo_header. pose proof (made_u8 (str "bin/ls") USTAR_REGULAR 4096) as H. generalize dependent (made (str "bin/ls") USTAR_REGULAR 4096). intros F H. apply encode_u8, H; [by repeat constructor|done]. Qed.

End Ustar.
